(* ===== verification/_CoqProject ===== *)
-Q . S2P
Prelude.v
RustStr.v
Contracts.v
Json.v
Policy.v
PolicyRace.v
Planes.v
AuditSinks.v
Journal.v
JournalChain.v
Kernel.v
KernelGate.v
KernelRuns.v
Supervisor.v
Integration.v
Architecture.v
Mailbox.v
Protocol.v
RustPath.v
Plugin.v
PluginAbsorb.v
PluginIr.v
Bootstrap.v
PluginPlan.v
PluginScan.v
Work.v
WorkSteps.v
WorkGraph.v
WorkRows.v
WorkLeases.v
WorkOps.v
Fixtures.v
Witnesses.v
WorkWitnesses.v
Plan.v
PlanValid.v
PlanRun.v
Verifier.v
SafeLane.v
SafeLaneRun.v
SafeLaneText.v
FileDiff.v
FileEdit.v
FileTool.v
FileToolFacts.v
Bash.v
BashFacts.v
ToolPolicy.v
ToolPolicyFacts.v
Circuit.v
Async.v
Template.v
Programmatic.v
ProgrammaticBatch.v
ProgrammaticRun.v
Access.v
Autonomy.v
ControlEvents.v
ControlEventsFacts.v
ControlTurns.v
ControlTurnsFacts.v
ControlAuth.v
ControlAuthFacts.v
ControlServer.v
ControlHandlers.v
ControlServerFacts.v
Provider.v
ProviderHealth.v
ProviderHealthFacts.v
ProviderFailover.v
ProviderFailoverFacts.v
ProviderRequest.v
ProviderRequestFacts.v
ProviderCatalog.v
ProviderCatalogFacts.v
PluginWitnesses.v
ToolWitnesses.v
ProgrammaticWitnesses.v
ControlWitnesses.v
ProviderWitnesses.v
