(* ===== verification/Prelude.v ===== *)
(** * Loong: a verification development

    Loong is an agent runtime in Rust.  Its core is the crate [kernel]
    ([src/crates/kernel/src]): every action of an agent, be it a task, a tool
    call, a memory access or a connector call, goes through one object,
    [LoongKernel], which finds the agent's pack, checks the pack's boundary,
    asks a policy engine and its extensions about the agent's capability token,
    calls the adapter registered for the plane, and records the call in an
    audit sink.  The types live in [contracts] ([src/crates/contracts/src]); a
    control protocol with its own route policies is in [protocol]
    ([src/crates/protocol/src]).  The crate [app] ([src/crates/app/src]) builds
    the agent on top; of it, this development models the durable work queue,
    the plans of a conversation and the safe lane that runs a turn as a plan,
    the file tools, the governance of shell commands, the policies it registers
    with the kernel, the access policy of channels, the autonomy policy, the
    registries of the control plane, and the failover of requests to model
    providers.  Of [spec] ([src/crates/spec/src]) it
    models the programmatic tool calls and the circuit breaker of connectors;
    of [daemon] ([src/crates/daemon/src]) the control plane's HTTP server.

    ** How the parts interact

    The kernel owns a policy engine, an audit sink and a clock behind traits,
    four planes of adapters, a harness broker, a chain of policy extensions and
    two maps (packs and namespaces).  The policy engine keeps counters and a set
    of revoked tokens, shared between threads.  An audit sink is a bounded
    buffer, a journal file with a hash chain, or a fanout of sinks.  The task
    supervisor drives one task's state machine around one kernel call.  The
    integration catalog, the architecture guard, the mailboxes and the protocol
    router stand beside the kernel.

    Plugins enter in four stages: the scanner reads manifests from a directory
    tree; the translator turns descriptors into an intermediate representation
    and an activation plan; the bootstrap executor decides which ready
    candidates are applied; the absorber writes descriptors into the
    integration catalog and the pack.  Workers share a queue of work units in a
    database: they create, lease, run, heartbeat and complete units, with
    dependencies, retries and recovery of expired leases.

    A conversation turn on the safe lane is a plan, a graph of nodes that is
    validated, ordered and executed under a budget; its output is verified, and
    a failed round is planned again from the tool that failed.  The tools
    themselves check paths against a file root and shell commands against rules;
    the application also registers two policy extensions with the kernel, so
    that a call is checked before its adapter runs.  A programmatic tool call is
    a small workflow whose connector calls go to the kernel, with retries, rate
    limits, circuit breakers and batches under a concurrency budget.

    The control plane's server owns a manager of events, a registry of turns,
    three registries for connections, challenges and paired devices, and a
    kernel of its own.  A client connects, by a shared token or with a device
    that signs a challenge and was paired by an operator, and gets a lease and a
    kernel token for its scopes; each later request is resolved by the protocol
    router, its lease looked up, its capability compared with the lease's scopes
    and put to the kernel.

    A request to a model provider is prepared with the candidates of the model
    catalog, which concurrent callers fetch once, and the provider's credentials in
    the order of their health; it fails over from one pair to the next, each pair
    retried with backoff, and remembers what failed against the credential and the
    model.  Failures are recorded with the kernel.

    ** The files

    - [Prelude]: [Result], panics and the state monad [M] ([try_bind] is the
      [?] operator, [zoom] runs a component on its field), the mutex with its
      poison flag, [u64] arithmetic, the iteration order of [BTreeMap] and
      [BTreeSet], and the lemmas about all of these.
    - [RustStr], [RustPath]: the methods of [str] and [Path] the sources use, on
      UTF-8 bytes and Unix paths.  [Json]: JSON values, pointers, equality and
      printing.  [Async]: futures resumed by a reactor whose order
      is an input.
    - [Contracts]: [contracts.rs], [pack.rs], [errors.rs], [audit_types.rs],
      [fault.rs], [task_state.rs], [clock.rs] and the request types.
    - [Policy]: [policy.rs] and [policy_ext.rs].  The trait [PolicyEngine] is a
      class; [StaticPolicyEngine] implements it.
    - [PolicyRace]: the same engine, a call being several atomic steps that
      other threads' steps may separate.
    - [Planes]: [runtime.rs], [tool.rs], [memory.rs] (one generic [Plane] at
      three signatures), [connector.rs] with its panic isolation, [harness.rs].
    - [AuditSinks]: [audit.rs], the sinks in memory and the fanout; the class
      [AuditTrail] is what the kernel relies on.
    - [Journal]: [audit.rs], the journal: append, verify, repair, probe.
    - [JournalChain]: the theorems about the journal.
    - [Kernel]: [kernel.rs], every registration and every operation of
      [LoongKernel], one definition per method, in the order of the source.
    - [KernelGate]: the ten operations under a token as one type [KernelOp], the
      specification [gated] that all of them refine, and its consequences.
    - [KernelRuns]: the kernel along any sequence of calls.
    - [Supervisor]: [task_supervisor.rs].
    - [Integration]: [integration.rs].
    - [Architecture]: [architecture.rs].
    - [Mailbox]: [mailbox.rs].
    - [Protocol]: [protocol/src/lib.rs], the routes and the router.
    - [Plugin]: [plugin.rs], manifests, slot claims, host compatibility, metadata
      stamps and the absorber; [PluginAbsorb]: its theorems.
    - [PluginIr]: [plugin_ir.rs]; [Bootstrap]: [bootstrap.rs]; [PluginPlan]: the
      theorems about activation plans and bootstrap, and about the two after a
      scan.
    - [PluginScan]: [plugin.rs], the scanner and its theorems.
    - [Work]: [work_types.rs] and [app/src/work/repository.rs], the rows of the
      three tables and one definition per operation of the repository, each
      statement of the database a step that may fail.  [WorkSteps]: what an
      operation may do to the tables, as a step relation, and that every
      operation refines it.  [WorkGraph], [WorkRows], [WorkLeases], [WorkOps]:
      the dependency graph, the shape of the rows, leases and attempts, and the
      behaviour of single calls.
    - [Plan]: [plan_ir.rs] and [plan_executor.rs] of [app/src/conversation].
      [PlanValid]: the traversal that orders a graph, and validation; [PlanRun]:
      execution.  [Verifier]: [plan_verifier.rs].
    - [SafeLane]: [turn_budget.rs], [safe_lane_failure.rs], and of
      [turn_coordinator.rs] and its submodules the budgets, failure routes, the
      plan of a turn and the loop that runs it.  [SafeLaneRun], [SafeLaneText]:
      its termination, and what its answer contains.
    - [FileDiff], [FileEdit], [FileTool]: [app/src/tools/file.rs], the previews,
      the edits and the three tools, with their theorems (those of the tools in
      [FileToolFacts]).
    - [Bash], [BashFacts]: [bash_ast.rs], [bash_rules.rs], [bash_governance.rs]
      and [bash.rs].  [ToolPolicy], [ToolPolicyFacts]: [shell_policy_ext.rs],
      [file_policy_ext.rs] and [direct_policy_preflight.rs].
    - [Circuit]: [spec_runtime/connector_circuit.rs].  [Template],
      [Programmatic]: [programmatic.rs], the templates and the rest;
      [ProgrammaticBatch], [ProgrammaticRun]: scheduling, batches and whole
      workflows.
    - [Access]: [channel/access_policy.rs].  [Autonomy]: [autonomy_policy.rs].
    - [ControlEvents]: [app/src/control_plane.rs], the manager, and the event
      stream of the server.  [ControlTurns]: the registry of turns and the stream
      of a turn.  [ControlAuth]: connections, challenges, pairing and its tables
      ([session/repository.rs]).  [ControlServer], [ControlHandlers]:
      [daemon/src/control_plane_server.rs], the state and the checks, and one
      definition per handler.  [ControlEventsFacts], [ControlTurnsFacts],
      [ControlAuthFacts], [ControlServerFacts]: their theorems.
    - [Provider]: what the files of [app/src/provider] share, and the shape of
      their three caches with its specification.  [ProviderHealth]: the health of
      credentials ([profile_state_store.rs], [profile_health_policy.rs],
      [profile_health_runtime.rs], [profile_state_backend.rs]).
      [ProviderFailover]: [request_failover_runtime.rs] with cooldowns and
      telemetry.  [ProviderRequest]: [contracts.rs], [policy.rs],
      [request_planner.rs], [request_executor.rs] and what they read of the
      configuration.  [ProviderCatalog]: [catalog_runtime.rs],
      [model_candidate_resolver_runtime.rs], [request_session_runtime.rs].  Their
      theorems are in the files [...Facts].
    - [Fixtures], [Witnesses], [WorkWitnesses], [PluginWitnesses],
      [ToolWitnesses], [ProgrammaticWitnesses], [ControlWitnesses],
      [ProviderWitnesses]: concrete instances of the parameters, a concrete kernel,
      queue, plan, file tree, workflow, server and provider, and the theorems that
      have hypotheses applied where they hold.

    Definitions carry the name of the Rust item, a method that of its type
    first ([LoongKernel_execute_task]); record fields carry the initials of
    their struct ([lk_policy]).

    ** What the theorems show

    - The gate ([KernelGate]).  A call that succeeds passed the pack, the
      boundary, the engine and every extension, in that order, at one reading of
      the clock, and its audit events are the last of the trail (C1); what a
      policy denial returns, changes and records (C4); a refusal at the pack
      boundary records nothing ([boundary_denials], where the documents promise
      an event); the adapter named in the audit event is the
      one that ran ([audited_adapter_ran]); a failing adapter leaves no event
      ([failed_call_unaudited]).
    - Runs of the kernel ([KernelRuns]).  Revocation is final whatever follows
      (C2), scoped tokens stay within their pack and operations within their
      token (C3), event ids do not repeat, registries stay well formed and only
      registration changes them ([registries_well_formed]).
    - The policy engine ([Policy], [PolicyRace]).  Exactly which error is
      returned when (C7), permanence of revocation, use of fresh tokens, unique
      token ids, the generation cut-off and the counter's wrap-around; and under
      every interleaving of atomic steps: unique ids, the window of
      [revoke_generation], a call alone refines the sequential method.
    - The journal ([JournalChain]).  Appending keeps a verified journal verified
      (C8), the last seal commits to the whole history (C9), repair accepts,
      seals or refuses exactly as verification says (C10);
      [failed_unlock_breaks_chain] is the sequence of calls that breaks the chain.
    - Tools and their policies.  A tool call the kernel lets through satisfied
      both extensions (C11); the file tools read and change nothing outside their
      root, also through links (C14); [bash.exec] starts no process or the one
      that was judged (C15); a list of
      edits is one simultaneous replacement ([exact_edits_simultaneous]); a quoted shell word is read
      back (C32).  The line diff is a shortest one (C6).
    - Programmatic calls.  A workflow makes at most the calls it declares, on
      allowed connectors (C12), and acts on the kernel by kernel calls only, so
      the kernel's theorems hold of it (C13); a batch ends with every call
      answered (C26); no call starves ([scheduler_fair]); the breaker is open
      exactly after the configured failures (C27), holds ([circuit_open_holds])
      and lets a recovered connector in again ([circuit_recovers]); templates
      resolve to what their pieces say ([template_resolves]).
    - The control plane.  A request that is not refused carries a live lease
      from an admitted connect, its scopes and the kernel cover the route, and
      devices trace back to an operator's approval (C16); a refusal changes
      nothing but expired leases and the dead token presented (C34).  A challenge is answered once and in time (C17), a device is
      authorized only after approval (C18) and an approval survives a restart
      (C33).  Events are numbered and retained exactly (C35), also when recorded
      concurrently ([concurrent_events_numbered]), and a subscriber of events
      recorded one after the other misses none within the replay limit (C37); turns keep their shape (C38) and a finished
      turn is final ([finished_turn_final]).
      [connection_leases], [subscription_delivers], [paging_complete],
      [prune_evicts_oldest], [turn_stream_in_order], [turn_stream_replays] and
      [pairing_errors_change_nothing] complete the picture;
      [subscription_skips_backlog], [late_event_missed],
      [turn_stream_loses_terminal_event], [approval_lost_after_commit] and
      [revoked_device_authorized] are where the code falls short.
    - The work queue.  A lease is exclusive until it expires (C19); units move
      along their life cycle (C20); the dependencies form no cycle (C21), because
      the recursive query finds exactly the transitive dependents
      ([dependency_query_exact]); a call leases the first eligible unit (C5), and
      there is one while the unfinished ones are ready (C22); rows stay well formed and readable (C23); attempts stay within the
      retry policy ([attempts_within_policy]); a call that fails has changed
      nothing ([work_errors_change_nothing]).
    - The safe lane.  The text a turn ends with is made of one output of every
      tool intent, verified (C24), and the loop ends (C25); the autonomy policy
      bounds what a turn may prepare ([autonomy_turn_bounded]).
    - Providers.  A failing request is tried with every model and every
      credential, by their health, until one answers, and each failed attempt is
      audited as long as the sink takes it (C31); the request of one model ends within bounds of its policy (C40); the
      health of credentials is one independent machine per credential
      ([credential_health_independent]), holds a credential back only for a bounded
      time ([credential_recovers]), orders them ([profiles_prioritized]) and
      survives a restart (C39); the catalog of a provider is fetched by one caller
      at a time and shared soundly (C36); cooling models go last
      ([cooling_models_last]), ranking loses none ([ranked_candidates_exact]) and a
      session has candidates ([session_candidates_nonempty]).
      [try_next_model_ignored] is where the code falls short.
    - Plugins.  From a scan to bootstrap: what is applied was supported, ready,
      free of slot conflicts, and trusted or low-risk (C28); a candidate is ready
      exactly when the matrix, its manifest, its setup and its claims allow
      ([activation_plan_exact]); absorbing keeps exclusive slots exclusive
      ([absorb_slots_exclusive]) and is all or nothing ([absorb_all_or_nothing]);
      a scan reports only valid manifests, and ends ([scan_terminates]).
    - Plans.  Validation accepts exactly the well-formed acyclic plans (C29);
      its traversal ends on every graph ([plan_traversal_terminates]); a run
      reports exactly the attempts it made, attempts a node only after its
      dependencies succeeded and stays within its budgets (C30), and succeeds when its nodes do ([plan_run_succeeds]).
    - Beside the kernel: provisioning converges and hotfixes can be undone
      ([Integration]), the architecture guard's classification and its blind spot
      ([Architecture]), supervised execution and the task state machine
      ([Supervisor]), the router's decisions and the method names ([Protocol]),
      mailboxes and agent paths ([Mailbox]), the ring buffer and fanout
      ([AuditSinks]), panic isolation and harness routing ([Planes]), capability
      names ([Contracts]), channel access ([Access]).

    ** Bounds

    A [u64] is a [Z] with its wrap-around or saturation written out
    ([u64_wrapping_add], [u64_saturating_add]).  Theorems about uniqueness
    bound the number of calls by the counter's range: [engine_run] takes the
    largest generation revoked so far, one call of the kernel allocates at most
    three event ids, and the registries of the control plane ask for fewer than
    2^64 calls.  [usize] counters of the journal are [nat]: they count lines of a
    file in memory.  Theorems about the work queue ask that its log has at most
    [u32::MAX] entries, the range of the attempt counter, since every attempt
    writes an entry.

    The loops that are not structural take fuel:
    - [drain_loop] ([Mailbox]): any fuel above the number of queued messages is
      enough ([mailbox_delivers]).
    - [dependency_rounds] ([Work]): as many rounds as there are dependencies, and
      more add nothing ([dependency_query_exact]).
    - [traverse] ([Plan]): one round more than there are nodes, always enough
      ([plan_traversal_terminates]).
    - [collect_files] ([PluginScan]): fuel above the nesting depth of the scanned
      directory ([scan_terminates]).
    - [safe_lane_loop] ([SafeLane]): fuel above the number of replans allowed (C25).
    - [batch_loop], [fill_inflight] ([Programmatic]): one more than the calls, and
      one more than the pending ones (C26).
    - [split_existing_ancestor] ([FileTool]), [resolve_shell_word] ([Bash]),
      [walk_matrix] ([FileDiff]), [render_template] ([Template]): one more than
      the length of the path, word, lines or template they consume.
    - [attempt_loop] ([ProviderRequest]): the attempts of the policy, six
      adaptations, and the iterations the caller may ask for (C40).
    - [read_pages] ([ControlEventsFacts]): 257 requests read a ring of 256 events;
      [recorder_alone] ([ControlEvents]): eight atomic steps finish a recorder.
    The streams of the control plane run over the list of what the channel
    answers.

    ** What stands outside

    Third-party code is a class, its documented behaviour a class of laws:
    [SerdeJson] (values and their equality), [Semver] and [SemverReq] (does a
    version parse, does it meet a requirement), [AuditCodec] with
    [AuditCodecLaws] ([serde_json], [sha2] and [hex] as the journal uses them),
    [UnboundedChannel] with its laws ([tokio]), [WorkCodec] with [WorkCodecLaws]
    ([serde_json] as the work queue uses it), [SlotCodec] with [SlotCodecLaws]
    and [ManifestCodec] ([serde_json] as the plugins use it), [ScopeCodec] with
    [ScopeCodecLaws] and [TokenHash] with [TokenHashLaws] (scopes and device
    tokens as the pairing tables store them), [DeviceCrypto] ([base64],
    [ed25519_dalek]), [DefaultHasher], [SnapshotCodec] and [HttpDates] (the hash of a
    key, the state file and dates in headers, as the provider layer uses them),
    [HeaderText] (the text of a header), [FloatFormat] (printing
    of floating point numbers), [UnicodeText] (case mapping beyond ASCII); the
    tree-sitter parser of shell commands and the Starlark interpreter of rule
    files.  The outcomes of system calls and of database statements
    ([JournalIo], [RepairIo], [JournalRead], [SqlIo], [PairingIo]), the file
    system (with the laws [file_view] of where its paths lead), the clock, the executor of a plan's nodes, the order in which the
    reactor resumes futures, what a broadcast channel yields, the answers of the
    session views, and the environment of the adapters are parameters: a theorem
    holds for all of them.  Adapters and policy extensions may do anything, panics
    included, to the environment [W], and cannot reach the kernel's fields, as in
    the source.  SQL statements are translated to operations on the tables they
    name; a transaction that is not committed changes nothing, as SQLite
    documents.

    ** What is not modelled

    Concurrent calls of one kernel: a call of [LoongKernel] is one step of a
    run, except for the policy engine's calls, which [PolicyRace] interleaves.
    Calls of the work repository are serial too: each is one immediate
    transaction.  A handler of the control plane is one step of a run of the
    server, its registries' theorems hold for any sequence of their calls.  In
    [kernel]: [awareness.rs].  In [contracts]: secrets and workflow records.  In
    [protocol]: the transports, and the summaries of sessions, tasks and approvals.
    In [app]: the search tools, the rest of the turn coordinator, sessions,
    memory, channels, and of the providers the bodies, streams and HTTP calls, the
    SQLite backend and the rate limit headers, which are mostly database, network and
    configuration code.  The rest of [daemon] and [spec], and the crates [bench]
    and [bridge-runtime] (command line, servers, test drivers). *)

From stdpp Require Export base gmap sets list strings sorting.
From stdpp Require Import pretty.
From Stdlib Require Export ZArith Lia.

(** ** Results

    Rust's [Result<A, E>].  [?] is [result_bind] on pure code and [try_bind]
    on effectful code (below). *)

Inductive result (A E : Type) : Type :=
| Ok (a : A)
| Err (e : E).
Arguments Ok {A E} _.
Arguments Err {A E} _.

#[export] Instance result_eq_dec `{EqDecision A, EqDecision E} : EqDecision (result A E).
Proof. solve_decision. Defined.

Definition result_bind {A B E} (r : result A E) (f : A -> result B E) : result B E :=
  match r with
  | Ok a => f a
  | Err e => Err e
  end.

(** [Result::map_err]. *)
Definition map_err {A E F} (f : E -> F) (r : result A E) : result A F :=
  match r with
  | Ok a => Ok a
  | Err e => Err (f e)
  end.

(** [Option::ok_or]. *)
Definition ok_or {A E} (o : option A) (e : E) : result A E :=
  match o with
  | Some a => Ok a
  | None => Err e
  end.

Definition is_ok {A E} (r : result A E) : bool :=
  match r with Ok _ => true | Err _ => false end.

(** ** Effectful code

    A Rust call that may change state through [&self] or [&mut self] and may
    panic is a function [S -> outcome A * S].  A panic keeps the state reached
    when it was raised: nothing is rolled back. *)

(** What [std::panic::catch_unwind] hands back: the payload of [panic!] is a
    [String], a [&'static str] or any other value. *)
Inductive PanicPayload : Type :=
| PanicString (s : string)
| PanicStr (s : string)
| PanicAny.

Inductive outcome (A : Type) : Type :=
| Returned (a : A)
| Panicked (p : PanicPayload).
Arguments Returned {A} _.
Arguments Panicked {A} _.

Definition M (S A : Type) : Type := S -> outcome A * S.

Definition ret {S A} (a : A) : M S A := fun s => (Returned a, s).

Definition panic {S A} (p : PanicPayload) : M S A := fun s => (Panicked p, s).

Definition bind {S A B} (m : M S A) (f : A -> M S B) : M S B := fun s =>
  match m s with
  | (Returned a, s') => f a s'
  | (Panicked p, s') => (Panicked p, s')
  end.

(** [?] in effectful code: [Err] leaves the function. *)
Definition try_bind {S A B E} (m : M S (result A E)) (f : A -> M S (result B E))
  : M S (result B E) :=
  bind m (fun r => match r with Ok a => f a | Err e => ret (Err e) end).

Definition try_map_err {S A E F} (g : E -> F) (m : M S (result A E)) : M S (result A F) :=
  bind m (fun r => ret (map_err g r)).

Definition get {S} : M S S := fun s => (Returned s, s).

Definition gets {S A} (f : S -> A) : M S A := fun s => (Returned (f s), s).

Definition modify {S} (f : S -> S) : M S unit := fun s => (Returned tt, f s).

(** A component's operation run on the component's part of a larger state. *)
Definition zoom {S T A} (look : S -> T) (put : T -> S -> S) (m : M T A) : M S A := fun s =>
  let (r, t) := m (look s) in (r, put t s).

(** [std::sync::Mutex]: the guarded value, and whether a thread panicked while
    it held the lock ([lock] then answers [Err]). *)
Record Mutex (A : Type) : Type := { mx_value : A; mx_poisoned : bool }.
Arguments mx_value {A} _.
Arguments mx_poisoned {A} _.
Arguments Build_Mutex {A} _ _.

Definition Mutex_new {A} (a : A) : Mutex A := Build_Mutex a false.

Definition Mutex_lock {A E} (m : Mutex A) (poisoned : E) : result A E :=
  if mx_poisoned m then Err poisoned else Ok (mx_value m).

(** Writing through a guard. *)
Definition Mutex_store {A} (a : A) (m : Mutex A) : Mutex A :=
  Build_Mutex a (mx_poisoned m).

(** [panic = "abort"] of the release profile, or unwinding. *)
Inductive PanicStrategy : Type := Unwind | Abort.

(** [catch_unwind]: a panic becomes a value when the program unwinds; with the
    abort strategy the process ends at the panic, so nothing is caught. *)
Definition catch_unwind {S A} (ps : PanicStrategy) (m : M S A) : M S (outcome A) := fun s =>
  match m s with
  | (Returned a, s') => (Returned (Returned a), s')
  | (Panicked p, s') =>
      match ps with
      | Unwind => (Returned (Panicked p), s')
      | Abort => (Panicked p, s')
      end
  end.

Declare Scope rust_scope.
Delimit Scope rust_scope with rust.
Notation "'let!' x ':=' m 'in' k" := (bind m (fun x => k))
  (at level 10, x name, m at level 100, k at level 200) : rust_scope.
Notation "'run!' m 'in' k" := (bind m (fun _ => k))
  (at level 10, m at level 100, k at level 200) : rust_scope.
Notation "'let?' x ':=' m 'in' k" := (try_bind m (fun x => k))
  (at level 10, x name, m at level 100, k at level 200) : rust_scope.
Notation "'run?' m 'in' k" := (try_bind m (fun _ => k))
  (at level 10, m at level 100, k at level 200) : rust_scope.
Notation "'let*' x ':=' r 'in' k" := (result_bind r (fun x => k))
  (at level 10, x name, r at level 100, k at level 200) : rust_scope.
Open Scope rust_scope.

(** *** Laws of the monad *)

Lemma bind_ret_l {S A B} (a : A) (f : A -> M S B) s : bind (ret a) f s = f a s.
Proof. reflexivity. Qed.

Lemma bind_ret_r {S A} (m : M S A) s : bind m ret s = m s.
Proof. unfold bind, ret. by destruct (m s) as [[a|p] s']. Qed.

Lemma bind_assoc {S A B C} (m : M S A) (f : A -> M S B) (g : B -> M S C) s :
  bind (bind m f) g s = bind m (fun a => bind (f a) g) s.
Proof. unfold bind. by destruct (m s) as [[a|p] s']. Qed.

(** Inversion of a computation that returned: it went through every step. *)
Lemma bind_returned {S A B} (m : M S A) (f : A -> M S B) s b s'' :
  bind m f s = (Returned b, s'') ->
  exists a s', m s = (Returned a, s') /\ f a s' = (Returned b, s'').
Proof. unfold bind. destruct (m s) as [[a|p] s'] eqn:E; [eauto | done]. Qed.

Lemma try_bind_ok {S A B E} (m : M S (result A E)) (f : A -> M S (result B E)) s b s'' :
  try_bind m f s = (Returned (Ok b), s'') ->
  exists a s', m s = (Returned (Ok a), s') /\ f a s' = (Returned (Ok b), s'').
Proof.
  unfold try_bind. intros (r & s' & Hm & Hf)%bind_returned.
  destruct r as [a|e]; [eauto | done].
Qed.

Lemma result_bind_ok {A B E} (r : result A E) (f : A -> result B E) b :
  result_bind r f = Ok b <-> exists a, r = Ok a /\ f a = Ok b.
Proof. destruct r; simpl; naive_solver. Qed.

Lemma map_err_ok {A E F} (f : E -> F) (r : result A E) a : map_err f r = Ok a -> r = Ok a.
Proof. destruct r; simpl; congruence. Qed.

Lemma try_map_err_ok {S A E F} (g : E -> F) (m : M S (result A E)) s a s' :
  try_map_err g m s = (Returned (Ok a), s') -> m s = (Returned (Ok a), s').
Proof.
  unfold try_map_err. intros (r & s1 & Hm & Hf)%bind_returned.
  destruct r; by inversion Hf; subst.
Qed.

Lemma zoom_returned {S T A} (look : S -> T) put (m : M T A) s a s' :
  zoom look put m s = (Returned a, s') ->
  exists t, m (look s) = (Returned a, t) /\ s' = put t s.
Proof. unfold zoom. destruct (m (look s)) as [r t] eqn:E. naive_solver. Qed.

(** [preserves I m]: the computation keeps the invariant [I], whether it
    returns or panics. *)
Definition preserves {S A} (I : S -> Prop) (m : M S A) : Prop := forall s, I s -> I (m s).2.

Lemma preserves_ret {S A} (I : S -> Prop) (a : A) : preserves I (ret a).
Proof. by intros s Hs. Qed.

Lemma preserves_gets {S A} (I : S -> Prop) (f : S -> A) : preserves I (gets f).
Proof. by intros s Hs. Qed.

Lemma preserves_bind {S A B} (I : S -> Prop) (m : M S A) (f : A -> M S B) :
  preserves I m -> (forall a, preserves I (f a)) -> preserves I (bind m f).
Proof.
  intros Hm Hf s Hs. unfold bind. specialize (Hm s Hs).
  destruct (m s) as [[a|p] s']; simpl in *; [by apply Hf | done].
Qed.

Lemma preserves_try_bind {S A B E} (I : S -> Prop) (m : M S (result A E))
    (f : A -> M S (result B E)) :
  preserves I m -> (forall a, preserves I (f a)) -> preserves I (try_bind m f).
Proof.
  intros Hm Hf. apply preserves_bind; [done|]. intros [a|e]; auto using preserves_ret.
Qed.

Lemma preserves_try_map_err {S A E F} (I : S -> Prop) (g : E -> F) (m : M S (result A E)) :
  preserves I m -> preserves I (try_map_err g m).
Proof. intros Hm. apply preserves_bind; auto using preserves_ret. Qed.

Lemma preserves_zoom {S T A} (I : S -> Prop) look put (m : M T A) :
  (forall s t, I s -> I (put t s)) -> preserves I (zoom look put m).
Proof. intros Hput s Hs. unfold zoom. destruct (m (look s)). simpl. by apply Hput. Qed.

Create HintDb rust.
#[export] Hint Resolve preserves_ret preserves_gets preserves_bind preserves_try_bind
  preserves_try_map_err : rust.

(** Split every step of a computation known to have returned (or returned
    [Ok]). *)
Ltac rust_inv :=
  repeat match goal with
  | H : try_bind _ _ _ = (Returned (Ok _), _) |- _ =>
      apply try_bind_ok in H; destruct H as (? & ? & ? & H)
  | H : bind _ _ _ = (Returned _, _) |- _ =>
      apply bind_returned in H; destruct H as (? & ? & ? & H)
  | H : try_map_err _ _ _ = (Returned (Ok _), _) |- _ => apply try_map_err_ok in H
  | H : ret _ _ = (Returned _, _) |- _ => unfold ret in H; simplify_eq
  | H : gets _ _ = (Returned _, _) |- _ => unfold gets in H; simplify_eq
  | H : get _ = (Returned _, _) |- _ => unfold get in H; simplify_eq
  | H : modify _ _ = (Returned _, _) |- _ => unfold modify in H; simplify_eq
  end.

(** ** Machine integers

    [u64], [usize] (64-bit targets) and [u32] are [Z] with the bounds written
    out.  The release profile has no overflow checks, so [+] wraps. *)

Definition u64_modulus : Z := 2 ^ 64.
Definition u64_max : Z := u64_modulus - 1.
Definition u64_valid (z : Z) : Prop := (0 <= z <= u64_max)%Z.

(** [a + b] on [u64] in release, and [AtomicU64::fetch_add]. *)
Definition u64_wrapping_add (a b : Z) : Z := (a + b) mod u64_modulus.

Definition u64_wrapping_mul (a b : Z) : Z := (a * b) mod u64_modulus.

(** [u64::saturating_add]. *)
Definition u64_saturating_add (a b : Z) : Z := Z.min (a + b) u64_max.

#[export] Instance u64_valid_dec z : Decision (u64_valid z).
Proof. unfold u64_valid. apply _. Defined.

Lemma u64_wrapping_add_valid a b : u64_valid (u64_wrapping_add a b).
Proof.
  unfold u64_valid, u64_wrapping_add, u64_max, u64_modulus.
  pose proof (Z.mod_pos_bound (a + b) (2 ^ 64)). lia.
Qed.

Lemma u64_wrapping_add_small a b :
  u64_valid a -> u64_valid b -> (a + b <= u64_max)%Z -> u64_wrapping_add a b = (a + b)%Z.
Proof.
  unfold u64_valid, u64_wrapping_add, u64_max, u64_modulus. intros.
  apply Z.mod_small. lia.
Qed.

Lemma u64_saturating_add_valid a b :
  u64_valid a -> u64_valid b -> u64_valid (u64_saturating_add a b).
Proof. unfold u64_valid, u64_saturating_add, u64_max, u64_modulus. lia. Qed.

Lemma u64_saturating_add_ge a b :
  u64_valid a -> (0 <= b)%Z -> (a <= u64_saturating_add a b)%Z.
Proof. unfold u64_valid, u64_saturating_add. lia. Qed.

Lemma u64_saturating_succ_le n b :
  (0 <= n <= b)%Z -> (0 <= u64_saturating_add n 1 <= b + 1)%Z.
Proof. unfold u64_saturating_add, u64_max, u64_modulus. lia. Qed.

#[export] Hint Resolve u64_wrapping_add_valid u64_saturating_add_valid : rust.

(** ** Lists *)

(** [Iterator::find]. *)
Fixpoint find_first {A} (f : A -> bool) (l : list A) : option A :=
  match l with
  | [] => None
  | x :: l => if f x then Some x else find_first f l
  end.

Lemma find_first_Some {A} (f : A -> bool) l x :
  find_first f l = Some x <->
  exists l1 l2, l = l1 ++ x :: l2 /\ f x = true /\ Forall (fun y => f y = false) l1.
Proof.
  split.
  - induction l as [|y l IH]; simpl; [done|]. destruct (f y) eqn:Hy.
    + intros [= ->]. by exists [], l.
    + intros (l1 & l2 & -> & Hx & Hl)%IH. exists (y :: l1), l2. auto.
  - intros (l1 & l2 & -> & Hx & Hl). induction Hl as [|y l1 Hy _ IH]; simpl.
    + by rewrite Hx.
    + by rewrite Hy.
Qed.

Lemma find_first_None {A} (f : A -> bool) l :
  find_first f l = None <-> Forall (fun y => f y = false) l.
Proof.
  induction l as [|y l IH]; simpl; [naive_solver|].
  rewrite Forall_cons. destruct (f y); [|rewrite IH]; intuition congruence.
Qed.

(** First element failing a test: the shape of every "for x in xs { if !ok(x)
    { return Err(x) } }" loop of the kernel. *)
Lemma find_first_negb_None {A} (P : A -> bool) l :
  find_first (fun x => negb (P x)) l = None <-> Forall (fun x => P x = true) l.
Proof.
  rewrite find_first_None. apply Forall_iff. intros x. by rewrite negb_false_iff.
Qed.

(** *** Loops over a list *)

(** A loop whose step makes [Q] true exactly when it was, or when the element
    does. *)
Lemma fold_left_adds {A B} (Q : A -> Prop) (P : B -> Prop) (f : A -> B -> A) l a :
  (forall a b, Q (f a b) <-> Q a \/ P b) ->
  Q (fold_left f l a) <-> Q a \/ exists b, b ∈ l /\ P b.
Proof.
  intros Hf. revert a. induction l as [|b l IH]; intros a; simpl; [set_solver|].
  rewrite IH, Hf. set_solver.
Qed.

(** What holds of a loop's state, with the elements done so far, holds at its
    end. *)
Lemma fold_left_rule {A B} (I : list B -> A -> Prop) (f : A -> B -> A) l a :
  I [] a -> (forall done a x, I done a -> I (done ++ [x]) (f a x)) -> I l (fold_left f l a).
Proof.
  intros H0 Hstep. rewrite <- (app_nil_l l) at 1. revert H0. generalize (@nil B) as done. revert a.
  induction l as [|x l IH]; intros a done H; simpl; [by rewrite app_nil_r|].
  change (x :: l) with ([x] ++ l). rewrite app_assoc. apply IH. by apply Hstep.
Qed.

(** ** [BTreeMap] and [BTreeSet]

    Maps and sets are stdpp's [gmap] and [gset]; where the code iterates, the
    iteration is in ascending key order, as the B-tree's is. *)

(** The order of a key type: Rust's [Ord]. *)
Class RustOrd (K : Type) : Type := rust_le : relation K.

Class RustOrdLaws (K : Type) `{RustOrd K} : Type := {
  rust_le_dec :: RelDecision (rust_le (K := K));
  rust_le_trans :: Transitive (rust_le (K := K));
  rust_le_total :: Total (rust_le (K := K));
  rust_le_antisymm :: AntiSymm (=) (rust_le (K := K));
}.

#[export] Instance string_rust_ord : RustOrd string := String.le.
#[export] Instance string_rust_ord_laws : RustOrdLaws string.
Proof. split; apply _. Defined.

Section btree.
Context `{Countable K, RustOrd K, !RustOrdLaws K}.

(** The elements of a [BTreeSet] in iteration order. *)
Definition btree_set_iter (s : gset K) : list K := merge_sort rust_le (elements s).

Definition entry_le {V} (p q : K * V) : Prop := rust_le p.1 q.1.

#[export] Instance entry_le_dec {V} : RelDecision (entry_le (V := V)).
Proof. intros p q. unfold entry_le. apply _. Defined.

(** The entries of a [BTreeMap] in iteration order. *)
Definition btree_map_iter {V} (m : gmap K V) : list (K * V) :=
  merge_sort entry_le (map_to_list m).

(** [BTreeMap::values]. *)
Definition btree_map_values {V} (m : gmap K V) : list V := (btree_map_iter m).*2.

Lemma elem_of_btree_set_iter s k : k ∈ btree_set_iter s <-> k ∈ s.
Proof. unfold btree_set_iter. by rewrite merge_sort_Permutation, elem_of_elements. Qed.

Lemma NoDup_btree_set_iter s : NoDup (btree_set_iter s).
Proof. unfold btree_set_iter. rewrite merge_sort_Permutation. apply NoDup_elements. Qed.

Lemma sorted_btree_set_iter s : StronglySorted rust_le (btree_set_iter s).
Proof. unfold btree_set_iter. apply (StronglySorted_merge_sort _). Qed.

Lemma btree_set_iter_Permutation s : btree_set_iter s ≡ₚ elements s.
Proof. apply merge_sort_Permutation. Qed.

Lemma list_to_set_btree_set_iter s : list_to_set (btree_set_iter s) = s.
Proof. apply set_eq. intros k. by rewrite elem_of_list_to_set, elem_of_btree_set_iter. Qed.

Lemma elem_of_btree_map_iter {V} (m : gmap K V) k v :
  (k, v) ∈ btree_map_iter m <-> m !! k = Some v.
Proof. unfold btree_map_iter. by rewrite merge_sort_Permutation, elem_of_map_to_list. Qed.

Lemma elem_of_btree_map_values {V} (m : gmap K V) v :
  v ∈ btree_map_values m <-> exists k, m !! k = Some v.
Proof.
  unfold btree_map_values. rewrite list_elem_of_fmap. split.
  - intros ([k v'] & -> & Hin). exists k. by apply elem_of_btree_map_iter.
  - intros [k Hk]. exists (k, v). split; [done|]. by apply elem_of_btree_map_iter.
Qed.

(** The iteration order is the only sorted one. *)
Lemma btree_set_iter_unique s l :
  StronglySorted rust_le l -> l ≡ₚ elements s -> l = btree_set_iter s.
Proof.
  intros Hl Hp. apply (StronglySorted_unique rust_le); [done|apply sorted_btree_set_iter|].
  by rewrite btree_set_iter_Permutation.
Qed.

(** A loop over a set that leaves at the first element passing a test leaves
    at the least one. *)
Lemma find_first_btree_min (f : K -> bool) s k :
  find_first f (btree_set_iter s) = Some k ->
  k ∈ s /\ f k = true /\ forall d, d ∈ s -> f d = true -> rust_le k d.
Proof.
  intros (l1 & l2 & Hl & Hk & Hl1)%find_first_Some.
  pose proof (sorted_btree_set_iter s) as Hs. rewrite Hl in Hs.
  apply StronglySorted_app in Hs as (_ & _ & Hs).
  apply StronglySorted_cons in Hs as [Hk2 _].
  assert (forall d, d ∈ s <-> d ∈ l1 ++ k :: l2) as Hin
    by (intros d; by rewrite <- Hl, elem_of_btree_set_iter).
  split_and!; [apply Hin; set_solver|done|].
  intros d [Hd|[->|Hd]%elem_of_cons]%Hin%elem_of_app Hfd.
  - rewrite Forall_forall in Hl1. by rewrite Hl1 in Hfd.
  - by destruct (total rust_le k k).
  - rewrite Forall_forall in Hk2. by apply Hk2.
Qed.
End btree.
