(* ===== verification/RustStr.v ===== *)
(** * Strings of the Rust standard library

    A Rust [str] is a sequence of UTF-8 bytes, here [string] (one [ascii] per
    byte), so [str::len] is [String.length] and comparison is byte by byte, as
    [Ord for str] is.  The methods the sources call are defined on the bytes:
    trimming removes the UTF-8 encodings of the Unicode [White_Space]
    characters, the ASCII methods change single bytes below 128, and the
    formats are the decimal and the zero-padded hexadecimal ones. *)

From Stdlib Require Import Ascii.
Export (notations) Ascii.
From stdpp Require Import pretty.
From S2P Require Import Prelude.

(** ** Bytes *)

Definition byte_of (c : ascii) : N := N_of_ascii c.

(** One-byte whitespace: tab, line feed, vertical tab, form feed, carriage
    return, space. *)
Definition is_ascii_space (c : ascii) : bool :=
  let n := byte_of c in ((9 <=? n) && (n <=? 13) || (n =? 32))%N.

(** U+0085 and U+00A0. *)
Definition is_space2 (c1 c2 : ascii) : bool :=
  ((byte_of c1 =? 194) && ((byte_of c2 =? 133) || (byte_of c2 =? 160)))%N.

(** U+1680, U+2000..U+200A, U+2028, U+2029, U+202F, U+205F, U+3000. *)
Definition is_space3 (c1 c2 c3 : ascii) : bool :=
  let b1 := byte_of c1 in let b2 := byte_of c2 in let b3 := byte_of c3 in
  ((b1 =? 225) && (b2 =? 154) && (b3 =? 128)
   || (b1 =? 226) && (b2 =? 128)
      && ((128 <=? b3) && (b3 <=? 138) || (b3 =? 168) || (b3 =? 169) || (b3 =? 175))
   || (b1 =? 226) && (b2 =? 129) && (b3 =? 159)
   || (b1 =? 227) && (b2 =? 128) && (b3 =? 128))%N.

Definition is_ascii_uppercase (c : ascii) : bool := ((65 <=? byte_of c) && (byte_of c <=? 90))%N.
Definition is_ascii_lowercase (c : ascii) : bool := ((97 <=? byte_of c) && (byte_of c <=? 122))%N.
Definition is_ascii_digit (c : ascii) : bool := ((48 <=? byte_of c) && (byte_of c <=? 57))%N.
Definition is_ascii_alphanumeric (c : ascii) : bool :=
  is_ascii_uppercase c || is_ascii_lowercase c || is_ascii_digit c.

Definition ascii_lower (c : ascii) : ascii :=
  if is_ascii_uppercase c then ascii_of_N (byte_of c + 32) else c.

Definition char_eqb (a b : ascii) : bool := bool_decide (a = b).

(** ** Whole strings *)

Fixpoint str_forallb (f : ascii -> bool) (s : string) : bool :=
  match s with
  | EmptyString => true
  | String c r => f c && str_forallb f r
  end.

Definition str_contains_char (c : ascii) (s : string) : bool :=
  negb (str_forallb (fun x => negb (char_eqb x c)) s).

Fixpoint str_map (f : ascii -> ascii) (s : string) : string :=
  match s with
  | EmptyString => EmptyString
  | String c r => String (f c) (str_map f r)
  end.

Definition str_is_empty (s : string) : bool :=
  match s with EmptyString => true | _ => false end.

(** [str::to_ascii_lowercase]. *)
Definition to_ascii_lowercase (s : string) : string := str_map ascii_lower s.

(** [str::replace(from, "t")] for characters [from] and [t] of one byte. *)
Definition replace_char (from to : ascii) (s : string) : string :=
  str_map (fun c => if char_eqb c from then to else c) s.

(** [str::trim_start]. *)
Fixpoint trim_start (s : string) : string :=
  match s with
  | EmptyString => EmptyString
  | String c1 r1 =>
      if is_ascii_space c1 then trim_start r1 else
      match r1 with
      | EmptyString => s
      | String c2 r2 =>
          if is_space2 c1 c2 then trim_start r2 else
          match r2 with
          | EmptyString => s
          | String c3 r3 => if is_space3 c1 c2 c3 then trim_start r3 else s
          end
      end
  end.

(** The mirror image, on a reversed string. *)
Fixpoint trim_start_rev (s : string) : string :=
  match s with
  | EmptyString => EmptyString
  | String c1 r1 =>
      if is_ascii_space c1 then trim_start_rev r1 else
      match r1 with
      | EmptyString => s
      | String c2 r2 =>
          if is_space2 c2 c1 then trim_start_rev r2 else
          match r2 with
          | EmptyString => s
          | String c3 r3 => if is_space3 c3 c2 c1 then trim_start_rev r3 else s
          end
      end
  end.

(** [str::trim_end] and [str::trim]. *)
Definition trim_end (s : string) : string := String.rev (trim_start_rev (String.rev s)).
Definition trim (s : string) : string := trim_end (trim_start s).

(** [str::strip_prefix] and [str::starts_with]. *)
Fixpoint strip_prefix (p s : string) : option string :=
  match p, s with
  | EmptyString, _ => Some s
  | String a p, String b s => if char_eqb a b then strip_prefix p s else None
  | String _ _, EmptyString => None
  end.

Definition starts_with (p s : string) : bool :=
  match strip_prefix p s with Some _ => true | None => false end.

(** [str::strip_suffix] and [str::ends_with]. *)
Definition strip_suffix (p s : string) : option string :=
  option_map String.rev (strip_prefix (String.rev p) (String.rev s)).

Definition ends_with (p s : string) : bool := starts_with (String.rev p) (String.rev s).

(** Well-formed UTF-8, by the table of well-formed byte sequences: what
    [String::from_utf8] and [BufRead::lines] accept. *)
Definition in_range (lo hi : N) (c : ascii) : bool := ((lo <=? byte_of c) && (byte_of c <=? hi))%N.

Fixpoint utf8_valid (s : string) : bool :=
  match s with
  | EmptyString => true
  | String c1 r1 =>
      if in_range 0 127 c1 then utf8_valid r1 else
      match r1 with
      | EmptyString => false
      | String c2 r2 =>
          if in_range 194 223 c1 then in_range 128 191 c2 && utf8_valid r2 else
          match r2 with
          | EmptyString => false
          | String c3 r3 =>
              if in_range 224 239 c1 then
                (if (byte_of c1 =? 224)%N then in_range 160 191 c2
                 else if (byte_of c1 =? 237)%N then in_range 128 159 c2
                 else in_range 128 191 c2) && in_range 128 191 c3 && utf8_valid r3
              else
              match r3 with
              | EmptyString => false
              | String c4 r4 =>
                  in_range 240 244 c1 &&
                  (if (byte_of c1 =? 240)%N then in_range 144 191 c2
                   else if (byte_of c1 =? 244)%N then in_range 128 143 c2
                   else in_range 128 191 c2) && in_range 128 191 c3 && in_range 128 191 c4
                  && utf8_valid r4
              end
          end
      end
  end.

(** [String::from_utf8_lossy]: each longest prefix of a well-formed sequence
    that does not go on, and each stray byte, becomes U+FFFD. *)
Definition replacement_character : string := "�".

Definition utf8_second3 (c1 c2 : ascii) : bool :=
  if (byte_of c1 =? 224)%N then in_range 160 191 c2
  else if (byte_of c1 =? 237)%N then in_range 128 159 c2
  else in_range 128 191 c2.

Definition utf8_second4 (c1 c2 : ascii) : bool :=
  if (byte_of c1 =? 240)%N then in_range 144 191 c2
  else if (byte_of c1 =? 244)%N then in_range 128 143 c2
  else in_range 128 191 c2.

Fixpoint utf8_lossy (s : string) : string :=
  match s with
  | EmptyString => EmptyString
  | String c1 r1 =>
      if in_range 0 127 c1 then String c1 (utf8_lossy r1) else
      if in_range 194 223 c1 then
        match r1 with
        | String c2 r2 =>
            if in_range 128 191 c2 then String c1 (String c2 (utf8_lossy r2))
            else replacement_character +:+ utf8_lossy r1
        | EmptyString => replacement_character
        end else
      if in_range 224 239 c1 then
        match r1 with
        | String c2 r2 =>
            if utf8_second3 c1 c2 then
              match r2 with
              | String c3 r3 =>
                  if in_range 128 191 c3 then String c1 (String c2 (String c3 (utf8_lossy r3)))
                  else replacement_character +:+ utf8_lossy r2
              | EmptyString => replacement_character
              end
            else replacement_character +:+ utf8_lossy r1
        | EmptyString => replacement_character
        end else
      if in_range 240 244 c1 then
        match r1 with
        | String c2 r2 =>
            if utf8_second4 c1 c2 then
              match r2 with
              | String c3 r3 =>
                  if in_range 128 191 c3 then
                    match r3 with
                    | String c4 r4 =>
                        if in_range 128 191 c4
                        then String c1 (String c2 (String c3 (String c4 (utf8_lossy r4))))
                        else replacement_character +:+ utf8_lossy r3
                    | EmptyString => replacement_character
                    end
                  else replacement_character +:+ utf8_lossy r2
              | EmptyString => replacement_character
              end
            else replacement_character +:+ utf8_lossy r1
        | EmptyString => replacement_character
        end else
      replacement_character +:+ utf8_lossy r1
  end.

(** The segments between line feeds, each with whether a line feed ended it. *)
Fixpoint split_lines (s : string) : list (string * bool) :=
  match s with
  | EmptyString => []
  | String c r =>
      if (byte_of c =? 10)%N then ("", true) :: split_lines r else
      match split_lines r with
      | [] => [(String c "", false)]
      | (l, t) :: ls => (String c l, t) :: ls
      end
  end.

Definition carriage_return : string := String (ascii_of_N 13) "".
Definition newline_char : ascii := ascii_of_N 10.
Definition line_feed : string := String newline_char "".

(** [BufRead::lines]: the line feed that ended a line, and a carriage return
    before it, are removed; a line that is not UTF-8 is an error. *)
Definition buf_line (seg : string * bool) : result string string :=
  let line := if seg.2 then default seg.1 (strip_suffix carriage_return seg.1) else seg.1 in
  if utf8_valid line then Ok line else Err "stream did not contain valid UTF-8".

Definition buf_lines (s : string) : list (result string string) := map buf_line (split_lines s).

(** [str::contains] for a substring. *)
Fixpoint str_contains (p s : string) : bool :=
  starts_with p s ||
  match s with
  | EmptyString => false
  | String _ r => str_contains p r
  end.

(** [str::trim_start_matches] for one character. *)
Fixpoint trim_start_char (c : ascii) (s : string) : string :=
  match s with
  | EmptyString => EmptyString
  | String a r => if char_eqb a c then trim_start_char c r else s
  end.

(** [str::split] at one character: always at least one piece. *)
Fixpoint split_char (c : ascii) (s : string) : list string :=
  match s with
  | EmptyString => [EmptyString]
  | String a r =>
      if char_eqb a c then EmptyString :: split_char c r
      else match split_char c r with
           | p :: ps => String a p :: ps
           | [] => [String a EmptyString]
           end
  end.

(** Writing byte strings one after the other. *)
Fixpoint str_concat (l : list string) : string :=
  match l with
  | [] => ""
  | x :: l => x +:+ str_concat l
  end.

(** [[T]::join]. *)
Fixpoint join (sep : string) (l : list string) : string :=
  match l with
  | [] => EmptyString
  | [x] => x
  | x :: l => x +:+ sep +:+ join sep l
  end.

(** [str::lines]. *)
Definition str_lines (s : string) : list string :=
  map (fun seg : string * bool => if seg.2 then default seg.1 (strip_suffix carriage_return seg.1) else seg.1)
    (split_lines s).

(** [str::find]: the text before the first occurrence. *)
Fixpoint before_first (p s : string) : option string :=
  if starts_with p s then Some EmptyString
  else match s with
       | EmptyString => None
       | String c r => option_map (String c) (before_first p r)
       end.

Fixpoint str_drop (n : nat) (s : string) : string :=
  match n, s with
  | S n, String _ r => str_drop n r
  | _, _ => s
  end.

(** [s.chars().count()]: the bytes of UTF-8 text that start a character. *)
Fixpoint chars_count (s : string) : nat :=
  match s with
  | EmptyString => 0
  | String c r => if in_range 128 191 c then chars_count r else S (chars_count r)
  end.

(** [{}] of an unsigned integer. *)
Definition fmt_dec (n : Z) : string := pretty (Z.to_N n).

Definition digit_value (c : ascii) : option Z :=
  if is_ascii_digit c then Some (Z.of_N (byte_of c) - 48)%Z else None.

Fixpoint parse_digits (acc : Z) (s : string) : result Z string :=
  match s with
  | EmptyString => Ok acc
  | String c r =>
      match digit_value c with
      | None => Err "invalid digit found in string"
      | Some d =>
          let next := (10 * acc + d)%Z in
          if (u64_max <? next)%Z then Err "number too large to fit in target type"
          else parse_digits next r
      end
  end.

(** [str::parse::<u64>], also [usize] on a 64-bit machine, with the texts of
    [ParseIntError]: an optional sign, then at least one digit, within range. *)
Definition parse_u64 (s : string) : result Z string :=
  if str_is_empty s then Err "cannot parse integer from empty string" else
  let digits := match s with String "+" r => r | _ => s end in
  if str_is_empty digits then Err "invalid digit found in string" else parse_digits 0 digits.

Definition hex_digit (d : Z) : ascii :=
  ascii_of_N (Z.to_N (if (d <? 10)%Z then 48 + d else 87 + d)).

Fixpoint hex_digits (k : nat) (n : Z) (acc : string) : string :=
  match k with
  | O => acc
  | S k => hex_digits k (n / 16) (String (hex_digit (n mod 16)) acc)
  end.

(** [{:016x}] of a [u64]: sixteen digits. *)
Definition fmt_016x (n : Z) : string := hex_digits 16 n EmptyString.

Example trim_example : trim "  read_only	" = "read_only".
Proof. reflexivity. Qed.
Example fmt_016x_example : fmt_016x 255 = "00000000000000ff".
Proof. reflexivity. Qed.
Example buf_lines_example :
  buf_lines ("ab" +:+ carriage_return +:+ line_feed +:+ line_feed +:+ "c" +:+ carriage_return)
  = [Ok "ab"; Ok ""; Ok ("c" +:+ carriage_return)].
Proof. reflexivity. Qed.
Example split_example : split_char "/" "/root//a" = [""; "root"; ""; "a"].
Proof. reflexivity. Qed.

(** ** Lemmas *)

Lemma char_eqb_eq a b : char_eqb a b = true <-> a = b.
Proof. apply bool_decide_eq_true. Qed.

Lemma char_eqb_refl a : char_eqb a a = true.
Proof. by apply char_eqb_eq. Qed.

Lemma str_app_nil_l s : "" +:+ s = s.
Proof. reflexivity. Qed.

Lemma str_app_cons c s t : String c s +:+ t = String c (s +:+ t).
Proof. reflexivity. Qed.

Lemma str_app_nil_r s : s +:+ "" = s.
Proof. induction s as [|c s IH]; [done|]. rewrite str_app_cons. by f_equal. Qed.

Lemma str_app_assoc s t u : (s +:+ t) +:+ u = s +:+ (t +:+ u).
Proof.
  induction s as [|c s IH]; [done|]. rewrite !str_app_cons. by f_equal.
Qed.

Create Rewrite HintDb str.
#[export] Hint Rewrite str_app_nil_l str_app_cons str_app_nil_r str_app_assoc : str.

Lemma str_length_app s t : String.length (s +:+ t) = String.length s + String.length t.
Proof. induction s as [|c s IH]; simpl; [done|]. by rewrite IH. Qed.

Lemma replace_char_absent from to s :
  str_forallb (fun c => negb (char_eqb c from)) s = true -> replace_char from to s = s.
Proof.
  unfold replace_char. induction s as [|c s IH]; simpl; [done|].
  intros [Hc%negb_true_iff Hs]%andb_prop. by rewrite Hc, IH.
Qed.

Lemma str_concat_snoc l x : str_concat (l ++ [x]) = str_concat l +:+ x.
Proof.
  induction l as [|y l IH]; simpl; [apply str_app_nil_r|]. by rewrite IH, str_app_assoc.
Qed.

Lemma rev_app_spec s t : String.rev_app s t = String.rev s +:+ t.
Proof.
  unfold String.rev. revert t. induction s as [|c s IH]; intros t; simpl; [done|].
  rewrite IH, (IH (String c "")). rewrite str_app_assoc. reflexivity.
Qed.

Lemma str_rev_cons c s : String.rev (String c s) = String.rev s +:+ String c "".
Proof. unfold String.rev at 1. simpl. apply rev_app_spec. Qed.

Lemma str_rev_app s t : String.rev (s +:+ t) = String.rev t +:+ String.rev s.
Proof.
  induction s as [|c s IH]; [by rewrite str_app_nil_r|].
  rewrite str_app_cons, !str_rev_cons, IH. by rewrite str_app_assoc.
Qed.

Lemma str_rev_involutive s : String.rev (String.rev s) = s.
Proof.
  induction s as [|c s IH]; [done|]. rewrite str_rev_cons, str_rev_app, IH. reflexivity.
Qed.

Lemma str_forallb_app f s t : str_forallb f (s +:+ t) = str_forallb f s && str_forallb f t.
Proof.
  induction s as [|c s IH]; [done|]. rewrite str_app_cons. simpl. by rewrite IH, andb_assoc.
Qed.

Lemma str_forallb_rev f s : str_forallb f (String.rev s) = str_forallb f s.
Proof.
  induction s as [|c s IH]; [done|]. rewrite str_rev_cons, str_forallb_app, IH. simpl.
  rewrite andb_true_r. apply andb_comm.
Qed.

Lemma str_forallb_impl (f g : ascii -> bool) s :
  (forall c, f c = true -> g c = true) -> str_forallb f s = true -> str_forallb g s = true.
Proof.
  intros Hfg. induction s as [|c s IH]; simpl; [done|].
  rewrite !andb_true_iff. naive_solver.
Qed.

(** Strings of visible ASCII bytes are not changed by trimming. *)
Definition is_visible (c : ascii) : bool := ((33 <=? byte_of c) && (byte_of c <=? 126))%N.

Lemma visible_not_space c : is_visible c = true -> is_ascii_space c = false.
Proof.
  unfold is_visible, is_ascii_space. rewrite andb_true_iff, !N.leb_le. intros [??].
  apply orb_false_iff. rewrite andb_false_iff, !N.leb_gt, N.eqb_neq. lia.
Qed.

Lemma visible_not_space2 c d : is_visible c = true -> is_space2 c d = false /\ is_space2 d c = false.
Proof.
  unfold is_visible, is_space2. rewrite andb_true_iff, !N.leb_le. intros [??].
  split; apply andb_false_iff; rewrite ?orb_false_iff, !N.eqb_neq; lia.
Qed.

Lemma visible_not_space3 c d e :
  is_visible c = true -> is_space3 c d e = false /\ is_space3 e d c = false.
Proof.
  unfold is_visible, is_space3. rewrite andb_true_iff, !N.leb_le. intros [??].
  destruct (N.eqb_spec (byte_of c) 225), (N.eqb_spec (byte_of c) 226),
    (N.eqb_spec (byte_of c) 227), (N.eqb_spec (byte_of c) 128), (N.eqb_spec (byte_of c) 159),
    (N.eqb_spec (byte_of c) 168), (N.eqb_spec (byte_of c) 169), (N.eqb_spec (byte_of c) 175),
    (N.leb_spec 128 (byte_of c)); try lia.
Qed.

Lemma trim_start_visible s : str_forallb is_visible s = true -> trim_start s = s.
Proof.
  destruct s as [|c1 [|c2 [|c3 s]]]; simpl; [done|..]; rewrite ?andb_true_iff;
    intros Hv; destruct_and?.
  all: rewrite visible_not_space by done; try done.
  all: rewrite (proj1 (visible_not_space2 c1 c2 ltac:(done))); try done.
  by rewrite (proj1 (visible_not_space3 c1 c2 c3 ltac:(done))).
Qed.

Lemma trim_start_rev_visible s : str_forallb is_visible s = true -> trim_start_rev s = s.
Proof.
  destruct s as [|c1 [|c2 [|c3 s]]]; simpl; [done|..]; rewrite ?andb_true_iff;
    intros Hv; destruct_and?.
  all: rewrite visible_not_space by done; try done.
  all: rewrite (proj2 (visible_not_space2 c1 c2 ltac:(done))); try done.
  by rewrite (proj2 (visible_not_space3 c1 c2 c3 ltac:(done))).
Qed.

Lemma trim_visible s : str_forallb is_visible s = true -> trim s = s.
Proof.
  intros Hs. unfold trim, trim_end. rewrite trim_start_visible by done.
  rewrite trim_start_rev_visible by (by rewrite str_forallb_rev).
  apply str_rev_involutive.
Qed.

Lemma strip_prefix_Some p s r : strip_prefix p s = Some r <-> s = p +:+ r.
Proof.
  revert s. induction p as [|a p IH]; intros s; [simpl; split; [by intros [= ->]|by intros ->]|].
  destruct s as [|b s]; simpl; rewrite str_app_cons; [done|].
  destruct (char_eqb a b) eqn:Hab.
  - apply char_eqb_eq in Hab as ->. rewrite IH. naive_solver.
  - split; [done|]. intros [= -> ->]. by rewrite char_eqb_refl in Hab.
Qed.

Lemma starts_with_spec p s : starts_with p s = true <-> exists r, s = p +:+ r.
Proof.
  unfold starts_with. destruct (strip_prefix p s) as [r|] eqn:E.
  - apply strip_prefix_Some in E. naive_solver.
  - split; [done|]. intros [r ->]. by rewrite (proj2 (strip_prefix_Some p (p +:+ r) r)) in E.
Qed.

Lemma strip_suffix_Some p s r : strip_suffix p s = Some r <-> s = r +:+ p.
Proof.
  unfold strip_suffix. destruct (strip_prefix _ _) as [t|] eqn:E; simpl.
  - apply strip_prefix_Some in E. apply (f_equal String.rev) in E.
    rewrite str_rev_app, !str_rev_involutive in E. subst s. split; [by intros [= ->]|].
    intros H%(f_equal String.rev). rewrite !str_rev_app in H. f_equal.
    apply String.app_inj, (f_equal String.rev) in H. by rewrite !str_rev_involutive in H.
  - split; [done|]. intros ->. rewrite str_rev_app in E.
    by rewrite (proj2 (strip_prefix_Some _ _ (String.rev r))) in E.
Qed.

(** *** Trimming twice *)

Lemma string_peel_ind (P : string -> Prop) :
  (forall s, (forall t, String.length t < String.length s -> P t) -> P s) -> forall s, P s.
Proof.
  intros H s. remember (String.length s) as n eqn:Hn. revert s Hn.
  induction (lt_wf n) as [n _ IH]. intros s ->. apply H. intros t Ht. by eapply IH.
Qed.

(** What a string is cut into from its left end, given the white space of one,
    two and three bytes: [trim_start] and its mirror image are both cuts. *)
Section peel.
Variable sp2 : ascii -> ascii -> bool.
Variable sp3 : ascii -> ascii -> ascii -> bool.

(** Whether the string begins with white space. *)
Definition leads_space (s : string) : bool :=
  match s with
  | EmptyString => false
  | String c1 r1 =>
      is_ascii_space c1 ||
      match r1 with
      | EmptyString => false
      | String c2 r2 =>
          sp2 c1 c2 || match r2 with EmptyString => false | String c3 _ => sp3 c1 c2 c3 end
      end
  end.

(** The shape both trimming functions have. *)
Definition peels (cut : string -> string) : Prop := forall s,
  cut s = if leads_space s then
    match s with
    | String c1 r1 =>
        if is_ascii_space c1 then cut r1 else
        match r1 with
        | String c2 r2 =>
            if sp2 c1 c2 then cut r2 else
            match r2 with String _ r3 => cut r3 | EmptyString => s end
        | EmptyString => s
        end
    | EmptyString => s
    end else s.

Lemma leads_space_prefix q r : leads_space (q +:+ r) = false -> leads_space q = false.
Proof.
  destruct q as [|c1 [|c2 [|c3 q]]]; [done|..]; rewrite !str_app_cons; simpl;
    rewrite ?orb_false_iff; tauto.
Qed.

Lemma peels_spec cut s :
  peels cut -> (exists p, s = p +:+ cut s) /\ leads_space (cut s) = false.
Proof.
  intros Hcut. induction s as [s IH] using string_peel_ind. rewrite Hcut.
  destruct (leads_space s) eqn:Hs; [|by split; [exists ""|]].
  destruct s as [|c1 r1]; [done|]. simpl in *. destruct (is_ascii_space c1).
  { destruct (IH r1) as [[p Hp] ?]; [lia|]. split; [|done].
    exists (String c1 p). rewrite str_app_cons. by rewrite <- Hp. }
  destruct r1 as [|c2 r2]; [done|]. destruct (sp2 c1 c2).
  { destruct (IH r2) as [[p Hp] ?]; [simpl; lia|]. split; [|done].
    exists (String c1 (String c2 p)). rewrite !str_app_cons. by rewrite <- Hp. }
  destruct r2 as [|c3 r3]; [done|].
  destruct (IH r3) as [[p Hp] ?]; [simpl; lia|]. split; [|done].
  exists (String c1 (String c2 (String c3 p))). rewrite !str_app_cons. by rewrite <- Hp.
Qed.

Lemma peels_fixed cut s : peels cut -> leads_space s = false -> cut s = s.
Proof. intros Hcut Hs. by rewrite Hcut, Hs. Qed.
End peel.

Lemma trim_start_peels : peels is_space2 is_space3 trim_start.
Proof.
  intros [|c1 [|c2 [|c3 r3]]]; simpl; [done|..];
    destruct (is_ascii_space c1); simpl; try done; destruct (is_space2 c1 c2); simpl; try done;
    by destruct (is_space3 c1 c2 c3).
Qed.

Lemma trim_start_rev_peels :
  peels (fun c1 c2 => is_space2 c2 c1) (fun c1 c2 c3 => is_space3 c3 c2 c1) trim_start_rev.
Proof.
  intros [|c1 [|c2 [|c3 r3]]]; simpl; [done|..];
    destruct (is_ascii_space c1); simpl; try done; destruct (is_space2 c2 c1); simpl; try done;
    by destruct (is_space3 c3 c2 c1).
Qed.

(** [trim] leaves no white space at either end. *)
Lemma trim_trim s : trim (trim s) = trim s.
Proof.
  unfold trim, trim_end.
  destruct (peels_spec _ _ _ s trim_start_peels) as [_ Hs].
  set (t := trim_start s) in *.
  destruct (peels_spec _ _ _ (String.rev t) trim_start_rev_peels) as [[p Hp] Hr].
  set (u := trim_start_rev (String.rev t)) in *.
  assert (t = String.rev u +:+ String.rev p) as Ht
    by (rewrite <- str_rev_app, <- Hp; by rewrite str_rev_involutive).
  rewrite Ht in Hs. apply leads_space_prefix in Hs.
  rewrite (peels_fixed _ _ _ _ trim_start_peels Hs), str_rev_involutive.
  by rewrite (peels_fixed _ _ _ _ trim_start_rev_peels Hr).
Qed.
(** *** Hexadecimal identifiers are injective *)

Lemma hex_digit_inj a b :
  (0 <= a < 16)%Z -> (0 <= b < 16)%Z -> hex_digit a = hex_digit b -> a = b.
Proof.
  unfold hex_digit. intros Ha Hb H%(f_equal N_of_ascii).
  rewrite !N_ascii_embedding in H by (destruct (Z.ltb_spec a 10), (Z.ltb_spec b 10); lia).
  destruct (Z.ltb_spec a 10), (Z.ltb_spec b 10); lia.
Qed.

Lemma hex_digits_inj k n m acc acc' :
  hex_digits k n acc = hex_digits k m acc' ->
  (n mod 16 ^ Z.of_nat k = m mod 16 ^ Z.of_nat k)%Z /\ acc = acc'.
Proof.
  revert n m acc acc'. induction k as [|k IH]; intros n m acc acc'; cbn [hex_digits].
  - intros ->. by rewrite !Z.mod_1_r.
  - intros [Hq [= Hd ->]]%IH. split; [|done].
    apply hex_digit_inj in Hd; [|apply Z.mod_pos_bound; lia..].
    rewrite Nat2Z.inj_succ, Z.pow_succ_r by lia.
    assert (0 < 16 ^ Z.of_nat k)%Z by (apply Z.pow_pos_nonneg; lia).
    rewrite !Z.rem_mul_r by lia. lia.
Qed.

Lemma hex_digit_visible d : (0 <= d < 16)%Z -> is_visible (hex_digit d) = true.
Proof.
  intros Hd. unfold is_visible, byte_of, hex_digit.
  rewrite N_ascii_embedding by (destruct (Z.ltb_spec d 10); lia).
  apply andb_true_iff. destruct (Z.ltb_spec d 10); rewrite !N.leb_le; lia.
Qed.

Lemma hex_digits_visible k n acc :
  str_forallb is_visible acc = true -> str_forallb is_visible (hex_digits k n acc) = true.
Proof.
  revert n acc. induction k as [|k IH]; intros n acc Hacc; cbn [hex_digits]; [done|].
  apply IH. simpl. rewrite Hacc, hex_digit_visible; [done|]. apply Z.mod_pos_bound. lia.
Qed.

Lemma fmt_016x_visible n : str_forallb is_visible (fmt_016x n) = true.
Proof. by apply hex_digits_visible. Qed.

Lemma fmt_016x_inj n m : u64_valid n -> u64_valid m -> fmt_016x n = fmt_016x m -> n = m.
Proof.
  unfold u64_valid, u64_max, u64_modulus. intros Hn Hm [H _]%hex_digits_inj.
  change (16 ^ Z.of_nat 16)%Z with (2 ^ 64)%Z in H.
  rewrite !Z.mod_small in H by lia. done.
Qed.

(** ** Substrings *)

Lemma str_contains_spec p s :
  str_contains p s = true <-> exists a b, s = a +:+ p +:+ b.
Proof.
  induction s as [|c s IH]; simpl.
  - rewrite orb_false_r, starts_with_spec. split; [intros [b Hb]; by exists "", b|].
    intros ([|x a] & b & Hab); [by exists b|done].
  - rewrite orb_true_iff, starts_with_spec, IH. split.
    + intros [[b Hb]|(a & b & ->)]; [by exists "", b|by exists (String c a), b].
    + intros ([|x a] & b & Hab); [left; by exists b|right]. injection Hab as -> ->. by exists a, b.
Qed.

(** ** Reading back a decimal number *)

Lemma digit_value_pretty x :
  (x < 10)%N -> digit_value (pretty_N_char x) = Some (Z.of_N x).
Proof.
  intros Hx. assert (x ∈ (N.of_nat <$> seq 0 10)) as Hin.
  { apply list_elem_of_fmap. exists (N.to_nat x). split; [lia|]. apply elem_of_seq. lia. }
  simpl in Hin. repeat (apply elem_of_cons in Hin as [->|Hin]; [by vm_compute|]). by apply not_elem_of_nil in Hin.
Qed.

Lemma parse_digits_pretty x s :
  (0 < x)%N -> (Z.of_N x <= u64_max)%Z ->
  parse_digits 0 (pretty_N_go x s) = parse_digits (Z.of_N x) s.
Proof.
  revert s. induction (N.lt_wf_0 x) as [x _ IH]. intros s Hpos Hmax.
  rewrite pretty_N_go_step by done.
  assert (Hd : digit_value (pretty_N_char (x `mod` 10)) = Some (Z.of_N (x `mod` 10))).
  { apply digit_value_pretty. apply N.mod_lt. lia. }
  assert (Hx : (10 * Z.of_N (x `div` 10) + Z.of_N (x `mod` 10))%Z = Z.of_N x).
  { rewrite N2Z.inj_div, N2Z.inj_mod. pose proof (Z.div_mod (Z.of_N x) 10). lia. }
  assert (Hone : forall a, a = Z.of_N (x `div` 10) ->
    parse_digits a (String (pretty_N_char (x `mod` 10)) s) = parse_digits (Z.of_N x) s).
  { intros a ->. cbn [parse_digits]. rewrite Hd. simpl. rewrite Hx.
    by replace (u64_max <? Z.of_N x)%Z with false by lia. }
  destruct (N.eq_dec (x `div` 10) 0) as [H0|H0].
  - rewrite H0, pretty_N_go_0. apply Hone. by rewrite H0.
  - assert (x `div` 10 < x)%N by (apply N.div_lt; lia).
    rewrite IH; [by apply Hone|done|by apply N.neq_0_lt_0|].
    etransitivity; [|exact Hmax]. by apply N2Z.inj_le, N.lt_le_incl.
Qed.

Lemma parse_u64_fmt_dec n : u64_valid n -> parse_u64 (fmt_dec n) = Ok n.
Proof.
  unfold u64_valid. intros Hn. unfold parse_u64, fmt_dec.
  destruct (Z.eq_dec n 0) as [->|H0]; [by vm_compute|].
  assert (Hp : parse_digits 0 (pretty (Z.to_N n)) = Ok n).
  { unfold pretty, pretty_N. rewrite decide_False by lia.
    rewrite parse_digits_pretty by lia. simpl. f_equal. lia. }
  destruct (pretty (Z.to_N n)) as [|c r] eqn:E; [simpl in Hp; congruence|].
  destruct (decide (c = "+"%char)) as [->|Hc]; [by vm_compute in Hp|].
  assert (match String c r with String "+" r' => r' | _ => String c r end = String c r) as ->.
  { destruct c as [[] [] [] [] [] [] [] []]; try reflexivity. by destruct Hc. }
  exact Hp.
Qed.

Lemma fmt_dec_visible n : str_forallb is_visible (fmt_dec n) = true.
Proof.
  unfold fmt_dec, pretty, pretty_N. case_decide; [by vm_compute|].
  assert (forall x s, str_forallb is_visible s = true -> str_forallb is_visible (pretty_N_go x s) = true)
    as Hgo; [|by apply Hgo].
  intros x. induction (N.lt_wf_0 x) as [x _ IH]. intros s Hs.
  destruct (decide (0 < x)%N); [|replace x with 0%N by lia; by rewrite pretty_N_go_0].
  rewrite pretty_N_go_step by done. apply IH; [apply N.div_lt; lia|]. simpl. rewrite Hs, andb_true_r.
  assert (x `mod` 10 < 10)%N as Hd by (apply N.mod_lt; lia). revert Hd.
  generalize (x `mod` 10)%N. intros d Hd. assert (d ∈ (N.of_nat <$> seq 0 10)) as Hin.
  { apply list_elem_of_fmap. exists (N.to_nat d). split; [lia|]. apply elem_of_seq. lia. }
  simpl in Hin. repeat (apply elem_of_cons in Hin as [->|Hin]; [by vm_compute|]). by apply not_elem_of_nil in Hin.
Qed.

Lemma fmt_dec_inj n m : u64_valid n -> u64_valid m -> fmt_dec n = fmt_dec m -> n = m.
Proof.
  intros Hn Hm H. apply (f_equal parse_u64) in H. rewrite !parse_u64_fmt_dec in H by done. congruence.
Qed.

(** ** UTF-8 *)

(** Induction along the sequences of well-formed text: a single byte, or the
    byte that starts a longer sequence with up to three more. *)
Lemma string_long_ind (P : string -> Prop) :
  P "" -> (forall c r, (forall t, String.length t <= String.length r -> P t) -> P (String c r)) ->
  forall s, P s.
Proof.
  intros H0 HS s. remember (String.length s) as n eqn:Hn. revert s Hn.
  induction n as [n IH] using lt_wf_ind. intros [|c r] ->; [done|].
  apply HS. intros t Ht. eapply IH; [|done]. simpl. lia.
Qed.

Lemma utf8_lossy_valid s : utf8_valid s = true -> utf8_lossy s = s.
Proof.
  induction s as [|c1 r1 IH] using string_long_ind; [done|]. unfold utf8_lossy; fold utf8_lossy.
  unfold utf8_valid; fold utf8_valid. unfold utf8_second3, utf8_second4.
  destruct (in_range 0 127 c1); [intros H; f_equal; by apply IH|].
  destruct r1 as [|c2 r2]; [done|].
  destruct (in_range 194 223 c1).
  { intros [-> H]%andb_prop. do 2 f_equal. apply IH; [simpl; lia|done]. }
  destruct r2 as [|c3 r3]; [done|].
  destruct (in_range 224 239 c1).
  { intros [[-> ->]%andb_prop H]%andb_prop. do 3 f_equal. apply IH; [simpl; lia|done]. }
  destruct r3 as [|c4 r4]; [done|].
  intros [[[[-> ->]%andb_prop ->]%andb_prop ->]%andb_prop H]%andb_prop.
  do 4 f_equal. apply IH; [simpl; lia|done].
Qed.

Lemma replacement_valid s : utf8_valid (replacement_character +:+ s) = utf8_valid s.
Proof. done. Qed.

Lemma utf8_lossy_is_valid s : utf8_valid (utf8_lossy s) = true.
Proof.
  induction s as [|c1 r1 IH] using string_long_ind; [done|]. unfold utf8_lossy; fold utf8_lossy.
  destruct (in_range 0 127 c1) eqn:H1; [simpl; rewrite H1; by apply IH|].
  destruct (in_range 194 223 c1) eqn:H2.
  { destruct r1 as [|c2 r2]; [done|]. destruct (in_range 128 191 c2) eqn:Hc;
      [|rewrite replacement_valid; apply IH; done].
    simpl. rewrite H1, H2, Hc. simpl. apply IH. simpl. lia. }
  destruct (in_range 224 239 c1) eqn:H3.
  { destruct r1 as [|c2 r2]; [done|]. destruct (utf8_second3 c1 c2) eqn:Hc;
      [|rewrite replacement_valid; apply IH; done].
    destruct r2 as [|c3 r3]; [done|]. destruct (in_range 128 191 c3) eqn:Hc3;
      [|rewrite replacement_valid; apply IH; simpl; lia].
    unfold utf8_second3 in Hc. simpl. rewrite H1, H2, H3, Hc, Hc3. simpl. apply IH. simpl. lia. }
  destruct (in_range 240 244 c1) eqn:H4; [|rewrite replacement_valid; by apply IH].
  destruct r1 as [|c2 r2]; [done|]. destruct (utf8_second4 c1 c2) eqn:Hc;
    [|rewrite replacement_valid; apply IH; done].
  destruct r2 as [|c3 r3]; [done|]. destruct (in_range 128 191 c3) eqn:Hc3;
    [|rewrite replacement_valid; apply IH; simpl; lia].
  destruct r3 as [|c4 r4]; [done|]. destruct (in_range 128 191 c4) eqn:Hc4;
    [|rewrite replacement_valid; apply IH; simpl; lia].
  unfold utf8_second4 in Hc. simpl. rewrite H1, H2, H3, H4, Hc, Hc3, Hc4. simpl. apply IH. simpl. lia.
Qed.

(** Text is valid on both sides of an ASCII character exactly when it is valid
    as a whole. *)
Lemma utf8_valid_split s a t :
  in_range 0 127 a = true -> utf8_valid (s +:+ String a t) = utf8_valid s && utf8_valid t.
Proof.
  intros Ha. assert (in_range 128 191 a = false /\ in_range 160 191 a = false /\ in_range 144 191 a = false
    /\ in_range 128 159 a = false /\ in_range 128 143 a = false) as (N1 & N2 & N3 & N4 & N5).
  { unfold in_range in *. apply andb_prop in Ha as [_ Ha%N.leb_le].
    split_and!; apply andb_false_iff; left; apply N.leb_gt; lia. }
  induction s as [|c1 r1 IH] using string_long_ind; [rewrite str_app_nil_l; simpl; by rewrite Ha|].
  rewrite str_app_cons. unfold utf8_valid; fold utf8_valid.
  destruct (in_range 0 127 c1); [by apply IH|].
  destruct r1 as [|c2 r2].
  { rewrite str_app_nil_l. rewrite N1, N2, N3, N4, N5. destruct (in_range 194 223 c1); [done|].
    destruct t as [|c3 r3]; [done|]. destruct (in_range 224 239 c1); [by destruct (_ =? 224)%N; [|destruct (_ =? 237)%N]|].
    destruct r3 as [|c4 r4]; [done|]. destruct (in_range 240 244 c1); [|done].
    by destruct (_ =? 240)%N; [|destruct (_ =? 244)%N]. }
  rewrite str_app_cons. destruct (in_range 194 223 c1).
  { rewrite IH by (simpl; lia). by rewrite andb_assoc. }
  destruct r2 as [|c3 r3].
  { rewrite str_app_nil_l. rewrite N1. destruct (in_range 224 239 c1); [by rewrite !andb_false_r|].
    destruct t as [|c4 r4]; [done|]. by rewrite !andb_false_r. }
  rewrite str_app_cons. destruct (in_range 224 239 c1).
  { rewrite IH by (simpl; lia). by rewrite !andb_assoc. }
  destruct r3 as [|c4 r4].
  { rewrite str_app_nil_l. rewrite N1. by rewrite !andb_false_r. }
  rewrite str_app_cons, IH by (simpl; lia). by rewrite !andb_assoc.
Qed.

(** ** Splitting and joining *)

Definition lacks_char (c : ascii) (s : string) : bool := negb (str_contains_char c s).

Lemma lacks_char_cons c a s :
  lacks_char c (String a s) = true <-> a <> c /\ lacks_char c s = true.
Proof.
  unfold lacks_char, str_contains_char. rewrite !negb_involutive. simpl.
  rewrite andb_true_iff, negb_true_iff. unfold char_eqb. by rewrite bool_decide_eq_false.
Qed.

Lemma split_char_lacks c s : lacks_char c s = true -> split_char c s = [s].
Proof.
  induction s as [|a s IH]; [done|]. intros [Ha Hs]%lacks_char_cons. simpl.
  unfold char_eqb. rewrite bool_decide_eq_false_2 by done. by rewrite IH.
Qed.

Lemma split_char_app c s t :
  lacks_char c s = true -> split_char c (s +:+ String c t) = s :: split_char c t.
Proof.
  induction s as [|a s IH]; simpl; [by rewrite char_eqb_refl|].
  intros [Ha Hs]%lacks_char_cons. unfold char_eqb. rewrite bool_decide_eq_false_2 by done.
  by rewrite IH.
Qed.

(** Splitting what was joined gives the parts back. *)
Lemma split_char_join c l :
  l <> [] -> Forall (fun s => lacks_char c s = true) l -> split_char c (join (String c "") l) = l.
Proof.
  intros Hne Hl. induction Hl as [|s l Hs Hl IH]; [done|].
  destruct l as [|s' l]; [by apply split_char_lacks|].
  change (join (String c "") (s :: s' :: l)) with (s +:+ String c (join (String c "") (s' :: l))).
  by rewrite split_char_app, IH.
Qed.

(** Joining what was split gives the text back, and no part has the separator. *)
Lemma join_split_char c s :
  join (String c "") (split_char c s) = s /\ split_char c s <> [] /\
  Forall (fun p => lacks_char c p = true) (split_char c s).
Proof.
  induction s as [|a s (IH & Hne & Hf)]; simpl; [split_and!; [done..|by repeat constructor]|].
  destruct (char_eqb a c) eqn:E.
  - apply char_eqb_eq in E as ->. split_and!; [|done|by constructor].
    destruct (split_char c s) as [|p ps]; [done|]. by rewrite <- IH.
  - destruct (split_char c s) as [|p ps]; [done|]. apply Forall_cons in Hf as [Hp Hps].
    split_and!; [|done|].
    + rewrite <- IH. by destruct ps.
    + constructor; [|done]. apply lacks_char_cons. split; [|done]. intros ->.
      by rewrite char_eqb_refl in E.
Qed.
