(* ===== verification/Contracts.v ===== *)
(** * The contract crate

    [crates/contracts/src]: capabilities, tokens, packs, requests and
    outcomes, the error types with their messages, audit events, faults and the
    task state machine.  Field names carry the initials of their struct.
    [serde_json::Value] and [semver::Version::parse] belong to third-party
    crates: they are the classes [SerdeJson] and [Semver]. *)

From stdpp Require Import countable.
From S2P Require Import Prelude RustStr.

(** ** Third-party code *)

(** [serde_json]: a type of JSON values, with the two ways the kernel builds
    one: [json!] of a string and of an object. *)
Class SerdeJson : Type := {
  Value : Type;
  value_of_str : string -> Value;
  json_object : list (string * Value) -> Value;
}.

(** [semver]: whether [Version::parse] accepts a text. *)
Class Semver : Type := version_parses : string -> bool.

(** ** contracts.rs *)

Inductive Capability : Type :=
| InvokeTool
| InvokeConnector
| MemoryRead
| MemoryWrite
| FilesystemRead
| FilesystemWrite
| NetworkEgress
| ObserveTelemetry
| ControlRead
| ControlWrite
| ControlApprovals
| ControlPairing
| ControlAcp.

#[export] Instance Capability_eq_dec : EqDecision Capability.
Proof. solve_decision. Defined.

(** Declaration order, which is the derived [Ord]. *)
Definition Capability_rank (c : Capability) : N :=
  match c with
  | InvokeTool => 0 | InvokeConnector => 1 | MemoryRead => 2 | MemoryWrite => 3
  | FilesystemRead => 4 | FilesystemWrite => 5 | NetworkEgress => 6
  | ObserveTelemetry => 7 | ControlRead => 8 | ControlWrite => 9
  | ControlApprovals => 10 | ControlPairing => 11 | ControlAcp => 12
  end%N.

Definition all_capabilities : list Capability :=
  [InvokeTool; InvokeConnector; MemoryRead; MemoryWrite; FilesystemRead; FilesystemWrite;
   NetworkEgress; ObserveTelemetry; ControlRead; ControlWrite; ControlApprovals;
   ControlPairing; ControlAcp].

#[export] Instance Capability_countable : Countable Capability.
Proof.
  by refine (inj_countable Capability_rank (fun n => all_capabilities !! N.to_nat n) _);
    intros [].
Defined.

#[export] Instance Capability_rust_ord : RustOrd Capability :=
  fun c d => (Capability_rank c <= Capability_rank d)%N.

#[export] Instance Capability_rust_ord_laws : RustOrdLaws Capability.
Proof.
  split.
  - intros c d. unfold rust_le, Capability_rust_ord. apply _.
  - intros c d e. unfold rust_le, Capability_rust_ord. lia.
  - intros c d. unfold rust_le, Capability_rust_ord. lia.
  - intros c d. unfold rust_le, Capability_rust_ord. by destruct c, d.
Defined.

Definition Capability_as_str (c : Capability) : string :=
  match c with
  | InvokeTool => "invoke_tool"
  | InvokeConnector => "invoke_connector"
  | MemoryRead => "memory_read"
  | MemoryWrite => "memory_write"
  | FilesystemRead => "filesystem_read"
  | FilesystemWrite => "filesystem_write"
  | NetworkEgress => "network_egress"
  | ObserveTelemetry => "observe_telemetry"
  | ControlRead => "control_read"
  | ControlWrite => "control_write"
  | ControlApprovals => "control_approvals"
  | ControlPairing => "control_pairing"
  | ControlAcp => "control_acp"
  end.

Definition Capability_parse (raw : string) : option Capability :=
  let key := replace_char "-"%char "_"%char (to_ascii_lowercase (trim raw)) in
  if decide (key = "invoke_tool") then Some InvokeTool
  else if decide (key = "invoke_connector") then Some InvokeConnector
  else if decide (key = "memory_read") then Some MemoryRead
  else if decide (key = "memory_write") then Some MemoryWrite
  else if decide (key = "filesystem_read") then Some FilesystemRead
  else if decide (key = "filesystem_write") then Some FilesystemWrite
  else if decide (key = "network_egress") then Some NetworkEgress
  else if decide (key = "observe_telemetry") then Some ObserveTelemetry
  else if decide (key = "control_read") then Some ControlRead
  else if decide (key = "control_write") then Some ControlWrite
  else if decide (key = "control_approvals") then Some ControlApprovals
  else if decide (key = "control_pairing") then Some ControlPairing
  else if decide (key = "control_acp") then Some ControlAcp
  else None.

(** The derived [Debug]: the variant's name. *)
Definition Capability_debug (c : Capability) : string :=
  match c with
  | InvokeTool => "InvokeTool"
  | InvokeConnector => "InvokeConnector"
  | MemoryRead => "MemoryRead"
  | MemoryWrite => "MemoryWrite"
  | FilesystemRead => "FilesystemRead"
  | FilesystemWrite => "FilesystemWrite"
  | NetworkEgress => "NetworkEgress"
  | ObserveTelemetry => "ObserveTelemetry"
  | ControlRead => "ControlRead"
  | ControlWrite => "ControlWrite"
  | ControlApprovals => "ControlApprovals"
  | ControlPairing => "ControlPairing"
  | ControlAcp => "ControlAcp"
  end.

Inductive HarnessKind : Type := EmbeddedPi | Acp.

#[export] Instance HarnessKind_eq_dec : EqDecision HarnessKind.
Proof. solve_decision. Defined.

Definition HarnessKind_debug (k : HarnessKind) : string :=
  match k with EmbeddedPi => "EmbeddedPi" | Acp => "Acp" end.

Record ExecutionRoute : Type := {
  er_harness_kind : HarnessKind;
  er_adapter : option string;
}.

#[export] Instance ExecutionRoute_eq_dec : EqDecision ExecutionRoute.
Proof. solve_decision. Defined.

Record CapabilityToken : Type := {
  ct_token_id : string;
  ct_pack_id : string;
  ct_agent_id : string;
  ct_allowed_capabilities : gset Capability;
  ct_issued_at_epoch_s : Z;
  ct_expires_at_epoch_s : Z;
  ct_generation : Z;
}.

#[export] Instance CapabilityToken_eq_dec : EqDecision CapabilityToken.
Proof. solve_decision. Defined.

Section values.
Context {J : SerdeJson}.

Record TaskIntent : Type := {
  ti_task_id : string;
  ti_objective : string;
  ti_required_capabilities : gset Capability;
  ti_payload : Value;
}.

Record HarnessRequest : Type := {
  hr_token_id : string;
  hr_pack_id : string;
  hr_agent_id : string;
  hr_task_id : string;
  hr_objective : string;
  hr_payload : Value;
}.

Record HarnessOutcome : Type := {
  ho_status : string;
  ho_output : Value;
}.

Record ConnectorCommand : Type := {
  cc_connector_name : string;
  cc_operation : string;
  cc_required_capabilities : gset Capability;
  cc_payload : Value;
}.

Record ConnectorOutcome : Type := {
  co_status : string;
  co_payload : Value;
}.

(** runtime_types.rs, tool_types.rs, memory_types.rs: a request names an
    operation and carries a payload, an outcome a status and a payload. *)
Record RuntimeCoreRequest : Type := { rcr_action : string; rcr_payload : Value }.
Record RuntimeCoreOutcome : Type := { rco_status : string; rco_payload : Value }.
Record RuntimeExtensionRequest : Type := { rer_action : string; rer_payload : Value }.
Record RuntimeExtensionOutcome : Type := { reo_status : string; reo_payload : Value }.

Record ToolCoreRequest : Type := { tcr_tool_name : string; tcr_payload : Value }.
Record ToolCoreOutcome : Type := { tco_status : string; tco_payload : Value }.
Record ToolExtensionRequest : Type := { ter_extension_action : string; ter_payload : Value }.
Record ToolExtensionOutcome : Type := { teo_status : string; teo_payload : Value }.

Record MemoryCoreRequest : Type := { mcr_operation : string; mcr_payload : Value }.
Record MemoryCoreOutcome : Type := { mco_status : string; mco_payload : Value }.
Record MemoryExtensionRequest : Type := { mer_operation : string; mer_payload : Value }.
Record MemoryExtensionOutcome : Type := { meo_status : string; meo_payload : Value }.
End values.

(** ** namespace.rs and pack.rs *)

Record Namespace : Type := {
  ns_pack_id : string;
  ns_domain : string;
  ns_membrane : string;
  ns_default_route : ExecutionRoute;
  ns_granted_capabilities : gset Capability;
}.

Record VerticalPackManifest : Type := {
  vp_pack_id : string;
  vp_domain : string;
  vp_version : string;
  vp_default_route : ExecutionRoute;
  vp_allowed_connectors : gset string;
  vp_granted_capabilities : gset Capability;
  vp_metadata : gmap string string;
}.

#[export] Instance VerticalPackManifest_eq_dec : EqDecision VerticalPackManifest.
Proof. solve_decision. Defined.

(** ** errors.rs *)

Inductive PackError : Type :=
| EmptyPackId
| EmptyDomain
| InvalidVersion (v : string)
| EmptyCapabilities.

Inductive PolicyError : Type :=
| ExpiredToken (token_id : string) (expires_at_epoch_s : Z)
| MissingCapability (token_id : string) (capability : Capability)
| PackMismatch (token_pack_id runtime_pack_id : string)
| RevokedToken (token_id : string)
| ExtensionDenied (extension reason : string)
| ToolCallDenied (tool_name reason : string).

Inductive HarnessError : Type :=
| HarnessAdapterNotFound (name : string)
| AdapterKindMismatch (adapter : string) (expected actual : HarnessKind)
| HarnessExecution (msg : string).

Inductive ConnectorError : Type :=
| ConnectorNotFound (name : string)
| ConnectorCoreAdapterNotFound (name : string)
| ConnectorExtensionNotFound (name : string)
| ConnectorNoDefaultCoreAdapter
| ConnectorExecution (msg : string).

Inductive RuntimePlaneError : Type :=
| RuntimeCoreAdapterNotFound (name : string)
| RuntimeExtensionNotFound (name : string)
| RuntimeNoDefaultCoreAdapter
| RuntimeExecution (msg : string).

Inductive ToolPlaneError : Type :=
| ToolCoreAdapterNotFound (name : string)
| ToolExtensionNotFound (name : string)
| ToolNoDefaultCoreAdapter
| ToolExecution (msg : string).

Inductive MemoryPlaneError : Type :=
| MemoryCoreAdapterNotFound (name : string)
| MemoryExtensionNotFound (name : string)
| MemoryNoDefaultCoreAdapter
| MemoryExecution (msg : string).

Inductive IntegrationError : Type :=
| ProviderNotFound (id : string)
| ChannelNotFound (id : string)
| ChannelDisabled (id : string)
| PluginScanRootNotFound (root : string)
| PluginFileRead (path reason : string)
| PluginManifestParse (path reason : string)
| PluginManifestConflict
    (package_manifest_path source_path field package_value source_value : string)
| AwarenessRootNotFound (root : string)
| AwarenessFileRead (path reason : string)
| PluginAbsorbFailed (plugin_id reason : string).

Inductive AuditError : Type := AuditSinkError (msg : string).

Inductive KernelError : Type :=
| PackNotFound (pack_id : string)
| DuplicatePack (pack_id : string)
| ConnectorNotAllowed (connector pack_id : string)
| PackCapabilityBoundary (pack_id : string) (capability : Capability)
| KPack (e : PackError)
| KPolicy (e : PolicyError)
| KHarness (e : HarnessError)
| KConnector (e : ConnectorError)
| KRuntimePlane (e : RuntimePlaneError)
| KToolPlane (e : ToolPlaneError)
| KMemoryPlane (e : MemoryPlaneError)
| KIntegration (e : IntegrationError)
| KAudit (e : AuditError).

#[export] Instance PackError_eq_dec : EqDecision PackError.
Proof. solve_decision. Defined.
#[export] Instance PolicyError_eq_dec : EqDecision PolicyError.
Proof. solve_decision. Defined.
#[export] Instance AuditError_eq_dec : EqDecision AuditError.
Proof. solve_decision. Defined.

(** The [#[error("...")]] messages. *)
Definition PackError_to_string (e : PackError) : string :=
  match e with
  | EmptyPackId => "pack_id must not be empty"
  | EmptyDomain => "domain must not be empty"
  | InvalidVersion v => "version is not valid semver: " +:+ v
  | EmptyCapabilities => "pack must grant at least one capability"
  end.

Definition PolicyError_to_string (e : PolicyError) : string :=
  match e with
  | ExpiredToken t x => "token " +:+ t +:+ " expired at " +:+ fmt_dec x
  | MissingCapability t c =>
      "token " +:+ t +:+ " missing required capability " +:+ Capability_debug c
  | PackMismatch t r =>
      "token pack mismatch: token pack " +:+ t +:+ " vs runtime pack " +:+ r
  | RevokedToken t => "token " +:+ t +:+ " has been revoked"
  | ExtensionDenied x r => "policy extension " +:+ x +:+ " denied request: " +:+ r
  | ToolCallDenied t r => "tool call denied by policy for `" +:+ t +:+ "`: " +:+ r
  end.

Definition HarnessError_to_string (e : HarnessError) : string :=
  match e with
  | HarnessAdapterNotFound n => "harness adapter not found: " +:+ n
  | AdapterKindMismatch a x y =>
      "harness adapter kind mismatch for adapter " +:+ a +:+ ": expected "
        +:+ HarnessKind_debug x +:+ ", actual " +:+ HarnessKind_debug y
  | HarnessExecution m => "harness adapter execution failed: " +:+ m
  end.

Definition ConnectorError_to_string (e : ConnectorError) : string :=
  match e with
  | ConnectorNotFound n => "connector not found: " +:+ n
  | ConnectorCoreAdapterNotFound n => "core connector adapter not found: " +:+ n
  | ConnectorExtensionNotFound n => "connector extension not found: " +:+ n
  | ConnectorNoDefaultCoreAdapter => "no default core connector adapter is configured"
  | ConnectorExecution m => "connector execution failed: " +:+ m
  end.

Definition RuntimePlaneError_to_string (e : RuntimePlaneError) : string :=
  match e with
  | RuntimeCoreAdapterNotFound n => "core runtime adapter not found: " +:+ n
  | RuntimeExtensionNotFound n => "runtime extension not found: " +:+ n
  | RuntimeNoDefaultCoreAdapter => "no default core runtime adapter is configured"
  | RuntimeExecution m => "runtime execution failed: " +:+ m
  end.

Definition ToolPlaneError_to_string (e : ToolPlaneError) : string :=
  match e with
  | ToolCoreAdapterNotFound n => "core tool adapter not found: " +:+ n
  | ToolExtensionNotFound n => "tool extension not found: " +:+ n
  | ToolNoDefaultCoreAdapter => "no default core tool adapter is configured"
  | ToolExecution m => "tool execution failed: " +:+ m
  end.

Definition MemoryPlaneError_to_string (e : MemoryPlaneError) : string :=
  match e with
  | MemoryCoreAdapterNotFound n => "core memory adapter not found: " +:+ n
  | MemoryExtensionNotFound n => "memory extension not found: " +:+ n
  | MemoryNoDefaultCoreAdapter => "no default core memory adapter is configured"
  | MemoryExecution m => "memory execution failed: " +:+ m
  end.

Definition IntegrationError_to_string (e : IntegrationError) : string :=
  match e with
  | ProviderNotFound i => "provider not found: " +:+ i
  | ChannelNotFound i => "channel not found: " +:+ i
  | ChannelDisabled i => "channel is disabled: " +:+ i
  | PluginScanRootNotFound r => "plugin scan root does not exist: " +:+ r
  | PluginFileRead p r => "failed to read plugin source file " +:+ p +:+ ": " +:+ r
  | PluginManifestParse p r => "invalid plugin manifest in " +:+ p +:+ ": " +:+ r
  | PluginManifestConflict p s f pv sv =>
      "plugin manifest conflict between package " +:+ p +:+ " and source " +:+ s +:+ " on "
        +:+ f +:+ ": package " +:+ pv +:+ " vs source " +:+ sv
  | AwarenessRootNotFound r => "awareness root does not exist: " +:+ r
  | AwarenessFileRead p r => "failed to inspect awareness file " +:+ p +:+ ": " +:+ r
  | PluginAbsorbFailed i r => "plugin absorb failed for " +:+ i +:+ ": " +:+ r
  end.

Definition AuditError_to_string (e : AuditError) : string :=
  match e with AuditSinkError m => "audit sink failure: " +:+ m end.

Definition KernelError_to_string (e : KernelError) : string :=
  match e with
  | PackNotFound p => "pack not found: " +:+ p
  | DuplicatePack p => "duplicate pack id: " +:+ p
  | ConnectorNotAllowed c p => "connector " +:+ c +:+ " is not allowed by pack " +:+ p
  | PackCapabilityBoundary p c =>
      "pack " +:+ p +:+ " does not grant capability " +:+ Capability_debug c
  | KPack e => PackError_to_string e
  | KPolicy e => PolicyError_to_string e
  | KHarness e => HarnessError_to_string e
  | KConnector e => ConnectorError_to_string e
  | KRuntimePlane e => RuntimePlaneError_to_string e
  | KToolPlane e => ToolPlaneError_to_string e
  | KMemoryPlane e => MemoryPlaneError_to_string e
  | KIntegration e => IntegrationError_to_string e
  | KAudit e => AuditError_to_string e
  end.

(** *** Methods of [VerticalPackManifest] *)

Section pack.
Context {V : Semver}.

Definition VerticalPackManifest_validate (p : VerticalPackManifest) : result unit PackError :=
  if str_is_empty (trim (vp_pack_id p)) then Err EmptyPackId
  else if str_is_empty (trim (vp_domain p)) then Err EmptyDomain
  else if negb (version_parses (vp_version p)) then Err (InvalidVersion (vp_version p))
  else if decide (vp_granted_capabilities p = ∅) then Err EmptyCapabilities
  else Ok tt.
End pack.

Definition VerticalPackManifest_grants (p : VerticalPackManifest) (c : Capability) : bool :=
  bool_decide (c ∈ vp_granted_capabilities p).

Definition VerticalPackManifest_allows_connector (p : VerticalPackManifest) (n : string) : bool :=
  bool_decide (n ∈ vp_allowed_connectors p).

(** ** audit_types.rs *)

Inductive ExecutionPlane : Type := PlaneConnector | PlaneRuntime | PlaneTool | PlaneMemory.
Inductive PlaneTier : Type := TierLegacy | TierCore | TierExtension.

Inductive AuditEventKind : Type :=
| TokenIssued (token : CapabilityToken)
| TokenRevoked (token_id : string)
| TaskDispatched (pack_id task_id : string) (route : ExecutionRoute)
    (required_capabilities : list Capability)
| ConnectorInvoked (pack_id connector_name operation : string)
    (required_capabilities : list Capability)
| PlaneInvoked (pack_id : string) (plane : ExecutionPlane) (tier : PlaneTier)
    (primary_adapter : string) (delegated_core_adapter : option string) (operation : string)
    (required_capabilities : list Capability)
| SecurityScanEvaluated (pack_id : string)
    (scanned_plugins total_findings high_findings medium_findings low_findings : Z)
    (blocked : bool) (block_reason : option string) (categories finding_ids : list string)
| PluginTrustEvaluated (pack_id : string)
    (scanned_plugins official_plugins verified_community_plugins unverified_plugins
     high_risk_plugins high_risk_unverified_plugins blocked_auto_apply_plugins : Z)
    (review_required_plugin_ids review_required_bridges : list string)
| ToolSearchEvaluated (pack_id query : string) (returned : Z) (trust_filter_applied : bool)
    (query_requested_tiers structured_requested_tiers effective_tiers : list string)
    (conflicting_requested_tiers : bool) (filtered_out_candidates : Z)
    (filtered_out_tier_counts : gmap string Z) (top_provider_ids : list string)
| ProviderFailover (pack_id provider_id reason stage model : string)
    (attempt max_attempts : Z) (status_code : option Z)
    (try_next_model auto_model_mode : bool) (candidate_index candidate_count : Z)
| AuthorizationDenied (pack_id token_id reason : string).

Record AuditEvent : Type := {
  ae_event_id : string;
  ae_timestamp_epoch_s : Z;
  ae_agent_id : option string;
  ae_kind : AuditEventKind;
}.

#[export] Instance ExecutionPlane_eq_dec : EqDecision ExecutionPlane.
Proof. solve_decision. Defined.
#[export] Instance PlaneTier_eq_dec : EqDecision PlaneTier.
Proof. solve_decision. Defined.
#[export] Instance AuditEventKind_eq_dec : EqDecision AuditEventKind.
Proof. solve_decision. Defined.
#[export] Instance AuditEvent_eq_dec : EqDecision AuditEvent.
Proof. solve_decision. Defined.

(** ** fault.rs *)

Inductive Fault : Type :=
| FaultPanic (message : string)
| CapabilityViolation (token_id : string) (capability : Capability)
| TokenExpired (token_id : string) (expires_at_epoch_s : Z)
| ProtocolViolation (detail : string)
| PolicyDenied (reason : string).

Definition Fault_to_string (f : Fault) : string :=
  match f with
  | FaultPanic m => "panic: " +:+ m
  | CapabilityViolation t c =>
      "capability violation: token " +:+ t +:+ " missing " +:+ Capability_debug c
  | TokenExpired t x => "token " +:+ t +:+ " expired at " +:+ fmt_dec x
  | ProtocolViolation d => "protocol violation: " +:+ d
  | PolicyDenied r => "policy denied: " +:+ r
  end.

Definition Fault_from_policy_error (err : PolicyError) : Fault :=
  match err with
  | ExpiredToken t x => TokenExpired t x
  | MissingCapability t c => CapabilityViolation t c
  | RevokedToken t => PolicyDenied ("token " +:+ t +:+ " revoked")
  | PackMismatch t r => PolicyDenied ("pack mismatch: token=" +:+ t +:+ " runtime=" +:+ r)
  | ExtensionDenied x r => PolicyDenied ("extension " +:+ x +:+ ": " +:+ r)
  | ToolCallDenied t r => PolicyDenied ("tool " +:+ t +:+ ": " +:+ r)
  end.

Definition Fault_from_kernel_error (err : KernelError) : Fault :=
  match err with
  | KPolicy e => Fault_from_policy_error e
  | PackCapabilityBoundary p c => CapabilityViolation ("pack:" +:+ p) c
  | _ => FaultPanic (KernelError_to_string err)
  end.

(** ** task_state.rs *)

Section task_state.
Context {J : SerdeJson}.

Inductive TaskState : Type :=
| Runnable (intent : TaskIntent)
| InSend (task_id : string)
| InReply (task_id : string)
| Completed (outcome : HarnessOutcome)
| Faulted (fault : Fault).

Definition TaskState_task_id (s : TaskState) : option string :=
  match s with
  | Runnable intent => Some (ti_task_id intent)
  | InSend t | InReply t => Some t
  | Completed _ | Faulted _ => None
  end.

Definition TaskState_is_terminal (s : TaskState) : bool :=
  match s with
  | Completed _ | Faulted _ => true
  | _ => false
  end.

(** [{other:?}]: the derived [Debug] text of a state prints JSON values with
    [serde_json]'s own formatter. *)
Variable TaskState_debug : TaskState -> string.

Definition TaskState_transition_to_in_send (s : TaskState) : result TaskState string :=
  match s with
  | Runnable intent => Ok (InSend (ti_task_id intent))
  | other => Err ("invalid transition: cannot move to InSend from " +:+ TaskState_debug other)
  end.

Definition TaskState_transition_to_in_reply (s : TaskState) : result TaskState string :=
  match s with
  | InSend t => Ok (InReply t)
  | other => Err ("invalid transition: cannot move to InReply from " +:+ TaskState_debug other)
  end.

Definition TaskState_transition_to_completed (s : TaskState) (o : HarnessOutcome)
  : result TaskState string :=
  match s with
  | InReply _ => Ok (Completed o)
  | other =>
      Err ("invalid transition: cannot move to Completed from " +:+ TaskState_debug other)
  end.

Definition TaskState_transition_to_faulted (s : TaskState) (f : Fault) : TaskState :=
  if TaskState_is_terminal s then s else Faulted f.
End task_state.

(** ** clock.rs *)

(** [Clock::now_epoch_s]: reading may advance the clock's own state. *)
Class Clock (C : Type) : Type := now_epoch_s : M C Z.

(** [FixedClock]: an atomic the test sets. *)
Record FixedClock : Type := { fc_now_epoch_s : Z }.

Definition FixedClock_new (now : Z) : FixedClock := {| fc_now_epoch_s := now |}.
Definition FixedClock_set (now : Z) : M FixedClock unit :=
  modify (fun _ => {| fc_now_epoch_s := now |}).
Definition FixedClock_advance_by (delta : Z) : M FixedClock unit :=
  modify (fun c => {| fc_now_epoch_s := u64_wrapping_add (fc_now_epoch_s c) delta |}).

#[export] Instance FixedClock_clock : Clock FixedClock := gets fc_now_epoch_s.

(** [SystemClock] reads the machine's time: the reading of
    [SystemTime::now().duration_since(UNIX_EPOCH)] at each tick, [None] for a
    time before the epoch. *)
Record SystemClock : Type := { sc_reading : nat -> option Z; sc_tick : nat }.

#[export] Instance SystemClock_clock : Clock SystemClock := fun c =>
  (Returned (default 0%Z (sc_reading c (sc_tick c))),
   {| sc_reading := sc_reading c; sc_tick := S (sc_tick c) |}).

(** ** Lemmas *)

Lemma grants_spec p c : VerticalPackManifest_grants p c = true <-> c ∈ vp_granted_capabilities p.
Proof. apply bool_decide_eq_true. Qed.

Lemma allows_connector_spec p n :
  VerticalPackManifest_allows_connector p n = true <-> n ∈ vp_allowed_connectors p.
Proof. apply bool_decide_eq_true. Qed.

(** The iteration order of a capability set is declaration order. *)
Example capability_iteration :
  btree_set_iter ({[ControlAcp; MemoryRead; InvokeTool]} : gset Capability)
  = [InvokeTool; MemoryRead; ControlAcp].
Proof. vm_compute. reflexivity. Qed.

(** A pack is valid exactly when it is named, placed, versioned and grants
    something. *)
Lemma validate_ok_iff {V : Semver} p :
  VerticalPackManifest_validate p = Ok tt <->
  trim (vp_pack_id p) <> "" /\ trim (vp_domain p) <> "" /\
  version_parses (vp_version p) = true /\ vp_granted_capabilities p <> ∅.
Proof.
  unfold VerticalPackManifest_validate.
  destruct (trim (vp_pack_id p)); simpl; [naive_solver|].
  destruct (trim (vp_domain p)); simpl; [naive_solver|].
  destruct (version_parses (vp_version p)); simpl; [|naive_solver].
  destruct (decide (vp_granted_capabilities p = ∅)); naive_solver.
Qed.

(** A text parses to a capability
    exactly when trimming it, lowering its case and turning hyphens into
    underscores gives the capability's canonical name: every spelling of a name
    is read back, no other text is, and [as_str] is read back as itself. *)
Theorem capability_parse_spec (raw : string) (c : Capability) :
  (Capability_parse raw = Some c <->
   replace_char "-"%char "_"%char (to_ascii_lowercase (trim raw)) = Capability_as_str c) /\
  Capability_parse (Capability_as_str c) = Some c.
Proof.
  split; [|by destruct c; vm_compute]. unfold Capability_parse.
  generalize (replace_char "-"%char "_"%char (to_ascii_lowercase (trim raw))) as key.
  intros key. split.
  - repeat case_decide; intros [= <-]; by subst.
  - intros ->. by destruct c; vm_compute.
Qed.
