(* ===== verification/Json.v ===== *)
(** * JSON values

    [serde_json::Value], the type the tool layer of [crates/app] takes apart.
    The kernel's files keep it abstract (the class [SerdeJson]); here it is the
    enum the library documents, and an instance of that class.  An object is the
    list of its entries in the map's order.  Then pointers, equality, printing and
    removal, as [crates/spec] uses them. *)

From Stdlib Require Import Ascii.
From S2P Require Import Prelude RustStr Contracts.

(** [serde_json::Number]: a [u64], a negative [i64], or an [f64] by its bits. *)
Inductive JsonNumber : Type :=
| PosInt (n : Z)
| NegInt (n : Z)
| Float (bits : Z).

Inductive json : Type :=
| JNull
| JBool (b : bool)
| JNumber (n : JsonNumber)
| JString (s : string)
| JArray (items : list json)
| JObject (fields : list (string * json)).

(** Induction with a hypothesis for every item and every field. *)
Section json_ind'.
Variable P : json -> Prop.
Hypothesis Hnull : P JNull.
Hypothesis Hbool : forall b, P (JBool b).
Hypothesis Hnumber : forall n, P (JNumber n).
Hypothesis Hstring : forall s, P (JString s).
Hypothesis Harray : forall items, Forall P items -> P (JArray items).
Hypothesis Hobject : forall fields, Forall (fun f => P f.2) fields -> P (JObject fields).

Fixpoint json_ind' (v : json) : P v :=
  match v with
  | JNull => Hnull
  | JBool b => Hbool b
  | JNumber n => Hnumber n
  | JString s => Hstring s
  | JArray items =>
      Harray items ((fix go (l : list json) : Forall P l :=
        match l with
        | [] => Forall_nil_2 P
        | x :: l => Forall_cons_2 P x l (json_ind' x) (go l)
        end) items)
  | JObject fields =>
      Hobject fields ((fix go (l : list (string * json)) : Forall (fun f => P f.2) l :=
        match l with
        | [] => Forall_nil_2 (fun f : string * json => P f.2)
        | f :: l => Forall_cons_2 (fun f : string * json => P f.2) f l (json_ind' f.2) (go l)
        end) fields)
  end.
End json_ind'.

#[export] Instance JsonNumber_eq_dec : EqDecision JsonNumber.
Proof. solve_decision. Defined.

(** [Map::get] on the entries of an object. *)
Fixpoint fields_get (key : string) (fields : list (string * json)) : option json :=
  match fields with
  | [] => None
  | (k, v) :: fields => if decide (k = key) then Some v else fields_get key fields
  end.

(** [Map::insert]: a present key keeps its place. *)
Fixpoint fields_insert (key : string) (value : json) (fields : list (string * json))
  : list (string * json) :=
  match fields with
  | [] => [(key, value)]
  | (k, v) :: fields =>
      if decide (k = key) then (k, value) :: fields else (k, v) :: fields_insert key value fields
  end.

(** [Value::get] with a text index: [None] unless the value is an object. *)
Definition json_get (key : string) (v : json) : option json :=
  match v with JObject fields => fields_get key fields | _ => None end.

Definition json_as_str (v : json) : option string :=
  match v with JString s => Some s | _ => None end.

Definition json_as_object (v : json) : option (list (string * json)) :=
  match v with JObject fields => Some fields | _ => None end.

Definition json_as_u64 (v : json) : option Z :=
  match v with JNumber (PosInt n) => Some n | _ => None end.

(** The instance the kernel's files are parametric in. *)
#[export] Instance json_serde : SerdeJson := {|
  Value := json;
  value_of_str := JString;
  json_object entries := JObject (foldl (fun acc e => fields_insert e.1 e.2 acc) [] entries) |}.

Lemma fields_get_insert key k value fields :
  fields_get key (fields_insert k value fields)
    = if decide (k = key) then Some value else fields_get key fields.
Proof.
  induction fields as [|[k' v'] fields IH]; simpl; [done|].
  destruct (decide (k' = k)) as [->|Hk]; simpl; [by destruct (decide (k = key))|].
  rewrite IH. by destruct (decide (k = key)), (decide (k' = key)); simplify_eq.
Qed.

Lemma fields_get_elem key v fields : fields_get key fields = Some v -> (key, v) ∈ fields.
Proof.
  induction fields as [|[k' v'] fields IH]; simpl; [done|].
  destruct (decide (k' = key)) as [->|]; intros Hv; [simplify_eq; by left|right; by apply IH].
Qed.

(** ** Operations of [serde_json] on values

    What [crates/spec] uses of the library beyond the above: JSON pointers
    ([Value::pointer]), the equality of values, compact printing
    ([Value::to_string]) and [Map::remove].  The library is built with
    [preserve_order], so a map is the list of its entries in insertion order and
    removal moves the last entry into the gap. *)

(** [str::replace] for a pattern of two characters. *)
Fixpoint replace2 (a b : ascii) (to : string) (s : string) : string :=
  match s with
  | EmptyString => EmptyString
  | String c r =>
      match r with
      | String d r' =>
          if char_eqb c a && char_eqb d b then to +:+ replace2 a b to r'
          else String c (replace2 a b to r)
      | EmptyString => s
      end
  end.

(** [parse_index] of the library: no sign, no leading zero. *)
Definition parse_index (s : string) : option nat :=
  if starts_with "+" s || (starts_with "0" s && negb (String.length s =? 1)) then None
  else match parse_u64 s with Ok n => Some (Z.to_nat n) | Err _ => None end.

Definition pointer_token (x : string) : string :=
  replace2 "~" "0" "~" (replace2 "~" "1" "/" x).

(** One step of [Value::pointer]. *)
Definition pointer_step (target : option json) (token : string) : option json :=
  match target with
  | Some (JObject fields) => fields_get token fields
  | Some (JArray items) => match parse_index token with Some i => items !! i | None => None end
  | _ => None
  end.

Definition json_pointer (pointer : string) (v : json) : option json :=
  if str_is_empty pointer then Some v
  else if negb (starts_with "/" pointer) then None
  else foldl pointer_step (Some v) (map pointer_token (drop 1 (split_char "/" pointer))).

(** [f64 == f64] on the bit patterns of finite numbers: the two zeros agree. *)
Definition f64_bits_eqb (a b : Z) : bool :=
  (a =? b)%Z || ((a mod 2 ^ 63 =? 0)%Z && (b mod 2 ^ 63 =? 0)%Z).

Definition JsonNumber_eqb (a b : JsonNumber) : bool :=
  match a, b with
  | PosInt n, PosInt m => (n =? m)%Z
  | NegInt n, NegInt m => (n =? m)%Z
  | Float x, Float y => f64_bits_eqb x y
  | _, _ => false
  end.

(** [Value]'s [PartialEq]: arrays in order, objects as maps. *)
Fixpoint json_eqb (a b : json) : bool :=
  match a, b with
  | JNull, JNull => true
  | JBool x, JBool y => Bool.eqb x y
  | JNumber x, JNumber y => JsonNumber_eqb x y
  | JString x, JString y => bool_decide (x = y)
  | JArray xs, JArray ys =>
      (fix go (xs ys : list json) : bool :=
         match xs, ys with
         | [], [] => true
         | x :: xs, y :: ys => json_eqb x y && go xs ys
         | _, _ => false
         end) xs ys
  | JObject xs, JObject ys =>
      (length xs =? length ys) &&
      forallb (fun f : string * json =>
        match fields_get f.1 ys with Some y => json_eqb f.2 y | None => false end) xs
  | _, _ => false
  end.

(** [Map::remove]: the entry, and the map with its last entry in the gap. *)
Definition fields_remove (key : string) (fields : list (string * json))
  : option json * list (string * json) :=
  match list_find (fun f : string * json => f.1 = key) fields with
  | None => (None, fields)
  | Some (i, (_, v)) =>
      (Some v,
       match last fields with
       | Some e => if decide (S i = length fields) then take i fields
                   else <[i := e]> (take (length fields - 1) fields)
       | None => fields
       end)
  end.

(** ** Printing *)

(** The text of a finite [f64] is another crate's. *)
Class FloatFormat : Type := fmt_f64 : Z -> string.

Definition double_quote : string := String (ascii_of_N 34) "".

(** [format_escaped_str]: the escape of one byte. *)
Definition json_escape_char (c : ascii) : string :=
  let n := byte_of c in
  if (n =? 34)%N then String "\" double_quote
  else if (n =? 92)%N then "\\"
  else if (n =? 8)%N then "\b"
  else if (n =? 9)%N then "\t"
  else if (n =? 10)%N then "\n"
  else if (n =? 12)%N then "\f"
  else if (n =? 13)%N then "\r"
  else if (n <? 32)%N then "\u" +:+ hex_digits 4 (Z.of_N n) ""
  else String c "".

Fixpoint json_escape (s : string) : string :=
  match s with
  | EmptyString => ""
  | String c r => json_escape_char c +:+ json_escape r
  end.

Definition json_quote (s : string) : string := double_quote +:+ json_escape s +:+ double_quote.

Section print.
Context `{FloatFormat}.

Definition JsonNumber_to_string (n : JsonNumber) : string :=
  match n with
  | PosInt n => fmt_dec n
  | NegInt n => "-" +:+ fmt_dec (Z.abs n)
  | Float bits => fmt_f64 bits
  end.

(** [Value::to_string], compact. *)
Fixpoint json_to_string (v : json) : string :=
  match v with
  | JNull => "null"
  | JBool b => if b then "true" else "false"
  | JNumber n => JsonNumber_to_string n
  | JString s => json_quote s
  | JArray items => "[" +:+ join "," (map json_to_string items) +:+ "]"
  | JObject fields =>
      "{" +:+ join "," (map (fun f : string * json =>
        json_quote f.1 +:+ ":" +:+ json_to_string f.2) fields) +:+ "}"
  end.
End print.

(** [json!({...})]: the entries in the order of the literal. *)
Definition json_obj (entries : list (string * json)) : json :=
  JObject (foldl (fun acc e => fields_insert e.1 e.2 acc) [] entries).

(** [json!] of a [usize], and of an [Option]. *)
Definition json_usize (n : Z) : json := JNumber (PosInt n).
Definition json_opt {A} (f : A -> json) (o : option A) : json :=
  match o with Some a => f a | None => JNull end.

(** ** Facts *)

(** The pointer to a path of keys and indices, escaped as RFC 6901 has it. *)
Fixpoint pointer_escape (s : string) : string :=
  match s with
  | EmptyString => ""
  | String c r =>
      (if char_eqb c "~" then "~0" else if char_eqb c "/" then "~1" else String c "")
        +:+ pointer_escape r
  end.

Definition pointer_of (path : list string) : string :=
  str_concat (map (fun k => String "/" (pointer_escape k)) path).

Lemma replace2_other a b to c r :
  char_eqb c a = false -> replace2 a b to (String c r) = String c (replace2 a b to r).
Proof. intros Hc. destruct r as [|d r]; [done|]. simpl. by rewrite Hc. Qed.

Lemma pointer_token_escape k : pointer_token (pointer_escape k) = k.
Proof.
  unfold pointer_token. induction k as [|c k IH]; [done|]. simpl.
  destruct (char_eqb c "~") eqn:E1; [apply char_eqb_eq in E1 as ->|].
  { change (("~0") +:+ pointer_escape k) with (String "~" (String "0" (pointer_escape k))).
    change (replace2 "~" "1" "/" (String "~" (String "0" (pointer_escape k))))
      with (String "~" (replace2 "~" "1" "/" (String "0" (pointer_escape k)))).
    rewrite (replace2_other "~" "1" "/" "0") by done. simpl. by rewrite IH. }
  destruct (char_eqb c "/") eqn:E2; [apply char_eqb_eq in E2 as ->|].
  { change (replace2 "~" "1" "/" (("~1") +:+ pointer_escape k))
      with (String "/" (replace2 "~" "1" "/" (pointer_escape k))).
    by rewrite replace2_other, IH. }
  change (String c "" +:+ pointer_escape k) with (String c (pointer_escape k)).
  by rewrite !replace2_other, IH.
Qed.

Lemma pointer_escape_lacks k : lacks_char "/" (pointer_escape k) = true.
Proof.
  unfold lacks_char, str_contains_char. rewrite Bool.negb_involutive.
  induction k as [|c k IH]; [done|]. simpl. rewrite str_forallb_app, IH, andb_true_r.
  destruct (char_eqb c "~") eqn:E1; [done|]. destruct (char_eqb c "/") eqn:E2; [done|].
  simpl. by rewrite E2.
Qed.

Lemma split_char_pointer k path :
  split_char "/" (pointer_escape k +:+ pointer_of path) = map pointer_escape (k :: path).
Proof.
  revert k. induction path as [|k' path IH]; intros k.
  - change (pointer_of []) with "". rewrite str_app_nil_r.
    by rewrite split_char_lacks by apply pointer_escape_lacks.
  - change (pointer_of (k' :: path)) with (String "/" (pointer_escape k' +:+ pointer_of path)).
    rewrite split_char_app by apply pointer_escape_lacks. by rewrite IH.
Qed.

(** A pointer made from a path follows the path. *)
Lemma json_pointer_of path v :
  json_pointer (pointer_of path) v = foldl pointer_step (Some v) path.
Proof.
  destruct path as [|k path]; [done|]. unfold json_pointer.
  change (pointer_of (k :: path)) with (String "/" (pointer_escape k +:+ pointer_of path)).
  simpl str_is_empty. replace (starts_with "/" _) with true by done. simpl negb. cbv iota.
  change (split_char "/" (String "/" ?x)) with ("" :: split_char "/" x).
  rewrite split_char_pointer. change (drop 1 ("" :: ?l)) with l. rewrite map_map. f_equal.
  rewrite <- (map_id (k :: path)) at 2. apply map_ext. apply pointer_token_escape.
Qed.

Lemma fields_get_remove key fields :
  (fields_remove key fields).1 = fields_get key fields.
Proof.
  unfold fields_remove. induction fields as [|[k v] fields IH]; simpl; [done|].
  destruct (decide (k = key)) as [->|Hk].
  - done.
  - destruct (list_find _ fields) as [[i [k' v']]|]; simpl in *; done.
Qed.

Lemma fields_get_map key fields :
  fields_get key fields = (list_to_map fields : gmap string json) !! key.
Proof.
  induction fields as [|[k v] fields IH]; simpl; [done|].
  rewrite IH. destruct (decide (k = key)) as [->|].
  - by rewrite lookup_insert_eq.
  - by rewrite lookup_insert_ne.
Qed.

Lemma fields_remove_Permutation key fields v :
  (fields_remove key fields).1 = Some v ->
  fields ≡ₚ (key, v) :: (fields_remove key fields).2.
Proof.
  unfold fields_remove. destruct (list_find _ fields) as [[i [k w]]|] eqn:Hfind; [|done].
  apply list_find_Some in Hfind as (Hi & Hk & _). simpl in *. subst k. intros [= ->].
  apply list_elem_of_split_length in Hi as (before & after & -> & ->).
  destruct after as [|e after _] using rev_ind.
  - rewrite last_snoc. rewrite decide_True by (rewrite length_app; simpl; lia).
    rewrite take_app_length. symmetry. apply Permutation_cons_append.
  - replace (before ++ (key, v) :: after ++ [e]) with ((before ++ (key, v) :: after) ++ [e])
      by (by rewrite <- (assoc (++))).
    rewrite last_snoc.
    rewrite decide_False by (rewrite !length_app; simpl; lia).
    replace (length ((before ++ (key, v) :: after) ++ [e]) - 1)
      with (length (before ++ (key, v) :: after)) by (rewrite (length_app _ [e]); simpl; lia).
    rewrite take_app_length.
    rewrite insert_app_r_alt by lia. rewrite Nat.sub_diag. simpl.
    rewrite <- (assoc (++)). simpl. rewrite <- Permutation_middle. constructor.
    apply Permutation_app_head. symmetry. apply Permutation_cons_append.
Qed.

(** Removing a key leaves the other entries. *)
Lemma fields_get_remove_other key k fields :
  NoDup fields.*1 -> k <> key ->
  fields_get k (fields_remove key fields).2 = fields_get k fields.
Proof.
  intros Hnd Hk. destruct (fields_remove key fields).1 as [v|] eqn:Hv.
  - pose proof (fields_remove_Permutation key fields v Hv) as Hp.
    rewrite !fields_get_map, (list_to_map_proper fields _ Hnd Hp). simpl.
    by rewrite lookup_insert_ne.
  - unfold fields_remove in *. destruct (list_find _ fields) as [[i [k' w]]|]; done.
Qed.
