(* ===== verification/Policy.v ===== *)
(** * The policy engine

    [crates/kernel/src/policy.rs] and [policy_ext.rs]: the [PolicyEngine] trait
    is the class [PolicyEngine]; [StaticPolicyEngine] is its implementation
    (token and generation counters, the revoked-token set behind a mutex, the
    generation threshold); [PolicyExtensionChain] is the list of extensions run
    after it.  The last part follows the engine along any sequence of calls. *)

From S2P Require Import Prelude RustStr Contracts.

(** ** The trait

    [check_tool_call], which nothing calls, is deprecated and allows everything
    by default, is given for the static engine only, below. *)

Class PolicyEngine (P : Type) : Type := {
  pe_issue_token : VerticalPackManifest -> string -> Z -> Z -> M P (result CapabilityToken PolicyError);
  pe_authorize : CapabilityToken -> string -> Z -> gset Capability -> M P (result unit PolicyError);
  pe_revoke_token : string -> M P (result unit PolicyError);
  pe_revoke_generation : Z -> M P unit;
}.

(** ** [StaticPolicyEngine] *)

Record StaticPolicyEngine : Type := {
  spe_token_seq : Z;
  spe_revoked_tokens : Mutex (gset string);
  spe_generation : Z;
  spe_revoked_below_generation : Z;
}.

Definition StaticPolicyEngine_default : StaticPolicyEngine := {|
  spe_token_seq := 0;
  spe_revoked_tokens := Mutex_new ∅;
  spe_generation := 0;
  spe_revoked_below_generation := 0;
|}.

Definition spe_set_token_seq (n : Z) (e : StaticPolicyEngine) : StaticPolicyEngine := {|
  spe_token_seq := n;
  spe_revoked_tokens := spe_revoked_tokens e;
  spe_generation := spe_generation e;
  spe_revoked_below_generation := spe_revoked_below_generation e;
|}.

Definition spe_set_revoked (r : Mutex (gset string)) (e : StaticPolicyEngine)
  : StaticPolicyEngine := {|
  spe_token_seq := spe_token_seq e;
  spe_revoked_tokens := r;
  spe_generation := spe_generation e;
  spe_revoked_below_generation := spe_revoked_below_generation e;
|}.

Definition spe_set_generation (n : Z) (e : StaticPolicyEngine) : StaticPolicyEngine := {|
  spe_token_seq := spe_token_seq e;
  spe_revoked_tokens := spe_revoked_tokens e;
  spe_generation := n;
  spe_revoked_below_generation := spe_revoked_below_generation e;
|}.

Definition spe_set_threshold (n : Z) (e : StaticPolicyEngine) : StaticPolicyEngine := {|
  spe_token_seq := spe_token_seq e;
  spe_revoked_tokens := spe_revoked_tokens e;
  spe_generation := spe_generation e;
  spe_revoked_below_generation := n;
|}.

Definition token_id_of_seq (seq : Z) : string := "tok-" +:+ fmt_016x seq.

(** [fetch_add(1) + 1]: the stored counter and the returned number both wrap.
    (The atomic always wraps; the addition does in the release profile, which
    leaves overflow checks off.  A debug build panics there instead, at the last
    number only.) *)
Definition StaticPolicyEngine_next_token_id : M StaticPolicyEngine string :=
  let! old := gets spe_token_seq in
  run! modify (spe_set_token_seq (u64_wrapping_add old 1)) in
  ret (token_id_of_seq (u64_wrapping_add old 1)).

Definition StaticPolicyEngine_revoke_generation (below : Z) : M StaticPolicyEngine unit :=
  run! modify (fun e => spe_set_threshold (Z.max (spe_revoked_below_generation e) below) e) in
  modify (fun e => spe_set_generation (Z.max (spe_generation e) below) e).

Definition StaticPolicyEngine_current_generation : M StaticPolicyEngine Z := gets spe_generation.

Definition StaticPolicyEngine_issue_token (pack : VerticalPackManifest) (agent_id : string)
    (now_epoch_s ttl_s : Z) : M StaticPolicyEngine (result CapabilityToken PolicyError) :=
  let! old := gets spe_generation in
  run! modify (spe_set_generation (u64_wrapping_add old 1)) in
  let! token_id := StaticPolicyEngine_next_token_id in
  ret (Ok {|
    ct_token_id := token_id;
    ct_pack_id := vp_pack_id pack;
    ct_agent_id := agent_id;
    ct_allowed_capabilities := vp_granted_capabilities pack;
    ct_issued_at_epoch_s := now_epoch_s;
    ct_expires_at_epoch_s := u64_saturating_add now_epoch_s ttl_s;
    ct_generation := u64_wrapping_add old 1;
  |}).

(** The decision of [authorize] for an engine's state. *)
Definition StaticPolicyEngine_decide (e : StaticPolicyEngine) (token : CapabilityToken)
    (runtime_pack_id : string) (now_epoch_s : Z) (required : gset Capability)
  : result unit PolicyError :=
  let* revoked := Mutex_lock (spe_revoked_tokens e) (RevokedToken (ct_token_id token)) in
  if decide (ct_token_id token ∈ revoked) then Err (RevokedToken (ct_token_id token)) else
  let threshold := spe_revoked_below_generation e in
  if ((0 <? ct_generation token) && (ct_generation token <=? threshold))%Z
  then Err (RevokedToken (ct_token_id token)) else
  if negb (bool_decide (ct_pack_id token = runtime_pack_id))
  then Err (PackMismatch (ct_pack_id token) runtime_pack_id) else
  if (ct_expires_at_epoch_s token <? now_epoch_s)%Z
  then Err (ExpiredToken (ct_token_id token) (ct_expires_at_epoch_s token)) else
  match find_first (fun c => negb (bool_decide (c ∈ ct_allowed_capabilities token)))
          (btree_set_iter required) with
  | Some c => Err (MissingCapability (ct_token_id token) c)
  | None => Ok tt
  end.

Definition StaticPolicyEngine_authorize (token : CapabilityToken) (runtime_pack_id : string)
    (now_epoch_s : Z) (required : gset Capability)
  : M StaticPolicyEngine (result unit PolicyError) :=
  gets (fun e => StaticPolicyEngine_decide e token runtime_pack_id now_epoch_s required).

Definition StaticPolicyEngine_revoke_token (token_id : string)
  : M StaticPolicyEngine (result unit PolicyError) :=
  let! e := get in
  match Mutex_lock (spe_revoked_tokens e) (RevokedToken token_id) with
  | Err err => ret (Err err)
  | Ok revoked =>
      run! modify (spe_set_revoked
                     (Mutex_store ({[token_id]} ∪ revoked) (spe_revoked_tokens e))) in
      ret (Ok tt)
  end.

#[export] Instance StaticPolicyEngine_policy : PolicyEngine StaticPolicyEngine := {|
  pe_issue_token := StaticPolicyEngine_issue_token;
  pe_authorize := StaticPolicyEngine_authorize;
  pe_revoke_token := StaticPolicyEngine_revoke_token;
  pe_revoke_generation := StaticPolicyEngine_revoke_generation;
|}.

Section json.
Context {J : SerdeJson}.

Record PolicyContext : Type := {
  pc_conversation_hash : option string;
  pc_call_depth : Z;
}.

Record PolicyRequest : Type := {
  pr_tool_name : string;
  pr_parameters : Value;
  pr_pack_id : string;
  pr_agent_id : string;
  pr_capabilities_used : gset Capability;
  pr_context : PolicyContext;
}.

Inductive PolicyDecision : Type := Allow | Deny (reason : string).

(** Deprecated in the source: tool policy lives in the extension chain. *)
Definition StaticPolicyEngine_check_tool_call (_ : PolicyRequest) : PolicyDecision := Allow.

(** ** Policy extensions *)

Record PolicyExtensionContext : Type := {
  px_pack : VerticalPackManifest;
  px_token : CapabilityToken;
  px_now_epoch_s : Z;
  px_required_capabilities : gset Capability;
  px_request_parameters : option Value;
}.

(** A [dyn PolicyExtension]; its effects are on the environment [W]. *)
Record PolicyExtension (W : Type) : Type := {
  pex_name : string;
  pex_authorize_extension : PolicyExtensionContext -> M W (result unit PolicyError);
}.
Arguments pex_name {W} _.
Arguments pex_authorize_extension {W} _ _.

Definition PolicyExtensionChain (W : Type) : Type := list (PolicyExtension W).

Definition PolicyExtensionChain_new {W} : PolicyExtensionChain W := [].

Definition PolicyExtensionChain_register {W} (x : PolicyExtension W)
    (chain : PolicyExtensionChain W) : PolicyExtensionChain W := chain ++ [x].

Fixpoint PolicyExtensionChain_authorize {W} (chain : PolicyExtensionChain W)
    (context : PolicyExtensionContext) : M W (result unit PolicyError) :=
  match chain with
  | [] => ret (Ok tt)
  | x :: rest =>
      run? pex_authorize_extension x context in
      PolicyExtensionChain_authorize rest context
  end.
End json.
Arguments pex_name {J W} _.
Arguments pex_authorize_extension {J W} _ _.

(** ** What [authorize] decides *)

(** The missing capability reported is the first one, in declaration order,
    that the token does not allow. *)
Lemma missing_capability_None (allowed required : gset Capability) :
  find_first (fun c => negb (bool_decide (c ∈ allowed))) (btree_set_iter required) = None
  <-> required ⊆ allowed.
Proof.
  rewrite find_first_negb_None, Forall_forall. split.
  - intros H c Hc. apply (bool_decide_eq_true_1 _), H. by apply elem_of_btree_set_iter.
  - intros H c Hc%elem_of_btree_set_iter. by apply bool_decide_eq_true_2, H.
Qed.

Definition generation_revoked (e : StaticPolicyEngine) (token : CapabilityToken) : Prop :=
  (0 < ct_generation token <= spe_revoked_below_generation e)%Z.

Definition revoked (e : StaticPolicyEngine) (token : CapabilityToken) : Prop :=
  mx_poisoned (spe_revoked_tokens e) = true \/
  ct_token_id token ∈ mx_value (spe_revoked_tokens e) \/
  generation_revoked e token.

#[export] Instance revoked_dec e token : Decision (revoked e token).
Proof. unfold revoked, generation_revoked. apply _. Defined.

Lemma decide_revoked e token pk now req :
  revoked e token ->
  StaticPolicyEngine_decide e token pk now req = Err (RevokedToken (ct_token_id token)).
Proof.
  unfold revoked, generation_revoked, StaticPolicyEngine_decide, Mutex_lock.
  destruct (mx_poisoned _); simpl; [done|]. case_decide; [done|].
  intros [|[|[??]]]; [done..|].
  by rewrite (proj2 (Z.ltb_lt _ _)), (proj2 (Z.leb_le _ _)) by lia.
Qed.

(** On a token that is not revoked, the three remaining checks in order. *)
Lemma decide_not_revoked e token pk now req :
  ~ revoked e token ->
  StaticPolicyEngine_decide e token pk now req =
  if decide (ct_pack_id token <> pk) then Err (PackMismatch (ct_pack_id token) pk)
  else if decide (ct_expires_at_epoch_s token < now)%Z
  then Err (ExpiredToken (ct_token_id token) (ct_expires_at_epoch_s token))
  else match find_first (fun c => negb (bool_decide (c ∈ ct_allowed_capabilities token)))
               (btree_set_iter req) with
       | Some c => Err (MissingCapability (ct_token_id token) c)
       | None => Ok tt
       end.
Proof.
  unfold revoked, generation_revoked, StaticPolicyEngine_decide, Mutex_lock. intros H.
  destruct (mx_poisoned _); simpl; [by destruct H; left|].
  rewrite decide_False by naive_solver.
  replace (_ && _)%Z with false
    by (symmetry; apply andb_false_iff; rewrite Z.ltb_ge, Z.leb_gt; lia).
  destruct (decide (ct_pack_id token = pk)) as [->|].
  - rewrite bool_decide_eq_true_2 by done. simpl.
    rewrite (decide_False (P := _ <> _)) by naive_solver.
    destruct (Z.ltb_spec (ct_expires_at_epoch_s token) now);
      [rewrite decide_True | rewrite decide_False]; done || lia.
  - rewrite bool_decide_eq_false_2 by done. simpl. by rewrite decide_True.
Qed.

Lemma decide_ok e token pk now req :
  StaticPolicyEngine_decide e token pk now req = Ok tt ->
  ~ revoked e token /\ ct_pack_id token = pk /\
  (now <= ct_expires_at_epoch_s token)%Z /\ req ⊆ ct_allowed_capabilities token.
Proof.
  destruct (decide (revoked e token)) as [Hr|Hr]; [by rewrite decide_revoked|].
  rewrite decide_not_revoked by done. case_decide; [done|]. case_decide; [done|].
  destruct (find_first _ _) eqn:Hc; [done|]. apply missing_capability_None in Hc.
  intros _. split_and!; try done; lia.
Qed.

(** C7 (functional). [authorize] changes nothing
    and its answer says exactly why: [Ok] means the token is not revoked (by id,
    by generation, or by a poisoned lock), belongs to the pack, has not expired
    and allows every required capability; each error means that its check, and
    no earlier one, failed; a missing capability is the least one missing. *)
Theorem static_authorize_spec e token pk now req :
  exists r, StaticPolicyEngine_authorize token pk now req e = (Returned r, e) /\
  match r with
  | Ok _ =>
      ~ revoked e token /\ ct_pack_id token = pk /\
      (now <= ct_expires_at_epoch_s token)%Z /\ req ⊆ ct_allowed_capabilities token
  | Err (RevokedToken t) => t = ct_token_id token /\ revoked e token
  | Err (PackMismatch a b) =>
      ~ revoked e token /\ a = ct_pack_id token /\ b = pk /\ a <> b
  | Err (ExpiredToken t x) =>
      ~ revoked e token /\ ct_pack_id token = pk /\ t = ct_token_id token /\
      x = ct_expires_at_epoch_s token /\ (x < now)%Z
  | Err (MissingCapability t c) =>
      ~ revoked e token /\ ct_pack_id token = pk /\ (now <= ct_expires_at_epoch_s token)%Z /\
      t = ct_token_id token /\ c ∈ req /\ c ∉ ct_allowed_capabilities token /\
      forall d, d ∈ req -> d ∉ ct_allowed_capabilities token -> rust_le c d
  | Err _ => False
  end.
Proof.
  eexists; split; [done|].
  destruct (decide (revoked e token)) as [Hr|Hr]; [by rewrite decide_revoked|].
  rewrite decide_not_revoked by done.
  case_decide; [done|]. case_decide; [naive_solver|].
  destruct (find_first _ _) as [c|] eqn:Hc.
  - apply find_first_btree_min in Hc as (Hin & Hc & Hmin).
    rewrite negb_true_iff, bool_decide_eq_false in Hc.
    split_and!; try done; [lia|].
    intros d Hd Hnd. apply Hmin; [done|]. by rewrite bool_decide_eq_false_2.
  - apply missing_capability_None in Hc.
    split_and!; try done; lia.
Qed.

(** ** The engine along any sequence of calls *)

(** [engine_run B e ts e']: from [e], some sequence of calls on the engine
    leads to [e'], issuing the tokens [ts] in this order; no call revokes a
    generation above [B]. *)
Inductive engine_run (B : Z) (e : StaticPolicyEngine)
  : list CapabilityToken -> StaticPolicyEngine -> Prop :=
| run_nil : engine_run B e [] e
| run_issue ts e1 pack agent now ttl t e2 :
    engine_run B e ts e1 ->
    StaticPolicyEngine_issue_token pack agent now ttl e1 = (Returned (Ok t), e2) ->
    engine_run B e (ts ++ [t]) e2
| run_authorize ts e1 token pk now req r e2 :
    engine_run B e ts e1 ->
    StaticPolicyEngine_authorize token pk now req e1 = (Returned r, e2) ->
    engine_run B e ts e2
| run_revoke ts e1 id r e2 :
    engine_run B e ts e1 ->
    StaticPolicyEngine_revoke_token id e1 = (Returned r, e2) ->
    engine_run B e ts e2
| run_revoke_generation ts e1 below u e2 :
    engine_run B e ts e1 -> (0 <= below <= B)%Z ->
    StaticPolicyEngine_revoke_generation below e1 = (Returned u, e2) ->
    engine_run B e ts e2.

#[export] Hint Constructors engine_run : rust.

Lemma issue_token_run pack agent now ttl e :
  StaticPolicyEngine_issue_token pack agent now ttl e =
  (Returned (Ok {|
     ct_token_id := token_id_of_seq (u64_wrapping_add (spe_token_seq e) 1);
     ct_pack_id := vp_pack_id pack; ct_agent_id := agent;
     ct_allowed_capabilities := vp_granted_capabilities pack;
     ct_issued_at_epoch_s := now; ct_expires_at_epoch_s := u64_saturating_add now ttl;
     ct_generation := u64_wrapping_add (spe_generation e) 1 |}),
   {| spe_token_seq := u64_wrapping_add (spe_token_seq e) 1;
      spe_revoked_tokens := spe_revoked_tokens e;
      spe_generation := u64_wrapping_add (spe_generation e) 1;
      spe_revoked_below_generation := spe_revoked_below_generation e |}).
Proof. reflexivity. Qed.

Lemma revoke_token_run id e :
  mx_poisoned (spe_revoked_tokens e) = false ->
  StaticPolicyEngine_revoke_token id e =
  (Returned (Ok tt),
   spe_set_revoked (Build_Mutex ({[id]} ∪ mx_value (spe_revoked_tokens e)) false) e).
Proof.
  intros Hp. unfold StaticPolicyEngine_revoke_token, bind, get, Mutex_lock, Mutex_store.
  by rewrite Hp.
Qed.

Lemma revoke_token_poisoned id e :
  mx_poisoned (spe_revoked_tokens e) = true ->
  StaticPolicyEngine_revoke_token id e = (Returned (Err (RevokedToken id)), e).
Proof.
  intros Hp. unfold StaticPolicyEngine_revoke_token, bind, get, Mutex_lock. by rewrite Hp.
Qed.

(** Case analysis on the last call of a run, with each call computed. *)
Ltac engine_cases :=
  match goal with
  | H : StaticPolicyEngine_issue_token _ _ _ _ _ = _ |- _ =>
      rewrite issue_token_run in H; simplify_eq; simpl in *
  | H : StaticPolicyEngine_authorize _ _ _ _ _ = _ |- _ =>
      unfold StaticPolicyEngine_authorize, gets in H; simplify_eq
  | H : StaticPolicyEngine_revoke_token _ ?e = _ |- _ =>
      let Hp := fresh "Hp" in
      destruct (mx_poisoned (spe_revoked_tokens e)) eqn:Hp;
      [rewrite revoke_token_poisoned in H by done | rewrite revoke_token_run in H by done];
      simplify_eq; simpl in *
  | H : StaticPolicyEngine_revoke_generation _ _ = _ |- _ =>
      unfold StaticPolicyEngine_revoke_generation, bind, modify in H; simplify_eq; simpl in *
  end.

(** A run from the default engine: the lock is never poisoned, the token
    counter counts the issued tokens, the generation counter is above the
    threshold and above every issued generation, and bounded. *)
Record engine_inv (B : Z) (ts : list CapabilityToken) (e : StaticPolicyEngine) : Prop := {
  ei_poison : mx_poisoned (spe_revoked_tokens e) = false;
  ei_seq : spe_token_seq e = Z.of_nat (length ts);
  ei_ids : forall i t, ts !! i = Some t -> ct_token_id t = token_id_of_seq (Z.of_nat i + 1);
  ei_threshold : (0 <= spe_revoked_below_generation e <= spe_generation e)%Z;
  ei_generation : (spe_generation e <= B + Z.of_nat (length ts))%Z;
  ei_issued : Forall (fun t => 0 < ct_generation t <= spe_generation e)%Z ts;
}.

Lemma engine_run_inv B ts e :
  (0 <= B)%Z -> (B + Z.of_nat (length ts) <= u64_max)%Z ->
  engine_run B StaticPolicyEngine_default ts e -> engine_inv B ts e.
Proof.
  intros HB Hlen Hrun. induction Hrun as
    [|ts e1 pack agent now ttl t e2 Hrun IH Hc|ts e1 token pk now req r e2 Hrun IH Hc
     |ts e1 id r e2 Hrun IH Hc|ts e1 below u e2 Hrun IH Hbelow Hc]; [|..]; try engine_cases.
  - split; simpl; try done; lia.
  - rewrite length_app in Hlen. simpl in Hlen. destruct IH as [Hp Hs Hi Ht Hg Hf]; [lia|].
    rewrite !u64_wrapping_add_small by (unfold u64_valid, u64_max, u64_modulus in *; lia).
    split; simpl; rewrite ?length_app; simpl; try done; try lia.
    + intros i t [Hl|[Hl Heq]]%lookup_app_Some; [by apply Hi|].
      apply list_lookup_singleton_Some in Heq as [Hi0 <-]. simpl. f_equal. lia.
    + apply Forall_app; split; [|apply Forall_singleton; simpl; lia].
      eapply Forall_impl; [done|]. simpl. lia.
  - by apply IH.
  - by apply IH.
  - destruct (IH Hlen) as [? ? ? ? ? ?]. by split.
  - destruct (IH Hlen) as [? ? ? ? ? Hf]. split; simpl; try done; try lia.
    eapply Forall_impl; [done|]. simpl. lia.
Qed.

(** Along any sequence of calls from a fresh
    engine, every token issued has an id of its own, as long as no more than
    [u64::MAX] tokens are issued (counting the generations jumped over). *)
Theorem issued_token_ids_unique B ts e :
  (0 <= B)%Z -> (B + Z.of_nat (length ts) <= u64_max)%Z ->
  engine_run B StaticPolicyEngine_default ts e -> NoDup (ct_token_id <$> ts).
Proof.
  intros HB Hlen Hrun%engine_run_inv; [|done..]. destruct Hrun as [_ _ Hi _ _ _].
  apply NoDup_alt. intros i j id. rewrite !list_lookup_fmap.
  intros (t1 & H1 & ->)%fmap_Some (t2 & H2 & Heq)%fmap_Some.
  pose proof (lookup_lt_Some _ _ _ H1). pose proof (lookup_lt_Some _ _ _ H2).
  rewrite (Hi _ _ H1), (Hi _ _ H2) in Heq.
  apply String.app_inj, fmt_016x_inj in Heq; unfold u64_valid; lia.
Qed.

Lemma engine_run_revoked B e ts e' token :
  engine_run B e ts e' -> revoked e token -> revoked e' token.
Proof.
  intros Hrun Hr. induction Hrun; try engine_cases; try done;
    destruct IHHrun as [Hpo|[Hid|Hg]]; try done; try congruence; unfold revoked; simpl.
  all: try by left.
  all: try (right; left; by (done || apply elem_of_union_r)).
  all: right; right; unfold generation_revoked in *; simpl; lia.
Qed.

(** Once [revoke_token] has returned [Ok], or
    [revoke_generation] has covered a token's generation, no later sequence of
    calls (issuing, revoking, authorizing) makes [authorize] accept the token
    again: it answers [RevokedToken] whatever is asked. *)
Theorem revocation_permanent B e e1 ts e2 token pk now req :
  (StaticPolicyEngine_revoke_token (ct_token_id token) e = (Returned (Ok tt), e1) \/
   exists below, (0 < ct_generation token <= below)%Z /\
     StaticPolicyEngine_revoke_generation below e = (Returned tt, e1)) ->
  engine_run B e1 ts e2 ->
  StaticPolicyEngine_authorize token pk now req e2
  = (Returned (Err (RevokedToken (ct_token_id token))), e2).
Proof.
  intros Hrev Hrun. unfold StaticPolicyEngine_authorize, gets. rewrite decide_revoked; [done|].
  eapply engine_run_revoked; [done|]. unfold revoked, generation_revoked.
  destruct Hrev as [Hc|(below & Hb & Hc)]; engine_cases; [set_solver|lia].
Qed.

(** After any sequence of calls from a fresh
    engine that leaves room in the counters, a token issued next is accepted
    for its own pack, for every set of capabilities the pack grants, up to its
    expiry, unless its very id had been revoked in advance. *)
Theorem fresh_token_authorized B ts e pack agent now ttl t e' now' req :
  (0 <= B)%Z -> (B + Z.of_nat (length ts) < u64_max)%Z ->
  engine_run B StaticPolicyEngine_default ts e ->
  StaticPolicyEngine_issue_token pack agent now ttl e = (Returned (Ok t), e') ->
  ct_token_id t ∉ mx_value (spe_revoked_tokens e) ->
  (now' <= u64_saturating_add now ttl)%Z -> req ⊆ vp_granted_capabilities pack ->
  StaticPolicyEngine_authorize t (vp_pack_id pack) now' req e' = (Returned (Ok tt), e').
Proof.
  intros HB Hlen Hrun%engine_run_inv Hc Hid Hnow Hreq; [|lia..].
  destruct Hrun as [Hp Hs _ Ht Hg _]. engine_cases.
  unfold StaticPolicyEngine_authorize, gets. rewrite decide_not_revoked; simpl.
  - rewrite decide_False by naive_solver. rewrite decide_False by lia.
    by rewrite (proj2 (missing_capability_None _ _)).
  - unfold revoked, generation_revoked. simpl. intros [?|[?|Hgen]]; [congruence|done|].
    rewrite u64_wrapping_add_small in Hgen by (unfold u64_valid, u64_max, u64_modulus in *; lia).
    lia.
Qed.

(** Revoking the current generation after a sequence
    of calls revokes every token issued so far, and a token issued afterwards
    is not among the revoked. *)
Theorem revoke_current_generation_cutoff B ts e g u e1 pack agent now ttl t e2 :
  (0 <= B)%Z -> (B + Z.of_nat (length ts) < u64_max)%Z ->
  engine_run B StaticPolicyEngine_default ts e ->
  StaticPolicyEngine_current_generation e = (Returned g, e) ->
  StaticPolicyEngine_revoke_generation g e = (Returned u, e1) ->
  StaticPolicyEngine_issue_token pack agent now ttl e1 = (Returned (Ok t), e2) ->
  Forall (revoked e2) ts /\ ~ generation_revoked e2 t.
Proof.
  intros HB Hlen Hrun%engine_run_inv Hg Hr Hi; [|lia..].
  destruct Hrun as [Hp Hs _ Ht Hgen Hf].
  unfold StaticPolicyEngine_current_generation, gets in Hg. simplify_eq.
  do 2 engine_cases. split.
  - eapply Forall_impl; [done|]. intros t Htok. right; right. unfold generation_revoked.
    simpl in *. lia.
  - unfold generation_revoked. simpl.
    rewrite u64_wrapping_add_small by (unfold u64_valid, u64_max, u64_modulus in *; lia). lia.
Qed.

(** Revoking up to [u64::MAX] breaks the
    engine: the next token gets generation 0, which no generation revocation
    ever covers, and the token after it is revoked at birth. *)
Theorem revoke_generation_max_wraps pack agent now ttl :
  let e1 := (StaticPolicyEngine_revoke_generation u64_max StaticPolicyEngine_default).2 in
  exists t0 e2 t1 e3,
    StaticPolicyEngine_issue_token pack agent now ttl e1 = (Returned (Ok t0), e2) /\
    StaticPolicyEngine_issue_token pack agent now ttl e2 = (Returned (Ok t1), e3) /\
    (forall below, ~ generation_revoked
        (StaticPolicyEngine_revoke_generation below e3).2 t0) /\
    revoked e3 t1.
Proof.
  intros e1. do 4 eexists. split; [apply issue_token_run|]. split; [apply issue_token_run|].
  split.
  - intros below. unfold generation_revoked. simpl.
    replace (u64_wrapping_add (Z.max 0 u64_max) 1) with 0%Z by reflexivity. lia.
  - right; right. unfold generation_revoked. simpl.
    replace (u64_wrapping_add (u64_wrapping_add (Z.max 0 u64_max) 1) 1) with 1%Z
      by reflexivity.
    unfold u64_max, u64_modulus. lia.
Qed.
