(* ===== verification/PolicyRace.v ===== *)
(** * The policy engine under concurrent calls

    [StaticPolicyEngine] is shared between threads: its methods take [&self] and
    work on atomics and a mutex, so a call is several atomic steps and other
    threads' steps may come between them.  [thread_step] performs the next
    atomic step of a call; [race_step] lets any thread take one.  The steps of
    different threads are interleaved (relaxed atomic read-modify-writes of one
    variable are totally ordered; accesses to different variables are taken in
    program order, one of the orders relaxed atomics allow). *)

From S2P Require Import Prelude RustStr Contracts Policy.

(** A call in progress. *)
Inductive thread : Type :=
| Issuing (pack : VerticalPackManifest) (agent : string) (now ttl : Z)
| IssuingWith (pack : VerticalPackManifest) (agent : string) (now ttl : Z) (generation : Z)
| Issued (token : CapabilityToken)
| RevokingGeneration (below : Z)
| RaisingGeneration (below : Z)
| RevokingToken (id : string)
| Authorizing (token : CapabilityToken) (pack_id : string) (now : Z) (req : gset Capability)
| Authorizing2 (token : CapabilityToken) (pack_id : string) (now : Z) (req : gset Capability)
| Finished (r : result unit PolicyError).

(** The rest of [authorize] once the revoked set has been read: the threshold
    is loaded and the token's own fields are compared. *)
Definition authorize_after_lock (e : StaticPolicyEngine) (token : CapabilityToken)
    (runtime_pack_id : string) (now_epoch_s : Z) (required : gset Capability)
  : result unit PolicyError :=
  let threshold := spe_revoked_below_generation e in
  if ((0 <? ct_generation token) && (ct_generation token <=? threshold))%Z
  then Err (RevokedToken (ct_token_id token)) else
  if negb (bool_decide (ct_pack_id token = runtime_pack_id))
  then Err (PackMismatch (ct_pack_id token) runtime_pack_id) else
  if (ct_expires_at_epoch_s token <? now_epoch_s)%Z
  then Err (ExpiredToken (ct_token_id token) (ct_expires_at_epoch_s token)) else
  match find_first (fun c => negb (bool_decide (c ∈ ct_allowed_capabilities token)))
          (btree_set_iter required) with
  | Some c => Err (MissingCapability (ct_token_id token) c)
  | None => Ok tt
  end.

(** One atomic step of a call; [None] when the call has returned. *)
Definition thread_step (t : thread) (e : StaticPolicyEngine)
  : option (thread * StaticPolicyEngine) :=
  match t with
  | Issuing pack agent now ttl =>
      let g := u64_wrapping_add (spe_generation e) 1 in
      Some (IssuingWith pack agent now ttl g, spe_set_generation g e)
  | IssuingWith pack agent now ttl g =>
      let seq := u64_wrapping_add (spe_token_seq e) 1 in
      Some (Issued {|
              ct_token_id := token_id_of_seq seq;
              ct_pack_id := vp_pack_id pack;
              ct_agent_id := agent;
              ct_allowed_capabilities := vp_granted_capabilities pack;
              ct_issued_at_epoch_s := now;
              ct_expires_at_epoch_s := u64_saturating_add now ttl;
              ct_generation := g;
            |}, spe_set_token_seq seq e)
  | RevokingGeneration below =>
      Some (RaisingGeneration below,
            spe_set_threshold (Z.max (spe_revoked_below_generation e) below) e)
  | RaisingGeneration below =>
      Some (Finished (Ok tt), spe_set_generation (Z.max (spe_generation e) below) e)
  | RevokingToken id =>
      match Mutex_lock (spe_revoked_tokens e) (RevokedToken id) with
      | Err err => Some (Finished (Err err), e)
      | Ok revoked =>
          Some (Finished (Ok tt),
                spe_set_revoked (Mutex_store ({[id]} ∪ revoked) (spe_revoked_tokens e)) e)
      end
  | Authorizing token pk now req =>
      match Mutex_lock (spe_revoked_tokens e) (RevokedToken (ct_token_id token)) with
      | Err err => Some (Finished (Err err), e)
      | Ok revoked =>
          if decide (ct_token_id token ∈ revoked)
          then Some (Finished (Err (RevokedToken (ct_token_id token))), e)
          else Some (Authorizing2 token pk now req, e)
      end
  | Authorizing2 token pk now req =>
      Some (Finished (authorize_after_lock e token pk now req), e)
  | Issued _ | Finished _ => None
  end.

Definition config : Type := StaticPolicyEngine * list thread.

Inductive race_step : config -> config -> Prop :=
| race_step_thread e e' ts i t t' :
    ts !! i = Some t -> thread_step t e = Some (t', e') ->
    race_step (e, ts) (e', <[i := t']> ts).

(** ** A call that is not interleaved is the sequential operation *)

Fixpoint run_alone (fuel : nat) (t : thread) (e : StaticPolicyEngine)
  : thread * StaticPolicyEngine :=
  match fuel with
  | O => (t, e)
  | S fuel =>
      match thread_step t e with
      | Some (t', e') => run_alone fuel t' e'
      | None => (t, e)
      end
  end.

(** Run without interference, the atomic steps of a call
    compute exactly the sequential operation of the engine: the same result
    and the same final state, for issuing, revoking and authorizing. *)
Theorem run_alone_refines e :
  (forall pack agent now ttl, exists tok,
     StaticPolicyEngine_issue_token pack agent now ttl e
       = (Returned (Ok tok), (run_alone 2 (Issuing pack agent now ttl) e).2) /\
     (run_alone 2 (Issuing pack agent now ttl) e).1 = Issued tok) /\
  (forall below,
     StaticPolicyEngine_revoke_generation below e
       = (Returned tt, (run_alone 2 (RevokingGeneration below) e).2)) /\
  (forall id, exists r,
     StaticPolicyEngine_revoke_token id e = (Returned r, (run_alone 1 (RevokingToken id) e).2) /\
     (run_alone 1 (RevokingToken id) e).1 = Finished r) /\
  (forall token pk now req, exists r,
     StaticPolicyEngine_authorize token pk now req e
       = (Returned r, (run_alone 2 (Authorizing token pk now req) e).2) /\
     (run_alone 2 (Authorizing token pk now req) e).1 = Finished r).
Proof.
  split_and!.
  - intros. eexists. split; reflexivity.
  - reflexivity.
  - intros id. simpl. unfold StaticPolicyEngine_revoke_token, bind, get, Mutex_lock.
    destruct (mx_poisoned _); eexists; split; reflexivity.
  - intros token pk now req. simpl.
    unfold StaticPolicyEngine_authorize, gets, StaticPolicyEngine_decide, Mutex_lock.
    destruct (mx_poisoned _); simpl; [by eexists|].
    destruct (decide _); simpl; by eexists.
Qed.

(** ** Invariants of every interleaving *)

Definition is_issued (t : thread) : bool := match t with Issued _ => true | _ => false end.
Definition has_generation (t : thread) : bool :=
  match t with Issued _ | IssuingWith _ _ _ _ _ => true | _ => false end.

Definition count (f : thread -> bool) (ts : list thread) : Z :=
  Z.of_nat (length (filter (fun t => f t = true) ts)).

Lemma count_bound f ts : (0 <= count f ts <= Z.of_nat (length ts))%Z.
Proof. unfold count. pose proof (length_filter (fun t => f t = true) ts). lia. Qed.

Lemma count_update f ts i t t' :
  ts !! i = Some t ->
  count f (<[i := t']> ts)
  = (count f ts - (if f t then 1 else 0) + (if f t' then 1 else 0))%Z.
Proof.
  intros Hi. pose proof (lookup_lt_Some _ _ _ Hi).
  rewrite insert_take_drop by done. rewrite <- (take_drop_middle ts i t Hi) at 3.
  unfold count. rewrite !filter_app, !length_app, !filter_cons.
  destruct (f t), (f t'); rewrite ?decide_True, ?decide_False by done; simpl; lia.
Qed.

Lemma count_zero f ts : Forall (fun t => f t = false) ts -> count f ts = 0%Z.
Proof.
  unfold count. induction 1 as [|t ts Ht _ IH]; [done|].
  rewrite filter_cons_False; [done|]. by rewrite Ht.
Qed.

(** A call about to start, revoking no generation above [B]. *)
Definition starting (B : Z) (t : thread) : Prop :=
  match t with
  | Issuing _ _ _ _ | RevokingToken _ | Authorizing _ _ _ _ => True
  | RevokingGeneration below => (0 <= below <= B)%Z
  | _ => False
  end.

(** The highest generation some call still has to raise the counter to. *)
Definition pending_raise (t : thread) : Z :=
  match t with RaisingGeneration below => below | _ => 0 end.

Record race_inv (B : Z) (c : config) : Prop := {
  ri_seq : spe_token_seq c.1 = count is_issued c.2;
  ri_ids : forall i t, c.2 !! i = Some (Issued t) ->
    exists k, (1 <= k <= spe_token_seq c.1)%Z /\ ct_token_id t = token_id_of_seq k;
  ri_distinct : forall i j t1 t2, i <> j ->
    c.2 !! i = Some (Issued t1) -> c.2 !! j = Some (Issued t2) ->
    ct_token_id t1 <> ct_token_id t2;
  ri_generation : (0 <= spe_generation c.1 <= B + count has_generation c.2)%Z;
  ri_below : forall i t, c.2 !! i = Some t ->
    match t with
    | RevokingGeneration below | RaisingGeneration below => (0 <= below <= B)%Z
    | _ => True
    end;
  ri_threshold : (0 <= spe_revoked_below_generation c.1)%Z /\
    ((spe_revoked_below_generation c.1 <= spe_generation c.1)%Z \/
     exists i below, c.2 !! i = Some (RaisingGeneration below) /\
       (spe_revoked_below_generation c.1 <= below)%Z);
}.

Lemma race_inv_start B ts :
  (0 <= B)%Z -> Forall (starting B) ts -> race_inv B (StaticPolicyEngine_default, ts).
Proof.
  intros HB Hts. rewrite Forall_lookup in Hts.
  assert (forall f, (forall t, starting B t -> f t = false) -> count f ts = 0%Z) as Hcount.
  { intros f Hf. apply count_zero, Forall_lookup. eauto. }
  split; simpl.
  - rewrite Hcount; [done|]. by intros [].
  - intros i t Hi%Hts. done.
  - intros i j t1 t2 _ Hi%Hts. done.
  - rewrite Hcount by (by intros []). lia.
  - intros i t Hi%Hts. by destruct t.
  - split; [done|]. by left.
Qed.

(** The clause of the invariant on the threshold. *)
Definition threshold_covered (c : config) : Prop :=
  (0 <= spe_revoked_below_generation c.1)%Z /\
  ((spe_revoked_below_generation c.1 <= spe_generation c.1)%Z \/
   exists i below, c.2 !! i = Some (RaisingGeneration below) /\
     (spe_revoked_below_generation c.1 <= below)%Z).

(** A step of a call that issues nothing keeps the invariant when the counters
    it moves stay in bounds. *)
Lemma race_inv_update B e e' ts i t t' :
  race_inv B (e, ts) -> ts !! i = Some t -> is_issued t = false -> is_issued t' = false ->
  spe_token_seq e' = spe_token_seq e ->
  (0 <= spe_generation e' <= B + count has_generation (<[i := t']> ts))%Z ->
  (match t' with
   | RevokingGeneration below | RaisingGeneration below => (0 <= below <= B)%Z
   | _ => True
   end) ->
  threshold_covered (e', <[i := t']> ts) ->
  race_inv B (e', <[i := t']> ts).
Proof.
  intros [Hseq Hids Hdist Hgen Hbelow Hthr] Hi Ht Ht' Hs Hg Hb Hc.
  pose proof (lookup_lt_Some _ _ _ Hi).
  assert (forall j u, <[i := t']> ts !! j = Some (Issued u) -> ts !! j = Some (Issued u)) as Hback.
  { intros j u. destruct (decide (i = j)) as [<-|].
    - rewrite list_lookup_insert_eq by done. by intros [= ->].
    - by rewrite list_lookup_insert_ne. }
  split; simpl in *; try done.
  - rewrite Hs, Hseq, (count_update _ _ _ t) by done. rewrite Ht, Ht'. lia.
  - intros j u Hj%Hback. rewrite Hs. eauto.
  - intros j k t1 t2 Hjk Hj%Hback Hk%Hback. eauto.
  - intros j u. destruct (decide (i = j)) as [<-|].
    + rewrite list_lookup_insert_eq by done. by intros [= <-].
    + rewrite list_lookup_insert_ne by done. apply Hbelow.
Qed.

(** A step that does not finish a raise keeps the threshold covered when it
    lowers no counter and does not move the threshold. *)
Lemma threshold_covered_update e e' ts i t t' :
  threshold_covered (e, ts) -> ts !! i = Some t -> pending_raise t = 0%Z ->
  spe_revoked_below_generation e' = spe_revoked_below_generation e ->
  (spe_generation e <= spe_generation e')%Z -> (0 <= spe_generation e)%Z ->
  threshold_covered (e', <[i := t']> ts).
Proof.
  intros [Hpos Hc] Hi Ht Heq Hle Hge. unfold threshold_covered in *. simpl in *. rewrite Heq.
  split; [done|]. destruct Hc as [Hc|(j & below & Hj & Hb)]; [left; lia|].
  destruct (decide (i = j)) as [<-|Hij].
  - rewrite Hi in Hj. simplify_eq. simpl in Ht. left. lia.
  - right. exists j, below. by rewrite list_lookup_insert_ne.
Qed.

(** The step that issues a token. *)
Lemma race_inv_issue B e ts i pack agent now ttl g t' e' :
  (0 <= B)%Z -> (B + Z.of_nat (length ts) < u64_max)%Z ->
  race_inv B (e, ts) -> ts !! i = Some (IssuingWith pack agent now ttl g) ->
  thread_step (IssuingWith pack agent now ttl g) e = Some (t', e') ->
  race_inv B (e', <[i := t']> ts).
Proof.
  intros HB Hlen [Hseq Hids Hdist Hgen Hbelow Hthr] Hi [= <- <-].
  pose proof (lookup_lt_Some _ _ _ Hi). pose proof (count_bound is_issued ts). simpl in *.
  assert (u64_wrapping_add (spe_token_seq e) 1 = spe_token_seq e + 1)%Z as Hw.
  { apply u64_wrapping_add_small; unfold u64_valid; lia. }
  rewrite Hw. split; simpl in *.
  - rewrite (count_update _ _ _ _ _ Hi). simpl. lia.
  - intros j u. destruct (decide (i = j)) as [<-|].
    + rewrite list_lookup_insert_eq by done. intros [= <-]. eexists; split; [|done]. lia.
    + rewrite list_lookup_insert_ne by done. intros (k & Hk & ->)%Hids. exists k. split; [lia|done].
  - assert (forall j u, ts !! j = Some (Issued u) ->
      ct_token_id u <> token_id_of_seq (spe_token_seq e + 1)) as Hnew.
    { intros j u (k & Hk & ->)%Hids Heq%String.app_inj%fmt_016x_inj; unfold u64_valid; lia. }
    intros j k t1 t2 Hjk.
    destruct (decide (i = j)) as [<-|], (decide (i = k)) as [<-|]; [done|..];
      rewrite ?list_lookup_insert_eq, ?list_lookup_insert_ne by done.
    + intros [= <-] Hk. simpl. by apply not_eq_sym, (Hnew k).
    + intros Hj [= <-]. simpl. by apply (Hnew j).
    + eauto.
  - rewrite (count_update _ _ _ _ _ Hi). simpl. lia.
  - intros j u. destruct (decide (i = j)) as [<-|].
    + rewrite list_lookup_insert_eq by done. by intros [= <-].
    + rewrite list_lookup_insert_ne by done. apply Hbelow.
  - eapply (threshold_covered_update _ _ _ _ _ _ Hthr Hi); simpl; done || lia.
Qed.

(** The threshold stays covered: the step is one of
    [threshold_covered_update]. *)
Ltac keep_covered :=
  match goal with
  | Hi : ?ts !! _ = Some _, H : race_inv _ (?e, ?ts) |- _ =>
      apply (threshold_covered_update e _ _ _ _ _ (ri_threshold _ _ H) Hi); simpl; done || lia
  end.

Lemma race_inv_step B c c' :
  (0 <= B)%Z -> (B + Z.of_nat (length c.2) < u64_max)%Z ->
  race_inv B c -> race_step c c' -> race_inv B c'.
Proof.
  intros HB Hlen Hinv Hstep. destruct Hstep as [e e' ts i t t' Hi Hst]. simpl in Hlen.
  destruct t; try done; try (by apply (race_inv_issue B e ts i _ _ _ _ _ _ _ HB Hlen Hinv Hi)).
  all: pose proof Hinv as [_ _ _ Hgen Hbelow Hthr]; simpl in *.
  all: pose proof (count_bound has_generation ts); pose proof (lookup_lt_Some _ _ _ Hi).
  all: repeat case_match; simplify_eq; apply (race_inv_update _ _ _ _ _ _ _ Hinv Hi); try done; simpl;
    rewrite ?(count_update _ _ _ _ _ Hi); simpl; try lia;
    try keep_covered.
  all: try (rewrite !u64_wrapping_add_small by (unfold u64_valid; lia)); try lia.
  all: try keep_covered.
  - specialize (Hbelow _ _ Hi). simpl in Hbelow. lia.
  - specialize (Hbelow _ _ Hi). simpl in Hbelow. split; simpl; [lia|].
    destruct Hthr as [Hpos Hc].
    destruct (Z.max_spec (spe_revoked_below_generation e) below) as [[? ->]|[? ->]].
    + right. exists i, below. by rewrite list_lookup_insert_eq.
    + destruct Hc as [Hc|(j & b & Hj & Hb)]; [by left|]. right. exists j, b.
      rewrite list_lookup_insert_ne; [done|]. intros <-. congruence.
  - specialize (Hbelow _ _ Hi). simpl in Hbelow. lia.
  - destruct Hthr as [Hpos Hc]. split; simpl; [done|].
    destruct Hc as [Hc|(j & b & Hj & Hb)]; [left; lia|].
    destruct (decide (i = j)) as [<-|]; [left; rewrite Hi in Hj; simplify_eq; lia|].
    right. exists j, b. by rewrite list_lookup_insert_ne.
Qed.

Lemma race_inv_reachable B ts0 c :
  (0 <= B)%Z -> (B + Z.of_nat (length ts0) < u64_max)%Z -> Forall (starting B) ts0 ->
  rtc race_step (StaticPolicyEngine_default, ts0) c ->
  race_inv B c /\ length c.2 = length ts0.
Proof.
  intros HB Hlen Hts. revert c.
  apply (rtc_ind_r (fun c => race_inv B c /\ length c.2 = length ts0)).
  - split; [by apply race_inv_start|done].
  - intros c c' _ Hstep [IH Hl]. split.
    + eapply race_inv_step; [done| |done..]. by rewrite Hl.
    + destruct Hstep. simpl in *. by rewrite length_insert.
Qed.

(** However the atomic steps of any
    number of concurrent calls are interleaved, two calls that issue tokens
    never issue the same token id. *)
Theorem race_token_ids_unique B ts0 e ts i j t1 t2 :
  (0 <= B)%Z -> (B + Z.of_nat (length ts0) < u64_max)%Z -> Forall (starting B) ts0 ->
  rtc race_step (StaticPolicyEngine_default, ts0) (e, ts) ->
  ts !! i = Some (Issued t1) -> ts !! j = Some (Issued t2) -> i <> j ->
  ct_token_id t1 <> ct_token_id t2.
Proof.
  intros HB Hlen Hts Hrun Hi Hj Hij.
  destruct (race_inv_reachable B ts0 _ HB Hlen Hts Hrun) as [[_ _ Hd _ _ _] _].
  by apply (Hd i j).
Qed.

(** In every interleaving, a call of
    [issue_token] that takes its generation while no [revoke_generation] is
    between its two steps gets one above the revocation threshold: only calls
    overlapping a [revoke_generation] can land in the revoked range. *)
Theorem issue_outside_revocation_window B ts0 e ts i pack agent now ttl g e' :
  (0 <= B)%Z -> (B + Z.of_nat (length ts0) < u64_max)%Z -> Forall (starting B) ts0 ->
  rtc race_step (StaticPolicyEngine_default, ts0) (e, ts) ->
  (forall k below, ts !! k <> Some (RaisingGeneration below)) ->
  ts !! i = Some (Issuing pack agent now ttl) ->
  thread_step (Issuing pack agent now ttl) e = Some (IssuingWith pack agent now ttl g, e') ->
  (spe_revoked_below_generation e' < g)%Z.
Proof.
  intros HB Hlen Hts Hrun Hquiet Hi Hst.
  destruct (race_inv_reachable B ts0 _ HB Hlen Hts Hrun) as [[_ _ _ Hg _ [_ Ht]] Hl].
  simpl in *. pose proof (count_bound has_generation ts).
  rewrite u64_wrapping_add_small in Hst by (unfold u64_valid, u64_max, u64_modulus in *; lia).
  simplify_eq. simpl. destruct Ht as [|(k & below & Hk & _)]; [lia|].
  by destruct (Hquiet k below).
Qed.

(** The overlap is real: a token issued between the two steps of a
    [revoke_generation] is revoked when the call that issued it returns. *)
Example issue_inside_revocation_window pack agent now ttl :
  exists t e, rtc race_step
    (StaticPolicyEngine_default, [RevokingGeneration 5; Issuing pack agent now ttl])
    (e, [Finished (Ok tt); Issued t]) /\ revoked e t.
Proof.
  do 2 eexists. split.
  - eapply rtc_l; [eapply (race_step_thread _ _ _ 0); reflexivity|].
    eapply rtc_l; [eapply (race_step_thread _ _ _ 1); reflexivity|].
    eapply rtc_l; [eapply (race_step_thread _ _ _ 1); reflexivity|].
    eapply rtc_l; [eapply (race_step_thread _ _ _ 0); reflexivity|]. apply rtc_refl.
  - right; right. unfold generation_revoked. vm_compute. split; done.
Qed.
