(* ===== verification/Planes.v ===== *)
(** * Execution planes and the harness broker

    [crates/kernel/src/runtime.rs], [tool.rs], [memory.rs], [connector.rs] and
    [harness.rs].  The runtime, tool and memory planes are the same code over
    different request, outcome and error types: [PlaneSig] gathers those types
    and [Plane] is the code, instantiated three times.  The connector plane
    keeps the same registries and runs every adapter behind [catch_unwind].
    Adapters are [dyn] objects: records of functions on an environment [W]. *)

From S2P Require Import Prelude RustStr Contracts.

(** ** The plane code *)

Record PlaneSig : Type := {
  ps_core_request : Type;
  ps_core_outcome : Type;
  ps_extension_request : Type;
  ps_extension_outcome : Type;
  ps_error : Type;
  ps_core_adapter_not_found : string -> ps_error;
  ps_extension_not_found : string -> ps_error;
  ps_no_default_core_adapter : ps_error;
}.

(** [CoreRuntimeAdapter], [CoreToolAdapter], [CoreMemoryAdapter],
    [CoreConnectorAdapter]. *)
Record CoreAdapter (sig : PlaneSig) (W : Type) : Type := {
  ca_name : string;
  ca_execute : ps_core_request sig -> M W (result (ps_core_outcome sig) (ps_error sig));
}.
Arguments ca_name {sig W} _.
Arguments ca_execute {sig W} _ _.

(** The extension adapters, which are handed a core adapter. *)
Record ExtensionAdapter (sig : PlaneSig) (W : Type) : Type := {
  ea_name : string;
  ea_execute : ps_extension_request sig -> CoreAdapter sig W ->
    M W (result (ps_extension_outcome sig) (ps_error sig));
}.
Arguments ea_name {sig W} _.
Arguments ea_execute {sig W} _ _ _.

Record Plane (sig : PlaneSig) (W : Type) : Type := {
  pl_core_adapters : gmap string (CoreAdapter sig W);
  pl_extension_adapters : gmap string (ExtensionAdapter sig W);
  pl_default_core_adapter : option string;
}.
Arguments pl_core_adapters {sig W} _.
Arguments pl_extension_adapters {sig W} _.
Arguments pl_default_core_adapter {sig W} _.

Section plane.
Context {sig : PlaneSig} {W : Type}.

Definition Plane_new : Plane sig W := {|
  pl_core_adapters := ∅;
  pl_extension_adapters := ∅;
  pl_default_core_adapter := None;
|}.

Definition Plane_register_core_adapter (adapter : CoreAdapter sig W) (p : Plane sig W)
  : Plane sig W := {|
  pl_core_adapters := <[ca_name adapter := adapter]> (pl_core_adapters p);
  pl_extension_adapters := pl_extension_adapters p;
  pl_default_core_adapter :=
    match pl_default_core_adapter p with
    | None => Some (ca_name adapter)
    | Some d => Some d
    end;
|}.

Definition Plane_register_extension_adapter (adapter : ExtensionAdapter sig W) (p : Plane sig W)
  : Plane sig W := {|
  pl_core_adapters := pl_core_adapters p;
  pl_extension_adapters := <[ea_name adapter := adapter]> (pl_extension_adapters p);
  pl_default_core_adapter := pl_default_core_adapter p;
|}.

Definition Plane_set_default_core_adapter (name : string) (p : Plane sig W)
  : result unit (ps_error sig) * Plane sig W :=
  match pl_core_adapters p !! name with
  | None => (Err (ps_core_adapter_not_found sig name), p)
  | Some _ =>
      (Ok tt, {| pl_core_adapters := pl_core_adapters p;
                 pl_extension_adapters := pl_extension_adapters p;
                 pl_default_core_adapter := Some name |})
  end.

Definition Plane_default_core_adapter_name (p : Plane sig W) : option string :=
  pl_default_core_adapter p.

(** The core adapter a call reaches, with the name it is found under. *)
Definition Plane_resolve_core (p : Plane sig W) (core_name : option string)
  : result (string * CoreAdapter sig W) (ps_error sig) :=
  let* name :=
    match core_name with
    | Some name => Ok name
    | None => ok_or (pl_default_core_adapter p) (ps_no_default_core_adapter sig)
    end in
  let* adapter := ok_or (pl_core_adapters p !! name) (ps_core_adapter_not_found sig name) in
  Ok (name, adapter).

Definition Plane_execute_core (p : Plane sig W) (core_name : option string)
    (request : ps_core_request sig) : M W (result (ps_core_outcome sig) (ps_error sig)) :=
  match Plane_resolve_core p core_name with
  | Err e => ret (Err e)
  | Ok (_, adapter) => ca_execute adapter request
  end.

Definition Plane_execute_extension (p : Plane sig W) (extension_name : string)
    (core_name : option string) (request : ps_extension_request sig)
  : M W (result (ps_extension_outcome sig) (ps_error sig)) :=
  match ok_or (pl_extension_adapters p !! extension_name)
          (ps_extension_not_found sig extension_name) with
  | Err e => ret (Err e)
  | Ok extension =>
      match Plane_resolve_core p core_name with
      | Err e => ret (Err e)
      | Ok (_, core) => ea_execute extension request core
      end
  end.

(** ** Well-formed planes *)

(** Adapters sit under their own names, and the default is a registered core
    adapter: there is one as soon as there is any core adapter. *)
Record plane_wf (p : Plane sig W) : Prop := {
  pw_core : forall n a, pl_core_adapters p !! n = Some a -> ca_name a = n;
  pw_extension : forall n a, pl_extension_adapters p !! n = Some a -> ea_name a = n;
  pw_default : forall n, pl_default_core_adapter p = Some n -> is_Some (pl_core_adapters p !! n);
  pw_some : pl_core_adapters p <> ∅ -> is_Some (pl_default_core_adapter p);
}.

Lemma plane_wf_new : plane_wf Plane_new.
Proof. split; simpl; [done..|set_solver]. Qed.

Lemma plane_wf_register_core a p : plane_wf p -> plane_wf (Plane_register_core_adapter a p).
Proof.
  intros [Hc He Hd Hs]. split; simpl; [| done | |].
  - intros n b. rewrite lookup_insert. case_decide; naive_solver.
  - intros n. destruct (pl_default_core_adapter p) as [d|] eqn:E; intros [= <-].
    + rewrite lookup_insert. case_decide; eauto.
    + rewrite lookup_insert_eq. eauto.
  - intros _. destruct (pl_default_core_adapter p); eauto.
Qed.

Lemma plane_wf_register_extension a p :
  plane_wf p -> plane_wf (Plane_register_extension_adapter a p).
Proof.
  intros [Hc He Hd Hs]. split; simpl; [done | | done..].
  intros n b. rewrite lookup_insert. case_decide; naive_solver.
Qed.

Lemma plane_wf_set_default n p :
  plane_wf p -> plane_wf (Plane_set_default_core_adapter n p).2.
Proof.
  intros [Hc He Hd Hs]. unfold Plane_set_default_core_adapter.
  destruct (pl_core_adapters p !! n) eqn:E; simpl; [|by split].
  split; simpl; [done..| |eauto]. intros m [= <-]. eauto.
Qed.

(** A core call without a name fails for want of a default only on a plane
    without core adapters, and never for want of the adapter. *)
Lemma resolve_default p :
  plane_wf p ->
  match Plane_resolve_core p None with
  | Ok (n, a) => pl_default_core_adapter p = Some n /\ ca_name a = n
  | Err e => e = ps_no_default_core_adapter sig /\ pl_core_adapters p = ∅
  end.
Proof.
  intros [Hc He Hd Hs]. unfold Plane_resolve_core, ok_or.
  destruct (pl_default_core_adapter p) as [n|] eqn:E; simpl.
  - destruct (Hd n eq_refl) as [a Ha]. rewrite Ha. simpl. eauto.
  - split; [done|]. destruct (decide (pl_core_adapters p = ∅)) as [|Hne]; [done|].
    by destruct (Hs Hne).
Qed.

Lemma resolve_core_ok p core_name n a :
  Plane_resolve_core p core_name = Ok (n, a) ->
  pl_core_adapters p !! n = Some a /\
  n = default (default n (pl_default_core_adapter p)) core_name.
Proof.
  unfold Plane_resolve_core, ok_or.
  destruct core_name as [m|]; [|destruct (pl_default_core_adapter p) as [m|]; [|done]]; simpl;
    destruct (pl_core_adapters p !! m) eqn:E; simpl; naive_solver.
Qed.
End plane.
#[export] Hint Resolve plane_wf_new plane_wf_register_core plane_wf_register_extension
  plane_wf_set_default : rust.

(** ** The three plain planes and the connector plane *)

Section kinds.
Context {J : SerdeJson}.

Definition RuntimeSig : PlaneSig := {|
  ps_core_request := RuntimeCoreRequest;
  ps_core_outcome := RuntimeCoreOutcome;
  ps_extension_request := RuntimeExtensionRequest;
  ps_extension_outcome := RuntimeExtensionOutcome;
  ps_error := RuntimePlaneError;
  ps_core_adapter_not_found := RuntimeCoreAdapterNotFound;
  ps_extension_not_found := RuntimeExtensionNotFound;
  ps_no_default_core_adapter := RuntimeNoDefaultCoreAdapter;
|}.

Definition ToolSig : PlaneSig := {|
  ps_core_request := ToolCoreRequest;
  ps_core_outcome := ToolCoreOutcome;
  ps_extension_request := ToolExtensionRequest;
  ps_extension_outcome := ToolExtensionOutcome;
  ps_error := ToolPlaneError;
  ps_core_adapter_not_found := ToolCoreAdapterNotFound;
  ps_extension_not_found := ToolExtensionNotFound;
  ps_no_default_core_adapter := ToolNoDefaultCoreAdapter;
|}.

Definition MemorySig : PlaneSig := {|
  ps_core_request := MemoryCoreRequest;
  ps_core_outcome := MemoryCoreOutcome;
  ps_extension_request := MemoryExtensionRequest;
  ps_extension_outcome := MemoryExtensionOutcome;
  ps_error := MemoryPlaneError;
  ps_core_adapter_not_found := MemoryCoreAdapterNotFound;
  ps_extension_not_found := MemoryExtensionNotFound;
  ps_no_default_core_adapter := MemoryNoDefaultCoreAdapter;
|}.

Definition ConnectorSig : PlaneSig := {|
  ps_core_request := ConnectorCommand;
  ps_core_outcome := ConnectorOutcome;
  ps_extension_request := ConnectorCommand;
  ps_extension_outcome := ConnectorOutcome;
  ps_error := ConnectorError;
  ps_core_adapter_not_found := ConnectorCoreAdapterNotFound;
  ps_extension_not_found := ConnectorExtensionNotFound;
  ps_no_default_core_adapter := ConnectorNoDefaultCoreAdapter;
|}.

Definition RuntimePlane (W : Type) : Type := Plane RuntimeSig W.
Definition ToolPlane (W : Type) : Type := Plane ToolSig W.
Definition MemoryPlane (W : Type) : Type := Plane MemorySig W.
Definition ConnectorPlane (W : Type) : Type := Plane ConnectorSig W.

Inductive ToolConcurrencyClass : Type := ReadOnly | Mutating | UnknownConcurrency.

Definition ToolConcurrencyClass_as_str (c : ToolConcurrencyClass) : string :=
  match c with
  | ReadOnly => "read_only"
  | Mutating => "mutating"
  | UnknownConcurrency => "unknown"
  end.

Definition ToolConcurrencyClass_requires_serial_execution (c : ToolConcurrencyClass) : bool :=
  match c with ReadOnly => false | _ => true end.

Inductive ConnectorTier : Type := ConnectorTierCore | ConnectorTierExtension.

Definition ConnectorTier_as_error_scope (t : ConnectorTier) : string :=
  match t with
  | ConnectorTierCore => "connector core adapter"
  | ConnectorTierExtension => "connector extension adapter"
  end.

Definition extract_connector_panic_message (p : PanicPayload) : option string :=
  match p with
  | PanicString m => Some m
  | PanicStr m => Some m
  | PanicAny => None
  end.

Definition format_connector_invocation_panic (adapter_name : string) (tier : ConnectorTier)
    (p : PanicPayload) : string :=
  let scope := ConnectorTier_as_error_scope tier in
  match extract_connector_panic_message p with
  | Some m => scope +:+ " `" +:+ adapter_name +:+ "` panicked: " +:+ m
  | None => scope +:+ " `" +:+ adapter_name +:+ "` panicked"
  end.

Section connector.
Context {W : Type}.
Variable ps : PanicStrategy.

Definition execute_connector_invocation (adapter_name : string) (tier : ConnectorTier)
    (invocation : M W (result ConnectorOutcome ConnectorError))
  : M W (result ConnectorOutcome ConnectorError) :=
  let! r := catch_unwind ps invocation in
  match r with
  | Returned outcome => ret outcome
  | Panicked p =>
      ret (Err (ConnectorExecution (format_connector_invocation_panic adapter_name tier p)))
  end.

(** The core adapter an extension is handed: panics of the core stay inside. *)
Definition PanicIsolatedCoreConnector (adapter_name : string) (adapter : CoreAdapter ConnectorSig W)
  : CoreAdapter ConnectorSig W := {|
  ca_name := adapter_name;
  ca_execute := fun command : ps_core_request ConnectorSig =>
    execute_connector_invocation adapter_name ConnectorTierCore (ca_execute adapter command);
|}.

Definition ConnectorPlane_invoke_core (p : ConnectorPlane W) (core_name : option string)
    (command : ConnectorCommand) : M W (result ConnectorOutcome ConnectorError) :=
  match Plane_resolve_core p core_name with
  | Err e => ret (Err e)
  | Ok (name, core) =>
      execute_connector_invocation name ConnectorTierCore (ca_execute core command)
  end.

Definition ConnectorPlane_invoke_extension (p : ConnectorPlane W) (extension_name : string)
    (core_name : option string) (command : ConnectorCommand)
  : M W (result ConnectorOutcome ConnectorError) :=
  match ok_or (pl_extension_adapters p !! extension_name)
          (ConnectorExtensionNotFound extension_name) with
  | Err e => ret (Err e)
  | Ok extension =>
      match Plane_resolve_core p core_name with
      | Err e => ret (Err e)
      | Ok (name, core) =>
          execute_connector_invocation extension_name ConnectorTierExtension
            (ea_execute extension command (PanicIsolatedCoreConnector name core))
      end
  end.
End connector.

(** ** harness.rs *)

Record HarnessAdapter (W : Type) : Type := {
  ha_name : string;
  ha_kind : HarnessKind;
  ha_execute : HarnessRequest -> M W (result HarnessOutcome HarnessError);
}.
Arguments ha_name {W} _.
Arguments ha_kind {W} _.
Arguments ha_execute {W} _ _.

Definition HarnessBroker (W : Type) : Type := gmap string (HarnessAdapter W).

Definition HarnessBroker_new {W} : HarnessBroker W := ∅.

Definition HarnessBroker_register {W} (adapter : HarnessAdapter W) (b : HarnessBroker W)
  : HarnessBroker W := <[ha_name adapter := adapter]> (b : gmap string (HarnessAdapter W)).

(** The adapter a route selects: the named one, or the first by name of the
    route's kind. *)
Definition HarnessBroker_select {W} (b : HarnessBroker W) (route : ExecutionRoute)
  : result (HarnessAdapter W) HarnessError :=
  match er_adapter route with
  | Some adapter_name =>
      ok_or ((b : gmap string (HarnessAdapter W)) !! adapter_name)
        (HarnessAdapterNotFound adapter_name)
  | None =>
      ok_or (find_first (fun a => bool_decide (ha_kind a = er_harness_kind route))
               (btree_map_values (b : gmap string (HarnessAdapter W))))
        (HarnessAdapterNotFound ("kind::" +:+ HarnessKind_debug (er_harness_kind route)))
  end.

Definition HarnessBroker_execute {W} (b : HarnessBroker W) (route : ExecutionRoute)
    (request : HarnessRequest) : M W (result HarnessOutcome HarnessError) :=
  match HarnessBroker_select b route with
  | Err e => ret (Err e)
  | Ok adapter =>
      if decide (ha_kind adapter = er_harness_kind route)
      then ha_execute adapter request
      else ret (Err (AdapterKindMismatch (ha_name adapter) (er_harness_kind route)
                       (ha_kind adapter)))
  end.
End kinds.
Arguments ha_name {J W} _.
Arguments ha_kind {J W} _.
Arguments ha_execute {J W} _ _.

(** ** Properties *)

Section properties.
Context {J : SerdeJson} {W : Type}.

Lemma execute_connector_invocation_unwind name tier
    (m : M W (result ConnectorOutcome ConnectorError)) w :
  execute_connector_invocation Unwind name tier m w =
  match m w with
  | (Returned r, w') => (Returned r, w')
  | (Panicked p, w') =>
      (Returned (Err (ConnectorExecution (format_connector_invocation_panic name tier p))), w')
  end.
Proof.
  unfold execute_connector_invocation, bind, catch_unwind. by destruct (m w) as [[r|p] w'].
Qed.

(** When the program unwinds, a connector
    call always returns: whatever the extension or the core adapter does, its
    panic becomes a [ConnectorError::Execution] that names the tier, the adapter
    and the panic message; and the core an extension is handed never panics
    into the extension.  (With [panic = "abort"], the release profile, nothing
    is caught: a panicking adapter ends the process.) *)
Theorem connector_panics_isolated (p : ConnectorPlane W) :
  (forall core_name cmd w, exists r w',
     ConnectorPlane_invoke_core Unwind p core_name cmd w = (Returned r, w')) /\
  (forall ext core_name cmd w, exists r w',
     ConnectorPlane_invoke_extension Unwind p ext core_name cmd w = (Returned r, w')) /\
  (forall name (core : CoreAdapter ConnectorSig W) (cmd : ConnectorCommand) w, exists r w',
     ca_execute (PanicIsolatedCoreConnector Unwind name core) cmd w = (Returned r, w')) /\
  (forall core_name (cmd : ConnectorCommand) w name core payload w',
     Plane_resolve_core p core_name = Ok (name, core) ->
     ca_execute core cmd w = (Panicked payload, w') ->
     ConnectorPlane_invoke_core Unwind p core_name cmd w
       = (Returned (Err (ConnectorExecution
            (format_connector_invocation_panic name ConnectorTierCore payload))), w') /\
     ConnectorPlane_invoke_core Abort p core_name cmd w = (Panicked payload, w')).
Proof.
  split_and!.
  - intros core_name cmd w. unfold ConnectorPlane_invoke_core, ret.
    destruct (Plane_resolve_core p core_name) as [[name core]|e]; [|by do 2 eexists].
    rewrite execute_connector_invocation_unwind.
    destruct (ca_execute _ _ _) as [[]]; by do 2 eexists.
  - intros ext core_name cmd w. unfold ConnectorPlane_invoke_extension, ok_or, ret.
    destruct (pl_extension_adapters p !! ext) as [x|]; [|by do 2 eexists].
    destruct (Plane_resolve_core p core_name) as [[name core]|e]; [|by do 2 eexists].
    rewrite execute_connector_invocation_unwind.
    destruct (ea_execute _ _ _ _) as [[]]; by do 2 eexists.
  - intros name core cmd w. simpl. rewrite execute_connector_invocation_unwind.
    destruct (ca_execute _ _ _) as [[]]; by do 2 eexists.
  - intros core_name cmd w name core payload w' Hr Hp. unfold ConnectorPlane_invoke_core.
    rewrite Hr, execute_connector_invocation_unwind, Hp. split; [done|].
    unfold execute_connector_invocation, bind, catch_unwind. by rewrite Hp.
Qed.

(** Adapters registered through the broker sit under their own names. *)
Definition broker_wf (b : HarnessBroker W) : Prop :=
  forall n a, (b : gmap string (HarnessAdapter W)) !! n = Some a -> ha_name a = n.

Lemma broker_wf_register a b : broker_wf b -> broker_wf (HarnessBroker_register a b).
Proof.
  intros Hb n x. unfold HarnessBroker_register. rewrite lookup_insert.
  case_decide; naive_solver.
Qed.

Lemma broker_wf_new : broker_wf HarnessBroker_new.
Proof.
  intros n a Hn. change ((∅ : gmap string (HarnessAdapter W)) !! n = Some a) in Hn.
  by rewrite lookup_empty in Hn.
Qed.

(** A task reaches an adapter only of its route's kind:
    the named adapter if the route names one, otherwise some registered adapter
    of that kind; without a name the kinds never mismatch, and the route fails
    exactly when no adapter of the kind is registered. *)
Theorem harness_routing (b : HarnessBroker W) (route : ExecutionRoute) (req : HarnessRequest) w :
  broker_wf b ->
  match HarnessBroker_select b route with
  | Ok a =>
      (b : gmap string (HarnessAdapter W)) !! ha_name a = Some a /\
      (forall n, er_adapter route = Some n -> ha_name a = n) /\
      (er_adapter route = None -> ha_kind a = er_harness_kind route) /\
      HarnessBroker_execute b route req w =
        (if decide (ha_kind a = er_harness_kind route) then ha_execute a req w
         else (Returned (Err (AdapterKindMismatch (ha_name a) (er_harness_kind route)
                                (ha_kind a))), w))
  | Err e =>
      HarnessBroker_execute b route req w = (Returned (Err e), w) /\
      match er_adapter route with
      | Some n => e = HarnessAdapterNotFound n /\
          (b : gmap string (HarnessAdapter W)) !! n = None
      | None => forall n a, (b : gmap string (HarnessAdapter W)) !! n = Some a ->
          ha_kind a <> er_harness_kind route
      end
  end.
Proof.
  intros Hb. unfold HarnessBroker_execute, HarnessBroker_select, ok_or.
  destruct (er_adapter route) as [n|].
  - destruct ((b : gmap _ _) !! n) as [a|] eqn:E; [|done].
    pose proof (Hb _ _ E) as Hn. rewrite Hn.
    split_and!; [done|naive_solver|done|by case_decide].
  - destruct (find_first _ _) as [a|] eqn:E.
    + apply find_first_Some in E as (l1 & l2 & Hl & Hk & _).
      apply bool_decide_eq_true in Hk.
      assert (a ∈ btree_map_values (b : gmap string (HarnessAdapter W))) as Hin
        by (rewrite Hl; set_solver).
      apply elem_of_btree_map_values in Hin as [n Hn]. pose proof (Hb _ _ Hn) as <-.
      split_and!; [done|done|done|by case_decide].
    + rewrite find_first_None, Forall_forall in E. split; [done|]. intros n a Hn.
      assert (a ∈ btree_map_values (b : gmap string (HarnessAdapter W))) as Hin
        by (apply elem_of_btree_map_values; eauto).
      apply E in Hin. by apply bool_decide_eq_false in Hin.
Qed.
End properties.
