(* ===== verification/AuditSinks.v ===== *)
(** * Audit sinks

    [crates/kernel/src/audit.rs], the sinks that keep events in memory: the
    [AuditSink] trait is the class [AuditSink]; [NoopAuditSink],
    [InMemoryAuditSink] (a bounded buffer behind a mutex) with its snapshots and
    filters, and [FanoutAuditSink].  What the kernel relies on is the class
    [AuditTrail]: recording appends.  The journal file is in [Journal]. *)

From S2P Require Import Prelude RustStr Contracts.

(** ** The trait, and what the kernel relies on *)

Class AuditSink (A : Type) : Type :=
  as_record : AuditEvent -> M A (result unit AuditError).

(** A sink that retains evidence: a successful [record] puts the event at the
    end and may evict only the oldest events; a [record] that fails or panics
    adds no event other than the one it was given. *)
Class AuditTrail (A : Type) `{!AuditSink A} : Type := {
  trail : A -> list AuditEvent;
  trail_record_ok : forall e a a',
    as_record e a = (Returned (Ok tt), a') ->
    exists kept, trail a' = kept ++ [e] /\ kept `suffix_of` trail a;
  trail_record_any : forall e a, trail (as_record e a).2 `sublist_of` trail a ++ [e];
}.

(** ** [NoopAuditSink] *)

Record NoopAuditSink : Type := {}.

#[export] Instance NoopAuditSink_sink : AuditSink NoopAuditSink := fun _ => ret (Ok tt).

(** ** Filters *)

(** [AuditEventKindExt::name]. *)
Definition AuditEventKind_name (k : AuditEventKind) : string :=
  match k with
  | TokenIssued _ => "TokenIssued"
  | TokenRevoked _ => "TokenRevoked"
  | TaskDispatched _ _ _ _ => "TaskDispatched"
  | ConnectorInvoked _ _ _ _ => "ConnectorInvoked"
  | PlaneInvoked _ _ _ _ _ _ _ => "PlaneInvoked"
  | SecurityScanEvaluated _ _ _ _ _ _ _ _ _ _ => "SecurityScanEvaluated"
  | PluginTrustEvaluated _ _ _ _ _ _ _ _ _ _ => "PluginTrustEvaluated"
  | ToolSearchEvaluated _ _ _ _ _ _ _ _ _ _ _ => "ToolSearchEvaluated"
  | ProviderFailover _ _ _ _ _ _ _ _ _ _ _ _ => "ProviderFailover"
  | AuthorizationDenied _ _ _ => "AuthorizationDenied"
  end.

Record AuditSnapshotFilter : Type := {
  sf_since_epoch_s : option Z;
  sf_until_epoch_s : option Z;
  sf_agent_id : option string;
  sf_kinds : option (list string);
}.

Definition AuditSnapshotFilter_matches (f : AuditSnapshotFilter) (event : AuditEvent) : bool :=
  if match sf_since_epoch_s f with
     | Some since => (ae_timestamp_epoch_s event <? since)%Z
     | None => false
     end then false
  else if match sf_until_epoch_s f with
     | Some until => (until <? ae_timestamp_epoch_s event)%Z
     | None => false
     end then false
  else if match sf_agent_id f with
     | Some agent_id => negb (bool_decide (ae_agent_id event = Some agent_id))
     | None => false
     end then false
  else match sf_kinds f with
     | Some kinds =>
         match kinds with
         | [] => true
         | _ => bool_decide (AuditEventKind_name (ae_kind event) ∈ kinds)
         end
     | None => true
     end.

(** ** [InMemoryAuditSink] *)

Record InMemoryAuditSink : Type := {
  im_events : Mutex (list AuditEvent);
  im_capacity : nat;
}.

Definition DEFAULT_IN_MEMORY_AUDIT_CAPACITY : N := 10000.

Definition InMemoryAuditSink_with_capacity (capacity : nat) : InMemoryAuditSink := {|
  im_events := Mutex_new [];
  im_capacity := capacity;
|}.

Definition InMemoryAuditSink_default : InMemoryAuditSink :=
  InMemoryAuditSink_with_capacity (N.to_nat DEFAULT_IN_MEMORY_AUDIT_CAPACITY).

Definition InMemoryAuditSink_snapshot (s : InMemoryAuditSink) : list AuditEvent :=
  match Mutex_lock (im_events s) tt with
  | Err _ => []
  | Ok events => events
  end.

Definition InMemoryAuditSink_snapshot_filtered (f : AuditSnapshotFilter) (s : InMemoryAuditSink)
  : list AuditEvent :=
  match Mutex_lock (im_events s) tt with
  | Err _ => []
  | Ok events => filter (fun e => AuditSnapshotFilter_matches f e = true) events
  end.

Definition InMemoryAuditSink_len (s : InMemoryAuditSink) : nat :=
  match Mutex_lock (im_events s) tt with
  | Err _ => 0
  | Ok events => length events
  end.

Definition InMemoryAuditSink_is_empty (s : InMemoryAuditSink) : bool :=
  InMemoryAuditSink_len s =? 0.

(** [Vec::remove(0)]: panics on an empty vector. *)
Definition vec_remove_first {A} (l : list A) : result (list A) PanicPayload :=
  match l with
  | [] => Err (PanicString "removal index (is 0) should be < len (is 0)")
  | _ :: l => Ok l
  end.

Definition im_set_events (m : Mutex (list AuditEvent)) (s : InMemoryAuditSink)
  : InMemoryAuditSink := {| im_events := m; im_capacity := im_capacity s |}.

(** A panic while the guard is held poisons the mutex. *)
Definition InMemoryAuditSink_record (event : AuditEvent)
  : M InMemoryAuditSink (result unit AuditError) :=
  let! s := get in
  match Mutex_lock (im_events s) (AuditSinkError "audit mutex poisoned") with
  | Err e => ret (Err e)
  | Ok events =>
      match (if im_capacity s <=? length events then vec_remove_first events else Ok events) with
      | Err payload =>
          run! modify (im_set_events (Build_Mutex events true)) in
          panic payload
      | Ok events =>
          run! modify (im_set_events (Mutex_store (events ++ [event]) (im_events s))) in
          ret (Ok tt)
      end
  end.

#[export] Instance InMemoryAuditSink_sink : AuditSink InMemoryAuditSink :=
  InMemoryAuditSink_record.

(** ** [FanoutAuditSink]

    Its children are shared objects ([Arc<dyn AuditSink>]): functions on the
    store [St] that holds their states. *)

Definition DynAuditSink (St : Type) : Type := AuditEvent -> M St (result unit AuditError).

Record FanoutAuditSink (St : Type) : Type := { fo_children : list (DynAuditSink St) }.
Arguments fo_children {St} _.
Arguments Build_FanoutAuditSink {St} _.

Definition FanoutAuditSink_new {St} (children : list (DynAuditSink St))
  : outcome (FanoutAuditSink St) :=
  match children with
  | [] => Panicked (PanicStr "fanout audit sink requires at least one child")
  | _ => Returned (Build_FanoutAuditSink children)
  end.

(** [slice::split_last]. *)
Fixpoint split_last {A} (l : list A) : option (A * list A) :=
  match l with
  | [] => None
  | x :: l =>
      match split_last l with
      | None => Some (x, [])
      | Some (last, rest) => Some (last, x :: rest)
      end
  end.

(** The loop over the leading children. *)
Fixpoint fanout_record_rest {St} (sinks : list (DynAuditSink St)) (event : AuditEvent)
  : M St (result unit AuditError) :=
  match sinks with
  | [] => ret (Ok tt)
  | sink :: rest => run? sink event in fanout_record_rest rest event
  end.

Definition FanoutAuditSink_record {St} (f : FanoutAuditSink St) (event : AuditEvent)
  : M St (result unit AuditError) :=
  match split_last (fo_children f) with
  | None => ret (Ok tt)
  | Some (last, rest) =>
      run? fanout_record_rest rest event in
      run? last event in
      ret (Ok tt)
  end.

(** ** The in-memory sink *)

Lemma in_memory_record_run e s :
  InMemoryAuditSink_record e s =
  let events := mx_value (im_events s) in
  if mx_poisoned (im_events s) then (Returned (Err (AuditSinkError "audit mutex poisoned")), s)
  else if decide (im_capacity s = 0 /\ events = [])
  then (Panicked (PanicString "removal index (is 0) should be < len (is 0)"),
        im_set_events (Build_Mutex [] true) s)
  else (Returned (Ok tt),
        im_set_events (Mutex_new
          ((if im_capacity s <=? length events then tail events else events) ++ [e])) s).
Proof.
  unfold InMemoryAuditSink_record, bind, get, modify, ret, panic, Mutex_lock, Mutex_store.
  destruct (im_events s) as [events p]; simpl. destruct p; simpl; [done|].
  destruct events as [|x events]; simpl.
  - destruct (im_capacity s) as [|n]; case_decide; simpl; naive_solver.
  - rewrite decide_False by naive_solver. by destruct (im_capacity s <=? _).
Qed.

#[export] Instance InMemoryAuditSink_trail : AuditTrail InMemoryAuditSink.
Proof.
  refine {| trail := fun s => mx_value (im_events s) |}.
  - intros e a a'. unfold as_record, InMemoryAuditSink_sink. rewrite in_memory_record_run. simpl.
    destruct (mx_poisoned _); [done|]. case_decide; [done|]. intros [= <-]. simpl.
    eexists; split; [done|]. destruct (_ <=? _); [|done].
    destruct (mx_value (im_events a)) as [|x l]; simpl; [done|]. by exists [x].
  - intros e a. unfold as_record, InMemoryAuditSink_sink. rewrite in_memory_record_run. simpl.
    destruct (mx_poisoned _); simpl; [by apply sublist_inserts_r|].
    case_decide; simpl; [apply sublist_nil_l|]. apply sublist_app; [|done].
    destruct (_ <=? _); [|done]. destruct (mx_value (im_events a)); simpl; [done|].
    by apply sublist_cons.
Defined.

(** Recording a list of events, one after the other. *)
Fixpoint record_all {A} `{AuditSink A} (es : list AuditEvent) : M A (result unit AuditError) :=
  match es with
  | [] => ret (Ok tt)
  | e :: es => run? as_record e in record_all es
  end.

(** The [n] most recent elements. *)
Definition last_n {A} (n : nat) (l : list A) : list A := drop (length l - n) l.

Lemma length_last_n {A} n (l : list A) : length (last_n n l) = min n (length l).
Proof. unfold last_n. rewrite length_drop. lia. Qed.

Lemma tail_drop_S {A} n (l : list A) : tail (drop n l) = drop (S n) l.
Proof. revert n. induction l as [|x l IH]; intros [|n]; simpl; auto. Qed.

Lemma last_n_snoc {A} n (l : list A) x :
  (if S n <=? length (last_n (S n) l) then tail (last_n (S n) l) else last_n (S n) l) ++ [x]
  = last_n (S n) (l ++ [x]).
Proof.
  unfold last_n. rewrite length_drop, length_app. change (length [x]) with 1.
  destruct (Nat.leb_spec (S n) (length l - (length l - S n))) as [H|H].
  - rewrite tail_drop_S, <- (drop_app_le l [x]) by lia. f_equal. lia.
  - rewrite <- (drop_app_le l [x]) by lia. f_equal. lia.
Qed.

Lemma record_all_app {A} `{AuditSink A} es1 es2 (a : A) :
  record_all (es1 ++ es2) a = try_bind (record_all es1) (fun _ => record_all es2) a.
Proof.
  revert a. induction es1 as [|e es1 IH]; intros a; simpl; [done|].
  unfold try_bind, bind in *. destruct (as_record e a) as [[[u|err]|p] a']; simpl; [|done..].
  apply IH.
Qed.

Lemma record_all_in_memory n es :
  record_all es (InMemoryAuditSink_with_capacity (S n)) =
  (Returned (Ok tt),
   {| im_events := Mutex_new (last_n (S n) es); im_capacity := S n |}).
Proof.
  induction es as [|e es IH] using rev_ind; [done|].
  rewrite record_all_app. unfold try_bind, bind. rewrite IH. simpl.
  unfold try_bind, bind, as_record, InMemoryAuditSink_sink.
  rewrite in_memory_record_run. simpl.
  unfold im_set_events. simpl. by rewrite <- last_n_snoc.
Qed.

(** An optional check that rejects. *)
Lemma optional_check {A} (o : option A) (bad : A -> bool) :
  match o with Some x => bad x | None => false end = false <->
  forall x, o = Some x -> bad x = false.
Proof. destruct o; naive_solver. Qed.

Lemma reject_else (b c : bool) : (if b then false else c) = true <-> b = false /\ c = true.
Proof. destruct b; naive_solver. Qed.

Lemma matches_iff f e :
  AuditSnapshotFilter_matches f e = true <->
  (forall since, sf_since_epoch_s f = Some since -> since <= ae_timestamp_epoch_s e)%Z /\
  (forall until, sf_until_epoch_s f = Some until -> ae_timestamp_epoch_s e <= until)%Z /\
  (forall a, sf_agent_id f = Some a -> ae_agent_id e = Some a) /\
  (forall ks, sf_kinds f = Some ks -> ks = [] \/ AuditEventKind_name (ae_kind e) ∈ ks).
Proof.
  unfold AuditSnapshotFilter_matches. rewrite !reject_else, !optional_check.
  setoid_rewrite Z.ltb_ge. setoid_rewrite negb_false_iff. setoid_rewrite bool_decide_eq_true.
  repeat apply and_iff_compat_l.
  destruct (sf_kinds f) as [[|k ks]|]; rewrite ?bool_decide_eq_true; naive_solver.
Qed.

(** A sink of positive capacity never fails and never
    panics; after any sequence of events it holds exactly the most recent
    [capacity] of them, oldest first, and a filtered snapshot is those of them
    that satisfy every field the filter sets. *)
Theorem in_memory_ring_buffer n es f :
  let (r, s) := record_all es (InMemoryAuditSink_with_capacity (S n)) in
  r = Returned (Ok tt) /\
  InMemoryAuditSink_snapshot s = last_n (S n) es /\
  InMemoryAuditSink_len s = min (S n) (length es) /\
  (forall e, e ∈ InMemoryAuditSink_snapshot_filtered f s <->
     e ∈ last_n (S n) es /\
     (forall since, sf_since_epoch_s f = Some since -> since <= ae_timestamp_epoch_s e)%Z /\
     (forall until, sf_until_epoch_s f = Some until -> ae_timestamp_epoch_s e <= until)%Z /\
     (forall a, sf_agent_id f = Some a -> ae_agent_id e = Some a) /\
     (forall ks, sf_kinds f = Some ks -> ks = [] \/ AuditEventKind_name (ae_kind e) ∈ ks)) /\
  InMemoryAuditSink_snapshot_filtered f s `sublist_of` last_n (S n) es.
Proof.
  rewrite record_all_in_memory. split_and!; [done|done| | |].
  - apply length_last_n.
  - intros e. unfold InMemoryAuditSink_snapshot_filtered. simpl.
    rewrite list_elem_of_filter, matches_iff. tauto.
  - apply sublist_filter.
Qed.

Lemma in_memory_record_poisoned e s :
  mx_poisoned (im_events s) = true ->
  InMemoryAuditSink_record e s = (Returned (Err (AuditSinkError "audit mutex poisoned")), s).
Proof. intros Hp. by rewrite in_memory_record_run, Hp. Qed.

Lemma record_all_poisoned es s :
  mx_poisoned (im_events s) = true -> (record_all es s).2 = s.
Proof.
  intros Hp. destruct es as [|e es]; [done|]. simpl.
  unfold try_bind, bind, as_record, InMemoryAuditSink_sink.
  by rewrite in_memory_record_poisoned.
Qed.

(** A sink built with capacity 0 panics on
    its first event and, its mutex poisoned by that panic, refuses every later
    one. *)
Theorem in_memory_capacity_zero e es e' :
  let s0 := InMemoryAuditSink_with_capacity 0 in
  let (r, s) := InMemoryAuditSink_record e s0 in
  (exists p, r = Panicked p) /\
  (InMemoryAuditSink_record e' (record_all es s).2).1
    = Returned (Err (AuditSinkError "audit mutex poisoned")) /\
  InMemoryAuditSink_snapshot (record_all es s).2 = [].
Proof.
  intros s0. rewrite in_memory_record_run. simpl.
  rewrite record_all_poisoned, in_memory_record_poisoned by done. eauto.
Qed.

(** ** Fanout over in-memory sinks *)

(** A store of in-memory sinks; a child is the sink at an index. *)
Definition child_at (i : nat) : DynAuditSink (list InMemoryAuditSink) := fun e st =>
  match st !! i with
  | None => (Returned (Ok tt), st)
  | Some s => let (r, s') := InMemoryAuditSink_record e s in (r, <[i := s']> st)
  end.

Lemma fanout_record_sequence {St} (f : FanoutAuditSink St) e st :
  FanoutAuditSink_record f e st = fanout_record_rest (fo_children f) e st.
Proof.
  unfold FanoutAuditSink_record. revert st. induction (fo_children f) as [|x l IH]; [done|].
  intros st. simpl. destruct (split_last l) as [[last rest]|] eqn:E; simpl.
  - unfold try_bind, bind in *. destruct (x e st) as [[[u|err]|p] st']; simpl; [|done..].
    apply IH.
  - assert (l = []) as ->
      by (destruct l; [done|]; simpl in E; by destruct (split_last l) as [[]|]).
    simpl. unfold try_bind, bind, ret. by destruct (x e st) as [[[[]|err]|p] st'].
Qed.

(** A child that can take an event, and the child after it. *)
Definition sink_ready (s : InMemoryAuditSink) : Prop := mx_poisoned (im_events s) = false.

#[export] Instance sink_ready_dec s : Decision (sink_ready s).
Proof. unfold sink_ready. apply _. Defined.

Lemma child_at_run i e st s :
  st !! i = Some s -> 0 < im_capacity s ->
  child_at i e st =
  if decide (sink_ready s)
  then (Returned (Ok tt), <[i := (InMemoryAuditSink_record e s).2]> st)
  else (Returned (Err (AuditSinkError "audit mutex poisoned")), st).
Proof.
  intros Hi Hc. unfold child_at. rewrite Hi. destruct (decide (sink_ready s)) as [Hr|Hr].
  - rewrite in_memory_record_run. simpl. rewrite Hr, decide_False by lia. done.
  - rewrite in_memory_record_poisoned by (by apply not_false_is_true).
    by rewrite list_insert_id.
Qed.

(** The children receive the event in order until one refuses
    it: the sinks before the refusing one hold the event, the refusing one and
    those after it are as before, and the answer is that child's error; when
    none refuses, every child holds the event and the answer is [Ok]. *)
Theorem fanout_prefix (ixs : list nat) st e :
  NoDup ixs -> (forall i, i ∈ ixs -> exists s, st !! i = Some s /\ 0 < im_capacity s) ->
  exists k, k <= length ixs /\
  (forall i, i ∈ take k ixs -> exists s, st !! i = Some s /\ sink_ready s) /\
  let (r, st') := FanoutAuditSink_record (Build_FanoutAuditSink (child_at <$> ixs)) e st in
  r = Returned (if decide (k = length ixs) then Ok tt
                else Err (AuditSinkError "audit mutex poisoned")) /\
  (forall j, ixs !! k = Some j -> exists s, st !! j = Some s /\ ~ sink_ready s) /\
  forall i, st' !! i =
    if decide (i ∈ take k ixs) then (fun s => (InMemoryAuditSink_record e s).2) <$> st !! i
    else st !! i.
Proof.
  rewrite fanout_record_sequence. simpl. revert st.
  induction ixs as [|i ixs IH]; intros st Hnd Hst.
  { exists 0. simpl. set_solver. }
  apply NoDup_cons in Hnd as [Hi Hnd].
  destruct (Hst i) as (s & Hs & Hc); [set_solver|]. simpl. unfold try_bind, bind.
  rewrite (child_at_run _ _ _ _ Hs Hc). destruct (decide (sink_ready s)) as [Hr|Hr].
  2:{ exists 0. simpl. split_and!; [lia|set_solver|done|naive_solver|done]. }
  set (st1 := <[i := (InMemoryAuditSink_record e s).2]> st).
  assert (forall j, j <> i -> st1 !! j = st !! j) as Hst1
    by (intros j Hj; by apply list_lookup_insert_ne).
  destruct (IH st1 Hnd) as (k & Hk & Hready & Hrec).
  { intros j Hj. rewrite Hst1 by set_solver. apply Hst. set_solver. }
  exists (S k). simpl. split; [lia|].
  assert (forall j, j ∈ take k ixs -> j <> i) as Htake.
  { intros j Hj ->. apply Hi. by eapply subseteq_take. }
  split.
  { intros j [->|Hj]%elem_of_cons; [eauto|]. rewrite <- Hst1 by auto. auto. }
  destruct (fanout_record_rest _ _ _) as [r st'] eqn:E. destruct Hrec as (-> & Hstop & Hst').
  split; [do 2 f_equal; apply decide_ext; lia|]. split.
  - intros j Hj. rewrite <- Hst1; [by apply Hstop|]. intros ->. apply Hi.
    by eapply list_elem_of_lookup_2.
  - intros j. rewrite Hst'. destruct (decide (j = i)) as [->|Hji].
    + rewrite decide_False by (intros Hj; by apply (Htake i)).
      rewrite decide_True by set_solver. rewrite Hs. unfold st1.
      apply list_lookup_insert_eq. by eapply lookup_lt_Some.
    + rewrite Hst1 by done. apply decide_ext. set_solver.
Qed.

(** Two children, the second poisoned: the first keeps the event although the
    call fails. *)
Lemma fanout_prefix_witness :
  let healthy := InMemoryAuditSink_with_capacity 4 in
  let broken := im_set_events (Build_Mutex [] true) healthy in
  let e := {| ae_event_id := "evt"; ae_timestamp_epoch_s := 1; ae_agent_id := None;
              ae_kind := TokenRevoked "t" |} in
  exists k, k <= 2 /\
  (forall i, i ∈ take k [0; 1] -> exists s, [healthy; broken] !! i = Some s /\ sink_ready s) /\
  let (r, st') := FanoutAuditSink_record (Build_FanoutAuditSink (child_at <$> [0; 1])) e
                    [healthy; broken] in
  r = Returned (if decide (k = 2) then Ok tt else Err (AuditSinkError "audit mutex poisoned")) /\
  (forall j, [0; 1] !! k = Some j -> exists s, [healthy; broken] !! j = Some s /\ ~ sink_ready s) /\
  forall i, st' !! i =
    if decide (i ∈ take k [0; 1])
    then (fun s => (InMemoryAuditSink_record e s).2) <$> [healthy; broken] !! i
    else [healthy; broken] !! i.
Proof.
  apply (fanout_prefix [0; 1]); [by apply (bool_decide_unpack _)|].
  intros i Hi. repeat (apply elem_of_cons in Hi as [->|Hi]); [..|by apply elem_of_nil in Hi];
    eexists; (split; [reflexivity|vm_compute; lia]).
Defined.
