(* ===== verification/Journal.v ===== *)
(** * The audit journal

    [crates/kernel/src/audit.rs], the journal file: one JSON object per line,
    each sealed with the SHA-256 of its event and of the previous seal.
    [JsonlAuditSink] appends, [verify_jsonl_audit_journal] checks the chain,
    [repair_jsonl_audit_journal] seals the entries written before seals existed.
    [serde_json], [sha2] and [hex] are third-party code: the class [AuditCodec],
    with what the journal relies on as [AuditCodecLaws].  A file is its bytes;
    the outcome of each call of the operating system is a parameter. *)

From S2P Require Import Prelude RustStr Contracts AuditSinks.

(** ** Entries *)

Record PersistedAuditIntegrity : Type := {
  pai_algorithm : string;
  pai_prev_hash : option string;
  pai_entry_hash : string;
}.

Record PersistedAuditEvent : Type := {
  pae_event : AuditEvent;
  pae_integrity : option PersistedAuditIntegrity;
}.

(** [serde_json::to_vec] of the chain material and of an entry,
    [serde_json::from_str] of an entry, and the hexadecimal digest. *)
Class AuditCodec : Type := {
  chain_material : AuditEvent -> option string -> result string string;
  sha256_hex : string -> string;
  encode_persisted : PersistedAuditEvent -> result string string;
  decode_persisted : string -> result PersistedAuditEvent string;
}.

(** What [serde_json] documents for these types (their maps have string keys):
    serialization succeeds, compact output is one non-blank line of UTF-8, and
    reading it back gives the value.  A digest in hexadecimal is not blank. *)
Class AuditCodecLaws `{AuditCodec} : Prop := {
  material_total : forall e p, exists m, chain_material e p = Ok m;
  encode_total : forall p, exists s, encode_persisted p = Ok s;
  encode_round_trip : forall p s, encode_persisted p = Ok s -> decode_persisted s = Ok p;
  encode_visible : forall p s, encode_persisted p = Ok s ->
    str_contains_char newline_char s = false /\ strip_suffix carriage_return s = None /\
    utf8_valid s = true /\ trim s <> "";
  digest_visible : forall m, trim (sha256_hex m) <> "";
}.

Section journal.
Context `{AuditCodec}.

(** A journal path as text, for the messages. *)
Variable path : string.

Definition quoted (s : string) : string := "`" +:+ s +:+ "`".

Definition serialize_audit_event_chain_material (event : AuditEvent) (prev_hash : option string)
  : result string AuditError :=
  map_err (fun error => AuditSinkError ("failed to serialize audit chain material for "
             +:+ quoted path +:+ ": " +:+ error))
    (chain_material event prev_hash).

Definition compute_audit_event_entry_hash (event : AuditEvent) (prev_hash : option string)
  : result string AuditError :=
  let* material := serialize_audit_event_chain_material event prev_hash in
  Ok (sha256_hex material).

Definition event_with_integrity (event : AuditEvent) (prev_hash : option string)
    (entry_hash : string) : PersistedAuditEvent := {|
  pae_event := event;
  pae_integrity := Some {| pai_algorithm := "sha256"; pai_prev_hash := prev_hash;
                           pai_entry_hash := entry_hash |};
|}.

Definition serialize_audit_event_line (event : PersistedAuditEvent) : result string AuditError :=
  let* encoded := map_err (fun error => AuditSinkError ("failed to serialize audit event for "
                     +:+ quoted path +:+ ": " +:+ error)) (encode_persisted event) in
  Ok (encoded +:+ line_feed).

Definition decode_persisted_audit_event_line (line line_number : string)
  : result PersistedAuditEvent AuditError :=
  map_err (fun error => AuditSinkError ("failed to decode audit journal " +:+ quoted path
             +:+ " at " +:+ line_number +:+ ": " +:+ error))
    (decode_persisted line).

(** ** Reading a journal *)

(** What a path holds: nothing, a file that cannot be opened, or bytes. *)
Inductive JournalRead : Type :=
| JournalMissing
| JournalOpenError (error : string)
| JournalContents (bytes : string).

Definition is_blank (line : string) : bool := str_is_empty (trim line).

(** The scan of [load_last_audit_entry_hash] for the last non-empty line. *)
Fixpoint last_non_empty_line (lines : list (result string string)) (last : option string)
  : result (option string) AuditError :=
  match lines with
  | [] => Ok last
  | Err error :: _ =>
      Err (AuditSinkError ("failed to read audit journal " +:+ quoted path
             +:+ " while loading tail hash: " +:+ error))
  | Ok line :: lines => last_non_empty_line lines (if is_blank line then last else Some line)
  end.

Definition load_last_audit_entry_hash (rd : JournalRead) : result (option string) AuditError :=
  match rd with
  | JournalMissing => Ok None
  | JournalOpenError error =>
      Err (AuditSinkError ("failed to inspect audit journal " +:+ quoted path +:+ ": " +:+ error))
  | JournalContents bytes =>
      let* last := last_non_empty_line (buf_lines bytes) None in
      match last with
      | None => Ok None
      | Some line =>
          let* persisted := decode_persisted_audit_event_line line "tail line" in
          Ok match pae_integrity persisted with
             | Some value =>
                 if str_is_empty (trim (pai_entry_hash value)) then None
                 else Some (pai_entry_hash value)
             | None => None
             end
      end
  end.

(** ** Verification *)

Record AuditVerificationReport : Type := {
  avr_total_events : nat;
  avr_verified_events : nat;
  avr_valid : bool;
  avr_last_entry_hash : option string;
  avr_first_invalid_line : option nat;
  avr_reason : option string;
}.

(** The loop's variables. *)
Record VerifyState : Type := {
  vs_total_events : nat;
  vs_verified_events : nat;
  vs_previous_hash : option string;
  vs_protected_chain_started : bool;
}.

Definition verify_start : VerifyState := {|
  vs_total_events := 0; vs_verified_events := 0; vs_previous_hash := None;
  vs_protected_chain_started := false |}.

Definition invalid_report (s : VerifyState) (line_number : nat) (reason : string)
  : AuditVerificationReport := {|
  avr_total_events := vs_total_events s;
  avr_verified_events := vs_verified_events s;
  avr_valid := false;
  avr_last_entry_hash := vs_previous_hash s;
  avr_first_invalid_line := Some line_number;
  avr_reason := Some reason;
|}.

(** One line: the next values of the variables, or the report of a failure. *)
Definition verify_line (line_number : nat) (line : string) (s : VerifyState)
  : result (VerifyState + AuditVerificationReport) AuditError :=
  if is_blank line then Ok (inl s) else
  let s := {| vs_total_events := S (vs_total_events s);
              vs_verified_events := vs_verified_events s;
              vs_previous_hash := vs_previous_hash s;
              vs_protected_chain_started := vs_protected_chain_started s |} in
  let* persisted := decode_persisted_audit_event_line line
                      ("line " +:+ fmt_dec (Z.of_nat line_number)) in
  match pae_integrity persisted with
  | None =>
      if vs_protected_chain_started s
      then Ok (inr (invalid_report s line_number "missing integrity envelope"))
      else Ok (inl s)
  | Some integrity =>
      if decide (trim (pai_algorithm integrity) <> "sha256")
      then Ok (inr (invalid_report s line_number
             ("unsupported integrity algorithm " +:+ quoted (pai_algorithm integrity)))) else
      if decide (pai_prev_hash integrity <> vs_previous_hash s)
      then Ok (inr (invalid_report s line_number "prev_hash mismatch")) else
      let* expected := compute_audit_event_entry_hash (pae_event persisted)
                         (pai_prev_hash integrity) in
      if decide (pai_entry_hash integrity <> expected)
      then Ok (inr (invalid_report s line_number "entry_hash mismatch")) else
      Ok (inl {| vs_total_events := vs_total_events s;
                 vs_verified_events := S (vs_verified_events s);
                 vs_previous_hash := Some (pai_entry_hash integrity);
                 vs_protected_chain_started := true |})
  end.

Definition read_error (line_number : nat) (error : string) : AuditError :=
  AuditSinkError ("failed to read audit journal " +:+ quoted path +:+ " at line "
    +:+ fmt_dec (Z.of_nat line_number) +:+ ": " +:+ error).

Fixpoint verify_lines (line_number : nat) (lines : list (result string string)) (s : VerifyState)
  : result (VerifyState + AuditVerificationReport) AuditError :=
  match lines with
  | [] => Ok (inl s)
  | Err error :: _ => Err (read_error line_number error)
  | Ok line :: lines =>
      let* r := verify_line line_number line s in
      match r with
      | inl s => verify_lines (S line_number) lines s
      | inr report => Ok (inr report)
      end
  end.

Definition valid_report (s : VerifyState) : AuditVerificationReport := {|
  avr_total_events := vs_total_events s;
  avr_verified_events := vs_verified_events s;
  avr_valid := true;
  avr_last_entry_hash := vs_previous_hash s;
  avr_first_invalid_line := None;
  avr_reason := None;
|}.

Definition verify_jsonl_audit_journal (rd : JournalRead)
  : result AuditVerificationReport AuditError :=
  match rd with
  | JournalMissing => Ok (valid_report verify_start)
  | JournalOpenError error =>
      Err (AuditSinkError ("failed to open audit journal " +:+ quoted path
             +:+ " for verification: " +:+ error))
  | JournalContents bytes =>
      let* r := verify_lines 1 (buf_lines bytes) verify_start in
      match r with
      | inl s => Ok (valid_report s)
      | inr report => Ok report
      end
  end.

(** ** Repair *)

Inductive AuditRepairOutcome : Type :=
| RepairHealthy
| RepairRepaired
| RepairRefused (line : nat) (reason : string).

Record AuditRepairReport : Type := {
  arr_total_events : nat;
  arr_repaired_events : nat;
  arr_already_valid_events : nat;
  arr_outcome : AuditRepairOutcome;
}.

Record RepairState : Type := {
  rs_repaired_lines : list string;
  rs_rebuilt_previous_hash : option string;
  rs_source_previous_hash : option string;
  rs_protected_chain_started : bool;
  rs_total_events : nat;
  rs_repaired_events : nat;
  rs_already_valid_events : nat;
}.

Definition repair_start : RepairState := {|
  rs_repaired_lines := []; rs_rebuilt_previous_hash := None; rs_source_previous_hash := None;
  rs_protected_chain_started := false; rs_total_events := 0; rs_repaired_events := 0;
  rs_already_valid_events := 0 |}.

Definition refused_report (s : RepairState) (line : nat) (reason : string) : AuditRepairReport := {|
  arr_total_events := rs_total_events s;
  arr_repaired_events := rs_repaired_events s;
  arr_already_valid_events := rs_already_valid_events s;
  arr_outcome := RepairRefused line reason;
|}.

(** Seal an event onto the rebuilt chain: the two places where the code does. *)
Definition reseal (event : AuditEvent) (s : RepairState) : result RepairState AuditError :=
  let* entry_hash := compute_audit_event_entry_hash event (rs_rebuilt_previous_hash s) in
  let* encoded := serialize_audit_event_line
    (event_with_integrity event (rs_rebuilt_previous_hash s) entry_hash) in
  Ok {| rs_repaired_lines := rs_repaired_lines s ++ [encoded];
        rs_rebuilt_previous_hash := Some entry_hash;
        rs_source_previous_hash := rs_source_previous_hash s;
        rs_protected_chain_started := rs_protected_chain_started s;
        rs_total_events := rs_total_events s;
        rs_repaired_events := S (rs_repaired_events s);
        rs_already_valid_events := rs_already_valid_events s |}.

Definition rs_set_total_events (n : nat) (s : RepairState) : RepairState := {|
  rs_repaired_lines := rs_repaired_lines s;
  rs_rebuilt_previous_hash := rs_rebuilt_previous_hash s;
  rs_source_previous_hash := rs_source_previous_hash s;
  rs_protected_chain_started := rs_protected_chain_started s;
  rs_total_events := n;
  rs_repaired_events := rs_repaired_events s;
  rs_already_valid_events := rs_already_valid_events s;
|}.

(** A valid sealed entry: the source chain moves on. *)
Definition rs_protected (entry_hash : string) (s : RepairState) : RepairState := {|
  rs_repaired_lines := rs_repaired_lines s;
  rs_rebuilt_previous_hash := rs_rebuilt_previous_hash s;
  rs_source_previous_hash := Some entry_hash;
  rs_protected_chain_started := true;
  rs_total_events := rs_total_events s;
  rs_repaired_events := rs_repaired_events s;
  rs_already_valid_events := rs_already_valid_events s;
|}.

(** The entry is kept as it is. *)
Definition rs_keep (line entry_hash : string) (s : RepairState) : RepairState := {|
  rs_repaired_lines := rs_repaired_lines s ++ [line +:+ line_feed];
  rs_rebuilt_previous_hash := Some entry_hash;
  rs_source_previous_hash := rs_source_previous_hash s;
  rs_protected_chain_started := rs_protected_chain_started s;
  rs_total_events := rs_total_events s;
  rs_repaired_events := rs_repaired_events s;
  rs_already_valid_events := S (rs_already_valid_events s);
|}.

Definition rs_push_blank (s : RepairState) : RepairState := {|
  rs_repaired_lines := rs_repaired_lines s ++ [line_feed];
  rs_rebuilt_previous_hash := rs_rebuilt_previous_hash s;
  rs_source_previous_hash := rs_source_previous_hash s;
  rs_protected_chain_started := rs_protected_chain_started s;
  rs_total_events := rs_total_events s;
  rs_repaired_events := rs_repaired_events s;
  rs_already_valid_events := rs_already_valid_events s;
|}.

Definition repair_line (line_number : nat) (line : string) (s : RepairState)
  : result (RepairState + AuditRepairReport) AuditError :=
  if is_blank line then Ok (inl (rs_push_blank s)) else
  let s := rs_set_total_events (S (rs_total_events s)) s in
  let* persisted := decode_persisted_audit_event_line line
                      ("line " +:+ fmt_dec (Z.of_nat line_number)) in
  let event := pae_event persisted in
  match pae_integrity persisted with
  | Some integrity =>
      if decide (trim (pai_algorithm integrity) <> "sha256")
      then Ok (inr (refused_report s line_number
             ("unsupported integrity algorithm " +:+ quoted (pai_algorithm integrity)))) else
      if decide (pai_prev_hash integrity <> rs_source_previous_hash s)
      then Ok (inr (refused_report s line_number "prev_hash mismatch in source chain")) else
      let* self_consistent_hash := compute_audit_event_entry_hash event (pai_prev_hash integrity) in
      if decide (pai_entry_hash integrity <> self_consistent_hash)
      then Ok (inr (refused_report s line_number
             "entry_hash mismatch — event data may be tampered")) else
      let s := rs_protected (pai_entry_hash integrity) s in
      if decide (rs_repaired_events s = 0 /\ pai_prev_hash integrity = rs_rebuilt_previous_hash s)
      then Ok (inl (rs_keep line (pai_entry_hash integrity) s))
      else let* s := reseal event s in Ok (inl s)
  | None =>
      if rs_protected_chain_started s
      then Ok (inr (refused_report s line_number
             "missing integrity envelope after protected chain started"))
      else let* s := reseal event s in Ok (inl s)
  end.

Fixpoint repair_lines (line_number : nat) (lines : list (result string string)) (s : RepairState)
  : result (RepairState + AuditRepairReport) AuditError :=
  match lines with
  | [] => Ok (inl s)
  | Err error :: _ => Err (read_error line_number error)
  | Ok line :: lines =>
      let* r := repair_line line_number line s in
      match r with
      | inl s => repair_lines (S line_number) lines s
      | inr report => Ok (inr report)
      end
  end.

(** The operating system's answers to one repair. *)
Record RepairIo : Type := {
  rio_metadata : result unit string;
  rio_create : result unit string;
  rio_set_permissions : result unit string;
  rio_write_all : result unit string;
  rio_flush : result unit string;
  rio_sync_all : result unit string;
  rio_rename : result unit string;
}.

(** The text before the last dot of the last path component, when that dot does
    not start the component. *)
Definition file_stem (name : string) : string :=
  match rev (split_char "."%char name) with
  | _ :: ((_ :: _) as parts) =>
      match rev parts with
      | [""] => name
      | stem => join "." stem
      end
  | _ => name
  end.

(** [Path::with_extension], on a path whose last component is a file name. *)
Definition with_extension (p extension : string) : string :=
  match rev (split_char "/"%char p) with
  | name :: dirs => join "/" (rev dirs ++ [file_stem name +:+ "." +:+ extension])
  | [] => p
  end.

(** The closure that writes and renames the temporary file: the journal's new
    bytes when every call succeeded. *)
Definition repair_write (io : RepairIo) : result unit AuditError :=
  let temp_path := quoted (with_extension path "jsonl.repair-tmp") in
  let step (r : result unit string) (what : string) : result unit AuditError :=
    map_err (fun error => AuditSinkError (what +:+ ": " +:+ error)) r in
  let* _ := step (rio_create io) ("failed to create repair temp file " +:+ temp_path) in
  let* _ := step (rio_set_permissions io)
              ("failed to apply original permissions to repair temp file " +:+ temp_path) in
  let* _ := step (rio_write_all io) ("failed to write repair temp file " +:+ temp_path) in
  let* _ := step (rio_flush io) ("failed to flush repair temp file " +:+ temp_path) in
  let* _ := step (rio_sync_all io) ("failed to sync repair temp file " +:+ temp_path) in
  step (rio_rename io) ("failed to replace journal with repaired file " +:+ quoted path).

(** The report and what the path holds afterwards: the rename is atomic. *)
Definition repair_jsonl_audit_journal (rd : JournalRead) (io : RepairIo)
  : result AuditRepairReport AuditError * JournalRead :=
  match rd with
  | JournalMissing =>
      (Ok {| arr_total_events := 0; arr_repaired_events := 0; arr_already_valid_events := 0;
             arr_outcome := RepairHealthy |}, rd)
  | JournalOpenError error =>
      (Err (AuditSinkError ("failed to open audit journal " +:+ quoted path
              +:+ " for repair: " +:+ error)), rd)
  | JournalContents bytes =>
      match rio_metadata io with
      | Err error =>
          (Err (AuditSinkError ("failed to read audit journal metadata " +:+ quoted path
                  +:+ " before repair: " +:+ error)), rd)
      | Ok _ =>
          match repair_lines 1 (buf_lines bytes) repair_start with
          | Err e => (Err e, rd)
          | Ok (inr report) => (Ok report, rd)
          | Ok (inl s) =>
              let report outcome := {|
                arr_total_events := rs_total_events s;
                arr_repaired_events := rs_repaired_events s;
                arr_already_valid_events := rs_already_valid_events s;
                arr_outcome := outcome |} in
              if decide (rs_repaired_events s = 0) then (Ok (report RepairHealthy), rd) else
              match repair_write io with
              | Err e => (Err e, rd)
              | Ok _ => (Ok (report RepairRepaired),
                         JournalContents (str_concat (rs_repaired_lines s)))
              end
          end
      end
  end.

(** ** The sink *)

(** The operating system's answers to one [record]: a failed [write_all] has
    written some prefix of the bytes. *)
Record JournalIo : Type := {
  jio_lock : result unit string;
  jio_write_all : result unit (nat * string);
  jio_flush : result unit string;
  jio_unlock : result unit string;
}.

Definition all_ok : JournalIo := {|
  jio_lock := Ok tt; jio_write_all := Ok tt; jio_flush := Ok tt; jio_unlock := Ok tt |}.

(** The open file, by its bytes, and the cached hash. *)
Record JsonlAuditJournalState : Type := {
  jj_file : string;
  jj_last_entry_hash : option string;
}.

(** [jl_io n] answers the [n]-th call of [record]. *)
Record JsonlAuditSink : Type := {
  jl_path : string;
  jl_journal : Mutex JsonlAuditJournalState;
  jl_io : nat -> JournalIo;
  jl_calls : nat;
}.
End journal.

Section sink.
Context `{AuditCodec}.

(** [Path::parent]: [None] for a path without a slash is the empty path, which
    the code skips. *)
Definition path_parent (p : string) : option string :=
  match rev (split_char "/"%char p) with
  | _ :: ((_ :: _) as parts) => Some (join "/" (rev parts))
  | _ => None
  end.

Definition prepare_audit_journal_parent (path : string) (create_dir_all : result unit string)
  : result unit AuditError :=
  match path_parent path with
  | Some parent =>
      if str_is_empty parent then Ok tt else
      map_err (fun error => AuditSinkError ("failed to prepare audit journal parent directory "
                 +:+ quoted parent +:+ ": " +:+ error)) create_dir_all
  | None => Ok tt
  end.

(** Opening creates an empty file when there is none. *)
Definition open_jsonl_audit_journal (path : string) (create_dir_all open : result unit string)
    (rd : JournalRead) : result string AuditError :=
  let* _ := prepare_audit_journal_parent path create_dir_all in
  let* _ := map_err (fun error => AuditSinkError ("failed to open audit journal "
                       +:+ quoted path +:+ ": " +:+ error)) open in
  Ok match rd with JournalContents bytes => bytes | _ => "" end.

Definition lock_audit_journal (path : string) (lock : result unit string) : result unit AuditError :=
  map_err (fun error => AuditSinkError ("failed to lock audit journal " +:+ quoted path
             +:+ ": " +:+ error)) lock.

Definition unlock_audit_journal (path : string) (unlock : result unit string)
  : result unit AuditError :=
  map_err (fun error => AuditSinkError ("failed to unlock audit journal " +:+ quoted path
             +:+ ": " +:+ error)) unlock.

Definition probe_jsonl_audit_journal_runtime_ready (path : string)
    (create_dir_all open lock unlock : result unit string) (rd : JournalRead)
  : result unit AuditError :=
  let* _ := open_jsonl_audit_journal path create_dir_all open rd in
  let* _ := lock_audit_journal path lock in
  unlock_audit_journal path unlock.

Definition JsonlAuditSink_new (path : string) (create_dir_all open : result unit string)
    (rd : JournalRead) (io : nat -> JournalIo) : result JsonlAuditSink AuditError :=
  let* file := open_jsonl_audit_journal path create_dir_all open rd in
  let* last := load_last_audit_entry_hash path
                 (match rd with JournalMissing => JournalContents file | _ => rd end) in
  Ok {| jl_path := path;
        jl_journal := Mutex_new {| jj_file := file; jj_last_entry_hash := last |};
        jl_io := io; jl_calls := 0 |}.

Definition jl_set_journal (j : JsonlAuditJournalState) (s : JsonlAuditSink) : JsonlAuditSink := {|
  jl_path := jl_path s; jl_journal := Mutex_store j (jl_journal s);
  jl_io := jl_io s; jl_calls := jl_calls s |}.

Definition jl_next_call (s : JsonlAuditSink) : JsonlAuditSink := {|
  jl_path := jl_path s; jl_journal := jl_journal s; jl_io := jl_io s;
  jl_calls := S (jl_calls s) |}.

(** [write_all] on a file opened for appending. *)
Definition append_bytes (file encoded : string) (write_all : result unit (nat * string)) : string :=
  match write_all with
  | Ok _ => file +:+ encoded
  | Err (n, _) => file +:+ String.substring 0 n encoded
  end.

Definition write_and_flush (path : string) (io : JournalIo) : result unit AuditError :=
  let* _ := map_err (fun '(_, error) => AuditSinkError ("failed to append audit event to "
                       +:+ quoted path +:+ ": " +:+ error)) (jio_write_all io) in
  map_err (fun error => AuditSinkError ("failed to flush audit journal " +:+ quoted path
             +:+ ": " +:+ error)) (jio_flush io).

Definition JsonlAuditSink_record (event : AuditEvent)
  : M JsonlAuditSink (result unit AuditError) :=
  let! s := get in
  run! modify jl_next_call in
  let io := jl_io s (jl_calls s) in
  let path := jl_path s in
  let? guard := ret (Mutex_lock (jl_journal s) (AuditSinkError "audit journal mutex poisoned")) in
  let previous_hash := jj_last_entry_hash guard in
  let? entry_hash := ret (compute_audit_event_entry_hash path event previous_hash) in
  let? encoded := ret (serialize_audit_event_line path
                         (event_with_integrity event previous_hash entry_hash)) in
  run? ret (lock_audit_journal path (jio_lock io)) in
  let file := append_bytes (jj_file guard) encoded (jio_write_all io) in
  run! modify (jl_set_journal {| jj_file := file; jj_last_entry_hash := previous_hash |}) in
  match write_and_flush path io, unlock_audit_journal path (jio_unlock io) with
  | Err error, _ => ret (Err error)
  | Ok _, Err error => ret (Err error)
  | Ok _, Ok _ =>
      run! modify (jl_set_journal {| jj_file := file; jj_last_entry_hash := Some entry_hash |}) in
      ret (Ok tt)
  end.

#[export] Instance JsonlAuditSink_sink : AuditSink JsonlAuditSink := JsonlAuditSink_record.
End sink.

Example with_extension_example :
  with_extension "logs/audit.jsonl" "jsonl.repair-tmp" = "logs/audit.jsonl.repair-tmp".
Proof. reflexivity. Qed.
Example path_parent_example : path_parent "logs/audit.jsonl" = Some "logs".
Proof. reflexivity. Qed.
