(* ===== verification/JournalChain.v ===== *)
(** * The journal's hash chain

    What the journal guarantees: appending through [JsonlAuditSink] keeps a
    verified journal verified; the last seal commits to every sealed event;
    repair agrees with verification about what is wrong and leaves a fully
    sealed journal of the same events. *)

From S2P Require Import Prelude RustStr Contracts AuditSinks Journal.

(** ** Lines *)

(** Bytes that end at the end of a line. *)
Definition terminated (s : string) : Prop := s = "" \/ exists r, s = r +:+ line_feed.

Lemma split_lines_terminated r t :
  split_lines ((r +:+ line_feed) +:+ t) = split_lines (r +:+ line_feed) ++ split_lines t /\
  split_lines (r +:+ line_feed) <> [].
Proof.
  induction r as [|c r [IH Hne]]; [done|].
  rewrite !str_app_cons. cbn [split_lines]. destruct (byte_of c =? 10)%N; [by rewrite IH|].
  rewrite IH. by destruct (split_lines (r +:+ line_feed)) as [|[l b] ls].
Qed.

Lemma buf_lines_app s t : terminated s -> buf_lines (s +:+ t) = buf_lines s ++ buf_lines t.
Proof.
  unfold buf_lines. intros [->|[r ->]]; [done|].
  by rewrite (proj1 (split_lines_terminated r t)), map_app.
Qed.

Lemma terminated_app s t : terminated t -> t <> "" -> terminated (s +:+ t).
Proof. intros [->|[r ->]] Ht; [done|]. right. exists (s +:+ r). by rewrite str_app_assoc. Qed.

Lemma split_lines_line s :
  str_contains_char newline_char s = false -> split_lines (s +:+ line_feed) = [(s, true)].
Proof.
  unfold str_contains_char. rewrite negb_false_iff. induction s as [|c s IH]; [done|].
  cbn [str_forallb]. intros [Hc Hs]%andb_prop. rewrite str_app_cons. cbn [split_lines].
  rewrite IH by done. destruct (N.eqb_spec (byte_of c) 10) as [E|]; [|done].
  exfalso. rewrite negb_true_iff in Hc. assert (c = newline_char) as ->; [|by rewrite char_eqb_refl in Hc].
  unfold byte_of in E. rewrite <- (Ascii.ascii_N_embedding c), E. done.
Qed.

Section chain.
Context `{AuditCodecLaws}.
Variable path : string.

Local Abbreviation hash := (compute_audit_event_entry_hash path).

Lemma hash_total e p : exists h, hash e p = Ok h /\ trim h <> "".
Proof.
  unfold compute_audit_event_entry_hash, serialize_audit_event_chain_material.
  destruct (material_total e p) as [m ->]. simpl. eauto using digest_visible.
Qed.

Lemma hash_visible e p h : hash e p = Ok h -> trim h <> "".
Proof. destruct (hash_total e p) as (h' & -> & Hh). by intros [= <-]. Qed.

Lemma serialize_total p : exists s, encode_persisted p = Ok s /\
  serialize_audit_event_line path p = Ok (s +:+ line_feed).
Proof.
  unfold serialize_audit_event_line. destruct (encode_total p) as [s Hs]. exists s.
  split; [done|]. by rewrite Hs.
Qed.

Lemma buf_lines_encoded p s : encode_persisted p = Ok s -> buf_lines (s +:+ line_feed) = [Ok s].
Proof.
  intros (Hnl & Hcr & Hu & _)%encode_visible. unfold buf_lines.
  rewrite split_lines_line by done. simpl. unfold buf_line. simpl. rewrite Hcr. simpl. by rewrite Hu.
Qed.

Lemma encoded_not_blank p s : encode_persisted p = Ok s -> is_blank s = false.
Proof. intros (_ & _ & _ & Ht)%encode_visible. unfold is_blank. by destruct (trim s). Qed.

Lemma verify_lines_app n l1 l2 s :
  verify_lines path n (l1 ++ l2) s =
  match verify_lines path n l1 s with
  | Ok (inl s') => verify_lines path (n + length l1) l2 s'
  | r => r
  end.
Proof.
  revert n s. induction l1 as [|[line|e] l1 IH]; intros n s; simpl; [by rewrite Nat.add_0_r| |done].
  destruct (verify_line path n line s) as [[s'|rep]|e]; simpl; [|done..].
  rewrite IH. by replace (S n + length l1) with (n + S (length l1)) by lia.
Qed.

(** What verification accepts of a line, and that a report that ends the loop is
    a failure. *)
Inductive accepts (line : string) (v : VerifyState) : VerifyState -> Prop :=
| accept_blank : is_blank line = true -> accepts line v v
| accept_legacy p :
    is_blank line = false -> decode_persisted line = Ok p -> pae_integrity p = None ->
    vs_protected_chain_started v = false ->
    accepts line v {|
      vs_total_events := S (vs_total_events v); vs_verified_events := vs_verified_events v;
      vs_previous_hash := vs_previous_hash v; vs_protected_chain_started := false |}
| accept_sealed p i :
    is_blank line = false -> decode_persisted line = Ok p -> pae_integrity p = Some i ->
    trim (pai_algorithm i) = "sha256" -> pai_prev_hash i = vs_previous_hash v ->
    hash (pae_event p) (vs_previous_hash v) = Ok (pai_entry_hash i) ->
    accepts line v {|
      vs_total_events := S (vs_total_events v); vs_verified_events := S (vs_verified_events v);
      vs_previous_hash := Some (pai_entry_hash i); vs_protected_chain_started := true |}.

Lemma verify_line_inv n line v r :
  verify_line path n line v = Ok r ->
  match r with
  | inl v' => accepts line v v'
  | inr rep => avr_valid rep = false /\ avr_first_invalid_line rep = Some n
  end.
Proof.
  unfold verify_line, decode_persisted_audit_event_line.
  destruct (is_blank line) eqn:Hb; [intros [= <-]; by constructor|].
  destruct (decode_persisted line) as [p|] eqn:Hd; simpl; [|done].
  destruct (pae_integrity p) as [i|] eqn:Hi.
  - case_decide as Ha; [by intros [= <-]|]. case_decide as Hp; [by intros [= <-]|].
    destruct (hash _ _) as [h|] eqn:Hh; simpl; [|done].
    case_decide as He; [by intros [= <-]|]. intros [= <-].
    rewrite Hp in Hh. rewrite <- He in Hh. by eapply accept_sealed.
  - destruct (vs_protected_chain_started v) eqn:Hs; intros [= <-]; [done|].
    by eapply accept_legacy.
Qed.

Lemma verify_lines_invalid n lines v rep :
  verify_lines path n lines v = Ok (inr rep) ->
  avr_valid rep = false /\ exists m, avr_first_invalid_line rep = Some m.
Proof.
  revert n v. induction lines as [|[line|e] lines IH]; intros n v; simpl; [done| |done].
  destruct (verify_line path n line v) as [[v'|r]|] eqn:El; simpl; [apply IH| |done].
  intros [= <-]. apply verify_line_inv in El as [? ?]. eauto.
Qed.

(** Induction over the accepted lines of a journal. *)
Lemma verify_lines_ind (R : list (result string string) -> VerifyState -> Prop) :
  R [] verify_start ->
  (forall lines line v v', R lines v -> accepts line v v' -> R (lines ++ [Ok line]) v') ->
  forall lines n v, verify_lines path n lines verify_start = Ok (inl v) -> R lines v.
Proof.
  intros Hnil Hs lines. induction lines as [|x lines IH] using rev_ind; intros n v.
  { simpl. by intros [= <-]. }
  rewrite verify_lines_app.
  destruct (verify_lines path n lines verify_start) as [[v1|]|] eqn:E; [|done..].
  destruct x as [line|e]; simpl; [|done].
  destruct (verify_line path _ line v1) as [[v2|]|] eqn:El; simpl; [|done..].
  intros [= <-]. apply verify_line_inv in El. eauto.
Qed.

(** A freshly sealed entry is accepted. *)
Lemma verify_sealed n e st h s :
  hash e (vs_previous_hash st) = Ok h ->
  encode_persisted (event_with_integrity e (vs_previous_hash st) h) = Ok s ->
  verify_line path n s st = Ok (inl {|
    vs_total_events := S (vs_total_events st); vs_verified_events := S (vs_verified_events st);
    vs_previous_hash := Some h; vs_protected_chain_started := true |}).
Proof.
  intros Hh Hs. unfold verify_line, decode_persisted_audit_event_line.
  rewrite (encoded_not_blank _ _ Hs), (encode_round_trip _ _ Hs). simpl.
  rewrite decide_False by (intros Hn; by apply Hn).
  rewrite Hh. simpl. by rewrite decide_False by (intros Hn; by apply Hn).
Qed.

(** ** Appending *)

(** The sink's view of a verified journal. *)
Record sink_verified (s : JsonlAuditSink) (st : VerifyState) : Prop := {
  sv_path : jl_path s = path;
  sv_poison : mx_poisoned (jl_journal s) = false;
  sv_terminated : terminated (jj_file (mx_value (jl_journal s)));
  sv_verified : verify_lines path 1 (buf_lines (jj_file (mx_value (jl_journal s)))) verify_start
    = Ok (inl st);
  sv_hash : jj_last_entry_hash (mx_value (jl_journal s)) = vs_previous_hash st;
}.

Lemma record_run_ok s e h line :
  mx_poisoned (jl_journal s) = false -> jl_io s (jl_calls s) = all_ok -> jl_path s = path ->
  let j := mx_value (jl_journal s) in
  hash e (jj_last_entry_hash j) = Ok h ->
  encode_persisted (event_with_integrity e (jj_last_entry_hash j) h) = Ok line ->
  JsonlAuditSink_record e s =
  (Returned (Ok tt),
   {| jl_path := path;
      jl_journal := Mutex_new {| jj_file := jj_file j +:+ (line +:+ line_feed);
                                 jj_last_entry_hash := Some h |};
      jl_io := jl_io s; jl_calls := S (jl_calls s) |}).
Proof.
  intros Hp Hio Hpath j Hh Hl. unfold JsonlAuditSink_record, bind, get, modify, try_bind, bind, ret,
    Mutex_lock. rewrite Hp, Hpath. simpl. fold j. rewrite Hh. simpl.
  unfold serialize_audit_event_line. rewrite Hl. simpl. rewrite Hio. simpl.
  unfold jl_set_journal, jl_next_call, Mutex_store, Mutex_new. simpl. by rewrite ?Hp, ?Hpath.
Qed.

Lemma record_verified s st e :
  sink_verified s st -> jl_io s (jl_calls s) = all_ok ->
  exists s' h, JsonlAuditSink_record e s = (Returned (Ok tt), s') /\
    jl_io s' = jl_io s /\ jl_calls s' = S (jl_calls s) /\
    sink_verified s' {|
      vs_total_events := S (vs_total_events st); vs_verified_events := S (vs_verified_events st);
      vs_previous_hash := Some h; vs_protected_chain_started := true |}.
Proof.
  intros [Hpath Hp Ht Hv Hh] Hio.
  destruct (hash_total e (vs_previous_hash st)) as (h & Hhash & _).
  destruct (encode_total (event_with_integrity e (vs_previous_hash st) h)) as [line Hline].
  eexists _, h. split; [apply (record_run_ok s e h line); try done; by rewrite Hh|].
  split_and!; [done..|]. split; simpl; [done|done| | |done].
  - apply terminated_app; [by right; exists line|]. by destruct line.
  - rewrite buf_lines_app by done. rewrite verify_lines_app, Hv, (buf_lines_encoded _ _ Hline).
    simpl. by rewrite (verify_sealed _ _ _ _ _ Hhash Hline).
Qed.

Lemma record_all_verified es s st :
  sink_verified s st -> (forall n, jl_calls s <= n -> jl_io s n = all_ok) ->
  exists s' st', record_all es s = (Returned (Ok tt), s') /\ sink_verified s' st' /\
    vs_total_events st' = vs_total_events st + length es /\
    vs_verified_events st' = vs_verified_events st + length es.
Proof.
  revert s st. induction es as [|e es IH]; intros s st Hs Hio; simpl.
  { exists s, st. split_and!; [done|done|lia..]. }
  destruct (record_verified s st e Hs) as (s1 & h & Hrun & Hio1 & Hc1 & Hs1); [by apply Hio|].
  unfold try_bind, bind, as_record, JsonlAuditSink_sink. rewrite Hrun.
  destruct (IH s1 _ Hs1) as (s' & st' & Hall & Hs' & Htot & Hver).
  { intros n Hn. rewrite Hio1. apply Hio. lia. }
  exists s', st'. simpl in *. split_and!; [done|done|lia..].
Qed.

(** The hash the sink caches when it opens a journal is the one verification
    ends with. *)
Definition tail_matches (last : option string) (prev : option string) : Prop :=
  match last with
  | None => prev = None
  | Some line => exists p, decode_persisted line = Ok p /\
      match pae_integrity p with
      | Some v => prev = Some (pai_entry_hash v) /\ trim (pai_entry_hash v) <> ""
      | None => prev = None
      end
  end.

Lemma last_non_empty_line_app lines line last last' :
  last_non_empty_line path lines last = Ok last' ->
  last_non_empty_line path (lines ++ [Ok line]) last
    = Ok (if is_blank line then last' else Some line).
Proof.
  revert last. induction lines as [|[l|e] lines IH]; intros last; simpl; [by intros [= ->]| |done].
  apply IH.
Qed.

Lemma tail_hash_agrees n lines st :
  verify_lines path n lines verify_start = Ok (inl st) ->
  (vs_protected_chain_started st = false -> vs_previous_hash st = None) /\
  exists last, last_non_empty_line path lines None = Ok last /\
    tail_matches last (vs_previous_hash st).
Proof.
  revert lines n st. apply verify_lines_ind; [split; [done|]; by exists None|].
  intros lines line v v' (Hnone & last & Hlast & Hm) Ha.
  apply (last_non_empty_line_app _ line) in Hlast.
  destruct Ha as [Hb|p Hb Hd Hi Hs|p i Hb Hd Hi _ Hp Hh]; rewrite Hb in Hlast; simpl.
  - eauto.
  - split; [auto|]. eexists; split; [done|]. exists p. rewrite Hi. auto.
  - split; [done|]. eexists; split; [done|]. exists p. rewrite Hi. eauto using hash_visible.
Qed.

Lemma load_last_hash_agrees bytes st :
  verify_lines path 1 (buf_lines bytes) verify_start = Ok (inl st) ->
  load_last_audit_entry_hash path (JournalContents bytes) = Ok (vs_previous_hash st).
Proof.
  intros Hv. apply tail_hash_agrees in Hv as (_ & last & Hl & Hlast).
  simpl. rewrite Hl. simpl. destruct last as [line|]; [|by rewrite Hlast].
  destruct Hlast as (p & Hd & Hp). unfold decode_persisted_audit_event_line. rewrite Hd. simpl.
  destruct (pae_integrity p) as [v|]; [|by rewrite Hp].
  destruct Hp as [-> Ht]. by destruct (trim (pai_entry_hash v)).
Qed.

(** C8 (invariant). Open a journal that verifies
    and ends at a line end (or no journal at all), record any events with the
    operating system answering without errors: every [record] succeeds, and the
    journal verifies, with as many more events, all sealed, and with the hash
    the sink holds as its last. *)
Theorem journal_append_verifies rd mkdir open io s rep es :
  match rd with JournalContents bytes => terminated bytes | _ => True end ->
  verify_jsonl_audit_journal path rd = Ok rep -> avr_valid rep = true ->
  JsonlAuditSink_new path mkdir open rd io = Ok s -> (forall n, io n = all_ok) ->
  exists s' rep',
    record_all es s = (Returned (Ok tt), s') /\
    verify_jsonl_audit_journal path (JournalContents (jj_file (mx_value (jl_journal s'))))
      = Ok rep' /\ avr_valid rep' = true /\
    avr_total_events rep' = avr_total_events rep + length es /\
    avr_verified_events rep' = avr_verified_events rep + length es /\
    avr_last_entry_hash rep' = jj_last_entry_hash (mx_value (jl_journal s')).
Proof.
  intros Ht Hv Hvalid Hnew Hio.
  assert (exists st, sink_verified s st /\ valid_report st = rep) as (st & Hst & <-).
  { unfold JsonlAuditSink_new, open_jsonl_audit_journal in Hnew.
    destruct (prepare_audit_journal_parent _ _); [|done]. simpl in Hnew.
    destruct open; [|done]. simpl in Hnew. destruct rd as [| |bytes]; [..|].
    - simpl in Hnew, Hv. simplify_eq. exists verify_start. split; [|done]. by split; [..|left| |].
    - done.
    - simpl in Hv. destruct (verify_lines _ _ _ _) as [[st|r]|] eqn:E; simplify_eq/=.
      + exists st. split; [|done]. pose proof (load_last_hash_agrees _ _ E) as Hl.
        simpl in Hl. rewrite Hl in Hnew. simpl in Hnew. simplify_eq. by split.
      + apply verify_lines_invalid in E as [E _]. congruence. }
  assert (jl_calls s = 0 /\ jl_io s = io) as [Hc Hi].
  { unfold JsonlAuditSink_new in Hnew. destruct (open_jsonl_audit_journal _ _ _ _); [|done].
    simpl in Hnew. destruct (load_last_audit_entry_hash _ _); [|done]. by simplify_eq/=. }
  destruct (record_all_verified es s st Hst) as (s' & st' & Hall & Hs' & Htot & Hver).
  { intros n _. rewrite Hi. apply Hio. }
  exists s', (valid_report st'). split; [done|]. destruct Hs' as [_ _ _ Hv' Hh]. simpl.
  rewrite Hv'. by split_and!.
Qed.

(** ** The last seal commits to the history *)

(** The events of a journal's lines, sealed or not. *)
Definition line_event (line : result string string) : option AuditEvent :=
  match line with
  | Ok line =>
      if is_blank line then None else
      match decode_persisted line with
      | Ok p => Some (pae_event p)
      | Err _ => None
      end
  | Err _ => None
  end.

Definition line_events (lines : list (result string string)) : list AuditEvent :=
  omap line_event lines.

(** No two (event, previous hash) pairs have the same digest. *)
Definition collision_free : Prop :=
  forall e p e' p' h, hash e p = Ok h -> hash e' p' = Ok h -> e = e' /\ p = p'.

(** A chain of seals: its events and its last hash. *)
Inductive sealed_chain : list AuditEvent -> option string -> Prop :=
| chain_nil : sealed_chain [] None
| chain_snoc es prev e h :
    sealed_chain es prev -> hash e prev = Ok h -> sealed_chain (es ++ [e]) (Some h).

Lemma sealed_chain_commits es h :
  collision_free -> sealed_chain es h -> forall es', sealed_chain es' h -> es' = es.
Proof.
  intros Hcf Hes. induction Hes as [|es prev e h Hes IH Hh]; intros es' Hes'; inversion Hes'; subst.
  - done.
  - match goal with H : hash _ _ = Ok h |- _ => destruct (Hcf _ _ _ _ _ Hh H) as [-> ->] end.
    f_equal. by apply IH.
Qed.

Lemma line_events_snoc lines line :
  line_events (lines ++ [Ok line]) = line_events lines ++ option_list (line_event (Ok line)).
Proof. unfold line_events. by rewrite omap_app. Qed.

Lemma line_events_cons x lines :
  line_events (x :: lines) = option_list (line_event x) ++ line_events lines.
Proof.
  change (x :: lines) with ([x] ++ lines). unfold line_events. by rewrite omap_app.
Qed.

Lemma line_event_sealed line p :
  is_blank line = false -> decode_persisted line = Ok p ->
  line_event (Ok line) = Some (pae_event p).
Proof. intros Hb Hd. simpl. by rewrite Hb, Hd. Qed.

Lemma verified_chain lines n st :
  verify_lines path n lines verify_start = Ok (inl st) ->
  vs_verified_events st <= vs_total_events st /\
  (vs_verified_events st = vs_total_events st ->
   sealed_chain (line_events lines) (vs_previous_hash st)).
Proof.
  revert lines n st. apply verify_lines_ind; [split; [done|]; constructor|].
  intros lines line v v' [Hle Hchain] Ha. rewrite line_events_snoc.
  destruct Ha as [Hb|p Hb Hd Hi Hs|p i Hb Hd Hi _ Hp Hh]; simpl.
  - rewrite Hb. simpl. by rewrite app_nil_r.
  - split; [lia|]. intros ?. lia.
  - rewrite Hb, Hd. simpl. split; [lia|]. intros [= Heq]. eapply chain_snoc; eauto.
Qed.

(** C9 (safety). With a collision-free digest,
    two fully sealed journals that verify and end with the same hash hold the
    same events in the same order: no event can be altered, dropped, added or
    moved without changing the last hash. *)
Theorem last_seal_commits bytes1 bytes2 rep1 rep2 :
  collision_free ->
  verify_jsonl_audit_journal path (JournalContents bytes1) = Ok rep1 ->
  verify_jsonl_audit_journal path (JournalContents bytes2) = Ok rep2 ->
  avr_valid rep1 = true -> avr_valid rep2 = true ->
  avr_verified_events rep1 = avr_total_events rep1 ->
  avr_verified_events rep2 = avr_total_events rep2 ->
  avr_last_entry_hash rep1 = avr_last_entry_hash rep2 ->
  line_events (buf_lines bytes1) = line_events (buf_lines bytes2).
Proof.
  intros Hcf H1 H2 V1 V2 T1 T2 Hl. simpl in H1, H2.
  destruct (verify_lines path 1 (buf_lines bytes1) verify_start) as [[st1|r1]|] eqn:E1;
    simplify_eq/=; [|apply verify_lines_invalid in E1 as [E1 _]; congruence].
  destruct (verify_lines path 1 (buf_lines bytes2) verify_start) as [[st2|r2]|] eqn:E2;
    simplify_eq/=; [|apply verify_lines_invalid in E2 as [E2 _]; congruence].
  apply verified_chain in E1 as [_ C1], E2 as [_ C2].
  eapply sealed_chain_commits; [done|by apply C2|]. rewrite <- Hl. auto.
Qed.

(** ** Repair *)

(** What the rewritten lines hold: a journal that verifies, fully sealed. *)
Record rewritten (evs : list AuditEvent) (r : RepairState) : Prop := {
  rw_terminated : terminated (str_concat (rs_repaired_lines r));
  rw_verified : verify_lines path 1 (buf_lines (str_concat (rs_repaired_lines r))) verify_start
    = Ok (inl {| vs_total_events := rs_repaired_events r;
                 vs_verified_events := rs_repaired_events r;
                 vs_previous_hash := rs_rebuilt_previous_hash r;
                 vs_protected_chain_started := negb (rs_repaired_events r =? 0) |});
  rw_events : line_events (buf_lines (str_concat (rs_repaired_lines r))) = evs;
}.

Lemma rewritten_blank evs r : rewritten evs r -> rewritten evs (rs_push_blank r).
Proof.
  intros [Ht Hv He]. split; simpl; rewrite str_concat_snoc.
  - apply terminated_app; [right; by exists ""|done].
  - rewrite buf_lines_app, verify_lines_app, Hv by done. done.
  - rewrite buf_lines_app by done. unfold line_events in *. rewrite omap_app, He. simpl.
    apply app_nil_r.
Qed.

Lemma reseal_rewritten evs r e :
  rewritten evs r -> exists r', reseal path e r = Ok r' /\ rewritten (evs ++ [e]) r' /\
    rs_source_previous_hash r' = rs_source_previous_hash r /\
    rs_protected_chain_started r' = rs_protected_chain_started r /\
    rs_total_events r' = rs_total_events r /\
    rs_repaired_events r' = S (rs_repaired_events r) /\
    rs_already_valid_events r' = rs_already_valid_events r.
Proof.
  intros [Ht Hv He]. unfold reseal.
  destruct (hash_total e (rs_rebuilt_previous_hash r)) as (h & Hh & _). rewrite Hh. simpl.
  destruct (serialize_total (event_with_integrity e (rs_rebuilt_previous_hash r) h))
    as (line & Hline & ->). simpl.
  eexists; split; [done|]. split; [|done].
  split; simpl; rewrite str_concat_snoc.
  - apply terminated_app; [by right; exists line|by destruct line].
  - rewrite buf_lines_app, verify_lines_app, Hv, (buf_lines_encoded _ _ Hline) by done. simpl.
    by erewrite verify_sealed; [..|done|done].
  - rewrite buf_lines_app, (buf_lines_encoded _ _ Hline) by done.
    rewrite line_events_snoc, He. f_equal.
    by rewrite (line_event_sealed _ _ (encoded_not_blank _ _ Hline) (encode_round_trip _ _ Hline)).
Qed.

(** Verification and repair in step: they agree on the source chain; what has
    been rewritten so far is a sealed journal of the same events, or everything
    so far was sealed already. *)
Record in_step (evs : list AuditEvent) (v : VerifyState) (r : RepairState) : Prop := {
  is_source : rs_source_previous_hash r = vs_previous_hash v;
  is_started : rs_protected_chain_started r = vs_protected_chain_started v;
  is_total : rs_total_events r = vs_total_events v;
  is_phase :
    (rs_repaired_events r = vs_total_events v /\ rs_already_valid_events r = 0 /\
     rewritten evs r /\
     ((vs_total_events v = 0 /\ vs_verified_events v = 0 /\ vs_protected_chain_started v = false
       /\ vs_previous_hash v = None /\ rs_rebuilt_previous_hash r = None) \/
      vs_verified_events v < vs_total_events v)) \/
    (rs_repaired_events r = 0 /\ vs_protected_chain_started v = true /\
     0 < vs_total_events v /\ vs_verified_events v = vs_total_events v /\
     rs_already_valid_events r = vs_total_events v /\
     rs_rebuilt_previous_hash r = rs_source_previous_hash r);
}.

Lemma in_step_blank evs v r n line :
  is_blank line = true -> in_step evs v r ->
  exists r', repair_line path n line r = Ok (inl r') /\ in_step evs v r'.
Proof.
  intros Hb [Hs Hst Ht Hph]. unfold repair_line. rewrite Hb. eexists; split; [done|].
  split; simpl; [done..|]. destruct Hph as [(? & ? & Hrw & ?)|?]; [left|by right].
  split_and!; try done. by apply rewritten_blank.
Qed.

Lemma in_step_legacy evs v r n line p :
  is_blank line = false -> decode_persisted line = Ok p -> pae_integrity p = None ->
  vs_protected_chain_started v = false -> in_step evs v r ->
  exists r', repair_line path n line r = Ok (inl r') /\
    in_step (evs ++ [pae_event p]) {|
      vs_total_events := S (vs_total_events v); vs_verified_events := vs_verified_events v;
      vs_previous_hash := vs_previous_hash v; vs_protected_chain_started := false |} r'.
Proof.
  intros Hb Hd Hi Hst [Hs Hst' Ht Hph]. unfold repair_line, decode_persisted_audit_event_line.
  rewrite Hb, Hd. simpl. rewrite Hi, Hst', Hst.
  destruct Hph as [(Hrep & Hal & Hrw & Hor)|(_ & ? & _)]; [|congruence].
  assert (rewritten evs (rs_set_total_events (S (rs_total_events r)) r)) as Hrw'
    by (destruct Hrw; by split).
  destruct (reseal_rewritten _ _ (pae_event p) Hrw') as (r' & -> & Hrw'' & H1 & H2 & H3 & H4 & H5).
  simpl in *. eexists; split; [done|]. split; simpl; [congruence|congruence|congruence|].
  left. split_and!; [congruence|congruence|done|]. right. lia.
Qed.

Lemma in_step_sealed evs v r n line p i :
  is_blank line = false -> decode_persisted line = Ok p -> pae_integrity p = Some i ->
  trim (pai_algorithm i) = "sha256" -> pai_prev_hash i = vs_previous_hash v ->
  hash (pae_event p) (vs_previous_hash v) = Ok (pai_entry_hash i) -> in_step evs v r ->
  exists r', repair_line path n line r = Ok (inl r') /\
    in_step (evs ++ [pae_event p]) {|
      vs_total_events := S (vs_total_events v); vs_verified_events := S (vs_verified_events v);
      vs_previous_hash := Some (pai_entry_hash i); vs_protected_chain_started := true |} r'.
Proof.
  intros Hb Hd Hi Ha Hp Hh [Hs Hst Ht Hph]. unfold repair_line, decode_persisted_audit_event_line.
  rewrite Hb, Hd. simpl. rewrite Hi. rewrite decide_False by (intros Hn; by apply Hn).
  rewrite decide_False by (rewrite Hs; intros Hn; by apply Hn). rewrite Hp, Hh. simpl.
  rewrite decide_False by (intros Hn; by apply Hn).
  assert (forall b, rs_repaired_events r = 0 -> vs_previous_hash v = rs_rebuilt_previous_hash r ->
    (if decide (rs_repaired_events r = 0 /\ vs_previous_hash v = rs_rebuilt_previous_hash r)
     then Ok (inl (rs_keep line (pai_entry_hash i) (rs_protected (pai_entry_hash i)
            (rs_set_total_events (S (rs_total_events r)) r)))) else b)
    = Ok (E := AuditError) (inl (B := AuditRepairReport) (rs_keep line (pai_entry_hash i)
         (rs_protected (pai_entry_hash i) (rs_set_total_events (S (rs_total_events r)) r)))))
    as Hkeep by (intros b ??; by rewrite decide_True).
  destruct Hph as [(Hrep & Hal & Hrw & [(Ht0 & Hv0 & _ & Hp0 & Hr0)|Hlt])
                  |(Hrep & _ & Hpos & Hver & Hal & Hreb)].
  - rewrite Hkeep by congruence. eexists; split; [done|]. split; simpl; [done|done|congruence|].
    right. split_and!; [congruence|done|lia|lia|lia|done].
  - rewrite decide_False by lia.
    assert (rewritten evs (rs_protected (pai_entry_hash i)
      (rs_set_total_events (S (rs_total_events r)) r))) as Hrw' by (destruct Hrw; by split).
    destruct (reseal_rewritten _ _ (pae_event p) Hrw') as (r' & -> & Hrw'' & H1 & H2 & H3 & H4 & H5).
    simpl in *. eexists; split; [done|]. split; simpl; [congruence|congruence|congruence|].
    left. split_and!; [congruence|congruence|done|]. right. lia.
  - rewrite Hkeep by congruence. eexists; split; [done|]. split; simpl; [done|done|congruence|].
    right. split_and!; [congruence|done|lia|lia|lia|done].
Qed.

(** On a line verification does not accept. *)
Lemma repair_line_refuses evs v r n line :
  in_step evs v r ->
  match verify_line path n line v with
  | Ok (inl _) => True
  | Ok (inr _) => exists rep reason, repair_line path n line r = Ok (inr rep) /\
      arr_outcome rep = RepairRefused n reason
  | Err e => repair_line path n line r = Err e
  end.
Proof.
  intros [Hs Hst Ht _]. unfold verify_line, repair_line, decode_persisted_audit_event_line.
  destruct (is_blank line); [done|].
  destruct (decode_persisted line) as [p|]; simpl; [|done].
  rewrite Hs, Hst. destruct (pae_integrity p) as [i|].
  - case_decide; [by do 2 eexists|]. case_decide; [by do 2 eexists|].
    destruct (hash _ _) as [h|]; simpl; [|done]. case_decide; [by do 2 eexists|done].
  - destruct (vs_protected_chain_started v); [by do 2 eexists|done].
Qed.

Lemma repair_in_step lines n evs v r :
  in_step evs v r ->
  match verify_lines path n lines v with
  | Ok (inl v') => exists r', repair_lines path n lines r = Ok (inl r') /\
      in_step (evs ++ line_events lines) v' r'
  | Ok (inr rep) => exists rep' m reason, repair_lines path n lines r = Ok (inr rep') /\
      arr_outcome rep' = RepairRefused m reason /\ avr_first_invalid_line rep = Some m
  | Err e => repair_lines path n lines r = Err e
  end.
Proof.
  revert n evs v r. induction lines as [|[line|e] lines IH]; intros n evs v r Hstep;
    cbn [verify_lines repair_lines]; [| |done].
  { exists r. by rewrite app_nil_r. }
  pose proof (repair_line_refuses _ _ _ n line Hstep) as Href.
  destruct (verify_line path n line v) as [[v1|rep]|e] eqn:Ev; cbn [result_bind].
  - assert (exists r1, repair_line path n line r = Ok (inl r1) /\
      in_step (evs ++ option_list (line_event (Ok line))) v1 r1) as (r1 & -> & H1).
    { apply verify_line_inv in Ev. simpl.
      destruct Ev as [Hb|p Hb Hd Hi Hst|p i Hb Hd Hi Ha Hp Hh]; rewrite Hb, ?Hd; simpl.
      - rewrite app_nil_r. by apply in_step_blank.
      - by apply in_step_legacy.
      - by apply in_step_sealed. }
    cbn [result_bind]. specialize (IH (S n) _ _ _ H1). rewrite line_events_cons, app_assoc.
    exact IH.
  - destruct Href as (rep' & reason & -> & Hout). apply verify_line_inv in Ev as [_ Hl].
    simpl. eauto 6.
  - by rewrite Href.
Qed.

Lemma in_step_start : in_step [] verify_start repair_start.
Proof.
  split; [done..|]. left. split_and!; [done|done| |by left].
  split; [by left|done|done].
Qed.

(** C10 (equivalence). On a readable journal, with an operating
    system that answers without errors, repair says what verification says: it
    fails with the same error; it refuses, at the same line, exactly the journals
    that do not verify, and leaves them alone; it finds a fully sealed journal
    healthy and leaves it alone; and it turns any other verified journal into one
    of the same events in the same order that verifies and is fully sealed. *)
Theorem repair_agrees_with_verify bytes io :
  rio_metadata io = Ok tt -> repair_write path io = Ok tt ->
  let rd := JournalContents bytes in
  match verify_jsonl_audit_journal path rd with
  | Err e => repair_jsonl_audit_journal path rd io = (Err e, rd)
  | Ok rep =>
      let n := avr_total_events rep in
      if avr_valid rep then
        if decide (avr_verified_events rep = n)
        then repair_jsonl_audit_journal path rd io =
             (Ok {| arr_total_events := n; arr_repaired_events := 0;
                    arr_already_valid_events := n; arr_outcome := RepairHealthy |}, rd)
        else exists bytes' rep',
             repair_jsonl_audit_journal path rd io =
             (Ok {| arr_total_events := n; arr_repaired_events := n;
                    arr_already_valid_events := 0; arr_outcome := RepairRepaired |},
              JournalContents bytes') /\
             verify_jsonl_audit_journal path (JournalContents bytes') = Ok rep' /\
             avr_valid rep' = true /\ avr_total_events rep' = n /\ avr_verified_events rep' = n /\
             line_events (buf_lines bytes') = line_events (buf_lines bytes)
      else exists m reason rep', avr_first_invalid_line rep = Some m /\
             arr_outcome rep' = RepairRefused m reason /\
             repair_jsonl_audit_journal path rd io = (Ok rep', rd)
  end.
Proof.
  intros Hmeta Hwrite rd. unfold rd. simpl. rewrite Hmeta.
  pose proof (repair_in_step (buf_lines bytes) 1 _ _ _ in_step_start) as Hsim.
  destruct (verify_lines path 1 (buf_lines bytes) verify_start) as [[v|rep]|e] eqn:Ev; simpl.
  - destruct Hsim as (r & -> & [_ _ Ht Hph]). rewrite Ht. simpl in *.
    destruct Hph as [(Hrep & Hal & [_ Hv He] & [(Ht0 & Hv0 & _)|Hlt])
                    |(Hrep & _ & Hpos & Hver & Hal & _)].
    + rewrite decide_True by congruence. rewrite decide_True by congruence. by rewrite Hrep, Hal, Ht0.
    + rewrite decide_False by lia. rewrite decide_False by lia. rewrite Hwrite, Hrep, Hal.
      do 2 eexists. split; [done|]. rewrite Hv. simpl. rewrite Hrep. by split_and!.
    + rewrite decide_True by done. rewrite decide_True by congruence. by rewrite Hrep, Hal.
  - destruct Hsim as (rep' & m & reason & -> & Hout & Hl).
    destruct (verify_lines_invalid _ _ _ _ Ev) as [-> _]. eauto 6.
  - by rewrite Hsim.
Qed.

(** On a new journal, let the first
    [record] write its line and then fail to release the file lock, and let the
    second succeed: the first event is in the file although its [record] failed,
    the second is sealed onto the hash before it, and the journal no longer
    verifies: the second line has the wrong previous hash. *)
Theorem failed_unlock_breaks_chain mkdir open io s e1 e2 err :
  JsonlAuditSink_new path mkdir open JournalMissing io = Ok s ->
  io 0 = {| jio_lock := Ok tt; jio_write_all := Ok tt; jio_flush := Ok tt;
            jio_unlock := Err err |} ->
  io 1 = all_ok ->
  exists s1 s2 rep,
    JsonlAuditSink_record e1 s =
      (Returned (Err (AuditSinkError ("failed to unlock audit journal " +:+ quoted path
         +:+ ": " +:+ err))), s1) /\
    JsonlAuditSink_record e2 s1 = (Returned (Ok tt), s2) /\
    verify_jsonl_audit_journal path (JournalContents (jj_file (mx_value (jl_journal s2))))
      = Ok rep /\
    avr_valid rep = false /\ avr_first_invalid_line rep = Some 2 /\
    avr_reason rep = Some "prev_hash mismatch".
Proof.
  unfold JsonlAuditSink_new, open_jsonl_audit_journal.
  destruct (prepare_audit_journal_parent _ _); [|done]. destruct open; [|done]. simpl.
  intros [= <-] Hio0 Hio1.
  destruct (hash_total e1 None) as (h1 & Hh1 & _). destruct (hash_total e2 None) as (h2 & Hh2 & _).
  destruct (encode_total (event_with_integrity e1 None h1)) as [l1 Hl1].
  destruct (encode_total (event_with_integrity e2 None h2)) as [l2 Hl2].
  eexists _, _, _. split; [|split].
  - unfold JsonlAuditSink_record, bind, get, modify, try_bind, bind, ret, Mutex_lock. simpl.
    rewrite Hh1. simpl. unfold serialize_audit_event_line. rewrite Hl1. simpl. rewrite Hio0. done.
  - apply (record_run_ok _ _ h2 l2); done.
  - simpl. rewrite str_app_nil_l, buf_lines_app by (right; by exists l1).
    rewrite (buf_lines_encoded _ _ Hl1), (buf_lines_encoded _ _ Hl2). cbn [app verify_lines].
    rewrite (verify_sealed _ _ verify_start _ _ Hh1 Hl1). cbn [result_bind verify_lines].
    unfold verify_line, decode_persisted_audit_event_line.
    rewrite (encoded_not_blank _ _ Hl2), (encode_round_trip _ _ Hl2). simpl. done.
Qed.
End chain.
