(* ===== verification/Kernel.v ===== *)
(** * The kernel

    [crates/kernel/src/kernel.rs]: [LoongKernel] with every registration and
    every operation, and the frozen [Kernel] handle.  The policy engine [P], the
    audit sink [A] and the clock [C] are known through their classes; adapters
    and policy extensions act on the environment [W].  An operation is a
    computation on the kernel's state: [zoom] runs a component's operation on
    its field.  The calls awaited one after the other in an [async] body run in
    that order. *)

From S2P Require Import Prelude RustStr Contracts Policy Planes AuditSinks.

(** ** State *)

Section state.
Context {J : SerdeJson}.

Record KernelDispatch : Type := {
  kd_adapter_route : ExecutionRoute;
  kd_outcome : HarnessOutcome;
}.

Record ConnectorDispatch : Type := {
  cd_connector_name : string;
  cd_outcome : ConnectorOutcome;
}.

Record PlaneInvocationRecord : Type := {
  pi_timestamp_epoch_s : Z;
  pi_agent_id : string;
  pi_pack_id : string;
  pi_plane : ExecutionPlane;
  pi_tier : PlaneTier;
  pi_primary_adapter : string;
  pi_delegated_core_adapter : option string;
  pi_operation : string;
  pi_required_capabilities : gset Capability;
}.

(** The fields of the source's struct, and the environment the adapters act on. *)
Record LoongKernel (P A C W : Type) : Type := {
  lk_policy : P;
  lk_packs : gmap string VerticalPackManifest;
  lk_namespaces : gmap string Namespace;
  lk_harness : HarnessBroker W;
  lk_connector_plane : ConnectorPlane W;
  lk_runtime_plane : RuntimePlane W;
  lk_tool_plane : ToolPlane W;
  lk_memory_plane : MemoryPlane W;
  lk_policy_extensions : PolicyExtensionChain W;
  lk_clock : C;
  lk_audit : A;
  lk_event_seq : Z;
  lk_world : W;
}.
End state.
Arguments lk_policy {J P A C W} _.
Arguments lk_packs {J P A C W} _.
Arguments lk_namespaces {J P A C W} _.
Arguments lk_harness {J P A C W} _.
Arguments lk_connector_plane {J P A C W} _.
Arguments lk_runtime_plane {J P A C W} _.
Arguments lk_tool_plane {J P A C W} _.
Arguments lk_memory_plane {J P A C W} _.
Arguments lk_policy_extensions {J P A C W} _.
Arguments lk_clock {J P A C W} _.
Arguments lk_audit {J P A C W} _.
Arguments lk_event_seq {J P A C W} _.
Arguments lk_world {J P A C W} _.

Section kernel.
Context {J : SerdeJson} {V : Semver} {P A C W : Type}.
Context `{!PolicyEngine P, !AuditSink A, !Clock C}.
Variable ps : PanicStrategy.

Local Abbreviation K := (LoongKernel P A C W).

(** Assignment to one field. *)
Definition lk_set_policy (x : P) (k : K) : K := {|
  lk_policy := x;
  lk_packs := lk_packs k;
  lk_namespaces := lk_namespaces k;
  lk_harness := lk_harness k;
  lk_connector_plane := lk_connector_plane k;
  lk_runtime_plane := lk_runtime_plane k;
  lk_tool_plane := lk_tool_plane k;
  lk_memory_plane := lk_memory_plane k;
  lk_policy_extensions := lk_policy_extensions k;
  lk_clock := lk_clock k;
  lk_audit := lk_audit k;
  lk_event_seq := lk_event_seq k;
  lk_world := lk_world k;
|}.

Definition lk_set_harness (x : HarnessBroker W) (k : K) : K := {|
  lk_policy := lk_policy k;
  lk_packs := lk_packs k;
  lk_namespaces := lk_namespaces k;
  lk_harness := x;
  lk_connector_plane := lk_connector_plane k;
  lk_runtime_plane := lk_runtime_plane k;
  lk_tool_plane := lk_tool_plane k;
  lk_memory_plane := lk_memory_plane k;
  lk_policy_extensions := lk_policy_extensions k;
  lk_clock := lk_clock k;
  lk_audit := lk_audit k;
  lk_event_seq := lk_event_seq k;
  lk_world := lk_world k;
|}.

Definition lk_set_connector_plane (x : ConnectorPlane W) (k : K) : K := {|
  lk_policy := lk_policy k;
  lk_packs := lk_packs k;
  lk_namespaces := lk_namespaces k;
  lk_harness := lk_harness k;
  lk_connector_plane := x;
  lk_runtime_plane := lk_runtime_plane k;
  lk_tool_plane := lk_tool_plane k;
  lk_memory_plane := lk_memory_plane k;
  lk_policy_extensions := lk_policy_extensions k;
  lk_clock := lk_clock k;
  lk_audit := lk_audit k;
  lk_event_seq := lk_event_seq k;
  lk_world := lk_world k;
|}.

Definition lk_set_runtime_plane (x : RuntimePlane W) (k : K) : K := {|
  lk_policy := lk_policy k;
  lk_packs := lk_packs k;
  lk_namespaces := lk_namespaces k;
  lk_harness := lk_harness k;
  lk_connector_plane := lk_connector_plane k;
  lk_runtime_plane := x;
  lk_tool_plane := lk_tool_plane k;
  lk_memory_plane := lk_memory_plane k;
  lk_policy_extensions := lk_policy_extensions k;
  lk_clock := lk_clock k;
  lk_audit := lk_audit k;
  lk_event_seq := lk_event_seq k;
  lk_world := lk_world k;
|}.

Definition lk_set_tool_plane (x : ToolPlane W) (k : K) : K := {|
  lk_policy := lk_policy k;
  lk_packs := lk_packs k;
  lk_namespaces := lk_namespaces k;
  lk_harness := lk_harness k;
  lk_connector_plane := lk_connector_plane k;
  lk_runtime_plane := lk_runtime_plane k;
  lk_tool_plane := x;
  lk_memory_plane := lk_memory_plane k;
  lk_policy_extensions := lk_policy_extensions k;
  lk_clock := lk_clock k;
  lk_audit := lk_audit k;
  lk_event_seq := lk_event_seq k;
  lk_world := lk_world k;
|}.

Definition lk_set_memory_plane (x : MemoryPlane W) (k : K) : K := {|
  lk_policy := lk_policy k;
  lk_packs := lk_packs k;
  lk_namespaces := lk_namespaces k;
  lk_harness := lk_harness k;
  lk_connector_plane := lk_connector_plane k;
  lk_runtime_plane := lk_runtime_plane k;
  lk_tool_plane := lk_tool_plane k;
  lk_memory_plane := x;
  lk_policy_extensions := lk_policy_extensions k;
  lk_clock := lk_clock k;
  lk_audit := lk_audit k;
  lk_event_seq := lk_event_seq k;
  lk_world := lk_world k;
|}.

Definition lk_set_policy_extensions (x : PolicyExtensionChain W) (k : K) : K := {|
  lk_policy := lk_policy k;
  lk_packs := lk_packs k;
  lk_namespaces := lk_namespaces k;
  lk_harness := lk_harness k;
  lk_connector_plane := lk_connector_plane k;
  lk_runtime_plane := lk_runtime_plane k;
  lk_tool_plane := lk_tool_plane k;
  lk_memory_plane := lk_memory_plane k;
  lk_policy_extensions := x;
  lk_clock := lk_clock k;
  lk_audit := lk_audit k;
  lk_event_seq := lk_event_seq k;
  lk_world := lk_world k;
|}.

Definition lk_set_clock (x : C) (k : K) : K := {|
  lk_policy := lk_policy k;
  lk_packs := lk_packs k;
  lk_namespaces := lk_namespaces k;
  lk_harness := lk_harness k;
  lk_connector_plane := lk_connector_plane k;
  lk_runtime_plane := lk_runtime_plane k;
  lk_tool_plane := lk_tool_plane k;
  lk_memory_plane := lk_memory_plane k;
  lk_policy_extensions := lk_policy_extensions k;
  lk_clock := x;
  lk_audit := lk_audit k;
  lk_event_seq := lk_event_seq k;
  lk_world := lk_world k;
|}.

Definition lk_set_audit (x : A) (k : K) : K := {|
  lk_policy := lk_policy k;
  lk_packs := lk_packs k;
  lk_namespaces := lk_namespaces k;
  lk_harness := lk_harness k;
  lk_connector_plane := lk_connector_plane k;
  lk_runtime_plane := lk_runtime_plane k;
  lk_tool_plane := lk_tool_plane k;
  lk_memory_plane := lk_memory_plane k;
  lk_policy_extensions := lk_policy_extensions k;
  lk_clock := lk_clock k;
  lk_audit := x;
  lk_event_seq := lk_event_seq k;
  lk_world := lk_world k;
|}.

Definition lk_set_event_seq (x : Z) (k : K) : K := {|
  lk_policy := lk_policy k;
  lk_packs := lk_packs k;
  lk_namespaces := lk_namespaces k;
  lk_harness := lk_harness k;
  lk_connector_plane := lk_connector_plane k;
  lk_runtime_plane := lk_runtime_plane k;
  lk_tool_plane := lk_tool_plane k;
  lk_memory_plane := lk_memory_plane k;
  lk_policy_extensions := lk_policy_extensions k;
  lk_clock := lk_clock k;
  lk_audit := lk_audit k;
  lk_event_seq := x;
  lk_world := lk_world k;
|}.

Definition lk_set_world (x : W) (k : K) : K := {|
  lk_policy := lk_policy k;
  lk_packs := lk_packs k;
  lk_namespaces := lk_namespaces k;
  lk_harness := lk_harness k;
  lk_connector_plane := lk_connector_plane k;
  lk_runtime_plane := lk_runtime_plane k;
  lk_tool_plane := lk_tool_plane k;
  lk_memory_plane := lk_memory_plane k;
  lk_policy_extensions := lk_policy_extensions k;
  lk_clock := lk_clock k;
  lk_audit := lk_audit k;
  lk_event_seq := lk_event_seq k;
  lk_world := x;
|}.

Definition lk_set_packs (packs : gmap string VerticalPackManifest)
    (namespaces : gmap string Namespace) (k : K) : K := {|
  lk_policy := lk_policy k;
  lk_packs := packs;
  lk_namespaces := namespaces;
  lk_harness := lk_harness k;
  lk_connector_plane := lk_connector_plane k;
  lk_runtime_plane := lk_runtime_plane k;
  lk_tool_plane := lk_tool_plane k;
  lk_memory_plane := lk_memory_plane k;
  lk_policy_extensions := lk_policy_extensions k;
  lk_clock := lk_clock k;
  lk_audit := lk_audit k;
  lk_event_seq := lk_event_seq k;
  lk_world := lk_world k;
|}.

Definition LoongKernel_with_runtime (policy : P) (clock : C) (audit : A) (world : W) : K := {|
  lk_policy := policy;
  lk_packs := ∅;
  lk_namespaces := ∅;
  lk_harness := HarnessBroker_new;
  lk_connector_plane := Plane_new;
  lk_runtime_plane := Plane_new;
  lk_tool_plane := Plane_new;
  lk_memory_plane := Plane_new;
  lk_policy_extensions := PolicyExtensionChain_new;
  lk_clock := clock;
  lk_audit := audit;
  lk_event_seq := 0;
  lk_world := world;
|}.

(** ** Registration ([&mut self]) *)

Definition LoongKernel_register_pack (pack : VerticalPackManifest) : M K (result unit KernelError) :=
  run? ret (map_err KPack (VerticalPackManifest_validate pack)) in
  let! k := get in
  if decide (is_Some (lk_packs k !! vp_pack_id pack))
  then ret (Err (DuplicatePack (vp_pack_id pack))) else
  let namespace := {|
    ns_pack_id := vp_pack_id pack;
    ns_domain := vp_domain pack;
    ns_membrane := vp_pack_id pack;
    ns_default_route := vp_default_route pack;
    ns_granted_capabilities := vp_granted_capabilities pack;
  |} in
  run! modify (lk_set_packs (<[vp_pack_id pack := pack]> (lk_packs k))
                 (<[vp_pack_id pack := namespace]> (lk_namespaces k))) in
  ret (Ok tt).

Definition LoongKernel_get_namespace (pack_id : string) : M K (option Namespace) :=
  gets (fun k => lk_namespaces k !! pack_id).

Definition LoongKernel_register_policy_extension (x : PolicyExtension W) : M K unit :=
  modify (fun k => lk_set_policy_extensions
                     (PolicyExtensionChain_register x (lk_policy_extensions k)) k).

Definition LoongKernel_register_harness_adapter (a : HarnessAdapter W) : M K unit :=
  modify (fun k => lk_set_harness (HarnessBroker_register a (lk_harness k)) k).

Definition LoongKernel_register_core_connector_adapter (a : CoreAdapter ConnectorSig W) : M K unit :=
  modify (fun k => lk_set_connector_plane (Plane_register_core_adapter a (lk_connector_plane k)) k).

Definition LoongKernel_register_connector_extension_adapter (a : ExtensionAdapter ConnectorSig W)
  : M K unit :=
  modify (fun k => lk_set_connector_plane (Plane_register_extension_adapter a (lk_connector_plane k)) k).

Definition LoongKernel_set_default_core_connector_adapter (name : string)
  : M K (result unit KernelError) :=
  try_map_err KConnector (zoom lk_connector_plane lk_set_connector_plane
    (fun p => let (r, p') := Plane_set_default_core_adapter name p in (Returned r, p'))).

Definition LoongKernel_register_core_runtime_adapter (a : CoreAdapter RuntimeSig W) : M K unit :=
  modify (fun k => lk_set_runtime_plane (Plane_register_core_adapter a (lk_runtime_plane k)) k).

Definition LoongKernel_register_runtime_extension_adapter (a : ExtensionAdapter RuntimeSig W)
  : M K unit :=
  modify (fun k => lk_set_runtime_plane (Plane_register_extension_adapter a (lk_runtime_plane k)) k).

Definition LoongKernel_set_default_core_runtime_adapter (name : string)
  : M K (result unit KernelError) :=
  try_map_err KRuntimePlane (zoom lk_runtime_plane lk_set_runtime_plane
    (fun p => let (r, p') := Plane_set_default_core_adapter name p in (Returned r, p'))).

Definition LoongKernel_register_core_tool_adapter (a : CoreAdapter ToolSig W) : M K unit :=
  modify (fun k => lk_set_tool_plane (Plane_register_core_adapter a (lk_tool_plane k)) k).

Definition LoongKernel_register_tool_extension_adapter (a : ExtensionAdapter ToolSig W)
  : M K unit :=
  modify (fun k => lk_set_tool_plane (Plane_register_extension_adapter a (lk_tool_plane k)) k).

Definition LoongKernel_set_default_core_tool_adapter (name : string)
  : M K (result unit KernelError) :=
  try_map_err KToolPlane (zoom lk_tool_plane lk_set_tool_plane
    (fun p => let (r, p') := Plane_set_default_core_adapter name p in (Returned r, p'))).

Definition LoongKernel_register_core_memory_adapter (a : CoreAdapter MemorySig W) : M K unit :=
  modify (fun k => lk_set_memory_plane (Plane_register_core_adapter a (lk_memory_plane k)) k).

Definition LoongKernel_register_memory_extension_adapter (a : ExtensionAdapter MemorySig W)
  : M K unit :=
  modify (fun k => lk_set_memory_plane (Plane_register_extension_adapter a (lk_memory_plane k)) k).

Definition LoongKernel_set_default_core_memory_adapter (name : string)
  : M K (result unit KernelError) :=
  try_map_err KMemoryPlane (zoom lk_memory_plane lk_set_memory_plane
    (fun p => let (r, p') := Plane_set_default_core_adapter name p in (Returned r, p'))).

(** ** Helpers of the operations *)

Definition LoongKernel_now : M K Z := zoom lk_clock lk_set_clock now_epoch_s.

Definition event_id_of_seq (seq : Z) : string := "evt-" +:+ fmt_016x seq.

Definition LoongKernel_new_event (timestamp_epoch_s : Z) (agent_id : option string)
    (kind : AuditEventKind) : M K AuditEvent :=
  let! old := gets lk_event_seq in
  run! modify (lk_set_event_seq (u64_wrapping_add old 1)) in
  ret {| ae_event_id := event_id_of_seq (u64_wrapping_add old 1);
         ae_timestamp_epoch_s := timestamp_epoch_s;
         ae_agent_id := agent_id;
         ae_kind := kind |}.

(** [self.audit.record(self.new_event(..))?] *)
Definition LoongKernel_record (timestamp_epoch_s : Z) (agent_id : option string)
    (kind : AuditEventKind) : M K (result unit KernelError) :=
  let! event := LoongKernel_new_event timestamp_epoch_s agent_id kind in
  try_map_err KAudit (zoom lk_audit lk_set_audit (as_record event)).

Definition LoongKernel_get_pack (pack_id : string) : M K (result VerticalPackManifest KernelError) :=
  gets (fun k => ok_or (lk_packs k !! pack_id) (PackNotFound pack_id)).

Definition LoongKernel_assert_pack_grants (pack : VerticalPackManifest)
    (required : gset Capability) : result unit KernelError :=
  match find_first (fun c => negb (VerticalPackManifest_grants pack c))
          (btree_set_iter required) with
  | Some c => Err (PackCapabilityBoundary (vp_pack_id pack) c)
  | None => Ok tt
  end.

Definition LoongKernel_assert_connector_allowed (pack : VerticalPackManifest)
    (connector_name : string) : result unit KernelError :=
  if negb (VerticalPackManifest_allows_connector pack connector_name)
  then Err (ConnectorNotAllowed connector_name (vp_pack_id pack))
  else Ok tt.

Definition LoongKernel_record_plane_invocation (r : PlaneInvocationRecord)
  : M K (result unit KernelError) :=
  run? LoongKernel_record (pi_timestamp_epoch_s r) (Some (pi_agent_id r))
         (PlaneInvoked (pi_pack_id r) (pi_plane r) (pi_tier r) (pi_primary_adapter r)
            (pi_delegated_core_adapter r) (pi_operation r)
            (btree_set_iter (pi_required_capabilities r))) in
  ret (Ok tt).

Definition LoongKernel_audit_denial (pack : VerticalPackManifest) (token : CapabilityToken)
    (now : Z) (policy_error : PolicyError) : M K (result unit KernelError) :=
  run? LoongKernel_record now (Some (ct_agent_id token))
         (AuthorizationDenied (vp_pack_id pack) (ct_token_id token)
            (PolicyError_to_string policy_error)) in
  ret (Err (KPolicy policy_error)).

Definition LoongKernel_authorize_or_audit_denial (pack : VerticalPackManifest)
    (token : CapabilityToken) (now : Z) (required : gset Capability)
    (request_parameters : option Value) : M K (result unit KernelError) :=
  let! r := zoom lk_policy lk_set_policy (pe_authorize token (vp_pack_id pack) now required) in
  match r with
  | Err policy_error => LoongKernel_audit_denial pack token now policy_error
  | Ok _ =>
      let! chain := gets lk_policy_extensions in
      let! r := zoom lk_world lk_set_world (PolicyExtensionChain_authorize chain {|
                  px_pack := pack;
                  px_token := token;
                  px_now_epoch_s := now;
                  px_required_capabilities := required;
                  px_request_parameters := request_parameters |}) in
      match r with
      | Err policy_error => LoongKernel_audit_denial pack token now policy_error
      | Ok _ => ret (Ok tt)
      end
  end.

Definition LoongKernel_authorize_pack_operation (pack : VerticalPackManifest)
    (token : CapabilityToken) (required : gset Capability) (request_parameters : option Value)
  : M K (result Z KernelError) :=
  run? ret (LoongKernel_assert_pack_grants pack required) in
  let! now := LoongKernel_now in
  run? LoongKernel_authorize_or_audit_denial pack token now required request_parameters in
  ret (Ok now).

(** [core_name.or_else(default_core_adapter_name).unwrap_or("default")] *)
Definition resolved_core_adapter {sig} (p : Plane sig W) (core_name : option string) : string :=
  match core_name with
  | Some name => name
  | None => default "default" (Plane_default_core_adapter_name p)
  end.

(** ** Operations ([&self]) *)

Definition LoongKernel_issue_token (pack_id agent_id : string) (ttl_s : Z)
  : M K (result CapabilityToken KernelError) :=
  let? pack := LoongKernel_get_pack pack_id in
  let! now := LoongKernel_now in
  let? token := try_map_err KPolicy
    (zoom lk_policy lk_set_policy (pe_issue_token pack agent_id now ttl_s)) in
  run? LoongKernel_record now (Some agent_id) (TokenIssued token) in
  ret (Ok token).

(** The clone of a pack that grants a chosen set. *)
Definition scoped_pack (pack : VerticalPackManifest) (allowed : gset Capability)
  : VerticalPackManifest := {|
  vp_pack_id := vp_pack_id pack;
  vp_domain := vp_domain pack;
  vp_version := vp_version pack;
  vp_default_route := vp_default_route pack;
  vp_allowed_connectors := vp_allowed_connectors pack;
  vp_granted_capabilities := allowed;
  vp_metadata := vp_metadata pack;
|}.

Definition LoongKernel_issue_scoped_token (pack_id agent_id : string)
    (allowed_capabilities : gset Capability) (ttl_s : Z)
  : M K (result CapabilityToken KernelError) :=
  let? pack := LoongKernel_get_pack pack_id in
  run? ret (LoongKernel_assert_pack_grants pack allowed_capabilities) in
  let! now := LoongKernel_now in
  let? token := try_map_err KPolicy
    (zoom lk_policy lk_set_policy
       (pe_issue_token (scoped_pack pack allowed_capabilities) agent_id now ttl_s)) in
  run? LoongKernel_record now (Some agent_id) (TokenIssued token) in
  ret (Ok token).

Definition LoongKernel_revoke_token (token_id : string) (actor_agent_id : option string)
  : M K (result unit KernelError) :=
  run? try_map_err KPolicy (zoom lk_policy lk_set_policy (pe_revoke_token token_id)) in
  let! now := LoongKernel_now in
  run? LoongKernel_record now actor_agent_id (TokenRevoked token_id) in
  ret (Ok tt).

Definition LoongKernel_revoke_generation (below : Z) : M K unit :=
  zoom lk_policy lk_set_policy (pe_revoke_generation below).

Definition LoongKernel_record_audit_event (agent_id : option string) (kind : AuditEventKind)
  : M K (result unit KernelError) :=
  let! now := LoongKernel_now in
  run? LoongKernel_record now agent_id kind in
  ret (Ok tt).

Definition LoongKernel_authorize_operation (pack_id : string) (token : CapabilityToken)
    (plane : ExecutionPlane) (tier : PlaneTier) (primary_adapter : string)
    (delegated_core_adapter : option string) (operation : string) (required : gset Capability)
  : M K (result unit KernelError) :=
  let? pack := LoongKernel_get_pack pack_id in
  let? now := LoongKernel_authorize_pack_operation pack token required None in
  run? LoongKernel_record_plane_invocation {|
         pi_timestamp_epoch_s := now;
         pi_agent_id := ct_agent_id token;
         pi_pack_id := vp_pack_id pack;
         pi_plane := plane;
         pi_tier := tier;
         pi_primary_adapter := primary_adapter;
         pi_delegated_core_adapter := delegated_core_adapter;
         pi_operation := operation;
         pi_required_capabilities := required |} in
  ret (Ok tt).

Definition LoongKernel_execute_task (pack_id : string) (token : CapabilityToken)
    (task : TaskIntent) : M K (result KernelDispatch KernelError) :=
  let? pack := LoongKernel_get_pack pack_id in
  let? now := LoongKernel_authorize_pack_operation pack token (ti_required_capabilities task) None in
  let request := {|
    hr_token_id := ct_token_id token;
    hr_pack_id := vp_pack_id pack;
    hr_agent_id := ct_agent_id token;
    hr_task_id := ti_task_id task;
    hr_objective := ti_objective task;
    hr_payload := ti_payload task |} in
  let route := vp_default_route pack in
  let! harness := gets lk_harness in
  let? outcome := try_map_err KHarness
    (zoom lk_world lk_set_world (HarnessBroker_execute harness route request)) in
  run? LoongKernel_record now (Some (ct_agent_id token))
         (TaskDispatched (vp_pack_id pack) (ti_task_id task) route
            (btree_set_iter (ti_required_capabilities task))) in
  ret (Ok {| kd_adapter_route := route; kd_outcome := outcome |}).

Definition LoongKernel_execute_connector_core (pack_id : string) (token : CapabilityToken)
    (core_name : option string) (command : ConnectorCommand)
  : M K (result ConnectorDispatch KernelError) :=
  let? pack := LoongKernel_get_pack pack_id in
  run? ret (LoongKernel_assert_connector_allowed pack (cc_connector_name command)) in
  let? now := LoongKernel_authorize_pack_operation pack token
                (cc_required_capabilities command) None in
  let! plane := gets lk_connector_plane in
  let resolved := resolved_core_adapter plane core_name in
  let? outcome := try_map_err KConnector
    (zoom lk_world lk_set_world (ConnectorPlane_invoke_core ps plane core_name command)) in
  run? LoongKernel_record now (Some (ct_agent_id token))
         (ConnectorInvoked (vp_pack_id pack) (cc_connector_name command) (cc_operation command)
            (btree_set_iter (cc_required_capabilities command))) in
  run? LoongKernel_record_plane_invocation {|
         pi_timestamp_epoch_s := now;
         pi_agent_id := ct_agent_id token;
         pi_pack_id := vp_pack_id pack;
         pi_plane := PlaneConnector;
         pi_tier := TierCore;
         pi_primary_adapter := resolved;
         pi_delegated_core_adapter := None;
         pi_operation := cc_operation command;
         pi_required_capabilities := cc_required_capabilities command |} in
  ret (Ok {| cd_connector_name := cc_connector_name command; cd_outcome := outcome |}).

Definition LoongKernel_execute_connector_extension (pack_id : string) (token : CapabilityToken)
    (extension_name : string) (core_name : option string) (command : ConnectorCommand)
  : M K (result ConnectorDispatch KernelError) :=
  let? pack := LoongKernel_get_pack pack_id in
  run? ret (LoongKernel_assert_connector_allowed pack (cc_connector_name command)) in
  let? now := LoongKernel_authorize_pack_operation pack token
                (cc_required_capabilities command) None in
  let! plane := gets lk_connector_plane in
  let resolved := resolved_core_adapter plane core_name in
  let? outcome := try_map_err KConnector
    (zoom lk_world lk_set_world (ConnectorPlane_invoke_extension ps plane extension_name core_name command)) in
  run? LoongKernel_record now (Some (ct_agent_id token))
         (ConnectorInvoked (vp_pack_id pack) (cc_connector_name command) (cc_operation command)
            (btree_set_iter (cc_required_capabilities command))) in
  run? LoongKernel_record_plane_invocation {|
         pi_timestamp_epoch_s := now;
         pi_agent_id := ct_agent_id token;
         pi_pack_id := vp_pack_id pack;
         pi_plane := PlaneConnector;
         pi_tier := TierExtension;
         pi_primary_adapter := extension_name;
         pi_delegated_core_adapter := Some resolved;
         pi_operation := cc_operation command;
         pi_required_capabilities := cc_required_capabilities command |} in
  ret (Ok {| cd_connector_name := cc_connector_name command; cd_outcome := outcome |}).

Definition LoongKernel_execute_runtime_core (pack_id : string) (token : CapabilityToken)
    (required : gset Capability) (core_name : option string)
    (request : RuntimeCoreRequest) : M K (result RuntimeCoreOutcome KernelError) :=
  let? pack := LoongKernel_get_pack pack_id in
  let? now := LoongKernel_authorize_pack_operation pack token required
                None in
  let! plane := gets lk_runtime_plane in
  let resolved := resolved_core_adapter plane core_name in
  let? outcome := try_map_err KRuntimePlane
    (zoom lk_world lk_set_world (Plane_execute_core plane core_name request)) in
  run? LoongKernel_record_plane_invocation {|
         pi_timestamp_epoch_s := now;
         pi_agent_id := ct_agent_id token;
         pi_pack_id := vp_pack_id pack;
         pi_plane := PlaneRuntime;
         pi_tier := TierCore;
         pi_primary_adapter := resolved;
         pi_delegated_core_adapter := None;
         pi_operation := rcr_action request;
         pi_required_capabilities := required |} in
  ret (Ok outcome).

Definition LoongKernel_execute_runtime_extension (pack_id : string) (token : CapabilityToken)
    (required : gset Capability) (extension_name : string) (core_name : option string)
    (request : RuntimeExtensionRequest) : M K (result RuntimeExtensionOutcome KernelError) :=
  let? pack := LoongKernel_get_pack pack_id in
  let? now := LoongKernel_authorize_pack_operation pack token required
                None in
  let! plane := gets lk_runtime_plane in
  let resolved := resolved_core_adapter plane core_name in
  let? outcome := try_map_err KRuntimePlane
    (zoom lk_world lk_set_world (Plane_execute_extension plane extension_name core_name request)) in
  run? LoongKernel_record_plane_invocation {|
         pi_timestamp_epoch_s := now;
         pi_agent_id := ct_agent_id token;
         pi_pack_id := vp_pack_id pack;
         pi_plane := PlaneRuntime;
         pi_tier := TierExtension;
         pi_primary_adapter := extension_name;
         pi_delegated_core_adapter := Some resolved;
         pi_operation := rer_action request;
         pi_required_capabilities := required |} in
  ret (Ok outcome).

Definition LoongKernel_execute_tool_core (pack_id : string) (token : CapabilityToken)
    (required : gset Capability) (core_name : option string)
    (request : ToolCoreRequest) : M K (result ToolCoreOutcome KernelError) :=
  let? pack := LoongKernel_get_pack pack_id in
  let? now := LoongKernel_authorize_pack_operation pack token required
                (Some (json_object [("tool_name", value_of_str (tcr_tool_name request));
                                    ("payload", tcr_payload request)])) in
  let! plane := gets lk_tool_plane in
  let resolved := resolved_core_adapter plane core_name in
  let? outcome := try_map_err KToolPlane
    (zoom lk_world lk_set_world (Plane_execute_core plane core_name request)) in
  run? LoongKernel_record_plane_invocation {|
         pi_timestamp_epoch_s := now;
         pi_agent_id := ct_agent_id token;
         pi_pack_id := vp_pack_id pack;
         pi_plane := PlaneTool;
         pi_tier := TierCore;
         pi_primary_adapter := resolved;
         pi_delegated_core_adapter := None;
         pi_operation := tcr_tool_name request;
         pi_required_capabilities := required |} in
  ret (Ok outcome).

Definition LoongKernel_execute_tool_extension (pack_id : string) (token : CapabilityToken)
    (required : gset Capability) (extension_name : string) (core_name : option string)
    (request : ToolExtensionRequest) : M K (result ToolExtensionOutcome KernelError) :=
  let? pack := LoongKernel_get_pack pack_id in
  let? now := LoongKernel_authorize_pack_operation pack token required
                (Some (json_object [("tool_name", value_of_str (ter_extension_action request));
                                    ("payload", ter_payload request)])) in
  let! plane := gets lk_tool_plane in
  let resolved := resolved_core_adapter plane core_name in
  let? outcome := try_map_err KToolPlane
    (zoom lk_world lk_set_world (Plane_execute_extension plane extension_name core_name request)) in
  run? LoongKernel_record_plane_invocation {|
         pi_timestamp_epoch_s := now;
         pi_agent_id := ct_agent_id token;
         pi_pack_id := vp_pack_id pack;
         pi_plane := PlaneTool;
         pi_tier := TierExtension;
         pi_primary_adapter := extension_name;
         pi_delegated_core_adapter := Some resolved;
         pi_operation := ter_extension_action request;
         pi_required_capabilities := required |} in
  ret (Ok outcome).

Definition LoongKernel_execute_memory_core (pack_id : string) (token : CapabilityToken)
    (required : gset Capability) (core_name : option string)
    (request : MemoryCoreRequest) : M K (result MemoryCoreOutcome KernelError) :=
  let? pack := LoongKernel_get_pack pack_id in
  let? now := LoongKernel_authorize_pack_operation pack token required
                None in
  let! plane := gets lk_memory_plane in
  let resolved := resolved_core_adapter plane core_name in
  let? outcome := try_map_err KMemoryPlane
    (zoom lk_world lk_set_world (Plane_execute_core plane core_name request)) in
  run? LoongKernel_record_plane_invocation {|
         pi_timestamp_epoch_s := now;
         pi_agent_id := ct_agent_id token;
         pi_pack_id := vp_pack_id pack;
         pi_plane := PlaneMemory;
         pi_tier := TierCore;
         pi_primary_adapter := resolved;
         pi_delegated_core_adapter := None;
         pi_operation := mcr_operation request;
         pi_required_capabilities := required |} in
  ret (Ok outcome).

Definition LoongKernel_execute_memory_extension (pack_id : string) (token : CapabilityToken)
    (required : gset Capability) (extension_name : string) (core_name : option string)
    (request : MemoryExtensionRequest) : M K (result MemoryExtensionOutcome KernelError) :=
  let? pack := LoongKernel_get_pack pack_id in
  let? now := LoongKernel_authorize_pack_operation pack token required
                None in
  let! plane := gets lk_memory_plane in
  let resolved := resolved_core_adapter plane core_name in
  let? outcome := try_map_err KMemoryPlane
    (zoom lk_world lk_set_world (Plane_execute_extension plane extension_name core_name request)) in
  run? LoongKernel_record_plane_invocation {|
         pi_timestamp_epoch_s := now;
         pi_agent_id := ct_agent_id token;
         pi_pack_id := vp_pack_id pack;
         pi_plane := PlaneMemory;
         pi_tier := TierExtension;
         pi_primary_adapter := extension_name;
         pi_delegated_core_adapter := Some resolved;
         pi_operation := mer_operation request;
         pi_required_capabilities := required |} in
  ret (Ok outcome).

End kernel.
