(* ===== verification/KernelGate.v ===== *)
(** * The kernel's gate

    The ten operations of [kernel.rs] that act under a capability token are
    written out one by one in [Kernel].  Here they are one type, [KernelOp], and
    one specification, [gated]: find the pack, check the connector, check the
    pack's grants, read the clock, ask the policy engine, ask the extensions,
    and only then call the adapter and audit the call.  [run_op_gated] shows
    that the written-out functions are this; complete mediation and the
    behaviour of every denial follow from it. *)

From S2P Require Import Prelude RustStr Contracts Policy Planes AuditSinks Kernel.

Section gate.
Context {J : SerdeJson} {V : Semver} {P A C W : Type}.
Context `{!PolicyEngine P, !AuditSink A, !Clock C}.
Variable ps : PanicStrategy.

Local Abbreviation K := (LoongKernel P A C W).

(** ** The operations under a token *)

Inductive KernelOp : Type :=
| OpTask (pack_id : string) (token : CapabilityToken) (task : TaskIntent)
| OpConnectorCore (pack_id : string) (token : CapabilityToken) (core : option string)
    (command : ConnectorCommand)
| OpConnectorExtension (pack_id : string) (token : CapabilityToken) (extension : string)
    (core : option string) (command : ConnectorCommand)
| OpRuntimeCore (pack_id : string) (token : CapabilityToken) (required : gset Capability)
    (core : option string) (request : RuntimeCoreRequest)
| OpRuntimeExtension (pack_id : string) (token : CapabilityToken) (required : gset Capability)
    (extension : string) (core : option string) (request : RuntimeExtensionRequest)
| OpToolCore (pack_id : string) (token : CapabilityToken) (required : gset Capability)
    (core : option string) (request : ToolCoreRequest)
| OpToolExtension (pack_id : string) (token : CapabilityToken) (required : gset Capability)
    (extension : string) (core : option string) (request : ToolExtensionRequest)
| OpMemoryCore (pack_id : string) (token : CapabilityToken) (required : gset Capability)
    (core : option string) (request : MemoryCoreRequest)
| OpMemoryExtension (pack_id : string) (token : CapabilityToken) (required : gset Capability)
    (extension : string) (core : option string) (request : MemoryExtensionRequest)
| OpAuthorize (pack_id : string) (token : CapabilityToken) (plane : ExecutionPlane)
    (tier : PlaneTier) (primary : string) (delegated : option string) (operation : string)
    (required : gset Capability).

Inductive KernelOutcome : Type :=
| OutDispatch (d : KernelDispatch)
| OutConnector (d : ConnectorDispatch)
| OutRuntimeCore (o : RuntimeCoreOutcome)
| OutRuntimeExtension (o : RuntimeExtensionOutcome)
| OutToolCore (o : ToolCoreOutcome)
| OutToolExtension (o : ToolExtensionOutcome)
| OutMemoryCore (o : MemoryCoreOutcome)
| OutMemoryExtension (o : MemoryExtensionOutcome)
| OutAuthorized.

Definition try_map {S X Y E} (f : X -> Y) (m : M S (result X E)) : M S (result Y E) :=
  let? x := m in ret (Ok (f x)).

(** The operation the kernel runs. *)
Definition run_op (op : KernelOp) : M K (result KernelOutcome KernelError) :=
  match op with
  | OpTask p t task => try_map OutDispatch (LoongKernel_execute_task p t task)
  | OpConnectorCore p t c cmd =>
      try_map OutConnector (LoongKernel_execute_connector_core ps p t c cmd)
  | OpConnectorExtension p t x c cmd =>
      try_map OutConnector (LoongKernel_execute_connector_extension ps p t x c cmd)
  | OpRuntimeCore p t r c q => try_map OutRuntimeCore (LoongKernel_execute_runtime_core p t r c q)
  | OpRuntimeExtension p t r x c q =>
      try_map OutRuntimeExtension (LoongKernel_execute_runtime_extension p t r x c q)
  | OpToolCore p t r c q => try_map OutToolCore (LoongKernel_execute_tool_core p t r c q)
  | OpToolExtension p t r x c q =>
      try_map OutToolExtension (LoongKernel_execute_tool_extension p t r x c q)
  | OpMemoryCore p t r c q => try_map OutMemoryCore (LoongKernel_execute_memory_core p t r c q)
  | OpMemoryExtension p t r x c q =>
      try_map OutMemoryExtension (LoongKernel_execute_memory_extension p t r x c q)
  | OpAuthorize p t pl ti pr de o r =>
      try_map (fun _ => OutAuthorized) (LoongKernel_authorize_operation p t pl ti pr de o r)
  end.

(** ** The specification *)

Definition op_pack_id (op : KernelOp) : string :=
  match op with
  | OpTask p _ _ | OpConnectorCore p _ _ _ | OpConnectorExtension p _ _ _ _
  | OpRuntimeCore p _ _ _ _ | OpRuntimeExtension p _ _ _ _ _ | OpToolCore p _ _ _ _
  | OpToolExtension p _ _ _ _ _ | OpMemoryCore p _ _ _ _ | OpMemoryExtension p _ _ _ _ _
  | OpAuthorize p _ _ _ _ _ _ _ => p
  end.

Definition op_token (op : KernelOp) : CapabilityToken :=
  match op with
  | OpTask _ t _ | OpConnectorCore _ t _ _ | OpConnectorExtension _ t _ _ _
  | OpRuntimeCore _ t _ _ _ | OpRuntimeExtension _ t _ _ _ _ | OpToolCore _ t _ _ _
  | OpToolExtension _ t _ _ _ _ | OpMemoryCore _ t _ _ _ | OpMemoryExtension _ t _ _ _ _
  | OpAuthorize _ t _ _ _ _ _ _ => t
  end.

Definition op_required (op : KernelOp) : gset Capability :=
  match op with
  | OpTask _ _ task => ti_required_capabilities task
  | OpConnectorCore _ _ _ cmd | OpConnectorExtension _ _ _ _ cmd => cc_required_capabilities cmd
  | OpRuntimeCore _ _ r _ _ | OpRuntimeExtension _ _ r _ _ _ | OpToolCore _ _ r _ _
  | OpToolExtension _ _ r _ _ _ | OpMemoryCore _ _ r _ _ | OpMemoryExtension _ _ r _ _ _
  | OpAuthorize _ _ _ _ _ _ _ r => r
  end.

(** The connector an operation names. *)
Definition op_connector (op : KernelOp) : option string :=
  match op with
  | OpConnectorCore _ _ _ cmd | OpConnectorExtension _ _ _ _ cmd => Some (cc_connector_name cmd)
  | _ => None
  end.

(** What the policy extensions see of the request. *)
Definition op_parameters (op : KernelOp) : option Value :=
  match op with
  | OpToolCore _ _ _ _ q =>
      Some (json_object [("tool_name", value_of_str (tcr_tool_name q));
                         ("payload", tcr_payload q)])
  | OpToolExtension _ _ _ _ _ q =>
      Some (json_object [("tool_name", value_of_str (ter_extension_action q));
                         ("payload", ter_payload q)])
  | _ => None
  end.

(** The adapter call. *)
Definition op_call (op : KernelOp) (pack : VerticalPackManifest) (k : K)
  : M W (result KernelOutcome KernelError) :=
  match op with
  | OpTask _ t task =>
      try_map (fun o => OutDispatch {| kd_adapter_route := vp_default_route pack; kd_outcome := o |})
        (try_map_err KHarness (HarnessBroker_execute (lk_harness k) (vp_default_route pack) {|
           hr_token_id := ct_token_id t; hr_pack_id := vp_pack_id pack;
           hr_agent_id := ct_agent_id t; hr_task_id := ti_task_id task;
           hr_objective := ti_objective task; hr_payload := ti_payload task |}))
  | OpConnectorCore _ _ c cmd =>
      try_map (fun o => OutConnector {| cd_connector_name := cc_connector_name cmd; cd_outcome := o |})
        (try_map_err KConnector (ConnectorPlane_invoke_core ps (lk_connector_plane k) c cmd))
  | OpConnectorExtension _ _ x c cmd =>
      try_map (fun o => OutConnector {| cd_connector_name := cc_connector_name cmd; cd_outcome := o |})
        (try_map_err KConnector (ConnectorPlane_invoke_extension ps (lk_connector_plane k) x c cmd))
  | OpRuntimeCore _ _ _ c q =>
      try_map OutRuntimeCore (try_map_err KRuntimePlane (Plane_execute_core (lk_runtime_plane k) c q))
  | OpRuntimeExtension _ _ _ x c q =>
      try_map OutRuntimeExtension
        (try_map_err KRuntimePlane (Plane_execute_extension (lk_runtime_plane k) x c q))
  | OpToolCore _ _ _ c q =>
      try_map OutToolCore (try_map_err KToolPlane (Plane_execute_core (lk_tool_plane k) c q))
  | OpToolExtension _ _ _ x c q =>
      try_map OutToolExtension
        (try_map_err KToolPlane (Plane_execute_extension (lk_tool_plane k) x c q))
  | OpMemoryCore _ _ _ c q =>
      try_map OutMemoryCore (try_map_err KMemoryPlane (Plane_execute_core (lk_memory_plane k) c q))
  | OpMemoryExtension _ _ _ x c q =>
      try_map OutMemoryExtension
        (try_map_err KMemoryPlane (Plane_execute_extension (lk_memory_plane k) x c q))
  | OpAuthorize _ _ _ _ _ _ _ _ => ret (Ok OutAuthorized)
  end.

(** What is audited when the call succeeds. *)
Definition op_kinds (op : KernelOp) (pack : VerticalPackManifest) (k : K) : list AuditEventKind :=
  let pid := vp_pack_id pack in
  let req := btree_set_iter (op_required op) in
  match op with
  | OpTask _ _ task => [TaskDispatched pid (ti_task_id task) (vp_default_route pack) req]
  | OpConnectorCore _ _ c cmd =>
      [ConnectorInvoked pid (cc_connector_name cmd) (cc_operation cmd) req;
       PlaneInvoked pid PlaneConnector TierCore (resolved_core_adapter (lk_connector_plane k) c)
         None (cc_operation cmd) req]
  | OpConnectorExtension _ _ x c cmd =>
      [ConnectorInvoked pid (cc_connector_name cmd) (cc_operation cmd) req;
       PlaneInvoked pid PlaneConnector TierExtension x
         (Some (resolved_core_adapter (lk_connector_plane k) c)) (cc_operation cmd) req]
  | OpRuntimeCore _ _ _ c q =>
      [PlaneInvoked pid PlaneRuntime TierCore (resolved_core_adapter (lk_runtime_plane k) c) None
         (rcr_action q) req]
  | OpRuntimeExtension _ _ _ x c q =>
      [PlaneInvoked pid PlaneRuntime TierExtension x
         (Some (resolved_core_adapter (lk_runtime_plane k) c)) (rer_action q) req]
  | OpToolCore _ _ _ c q =>
      [PlaneInvoked pid PlaneTool TierCore (resolved_core_adapter (lk_tool_plane k) c) None
         (tcr_tool_name q) req]
  | OpToolExtension _ _ _ x c q =>
      [PlaneInvoked pid PlaneTool TierExtension x
         (Some (resolved_core_adapter (lk_tool_plane k) c)) (ter_extension_action q) req]
  | OpMemoryCore _ _ _ c q =>
      [PlaneInvoked pid PlaneMemory TierCore (resolved_core_adapter (lk_memory_plane k) c) None
         (mcr_operation q) req]
  | OpMemoryExtension _ _ _ x c q =>
      [PlaneInvoked pid PlaneMemory TierExtension x
         (Some (resolved_core_adapter (lk_memory_plane k) c)) (mer_operation q) req]
  | OpAuthorize _ _ pl ti pr de o _ => [PlaneInvoked pid pl ti pr de o req]
  end.

Fixpoint record_kinds (now : Z) (agent : option string) (kinds : list AuditEventKind)
  : M K (result unit KernelError) :=
  match kinds with
  | [] => ret (Ok tt)
  | kind :: kinds => run? LoongKernel_record now agent kind in record_kinds now agent kinds
  end.

(** Past the gate: the adapter, then the audit events. *)
Definition op_body (op : KernelOp) (pack : VerticalPackManifest) (now : Z)
  : M K (result KernelOutcome KernelError) :=
  let! k := get in
  let? out := zoom lk_world lk_set_world (op_call op pack k) in
  run? record_kinds now (Some (ct_agent_id (op_token op))) (op_kinds op pack k) in
  ret (Ok out).

Definition connector_check (op : KernelOp) (pack : VerticalPackManifest)
  : result unit KernelError :=
  match op_connector op with
  | Some n => LoongKernel_assert_connector_allowed pack n
  | None => Ok tt
  end.

Definition gated (op : KernelOp) : M K (result KernelOutcome KernelError) :=
  let? pack := LoongKernel_get_pack (op_pack_id op) in
  run? ret (connector_check op pack) in
  let? now := LoongKernel_authorize_pack_operation pack (op_token op) (op_required op)
                (op_parameters op) in
  op_body op pack now.

(** ** The operations meet the specification *)

Lemma try_bind_ext {S X Y E} (m : M S (result X E)) (f g : X -> M S (result Y E)) s :
  (forall x s', m s = (Returned (Ok x), s') -> f x s' = g x s') ->
  try_bind m f s = try_bind m g s.
Proof. unfold try_bind, bind. destruct (m s) as [[[x|e]|p] s'] eqn:E'; auto. Qed.

Lemma try_bind_assoc {S X Y Z E} (m : M S (result X E)) (f : X -> M S (result Y E))
    (g : Y -> M S (result Z E)) s :
  try_bind (try_bind m f) g s = try_bind m (fun x => try_bind (f x) g) s.
Proof. unfold try_bind, bind, ret. by destruct (m s) as [[[x|e]|p] s']. Qed.

Lemma lk_set_world_id (k : K) : lk_set_world (lk_world k) k = k.
Proof. by destruct k. Qed.

Lemma record_plane_invocation_run r k :
  LoongKernel_record_plane_invocation r k =
  LoongKernel_record (pi_timestamp_epoch_s r) (Some (pi_agent_id r))
    (PlaneInvoked (pi_pack_id r) (pi_plane r) (pi_tier r) (pi_primary_adapter r)
       (pi_delegated_core_adapter r) (pi_operation r)
       (btree_set_iter (pi_required_capabilities r))) (k : K).
Proof.
  unfold LoongKernel_record_plane_invocation, try_bind, bind, ret.
  by destruct (LoongKernel_record _ _ _ k) as [[[[]|]|] ?].
Qed.

(** Both sides of an equation between two straight-line computations: split on
    each call they make in common. *)
Ltac straight_line :=
  unfold try_map, try_map_err, try_bind, bind, zoom, gets, get, ret; simpl; rewrite ?lk_set_world_id;
  repeat (match goal with
  | |- context [LoongKernel_record_plane_invocation _ _] =>
      rewrite !record_plane_invocation_run
  | |- context [LoongKernel_record ?a ?b ?c ?d] =>
      destruct (LoongKernel_record a b c d) as [[[]|] ?]
  | |- context [HarnessBroker_execute ?a ?b ?c ?d] =>
      destruct (HarnessBroker_execute a b c d) as [[[]|] ?]
  | |- context [ConnectorPlane_invoke_core ?a ?b ?c ?d ?e] =>
      destruct (ConnectorPlane_invoke_core a b c d e) as [[[]|] ?]
  | |- context [ConnectorPlane_invoke_extension ?a ?b ?c ?d ?e ?f] =>
      destruct (ConnectorPlane_invoke_extension a b c d e f) as [[[]|] ?]
  | |- context [Plane_execute_core ?a ?b ?c ?d] =>
      destruct (Plane_execute_core a b c d) as [[[]|] ?]
  | |- context [Plane_execute_extension ?a ?b ?c ?d ?e] =>
      destruct (Plane_execute_extension a b c d e) as [[[]|] ?]
  end; simpl); try reflexivity.

Lemma run_op_gate (op : KernelOp) (k : K) : run_op op k = gated op k.
Proof.
  unfold gated. destruct op; simpl;
    unfold LoongKernel_execute_task, LoongKernel_execute_connector_core,
      LoongKernel_execute_connector_extension, LoongKernel_execute_runtime_core,
      LoongKernel_execute_runtime_extension, LoongKernel_execute_tool_core,
      LoongKernel_execute_tool_extension, LoongKernel_execute_memory_core,
      LoongKernel_execute_memory_extension, LoongKernel_authorize_operation,
      try_map, op_body, connector_check; simpl;
    (rewrite try_bind_assoc; apply try_bind_ext; intros pack k1 _);
    try (rewrite try_bind_assoc; apply try_bind_ext; intros [] k2 _);
    try (change (try_bind (ret (Ok tt)) ?f ?s) with (f tt s));
    (rewrite try_bind_assoc; apply try_bind_ext; intros now k3 _).
  all: straight_line.
Qed.

(** Each of the ten operations that act under a token, as
    written out in the source, is the same gate around its own adapter call and
    audit events: pack, connector, grants, clock, policy, extensions, adapter,
    audit, in this order, each failure leaving at its step. *)
Theorem run_op_gated (op : KernelOp) (k : K) : run_op op k = gated op k.
Proof. apply run_op_gate. Qed.

(** ** The steps of the gate *)

Lemma assert_pack_grants_spec pack req :
  match LoongKernel_assert_pack_grants pack req with
  | Ok _ => req ⊆ vp_granted_capabilities pack
  | Err e => exists c, e = PackCapabilityBoundary (vp_pack_id pack) c /\
      c ∈ req /\ c ∉ vp_granted_capabilities pack /\
      forall d, d ∈ req -> d ∉ vp_granted_capabilities pack -> rust_le c d
  end.
Proof.
  unfold LoongKernel_assert_pack_grants, VerticalPackManifest_grants.
  destruct (find_first _ _) as [c|] eqn:E.
  - apply find_first_btree_min in E as (Hc & Hn & Hmin). exists c.
    rewrite negb_true_iff, bool_decide_eq_false in Hn. split_and!; [done..|].
    intros d Hd Hnd. apply Hmin; [done|]. by rewrite bool_decide_eq_false_2.
  - by apply missing_capability_None.
Qed.

Lemma assert_pack_grants_ok pack req :
  req ⊆ vp_granted_capabilities pack -> LoongKernel_assert_pack_grants pack req = Ok tt.
Proof.
  intros Hreq. pose proof (assert_pack_grants_spec pack req) as H.
  destruct (LoongKernel_assert_pack_grants pack req) as [[]|e]; [done|]. set_solver.
Qed.

Lemma connector_check_ok op pack :
  connector_check op pack = Ok tt <->
  forall n, op_connector op = Some n -> n ∈ vp_allowed_connectors pack.
Proof.
  unfold connector_check, LoongKernel_assert_connector_allowed.
  destruct (op_connector op) as [n|]; [|done].
  destruct (VerticalPackManifest_allows_connector pack n) eqn:E; simpl.
  - split; [|done]. intros _ m [= ->]. by apply allows_connector_spec.
  - split; [done|]. intros H. specialize (H n eq_refl). apply allows_connector_spec in H.
    congruence.
Qed.

(** The event [new_event] makes in a state, and the state after recording it. *)
Definition event_at (k : K) (now : Z) (agent : option string) (kind : AuditEventKind)
  : AuditEvent := {|
  ae_event_id := event_id_of_seq (u64_wrapping_add (lk_event_seq k) 1);
  ae_timestamp_epoch_s := now; ae_agent_id := agent; ae_kind := kind |}.

Definition after_record (k : K) (ev : AuditEvent) : K :=
  lk_set_audit (as_record ev (lk_audit k)).2
    (lk_set_event_seq (u64_wrapping_add (lk_event_seq k) 1) k).

Lemma record_run now agent kind (k : K) :
  LoongKernel_record now agent kind k =
  (match (as_record (event_at k now agent kind) (lk_audit k)).1 with
   | Returned r => Returned (map_err KAudit r)
   | Panicked p => Panicked p
   end, after_record k (event_at k now agent kind)).
Proof.
  unfold after_record, LoongKernel_record, LoongKernel_new_event, try_map_err, bind, gets,
    modify, ret, zoom. simpl.
  by destruct (as_record _ _) as [[r|p] a'].
Qed.

Definition op_context (op : KernelOp) (pack : VerticalPackManifest) (now : Z)
  : PolicyExtensionContext := {|
  px_pack := pack; px_token := op_token op; px_now_epoch_s := now;
  px_required_capabilities := op_required op; px_request_parameters := op_parameters op |}.

(** The gate up to the adapter: what each check answers, and the state the
    checks leave. *)
Lemma authorize_ok op pack (k : K) now k' :
  LoongKernel_authorize_pack_operation pack (op_token op) (op_required op) (op_parameters op) k
    = (Returned (Ok now), k') ->
  op_required op ⊆ vp_granted_capabilities pack /\ exists c' p' w',
  now_epoch_s (lk_clock k) = (Returned now, c') /\
  pe_authorize (op_token op) (vp_pack_id pack) now (op_required op) (lk_policy k)
    = (Returned (Ok tt), p') /\
  PolicyExtensionChain_authorize (lk_policy_extensions k) (op_context op pack now) (lk_world k)
    = (Returned (Ok tt), w') /\
  k' = lk_set_world w' (lk_set_policy p' (lk_set_clock c' k)).
Proof.
  unfold LoongKernel_authorize_pack_operation, LoongKernel_now, try_bind, bind, ret, zoom.
  pose proof (assert_pack_grants_spec pack (op_required op)) as Hg.
  destruct (LoongKernel_assert_pack_grants _ _) as [u|]; [|done].
  destruct (now_epoch_s (lk_clock k)) as [[t|] c'] eqn:Hc; simpl; [|done].
  unfold LoongKernel_authorize_or_audit_denial, bind, zoom, gets. simpl.
  destruct (pe_authorize _ _ _ _ _) as [[[[]|e]|] p'] eqn:Hp; simpl; [| |done].
  - destruct (PolicyExtensionChain_authorize _ _ _) as [[[[]|e]|] w'] eqn:Hx; simpl; [| |done].
    + intros [= <- <-]. split; [done|]. by exists c', p', w'.
    + unfold LoongKernel_audit_denial, try_bind, bind, ret. rewrite record_run.
      by destruct (as_record _ _).1 as [[]|].
  - unfold LoongKernel_audit_denial, try_bind, bind, ret. rewrite record_run.
    by destruct (as_record _ _).1 as [[]|].
Qed.

(** The registries the operations read. *)
Lemma op_call_effects op pack (k : K) c p w :
  op_call op pack (lk_set_world w (lk_set_policy p (lk_set_clock c k))) = op_call op pack k.
Proof. by destruct op. Qed.

Lemma op_kinds_effects op pack (k : K) c p w :
  op_kinds op pack (lk_set_world w (lk_set_policy p (lk_set_clock c k))) = op_kinds op pack k.
Proof. by destruct op. Qed.

Lemma gated_run op (k : K) pack :
  lk_packs k !! op_pack_id op = Some pack -> connector_check op pack = Ok tt ->
  gated op k =
  try_bind (LoongKernel_authorize_pack_operation pack (op_token op) (op_required op)
              (op_parameters op)) (op_body op pack) k.
Proof.
  intros Hp Hc. unfold gated, LoongKernel_get_pack, try_bind at 1, bind, gets.
  rewrite Hp. simpl. by rewrite Hc.
Qed.

(** The check that denied, with the environment it left. *)
Definition denied_by (op : KernelOp) (pack : VerticalPackManifest) (now : Z) (k : K)
    (e : PolicyError) (p' : P) (w' : W) : Prop :=
  (pe_authorize (op_token op) (vp_pack_id pack) now (op_required op) (lk_policy k)
     = (Returned (Err e), p') /\ w' = lk_world k) \/
  (pe_authorize (op_token op) (vp_pack_id pack) now (op_required op) (lk_policy k)
     = (Returned (Ok tt), p') /\
   PolicyExtensionChain_authorize (lk_policy_extensions k) (op_context op pack now) (lk_world k)
     = (Returned (Err e), w')).

(** ** Denials *)

(** An operation for an unknown pack,
    on a connector outside the pack's list, or requiring a capability the pack
    does not grant is refused with that error (the least such capability), and
    the kernel is exactly as before: nothing ran, and nothing was audited. *)
Theorem boundary_denials (op : KernelOp) (k : K) :
  match lk_packs k !! op_pack_id op with
  | None => run_op op k = (Returned (Err (PackNotFound (op_pack_id op))), k)
  | Some pack =>
      (forall n, op_connector op = Some n -> n ∉ vp_allowed_connectors pack ->
         run_op op k = (Returned (Err (ConnectorNotAllowed n (vp_pack_id pack))), k)) /\
      ((forall n, op_connector op = Some n -> n ∈ vp_allowed_connectors pack) ->
       ~ op_required op ⊆ vp_granted_capabilities pack ->
       exists c, c ∈ op_required op /\ c ∉ vp_granted_capabilities pack /\
         (forall d, d ∈ op_required op -> d ∉ vp_granted_capabilities pack -> rust_le c d) /\
         run_op op k = (Returned (Err (PackCapabilityBoundary (vp_pack_id pack) c)), k))
  end.
Proof.
  rewrite run_op_gate. destruct (lk_packs k !! op_pack_id op) as [pack|] eqn:Hp.
  2:{ unfold gated, LoongKernel_get_pack, try_bind, bind, gets. by rewrite Hp. }
  split.
  - intros n Hn Hnot. unfold gated, LoongKernel_get_pack, try_bind, bind, gets, ret. rewrite Hp.
    simpl. unfold connector_check, LoongKernel_assert_connector_allowed. rewrite Hn.
    destruct (VerticalPackManifest_allows_connector pack n) eqn:E; [|done].
    by apply allows_connector_spec in E.
  - intros Hc%connector_check_ok Hreq. rewrite (gated_run _ _ _ Hp Hc).
    unfold LoongKernel_authorize_pack_operation, try_bind, bind, ret.
    pose proof (assert_pack_grants_spec pack (op_required op)) as Hg.
    destruct (LoongKernel_assert_pack_grants _ _) as [u|]; [done|].
    destruct Hg as (c & -> & Hin & Hnot & Hmin). by exists c.
Qed.

(** C4 (error). When the policy engine, or after it an extension,
    denies an operation, no adapter runs: the environment is as the extensions
    left it (as it was, if the engine denied).  The denial is recorded, with the
    pack, the token, the agent, the time and the reason; the caller gets the
    policy error if the sink took the event and the sink's error if not. *)
Theorem policy_denials (op : KernelOp) (k : K) pack now c' e p' w' :
  lk_packs k !! op_pack_id op = Some pack ->
  (forall n, op_connector op = Some n -> n ∈ vp_allowed_connectors pack) ->
  op_required op ⊆ vp_granted_capabilities pack ->
  now_epoch_s (lk_clock k) = (Returned now, c') ->
  denied_by op pack now k e p' w' ->
  let k1 := lk_set_world w' (lk_set_policy p' (lk_set_clock c' k)) in
  let ev := event_at k1 now (Some (ct_agent_id (op_token op)))
              (AuthorizationDenied (vp_pack_id pack) (ct_token_id (op_token op))
                 (PolicyError_to_string e)) in
  run_op op k =
  (match (as_record ev (lk_audit k)).1 with
   | Returned (Ok _) => Returned (Err (KPolicy e))
   | Returned (Err a) => Returned (Err (KAudit a))
   | Panicked p => Panicked p
   end, after_record k1 ev).
Proof.
  intros Hp Hc%connector_check_ok Hreq Hnow Hd k1 ev.
  rewrite run_op_gate, (gated_run _ _ _ Hp Hc).
  unfold LoongKernel_authorize_pack_operation, LoongKernel_now, try_bind, bind, ret, zoom.
  rewrite assert_pack_grants_ok, Hnow by done. simpl.
  unfold LoongKernel_authorize_or_audit_denial, bind, zoom, gets. simpl.
  destruct Hd as [[Hpe ->]|[Hpe Hx]]; rewrite Hpe; simpl.
  - unfold LoongKernel_audit_denial, try_bind, bind, ret. rewrite record_run.
    change (lk_set_policy p' (lk_set_clock c' k)) with k1.
    by destruct (as_record _ _).1 as [[]|].
  - unfold op_context in Hx. rewrite Hx.
    unfold LoongKernel_audit_denial, try_bind, bind, ret. rewrite record_run.
    by destruct (as_record _ _).1 as [[]|].
Qed.

(** Past the gate, with the checks' answers as hypotheses. *)
Lemma run_op_passed op (k : K) pack now c' p' w1 :
  lk_packs k !! op_pack_id op = Some pack -> connector_check op pack = Ok tt ->
  op_required op ⊆ vp_granted_capabilities pack ->
  now_epoch_s (lk_clock k) = (Returned now, c') ->
  pe_authorize (op_token op) (vp_pack_id pack) now (op_required op) (lk_policy k)
    = (Returned (Ok tt), p') ->
  PolicyExtensionChain_authorize (lk_policy_extensions k) (op_context op pack now) (lk_world k)
    = (Returned (Ok tt), w1) ->
  run_op op k = op_body op pack now (lk_set_world w1 (lk_set_policy p' (lk_set_clock c' k))).
Proof.
  intros Hp Hc Hreq Hnow Hpe Hx. rewrite run_op_gate, (gated_run _ _ _ Hp Hc).
  unfold LoongKernel_authorize_pack_operation, LoongKernel_now, try_bind, bind, ret, zoom.
  rewrite assert_pack_grants_ok, Hnow by done. simpl.
  unfold LoongKernel_authorize_or_audit_denial, bind, zoom, gets. simpl. rewrite Hpe. simpl.
  unfold op_context in Hx. by rewrite Hx.
Qed.

(** An adapter that fails after the gate let it run keeps
    its effects on the environment, the caller gets its error, and no audit
    event is made: the sink and the event counter are as before. *)
Theorem failed_call_unaudited (op : KernelOp) (k : K) pack now c' p' w1 w2 e :
  lk_packs k !! op_pack_id op = Some pack ->
  (forall n, op_connector op = Some n -> n ∈ vp_allowed_connectors pack) ->
  op_required op ⊆ vp_granted_capabilities pack ->
  now_epoch_s (lk_clock k) = (Returned now, c') ->
  pe_authorize (op_token op) (vp_pack_id pack) now (op_required op) (lk_policy k)
    = (Returned (Ok tt), p') ->
  PolicyExtensionChain_authorize (lk_policy_extensions k) (op_context op pack now) (lk_world k)
    = (Returned (Ok tt), w1) ->
  op_call op pack k w1 = (Returned (Err e), w2) ->
  exists k', run_op op k = (Returned (Err e), k') /\ lk_world k' = w2 /\
    lk_audit k' = lk_audit k /\ lk_event_seq k' = lk_event_seq k.
Proof.
  intros Hp Hc%connector_check_ok Hreq Hnow Hpe Hx Hcall.
  rewrite (run_op_passed _ _ _ _ _ _ _ Hp Hc Hreq Hnow Hpe Hx).
  unfold op_body, bind, get, try_bind, bind, zoom. rewrite op_call_effects. simpl.
  rewrite Hcall. by eexists.
Qed.

(** ** The audited adapter *)

Lemma resolved_core_adapter_resolves {sig} (pl : Plane sig W) core n a :
  Plane_resolve_core pl core = Ok (n, a) -> resolved_core_adapter pl core = n.
Proof.
  unfold Plane_resolve_core, resolved_core_adapter, Plane_default_core_adapter_name, ok_or.
  destruct core as [m|]; [|destruct (pl_default_core_adapter pl) as [m|]; [|done]]; simpl;
    by destruct (pl_core_adapters pl !! m); intros [= <- <-].
Qed.

(** The core adapter an operation resolves to: the name it is registered
    under, and its own name. *)
Definition resolve_names {sig} (pl : Plane sig W) (core : option string)
  : option (string * string) :=
  match Plane_resolve_core pl core with
  | Ok (n, a) => Some (n, ca_name a)
  | Err _ => None
  end.

Definition op_resolved (op : KernelOp) (k : K) : option (string * string) :=
  match op with
  | OpConnectorCore _ _ c _ | OpConnectorExtension _ _ _ c _ =>
      resolve_names (lk_connector_plane k) c
  | OpRuntimeCore _ _ _ c _ | OpRuntimeExtension _ _ _ _ c _ =>
      resolve_names (lk_runtime_plane k) c
  | OpToolCore _ _ _ c _ | OpToolExtension _ _ _ _ c _ => resolve_names (lk_tool_plane k) c
  | OpMemoryCore _ _ _ c _ | OpMemoryExtension _ _ _ _ c _ =>
      resolve_names (lk_memory_plane k) c
  | OpTask _ _ _ | OpAuthorize _ _ _ _ _ _ _ _ => None
  end.

Definition op_on_plane (op : KernelOp) : bool :=
  match op with OpTask _ _ _ | OpAuthorize _ _ _ _ _ _ _ _ => false | _ => true end.

(** The core adapter an audit event names: the delegated one, or the primary. *)
Definition kind_core_adapter (kind : AuditEventKind) : option string :=
  match kind with
  | PlaneInvoked _ _ TierCore primary _ _ _ => Some primary
  | PlaneInvoked _ _ TierExtension _ delegated _ _ => delegated
  | _ => None
  end.

Definition planes_wf (k : K) : Prop :=
  plane_wf (lk_connector_plane k) /\ plane_wf (lk_runtime_plane k) /\
  plane_wf (lk_tool_plane k) /\ plane_wf (lk_memory_plane k).

Lemma plane_execute_core_resolved {sig} (pl : Plane sig W) c q w o w' :
  Plane_execute_core pl c q w = (Returned (Ok o), w') -> is_Some (resolve_names pl c).
Proof.
  unfold Plane_execute_core, resolve_names.
  destruct (Plane_resolve_core pl c) as [[n a]|]; [by eexists|done].
Qed.

Lemma plane_execute_extension_resolved {sig} (pl : Plane sig W) x c q w o w' :
  Plane_execute_extension pl x c q w = (Returned (Ok o), w') -> is_Some (resolve_names pl c).
Proof.
  unfold Plane_execute_extension, resolve_names. destruct (ok_or _ _) as [ext|]; [|done].
  destruct (Plane_resolve_core pl c) as [[n a]|]; [by eexists|done].
Qed.

Lemma connector_core_resolved (pl : ConnectorPlane W) c q w o w' :
  ConnectorPlane_invoke_core ps pl c q w = (Returned (Ok o), w') -> is_Some (resolve_names pl c).
Proof.
  unfold ConnectorPlane_invoke_core, resolve_names.
  destruct (Plane_resolve_core pl c) as [[n a]|]; [by eexists|done].
Qed.

Lemma connector_extension_resolved (pl : ConnectorPlane W) x c q w o w' :
  ConnectorPlane_invoke_extension ps pl x c q w = (Returned (Ok o), w') ->
  is_Some (resolve_names pl c).
Proof.
  unfold ConnectorPlane_invoke_extension, resolve_names. destruct (ok_or _ _) as [ext|]; [|done].
  destruct (Plane_resolve_core pl c) as [[n a]|]; [by eexists|done].
Qed.

Lemma resolve_names_wf {sig} (pl : Plane sig W) c n m :
  plane_wf pl -> resolve_names pl c = Some (n, m) -> m = n /\ resolved_core_adapter pl c = n.
Proof.
  unfold resolve_names. intros Hwf.
  destruct (Plane_resolve_core pl c) as [[n' a]|] eqn:E; [|done]. intros [= <- <-].
  pose proof (resolved_core_adapter_resolves _ _ _ _ E) as Hr.
  apply resolve_core_ok in E as [E _]. by apply (pw_core _ Hwf) in E.
Qed.

Lemma try_map_ok {S X Y E} (f : X -> Y) (m : M S (result X E)) s y s' :
  try_map f m s = (Returned (Ok y), s') ->
  exists x, m s = (Returned (Ok x), s') /\ y = f x.
Proof. unfold try_map. intros H. rust_inv. eauto. Qed.

Lemma op_call_resolved op pack (k : K) w out w' :
  op_on_plane op = true -> op_call op pack k w = (Returned (Ok out), w') ->
  is_Some (op_resolved op k).
Proof.
  destruct op; simpl; try done; intros _ (x & H & ->)%try_map_ok; apply try_map_err_ok in H;
    eauto using plane_execute_core_resolved, plane_execute_extension_resolved,
      connector_core_resolved, connector_extension_resolved.
Qed.

Lemma op_kinds_resolved op pack (k : K) n m :
  planes_wf k -> op_resolved op k = Some (n, m) ->
  m = n /\ exists kind, last (op_kinds op pack k) = Some kind /\
    kind_core_adapter kind = Some n.
Proof.
  intros (Hc & Hr & Ht & Hm).
  destruct op; simpl; try done; intros Hn; apply resolve_names_wf in Hn as [-> ->]; eauto.
Qed.

Section evidence.
Context `{!AuditTrail A}.

Lemma record_kinds_trail now agent kinds (k k' : K) :
  record_kinds now agent kinds k = (Returned (Ok tt), k') ->
  exists evs, ae_kind <$> evs = kinds /\
    Forall (fun e => ae_timestamp_epoch_s e = now /\ ae_agent_id e = agent) evs /\
    trail (lk_audit k') `suffix_of` trail (lk_audit k) ++ evs /\
    (kinds <> [] -> last (trail (lk_audit k')) = last evs) /\
    k' = lk_set_audit (lk_audit k') (lk_set_event_seq (lk_event_seq k') k).
Proof.
  revert k. induction kinds as [|kind kinds IH]; intros k; simpl.
  { intros [= <-]. exists []. rewrite app_nil_r. by destruct k. }
  intros H. rust_inv. rename x0 into k1. rewrite record_run in H0.
  set (ev := event_at k now agent kind) in *.
  destruct (as_record ev (lk_audit k)) as [[[[]|]|] a1] eqn:Ha; simplify_eq/=.
  destruct (IH _ H) as (evs & Hk & Hf & Hs & Hl & Hk').
  unfold after_record in Hs, Hk'. rewrite Ha in Hs, Hk'. simpl in *.
  pose proof (trail_record_ok _ _ _ Ha) as (kept & Hkept & Hsuf).
  exists (ev :: evs). split_and!.
  - by rewrite fmap_cons, Hk.
  - by constructor.
  - etrans; [exact Hs|]. rewrite Hkept. destruct Hsuf as [dropped ->]. exists dropped.
    by rewrite <- !app_assoc.
  - intros _. destruct kinds as [|kd kinds].
    + apply fmap_nil_inv in Hk as ->. simpl in H. unfold ret, after_record in H.
      simplify_eq. simpl. rewrite Ha. simpl. by rewrite Hkept, last_snoc.
    + rewrite Hl by done. by destruct evs.
  - done.
Qed.

Lemma gated_ok (op : KernelOp) (k : K) out k' :
  gated op k = (Returned (Ok out), k') ->
  exists pack now c' p' w1 w2 evs,
    lk_packs k !! op_pack_id op = Some pack /\
    (forall n, op_connector op = Some n -> n ∈ vp_allowed_connectors pack) /\
    op_required op ⊆ vp_granted_capabilities pack /\
    now_epoch_s (lk_clock k) = (Returned now, c') /\
    pe_authorize (op_token op) (vp_pack_id pack) now (op_required op) (lk_policy k)
      = (Returned (Ok tt), p') /\
    PolicyExtensionChain_authorize (lk_policy_extensions k) (op_context op pack now) (lk_world k)
      = (Returned (Ok tt), w1) /\
    op_call op pack k w1 = (Returned (Ok out), w2) /\ lk_world k' = w2 /\
    ae_kind <$> evs = op_kinds op pack k /\
    Forall (fun e => ae_timestamp_epoch_s e = now /\
                     ae_agent_id e = Some (ct_agent_id (op_token op))) evs /\
    trail (lk_audit k') `suffix_of` trail (lk_audit k) ++ evs /\
    last (trail (lk_audit k')) = last evs.
Proof.
  unfold gated.
  intros (pack & k1 & Hp & (u & k2 & Hc & (now & k3 & Ha & H)%try_bind_ok)%try_bind_ok)%try_bind_ok.
  unfold LoongKernel_get_pack, gets, ok_or in Hp. destruct (lk_packs k !! _) eqn:Hpk; [|done].
  unfold ret in Hc. simplify_eq. destruct u.
  apply authorize_ok in Ha as (Hreq & c' & p' & w1 & Hnow & Hpe & Hx & ->).
  unfold op_body in H. apply bind_returned in H as (k4 & k5 & Hg & H).
  apply try_bind_ok in H as (o & k6 & Hz & H). apply try_bind_ok in H as ([] & k7 & Hr & H).
  unfold get, ret in Hg, H. simplify_eq.
  apply zoom_returned in Hz as (w2 & Hcall & ->). rewrite op_call_effects in Hcall.
  rewrite op_kinds_effects in Hr.
  apply record_kinds_trail in Hr as (evs & Hk & Hf & Hs & Hl & Hk').
  exists pack, now, c', p', w1, w2, evs. rewrite Hk' at 1.
  split_and!; try done; [by apply connector_check_ok|]. apply Hl. by destruct op.
Qed.

(** C1 (safety). An operation that succeeds had its pack
    registered, its connector and every required capability within the pack's
    grants, the token accepted by the policy engine for this pack, time and
    capabilities, every policy extension satisfied, in this order, before its
    adapter ran; the environment is what the adapter left; and the audit trail
    ends with the operation's own events, stamped with that time and agent. *)
Theorem complete_mediation (op : KernelOp) (k : K) out k' :
  run_op op k = (Returned (Ok out), k') ->
  exists pack now c' p' w1 w2 evs,
    lk_packs k !! op_pack_id op = Some pack /\
    (forall n, op_connector op = Some n -> n ∈ vp_allowed_connectors pack) /\
    op_required op ⊆ vp_granted_capabilities pack /\
    now_epoch_s (lk_clock k) = (Returned now, c') /\
    pe_authorize (op_token op) (vp_pack_id pack) now (op_required op) (lk_policy k)
      = (Returned (Ok tt), p') /\
    PolicyExtensionChain_authorize (lk_policy_extensions k) (op_context op pack now) (lk_world k)
      = (Returned (Ok tt), w1) /\
    op_call op pack k w1 = (Returned (Ok out), w2) /\ lk_world k' = w2 /\
    ae_kind <$> evs = op_kinds op pack k /\
    Forall (fun e => ae_timestamp_epoch_s e = now /\
                     ae_agent_id e = Some (ct_agent_id (op_token op))) evs /\
    trail (lk_audit k') `suffix_of` trail (lk_audit k) ++ evs /\
    last (trail (lk_audit k')) = last evs.
Proof. rewrite run_op_gate. apply gated_ok. Qed.

(** On well-formed planes, an operation on a plane
    that succeeds leaves a last audit event that names the core adapter that
    ran: a registered one, under its own name (so never the placeholder
    "default" unless an adapter has that name). *)
Theorem audited_adapter_ran (op : KernelOp) (k : K) out k' :
  planes_wf k -> op_on_plane op = true -> run_op op k = (Returned (Ok out), k') ->
  exists n ev, op_resolved op k = Some (n, n) /\
    last (trail (lk_audit k')) = Some ev /\ kind_core_adapter (ae_kind ev) = Some n.
Proof.
  intros Hwf Hop. rewrite run_op_gate.
  intros (pack & now & c' & p' & w1 & w2 & evs & _ & _ & _ & _ & _ & _ & Hcall & _ & Hk & _ & _ & Hl)
    %gated_ok.
  destruct (op_call_resolved _ _ _ _ _ _ Hop Hcall) as [[n m] Hr].
  destruct (op_kinds_resolved _ pack _ _ _ Hwf Hr) as (-> & kind & Hlast & Hkind).
  rewrite <- Hk, fmap_last in Hlast. apply fmap_Some in Hlast as (ev & Hev & ->).
  exists n, ev. by rewrite Hl.
Qed.
End evidence.

End gate.
