(* ===== verification/KernelRuns.v ===== *)
(** * The kernel along any sequence of calls

    Every operation of [kernel.rs] as one type of calls, and the runs of the
    kernel: any number of calls, each of which may return, fail or panic, with
    the clock and the environment changing on their own in between.  What holds
    along every run: registries stay well formed and are frozen for everything
    but registration, audit event ids do not repeat, revocation is final, and
    issued tokens stay within their pack. *)

From S2P Require Import Prelude RustStr Contracts Policy Planes AuditSinks Kernel KernelGate.

Section runs.
Context {J : SerdeJson} {V : Semver} {P A C W : Type}.
Context `{!PolicyEngine P, !AuditSink A, !Clock C}.
Variable ps : PanicStrategy.

Local Abbreviation K := (LoongKernel P A C W).

(** ** Calls *)

(** Calls through [&self]: all that the frozen [Kernel] handle offers. *)
Inductive KernelCall : Type :=
| CallOp (op : KernelOp)
| CallIssueToken (pack_id agent_id : string) (ttl_s : Z)
| CallIssueScopedToken (pack_id agent_id : string) (allowed : gset Capability) (ttl_s : Z)
| CallRevokeToken (token_id : string) (actor : option string)
| CallRevokeGeneration (below : Z)
| CallRecordAuditEvent (agent_id : option string) (kind : AuditEventKind).

(** Calls through [&mut self], while the kernel is being built. *)
Inductive BuilderCall : Type :=
| BuildPack (pack : VerticalPackManifest)
| BuildPolicyExtension (x : PolicyExtension W)
| BuildHarness (a : HarnessAdapter W)
| BuildCoreConnector (a : CoreAdapter ConnectorSig W)
| BuildConnectorExtension (a : ExtensionAdapter ConnectorSig W)
| BuildDefaultConnector (name : string)
| BuildCoreRuntime (a : CoreAdapter RuntimeSig W)
| BuildRuntimeExtension (a : ExtensionAdapter RuntimeSig W)
| BuildDefaultRuntime (name : string)
| BuildCoreTool (a : CoreAdapter ToolSig W)
| BuildToolExtension (a : ExtensionAdapter ToolSig W)
| BuildDefaultTool (name : string)
| BuildCoreMemory (a : CoreAdapter MemorySig W)
| BuildMemoryExtension (a : ExtensionAdapter MemorySig W)
| BuildDefaultMemory (name : string).

Definition discard {S X} (m : M S X) : M S unit := run! m in ret tt.

Definition run_call (c : KernelCall) : M K unit :=
  match c with
  | CallOp op => discard (run_op ps op)
  | CallIssueToken p a ttl => discard (LoongKernel_issue_token p a ttl)
  | CallIssueScopedToken p a cs ttl => discard (LoongKernel_issue_scoped_token p a cs ttl)
  | CallRevokeToken t a => discard (LoongKernel_revoke_token t a)
  | CallRevokeGeneration b => LoongKernel_revoke_generation b
  | CallRecordAuditEvent a kd => discard (LoongKernel_record_audit_event a kd)
  end.

Definition run_builder (c : BuilderCall) : M K unit :=
  match c with
  | BuildPack p => discard (LoongKernel_register_pack p)
  | BuildPolicyExtension x => LoongKernel_register_policy_extension x
  | BuildHarness a => LoongKernel_register_harness_adapter a
  | BuildCoreConnector a => LoongKernel_register_core_connector_adapter a
  | BuildConnectorExtension a => LoongKernel_register_connector_extension_adapter a
  | BuildDefaultConnector n => discard (LoongKernel_set_default_core_connector_adapter n)
  | BuildCoreRuntime a => LoongKernel_register_core_runtime_adapter a
  | BuildRuntimeExtension a => LoongKernel_register_runtime_extension_adapter a
  | BuildDefaultRuntime n => discard (LoongKernel_set_default_core_runtime_adapter n)
  | BuildCoreTool a => LoongKernel_register_core_tool_adapter a
  | BuildToolExtension a => LoongKernel_register_tool_extension_adapter a
  | BuildDefaultTool n => discard (LoongKernel_set_default_core_tool_adapter n)
  | BuildCoreMemory a => LoongKernel_register_core_memory_adapter a
  | BuildMemoryExtension a => LoongKernel_register_memory_extension_adapter a
  | BuildDefaultMemory n => discard (LoongKernel_set_default_core_memory_adapter n)
  end.

(** One step of a run.  A call that panics keeps the state it reached. *)
Inductive kernel_step (k : K) : K -> Prop :=
| step_call c : kernel_step k (run_call c k).2
| step_environment clock world :
    kernel_step k (lk_set_world world (lk_set_clock clock k)).

Inductive kernel_or_builder_step (k : K) : K -> Prop :=
| step_kernel k' : kernel_step k k' -> kernel_or_builder_step k k'
| step_builder c : kernel_or_builder_step k (run_builder c k).2.

(** ** Invariants of calls *)

(** [I n]: an invariant that may depend on the number [n] of audit events made
    so far.  It has to survive what calls are made of: the clock, one audit
    record, any change of the environment, and the policy engine's calls. *)
Record kernel_stable (I : nat -> K -> Prop) : Prop := {
  ks_mono n m k : n <= m -> I n k -> I m k;
  ks_clock n k c : I n k -> I n (lk_set_clock c k);
  ks_world n k w : I n k -> I n (lk_set_world w k);
  ks_record n k ev : ae_event_id ev = event_id_of_seq (u64_wrapping_add (lk_event_seq k) 1) ->
    I n k -> I (S n) (after_record k ev);
  ks_issue n k pack agent now ttl : I n k ->
    I n (lk_set_policy (pe_issue_token pack agent now ttl (lk_policy k)).2 k);
  ks_authorize n k t p now req : I n k ->
    I n (lk_set_policy (pe_authorize t p now req (lk_policy k)).2 k);
  ks_revoke n k t : I n k -> I n (lk_set_policy (pe_revoke_token t (lk_policy k)).2 k);
  ks_revoke_generation n k b : I n k ->
    I n (lk_set_policy (pe_revoke_generation b (lk_policy k)).2 k);
}.

(** [costs I d m]: the computation keeps [I], making at most [d] events. *)
Definition costs {X} (I : nat -> K -> Prop) (d : nat) (m : M K X) : Prop :=
  forall n k, I n k -> I (n + d) (m k).2.

Section stable.
Context (I : nat -> K -> Prop) (HI : kernel_stable I).

Lemma costs_weaken {X} d d' (m : M K X) : d <= d' -> costs I d m -> costs I d' m.
Proof. intros Hd Hm n k Hk. eapply ks_mono; [done| |by apply Hm]. lia. Qed.

Lemma costs_ret {X} d (x : X) : costs I d (ret x).
Proof. intros n k Hk. eapply ks_mono; [done| |done]. lia. Qed.

Lemma costs_gets {X} (f : K -> X) : costs I 0 (gets f).
Proof. intros n k Hk. by rewrite Nat.add_0_r. Qed.

Lemma costs_get : costs I 0 get.
Proof. intros n k Hk. by rewrite Nat.add_0_r. Qed.

Lemma costs_bind {X Y} d1 d2 (m : M K X) (f : X -> M K Y) :
  costs I d1 m -> (forall x, costs I d2 (f x)) -> costs I (d1 + d2) (bind m f).
Proof.
  intros Hm Hf n k Hk. unfold bind. specialize (Hm n k Hk).
  destruct (m k) as [[x|p] k']; simpl in *.
  - rewrite Nat.add_assoc. by apply Hf.
  - eapply ks_mono; [done| |done]. lia.
Qed.

Lemma costs_bind_free {X Y} d (m : M K X) (f : X -> M K Y) :
  costs I 0 m -> (forall x, costs I d (f x)) -> costs I d (bind m f).
Proof. apply (costs_bind 0). Qed.

Lemma costs_bind_event {X Y} d (m : M K X) (f : X -> M K Y) :
  costs I 1 m -> (forall x, costs I d (f x)) -> costs I (S d) (bind m f).
Proof. apply (costs_bind 1). Qed.

Lemma costs_try_map_err {X E F} d (g : E -> F) (m : M K (result X E)) :
  costs I d m -> costs I d (try_map_err g m).
Proof.
  intros Hm. rewrite <- (Nat.add_0_r d). apply costs_bind; [done|]. intros; apply costs_ret.
Qed.

Lemma costs_now : costs I 0 LoongKernel_now.
Proof.
  intros n k Hk. rewrite Nat.add_0_r. unfold LoongKernel_now, zoom.
  destruct (now_epoch_s (lk_clock k)) as [r c]. by apply (ks_clock _ HI).
Qed.

Lemma costs_world {X} (m : M W X) : costs I 0 (zoom lk_world lk_set_world m).
Proof.
  intros n k Hk. rewrite Nat.add_0_r. unfold zoom.
  destruct (m (lk_world k)) as [r w]. by apply (ks_world _ HI).
Qed.

Lemma costs_record now agent kind : costs I 1 (LoongKernel_record now agent kind).
Proof.
  intros n k Hk. rewrite record_run, Nat.add_1_r. simpl. by apply (ks_record _ HI).
Qed.

Lemma costs_policy {X} (m : M P X) :
  (forall n k, I n k -> I n (lk_set_policy (m (lk_policy k)).2 k)) ->
  costs I 0 (zoom lk_policy lk_set_policy m).
Proof.
  intros Hm n k Hk. rewrite Nat.add_0_r. specialize (Hm n k Hk). unfold zoom.
  by destruct (m (lk_policy k)) as [r p].
Qed.

Lemma costs_issue pack agent now ttl :
  costs I 0 (zoom lk_policy lk_set_policy (pe_issue_token pack agent now ttl)).
Proof. apply costs_policy. intros. by apply (ks_issue _ HI). Qed.

Lemma costs_authorize t p now req :
  costs I 0 (zoom lk_policy lk_set_policy (pe_authorize t p now req)).
Proof. apply costs_policy. intros. by apply (ks_authorize _ HI). Qed.

Lemma costs_revoke t : costs I 0 (zoom lk_policy lk_set_policy (pe_revoke_token t)).
Proof. apply costs_policy. intros. by apply (ks_revoke _ HI). Qed.

Lemma costs_revoke_generation b :
  costs I 0 (zoom lk_policy lk_set_policy (pe_revoke_generation b)).
Proof. apply costs_policy. intros. by apply (ks_revoke_generation _ HI). Qed.

Hint Resolve costs_ret costs_gets costs_get costs_try_map_err costs_now costs_world
  costs_record costs_issue costs_authorize costs_revoke costs_revoke_generation : costs.

(** One rule per construct. *)
Ltac costs_step :=
  match goal with
  | |- costs _ _ (try_bind _ _) => unfold try_bind
  | |- costs _ _ (bind _ _) =>
      first [apply costs_bind_free; [solve [eauto with costs]|intros ?]
            |apply costs_bind_event; [solve [eauto with costs]|intros ?]]
  | |- costs _ _ (match ?x with _ => _ end) => destruct x
  | |- _ => solve [eauto with costs]
  end.

Lemma costs_audit_denial pack t now e : costs I 1 (LoongKernel_audit_denial pack t now e).
Proof. unfold LoongKernel_audit_denial. repeat costs_step. Qed.
Hint Resolve costs_audit_denial : costs.

Lemma costs_authorize_or_audit_denial pack t now req params :
  costs I 1 (LoongKernel_authorize_or_audit_denial pack t now req params).
Proof. unfold LoongKernel_authorize_or_audit_denial. repeat costs_step. Qed.
Hint Resolve costs_authorize_or_audit_denial : costs.

Lemma costs_authorize_pack_operation pack t req params :
  costs I 1 (LoongKernel_authorize_pack_operation pack t req params).
Proof. unfold LoongKernel_authorize_pack_operation. repeat costs_step. Qed.
Hint Resolve costs_authorize_pack_operation : costs.

Lemma costs_record_kinds now agent kinds : costs I (length kinds) (record_kinds now agent kinds).
Proof. induction kinds; simpl; repeat costs_step. Qed.

Lemma costs_op_body op pack now : costs I 2 (op_body ps op pack now).
Proof.
  unfold op_body. repeat costs_step. apply (costs_bind 2 0); [|intros; repeat costs_step].
  eapply costs_weaken, costs_record_kinds. destruct op; simpl; lia.
Qed.

Lemma costs_run_op op : costs I 3 (run_op ps op).
Proof.
  assert (costs I 3 (gated ps op)) as Hg.
  { unfold gated, LoongKernel_get_pack. repeat costs_step. apply costs_op_body. }
  intros n k Hk. rewrite run_op_gate. by apply Hg.
Qed.

Lemma costs_discard {X} d (m : M K X) : costs I d m -> costs I d (discard m).
Proof. intros Hm. rewrite <- (Nat.add_0_r d). apply costs_bind; eauto with costs. Qed.

Lemma costs_run_call c : costs I 3 (run_call c).
Proof.
  destruct c; simpl; try apply costs_discard; [apply costs_run_op|..];
    unfold LoongKernel_issue_token, LoongKernel_issue_scoped_token, LoongKernel_get_pack,
      LoongKernel_revoke_token, LoongKernel_record_audit_event, LoongKernel_revoke_generation;
    repeat costs_step; (eapply (costs_weaken 0); [lia|]; eauto with costs).
Qed.

Lemma kernel_step_stable n k k' : kernel_step k k' -> I n k -> I (n + 3) k'.
Proof.
  intros [c|clock world] Hk; [by apply costs_run_call|].
  eapply (ks_mono _ HI); [|by apply (ks_world _ HI), (ks_clock _ HI)]. lia.
Qed.

(** Along a run of [m] steps. *)
Lemma kernel_run_stable m n k k' : nsteps kernel_step m k k' -> I n k -> I (n + 3 * m) k'.
Proof.
  intros Hrun. revert n. induction Hrun as [k|m k k1 k2 Hstep _ IH]; intros n Hk.
  - by rewrite Nat.add_0_r.
  - replace (n + 3 * S m) with (n + 3 + 3 * m) by lia. apply IH. by eapply kernel_step_stable.
Qed.
End stable.

(** ** The registries *)

(** All that calls through [&self] read and never write. *)
Definition lk_registry (k : K) :=
  (lk_packs k, lk_namespaces k, lk_harness k, lk_connector_plane k, lk_runtime_plane k,
   lk_tool_plane k, lk_memory_plane k, lk_policy_extensions k).

(** All that registration leaves alone. *)
Definition lk_effects (k : K) :=
  (lk_policy k, lk_clock k, lk_audit k, lk_event_seq k, lk_world k).

Lemma registry_stable r : kernel_stable (fun _ k => lk_registry k = r).
Proof. by split. Qed.

Lemma kernel_step_frozen k k' : kernel_step k k' -> lk_registry k' = lk_registry k.
Proof. intros Hs. by apply (kernel_step_stable _ (registry_stable (lk_registry k)) 0 k). Qed.

Lemma builder_effects c (k : K) : lk_effects (run_builder c k).2 = lk_effects k.
Proof.
  destruct c; simpl; try done;
    unfold discard, LoongKernel_register_pack, LoongKernel_set_default_core_connector_adapter,
      LoongKernel_set_default_core_runtime_adapter, LoongKernel_set_default_core_tool_adapter,
      LoongKernel_set_default_core_memory_adapter, try_map_err, try_bind, bind, zoom,
      Plane_set_default_core_adapter, get, ret, modify; simpl.
  all: repeat case_match; simplify_eq/=; done.
Qed.

(** A registered pack and its namespace say the same. *)
Definition namespace_of (p : VerticalPackManifest) : Namespace := {|
  ns_pack_id := vp_pack_id p; ns_domain := vp_domain p; ns_membrane := vp_pack_id p;
  ns_default_route := vp_default_route p;
  ns_granted_capabilities := vp_granted_capabilities p |}.

Record kernel_wf (k : K) : Prop := {
  kw_packs : forall id p, lk_packs k !! id = Some p ->
    vp_pack_id p = id /\ VerticalPackManifest_validate p = Ok tt;
  kw_namespaces : lk_namespaces k = namespace_of <$> lk_packs k;
  kw_harness : broker_wf (lk_harness k);
  kw_planes : planes_wf k;
}.

Lemma register_pack_run pack (k : K) :
  LoongKernel_register_pack pack k =
  match VerticalPackManifest_validate pack with
  | Err e => (Returned (Err (KPack e)), k)
  | Ok _ =>
      match lk_packs k !! vp_pack_id pack with
      | Some _ => (Returned (Err (DuplicatePack (vp_pack_id pack))), k)
      | None =>
          (Returned (Ok tt),
           lk_set_packs (<[vp_pack_id pack := pack]> (lk_packs k))
             (<[vp_pack_id pack := namespace_of pack]> (lk_namespaces k)) k)
      end
  end.
Proof.
  unfold LoongKernel_register_pack, try_bind, bind, get, modify, ret.
  destruct (VerticalPackManifest_validate pack); [|done]. simpl.
  destruct (lk_packs k !! vp_pack_id pack) eqn:E;
    [rewrite decide_True by eauto|rewrite decide_False by (intros [? ?]; done)]; done.
Qed.

Lemma register_pack_wf pack k : kernel_wf k -> kernel_wf (LoongKernel_register_pack pack k).2.
Proof.
  intros [Hp Hn Hh Hpl]. rewrite register_pack_run.
  destruct (VerticalPackManifest_validate pack) as [[]|] eqn:Hv; [|by split].
  destruct (lk_packs k !! vp_pack_id pack) eqn:Hl; [by split|].
  split; simpl; [| |done|done].
  - intros id p. rewrite lookup_insert. case_decide; naive_solver.
  - by rewrite fmap_insert, Hn.
Qed.

Lemma builder_wf c k : kernel_wf k -> kernel_wf (run_builder c k).2.
Proof.
  intros Hk. destruct c; simpl; unfold discard, bind.
  1:{ pose proof (register_pack_wf pack k Hk). by destruct (LoongKernel_register_pack pack k) as [[]]. }
  all: destruct Hk as [Hp Hn Hh (Hc & Hr & Ht & Hm)].
  all: unfold LoongKernel_set_default_core_connector_adapter,
      LoongKernel_set_default_core_runtime_adapter, LoongKernel_set_default_core_tool_adapter,
      LoongKernel_set_default_core_memory_adapter, try_map_err, bind, zoom.
  all: try match goal with |- context [Plane_set_default_core_adapter ?n ?p] =>
      let H := fresh in
      pose proof (plane_wf_set_default n p ltac:(done)) as H;
      destruct (Plane_set_default_core_adapter n p) as [? p'] end.
  all: split; simpl; try done; try (apply broker_wf_register; done).
  all: split_and!; simpl; auto with rust.
Qed.

Lemma kernel_wf_registry k k' : lk_registry k' = lk_registry k -> kernel_wf k -> kernel_wf k'.
Proof.
  unfold lk_registry. intros [= Hp Hn Hh Hc Hr Ht Hm Hx] [Hp' Hn' Hh' Hpl'].
  split; [by rewrite Hp|by rewrite Hn, Hp|by rewrite Hh|].
  unfold planes_wf in *. by rewrite Hc, Hr, Ht, Hm.
Qed.

Lemma kernel_wf_new policy clock audit world :
  kernel_wf (LoongKernel_with_runtime policy clock audit world).
Proof.
  split; simpl; [done|by rewrite fmap_empty|apply broker_wf_new|].
  split_and!; apply plane_wf_new.
Qed.

Lemma builder_packs_grow c k : lk_packs k ⊆ lk_packs (run_builder c k).2.
Proof.
  destruct c; simpl; unfold discard, LoongKernel_set_default_core_connector_adapter,
      LoongKernel_set_default_core_runtime_adapter, LoongKernel_set_default_core_tool_adapter,
      LoongKernel_set_default_core_memory_adapter, try_map_err, bind, zoom;
    try match goal with |- context [Plane_set_default_core_adapter ?n ?p] =>
      by destruct (Plane_set_default_core_adapter n p) end; try done.
  rewrite register_pack_run. destruct (VerticalPackManifest_validate pack); [|done].
  destruct (lk_packs k !! vp_pack_id pack) eqn:E; [done|]. simpl. by apply insert_subseteq.
Qed.

(** In every state a kernel reaches, through any sequence of
    registrations, calls and panics: packs sit under their own ids and are
    valid, each namespace is its pack's, the planes' defaults are registered
    core adapters, and adapters sit under their own names.  A pack once
    registered stays, unchanged, and calls through [&self] change no registry. *)
Theorem registries_well_formed policy clock audit world (k k' : K) :
  rtc kernel_or_builder_step (LoongKernel_with_runtime policy clock audit world) k ->
  rtc kernel_or_builder_step k k' ->
  kernel_wf k /\ lk_packs k ⊆ lk_packs k' /\
  (forall k'', rtc kernel_step k k'' -> lk_registry k'' = lk_registry k).
Proof.
  intros Hreach Hrun. split; [|split].
  - revert Hreach. apply (rtc_ind_r kernel_wf); [apply kernel_wf_new|].
    intros k1 k2 _ [k3 Hs|c] Hwf; [|by apply builder_wf].
    eapply kernel_wf_registry; [by apply kernel_step_frozen|done].
  - clear Hreach. induction Hrun as [|k1 k2 k3 [k4 Hs|c] _ IH]; [done|..]; (etrans; [|exact IH]).
    + apply kernel_step_frozen in Hs. unfold lk_registry in Hs. by inversion Hs.
    + apply builder_packs_grow.
  - clear Hreach Hrun. induction 1 as [|k1 k2 k3 Hs _ IH]; [done|]. rewrite IH.
    by apply kernel_step_frozen.
Qed.

(** ** Full runs *)

Lemma full_run_stable (I : nat -> K -> Prop) (HI : kernel_stable I)
    (Heff : forall n k k', lk_effects k' = lk_effects k -> I n k -> I n k') m n k k' :
  nsteps kernel_or_builder_step m k k' -> I n k -> I (n + 3 * m) k'.
Proof.
  intros Hrun. revert n. induction Hrun as [k|m k k1 k2 Hstep _ IH]; intros n Hk.
  { by rewrite Nat.add_0_r. }
  replace (n + 3 * S m) with (n + 3 + 3 * m) by lia. apply IH.
  destruct Hstep as [k1 Hs|c]; [by eapply kernel_step_stable|].
  apply (ks_mono _ HI n); [lia|]. eapply Heff; [apply builder_effects|done].
Qed.

(** ** Audit event ids *)

Section events.
Context `{!AuditTrail A}.

(** The ids given out so far, in order. *)
Definition ids_up_to (n : nat) : list string :=
  (fun i => event_id_of_seq (Z.of_nat i)) <$> seq 1 n.

Definition event_inv (n : nat) (k : K) : Prop :=
  (Z.of_nat n <= u64_max)%Z -> exists s, s <= n /\ lk_event_seq k = Z.of_nat s /\
    (ae_event_id <$> trail (lk_audit k)) `sublist_of` ids_up_to s.

Lemma ids_up_to_S n : ids_up_to (S n) = ids_up_to n ++ [event_id_of_seq (Z.of_nat (S n))].
Proof. unfold ids_up_to. by rewrite seq_S, fmap_app. Qed.

Lemma event_inv_stable : kernel_stable event_inv.
Proof.
  split; try done.
  - intros n m k Hnm Hk Hm. destruct Hk as (s & Hs & H); [lia|]. exists s. split; [lia|done].
  - intros n k ev Hev Hk Hn. destruct Hk as (s & Hs & Hseq & Hsub); [lia|]. exists (S s).
    rewrite Hseq, u64_wrapping_add_small in Hev
      by (unfold u64_valid, u64_max, u64_modulus in *; lia).
    simpl. rewrite Hseq, u64_wrapping_add_small
      by (unfold u64_valid, u64_max, u64_modulus in *; lia).
    split_and!; [lia|lia|]. rewrite ids_up_to_S.
    etrans; [apply fmap_sublist, trail_record_any|]. rewrite fmap_app. simpl.
    rewrite Hev. replace (Z.of_nat s + 1)%Z with (Z.of_nat (S s)) by lia.
    by apply sublist_skips_r || apply sublist_app.
Qed.

Lemma ids_up_to_NoDup n : (Z.of_nat n <= u64_max)%Z -> NoDup (ids_up_to n).
Proof.
  intros Hn. unfold ids_up_to. apply NoDup_fmap_2_strong; [|apply NoDup_seq].
  intros i j Hi%elem_of_seq Hj%elem_of_seq Heq%String.app_inj%fmt_016x_inj;
    unfold u64_valid; lia.
Qed.

(** Along any run from a fresh kernel with an empty
    trail, no two retained events have the same id, and they are retained in the
    order their ids were given out, as long as the event counter cannot have
    wrapped (each step makes at most three events). *)
Theorem event_ids_unique policy clock audit world m (k : K) :
  trail audit = [] -> (3 * Z.of_nat m <= u64_max)%Z ->
  nsteps kernel_or_builder_step m (LoongKernel_with_runtime policy clock audit world) k ->
  NoDup (ae_event_id <$> trail (lk_audit k)) /\
  (ae_event_id <$> trail (lk_audit k)) `sublist_of` ids_up_to (Z.to_nat (lk_event_seq k)).
Proof.
  intros Hempty Hm Hrun.
  assert (event_inv (0 + 3 * m) k) as Hinv.
  { eapply (full_run_stable _ event_inv_stable); [|done|].
    - intros n k1 k2 [= _ _ Ha He _] Hk Hn. rewrite Ha, He. by apply Hk.
    - intros _. exists 0. simpl. rewrite Hempty. split_and!; [lia|done|apply sublist_nil_l]. }
  destruct Hinv as (s & Hs & Hseq & Hsub); [lia|]. rewrite Hseq, Nat2Z.id. split; [|done].
  eapply sublist_NoDup; [|exact Hsub]. apply ids_up_to_NoDup. lia.
Qed.
End events.
End runs.

(** ** Revocation through the kernel *)

Section revocation.
Context {J : SerdeJson} {V : Semver} {A C W : Type}.
Context `{!AuditSink A, !Clock C}.
Variable ps : PanicStrategy.

Local Abbreviation K := (LoongKernel StaticPolicyEngine A C W).

Lemma issue_token_revoked pack agent now ttl e t :
  revoked e t -> revoked (StaticPolicyEngine_issue_token pack agent now ttl e).2 t.
Proof. done. Qed.

Lemma revoke_token_revoked id e t :
  revoked e t -> revoked (StaticPolicyEngine_revoke_token id e).2 t.
Proof.
  destruct (mx_poisoned (spe_revoked_tokens e)) eqn:Hp.
  - by rewrite revoke_token_poisoned.
  - rewrite revoke_token_run by done. unfold revoked, generation_revoked. simpl.
    intros [?|[?|?]]; [congruence| |tauto]. right; left. by apply elem_of_union_r.
Qed.

Lemma revoke_generation_revoked b e t :
  revoked e t -> revoked (StaticPolicyEngine_revoke_generation b e).2 t.
Proof.
  unfold revoked, generation_revoked. simpl. intros [?|[?|?]]; [tauto..|]. right; right. lia.
Qed.

Lemma revoke_token_revokes e t :
  revoked (StaticPolicyEngine_revoke_token (ct_token_id t) e).2 t.
Proof.
  destruct (mx_poisoned (spe_revoked_tokens e)) eqn:Hp.
  - rewrite revoke_token_poisoned by done. by left.
  - rewrite revoke_token_run by done. right; left. simpl. set_solver.
Qed.

Lemma revoked_stable t : kernel_stable (fun _ (k : K) => revoked (lk_policy k) t).
Proof.
  split; try done; intros;
    by (apply revoke_token_revoked || apply revoke_generation_revoked).
Qed.

(** Whatever becomes of the call, the token is revoked after it. *)
Lemma kernel_revoke_token_revokes actor (k : K) t :
  revoked (lk_policy (LoongKernel_revoke_token (ct_token_id t) actor k).2) t.
Proof.
  unfold LoongKernel_revoke_token, try_map_err, try_bind, bind at 1 2, zoom.
  pose proof (revoke_token_revokes (lk_policy k) t) as Ht.
  change (pe_revoke_token (ct_token_id t) (lk_policy k))
    with (StaticPolicyEngine_revoke_token (ct_token_id t) (lk_policy k)).
  destruct (StaticPolicyEngine_revoke_token _ _) as [[[[]|e]|p] e'] eqn:E; simpl in *; try done.
  set (k1 := lk_set_policy e' k).
  assert (costs (fun _ (k : K) => revoked (lk_policy k) t) 1
    (let! now := LoongKernel_now in
     run! LoongKernel_record now actor (TokenRevoked (ct_token_id t)) in ret tt)) as Hc.
  { apply (costs_bind _ (revoked_stable t) 0); [apply costs_now, revoked_stable|]. intros now.
    apply (costs_bind _ (revoked_stable t) 1); [apply costs_record, revoked_stable|].
    intros r. apply costs_ret, revoked_stable. }
  specialize (Hc 0 k1 Ht). unfold bind in *.
  destruct (LoongKernel_now k1) as [[now|p] k2]; simpl in *; [|done].
  by destruct (LoongKernel_record _ _ _ k2) as [[[[]|]|] k3].
Qed.

Lemma run_op_revoked op (k : K) :
  revoked (lk_policy k) (op_token op) ->
  lk_world (run_op ps op k).2 = lk_world k /\
  forall out, (run_op ps op k).1 <> Returned (Ok out).
Proof.
  intros Hr. rewrite run_op_gate. destruct (gated ps op k) as [r k'] eqn:E. simpl. revert E.
  unfold gated, LoongKernel_get_pack, try_bind at 1, bind, gets, ret, ok_or.
  destruct (lk_packs k !! op_pack_id op) as [pack|]; [|by intros [= <- <-]]. simpl. unfold try_bind, bind.
  destruct (connector_check op pack); [|by intros [= <- <-]].
  unfold LoongKernel_authorize_pack_operation, LoongKernel_now, try_bind, bind, ret, zoom.
  destruct (LoongKernel_assert_pack_grants _ _); [|by intros [= <- <-]].
  destruct (now_epoch_s (lk_clock k)) as [[now|p] c']; simpl; [|by intros [= <- <-]].
  unfold LoongKernel_authorize_or_audit_denial, bind, zoom, gets. simpl.
  change (pe_authorize ?t ?p ?n ?r) with (StaticPolicyEngine_authorize t p n r).
  unfold StaticPolicyEngine_authorize, gets. rewrite decide_revoked by done. simpl.
  unfold LoongKernel_audit_denial, try_bind, bind, ret. rewrite record_run.
  destruct (as_record _ _).1 as [[]|]; by intros [= <- <-].
Qed.

(** C2 (safety). After [revoke_token], however
    that call ended (an audit failure or a panic included), or after a
    [revoke_generation] that covers the token, no operation under the token
    succeeds or touches the environment, whatever calls, registrations and
    panics came in between. *)
Theorem kernel_revocation_final (op : KernelOp) call (k0 k1 k2 : K) :
  ((exists actor, call = CallRevokeToken (ct_token_id (op_token op)) actor) \/
   (exists below, call = CallRevokeGeneration below /\
      (0 < ct_generation (op_token op) <= below)%Z)) ->
  k1 = (run_call ps call k0).2 ->
  rtc (kernel_or_builder_step ps) k1 k2 ->
  lk_world (run_op ps op k2).2 = lk_world k2 /\
  forall out, (run_op ps op k2).1 <> Returned (Ok out).
Proof.
  intros Hcall -> [n Hrun]%rtc_nsteps_1. apply run_op_revoked.
  refine (full_run_stable ps (fun _ k => revoked (lk_policy k) (op_token op))
            (revoked_stable _) _ n 0 _ k2 Hrun _).
  - by intros _ k k' [= -> _ _ _ _].
  - destruct Hcall as [[actor ->]|(below & -> & Hgen)]; simpl.
    + pose proof (kernel_revoke_token_revokes actor k0 (op_token op)) as H.
      unfold discard, bind. by destruct (LoongKernel_revoke_token _ _ _) as [[[[]|]|] ?].
    + right; right. unfold generation_revoked. simpl. lia.
Qed.

(** ** Tokens issued by the kernel *)

(** C3 (safety). A token issued by [issue_scoped_token] carries
    exactly the requested capabilities, all of which its registered pack grants;
    a request beyond the pack's grants is refused with the kernel unchanged.  And
    an operation that succeeds under a token required only capabilities that
    both the token and the registered pack allow, before the token's expiry. *)
Theorem tokens_least_privilege (k k' : K) :
  (forall pack_id agent allowed ttl t,
     LoongKernel_issue_scoped_token pack_id agent allowed ttl k = (Returned (Ok t), k') ->
     exists pack now c', lk_packs k !! pack_id = Some pack /\
       allowed ⊆ vp_granted_capabilities pack /\ now_epoch_s (lk_clock k) = (Returned now, c') /\
       ct_allowed_capabilities t = allowed /\ ct_pack_id t = vp_pack_id pack /\
       ct_agent_id t = agent /\ ct_expires_at_epoch_s t = u64_saturating_add now ttl) /\
  (forall pack_id agent allowed ttl pack,
     lk_packs k !! pack_id = Some pack -> ~ allowed ⊆ vp_granted_capabilities pack ->
     exists c, c ∈ allowed /\ c ∉ vp_granted_capabilities pack /\
       LoongKernel_issue_scoped_token pack_id agent allowed ttl k
       = (Returned (Err (PackCapabilityBoundary (vp_pack_id pack) c)), k)) /\
  (forall op out, run_op ps op k = (Returned (Ok out), k') ->
     exists pack now c', lk_packs k !! op_pack_id op = Some pack /\
       now_epoch_s (lk_clock k) = (Returned now, c') /\
       op_required op ⊆ ct_allowed_capabilities (op_token op) ∩ vp_granted_capabilities pack /\
       ct_pack_id (op_token op) = vp_pack_id pack /\
       (now <= ct_expires_at_epoch_s (op_token op))%Z).
Proof.
  split_and!.
  - intros pack_id agent allowed ttl t
      (pack & k1 & Hp & (u & k2 & Hg & (now & k3 & Hn & H)%bind_returned)%try_bind_ok)%try_bind_ok.
    apply try_bind_ok in H as (t' & k4 & Hi & ([] & k5 & _ & H)%try_bind_ok).
    unfold ret in H. simplify_eq. apply try_map_err_ok, zoom_returned in Hi as (p' & Hi & _).
    unfold LoongKernel_get_pack, gets, ok_or in Hp. unfold ret in Hg.
    destruct (lk_packs k !! pack_id) as [pk|] eqn:Hpk; simplify_eq.
    apply zoom_returned in Hn as (c' & Hn & ->).
    change (pe_issue_token ?a ?b ?c ?d) with (StaticPolicyEngine_issue_token a b c d) in Hi.
    rewrite issue_token_run in Hi. simplify_eq/=.
    pose proof (assert_pack_grants_spec pack allowed) as Hspec.
    destruct (LoongKernel_assert_pack_grants pack allowed); [|done].
    by exists pack, now, c'.
  - intros pack_id agent allowed ttl pack Hp Hn.
    pose proof (assert_pack_grants_spec pack allowed) as Hspec.
    destruct (LoongKernel_assert_pack_grants pack allowed) as [|e] eqn:E; [done|].
    destruct Hspec as (c & -> & Hc & Hnc & _). exists c. split_and!; [done..|].
    unfold LoongKernel_issue_scoped_token, LoongKernel_get_pack, try_bind, bind, gets, ret.
    rewrite Hp. simpl. by rewrite E.
  - intros op out. rewrite run_op_gate. unfold gated.
    intros (pack & k1 & Hp & (u & k2 & Hc & (now & k3 & Ha & _)%try_bind_ok)%try_bind_ok)%try_bind_ok.
    unfold LoongKernel_get_pack, gets, ok_or in Hp. unfold ret in Hc.
    destruct (lk_packs k !! op_pack_id op) eqn:Hpk; simplify_eq.
    apply authorize_ok in Ha as (Hreq & c' & p' & w1 & Hnow & Hpe & _ & _).
    change (pe_authorize ?t ?p ?n ?r) with (StaticPolicyEngine_authorize t p n r) in Hpe.
    apply (f_equal fst) in Hpe. simpl in Hpe. injection Hpe as Hpe.
    apply decide_ok in Hpe as (_ & ? & ? & ?). exists pack, now, c'.
    split_and!; try done. set_solver.
Qed.
End revocation.
