(* ===== verification/Supervisor.v ===== *)
(** * The task supervisor

    [crates/kernel/src/task_supervisor.rs] over the state machine of
    [crates/contracts/src/task_state.rs].  [TaskSupervisor::execute] mutates the
    supervisor and calls the kernel: a computation on the pair of their states. *)

From S2P Require Import Prelude RustStr Contracts Policy Planes AuditSinks Kernel KernelGate.

Section supervisor.
Context {J : SerdeJson} {V : Semver} {P A C W : Type}.
Context `{!PolicyEngine P, !AuditSink A, !Clock C}.
Variable TaskState_debug : TaskState -> string.

Local Abbreviation K := (LoongKernel P A C W).

Record TaskSupervisor : Type := { tsv_state : TaskState }.

Definition TaskSupervisor_new (intent : TaskIntent) : TaskSupervisor :=
  {| tsv_state := Runnable intent |}.

Definition TaskSupervisor_is_runnable (s : TaskSupervisor) : bool :=
  match tsv_state s with Runnable _ => true | _ => false end.

(** The supervisor and the kernel it is handed. *)
Definition Supervised : Type := TaskSupervisor * K.

Definition set_state (s : TaskState) : M Supervised unit :=
  modify (fun '(_, k) => ({| tsv_state := s |}, k)).

Definition on_kernel {X} (m : M K X) : M Supervised X := zoom snd (fun k s => (s.1, k)) m.

(** [self.state = taken.transition()?]: a rejected transition leaves the state. *)
Definition guarded (transition : TaskState -> result TaskState string)
  : M Supervised (result unit Fault) :=
  let! taken := gets (fun s => tsv_state s.1) in
  match transition taken with
  | Err detail => ret (Err (ProtocolViolation detail))
  | Ok s => run! set_state s in ret (Ok tt)
  end.

Definition TaskSupervisor_execute (pack_id : string) (token : CapabilityToken)
  : M Supervised (result KernelDispatch Fault) :=
  let! state := gets (fun s => tsv_state s.1) in
  match state with
  | Runnable intent =>
      run? guarded (TaskState_transition_to_in_send TaskState_debug) in
      run? guarded (TaskState_transition_to_in_reply TaskState_debug) in
      let! r := on_kernel (LoongKernel_execute_task pack_id token intent) in
      match r with
      | Ok dispatch =>
          run? guarded (fun s => TaskState_transition_to_completed TaskState_debug s
                                   (kd_outcome dispatch)) in
          ret (Ok dispatch)
      | Err kernel_err =>
          let fault := Fault_from_kernel_error kernel_err in
          let! taken := gets (fun s => tsv_state s.1) in
          run! set_state (TaskState_transition_to_faulted taken fault) in
          ret (Err fault)
      end
  | _ => ret (Err (ProtocolViolation "task is not in Runnable state"))
  end.

(** ** The state machine *)

(** A transition that the code accepted. *)
Inductive task_step (s : TaskState) : TaskState -> Prop :=
| step_in_send s' : TaskState_transition_to_in_send TaskState_debug s = Ok s' -> task_step s s'
| step_in_reply s' : TaskState_transition_to_in_reply TaskState_debug s = Ok s' -> task_step s s'
| step_completed o s' :
    TaskState_transition_to_completed TaskState_debug s o = Ok s' -> task_step s s'
| step_faulted f : task_step s (TaskState_transition_to_faulted s f).

(** What can follow a state. *)
Definition task_reaches (s s' : TaskState) : Prop :=
  match s, s' with
  | Runnable i, Runnable i' => i' = i
  | Runnable i, (InSend t | InReply t) => t = ti_task_id i
  | InSend t, (InSend t' | InReply t') => t' = t
  | InReply t, InReply t' => t' = t
  | (Runnable _ | InSend _ | InReply _), (Completed _ | Faulted _) => True
  | Completed o, Completed o' => o' = o
  | Faulted f, Faulted f' => f' = f
  | _, _ => False
  end.

Lemma task_reaches_step s s' : task_step s s' -> task_reaches s s'.
Proof. by destruct s; inversion_clear 1; simplify_eq/=. Qed.

Lemma task_reaches_refl s : task_reaches s s.
Proof. by destruct s. Qed.

Lemma task_reaches_trans s1 s2 s3 :
  task_reaches s1 s2 -> task_reaches s2 s3 -> task_reaches s1 s3.
Proof. destruct s1, s2, s3; simpl; naive_solver. Qed.

(** Whatever transitions are applied, in any
    order, a task moves only forward (runnable, in send, in reply, then completed
    or faulted), keeps its task id as long as it has one, and a completed or
    faulted task never changes; it is completed only by a transition from
    [InReply]. *)
Theorem task_state_forward (s s' : TaskState) :
  rtc task_step s s' ->
  task_reaches s s' /\
  (TaskState_is_terminal s = true -> s' = s) /\
  (forall t t', TaskState_task_id s = Some t -> TaskState_task_id s' = Some t' -> t' = t) /\
  (forall s0 o, task_step s0 (Completed o) -> s0 = Completed o \/ exists t, s0 = InReply t).
Proof.
  intros Hrun. assert (task_reaches s s') as Hr.
  { induction Hrun; eauto using task_reaches_refl, task_reaches_trans, task_reaches_step. }
  split_and!; [done|destruct s, s'; naive_solver|destruct s, s'; naive_solver|].
  intros s0 o. inversion 1; destruct s0; simplify_eq/=; eauto.
Qed.

(** On a runnable task, [execute] calls the kernel
    exactly once, with the task's own intent, and never reports a protocol
    violation: the task ends [Completed] with the outcome when the kernel
    succeeds and [Faulted] with the translated error when it fails; if an
    adapter panics the task stays [InReply], where no later [execute] runs it
    again.  On any other state [execute] refuses and neither the supervisor nor
    the kernel changes. *)
Theorem supervisor_execute (sv : TaskSupervisor) (k : K) pack_id token :
  TaskSupervisor_execute pack_id token (sv, k) =
  match tsv_state sv with
  | Runnable intent =>
      match LoongKernel_execute_task pack_id token intent k with
      | (Returned (Ok d), k') =>
          (Returned (Ok d), ({| tsv_state := Completed (kd_outcome d) |}, k'))
      | (Returned (Err e), k') =>
          (Returned (Err (Fault_from_kernel_error e)),
           ({| tsv_state := Faulted (Fault_from_kernel_error e) |}, k'))
      | (Panicked p, k') => (Panicked p, ({| tsv_state := InReply (ti_task_id intent) |}, k'))
      end
  | _ => (Returned (Err (ProtocolViolation "task is not in Runnable state")), (sv, k))
  end.
Proof.
  unfold TaskSupervisor_execute, bind at 1, gets at 1. simpl.
  destruct (tsv_state sv) as [intent| | | |] eqn:E; [|done..].
  unfold guarded, try_bind, bind, gets, ret, on_kernel, zoom, set_state, modify.
  simpl. rewrite E. simpl.
  by destruct (LoongKernel_execute_task pack_id token intent k) as [[[d|e]|p] k'].
Qed.
End supervisor.
