(* ===== verification/Integration.v ===== *)
(** * The integration catalog

    [crates/kernel/src/integration.rs]: the catalog of providers, channels and
    templates, the planner [AutoProvisionAgent], the application of a plan to
    the catalog and to a pack, and hotfixes. *)

From S2P Require Import Prelude RustStr Contracts.

(** ** Data *)

Record ProviderConfig : Type := {
  pv_provider_id : string;
  pv_connector_name : string;
  pv_version : string;
  pv_metadata : gmap string string;
}.

Record ChannelConfig : Type := {
  ch_channel_id : string;
  ch_provider_id : string;
  ch_endpoint : string;
  ch_enabled : bool;
  ch_metadata : gmap string string;
}.

Record ProviderTemplate : Type := {
  pt_provider_id : string;
  pt_default_connector_name : string;
  pt_default_version : string;
  pt_metadata : gmap string string;
}.

Record IntegrationCatalog : Type := {
  ic_providers : gmap string ProviderConfig;
  ic_channels : gmap string ChannelConfig;
  ic_templates : gmap string ProviderTemplate;
  ic_revision : Z;
}.

Record AutoProvisionRequest : Type := {
  apr_provider_id : string;
  apr_channel_id : string;
  apr_connector_name : option string;
  apr_endpoint : option string;
  apr_required_capabilities : gset Capability;
}.

Inductive ProvisionAction : Type :=
| AddProvider (provider : ProviderConfig) (reason : string)
| PatchProvider (provider : ProviderConfig) (reason : string)
| AddChannel (channel : ChannelConfig) (reason : string)
| PatchChannel (channel : ChannelConfig) (reason : string).

Record ProvisionPlan : Type := {
  pp_actions : list ProvisionAction;
  pp_pack_connector_additions : gset string;
  pp_pack_capability_additions : gset Capability;
}.

Inductive IntegrationHotfix : Type :=
| HotfixProviderVersion (provider_id new_version : string)
| HotfixProviderConnector (provider_id new_connector_name : string)
| HotfixChannelEndpoint (channel_id new_endpoint : string)
| HotfixChannelEnabled (channel_id : string) (enabled : bool).

Definition ProvisionPlan_is_noop (p : ProvisionPlan) : bool :=
  match pp_actions p with [] => true | _ => false end &&
  bool_decide (pp_pack_connector_additions p = ∅) &&
  bool_decide (pp_pack_capability_additions p = ∅).

(** ** The catalog *)

Definition IntegrationCatalog_new : IntegrationCatalog := {|
  ic_providers := ∅; ic_channels := ∅; ic_templates := ∅; ic_revision := 0 |}.

Definition IntegrationCatalog_register_template (t : ProviderTemplate) (c : IntegrationCatalog)
  : IntegrationCatalog := {|
  ic_providers := ic_providers c; ic_channels := ic_channels c;
  ic_templates := <[pt_provider_id t := t]> (ic_templates c); ic_revision := ic_revision c |}.

Definition IntegrationCatalog_template (provider_id : string) (c : IntegrationCatalog)
  : option ProviderTemplate := ic_templates c !! provider_id.

Definition IntegrationCatalog_upsert_provider (p : ProviderConfig) (c : IntegrationCatalog)
  : IntegrationCatalog := {|
  ic_providers := <[pv_provider_id p := p]> (ic_providers c); ic_channels := ic_channels c;
  ic_templates := ic_templates c; ic_revision := u64_saturating_add (ic_revision c) 1 |}.

Definition IntegrationCatalog_upsert_channel (ch : ChannelConfig) (c : IntegrationCatalog)
  : IntegrationCatalog := {|
  ic_providers := ic_providers c; ic_channels := <[ch_channel_id ch := ch]> (ic_channels c);
  ic_templates := ic_templates c; ic_revision := u64_saturating_add (ic_revision c) 1 |}.

Definition IntegrationCatalog_provider (provider_id : string) (c : IntegrationCatalog)
  : option ProviderConfig := ic_providers c !! provider_id.

Definition IntegrationCatalog_channel (channel_id : string) (c : IntegrationCatalog)
  : option ChannelConfig := ic_channels c !! channel_id.

Definition IntegrationCatalog_providers (c : IntegrationCatalog) : list ProviderConfig :=
  btree_map_values (ic_providers c).

Definition IntegrationCatalog_channels_for_provider (provider_id : string) (c : IntegrationCatalog)
  : list ChannelConfig :=
  filter (fun ch => ch_provider_id ch = provider_id) (btree_map_values (ic_channels c)).

(** [get_mut(..).ok_or(..)?] followed by a change of the entry. *)
Definition patch_provider (provider_id : string) (f : ProviderConfig -> ProviderConfig)
    (c : IntegrationCatalog) : result unit IntegrationError * IntegrationCatalog :=
  match ic_providers c !! provider_id with
  | None => (Err (ProviderNotFound provider_id), c)
  | Some p =>
      (Ok tt, {| ic_providers := <[provider_id := f p]> (ic_providers c);
                 ic_channels := ic_channels c; ic_templates := ic_templates c;
                 ic_revision := u64_saturating_add (ic_revision c) 1 |})
  end.

Definition patch_channel (channel_id : string) (f : ChannelConfig -> ChannelConfig)
    (c : IntegrationCatalog) : result unit IntegrationError * IntegrationCatalog :=
  match ic_channels c !! channel_id with
  | None => (Err (ChannelNotFound channel_id), c)
  | Some ch =>
      (Ok tt, {| ic_providers := ic_providers c;
                 ic_channels := <[channel_id := f ch]> (ic_channels c);
                 ic_templates := ic_templates c;
                 ic_revision := u64_saturating_add (ic_revision c) 1 |})
  end.

Definition IntegrationCatalog_apply_hotfix (hotfix : IntegrationHotfix) (c : IntegrationCatalog)
  : result unit IntegrationError * IntegrationCatalog :=
  match hotfix with
  | HotfixProviderVersion id v =>
      patch_provider id (fun p => {|
        pv_provider_id := pv_provider_id p; pv_connector_name := pv_connector_name p;
        pv_version := v; pv_metadata := pv_metadata p |}) c
  | HotfixProviderConnector id n =>
      patch_provider id (fun p => {|
        pv_provider_id := pv_provider_id p; pv_connector_name := n;
        pv_version := pv_version p; pv_metadata := pv_metadata p |}) c
  | HotfixChannelEndpoint id e =>
      patch_channel id (fun ch => {|
        ch_channel_id := ch_channel_id ch; ch_provider_id := ch_provider_id ch;
        ch_endpoint := e; ch_enabled := ch_enabled ch; ch_metadata := ch_metadata ch |}) c
  | HotfixChannelEnabled id b =>
      patch_channel id (fun ch => {|
        ch_channel_id := ch_channel_id ch; ch_provider_id := ch_provider_id ch;
        ch_endpoint := ch_endpoint ch; ch_enabled := b; ch_metadata := ch_metadata ch |}) c
  end.

Definition apply_action (c : IntegrationCatalog) (a : ProvisionAction) : IntegrationCatalog :=
  match a with
  | AddProvider p _ | PatchProvider p _ => IntegrationCatalog_upsert_provider p c
  | AddChannel ch _ | PatchChannel ch _ => IntegrationCatalog_upsert_channel ch c
  end.

(** [&mut self] and [&mut pack]: the new catalog and the new pack. *)
Definition IntegrationCatalog_apply_plan (plan : ProvisionPlan)
    (s : IntegrationCatalog * VerticalPackManifest)
  : result unit IntegrationError * (IntegrationCatalog * VerticalPackManifest) :=
  let (c, pack) := s in
  (Ok tt,
   (fold_left apply_action (pp_actions plan) c,
    {| vp_pack_id := vp_pack_id pack; vp_domain := vp_domain pack; vp_version := vp_version pack;
       vp_default_route := vp_default_route pack;
       vp_allowed_connectors := vp_allowed_connectors pack ∪ pp_pack_connector_additions plan;
       vp_granted_capabilities :=
         vp_granted_capabilities pack ∪ pp_pack_capability_additions plan;
       vp_metadata := vp_metadata pack |})).

(** ** The planner *)

Definition new_provider_from_request (c : IntegrationCatalog) (r : AutoProvisionRequest)
  : ProviderConfig :=
  match IntegrationCatalog_template (apr_provider_id r) c with
  | Some t => {|
      pv_provider_id := pt_provider_id t;
      pv_connector_name := default (pt_default_connector_name t) (apr_connector_name r);
      pv_version := pt_default_version t;
      pv_metadata := pt_metadata t |}
  | None => {|
      pv_provider_id := apr_provider_id r;
      pv_connector_name := default (apr_provider_id r +:+ "-connector") (apr_connector_name r);
      pv_version := "0.1.0";
      pv_metadata := {["source" := "auto-generated"]} |}
  end.

Definition set_connector_name (n : string) (p : ProviderConfig) : ProviderConfig := {|
  pv_provider_id := pv_provider_id p; pv_connector_name := n;
  pv_version := pv_version p; pv_metadata := pv_metadata p |}.

(** The provider the request will use, with the actions planned for it. *)
Definition plan_provider (c : IntegrationCatalog) (r : AutoProvisionRequest)
  : ProviderConfig * list ProvisionAction :=
  match IntegrationCatalog_provider (apr_provider_id r) c with
  | Some existing =>
      match apr_connector_name r with
      | Some expected =>
          if decide (pv_connector_name existing <> expected) then
            let patched := set_connector_name expected existing in
            (patched, [PatchProvider patched "connector override required by request"])
          else (existing, [])
      | None => (existing, [])
      end
  | None =>
      let p := new_provider_from_request c r in
      (p, [AddProvider p "provider missing and generated from template"])
  end.

(** The three repairs of an existing channel, each with whether it changed
    anything. *)
Definition repair_channel (existing : ChannelConfig) (provider_id : string)
    (endpoint : option string) : ChannelConfig * bool :=
  let rebound := negb (bool_decide (ch_provider_id existing = provider_id)) in
  let moved := match endpoint with
               | Some e => negb (bool_decide (ch_endpoint existing = e))
               | None => false
               end in
  ({| ch_channel_id := ch_channel_id existing;
      ch_provider_id := if rebound then provider_id else ch_provider_id existing;
      ch_endpoint := if moved then default (ch_endpoint existing) endpoint
                     else ch_endpoint existing;
      ch_enabled := if negb (ch_enabled existing) then true else ch_enabled existing;
      ch_metadata := ch_metadata existing |},
   rebound || negb (ch_enabled existing) || moved).

Definition plan_channel (c : IntegrationCatalog) (r : AutoProvisionRequest) (provider_id : string)
  : ChannelConfig * list ProvisionAction :=
  match IntegrationCatalog_channel (apr_channel_id r) c with
  | Some existing =>
      let (patched, changed) := repair_channel existing provider_id (apr_endpoint r) in
      if changed then
        (patched, [PatchChannel patched "channel requires repair for provider binding or endpoint"])
      else (existing, [])
  | None =>
      let ch := {|
        ch_channel_id := apr_channel_id r;
        ch_provider_id := provider_id;
        ch_endpoint := default ("https://" +:+ provider_id +:+ ".local/" +:+ apr_channel_id r
                                 +:+ "/invoke") (apr_endpoint r);
        ch_enabled := true;
        ch_metadata := ∅ |} in
      (ch, [AddChannel ch "channel missing and generated from provider defaults"])
  end.

Definition AutoProvisionAgent_plan (c : IntegrationCatalog) (pack : VerticalPackManifest)
    (r : AutoProvisionRequest) : result ProvisionPlan IntegrationError :=
  let (provider, provider_actions) := plan_provider c r in
  let (channel, channel_actions) := plan_channel c r (pv_provider_id provider) in
  let connectors :=
    if decide (pv_connector_name provider ∈ vp_allowed_connectors pack) then ∅
    else {[pv_connector_name provider]} in
  let invoke :=
    if decide (InvokeConnector ∈ vp_granted_capabilities pack) then ∅ else {[InvokeConnector]} in
  let capabilities :=
    invoke ∪ filter (fun cap => cap ∉ vp_granted_capabilities pack) (apr_required_capabilities r) in
  if negb (ch_enabled channel) then Err (ChannelDisabled (ch_channel_id channel)) else
  Ok {| pp_actions := provider_actions ++ channel_actions;
        pp_pack_connector_additions := connectors;
        pp_pack_capability_additions := capabilities |}.

(** ** Properties *)

(** Entries sit under their own ids. *)
Record catalog_wf (c : IntegrationCatalog) : Prop := {
  cw_providers : forall id p, ic_providers c !! id = Some p -> pv_provider_id p = id;
  cw_channels : forall id ch, ic_channels c !! id = Some ch -> ch_channel_id ch = id;
  cw_templates : forall id t, ic_templates c !! id = Some t -> pt_provider_id t = id;
  cw_revision : u64_valid (ic_revision c);
}.

Lemma catalog_wf_new : catalog_wf IntegrationCatalog_new.
Proof. by split. Qed.

Lemma catalog_wf_template t c : catalog_wf c -> catalog_wf (IntegrationCatalog_register_template t c).
Proof.
  intros [Hp Hc Ht Hr]. split; simpl; [done..| |done]. intros id t'.
  rewrite lookup_insert. case_decide; naive_solver.
Qed.

Lemma catalog_wf_action a c : catalog_wf c -> catalog_wf (apply_action c a).
Proof.
  intros [Hp Hc Ht Hr].
  destruct a; (split; simpl; [..|by apply u64_saturating_add_valid]; [..|done]; try done);
    intros id x; rewrite lookup_insert; case_decide; naive_solver.
Qed.

Lemma catalog_wf_actions l c : catalog_wf c -> catalog_wf (fold_left apply_action l c).
Proof. revert c. induction l as [|a l IH]; intros c Hc; simpl; auto using catalog_wf_action. Qed.

Lemma catalog_wf_hotfix h c : catalog_wf c -> catalog_wf (IntegrationCatalog_apply_hotfix h c).2.
Proof.
  intros [Hp Hc Ht Hr]. destruct h; simpl; unfold patch_provider, patch_channel;
    match goal with |- context [?m !! ?i] => destruct (m !! i) eqn:E end; simpl; try by split.
  all: split; simpl; [..|by apply u64_saturating_add_valid]; try done.
  all: intros id x; rewrite lookup_insert; case_decide; simplify_eq; intros; simplify_eq/=; eauto.
Qed.
#[export] Hint Resolve catalog_wf_new catalog_wf_template catalog_wf_actions catalog_wf_hotfix : rust.

(** What a request asks of a catalog and a pack. *)
Definition provisioned (c : IntegrationCatalog) (pack : VerticalPackManifest)
    (r : AutoProvisionRequest) : Prop :=
  exists p ch,
    ic_providers c !! apr_provider_id r = Some p /\ ic_channels c !! apr_channel_id r = Some ch /\
    ch_provider_id ch = apr_provider_id r /\ ch_enabled ch = true /\
    (forall n, apr_connector_name r = Some n -> pv_connector_name p = n) /\
    (forall e, apr_endpoint r = Some e -> ch_endpoint ch = e) /\
    pv_connector_name p ∈ vp_allowed_connectors pack /\
    {[InvokeConnector]} ∪ apr_required_capabilities r ⊆ vp_granted_capabilities pack.

Lemma repair_channel_spec existing pid e :
  let (ch, changed) := repair_channel existing pid e in
  ch_channel_id ch = ch_channel_id existing /\ ch_provider_id ch = pid /\ ch_enabled ch = true /\
  (forall x, e = Some x -> ch_endpoint ch = x) /\ (changed = false -> ch = existing) /\
  (ch_provider_id existing = pid -> ch_enabled existing = true ->
   (forall x, e = Some x -> ch_endpoint existing = x) -> changed = false).
Proof.
  unfold repair_channel. destruct existing as [id pid' ep en md]; simpl.
  case_bool_decide; destruct e as [x|]; try case_bool_decide; destruct en; simpl;
    split_and!; intros; try done; try congruence; exfalso; eauto.
Qed.

(** The planned provider is in the catalog once its actions are applied, and
    nothing else changed. *)
Lemma plan_provider_spec c r :
  catalog_wf c ->
  let (p, actions) := plan_provider c r in
  let c' := fold_left apply_action actions c in
  pv_provider_id p = apr_provider_id r /\ ic_providers c' = <[apr_provider_id r := p]> (ic_providers c) /\
  ic_channels c' = ic_channels c /\ ic_templates c' = ic_templates c /\
  (forall n, apr_connector_name r = Some n -> pv_connector_name p = n).
Proof.
  intros [Hp Hc Ht _]. unfold plan_provider, IntegrationCatalog_provider.
  destruct (ic_providers c !! apr_provider_id r) as [x|] eqn:E.
  - pose proof (Hp _ _ E) as Hid. destruct (apr_connector_name r) as [n|]; [case_decide|]; simpl.
    + rewrite Hid. split_and!; [done|done|done|done|naive_solver].
    + rewrite insert_id by done. split_and!; [done|done|done|done|naive_solver].
    + rewrite insert_id by done. by split_and!.
  - simpl. unfold new_provider_from_request, IntegrationCatalog_template.
    destruct (ic_templates c !! apr_provider_id r) as [t|] eqn:E'; simpl.
    + rewrite (Ht _ _ E'). split_and!; [done|done|done|done|]. by intros n ->.
    + split_and!; [done|done|done|done|]. by intros n ->.
Qed.

Lemma plan_channel_spec c c1 r pid :
  catalog_wf c -> ic_channels c1 = ic_channels c ->
  let (ch, actions) := plan_channel c r pid in
  let c' := fold_left apply_action actions c1 in
  ch_channel_id ch = apr_channel_id r /\ ic_channels c' = <[apr_channel_id r := ch]> (ic_channels c) /\
  ic_providers c' = ic_providers c1 /\ ch_provider_id ch = pid /\ ch_enabled ch = true /\
  (forall e, apr_endpoint r = Some e -> ch_endpoint ch = e).
Proof.
  intros [_ Hc _ _] Hch. unfold plan_channel, IntegrationCatalog_channel.
  destruct (ic_channels c !! apr_channel_id r) as [x|] eqn:E.
  - pose proof (Hc _ _ E) as Hid. pose proof (repair_channel_spec x pid (apr_endpoint r)) as Hs.
    destruct (repair_channel x pid (apr_endpoint r)) as [ch changed].
    destruct Hs as (Hid' & Hp & He & Hep & Hsame & _). destruct changed; simpl.
    + rewrite Hid', Hid, Hch. by split_and!.
    + rewrite Hsame in * by done. rewrite Hch, insert_id by done. by split_and!.
  - simpl. rewrite Hch. split_and!; try done. by intros e ->.
Qed.

(** Planning an already satisfied request changes nothing. *)
Lemma plan_provisioned c pack r :
  catalog_wf c -> provisioned c pack r ->
  AutoProvisionAgent_plan c pack r = Ok {|
    pp_actions := []; pp_pack_connector_additions := ∅; pp_pack_capability_additions := ∅ |}.
Proof.
  intros [Hp _ _ _] (p & ch & Ep & Ech & Hb & Hen & Hcn & Hep & Hconn & Hcap).
  unfold AutoProvisionAgent_plan, plan_provider, IntegrationCatalog_provider. rewrite Ep.
  replace (match apr_connector_name r with _ => _ end) with (p, @nil ProvisionAction).
  2:{ destruct (apr_connector_name r) as [n|]; [|done].
      by rewrite decide_False by (intros Hne; apply Hne; by apply Hcn). }
  unfold plan_channel, IntegrationCatalog_channel. rewrite Ech, (Hp _ _ Ep).
  pose proof (repair_channel_spec ch (apr_provider_id r) (apr_endpoint r)) as Hs.
  destruct (repair_channel ch _ _) as [ch' changed].
  destruct Hs as (_ & _ & _ & _ & _ & ->); [|done..]. rewrite Hen. simpl.
  rewrite !decide_True by set_solver. f_equal. f_equal. set_solver.
Qed.

(** On any catalog built by the catalog's operations,
    planning never fails; applying the plan makes the request satisfied (the
    provider with the asked connector, the channel bound to it, enabled, with the
    asked endpoint, the pack allowed the connector and granted the capabilities);
    the pack gains the provider's connector, [InvokeConnector] and the required
    capabilities and nothing else; no other provider or channel changes; and
    planning again finds nothing to do. *)
Theorem plan_apply_converges c pack r :
  catalog_wf c ->
  exists plan c' pack' p,
    AutoProvisionAgent_plan c pack r = Ok plan /\
    IntegrationCatalog_apply_plan plan (c, pack) = (Ok tt, (c', pack')) /\
    catalog_wf c' /\ provisioned c' pack' r /\
    ic_providers c' = <[apr_provider_id r := p]> (ic_providers c) /\
    (forall id, id <> apr_channel_id r -> ic_channels c' !! id = ic_channels c !! id) /\
    vp_allowed_connectors pack' = vp_allowed_connectors pack ∪ {[pv_connector_name p]} /\
    vp_granted_capabilities pack' =
      vp_granted_capabilities pack ∪ {[InvokeConnector]} ∪ apr_required_capabilities r /\
    exists plan', AutoProvisionAgent_plan c' pack' r = Ok plan' /\
      ProvisionPlan_is_noop plan' = true.
Proof.
  intros Hwf. unfold AutoProvisionAgent_plan at 1.
  pose proof (plan_provider_spec c r Hwf) as Hp.
  destruct (plan_provider c r) as [p pa]. destruct Hp as (Hpid & Hprov & Hch & _ & Hcn).
  pose proof (plan_channel_spec c (fold_left apply_action pa c) r (pv_provider_id p) Hwf Hch) as Hc.
  destruct (plan_channel c r _) as [ch ca]. destruct Hc as (Hcid & Hchan & Hprov' & Hb & Hen & Hep).
  rewrite Hen. simpl. set (plan := {| pp_actions := _ |}).
  set (c' := fold_left apply_action ca (fold_left apply_action pa c)) in *.
  set (pack' := (IntegrationCatalog_apply_plan plan (c, pack)).2.2).
  assert (vp_allowed_connectors pack' = vp_allowed_connectors pack ∪ {[pv_connector_name p]})
    as Hconn by (simpl; case_decide; set_solver).
  assert (vp_granted_capabilities pack' = vp_granted_capabilities pack ∪ {[InvokeConnector]}
    ∪ apr_required_capabilities r) as Hcap.
  { simpl. apply set_eq. intros x.
    destruct (decide (x ∈ vp_granted_capabilities pack)); case_decide; set_solver. }
  assert (catalog_wf c') as Hwf' by by apply catalog_wf_actions, catalog_wf_actions.
  assert (provisioned c' pack' r) as Hdone.
  { exists p, ch. rewrite Hprov', Hprov, Hchan, !lookup_insert_eq, Hconn, Hcap.
    split_and!; try done; [congruence|set_solver|set_solver]. }
  exists plan, c', pack', p. split_and!; try done.
  - unfold IntegrationCatalog_apply_plan, plan. simpl. by rewrite fold_left_app.
  - by rewrite Hprov', Hprov.
  - intros id Hid. rewrite Hchan. by apply lookup_insert_ne.
  - rewrite (plan_provisioned _ _ _ Hwf' Hdone). eexists; split; [done|].
    unfold ProvisionPlan_is_noop. simpl. by rewrite !bool_decide_eq_true_2.
Qed.

(** The hotfix that restores what a hotfix is about to overwrite. *)
Definition undo_hotfix (h : IntegrationHotfix) (c : IntegrationCatalog)
  : option IntegrationHotfix :=
  match h with
  | HotfixProviderVersion id _ =>
      (fun p => HotfixProviderVersion id (pv_version p)) <$> ic_providers c !! id
  | HotfixProviderConnector id _ =>
      (fun p => HotfixProviderConnector id (pv_connector_name p)) <$> ic_providers c !! id
  | HotfixChannelEndpoint id _ =>
      (fun ch => HotfixChannelEndpoint id (ch_endpoint ch)) <$> ic_channels c !! id
  | HotfixChannelEnabled id _ =>
      (fun ch => HotfixChannelEnabled id (ch_enabled ch)) <$> ic_channels c !! id
  end.

Lemma revision_twice c :
  u64_valid (ic_revision c) ->
  let r1 := u64_saturating_add (ic_revision c) 1 in
  ((ic_revision c < u64_max)%Z -> (ic_revision c < r1)%Z) /\
  (r1 <= u64_saturating_add r1 1 <= u64_max)%Z.
Proof. unfold u64_valid, u64_saturating_add, u64_max, u64_modulus. lia. Qed.

Lemma patch_provider_undo id f g c p :
  u64_valid (ic_revision c) -> ic_providers c !! id = Some p -> g (f p) = p ->
  exists c1 c2, patch_provider id f c = (Ok tt, c1) /\ patch_provider id g c1 = (Ok tt, c2) /\
    ic_providers c2 = ic_providers c /\ ic_channels c2 = ic_channels c /\
    ic_templates c2 = ic_templates c /\
    ((ic_revision c < u64_max)%Z -> (ic_revision c < ic_revision c1)%Z) /\
    (ic_revision c1 <= ic_revision c2 <= u64_max)%Z.
Proof.
  intros Hr Hp Hg. unfold patch_provider at 1. rewrite Hp. eexists _, _. split; [done|].
  unfold patch_provider. simpl. rewrite lookup_insert_eq. split; [done|]. simpl.
  rewrite Hg, insert_insert_eq, insert_id by done. split_and!; try done; by apply revision_twice.
Qed.

Lemma patch_channel_undo id f g c ch :
  u64_valid (ic_revision c) -> ic_channels c !! id = Some ch -> g (f ch) = ch ->
  exists c1 c2, patch_channel id f c = (Ok tt, c1) /\ patch_channel id g c1 = (Ok tt, c2) /\
    ic_providers c2 = ic_providers c /\ ic_channels c2 = ic_channels c /\
    ic_templates c2 = ic_templates c /\
    ((ic_revision c < u64_max)%Z -> (ic_revision c < ic_revision c1)%Z) /\
    (ic_revision c1 <= ic_revision c2 <= u64_max)%Z.
Proof.
  intros Hr Hp Hg. unfold patch_channel at 1. rewrite Hp. eexists _, _. split; [done|].
  unfold patch_channel. simpl. rewrite lookup_insert_eq. split; [done|]. simpl.
  rewrite Hg, insert_insert_eq, insert_id by done. split_and!; try done; by apply revision_twice.
Qed.

(** A hotfix fails, changing nothing, exactly when its target
    is not in the catalog.  Otherwise it changes one field of one entry, so that
    applying the hotfix with the old value restores every provider, channel and
    template; each of the two raises the revision (up to its maximum). *)
Theorem hotfix_reversible h c :
  catalog_wf c ->
  match undo_hotfix h c with
  | None => exists e, IntegrationCatalog_apply_hotfix h c = (Err e, c)
  | Some u =>
      exists c1 c2, IntegrationCatalog_apply_hotfix h c = (Ok tt, c1) /\
        IntegrationCatalog_apply_hotfix u c1 = (Ok tt, c2) /\
        ic_providers c2 = ic_providers c /\ ic_channels c2 = ic_channels c /\
        ic_templates c2 = ic_templates c /\
        ((ic_revision c < u64_max)%Z -> (ic_revision c < ic_revision c1)%Z) /\
        (ic_revision c1 <= ic_revision c2 <= u64_max)%Z
  end.
Proof.
  intros [_ _ _ Hr]. destruct h; simpl.
  1,2: destruct (ic_providers c !! provider_id) as [x|] eqn:E; simpl;
    [by apply patch_provider_undo with x; try done; destruct x
    |unfold patch_provider; rewrite E; eauto].
  all: destruct (ic_channels c !! channel_id) as [x|] eqn:E; simpl;
    [by apply patch_channel_undo with x; try done; destruct x
    |unfold patch_channel; rewrite E; eauto].
Qed.
