(* ===== verification/Architecture.v ===== *)
(** * The architecture guard

    [crates/kernel/src/architecture.rs]: a change set is checked path by path
    against immutable and mutable prefixes. *)

From S2P Require Import Prelude RustStr.

(** ** Data *)

Inductive ArchitecturePathDecision : Type :=
| AllowedMutable
| DeniedImmutable
| DeniedUnknown.

#[export] Instance ArchitecturePathDecision_eq_dec : EqDecision ArchitecturePathDecision.
Proof. solve_decision. Defined.

Record ArchitecturePathReport : Type := {
  apr_path : string;
  apr_decision : ArchitecturePathDecision;
  apr_matched_prefix : option string;
  apr_reason : string;
}.

Record ArchitectureGuardReport : Type := {
  agr_total_paths : Z;
  agr_allowed_paths : list string;
  agr_denied_paths : list string;
  agr_unknown_paths : list string;
  agr_reports : list ArchitecturePathReport;
}.

Definition ArchitectureGuardReport_default : ArchitectureGuardReport := {|
  agr_total_paths := 0; agr_allowed_paths := []; agr_denied_paths := [];
  agr_unknown_paths := []; agr_reports := [] |}.

Definition ArchitectureGuardReport_has_denials (r : ArchitectureGuardReport) : bool :=
  match agr_denied_paths r with [] => false | _ => true end.

Record ArchitectureBoundaryPolicy : Type := {
  abp_immutable_prefixes : gset string;
  abp_mutable_prefixes : gset string;
}.

Definition ArchitectureBoundaryPolicy_default : ArchitectureBoundaryPolicy := {|
  abp_immutable_prefixes := list_to_set
    ["crates/kernel/src/contracts.rs"; "crates/kernel/src/errors.rs";
     "crates/kernel/src/harness.rs"; "crates/kernel/src/kernel.rs";
     "crates/kernel/src/policy.rs"];
  abp_mutable_prefixes := list_to_set
    ["README.md"; "crates/daemon/src/"; "crates/kernel/src/audit.rs";
     "crates/kernel/src/architecture.rs"; "crates/kernel/src/awareness.rs";
     "crates/kernel/src/connector.rs"; "crates/kernel/src/integration.rs";
     "crates/kernel/src/memory.rs"; "crates/kernel/src/plugin.rs";
     "crates/kernel/src/plugin_ir.rs"; "crates/kernel/src/policy_ext.rs";
     "crates/kernel/src/runtime.rs"; "crates/kernel/src/tests.rs";
     "crates/kernel/src/tool.rs"; "docs/"; "examples/"];
|}.

(** ** Matching *)

Definition normalize (path : string) : string :=
  let replaced := replace_char "\"%char "/"%char (trim path) in
  let without_prefix := default replaced (strip_prefix "./" replaced) in
  trim_start_char "/"%char without_prefix.

Definition prefix_matches (path prefix : string) : bool :=
  if str_is_empty prefix then false else
  if bool_decide (path = prefix) then true else
  match strip_suffix "/" prefix with
  | Some trimmed => bool_decide (path = trimmed) || starts_with prefix path
  | None => starts_with (prefix +:+ "/") path
  end.

(** [Iterator::max_by_key]: of several maxima, the last. *)
Fixpoint max_by_key {A} (key : A -> nat) (l : list A) : option A :=
  match l with
  | [] => None
  | x :: l =>
      match max_by_key key l with
      | None => Some x
      | Some y => if key x <=? key y then Some y else Some x
      end
  end.

Definition longest_prefix_match (path : string) (prefixes : list string) : option string :=
  max_by_key String.length (filter (fun prefix => prefix_matches path prefix = true) prefixes).

(** ** Evaluation *)

(** The loop body. *)
Definition evaluate_path (immutable mutable : list string) (report : ArchitectureGuardReport)
    (path : string) : ArchitectureGuardReport :=
  let normalized := normalize path in
  let total := u64_saturating_add (agr_total_paths report) 1 in
  match longest_prefix_match normalized immutable with
  | Some prefix => {|
      agr_total_paths := total;
      agr_allowed_paths := agr_allowed_paths report;
      agr_denied_paths := agr_denied_paths report ++ [normalized];
      agr_unknown_paths := agr_unknown_paths report;
      agr_reports := agr_reports report ++ [{|
        apr_path := normalized; apr_decision := DeniedImmutable;
        apr_matched_prefix := Some prefix;
        apr_reason := "path is protected by immutable core boundary: " +:+ prefix |}] |}
  | None =>
      match longest_prefix_match normalized mutable with
      | Some prefix => {|
          agr_total_paths := total;
          agr_allowed_paths := agr_allowed_paths report ++ [normalized];
          agr_denied_paths := agr_denied_paths report;
          agr_unknown_paths := agr_unknown_paths report;
          agr_reports := agr_reports report ++ [{|
            apr_path := normalized; apr_decision := AllowedMutable;
            apr_matched_prefix := Some prefix;
            apr_reason := "path is inside mutable extension boundary: " +:+ prefix |}] |}
      | None => {|
          agr_total_paths := total;
          agr_allowed_paths := agr_allowed_paths report;
          agr_denied_paths := agr_denied_paths report ++ [normalized];
          agr_unknown_paths := agr_unknown_paths report ++ [normalized];
          agr_reports := agr_reports report ++ [{|
            apr_path := normalized; apr_decision := DeniedUnknown;
            apr_matched_prefix := None;
            apr_reason := "path is outside declared mutable boundaries" |}] |}
      end
  end.

Definition ArchitectureBoundaryPolicy_evaluate_paths (p : ArchitectureBoundaryPolicy)
    (paths : list string) : ArchitectureGuardReport :=
  fold_left (evaluate_path (map normalize (btree_set_iter (abp_immutable_prefixes p)))
                           (map normalize (btree_set_iter (abp_mutable_prefixes p))))
    paths ArchitectureGuardReport_default.

(** ** Properties *)

(** A path lies under a boundary: it is the boundary, or below it, component by
    component. *)
Definition lies_under (path prefix : string) : Prop :=
  prefix <> "" /\
  exists base, (prefix = base \/ prefix = base +:+ "/") /\
    (path = base \/ exists rest, path = base +:+ "/" +:+ rest).

Lemma strip_slash_None base : strip_suffix "/" (base +:+ "/") = Some base.
Proof. by apply strip_suffix_Some. Qed.

Lemma prefix_matches_spec path prefix :
  prefix_matches path prefix = true -> lies_under path prefix.
Proof.
  unfold prefix_matches, lies_under. destruct (str_is_empty prefix) eqn:Hne; [done|].
  assert (prefix <> "") as Hp by (by intros ->). intros Hm. split; [done|].
  case_bool_decide as Heq; [subst; exists prefix; auto|].
  destruct (strip_suffix "/" prefix) as [base|] eqn:Hs.
  - apply strip_suffix_Some in Hs. exists base. split; [auto|].
    apply orb_prop in Hm as [Hm|[rest Hm]%starts_with_spec].
    + left. by apply bool_decide_eq_true in Hm.
    + right. exists rest. by rewrite Hm, Hs, str_app_assoc.
  - exists prefix. split; [auto|]. apply starts_with_spec in Hm as [rest ->]. right. exists rest.
    by rewrite str_app_assoc.
Qed.

Lemma lies_under_matches path prefix base rest :
  prefix <> "" -> (prefix = base +:+ "/" \/ strip_suffix "/" prefix = None /\ prefix = base) ->
  (path = base \/ path = base +:+ "/" +:+ rest) -> prefix_matches path prefix = true.
Proof.
  intros Hne Hpre Hpath. unfold prefix_matches. destruct prefix as [|c prefix]; [done|].
  simpl str_is_empty. cbn iota. case_bool_decide as Heq; [done|].
  destruct Hpre as [Hpre|[Hs Hpre]].
  - rewrite Hpre, strip_slash_None. apply orb_true_intro.
    destruct Hpath as [->| ->]; [left; by apply bool_decide_eq_true|right].
    apply starts_with_spec. exists rest. by rewrite str_app_assoc.
  - rewrite Hs, Hpre. destruct Hpath as [->| ->]; [congruence|].
    apply starts_with_spec. exists rest. by rewrite str_app_assoc.
Qed.

Lemma max_by_key_spec {A} (key : A -> nat) l :
  match max_by_key key l with
  | None => l = []
  | Some x => x ∈ l /\ forall y, y ∈ l -> key y <= key x
  end.
Proof.
  induction l as [|x l IH]; simpl; [done|].
  destruct (max_by_key key l) as [y|].
  - destruct IH as [Hy Hmax]. destruct (Nat.leb_spec (key x) (key y)).
    + split; [set_solver|]. intros z [->|Hz]%elem_of_cons; auto.
    + split; [set_solver|]. intros z [->|Hz]%elem_of_cons; [done|]. apply Hmax in Hz. lia.
  - subst. split; [set_solver|]. by intros z ->%list_elem_of_singleton.
Qed.

Lemma longest_prefix_match_spec path prefixes :
  match longest_prefix_match path prefixes with
  | None => forall x, x ∈ prefixes -> prefix_matches path x = false
  | Some x => x ∈ prefixes /\ prefix_matches path x = true /\
      forall y, y ∈ prefixes -> prefix_matches path y = true -> String.length y <= String.length x
  end.
Proof.
  unfold longest_prefix_match. pose proof (max_by_key_spec String.length
    (filter (fun prefix => prefix_matches path prefix = true) prefixes)) as H.
  destruct (max_by_key _ _) as [x|].
  - destruct H as [[Hm Hx]%list_elem_of_filter Hmax]. split_and!; [done..|].
    intros y Hy Hym. apply Hmax. by apply list_elem_of_filter.
  - intros x Hx. apply not_true_is_false. intros Hm.
    assert (x ∈ filter (fun prefix => prefix_matches path prefix = true) prefixes) as Hin
      by (by apply list_elem_of_filter).
    rewrite H in Hin. by apply elem_of_nil in Hin.
Qed.

(** What the guard decides of one path. *)
Definition path_decision (p : ArchitectureBoundaryPolicy) (path : string)
  : ArchitecturePathDecision :=
  let under prefixes := existsb (fun x => prefix_matches (normalize path) (normalize x))
                          (elements (prefixes : gset string)) in
  if under (abp_immutable_prefixes p) then DeniedImmutable
  else if under (abp_mutable_prefixes p) then AllowedMutable else DeniedUnknown.

Lemma longest_prefix_under path (s : gset string) :
  is_Some (longest_prefix_match path (map normalize (btree_set_iter s))) <->
  existsb (fun x => prefix_matches path (normalize x)) (elements s) = true.
Proof.
  pose proof (longest_prefix_match_spec path (map normalize (btree_set_iter s))) as H.
  assert (forall y, y ∈ map normalize (btree_set_iter s) <-> exists x, y = normalize x /\ x ∈ s) as Hin.
  { intros y. rewrite list_elem_of_fmap. by setoid_rewrite elem_of_btree_set_iter. }
  rewrite existsb_exists. split.
  - intros [y Hy]. rewrite Hy in H. destruct H as (Hy' & Hm & _).
    apply Hin in Hy' as (x & -> & Hx). exists x. split; [|done].
    by apply list_elem_of_In, elem_of_elements.
  - intros (x & Hx%list_elem_of_In%elem_of_elements & Hm).
    destruct (longest_prefix_match _ _) as [y|]; [by eexists|].
    rewrite H in Hm; [done|]. apply Hin. eauto.
Qed.

Section guard.
Variable p : ArchitectureBoundaryPolicy.

Local Abbreviation step :=
  (evaluate_path (map normalize (btree_set_iter (abp_immutable_prefixes p)))
                 (map normalize (btree_set_iter (abp_mutable_prefixes p)))).

(** What one report line says. *)
Definition reports_path (path : string) (rp : ArchitecturePathReport) : Prop :=
  apr_path rp = normalize path /\ apr_decision rp = path_decision p path /\
  match apr_matched_prefix rp with
  | None => apr_decision rp = DeniedUnknown
  | Some x => lies_under (apr_path rp) x
  end.

Lemma evaluate_path_step r path :
  let d := path_decision p path in
  let r' := step r path in
  agr_total_paths r' = u64_saturating_add (agr_total_paths r) 1 /\
  agr_allowed_paths r' = agr_allowed_paths r ++ (if decide (d = AllowedMutable) then [normalize path] else []) /\
  agr_denied_paths r' = agr_denied_paths r ++ (if decide (d = AllowedMutable) then [] else [normalize path]) /\
  agr_unknown_paths r' = agr_unknown_paths r ++ (if decide (d = DeniedUnknown) then [normalize path] else []) /\
  exists rp, agr_reports r' = agr_reports r ++ [rp] /\ reports_path path rp.
Proof.
  simpl. unfold evaluate_path, reports_path, path_decision.
  pose proof (longest_prefix_under (normalize path) (abp_immutable_prefixes p)) as Hi.
  pose proof (longest_prefix_under (normalize path) (abp_mutable_prefixes p)) as Hm.
  pose proof (longest_prefix_match_spec (normalize path)
    (map normalize (btree_set_iter (abp_immutable_prefixes p)))) as Hsi.
  pose proof (longest_prefix_match_spec (normalize path)
    (map normalize (btree_set_iter (abp_mutable_prefixes p)))) as Hsm.
  destruct (longest_prefix_match _ (map normalize (btree_set_iter (abp_immutable_prefixes p))))
    as [x|].
  - rewrite (proj1 Hi) by eauto. simpl. rewrite !app_nil_r.
    split_and!; try done. eexists; split; [done|]. split_and!; try done. simpl.
    apply prefix_matches_spec, Hsi.
  - destruct (existsb _ (elements (abp_immutable_prefixes p))) eqn:Ei;
      [by destruct (proj2 Hi eq_refl)|].
    destruct (longest_prefix_match _ (map normalize (btree_set_iter (abp_mutable_prefixes p))))
      as [x|].
    + rewrite (proj1 Hm) by eauto. simpl. rewrite !app_nil_r.
      split_and!; try done. eexists; split; [done|]. split_and!; try done. simpl.
      apply prefix_matches_spec, Hsm.
    + destruct (existsb _ (elements (abp_mutable_prefixes p))) eqn:Em;
        [by destruct (proj2 Hm eq_refl)|]. simpl. rewrite ?app_nil_r.
      split_and!; try done. by eexists.
Qed.

(** A change set gets one report line per path,
    in order.  A path below an immutable boundary is denied whatever else it
    matches; otherwise a path below a mutable boundary is allowed and any other is
    denied; "below" is component by component, and the boundary reported is one
    the path lies under.  The allowed, denied and unknown lists are exactly the
    paths so decided, so the guard reports no denial exactly when every path is
    allowed. *)
Theorem guard_classifies (paths : list string) :
  let r := ArchitectureBoundaryPolicy_evaluate_paths p paths in
  agr_total_paths r = Z.min (Z.of_nat (length paths)) u64_max /\
  Forall2 reports_path paths (agr_reports r) /\
  agr_allowed_paths r = normalize <$> filter (fun x => path_decision p x = AllowedMutable) paths /\
  agr_denied_paths r = normalize <$> filter (fun x => path_decision p x <> AllowedMutable) paths /\
  agr_unknown_paths r = normalize <$> filter (fun x => path_decision p x = DeniedUnknown) paths /\
  (ArchitectureGuardReport_has_denials r = false <->
   Forall (fun x => path_decision p x = AllowedMutable) paths).
Proof.
  unfold ArchitectureBoundaryPolicy_evaluate_paths, ArchitectureGuardReport_has_denials.
  induction paths as [|path paths IH] using rev_ind; [by repeat constructor|].
  rewrite fold_left_app. cbn [fold_left]. set (r := fold_left _ paths _) in *.
  destruct IH as (IHt & IHr & IHa & IHd & IHu & IHn).
  destruct (evaluate_path_step r path) as (Ht & Ha & Hd & Hu & rp & Hrp & Hrep).
  rewrite Ht, Ha, Hd, Hu, Hrp, IHt, IHa, IHd, IHu, length_app, !filter_app, !fmap_app, Forall_app,
    Forall_singleton.
  split_and!.
  - unfold u64_saturating_add, u64_max, u64_modulus. simpl. lia.
  - apply Forall2_app; [done|]. by constructor.
  - f_equal. rewrite filter_cons, filter_nil. by repeat case_decide.
  - f_equal. rewrite filter_cons, filter_nil. by repeat case_decide.
  - f_equal. rewrite filter_cons, filter_nil. by repeat case_decide.
  - rewrite <- IHn, IHd. destruct (decide (path_decision p path = AllowedMutable)).
    + rewrite app_nil_r. tauto.
    + split; [|tauto]. intros Hf. exfalso. revert Hf.
      destruct (normalize <$> filter (fun x => path_decision p x <> AllowedMutable) paths); discriminate.
Qed.
End guard.

(** Under the default policy every
    path of printable ASCII written as a detour through the documentation
    directory is allowed, also one that names an immutable kernel file. *)
Theorem detour_is_allowed (target : string) :
  str_forallb (fun c => is_visible c && negb (char_eqb c "\"%char)) target = true ->
  path_decision ArchitectureBoundaryPolicy_default ("docs/../" +:+ target) = AllowedMutable /\
  path_decision ArchitectureBoundaryPolicy_default "crates/kernel/src/kernel.rs" = DeniedImmutable.
Proof.
  intros Ht. split; [|by vm_compute].
  assert (normalize ("docs/../" +:+ target) = "docs/../" +:+ target) as Hn.
  { unfold normalize. rewrite trim_visible.
    2:{ rewrite str_forallb_app. simpl. eapply str_forallb_impl; [|exact Ht].
        intros c Hc. by apply andb_prop in Hc as [? _]. }
    rewrite replace_char_absent; [done|]. rewrite str_forallb_app. simpl.
    eapply str_forallb_impl; [|exact Ht]. intros c Hc. by apply andb_prop in Hc as [_ ?]. }
  unfold path_decision. rewrite Hn. by vm_compute.
Qed.

Lemma detour_is_allowed_witness :
  path_decision ArchitectureBoundaryPolicy_default "docs/../crates/kernel/src/kernel.rs"
  = AllowedMutable.
Proof. apply (detour_is_allowed "crates/kernel/src/kernel.rs"). reflexivity. Defined.
