(* ===== verification/Mailbox.v ===== *)
(** * Agent paths and mailboxes

    [crates/kernel/src/mailbox.rs].  The channels are [tokio]'s: the class
    [UnboundedChannel] has the calls the mailbox makes, [UnboundedChannelLaws]
    what [tokio] documents of them (first in, first out; sending fails only
    when the receiver is gone). *)

From Stdlib Require Import Ascii.
From S2P Require Import Prelude RustStr Contracts.

(** ** Agent paths *)

Definition ROOT_AGENT_PATH : string := "/root".

Record AgentPath : Type := { ap_path : string }.

#[export] Instance AgentPath_eq_dec : EqDecision AgentPath.
Proof. solve_decision. Defined.

Definition is_segment_char (c : ascii) : bool :=
  is_ascii_alphanumeric c || char_eqb c "_"%char || char_eqb c "-"%char
  || char_eqb c "."%char || char_eqb c ":"%char.

Definition is_valid_segment (segment : string) : bool := str_forallb is_segment_char segment.

(** The loop over the segments. *)
Fixpoint check_segments (segments : list string) : result (list string) string :=
  match segments with
  | [] => Ok []
  | segment :: rest =>
      if str_is_empty segment then Err "agent_path_invalid: empty path segment" else
      if negb (is_valid_segment segment) then
        Err ("agent_path_invalid: segment `" +:+ segment +:+ "` contains unsupported characters")
      else
        let* rest := check_segments rest in
        Ok (segment :: rest)
  end.

Definition normalize_agent_path (raw : string) : result string string :=
  let trimmed := trim raw in
  if str_is_empty trimmed then Err "agent_path_invalid: path must not be empty" else
  if negb (starts_with "/" trimmed) then Err "agent_path_invalid: path must start with `/`" else
  let* segments := check_segments (drop 1 (split_char "/"%char trimmed)) in
  match segments with
  | [] => Err "agent_path_invalid: root segment is required"
  | _ => Ok ("/" +:+ join "/" segments)
  end.

Definition AgentPath_from_string (raw : string) : result AgentPath string :=
  let* normalized := normalize_agent_path raw in
  Ok {| ap_path := normalized |}.

Definition AgentPath_root : AgentPath := {| ap_path := ROOT_AGENT_PATH |}.

Definition AgentPath_join (p : AgentPath) (child : string) : result AgentPath string :=
  let child := trim child in
  if str_is_empty child then Err "agent_path_invalid: child segment must not be empty" else
  if str_contains_char "/"%char child then
    Err "agent_path_invalid: child segment must not contain `/`" else
  if negb (is_valid_segment child) then
    Err ("agent_path_invalid: child segment `" +:+ child +:+ "` contains unsupported characters")
  else AgentPath_from_string (ap_path p +:+ "/" +:+ child).

(** ** Mailboxes *)

Section messages.
Context {J : SerdeJson}.

Inductive MailboxContent : Type :=
| DelegateResult (session_id : string) (frozen_result : Value)
| StatusNotification (reason : string).

Record InterAgentMessage : Type := {
  iam_author : AgentPath;
  iam_recipient : AgentPath;
  iam_content : MailboxContent;
  iam_trigger_turn : bool;
}.
End messages.

(** [tokio::sync::mpsc::unbounded_channel], both ends. *)
Class UnboundedChannel (T : Type) : Type := {
  Chan : Type;
  chan_new : Chan;
  chan_send : T -> Chan -> result unit string * Chan;
  chan_try_recv : Chan -> option T * Chan;
}.

(** The messages sent and not yet received, oldest first. *)
Class UnboundedChannelLaws (T : Type) `{!UnboundedChannel T} : Type := {
  chan_queue : Chan -> list T;
  chan_queue_new : chan_queue chan_new = [];
  chan_send_ok : forall m c, exists c', chan_send m c = (Ok tt, c') /\
    chan_queue c' = chan_queue c ++ [m];
  chan_try_recv_some : forall c m q, chan_queue c = m :: q ->
    exists c', chan_try_recv c = (Some m, c') /\ chan_queue c' = q;
  chan_try_recv_none : forall c, chan_queue c = [] ->
    exists c', chan_try_recv c = (None, c') /\ chan_queue c' = [];
}.

Section mailbox.
Context {J : SerdeJson} `{!UnboundedChannel InterAgentMessage}.

(** The channel, the count of messages sent, and the last value the watch
    channel was given. *)
Record AgentMailbox : Type := {
  mb_channel : Chan;
  mb_sequence : Z;
  mb_notifier : Z;
}.

Definition AgentMailbox_new : AgentMailbox := {|
  mb_channel := chan_new; mb_sequence := 0; mb_notifier := 0 |}.

Definition AgentMailbox_send (msg : InterAgentMessage) : M AgentMailbox (result unit string) :=
  fun mb =>
  let (r, ch) := chan_send msg (mb_channel mb) in
  match r with
  | Err error =>
      (Returned (Err ("agent_mailbox_closed: " +:+ error)),
       {| mb_channel := ch; mb_sequence := mb_sequence mb; mb_notifier := mb_notifier mb |})
  | Ok _ =>
      let next_seq := u64_wrapping_add (mb_sequence mb) 1 in
      (Returned (Ok tt),
       {| mb_channel := ch; mb_sequence := next_seq; mb_notifier := next_seq |})
  end.

(** [while let Ok(message) = receiver.try_recv()], for at most [fuel] rounds;
    [None] when the rounds did not suffice. *)
Fixpoint drain_loop (fuel : nat) (ch : Chan) (drained : list InterAgentMessage)
  : option (list InterAgentMessage * Chan) :=
  match fuel with
  | O => None
  | S fuel =>
      match chan_try_recv ch with
      | (Some message, ch') => drain_loop fuel ch' (drained ++ [message])
      | (None, ch') => Some (drained, ch')
      end
  end.

Definition AgentMailbox_drain (fuel : nat) (mb : AgentMailbox)
  : option (list InterAgentMessage * AgentMailbox) :=
  match drain_loop fuel (mb_channel mb) [] with
  | None => None
  | Some (drained, ch) =>
      Some (drained, {| mb_channel := ch; mb_sequence := mb_sequence mb;
                        mb_notifier := mb_notifier mb |})
  end.
End mailbox.

(** ** Properties of paths *)

Definition segment_ok (s : string) : Prop := s <> "" /\ is_valid_segment s = true.

(** A normalized path: a slash before each of one or more segments. *)
Definition agent_path_wf (p : AgentPath) : Prop :=
  exists segments, segments <> [] /\ Forall segment_ok segments /\
    ap_path p = "/" +:+ join "/" segments.

Lemma segment_char_visible c : is_segment_char c = true -> is_visible c = true.
Proof.
  unfold is_segment_char, is_ascii_alphanumeric, is_ascii_uppercase, is_ascii_lowercase,
    is_ascii_digit, is_visible.
  rewrite !orb_true_iff, !andb_true_iff, !N.leb_le, !char_eqb_eq.
  intros [[[[[[?|?]|?]| ->]| ->]| ->]| ->]; try lia; by vm_compute.
Qed.

Lemma segment_lacks_slash s : is_valid_segment s = true -> lacks_char "/"%char s = true.
Proof.
  unfold is_valid_segment, lacks_char, str_contains_char. rewrite negb_involutive.
  apply str_forallb_impl. intros c Hc. apply negb_true_iff, not_true_is_false.
  rewrite char_eqb_eq. by intros ->.
Qed.

Lemma segments_lack_slash l :
  Forall segment_ok l -> Forall (fun s => lacks_char "/"%char s = true) l.
Proof. intros Hl. eapply Forall_impl; [exact Hl|]. intros s [_ Hs]. by apply segment_lacks_slash. Qed.

Lemma join_visible l :
  Forall segment_ok l -> str_forallb is_visible (join "/" l) = true.
Proof.
  induction 1 as [|s l [_ Hs] Hl IH]; [done|].
  assert (str_forallb is_visible s = true) as Hv
    by (eapply str_forallb_impl; [exact segment_char_visible|exact Hs]).
  destruct l as [|s' l]; [done|].
  change (join "/" (s :: s' :: l)) with (s +:+ "/" +:+ join "/" (s' :: l)).
  rewrite !str_forallb_app, Hv, IH. done.
Qed.

Lemma check_segments_ok l : Forall segment_ok l -> check_segments l = Ok l.
Proof.
  induction 1 as [|s l [Hne Hs] Hl IH]; simpl; [done|]. destruct s; [done|]. simpl.
  rewrite Hs, IH. done.
Qed.

Lemma check_segments_inv l l' : check_segments l = Ok l' -> l' = l /\ Forall segment_ok l.
Proof.
  revert l'. induction l as [|s l IH]; intros l'; simpl; [by intros [= <-]|].
  destruct (str_is_empty s) eqn:He; [done|]. destruct (is_valid_segment s) eqn:Hs; [|done]. simpl.
  destruct (check_segments l) as [r|] eqn:E; simpl; [|done]. intros [= <-].
  destruct (IH r eq_refl) as [-> Hl]. split; [done|]. constructor; [|done]. split; [|done].
  by intros ->.
Qed.

Lemma normalize_wf segments :
  segments <> [] -> Forall segment_ok segments ->
  normalize_agent_path ("/" +:+ join "/" segments) = Ok ("/" +:+ join "/" segments).
Proof.
  intros Hne Hs. unfold normalize_agent_path. rewrite trim_visible.
  2:{ rewrite str_forallb_app, join_visible by done. done. }
  change (split_char "/"%char ("/" +:+ join "/" segments))
    with ("" :: split_char "/"%char (join "/" segments)).
  rewrite split_char_join by (try done; by apply segments_lack_slash). simpl.
  rewrite check_segments_ok by done. simpl. by destruct segments.
Qed.

(** A text is an agent path exactly when, trimmed, it is a
    slash before each of one or more non-empty segments of the allowed
    characters; the path is then the trimmed text, so reading a path back gives
    the same path. *)
Theorem agent_path_round_trip (raw : string) (p : AgentPath) :
  (AgentPath_from_string raw = Ok p <-> ap_path p = trim raw /\ agent_path_wf p) /\
  (AgentPath_from_string raw = Ok p -> AgentPath_from_string (ap_path p) = Ok p).
Proof.
  assert (forall q, agent_path_wf q -> AgentPath_from_string (ap_path q) = Ok q) as Hwf.
  { intros [q] (segs & Hne & Hs & Hq). simpl in Hq. subst q. unfold AgentPath_from_string. simpl.
    by rewrite normalize_wf. }
  assert (AgentPath_from_string raw = Ok p -> ap_path p = trim raw /\ agent_path_wf p) as Hto.
  { unfold AgentPath_from_string, normalize_agent_path.
    destruct (str_is_empty (trim raw)) eqn:He; [done|].
    destruct (starts_with "/" (trim raw)) eqn:Hst; simpl; [|done].
    apply starts_with_spec in Hst as [rest Hrest].
    destruct (check_segments _) as [segs|] eqn:Hc; simpl; [|done].
    apply check_segments_inv in Hc as [-> Hs].
    rewrite Hrest in *. change (split_char "/"%char ("/" +:+ rest)) with ("" :: split_char "/"%char rest) in *.
    cbn [drop] in *. destruct (join_split_char "/"%char rest) as (Hj & Hne & _).
    destruct (split_char "/"%char rest) as [|s segs] eqn:Esplit; [done|].
    intros [= <-]. cbn [ap_path]. split; [by rewrite <- Hj|]. by exists (s :: segs). }
  split; [split; [done|]|].
  - intros [Ht Hp]. specialize (Hwf _ Hp). unfold AgentPath_from_string, normalize_agent_path in *.
    rewrite Ht in Hwf. destruct Hp as (segs & _ & Hs & Hq).
    assert (trim (trim raw) = trim raw) as Htt.
    { rewrite <- Ht, Hq, trim_visible; [done|]. rewrite str_forallb_app, join_visible by done. done. }
    by rewrite Htt in Hwf.
  - intros [_ Hp]%Hto. by apply Hwf.
Qed.

(** From an agent path, a child whose trimmed name is not empty
    and of the allowed characters gives the path one segment deeper; any other
    child is refused.  Different children give different paths, and no child path
    is its parent. *)
Theorem agent_path_join_spec (p : AgentPath) (child : string) :
  agent_path_wf p ->
  match AgentPath_join p child with
  | Ok q => segment_ok (trim child) /\ ap_path q = ap_path p +:+ "/" +:+ trim child /\
      agent_path_wf q /\ q <> p /\
      (forall child' q', AgentPath_join p child' = Ok q' -> trim child' <> trim child -> q' <> q)
  | Err _ => ~ segment_ok (trim child)
  end.
Proof.
  intros (segs & Hne & Hs & Hp).
  assert (forall c, segment_ok c -> ap_path p +:+ "/" +:+ c = "/" +:+ join "/" (segs ++ [c])) as Hjoin.
  { intros c _. rewrite Hp, !str_app_assoc. f_equal. clear -Hne.
    induction segs as [|s segs IH]; [done|]. destruct segs as [|s' segs]; [done|].
    change (join "/" (s :: s' :: segs)) with (s +:+ "/" +:+ join "/" (s' :: segs)).
    rewrite !str_app_assoc. simpl app. change (join "/" (s :: s' :: segs ++ [c]))
      with (s +:+ "/" +:+ join "/" ((s' :: segs) ++ [c])). by rewrite <- IH. }
  assert (forall c, segment_ok (trim c) ->
    AgentPath_join p c = Ok {| ap_path := ap_path p +:+ "/" +:+ trim c |}) as Hok.
  { intros c Hc. unfold AgentPath_join. destruct Hc as [Hc1 Hc2].
    destruct (str_is_empty (trim c)) eqn:He; [by destruct (trim c)|].
    pose proof (segment_lacks_slash _ Hc2) as Hl. unfold lacks_char in Hl.
    apply negb_true_iff in Hl. rewrite Hl, Hc2. simpl. unfold AgentPath_from_string.
    rewrite Hjoin by done. rewrite normalize_wf; [done|by destruct segs|].
    apply Forall_app; split; [done|]. by constructor. }
  assert (forall c q, AgentPath_join p c = Ok q -> segment_ok (trim c)) as Hinv.
  { intros c q. unfold AgentPath_join. destruct (str_is_empty (trim c)) eqn:He; [done|].
    destruct (str_contains_char _ _); [done|].
    destruct (is_valid_segment (trim c)) eqn:Hv; [|done]. intros _. split; [|done]. by intros Hc; rewrite Hc in He. }
  destruct (AgentPath_join p child) as [q|e] eqn:E.
  - pose proof (Hinv _ _ E) as Hc. rewrite (Hok _ Hc) in E. simplify_eq. simpl.
    split_and!; [done|done| | |].
    + exists (segs ++ [trim child]). split_and!; [by destruct segs| |by apply Hjoin].
      apply Forall_app; split; [done|]. by constructor.
    + intros Hq. apply (f_equal ap_path) in Hq. simpl in Hq.
      apply (f_equal String.length) in Hq. rewrite !str_length_app in Hq. simpl in Hq. lia.
    + intros child' q' E' Hne' Heq. pose proof (Hinv _ _ E') as Hc'. rewrite (Hok _ Hc') in E'.
      by simplify_eq.
  - intros Hc. rewrite (Hok _ Hc) in E. done.
Qed.

(** ** Properties of mailboxes *)

Section fifo.
Context {J : SerdeJson} `{!UnboundedChannel InterAgentMessage}.
Context `{!UnboundedChannelLaws InterAgentMessage}.

Fixpoint send_all (msgs : list InterAgentMessage) : M AgentMailbox (result unit string) :=
  match msgs with
  | [] => ret (Ok tt)
  | m :: msgs => run? AgentMailbox_send m in send_all msgs
  end.

Lemma send_run m mb :
  exists mb', AgentMailbox_send m mb = (Returned (Ok tt), mb') /\
    chan_queue (mb_channel mb') = chan_queue (mb_channel mb) ++ [m] /\
    mb_sequence mb' = u64_wrapping_add (mb_sequence mb) 1 /\
    mb_notifier mb' = u64_wrapping_add (mb_sequence mb) 1.
Proof.
  unfold AgentMailbox_send. destruct (chan_send_ok m (mb_channel mb)) as (c' & -> & Hq).
  by eexists.
Qed.

Lemma send_all_run msgs mb :
  exists mb', send_all msgs mb = (Returned (Ok tt), mb') /\
    chan_queue (mb_channel mb') = chan_queue (mb_channel mb) ++ msgs /\
    (u64_valid (mb_sequence mb) -> (mb_sequence mb + Z.of_nat (length msgs) <= u64_max)%Z ->
     mb_sequence mb' = (mb_sequence mb + Z.of_nat (length msgs))%Z /\
     (msgs <> [] -> mb_notifier mb' = mb_sequence mb')).
Proof.
  revert mb. induction msgs as [|m msgs IH]; intros mb.
  { exists mb. rewrite app_nil_r. split_and!; [done|done|]. simpl. split; [lia|done]. }
  destruct (send_run m mb) as (mb1 & Hs & Hq & Hseq & Hn).
  destruct (IH mb1) as (mb' & Hall & Hq' & Hcount). exists mb'. split_and!.
  - simpl. unfold try_bind, bind. by rewrite Hs.
  - by rewrite Hq', Hq, <- app_assoc.
  - intros Hv Hle. simpl in Hle.
    rewrite u64_wrapping_add_small in Hseq, Hn by (unfold u64_valid, u64_max, u64_modulus in *; lia).
    destruct Hcount as [Hc Hnot]; [unfold u64_valid in *; rewrite Hseq; lia|rewrite Hseq; lia|].
    split; [simpl; lia|]. intros _. destruct msgs as [|x msgs]; [|by apply Hnot].
    simpl in Hall. unfold ret in Hall. simplify_eq. congruence.
Qed.

Lemma drain_loop_run q fuel ch drained :
  chan_queue ch = q -> length q < fuel ->
  exists ch', drain_loop fuel ch drained = Some (drained ++ q, ch') /\ chan_queue ch' = [].
Proof.
  revert fuel ch drained. induction q as [|m q IH]; intros [|fuel] ch drained Hq Hf; simpl in *; try lia.
  - destruct (chan_try_recv_none ch Hq) as (ch' & -> & Hq'). exists ch'. by rewrite app_nil_r.
  - destruct (chan_try_recv_some ch m q Hq) as (ch' & -> & Hq').
    destruct (IH fuel ch' (drained ++ [m]) Hq') as (ch2 & Hd & He); [lia|].
    exists ch2. by rewrite Hd, <- app_assoc.
Qed.

(** More rounds than needed change nothing. *)
Lemma drain_loop_mono fuel fuel' ch drained r :
  drain_loop fuel ch drained = Some r -> fuel <= fuel' -> drain_loop fuel' ch drained = Some r.
Proof.
  revert fuel' ch drained. induction fuel as [|fuel IH]; intros [|fuel'] ch drained; simpl; try done.
  { lia. }
  destruct (chan_try_recv ch) as [[m|] ch']; [|done]. intros Hr Hle. apply IH; [done|lia].
Qed.

Lemma drain_run mb :
  exists mb', chan_queue (mb_channel mb') = [] /\ mb_sequence mb' = mb_sequence mb /\
    mb_notifier mb' = mb_notifier mb /\
    forall fuel, length (chan_queue (mb_channel mb)) < fuel ->
      AgentMailbox_drain fuel mb = Some (chan_queue (mb_channel mb), mb').
Proof.
  destruct (drain_loop_run _ (S (length (chan_queue (mb_channel mb)))) (mb_channel mb) [] eq_refl)
    as (ch' & Hd & He); [lia|].
  exists {| mb_channel := ch'; mb_sequence := mb_sequence mb; mb_notifier := mb_notifier mb |}.
  split_and!; [done..|]. intros fuel Hf. unfold AgentMailbox_drain.
  by rewrite (drain_loop_mono _ fuel _ _ _ Hd) by lia.
Qed.

(** Messages sent to a mailbox are drained exactly
    once, in the order sent: draining after a batch gives the batch, draining
    again gives nothing, and a later batch comes out alone.  The subscribers see
    the number of messages sent. *)
Theorem mailbox_delivers msgs1 msgs2 :
  (Z.of_nat (length msgs1 + length msgs2) <= u64_max)%Z ->
  exists mb1 mb2 mb3 mb4 mb5,
    send_all msgs1 AgentMailbox_new = (Returned (Ok tt), mb1) /\
    (forall fuel, length msgs1 < fuel -> AgentMailbox_drain fuel mb1 = Some (msgs1, mb2)) /\
    (forall fuel, 0 < fuel -> AgentMailbox_drain fuel mb2 = Some ([], mb3)) /\
    send_all msgs2 mb3 = (Returned (Ok tt), mb4) /\
    (forall fuel, length msgs2 < fuel -> AgentMailbox_drain fuel mb4 = Some (msgs2, mb5)) /\
    mb_sequence mb5 = Z.of_nat (length msgs1 + length msgs2) /\
    (msgs2 <> [] -> mb_notifier mb5 = mb_sequence mb5).
Proof.
  intros Hle.
  destruct (send_all_run msgs1 AgentMailbox_new) as (mb1 & H1 & Q1 & C1).
  destruct (drain_run mb1) as (mb2 & Q2 & S2 & N2 & D2).
  destruct (drain_run mb2) as (mb3 & Q3 & S3 & N3 & D3).
  destruct (send_all_run msgs2 mb3) as (mb4 & H4 & Q4 & C4).
  destruct (drain_run mb4) as (mb5 & Q5 & S5 & N5 & D5).
  simpl in *. rewrite chan_queue_new in Q1. simpl in Q1. rewrite Q1 in D2. rewrite Q2 in D3.
  rewrite Q4, Q3 in D5. destruct C1 as [C1 _]; [unfold u64_valid, u64_max, u64_modulus; lia|lia|].
  destruct C4 as [C4 C4']; [unfold u64_valid, u64_max, u64_modulus in *; lia|lia|].
  exists mb1, mb2, mb3, mb4, mb5. split_and!; [done..|lia|]. intros Hne. rewrite N5, S5. auto.
Qed.
End fifo.
