(* ===== verification/Protocol.v ===== *)
(** * The control protocol's router

    [crates/protocol/src/lib.rs]: the routes and their method names, the router
    with its custom routes, what resolving a method and authorizing a request
    decide. *)

From Stdlib Require Import Ascii.
From S2P Require Import Prelude RustStr.

Definition CONTROL_READ_CAPABILITY : string := "control_read".
Definition CONTROL_WRITE_CAPABILITY : string := "control_write".
Definition CONTROL_APPROVALS_CAPABILITY : string := "control_approvals".
Definition CONTROL_PAIRING_CAPABILITY : string := "control_pairing".
Definition CONTROL_ACP_CAPABILITY : string := "control_acp".

(** ** Routes *)

Inductive ProtocolRoute : Type :=
| ToolsCall
| ControlChallenge
| ControlConnect
| ControlPing
| ControlSubscribe
| ControlSnapshot
| ControlEvents
| PresenceRead
| HealthRead
| SessionList
| SessionRead
| TaskList
| TaskRead
| TurnSubmit
| TurnResult
| TurnStream
| ApprovalList
| ApprovalResolve
| PairingList
| PairingResolve
| AcpSessionList
| AcpSessionRead
| CustomRoute (method : string).

#[export] Instance ProtocolRoute_eq_dec : EqDecision ProtocolRoute.
Proof. solve_decision. Defined.

Definition ProtocolRoute_from_method (method : string) : ProtocolRoute :=
  if decide (method = "tools/call") then ToolsCall
  else if decide (method = "control/challenge") then ControlChallenge
  else if decide (method = "control/connect") then ControlConnect
  else if decide (method = "control/ping") then ControlPing
  else if decide (method = "control/subscribe") then ControlSubscribe
  else if decide (method = "control/snapshot") then ControlSnapshot
  else if decide (method = "control/events") then ControlEvents
  else if decide (method = "presence/read") then PresenceRead
  else if decide (method = "health/read") then HealthRead
  else if decide (method = "session/list") then SessionList
  else if decide (method = "session/read") then SessionRead
  else if decide (method = "task/list") then TaskList
  else if decide (method = "task/read") then TaskRead
  else if decide (method = "turn/submit") then TurnSubmit
  else if decide (method = "turn/result") then TurnResult
  else if decide (method = "turn/stream") then TurnStream
  else if decide (method = "approval/list") then ApprovalList
  else if decide (method = "approval/resolve") then ApprovalResolve
  else if decide (method = "pairing/list") then PairingList
  else if decide (method = "pairing/resolve") then PairingResolve
  else if decide (method = "acp/session/list") then AcpSessionList
  else if decide (method = "acp/session/read") then AcpSessionRead
  else CustomRoute method.

Definition ProtocolRoute_method (r : ProtocolRoute) : string :=
  match r with
  | ToolsCall => "tools/call"
  | ControlChallenge => "control/challenge"
  | ControlConnect => "control/connect"
  | ControlPing => "control/ping"
  | ControlSubscribe => "control/subscribe"
  | ControlSnapshot => "control/snapshot"
  | ControlEvents => "control/events"
  | PresenceRead => "presence/read"
  | HealthRead => "health/read"
  | SessionList => "session/list"
  | SessionRead => "session/read"
  | TaskList => "task/list"
  | TaskRead => "task/read"
  | TurnSubmit => "turn/submit"
  | TurnResult => "turn/result"
  | TurnStream => "turn/stream"
  | ApprovalList => "approval/list"
  | ApprovalResolve => "approval/resolve"
  | PairingList => "pairing/list"
  | PairingResolve => "pairing/resolve"
  | AcpSessionList => "acp/session/list"
  | AcpSessionRead => "acp/session/read"
  | CustomRoute method => method
  end.

Definition ProtocolRoute_is_standard (r : ProtocolRoute) : bool :=
  match r with CustomRoute _ => false | _ => true end.

(** ** The router *)

Record RoutePolicy : Type := {
  rp_allow_anonymous : bool;
  rp_required_capability : option string;
}.

Definition RoutePolicy_default : RoutePolicy := {|
  rp_allow_anonymous := true; rp_required_capability := None |}.

Record ResolvedRoute : Type := {
  rr_route : ProtocolRoute;
  rr_policy : RoutePolicy;
}.

Definition ResolvedRoute_method (r : ResolvedRoute) : string := ProtocolRoute_method (rr_route r).

Record ProtocolRouter : Type := {
  pr_strict : bool;
  pr_custom_routes : gmap string RoutePolicy;
}.

Inductive RouterError : Type :=
| UnknownMethod (method : string)
| InvalidMethod (reason : string).

Record RouteAuthorizationRequest : Type := {
  rar_authenticated : bool;
  rar_capabilities : gset string;
}.

Inductive RouteAuthorizationDecision : Type := RouteAllow.

Inductive RouteAuthorizationError : Type :=
| Unauthenticated (method : string)
| RouteMissingCapability (method required_capability : string).

Definition is_method_char (c : ascii) : bool :=
  is_ascii_lowercase c || is_ascii_digit c || char_eqb c "-"%char || char_eqb c "_"%char
  || char_eqb c "/"%char || char_eqb c "."%char.

Definition normalize_capability (raw : string) : string :=
  str_map (fun c => if char_eqb c "."%char || char_eqb c "-"%char then "_"%char else c)
    (to_ascii_lowercase (trim raw)).

Section router.
(** [{method:?}]: the [Debug] text of a string. *)
Variable str_debug : string -> string.

Definition validate_method_name (method : string) : result unit RouterError :=
  if str_is_empty (trim method) then Err (InvalidMethod "method cannot be empty") else
  if decide (trim method <> method) then
    Err (InvalidMethod ("method cannot include surrounding whitespace: " +:+ str_debug method)) else
  if 128 <? String.length method then
    Err (InvalidMethod ("method exceeds max length (128): "
                          +:+ fmt_dec (Z.of_nat (String.length method)))) else
  if starts_with "/" method || ends_with "/" method || str_contains "//" method then
    Err (InvalidMethod ("method contains invalid slash placement: " +:+ method)) else
  if negb (str_forallb is_method_char method) then
    Err (InvalidMethod ("method contains unsupported characters: " +:+ method)) else
  Ok tt.

Definition ProtocolRouter_new (strict : bool) : ProtocolRouter := {|
  pr_strict := strict; pr_custom_routes := ∅ |}.

Definition ProtocolRouter_register_custom_route (method : string) (policy : RoutePolicy)
    (router : ProtocolRouter) : result unit RouterError * ProtocolRouter :=
  match validate_method_name method with
  | Err e => (Err e, router)
  | Ok _ =>
      if ProtocolRoute_is_standard (ProtocolRoute_from_method method) then
        (Err (InvalidMethod ("standard route cannot be registered as custom: " +:+ method)), router)
      else
        (Ok tt, {| pr_strict := pr_strict router;
                   pr_custom_routes := <[method := policy]> (pr_custom_routes router) |})
  end.

Definition authenticated_with (capability : string) : RoutePolicy := {|
  rp_allow_anonymous := false; rp_required_capability := Some capability |}.

Definition ProtocolRouter_resolve (router : ProtocolRouter) (method : string)
  : result ResolvedRoute RouterError :=
  let* _ := validate_method_name method in
  let route := ProtocolRoute_from_method method in
  match route with
  | ToolsCall => Ok {| rr_route := route; rr_policy := authenticated_with "invoke" |}
  | ControlChallenge | ControlConnect =>
      Ok {| rr_route := route;
            rr_policy := {| rp_allow_anonymous := true; rp_required_capability := None |} |}
  | ControlPing | ControlSubscribe | ControlSnapshot | ControlEvents | PresenceRead | HealthRead
  | SessionList | SessionRead | TaskList | TaskRead | TurnResult | TurnStream =>
      Ok {| rr_route := route; rr_policy := authenticated_with CONTROL_READ_CAPABILITY |}
  | TurnSubmit =>
      Ok {| rr_route := route; rr_policy := authenticated_with CONTROL_WRITE_CAPABILITY |}
  | ApprovalList | ApprovalResolve =>
      Ok {| rr_route := route; rr_policy := authenticated_with CONTROL_APPROVALS_CAPABILITY |}
  | PairingList | PairingResolve =>
      Ok {| rr_route := route; rr_policy := authenticated_with CONTROL_PAIRING_CAPABILITY |}
  | AcpSessionList | AcpSessionRead =>
      Ok {| rr_route := route; rr_policy := authenticated_with CONTROL_ACP_CAPABILITY |}
  | CustomRoute custom =>
      match pr_custom_routes router !! custom with
      | Some policy => Ok {| rr_route := CustomRoute custom; rr_policy := policy |}
      | None =>
          if pr_strict router then Err (UnknownMethod custom)
          else Ok {| rr_route := CustomRoute custom; rr_policy := RoutePolicy_default |}
      end
  end.

Definition ProtocolRouter_authorize (resolved : ResolvedRoute) (request : RouteAuthorizationRequest)
  : result RouteAuthorizationDecision RouteAuthorizationError :=
  if negb (rp_allow_anonymous (rr_policy resolved)) && negb (rar_authenticated request) then
    Err (Unauthenticated (ResolvedRoute_method resolved)) else
  match rp_required_capability (rr_policy resolved) with
  | Some required =>
      let normalized_required := normalize_capability required in
      if existsb (fun capability =>
           let normalized := normalize_capability capability in
           bool_decide (normalized = normalized_required) || bool_decide (normalized = "*"))
         (btree_set_iter (rar_capabilities request))
      then Ok RouteAllow
      else Err (RouteMissingCapability (ResolvedRoute_method resolved) normalized_required)
  | None => Ok RouteAllow
  end.

(** ** Properties *)

Lemma route_of_custom method m :
  ProtocolRoute_from_method method = CustomRoute m -> m = method.
Proof. unfold ProtocolRoute_from_method. repeat case_decide; by intros [= <-]. Qed.

(** Every method name is read as the route that
    prints it, so a text names at most one route; the standard routes are read
    back as themselves, and only they have their names: a custom route cannot
    carry a standard route's name once read. *)
Theorem route_round_trip (method : string) (r : ProtocolRoute) :
  ProtocolRoute_method (ProtocolRoute_from_method method) = method /\
  (ProtocolRoute_is_standard r = true ->
   ProtocolRoute_from_method (ProtocolRoute_method r) = r) /\
  (forall m, ProtocolRoute_from_method method = CustomRoute m ->
   m = method /\ forall s, ProtocolRoute_is_standard s = true -> ProtocolRoute_method s <> method).
Proof.
  split_and!.
  - unfold ProtocolRoute_from_method. repeat case_decide; by subst.
  - by destruct r.
  - intros m Hm. split.
    + by apply route_of_custom.
    + intros s Hs <-. by destruct s.
Qed.

Lemma from_method_custom m :
  ProtocolRoute_is_standard (ProtocolRoute_from_method m) = false ->
  ProtocolRoute_from_method m = CustomRoute m.
Proof. unfold ProtocolRoute_from_method. repeat case_decide; by subst. Qed.

(** Registering a custom route defines that method and no other. *)
Lemma register_resolves m p router router' :
  ProtocolRouter_register_custom_route m p router = (Ok tt, router') ->
  ProtocolRouter_resolve router' m = Ok {| rr_route := CustomRoute m; rr_policy := p |} /\
  forall m', m' <> m -> ProtocolRouter_resolve router' m' = ProtocolRouter_resolve router m'.
Proof.
  unfold ProtocolRouter_register_custom_route.
  destruct (validate_method_name m) as [[]|] eqn:Hv; [|done].
  destruct (ProtocolRoute_is_standard _) eqn:Hs; [done|]. intros [= <-].
  unfold ProtocolRouter_resolve. split.
  - rewrite Hv. simpl. rewrite from_method_custom by done. by rewrite lookup_insert_eq.
  - intros m' Hne. destruct (validate_method_name m'); simpl; [|done].
    destruct (ProtocolRoute_from_method m') eqn:E; try done.
    apply route_of_custom in E as ->. by rewrite lookup_insert_ne.
Qed.

Lemma authorize_iff resolved request :
  ProtocolRouter_authorize resolved request = Ok RouteAllow <->
  (rp_allow_anonymous (rr_policy resolved) = true \/ rar_authenticated request = true) /\
  (forall required, rp_required_capability (rr_policy resolved) = Some required ->
     exists c, c ∈ rar_capabilities request /\
       (normalize_capability c = normalize_capability required \/ normalize_capability c = "*")).
Proof.
  unfold ProtocolRouter_authorize.
  destruct (rp_allow_anonymous (rr_policy resolved)), (rar_authenticated request); simpl;
    try (split; [done|]; by intros [[]]).
  all: destruct (rp_required_capability (rr_policy resolved)) as [req|];
    [|split; [by split; [auto|]|done]].
  all: destruct (existsb _ _) eqn:E.
  all: try (apply existsb_exists in E as (c & Hc%list_elem_of_In%elem_of_btree_set_iter & Hm);
    apply orb_prop in Hm; rewrite !bool_decide_eq_true in Hm;
    split; [intros _; split; [auto|]; intros ? [= <-]; eauto|done]).
  all: split; [done|]; intros [_ Hreq]; destruct (Hreq _ eq_refl) as (c & Hc & Hm);
    rewrite <- not_true_iff_false in E; destruct E; apply existsb_exists; exists c;
    (split; [by apply list_elem_of_In, elem_of_btree_set_iter|]);
    apply orb_true_intro; by rewrite !bool_decide_eq_true.
Qed.

(** What an unauthenticated caller may reach. *)
Definition anonymous_route (router : ProtocolRouter) (r : ProtocolRoute) : Prop :=
  r = ControlChallenge \/ r = ControlConnect \/
  exists m, r = CustomRoute m /\
    match pr_custom_routes router !! m with
    | Some p => rp_allow_anonymous p = true
    | None => pr_strict router = false
    end.

(** Whatever custom routes were registered, a
    standard method resolves to its own route with its own policy; a request is
    authorized exactly when it may be anonymous or is authenticated, and holds
    the required capability (in any spelling) or the wildcard; so an
    unauthenticated caller reaches the challenge and connect routes, custom routes
    registered for anonymous callers and, unless the router is strict, methods
    nobody registered, and nothing else.  Registering a custom route gives that
    method its policy and changes no other method. *)
Theorem router_authorizes router method resolved request :
  ProtocolRouter_resolve router method = Ok resolved ->
  rr_route resolved = ProtocolRoute_from_method method /\
  (ProtocolRoute_is_standard (rr_route resolved) = true ->
   forall strict, ProtocolRouter_resolve (ProtocolRouter_new strict) method = Ok resolved) /\
  (ProtocolRouter_authorize resolved request = Ok RouteAllow <->
   (rp_allow_anonymous (rr_policy resolved) = true \/ rar_authenticated request = true) /\
   (forall required, rp_required_capability (rr_policy resolved) = Some required ->
      exists c, c ∈ rar_capabilities request /\
        (normalize_capability c = normalize_capability required \/ normalize_capability c = "*"))) /\
  (rar_authenticated request = false ->
   ProtocolRouter_authorize resolved request = Ok RouteAllow ->
   anonymous_route router (rr_route resolved)) /\
  (forall m p router', ProtocolRouter_register_custom_route m p router = (Ok tt, router') ->
     ProtocolRouter_resolve router' m = Ok {| rr_route := CustomRoute m; rr_policy := p |} /\
     (m <> method -> ProtocolRouter_resolve router' method = Ok resolved)).
Proof.
  intros Hresolve. pose proof Hresolve as Hres. revert Hres. unfold ProtocolRouter_resolve at 1.
  destruct (validate_method_name method) as [[]|] eqn:Hv; simpl; [|done]. intros Hres.
  assert (rr_route resolved = ProtocolRoute_from_method method) as Hroute.
  { destruct (ProtocolRoute_from_method method); repeat case_match; by simplify_eq/=. }
  split_and!; [done| |apply authorize_iff| |].
  - rewrite Hroute. intros Hstd strict. unfold ProtocolRouter_resolve. rewrite Hv. simpl.
    by destruct (ProtocolRoute_from_method method).
  - rewrite authorize_iff. intros Ha [[Hanon|Hauth] _]; [|congruence].
    unfold anonymous_route. rewrite Hroute.
    destruct (ProtocolRoute_from_method method); simplify_eq/=; try done; auto.
    right; right. eexists; split; [done|].
    destruct (pr_custom_routes router !! _); simplify_eq/=; [done|].
    by destruct (pr_strict router).
  - intros m p router' [H1 H2]%register_resolves. split; [done|]. intros Hne.
    by rewrite H2.
Qed.
End router.
