(* ===== verification/RustPath.v ===== *)
(** * Paths of the standard library

    [std::path::Path] on Unix, as far as the plugin scanner uses it: components,
    [parent], [file_name], [file_stem], [extension], [join] and [starts_with].
    A path is the text it was built from, valid UTF-8, so that [to_str] succeeds
    and [display] prints the text; comparisons of paths are comparisons of their
    components. *)

From Stdlib Require Import Ascii.
From S2P Require Import Prelude RustStr.

Inductive Component : Type :=
| RootDir
| CurDir
| ParentDir
| Normal (s : string).

#[export] Instance Component_eq_dec : EqDecision Component.
Proof. solve_decision. Defined.

#[export] Instance Component_countable : Countable Component.
Proof.
  refine (inj_countable'
    (fun c => match c with
              | RootDir => inl 0%N | CurDir => inl 1%N | ParentDir => inl 2%N | Normal s => inr s
              end)
    (fun x => match x with
              | inl 0%N => RootDir | inl 1%N => CurDir | inl _ => ParentDir | inr s => Normal s
              end) _).
  by intros [].
Defined.

(** The derived order of [Component]: the kinds in the order of their
    declaration, normal components by their text. *)
Definition Component_le (a b : Component) : Prop :=
  match a, b with
  | RootDir, _ => True
  | CurDir, RootDir => False | CurDir, _ => True
  | ParentDir, (RootDir | CurDir) => False | ParentDir, _ => True
  | Normal s, Normal t => String.le s t
  | Normal _, _ => False
  end.

(** [Ord for Path]: lexicographic on components. *)
Fixpoint components_le (p q : list Component) : Prop :=
  match p, q with
  | [], _ => True
  | _ :: _, [] => False
  | a :: p, b :: q => if decide (a = b) then components_le p q else Component_le a b
  end.

#[export] Instance components_rust_ord : RustOrd (list Component) := components_le.

#[export] Instance Component_le_dec : RelDecision Component_le.
Proof. intros [] []; simpl; apply _. Defined.

#[export] Instance components_le_dec : RelDecision components_le.
Proof.
  intros p. induction p as [|a p IH]; intros [|b q]; simpl; [apply _..|].
  destruct (decide (a = b)); [apply IH|apply _].
Defined.

Lemma Component_le_antisymm a b : Component_le a b -> Component_le b a -> a = b.
Proof. destruct a, b; simpl; try done. intros. f_equal. by apply (anti_symm String.le). Qed.

Lemma Component_le_trans a b c : Component_le a b -> Component_le b c -> Component_le a c.
Proof. destruct a, b, c; simpl; try done. apply transitivity. Qed.

Lemma Component_le_total a b : Component_le a b \/ Component_le b a.
Proof. destruct a, b; simpl; auto. apply (total String.le). Qed.

#[export] Instance components_rust_ord_laws : RustOrdLaws (list Component).
Proof.
  split; [exact components_le_dec|..].
  - intros p. induction p as [|a p IH]; intros [|b q] [|c r]; try done.
    unfold rust_le, components_rust_ord in *. simpl.
    repeat case_decide; subst; try done; eauto using Component_le_trans.
    intros Hab Hba. by destruct (Component_le_antisymm c b Hab Hba).
  - intros p. induction p as [|a p IH]; intros [|b q]; [by left|by left|by right|].
    unfold rust_le, components_rust_ord in *. simpl.
    destruct (decide (a = b)) as [->|Hab]; [rewrite decide_True by done; apply IH|].
    rewrite decide_False by done. apply Component_le_total.
  - intros p. induction p as [|a p IH]; intros [|b q]; try done.
    unfold rust_le, components_rust_ord in *. simpl.
    destruct (decide (a = b)) as [->|Hab].
    + rewrite decide_True by done. intros. f_equal. by apply IH.
    + rewrite decide_False by done. intros. by destruct (Component_le_antisymm a b).
Defined.

Definition path_separator : ascii := "/"%char.

Definition has_root (path : string) : bool := starts_with "/" path.

(** Segments that are no component: empty ones, and [.] except at the start of
    a relative path. *)
Definition body_component (segment : string) : option Component :=
  if decide (segment = "") then None
  else if decide (segment = ".") then None
  else if decide (segment = "..") then Some ParentDir
  else Some (Normal segment).

Definition path_components (path : string) : list Component :=
  let segments := split_char path_separator path in
  if has_root path then RootDir :: omap body_component segments
  else match segments with
       | "." :: rest => CurDir :: omap body_component rest
       | _ => omap body_component segments
       end.

(** The segments after the root, last first, without trailing segments that
    are no component. *)
Fixpoint drop_skipped (rooted : bool) (l : list string) : list string :=
  match l with
  | [] => []
  | [first] =>
      if decide (first = "") then [] else if rooted && bool_decide (first = ".") then [] else [first]
  | segment :: l' =>
      if decide (segment = "" \/ segment = ".") then drop_skipped rooted l' else l
  end.

Definition path_parent (path : string) : option string :=
  let rooted := has_root path in
  let segments := split_char path_separator path in
  let body := if rooted then tail segments else segments in
  match drop_skipped rooted (reverse body) with
  | [] => None
  | _ :: rest =>
      Some ((if rooted then "/" else "") +:+ join "/" (reverse (drop_skipped rooted rest)))
  end.

Definition path_file_name (path : string) : option string :=
  match last (path_components path) with
  | Some (Normal name) => Some name
  | _ => None
  end.

(** The text before and after the last dot of a file name; a name whose only
    dot is its first character has no extension. *)
Definition split_extension (name : string) : option string * option string :=
  match reverse (split_char "."%char name) with
  | after :: before =>
      let before := if list_eq_nil_dec before then None else Some (join "." (reverse before)) in
      if decide (before = Some "") then (Some name, None) else (before, Some after)
  | [] => (None, None)
  end.

Definition path_file_stem (path : string) : option string :=
  match path_file_name path with
  | None => None
  | Some name =>
      let (before, after) := split_extension name in
      match before with Some _ => before | None => after end
  end.

Definition path_extension (path : string) : option string :=
  match path_file_name path with
  | None => None
  | Some name =>
      let (before, after) := split_extension name in
      match before with Some _ => after | None => None end
  end.

(** [Path::join]: an absolute path replaces the base. *)
Definition path_join (base path : string) : string :=
  if has_root path then path
  else if str_is_empty base || ends_with "/" base then base +:+ path
  else base +:+ "/" +:+ path.

(** [Path::starts_with]: by components. *)
Definition path_starts_with (path base : list Component) : bool := bool_decide (base `prefix_of` path).

Example components_absolute : path_components "/a/./b//c" = [RootDir; Normal "a"; Normal "b"; Normal "c"].
Proof. reflexivity. Qed.
Example components_relative : path_components "./a/../b/" = [CurDir; Normal "a"; ParentDir; Normal "b"].
Proof. reflexivity. Qed.
Example components_empty : path_components "" = [] /\ path_components "/" = [RootDir].
Proof. split; reflexivity. Qed.
Example parent_cases :
  path_parent "/a/b" = Some "/a" /\ path_parent "/a" = Some "/" /\ path_parent "/" = None /\
  path_parent "a" = Some "" /\ path_parent "a/b/./c" = Some "a/b" /\ path_parent "" = None.
Proof. repeat split. Qed.
Example extension_cases :
  path_extension "/x/lib.tar.gz" = Some "gz" /\ path_extension "/x/.git" = None /\
  path_extension "/x/Makefile" = None /\ path_file_stem "/x/lib.tar.gz" = Some "lib.tar".
Proof. repeat split. Qed.
