(* ===== verification/Plugin.v ===== *)
(** * Plugin manifests, slots and absorption

    [crates/kernel/src/plugin.rs]: the manifest types with their
    normalisation, the slot claims, the host compatibility checks, the metadata
    the host stamps on a provider, and [PluginScanner::absorb].  Discovery on
    the file system is in [PluginScan].  [serde_json] and [semver] are
    third-party: the class [PluginCodec] holds what the code calls of them. *)

From S2P Require Import Prelude RustStr Contracts Integration.

(** ** Constants *)

Definition CURRENT_PLUGIN_MANIFEST_API_VERSION : string := "v1alpha1".
Definition CURRENT_PLUGIN_HOST_API : string := "loong-plugin/v1".
Definition OPENCLAW_MODERN_COMPATIBILITY_ADAPTER_FAMILY : string := "openclaw-modern-compat".
Definition OPENCLAW_LEGACY_COMPATIBILITY_ADAPTER_FAMILY : string := "openclaw-legacy-compat".
Definition RESERVED_PACKAGE_METADATA_PREFIX : string := "plugin_".
Definition PLUGIN_MANIFEST_API_VERSION_METADATA_KEY : string := "plugin_manifest_api_version".
Definition PLUGIN_VERSION_METADATA_KEY : string := "plugin_version".
Definition PLUGIN_DIALECT_METADATA_KEY : string := "plugin_dialect".
Definition PLUGIN_DIALECT_VERSION_METADATA_KEY : string := "plugin_dialect_version".
Definition PLUGIN_COMPATIBILITY_MODE_METADATA_KEY : string := "plugin_compatibility_mode".
Definition PLUGIN_COMPATIBILITY_SHIM_ID_METADATA_KEY : string := "plugin_compatibility_shim_id".
Definition PLUGIN_COMPATIBILITY_SHIM_FAMILY_METADATA_KEY : string :=
  "plugin_compatibility_shim_family".
Definition PLUGIN_SLOT_CLAIMS_METADATA_KEY : string := "plugin_slot_claims_json".
Definition PLUGIN_COMPATIBILITY_HOST_API_METADATA_KEY : string := "plugin_compatibility_host_api".
Definition PLUGIN_COMPATIBILITY_HOST_VERSION_REQ_METADATA_KEY : string :=
  "plugin_compatibility_host_version_req".

(** [env!("CARGO_PKG_VERSION")] of the workspace. *)
Definition CARGO_PKG_VERSION : string := "0.1.2-alpha.1".

(** ** Normalising text *)

Definition normalize_optional_manifest_string (raw : option string) : option string :=
  match raw with
  | None => None
  | Some value =>
      let trimmed := trim value in
      if str_is_empty trimmed then None else Some trimmed
  end.

(** The loop of [normalize_manifest_string_list], on the values kept so far. *)
Definition push_normalized (kept : list string) (value : string) : list string :=
  let trimmed := trim value in
  if str_is_empty trimmed then kept
  else if decide (trimmed ∈ kept) then kept
  else kept ++ [trimmed].

Definition normalize_manifest_string_list (values : list string) : list string :=
  fold_left push_normalized values [].

(** ** Setup, slots and compatibility *)

Inductive PluginTrustTier : Type := TrustOfficial | TrustVerifiedCommunity | TrustUnverified.

#[export] Instance PluginTrustTier_eq_dec : EqDecision PluginTrustTier.
Proof. solve_decision. Defined.

Definition PluginTrustTier_as_str (t : PluginTrustTier) : string :=
  match t with
  | TrustOfficial => "official"
  | TrustVerifiedCommunity => "verified-community"
  | TrustUnverified => "unverified"
  end.

Definition PluginTrustTier_default : PluginTrustTier := TrustUnverified.

Inductive PluginSetupMode : Type := MetadataOnly | GovernedEntry.

#[export] Instance PluginSetupMode_eq_dec : EqDecision PluginSetupMode.
Proof. solve_decision. Defined.

Definition PluginSetupMode_as_str (m : PluginSetupMode) : string :=
  match m with MetadataOnly => "metadata_only" | GovernedEntry => "governed_entry" end.

Record PluginSetup : Type := {
  pst_mode : PluginSetupMode;
  pst_surface : option string;
  pst_required_env_vars : list string;
  pst_recommended_env_vars : list string;
  pst_required_config_keys : list string;
  pst_default_env_var : option string;
  pst_docs_urls : list string;
  pst_remediation : option string;
}.

#[export] Instance PluginSetup_eq_dec : EqDecision PluginSetup.
Proof. solve_decision. Defined.

Definition PluginSetup_normalized (s : PluginSetup) : PluginSetup := {|
  pst_mode := pst_mode s;
  pst_surface := normalize_optional_manifest_string (pst_surface s);
  pst_required_env_vars := normalize_manifest_string_list (pst_required_env_vars s);
  pst_recommended_env_vars := normalize_manifest_string_list (pst_recommended_env_vars s);
  pst_required_config_keys := normalize_manifest_string_list (pst_required_config_keys s);
  pst_default_env_var := normalize_optional_manifest_string (pst_default_env_var s);
  pst_docs_urls := normalize_manifest_string_list (pst_docs_urls s);
  pst_remediation := normalize_optional_manifest_string (pst_remediation s);
|}.

Definition is_some {A} (o : option A) : bool := match o with Some _ => true | None => false end.
Definition list_is_empty {A} (l : list A) : bool := match l with [] => true | _ => false end.

Definition PluginSetup_is_effectively_empty (s : PluginSetup) : bool :=
  let has_non_default_payload :=
    is_some (pst_surface s) || negb (list_is_empty (pst_required_env_vars s)) ||
    negb (list_is_empty (pst_recommended_env_vars s)) ||
    negb (list_is_empty (pst_required_config_keys s)) || is_some (pst_default_env_var s) ||
    negb (list_is_empty (pst_docs_urls s)) || is_some (pst_remediation s) in
  if has_non_default_payload then false
  else match pst_mode s with MetadataOnly => true | GovernedEntry => false end.

Inductive PluginSlotMode : Type := SlotExclusive | SlotShared | SlotAdvisory.

#[export] Instance PluginSlotMode_eq_dec : EqDecision PluginSlotMode.
Proof. solve_decision. Defined.

Definition PluginSlotMode_as_str (m : PluginSlotMode) : string :=
  match m with
  | SlotExclusive => "exclusive" | SlotShared => "shared" | SlotAdvisory => "advisory"
  end.

(** The derived [Ord]: declaration order. *)
Definition PluginSlotMode_rank (m : PluginSlotMode) : N :=
  match m with SlotExclusive => 0 | SlotShared => 1 | SlotAdvisory => 2 end%N.

Record PluginSlotClaim : Type := {
  sc_slot : string;
  sc_key : string;
  sc_mode : PluginSlotMode;
}.

#[export] Instance PluginSlotClaim_eq_dec : EqDecision PluginSlotClaim.
Proof. solve_decision. Defined.

(** The derived [Ord]: slot, then key, then mode. *)
Definition PluginSlotClaim_le (a b : PluginSlotClaim) : Prop :=
  if decide (sc_slot a = sc_slot b) then
    if decide (sc_key a = sc_key b) then
      (PluginSlotMode_rank (sc_mode a) <= PluginSlotMode_rank (sc_mode b))%N
    else String.le (sc_key a) (sc_key b)
  else String.le (sc_slot a) (sc_slot b).

#[export] Instance PluginSlotClaim_le_dec : RelDecision PluginSlotClaim_le.
Proof. intros a b. unfold PluginSlotClaim_le. repeat case_decide; apply _. Defined.

Definition PluginSlotClaim_normalized (c : PluginSlotClaim) : PluginSlotClaim :=
  {| sc_slot := trim (sc_slot c); sc_key := trim (sc_key c); sc_mode := sc_mode c |}.

Definition PluginSlotClaim_canonical_label (c : PluginSlotClaim) : string :=
  sc_slot c +:+ "#" +:+ sc_key c +:+ "@" +:+ PluginSlotMode_as_str (sc_mode c).

(** [Vec::dedup]: equal neighbours become one. *)
Fixpoint dedup `{EqDecision A} (l : list A) : list A :=
  match l with
  | x :: (y :: _) as l' => if decide (x = y) then dedup l' else x :: dedup l'
  | _ => l
  end.

Definition normalize_plugin_slot_claims (claims : list PluginSlotClaim) : list PluginSlotClaim :=
  dedup (merge_sort PluginSlotClaim_le (map PluginSlotClaim_normalized claims)).

Record PluginCompatibility : Type := {
  pc_host_api : option string;
  pc_host_version_req : option string;
}.

#[export] Instance PluginCompatibility_eq_dec : EqDecision PluginCompatibility.
Proof. solve_decision. Defined.

Definition PluginCompatibility_normalized (c : PluginCompatibility) : PluginCompatibility := {|
  pc_host_api := normalize_optional_manifest_string (pc_host_api c);
  pc_host_version_req := normalize_optional_manifest_string (pc_host_version_req c) |}.

Definition PluginCompatibility_is_effectively_empty (c : PluginCompatibility) : bool :=
  negb (is_some (pc_host_api c)) && negb (is_some (pc_host_version_req c)).

Inductive PluginSourceKind : Type := PackageManifest | EmbeddedSource.

#[export] Instance PluginSourceKind_eq_dec : EqDecision PluginSourceKind.
Proof. solve_decision. Defined.

Definition PluginSourceKind_as_str (k : PluginSourceKind) : string :=
  match k with PackageManifest => "package_manifest" | EmbeddedSource => "embedded_source" end.

Inductive PluginContractDialect : Type :=
| LoongPackageManifest | LoongEmbeddedSource | OpenClawModernManifest | OpenClawLegacyPackage.

#[export] Instance PluginContractDialect_eq_dec : EqDecision PluginContractDialect.
Proof. solve_decision. Defined.

Definition PluginContractDialect_as_str (d : PluginContractDialect) : string :=
  match d with
  | LoongPackageManifest => "loong_package_manifest"
  | LoongEmbeddedSource => "loong_embedded_source"
  | OpenClawModernManifest => "openclaw_modern_manifest"
  | OpenClawLegacyPackage => "openclaw_legacy_package"
  end.

Inductive PluginCompatibilityMode : Type := CompatNative | OpenClawModern | OpenClawLegacy.

#[export] Instance PluginCompatibilityMode_eq_dec : EqDecision PluginCompatibilityMode.
Proof. solve_decision. Defined.

Definition PluginCompatibilityMode_as_str (m : PluginCompatibilityMode) : string :=
  match m with
  | CompatNative => "native"
  | OpenClawModern => "openclaw_modern"
  | OpenClawLegacy => "openclaw_legacy"
  end.

Definition PluginCompatibilityMode_is_native (m : PluginCompatibilityMode) : bool :=
  match m with CompatNative => true | _ => false end.

Record PluginCompatibilityShim : Type := { sh_shim_id : string; sh_family : string }.

#[export] Instance PluginCompatibilityShim_eq_dec : EqDecision PluginCompatibilityShim.
Proof. solve_decision. Defined.

#[export] Instance PluginCompatibilityShim_countable : Countable PluginCompatibilityShim.
Proof.
  refine (inj_countable' (fun s => (sh_shim_id s, sh_family s))
            (fun p => {| sh_shim_id := p.1; sh_family := p.2 |}) _).
  by intros [].
Defined.

Definition PluginCompatibilityShim_for_mode (mode : PluginCompatibilityMode)
  : option PluginCompatibilityShim :=
  match mode with
  | CompatNative => None
  | OpenClawModern => Some {|
      sh_shim_id := OPENCLAW_MODERN_COMPATIBILITY_ADAPTER_FAMILY;
      sh_family := OPENCLAW_MODERN_COMPATIBILITY_ADAPTER_FAMILY |}
  | OpenClawLegacy => Some {|
      sh_shim_id := OPENCLAW_LEGACY_COMPATIBILITY_ADAPTER_FAMILY;
      sh_family := OPENCLAW_LEGACY_COMPATIBILITY_ADAPTER_FAMILY |}
  end.

(** ** Diagnostics *)

Inductive PluginDiagnosticSeverity : Type := SeverityInfo | SeverityWarning | SeverityError.

Definition PluginDiagnosticSeverity_as_str (s : PluginDiagnosticSeverity) : string :=
  match s with
  | SeverityInfo => "info" | SeverityWarning => "warning" | SeverityError => "error"
  end.

Inductive PluginDiagnosticPhase : Type := PhaseUnknown | PhaseScan | PhaseTranslation | PhaseActivation.

Definition PluginDiagnosticPhase_as_str (p : PluginDiagnosticPhase) : string :=
  match p with
  | PhaseUnknown => "unknown" | PhaseScan => "scan"
  | PhaseTranslation => "translation" | PhaseActivation => "activation"
  end.

Inductive PluginDiagnosticCode : Type :=
| EmbeddedSourceLegacyContract
| LegacyMetadataVersion
| ShadowedEmbeddedSource
| ForeignDialectContract
| LegacyOpenClawContract
| InvalidManifestContract
| CompatibilityShimRequired
| IncompatibleHost
| UnsupportedBridge
| UnsupportedAdapterFamily
| SlotClaimConflict.

Definition PluginDiagnosticCode_as_str (c : PluginDiagnosticCode) : string :=
  match c with
  | EmbeddedSourceLegacyContract => "embedded_source_legacy_contract"
  | LegacyMetadataVersion => "legacy_metadata_version"
  | ShadowedEmbeddedSource => "shadowed_embedded_source"
  | ForeignDialectContract => "foreign_dialect_contract"
  | LegacyOpenClawContract => "legacy_openclaw_contract"
  | InvalidManifestContract => "invalid_manifest_contract"
  | CompatibilityShimRequired => "compatibility_shim_required"
  | IncompatibleHost => "incompatible_host"
  | UnsupportedBridge => "unsupported_bridge"
  | UnsupportedAdapterFamily => "unsupported_adapter_family"
  | SlotClaimConflict => "slot_claim_conflict"
  end.

Record PluginDiagnosticFinding : Type := {
  df_code : PluginDiagnosticCode;
  df_severity : PluginDiagnosticSeverity;
  df_phase : PluginDiagnosticPhase;
  df_blocking : bool;
  df_plugin_id : option string;
  df_source_path : option string;
  df_source_kind : option PluginSourceKind;
  df_field_path : option string;
  df_message : string;
  df_remediation : option string;
}.

Definition PluginDiagnosticFinding_matches_plugin (f : PluginDiagnosticFinding)
    (source_path plugin_id : string) : bool :=
  bool_decide (df_source_path f = Some source_path) && bool_decide (df_plugin_id f = Some plugin_id).

(** ** Manifests and descriptors *)

Section manifests.
Context {J : SerdeJson}.

Record PluginManifest : Type := {
  pm_api_version : option string;
  pm_version : option string;
  pm_plugin_id : string;
  pm_provider_id : string;
  pm_connector_name : string;
  pm_channel_id : option string;
  pm_endpoint : option string;
  pm_capabilities : gset Capability;
  pm_trust_tier : PluginTrustTier;
  pm_metadata : gmap string string;
  pm_summary : option string;
  pm_tags : list string;
  pm_input_examples : list Value;
  pm_output_examples : list Value;
  pm_defer_loading : bool;
  pm_setup : option PluginSetup;
  pm_slot_claims : list PluginSlotClaim;
  pm_compatibility : option PluginCompatibility;
}.

Record PluginDescriptor : Type := {
  pd_path : string;
  pd_source_kind : PluginSourceKind;
  pd_dialect : PluginContractDialect;
  pd_dialect_version : option string;
  pd_compatibility_mode : PluginCompatibilityMode;
  pd_package_root : string;
  pd_package_manifest_path : option string;
  pd_language : string;
  pd_manifest : PluginManifest;
}.

Record PluginScanReport : Type := {
  sr_scanned_files : Z;
  sr_matched_plugins : Z;
  sr_diagnostic_findings : list PluginDiagnosticFinding;
  sr_descriptors : list PluginDescriptor;
}.
End manifests.

Definition format_plugin_provenance_summary (source_kind : PluginSourceKind) (source_path : string)
    (package_manifest_path : option string) : string :=
  match package_manifest_path, source_kind with
  | Some p, EmbeddedSource =>
      PluginSourceKind_as_str source_kind +:+ ":" +:+ source_path +:+ " (package_manifest:" +:+ p +:+ ")"
  | _, _ => PluginSourceKind_as_str source_kind +:+ ":" +:+ source_path
  end.

Record PluginAbsorbReport : Type := {
  ar_absorbed_plugins : Z;
  ar_provider_upserts : Z;
  ar_channel_upserts : Z;
  ar_connectors_added_to_pack : gset string;
  ar_capabilities_added_to_pack : gset Capability;
}.

Record RegisteredSlotClaim : Type := {
  rs_plugin_id : string;
  rs_provider_id : string;
  rs_mode : PluginSlotMode;
}.

Notation ClaimedSlotRegistry := (gmap (string * string) (list RegisteredSlotClaim)).

(** ** Third-party code *)

(** [serde::Serialize] through [serde_json::to_string], and
    [serde_json::from_str], at one type; errors as their texts. *)
Class Serialize (T : Type) : Type := to_json : T -> result string string.
Class Deserialize (T : Type) : Type := from_json : string -> result T string.

(** [semver]: versions, version requirements and matching. *)
Class SemverReq : Type := {
  Version : Type;
  VersionReq : Type;
  Version_parse : string -> result Version string;
  Version_to_string : Version -> string;
  VersionReq_parse : string -> result VersionReq string;
  VersionReq_matches : VersionReq -> Version -> bool;
}.

(** The slot claims are written to and read back from provider metadata. *)
Class SlotCodec : Type := {
  slot_claims_serialize :: Serialize (list PluginSlotClaim);
  slot_claims_deserialize :: Deserialize (list PluginSlotClaim);
}.

(** [serde_json] documents that a struct with string keys is written without
    error and that reading it back gives the struct. *)
Class SlotCodecLaws `{SlotCodec} : Prop := {
  slot_claims_total : forall x : list PluginSlotClaim, exists s, to_json x = Ok s;
  slot_claims_round_trip : forall (x : list PluginSlotClaim) s, to_json x = Ok s -> from_json s = Ok x;
}.

(** ** Normalising and checking a manifest *)

Section manifest_ops.
Context {J : SerdeJson} {V : SemverReq} {S : SlotCodec}.

(** [filter(|x| !x.is_effectively_empty())]. *)
Definition drop_if {A} (empty : A -> bool) (o : option A) : option A :=
  match o with
  | Some x => if empty x then None else Some x
  | None => None
  end.

Definition option_or {A} (o1 o2 : option A) : option A :=
  match o1 with Some _ => o1 | None => o2 end.

(** [metadata.get("version").cloned().and_then(...)]. *)
Definition metadata_version (metadata : gmap string string) : option string :=
  match metadata !! "version" with
  | Some value => normalize_optional_manifest_string (Some value)
  | None => None
  end.

(** [metadata.entry("version").or_insert(version)]. *)
Definition fill_version (normalized_version : option string) (metadata : gmap string string)
  : gmap string string :=
  match normalized_version with
  | Some version =>
      match metadata !! "version" with
      | Some _ => metadata
      | None => <["version" := version]> metadata
      end
  | None => metadata
  end.

Definition normalize_plugin_manifest (m : PluginManifest) : PluginManifest :=
  let normalized_api_version := normalize_optional_manifest_string (pm_api_version m) in
  let normalized_version :=
    option_or (normalize_optional_manifest_string (pm_version m)) (metadata_version (pm_metadata m)) in
  let canonical_setup :=
    drop_if PluginSetup_is_effectively_empty (PluginSetup_normalized <$> pm_setup m) in
  let normalized_slot_claims := normalize_plugin_slot_claims (pm_slot_claims m) in
  let normalized_compatibility :=
    drop_if PluginCompatibility_is_effectively_empty
      (PluginCompatibility_normalized <$> pm_compatibility m) in
  {| pm_api_version := normalized_api_version;
     pm_version := normalized_version;
     pm_plugin_id := pm_plugin_id m;
     pm_provider_id := pm_provider_id m;
     pm_connector_name := pm_connector_name m;
     pm_channel_id := pm_channel_id m;
     pm_endpoint := pm_endpoint m;
     pm_capabilities := pm_capabilities m;
     pm_trust_tier := pm_trust_tier m;
     pm_metadata := fill_version normalized_version (pm_metadata m);
     pm_summary := pm_summary m;
     pm_tags := pm_tags m;
     pm_input_examples := pm_input_examples m;
     pm_output_examples := pm_output_examples m;
     pm_defer_loading := pm_defer_loading m;
     pm_setup := canonical_setup;
     pm_slot_claims := normalized_slot_claims;
     pm_compatibility := normalized_compatibility |}.

Definition is_package_manifest_kind (k : PluginSourceKind) : bool :=
  match k with PackageManifest => true | EmbeddedSource => false end.

Definition validate_plugin_manifest_contract (m : PluginManifest) (source_kind : PluginSourceKind)
    (path : string) : result unit IntegrationError :=
  let fail reason := Err (PluginManifestParse path reason) in
  if is_package_manifest_kind source_kind && negb (is_some (pm_api_version m)) then
    fail "package manifest must declare api_version" else
  let* _ :=
    match pm_api_version m with
    | Some api_version =>
        if decide (api_version <> CURRENT_PLUGIN_MANIFEST_API_VERSION) then
          fail ("plugin api_version `" +:+ api_version +:+
                "` is not supported by current manifest api `" +:+
                CURRENT_PLUGIN_MANIFEST_API_VERSION +:+ "`")
        else Ok tt
    | None => Ok tt
    end in
  if is_package_manifest_kind source_kind && negb (is_some (pm_version m)) then
    fail "package manifest must declare top-level version" else
  match pm_version m with
  | None => Ok tt
  | Some version =>
      match Version_parse version with
      | Err error => fail ("plugin version `" +:+ version +:+ "` is invalid semver: " +:+ error)
      | Ok _ =>
          match metadata_version (pm_metadata m) with
          | Some mv =>
              if decide (mv <> version) then
                fail ("plugin version conflict: top-level version `" +:+ version +:+
                      "` does not match metadata.version `" +:+ mv +:+ "`")
              else Ok tt
          | None => Ok tt
          end
      end
  end.

(** ** Slots *)

Definition slot_modes_conflict (existing incoming : PluginSlotMode) : bool :=
  match existing, incoming with
  | SlotExclusive, _ | _, SlotExclusive => true
  | _, _ => false
  end.

(** [registry.entry(key).or_default().push(claim)]. *)
Definition registry_push {A} (key : string * string) (x : A)
    (registry : gmap (string * string) (list A)) : gmap (string * string) (list A) :=
  <[key := default [] (registry !! key) ++ [x]]> registry.

(** The plugin a provider of the catalog belongs to. *)
Definition provider_plugin_id (p : ProviderConfig) : string :=
  default ("provider:" +:+ pv_provider_id p) (pv_metadata p !! "plugin_id").

Definition collect_provider (registry : ClaimedSlotRegistry) (provider : ProviderConfig)
  : result ClaimedSlotRegistry IntegrationError :=
  match pv_metadata provider !! PLUGIN_SLOT_CLAIMS_METADATA_KEY with
  | None => Ok registry
  | Some raw_json =>
      let* claims :=
        map_err (fun error =>
          PluginAbsorbFailed (provider_plugin_id provider)
            ("existing provider `" +:+ pv_provider_id provider +:+ "` has invalid " +:+
             PLUGIN_SLOT_CLAIMS_METADATA_KEY +:+ ": " +:+ error))
          (from_json (T := list PluginSlotClaim) raw_json) in
      Ok (fold_left (fun registry claim =>
            registry_push (sc_slot claim, sc_key claim)
              {| rs_plugin_id := provider_plugin_id provider;
                 rs_provider_id := pv_provider_id provider;
                 rs_mode := sc_mode claim |} registry) claims registry)
  end.

(** [for x in xs { ... ? }]. *)
Fixpoint try_fold {A B E} (f : A -> B -> result A E) (l : list B) (a : A) : result A E :=
  match l with
  | [] => Ok a
  | x :: l => let* a' := f a x in try_fold f l a'
  end.

Definition collect_claimed_slots (catalog : IntegrationCatalog)
  : result ClaimedSlotRegistry IntegrationError :=
  try_fold collect_provider (IntegrationCatalog_providers catalog) ∅.

(** One claim of [validate_plugin_slot_claims], on the modes seen so far. *)
Definition validate_slot_claim (plugin_id : string) (seen : gmap (string * string) PluginSlotMode)
    (claim : PluginSlotClaim) : result (gmap (string * string) PluginSlotMode) IntegrationError :=
  let fail reason := Err (PluginAbsorbFailed plugin_id reason) in
  if str_is_empty (sc_slot claim) then fail "slot claim slot must not be empty" else
  if str_is_empty (sc_key claim) then fail "slot claim key must not be empty" else
  let slot_key := (sc_slot claim, sc_key claim) in
  match seen !! slot_key with
  | Some existing_mode =>
      if decide (existing_mode <> sc_mode claim) then
        fail ("slot claim `" +:+ sc_slot claim +:+ "`:`" +:+ sc_key claim +:+
              "` declares conflicting modes `" +:+ PluginSlotMode_as_str existing_mode +:+
              "` and `" +:+ PluginSlotMode_as_str (sc_mode claim) +:+ "`")
      else Ok (<[slot_key := sc_mode claim]> seen)
  | None => Ok (<[slot_key := sc_mode claim]> seen)
  end.

Definition validate_plugin_slot_claims (m : PluginManifest) : result unit IntegrationError :=
  let* _ := try_fold (validate_slot_claim (pm_plugin_id m)) (pm_slot_claims m) ∅ in Ok tt.

Definition register_slot_claim (m : PluginManifest) (registry : ClaimedSlotRegistry)
    (claim : PluginSlotClaim) : result ClaimedSlotRegistry IntegrationError :=
  let slot_key := (sc_slot claim, sc_key claim) in
  match find_first (fun existing =>
          negb (bool_decide (rs_plugin_id existing = pm_plugin_id m)) &&
          slot_modes_conflict (rs_mode existing) (sc_mode claim))
        (default [] (registry !! slot_key)) with
  | Some existing =>
      Err (PluginAbsorbFailed (pm_plugin_id m)
        ("slot claim conflict on `" +:+ sc_slot claim +:+ "`:`" +:+ sc_key claim +:+
         "` with plugin `" +:+ rs_plugin_id existing +:+ "` (provider `" +:+
         rs_provider_id existing +:+ "`): `" +:+ PluginSlotMode_as_str (sc_mode claim) +:+
         "` cannot coexist with `" +:+ PluginSlotMode_as_str (rs_mode existing) +:+ "`"))
  | None =>
      Ok (registry_push slot_key
            {| rs_plugin_id := pm_plugin_id m; rs_provider_id := pm_provider_id m;
               rs_mode := sc_mode claim |} registry)
  end.

Definition register_plugin_slot_claims (m : PluginManifest) (registry : ClaimedSlotRegistry)
  : result ClaimedSlotRegistry IntegrationError :=
  try_fold (register_slot_claim m) (pm_slot_claims m) registry.

(** ** Host compatibility *)

Definition current_plugin_host_version : result Version string :=
  map_err (fun error =>
    "current host version `" +:+ CARGO_PKG_VERSION +:+
    "` is invalid and cannot satisfy plugin compatibility checks: " +:+ error)
    (Version_parse CARGO_PKG_VERSION).

Definition host_version_issue (host_version_req : string) : option string :=
  match VersionReq_parse host_version_req with
  | Err error =>
      Some ("plugin compatibility.host_version_req `" +:+ host_version_req +:+ "` is invalid: " +:+ error)
  | Ok parsed_req =>
      match current_plugin_host_version with
      | Err error => Some error
      | Ok current_version =>
          if VersionReq_matches parsed_req current_version then None
          else Some ("plugin compatibility.host_version_req `" +:+ host_version_req +:+
                     "` does not match current host version `" +:+
                     Version_to_string current_version +:+ "`")
      end
  end.

Definition plugin_host_compatibility_issue (compatibility : option PluginCompatibility)
  : option string :=
  match compatibility with
  | None => None
  | Some c =>
      let api_issue :=
        match pc_host_api c with
        | Some host_api =>
            if decide (host_api <> CURRENT_PLUGIN_HOST_API) then
              Some ("plugin compatibility.host_api `" +:+ host_api +:+
                    "` is not supported by current host api `" +:+ CURRENT_PLUGIN_HOST_API +:+ "`")
            else None
        | None => None
        end in
      match api_issue with
      | Some issue => Some issue
      | None =>
          match pc_host_version_req c with
          | Some req => host_version_issue req
          | None => None
          end
      end
  end.

Definition validate_plugin_host_compatibility (m : PluginManifest) : result unit IntegrationError :=
  match plugin_host_compatibility_issue (pm_compatibility m) with
  | None => Ok tt
  | Some issue => Err (PluginAbsorbFailed (pm_plugin_id m) issue)
  end.

(** ** Host-managed metadata *)

(** [insert] when there is a value, [remove] when there is none. *)
Definition stamp (key : string) (value : option string) (metadata : gmap string string)
  : gmap string string :=
  match value with
  | Some v => <[key := v]> metadata
  | None => delete key metadata
  end.

Definition stamp_plugin_manifest_contract_metadata (m : PluginManifest)
    (metadata : gmap string string) : gmap string string :=
  stamp PLUGIN_VERSION_METADATA_KEY (pm_version m)
    (stamp PLUGIN_MANIFEST_API_VERSION_METADATA_KEY (pm_api_version m) metadata).

Definition stamp_plugin_descriptor_contract_metadata (d : PluginDescriptor)
    (metadata : gmap string string) : gmap string string :=
  let metadata := <[PLUGIN_DIALECT_METADATA_KEY := PluginContractDialect_as_str (pd_dialect d)]>
                    metadata in
  let metadata := stamp PLUGIN_DIALECT_VERSION_METADATA_KEY (pd_dialect_version d) metadata in
  let metadata := <[PLUGIN_COMPATIBILITY_MODE_METADATA_KEY :=
                      PluginCompatibilityMode_as_str (pd_compatibility_mode d)]> metadata in
  match PluginCompatibilityShim_for_mode (pd_compatibility_mode d) with
  | Some shim =>
      <[PLUGIN_COMPATIBILITY_SHIM_FAMILY_METADATA_KEY := sh_family shim]>
        (<[PLUGIN_COMPATIBILITY_SHIM_ID_METADATA_KEY := sh_shim_id shim]> metadata)
  | None =>
      delete PLUGIN_COMPATIBILITY_SHIM_FAMILY_METADATA_KEY
        (delete PLUGIN_COMPATIBILITY_SHIM_ID_METADATA_KEY metadata)
  end.

Definition stamp_plugin_slot_claims_metadata (slot_claims : list PluginSlotClaim)
    (metadata : gmap string string) : result (gmap string string) IntegrationError :=
  if list_is_empty slot_claims then Ok (delete PLUGIN_SLOT_CLAIMS_METADATA_KEY metadata) else
  let* encoded :=
    map_err (fun error =>
      PluginAbsorbFailed (default "unknown-plugin" (metadata !! "plugin_id"))
        ("serialize plugin slot claims metadata failed: " +:+ error)) (to_json slot_claims) in
  Ok (<[PLUGIN_SLOT_CLAIMS_METADATA_KEY := encoded]> metadata).

Definition stamp_plugin_compatibility_metadata (compatibility : option PluginCompatibility)
    (metadata : gmap string string) : gmap string string :=
  match compatibility with
  | None =>
      delete PLUGIN_COMPATIBILITY_HOST_VERSION_REQ_METADATA_KEY
        (delete PLUGIN_COMPATIBILITY_HOST_API_METADATA_KEY metadata)
  | Some c =>
      stamp PLUGIN_COMPATIBILITY_HOST_VERSION_REQ_METADATA_KEY (pc_host_version_req c)
        (stamp PLUGIN_COMPATIBILITY_HOST_API_METADATA_KEY (pc_host_api c) metadata)
  end.

(** ** Absorption *)

(** What the loop of [absorb_inner] carries: the [&mut] catalog and pack, the
    registry and the report. *)
Record AbsorbState : Type := {
  as_catalog : IntegrationCatalog;
  as_pack : VerticalPackManifest;
  as_claimed_slots : ClaimedSlotRegistry;
  as_report : PluginAbsorbReport;
}.

Definition PluginAbsorbReport_default : PluginAbsorbReport := {|
  ar_absorbed_plugins := 0; ar_provider_upserts := 0; ar_channel_upserts := 0;
  ar_connectors_added_to_pack := ∅; ar_capabilities_added_to_pack := ∅ |}.

Definition set_pack_grants (connectors : gset string) (capabilities : gset Capability)
    (pack : VerticalPackManifest) : VerticalPackManifest := {|
  vp_pack_id := vp_pack_id pack; vp_domain := vp_domain pack; vp_version := vp_version pack;
  vp_default_route := vp_default_route pack; vp_allowed_connectors := connectors;
  vp_granted_capabilities := capabilities; vp_metadata := vp_metadata pack |}.

(** [if granted.insert(x) { added.insert(x); }]. *)
Definition grant_recording `{Countable A} (p : gset A * gset A) (x : A) : gset A * gset A :=
  let (granted, added) := p in
  if decide (x ∈ granted) then (granted, added) else ({[x]} ∪ granted, {[x]} ∪ added).

Definition plugin_provider (d : PluginDescriptor) (metadata : gmap string string) : ProviderConfig :=
  let m := pd_manifest d in {|
    pv_provider_id := pm_provider_id m;
    pv_connector_name := pm_connector_name m;
    pv_version := default "0.1.0" (option_or (pm_version m) (pm_metadata m !! "version"));
    pv_metadata := metadata |}.

Definition plugin_channel (m : PluginManifest) (channel_id : string) : ChannelConfig := {|
  ch_channel_id := channel_id;
  ch_provider_id := pm_provider_id m;
  ch_endpoint := default ("https://" +:+ pm_provider_id m +:+ ".local/" +:+ channel_id +:+ "/invoke")
                   (pm_endpoint m);
  ch_enabled := true;
  ch_metadata := {["source_plugin" := pm_plugin_id m]} |}.

(** The provider metadata of an absorbed plugin. *)
Definition absorbed_metadata (d : PluginDescriptor) : result (gmap string string) IntegrationError :=
  let m := pd_manifest d in
  let* metadata :=
    stamp_plugin_slot_claims_metadata (pm_slot_claims m)
      (stamp_plugin_descriptor_contract_metadata d
        (stamp_plugin_manifest_contract_metadata m (pm_metadata m))) in
  Ok (stamp_plugin_compatibility_metadata (pm_compatibility m) metadata).

Definition absorb_descriptor (s : AbsorbState) (d : PluginDescriptor)
  : result AbsorbState IntegrationError :=
  let m := pd_manifest d in
  let report := as_report s in
  if str_is_empty (pm_provider_id m) then
    Err (PluginAbsorbFailed (pm_plugin_id m) "provider_id must not be empty") else
  if str_is_empty (pm_connector_name m) then
    Err (PluginAbsorbFailed (pm_plugin_id m) "connector_name must not be empty") else
  let* _ := validate_plugin_slot_claims m in
  let* _ := validate_plugin_host_compatibility m in
  let* claimed_slots := register_plugin_slot_claims m (as_claimed_slots s) in
  let* provider_metadata := absorbed_metadata d in
  let catalog := IntegrationCatalog_upsert_provider (plugin_provider d provider_metadata) (as_catalog s) in
  let '(catalog, channel_upserts) :=
    match pm_channel_id m with
    | Some channel_id =>
        (IntegrationCatalog_upsert_channel (plugin_channel m channel_id) catalog,
         u64_saturating_add (ar_channel_upserts report) 1)
    | None => (catalog, ar_channel_upserts report)
    end in
  let '(connectors, connectors_added) :=
    grant_recording (vp_allowed_connectors (as_pack s), ar_connectors_added_to_pack report)
      (pm_connector_name m) in
  let '(granted, granted_added) :=
    fold_left grant_recording (InvokeConnector :: btree_set_iter (pm_capabilities m))
      (vp_granted_capabilities (as_pack s), ar_capabilities_added_to_pack report) in
  Ok {| as_catalog := catalog;
        as_pack := set_pack_grants connectors granted (as_pack s);
        as_claimed_slots := claimed_slots;
        as_report := {|
          ar_absorbed_plugins := u64_saturating_add (ar_absorbed_plugins report) 1;
          ar_provider_upserts := u64_saturating_add (ar_provider_upserts report) 1;
          ar_channel_upserts := channel_upserts;
          ar_connectors_added_to_pack := connectors_added;
          ar_capabilities_added_to_pack := granted_added |} |}.

(** The loop of [absorb_inner].  An error leaves the catalog and the pack as
    the earlier descriptors made them. *)
Fixpoint absorb_descriptors (ds : list PluginDescriptor) (s : AbsorbState)
  : result PluginAbsorbReport IntegrationError * (IntegrationCatalog * VerticalPackManifest) :=
  match ds with
  | [] => (Ok (as_report s), (as_catalog s, as_pack s))
  | d :: ds =>
      match absorb_descriptor s d with
      | Ok s' => absorb_descriptors ds s'
      | Err e => (Err e, (as_catalog s, as_pack s))
      end
  end.

Definition absorb_inner (report : PluginScanReport) (s : IntegrationCatalog * VerticalPackManifest)
  : result PluginAbsorbReport IntegrationError * (IntegrationCatalog * VerticalPackManifest) :=
  match collect_claimed_slots s.1 with
  | Err e => (Err e, s)
  | Ok claimed_slots =>
      absorb_descriptors (sr_descriptors report)
        {| as_catalog := s.1; as_pack := s.2; as_claimed_slots := claimed_slots;
           as_report := PluginAbsorbReport_default |}
  end.

Definition PluginScanner_absorb (report : PluginScanReport)
    (s : IntegrationCatalog * VerticalPackManifest)
  : result PluginAbsorbReport IntegrationError * (IntegrationCatalog * VerticalPackManifest) :=
  let snapshot := s in
  let (result, s') := absorb_inner report s in
  if is_ok result then (result, s') else (result, snapshot).

Definition to_auto_provision_requests (report : PluginScanReport) : list AutoProvisionRequest :=
  map (fun d =>
    let m := pd_manifest d in {|
      apr_provider_id := pm_provider_id m;
      apr_channel_id := default (pm_provider_id m +:+ "-default") (pm_channel_id m);
      apr_connector_name := Some (pm_connector_name m);
      apr_endpoint := pm_endpoint m;
      apr_required_capabilities := pm_capabilities m |}) (sr_descriptors report).
End manifest_ops.
