(* ===== verification/PluginAbsorb.v ===== *)
(** * Properties of manifests and absorption

    Normalising a manifest is idempotent and puts the slot claims in a canonical
    form; the host's metadata keys cannot be forged by a manifest; absorbing a
    scan is all or nothing; and no two plugins end up holding conflicting claims
    on a slot. *)

From S2P Require Import Prelude RustStr Contracts Integration Plugin.

(** ** Order of slot claims *)

#[export] Instance PluginSlotClaim_le_total : Total PluginSlotClaim_le.
Proof.
  intros a b. unfold PluginSlotClaim_le.
  destruct (decide (sc_slot a = sc_slot b)) as [Hs|Hs].
  - rewrite (decide_True _ _ (eq_sym Hs)).
    destruct (decide (sc_key a = sc_key b)) as [Hk|Hk].
    + rewrite (decide_True _ _ (eq_sym Hk)). lia.
    + rewrite (decide_False _ _ (not_eq_sym Hk)). apply (total String.le).
  - rewrite (decide_False _ _ (not_eq_sym Hs)). apply (total String.le).
Qed.

#[export] Instance PluginSlotClaim_le_antisymm : AntiSymm (=) PluginSlotClaim_le.
Proof.
  intros [s1 k1 m1] [s2 k2 m2]. unfold PluginSlotClaim_le. simpl.
  repeat case_decide; subst; try congruence; intros Hab Hba.
  - f_equal. destruct m1, m2; simpl in *; try done; lia.
  - by destruct (anti_symm String.le k1 k2 Hab Hba).
  - by destruct (anti_symm String.le s1 s2 Hab Hba).
Qed.

#[export] Instance PluginSlotClaim_le_trans : Transitive PluginSlotClaim_le.
Proof.
  intros [s1 k1 m1] [s2 k2 m2] [s3 k3 m3]. unfold PluginSlotClaim_le. simpl.
  repeat case_decide; subst; try congruence; intros Hab Hbc.
  all: try lia.
  all: try (by etrans).
  all: match goal with
       | Hab : String.le ?a ?b, Hba : String.le ?b ?a |- _ =>
           by destruct (anti_symm String.le a b Hab Hba)
       end.
Qed.

(** ** Normalisation *)

Lemma dedup_cons_ne `{EqDecision A} (x y : A) l : x <> y -> dedup (x :: y :: l) = x :: dedup (y :: l).
Proof. intros. simpl. by rewrite decide_False. Qed.

Lemma dedup_cons_eq `{EqDecision A} (x : A) l : dedup (x :: x :: l) = dedup (x :: l).
Proof. simpl. by rewrite decide_True. Qed.

Lemma elem_of_dedup `{EqDecision A} (l : list A) x : x ∈ dedup l <-> x ∈ l.
Proof.
  induction l as [|a [|b l] IH]; [done..|]. destruct (decide (a = b)) as [->|Hab].
  - rewrite dedup_cons_eq, IH. set_solver.
  - rewrite dedup_cons_ne, !elem_of_cons, IH, elem_of_cons by done. done.
Qed.

Lemma dedup_NoDup `{EqDecision A} (l : list A) : NoDup l -> dedup l = l.
Proof.
  induction l as [|a [|b l] IH]; [done..|]. intros [Ha Hl]%NoDup_cons.
  rewrite dedup_cons_ne by set_solver. by rewrite IH.
Qed.

(** On a sorted list [dedup] leaves each element once. *)
Lemma dedup_sorted `{EqDecision A} (R : relation A) `{!AntiSymm (=) R} (l : list A) :
  StronglySorted R l -> StronglySorted R (dedup l) /\ NoDup (dedup l).
Proof.
  induction l as [|a [|b l] IH]; intros Hs.
  - split; constructor.
  - split; [done|]. apply NoDup_singleton.
  - apply StronglySorted_cons in Hs as [Ha Hs]. destruct (IH Hs) as [IHs IHn].
    destruct (decide (a = b)) as [->|Hab]; [by rewrite dedup_cons_eq|].
    rewrite dedup_cons_ne by done. split.
    + constructor; [done|]. apply Forall_forall. intros x Hx. rewrite elem_of_dedup in Hx.
      rewrite Forall_forall in Ha. by apply Ha.
    + apply NoDup_cons. split; [|done]. intros Hx. rewrite elem_of_dedup in Hx.
      apply StronglySorted_cons in Hs as [Hb _].
      apply elem_of_cons in Hx as [->|Hx]; [done|]. apply Hab.
      rewrite Forall_forall in Ha, Hb. apply (anti_symm R); [apply Ha; set_solver|by apply Hb].
Qed.

(** The canonical form of slot claims: trimmed, sorted, each once. *)
Record claims_canonical (l : list PluginSlotClaim) : Prop := {
  cc_sorted : StronglySorted PluginSlotClaim_le l;
  cc_nodup : NoDup l;
  cc_trimmed : Forall (fun c => PluginSlotClaim_normalized c = c) l;
}.

Lemma normalize_slot_claims_canonical l : claims_canonical (normalize_plugin_slot_claims l).
Proof.
  unfold normalize_plugin_slot_claims.
  destruct (dedup_sorted PluginSlotClaim_le
              (merge_sort PluginSlotClaim_le (map PluginSlotClaim_normalized l))) as [Hs Hn];
    [apply (StronglySorted_merge_sort _)|].
  split; [done..|]. apply Forall_forall. intros c Hc. rewrite elem_of_dedup in Hc.
  rewrite merge_sort_Permutation in Hc. apply list_elem_of_fmap in Hc as ([s k m] & -> & _).
  unfold PluginSlotClaim_normalized. simpl. by rewrite !trim_trim.
Qed.

Lemma canonical_fixed l : claims_canonical l -> normalize_plugin_slot_claims l = l.
Proof.
  intros [Hs Hn Ht]. unfold normalize_plugin_slot_claims.
  assert (map PluginSlotClaim_normalized l = l) as ->.
  { clear Hs Hn. induction Ht as [|c l Hc _ IH]; simpl; congruence. }
  replace (merge_sort PluginSlotClaim_le l) with l; [by apply dedup_NoDup|].
  apply (StronglySorted_unique PluginSlotClaim_le); [done|apply (StronglySorted_merge_sort _)|].
  symmetry. apply merge_sort_Permutation.
Qed.

Lemma normalize_optional_idempotent o :
  normalize_optional_manifest_string (normalize_optional_manifest_string o) =
  normalize_optional_manifest_string o.
Proof.
  destruct o as [s|]; [|done]. simpl. destruct (str_is_empty (trim s)) eqn:E; [done|].
  simpl. by rewrite trim_trim, E.
Qed.

(** What the loop over a list of texts keeps. *)
Definition texts_canonical (l : list string) : Prop :=
  NoDup l /\ Forall (fun s => trim s = s /\ str_is_empty s = false) l.

Lemma push_normalized_canonical kept v :
  texts_canonical kept -> texts_canonical (push_normalized kept v).
Proof.
  intros [Hn Hf]. unfold push_normalized. destruct (str_is_empty (trim v)) eqn:E; [done|].
  case_decide as Hin; [done|]. split.
  - apply NoDup_app. split_and!; [done| |apply NoDup_singleton]. set_solver.
  - apply Forall_app. split; [done|]. repeat constructor; [apply trim_trim|done].
Qed.

Lemma normalize_list_canonical l : texts_canonical (normalize_manifest_string_list l).
Proof.
  unfold normalize_manifest_string_list.
  assert (texts_canonical []) as H by (split; constructor). revert H. generalize (@nil string).
  induction l as [|v l IH]; intros kept Hk; simpl; [done|]. by apply IH, push_normalized_canonical.
Qed.

Lemma push_normalized_all kept l :
  texts_canonical (kept ++ l) -> fold_left push_normalized l kept = kept ++ l.
Proof.
  revert kept. induction l as [|v l IH]; intros kept [Hn Hf]; simpl; [by rewrite app_nil_r|].
  assert (push_normalized kept v = kept ++ [v]) as ->.
  { unfold push_normalized. apply Forall_app in Hf as [_ [[Ht He] _]%Forall_cons].
    rewrite Ht, He. apply NoDup_app in Hn as (_ & Hn & _). rewrite decide_False; [done|].
    intros Hin. apply (Hn _ Hin). set_solver. }
  rewrite IH; by rewrite <- app_assoc.
Qed.

Lemma normalize_list_idempotent l :
  normalize_manifest_string_list (normalize_manifest_string_list l) = normalize_manifest_string_list l.
Proof. apply (push_normalized_all []), normalize_list_canonical. Qed.

Lemma setup_normalized_idempotent s :
  PluginSetup_normalized (PluginSetup_normalized s) = PluginSetup_normalized s.
Proof.
  unfold PluginSetup_normalized. simpl.
  by rewrite !normalize_optional_idempotent, !normalize_list_idempotent.
Qed.

Lemma compatibility_normalized_idempotent c :
  PluginCompatibility_normalized (PluginCompatibility_normalized c) = PluginCompatibility_normalized c.
Proof. unfold PluginCompatibility_normalized. simpl. by rewrite !normalize_optional_idempotent. Qed.

Lemma drop_if_idempotent {A} (f : A -> A) (empty : A -> bool) o :
  (forall x, f (f x) = f x) ->
  drop_if empty (f <$> drop_if empty (f <$> o)) = drop_if empty (f <$> o).
Proof.
  intros Hf. destruct o as [x|]; [|done]. simpl. destruct (empty (f x)) eqn:E; [done|].
  simpl. by rewrite Hf, E.
Qed.

Section manifests.
Context {J : SerdeJson} {V : SemverReq} {S : SlotCodec}.

Lemma fill_version_idempotent v md : fill_version v (fill_version v md) = fill_version v md.
Proof.
  destruct v as [v|]; simpl; [|done].
  destruct (md !! "version") eqn:E; simpl; [by rewrite E|by rewrite lookup_insert_eq].
Qed.

Lemma normalized_version_fixed o md :
  let v := option_or (normalize_optional_manifest_string o) (metadata_version md) in
  option_or (normalize_optional_manifest_string v) (metadata_version (fill_version v md)) = v.
Proof.
  simpl. pose proof (normalize_optional_idempotent o) as Ho.
  destruct (normalize_optional_manifest_string o) as [v|]; cbn [option_or].
  - by rewrite Ho.
  - unfold metadata_version. destruct (md !! "version") as [w|] eqn:Ew; simpl; [|by rewrite Ew].
    destruct (str_is_empty (trim w)) eqn:Et; simpl; rewrite ?Ew; simpl; by rewrite ?trim_trim, ?Et.
Qed.

(** Normalising a manifest twice is normalising it once, and
    the slot claims come out trimmed, in the derived order and each once; the
    order is what the activation planner relies on when it looks up the first
    claim on a slot. *)
Theorem normalize_manifest_canonical (m : PluginManifest) :
  normalize_plugin_manifest (normalize_plugin_manifest m) = normalize_plugin_manifest m /\
  claims_canonical (pm_slot_claims (normalize_plugin_manifest m)).
Proof.
  split; [|apply normalize_slot_claims_canonical].
  unfold normalize_plugin_manifest at 1. simpl.
  rewrite normalize_optional_idempotent, (canonical_fixed (normalize_plugin_slot_claims _)),
    (drop_if_idempotent PluginSetup_normalized _ _ setup_normalized_idempotent),
    (drop_if_idempotent PluginCompatibility_normalized _ _ compatibility_normalized_idempotent)
    by apply normalize_slot_claims_canonical.
  unfold normalize_plugin_manifest. simpl. by rewrite normalized_version_fixed, fill_version_idempotent.
Qed.
End manifests.

(** ** Host-managed metadata *)

Definition stamp_all (l : list (string * option string)) (md : gmap string string)
  : gmap string string := fold_left (fun md kv => stamp kv.1 kv.2 md) l md.

Lemma lookup_stamp k v md key :
  stamp k v md !! key = if decide (k = key) then v else md !! key.
Proof. destruct v; simpl; [apply lookup_insert|apply lookup_delete]. Qed.

Lemma lookup_stamp_all l md key :
  NoDup l.*1 ->
  stamp_all l md !! key =
  match (list_to_map l : gmap string (option string)) !! key with Some v => v | None => md !! key end.
Proof.
  revert md. induction l as [|[k v] l IH]; intros md; [reflexivity|].
  cbn [fmap list_fmap fst]. intros [Hk Hl]%NoDup_cons.
  unfold stamp_all in *. simpl. rewrite IH by done. rewrite lookup_insert, lookup_stamp.
  case_decide; [subst|done]. by rewrite not_elem_of_list_to_map_1.
Qed.

Section stamps.
Context {J : SerdeJson} {V : SemverReq} {S : SlotCodec}.

(** What the host writes about a descriptor, key by key. *)
Definition host_metadata (d : PluginDescriptor) (encoded_claims : option string)
  : list (string * option string) :=
  let m := pd_manifest d in
  let shim := PluginCompatibilityShim_for_mode (pd_compatibility_mode d) in
  [(PLUGIN_MANIFEST_API_VERSION_METADATA_KEY, pm_api_version m);
   (PLUGIN_VERSION_METADATA_KEY, pm_version m);
   (PLUGIN_DIALECT_METADATA_KEY, Some (PluginContractDialect_as_str (pd_dialect d)));
   (PLUGIN_DIALECT_VERSION_METADATA_KEY, pd_dialect_version d);
   (PLUGIN_COMPATIBILITY_MODE_METADATA_KEY,
    Some (PluginCompatibilityMode_as_str (pd_compatibility_mode d)));
   (PLUGIN_COMPATIBILITY_SHIM_ID_METADATA_KEY, sh_shim_id <$> shim);
   (PLUGIN_COMPATIBILITY_SHIM_FAMILY_METADATA_KEY, sh_family <$> shim);
   (PLUGIN_SLOT_CLAIMS_METADATA_KEY, encoded_claims);
   (PLUGIN_COMPATIBILITY_HOST_API_METADATA_KEY, pm_compatibility m ≫= pc_host_api);
   (PLUGIN_COMPATIBILITY_HOST_VERSION_REQ_METADATA_KEY, pm_compatibility m ≫= pc_host_version_req)].

(** The claims a provider of the catalog holds. *)
Definition provider_claims (p : ProviderConfig) : list PluginSlotClaim :=
  match pv_metadata p !! PLUGIN_SLOT_CLAIMS_METADATA_KEY with
  | None => []
  | Some raw => match from_json raw with Ok claims => claims | Err _ => [] end
  end.

Lemma host_metadata_keys d e : NoDup (host_metadata d e).*1.
Proof. unfold host_metadata. cbn [fmap list_fmap fst]. apply (bool_decide_unpack _). reflexivity. Qed.

Lemma absorbed_metadata_stamps d encoded :
  match pm_slot_claims (pd_manifest d) with
  | [] => encoded = None
  | claims => exists s, to_json claims = Ok s /\ encoded = Some s
  end ->
  absorbed_metadata d = Ok (stamp_all (host_metadata d encoded) (pm_metadata (pd_manifest d))).
Proof.
  intros He. unfold absorbed_metadata, stamp_plugin_slot_claims_metadata.
  unfold stamp_plugin_descriptor_contract_metadata, stamp_plugin_manifest_contract_metadata.
  unfold stamp_plugin_compatibility_metadata.
  destruct (pm_slot_claims (pd_manifest d)) as [|claim claims] eqn:Hc.
  - subst. cbn [list_is_empty result_bind]. unfold host_metadata, stamp_all.
    by destruct (pd_compatibility_mode d), (pm_compatibility (pd_manifest d)).
  - destruct He as (s & Hs & ->). cbn [list_is_empty]. rewrite Hs. cbn [map_err result_bind].
    unfold host_metadata, stamp_all.
    by destruct (pd_compatibility_mode d), (pm_compatibility (pd_manifest d)).
Qed.

Context {L : SlotCodecLaws}.

Lemma absorbed_metadata_total d : exists encoded,
  absorbed_metadata d = Ok (stamp_all (host_metadata d encoded) (pm_metadata (pd_manifest d))) /\
  match encoded with
  | Some s => from_json s = Ok (pm_slot_claims (pd_manifest d))
  | None => pm_slot_claims (pd_manifest d) = []
  end.
Proof.
  destruct (pm_slot_claims (pd_manifest d)) as [|claim claims] eqn:Hc.
  - exists None. split; [|done]. apply absorbed_metadata_stamps. by rewrite Hc.
  - destruct (slot_claims_total (claim :: claims)) as [s Hs]. exists (Some s). split.
    + apply absorbed_metadata_stamps. rewrite Hc. eauto.
    + by apply slot_claims_round_trip.
Qed.

Lemma absorbed_claims d md :
  absorbed_metadata d = Ok md ->
  provider_claims (plugin_provider d md) = pm_slot_claims (pd_manifest d).
Proof.
  destruct (absorbed_metadata_total d) as (e & Hmd & He). rewrite Hmd. intros Heq.
  assert (md = stamp_all (host_metadata d e) (pm_metadata (pd_manifest d))) as -> by congruence.
  unfold provider_claims, plugin_provider. cbn [pv_metadata].
  rewrite lookup_stamp_all by apply host_metadata_keys.
  replace ((list_to_map (host_metadata d e) : gmap string (option string)) !!
             PLUGIN_SLOT_CLAIMS_METADATA_KEY) with (Some e).
  - destruct e as [s|]; [by rewrite He|done].
  - symmetry. apply elem_of_list_to_map; [apply host_metadata_keys|]. unfold host_metadata. set_solver.
Qed.

(** The metadata of an absorbed provider is the manifest's
    with every host-managed key overwritten or removed: a manifest cannot forge
    the api version, version, dialect, compatibility mode, shim, slot claims or
    host requirements the host records, and the slot claims read back from the
    provider are the manifest's. *)
Theorem absorbed_metadata_host_owned (d : PluginDescriptor) :
  exists md encoded,
    absorbed_metadata d = Ok md /\
    (forall key, md !! key =
       match (list_to_map (host_metadata d encoded) : gmap string (option string)) !! key with
       | Some host_value => host_value
       | None => pm_metadata (pd_manifest d) !! key
       end) /\
    provider_claims (plugin_provider d md) = pm_slot_claims (pd_manifest d).
Proof.
  destruct (absorbed_metadata_total d) as (e & Hmd & _). do 2 eexists. split; [exact Hmd|]. split.
  - intros key. apply lookup_stamp_all, host_metadata_keys.
  - by apply absorbed_claims.
Qed.
End stamps.

(** ** Absorbing a scan *)

(** Granting a list of rights, recording the new ones. *)
Lemma grant_recording_all `{Countable A} (l : list A) (granted added : gset A) :
  fold_left grant_recording l (granted, added) =
  (granted ∪ list_to_set l, added ∪ (list_to_set l ∖ granted)).
Proof.
  revert granted added. induction l as [|x l IH]; intros granted added; simpl.
  - f_equal; set_solver.
  - case_decide; rewrite IH; f_equal; apply set_eq; intros y; destruct (decide (y = x)); set_solver.
Qed.

Lemma added_union `{Countable A} (granted X Y : gset A) :
  X ∖ granted ∪ Y ∖ (granted ∪ X) = (X ∪ Y) ∖ granted.
Proof. apply set_eq. intros x. destruct (decide (x ∈ X)); set_solver. Qed.

Definition saturated (n : nat) : Z := Z.min (Z.of_nat n) u64_max.

Lemma saturated_succ n : u64_saturating_add (saturated n) 1 = saturated (S n).
Proof. unfold u64_saturating_add, saturated, u64_max, u64_modulus. lia. Qed.

Section absorb.
Context {J : SerdeJson} {V : SemverReq} {S : SlotCodec}.

(** The last descriptor of a scan for a provider, and for a channel. *)
Definition last_plugin (ds : list PluginDescriptor) (provider_id : string) : option PluginDescriptor :=
  find_first (fun d => bool_decide (pm_provider_id (pd_manifest d) = provider_id)) (reverse ds).

Definition last_channel (ds : list PluginDescriptor) (channel_id : string) : option PluginDescriptor :=
  find_first (fun d => bool_decide (pm_channel_id (pd_manifest d) = Some channel_id)) (reverse ds).

Definition scanned_connectors (ds : list PluginDescriptor) : gset string :=
  list_to_set (map (fun d => pm_connector_name (pd_manifest d)) ds).

Definition scanned_capabilities (ds : list PluginDescriptor) : gset Capability :=
  ⋃ map (fun d => {[InvokeConnector]} ∪ pm_capabilities (pd_manifest d)) ds.

(** What absorbing [ds] into a catalog and a pack amounts to. *)
Record absorbed (ds : list PluginDescriptor) (c : IntegrationCatalog) (pack : VerticalPackManifest)
    (r : PluginAbsorbReport) (c' : IntegrationCatalog) (pack' : VerticalPackManifest) : Prop := {
  ab_providers : forall id,
    match last_plugin ds id with
    | Some d => exists md, absorbed_metadata d = Ok md /\
                           ic_providers c' !! id = Some (plugin_provider d md)
    | None => ic_providers c' !! id = ic_providers c !! id
    end;
  ab_channels : forall id,
    ic_channels c' !! id =
    match last_channel ds id with
    | Some d => Some (plugin_channel (pd_manifest d) id)
    | None => ic_channels c !! id
    end;
  ab_templates : ic_templates c' = ic_templates c;
  ab_pack : pack' = set_pack_grants (vp_allowed_connectors pack ∪ scanned_connectors ds)
                      (vp_granted_capabilities pack ∪ scanned_capabilities ds) pack;
  ab_connectors : ar_connectors_added_to_pack r = scanned_connectors ds ∖ vp_allowed_connectors pack;
  ab_capabilities :
    ar_capabilities_added_to_pack r = scanned_capabilities ds ∖ vp_granted_capabilities pack;
  ab_plugins : ar_absorbed_plugins r = saturated (length ds);
  ab_upserts : ar_provider_upserts r = saturated (length ds);
  ab_channel_upserts :
    ar_channel_upserts r =
    saturated (length (filter (fun d => is_some (pm_channel_id (pd_manifest d)) = true) ds));
  ab_valid : Forall (fun d => pm_provider_id (pd_manifest d) <> "" /\
                              pm_connector_name (pd_manifest d) <> "" /\
                              plugin_host_compatibility_issue (pm_compatibility (pd_manifest d)) = None) ds;
}.

(** The loop: what every step keeps holds at the end. *)
Lemma absorb_descriptors_rule (I : list PluginDescriptor -> AbsorbState -> Prop) ds done s r c pack :
  (forall done d s s', I done s -> absorb_descriptor s d = Ok s' -> I (done ++ [d]) s') ->
  I done s -> absorb_descriptors ds s = (Ok r, (c, pack)) ->
  exists s', I (done ++ ds) s' /\ r = as_report s' /\ c = as_catalog s' /\ pack = as_pack s'.
Proof.
  intros Hstep. revert done s. induction ds as [|d ds IH]; intros done s Hs; simpl.
  - intros [= <- <- <-]. exists s. by rewrite app_nil_r.
  - destruct (absorb_descriptor s d) as [s'|] eqn:E; [|done]. intros H.
    apply (IH (done ++ [d])) in H; [|by eapply Hstep]. by rewrite <- app_assoc in H.
Qed.

Lemma str_is_empty_false s : str_is_empty s = false -> s <> "".
Proof. by destruct s. Qed.

(** One descriptor: the checks it passed, and the state it leaves. *)
Lemma absorb_descriptor_inv s d s' :
  absorb_descriptor s d = Ok s' ->
  let m := pd_manifest d in
  exists reg md cat,
    pm_provider_id m <> "" /\ pm_connector_name m <> "" /\
    plugin_host_compatibility_issue (pm_compatibility m) = None /\
    register_plugin_slot_claims m (as_claimed_slots s) = Ok reg /\ absorbed_metadata d = Ok md /\
    cat = (let cat := IntegrationCatalog_upsert_provider (plugin_provider d md) (as_catalog s) in
           match pm_channel_id m with
           | Some id => IntegrationCatalog_upsert_channel (plugin_channel m id) cat
           | None => cat
           end) /\
    s' = {| as_catalog := cat;
            as_pack := set_pack_grants (vp_allowed_connectors (as_pack s) ∪ scanned_connectors [d])
                         (vp_granted_capabilities (as_pack s) ∪ scanned_capabilities [d]) (as_pack s);
            as_claimed_slots := reg;
            as_report := {|
              ar_absorbed_plugins := u64_saturating_add (ar_absorbed_plugins (as_report s)) 1;
              ar_provider_upserts := u64_saturating_add (ar_provider_upserts (as_report s)) 1;
              ar_channel_upserts :=
                if is_some (pm_channel_id m) then u64_saturating_add (ar_channel_upserts (as_report s)) 1
                else ar_channel_upserts (as_report s);
              ar_connectors_added_to_pack := ar_connectors_added_to_pack (as_report s) ∪
                (scanned_connectors [d] ∖ vp_allowed_connectors (as_pack s));
              ar_capabilities_added_to_pack := ar_capabilities_added_to_pack (as_report s) ∪
                (scanned_capabilities [d] ∖ vp_granted_capabilities (as_pack s)) |} |}.
Proof.
  unfold absorb_descriptor.
  destruct (str_is_empty (pm_provider_id _)) eqn:Hp; [done|].
  destruct (str_is_empty (pm_connector_name _)) eqn:Hn; [done|].
  destruct (validate_plugin_slot_claims _); cbn [result_bind]; [|done].
  unfold validate_plugin_host_compatibility.
  destruct (plugin_host_compatibility_issue _) eqn:Hi; cbn [result_bind]; [done|].
  destruct (register_plugin_slot_claims _ _) as [reg|] eqn:Hr; cbn [result_bind]; [|done].
  destruct (absorbed_metadata d) as [md|] eqn:Hmd; cbn [result_bind]; [|done].
  pose proof (grant_recording_all [pm_connector_name (pd_manifest d)]
    (vp_allowed_connectors (as_pack s)) (ar_connectors_added_to_pack (as_report s))) as Hg.
  cbn [fold_left] in Hg. rewrite Hg, grant_recording_all. cbn [list_to_set].
  rewrite list_to_set_btree_set_iter.
  assert (scanned_capabilities [d] = {[InvokeConnector]} ∪ pm_capabilities (pd_manifest d)) as ->
    by (unfold scanned_capabilities; simpl; set_solver).
  intros H. do 3 eexists. split_and!; [by apply str_is_empty_false..|done|done|done|reflexivity|].
  destruct (pm_channel_id (pd_manifest d)); by simplify_eq.
Qed.

Lemma last_plugin_snoc ds d id :
  last_plugin (ds ++ [d]) id =
  if decide (pm_provider_id (pd_manifest d) = id) then Some d else last_plugin ds id.
Proof.
  unfold last_plugin. rewrite reverse_snoc. simpl. by case_bool_decide; case_decide.
Qed.

Lemma last_channel_snoc ds d id :
  last_channel (ds ++ [d]) id =
  if decide (pm_channel_id (pd_manifest d) = Some id) then Some d else last_channel ds id.
Proof.
  unfold last_channel. rewrite reverse_snoc. simpl. by case_bool_decide; case_decide.
Qed.

Lemma scanned_connectors_snoc ds d :
  scanned_connectors (ds ++ [d]) = scanned_connectors ds ∪ scanned_connectors [d].
Proof. unfold scanned_connectors. rewrite map_app. set_solver. Qed.

Lemma scanned_capabilities_snoc ds d :
  scanned_capabilities (ds ++ [d]) = scanned_capabilities ds ∪ scanned_capabilities [d].
Proof. unfold scanned_capabilities. rewrite map_app, union_list_app_L. done. Qed.

Lemma absorbed_step c pack ds d s s' :
  absorbed ds c pack (as_report s) (as_catalog s) (as_pack s) ->
  absorb_descriptor s d = Ok s' ->
  absorbed (ds ++ [d]) c pack (as_report s') (as_catalog s') (as_pack s').
Proof.
  intros [Hp Hch Ht Hpk Hn Hc Ha Hu Hcu Hv].
  intros (reg & md & cat & Hid & Hcn & Hi & _ & Hmd & -> & ->)%absorb_descriptor_inv.
  split; cbn [as_catalog as_pack as_report ar_absorbed_plugins ar_provider_upserts
              ar_channel_upserts ar_connectors_added_to_pack ar_capabilities_added_to_pack].
  - intros id. rewrite last_plugin_snoc. specialize (Hp id).
    assert (forall ch cat, ic_providers (IntegrationCatalog_upsert_channel ch cat) = ic_providers cat)
      as Hsame by done.
    destruct (pm_channel_id _); rewrite ?Hsame; simpl; rewrite lookup_insert; case_decide; eauto.
  - intros id. rewrite last_channel_snoc. specialize (Hch id).
    destruct (pm_channel_id _) as [cid|]; simpl; [rewrite lookup_insert|]; repeat case_decide;
      simplify_eq; done.
  - by destruct (pm_channel_id _).
  - rewrite Hpk. unfold set_pack_grants. simpl.
    by rewrite scanned_connectors_snoc, scanned_capabilities_snoc, !(assoc_L (∪)).
  - rewrite Hn, Hpk, scanned_connectors_snoc. apply added_union.
  - rewrite Hc, Hpk, scanned_capabilities_snoc. apply added_union.
  - by rewrite Ha, saturated_succ, length_app, Nat.add_comm.
  - by rewrite Hu, saturated_succ, length_app, Nat.add_comm.
  - rewrite filter_app, length_app, Hcu, filter_cons.
    destruct (is_some (pm_channel_id _)) eqn:E; simpl; [|by rewrite Nat.add_0_r].
    by rewrite saturated_succ, Nat.add_comm.
  - apply Forall_app. auto.
Qed.

Lemma absorbed_nil c pack : absorbed [] c pack PluginAbsorbReport_default c pack.
Proof.
  split; simpl; try done.
  - destruct pack. unfold set_pack_grants, scanned_connectors, scanned_capabilities. simpl.
    by rewrite !(right_id_L ∅ (∪)).
  - unfold scanned_connectors. set_solver.
  - unfold scanned_capabilities. set_solver.
Qed.

(** Absorbing a scan is all or nothing.  When any descriptor
    fails, the catalog and the pack are what they were before the call, whatever
    the descriptors before it had already written.  Otherwise every provider and
    channel is the one of the last descriptor that names it, the pack's
    connectors and capabilities grow by exactly what the scan asks for, the
    report lists exactly the new ones, and its counters are the numbers of
    descriptors and of channels. *)
Theorem absorb_all_or_nothing report c pack :
  match PluginScanner_absorb report (c, pack) with
  | (Err _, s') => s' = (c, pack)
  | (Ok r, (c', pack')) => absorbed (sr_descriptors report) c pack r c' pack'
  end.
Proof.
  unfold PluginScanner_absorb. destruct (absorb_inner report (c, pack)) as [[r|e] [c' pack']] eqn:E;
    [|done]. cbn [is_ok].
  unfold absorb_inner in E. cbn [fst snd] in E.
  destruct (collect_claimed_slots c) as [reg|]; [|done].
  eapply (absorb_descriptors_rule
    (fun ds s => absorbed ds c pack (as_report s) (as_catalog s) (as_pack s)) _ []) in E
    as (s' & Hs & -> & -> & ->); [done| |apply absorbed_nil].
  intros ds d s s'. apply absorbed_step.
Qed.
End absorb.

(** ** Slots *)

Lemma slot_modes_conflict_sym a b : slot_modes_conflict a b = slot_modes_conflict b a.
Proof. by destruct a, b. Qed.

Definition claims_clash (a b : PluginSlotClaim) : Prop :=
  sc_slot a = sc_slot b /\ sc_key a = sc_key b /\ slot_modes_conflict (sc_mode a) (sc_mode b) = true.

Lemma claims_clash_sym a b : claims_clash a b -> claims_clash b a.
Proof. intros (? & ? & ?). split_and!; [done..|]. by rewrite slot_modes_conflict_sym. Qed.

(** A plugin with a claim of a mode on a slot is in the registry. *)
Definition registered (reg : gmap (string * string) (list RegisteredSlotClaim)) (owner : string) (c : PluginSlotClaim) : Prop :=
  exists l rs, reg !! (sc_slot c, sc_key c) = Some l /\ rs ∈ l /\
               rs_plugin_id rs = owner /\ rs_mode rs = sc_mode c.

Lemma registered_push reg key rs owner c :
  registered reg owner c -> registered (registry_push key rs reg) owner c.
Proof.
  intros (l & r & Hl & Hr & Ho & Hm). unfold registered, registry_push.
  destruct (decide (key = (sc_slot c, sc_key c))) as [->|Hk].
  - rewrite lookup_insert_eq, Hl. exists (l ++ [rs]), r. set_solver.
  - rewrite lookup_insert_ne by done. by exists l, r.
Qed.

Lemma registered_pushed reg owner provider c :
  registered (registry_push (sc_slot c, sc_key c)
    {| rs_plugin_id := owner; rs_provider_id := provider; rs_mode := sc_mode c |} reg) owner c.
Proof.
  unfold registered, registry_push. rewrite lookup_insert_eq. do 2 eexists.
  split_and!; [done|apply elem_of_app; right; by apply elem_of_cons; left|done..].
Qed.

Lemma push_all_registered reg owner provider claims :
  let push reg c := registry_push (sc_slot c, sc_key c)
    {| rs_plugin_id := owner; rs_provider_id := provider; rs_mode := sc_mode c |} reg in
  (forall o c, registered reg o c -> registered (fold_left push claims reg) o c) /\
  (forall c, c ∈ claims -> registered (fold_left push claims reg) owner c).
Proof.
  simpl. revert reg. induction claims as [|x claims IH]; intros reg; simpl; [set_solver|].
  destruct (IH (registry_push (sc_slot x, sc_key x)
    {| rs_plugin_id := owner; rs_provider_id := provider; rs_mode := sc_mode x |} reg)) as [IH1 IH2].
  split.
  - intros o c H. by apply IH1, registered_push.
  - intros c [->|H]%elem_of_cons; [apply IH1, registered_pushed|by apply IH2].
Qed.

Section slots.
Context {J : SerdeJson} {V : SemverReq} {S : SlotCodec}.

(** Registering a manifest keeps what is there, adds its claims, and lets none
    of them clash with another plugin's. *)
Lemma register_claims_spec m claims reg reg' :
  try_fold (register_slot_claim m) claims reg = Ok reg' ->
  (forall o c, registered reg o c -> registered reg' o c) /\
  (forall c, c ∈ claims -> registered reg' (pm_plugin_id m) c) /\
  (forall o c c', registered reg o c -> c' ∈ claims -> claims_clash c c' -> o = pm_plugin_id m).
Proof.
  revert reg. induction claims as [|x claims IH]; intros reg; simpl; [intros [= ->]; set_solver|].
  destruct (register_slot_claim m reg x) as [reg1|] eqn:E; simpl; [|done].
  intros H. destruct (IH reg1 H) as (IH1 & IH2 & IH3). clear IH H.
  unfold register_slot_claim in E. destruct (find_first _ _) eqn:F; [done|]. injection E as <-.
  split_and!.
  - intros o c Hc. by apply IH1, registered_push.
  - intros c [->|Hc]%elem_of_cons; [apply IH1, registered_pushed|by apply IH2].
  - intros o c c' Hc [->|Hc']%elem_of_cons Hclash; [|by eapply IH3; [apply registered_push|..]].
    destruct Hc as (l & rs & Hl & Hrs & Ho & Hm). destruct Hclash as (Hs & Hk & Hmode).
    rewrite find_first_None, Forall_forall in F.
    rewrite <- Hs, <- Hk, Hl in F. specialize (F rs Hrs). rewrite Hm, Hmode, andb_true_r in F.
    apply negb_false_iff, bool_decide_eq_true in F. congruence.
Qed.

Lemma collect_provider_spec reg p reg' :
  collect_provider reg p = Ok reg' ->
  (forall o c, registered reg o c -> registered reg' o c) /\
  (forall c, c ∈ provider_claims p -> registered reg' (provider_plugin_id p) c).
Proof.
  unfold collect_provider, provider_claims.
  destruct (pv_metadata p !! _) as [raw|]; [|intros [= ->]; set_solver].
  destruct (from_json raw) as [claims|]; cbn [map_err result_bind]; [|done]. intros [= <-].
  apply push_all_registered.
Qed.

Lemma collect_claimed_slots_spec c reg id p claim :
  collect_claimed_slots c = Ok reg -> ic_providers c !! id = Some p -> claim ∈ provider_claims p ->
  registered reg (provider_plugin_id p) claim.
Proof.
  unfold collect_claimed_slots. intros Hc Hp Hclaim.
  assert (p ∈ IntegrationCatalog_providers c) as Hin by (apply elem_of_btree_map_values; eauto).
  revert Hc Hin. generalize (∅ : ClaimedSlotRegistry).
  induction (IntegrationCatalog_providers c) as [|q l IH]; intros reg0; simpl; [set_solver|].
  destruct (collect_provider reg0 q) as [reg1|] eqn:E; simpl; [|done].
  apply collect_provider_spec in E as [E1 E2]. intros H [->|Hin]%elem_of_cons; [|by eapply IH].
  specialize (E2 _ Hclaim). clear -H E2. revert reg1 H E2.
  induction l as [|q' l IH]; intros reg1; simpl; [by intros [= ->]|].
  destruct (collect_provider reg1 q') as [reg2|] eqn:E; simpl; [|done].
  apply collect_provider_spec in E as [E1 _]. eauto.
Qed.

(** Which plugin holds a provider: the last of the scan that names it, or the
    one the catalog records. *)
Definition provider_owner (ds : list PluginDescriptor) (c : IntegrationCatalog) (id : string)
  : option string :=
  match last_plugin ds id with
  | Some d => Some (pm_plugin_id (pd_manifest d))
  | None => provider_plugin_id <$> ic_providers c !! id
  end.

(** Two providers with clashing claims belong to one plugin. *)
Definition slots_exclusive (owner : string -> option string) (c : IntegrationCatalog) : Prop :=
  forall id1 id2 p1 p2 c1 c2,
    ic_providers c !! id1 = Some p1 -> ic_providers c !! id2 = Some p2 ->
    c1 ∈ provider_claims p1 -> c2 ∈ provider_claims p2 -> claims_clash c1 c2 ->
    owner id1 = owner id2.

Context {L : SlotCodecLaws}.

(** The loop's invariant: the registry knows every claim of the catalog. *)
Record slots_tracked (c : IntegrationCatalog) (ds : list PluginDescriptor) (s : AbsorbState) : Prop := {
  st_exclusive : slots_exclusive (provider_owner ds c) (as_catalog s);
  st_registered : forall id p claim,
    ic_providers (as_catalog s) !! id = Some p -> claim ∈ provider_claims p ->
    exists owner, provider_owner ds c id = Some owner /\ registered (as_claimed_slots s) owner claim;
}.

Lemma provider_owner_snoc ds d c id :
  provider_owner (ds ++ [d]) c id =
  if decide (pm_provider_id (pd_manifest d) = id) then Some (pm_plugin_id (pd_manifest d))
  else provider_owner ds c id.
Proof. unfold provider_owner. rewrite last_plugin_snoc. by case_decide. Qed.

Lemma slots_tracked_step c ds d s s' :
  slots_tracked c ds s -> absorb_descriptor s d = Ok s' -> slots_tracked c (ds ++ [d]) s'.
Proof.
  intros [He Hr] (reg & md & cat & _ & _ & _ & Hreg & Hmd & Hcat & ->)%absorb_descriptor_inv.
  apply register_claims_spec in Hreg as (Hkeep & Hnew & Hclash).
  assert (ic_providers cat =
          <[pm_provider_id (pd_manifest d) := plugin_provider d md]> (ic_providers (as_catalog s)))
    as Hprov by (subst cat; by destruct (pm_channel_id _)).
  assert (forall id p claim, ic_providers cat !! id = Some p -> claim ∈ provider_claims p ->
    (id = pm_provider_id (pd_manifest d) /\ claim ∈ pm_slot_claims (pd_manifest d)) \/
    (id <> pm_provider_id (pd_manifest d) /\ ic_providers (as_catalog s) !! id = Some p)) as Hcase.
  { intros id p claim. rewrite Hprov, lookup_insert. case_decide as Hid; [|auto].
    intros [= <-]. rewrite absorbed_claims by done. auto. }
  split; cbn [as_catalog as_claimed_slots].
  - intros id1 id2 p1 p2 c1 c2 H1 H2 Hc1 Hc2 Hcl. rewrite !provider_owner_snoc.
    destruct (Hcase _ _ _ H1 Hc1) as [[Hi1 Hm1]|[Hi1 Hp1]], (Hcase _ _ _ H2 Hc2) as [[Hi2 Hm2]|[Hi2 Hp2]].
    + by rewrite !decide_True by done.
    + rewrite decide_True, decide_False by done. destruct (Hr _ _ _ Hp2 Hc2) as (o & -> & Ho).
      f_equal. symmetry. by eapply Hclash, claims_clash_sym.
    + rewrite decide_False, decide_True by done. destruct (Hr _ _ _ Hp1 Hc1) as (o & -> & Ho).
      f_equal. by eapply Hclash.
    + rewrite !decide_False by done. by eapply He.
  - intros id p claim H Hc. rewrite provider_owner_snoc.
    destruct (Hcase _ _ _ H Hc) as [[-> Hm]|[Hn Hp]].
    + rewrite decide_True by done. eauto.
    + rewrite decide_False by congruence. destruct (Hr _ _ _ Hp Hc) as (o & Ho & Hreg). eauto.
Qed.

(** Absorbing a scan never lets two plugins hold a slot that one
    of them claims exclusively.  If in the catalog clashing claims belong to one
    plugin, they do so after a successful absorb, whatever the scan holds:
    several descriptors for one provider, claims on the same slot in one scan or
    against the catalog. *)
Theorem absorb_slots_exclusive report c pack r c' pack' :
  slots_exclusive (provider_owner [] c) c ->
  PluginScanner_absorb report (c, pack) = (Ok r, (c', pack')) ->
  slots_exclusive (provider_owner (sr_descriptors report) c) c'.
Proof.
  unfold PluginScanner_absorb, absorb_inner. cbn [fst snd]. intros Hex.
  destruct (collect_claimed_slots c) as [reg|] eqn:Hreg; [|done].
  destruct (absorb_descriptors _ _) as [[r0|e] [c0 pack0]] eqn:E; cbn [is_ok]; [|done].
  intros [= <- <- <-].
  eapply (absorb_descriptors_rule (slots_tracked c) _ []) in E as (s' & [Hs _] & _ & -> & _);
    [done|apply slots_tracked_step|].
  split; cbn [as_catalog as_claimed_slots]; [done|]. intros id p claim Hp Hc.
  exists (provider_plugin_id p). split; [|by eapply collect_claimed_slots_spec].
  unfold provider_owner. simpl. by rewrite Hp.
Qed.
End slots.
