(* ===== verification/PluginIr.v ===== *)
(** * The plugin intermediate representation

    [crates/kernel/src/plugin_ir.rs]: descriptors are translated to [PluginIR]
    with an inferred runtime profile, and an activation plan decides for each
    entry whether it is ready, needs setup or is blocked. *)

From stdpp Require Import countable.
From S2P Require Import Prelude RustStr RustPath Contracts Integration Plugin.

(** ** Data *)

Inductive PluginBridgeKind : Type :=
| HttpJson | ProcessStdio | NativeFfi | WasmComponent | McpServer | AcpBridge | AcpRuntime
| UnknownBridge.

#[export] Instance PluginBridgeKind_eq_dec : EqDecision PluginBridgeKind.
Proof. solve_decision. Defined.

Definition all_bridge_kinds : list PluginBridgeKind :=
  [HttpJson; ProcessStdio; NativeFfi; WasmComponent; McpServer; AcpBridge; AcpRuntime; UnknownBridge].

#[export] Instance PluginBridgeKind_countable : Countable PluginBridgeKind.
Proof.
  refine (inj_countable (fun k => match k with
    | HttpJson => 0 | ProcessStdio => 1 | NativeFfi => 2 | WasmComponent => 3 | McpServer => 4
    | AcpBridge => 5 | AcpRuntime => 6 | UnknownBridge => 7 end%N)
    (fun n => all_bridge_kinds !! N.to_nat n) _).
  by intros [].
Defined.

#[export] Instance PluginCompatibilityMode_countable : Countable PluginCompatibilityMode.
Proof.
  refine (inj_countable
    (fun m => match m with CompatNative => 0 | OpenClawModern => 1 | OpenClawLegacy => 2 end%N)
    (fun n => [CompatNative; OpenClawModern; OpenClawLegacy] !! N.to_nat n) _).
  by intros [].
Defined.

#[export] Instance PluginContractDialect_countable : Countable PluginContractDialect.
Proof.
  refine (inj_countable
    (fun d => match d with
       | LoongPackageManifest => 0 | LoongEmbeddedSource => 1
       | OpenClawModernManifest => 2 | OpenClawLegacyPackage => 3 end%N)
    (fun n => [LoongPackageManifest; LoongEmbeddedSource; OpenClawModernManifest;
               OpenClawLegacyPackage] !! N.to_nat n) _).
  by intros [].
Defined.

Definition parse_bridge_kind (raw : string) : option PluginBridgeKind :=
  match to_ascii_lowercase (trim raw) with
  | "http_json" | "http" => Some HttpJson
  | "process_stdio" | "stdio" => Some ProcessStdio
  | "native_ffi" | "ffi" => Some NativeFfi
  | "wasm_component" | "wasm" => Some WasmComponent
  | "mcp_server" | "mcp" => Some McpServer
  | "acp_bridge" | "acp" => Some AcpBridge
  | "acp_runtime" | "acpx" => Some AcpRuntime
  | "unknown" => Some UnknownBridge
  | _ => None
  end.

Definition PluginBridgeKind_parse_label (raw : string) : option PluginBridgeKind :=
  parse_bridge_kind raw.

Definition PluginBridgeKind_as_str (k : PluginBridgeKind) : string :=
  match k with
  | HttpJson => "http_json"
  | ProcessStdio => "process_stdio"
  | NativeFfi => "native_ffi"
  | WasmComponent => "wasm_component"
  | McpServer => "mcp_server"
  | AcpBridge => "acp_bridge"
  | AcpRuntime => "acp_runtime"
  | UnknownBridge => "unknown"
  end.

Record PluginRuntimeProfile : Type := {
  rp_source_language : string;
  rp_bridge_kind : PluginBridgeKind;
  rp_adapter_family : string;
  rp_entrypoint_hint : string;
}.

Record PluginRuntimeScaffoldDefaults : Type := {
  sd_source_language : option string;
  sd_bridge_kind : PluginBridgeKind;
  sd_adapter_family : string;
  sd_entrypoint_hint : string;
}.

Record PluginChannelBridgeReadiness : Type := {
  cr_ready : bool;
  cr_missing_fields : list string;
}.

Record PluginChannelBridgeContract : Type := {
  cb_channel_id : option string;
  cb_setup_surface : option string;
  cb_transport_family : option string;
  cb_target_contract : option string;
  cb_account_scope : option string;
  cb_runtime_contract : option string;
  cb_runtime_operations : list string;
  cb_runtime_metadata_issues : list string;
  cb_readiness : PluginChannelBridgeReadiness;
}.

Record PluginIR : Type := {
  ir_manifest_api_version : option string;
  ir_plugin_version : option string;
  ir_dialect : PluginContractDialect;
  ir_dialect_version : option string;
  ir_compatibility_mode : PluginCompatibilityMode;
  ir_plugin_id : string;
  ir_provider_id : string;
  ir_connector_name : string;
  ir_channel_id : option string;
  ir_endpoint : option string;
  ir_capabilities : gset Capability;
  ir_trust_tier : PluginTrustTier;
  ir_metadata : gmap string string;
  ir_source_path : string;
  ir_source_kind : PluginSourceKind;
  ir_package_root : string;
  ir_package_manifest_path : option string;
  ir_diagnostic_findings : list PluginDiagnosticFinding;
  ir_setup : option PluginSetup;
  ir_channel_bridge : option PluginChannelBridgeContract;
  ir_slot_claims : list PluginSlotClaim;
  ir_compatibility : option PluginCompatibility;
  ir_runtime : PluginRuntimeProfile;
}.

(** ** Setup readiness *)

Record PluginSetupReadinessContext : Type := {
  rc_verified_env_vars : gset string;
  rc_verified_config_keys : gset string;
}.

Record PluginSetupReadiness : Type := {
  rd_ready : bool;
  rd_missing_required_env_vars : list string;
  rd_missing_required_config_keys : list string;
}.

Definition PluginSetupReadiness_default : PluginSetupReadiness := {|
  rd_ready := true; rd_missing_required_env_vars := []; rd_missing_required_config_keys := [] |}.

(** On targets other than Windows. *)
Definition verified_env_var_names_contain (verified : gset string) (required : string) : bool :=
  bool_decide (required ∈ verified).

Definition evaluate_plugin_setup_requirements (required_env_vars required_config_keys : list string)
    (context : PluginSetupReadinessContext) : PluginSetupReadiness :=
  let missing_env :=
    List.filter (fun v => negb (verified_env_var_names_contain (rc_verified_env_vars context) v))
      required_env_vars in
  let missing_keys :=
    List.filter (fun k => negb (bool_decide (k ∈ rc_verified_config_keys context)))
      required_config_keys in
  {| rd_ready := list_is_empty missing_env && list_is_empty missing_keys;
     rd_missing_required_env_vars := missing_env;
     rd_missing_required_config_keys := missing_keys |}.

Definition evaluate_plugin_setup_readiness (setup : option PluginSetup)
    (context : PluginSetupReadinessContext) : PluginSetupReadiness :=
  match setup with
  | None => PluginSetupReadiness_default
  | Some s => evaluate_plugin_setup_requirements (pst_required_env_vars s)
                (pst_required_config_keys s) context
  end.

Definition format_plugin_setup_incomplete_reason (r : PluginSetupReadiness) : string :=
  let env_reasons :=
    if list_is_empty (rd_missing_required_env_vars r) then []
    else ["missing required env vars: " +:+ join ", " (rd_missing_required_env_vars r)] in
  let key_reasons :=
    if list_is_empty (rd_missing_required_config_keys r) then []
    else ["missing required config keys: " +:+ join ", " (rd_missing_required_config_keys r)] in
  "plugin setup is incomplete: " +:+ join "; " (env_reasons ++ key_reasons).

(** ** Runtime profiles *)

Definition normalize_language (language : string) : string :=
  match to_ascii_lowercase (trim language) with
  | "rs" => "rust"
  | "py" => "python"
  | "js" => "javascript"
  | "ts" => "typescript"
  | "go" => "go"
  | "wasm" => "wasm"
  | "" => "unknown"
  | other => other
  end.

Definition default_bridge_kind (language : string) (endpoint : option string) : PluginBridgeKind :=
  match language with
  | "rust" | "go" | "c" | "cpp" | "cxx" => NativeFfi
  | "python" | "javascript" | "typescript" | "java" => ProcessStdio
  | "wasm" | "wat" => WasmComponent
  | _ =>
      match endpoint with
      | Some e => if starts_with "http://" e || starts_with "https://" e then HttpJson else UnknownBridge
      | None => UnknownBridge
      end
  end.

Definition default_adapter_family (language : string) (bridge_kind : PluginBridgeKind) : string :=
  match bridge_kind with
  | HttpJson => "http-adapter"
  | ProcessStdio => language +:+ "-stdio-adapter"
  | NativeFfi => language +:+ "-ffi-adapter"
  | WasmComponent => "wasm-component-adapter"
  | McpServer => "mcp-adapter"
  | AcpBridge => "acp-bridge-adapter"
  | AcpRuntime => "acp-runtime-adapter"
  | UnknownBridge => language +:+ "-unknown-adapter"
  end.

Definition default_entrypoint_hint (bridge_kind : PluginBridgeKind) (endpoint : option string)
  : option string :=
  match bridge_kind with
  | HttpJson => Some (default "https://localhost/invoke" endpoint)
  | ProcessStdio => Some "stdin/stdout::invoke"
  | NativeFfi => Some "lib::invoke"
  | WasmComponent => Some "component::run"
  | McpServer => Some "mcp::stdio"
  | AcpBridge => Some "acp::bridge"
  | AcpRuntime => Some "acp::turn"
  | UnknownBridge => None
  end.

Definition eq_ignore_ascii_case (a b : string) : bool :=
  bool_decide (to_ascii_lowercase a = to_ascii_lowercase b).

Definition infer_runtime_profile_from_parts (language : string) (metadata : gmap string string)
    (endpoint : option string) : PluginRuntimeProfile :=
  let declared_language :=
    match metadata !! "source_language" with
    | Some value =>
        let l := normalize_language value in if decide (l = "unknown") then None else Some l
    | None => None
    end in
  let source_language := default (normalize_language language) declared_language in
  let declared_bridge :=
    match metadata !! "bridge_kind" with Some value => parse_bridge_kind value | None => None end in
  let protocol_bridge :=
    match metadata !! "protocol" with
    | Some value => if eq_ignore_ascii_case value "mcp" then Some McpServer else None
    | None => None
    end in
  let bridge_kind :=
    default (default_bridge_kind source_language endpoint) (option_or declared_bridge protocol_bridge) in
  let adapter_family :=
    default (default_adapter_family source_language bridge_kind) (metadata !! "adapter_family") in
  let entrypoint_hint :=
    default "invoke"
      (option_or (metadata !! "entrypoint") (default_entrypoint_hint bridge_kind endpoint)) in
  {| rp_source_language := source_language; rp_bridge_kind := bridge_kind;
     rp_adapter_family := adapter_family; rp_entrypoint_hint := entrypoint_hint |}.

Definition plugin_runtime_scaffold_defaults (bridge_kind : PluginBridgeKind)
    (source_language : option string) : result PluginRuntimeScaffoldDefaults string :=
  if decide (bridge_kind = UnknownBridge) then
    Err "plugin scaffold does not support bridge_kind `unknown`" else
  let normalized :=
    match source_language with
    | Some l =>
        let l := normalize_language l in
        if decide (l <> "unknown" /\ l <> "manifest") then Some l else None
    | None => None
    end in
  let required := match bridge_kind with ProcessStdio | NativeFfi => true | _ => false end in
  if required && negb (is_some normalized) then
    Err ("plugin scaffold requires an explicit source language for bridge_kind `" +:+
         PluginBridgeKind_as_str bridge_kind +:+ "`") else
  Ok {| sd_source_language := normalized;
        sd_bridge_kind := bridge_kind;
        sd_adapter_family := default_adapter_family (default "unknown" normalized) bridge_kind;
        sd_entrypoint_hint := default "invoke" (default_entrypoint_hint bridge_kind None) |}.

(** ** Reading an older payload *)

Definition legacy_plugin_ir_dialect (source_kind : PluginSourceKind) : PluginContractDialect :=
  match source_kind with
  | PackageManifest => LoongPackageManifest
  | EmbeddedSource => LoongEmbeddedSource
  end.

Definition legacy_plugin_ir_source_language (source_path : string) (source_kind : PluginSourceKind)
  : string :=
  match source_kind with
  | PackageManifest => "unknown"
  | EmbeddedSource => normalize_language (default "" (path_extension source_path))
  end.

Definition legacy_plugin_ir_runtime_profile (source_path : string) (source_kind : PluginSourceKind)
    (metadata : gmap string string) (endpoint : option string) : PluginRuntimeProfile :=
  infer_runtime_profile_from_parts (legacy_plugin_ir_source_language source_path source_kind)
    metadata endpoint.

(** [PluginIRSerde]: an older payload may lack its dialect, mode and runtime. *)
Record PluginIRSerde : Type := {
  irs_manifest_api_version : option string;
  irs_plugin_version : option string;
  irs_dialect : option PluginContractDialect;
  irs_dialect_version : option string;
  irs_compatibility_mode : option PluginCompatibilityMode;
  irs_plugin_id : string;
  irs_provider_id : string;
  irs_connector_name : string;
  irs_channel_id : option string;
  irs_endpoint : option string;
  irs_capabilities : gset Capability;
  irs_trust_tier : PluginTrustTier;
  irs_metadata : gmap string string;
  irs_source_path : string;
  irs_source_kind : PluginSourceKind;
  irs_package_root : string;
  irs_package_manifest_path : option string;
  irs_diagnostic_findings : list PluginDiagnosticFinding;
  irs_setup : option PluginSetup;
  irs_channel_bridge : option PluginChannelBridgeContract;
  irs_slot_claims : list PluginSlotClaim;
  irs_compatibility : option PluginCompatibility;
  irs_runtime : option PluginRuntimeProfile;
}.

(** [Deserialize for PluginIR], after the derived deserializer of [PluginIRSerde]. *)
Definition PluginIR_from_serde (raw : PluginIRSerde) : PluginIR := {|
  ir_manifest_api_version := irs_manifest_api_version raw;
  ir_plugin_version := irs_plugin_version raw;
  ir_dialect := default (legacy_plugin_ir_dialect (irs_source_kind raw)) (irs_dialect raw);
  ir_dialect_version := irs_dialect_version raw;
  ir_compatibility_mode := default CompatNative (irs_compatibility_mode raw);
  ir_plugin_id := irs_plugin_id raw;
  ir_provider_id := irs_provider_id raw;
  ir_connector_name := irs_connector_name raw;
  ir_channel_id := irs_channel_id raw;
  ir_endpoint := irs_endpoint raw;
  ir_capabilities := irs_capabilities raw;
  ir_trust_tier := irs_trust_tier raw;
  ir_metadata := irs_metadata raw;
  ir_source_path := irs_source_path raw;
  ir_source_kind := irs_source_kind raw;
  ir_package_root := irs_package_root raw;
  ir_package_manifest_path := irs_package_manifest_path raw;
  ir_diagnostic_findings := irs_diagnostic_findings raw;
  ir_setup := irs_setup raw;
  ir_channel_bridge := irs_channel_bridge raw;
  ir_slot_claims := irs_slot_claims raw;
  ir_compatibility := irs_compatibility raw;
  ir_runtime := default (legacy_plugin_ir_runtime_profile (irs_source_path raw) (irs_source_kind raw)
                          (irs_metadata raw) (irs_endpoint raw)) (irs_runtime raw);
|}.

(** ** Channel bridges *)

Definition normalized_optional_value (raw : option string) : option string :=
  match raw with
  | None => None
  | Some value => let t := trim value in if str_is_empty t then None else Some t
  end.

Definition evaluate_channel_bridge_readiness
    (channel_id setup_surface transport_family target_contract : option string)
  : PluginChannelBridgeReadiness :=
  let missing (b : bool) (field : string) : list string := if b then [field] else [] in
  let missing_fields :=
    missing (negb (is_some channel_id)) "channel_id" ++
    missing (negb (bool_decide (setup_surface = Some "channel"))) "setup.surface" ++
    missing (negb (is_some transport_family)) "metadata.transport_family" ++
    missing (negb (is_some target_contract)) "metadata.target_contract" in
  {| cr_ready := list_is_empty missing_fields; cr_missing_fields := missing_fields |}.

Section translation.
Context {J : SerdeJson} {D : Deserialize (list string)}.

Definition normalized_manifest_metadata_value (m : PluginManifest) (key : string) : option string :=
  normalized_optional_value (pm_metadata m !! key).

Definition normalized_manifest_metadata_string_list (m : PluginManifest) (key : string)
  : result (list string) string :=
  match pm_metadata m !! key with
  | None => Ok []
  | Some raw_value =>
      let* parsed_values :=
        map_err (fun error => "metadata." +:+ key +:+ " must be valid json string array: " +:+ error)
          (from_json (T := list string) raw_value) in
      Ok (List.filter (fun v => negb (str_is_empty v)) (map trim parsed_values))
  end.

Definition derive_channel_bridge_contract (m : PluginManifest) : option PluginChannelBridgeContract :=
  let channel_id := normalized_optional_value (pm_channel_id m) in
  let setup_surface := normalized_optional_value (pm_setup m ≫= pst_surface) in
  let transport_family := normalized_manifest_metadata_value m "transport_family" in
  let target_contract := normalized_manifest_metadata_value m "target_contract" in
  let account_scope := normalized_manifest_metadata_value m "account_scope" in
  let runtime_contract := normalized_manifest_metadata_value m "channel_runtime_contract" in
  let (runtime_operations, runtime_metadata_issues) :=
    match normalized_manifest_metadata_string_list m "channel_runtime_operations_json" with
    | Ok operations => (operations, [])
    | Err issue => ([], [issue])
    end in
  let adapter_family := normalized_manifest_metadata_value m "adapter_family" in
  let has_channel_bridge_metadata :=
    is_some transport_family || is_some target_contract || is_some account_scope in
  let adapter_declares_channel_bridge := bool_decide (adapter_family = Some "channel-bridge") in
  if negb (has_channel_bridge_metadata || adapter_declares_channel_bridge) then None else
  Some {| cb_channel_id := channel_id;
          cb_setup_surface := setup_surface;
          cb_transport_family := transport_family;
          cb_target_contract := target_contract;
          cb_account_scope := account_scope;
          cb_runtime_contract := runtime_contract;
          cb_runtime_operations := runtime_operations;
          cb_runtime_metadata_issues := runtime_metadata_issues;
          cb_readiness := evaluate_channel_bridge_readiness channel_id setup_surface
                            transport_family target_contract |}.

Definition infer_runtime_profile (language : string) (m : PluginManifest) : PluginRuntimeProfile :=
  infer_runtime_profile_from_parts language (pm_metadata m) (pm_endpoint m).

Definition translate_descriptor (d : PluginDescriptor) : PluginIR :=
  let m := pd_manifest d in {|
    ir_manifest_api_version := pm_api_version m;
    ir_plugin_version := pm_version m;
    ir_dialect := pd_dialect d;
    ir_dialect_version := pd_dialect_version d;
    ir_compatibility_mode := pd_compatibility_mode d;
    ir_plugin_id := pm_plugin_id m;
    ir_provider_id := pm_provider_id m;
    ir_connector_name := pm_connector_name m;
    ir_channel_id := pm_channel_id m;
    ir_endpoint := pm_endpoint m;
    ir_capabilities := pm_capabilities m;
    ir_trust_tier := pm_trust_tier m;
    ir_metadata := pm_metadata m;
    ir_source_path := pd_path d;
    ir_source_kind := pd_source_kind d;
    ir_package_root := pd_package_root d;
    ir_package_manifest_path := pd_package_manifest_path d;
    ir_diagnostic_findings := [];
    ir_setup := pm_setup m;
    ir_channel_bridge := derive_channel_bridge_contract m;
    ir_slot_claims := pm_slot_claims m;
    ir_compatibility := pm_compatibility m;
    ir_runtime := infer_runtime_profile (pd_language d) m |}.

Record PluginTranslationReport : Type := {
  tr_translated_plugins : Z;
  tr_bridge_distribution : gmap string Z;
  tr_entries : list PluginIR;
}.

Definition PluginTranslationReport_default : PluginTranslationReport :=
  {| tr_translated_plugins := 0; tr_bridge_distribution := ∅; tr_entries := [] |}.

(** The findings of a scan by source path and plugin. *)
Definition index_finding (by_key : gmap (string * string) (list PluginDiagnosticFinding))
    (finding : PluginDiagnosticFinding) : gmap (string * string) (list PluginDiagnosticFinding) :=
  match df_source_path finding, df_plugin_id finding with
  | Some source_path, Some plugin_id => registry_push (source_path, plugin_id) finding by_key
  | _, _ => by_key
  end.

Definition set_ir_findings (findings : list PluginDiagnosticFinding) (ir : PluginIR) : PluginIR := {|
  ir_manifest_api_version := ir_manifest_api_version ir; ir_plugin_version := ir_plugin_version ir;
  ir_dialect := ir_dialect ir; ir_dialect_version := ir_dialect_version ir;
  ir_compatibility_mode := ir_compatibility_mode ir; ir_plugin_id := ir_plugin_id ir;
  ir_provider_id := ir_provider_id ir; ir_connector_name := ir_connector_name ir;
  ir_channel_id := ir_channel_id ir; ir_endpoint := ir_endpoint ir;
  ir_capabilities := ir_capabilities ir; ir_trust_tier := ir_trust_tier ir;
  ir_metadata := ir_metadata ir; ir_source_path := ir_source_path ir;
  ir_source_kind := ir_source_kind ir; ir_package_root := ir_package_root ir;
  ir_package_manifest_path := ir_package_manifest_path ir; ir_diagnostic_findings := findings;
  ir_setup := ir_setup ir; ir_channel_bridge := ir_channel_bridge ir;
  ir_slot_claims := ir_slot_claims ir; ir_compatibility := ir_compatibility ir;
  ir_runtime := ir_runtime ir |}.

(** One descriptor: its findings leave the index. *)
Definition translate_one
    (s : gmap (string * string) (list PluginDiagnosticFinding) * PluginTranslationReport)
    (d : PluginDescriptor)
  : gmap (string * string) (list PluginDiagnosticFinding) * PluginTranslationReport :=
  let (by_key, t) := s in
  let key := (pd_path d, pm_plugin_id (pd_manifest d)) in
  let ir := set_ir_findings (default [] (by_key !! key)) (translate_descriptor d) in
  let bridge := PluginBridgeKind_as_str (rp_bridge_kind (ir_runtime ir)) in
  (delete key by_key,
   {| tr_translated_plugins := u64_saturating_add (tr_translated_plugins t) 1;
      tr_bridge_distribution :=
        <[bridge := u64_wrapping_add (default 0%Z (tr_bridge_distribution t !! bridge)) 1]>
          (tr_bridge_distribution t);
      tr_entries := tr_entries t ++ [ir] |}).

Definition translate_scan_report (report : PluginScanReport) : PluginTranslationReport :=
  (fold_left translate_one (sr_descriptors report)
     (fold_left index_finding (sr_diagnostic_findings report) ∅, PluginTranslationReport_default)).2.
End translation.

(** ** The support matrix *)

Record PluginCompatibilityShimSupport : Type := {
  ss_shim : PluginCompatibilityShim;
  ss_version : option string;
  ss_supported_dialects : gset PluginContractDialect;
  ss_supported_bridges : gset PluginBridgeKind;
  ss_supported_adapter_families : gset string;
  ss_supported_source_languages : gset string;
}.

Definition PluginCompatibilityShimSupport_normalized (p : PluginCompatibilityShimSupport)
  : PluginCompatibilityShimSupport := {|
  ss_shim := {| sh_shim_id := trim (sh_shim_id (ss_shim p)); sh_family := trim (sh_family (ss_shim p)) |};
  ss_version :=
    match ss_version p with
    | Some v => let v := trim v in if str_is_empty v then None else Some v
    | None => None
    end;
  ss_supported_dialects := ss_supported_dialects p;
  ss_supported_bridges := ss_supported_bridges p;
  ss_supported_adapter_families :=
    filter (fun v => v <> "")
      (set_map (C := gset string) (D := gset string) (fun v => to_ascii_lowercase (trim v))
         (ss_supported_adapter_families p));
  ss_supported_source_languages :=
    filter (fun v => v <> "unknown")
      (set_map (C := gset string) (D := gset string) normalize_language (ss_supported_source_languages p)) |}.

(** A nonempty set that lacks the value. *)
Definition set_rejects `{Countable A} (s : gset A) (x : A) : bool :=
  negb (bool_decide (s = ∅)) && negb (bool_decide (x ∈ s)).

Definition mismatch_reasons (p : PluginCompatibilityShimSupport) (ir : PluginIR) : list string :=
  let runtime := ir_runtime ir in
  (if set_rejects (ss_supported_dialects p) (ir_dialect ir)
   then ["dialect `" +:+ PluginContractDialect_as_str (ir_dialect ir) +:+ "`"] else []) ++
  (if set_rejects (ss_supported_bridges p) (rp_bridge_kind runtime)
   then ["bridge kind `" +:+ PluginBridgeKind_as_str (rp_bridge_kind runtime) +:+ "`"] else []) ++
  (if set_rejects (ss_supported_adapter_families p)
        (to_ascii_lowercase (trim (rp_adapter_family runtime)))
   then ["adapter family `" +:+ rp_adapter_family runtime +:+ "`"] else []) ++
  (if set_rejects (ss_supported_source_languages p) (normalize_language (rp_source_language runtime))
   then ["source language `" +:+ rp_source_language runtime +:+ "`"] else []).

Definition compatibility_shim_support_issue (shim : PluginCompatibilityShim)
    (profile : PluginCompatibilityShimSupport) (mismatches : list string) : option string :=
  if list_is_empty mismatches then None else
  let version_clause :=
    match ss_version profile with Some v => " version `" +:+ v +:+ "`" | None => "" end in
  Some ("compatibility shim `" +:+ sh_shim_id shim +:+ "` (" +:+ sh_family shim +:+
        ") is enabled but its support profile" +:+ version_clause +:+ " does not support " +:+
        join ", " mismatches).

Record BridgeSupportMatrix : Type := {
  bm_supported_bridges : gset PluginBridgeKind;
  bm_supported_adapter_families : gset string;
  bm_supported_compatibility_modes : gset PluginCompatibilityMode;
  bm_supported_compatibility_shims : gset PluginCompatibilityShim;
  bm_supported_compatibility_shim_profiles :
    gmap PluginCompatibilityShim PluginCompatibilityShimSupport;
}.

Definition BridgeSupportMatrix_default : BridgeSupportMatrix := {|
  bm_supported_bridges :=
    {[HttpJson; ProcessStdio; NativeFfi; WasmComponent; McpServer; AcpBridge; AcpRuntime]};
  bm_supported_adapter_families := ∅;
  bm_supported_compatibility_modes := {[CompatNative]};
  bm_supported_compatibility_shims := ∅;
  bm_supported_compatibility_shim_profiles := ∅ |}.

Definition is_bridge_supported (mx : BridgeSupportMatrix) (k : PluginBridgeKind) : bool :=
  bool_decide (k ∈ bm_supported_bridges mx).

Definition is_adapter_family_supported (mx : BridgeSupportMatrix) (family : string) : bool :=
  bool_decide (bm_supported_adapter_families mx = ∅) ||
  bool_decide (family ∈ bm_supported_adapter_families mx).

Definition is_compatibility_mode_supported (mx : BridgeSupportMatrix) (mode : PluginCompatibilityMode)
  : bool := bool_decide (mode ∈ bm_supported_compatibility_modes mx).

Definition is_compatibility_shim_supported (mx : BridgeSupportMatrix)
    (shim : option PluginCompatibilityShim) : bool :=
  match shim with
  | None => true
  | Some s =>
      bool_decide (s ∈ bm_supported_compatibility_shims mx) ||
      is_some (bm_supported_compatibility_shim_profiles mx !! s)
  end.

Definition compatibility_shim_support_profile (mx : BridgeSupportMatrix)
    (shim : option PluginCompatibilityShim) : option PluginCompatibilityShimSupport :=
  shim ≫= fun s => bm_supported_compatibility_shim_profiles mx !! s.

(** The method of the same name of [BridgeSupportMatrix]. *)
Definition matrix_shim_support_issue (mx : BridgeSupportMatrix) (ir : PluginIR)
    (shim : option PluginCompatibilityShim) : option string :=
  match shim with
  | None => None
  | Some s =>
      match bm_supported_compatibility_shim_profiles mx !! s with
      | None => None
      | Some profile => compatibility_shim_support_issue s profile (mismatch_reasons profile ir)
      end
  end.

(** ** Slot conflicts *)

Record SlotClaimOwner : Type := {
  so_plugin_id : string;
  so_provider_id : string;
  so_mode : PluginSlotMode;
  so_source_path : option string;
}.

Section planning.
Context {V : SemverReq} {S : SlotCodec}.

(** A provider whose claims do not parse is skipped. *)
Definition existing_provider_claims (registry : gmap (string * string) (list SlotClaimOwner))
    (provider : ProviderConfig) : gmap (string * string) (list SlotClaimOwner) :=
  match pv_metadata provider !! PLUGIN_SLOT_CLAIMS_METADATA_KEY with
  | None => registry
  | Some raw_json =>
      match from_json (T := list PluginSlotClaim) raw_json with
      | Err _ => registry
      | Ok claims =>
          fold_left (fun registry claim =>
            registry_push (sc_slot claim, sc_key claim)
              {| so_plugin_id := provider_plugin_id provider;
                 so_provider_id := pv_provider_id provider;
                 so_mode := sc_mode claim;
                 so_source_path := pv_metadata provider !! "plugin_source_path" |} registry)
            claims registry
      end
  end.

Definition existing_slot_claims_from_catalog (catalog : IntegrationCatalog)
  : gmap (string * string) (list SlotClaimOwner) :=
  fold_left existing_provider_claims (IntegrationCatalog_providers catalog) ∅.

(** [conflicts.entry(key).or_default().insert(reason)]. *)
Definition add_conflict (key : string * string) (reason : string)
    (conflicts : gmap (string * string) (gset string)) : gmap (string * string) (gset string) :=
  <[key := {[reason]} ∪ default ∅ (conflicts !! key)]> conflicts.

Definition ir_key (ir : PluginIR) : string * string := (ir_source_path ir, ir_plugin_id ir).

Definition existing_conflict_reason (claim : PluginSlotClaim) (owner : SlotClaimOwner) : string :=
  "slot claim `" +:+ sc_slot claim +:+ "`:`" +:+ sc_key claim +:+ "` (" +:+
  PluginSlotMode_as_str (sc_mode claim) +:+ ") conflicts with existing plugin `" +:+
  so_plugin_id owner +:+ "` (provider `" +:+ so_provider_id owner +:+ "`" +:+
  match so_source_path owner with Some path => ", source `" +:+ path +:+ "`" | None => "" end +:+ ")".

Definition peer_conflict_reason (claim : PluginSlotClaim) (other : PluginIR) (other_mode : PluginSlotMode)
  : string :=
  "slot claim `" +:+ sc_slot claim +:+ "`:`" +:+ sc_key claim +:+ "` (" +:+
  PluginSlotMode_as_str (sc_mode claim) +:+ ") conflicts with plugin `" +:+ ir_plugin_id other +:+
  "` (provider `" +:+ ir_provider_id other +:+ "`, source `" +:+ ir_source_path other +:+
  "`) as `" +:+ PluginSlotMode_as_str other_mode +:+ "`".

(** One claim of one entry against the owners in the catalog. *)
Definition existing_claim_conflicts (existing : gmap (string * string) (list SlotClaimOwner))
    (entry : PluginIR) (conflicts : gmap (string * string) (gset string)) (claim : PluginSlotClaim)
  : gmap (string * string) (gset string) :=
  match existing !! (sc_slot claim, sc_key claim) with
  | None => conflicts
  | Some owners =>
      fold_left (fun conflicts owner =>
        if bool_decide (so_plugin_id owner = ir_plugin_id entry) ||
           negb (slot_modes_conflict (so_mode owner) (sc_mode claim)) then conflicts
        else add_conflict (ir_key entry) (existing_conflict_reason claim owner) conflicts)
        owners conflicts
  end.

Definition existing_conflicts (existing : gmap (string * string) (list SlotClaimOwner))
    (conflicts : gmap (string * string) (gset string)) (entry : PluginIR)
  : gmap (string * string) (gset string) :=
  fold_left (existing_claim_conflicts existing entry) (ir_slot_claims entry) conflicts.

Definition same_slot (a b : PluginSlotClaim) : bool :=
  bool_decide (sc_slot a = sc_slot b) && bool_decide (sc_key a = sc_key b).

(** One claim of [entry] against the first claim of [other] on the same slot. *)
Definition peer_claim_conflicts (entry other : PluginIR)
    (conflicts : gmap (string * string) (gset string)) (claim : PluginSlotClaim)
  : gmap (string * string) (gset string) :=
  match find_first (fun candidate => same_slot candidate claim) (ir_slot_claims other) with
  | None => conflicts
  | Some other_claim =>
      if negb (slot_modes_conflict (sc_mode claim) (sc_mode other_claim)) then conflicts
      else add_conflict (ir_key other) (peer_conflict_reason other_claim entry (sc_mode claim))
             (add_conflict (ir_key entry) (peer_conflict_reason claim other (sc_mode other_claim))
                conflicts)
  end.

Definition peer_pair_conflicts (entry : PluginIR) (conflicts : gmap (string * string) (gset string))
    (other : PluginIR) : gmap (string * string) (gset string) :=
  fold_left (peer_claim_conflicts entry other) (ir_slot_claims entry) conflicts.

(** Each entry against those after it. *)
Fixpoint peer_conflicts (entries : list PluginIR) (conflicts : gmap (string * string) (gset string))
  : gmap (string * string) (gset string) :=
  match entries with
  | [] => conflicts
  | entry :: rest => peer_conflicts rest (fold_left (peer_pair_conflicts entry) rest conflicts)
  end.

Definition collect_slot_claim_conflicts (entries : list PluginIR) (catalog : option IntegrationCatalog)
  : gmap (string * string) string :=
  let conflicts :=
    match catalog with
    | Some c => fold_left (existing_conflicts (existing_slot_claims_from_catalog c)) entries ∅
    | None => ∅
    end in
  (fun reasons => join "; " (btree_set_iter reasons)) <$> peer_conflicts entries conflicts.

(** ** Activation *)

Inductive PluginActivationStatus : Type :=
| ActivationReady
| SetupIncomplete
| BlockedInvalidManifestContract
| BlockedCompatibilityMode
| BlockedIncompatibleHost
| BlockedUnsupportedBridge
| BlockedUnsupportedAdapterFamily
| BlockedSlotClaimConflict
| ActivationUnknown.

#[export] Instance PluginActivationStatus_eq_dec : EqDecision PluginActivationStatus.
Proof. solve_decision. Defined.

Definition PluginActivationStatus_as_str (s : PluginActivationStatus) : string :=
  match s with
  | ActivationReady => "ready"
  | SetupIncomplete => "setup_incomplete"
  | BlockedInvalidManifestContract => "blocked_invalid_manifest_contract"
  | BlockedCompatibilityMode => "blocked_compatibility_mode"
  | BlockedIncompatibleHost => "blocked_incompatible_host"
  | BlockedUnsupportedBridge => "blocked_unsupported_bridge"
  | BlockedUnsupportedAdapterFamily => "blocked_unsupported_adapter_family"
  | BlockedSlotClaimConflict => "blocked_slot_claim_conflict"
  | ActivationUnknown => "unknown"
  end.

Record PluginActivationCandidate : Type := {
  pa_plugin_id : string;
  pa_source_path : string;
  pa_source_kind : PluginSourceKind;
  pa_package_root : string;
  pa_package_manifest_path : option string;
  pa_trust_tier : PluginTrustTier;
  pa_compatibility_mode : PluginCompatibilityMode;
  pa_compatibility_shim : option PluginCompatibilityShim;
  pa_compatibility_shim_support : option PluginCompatibilityShimSupport;
  pa_compatibility_shim_support_mismatch_reasons : list string;
  pa_bridge_kind : PluginBridgeKind;
  pa_adapter_family : string;
  pa_slot_claims : list PluginSlotClaim;
  pa_diagnostic_findings : list PluginDiagnosticFinding;
  pa_status : PluginActivationStatus;
  pa_reason : string;
  pa_missing_required_env_vars : list string;
  pa_missing_required_config_keys : list string;
  pa_bootstrap_hint : string;
}.

Record PluginActivationPlan : Type := {
  ap_total_plugins : Z;
  ap_ready_plugins : Z;
  ap_setup_incomplete_plugins : Z;
  ap_blocked_plugins : Z;
  ap_candidates : list PluginActivationCandidate;
}.

Definition PluginActivationPlan_default : PluginActivationPlan := {|
  ap_total_plugins := 0; ap_ready_plugins := 0; ap_setup_incomplete_plugins := 0;
  ap_blocked_plugins := 0; ap_candidates := [] |}.

Definition plugin_manifest_contract_is_invalid (ir : PluginIR) : bool :=
  match ir_channel_bridge ir with
  | None => false
  | Some bridge => negb (cr_ready (cb_readiness bridge))
  end.

Definition format_invalid_manifest_contract_reason (ir : PluginIR) : string :=
  match ir_channel_bridge ir with
  | None => "plugin manifest contract is invalid"
  | Some bridge =>
      "plugin channel bridge contract is incomplete: " +:+
      join ", " (cr_missing_fields (cb_readiness bridge))
  end.

Definition shim_clause (prefix suffix : string) (shim : option PluginCompatibilityShim) : string :=
  match shim with
  | Some s => prefix +:+ sh_shim_id s +:+ "` (" +:+ sh_family s +:+ suffix
  | None => ""
  end.

Definition bootstrap_hint (ir : PluginIR) : string :=
  let prefix := shim_clause "enable compatibility shim `" ") and then "
                  (PluginCompatibilityShim_for_mode (ir_compatibility_mode ir)) in
  let runtime := ir_runtime ir in
  match rp_bridge_kind runtime with
  | HttpJson =>
      prefix +:+ "register http connector adapter for " +:+ ir_connector_name ir +:+ " at " +:+
      default "https://localhost/invoke" (ir_endpoint ir)
  | ProcessStdio =>
      prefix +:+ "spawn " +:+ rp_source_language runtime +:+ " worker and bind stdio bridge " +:+
      rp_entrypoint_hint runtime
  | NativeFfi =>
      prefix +:+ "load native library adapter " +:+ rp_adapter_family runtime +:+ " with symbol " +:+
      rp_entrypoint_hint runtime
  | WasmComponent => prefix +:+ "load wasm component and invoke " +:+ rp_entrypoint_hint runtime
  | McpServer => prefix +:+ "register MCP server bridge and handshake capability schema"
  | AcpBridge =>
      prefix +:+ "register ACP bridge surface and bind the external gateway/runtime contract"
  | AcpRuntime =>
      prefix +:+ "register ACP runtime backend and bind a session-aware control plane"
  | UnknownBridge => prefix +:+ "inspect plugin metadata and define explicit bridge_kind override"
  end.

Definition activation_diagnostic_finding (ir : PluginIR) (status : PluginActivationStatus)
    (reason : string) : option PluginDiagnosticFinding :=
  let finding code field_path remediation := Some {|
    df_code := code; df_severity := SeverityError; df_phase := PhaseActivation; df_blocking := true;
    df_plugin_id := Some (ir_plugin_id ir); df_source_path := Some (ir_source_path ir);
    df_source_kind := Some (ir_source_kind ir); df_field_path := Some field_path;
    df_message := reason; df_remediation := Some remediation |} in
  match status with
  | ActivationReady | SetupIncomplete | ActivationUnknown => None
  | BlockedInvalidManifestContract =>
      finding InvalidManifestContract "channel_bridge"
        "declare the required channel bridge contract fields in the manifest before activation"
  | BlockedCompatibilityMode =>
      finding CompatibilityShimRequired "compatibility_mode"
        "enable or widen the required compatibility shim support policy in the runtime bridge matrix, or migrate the plugin to the native Loong contract before activation"
  | BlockedIncompatibleHost =>
      finding IncompatibleHost "compatibility"
        "align `compatibility.host_api` / `compatibility.host_version_req` with the current host, or upgrade Loong before activation"
  | BlockedUnsupportedBridge =>
      finding UnsupportedBridge "metadata.bridge_kind"
        "switch the plugin to a supported bridge kind or widen the runtime bridge support policy before activation"
  | BlockedUnsupportedAdapterFamily =>
      finding UnsupportedAdapterFamily "metadata.adapter_family"
        "switch the plugin adapter family to one supported by the current runtime matrix"
  | BlockedSlotClaimConflict =>
      finding SlotClaimConflict "slot_claims"
        "choose a different slot/key pair or relax ownership to shared/advisory only when the surface is intentionally multi-owner"
  end.

(** The chain of checks on one entry. *)
Definition activation_status (mx : BridgeSupportMatrix) (context : PluginSetupReadinessContext)
    (slot_conflicts : gmap (string * string) string) (ir : PluginIR)
  : PluginActivationStatus * string :=
  let mode := PluginCompatibilityMode_as_str (ir_compatibility_mode ir) in
  let shim := PluginCompatibilityShim_for_mode (ir_compatibility_mode ir) in
  let support := compatibility_shim_support_profile mx shim in
  let mismatches := match support with Some p => mismatch_reasons p ir | None => [] end in
  let setup_readiness := evaluate_plugin_setup_readiness (ir_setup ir) context in
  let runtime := ir_runtime ir in
  if negb (is_compatibility_mode_supported mx (ir_compatibility_mode ir)) then
    (BlockedCompatibilityMode,
     "compatibility mode " +:+ mode +:+
     " requires a host shim that is not enabled in the current runtime matrix" +:+
     shim_clause " via shim `" ")" shim)
  else if negb (is_compatibility_shim_supported mx shim) then
    (BlockedCompatibilityMode,
     match shim with
     | Some s =>
         "compatibility mode " +:+ mode +:+ " requires compatibility shim `" +:+ sh_shim_id s +:+
         "` (" +:+ sh_family s +:+ ") that is not enabled in the current runtime matrix"
     | None =>
         "compatibility mode " +:+ mode +:+
         " did not resolve a canonical shim before runtime-matrix evaluation"
     end)
  else match plugin_host_compatibility_issue (ir_compatibility ir) with
  | Some reason => (BlockedIncompatibleHost, reason)
  | None =>
  match (match shim, support with
         | Some s, Some p => compatibility_shim_support_issue s p mismatches
         | _, _ => None
         end) with
  | Some reason => (BlockedCompatibilityMode, reason)
  | None =>
  match slot_conflicts !! ir_key ir with
  | Some reason => (BlockedSlotClaimConflict, reason)
  | None =>
  if plugin_manifest_contract_is_invalid ir then
    (BlockedInvalidManifestContract, format_invalid_manifest_contract_reason ir)
  else if negb (is_bridge_supported mx (rp_bridge_kind runtime)) then
    (BlockedUnsupportedBridge,
     "bridge kind " +:+ PluginBridgeKind_as_str (rp_bridge_kind runtime) +:+
     " is not supported by current runtime matrix")
  else if negb (is_adapter_family_supported mx (rp_adapter_family runtime)) then
    (BlockedUnsupportedAdapterFamily,
     "adapter family " +:+ rp_adapter_family runtime +:+ " is not supported by current runtime matrix")
  else if negb (rd_ready setup_readiness) then
    (SetupIncomplete, format_plugin_setup_incomplete_reason setup_readiness)
  else
    (ActivationReady, "plugin runtime profile is supported by current runtime matrix")
  end end end.

Definition activation_candidate (mx : BridgeSupportMatrix) (context : PluginSetupReadinessContext)
    (slot_conflicts : gmap (string * string) string) (ir : PluginIR) : PluginActivationCandidate :=
  let shim := PluginCompatibilityShim_for_mode (ir_compatibility_mode ir) in
  let support := compatibility_shim_support_profile mx shim in
  let setup_readiness := evaluate_plugin_setup_readiness (ir_setup ir) context in
  let (status, reason) := activation_status mx context slot_conflicts ir in {|
    pa_plugin_id := ir_plugin_id ir;
    pa_source_path := ir_source_path ir;
    pa_source_kind := ir_source_kind ir;
    pa_package_root := ir_package_root ir;
    pa_package_manifest_path := ir_package_manifest_path ir;
    pa_trust_tier := ir_trust_tier ir;
    pa_compatibility_mode := ir_compatibility_mode ir;
    pa_compatibility_shim := shim;
    pa_compatibility_shim_support := support;
    pa_compatibility_shim_support_mismatch_reasons :=
      match support with Some p => mismatch_reasons p ir | None => [] end;
    pa_bridge_kind := rp_bridge_kind (ir_runtime ir);
    pa_adapter_family := rp_adapter_family (ir_runtime ir);
    pa_slot_claims := ir_slot_claims ir;
    pa_diagnostic_findings :=
      ir_diagnostic_findings ir ++
      match activation_diagnostic_finding ir status reason with Some f => [f] | None => [] end;
    pa_status := status;
    pa_reason := reason;
    pa_missing_required_env_vars := rd_missing_required_env_vars setup_readiness;
    pa_missing_required_config_keys := rd_missing_required_config_keys setup_readiness;
    pa_bootstrap_hint := bootstrap_hint ir |}.

(** The counters and the candidate of one entry. *)
Definition plan_candidate (plan : PluginActivationPlan) (c : PluginActivationCandidate)
  : PluginActivationPlan :=
  let bump (b : bool) (n : Z) : Z := if b then u64_saturating_add n 1 else n in
  let ready := bool_decide (pa_status c = ActivationReady) in
  let incomplete := bool_decide (pa_status c = SetupIncomplete) in
  {| ap_total_plugins := u64_saturating_add (ap_total_plugins plan) 1;
     ap_ready_plugins := bump ready (ap_ready_plugins plan);
     ap_setup_incomplete_plugins := bump incomplete (ap_setup_incomplete_plugins plan);
     ap_blocked_plugins := bump (negb ready && negb incomplete) (ap_blocked_plugins plan);
     ap_candidates := ap_candidates plan ++ [c] |}.

Definition plan_activation_with_catalog (translation : PluginTranslationReport)
    (mx : BridgeSupportMatrix) (context : PluginSetupReadinessContext)
    (catalog : option IntegrationCatalog) : PluginActivationPlan :=
  let slot_conflicts := collect_slot_claim_conflicts (tr_entries translation) catalog in
  fold_left (fun plan ir => plan_candidate plan (activation_candidate mx context slot_conflicts ir))
    (tr_entries translation) PluginActivationPlan_default.

Definition plan_activation (translation : PluginTranslationReport) (mx : BridgeSupportMatrix)
    (context : PluginSetupReadinessContext) : PluginActivationPlan :=
  plan_activation_with_catalog translation mx context None.
End planning.

(** ** Reading a plan *)

Definition has_blockers (plan : PluginActivationPlan) : bool := (0 <? ap_blocked_plugins plan)%Z.

Definition candidate_for (plan : PluginActivationPlan) (source_path plugin_id : string)
  : option PluginActivationCandidate :=
  find_first (fun c => bool_decide (pa_source_path c = source_path) &&
                       bool_decide (pa_plugin_id c = plugin_id)) (ap_candidates plan).

Record PluginActivationInventoryEntry : Type := {
  ie_manifest_api_version : option string;
  ie_plugin_version : option string;
  ie_dialect : PluginContractDialect;
  ie_dialect_version : option string;
  ie_compatibility_mode : PluginCompatibilityMode;
  ie_compatibility_shim : option PluginCompatibilityShim;
  ie_compatibility_shim_support : option PluginCompatibilityShimSupport;
  ie_compatibility_shim_support_mismatch_reasons : list string;
  ie_plugin_id : string;
  ie_provider_id : string;
  ie_connector_name : string;
  ie_source_path : string;
  ie_source_kind : PluginSourceKind;
  ie_package_root : string;
  ie_package_manifest_path : option string;
  ie_bridge_kind : PluginBridgeKind;
  ie_adapter_family : string;
  ie_entrypoint_hint : string;
  ie_source_language : string;
  ie_slot_claims : list PluginSlotClaim;
  ie_diagnostic_findings : list PluginDiagnosticFinding;
  ie_compatibility : option PluginCompatibility;
  ie_activation_status : option PluginActivationStatus;
  ie_activation_reason : option string;
  ie_bootstrap_hint : option string;
}.

Definition inventory_entry (plan : PluginActivationPlan) (e : PluginIR) : PluginActivationInventoryEntry :=
  let candidate := candidate_for plan (ir_source_path e) (ir_plugin_id e) in {|
    ie_manifest_api_version := ir_manifest_api_version e;
    ie_plugin_version := ir_plugin_version e;
    ie_dialect := ir_dialect e;
    ie_dialect_version := ir_dialect_version e;
    ie_compatibility_mode := ir_compatibility_mode e;
    ie_compatibility_shim :=
      option_or (candidate ≫= pa_compatibility_shim)
        (PluginCompatibilityShim_for_mode (ir_compatibility_mode e));
    ie_compatibility_shim_support := candidate ≫= pa_compatibility_shim_support;
    ie_compatibility_shim_support_mismatch_reasons :=
      default [] (pa_compatibility_shim_support_mismatch_reasons <$> candidate);
    ie_plugin_id := ir_plugin_id e;
    ie_provider_id := ir_provider_id e;
    ie_connector_name := ir_connector_name e;
    ie_source_path := ir_source_path e;
    ie_source_kind := ir_source_kind e;
    ie_package_root := ir_package_root e;
    ie_package_manifest_path := ir_package_manifest_path e;
    ie_bridge_kind := rp_bridge_kind (ir_runtime e);
    ie_adapter_family := rp_adapter_family (ir_runtime e);
    ie_entrypoint_hint := rp_entrypoint_hint (ir_runtime e);
    ie_source_language := rp_source_language (ir_runtime e);
    ie_slot_claims := ir_slot_claims e;
    ie_diagnostic_findings := default (ir_diagnostic_findings e) (pa_diagnostic_findings <$> candidate);
    ie_compatibility := ir_compatibility e;
    ie_activation_status := pa_status <$> candidate;
    ie_activation_reason := pa_reason <$> candidate;
    ie_bootstrap_hint := pa_bootstrap_hint <$> candidate |}.

Definition inventory_entries (plan : PluginActivationPlan) (translation : PluginTranslationReport)
  : list PluginActivationInventoryEntry := map (inventory_entry plan) (tr_entries translation).

Definition is_blocked_status (s : PluginActivationStatus) : bool :=
  match s with ActivationReady | SetupIncomplete => false | _ => true end.

(** [limit.clamp(1, 16)]. *)
Definition blocker_summary (plan : PluginActivationPlan) (limit : Z) : string :=
  if decide (ap_blocked_plugins plan = 0%Z) then "no blocked plugins" else
  let capped_limit := Z.min (Z.max limit 1) 16 in
  let details :=
    map (fun c => pa_plugin_id c +:+ " [" +:+ PluginActivationStatus_as_str (pa_status c) +:+ "]: " +:+
                  pa_reason c)
      (take (Z.to_nat capped_limit)
         (List.filter (fun c => is_blocked_status (pa_status c)) (ap_candidates plan))) in
  let more :=
    if (capped_limit <? ap_blocked_plugins plan)%Z then
      ["+" +:+ fmt_dec (ap_blocked_plugins plan - capped_limit) +:+ " more blocked plugin(s)"]
    else [] in
  join "; " (details ++ more).
