(* ===== verification/Bootstrap.v ===== *)
(** * Plugin bootstrap

    [crates/kernel/src/bootstrap.rs]: a policy decides which ready plugins of an
    activation plan are applied automatically, and the report says what became
    of each candidate. *)

From S2P Require Import Prelude RustStr RustPath Contracts Integration Plugin PluginIr.

Record BootstrapPolicy : Type := {
  bp_allow_http_json_auto_apply : bool;
  bp_allow_process_stdio_auto_apply : bool;
  bp_allow_native_ffi_auto_apply : bool;
  bp_allow_wasm_component_auto_apply : bool;
  bp_allow_mcp_server_auto_apply : bool;
  bp_allow_acp_bridge_auto_apply : bool;
  bp_allow_acp_runtime_auto_apply : bool;
  bp_block_unverified_high_risk_auto_apply : bool;
  bp_enforce_ready_execution : bool;
  bp_max_tasks : Z;
}.

Definition BootstrapPolicy_default : BootstrapPolicy := {|
  bp_allow_http_json_auto_apply := true;
  bp_allow_process_stdio_auto_apply := false;
  bp_allow_native_ffi_auto_apply := false;
  bp_allow_wasm_component_auto_apply := false;
  bp_allow_mcp_server_auto_apply := false;
  bp_allow_acp_bridge_auto_apply := false;
  bp_allow_acp_runtime_auto_apply := false;
  bp_block_unverified_high_risk_auto_apply := false;
  bp_enforce_ready_execution := false;
  bp_max_tasks := 256 |}.

Inductive BootstrapTaskStatus : Type :=
| Applied
| DeferredUnsupportedAutoApply
| SkippedNotReady
| SkippedByPolicyLimit.

#[export] Instance BootstrapTaskStatus_eq_dec : EqDecision BootstrapTaskStatus.
Proof. solve_decision. Defined.

Record BootstrapTask : Type := {
  bt_plugin_id : string;
  bt_source_path : string;
  bt_trust_tier : PluginTrustTier;
  bt_compatibility_mode : PluginCompatibilityMode;
  bt_compatibility_shim : option PluginCompatibilityShim;
  bt_bridge_kind : PluginBridgeKind;
  bt_adapter_family : string;
  bt_bootstrap_hint : string;
  bt_status : BootstrapTaskStatus;
  bt_reason : string;
}.

Record BootstrapReport : Type := {
  br_total_tasks : Z;
  br_applied_tasks : Z;
  br_deferred_tasks : Z;
  br_skipped_tasks : Z;
  br_blocked : bool;
  br_block_reason : option string;
  br_applied_plugin_keys : gset (string * string);
  br_tasks : list BootstrapTask;
}.

Definition BootstrapReport_default : BootstrapReport := {|
  br_total_tasks := 0; br_applied_tasks := 0; br_deferred_tasks := 0; br_skipped_tasks := 0;
  br_blocked := false; br_block_reason := None; br_applied_plugin_keys := ∅; br_tasks := [] |}.

Definition bridge_auto_apply_allowed (bridge : PluginBridgeKind) (policy : BootstrapPolicy) : bool :=
  match bridge with
  | HttpJson => bp_allow_http_json_auto_apply policy
  | ProcessStdio => bp_allow_process_stdio_auto_apply policy
  | NativeFfi => bp_allow_native_ffi_auto_apply policy
  | WasmComponent => bp_allow_wasm_component_auto_apply policy
  | McpServer => bp_allow_mcp_server_auto_apply policy
  | AcpBridge => bp_allow_acp_bridge_auto_apply policy
  | AcpRuntime => bp_allow_acp_runtime_auto_apply policy
  | UnknownBridge => false
  end.

Definition plugin_bridge_is_high_risk_auto_apply (bridge : PluginBridgeKind) : bool :=
  match bridge with
  | ProcessStdio | NativeFfi | WasmComponent | McpServer | AcpBridge | AcpRuntime => true
  | HttpJson | UnknownBridge => false
  end.

Definition bootstrap_task (c : PluginActivationCandidate) (status : BootstrapTaskStatus)
    (reason : string) : BootstrapTask := {|
  bt_plugin_id := pa_plugin_id c; bt_source_path := pa_source_path c;
  bt_trust_tier := pa_trust_tier c; bt_compatibility_mode := pa_compatibility_mode c;
  bt_compatibility_shim := pa_compatibility_shim c; bt_bridge_kind := pa_bridge_kind c;
  bt_adapter_family := pa_adapter_family c; bt_bootstrap_hint := pa_bootstrap_hint c;
  bt_status := status; bt_reason := reason |}.

(** A task is pushed and its counter goes up; an applied one leaves its key. *)
Definition push_task (t : BootstrapTask) (r : BootstrapReport) : BootstrapReport :=
  let bump (b : bool) (n : Z) : Z := if b then u64_saturating_add n 1 else n in
  let applied := bool_decide (bt_status t = Applied) in
  let deferred := bool_decide (bt_status t = DeferredUnsupportedAutoApply) in
  {| br_total_tasks := u64_saturating_add (br_total_tasks r) 1;
     br_applied_tasks := bump applied (br_applied_tasks r);
     br_deferred_tasks := bump deferred (br_deferred_tasks r);
     br_skipped_tasks := bump (negb applied && negb deferred) (br_skipped_tasks r);
     br_blocked := br_blocked r;
     br_block_reason := br_block_reason r;
     br_applied_plugin_keys :=
       if applied then {[(bt_source_path t, bt_plugin_id t)]} ∪ br_applied_plugin_keys r
       else br_applied_plugin_keys r;
     br_tasks := br_tasks r ++ [t] |}.

(** One candidate: its task, and the ready candidates handled so far. *)
Definition decide_task (policy : BootstrapPolicy) (ready_handled : Z) (c : PluginActivationCandidate)
  : BootstrapTask * Z :=
  if negb (bool_decide (pa_status c = ActivationReady)) then
    (bootstrap_task c SkippedNotReady "activation status is not ready", ready_handled)
  else if (bp_max_tasks policy <=? ready_handled)%Z then
    (bootstrap_task c SkippedByPolicyLimit
       ("max bootstrap task limit reached: " +:+ fmt_dec (bp_max_tasks policy)), ready_handled)
  else
    let ready_handled := u64_saturating_add ready_handled 1 in
    if bp_block_unverified_high_risk_auto_apply policy &&
       bool_decide (pa_trust_tier c = TrustUnverified) &&
       plugin_bridge_is_high_risk_auto_apply (pa_bridge_kind c) then
      (bootstrap_task c DeferredUnsupportedAutoApply
         "bridge is ready but auto-apply is blocked by bootstrap trust policy for unverified high-risk plugins",
       ready_handled)
    else if bridge_auto_apply_allowed (pa_bridge_kind c) policy then
      (bootstrap_task c Applied "bridge is allowed for automatic bootstrap apply", ready_handled)
    else
      (bootstrap_task c DeferredUnsupportedAutoApply
         "bridge is ready but auto-apply is disabled by bootstrap policy", ready_handled).

Definition bootstrap_candidate (policy : BootstrapPolicy) (s : BootstrapReport * Z)
    (c : PluginActivationCandidate) : BootstrapReport * Z :=
  let (r, ready_handled) := s in
  let (t, ready_handled) := decide_task policy ready_handled c in
  (push_task t r, ready_handled).

Definition PluginBootstrapExecutor_execute (plan : PluginActivationPlan) (policy : BootstrapPolicy)
  : BootstrapReport :=
  let r := (fold_left (bootstrap_candidate policy) (ap_candidates plan) (BootstrapReport_default, 0%Z)).1 in
  if bp_enforce_ready_execution policy && (0 <? br_deferred_tasks r)%Z then {|
    br_total_tasks := br_total_tasks r; br_applied_tasks := br_applied_tasks r;
    br_deferred_tasks := br_deferred_tasks r; br_skipped_tasks := br_skipped_tasks r;
    br_blocked := true;
    br_block_reason := Some ("bootstrap policy blocked " +:+ fmt_dec (br_deferred_tasks r) +:+
                             " ready plugin(s) that were not auto-applied");
    br_applied_plugin_keys := br_applied_plugin_keys r; br_tasks := br_tasks r |}
  else r.
