(* ===== verification/PluginPlan.v ===== *)
(** * Properties of activation plans and bootstrap

    The slot conflicts the planner finds are exactly the clashes of the claims;
    a ready candidate passed every check; and what bootstrap applies is ready,
    allowed and free of clashes. *)

From S2P Require Import Prelude RustStr RustPath Contracts Integration Plugin PluginIr Bootstrap PluginAbsorb.

(** ** Registries *)

Definition entry_holds {A} (key : string * string) (x : A) (reg : gmap (string * string) (list A))
  : Prop := x ∈ default [] (reg !! key).

Lemma entry_holds_push {A} key (x : A) reg k y :
  entry_holds key x (registry_push k y reg) <-> entry_holds key x reg \/ (k = key /\ x = y).
Proof.
  unfold entry_holds, registry_push. destruct (decide (k = key)) as [->|Hk].
  - rewrite lookup_insert_eq. simpl. rewrite elem_of_app, list_elem_of_singleton. naive_solver.
  - rewrite lookup_insert_ne by done. naive_solver.
Qed.

Lemma add_conflict_dom key reason m k :
  is_Some (add_conflict key reason m !! k) <-> is_Some (m !! k) \/ k = key.
Proof.
  unfold add_conflict. destruct (decide (key = k)) as [->|Hk].
  - rewrite lookup_insert_eq. naive_solver.
  - rewrite lookup_insert_ne by done. naive_solver.
Qed.

(** ** Slot conflicts *)

Section conflicts.
Context {V : SemverReq} {S : SlotCodec}.

(** An entry clashes with a provider of another plugin in the catalog. *)
Definition catalog_clash (catalog : option IntegrationCatalog) (e : PluginIR) : Prop :=
  exists c id p claim claim',
    catalog = Some c /\ ic_providers c !! id = Some p /\ provider_plugin_id p <> ir_plugin_id e /\
    claim ∈ provider_claims p /\ claim' ∈ ir_slot_claims e /\ claims_clash claim claim'.

(** Two entries clash. *)
Definition entries_clash (a b : PluginIR) : Prop :=
  exists c c', c ∈ ir_slot_claims a /\ c' ∈ ir_slot_claims b /\ claims_clash c c'.

Definition claims_sorted (e : PluginIR) : Prop := StronglySorted PluginSlotClaim_le (ir_slot_claims e).

Lemma entries_clash_sym a b : entries_clash a b -> entries_clash b a.
Proof. intros (c & c' & ? & ? & ?). exists c', c. auto using claims_clash_sym. Qed.

Lemma existing_claims_spec c key o :
  entry_holds key o (existing_slot_claims_from_catalog c) <->
  exists id p claim, ic_providers c !! id = Some p /\ claim ∈ provider_claims p /\
    key = (sc_slot claim, sc_key claim) /\
    o = {| so_plugin_id := provider_plugin_id p; so_provider_id := pv_provider_id p;
           so_mode := sc_mode claim; so_source_path := pv_metadata p !! "plugin_source_path" |}.
Proof.
  unfold existing_slot_claims_from_catalog.
  rewrite (fold_left_adds (entry_holds key o)
    (fun p => exists claim, claim ∈ provider_claims p /\ key = (sc_slot claim, sc_key claim) /\
      o = {| so_plugin_id := provider_plugin_id p; so_provider_id := pv_provider_id p;
             so_mode := sc_mode claim; so_source_path := pv_metadata p !! "plugin_source_path" |})).
  - unfold entry_holds. rewrite lookup_empty. simpl. split.
    + intros [H|(p & (id & Hp)%elem_of_btree_map_values & claim & H)]; [by apply elem_of_nil in H|].
      exists id, p, claim. tauto.
    + intros (id & p & claim & Hp & H). right. exists p.
      split; [apply elem_of_btree_map_values; eauto|eauto].
  - intros reg p. unfold existing_provider_claims, provider_claims.
    destruct (pv_metadata p !! PLUGIN_SLOT_CLAIMS_METADATA_KEY) as [raw|]; [|set_solver].
    destruct (from_json raw) as [claims|]; [|set_solver].
    rewrite (fold_left_adds (entry_holds key o)
      (fun claim => (sc_slot claim, sc_key claim) = key /\
        o = {| so_plugin_id := provider_plugin_id p; so_provider_id := pv_provider_id p;
               so_mode := sc_mode claim; so_source_path := pv_metadata p !! "plugin_source_path" |}));
      [naive_solver|].
    intros. apply entry_holds_push.
Qed.

Lemma existing_conflicts_spec c entries k :
  is_Some (fold_left (existing_conflicts (existing_slot_claims_from_catalog c)) entries ∅ !! k) <->
  exists e, e ∈ entries /\ ir_key e = k /\ catalog_clash (Some c) e.
Proof.
  rewrite (fold_left_adds (fun m : gmap (string * string) (gset string) => is_Some (m !! k))
    (fun e => ir_key e = k /\ catalog_clash (Some c) e)).
  - rewrite lookup_empty. split; [intros [[? ?]|H]; [done|done]|auto].
  - intros m e. unfold existing_conflicts.
    rewrite (fold_left_adds (fun m : gmap (string * string) (gset string) => is_Some (m !! k))
      (fun claim => exists o, entry_holds (sc_slot claim, sc_key claim) o (existing_slot_claims_from_catalog c) /\
         so_plugin_id o <> ir_plugin_id e /\ slot_modes_conflict (so_mode o) (sc_mode claim) = true /\
         ir_key e = k)).
    + apply or_iff_compat_l. unfold catalog_clash. split.
      * intros (claim & Hc & o & (id & p & claim' & Hp & Hc' & [= Hs Hk] & ->)%existing_claims_spec & Hn & Hm & <-).
        split; [done|]. exists c, id, p, claim', claim. unfold claims_clash. auto 10.
      * intros (<- & c0 & id & p & claim & claim' & [= <-] & Hp & Hn & Hc & Hc' & (Hs & Hk & Hm)).
        exists claim'. split; [done|]. eexists. split; [apply existing_claims_spec; exists id, p, claim|].
        -- split_and!; [done|done|by rewrite Hs, Hk|reflexivity].
        -- simpl. auto.
    + intros m' claim. unfold existing_claim_conflicts, entry_holds.
      destruct (existing_slot_claims_from_catalog c !! (sc_slot claim, sc_key claim)) as [owners|]; simpl;
        [|set_solver].
      rewrite (fold_left_adds (fun m : gmap (string * string) (gset string) => is_Some (m !! k))
        (fun o => so_plugin_id o <> ir_plugin_id e /\
           slot_modes_conflict (so_mode o) (sc_mode claim) = true /\ ir_key e = k)); [done|].
      intros m'' o. case_bool_decide; simpl; [naive_solver|].
      destruct (slot_modes_conflict _ _); simpl; [rewrite add_conflict_dom|]; naive_solver.
Qed.

(** The first claim of a sorted list on a slot has the strictest mode. *)
Lemma first_claim_strictest l x c :
  StronglySorted PluginSlotClaim_le l ->
  find_first (fun candidate => same_slot candidate x) l = Some c ->
  forall c', c' ∈ l -> sc_slot c' = sc_slot x -> sc_key c' = sc_key x ->
  sc_slot c = sc_slot x /\ sc_key c = sc_key x /\ (sc_mode c' = SlotExclusive -> sc_mode c = SlotExclusive).
Proof.
  intros Hs (l1 & l2 & -> & Hc & Hl1)%find_first_Some c' Hin Hslot Hkey.
  unfold same_slot in Hc. apply andb_true_iff in Hc as [Hc1%bool_decide_eq_true Hc2%bool_decide_eq_true].
  split_and!; [done..|]. intros Hex.
  apply StronglySorted_app in Hs as (_ & _ & [Hc _]%StronglySorted_cons).
  apply elem_of_app in Hin as [Hin|[->|Hin]%elem_of_cons]; [|done|].
  - rewrite Forall_forall in Hl1. specialize (Hl1 _ Hin). unfold same_slot in Hl1.
    by rewrite !bool_decide_true in Hl1.
  - rewrite Forall_forall in Hc. specialize (Hc _ Hin). unfold PluginSlotClaim_le in Hc.
    rewrite !decide_True in Hc by congruence. rewrite Hex in Hc. destruct (sc_mode c); simpl in Hc; [done|lia..].
Qed.

Lemma find_same_slot_Some l x c :
  c ∈ l -> sc_slot c = sc_slot x -> sc_key c = sc_key x ->
  exists y, find_first (fun candidate => same_slot candidate x) l = Some y.
Proof.
  intros Hin Hs Hk. destruct (find_first _ l) eqn:E; [eauto|].
  rewrite find_first_None, Forall_forall in E. specialize (E _ Hin).
  unfold same_slot in E. by rewrite !bool_decide_true in E.
Qed.

(** What the pair loop reports. *)
Lemma peer_pair_spec e o m k :
  claims_sorted e -> claims_sorted o ->
  is_Some (peer_pair_conflicts e m o !! k) <->
  is_Some (m !! k) \/ ((k = ir_key e \/ k = ir_key o) /\ entries_clash e o).
Proof.
  intros He Ho. unfold peer_pair_conflicts.
  rewrite (fold_left_adds (fun m : gmap (string * string) (gset string) => is_Some (m !! k))
    (fun claim => exists x, find_first (fun candidate => same_slot candidate claim) (ir_slot_claims o) = Some x /\
       slot_modes_conflict (sc_mode claim) (sc_mode x) = true /\ (k = ir_key e \/ k = ir_key o))).
  - apply or_iff_compat_l. unfold entries_clash. split.
    + intros (c & Hc & x & Hx & Hm & Hk). split; [done|]. exists c, x.
      apply find_first_Some in Hx as (l1 & l2 & -> & Hs & _).
      unfold same_slot in Hs. apply andb_true_iff in Hs as [Hs%bool_decide_eq_true Hk'%bool_decide_eq_true].
      unfold claims_clash. split_and!; [done|set_solver|done..].
    + intros (Hk & c & c' & Hc & Hc' & Hs & Hkey & Hm). exists c. split; [done|].
      destruct (find_same_slot_Some _ c c' Hc') as [x Hx]; [done..|]. exists x. split_and!; [done| |done].
      destruct (first_claim_strictest _ _ _ Ho Hx c') as (_ & _ & Hex); [done..|].
      destruct (sc_mode c); [by destruct (sc_mode x)|..];
        (destruct (sc_mode c'); [by rewrite Hex|done..]).
  - intros m' claim. unfold peer_claim_conflicts. destruct (find_first _ _) as [x|] eqn:F; [|naive_solver].
    destruct (slot_modes_conflict _ _) eqn:E; simpl.
    + rewrite !add_conflict_dom.
      split; [intros [[H| ->]| ->]; [by left|right; exists x; auto..]|].
      intros [H|(y & [= <-] & _ & [-> | ->])]; auto.
    + split; [auto|]. intros [H|(y & [= <-] & Hy & _)]; [done|congruence].
Qed.

Lemma peer_conflicts_spec entries m k :
  Forall claims_sorted entries ->
  is_Some (peer_conflicts entries m !! k) <->
  is_Some (m !! k) \/
  exists i j e o, i <> j /\ entries !! i = Some e /\ entries !! j = Some o /\
                  k = ir_key e /\ entries_clash e o.
Proof.
  intros Hs. revert m. induction Hs as [|e rest He Hrest IH]; intros m; simpl; [naive_solver|].
  rewrite IH.
  assert (is_Some (fold_left (peer_pair_conflicts e) rest m !! k) <->
    is_Some (m !! k) \/ exists o, o ∈ rest /\ (k = ir_key e \/ k = ir_key o) /\ entries_clash e o) as ->.
  { clear IH. revert m. induction Hrest as [|o rest Ho Hrest IH]; intros m; simpl; [set_solver|].
    rewrite IH, peer_pair_spec by done. set_solver. }
  split.
  - intros [[H|(o & Ho & Hk & Hc)]|(i & j & a & b & Hij & Ha & Hb & Hk & Hc)]; [by left|right|right].
    + apply list_elem_of_lookup in Ho as [j Hj]. destruct Hk as [->| ->].
      * exists 0, (Datatypes.S j), e, o. split_and!; done.
      * exists (Datatypes.S j), 0, o, e. split_and!; try done. by apply entries_clash_sym.
    + exists (Datatypes.S i), (Datatypes.S j), a, b. split_and!; try done. congruence.
  - intros [H|(i & j & a & b & Hij & Ha & Hb & Hk & Hc)]; [auto|].
    destruct i as [|i], j as [|j]; simpl in *; simplify_eq.
    + left. right. exists b. split; [by eapply list_elem_of_lookup_2|auto].
    + left. right. exists a. split; [by eapply list_elem_of_lookup_2|auto using entries_clash_sym].
    + right. exists i, j, a, b. split_and!; try done. congruence.
Qed.

(** A key is reported exactly when an entry under it clashes with the catalog or
    with another entry. *)
Definition slot_clash (entries : list PluginIR) (catalog : option IntegrationCatalog)
    (k : string * string) : Prop :=
  (exists e, e ∈ entries /\ ir_key e = k /\ catalog_clash catalog e) \/
  (exists i j e o, i <> j /\ entries !! i = Some e /\ entries !! j = Some o /\
                   k = ir_key e /\ entries_clash e o).

Lemma collect_conflicts_spec entries catalog k :
  Forall claims_sorted entries ->
  is_Some (collect_slot_claim_conflicts entries catalog !! k) <-> slot_clash entries catalog k.
Proof.
  intros Hs. unfold collect_slot_claim_conflicts. rewrite lookup_fmap, fmap_is_Some, peer_conflicts_spec by done.
  unfold slot_clash. apply or_iff_compat_r. destruct catalog as [c|]; [apply existing_conflicts_spec|].
  rewrite lookup_empty. split; [by intros [? ?]|]. intros (e & _ & _ & c & ? & ? & ? & ? & [=] & _).
Qed.

(** ** Activation *)

(** What the entry must satisfy, stated on the matrix and the context. *)
Record activatable (mx : BridgeSupportMatrix) (context : PluginSetupReadinessContext) (e : PluginIR)
  : Prop := {
  ac_mode : ir_compatibility_mode e ∈ bm_supported_compatibility_modes mx;
  ac_shim : forall s, PluginCompatibilityShim_for_mode (ir_compatibility_mode e) = Some s ->
    s ∈ bm_supported_compatibility_shims mx \/
    is_Some (bm_supported_compatibility_shim_profiles mx !! s);
  ac_profile : forall s p, PluginCompatibilityShim_for_mode (ir_compatibility_mode e) = Some s ->
    bm_supported_compatibility_shim_profiles mx !! s = Some p -> mismatch_reasons p e = [];
  ac_host : plugin_host_compatibility_issue (ir_compatibility e) = None;
  ac_contract : forall b, ir_channel_bridge e = Some b -> cr_ready (cb_readiness b) = true;
  ac_bridge : rp_bridge_kind (ir_runtime e) ∈ bm_supported_bridges mx;
  ac_family : bm_supported_adapter_families mx = ∅ \/
    rp_adapter_family (ir_runtime e) ∈ bm_supported_adapter_families mx;
  ac_setup : forall s, ir_setup e = Some s ->
    (forall v, v ∈ pst_required_env_vars s -> v ∈ rc_verified_env_vars context) /\
    (forall k, k ∈ pst_required_config_keys s -> k ∈ rc_verified_config_keys context);
}.

Lemma filter_negb_nil {A} (f : A -> bool) (P : A -> Prop) l :
  (forall x, f x = true <-> P x) ->
  list_is_empty (List.filter (fun x => negb (f x)) l) = true <-> forall x, x ∈ l -> P x.
Proof.
  intros Hf. induction l as [|x l IH]; simpl; [set_solver|].
  pose proof (Hf x) as Hx. destruct (f x); simpl.
  - rewrite IH. split; [|set_solver]. intros H y [->|Hy]%elem_of_cons; naive_solver.
  - split; [done|]. intros H. assert (false = true); [|done]. apply Hx, H. set_solver.
Qed.

Lemma setup_ready_iff setup context :
  rd_ready (evaluate_plugin_setup_readiness setup context) = true <->
  forall s, setup = Some s ->
    (forall v, v ∈ pst_required_env_vars s -> v ∈ rc_verified_env_vars context) /\
    (forall k, k ∈ pst_required_config_keys s -> k ∈ rc_verified_config_keys context).
Proof.
  destruct setup as [s|]; simpl; [|naive_solver].
  rewrite andb_true_iff,
    (filter_negb_nil _ (fun v => v ∈ rc_verified_env_vars context)),
    (filter_negb_nil _ (fun k => k ∈ rc_verified_config_keys context)).
  - naive_solver.
  - intros. apply bool_decide_eq_true.
  - intros. apply bool_decide_eq_true.
Qed.

Lemma shim_issue_None shim p mismatches :
  compatibility_shim_support_issue shim p mismatches = None <-> mismatches = [].
Proof. unfold compatibility_shim_support_issue. by destruct mismatches. Qed.

Lemma shim_supported_iff mx shim :
  is_compatibility_shim_supported mx shim = true <->
  forall s, shim = Some s -> s ∈ bm_supported_compatibility_shims mx \/
                             is_Some (bm_supported_compatibility_shim_profiles mx !! s).
Proof.
  destruct shim as [s|]; simpl; [|naive_solver]. rewrite orb_true_iff, bool_decide_eq_true.
  split.
  - intros [H|H] s' [= <-]; [by left|right]. destruct (_ !! s); [eauto|done].
  - intros H. destruct (H s eq_refl) as [?|[q ->]]; auto.
Qed.

(** The support profile of the entry's shim, as the plan evaluates it. *)
Definition profile_issue (mx : BridgeSupportMatrix) (e : PluginIR) : option string :=
  let shim := PluginCompatibilityShim_for_mode (ir_compatibility_mode e) in
  let support := compatibility_shim_support_profile mx shim in
  match shim, support with
  | Some s, Some p =>
      compatibility_shim_support_issue s p
        (match support with Some p => mismatch_reasons p e | None => [] end)
  | _, _ => None
  end.

Lemma profile_ok_iff mx e :
  profile_issue mx e = None <->
  forall s p, PluginCompatibilityShim_for_mode (ir_compatibility_mode e) = Some s ->
    bm_supported_compatibility_shim_profiles mx !! s = Some p -> mismatch_reasons p e = [].
Proof.
  unfold profile_issue, compatibility_shim_support_profile.
  destruct (PluginCompatibilityShim_for_mode _) as [s|]; simpl; [|naive_solver].
  destruct (_ !! s) as [p|] eqn:E; [rewrite shim_issue_None|]; naive_solver.
Qed.

Lemma contract_ok_iff e :
  plugin_manifest_contract_is_invalid e = false <->
  forall b, ir_channel_bridge e = Some b -> cr_ready (cb_readiness b) = true.
Proof.
  unfold plugin_manifest_contract_is_invalid. destruct (ir_channel_bridge e); [|naive_solver].
  rewrite negb_false_iff. naive_solver.
Qed.

(** The chain of checks ends in [Ready] exactly when each passes. *)
Lemma activation_chain mx context conflicts e :
  (activation_status mx context conflicts e).1 = ActivationReady <->
  is_compatibility_mode_supported mx (ir_compatibility_mode e) = true /\
  is_compatibility_shim_supported mx (PluginCompatibilityShim_for_mode (ir_compatibility_mode e)) = true /\
  plugin_host_compatibility_issue (ir_compatibility e) = None /\
  profile_issue mx e = None /\ conflicts !! ir_key e = None /\
  plugin_manifest_contract_is_invalid e = false /\
  is_bridge_supported mx (rp_bridge_kind (ir_runtime e)) = true /\
  is_adapter_family_supported mx (rp_adapter_family (ir_runtime e)) = true /\
  rd_ready (evaluate_plugin_setup_readiness (ir_setup e) context) = true.
Proof.
  unfold activation_status. fold (profile_issue mx e).
  destruct (is_compatibility_mode_supported _ _); [cbn [negb]|naive_solver].
  destruct (is_compatibility_shim_supported _ _); [cbn [negb]|naive_solver].
  destruct (plugin_host_compatibility_issue _); [naive_solver|].
  destruct (profile_issue mx e); [naive_solver|].
  destruct (conflicts !! ir_key e); [naive_solver|].
  destruct (plugin_manifest_contract_is_invalid e); [naive_solver|].
  destruct (is_bridge_supported _ _); [cbn [negb]|naive_solver].
  destruct (is_adapter_family_supported _ _); [cbn [negb]|naive_solver].
  destruct (rd_ready _); naive_solver.
Qed.

Lemma activation_ready_spec mx context conflicts e :
  (activation_status mx context conflicts e).1 = ActivationReady <->
  activatable mx context e /\ conflicts !! ir_key e = None.
Proof.
  rewrite activation_chain, shim_supported_iff, profile_ok_iff, contract_ok_iff, setup_ready_iff.
  unfold is_compatibility_mode_supported, is_bridge_supported, is_adapter_family_supported.
  rewrite orb_true_iff, !bool_decide_eq_true. split.
  - intros (? & ? & ? & ? & ? & ? & ? & ? & ?). split; [by constructor|done].
  - intros [[] ?]. do 8 (split; [done|]). done.
Qed.
End conflicts.

(** ** Plans *)

Definition count {A} (f : A -> bool) (l : list A) : nat := length (List.filter f l).

Lemma count_snoc {A} (f : A -> bool) l x : count f (l ++ [x]) = (count f l + if f x then 1 else 0)%nat.
Proof. unfold count. rewrite List.filter_app, length_app. simpl. by destruct (f x). Qed.

Lemma bump_saturated (b : bool) n :
  (if b then u64_saturating_add (saturated n) 1 else saturated n) = saturated (n + if b then 1 else 0).
Proof. destruct b; [rewrite saturated_succ; f_equal; lia|f_equal; lia]. Qed.

Lemma saturated_snoc {A} (l : list A) x :
  u64_saturating_add (saturated (length l)) 1 = saturated (length (l ++ [x])).
Proof. rewrite saturated_succ, length_app. f_equal. simpl. lia. Qed.

Definition is_ready (c : PluginActivationCandidate) : bool := bool_decide (pa_status c = ActivationReady).
Definition is_incomplete (c : PluginActivationCandidate) : bool := bool_decide (pa_status c = SetupIncomplete).
Definition is_blocked (c : PluginActivationCandidate) : bool := negb (is_ready c) && negb (is_incomplete c).

(** The candidates of a plan, with its counters. *)
Record plan_of (cs : list PluginActivationCandidate) (plan : PluginActivationPlan) : Prop := {
  po_candidates : ap_candidates plan = cs;
  po_total : ap_total_plugins plan = saturated (length cs);
  po_ready : ap_ready_plugins plan = saturated (count is_ready cs);
  po_incomplete : ap_setup_incomplete_plugins plan = saturated (count is_incomplete cs);
  po_blocked : ap_blocked_plugins plan = saturated (count is_blocked cs);
}.

Lemma plan_of_step cs plan c : plan_of cs plan -> plan_of (cs ++ [c]) (plan_candidate plan c).
Proof.
  intros [Hc Ht Hr Hi Hb]. unfold plan_candidate. split; simpl.
  - by rewrite Hc.
  - by rewrite Ht, saturated_snoc with (x := c).
  - rewrite Hr, bump_saturated, count_snoc. done.
  - rewrite Hi, bump_saturated, count_snoc. done.
  - rewrite Hb, bump_saturated, count_snoc. done.
Qed.

Lemma count_partition cs :
  (count is_ready cs + count is_incomplete cs + count is_blocked cs)%nat = length cs.
Proof.
  unfold count. induction cs as [|c cs IH]; simpl; [done|].
  assert (is_ready c = true -> is_incomplete c = true -> False) as Hex.
  { unfold is_ready, is_incomplete. rewrite !bool_decide_eq_true. congruence. }
  assert (is_blocked c = negb (is_ready c) && negb (is_incomplete c)) as -> by done.
  destruct (is_ready c), (is_incomplete c); simpl; [by destruct Hex|lia..].
Qed.

Section plans.
Context {V : SemverReq} {S : SlotCodec}.

Lemma plan_of_plan t mx context catalog :
  plan_of (map (activation_candidate mx context (collect_slot_claim_conflicts (tr_entries t) catalog)) (tr_entries t))
    (plan_activation_with_catalog t mx context catalog).
Proof.
  unfold plan_activation_with_catalog.
  apply (fold_left_rule (fun done plan => plan_of (map (activation_candidate mx context
    (collect_slot_claim_conflicts (tr_entries t) catalog)) done) plan)); [done|].
  intros done plan e H. rewrite map_app. by apply plan_of_step.
Qed.

Lemma candidate_status mx context conflicts e :
  pa_status (activation_candidate mx context conflicts e) = (activation_status mx context conflicts e).1.
Proof. unfold activation_candidate. by destruct (activation_status _ _ _ _). Qed.

Lemma plan_candidate_at t mx context catalog i e :
  tr_entries t !! i = Some e ->
  ap_candidates (plan_activation_with_catalog t mx context catalog) !! i =
  Some (activation_candidate mx context (collect_slot_claim_conflicts (tr_entries t) catalog) e).
Proof.
  intros He. rewrite (po_candidates _ _ (plan_of_plan t mx context catalog)).
  rewrite list_lookup_fmap, He. done.
Qed.

Lemma plan_candidate_inv t mx context catalog i c :
  ap_candidates (plan_activation_with_catalog t mx context catalog) !! i = Some c ->
  exists e, tr_entries t !! i = Some e /\
    c = activation_candidate mx context (collect_slot_claim_conflicts (tr_entries t) catalog) e.
Proof.
  rewrite (po_candidates _ _ (plan_of_plan t mx context catalog)), list_lookup_fmap.
  destruct (tr_entries t !! i); naive_solver.
Qed.

Lemma ready_iff t mx context catalog e :
  Forall claims_sorted (tr_entries t) ->
  pa_status (activation_candidate mx context (collect_slot_claim_conflicts (tr_entries t) catalog) e)
    = ActivationReady <->
  activatable mx context e /\ ~ slot_clash (tr_entries t) catalog (ir_key e).
Proof.
  intros Hs. rewrite candidate_status, activation_ready_spec, <- (collect_conflicts_spec _ _ _ Hs).
  rewrite <- eq_None_not_Some. done.
Qed.

(** A plan marks a plugin ready exactly when the matrix
    supports its mode, shim, bridge and adapter family, the host satisfies its
    requirements, its channel contract is complete, its required variables and
    keys are verified, and none of its slot claims clashes with another entry of
    the plan or with a provider of another plugin in the catalog; and there is
    one candidate per entry, in order. *)
Theorem activation_plan_exact t mx context catalog :
  Forall claims_sorted (tr_entries t) ->
  let plan := plan_activation_with_catalog t mx context catalog in
  Forall2 (fun e c =>
    pa_source_path c = ir_source_path e /\ pa_plugin_id c = ir_plugin_id e /\
    (pa_status c = ActivationReady <->
     activatable mx context e /\ ~ slot_clash (tr_entries t) catalog (ir_key e)))
    (tr_entries t) (ap_candidates plan).
Proof.
  intros Hs. cbn zeta. rewrite (po_candidates _ _ (plan_of_plan t mx context catalog)).
  apply Forall2_fmap_r, Forall2_same_length_lookup_2; [done|]. intros i e e' He He'.
  assert (e = e') as <- by congruence. pose proof (ready_iff t mx context catalog e Hs) as Hr.
  revert Hr. simpl. unfold activation_candidate. by destruct (activation_status _ _ _ _).
Qed.

(** The counters of a plan partition its candidates: one
    candidate per entry, and each is counted as ready, as incomplete or as
    blocked. *)
Theorem activation_plan_counts t mx context catalog :
  let plan := plan_activation_with_catalog t mx context catalog in
  (Z.of_nat (length (tr_entries t)) <= u64_max)%Z ->
  ap_total_plugins plan = Z.of_nat (length (tr_entries t)) /\
  length (ap_candidates plan) = length (tr_entries t) /\
  ap_ready_plugins plan = Z.of_nat (count is_ready (ap_candidates plan)) /\
  ap_setup_incomplete_plugins plan = Z.of_nat (count is_incomplete (ap_candidates plan)) /\
  (ap_ready_plugins plan + ap_setup_incomplete_plugins plan + ap_blocked_plugins plan
    = ap_total_plugins plan)%Z.
Proof.
  cbn zeta. destruct (plan_of_plan t mx context catalog) as [-> -> -> -> ->]. intros Hlen.
  pose proof (count_partition (map (activation_candidate mx context
    (collect_slot_claim_conflicts (tr_entries t) catalog)) (tr_entries t))) as Hc.
  revert Hc. rewrite length_map. unfold saturated. lia.
Qed.
End plans.

(** ** Bootstrap *)

(** What becomes of a candidate before which [ready] candidates were ready. *)
Definition bootstrap_verdict (policy : BootstrapPolicy) (ready : nat) (c : PluginActivationCandidate)
  : BootstrapTaskStatus :=
  if negb (is_ready c) then SkippedNotReady
  else if (bp_max_tasks policy <=? Z.of_nat ready)%Z then SkippedByPolicyLimit
  else if bridge_auto_apply_allowed (pa_bridge_kind c) policy &&
          negb (bp_block_unverified_high_risk_auto_apply policy &&
                bool_decide (pa_trust_tier c = TrustUnverified) &&
                plugin_bridge_is_high_risk_auto_apply (pa_bridge_kind c))
       then Applied else DeferredUnsupportedAutoApply.

Definition has_status (s : BootstrapTaskStatus) (t : BootstrapTask) : bool := bool_decide (bt_status t = s).
Definition is_skipped (t : BootstrapTask) : bool :=
  negb (has_status Applied t) && negb (has_status DeferredUnsupportedAutoApply t).

Definition task_key (t : BootstrapTask) : string * string := (bt_source_path t, bt_plugin_id t).

(** The state of the loop after some candidates. *)
Record bootstrapped (policy : BootstrapPolicy) (cs : list PluginActivationCandidate)
    (s : BootstrapReport * Z) : Prop := {
  bs_handled : s.2 = Z.min (Z.of_nat (count is_ready cs)) (bp_max_tasks policy);
  bs_tasks : forall i c, cs !! i = Some c -> exists t, br_tasks s.1 !! i = Some t /\
    (bt_plugin_id t, bt_source_path t, bt_bridge_kind t) = (pa_plugin_id c, pa_source_path c, pa_bridge_kind c) /\
    bt_status t = bootstrap_verdict policy (count is_ready (take i cs)) c;
  bs_length : length (br_tasks s.1) = length cs;
  bs_total : br_total_tasks s.1 = saturated (length cs);
  bs_applied : br_applied_tasks s.1 = saturated (count (has_status Applied) (br_tasks s.1));
  bs_deferred : br_deferred_tasks s.1 =
    saturated (count (has_status DeferredUnsupportedAutoApply) (br_tasks s.1));
  bs_skipped : br_skipped_tasks s.1 = saturated (count is_skipped (br_tasks s.1));
  bs_keys : br_applied_plugin_keys s.1 =
    list_to_set (map task_key (List.filter (has_status Applied) (br_tasks s.1)));
  bs_open : br_blocked s.1 = false /\ br_block_reason s.1 = None;
}.

Lemma decide_task_spec policy n c :
  u64_valid (bp_max_tasks policy) ->
  let (t, h) := decide_task policy (Z.min (Z.of_nat n) (bp_max_tasks policy)) c in
  h = Z.min (Z.of_nat (n + if is_ready c then 1 else 0)) (bp_max_tasks policy) /\
  bt_status t = bootstrap_verdict policy n c /\
  (bt_plugin_id t, bt_source_path t, bt_bridge_kind t) = (pa_plugin_id c, pa_source_path c, pa_bridge_kind c).
Proof.
  intros Hv. unfold decide_task, bootstrap_verdict, is_ready.
  destruct (bool_decide _); cbn [negb]; [|by rewrite Nat.add_0_r].
  assert ((bp_max_tasks policy <=? Z.min (Z.of_nat n) (bp_max_tasks policy))%Z =
          (bp_max_tasks policy <=? Z.of_nat n)%Z) as -> by lia.
  destruct (bp_max_tasks policy <=? Z.of_nat n)%Z eqn:E; [split; [lia|done]|].
  assert (u64_saturating_add (Z.min (Z.of_nat n) (bp_max_tasks policy)) 1 =
          Z.min (Z.of_nat (n + 1)) (bp_max_tasks policy)) as ->
    by (unfold u64_saturating_add, u64_valid in *; lia).
  destruct (bp_block_unverified_high_risk_auto_apply policy), (bool_decide _),
    (plugin_bridge_is_high_risk_auto_apply _), (bridge_auto_apply_allowed _ _); done.
Qed.

Lemma bootstrapped_step policy cs s c :
  u64_valid (bp_max_tasks policy) ->
  bootstrapped policy cs s -> bootstrapped policy (cs ++ [c]) (bootstrap_candidate policy s c).
Proof.
  intros Hv [Hh Ht Hl Htot Ha Hd Hsk Hk Ho]. destruct s as [r h]. simpl in *. subst h.
  unfold bootstrap_candidate. pose proof (decide_task_spec policy (count is_ready cs) c Hv) as Hdec.
  destruct (decide_task _ _ c) as [t h]. destruct Hdec as (-> & Hstatus & Hids).
  split; cbn [fst snd]; try done.
  - by rewrite count_snoc.
  - intros i c' [Hi|[Hlen Hi]]%lookup_app_Some.
    + destruct (Ht i c' Hi) as (t' & Ht' & Hid & Hst). exists t'. simpl.
      rewrite lookup_app_l, take_app_le by (apply lookup_lt_Some in Hi; lia). auto.
    + apply list_lookup_singleton_Some in Hi as [Hi0 <-]. exists t. simpl.
      assert (i = length cs) as -> by lia. rewrite take_app_length, <- Hl, list_lookup_middle; auto.
  - simpl. rewrite !length_app. simpl. lia.
  - simpl. by rewrite Htot, saturated_snoc with (x := c).
  - simpl. rewrite Ha, bump_saturated, count_snoc. done.
  - simpl. rewrite Hd, bump_saturated, count_snoc. done.
  - simpl. rewrite Hsk, bump_saturated, count_snoc. done.
  - cbn [push_task br_applied_plugin_keys br_tasks]. rewrite Hk, List.filter_app, map_app.
    cbn [List.filter]. change (bool_decide (bt_status t = Applied)) with (has_status Applied t).
    destruct (has_status Applied t); cbn [map]; [|by rewrite app_nil_r].
    rewrite list_to_set_app_L. cbn [list_to_set]. by rewrite (right_id_L ∅ (∪)), (comm_L (∪)).
Qed.

Lemma bootstrap_loop policy cs :
  u64_valid (bp_max_tasks policy) ->
  bootstrapped policy cs (fold_left (bootstrap_candidate policy) cs (BootstrapReport_default, 0%Z)).
Proof.
  intros Hv. apply (fold_left_rule (bootstrapped policy)); [|intros; by apply bootstrapped_step].
  split; simpl; try done. unfold count, u64_valid in *. simpl. lia.
Qed.

Lemma count_pos {A} (f : A -> bool) l : (0 < count f l)%nat <-> exists x, x ∈ l /\ f x = true.
Proof.
  unfold count. split.
  - intros H. destruct (List.filter f l) as [|x l'] eqn:E; [simpl in H; lia|]. exists x.
    assert (In x (List.filter f l)) as Hin by (rewrite E; by left).
    apply List.filter_In in Hin as [Hin Hf]. by rewrite list_elem_of_In.
  - intros (x & Hx & Hf). apply list_elem_of_In in Hx.
    assert (In x (List.filter f l)) as Hin by by apply List.filter_In.
    destruct (List.filter f l); [done|simpl; lia].
Qed.

(** Bootstrap decides every candidate in order: one that is
    not ready is skipped; the first [max_tasks] ready ones are applied when the
    policy allows their bridge and does not hold back unverified high-risk
    plugins, and deferred otherwise; the rest are skipped by the limit.  The
    counters and the applied keys are those of the tasks, and the run is blocked
    exactly when the policy enforces ready execution and something was
    deferred. *)
Theorem bootstrap_report_exact plan policy :
  u64_valid (bp_max_tasks policy) ->
  let r := PluginBootstrapExecutor_execute plan policy in
  let cs := ap_candidates plan in
  (forall i c, cs !! i = Some c -> exists t, br_tasks r !! i = Some t /\
     task_key t = (pa_source_path c, pa_plugin_id c) /\
     bt_status t = bootstrap_verdict policy (count is_ready (take i cs)) c) /\
  length (br_tasks r) = length cs /\
  br_total_tasks r = saturated (length cs) /\
  br_applied_tasks r = saturated (count (has_status Applied) (br_tasks r)) /\
  br_deferred_tasks r = saturated (count (has_status DeferredUnsupportedAutoApply) (br_tasks r)) /\
  br_skipped_tasks r = saturated (count is_skipped (br_tasks r)) /\
  br_applied_plugin_keys r = list_to_set (map task_key (List.filter (has_status Applied) (br_tasks r))) /\
  (br_blocked r = true <-> bp_enforce_ready_execution policy = true /\
     exists t, t ∈ br_tasks r /\ bt_status t = DeferredUnsupportedAutoApply).
Proof.
  intros Hv. cbn zeta. unfold PluginBootstrapExecutor_execute.
  destruct (bootstrap_loop policy (ap_candidates plan) Hv) as [_ Ht Hl Htot Ha Hd Hsk Hk [Ho _]].
  revert Ht Hl Htot Ha Hd Hsk Hk Ho.
  generalize (fold_left (bootstrap_candidate policy) (ap_candidates plan) (BootstrapReport_default, 0%Z)).1.
  intros r Ht Hl Htot Ha Hd Hsk Hk Ho. rewrite Hd.
  assert ((0 <? saturated (count (has_status DeferredUnsupportedAutoApply) (br_tasks r)))%Z = true <->
    exists t, t ∈ br_tasks r /\ bt_status t = DeferredUnsupportedAutoApply) as Hex.
  { transitivity (0 < count (has_status DeferredUnsupportedAutoApply) (br_tasks r))%nat.
    - unfold saturated, u64_max, u64_modulus. lia.
    - rewrite count_pos. unfold has_status. by setoid_rewrite bool_decide_eq_true. }
  assert (forall i c, ap_candidates plan !! i = Some c -> exists t, br_tasks r !! i = Some t /\
     task_key t = (pa_source_path c, pa_plugin_id c) /\
     bt_status t = bootstrap_verdict policy (count is_ready (take i (ap_candidates plan))) c) as Ht'.
  { intros i c Hi. destruct (Ht i c Hi) as (t & ? & Hids & ?). exists t.
    split; [done|]. split; [|done]. unfold task_key. congruence. }
  destruct (_ && _) eqn:E; cbn [br_tasks br_total_tasks br_applied_tasks br_deferred_tasks br_skipped_tasks
    br_applied_plugin_keys br_blocked]; do 7 (split; [done|]); rewrite <- Hex.
  - apply andb_true_iff in E. tauto.
  - rewrite Ho. split; [done|]. intros [H1 H2]. by rewrite H1, H2 in E.
Qed.

(** ** From a scan to the applied plugins *)

Section pipeline.
Context {J : SerdeJson} {V : SemverReq} {S : SlotCodec} {D : Deserialize (list string)}.

(** The translation has one entry per descriptor, in order. *)
Lemma translate_entries report :
  Forall2 (fun d ir => exists findings, ir = set_ir_findings findings (translate_descriptor d))
    (sr_descriptors report) (tr_entries (translate_scan_report report)).
Proof.
  unfold translate_scan_report.
  apply (fold_left_rule (fun done s => Forall2 (fun d ir => exists findings,
    ir = set_ir_findings findings (translate_descriptor d)) done (tr_entries s.2))); [constructor|].
  intros done [by_key t] d H. simpl. apply Forall2_app; [done|]. constructor; eauto.
Qed.

Lemma translate_entry_at report i ir :
  tr_entries (translate_scan_report report) !! i = Some ir ->
  exists d findings, sr_descriptors report !! i = Some d /\
    ir = set_ir_findings findings (translate_descriptor d).
Proof.
  intros Hir. destruct (Forall2_lookup_r _ _ _ _ _ (translate_entries report) Hir) as (d & Hd & f & ->).
  eauto.
Qed.

Lemma activatable_findings mx context findings ir :
  activatable mx context (set_ir_findings findings ir) -> activatable mx context ir.
Proof. by intros []. Qed.

(** The claims of every descriptor are in the scanner's canonical form. *)
Definition scan_canonical (report : PluginScanReport) : Prop :=
  Forall (fun d => claims_canonical (pm_slot_claims (pd_manifest d))) (sr_descriptors report).

Lemma translate_sorted report :
  scan_canonical report -> Forall claims_sorted (tr_entries (translate_scan_report report)).
Proof.
  intros Hc. apply Forall_lookup. intros i ir (d & f & Hd & ->)%translate_entry_at.
  unfold scan_canonical in Hc. rewrite Forall_lookup in Hc. by destruct (Hc i d Hd).
Qed.

Definition descriptors_clash (a b : PluginDescriptor) : Prop :=
  exists c c', c ∈ pm_slot_claims (pd_manifest a) /\ c' ∈ pm_slot_claims (pd_manifest b) /\ claims_clash c c'.

(** An applied task comes from a descriptor that passed every check. *)
Lemma applied_task_inv report mx context catalog policy i task :
  scan_canonical report -> u64_valid (bp_max_tasks policy) ->
  br_tasks (PluginBootstrapExecutor_execute
    (plan_activation_with_catalog (translate_scan_report report) mx context catalog) policy) !! i = Some task ->
  bt_status task = Applied ->
  exists d f,
    sr_descriptors report !! i = Some d /\
    let e := set_ir_findings f (translate_descriptor d) in
    tr_entries (translate_scan_report report) !! i = Some e /\ task_key task = ir_key e /\
    activatable mx context e /\ ~ slot_clash (tr_entries (translate_scan_report report)) catalog (ir_key e) /\
    bridge_auto_apply_allowed (rp_bridge_kind (ir_runtime e)) policy = true /\
    (bp_block_unverified_high_risk_auto_apply policy = true -> ir_trust_tier e = TrustUnverified ->
     plugin_bridge_is_high_risk_auto_apply (rp_bridge_kind (ir_runtime e)) = false).
Proof.
  intros Hcan Hv Htask Happ. set (plan := plan_activation_with_catalog _ _ _ _) in *.
  destruct (bootstrap_loop policy (ap_candidates plan) Hv) as [_ Ht Hl _ _ _ _ _ _].
  assert (br_tasks (PluginBootstrapExecutor_execute plan policy) =
    br_tasks (fold_left (bootstrap_candidate policy) (ap_candidates plan) (BootstrapReport_default, 0%Z)).1)
    as Heq by (unfold PluginBootstrapExecutor_execute; by destruct (_ && _)).
  rewrite Heq in Htask. destruct (lookup_lt_is_Some_2 (ap_candidates plan) i) as [c Hc];
    [rewrite <- Hl; by eapply lookup_lt_Some|].
  destruct (Ht i c Hc) as (t & Ht' & Hids & Hst). assert (t = task) as -> by congruence.
  apply plan_candidate_inv in Hc as (e & He & ->).
  destruct (translate_entry_at _ _ _ He) as (d & f & Hd & ->). exists d, f. split; [done|]. cbn zeta.
  rewrite Happ in Hst. unfold bootstrap_verdict in Hst.
  destruct (is_ready _) eqn:Hready; cbn [negb] in Hst; [|done].
  destruct (_ <=? _)%Z; [done|]. destruct (_ && _) eqn:Hallow in Hst; [|done]. clear Hst.
  apply andb_true_iff in Hallow as [Hallow Htrust%negb_true_iff].
  unfold is_ready in Hready. apply bool_decide_eq_true, ready_iff in Hready as [Hact Hno];
    [|by apply translate_sorted].
  revert Hids Hallow Htrust. unfold activation_candidate. destruct (activation_status _ _ _ _).
  cbn -[translate_descriptor set_ir_findings]. intros [= Hid Hsp _] Hallow Htrust.
  split_and!; try done.
  - unfold task_key. by rewrite Hid, Hsp.
  - intros Hb Hu. rewrite Hb, Hu in Htrust. by rewrite bool_decide_true in Htrust.
Qed.

(** C28 (safety). From a scan to the applied plugins.  Every plugin that
    bootstrap applies comes from the descriptor at its place in the scan; the
    matrix, the host and the setup context accept it; the policy allows its
    bridge and, when it holds back unverified high-risk plugins, it is not one;
    its slot claims clash with no other plugin's in the catalog; and no two
    applied plugins clash. *)
Theorem applied_plugins_safe report mx context catalog policy :
  scan_canonical report -> u64_valid (bp_max_tasks policy) ->
  let r := PluginBootstrapExecutor_execute
    (plan_activation_with_catalog (translate_scan_report report) mx context catalog) policy in
  forall i task, br_tasks r !! i = Some task -> bt_status task = Applied ->
  exists d, sr_descriptors report !! i = Some d /\
    let e := translate_descriptor d in
    task_key task = ir_key e /\ activatable mx context e /\ ~ catalog_clash catalog e /\
    bridge_auto_apply_allowed (rp_bridge_kind (ir_runtime e)) policy = true /\
    (bp_block_unverified_high_risk_auto_apply policy = true -> ir_trust_tier e = TrustUnverified ->
     plugin_bridge_is_high_risk_auto_apply (rp_bridge_kind (ir_runtime e)) = false) /\
    forall j task' d', j <> i -> br_tasks r !! j = Some task' -> bt_status task' = Applied ->
      sr_descriptors report !! j = Some d' -> ~ descriptors_clash d d'.
Proof.
  intros Hcan Hv. cbn zeta. intros i task Htask Happ.
  destruct (applied_task_inv _ _ _ _ _ _ _ Hcan Hv Htask Happ) as (d & f & Hd & He & Hk & Hact & Hno & Hal & Htr).
  exists d. split; [done|]. split; [done|]. split; [by eapply activatable_findings|]. split.
  { intros (c & id & p & claim & claim' & ? & ? & Hn & ? & ? & ?). apply Hno. left.
    eexists. split; [by eapply list_elem_of_lookup_2|]. split; [done|].
    exists c, id, p, claim, claim'. done. }
  split; [done|]. split; [done|]. intros j task' d' Hij Htask' Happ' Hd' (c & c' & Hc & Hc' & Hcl).
  destruct (applied_task_inv _ _ _ _ _ _ _ Hcan Hv Htask' Happ') as (d0 & f' & Hd0 & He' & _).
  assert (d0 = d') as -> by congruence. apply Hno. right. exists i, j. do 2 eexists.
  split; [done|]. split; [exact He|]. split; [exact He'|]. split; [done|]. by exists c, c'.
Qed.
End pipeline.
