(* ===== verification/PluginScan.v ===== *)
(** * Plugin discovery

    [crates/kernel/src/plugin.rs], the scanner: walking a directory, reading
    package manifests, OpenClaw packages and manifests embedded in sources,
    checking that they agree, and the report of the scan.  The file system, the
    JSON readers and writers and Unicode lowercasing are parameters; the file
    system does not change during a scan.  Then the theorems. *)

From S2P Require Import Prelude RustStr Contracts Integration RustPath Plugin PluginAbsorb.

Definition PACKAGE_MANIFEST_FILE_NAME : string := "loong.plugin.json".
Definition OPENCLAW_PACKAGE_MANIFEST_FILE_NAME : string := "openclaw.plugin.json".
Definition PACKAGE_JSON_FILE_NAME : string := "package.json".

(** ** The file system *)

(** What [std::fs] and [std::path] answer; errors as their texts. *)
Class FileSystem : Type := {
  fs_exists : string -> bool;
  fs_is_file : string -> bool;
  fs_is_dir : string -> bool;
  fs_metadata_is_file : string -> result bool string;
  fs_read_dir : string -> result (list (result string string)) string;
  fs_read : string -> result string string;
}.

(** [str::to_lowercase] needs the Unicode tables, [FromUtf8Error] its text. *)
Class UnicodeText : Type := {
  to_lowercase : string -> string;
  from_utf8_error : string -> string;
}.

(** ** Documents *)

Section documents.
Context {J : SerdeJson}.

Record PackageManifestDocument : Type := {
  mdoc_api_version : option string;
  mdoc_version : option string;
  mdoc_plugin_id : string;
  mdoc_provider_id : string;
  mdoc_connector_name : string;
  mdoc_channel_id : option string;
  mdoc_endpoint : option string;
  mdoc_capabilities : gset Capability;
  mdoc_metadata : gmap string string;
  mdoc_trust_tier : PluginTrustTier;
  mdoc_summary : option string;
  mdoc_tags : list string;
  mdoc_input_examples : list Value;
  mdoc_output_examples : list Value;
  mdoc_defer_loading : bool;
  mdoc_setup : option PluginSetup;
  mdoc_slot_claims : list PluginSlotClaim;
  mdoc_compatibility : option PluginCompatibility;
}.

Definition into_manifest (d : PackageManifestDocument) : PluginManifest := {|
  pm_api_version := mdoc_api_version d;
  pm_version := mdoc_version d;
  pm_plugin_id := mdoc_plugin_id d;
  pm_provider_id := mdoc_provider_id d;
  pm_connector_name := mdoc_connector_name d;
  pm_channel_id := mdoc_channel_id d;
  pm_endpoint := mdoc_endpoint d;
  pm_capabilities := mdoc_capabilities d;
  pm_metadata := mdoc_metadata d;
  pm_trust_tier := mdoc_trust_tier d;
  pm_summary := mdoc_summary d;
  pm_tags := mdoc_tags d;
  pm_input_examples := mdoc_input_examples d;
  pm_output_examples := mdoc_output_examples d;
  pm_defer_loading := mdoc_defer_loading d;
  pm_setup := mdoc_setup d;
  pm_slot_claims := mdoc_slot_claims d;
  pm_compatibility := mdoc_compatibility d;
|}.

Record OpenClawManifestDocument : Type := {
  oc_id : string;
  oc_config_schema : option Value;
  oc_enabled_by_default : bool;
  oc_kind : option string;
  oc_channels : list string;
  oc_providers : list string;
  oc_provider_auth_env_vars : gmap string (list string);
  oc_provider_auth_choices : list Value;
  oc_skills : list string;
  oc_name : option string;
  oc_description : option string;
  oc_version : option string;
  oc_ui_hints : gmap string Value;
}.
End documents.

Record OpenClawPackageChannelDocument : Type := {
  ocl_id : option string;
  ocl_label : option string;
  ocl_docs_path : option string;
  ocl_blurb : option string;
  ocl_aliases : list string;
}.

Record OpenClawPackageInstallDocument : Type := {
  oin_npm_spec : option string;
  oin_local_path : option string;
  oin_min_host_version : option string;
}.

Record OpenClawPackageMetadataDocument : Type := {
  omd_extensions : list string;
  omd_setup_entry : option string;
  omd_channel : option OpenClawPackageChannelDocument;
  omd_install : option OpenClawPackageInstallDocument;
}.

Record OpenClawPackageJsonDocument : Type := {
  opj_name : option string;
  opj_version : option string;
  opj_description : option string;
  opj_openclaw : option OpenClawPackageMetadataDocument;
}.

(** [serde_json] at the types the scanner reads and writes, and the three
    questions it asks of a [Value]. *)
Class ManifestCodec `{J : SerdeJson} : Type := {
  value_eq_dec :: EqDecision Value;
  value_empty_object : Value;
  value_is_object : Value -> bool;
  value_get : string -> Value -> option Value;
  value_as_str : Value -> option string;
  package_document_de :: Deserialize PackageManifestDocument;
  manifest_de :: Deserialize PluginManifest;
  openclaw_de :: Deserialize OpenClawManifestDocument;
  openclaw_package_de :: Deserialize OpenClawPackageJsonDocument;
  string_ser :: Serialize string;
  option_string_ser :: Serialize (option string);
  bool_ser :: Serialize bool;
  capabilities_ser :: Serialize (gset Capability);
  strings_ser :: Serialize (list string);
  values_ser :: Serialize (list Value);
  setup_ser :: Serialize (option PluginSetup);
  claims_ser :: Serialize (list PluginSlotClaim);
  compatibility_ser :: Serialize PluginCompatibility;
  env_vars_ser :: Serialize (gmap string (list string));
  value_map_ser :: Serialize (gmap string Value);
}.

(** ** Comparing two manifests *)

Record ManifestFieldConflict : Type := {
  mc_field : string;
  mc_package_value : string;
  mc_source_value : string;
}.

Section compare.
Context `{C : ManifestCodec}.

Definition serialize_manifest_value {T} `{Serialize T} (value : T) : string :=
  match to_json value with
  | Ok serialized => serialized
  | Err error => String (Ascii.ascii_of_N 34) ("<serialization_error:" +:+ error +:+ ">") +:+
                 String (Ascii.ascii_of_N 34) EmptyString
  end.

Definition compare_manifest_value {T} `{EqDecision T, Serialize T} (field : string)
    (package_value source_value : T) : option ManifestFieldConflict :=
  if decide (package_value = source_value) then None
  else Some {| mc_field := field;
               mc_package_value := serialize_manifest_value package_value;
               mc_source_value := serialize_manifest_value source_value |}.

Definition compare_optional_fill_value {T} `{EqDecision T, Serialize T} (field : string)
    (package_value source_value : option T) : option ManifestFieldConflict :=
  match package_value, source_value with
  | Some p, Some s => compare_manifest_value field p s
  | _, _ => None
  end.

Definition compare_optional_fill_sequence {T} `{EqDecision T} `{Serialize (list T)} (field : string)
    (package_value source_value : list T) : option ManifestFieldConflict :=
  if list_is_empty package_value then None
  else if list_is_empty source_value then None
  else compare_manifest_value field package_value source_value.

(** The loop over the package's metadata, in key order. *)
Fixpoint metadata_conflict (entries : list (string * string)) (source_metadata : gmap string string)
  : option ManifestFieldConflict :=
  match entries with
  | [] => None
  | (key, package_value) :: entries =>
      match source_metadata !! key with
      | None => metadata_conflict entries source_metadata
      | Some source_value =>
          if decide (package_value = source_value) then metadata_conflict entries source_metadata
          else Some {| mc_field := "metadata." +:+ key;
                       mc_package_value := serialize_manifest_value package_value;
                       mc_source_value := serialize_manifest_value source_value |}
      end
  end.

Definition first_shared_metadata_conflict (package_metadata source_metadata : gmap string string)
  : option ManifestFieldConflict :=
  metadata_conflict (btree_map_iter package_metadata) source_metadata.

(** [if conflict.is_some() { return conflict; }], field after field. *)
Fixpoint first_conflict (l : list (option ManifestFieldConflict)) : option ManifestFieldConflict :=
  match l with
  | [] => None
  | Some c :: _ => Some c
  | None :: l => first_conflict l
  end.

Definition first_manifest_conflict (p s : PluginManifest) : option ManifestFieldConflict :=
  first_conflict [
    compare_manifest_value "plugin_id" (pm_plugin_id p) (pm_plugin_id s);
    compare_manifest_value "provider_id" (pm_provider_id p) (pm_provider_id s);
    compare_manifest_value "connector_name" (pm_connector_name p) (pm_connector_name s);
    compare_manifest_value "channel_id" (pm_channel_id p) (pm_channel_id s);
    compare_manifest_value "endpoint" (pm_endpoint p) (pm_endpoint s);
    compare_manifest_value "capabilities" (pm_capabilities p) (pm_capabilities s);
    first_shared_metadata_conflict (pm_metadata p) (pm_metadata s);
    compare_optional_fill_value "summary" (pm_summary p) (pm_summary s);
    compare_optional_fill_sequence "tags" (pm_tags p) (pm_tags s);
    compare_optional_fill_sequence "input_examples" (pm_input_examples p) (pm_input_examples s);
    compare_optional_fill_sequence "output_examples" (pm_output_examples p) (pm_output_examples s);
    compare_optional_fill_value "api_version" (pm_api_version p) (pm_api_version s);
    compare_optional_fill_value "version" (pm_version p) (pm_version s);
    compare_manifest_value "setup" (pm_setup p) (pm_setup s);
    compare_manifest_value "slot_claims" (pm_slot_claims p) (pm_slot_claims s);
    compare_optional_fill_value "compatibility" (pm_compatibility p) (pm_compatibility s);
    compare_manifest_value "defer_loading" (pm_defer_loading p) (pm_defer_loading s)].
End compare.

(** ** Files *)

Definition has_file_name (name path : string) : bool := bool_decide (path_file_name path = Some name).

Definition is_loong_package_manifest_file (path : string) : bool :=
  has_file_name PACKAGE_MANIFEST_FILE_NAME path.
Definition is_openclaw_package_manifest_file (path : string) : bool :=
  has_file_name OPENCLAW_PACKAGE_MANIFEST_FILE_NAME path.
Definition is_package_manifest_file (path : string) : bool :=
  is_loong_package_manifest_file path || is_openclaw_package_manifest_file path.
Definition is_package_json_file (path : string) : bool := has_file_name PACKAGE_JSON_FILE_NAME path.

Definition should_skip_dir (path : string) : bool :=
  match path_file_name path with
  | Some (".git" | "target" | "node_modules" | ".venv" | ".idea" | ".codex") => true
  | _ => false
  end.

Definition package_root_for_path (path : string) : string := default path (path_parent path).

Section files.
Context {F : FileSystem} {U : UnicodeText}.

Definition detect_language (path : string) : string :=
  if is_package_manifest_file path then "manifest"
  else default "unknown" (to_lowercase <$> path_extension path).

Definition file_error {A} (path : string) (r : result A string) : result A IntegrationError :=
  map_err (PluginFileRead path) r.

(** The loop over the entries of a directory, with [collect_files] for the
    directories among them. *)
Fixpoint collect_entries (collect : string -> list string -> option (result (list string) IntegrationError))
    (path : string) (entries : list (result string string)) (acc : list string)
  : option (result (list string) IntegrationError) :=
  match entries with
  | [] => Some (Ok acc)
  | Err error :: _ => Some (Err (PluginFileRead path error))
  | Ok child :: entries =>
      if fs_is_dir child then
        if should_skip_dir child then collect_entries collect path entries acc
        else match collect child acc with
             | Some (Ok acc') => collect_entries collect path entries acc'
             | other => other
             end
      else if fs_is_file child then collect_entries collect path entries (acc ++ [child])
      else collect_entries collect path entries acc
  end.

(** [None]: deeper than the fuel. *)
Fixpoint collect_files (fuel : nat) (path : string) (acc : list string)
  : option (result (list string) IntegrationError) :=
  match fuel with
  | 0 => None
  | S fuel =>
      match file_error path (fs_metadata_is_file path) with
      | Err e => Some (Err e)
      | Ok true => Some (Ok (acc ++ [path]))
      | Ok false =>
          match file_error path (fs_read_dir path) with
          | Err e => Some (Err e)
          | Ok entries => collect_entries (collect_files fuel) path entries acc
          end
      end
  end.

Definition path_le (p q : string) : Prop := components_le (path_components p) (path_components q).

#[export] Instance path_le_dec : RelDecision path_le.
Proof. intros p q. unfold path_le. apply _. Defined.

Definition read_utf8_file (path : string) : result string IntegrationError :=
  let* bytes := file_error path (fs_read path) in
  if utf8_valid bytes then Ok bytes else Err (PluginManifestParse path (from_utf8_error bytes)).

Definition parse_json_document {T} `{Deserialize T} (path : string) : result T IntegrationError :=
  let* content := read_utf8_file path in
  map_err (PluginManifestParse path) (from_json (trim content)).

(** ** OpenClaw packages *)

Definition resolve_openclaw_relative_path (package_root raw : string) : option string :=
  let trimmed := trim raw in
  if str_is_empty trimmed then None else Some (path_join package_root trimmed).

Definition resolve_openclaw_extension_entries (package_root : string)
    (doc : OpenClawPackageJsonDocument) : list string :=
  omap (resolve_openclaw_relative_path package_root)
    (default [] (omd_extensions <$> opj_openclaw doc)).

Definition resolve_openclaw_default_entry_path (package_root : string) : option string :=
  find_first fs_is_file
    (map (path_join package_root) ["index.ts"; "index.js"; "index.mjs"; "index.cjs"]).

Definition resolve_openclaw_legacy_extension_entries (package_root : string)
    (doc : OpenClawPackageJsonDocument) : list string :=
  let declared := resolve_openclaw_extension_entries package_root doc in
  if negb (list_is_empty declared) then declared
  else match resolve_openclaw_default_entry_path package_root with Some e => [e] | None => [] end.

Definition resolve_openclaw_primary_entry_path (package_root : string)
    (doc : option OpenClawPackageJsonDocument) (prefer_declared_extension : bool) : option string :=
  match (if prefer_declared_extension then
           doc ≫= fun d => head (resolve_openclaw_extension_entries package_root d) else None) with
  | Some first => Some first
  | None => resolve_openclaw_default_entry_path package_root
  end.

Definition derive_openclaw_legacy_plugin_id (package_name : option string) (entry_path : string)
    (has_multiple_extensions : bool) : string :=
  let nonempty (o : option string) : option string :=
    match o with Some s => if str_is_empty s then None else Some s | None => None end in
  let base := default "plugin" (nonempty (trim <$> path_file_stem entry_path)) in
  match nonempty (trim <$> package_name) with
  | None => base
  | Some package_name =>
      let unscoped := default package_name (last (split_char "/"%char package_name)) in
      let canonical := trim (default unscoped (strip_suffix "-provider" unscoped)) in
      if negb has_multiple_extensions then canonical else canonical +:+ "/" +:+ base
  end.

Definition lowered_kind (kind : option string) : option string :=
  (fun k => to_ascii_lowercase (trim k)) <$> kind.

Definition derive_openclaw_capabilities (providers channels skills : list string)
    (kind : option string) : gset Capability :=
  (if negb (list_is_empty providers) || negb (list_is_empty channels) then {[InvokeConnector]} else ∅) ∪
  (if negb (list_is_empty skills) then {[InvokeTool]} else ∅) ∪
  match lowered_kind kind with
  | Some "memory" => {[MemoryRead; MemoryWrite]}
  | Some "context-engine" => {[ObserveTelemetry]}
  | _ => ∅
  end.

Definition derive_openclaw_tags (mode : PluginCompatibilityMode) (providers channels skills : list string)
    (kind : option string) : list string :=
  let tag (l : list string) (t : string) : list string := if list_is_empty l then [] else [t] in
  normalize_manifest_string_list
    (["openclaw"; PluginCompatibilityMode_as_str mode; "compat"] ++
     tag providers "provider" ++ tag channels "channel" ++ tag skills "skill" ++
     match kind with
     | Some k => let k := trim k in if str_is_empty k then [] else [to_ascii_lowercase k]
     | None => []
     end).

Definition derive_openclaw_slot_claims (kind : option string) : list PluginSlotClaim :=
  match lowered_kind kind with
  | Some "memory" => [{| sc_slot := "openclaw_kind"; sc_key := "memory"; sc_mode := SlotExclusive |}]
  | Some "context-engine" =>
      [{| sc_slot := "openclaw_kind"; sc_key := "context_engine"; sc_mode := SlotExclusive |}]
  | _ => []
  end.

Definition normalize_language_name (language : string) : string :=
  match to_ascii_lowercase (trim language) with
  | "rs" => "rust"
  | "py" => "python"
  | "js" => "javascript"
  | "ts" => "typescript"
  | "mjs" | "cjs" | "cts" | "mts" => "javascript"
  | "unknown" | "" => "unknown"
  | other => other
  end.

Context `{C : ManifestCodec}.

Definition derive_openclaw_setup (doc : OpenClawManifestDocument) (setup_entry_path : option string)
  : option PluginSetup :=
  let env_vars := mjoin (btree_map_values (oc_provider_auth_env_vars doc)) in
  let docs_urls :=
    omap (fun choice => value_get "docsUrl" choice ≫= value_as_str) (oc_provider_auth_choices doc) in
  let surface :=
    if negb (list_is_empty (oc_channels doc)) then "channel"
    else if negb (list_is_empty (oc_providers doc)) then "provider"
    else if negb (list_is_empty (oc_skills doc)) then "skill" else "plugin" in
  let setup := {|
    pst_mode := if is_some setup_entry_path then GovernedEntry else MetadataOnly;
    pst_surface := Some surface;
    pst_required_env_vars := normalize_manifest_string_list env_vars;
    pst_recommended_env_vars := [];
    pst_required_config_keys := ["plugins.entries." +:+ trim (oc_id doc)];
    pst_default_env_var := head env_vars;
    pst_docs_urls := normalize_manifest_string_list docs_urls;
    pst_remediation := Some
      "enable the required OpenClaw compatibility shim and configure plugin settings before activation" |} in
  if PluginSetup_is_effectively_empty setup then None else Some (PluginSetup_normalized setup).

(** [if let Some(v) = ... { metadata.insert(key, v); }]. *)
Definition insert_some (key : string) (value : option string) (md : gmap string string)
  : gmap string string :=
  match value with Some v => <[key := v]> md | None => md end.

Definition insert_text (key : string) (value : option string) (md : gmap string string)
  : gmap string string := insert_some key (normalize_optional_manifest_string value) md.

(** [if !skip && let Ok(encoded) = serde_json::to_string(value) { ... }]. *)
Definition insert_encoded {T} `{Serialize T} (key : string) (skip : bool) (value : T)
    (md : gmap string string) : gmap string string :=
  if skip then md else match to_json value with Ok encoded => <[key := encoded]> md | Err _ => md end.

Definition openclaw_channel_metadata (channel : OpenClawPackageChannelDocument)
    (md : gmap string string) : gmap string string :=
  let md := insert_text "openclaw_channel_id" (ocl_id channel) md in
  let md := insert_text "openclaw_channel_label" (ocl_label channel) md in
  let md := insert_text "openclaw_channel_blurb" (ocl_blurb channel) md in
  let md := insert_text "openclaw_channel_docs_path" (ocl_docs_path channel) md in
  let aliases := normalize_manifest_string_list (ocl_aliases channel) in
  insert_encoded "openclaw_channel_aliases_json" (list_is_empty aliases) aliases md.

Definition openclaw_install_metadata (install : OpenClawPackageInstallDocument)
    (md : gmap string string) : gmap string string :=
  insert_text "openclaw_install_min_host_version" (oin_min_host_version install)
    (insert_text "openclaw_install_local_path" (oin_local_path install)
      (insert_text "openclaw_install_npm_spec" (oin_npm_spec install) md)).

Definition openclaw_package_metadata (doc : OpenClawPackageJsonDocument) (md : gmap string string)
  : gmap string string :=
  let md := insert_text "openclaw_package_name" (opj_name doc) md in
  let md := insert_text "openclaw_package_version" (opj_version doc) md in
  let md := insert_text "openclaw_package_description" (opj_description doc) md in
  let md := match opj_openclaw doc ≫= omd_channel with
            | Some channel => openclaw_channel_metadata channel md | None => md end in
  match opj_openclaw doc ≫= omd_install with
  | Some install => openclaw_install_metadata install md | None => md end.

Definition openclaw_document_metadata (doc : OpenClawManifestDocument) (md : gmap string string)
  : gmap string string :=
  let texts key l :=
    insert_encoded key (list_is_empty l) (normalize_manifest_string_list l) in
  let md := texts "openclaw_channels_json" (oc_channels doc) md in
  let md := texts "openclaw_providers_json" (oc_providers doc) md in
  let md := texts "openclaw_skills_json" (oc_skills doc) md in
  let md := insert_encoded "openclaw_provider_auth_env_vars_json"
              (bool_decide (oc_provider_auth_env_vars doc = ∅)) (oc_provider_auth_env_vars doc) md in
  let md := insert_encoded "openclaw_provider_auth_choices_json"
              (list_is_empty (oc_provider_auth_choices doc)) (oc_provider_auth_choices doc) md in
  let md := insert_encoded "openclaw_ui_hints_json"
              (bool_decide (oc_ui_hints doc = ∅)) (oc_ui_hints doc) md in
  if oc_enabled_by_default doc then <["openclaw_enabled_by_default" := "true"]> md else md.

Definition openclaw_metadata (doc : OpenClawManifestDocument)
    (package_document : option OpenClawPackageJsonDocument)
    (primary_entry_path setup_entry_path : option string) (mode : PluginCompatibilityMode)
  : gmap string string :=
  let adapter_family :=
    match mode with
    | CompatNative => "native"
    | OpenClawModern => OPENCLAW_MODERN_COMPATIBILITY_ADAPTER_FAMILY
    | OpenClawLegacy => OPENCLAW_LEGACY_COMPATIBILITY_ADAPTER_FAMILY
    end in
  let md := <["adapter_family" := adapter_family]> (<["bridge_kind" := "process_stdio"]> ∅) in
  let md := insert_some "entrypoint" primary_entry_path md in
  let md := insert_some "setup_entrypoint" setup_entry_path md in
  let md := insert_text "openclaw_kind" (oc_kind doc) md in
  let md := match package_document with Some p => openclaw_package_metadata p md | None => md end in
  let md := openclaw_document_metadata doc md in
  match detect_language <$> primary_entry_path with
  | Some language =>
      if decide (language <> "unknown") then
        <["source_language" := normalize_language_name language]> md else md
  | None => md
  end.

Definition build_openclaw_manifest (doc : OpenClawManifestDocument)
    (package_document : option OpenClawPackageJsonDocument)
    (primary_entry_path setup_entry_path : option string) (mode : PluginCompatibilityMode)
  : PluginManifest :=
  normalize_plugin_manifest {|
    pm_api_version := Some CURRENT_PLUGIN_MANIFEST_API_VERSION;
    pm_version := option_or (normalize_optional_manifest_string (oc_version doc))
                    (package_document ≫= fun p => normalize_optional_manifest_string (opj_version p));
    pm_plugin_id := trim (oc_id doc);
    pm_provider_id := trim (oc_id doc);
    pm_connector_name := trim (oc_id doc);
    pm_channel_id := None;
    pm_endpoint := None;
    pm_capabilities := derive_openclaw_capabilities (oc_providers doc) (oc_channels doc) (oc_skills doc)
                         (oc_kind doc);
    pm_trust_tier := PluginTrustTier_default;
    pm_metadata := openclaw_metadata doc package_document primary_entry_path setup_entry_path mode;
    pm_summary := normalize_optional_manifest_string (option_or (oc_description doc) (oc_name doc));
    pm_tags := derive_openclaw_tags mode (oc_providers doc) (oc_channels doc) (oc_skills doc) (oc_kind doc);
    pm_input_examples := [];
    pm_output_examples := [];
    pm_defer_loading := is_some setup_entry_path;
    pm_setup := derive_openclaw_setup doc setup_entry_path;
    pm_slot_claims := derive_openclaw_slot_claims (oc_kind doc);
    pm_compatibility := None |}.

Definition set_metadata_and_summary (md : gmap string string) (summary : option string)
    (m : PluginManifest) : PluginManifest := {|
  pm_api_version := pm_api_version m; pm_version := pm_version m; pm_plugin_id := pm_plugin_id m;
  pm_provider_id := pm_provider_id m; pm_connector_name := pm_connector_name m;
  pm_channel_id := pm_channel_id m; pm_endpoint := pm_endpoint m;
  pm_capabilities := pm_capabilities m; pm_trust_tier := pm_trust_tier m; pm_metadata := md;
  pm_summary := summary; pm_tags := pm_tags m; pm_input_examples := pm_input_examples m;
  pm_output_examples := pm_output_examples m; pm_defer_loading := pm_defer_loading m;
  pm_setup := pm_setup m; pm_slot_claims := pm_slot_claims m;
  pm_compatibility := pm_compatibility m |}.

Definition build_openclaw_legacy_manifest (package_document : OpenClawPackageJsonDocument)
    (plugin_id primary_entry_path : string) (setup_entry_path : option string) : PluginManifest :=
  let synthetic_document := {|
    oc_id := plugin_id; oc_config_schema := Some value_empty_object; oc_enabled_by_default := false;
    oc_kind := None; oc_channels := []; oc_providers := []; oc_provider_auth_env_vars := ∅;
    oc_provider_auth_choices := []; oc_skills := []; oc_name := opj_name package_document;
    oc_description := opj_description package_document; oc_version := opj_version package_document;
    oc_ui_hints := ∅ |} in
  let manifest := build_openclaw_manifest synthetic_document (Some package_document)
                    (Some primary_entry_path) setup_entry_path OpenClawLegacy in
  set_metadata_and_summary (<["openclaw_legacy_package" := "true"]> (pm_metadata manifest))
    (normalize_optional_manifest_string
       (option_or (opj_description package_document) (opj_name package_document))) manifest.

Definition validate_openclaw_manifest_document (doc : OpenClawManifestDocument) (path : string)
  : result unit IntegrationError :=
  if str_is_empty (trim (oc_id doc)) then
    Err (PluginManifestParse path "openclaw.plugin.json must declare id") else
  if negb (match oc_config_schema doc with Some v => value_is_object v | None => false end) then
    Err (PluginManifestParse path "openclaw.plugin.json must declare configSchema object") else
  Ok tt.

(** ** Descriptors *)

Definition build_plugin_descriptor (path : string) (source_kind : PluginSourceKind)
    (dialect : PluginContractDialect) (dialect_version : option string)
    (mode : PluginCompatibilityMode) (package_manifest_path runtime_entry_path : option string)
    (manifest : PluginManifest) : PluginDescriptor := {|
  pd_path := path;
  pd_source_kind := source_kind;
  pd_dialect := dialect;
  pd_dialect_version := dialect_version;
  pd_compatibility_mode := mode;
  pd_package_root := default (package_root_for_path path) (package_manifest_path ≫= path_parent);
  pd_package_manifest_path := package_manifest_path;
  pd_language := default (detect_language path) (detect_language <$> runtime_entry_path);
  pd_manifest := manifest |}.

Context {V : SemverReq}.

Definition validate_package_manifest_document_contract (doc : PackageManifestDocument) (path : string)
  : result unit IntegrationError :=
  let fail reason := Err (PluginManifestParse path reason) in
  if negb (is_some (normalize_optional_manifest_string (mdoc_version doc))) then
    fail "package manifest must declare top-level version" else
  match metadata_version (mdoc_metadata doc) with
  | Some version =>
      fail ("package manifest must declare version via top-level `version`, not metadata.version (`" +:+
            version +:+ "`)")
  | None =>
      match find_first (starts_with RESERVED_PACKAGE_METADATA_PREFIX)
              (btree_map_iter (mdoc_metadata doc)).*1 with
      | Some reserved_key =>
          fail ("package manifest metadata key `" +:+ reserved_key +:+
                "` is reserved for host-managed projection")
      | None => Ok tt
      end
  end.

Definition parse_package_manifest_file (path : string) : result PluginManifest IntegrationError :=
  let* content := read_utf8_file path in
  let* document := map_err (PluginManifestParse path)
                     (from_json (T := PackageManifestDocument) (trim content)) in
  let* _ := validate_package_manifest_document_contract document path in
  let normalized_manifest := normalize_plugin_manifest (into_manifest document) in
  let* _ := validate_plugin_manifest_contract normalized_manifest PackageManifest path in
  Ok normalized_manifest.

Definition parse_package_manifest_descriptor (path : string) : result PluginDescriptor IntegrationError :=
  let* manifest := parse_package_manifest_file path in
  Ok (build_plugin_descriptor path PackageManifest LoongPackageManifest
        (Some CURRENT_PLUGIN_MANIFEST_API_VERSION) CompatNative (Some path) None manifest).

Definition parse_openclaw_manifest_descriptor (path : string) : result PluginDescriptor IntegrationError :=
  let* document := parse_json_document (T := OpenClawManifestDocument) path in
  let* _ := validate_openclaw_manifest_document document path in
  let package_json_path :=
    match path_parent path with
    | Some parent =>
        let candidate := path_join parent PACKAGE_JSON_FILE_NAME in
        if fs_is_file candidate then Some candidate else None
    | None => None
    end in
  let* package_document :=
    match package_json_path with
    | Some p => let* d := parse_json_document (T := OpenClawPackageJsonDocument) p in Ok (Some d)
    | None => Ok None
    end in
  let package_root := default path (path_parent path) in
  let primary_entry_path := resolve_openclaw_primary_entry_path package_root package_document true in
  let setup_entry_path :=
    ((package_document ≫= opj_openclaw) ≫= omd_setup_entry) ≫= resolve_openclaw_relative_path package_root in
  let manifest := build_openclaw_manifest document package_document primary_entry_path setup_entry_path
                    OpenClawModern in
  Ok (build_plugin_descriptor (default path primary_entry_path) PackageManifest OpenClawModernManifest
        (Some "openclaw.plugin.json") OpenClawModern (Some path) primary_entry_path manifest).

(** Known files are compared as paths. *)
Definition parse_openclaw_legacy_package_descriptors (path : string) (known_files : gset (list Component))
  : result (list PluginDescriptor) IntegrationError :=
  let* document := parse_json_document (T := OpenClawPackageJsonDocument) path in
  match opj_openclaw document with
  | None => Ok []
  | Some openclaw =>
      let package_root := default path (path_parent path) in
      let sibling := path_join package_root OPENCLAW_PACKAGE_MANIFEST_FILE_NAME in
      if bool_decide (path_components sibling ∈ known_files) || fs_is_file sibling then Ok [] else
      let extension_entries := resolve_openclaw_legacy_extension_entries package_root document in
      let multiple_entries := bool_decide (1 < length extension_entries) in
      let setup_entry_path := omd_setup_entry openclaw ≫= resolve_openclaw_relative_path package_root in
      Ok (map (fun entry_path =>
            let plugin_id := derive_openclaw_legacy_plugin_id (opj_name document) entry_path multiple_entries in
            build_plugin_descriptor entry_path PackageManifest OpenClawLegacyPackage
              (Some "package.json#openclaw") OpenClawLegacy (Some path) (Some entry_path)
              (build_openclaw_legacy_manifest document plugin_id entry_path setup_entry_path))
            extension_entries)
  end.

(** ** Manifests in sources *)

Definition clean_manifest_line (line : string) : string :=
  let trimmed := trim_start line in
  let fix strip (prefixes : list string) : string :=
    match prefixes with
    | [] => trimmed
    | prefix :: prefixes =>
        match strip_prefix prefix trimmed with
        | Some rest => trim_start rest
        | None => strip prefixes
        end
    end in
  strip ["//"; "#"; "--"; ";"; "/*"; "*"; "*/"].

Definition MANIFEST_START : string := "LOONG_PLUGIN_START".
Definition MANIFEST_END : string := "LOONG_PLUGIN_END".

(** The text between the markers: [None] without a start marker, [Some None]
    without an end marker after it. *)
Definition manifest_block (content : string) : option (option string) :=
  match before_first MANIFEST_START content with
  | None => None
  | Some before =>
      let from_start := str_drop (String.length before) content in
      Some (str_drop (String.length MANIFEST_START) <$> before_first MANIFEST_END from_start)
  end.

Definition parse_manifest_block (content path : string) : result (option PluginManifest) IntegrationError :=
  match manifest_block content with
  | None => Ok None
  | Some None => Err (PluginManifestParse path "missing LOONG_PLUGIN_END")
  | Some (Some block) =>
      let cleaned := join line_feed (map clean_manifest_line (str_lines block)) in
      let* manifest := map_err (PluginManifestParse path) (from_json (T := PluginManifest) (trim cleaned)) in
      let normalized_manifest := normalize_plugin_manifest manifest in
      let* _ := validate_plugin_manifest_contract normalized_manifest EmbeddedSource path in
      Ok (Some normalized_manifest)
  end.

Definition parse_source_manifest_descriptor (path : string)
  : result (option PluginDescriptor) IntegrationError :=
  let* bytes := file_error path (fs_read path) in
  if negb (utf8_valid bytes) then Ok None else
  let* manifest := parse_manifest_block bytes path in
  Ok ((build_plugin_descriptor path EmbeddedSource LoongEmbeddedSource None CompatNative None None)
        <$> manifest).

(** ** Diagnostics of a scan *)

Definition scan_finding (d : PluginDescriptor) (code : PluginDiagnosticCode)
    (severity : PluginDiagnosticSeverity) (field_path : option string) (message remediation : string)
  : PluginDiagnosticFinding := {|
  df_code := code; df_severity := severity; df_phase := PhaseScan; df_blocking := false;
  df_plugin_id := Some (pm_plugin_id (pd_manifest d)); df_source_path := Some (pd_path d);
  df_source_kind := Some (pd_source_kind d); df_field_path := field_path; df_message := message;
  df_remediation := Some remediation |}.

Definition descriptor_contract_diagnostic_findings (d : PluginDescriptor) : list PluginDiagnosticFinding :=
  let embedded := negb (is_package_manifest_kind (pd_source_kind d)) in
  (if embedded then [scan_finding d EmbeddedSourceLegacyContract SeverityWarning None
     "embedded source manifests remain a migration-only contract; package manifests are the preferred public SDK surface"
     "add a `loong.plugin.json` package manifest and keep source markers only as a temporary compatibility bridge"]
   else []) ++
  (if embedded && is_some (pm_metadata (pd_manifest d) !! "version") then
     [scan_finding d LegacyMetadataVersion SeverityWarning (Some "metadata.version")
     "embedded source manifest still carries legacy metadata.version; typed top-level version is the stable contract"
     "move plugin version truth to top-level `version` and remove legacy metadata.version once package manifests are in place"]
   else []) ++
  (if negb (PluginCompatibilityMode_is_native (pd_compatibility_mode d)) then
     [scan_finding d ForeignDialectContract SeverityInfo (Some "dialect")
     ("plugin contract dialect `" +:+ PluginContractDialect_as_str (pd_dialect d) +:+
      "` is projected through compatibility mode `" +:+
      PluginCompatibilityMode_as_str (pd_compatibility_mode d) +:+ "` before native activation")
     "keep compatibility intake on the adapter boundary, or migrate the plugin to a native `loong.plugin.json` contract for first-class SDK support"]
   else []) ++
  (if decide (pd_compatibility_mode d = OpenClawLegacy) then
     [scan_finding d LegacyOpenClawContract SeverityWarning (Some "package.json#openclaw.extensions")
     "legacy OpenClaw package metadata remains compatibility-only; modern openclaw.plugin.json manifests are the preferred foreign contract"
     "add `openclaw.plugin.json` and keep package.json openclaw metadata only for entrypoint/setup declarations during migration"]
   else []).

Definition shadowed_embedded_source_finding (source_descriptor package_descriptor : PluginDescriptor)
  : PluginDiagnosticFinding :=
  scan_finding source_descriptor ShadowedEmbeddedSource SeverityWarning None
    ("embedded source manifest is shadowed by package manifest `" +:+ pd_path package_descriptor +:+
     "` and no longer acts as the authoritative contract")
    "remove the shadowed marker block or keep it strictly migration-compatible until the package manifest is the sole source of truth".

(** ** Collecting descriptors

    [BTreeMap<PathBuf, PluginDescriptor>]: keyed by components. *)

Notation DescriptorMap := (gmap (list Component) PluginDescriptor).

Definition insert_descriptor (descriptors : DescriptorMap) (d : PluginDescriptor) : DescriptorMap :=
  <[path_components (pd_path d) := d]> descriptors.

Definition collect_package_manifest (known_files : gset (list Component)) (descriptors : DescriptorMap)
    (path : string) : result DescriptorMap IntegrationError :=
  if is_loong_package_manifest_file path then
    let* d := parse_package_manifest_descriptor path in
    Ok (<[path_components path := d]> descriptors)
  else if is_openclaw_package_manifest_file path then
    let* d := parse_openclaw_manifest_descriptor path in Ok (insert_descriptor descriptors d)
  else if is_package_json_file path then
    let* ds := parse_openclaw_legacy_package_descriptors path known_files in
    Ok (fold_left insert_descriptor ds descriptors)
  else Ok descriptors.

Definition collect_package_manifest_descriptors (files : list string)
  : result DescriptorMap IntegrationError :=
  let known_files := list_to_set (map path_components files) in
  try_fold (collect_package_manifest known_files) files ∅.

Record SourceManifestCollection : Type := {
  smc_descriptors : gmap (list Component) PluginDescriptor;
  smc_diagnostic_findings : list PluginDiagnosticFinding;
}.

Definition collect_source_manifest (collection : SourceManifestCollection) (path : string)
  : result SourceManifestCollection IntegrationError :=
  let* descriptor := parse_source_manifest_descriptor path in
  match descriptor with
  | None => Ok collection
  | Some d =>
      Ok {| smc_descriptors := <[path_components path := d]> (smc_descriptors collection);
            smc_diagnostic_findings :=
              smc_diagnostic_findings collection ++ descriptor_contract_diagnostic_findings d |}
  end.

Definition collect_source_manifest_descriptors (files : list string)
  : result SourceManifestCollection IntegrationError :=
  try_fold collect_source_manifest files {| smc_descriptors := ∅; smc_diagnostic_findings := [] |}.

(** [Path::parent] of a key. *)
Definition components_parent (p : list Component) : option (list Component) :=
  match last p with
  | None | Some RootDir => None
  | Some _ => Some (removelast p)
  end.

Definition collect_package_manifest_descriptors_by_root (descriptors : DescriptorMap) : DescriptorMap :=
  fold_left (fun roots kv =>
    match components_parent kv.1 with
    | None => roots
    | Some package_root => <[package_root := kv.2]> roots
    end) (btree_map_iter descriptors) ∅.

(** The loop of [find_covering_package_manifest_descriptor]. *)
Definition better_root (path : list Component) (best : option (list Component * PluginDescriptor))
    (kv : list Component * PluginDescriptor) : option (list Component * PluginDescriptor) :=
  if negb (path_starts_with path kv.1) then best
  else match best with
       | None => Some kv
       | Some (best_root, _) =>
           if bool_decide (length best_root < length kv.1) then Some kv else best
       end.

Definition find_covering_package_manifest_descriptor (path : list Component) (roots : DescriptorMap)
  : option PluginDescriptor :=
  snd <$> fold_left (better_root path) (btree_map_iter roots) None.

Definition validate_package_manifest_pair (package_descriptor source_descriptor : PluginDescriptor)
  : result unit IntegrationError :=
  match first_manifest_conflict (pd_manifest package_descriptor) (pd_manifest source_descriptor) with
  | None => Ok tt
  | Some c =>
      Err (PluginManifestConflict (pd_path package_descriptor) (pd_path source_descriptor)
             (mc_field c) (mc_package_value c) (mc_source_value c))
  end.

Definition validate_package_manifest_conflicts (roots sources : DescriptorMap)
  : result unit IntegrationError :=
  try_fold (fun _ kv =>
    match find_covering_package_manifest_descriptor kv.1 roots with
    | None => Ok tt
    | Some package_descriptor => validate_package_manifest_pair package_descriptor kv.2
    end) (btree_map_iter sources) tt.

(** ** The scan *)

Definition PluginScanReport_default : PluginScanReport := {|
  sr_scanned_files := 0; sr_matched_plugins := 0; sr_diagnostic_findings := []; sr_descriptors := [] |}.

Definition push_descriptor (report : PluginScanReport) (d : PluginDescriptor) : PluginScanReport := {|
  sr_scanned_files := sr_scanned_files report;
  sr_matched_plugins := u64_saturating_add (sr_matched_plugins report) 1;
  sr_diagnostic_findings := sr_diagnostic_findings report;
  sr_descriptors := sr_descriptors report ++ [d] |}.

(** The last loop of [scan_path]. *)
Definition report_file (packages roots sources : DescriptorMap) (report : PluginScanReport) (path : string)
  : PluginScanReport :=
  let key := path_components path in
  match packages !! key with
  | Some d => push_descriptor report d
  | None =>
      match find_covering_package_manifest_descriptor key roots with
      | Some _ => report
      | None =>
          match sources !! key with
          | Some d => push_descriptor report d
          | None => report
          end
      end
  end.

(** [scan_path] after the files were collected and sorted. *)
Definition scan_files (files : list string) : result PluginScanReport IntegrationError :=
  let* packages := collect_package_manifest_descriptors files in
  let* source_collection := collect_source_manifest_descriptors files in
  let sources := smc_descriptors source_collection in
  let roots := collect_package_manifest_descriptors_by_root packages in
  let* _ := validate_package_manifest_conflicts roots sources in
  let shadowed :=
    omap (fun kv => (shadowed_embedded_source_finding kv.2) <$>
                    find_covering_package_manifest_descriptor kv.1 roots) (btree_map_iter sources) in
  let findings :=
    smc_diagnostic_findings source_collection ++
    mjoin (map descriptor_contract_diagnostic_findings (btree_map_values packages)) ++ shadowed in
  Ok (fold_left (report_file packages roots sources) files {|
        sr_scanned_files := Z.of_nat (length files); sr_matched_plugins := 0;
        sr_diagnostic_findings := findings; sr_descriptors := [] |}).

(** [None]: the tree is deeper than the fuel. *)
Definition scan_path (fuel : nat) (root : string) : option (result PluginScanReport IntegrationError) :=
  if negb (fs_exists root) then Some (Err (PluginScanRootNotFound root)) else
  match collect_files fuel root [] with
  | None => None
  | Some (Err e) => Some (Err e)
  | Some (Ok files) => Some (scan_files (merge_sort path_le files))
  end.
End files.

(** ** Properties of plugin discovery

    The covering package of a file is the deepest one; an embedded manifest
    under a package agrees with it and is not reported; what a scan reports has
    passed the contract of its dialect; and walking a directory ends. *)

(** ** Loops that may fail *)

(** What every step of a loop keeps holds of its result. *)
Lemma try_fold_rule {A B E} (I : A -> Prop) (f : A -> B -> result A E) l a a' :
  I a -> (forall a x a', x ∈ l -> I a -> f a x = Ok a' -> I a') -> try_fold f l a = Ok a' -> I a'.
Proof.
  revert a. induction l as [|x l IH]; intros a Ha Hf; simpl; [by intros [= <-]|].
  destruct (f a x) as [b|] eqn:Hx; simpl; [|done]. apply IH.
  - eapply Hf; [apply elem_of_cons; by left|done..].
  - intros a1 y a2 Hy. apply Hf. by apply elem_of_cons; right.
Qed.

(** Take a successful chain of [?] apart. *)
Ltac ok_inv :=
  repeat match goal with
  | H : result_bind _ _ = Ok _ |- _ => apply result_bind_ok in H as (? & ? & H)
  | H : map_err _ _ = Ok _ |- _ => apply map_err_ok in H
  | H : (if ?b then _ else _) = Ok _ |- _ => destruct b eqn:?; try discriminate H
  end.

Section facts.
Context {F : FileSystem} {U : UnicodeText} `{C : ManifestCodec} {V : SemverReq}.

(** ** Covering packages *)

Definition covers (path : list Component) (roots : gmap (list Component) PluginDescriptor)
    (root : list Component) (d : PluginDescriptor) : Prop :=
  roots !! root = Some d /\ root `prefix_of` path /\
  forall root' d', roots !! root' = Some d' -> root' `prefix_of` path -> length root' <= length root.

Lemma better_root_best path (l : list (list Component * PluginDescriptor)) :
  match fold_left (better_root path) l None with
  | None => forall kv, kv ∈ l -> ~ kv.1 `prefix_of` path
  | Some best => best ∈ l /\ best.1 `prefix_of` path /\
      forall kv, kv ∈ l -> kv.1 `prefix_of` path -> length kv.1 <= length best.1
  end.
Proof.
  apply (fold_left_rule (fun done best => match best with
    | None => forall kv, kv ∈ done -> ~ kv.1 `prefix_of` path
    | Some best => best ∈ done /\ best.1 `prefix_of` path /\
        forall kv, kv ∈ done -> kv.1 `prefix_of` path -> length kv.1 <= length best.1
    end)); [set_solver|].
  intros done best kv H. unfold better_root, path_starts_with.
  case_bool_decide as Hp; simpl; [|destruct best as [b|]; set_solver].
  destruct best as [[r d]|].
  - case_bool_decide as Hlen; destruct H as (Hin & Hpre & Hmax).
    + split_and!; [set_solver|done|]. intros kv' [Hk| ->%list_elem_of_singleton]%elem_of_app Hp'; [|done].
      specialize (Hmax _ Hk Hp'). simpl in *. lia.
    + split_and!; [set_solver|done|]. intros kv' [Hk| ->%list_elem_of_singleton]%elem_of_app Hp'; [by apply Hmax|].
      simpl in *. lia.
  - split_and!; [set_solver|done|]. intros kv' [Hk| ->%list_elem_of_singleton]%elem_of_app Hp'; [|done].
    by destruct (H _ Hk).
Qed.

Lemma find_covering_spec path roots d :
  find_covering_package_manifest_descriptor path roots = Some d <-> exists root, covers path roots root d.
Proof.
  unfold find_covering_package_manifest_descriptor.
  pose proof (better_root_best path (btree_map_iter roots)) as Hb.
  destruct (fold_left _ _ _) as [[r e]|]; simpl.
  - destruct Hb as (Hin%elem_of_btree_map_iter & Hp & Hmax). simpl in *.
    assert (covers path roots r e) as Hcov.
    { split_and!; [done..|]. intros r' d' H Hp'. by apply (Hmax (r', d')); [apply elem_of_btree_map_iter|]. }
    split; [intros [= ->]; eauto|]. intros (r' & Hr' & Hp' & Hmax').
    assert (r = r') as <-; [|congruence].
    assert (length r = length r') by (apply (anti_symm Nat.le); [by eapply Hmax'|by apply (Hmax (r', d)); [apply elem_of_btree_map_iter|]]).
    destruct Hp as [k1 ->], Hp' as [k2 Hk]. by apply app_inj_1 in Hk as [-> _].
  - split; [done|]. intros (r & Hr & Hp & _). destruct (Hb (r, d)); [by apply elem_of_btree_map_iter|done].
Qed.

Lemma find_covering_None path roots :
  find_covering_package_manifest_descriptor path roots = None <->
  forall root d, roots !! root = Some d -> ~ root `prefix_of` path.
Proof.
  unfold find_covering_package_manifest_descriptor.
  pose proof (better_root_best path (btree_map_iter roots)) as Hb.
  destruct (fold_left _ _ _) as [[r e]|]; simpl.
  - destruct Hb as (Hin%elem_of_btree_map_iter & Hp & _). naive_solver.
  - split; [|done]. intros _ r d Hr. apply (Hb (r, d)). by apply elem_of_btree_map_iter.
Qed.

(** The package that governs a file is the one whose root
    directory is the longest prefix of the file's path, by components; there is
    none exactly when no package root is a prefix. *)
Theorem covering_package_is_deepest path roots :
  (forall d, find_covering_package_manifest_descriptor path roots = Some d <->
     exists root, covers path roots root d) /\
  (find_covering_package_manifest_descriptor path roots = None <->
     forall root d, roots !! root = Some d -> ~ root `prefix_of` path).
Proof. split; [intros d; apply find_covering_spec|apply find_covering_None]. Qed.

(** ** Agreement *)

Definition fills_agree {T} (p s : option T) : Prop := forall x y, p = Some x -> s = Some y -> x = y.
Definition sequences_agree {T} (p s : list T) : Prop := p = [] \/ s = [] \/ p = s.

(** What a package manifest and an embedded one must share. *)
Record manifests_agree (p s : PluginManifest) : Prop := {
  ma_plugin_id : pm_plugin_id p = pm_plugin_id s;
  ma_provider_id : pm_provider_id p = pm_provider_id s;
  ma_connector_name : pm_connector_name p = pm_connector_name s;
  ma_channel_id : pm_channel_id p = pm_channel_id s;
  ma_endpoint : pm_endpoint p = pm_endpoint s;
  ma_capabilities : pm_capabilities p = pm_capabilities s;
  ma_metadata : forall k v w, pm_metadata p !! k = Some v -> pm_metadata s !! k = Some w -> v = w;
  ma_summary : fills_agree (pm_summary p) (pm_summary s);
  ma_tags : sequences_agree (pm_tags p) (pm_tags s);
  ma_input_examples : sequences_agree (pm_input_examples p) (pm_input_examples s);
  ma_output_examples : sequences_agree (pm_output_examples p) (pm_output_examples s);
  ma_api_version : fills_agree (pm_api_version p) (pm_api_version s);
  ma_version : fills_agree (pm_version p) (pm_version s);
  ma_setup : pm_setup p = pm_setup s;
  ma_slot_claims : pm_slot_claims p = pm_slot_claims s;
  ma_compatibility : fills_agree (pm_compatibility p) (pm_compatibility s);
  ma_defer_loading : pm_defer_loading p = pm_defer_loading s;
}.

Lemma compare_value_None `{EqDecision T, Serialize T} f (p s : T) :
  compare_manifest_value f p s = None <-> p = s.
Proof. unfold compare_manifest_value. case_decide; naive_solver. Qed.

Lemma compare_fill_None `{EqDecision T, Serialize T} f (p s : option T) :
  compare_optional_fill_value f p s = None <-> fills_agree p s.
Proof.
  unfold compare_optional_fill_value, fills_agree. destruct p, s; try naive_solver.
  rewrite compare_value_None. naive_solver.
Qed.

Lemma compare_sequence_None `{EqDecision T} `{Serialize (list T)} f (p s : list T) :
  compare_optional_fill_sequence f p s = None <-> sequences_agree p s.
Proof.
  unfold compare_optional_fill_sequence, sequences_agree. destruct p, s; simpl; try naive_solver.
  rewrite compare_value_None. naive_solver.
Qed.

Lemma metadata_conflict_None p s :
  first_shared_metadata_conflict p s = None <->
  forall k v w, p !! k = Some v -> s !! k = Some w -> v = w.
Proof.
  unfold first_shared_metadata_conflict.
  transitivity (forall k v w, (k, v) ∈ btree_map_iter p -> s !! k = Some w -> v = w);
    [|by setoid_rewrite elem_of_btree_map_iter].
  induction (btree_map_iter p) as [|[k v] l IH]; simpl; [set_solver|].
  destruct (s !! k) as [w|] eqn:E.
  - case_decide as Hv; [rewrite IH|split; [done|intros H; by destruct Hv; eapply H; [apply elem_of_cons; left|]]].
    subst. split; [|set_solver]. intros H k' v' w' [[= -> ->]|Hin]%elem_of_cons; [congruence|eauto].
  - rewrite IH. split; [|set_solver]. intros H k' v' w' [[= -> ->]|Hin]%elem_of_cons; [congruence|eauto].
Qed.

Lemma first_conflict_None l : first_conflict l = None <-> Forall (fun c => c = None) l.
Proof. induction l as [|[c|] l IH]; simpl; [naive_solver| |]; rewrite Forall_cons; naive_solver. Qed.

Lemma manifest_conflict_None p s : first_manifest_conflict p s = None <-> manifests_agree p s.
Proof.
  unfold first_manifest_conflict. rewrite first_conflict_None, !Forall_cons.
  rewrite !compare_value_None, !compare_fill_None, !compare_sequence_None, metadata_conflict_None.
  split.
  - intros (? & ? & ? & ? & ? & ? & ? & ? & ? & ? & ? & ? & ? & ? & ? & ? & ? & _). by constructor.
  - intros []. do 17 (split; [done|]). constructor.
Qed.

(** An embedded manifest is compatible with the package
    manifest above it exactly when the two agree on the identifying fields,
    setup, claims and loading, on every metadata key they share, and on every
    optional field and sequence that both give. *)
Theorem manifest_conflict_free_iff p s : first_manifest_conflict p s = None <-> manifests_agree p s.
Proof. apply manifest_conflict_None. Qed.

(** ** What a scan reports *)

(** The descriptor a file contributes. *)
Definition reported (packages roots sources : gmap (list Component) PluginDescriptor) (path : string)
  : option PluginDescriptor :=
  let key := path_components path in
  match packages !! key with
  | Some d => Some d
  | None => match find_covering_package_manifest_descriptor key roots with
            | Some _ => None
            | None => sources !! key
            end
  end.

Lemma report_files packages roots sources files report :
  let r := fold_left (report_file packages roots sources) files report in
  sr_scanned_files r = sr_scanned_files report /\
  sr_descriptors r = sr_descriptors report ++ omap (reported packages roots sources) files /\
  (sr_matched_plugins report = saturated (length (sr_descriptors report)) ->
   sr_matched_plugins r = saturated (length (sr_descriptors r))).
Proof.
  cbn zeta. revert report. induction files as [|path files IH]; intros report; simpl; [by rewrite app_nil_r|].
  destruct (IH (report_file packages roots sources report path)) as (-> & -> & Hm).
  assert (forall d, sr_matched_plugins report = saturated (length (sr_descriptors report)) ->
    sr_matched_plugins (push_descriptor report d) = saturated (length (sr_descriptors (push_descriptor report d)))) as Hpush.
  { intros d H. simpl. rewrite H, saturated_succ, length_app. f_equal. simpl. lia. }
  revert Hm. unfold report_file, reported.
  destruct (packages !! _) as [d|]; [|destruct (find_covering_package_manifest_descriptor _ _);
    [|destruct (sources !! _) as [d|]]]; simpl; rewrite <- ?app_assoc; intros Hm; split_and!; try done; intros H;
    apply Hm; try done; by apply (Hpush d).
Qed.

Lemma validate_conflicts_ok roots sources :
  validate_package_manifest_conflicts roots sources = Ok tt ->
  forall key s p, sources !! key = Some s ->
    find_covering_package_manifest_descriptor key roots = Some p ->
    manifests_agree (pd_manifest p) (pd_manifest s).
Proof.
  unfold validate_package_manifest_conflicts. intros H key s p Hs Hp.
  apply elem_of_btree_map_iter in Hs. revert H.
  induction (btree_map_iter sources) as [|[k d] l IH]; simpl; [set_solver|].
  intros ([] & Hstep & Hrest)%result_bind_ok. apply elem_of_cons in Hs as [[= <- <-]|Hs]; [|by apply IH].
  rewrite Hp in Hstep. unfold validate_package_manifest_pair in Hstep.
  destruct (first_manifest_conflict _ _) eqn:E; [done|]. by apply manifest_conflict_None.
Qed.

(** The report of a scan.  Each file contributes at most one
    descriptor, in path order: a package manifest its own, an embedded manifest
    its own unless a package root covers the file; a covered embedded manifest is
    never reported, and the scan succeeds only when it agrees with the package
    that covers it.  The counters are the numbers of files and descriptors. *)
Theorem scan_report_exact files report :
  scan_files files = Ok report ->
  exists packages collection,
    collect_package_manifest_descriptors files = Ok packages /\
    collect_source_manifest_descriptors files = Ok collection /\
    let sources := smc_descriptors collection in
    let roots := collect_package_manifest_descriptors_by_root packages in
    sr_descriptors report = omap (reported packages roots sources) files /\
    sr_scanned_files report = Z.of_nat (length files) /\
    sr_matched_plugins report = saturated (length (sr_descriptors report)) /\
    (forall key s p, sources !! key = Some s ->
       find_covering_package_manifest_descriptor key roots = Some p ->
       manifests_agree (pd_manifest p) (pd_manifest s)).
Proof.
  unfold scan_files. intros (packages & Hp & (collection & Hc & ([] & Hv & Hr)%result_bind_ok)%result_bind_ok)%result_bind_ok.
  injection Hr as <-. exists packages, collection. split; [done|]. split; [done|]. cbn zeta.
  match goal with |- context [fold_left (report_file ?p ?r ?s) files ?init] =>
    destruct (report_files p r s files init) as (-> & -> & Hm) end.
  split; [done|]. split; [done|]. split; [|by apply validate_conflicts_ok].
  by rewrite Hm.
Qed.

(** ** The contract of reported manifests *)

(** What a descriptor of each dialect guarantees. *)
Definition dialect_contract (d : PluginDescriptor) : Prop :=
  let m := pd_manifest d in
  match pd_dialect d with
  | LoongPackageManifest =>
      pd_source_kind d = PackageManifest /\ pd_compatibility_mode d = CompatNative /\
      pm_api_version m = Some CURRENT_PLUGIN_MANIFEST_API_VERSION /\
      (exists v version, pm_version m = Some v /\ Version_parse v = Ok version) /\
      (forall k, starts_with RESERVED_PACKAGE_METADATA_PREFIX k = true -> pm_metadata m !! k = None)
  | LoongEmbeddedSource =>
      pd_source_kind d = EmbeddedSource /\ pd_compatibility_mode d = CompatNative /\
      (forall a, pm_api_version m = Some a -> a = CURRENT_PLUGIN_MANIFEST_API_VERSION) /\
      (forall v, pm_version m = Some v -> exists version, Version_parse v = Ok version)
  | OpenClawModernManifest =>
      pd_source_kind d = PackageManifest /\ pd_compatibility_mode d = OpenClawModern
  | OpenClawLegacyPackage =>
      pd_source_kind d = PackageManifest /\ pd_compatibility_mode d = OpenClawLegacy
  end.

Definition descriptor_valid (d : PluginDescriptor) : Prop :=
  dialect_contract d /\ claims_canonical (pm_slot_claims (pd_manifest d)).

Lemma validate_contract_ok m kind path :
  validate_plugin_manifest_contract m kind path = Ok tt ->
  (kind = PackageManifest -> is_Some (pm_api_version m) /\ is_Some (pm_version m)) /\
  (forall a, pm_api_version m = Some a -> a = CURRENT_PLUGIN_MANIFEST_API_VERSION) /\
  (forall v, pm_version m = Some v -> exists version, Version_parse v = Ok version).
Proof.
  unfold validate_plugin_manifest_contract. intros H.
  destruct (pm_api_version m) as [a|], kind, (pm_version m) as [v|]; cbn [is_some negb andb
    is_package_manifest_kind] in H; try discriminate H;
    apply result_bind_ok in H as ([] & Ha & H); try (destruct (decide (a <> _)) as [|Hdec] in Ha; [done|]);
    try (destruct (Version_parse v) as [version|] eqn:Hv; [|done]); split_and!; try done;
    intros ? [= <-]; eauto; by apply dec_stable.
Qed.

Lemma document_contract_ok doc path :
  validate_package_manifest_document_contract doc path = Ok tt ->
  forall k, starts_with RESERVED_PACKAGE_METADATA_PREFIX k = true -> mdoc_metadata doc !! k = None.
Proof.
  unfold validate_package_manifest_document_contract. intros H k Hk. ok_inv.
  destruct (metadata_version _); [done|]. destruct (find_first _ _) eqn:E; [done|].
  rewrite find_first_None, Forall_forall in E.
  destruct (mdoc_metadata doc !! k) as [v|] eqn:Hl; [|done].
  rewrite (E k) in Hk; [done|]. apply list_elem_of_fmap. exists (k, v). split; [done|].
  by apply elem_of_btree_map_iter.
Qed.

Lemma fill_version_reserved v md k :
  starts_with RESERVED_PACKAGE_METADATA_PREFIX k = true -> md !! k = None -> fill_version v md !! k = None.
Proof.
  intros Hk Hn. destruct v as [v|]; simpl; [|done]. destruct (md !! "version"); [done|].
  rewrite lookup_insert_ne; [done|]. intros <-. done.
Qed.

Lemma package_descriptor_valid path d :
  parse_package_manifest_descriptor path = Ok d -> descriptor_valid d.
Proof.
  unfold parse_package_manifest_descriptor, parse_package_manifest_file. intros H.
  ok_inv. simplify_eq. ok_inv. simplify_eq.
  repeat match goal with u : unit |- _ => destruct u end.
  match goal with H : validate_plugin_manifest_contract _ _ _ = Ok _ |- _ =>
    apply validate_contract_ok in H as (Hp & Ha & Hv) end.
  destruct (Hp eq_refl) as [[a Hapi] [v Hver]].
  split; [|apply normalize_slot_claims_canonical]. cbn -[normalize_plugin_manifest].
  split_and!; [done|done|by rewrite Hapi, (Ha _ Hapi)| |].
  - destruct (Hv _ Hver) as [version ?]. eauto.
  - intros k Hk. apply fill_version_reserved; [done|]. by eapply document_contract_ok.
Qed.

Lemma source_descriptor_valid path d :
  parse_source_manifest_descriptor path = Ok (Some d) -> descriptor_valid d.
Proof.
  unfold parse_source_manifest_descriptor. intros H. ok_inv. simplify_eq.
  destruct x0 as [m|]; [|done]. simpl in *. simplify_eq.
  match goal with H : parse_manifest_block _ _ = Ok _ |- _ => unfold parse_manifest_block in H; rename H into Hb end.
  destruct (manifest_block _) as [[block|]|]; [|done..]. ok_inv. simplify_eq.
  repeat match goal with u : unit |- _ => destruct u end.
  match goal with H : validate_plugin_manifest_contract _ _ _ = Ok _ |- _ =>
    apply validate_contract_ok in H as (_ & Ha & Hv) end.
  split; [|apply normalize_slot_claims_canonical]. cbn -[normalize_plugin_manifest]. auto.
Qed.

Lemma openclaw_descriptor_valid path d :
  parse_openclaw_manifest_descriptor path = Ok d -> descriptor_valid d.
Proof.
  unfold parse_openclaw_manifest_descriptor. intros H. ok_inv. simplify_eq.
  split; [done|apply normalize_slot_claims_canonical].
Qed.

Lemma legacy_descriptors_valid path known ds :
  parse_openclaw_legacy_package_descriptors path known = Ok ds -> Forall descriptor_valid ds.
Proof.
  unfold parse_openclaw_legacy_package_descriptors. intros H. ok_inv.
  destruct (opj_openclaw _); [|by simplify_eq]. ok_inv; simplify_eq; [done|].
  apply Forall_fmap, Forall_true. intros entry. split; [done|apply normalize_slot_claims_canonical].
Qed.

Definition descriptors_valid (m : gmap (list Component) PluginDescriptor) : Prop :=
  forall key d, m !! key = Some d -> descriptor_valid d.

Lemma descriptors_valid_insert m key d :
  descriptors_valid m -> descriptor_valid d -> descriptors_valid (<[key := d]> m).
Proof. intros Hm Hd k d'. rewrite lookup_insert. case_decide; [by intros [= <-]|apply Hm]. Qed.

Lemma collect_packages_valid files packages :
  collect_package_manifest_descriptors files = Ok packages -> descriptors_valid packages.
Proof.
  apply try_fold_rule; [done|]. intros m path m' _ Hm. unfold collect_package_manifest. intros H. ok_inv.
  - simplify_eq. apply descriptors_valid_insert; [done|by eapply package_descriptor_valid].
  - simplify_eq. apply descriptors_valid_insert; [done|by eapply openclaw_descriptor_valid].
  - simplify_eq. match goal with H : parse_openclaw_legacy_package_descriptors _ _ = Ok _ |- _ =>
      apply legacy_descriptors_valid in H; revert m Hm; induction H as [|d ds Hd _ IH]; intros m Hm; simpl; [done|] end.
    by apply IH, descriptors_valid_insert.
  - by simplify_eq.
Qed.

Lemma collect_sources_valid files collection :
  collect_source_manifest_descriptors files = Ok collection -> descriptors_valid (smc_descriptors collection).
Proof.
  apply (try_fold_rule (fun c => descriptors_valid (smc_descriptors c))); [done|].
  intros c path c' _ Hc. unfold collect_source_manifest. intros ([d|] & Hd & [= <-])%result_bind_ok; [|done].
  apply descriptors_valid_insert; [done|by eapply source_descriptor_valid].
Qed.

Lemma scan_files_valid files report :
  scan_files files = Ok report -> Forall descriptor_valid (sr_descriptors report).
Proof.
  unfold scan_files. intros (packages & Hp & (collection & Hc & ([] & _ & Hr)%result_bind_ok)%result_bind_ok)%result_bind_ok.
  injection Hr as <-.
  match goal with |- context [fold_left (report_file ?p ?r ?s) files ?init] =>
    destruct (report_files p r s files init) as (_ & -> & _) end.
  apply Forall_forall. intros d (path & _ & Hd)%list_elem_of_omap. unfold reported in Hd.
  destruct (packages !! _) eqn:E; [simplify_eq; by eapply collect_packages_valid|].
  destruct (find_covering_package_manifest_descriptor _ _); [done|]. by eapply collect_sources_valid.
Qed.

(** Every descriptor a scan reports satisfies the contract of its
    dialect: a native package manifest has the current api version, a version
    that parses and no host-reserved metadata key; an embedded one has no other
    api version and no version that does not parse; a foreign one is projected
    through its compatibility mode; and the slot claims of all are canonical. *)
Theorem scanned_manifests_valid fuel root report :
  scan_path fuel root = Some (Ok report) -> Forall descriptor_valid (sr_descriptors report).
Proof.
  unfold scan_path. destruct (fs_exists root); simpl; [|done].
  destruct (collect_files fuel root []) as [[files|e]|]; [|done..]. intros [= H]. by eapply scan_files_valid.
Qed.

(** ** Walking a directory *)

(** Directories nest to a finite depth: what a walk enters is deeper than where
    it is. *)
Definition finite_depth (depth : string -> nat) : Prop :=
  forall path entries child,
    fs_read_dir path = Ok entries -> Ok child ∈ entries ->
    fs_is_dir child = true -> should_skip_dir child = false -> depth child < depth path.

Lemma collect_entries_total collect path entries acc :
  (forall child acc, Ok child ∈ entries -> fs_is_dir child = true -> should_skip_dir child = false ->
     exists r, collect child acc = Some r) ->
  exists r, collect_entries collect path entries acc = Some r.
Proof.
  revert acc. induction entries as [|[child|e] entries IH]; intros acc H; simpl; [eauto| |eauto].
  assert (forall acc, exists r, collect_entries collect path entries acc = Some r) as IH'
    by (intros acc'; apply IH; intros; apply H; [set_solver|done..]).
  destruct (fs_is_dir child) eqn:Hd; [|destruct (fs_is_file child); apply IH'].
  destruct (should_skip_dir child) eqn:Hs; [apply IH'|].
  destruct (H child acc) as [[acc'|e] ->]; [set_solver|done|done|apply IH'|eauto].
Qed.

Lemma collect_files_total depth fuel path acc :
  finite_depth depth -> depth path < fuel -> exists r, collect_files fuel path acc = Some r.
Proof.
  intros Hd. revert path acc. induction fuel as [|fuel IH]; intros path acc Hf; [lia|]. simpl.
  destruct (fs_metadata_is_file path) as [[]|]; simpl; [eauto| |eauto].
  destruct (fs_read_dir path) as [entries|] eqn:E; simpl; [|eauto].
  apply collect_entries_total. intros child acc' Hin Hdir Hskip. apply IH.
  pose proof (Hd _ _ _ E Hin Hdir Hskip). lia.
Qed.

(** More fuel gives the same result. *)
Lemma collect_entries_more collect collect' path entries acc r :
  (forall child acc r, collect child acc = Some r -> collect' child acc = Some r) ->
  collect_entries collect path entries acc = Some r ->
  collect_entries collect' path entries acc = Some r.
Proof.
  intros Hc. revert acc. induction entries as [|[child|e] entries IH]; intros acc; simpl; [done| |done].
  destruct (fs_is_dir child); [|destruct (fs_is_file child); apply IH].
  destruct (should_skip_dir child); [apply IH|].
  destruct (collect child acc) as [[acc'|e]|] eqn:E; [| |done]; rewrite (Hc _ _ _ E); [apply IH|done].
Qed.

Lemma collect_files_more fuel fuel' path acc r :
  fuel <= fuel' -> collect_files fuel path acc = Some r -> collect_files fuel' path acc = Some r.
Proof.
  revert fuel' path acc r. induction fuel as [|fuel IH]; intros fuel' path acc r Hle; [done|].
  destruct fuel' as [|fuel']; [lia|]. simpl.
  destruct (fs_metadata_is_file path) as [[]|]; simpl; [done| |done].
  destruct (fs_read_dir path) as [entries|]; simpl; [|done].
  apply collect_entries_more. intros. apply IH; [lia|done].
Qed.

(** Where directories nest to a finite depth, scanning a
    root ends: with more fuel than the depth of the root there is a result, and
    more fuel gives the same result. *)
Theorem scan_terminates depth root :
  finite_depth depth ->
  exists r, forall fuel, depth root < fuel -> scan_path fuel root = Some r.
Proof.
  intros Hd. destruct (collect_files_total depth (S (depth root)) root [] Hd) as [r Hr]; [lia|].
  unfold scan_path. destruct (fs_exists root); simpl; [|eauto].
  exists (match r with Ok files => scan_files (merge_sort path_le files) | Err e => Err e end).
  intros fuel Hf. rewrite (collect_files_more (S (depth root)) fuel root [] r) by (done || lia).
  by destruct r.
Qed.
End facts.
