(* ===== verification/Work.v ===== *)
(** * The work queue

    [crates/contracts/src/work_types.rs] and
    [crates/app/src/work/repository.rs]: durable units of work in SQLite, leased
    to workers, retried with a growing delay, and ordered by dependencies.  The
    database is its three tables; the text of each SQL statement is translated
    ([WHERE], [SET], [ORDER BY]), a transaction is its body run on a copy of the
    tables that replaces them on commit.  Whether the database answers is a
    parameter of each call ([SqlIo]); the JSON columns are written and read by
    [serde_json], the class [WorkCodec]. *)

From S2P Require Import Prelude RustStr Contracts.

(** ** work_types.rs *)

Inductive WorkUnitKind : Type := Feature | Issue | Review | Ops.

Definition WorkUnitKind_as_str (k : WorkUnitKind) : string :=
  match k with Feature => "feature" | Issue => "issue" | Review => "review" | Ops => "ops" end.

Definition WorkUnitKind_parse (raw : string) : option WorkUnitKind :=
  let normalized := to_ascii_lowercase (trim raw) in
  if decide (normalized = "feature") then Some Feature else
  if decide (normalized = "issue") then Some Issue else
  if decide (normalized = "review") then Some Review else
  if decide (normalized = "ops") then Some Ops else None.

Inductive WorkSourceKind : Type := SourceManual | SourceDiscord | SourceGithub.

Definition WorkSourceKind_as_str (k : WorkSourceKind) : string :=
  match k with SourceManual => "manual" | SourceDiscord => "discord" | SourceGithub => "github" end.

Definition WorkSourceKind_parse (raw : string) : option WorkSourceKind :=
  let normalized := to_ascii_lowercase (trim raw) in
  if decide (normalized = "manual") then Some SourceManual else
  if decide (normalized = "discord") then Some SourceDiscord else
  if decide (normalized = "github") then Some SourceGithub else None.

Record WorkUnitSourceRef : Type := {
  sr_source_kind : WorkSourceKind;
  sr_project_id : option string;
  sr_channel_id : option string;
  sr_thread_id : option string;
  sr_message_id : option string;
  sr_external_ref : option string;
  sr_source_url : option string;
}.

Definition WorkUnitSourceRef_default : WorkUnitSourceRef := {|
  sr_source_kind := SourceManual; sr_project_id := None; sr_channel_id := None;
  sr_thread_id := None; sr_message_id := None; sr_external_ref := None; sr_source_url := None |}.

Inductive WorkUnitPriority : Type :=
| PriorityLow | PriorityNormal | PriorityHigh | PriorityCritical.

Definition WorkUnitPriority_as_str (p : WorkUnitPriority) : string :=
  match p with
  | PriorityLow => "low" | PriorityNormal => "normal"
  | PriorityHigh => "high" | PriorityCritical => "critical"
  end.

Definition WorkUnitPriority_parse (raw : string) : option WorkUnitPriority :=
  let normalized := to_ascii_lowercase (trim raw) in
  if decide (normalized = "low") then Some PriorityLow else
  if decide (normalized = "normal") then Some PriorityNormal else
  if decide (normalized = "high") then Some PriorityHigh else
  if decide (normalized = "critical") then Some PriorityCritical else None.

Inductive WorkUnitStatus : Type :=
| Captured
| Triaged
| Ready
| Leased
| Running
| WaitingExternal
| WaitingReview
| RetryPending
| WorkCompleted
| FailedTerminal
| Cancelled
| Archived.

#[export] Instance WorkUnitKind_eq_dec : EqDecision WorkUnitKind.
Proof. solve_decision. Defined.
#[export] Instance WorkUnitPriority_eq_dec : EqDecision WorkUnitPriority.
Proof. solve_decision. Defined.
#[export] Instance WorkUnitStatus_eq_dec : EqDecision WorkUnitStatus.
Proof. solve_decision. Defined.

Definition WorkUnitStatus_as_str (s : WorkUnitStatus) : string :=
  match s with
  | Captured => "captured"
  | Triaged => "triaged"
  | Ready => "ready"
  | Leased => "leased"
  | Running => "running"
  | WaitingExternal => "waiting_external"
  | WaitingReview => "waiting_review"
  | RetryPending => "retry_pending"
  | WorkCompleted => "completed"
  | FailedTerminal => "failed_terminal"
  | Cancelled => "cancelled"
  | Archived => "archived"
  end.

Definition WorkUnitStatus_parse (raw : string) : option WorkUnitStatus :=
  let normalized := to_ascii_lowercase (trim raw) in
  if decide (normalized = "captured") then Some Captured else
  if decide (normalized = "triaged") then Some Triaged else
  if decide (normalized = "ready") then Some Ready else
  if decide (normalized = "leased") then Some Leased else
  if decide (normalized = "running") then Some Running else
  if decide (normalized = "waiting_external") then Some WaitingExternal else
  if decide (normalized = "waiting_review") then Some WaitingReview else
  if decide (normalized = "retry_pending") then Some RetryPending else
  if decide (normalized = "completed") then Some WorkCompleted else
  if decide (normalized = "failed_terminal") then Some FailedTerminal else
  if decide (normalized = "cancelled") then Some Cancelled else
  if decide (normalized = "archived") then Some Archived else None.

Definition WorkUnitStatus_is_terminal (s : WorkUnitStatus) : bool :=
  match s with WorkCompleted | FailedTerminal | Cancelled | Archived => true | _ => false end.

Definition WorkUnitStatus_is_ready_for_lease (s : WorkUnitStatus) : bool :=
  match s with Ready | RetryPending => true | _ => false end.

Definition WorkUnitStatus_is_blocked (s : WorkUnitStatus) : bool :=
  match s with WaitingExternal | WaitingReview => true | _ => false end.

Record WorkUnitRetryPolicy : Type := {
  rp_max_attempts : Z;
  rp_initial_backoff_ms : Z;
  rp_max_backoff_ms : Z;
}.

Definition WorkUnitRetryPolicy_default : WorkUnitRetryPolicy := {|
  rp_max_attempts := 3; rp_initial_backoff_ms := 1000; rp_max_backoff_ms := 60000 |}.

Section records.
Context {J : SerdeJson}.

Record WorkUnitRecord : Type := {
  wu_work_unit_id : string;
  wu_kind : WorkUnitKind;
  wu_title : string;
  wu_description : string;
  wu_source_ref : WorkUnitSourceRef;
  wu_status : WorkUnitStatus;
  wu_priority : WorkUnitPriority;
  wu_assigned_to : option string;
  wu_retry_policy : WorkUnitRetryPolicy;
  wu_attempt_count : Z;
  wu_next_run_at_ms : Z;
  wu_last_error : option string;
  wu_blocking_reason : option string;
  wu_parent_work_unit_id : option string;
  wu_blocks_work_unit_ids : list string;
  wu_blocked_by_work_unit_ids : list string;
  wu_result_payload_json : option Value;
  wu_created_at_ms : Z;
  wu_updated_at_ms : Z;
  wu_archived_at_ms : option Z;
}.

Record WorkUnitLeaseRecord : Type := {
  wl_work_unit_id : string;
  wl_owner : string;
  wl_lease_version : Z;
  wl_acquired_at_ms : Z;
  wl_heartbeat_at_ms : Z;
  wl_expires_at_ms : Z;
}.

Record WorkUnitSnapshot : Type := {
  ws_work_unit : WorkUnitRecord;
  ws_lease : option WorkUnitLeaseRecord;
}.

Record WorkUnitEventRecord : Type := {
  we_sequence_id : Z;
  we_work_unit_id : string;
  we_event_kind : string;
  we_actor : option string;
  we_payload_json : Value;
  we_recorded_at_ms : Z;
}.
End records.

Record WorkRuntimeHealthSnapshot : Type := {
  rh_total_count : Z;
  rh_ready_count : Z;
  rh_leased_count : Z;
  rh_running_count : Z;
  rh_blocked_count : Z;
  rh_retry_pending_count : Z;
  rh_terminal_count : Z;
  rh_archived_count : Z;
  rh_expired_lease_count : Z;
}.

(** ** The tables *)

Record WorkUnitRow : Type := {
  wr_work_unit_id : string;
  wr_kind : string;
  wr_title : string;
  wr_description : string;
  wr_source_ref_json : string;
  wr_status : string;
  wr_priority : string;
  wr_priority_rank : Z;
  wr_retry_policy_json : string;
  wr_attempt_count : Z;
  wr_next_run_at_ms : Z;
  wr_last_error : option string;
  wr_blocking_reason : option string;
  wr_parent_work_unit_id : option string;
  wr_assigned_to : option string;
  wr_result_payload_json : option string;
  wr_lease_owner : option string;
  wr_lease_version : Z;
  wr_lease_acquired_at_ms : option Z;
  wr_lease_heartbeat_at_ms : option Z;
  wr_lease_expires_at_ms : option Z;
  wr_created_at_ms : Z;
  wr_updated_at_ms : Z;
  wr_archived_at_ms : option Z;
}.

(** [SET] of [acquire_next_ready_lease]. *)
Definition set_leased (owner : string) (version now_ms expires_at_ms : Z) (r : WorkUnitRow) : WorkUnitRow := {|
  wr_work_unit_id := wr_work_unit_id r;
  wr_kind := wr_kind r;
  wr_title := wr_title r;
  wr_description := wr_description r;
  wr_source_ref_json := wr_source_ref_json r;
  wr_status := WorkUnitStatus_as_str Leased;
  wr_priority := wr_priority r;
  wr_priority_rank := wr_priority_rank r;
  wr_retry_policy_json := wr_retry_policy_json r;
  wr_attempt_count := wr_attempt_count r + 1;
  wr_next_run_at_ms := wr_next_run_at_ms r;
  wr_last_error := wr_last_error r;
  wr_blocking_reason := wr_blocking_reason r;
  wr_parent_work_unit_id := wr_parent_work_unit_id r;
  wr_assigned_to := wr_assigned_to r;
  wr_result_payload_json := wr_result_payload_json r;
  wr_lease_owner := Some owner;
  wr_lease_version := version;
  wr_lease_acquired_at_ms := Some now_ms;
  wr_lease_heartbeat_at_ms := Some now_ms;
  wr_lease_expires_at_ms := Some expires_at_ms;
  wr_created_at_ms := wr_created_at_ms r;
  wr_updated_at_ms := now_ms;
  wr_archived_at_ms := wr_archived_at_ms r;
|}.

(** [SET] of [mark_leased_running]. *)
Definition set_running (now_ms : Z) (r : WorkUnitRow) : WorkUnitRow := {|
  wr_work_unit_id := wr_work_unit_id r;
  wr_kind := wr_kind r;
  wr_title := wr_title r;
  wr_description := wr_description r;
  wr_source_ref_json := wr_source_ref_json r;
  wr_status := WorkUnitStatus_as_str Running;
  wr_priority := wr_priority r;
  wr_priority_rank := wr_priority_rank r;
  wr_retry_policy_json := wr_retry_policy_json r;
  wr_attempt_count := wr_attempt_count r;
  wr_next_run_at_ms := wr_next_run_at_ms r;
  wr_last_error := wr_last_error r;
  wr_blocking_reason := wr_blocking_reason r;
  wr_parent_work_unit_id := wr_parent_work_unit_id r;
  wr_assigned_to := wr_assigned_to r;
  wr_result_payload_json := wr_result_payload_json r;
  wr_lease_owner := wr_lease_owner r;
  wr_lease_version := wr_lease_version r;
  wr_lease_acquired_at_ms := wr_lease_acquired_at_ms r;
  wr_lease_heartbeat_at_ms := wr_lease_heartbeat_at_ms r;
  wr_lease_expires_at_ms := wr_lease_expires_at_ms r;
  wr_created_at_ms := wr_created_at_ms r;
  wr_updated_at_ms := now_ms;
  wr_archived_at_ms := wr_archived_at_ms r;
|}.

(** [SET] of [heartbeat_lease]. *)
Definition set_heartbeat (now_ms expires_at_ms : Z) (r : WorkUnitRow) : WorkUnitRow := {|
  wr_work_unit_id := wr_work_unit_id r;
  wr_kind := wr_kind r;
  wr_title := wr_title r;
  wr_description := wr_description r;
  wr_source_ref_json := wr_source_ref_json r;
  wr_status := wr_status r;
  wr_priority := wr_priority r;
  wr_priority_rank := wr_priority_rank r;
  wr_retry_policy_json := wr_retry_policy_json r;
  wr_attempt_count := wr_attempt_count r;
  wr_next_run_at_ms := wr_next_run_at_ms r;
  wr_last_error := wr_last_error r;
  wr_blocking_reason := wr_blocking_reason r;
  wr_parent_work_unit_id := wr_parent_work_unit_id r;
  wr_assigned_to := wr_assigned_to r;
  wr_result_payload_json := wr_result_payload_json r;
  wr_lease_owner := wr_lease_owner r;
  wr_lease_version := wr_lease_version r;
  wr_lease_acquired_at_ms := wr_lease_acquired_at_ms r;
  wr_lease_heartbeat_at_ms := Some now_ms;
  wr_lease_expires_at_ms := Some expires_at_ms;
  wr_created_at_ms := wr_created_at_ms r;
  wr_updated_at_ms := now_ms;
  wr_archived_at_ms := wr_archived_at_ms r;
|}.

(** [SET] of [complete_work_unit]. *)
Definition set_completed (status : WorkUnitStatus) (next_run_at_ms : Z) (last_error result_payload_json : option string)
    (now_ms : Z) (r : WorkUnitRow) : WorkUnitRow := {|
  wr_work_unit_id := wr_work_unit_id r;
  wr_kind := wr_kind r;
  wr_title := wr_title r;
  wr_description := wr_description r;
  wr_source_ref_json := wr_source_ref_json r;
  wr_status := WorkUnitStatus_as_str status;
  wr_priority := wr_priority r;
  wr_priority_rank := wr_priority_rank r;
  wr_retry_policy_json := wr_retry_policy_json r;
  wr_attempt_count := wr_attempt_count r;
  wr_next_run_at_ms := next_run_at_ms;
  wr_last_error := last_error;
  wr_blocking_reason := None;
  wr_parent_work_unit_id := wr_parent_work_unit_id r;
  wr_assigned_to := wr_assigned_to r;
  wr_result_payload_json := result_payload_json;
  wr_lease_owner := None;
  wr_lease_version := wr_lease_version r;
  wr_lease_acquired_at_ms := None;
  wr_lease_heartbeat_at_ms := None;
  wr_lease_expires_at_ms := None;
  wr_created_at_ms := wr_created_at_ms r;
  wr_updated_at_ms := now_ms;
  wr_archived_at_ms := wr_archived_at_ms r;
|}.

(** [SET] of [recover_expired_leases]. *)
Definition set_recovered (status : WorkUnitStatus) (next_run_at_ms : Z) (last_error : option string)
    (now_ms : Z) (r : WorkUnitRow) : WorkUnitRow := {|
  wr_work_unit_id := wr_work_unit_id r;
  wr_kind := wr_kind r;
  wr_title := wr_title r;
  wr_description := wr_description r;
  wr_source_ref_json := wr_source_ref_json r;
  wr_status := WorkUnitStatus_as_str status;
  wr_priority := wr_priority r;
  wr_priority_rank := wr_priority_rank r;
  wr_retry_policy_json := wr_retry_policy_json r;
  wr_attempt_count := wr_attempt_count r;
  wr_next_run_at_ms := next_run_at_ms;
  wr_last_error := last_error;
  wr_blocking_reason := wr_blocking_reason r;
  wr_parent_work_unit_id := wr_parent_work_unit_id r;
  wr_assigned_to := wr_assigned_to r;
  wr_result_payload_json := wr_result_payload_json r;
  wr_lease_owner := None;
  wr_lease_version := wr_lease_version r;
  wr_lease_acquired_at_ms := None;
  wr_lease_heartbeat_at_ms := None;
  wr_lease_expires_at_ms := None;
  wr_created_at_ms := wr_created_at_ms r;
  wr_updated_at_ms := now_ms;
  wr_archived_at_ms := wr_archived_at_ms r;
|}.

(** [SET] of [archive_work_unit]. *)
Definition set_archived (now_ms : Z) (r : WorkUnitRow) : WorkUnitRow := {|
  wr_work_unit_id := wr_work_unit_id r;
  wr_kind := wr_kind r;
  wr_title := wr_title r;
  wr_description := wr_description r;
  wr_source_ref_json := wr_source_ref_json r;
  wr_status := WorkUnitStatus_as_str Archived;
  wr_priority := wr_priority r;
  wr_priority_rank := wr_priority_rank r;
  wr_retry_policy_json := wr_retry_policy_json r;
  wr_attempt_count := wr_attempt_count r;
  wr_next_run_at_ms := wr_next_run_at_ms r;
  wr_last_error := wr_last_error r;
  wr_blocking_reason := wr_blocking_reason r;
  wr_parent_work_unit_id := wr_parent_work_unit_id r;
  wr_assigned_to := wr_assigned_to r;
  wr_result_payload_json := wr_result_payload_json r;
  wr_lease_owner := wr_lease_owner r;
  wr_lease_version := wr_lease_version r;
  wr_lease_acquired_at_ms := wr_lease_acquired_at_ms r;
  wr_lease_heartbeat_at_ms := wr_lease_heartbeat_at_ms r;
  wr_lease_expires_at_ms := wr_lease_expires_at_ms r;
  wr_created_at_ms := wr_created_at_ms r;
  wr_updated_at_ms := now_ms;
  wr_archived_at_ms := Some now_ms;
|}.

(** [SET] of [update_work_unit]. *)
Definition set_fields (title description status priority : string) (priority_rank next_run_at_ms : Z)
    (blocking_reason : option string) (now_ms : Z) (r : WorkUnitRow) : WorkUnitRow := {|
  wr_work_unit_id := wr_work_unit_id r;
  wr_kind := wr_kind r;
  wr_title := title;
  wr_description := description;
  wr_source_ref_json := wr_source_ref_json r;
  wr_status := status;
  wr_priority := priority;
  wr_priority_rank := priority_rank;
  wr_retry_policy_json := wr_retry_policy_json r;
  wr_attempt_count := wr_attempt_count r;
  wr_next_run_at_ms := next_run_at_ms;
  wr_last_error := wr_last_error r;
  wr_blocking_reason := blocking_reason;
  wr_parent_work_unit_id := wr_parent_work_unit_id r;
  wr_assigned_to := wr_assigned_to r;
  wr_result_payload_json := wr_result_payload_json r;
  wr_lease_owner := wr_lease_owner r;
  wr_lease_version := wr_lease_version r;
  wr_lease_acquired_at_ms := wr_lease_acquired_at_ms r;
  wr_lease_heartbeat_at_ms := wr_lease_heartbeat_at_ms r;
  wr_lease_expires_at_ms := wr_lease_expires_at_ms r;
  wr_created_at_ms := wr_created_at_ms r;
  wr_updated_at_ms := now_ms;
  wr_archived_at_ms := wr_archived_at_ms r;
|}.

(** [SET] of [assign_work_unit]. *)
Definition set_assigned (assigned_to : option string) (now_ms : Z) (r : WorkUnitRow) : WorkUnitRow := {|
  wr_work_unit_id := wr_work_unit_id r;
  wr_kind := wr_kind r;
  wr_title := wr_title r;
  wr_description := wr_description r;
  wr_source_ref_json := wr_source_ref_json r;
  wr_status := wr_status r;
  wr_priority := wr_priority r;
  wr_priority_rank := wr_priority_rank r;
  wr_retry_policy_json := wr_retry_policy_json r;
  wr_attempt_count := wr_attempt_count r;
  wr_next_run_at_ms := wr_next_run_at_ms r;
  wr_last_error := wr_last_error r;
  wr_blocking_reason := wr_blocking_reason r;
  wr_parent_work_unit_id := wr_parent_work_unit_id r;
  wr_assigned_to := assigned_to;
  wr_result_payload_json := wr_result_payload_json r;
  wr_lease_owner := wr_lease_owner r;
  wr_lease_version := wr_lease_version r;
  wr_lease_acquired_at_ms := wr_lease_acquired_at_ms r;
  wr_lease_heartbeat_at_ms := wr_lease_heartbeat_at_ms r;
  wr_lease_expires_at_ms := wr_lease_expires_at_ms r;
  wr_created_at_ms := wr_created_at_ms r;
  wr_updated_at_ms := now_ms;
  wr_archived_at_ms := wr_archived_at_ms r;
|}.

(** [SET] of [touch_work_unit]. *)
Definition set_touched (now_ms : Z) (r : WorkUnitRow) : WorkUnitRow := {|
  wr_work_unit_id := wr_work_unit_id r;
  wr_kind := wr_kind r;
  wr_title := wr_title r;
  wr_description := wr_description r;
  wr_source_ref_json := wr_source_ref_json r;
  wr_status := wr_status r;
  wr_priority := wr_priority r;
  wr_priority_rank := wr_priority_rank r;
  wr_retry_policy_json := wr_retry_policy_json r;
  wr_attempt_count := wr_attempt_count r;
  wr_next_run_at_ms := wr_next_run_at_ms r;
  wr_last_error := wr_last_error r;
  wr_blocking_reason := wr_blocking_reason r;
  wr_parent_work_unit_id := wr_parent_work_unit_id r;
  wr_assigned_to := wr_assigned_to r;
  wr_result_payload_json := wr_result_payload_json r;
  wr_lease_owner := wr_lease_owner r;
  wr_lease_version := wr_lease_version r;
  wr_lease_acquired_at_ms := wr_lease_acquired_at_ms r;
  wr_lease_heartbeat_at_ms := wr_lease_heartbeat_at_ms r;
  wr_lease_expires_at_ms := wr_lease_expires_at_ms r;
  wr_created_at_ms := wr_created_at_ms r;
  wr_updated_at_ms := now_ms;
  wr_archived_at_ms := wr_archived_at_ms r;
|}.

(** A row of [work_unit_events]; ids are handed out in order and no row is ever
    deleted. *)
Record WorkUnitEventRow : Type := {
  er_id : Z;
  er_work_unit_id : string;
  er_event_kind : string;
  er_actor : option string;
  er_payload_json : string;
  er_recorded_at_ms : Z;
}.

(** [work_units] and [work_unit_dependencies] by primary key, the latter
    (blocking, blocked) to its time and author. *)
Record WorkDb : Type := {
  db_units : gmap string WorkUnitRow;
  db_deps : gmap (string * string) (Z * option string);
  db_events : list WorkUnitEventRow;
}.

Definition WorkDb_empty : WorkDb := {| db_units := ∅; db_deps := ∅; db_events := [] |}.

Definition db_set_units (u : gmap string WorkUnitRow) (db : WorkDb) : WorkDb :=
  {| db_units := u; db_deps := db_deps db; db_events := db_events db |}.
Definition db_set_deps (d : gmap (string * string) (Z * option string)) (db : WorkDb) : WorkDb :=
  {| db_units := db_units db; db_deps := d; db_events := db_events db |}.
Definition db_add_event (e : WorkUnitEventRow) (db : WorkDb) : WorkDb :=
  {| db_units := db_units db; db_deps := db_deps db; db_events := db_events db ++ [e] |}.

(** [UPDATE work_units SET ... WHERE work_unit_id = id AND ...]. *)
Definition sql_update (id : string) (where_ : WorkUnitRow -> bool) (set : WorkUnitRow -> WorkUnitRow)
    (db : WorkDb) : WorkDb :=
  match db_units db !! id with
  | Some r => if where_ r then db_set_units (<[id := set r]> (db_units db)) db else db
  | None => db
  end.

(** What the environment answers during one call: the clock, the random number
    of a fresh id, and whether each group of SQLite calls succeeds (an error is
    the text the code makes of it): opening the connection, opening the
    transaction, its reads, its writes to the units and dependencies, its event
    rows, the commit, and reading the unit back afterwards. *)
Record SqlIo : Type := {
  io_now_ms : Z;
  io_entropy : Z;
  io_open : result unit string;
  io_begin : result unit string;
  io_read : result unit string;
  io_write : result unit string;
  io_event : result unit string;
  io_commit : result unit string;
  io_reload : result unit string;
}.

(** How a transaction's body ends: committed, or dropped by an early return. *)
Inductive TxEnd (A : Type) : Type := TxCommit (a : A) | TxDrop (a : A).
Arguments TxCommit {A} _.
Arguments TxDrop {A} _.

(** A body's changes are kept only by a commit that succeeds: an error or an
    early return drops the transaction, which rolls it back. *)
Definition transaction {A} (io : SqlIo) (body : M WorkDb (result (TxEnd A) string))
  : M WorkDb (result A string) := fun db =>
  match io_open io, io_begin io with
  | Err e, _ => (Returned (Err e), db)
  | Ok _, Err e => (Returned (Err e), db)
  | Ok _, Ok _ =>
      match body db with
      | (Returned (Ok (TxCommit a)), db') =>
          match io_commit io with
          | Ok _ => (Returned (Ok a), db')
          | Err e => (Returned (Err e), db)
          end
      | (Returned (Ok (TxDrop a)), _) => (Returned (Ok a), db)
      | (Returned (Err e), _) => (Returned (Err e), db)
      | (Panicked p, _) => (Panicked p, db)
      end
  end.

(** ** Plain helpers of the repository *)

Definition i64_max : Z := 2 ^ 63 - 1.
Definition u32_max : Z := 2 ^ 32 - 1.
Definition i64_saturating_add (a b : Z) : Z := Z.max (- 2 ^ 63) (Z.min (a + b) i64_max).
Definition u64_saturating_mul (a b : Z) : Z := Z.min (a * b) u64_max.
Definition fmt_i64 (z : Z) : string :=
  if (z <? 0)%Z then "-" +:+ fmt_dec (- z) else fmt_dec z.
Definition int_conversion_error : string := "out of range integral type conversion attempted".

(** [i64_wrapping_add] on a version number, as [+] does in release. *)
Definition i64_wrapping_add (a b : Z) : Z := ((a + b + 2 ^ 63) mod 2 ^ 64 - 2 ^ 63)%Z.

Definition normalize_required_text (value field_name : string) : result string string :=
  let trimmed := trim value in
  if str_is_empty trimmed then Err ("work unit repository requires " +:+ field_name)
  else Ok trimmed.

Definition normalize_optional_text (value : option string) : option string :=
  match value with
  | Some raw => if str_is_empty (trim raw) then None else Some (trim raw)
  | None => None
  end.

Definition normalize_source_ref (s : WorkUnitSourceRef) : WorkUnitSourceRef := {|
  sr_source_kind := sr_source_kind s;
  sr_project_id := normalize_optional_text (sr_project_id s);
  sr_channel_id := normalize_optional_text (sr_channel_id s);
  sr_thread_id := normalize_optional_text (sr_thread_id s);
  sr_message_id := normalize_optional_text (sr_message_id s);
  sr_external_ref := normalize_optional_text (sr_external_ref s);
  sr_source_url := normalize_optional_text (sr_source_url s);
|}.

Definition normalize_limit (limit : Z) : result Z string :=
  if (limit =? 0)%Z then Err "work unit repository requires limit >= 1" else Ok limit.

Definition validate_ttl_ms (ttl_ms : Z) : result unit string :=
  if (ttl_ms =? 0)%Z then Err "work unit lease ttl_ms must be greater than zero" else Ok tt.

Definition validate_retry_policy (p : WorkUnitRetryPolicy) : result unit string :=
  if (rp_max_attempts p =? 0)%Z
  then Err "work unit retry policy requires max_attempts >= 1" else
  if (rp_initial_backoff_ms p =? 0)%Z
  then Err "work unit retry policy requires initial_backoff_ms >= 1" else
  if (rp_max_backoff_ms p <? rp_initial_backoff_ms p)%Z
  then Err "work unit retry policy requires max_backoff_ms >= initial_backoff_ms" else Ok tt.

Definition validate_initial_status (s : WorkUnitStatus) : result unit string :=
  match s with
  | Captured | Triaged | Ready | WaitingExternal | WaitingReview | RetryPending => Ok tt
  | _ => Err ("work unit repository does not allow initial status `"
               +:+ WorkUnitStatus_as_str s +:+ "`")
  end.

Definition validate_manual_update_status (current next : WorkUnitStatus) : result unit string :=
  let editable s :=
    match s with
    | Captured | Triaged | Ready | WaitingExternal | WaitingReview | RetryPending | Cancelled => true
    | _ => false
    end in
  if negb (editable next)
  then Err ("manual work unit update does not allow target status `"
             +:+ WorkUnitStatus_as_str next +:+ "`") else
  if negb (editable current)
  then Err ("manual work unit update cannot change status from `"
             +:+ WorkUnitStatus_as_str current +:+ "`") else Ok tt.

Definition priority_rank (p : WorkUnitPriority) : Z :=
  match p with
  | PriorityLow => 1 | PriorityNormal => 2 | PriorityHigh => 3 | PriorityCritical => 4
  end.

Definition generate_work_unit_id (entropy : Z) : string := "wu-" +:+ fmt_016x entropy.

Definition add_delay_ms (base_ms delay_ms : Z) : result Z string :=
  if (i64_max <? delay_ms)%Z then Err ("delay_ms overflowed i64: " +:+ int_conversion_error)
  else Ok (i64_saturating_add base_ms delay_ms).

(** The [while remaining_steps > 0] loop. *)
Fixpoint retry_delay_loop (max_backoff_ms : Z) (remaining_steps : nat) (delay_ms : Z) : Z :=
  match remaining_steps with
  | O => delay_ms
  | S remaining =>
      retry_delay_loop max_backoff_ms remaining
        (Z.min (u64_saturating_mul delay_ms 2) max_backoff_ms)
  end.

Definition compute_retry_delay_ms (p : WorkUnitRetryPolicy) (attempt_count : Z) : result Z string :=
  let* _ := validate_retry_policy p in
  Ok (retry_delay_loop (rp_max_backoff_ms p) (Z.to_nat (attempt_count - 1))
        (rp_initial_backoff_ms p)).

(** *** How an attempt ends *)

Inductive WorkUnitCompletionDisposition : Type :=
| DisposeCompleted
| DisposeRetryPending
| DisposeFailedTerminal
| DisposeCancelled.

Record CompletionResolution : Type := {
  cr_status : WorkUnitStatus;
  cr_next_run_at_ms : Z;
  cr_last_error : option string;
  cr_event_kind : string;
}.

Definition resolve_completion (disposition : WorkUnitCompletionDisposition)
    (retry_policy : WorkUnitRetryPolicy) (attempt_count now_ms : Z) (next_run_at_ms : option Z)
    (error : option string) : result CompletionResolution string :=
  match disposition with
  | DisposeCompleted => Ok {| cr_status := WorkCompleted; cr_next_run_at_ms := now_ms;
      cr_last_error := None; cr_event_kind := "work_unit_completed" |}
  | DisposeCancelled => Ok {| cr_status := Cancelled; cr_next_run_at_ms := now_ms;
      cr_last_error := error; cr_event_kind := "work_unit_cancelled" |}
  | DisposeFailedTerminal => Ok {| cr_status := FailedTerminal; cr_next_run_at_ms := now_ms;
      cr_last_error := error; cr_event_kind := "work_unit_failed_terminal" |}
  | DisposeRetryPending =>
      if (rp_max_attempts retry_policy <=? attempt_count)%Z
      then Ok {| cr_status := FailedTerminal; cr_next_run_at_ms := now_ms;
        cr_last_error := Some (default ("retry budget exhausted after "
          +:+ fmt_dec (rp_max_attempts retry_policy) +:+ " attempt(s)") error);
        cr_event_kind := "work_unit_failed_terminal" |}
      else
        let* computed :=
          match next_run_at_ms with
          | Some next => Ok next
          | None =>
              let* delay_ms := compute_retry_delay_ms retry_policy attempt_count in
              add_delay_ms now_ms delay_ms
          end in
        Ok {| cr_status := RetryPending; cr_next_run_at_ms := computed; cr_last_error := error;
              cr_event_kind := "work_unit_retry_scheduled" |}
  end.

Record RecoveryResolution : Type := {
  rr_status : WorkUnitStatus;
  rr_next_run_at_ms : Z;
  rr_last_error : option string;
}.

Definition resolve_recovery (retry_policy : WorkUnitRetryPolicy) (attempt_count now_ms : Z)
    (last_error : string) : result RecoveryResolution string :=
  if (rp_max_attempts retry_policy <=? attempt_count)%Z
  then Ok {| rr_status := FailedTerminal; rr_next_run_at_ms := now_ms;
             rr_last_error := Some last_error |}
  else
    let* delay_ms := compute_retry_delay_ms retry_policy attempt_count in
    let* next_run_at_ms := add_delay_ms now_ms delay_ms in
    Ok {| rr_status := RetryPending; rr_next_run_at_ms := next_run_at_ms;
          rr_last_error := Some last_error |}.

Definition build_expired_lease_error (r : WorkUnitRow) : result string string :=
  let* owner := ok_or (wr_lease_owner r) "expired lease recovery requires lease owner" in
  let* expires := ok_or (wr_lease_expires_at_ms r)
                    "expired lease recovery requires lease_expires_at_ms" in
  Ok ("lease expired for owner `" +:+ owner +:+ "` at " +:+ fmt_i64 expires).

(** [u32::try_from(raw_record.attempt_count)]. *)
Definition attempt_count_u32 (n : Z) : result Z string :=
  if ((n <? 0) || (u32_max <? n))%Z
  then Err ("attempt_count overflowed u32: " +:+ int_conversion_error) else Ok n.

(** ** JSON columns and event payloads

    [serde_json] again: building a payload from its parts ([json!]), and writing
    and reading the JSON columns. *)
Class WorkCodec `{J : SerdeJson} : Type := {
  json_null : Value;
  json_int : Z -> Value;
  json_array : list Value -> Value;
  json_source_ref : WorkUnitSourceRef -> Value;
  source_ref_to_string : WorkUnitSourceRef -> result string string;
  source_ref_from_str : string -> result WorkUnitSourceRef string;
  retry_policy_to_string : WorkUnitRetryPolicy -> result string string;
  retry_policy_from_str : string -> result WorkUnitRetryPolicy string;
  value_to_string : Value -> result string string;
  value_from_str : string -> result Value string;
}.

(** What [serde_json] documents for structs with string keys: writing succeeds,
    and reading a written struct gives it back. *)
Class WorkCodecLaws `{WorkCodec} : Prop := {
  source_ref_total : forall x, exists s, source_ref_to_string x = Ok s;
  source_ref_round_trip : forall x s, source_ref_to_string x = Ok s -> source_ref_from_str s = Ok x;
  retry_policy_total : forall x, exists s, retry_policy_to_string x = Ok s;
  retry_policy_round_trip : forall x s,
    retry_policy_to_string x = Ok s -> retry_policy_from_str s = Ok x;
  value_total : forall x, exists s, value_to_string x = Ok s;
}.

Section repository.
Context `{C : WorkCodec}.

(** [encode_json] and [decode_json] at the types they are used at. *)
Definition encode_error {A} (label : string) (r : result A string) : result A string :=
  map_err (fun error => "encode " +:+ label +:+ " failed: " +:+ error) r.
Definition decode_error {A} (label : string) (r : result A string) : result A string :=
  map_err (fun error => "decode " +:+ label +:+ " failed: " +:+ error) r.

Definition json_opt_str (o : option string) : Value :=
  match o with Some s => value_of_str s | None => json_null end.

(** *** Rows *)

(** [RawWorkUnitRecord]: the columns of a row and the two lists of relations. *)
Record RawWorkUnitRecord : Type := {
  raw_row : WorkUnitRow;
  raw_blocks_work_unit_ids : list string;
  raw_blocked_by_work_unit_ids : list string;
}.

(** [SELECT ... ORDER BY id ASC] on one end of the dependencies. *)
Definition load_blocked_work_unit_ids (db : WorkDb) (id : string) : list string :=
  merge_sort rust_le (omap (fun '((blocking, blocked), _) =>
    if decide (blocking = id) then Some blocked else None) (map_to_list (db_deps db))).

Definition load_blocking_work_unit_ids (db : WorkDb) (id : string) : list string :=
  merge_sort rust_le (omap (fun '((blocking, blocked), _) =>
    if decide (blocked = id) then Some blocking else None) (map_to_list (db_deps db))).

Definition hydrate_raw_work_unit_relationships (db : WorkDb) (r : WorkUnitRow)
  : RawWorkUnitRecord := {|
  raw_row := r;
  raw_blocks_work_unit_ids := load_blocked_work_unit_ids db (wr_work_unit_id r);
  raw_blocked_by_work_unit_ids := load_blocking_work_unit_ids db (wr_work_unit_id r);
|}.

Definition load_raw_work_unit_with_conn (read : result unit string) (id : string)
  : M WorkDb (result (option RawWorkUnitRecord) string) :=
  run? ret read in
  gets (fun db => Ok (hydrate_raw_work_unit_relationships db <$> db_units db !! id)).

Definition build_lease_record (r : WorkUnitRow) : result (option WorkUnitLeaseRecord) string :=
  match wr_lease_owner r with
  | None => Ok None
  | Some owner =>
      let* version :=
        (if (wr_lease_version r <? 0)%Z
         then Err ("lease_version overflowed u64: " +:+ int_conversion_error)
         else Ok (wr_lease_version r)) in
      let* acquired := ok_or (wr_lease_acquired_at_ms r)
                         "lease_owner set without lease_acquired_at_ms" in
      let* heartbeat := ok_or (wr_lease_heartbeat_at_ms r)
                          "lease_owner set without lease_heartbeat_at_ms" in
      let* expires := ok_or (wr_lease_expires_at_ms r)
                        "lease_owner set without lease_expires_at_ms" in
      Ok (Some {| wl_work_unit_id := wr_work_unit_id r; wl_owner := owner;
                  wl_lease_version := version; wl_acquired_at_ms := acquired;
                  wl_heartbeat_at_ms := heartbeat; wl_expires_at_ms := expires |})
  end.

Definition try_work_unit_snapshot_from_raw (raw : RawWorkUnitRecord)
  : result WorkUnitSnapshot string :=
  let r := raw_row raw in
  let* kind := ok_or (WorkUnitKind_parse (wr_kind r))
                 ("unknown work unit kind `" +:+ wr_kind r +:+ "`") in
  let* status := ok_or (WorkUnitStatus_parse (wr_status r))
                   ("unknown work unit status `" +:+ wr_status r +:+ "`") in
  let* priority := ok_or (WorkUnitPriority_parse (wr_priority r))
                     ("unknown work unit priority `" +:+ wr_priority r +:+ "`") in
  let* source_ref := decode_error "source_ref" (source_ref_from_str (wr_source_ref_json r)) in
  let* retry_policy := decode_error "retry_policy"
                         (retry_policy_from_str (wr_retry_policy_json r)) in
  let* attempt_count := attempt_count_u32 (wr_attempt_count r) in
  let* result_payload :=
    match wr_result_payload_json r with
    | Some text => let* v := decode_error "result_payload" (value_from_str text) in Ok (Some v)
    | None => Ok None
    end in
  let* lease := build_lease_record r in
  Ok {| ws_work_unit := {|
          wu_work_unit_id := wr_work_unit_id r;
          wu_kind := kind;
          wu_title := wr_title r;
          wu_description := wr_description r;
          wu_source_ref := source_ref;
          wu_status := status;
          wu_priority := priority;
          wu_assigned_to := wr_assigned_to r;
          wu_retry_policy := retry_policy;
          wu_attempt_count := attempt_count;
          wu_next_run_at_ms := wr_next_run_at_ms r;
          wu_last_error := wr_last_error r;
          wu_blocking_reason := wr_blocking_reason r;
          wu_parent_work_unit_id := wr_parent_work_unit_id r;
          wu_blocks_work_unit_ids := raw_blocks_work_unit_ids raw;
          wu_blocked_by_work_unit_ids := raw_blocked_by_work_unit_ids raw;
          wu_result_payload_json := result_payload;
          wu_created_at_ms := wr_created_at_ms r;
          wu_updated_at_ms := wr_updated_at_ms r;
          wu_archived_at_ms := wr_archived_at_ms r |};
        ws_lease := lease |}.

Definition load_work_unit_snapshot (open read : result unit string) (work_unit_id : string)
  : M WorkDb (result (option WorkUnitSnapshot) string) :=
  let? id := ret (normalize_required_text work_unit_id "work_unit_id") in
  run? ret open in
  let? raw := load_raw_work_unit_with_conn read id in
  match raw with
  | Some raw => ret (let* s := try_work_unit_snapshot_from_raw raw in Ok (Some s))
  | None => ret (Ok None)
  end.

(** [insert_event_in_tx]. *)
Definition insert_event_in_tx (io : SqlIo) (work_unit_id event_kind : string)
    (actor : option string) (payload : Value) (recorded_at_ms : Z)
  : M WorkDb (result WorkUnitEventRecord string) :=
  let? encoded := ret (encode_error "work unit event payload" (value_to_string payload)) in
  run? ret (io_event io) in
  let! id := gets (fun db => Z.of_nat (S (length (db_events db)))) in
  run! modify (db_add_event {| er_id := id; er_work_unit_id := work_unit_id;
          er_event_kind := event_kind; er_actor := actor; er_payload_json := encoded;
          er_recorded_at_ms := recorded_at_ms |}) in
  ret (Ok {| we_sequence_id := id; we_work_unit_id := work_unit_id; we_event_kind := event_kind;
             we_actor := actor; we_payload_json := payload; we_recorded_at_ms := recorded_at_ms |}).

(** An [UPDATE] of one unit in the transaction. *)
Definition update_unit (io : SqlIo) (id : string) (where_ : WorkUnitRow -> bool)
    (set : WorkUnitRow -> WorkUnitRow) : M WorkDb (result unit string) :=
  run? ret (io_write io) in
  run! modify (sql_update id where_ set) in
  ret (Ok tt).

Definition touch_work_unit (io : SqlIo) (id : string) (now_ms : Z) : M WorkDb (result unit string) :=
  update_unit io id (fun _ => true) (set_touched now_ms).

(** Reading the unit back after the commit. *)
Definition reload (io : SqlIo) (id : string)
  : M WorkDb (result (option WorkUnitSnapshot) string) :=
  load_work_unit_snapshot (io_reload io) (Ok tt) id.

(** *** Creation *)

Record NewWorkUnitRecord : Type := {
  nw_work_unit_id : option string;
  nw_kind : WorkUnitKind;
  nw_title : string;
  nw_description : string;
  nw_source_ref : WorkUnitSourceRef;
  nw_status : WorkUnitStatus;
  nw_priority : WorkUnitPriority;
  nw_retry_policy : WorkUnitRetryPolicy;
  nw_parent_work_unit_id : option string;
  nw_next_run_at_ms : option Z;
}.

(** [INSERT INTO work_units]: the primary key is taken or not. *)
Definition insert_unit (io : SqlIo) (row : WorkUnitRow) : M WorkDb (result unit string) :=
  run? ret (io_write io) in
  let! db := get in
  match db_units db !! wr_work_unit_id row with
  | Some _ => ret (Err ("insert work unit row failed: UNIQUE constraint failed: " +:+
                        "work_units.work_unit_id"))
  | None =>
      run! modify (db_set_units (<[wr_work_unit_id row := row]> (db_units db))) in
      ret (Ok tt)
  end.

Definition create_work_unit (io : SqlIo) (record : NewWorkUnitRecord) (actor : option string)
  : M WorkDb (result WorkUnitSnapshot string) :=
  run? ret (validate_initial_status (nw_status record)) in
  run? ret (validate_retry_policy (nw_retry_policy record)) in
  let? work_unit_id :=
    ret (match nw_work_unit_id record with
         | Some value => normalize_required_text value "work_unit_id"
         | None => Ok (generate_work_unit_id (io_entropy io))
         end) in
  let? title := ret (normalize_required_text (nw_title record) "title") in
  let? description := ret (normalize_required_text (nw_description record) "description") in
  let parent := normalize_optional_text (nw_parent_work_unit_id record) in
  let source_ref := normalize_source_ref (nw_source_ref record) in
  let? source_ref_json := ret (encode_error "source_ref" (source_ref_to_string source_ref)) in
  let? retry_policy_json :=
    ret (encode_error "retry_policy" (retry_policy_to_string (nw_retry_policy record))) in
  let now_ms := io_now_ms io in
  let next_run_at_ms := default now_ms (nw_next_run_at_ms record) in
  let actor := normalize_optional_text actor in
  run? transaction io (
    run? insert_unit io {|
      wr_work_unit_id := work_unit_id;
      wr_kind := WorkUnitKind_as_str (nw_kind record);
      wr_title := title;
      wr_description := description;
      wr_source_ref_json := source_ref_json;
      wr_status := WorkUnitStatus_as_str (nw_status record);
      wr_priority := WorkUnitPriority_as_str (nw_priority record);
      wr_priority_rank := priority_rank (nw_priority record);
      wr_retry_policy_json := retry_policy_json;
      wr_attempt_count := 0;
      wr_next_run_at_ms := next_run_at_ms;
      wr_last_error := None;
      wr_blocking_reason := None;
      wr_parent_work_unit_id := parent;
      wr_assigned_to := None;
      wr_result_payload_json := None;
      wr_lease_owner := None;
      wr_lease_version := 0;
      wr_lease_acquired_at_ms := None;
      wr_lease_heartbeat_at_ms := None;
      wr_lease_expires_at_ms := None;
      wr_created_at_ms := now_ms;
      wr_updated_at_ms := now_ms;
      wr_archived_at_ms := None |} in
    run? insert_event_in_tx io work_unit_id "work_unit_created" actor (json_object
      [("kind", value_of_str (WorkUnitKind_as_str (nw_kind record)));
       ("status", value_of_str (WorkUnitStatus_as_str (nw_status record)));
       ("priority", value_of_str (WorkUnitPriority_as_str (nw_priority record)));
       ("next_run_at_ms", json_int next_run_at_ms);
       ("source_ref", json_source_ref source_ref)]) now_ms in
    ret (Ok (TxCommit tt))) in
  let? snapshot := reload io work_unit_id in
  ret (ok_or snapshot ("work unit `" +:+ work_unit_id +:+ "` disappeared after insert")).

(** *** Leases *)

(** [status IN (...)] on the stored text. *)
Definition status_in (l : list WorkUnitStatus) (r : WorkUnitRow) : bool :=
  bool_decide (wr_status r ∈ WorkUnitStatus_as_str <$> l).

Definition unfinished (r : WorkUnitRow) : bool :=
  negb (status_in [WorkCompleted; FailedTerminal; Cancelled; Archived] r).

(** [EXISTS (SELECT 1 FROM dependencies JOIN work_units blockers ...)]. *)
Definition has_unfinished_blocker (db : WorkDb) (id : string) : bool :=
  existsb (fun '((blocking, blocked), _) =>
    bool_decide (blocked = id) &&
    match db_units db !! blocking with Some r => unfinished r | None => false end)
  (map_to_list (db_deps db)).

(** The conditions of the lease: those of the [UPDATE], then those of the
    [SELECT]. *)
Definition leasable (now_ms : Z) (r : WorkUnitRow) : bool :=
  status_in [Ready; RetryPending] r &&
  bool_decide (wr_archived_at_ms r = None) &&
  (wr_next_run_at_ms r <=? now_ms)%Z &&
  match wr_lease_expires_at_ms r with Some t => (t <=? now_ms)%Z | None => true end.

Definition eligible (db : WorkDb) (now_ms : Z) (r : WorkUnitRow) : bool :=
  leasable now_ms r && negb (has_unfinished_blocker db (wr_work_unit_id r)).

(** [ORDER BY priority_rank DESC, next_run_at_ms ASC, updated_at_ms ASC,
    work_unit_id ASC]. *)
Definition lease_order (a b : WorkUnitRow) : Prop :=
  (wr_priority_rank b < wr_priority_rank a)%Z \/
  wr_priority_rank a = wr_priority_rank b /\
  ((wr_next_run_at_ms a < wr_next_run_at_ms b)%Z \/
   wr_next_run_at_ms a = wr_next_run_at_ms b /\
   ((wr_updated_at_ms a < wr_updated_at_ms b)%Z \/
    wr_updated_at_ms a = wr_updated_at_ms b /\
    rust_le (wr_work_unit_id a) (wr_work_unit_id b))).

#[export] Instance lease_order_dec : RelDecision lease_order.
Proof. intros a b. unfold lease_order. apply _. Defined.

Definition select_next_ready_raw_work_unit (read : result unit string) (now_ms : Z)
  : M WorkDb (result (option RawWorkUnitRecord) string) :=
  run? ret read in
  gets (fun db => Ok (hydrate_raw_work_unit_relationships db <$>
    head (merge_sort lease_order
      (filter (fun r => eligible db now_ms r = true) (map_to_list (db_units db)).*2)))).

Record AcquireWorkUnitLeaseRequest : Type := {
  aq_owner : string;
  aq_ttl_ms : Z;
  aq_actor : option string;
  aq_now_ms : option Z;
}.

Definition acquire_next_ready_lease (io : SqlIo) (request : AcquireWorkUnitLeaseRequest)
  : M WorkDb (result (option WorkUnitSnapshot) string) :=
  let? owner := ret (normalize_required_text (aq_owner request) "owner") in
  run? ret (validate_ttl_ms (aq_ttl_ms request)) in
  let actor := normalize_optional_text (aq_actor request) in
  let now_ms := default (io_now_ms io) (aq_now_ms request) in
  let? expires_at_ms := ret (add_delay_ms now_ms (aq_ttl_ms request)) in
  let? leased := transaction io (
    let? selected := select_next_ready_raw_work_unit (io_read io) now_ms in
    match selected with
    | None => ret (Ok (TxDrop None))
    | Some raw =>
        let r := raw_row raw in
        let next_lease_version := i64_wrapping_add (wr_lease_version r) 1 in
        run? update_unit io (wr_work_unit_id r) (leasable now_ms)
               (set_leased owner next_lease_version now_ms expires_at_ms) in
        run? insert_event_in_tx io (wr_work_unit_id r) "work_unit_leased" actor (json_object
          [("owner", value_of_str owner);
           ("lease_version", json_int next_lease_version);
           ("previous_status", value_of_str (wr_status r));
           ("ttl_ms", json_int (aq_ttl_ms request));
           ("expires_at_ms", json_int expires_at_ms)]) now_ms in
        ret (Ok (TxCommit (Some (wr_work_unit_id r))))
    end) in
  match leased with
  | None => ret (Ok None)
  | Some id => reload io id
  end.

Record StartWorkUnitLeaseRequest : Type := {
  st_work_unit_id : string;
  st_owner : string;
  st_actor : option string;
  st_now_ms : option Z;
}.

Definition mark_leased_running (io : SqlIo) (request : StartWorkUnitLeaseRequest)
  : M WorkDb (result (option WorkUnitSnapshot) string) :=
  let? id := ret (normalize_required_text (st_work_unit_id request) "work_unit_id") in
  let? owner := ret (normalize_required_text (st_owner request) "owner") in
  let actor := normalize_optional_text (st_actor request) in
  let now_ms := default (io_now_ms io) (st_now_ms request) in
  let? started := transaction io (
    let? raw := load_raw_work_unit_with_conn (io_read io) id in
    match raw with
    | None => ret (Ok (TxDrop false))
    | Some raw =>
        let r := raw_row raw in
        if negb (status_in [Leased] r) then ret (Ok (TxDrop false)) else
        if negb (bool_decide (wr_lease_owner r = Some owner)) then ret (Ok (TxDrop false)) else
        run? update_unit io id
               (fun r => status_in [Leased] r && bool_decide (wr_lease_owner r = Some owner))
               (set_running now_ms) in
        run? insert_event_in_tx io id "work_unit_started" actor (json_object
          [("owner", value_of_str owner); ("previous_status", value_of_str (wr_status r))])
          now_ms in
        ret (Ok (TxCommit true))
    end) in
  if (started : bool) then reload io id else ret (Ok None).

Record WorkUnitHeartbeatRequest : Type := {
  hb_work_unit_id : string;
  hb_owner : string;
  hb_ttl_ms : Z;
  hb_actor : option string;
  hb_now_ms : option Z;
}.

Definition heartbeat_lease (io : SqlIo) (request : WorkUnitHeartbeatRequest)
  : M WorkDb (result (option WorkUnitSnapshot) string) :=
  let? id := ret (normalize_required_text (hb_work_unit_id request) "work_unit_id") in
  let? owner := ret (normalize_required_text (hb_owner request) "owner") in
  run? ret (validate_ttl_ms (hb_ttl_ms request)) in
  let actor := normalize_optional_text (hb_actor request) in
  let now_ms := default (io_now_ms io) (hb_now_ms request) in
  let? expires_at_ms := ret (add_delay_ms now_ms (hb_ttl_ms request)) in
  let? beat := transaction io (
    let? raw := load_raw_work_unit_with_conn (io_read io) id in
    match raw with
    | None => ret (Ok (TxDrop false))
    | Some raw =>
        let r := raw_row raw in
        if negb (status_in [Leased] r) && negb (status_in [Running] r)
        then ret (Ok (TxDrop false)) else
        if negb (bool_decide (wr_lease_owner r = Some owner)) then ret (Ok (TxDrop false)) else
        run? update_unit io id
               (fun r => bool_decide (wr_lease_owner r = Some owner) && status_in [Leased; Running] r)
               (set_heartbeat now_ms expires_at_ms) in
        run? insert_event_in_tx io id "work_unit_heartbeat" actor (json_object
          [("owner", value_of_str owner); ("ttl_ms", json_int (hb_ttl_ms request));
           ("expires_at_ms", json_int expires_at_ms)]) now_ms in
        ret (Ok (TxCommit true))
    end) in
  if (beat : bool) then reload io id else ret (Ok None).

Record CompleteWorkUnitRequest : Type := {
  cp_work_unit_id : string;
  cp_owner : string;
  cp_disposition : WorkUnitCompletionDisposition;
  cp_actor : option string;
  cp_now_ms : option Z;
  cp_next_run_at_ms : option Z;
  cp_result_payload_json : option Value;
  cp_error : option string;
}.

Definition complete_work_unit (io : SqlIo) (request : CompleteWorkUnitRequest)
  : M WorkDb (result (option WorkUnitSnapshot) string) :=
  let? id := ret (normalize_required_text (cp_work_unit_id request) "work_unit_id") in
  let? owner := ret (normalize_required_text (cp_owner request) "owner") in
  let actor := normalize_optional_text (cp_actor request) in
  let now_ms := default (io_now_ms io) (cp_now_ms request) in
  let? completed := transaction io (
    let? raw := load_raw_work_unit_with_conn (io_read io) id in
    match raw with
    | None => ret (Ok (TxDrop false))
    | Some raw =>
        let r := raw_row raw in
        if negb (status_in [Leased] r) && negb (status_in [Running] r)
        then ret (Ok (TxDrop false)) else
        if negb (bool_decide (wr_lease_owner r = Some owner)) then ret (Ok (TxDrop false)) else
        let? retry_policy :=
          ret (decode_error "retry policy" (retry_policy_from_str (wr_retry_policy_json r))) in
        let? attempt_count := ret (attempt_count_u32 (wr_attempt_count r)) in
        let error := normalize_optional_text (cp_error request) in
        let? result_payload :=
          ret (match cp_result_payload_json request with
               | Some v => let* s := encode_error "result_payload" (value_to_string v) in Ok (Some s)
               | None => Ok None
               end) in
        let? completion := ret (resolve_completion (cp_disposition request) retry_policy
                                  attempt_count now_ms (cp_next_run_at_ms request) error) in
        run? update_unit io id
               (fun r => bool_decide (wr_lease_owner r = Some owner) && status_in [Leased; Running] r)
               (set_completed (cr_status completion) (cr_next_run_at_ms completion)
                  (cr_last_error completion) result_payload now_ms) in
        run? insert_event_in_tx io id (cr_event_kind completion) actor (json_object
          [("owner", value_of_str owner);
           ("previous_status", value_of_str (wr_status r));
           ("next_status", value_of_str (WorkUnitStatus_as_str (cr_status completion)));
           ("next_run_at_ms", json_int (cr_next_run_at_ms completion));
           ("last_error", json_opt_str (cr_last_error completion));
           ("attempt_count", json_int attempt_count)]) now_ms in
        ret (Ok (TxCommit true))
    end) in
  if (completed : bool) then reload io id else ret (Ok None).

(** [load_expired_raw_work_units_with_conn]. *)
Definition lease_expired (now_ms : Z) (r : WorkUnitRow) : bool :=
  status_in [Leased; Running] r &&
  match wr_lease_expires_at_ms r with Some t => (t <? now_ms)%Z | None => false end.

(** [ORDER BY lease_expires_at_ms ASC, work_unit_id ASC]; the column is not null
    on the rows selected. *)
Definition expiry_order (a b : WorkUnitRow) : Prop :=
  let t r := default 0%Z (wr_lease_expires_at_ms r) in
  (t a < t b)%Z \/ t a = t b /\ rust_le (wr_work_unit_id a) (wr_work_unit_id b).

#[export] Instance expiry_order_dec : RelDecision expiry_order.
Proof. intros a b. unfold expiry_order. apply _. Defined.

Definition load_expired_raw_work_units_with_conn (read : result unit string) (now_ms : Z)
  : M WorkDb (result (list RawWorkUnitRecord) string) :=
  run? ret read in
  gets (fun db => Ok (hydrate_raw_work_unit_relationships db <$>
    merge_sort expiry_order
      (filter (fun r => lease_expired now_ms r = true) (map_to_list (db_units db)).*2))).

(** The loop's body. *)
Definition recover_one (io : SqlIo) (actor : option string) (now_ms : Z) (r : WorkUnitRow)
  : M WorkDb (result string string) :=
  let? retry_policy :=
    ret (decode_error "retry policy" (retry_policy_from_str (wr_retry_policy_json r))) in
  let? attempt_count := ret (attempt_count_u32 (wr_attempt_count r)) in
  let? expiration_error := ret (build_expired_lease_error r) in
  let? recovery := ret (resolve_recovery retry_policy attempt_count now_ms expiration_error) in
  run? update_unit io (wr_work_unit_id r) (lease_expired now_ms)
         (set_recovered (rr_status recovery) (rr_next_run_at_ms recovery) (rr_last_error recovery)
            now_ms) in
  run? insert_event_in_tx io (wr_work_unit_id r) "work_unit_lease_expired_recovered" actor
    (json_object
      [("previous_owner", json_opt_str (wr_lease_owner r));
       ("previous_status", value_of_str (wr_status r));
       ("next_status", value_of_str (WorkUnitStatus_as_str (rr_status recovery)));
       ("next_run_at_ms", json_int (rr_next_run_at_ms recovery));
       ("last_error", json_opt_str (rr_last_error recovery));
       ("attempt_count", json_int attempt_count)]) now_ms in
  ret (Ok (wr_work_unit_id r)).

Fixpoint recover_all (io : SqlIo) (actor : option string) (now_ms : Z) (rows : list WorkUnitRow)
  : M WorkDb (result (list string) string) :=
  match rows with
  | [] => ret (Ok [])
  | r :: rows =>
      let? id := recover_one io actor now_ms r in
      let? ids := recover_all io actor now_ms rows in
      ret (Ok (id :: ids))
  end.

Fixpoint reload_all (io : SqlIo) (ids : list string)
  : M WorkDb (result (list WorkUnitSnapshot) string) :=
  match ids with
  | [] => ret (Ok [])
  | id :: ids =>
      let? found := reload io id in
      let? snapshot := ret (ok_or found ("recovered work unit `" +:+ id +:+ "` disappeared")) in
      let? rest := reload_all io ids in
      ret (Ok (snapshot :: rest))
  end.

Definition recover_expired_leases (io : SqlIo) (actor : option string) (now : option Z)
  : M WorkDb (result (list WorkUnitSnapshot) string) :=
  let actor := normalize_optional_text actor in
  let now_ms := default (io_now_ms io) now in
  let? ids := transaction io (
    let? expired := load_expired_raw_work_units_with_conn (io_read io) now_ms in
    let? ids := recover_all io actor now_ms (raw_row <$> expired) in
    ret (Ok (TxCommit ids))) in
  reload_all io ids.

(** *** Editing *)

Record ArchiveWorkUnitRequest : Type := {
  ar_work_unit_id : string;
  ar_actor : option string;
  ar_now_ms : option Z;
}.

Definition archive_work_unit (io : SqlIo) (request : ArchiveWorkUnitRequest)
  : M WorkDb (result (option WorkUnitSnapshot) string) :=
  let? id := ret (normalize_required_text (ar_work_unit_id request) "work_unit_id") in
  let actor := normalize_optional_text (ar_actor request) in
  let now_ms := default (io_now_ms io) (ar_now_ms request) in
  let? archived := transaction io (
    let? raw := load_raw_work_unit_with_conn (io_read io) id in
    match raw with
    | None => ret (Ok (TxDrop false))
    | Some raw =>
        let r := raw_row raw in
        let? current := ret (ok_or (WorkUnitStatus_parse (wr_status r))
                               ("unknown work unit status `" +:+ wr_status r +:+ "`")) in
        if negb (WorkUnitStatus_is_terminal current) then ret (Ok (TxDrop false)) else
        if negb (bool_decide (wr_archived_at_ms r = None)) then ret (Ok (TxDrop false)) else
        run? update_unit io id (fun r => bool_decide (wr_archived_at_ms r = None))
               (set_archived now_ms) in
        run? insert_event_in_tx io id "work_unit_archived" actor (json_object
          [("previous_status", value_of_str (wr_status r)); ("archived_at_ms", json_int now_ms)])
          now_ms in
        ret (Ok (TxCommit true))
    end) in
  if (archived : bool) then reload io id else ret (Ok None).

Record UpdateWorkUnitRequest : Type := {
  up_work_unit_id : string;
  up_title : option string;
  up_description : option string;
  up_status : option WorkUnitStatus;
  up_priority : option WorkUnitPriority;
  up_next_run_at_ms : option Z;
  up_blocking_reason : option string;
  up_clear_blocking_reason : bool;
  up_actor : option string;
  up_now_ms : option Z;
}.

(** A requested text, or the stored one. *)
Definition requested_text (requested : option string) (field stored : string)
  : result string string :=
  match requested with Some t => normalize_required_text t field | None => Ok stored end.

Definition requested_status (requested : option WorkUnitStatus) (current : WorkUnitStatus)
    (stored : string) : result string string :=
  match requested with
  | Some s =>
      let* _ := validate_manual_update_status current s in Ok (WorkUnitStatus_as_str s)
  | None => Ok stored
  end.

Definition requested_blocking_reason (request : UpdateWorkUnitRequest) (stored : option string)
  : option string :=
  if up_clear_blocking_reason request then None
  else normalize_optional_text
         match up_blocking_reason request with Some t => Some t | None => stored end.

(** The columns an update writes and the names it logs. *)
Definition changed_fields (r r' : WorkUnitRow) : list string :=
  (if decide (wr_title r' = wr_title r) then [] else ["title"]) ++
  (if decide (wr_description r' = wr_description r) then [] else ["description"]) ++
  (if decide (wr_status r' = wr_status r) then [] else ["status"]) ++
  (if decide (wr_priority r' = wr_priority r) then [] else ["priority"]) ++
  (if decide (wr_next_run_at_ms r' = wr_next_run_at_ms r) then [] else ["next_run_at_ms"]) ++
  (if decide (wr_blocking_reason r' = wr_blocking_reason r) then [] else ["blocking_reason"]).

Definition editable_columns (r : WorkUnitRow) : Value := json_object
  [("title", value_of_str (wr_title r));
   ("description", value_of_str (wr_description r));
   ("status", value_of_str (wr_status r));
   ("priority", value_of_str (wr_priority r));
   ("next_run_at_ms", json_int (wr_next_run_at_ms r));
   ("blocking_reason", json_opt_str (wr_blocking_reason r))].

Definition update_work_unit (io : SqlIo) (request : UpdateWorkUnitRequest)
  : M WorkDb (result (option WorkUnitSnapshot) string) :=
  let? id := ret (normalize_required_text (up_work_unit_id request) "work_unit_id") in
  let actor := normalize_optional_text (up_actor request) in
  let now_ms := default (io_now_ms io) (up_now_ms request) in
  let? updated := transaction io (
    let? raw := load_raw_work_unit_with_conn (io_read io) id in
    match raw with
    | None => ret (Ok (TxDrop false))
    | Some raw =>
        let r := raw_row raw in
        if negb (bool_decide (wr_archived_at_ms r = None)) then ret (Ok (TxDrop false)) else
        let? current := ret (ok_or (WorkUnitStatus_parse (wr_status r))
                               ("unknown work unit status `" +:+ wr_status r +:+ "`")) in
        let? title := ret (requested_text (up_title request) "title" (wr_title r)) in
        let? description :=
          ret (requested_text (up_description request) "description" (wr_description r)) in
        let? status := ret (requested_status (up_status request) current (wr_status r)) in
        let priority :=
          match up_priority request with
          | Some p => WorkUnitPriority_as_str p
          | None => wr_priority r
          end in
        let? parsed := ret (ok_or (WorkUnitPriority_parse priority)
                              ("unknown work unit priority `" +:+ priority +:+ "`")) in
        let next_run_at_ms := default (wr_next_run_at_ms r) (up_next_run_at_ms request) in
        let blocking_reason := requested_blocking_reason request (wr_blocking_reason r) in
        let set := set_fields title description status priority (priority_rank parsed)
                     next_run_at_ms blocking_reason now_ms in
        let changed := changed_fields r (set r) in
        if decide (changed = []) then ret (Ok (TxCommit true)) else
        run? update_unit io id (fun r => bool_decide (wr_archived_at_ms r = None)) set in
        run? insert_event_in_tx io id "work_unit_updated" actor (json_object
          [("changed_fields", json_array (value_of_str <$> changed));
           ("previous", editable_columns r); ("current", editable_columns (set r))]) now_ms in
        ret (Ok (TxCommit true))
    end) in
  if (updated : bool) then reload io id else ret (Ok None).

Record AssignWorkUnitRequest : Type := {
  as_work_unit_id : string;
  as_assigned_to : option string;
  as_actor : option string;
  as_now_ms : option Z;
}.

Definition assign_work_unit (io : SqlIo) (request : AssignWorkUnitRequest)
  : M WorkDb (result (option WorkUnitSnapshot) string) :=
  let? id := ret (normalize_required_text (as_work_unit_id request) "work_unit_id") in
  let assigned_to := normalize_optional_text (as_assigned_to request) in
  let actor := normalize_optional_text (as_actor request) in
  let now_ms := default (io_now_ms io) (as_now_ms request) in
  let? assigned := transaction io (
    let? raw := load_raw_work_unit_with_conn (io_read io) id in
    match raw with
    | None => ret (Ok (TxDrop false))
    | Some raw =>
        let r := raw_row raw in
        if negb (bool_decide (wr_archived_at_ms r = None)) then ret (Ok (TxDrop false)) else
        if decide (wr_assigned_to r = assigned_to) then ret (Ok (TxCommit true)) else
        run? update_unit io id (fun r => bool_decide (wr_archived_at_ms r = None))
               (set_assigned assigned_to now_ms) in
        run? insert_event_in_tx io id "work_unit_assigned" actor (json_object
          [("previous_assigned_to", json_opt_str (wr_assigned_to r));
           ("assigned_to", json_opt_str assigned_to)]) now_ms in
        ret (Ok (TxCommit true))
    end) in
  if (assigned : bool) then reload io id else ret (Ok None).

Record AppendWorkUnitNoteRequest : Type := {
  an_work_unit_id : string;
  an_actor : option string;
  an_note : string;
  an_now_ms : option Z;
}.

Definition append_note (io : SqlIo) (request : AppendWorkUnitNoteRequest)
  : M WorkDb (result (option WorkUnitEventRecord) string) :=
  let? id := ret (normalize_required_text (an_work_unit_id request) "work_unit_id") in
  let? note := ret (normalize_required_text (an_note request) "note") in
  let actor := normalize_optional_text (an_actor request) in
  let now_ms := default (io_now_ms io) (an_now_ms request) in
  transaction io (
    let? raw := load_raw_work_unit_with_conn (io_read io) id in
    match raw with
    | None => ret (Ok (TxDrop None))
    | Some raw =>
        if negb (bool_decide (wr_archived_at_ms (raw_row raw) = None))
        then ret (Ok (TxDrop None)) else
        run? touch_work_unit io id now_ms in
        let? event := insert_event_in_tx io id "work_unit_note_added" actor
                        (json_object [("note", value_of_str note)]) now_ms in
        ret (Ok (TxCommit (Some event)))
    end).

(** *** Dependencies *)

Definition validate_dependency_endpoints (blocking blocked : string) : result unit string :=
  if decide (blocking = blocked)
  then Err "work unit dependency cannot target the same work unit" else Ok tt.

Definition ensure_work_unit_exists (io : SqlIo) (id : string) : M WorkDb (result unit string) :=
  run? ret (io_read io) in
  gets (fun db => match db_units db !! id with
                  | Some _ => Ok tt
                  | None => Err ("work unit `" +:+ id +:+ "` not found")
                  end).

(** The units directly blocked by one of a set: one round of the recursive
    query. *)
Definition blocked_by (deps : gmap (string * string) (Z * option string)) (s : gset string)
  : gset string :=
  list_to_set (omap (fun '((blocking, blocked), _) =>
    if decide (blocking ∈ s) then Some blocked else None) (map_to_list deps)).

(** [WITH RECURSIVE dependency_chain ... UNION ...]: rounds until nothing is new;
    every round before the last adds a blocked unit, so there are at most as many
    as dependencies. *)
Fixpoint dependency_rounds (deps : gmap (string * string) (Z * option string)) (n : nat)
    (s : gset string) : gset string :=
  match n with
  | O => s
  | S n => dependency_rounds deps n (s ∪ blocked_by deps s)
  end.

Definition dependency_chain (deps : gmap (string * string) (Z * option string)) (id : string)
  : gset string := dependency_rounds deps (size deps) (blocked_by deps {[id]}).

Definition would_create_dependency_cycle (io : SqlIo) (blocking blocked : string)
  : M WorkDb (result bool string) :=
  run? ret (io_read io) in
  gets (fun db => Ok (bool_decide (blocking ∈ dependency_chain (db_deps db) blocked))).

Record WorkUnitDependencyRequest : Type := {
  dp_blocking_work_unit_id : string;
  dp_blocked_work_unit_id : string;
  dp_actor : option string;
  dp_now_ms : option Z;
}.

Definition dependency_payload (blocking blocked : string) : Value := json_object
  [("blocking_work_unit_id", value_of_str blocking); ("blocked_work_unit_id", value_of_str blocked)].

Definition add_dependency (io : SqlIo) (request : WorkUnitDependencyRequest)
  : M WorkDb (result (option WorkUnitSnapshot) string) :=
  let? blocking := ret (normalize_required_text (dp_blocking_work_unit_id request)
                          "blocking_work_unit_id") in
  let? blocked := ret (normalize_required_text (dp_blocked_work_unit_id request)
                         "blocked_work_unit_id") in
  let actor := normalize_optional_text (dp_actor request) in
  let now_ms := default (io_now_ms io) (dp_now_ms request) in
  run? ret (validate_dependency_endpoints blocking blocked) in
  run? transaction io (
    run? ensure_work_unit_exists io blocking in
    run? ensure_work_unit_exists io blocked in
    let? creates_cycle := would_create_dependency_cycle io blocking blocked in
    if (creates_cycle : bool)
    then ret (Err ("work unit dependency would create a cycle: `" +:+ blocking +:+ "` -> `"
                   +:+ blocked +:+ "`")) else
    run? ret (io_write io) in
    let! db := get in
    match db_deps db !! (blocking, blocked) with
    | Some _ => ret (Ok (TxCommit tt))
    | None =>
        run! modify (db_set_deps (<[(blocking, blocked) := (now_ms, actor)]> (db_deps db))) in
        run? touch_work_unit io blocked now_ms in
        run? insert_event_in_tx io blocked "work_unit_dependency_added" actor
               (dependency_payload blocking blocked) now_ms in
        ret (Ok (TxCommit tt))
    end) in
  reload io blocked.

Definition remove_dependency (io : SqlIo) (request : WorkUnitDependencyRequest)
  : M WorkDb (result (option WorkUnitSnapshot) string) :=
  let? blocking := ret (normalize_required_text (dp_blocking_work_unit_id request)
                          "blocking_work_unit_id") in
  let? blocked := ret (normalize_required_text (dp_blocked_work_unit_id request)
                         "blocked_work_unit_id") in
  let actor := normalize_optional_text (dp_actor request) in
  let now_ms := default (io_now_ms io) (dp_now_ms request) in
  run? ret (validate_dependency_endpoints blocking blocked) in
  let? found := transaction io (
    let? raw := load_raw_work_unit_with_conn (io_read io) blocked in
    match raw with
    | None => ret (Ok (TxDrop false))
    | Some _ =>
        run? ret (io_write io) in
        let! db := get in
        match db_deps db !! (blocking, blocked) with
        | None => ret (Ok (TxCommit true))
        | Some _ =>
            run! modify (db_set_deps (delete (blocking, blocked) (db_deps db))) in
            run? touch_work_unit io blocked now_ms in
            run? insert_event_in_tx io blocked "work_unit_dependency_removed" actor
                   (dependency_payload blocking blocked) now_ms in
            ret (Ok (TxCommit true))
        end
    end) in
  if (found : bool) then reload io blocked else ret (Ok None).

(** *** Queries *)

Record WorkUnitListQuery : Type := {
  lq_status : option WorkUnitStatus;
  lq_include_archived : bool;
  lq_limit : Z;
}.

Definition WorkUnitListQuery_default : WorkUnitListQuery := {|
  lq_status := None; lq_include_archived := false; lq_limit := 100 |}.

(** [ORDER BY priority_rank DESC, next_run_at_ms ASC, updated_at_ms DESC,
    work_unit_id ASC]. *)
Definition list_order (a b : WorkUnitRow) : Prop :=
  (wr_priority_rank b < wr_priority_rank a)%Z \/
  wr_priority_rank a = wr_priority_rank b /\
  ((wr_next_run_at_ms a < wr_next_run_at_ms b)%Z \/
   wr_next_run_at_ms a = wr_next_run_at_ms b /\
   ((wr_updated_at_ms b < wr_updated_at_ms a)%Z \/
    wr_updated_at_ms a = wr_updated_at_ms b /\
    rust_le (wr_work_unit_id a) (wr_work_unit_id b))).

#[export] Instance list_order_dec : RelDecision list_order.
Proof. intros a b. unfold list_order. apply _. Defined.

Definition list_matches (q_status : option WorkUnitStatus) (include_archived : bool)
    (r : WorkUnitRow) : bool :=
  match q_status with Some s => status_in [s] r | None => true end &&
  (include_archived || bool_decide (wr_archived_at_ms r = None)).

Definition load_raw_work_units_with_query (read : result unit string)
    (q_status : option WorkUnitStatus) (include_archived : bool) (limit : Z)
  : M WorkDb (result (list RawWorkUnitRecord) string) :=
  run? ret (if (i64_max <? limit)%Z
            then Err ("list limit overflowed i64: " +:+ int_conversion_error) else Ok tt) in
  run? ret read in
  gets (fun db => Ok (hydrate_raw_work_unit_relationships db <$>
    take (Z.to_nat limit) (merge_sort list_order
      (filter (fun r => list_matches q_status include_archived r = true)
         (map_to_list (db_units db)).*2)))).

Fixpoint snapshots_from_raw (raws : list RawWorkUnitRecord) : result (list WorkUnitSnapshot) string :=
  match raws with
  | [] => Ok []
  | raw :: raws =>
      let* s := try_work_unit_snapshot_from_raw raw in
      let* rest := snapshots_from_raw raws in
      Ok (s :: rest)
  end.

Definition list_work_units (io : SqlIo) (query : WorkUnitListQuery)
  : M WorkDb (result (list WorkUnitSnapshot) string) :=
  let? limit := ret (normalize_limit (lq_limit query)) in
  run? ret (io_open io) in
  let? raws := load_raw_work_units_with_query (io_read io) (lq_status query)
                 (lq_include_archived query) limit in
  ret (snapshots_from_raw raws).

Fixpoint events_from_rows (rows : list WorkUnitEventRow) : result (list WorkUnitEventRecord) string :=
  match rows with
  | [] => Ok []
  | row :: rows =>
      let* payload := decode_error "work unit event payload" (value_from_str (er_payload_json row)) in
      let* rest := events_from_rows rows in
      Ok ({| we_sequence_id := er_id row; we_work_unit_id := er_work_unit_id row;
             we_event_kind := er_event_kind row; we_actor := er_actor row;
             we_payload_json := payload; we_recorded_at_ms := er_recorded_at_ms row |} :: rest)
  end.

(** [ORDER BY id DESC LIMIT]: newest first. *)
Definition list_work_unit_events (io : SqlIo) (work_unit_id : string) (limit : Z)
  : M WorkDb (result (list WorkUnitEventRecord) string) :=
  let? id := ret (normalize_required_text work_unit_id "work_unit_id") in
  let? limit := ret (normalize_limit limit) in
  run? ret (if (i64_max <? limit)%Z
            then Err ("event limit overflowed i64: " +:+ int_conversion_error) else Ok tt) in
  run? ret (io_open io) in
  run? ret (io_read io) in
  gets (fun db => events_from_rows (take (Z.to_nat limit)
    (reverse (filter (fun e => er_work_unit_id e = id) (db_events db))))).

(** [SUM(CASE WHEN ... THEN 1 ELSE 0 END)]: NULL when there are no rows, which
    [row.get::<i64>] refuses with [null_error]. *)
Definition sum_case (null_error : string) (rows : list WorkUnitRow) (f : WorkUnitRow -> bool)
  : result Z string :=
  match rows with
  | [] => Err ("load work runtime health failed: " +:+ null_error)
  | _ => Ok (Z.of_nat (length (filter (fun r => f r = true) rows)))
  end.

Definition health_blocked (db : WorkDb) (r : WorkUnitRow) : bool :=
  status_in [WaitingExternal; WaitingReview] r ||
  (status_in [Ready; RetryPending] r && has_unfinished_blocker db (wr_work_unit_id r)).

Definition load_runtime_health (io : SqlIo) (null_error : string) (now : option Z)
  : M WorkDb (result WorkRuntimeHealthSnapshot string) :=
  let now_ms := default (io_now_ms io) now in
  run? ret (io_open io) in
  run? ret (io_read io) in
  gets (fun db =>
    let rows := (map_to_list (db_units db)).*2 in
    let sum := sum_case null_error rows in
    let* ready := sum (status_in [Ready]) in
    let* leased := sum (status_in [Leased]) in
    let* running := sum (status_in [Running]) in
    let* blocked := sum (health_blocked db) in
    let* retry := sum (status_in [RetryPending]) in
    let* terminal := sum (status_in [WorkCompleted; FailedTerminal; Cancelled]) in
    let* archived := sum (status_in [Archived]) in
    let* expired := sum (lease_expired now_ms) in
    Ok {| rh_total_count := Z.of_nat (length rows); rh_ready_count := ready;
          rh_leased_count := leased; rh_running_count := running; rh_blocked_count := blocked;
          rh_retry_pending_count := retry; rh_terminal_count := terminal;
          rh_archived_count := archived; rh_expired_lease_count := expired |}).
End repository.
