(* ===== verification/WorkSteps.v ===== *)
(** * What a call on the work queue can do to the tables

    The calls of [crates/app/src/work/repository.rs] as one type, and the step
    relation they induce: a call leaves the tables alone or makes a sequence of
    steps, each of which inserts a fresh unit, rewrites one unit, or adds or
    removes one dependency, and logs one event about that unit.  [run_work_steps]
    shows it for every call, every answer of the database and every outcome; the
    invariants are proved on the steps. *)

From S2P Require Import Prelude RustStr Contracts Work.

Section calls.
Context `{C : WorkCodec}.

Inductive WorkCall : Type :=
| CallCreate (record : NewWorkUnitRecord) (actor : option string)
| CallLoad (work_unit_id : string)
| CallAcquire (request : AcquireWorkUnitLeaseRequest)
| CallStart (request : StartWorkUnitLeaseRequest)
| CallHeartbeat (request : WorkUnitHeartbeatRequest)
| CallComplete (request : CompleteWorkUnitRequest)
| CallRecover (actor : option string) (now_ms : option Z)
| CallArchive (request : ArchiveWorkUnitRequest)
| CallUpdate (request : UpdateWorkUnitRequest)
| CallAssign (request : AssignWorkUnitRequest)
| CallNote (request : AppendWorkUnitNoteRequest)
| CallAddDependency (request : WorkUnitDependencyRequest)
| CallRemoveDependency (request : WorkUnitDependencyRequest)
| CallList (query : WorkUnitListQuery)
| CallEvents (work_unit_id : string) (limit : Z)
| CallHealth (null_error : string) (now_ms : option Z).

Inductive WorkReply : Type :=
| ReplyUnit (s : option WorkUnitSnapshot)
| ReplyUnits (l : list WorkUnitSnapshot)
| ReplyEvent (e : option WorkUnitEventRecord)
| ReplyEvents (l : list WorkUnitEventRecord)
| ReplyHealth (h : WorkRuntimeHealthSnapshot).

Definition replying {A} (f : A -> WorkReply) (m : M WorkDb (result A string))
  : M WorkDb (result WorkReply string) :=
  let? a := m in ret (Ok (f a)).

Definition run_work (io : SqlIo) (call : WorkCall) : M WorkDb (result WorkReply string) :=
  match call with
  | CallCreate record actor => replying (ReplyUnit ∘ Some) (create_work_unit io record actor)
  | CallLoad id => replying ReplyUnit (load_work_unit_snapshot (io_open io) (io_read io) id)
  | CallAcquire request => replying ReplyUnit (acquire_next_ready_lease io request)
  | CallStart request => replying ReplyUnit (mark_leased_running io request)
  | CallHeartbeat request => replying ReplyUnit (heartbeat_lease io request)
  | CallComplete request => replying ReplyUnit (complete_work_unit io request)
  | CallRecover actor now => replying ReplyUnits (recover_expired_leases io actor now)
  | CallArchive request => replying ReplyUnit (archive_work_unit io request)
  | CallUpdate request => replying ReplyUnit (update_work_unit io request)
  | CallAssign request => replying ReplyUnit (assign_work_unit io request)
  | CallNote request => replying ReplyEvent (append_note io request)
  | CallAddDependency request => replying ReplyUnit (add_dependency io request)
  | CallRemoveDependency request => replying ReplyUnit (remove_dependency io request)
  | CallList query => replying ReplyUnits (list_work_units io query)
  | CallEvents id limit => replying ReplyEvents (list_work_unit_events io id limit)
  | CallHealth null_error now => replying ReplyHealth (load_runtime_health io null_error now)
  end.

(** A history: calls in the order the database serialises them, each with what
    the environment answered. *)
Definition run_history (h : list (SqlIo * WorkCall)) (db : WorkDb) : WorkDb :=
  foldl (fun db '(io, call) => (run_work io call db).2) db h.

(** ** Steps *)

(** The clock of a call. *)
Definition call_now (io : SqlIo) (call : WorkCall) : Z :=
  default (io_now_ms io)
    match call with
    | CallAcquire q => aq_now_ms q
    | CallStart q => st_now_ms q
    | CallHeartbeat q => hb_now_ms q
    | CallComplete q => cp_now_ms q
    | CallRecover _ now => now
    | CallArchive q => ar_now_ms q
    | CallUpdate q => up_now_ms q
    | CallAssign q => as_now_ms q
    | CallNote q => an_now_ms q
    | CallAddDependency q | CallRemoveDependency q => dp_now_ms q
    | CallHealth _ now => now
    | _ => None
    end.

(** A row as [create_work_unit] writes it. *)
Record fresh_row (io : SqlIo) (record : NewWorkUnitRecord) (row : WorkUnitRow) : Prop := {
  fresh_id : match nw_work_unit_id record with
             | Some raw => normalize_required_text raw "work_unit_id" = Ok (wr_work_unit_id row)
             | None => wr_work_unit_id row = generate_work_unit_id (io_entropy io)
             end;
  fresh_kind : wr_kind row = WorkUnitKind_as_str (nw_kind record);
  fresh_initial : validate_initial_status (nw_status record) = Ok tt;
  fresh_status : wr_status row = WorkUnitStatus_as_str (nw_status record);
  fresh_priority : wr_priority row = WorkUnitPriority_as_str (nw_priority record);
  fresh_rank : wr_priority_rank row = priority_rank (nw_priority record);
  fresh_source : source_ref_to_string (normalize_source_ref (nw_source_ref record))
                 = Ok (wr_source_ref_json row);
  fresh_valid : validate_retry_policy (nw_retry_policy record) = Ok tt;
  fresh_policy : retry_policy_to_string (nw_retry_policy record) = Ok (wr_retry_policy_json row);
  fresh_attempts : wr_attempt_count row = 0%Z;
  fresh_payload : wr_result_payload_json row = None;
  fresh_owner : wr_lease_owner row = None;
  fresh_version : wr_lease_version row = 0%Z;
  fresh_acquired : wr_lease_acquired_at_ms row = None;
  fresh_heartbeat : wr_lease_heartbeat_at_ms row = None;
  fresh_expires : wr_lease_expires_at_ms row = None;
  fresh_archived : wr_archived_at_ms row = None;
}.

(** What a call may make of an existing row, and when. *)
Inductive unit_change (io : SqlIo) (db : WorkDb)
  : WorkCall -> string -> WorkUnitRow -> WorkUnitRow -> Prop :=
| ChLease q owner expires r :
    normalize_required_text (aq_owner q) "owner" = Ok owner ->
    add_delay_ms (call_now io (CallAcquire q)) (aq_ttl_ms q) = Ok expires ->
    eligible db (call_now io (CallAcquire q)) r = true ->
    unit_change io db (CallAcquire q) (wr_work_unit_id r) r
      (set_leased owner (i64_wrapping_add (wr_lease_version r) 1)
         (call_now io (CallAcquire q)) expires r)
| ChStart q id owner r :
    normalize_required_text (st_work_unit_id q) "work_unit_id" = Ok id ->
    normalize_required_text (st_owner q) "owner" = Ok owner ->
    status_in [Leased] r = true -> wr_lease_owner r = Some owner ->
    unit_change io db (CallStart q) id r (set_running (call_now io (CallStart q)) r)
| ChHeartbeat q id owner expires r :
    normalize_required_text (hb_work_unit_id q) "work_unit_id" = Ok id ->
    normalize_required_text (hb_owner q) "owner" = Ok owner ->
    add_delay_ms (call_now io (CallHeartbeat q)) (hb_ttl_ms q) = Ok expires ->
    status_in [Leased; Running] r = true -> wr_lease_owner r = Some owner ->
    unit_change io db (CallHeartbeat q) id r
      (set_heartbeat (call_now io (CallHeartbeat q)) expires r)
| ChComplete q id owner policy n completion payload r :
    normalize_required_text (cp_work_unit_id q) "work_unit_id" = Ok id ->
    normalize_required_text (cp_owner q) "owner" = Ok owner ->
    status_in [Leased; Running] r = true -> wr_lease_owner r = Some owner ->
    retry_policy_from_str (wr_retry_policy_json r) = Ok policy ->
    attempt_count_u32 (wr_attempt_count r) = Ok n ->
    resolve_completion (cp_disposition q) policy n (call_now io (CallComplete q))
      (cp_next_run_at_ms q) (normalize_optional_text (cp_error q)) = Ok completion ->
    unit_change io db (CallComplete q) id r
      (set_completed (cr_status completion) (cr_next_run_at_ms completion)
         (cr_last_error completion) payload (call_now io (CallComplete q)) r)
| ChRecover actor now policy n message recovery r :
    lease_expired (call_now io (CallRecover actor now)) r = true ->
    retry_policy_from_str (wr_retry_policy_json r) = Ok policy ->
    attempt_count_u32 (wr_attempt_count r) = Ok n ->
    build_expired_lease_error r = Ok message ->
    resolve_recovery policy n (call_now io (CallRecover actor now)) message = Ok recovery ->
    unit_change io db (CallRecover actor now) (wr_work_unit_id r) r
      (set_recovered (rr_status recovery) (rr_next_run_at_ms recovery) (rr_last_error recovery)
         (call_now io (CallRecover actor now)) r)
| ChArchive q id s r :
    normalize_required_text (ar_work_unit_id q) "work_unit_id" = Ok id ->
    WorkUnitStatus_parse (wr_status r) = Some s -> WorkUnitStatus_is_terminal s = true ->
    wr_archived_at_ms r = None ->
    unit_change io db (CallArchive q) id r (set_archived (call_now io (CallArchive q)) r)
| ChUpdate q id s title description status priority parsed next reason r :
    normalize_required_text (up_work_unit_id q) "work_unit_id" = Ok id ->
    wr_archived_at_ms r = None ->
    WorkUnitStatus_parse (wr_status r) = Some s ->
    requested_status (up_status q) s (wr_status r) = Ok status ->
    priority = match up_priority q with
               | Some p => WorkUnitPriority_as_str p
               | None => wr_priority r
               end ->
    WorkUnitPriority_parse priority = Some parsed ->
    unit_change io db (CallUpdate q) id r
      (set_fields title description status priority (priority_rank parsed) next reason
         (call_now io (CallUpdate q)) r)
| ChAssign q id who r :
    normalize_required_text (as_work_unit_id q) "work_unit_id" = Ok id ->
    wr_archived_at_ms r = None ->
    unit_change io db (CallAssign q) id r (set_assigned who (call_now io (CallAssign q)) r)
| ChTouch q id r :
    normalize_required_text (an_work_unit_id q) "work_unit_id" = Ok id ->
    wr_archived_at_ms r = None ->
    unit_change io db (CallNote q) id r (set_touched (call_now io (CallNote q)) r).

(** One event more. *)
Definition logged (db : WorkDb) (id : string) (events : list WorkUnitEventRow) : Prop :=
  exists e, events = db_events db ++ [e] /\ er_work_unit_id e = id
            /\ er_id e = Z.of_nat (S (length (db_events db))).

Inductive work_step (io : SqlIo) : WorkCall -> WorkDb -> WorkDb -> Prop :=
| StepInsert record actor db row events :
    fresh_row io record row ->
    db_units db !! wr_work_unit_id row = None ->
    logged db (wr_work_unit_id row) events ->
    work_step io (CallCreate record actor) db
      {| db_units := <[wr_work_unit_id row := row]> (db_units db); db_deps := db_deps db;
         db_events := events |}
| StepRow call db id r r' events :
    db_units db !! id = Some r ->
    unit_change io db call id r r' ->
    logged db id events ->
    work_step io call db
      {| db_units := <[id := r']> (db_units db); db_deps := db_deps db; db_events := events |}
| StepLink q db blocking blocked stamp r events :
    normalize_required_text (dp_blocking_work_unit_id q) "blocking_work_unit_id" = Ok blocking ->
    normalize_required_text (dp_blocked_work_unit_id q) "blocked_work_unit_id" = Ok blocked ->
    blocking <> blocked ->
    is_Some (db_units db !! blocking) ->
    db_units db !! blocked = Some r ->
    blocking ∉ dependency_chain (db_deps db) blocked ->
    db_deps db !! (blocking, blocked) = None ->
    logged db blocked events ->
    work_step io (CallAddDependency q) db
      {| db_units := <[blocked := set_touched (call_now io (CallAddDependency q)) r]> (db_units db);
         db_deps := <[(blocking, blocked) := stamp]> (db_deps db); db_events := events |}
| StepUnlink q db blocking blocked r events :
    db_units db !! blocked = Some r ->
    is_Some (db_deps db !! (blocking, blocked)) ->
    logged db blocked events ->
    work_step io (CallRemoveDependency q) db
      {| db_units := <[blocked := set_touched (call_now io (CallRemoveDependency q)) r]>
                       (db_units db);
         db_deps := delete (blocking, blocked) (db_deps db); db_events := events |}.

(** ** Every call is a sequence of steps *)

(** Read-only computations. *)
Definition readonly {S A} (m : M S A) : Prop := forall s, (m s).2 = s.

Lemma readonly_ret {S A} (a : A) : readonly (S := S) (ret a).
Proof. done. Qed.

Lemma readonly_gets {S A} (f : S -> A) : readonly (gets f).
Proof. done. Qed.

Lemma readonly_try_bind {S A B E} (m : M S (result A E)) (f : A -> M S (result B E)) :
  readonly m -> (forall a, readonly (f a)) -> readonly (try_bind m f).
Proof.
  intros Hm Hf s. unfold try_bind, bind. specialize (Hm s).
  destruct (m s) as [[[a|e]|p] s']; simpl in *; by rewrite ?Hf.
Qed.

Lemma readonly_after {S A B E} (m : M S (result A E)) (f : A -> M S (result B E)) s :
  (forall a, readonly (f a)) -> (try_bind m f s).2 = (m s).2.
Proof.
  intros Hf. unfold try_bind, bind. destruct (m s) as [[[a|e]|p] s']; simpl; by rewrite ?Hf.
Qed.

#[local] Hint Resolve readonly_ret readonly_gets readonly_try_bind : core.

Lemma readonly_load_raw read id : readonly (load_raw_work_unit_with_conn read id).
Proof. unfold load_raw_work_unit_with_conn. auto. Qed.

Lemma readonly_load open read id : readonly (load_work_unit_snapshot open read id).
Proof.
  unfold load_work_unit_snapshot. repeat (apply readonly_try_bind; [|intros]);
    auto using readonly_load_raw. by case_match.
Qed.

Lemma readonly_reload io id : readonly (reload io id).
Proof. apply readonly_load. Qed.

Lemma readonly_reload_all io ids : readonly (reload_all io ids).
Proof. induction ids; simpl; auto 10 using readonly_reload. Qed.

#[local] Hint Resolve readonly_load_raw readonly_load readonly_reload readonly_reload_all : core.

(** A property of the state a call leaves, step by step: a check that may
    answer [Err], and a transaction followed by reads. *)
Lemma try_ret_state {S A B E} (P : S -> Prop) (r : result A E) (f : A -> M S (result B E)) s :
  P s -> (forall a, r = Ok a -> P (f a s).2) -> P (try_bind (ret r) f s).2.
Proof. intros Hs Hf. destruct r as [a|e]; simpl; [by apply Hf | done]. Qed.

Lemma transaction_state {A} (P : WorkDb -> Prop) io (body : M WorkDb (result (TxEnd A) string)) db :
  P db -> (forall a db', body db = (Returned (Ok (TxCommit a)), db') -> P db') ->
  P (transaction io body db).2.
Proof.
  intros Hdb Hbody. unfold transaction.
  destruct (io_open io) as [[]|?], (io_begin io) as [[]|?]; simpl; try done.
  destruct (body db) as [[[[a|a]|e]|p] db'] eqn:E; simpl; try done;
    destruct (io_commit io); simpl; eauto.
Qed.

Lemma tx_then_state {A B} (P : WorkDb -> Prop) io (body : M WorkDb (result (TxEnd A) string))
    (k : A -> M WorkDb (result B string)) db :
  (forall a, readonly (k a)) -> P db ->
  (forall a db', body db = (Returned (Ok (TxCommit a)), db') -> P db') ->
  P (try_bind (transaction io body) k db).2.
Proof. intros Hk ??. rewrite readonly_after by done. by apply transaction_state. Qed.

(** What the pieces of a transaction's body do when they succeed. *)
Lemma load_raw_ok read id db raw db' :
  load_raw_work_unit_with_conn read id db = (Returned (Ok raw), db') ->
  db' = db /\ raw = hydrate_raw_work_unit_relationships db <$> db_units db !! id.
Proof. unfold load_raw_work_unit_with_conn. intros. rust_inv. done. Qed.

Lemma update_unit_ok io id where_ set db u db' r :
  update_unit io id where_ set db = (Returned (Ok u), db') ->
  db_units db !! id = Some r -> where_ r = true ->
  db' = db_set_units (<[id := set r]> (db_units db)) db.
Proof.
  unfold update_unit, sql_update. intros H Hr Hw. rust_inv. by rewrite Hr, Hw.
Qed.

Lemma insert_event_ok io id kind actor payload now db e db' :
  insert_event_in_tx io id kind actor payload now db = (Returned (Ok e), db') ->
  exists events, logged db id events /\
    db' = {| db_units := db_units db; db_deps := db_deps db; db_events := events |}.
Proof.
  unfold insert_event_in_tx. intros H. rust_inv. eexists. split; [|done].
  eexists. split_and!; [done|simpl..]; done.
Qed.

(** The end of most transactions: one unit rewritten, one event logged. *)
Lemma update_and_log io call id where_ set kind actor payload now db0 r u db1 e db2 :
  update_unit io id where_ set db0 = (Returned (Ok u), db1) ->
  insert_event_in_tx io id kind actor payload now db1 = (Returned (Ok e), db2) ->
  db_units db0 !! id = Some r -> where_ r = true ->
  unit_change io db0 call id r (set r) -> work_step io call db0 db2.
Proof.
  intros Hu (events & Hl & ->)%insert_event_ok Hr Hw Hc.
  pose proof (update_unit_ok _ _ _ _ _ _ _ _ Hu Hr Hw) as ->.
  exact (StepRow io call db0 id r (set r) events Hr Hc Hl).
Qed.

(** Every key is the id of its row. *)
Definition keys_ok (db : WorkDb) : Prop :=
  map_Forall (fun id r => wr_work_unit_id r = id) (db_units db).

Lemma elem_of_rows (db : WorkDb) r :
  r ∈ (map_to_list (db_units db)).*2 <-> exists id, db_units db !! id = Some r.
Proof.
  rewrite list_elem_of_fmap. split.
  - intros ([id r'] & -> & H%elem_of_map_to_list). eauto.
  - intros [id H]. exists (id, r). split; [done|]. by apply elem_of_map_to_list.
Qed.

End calls.

#[export] Hint Resolve readonly_ret readonly_gets readonly_try_bind readonly_load_raw
  readonly_load readonly_reload readonly_reload_all : rust.

(** Checks first, then the transaction; inside it the unit is read, and early
    returns drop the transaction. *)
Ltac call_checks := repeat (apply try_ret_state; [apply rtc_refl|intros]).
Ltac call_tx := apply tx_then_state;
  [solve [intros; repeat case_match; eauto with rust]|apply rtc_refl|intros ? ? Htx].
Ltac tx_branches := repeat (rust_inv; match goal with
  | H : (if ?b then _ else _) _ = (Returned _, _) |- _ =>
      let E := fresh "Hif" in destruct b eqn:E; try discriminate;
      try rewrite negb_false_iff in E; try rewrite bool_decide_eq_true in E
  | H : match ?x with _ => _ end _ = (Returned _, _) |- _ => destruct x eqn:?; try discriminate
  end); rust_inv.
Ltac read_unit r :=
  match goal with H : load_raw_work_unit_with_conn _ _ _ = (Returned (Ok ?raw), _) |- _ =>
    let Hraw := fresh "Hraw" in
    destruct (load_raw_ok _ _ _ _ _ H) as [-> Hraw];
    destruct raw as [raw|]; [|discriminate]; symmetry in Hraw;
    apply fmap_Some in Hraw as (r & Hr & ->); simpl in *; clear H
  end.
Ltac unit_call r := call_checks; call_tx; rust_inv; read_unit r; tx_branches;
  apply rtc_once; eapply update_and_log; [eassumption|eassumption|eassumption|..].

Section steps.
Context `{C : WorkCodec}.

Lemma status_in_or a b r :
  negb (status_in [a] r) && negb (status_in [b] r) = false -> status_in [a; b] r = true.
Proof.
  unfold status_in. rewrite andb_false_iff, !negb_false_iff, !bool_decide_eq_true.
  set_solver.
Qed.

Lemma start_steps io q db : rtc (work_step io (CallStart q)) db (mark_leased_running io q db).2.
Proof.
  unfold mark_leased_running. unit_call r.
  - simpl. by rewrite Hif, Hif0, bool_decide_true.
  - by eapply ChStart.
Qed.

Lemma heartbeat_steps io q db : rtc (work_step io (CallHeartbeat q)) db (heartbeat_lease io q db).2.
Proof.
  unfold heartbeat_lease. unit_call r; apply status_in_or in Hif.
  - simpl. by rewrite Hif, Hif0, bool_decide_true.
  - by eapply ChHeartbeat.
Qed.

Lemma complete_steps io q db :
  rtc (work_step io (CallComplete q)) db (complete_work_unit io q db).2.
Proof.
  unfold complete_work_unit. unit_call r; apply status_in_or in Hif.
  - simpl. by rewrite Hif, Hif0, bool_decide_true.
  - eapply ChComplete; eauto using map_err_ok.
Qed.

Lemma ok_or_ok {A E} (o : option A) (e : E) a : ok_or o e = Ok a -> o = Some a.
Proof. destruct o; naive_solver. Qed.

Lemma archive_steps io q db : rtc (work_step io (CallArchive q)) db (archive_work_unit io q db).2.
Proof.
  unfold archive_work_unit. unit_call r.
  - simpl. by rewrite bool_decide_true.
  - eapply ChArchive; eauto using ok_or_ok.
Qed.

Lemma update_steps io q db : rtc (work_step io (CallUpdate q)) db (update_work_unit io q db).2.
Proof.
  unfold update_work_unit. call_checks. call_tx. rust_inv. read_unit r. tx_branches.
  { apply rtc_refl. }
  apply rtc_once. eapply update_and_log; [eassumption|eassumption|eassumption|..].
  - simpl. by rewrite bool_decide_true.
  - eapply ChUpdate; eauto using ok_or_ok.
Qed.

Lemma assign_steps io q db : rtc (work_step io (CallAssign q)) db (assign_work_unit io q db).2.
Proof.
  unfold assign_work_unit. call_checks. call_tx. rust_inv. read_unit r. tx_branches.
  { apply rtc_refl. }
  apply rtc_once. eapply update_and_log; [eassumption|eassumption|eassumption|..].
  - simpl. by rewrite bool_decide_true.
  - by eapply ChAssign.
Qed.

Lemma note_steps io q db : rtc (work_step io (CallNote q)) db (append_note io q db).2.
Proof.
  unfold append_note. call_checks. apply transaction_state; [apply rtc_refl|intros ? ? Htx].
  rust_inv. read_unit r. tx_branches. apply rtc_once.
  eapply update_and_log; [eassumption|eassumption|eassumption|done|]. by eapply ChTouch.
Qed.

Lemma insert_and_log io record actor row kind who payload now db0 u db1 e db2 :
  insert_unit io row db0 = (Returned (Ok u), db1) ->
  insert_event_in_tx io (wr_work_unit_id row) kind who payload now db1 = (Returned (Ok e), db2) ->
  fresh_row io record row -> work_step io (CallCreate record actor) db0 db2.
Proof.
  unfold insert_unit. intros Hi (events & Hl & ->)%insert_event_ok Hf. tx_branches.
  exact (StepInsert io record actor _ row events Hf Hif Hl).
Qed.

Lemma create_steps io record actor db :
  rtc (work_step io (CallCreate record actor)) db (create_work_unit io record actor db).2.
Proof.
  unfold create_work_unit. call_checks. call_tx. rust_inv. apply rtc_once.
  eapply insert_and_log; [eassumption|simpl; eassumption|].
  repeat match goal with a : unit |- _ => destruct a end.
  constructor; simpl; eauto using map_err_ok.
  by destruct (nw_work_unit_id record); simplify_eq.
Qed.

Lemma ensure_exists_ok io id db u db' :
  ensure_work_unit_exists io id db = (Returned (Ok u), db') ->
  db' = db /\ exists r, db_units db !! id = Some r.
Proof.
  unfold ensure_work_unit_exists. intros. rust_inv. split; [done|].
  destruct (db_units _ !! id); naive_solver.
Qed.

Lemma cycle_check_ok io blocking blocked db b db' :
  would_create_dependency_cycle io blocking blocked db = (Returned (Ok b), db') ->
  db' = db /\ (b = false -> blocking ∉ dependency_chain (db_deps db) blocked).
Proof.
  unfold would_create_dependency_cycle. intros. rust_inv. split; [done|].
  by intros H%bool_decide_eq_false.
Qed.

Lemma touch_and_log io id now kind actor payload db0 r u db1 e db2 :
  touch_work_unit io id now db0 = (Returned (Ok u), db1) ->
  insert_event_in_tx io id kind actor payload now db1 = (Returned (Ok e), db2) ->
  db_units db0 !! id = Some r ->
  exists events, logged db0 id events /\
    db2 = {| db_units := <[id := set_touched now r]> (db_units db0); db_deps := db_deps db0;
             db_events := events |}.
Proof.
  intros Hu (events & Hl & ->)%insert_event_ok Hr.
  pose proof (update_unit_ok _ _ _ _ _ _ _ _ Hu Hr eq_refl) as ->. eauto.
Qed.

Ltac touched :=
  match goal with
    Ht : touch_work_unit _ ?id _ _ = _, He : insert_event_in_tx _ _ _ _ _ _ _ = _,
    Hr : db_units _ !! ?id = Some _ |- _ =>
      destruct (touch_and_log _ _ _ _ _ _ _ _ _ _ _ _ Ht He Hr) as (events & Hl & ->); clear Ht He;
      unfold db_set_deps; cbn [db_units db_deps db_events] in *
  end.

Lemma add_dependency_steps io q db :
  rtc (work_step io (CallAddDependency q)) db (add_dependency io q db).2.
Proof.
  unfold add_dependency. call_checks. call_tx. rust_inv.
  repeat match goal with
  | H : ensure_work_unit_exists _ _ _ = _ |- _ => apply ensure_exists_ok in H as [-> [? ?]]
  | H : would_create_dependency_cycle _ _ _ _ = _ |- _ => apply cycle_check_ok in H as [-> ?]
  end.
  tx_branches; [apply rtc_refl|]. apply rtc_once.
  touched.
  unfold validate_dependency_endpoints in *. case_decide; [done|].
  eapply (StepLink io q _ _ _ _ _ events); eauto.
Qed.

Lemma remove_dependency_steps io q db :
  rtc (work_step io (CallRemoveDependency q)) db (remove_dependency io q db).2.
Proof.
  unfold remove_dependency. call_checks. call_tx. rust_inv. read_unit r.
  tx_branches; [|apply rtc_refl]. apply rtc_once.
  touched.
  eapply (StepUnlink io q _ _ _ _ events); eauto.
Qed.

(** *** Leasing *)

Lemma select_ok read now db raw db' :
  select_next_ready_raw_work_unit read now db = (Returned (Ok raw), db') ->
  db' = db /\ raw = hydrate_raw_work_unit_relationships db <$>
    head (merge_sort lease_order
      (filter (fun r => eligible db now r = true) (map_to_list (db_units db)).*2)).
Proof. unfold select_next_ready_raw_work_unit. intros. rust_inv. done. Qed.

(** [lease_order] and [expiry_order] are total preorders: the first of a sorted
    list comes before every other. *)
Ltac lex_order := repeat first [by left; lia|right; split; [lia|]].

#[export] Instance lease_order_trans : Transitive lease_order.
Proof.
  unfold lease_order.
  intros a b c [?|[? [?|[? [?|[? ?]]]]]] [?|[? [?|[? [?|[? ?]]]]]]; lex_order; by etrans.
Qed.

#[export] Instance lease_order_total : Total lease_order.
Proof.
  intros a b. unfold lease_order.
  destruct (Z.lt_trichotomy (wr_priority_rank a) (wr_priority_rank b)) as [?|[?|?]]; [by right; left| |by left; left].
  destruct (Z.lt_trichotomy (wr_next_run_at_ms a) (wr_next_run_at_ms b)) as [?|[?|?]]; [left; lex_order| |right; lex_order].
  destruct (Z.lt_trichotomy (wr_updated_at_ms a) (wr_updated_at_ms b)) as [?|[?|?]]; [left; lex_order| |right; lex_order].
  destruct (total rust_le (wr_work_unit_id a) (wr_work_unit_id b)); [left|right]; by lex_order.
Qed.

Lemma head_merge_sort_min {A} (R : relation A) `{!RelDecision R, !Transitive R, !Total R} l x :
  head (merge_sort R l) = Some x -> x ∈ l /\ forall y, y ∈ l -> R x y.
Proof.
  intros Hx. pose proof (StronglySorted_merge_sort R l) as Hs.
  pose proof (merge_sort_Permutation R l) as Hp.
  destruct (merge_sort R l) as [|z l'] eqn:E; [done|]. simpl in Hx. simplify_eq.
  apply StronglySorted_cons in Hs as [Hx _]. rewrite Forall_forall in Hx.
  split; [rewrite <- Hp; by left|]. intros y Hy. rewrite <- Hp in Hy.
  apply elem_of_cons in Hy as [->|Hy]; [by destruct (total R x x)|auto].
Qed.

(** The selected row is eligible and comes first among the eligible ones. *)
Lemma selected_best db now r :
  head (merge_sort lease_order
    (filter (fun r => eligible db now r = true) (map_to_list (db_units db)).*2)) = Some r ->
  (exists id, db_units db !! id = Some r) /\ eligible db now r = true /\
  forall id r', db_units db !! id = Some r' -> eligible db now r' = true -> lease_order r r'.
Proof.
  intros H. destruct (head_merge_sort_min lease_order _ _ H) as [[He Hin]%list_elem_of_filter Hmin].
  split_and!; [by apply elem_of_rows|done|].
  intros id r' Hr' He'. apply Hmin, list_elem_of_filter. split; [done|].
  apply elem_of_rows. eauto.
Qed.

Lemma acquire_steps io q db :
  keys_ok db -> rtc (work_step io (CallAcquire q)) db (acquire_next_ready_lease io q db).2.
Proof.
  intros Hk. unfold acquire_next_ready_lease. call_checks. call_tx. rust_inv.
  match goal with H : select_next_ready_raw_work_unit _ _ _ = (_, _) |- _ =>
    apply select_ok in H as [-> ->] end.
  destruct (head _) as [r|] eqn:Hhead; simpl in *; [|done]. rust_inv.
  apply selected_best in Hhead as ([id Hr] & He & _). pose proof (Hk _ _ Hr) as <-.
  apply rtc_once. eapply update_and_log; [eassumption|eassumption|eassumption|..].
  - unfold eligible in He. by apply andb_true_iff in He as [? _].
  - by eapply ChLease.
Qed.

(** *** Recovery *)

Lemma recover_one_step io actor now q_actor q_now r db id db' :
  call_now io (CallRecover q_actor q_now) = now ->
  recover_one io actor now r db = (Returned (Ok id), db') ->
  db_units db !! wr_work_unit_id r = Some r -> lease_expired now r = true ->
  work_step io (CallRecover q_actor q_now) db db'.
Proof.
  intros <- H Hr He. unfold recover_one in H. rust_inv.
  eapply update_and_log; [eassumption|eassumption|eassumption|done|].
  eapply ChRecover; eauto using map_err_ok.
Qed.

(** A step on one unit leaves the others' rows alone. *)
Lemma recover_one_other io actor now r db id db' other :
  recover_one io actor now r db = (Returned (Ok id), db') -> other <> wr_work_unit_id r ->
  db_units db' !! other = db_units db !! other.
Proof.
  intros H Ho. unfold recover_one in H. rust_inv.
  destruct (insert_event_ok _ _ _ _ _ _ _ _ _ ltac:(eassumption)) as (events & _ & ->).
  unfold update_unit, sql_update in *. rust_inv. simpl.
  repeat case_match; simpl; by rewrite ?lookup_insert_ne.
Qed.

(** The rows still to recover are as they were read. *)
Lemma recover_one_rest io actor now r rows db id db' :
  recover_one io actor now r db = (Returned (Ok id), db') ->
  wr_work_unit_id r ∉ wr_work_unit_id <$> rows ->
  Forall (fun r => db_units db !! wr_work_unit_id r = Some r /\ lease_expired now r = true) rows ->
  Forall (fun r => db_units db' !! wr_work_unit_id r = Some r /\ lease_expired now r = true) rows.
Proof.
  intros H Hn. rewrite !Forall_forall. intros Hf r' Hin. destruct (Hf r' Hin) as [Hr' He'].
  split; [|done]. rewrite (recover_one_other _ _ _ _ _ _ _ _ H); [done|].
  intros Heq. apply Hn. rewrite <- Heq. by apply list_elem_of_fmap_2.
Qed.

Lemma recover_all_steps io actor now q_actor q_now rows db ids db' :
  call_now io (CallRecover q_actor q_now) = now ->
  recover_all io actor now rows db = (Returned (Ok ids), db') ->
  NoDup (wr_work_unit_id <$> rows) ->
  Forall (fun r => db_units db !! wr_work_unit_id r = Some r /\ lease_expired now r = true) rows ->
  rtc (work_step io (CallRecover q_actor q_now)) db db'.
Proof.
  intros Hnow. revert db ids. induction rows as [|r rows IH]; simpl; intros db ids H Hn Hf; rust_inv.
  { apply rtc_refl. }
  apply NoDup_cons in Hn as [Hn1 Hn2]. apply Forall_cons in Hf as [[Hr He] Hf].
  eapply rtc_l; [by eapply recover_one_step|]. eapply IH; [eassumption|done|].
  by eapply recover_one_rest.
Qed.

Lemma expired_ok read now db raws db' :
  load_expired_raw_work_units_with_conn read now db = (Returned (Ok raws), db') ->
  db' = db /\ raws = hydrate_raw_work_unit_relationships db <$>
    merge_sort expiry_order
      (filter (fun r => lease_expired now r = true) (map_to_list (db_units db)).*2).
Proof. unfold load_expired_raw_work_units_with_conn. intros. rust_inv. done. Qed.

Lemma raw_row_hydrate db (rows : list WorkUnitRow) :
  raw_row <$> (hydrate_raw_work_unit_relationships db <$> rows) = rows.
Proof. rewrite <- list_fmap_compose. by apply list_fmap_id. Qed.

Lemma NoDup_row_ids db : keys_ok db -> NoDup (wr_work_unit_id <$> (map_to_list (db_units db)).*2).
Proof.
  intros Hk.
  assert (wr_work_unit_id <$> (map_to_list (db_units db)).*2 = (map_to_list (db_units db)).*1) as ->.
  { rewrite <- list_fmap_compose. apply list_fmap_ext. intros i [id r] Hin. simpl.
    apply Hk, elem_of_map_to_list. by apply list_elem_of_lookup_2 in Hin. }
  apply NoDup_fst_map_to_list.
Qed.

Lemma NoDup_fmap_filter {A B} (f : A -> B) (P : A -> Prop) `{!forall x, Decision (P x)} l :
  NoDup (f <$> l) -> NoDup (f <$> filter P l).
Proof. intros Hn. eapply sublist_NoDup; [exact Hn|]. apply fmap_sublist, sublist_filter. Qed.

(** The rows [load_expired_raw_work_units_with_conn] reads. *)
Lemma expired_rows db now :
  keys_ok db ->
  let rows := merge_sort expiry_order
    (filter (fun r => lease_expired now r = true) (map_to_list (db_units db)).*2) in
  NoDup (wr_work_unit_id <$> rows) /\
  Forall (fun r => db_units db !! wr_work_unit_id r = Some r /\ lease_expired now r = true) rows /\
  forall id r, db_units db !! id = Some r -> lease_expired now r = true -> r ∈ rows.
Proof.
  intros Hk rows. unfold rows. split_and!.
  - rewrite merge_sort_Permutation. by apply NoDup_fmap_filter, NoDup_row_ids.
  - apply Forall_forall. intros r. rewrite merge_sort_Permutation, list_elem_of_filter, elem_of_rows.
    intros [He [id Hr]]. by rewrite (Hk _ _ Hr).
  - intros id r Hr He. rewrite merge_sort_Permutation, list_elem_of_filter, elem_of_rows. eauto.
Qed.

Lemma recover_steps io actor now db :
  keys_ok db ->
  rtc (work_step io (CallRecover actor now)) db (recover_expired_leases io actor now db).2.
Proof.
  intros Hk. unfold recover_expired_leases. call_tx. rust_inv.
  match goal with H : load_expired_raw_work_units_with_conn _ _ _ = (_, _) |- _ =>
    apply expired_ok in H as [-> ->] end.
  rewrite raw_row_hydrate in *.
  destruct (expired_rows db (default (io_now_ms io) now) Hk) as (? & ? & _).
  by eapply recover_all_steps; [|eassumption|..].
Qed.

(** *** All calls *)

Lemma readonly_list io q : readonly (list_work_units io q).
Proof. unfold list_work_units, load_raw_work_units_with_query. auto 10 with rust. Qed.

Lemma readonly_events io id limit : readonly (list_work_unit_events io id limit).
Proof. unfold list_work_unit_events. auto 10 with rust. Qed.

Lemma readonly_health io e now : readonly (load_runtime_health io e now).
Proof. unfold load_runtime_health. auto 10 with rust. Qed.

Lemma run_work_steps io call db :
  keys_ok db -> rtc (work_step io call) db (run_work io call db).2.
Proof.
  intros Hk. destruct call; simpl; unfold replying; rewrite readonly_after by done;
    auto using create_steps, acquire_steps, start_steps, heartbeat_steps, complete_steps,
      recover_steps, archive_steps, update_steps, assign_steps, note_steps, add_dependency_steps,
      remove_dependency_steps.
  - rewrite readonly_load. apply rtc_refl.
  - rewrite readonly_list. apply rtc_refl.
  - rewrite readonly_events. apply rtc_refl.
  - rewrite readonly_health. apply rtc_refl.
Qed.

Lemma unit_change_id io db call id r r' :
  unit_change io db call id r r' -> wr_work_unit_id r' = wr_work_unit_id r.
Proof. by destruct 1. Qed.

Lemma work_step_keys io call db db' : work_step io call db db' -> keys_ok db -> keys_ok db'.
Proof.
  unfold keys_ok. intros [] Hk; simpl; apply map_Forall_insert_2; auto; simpl.
  - erewrite unit_change_id by done. by apply Hk.
  - by apply Hk.
  - by apply Hk.
Qed.

(** An invariant of the steps is an invariant of every history. *)
Lemma run_history_ind (P : WorkDb -> Prop) h db :
  keys_ok db -> P db ->
  (forall io call db db', (io, call) ∈ h -> keys_ok db -> P db -> work_step io call db db' -> P db') ->
  keys_ok (run_history h db) /\ P (run_history h db).
Proof.
  revert db. induction h as [|[io call] h IH]; intros db Hk HP Hstep; [done|]. simpl.
  assert (keys_ok (run_work io call db).2 /\ P (run_work io call db).2) as [Hk' HP'].
  { pose proof (run_work_steps io call db Hk) as Hs. induction Hs as [|x y z Hxy _ IHs]; [done|].
    apply IHs; [by eapply work_step_keys|]. eapply Hstep; eauto. by left. }
  apply IH; [done..|]. intros. eapply Hstep; eauto. by right.
Qed.
End steps.
