(* ===== verification/WorkGraph.v ===== *)
(** * Dependencies of the work queue

    The recursive query of [would_create_dependency_cycle] computes exactly the
    units reachable from a unit, and it is what keeps the dependencies acyclic:
    whatever the history of calls, some unfinished unit has no unfinished
    blocker. *)

From S2P Require Import Prelude RustStr Contracts Work WorkSteps.

(** [blocks deps a b]: [a] must finish before [b]. *)
Definition blocks (deps : gmap (string * string) (Z * option string)) (a b : string) : Prop :=
  is_Some (deps !! (a, b)).

Lemma size_list_to_set_le (l : list string) : size (list_to_set l : gset string) <= length l.
Proof.
  induction l as [|x l IH]; cbn [list_to_set length foldr]; [done|].
  rewrite size_union_alt, size_singleton.
  assert (size (list_to_set l ∖ {[x]} : gset string) <= size (list_to_set l : gset string));
    [apply subseteq_size; set_solver|lia].
Qed.

(** ** The recursive query *)

Section query.
Variable deps : gmap (string * string) (Z * option string).

Lemma elem_of_blocked_by s b : b ∈ blocked_by deps s <-> exists a, a ∈ s /\ blocks deps a b.
Proof.
  unfold blocked_by, blocks. rewrite elem_of_list_to_set, list_elem_of_omap. split.
  - intros ([[x y] v] & Hin%elem_of_map_to_list & H). case_decide; simplify_eq. eauto.
  - intros (a & Ha & [v Hv]). exists ((a, b), v). split; [by apply elem_of_map_to_list|].
    by rewrite decide_True.
Qed.

(** Every unit that is blocked by some unit. *)
Definition all_blocked : gset string := list_to_set (map_to_list deps).*1.*2.

Lemma blocked_by_all s : blocked_by deps s ⊆ all_blocked.
Proof.
  intros b (a & _ & [v Hv])%elem_of_blocked_by. unfold all_blocked.
  rewrite elem_of_list_to_set, list_elem_of_fmap. exists (a, b). split; [done|].
  rewrite list_elem_of_fmap. exists ((a, b), v). split; [done|]. by apply elem_of_map_to_list.
Qed.

Lemma size_all_blocked : size all_blocked <= size deps.
Proof.
  unfold all_blocked. etrans; [apply size_list_to_set_le|].
  by rewrite !length_fmap, length_map_to_list.
Qed.

(** Closed under one more round. *)
Definition closed (s : gset string) : Prop := blocked_by deps s ⊆ s.

Lemma rounds_closed n s : closed s -> dependency_rounds deps n s = s.
Proof.
  intros Hs. induction n as [|n IH]; simpl; [done|].
  by replace (s ∪ blocked_by deps s) with s by (unfold closed in Hs; set_solver).
Qed.

Lemma rounds_add n k s :
  dependency_rounds deps (n + k) s = dependency_rounds deps k (dependency_rounds deps n s).
Proof. revert s. induction n as [|n IH]; intros s; simpl; auto. Qed.

Lemma rounds_grow n s :
  s ⊆ all_blocked ->
  closed (dependency_rounds deps n s) \/ n + size s <= size (dependency_rounds deps n s).
Proof.
  revert s. induction n as [|n IH]; intros s Hs; simpl; [by right|].
  destruct (decide (blocked_by deps s ⊆ s)) as [Hc|Hc].
  { left. rewrite rounds_closed; replace (s ∪ blocked_by deps s) with s by set_solver; done. }
  destruct (IH (s ∪ blocked_by deps s)) as [?|Hn]; [|by left|].
  { pose proof (blocked_by_all s). set_solver. }
  right. assert (size s < size (s ∪ blocked_by deps s)); [|lia].
  apply subset_size. set_solver.
Qed.

Lemma rounds_sub n s : s ⊆ all_blocked -> dependency_rounds deps n s ⊆ all_blocked.
Proof.
  revert s. induction n as [|n IH]; intros s Hs; simpl; [done|].
  apply IH. pose proof (blocked_by_all s). set_solver.
Qed.

(** As many rounds as there are dependencies are enough. *)
Lemma dependency_chain_closed id : closed (dependency_chain deps id).
Proof.
  unfold dependency_chain. set (s := blocked_by deps {[id]}).
  assert (s ⊆ all_blocked) as Hs by apply blocked_by_all.
  destruct (rounds_grow (size deps) s Hs) as [?|Hn]; [done|].
  pose proof (rounds_sub (size deps) s Hs) as Hsub. pose proof size_all_blocked.
  assert (dependency_rounds deps (size deps) s = all_blocked) as ->.
  { apply set_eq. intros x. split; [by apply Hsub|].
    intros Hx. destruct (decide (x ∈ dependency_rounds deps (size deps) s)) as [|Hnot]; [done|].
    assert (size (dependency_rounds deps (size deps) s) < size all_blocked); [|lia].
    apply subset_size. set_solver. }
  apply blocked_by_all.
Qed.

Lemma rounds_sound n s b :
  b ∈ dependency_rounds deps n s -> exists a, a ∈ s /\ rtc (blocks deps) a b.
Proof.
  revert s. induction n as [|n IH]; intros s; simpl; [eauto using rtc_refl|].
  intros (a & [Ha|Ha]%elem_of_union & Hab)%IH; [by eauto|].
  apply elem_of_blocked_by in Ha as (a' & ? & ?). exists a'. split; [done|]. by eapply rtc_l.
Qed.

Lemma rounds_incl n s : s ⊆ dependency_rounds deps n s.
Proof.
  revert s. induction n as [|n IH]; intros s; simpl; [done|].
  etrans; [|apply IH]. set_solver.
Qed.

Lemma elem_of_dependency_chain a b : b ∈ dependency_chain deps a <-> tc (blocks deps) a b.
Proof.
  split.
  - unfold dependency_chain. intros (c & (a' & Ha & Hac)%elem_of_blocked_by & Hcb)%rounds_sound.
    apply elem_of_singleton in Ha as ->. by eapply tc_rtc_r; [apply tc_once|].
  - pose proof (dependency_chain_closed a) as Hc.
    assert (forall b, blocks deps a b -> b ∈ dependency_chain deps a) as Hone.
    { intros c Hac. apply rounds_incl, elem_of_blocked_by. exists a. split; [set_solver|done]. }
    revert Hc Hone. generalize (dependency_chain deps a) as s. intros s Hc Hone Hab. revert Hone.
    induction Hab as [x y Hxy|x y z Hxy _ IH]; intros Hone; [by apply Hone|].
    apply IH. intros w Hyw. apply Hc, elem_of_blocked_by. eauto.
Qed.
End query.

(** ** Acyclicity *)

Definition acyclic (deps : gmap (string * string) (Z * option string)) : Prop :=
  forall a, ~ tc (blocks deps) a a.

Lemma blocks_insert deps a b v x y :
  blocks (<[(a, b) := v]> deps) x y -> (x = a /\ y = b) \/ blocks deps x y.
Proof.
  unfold blocks. destruct (decide ((a, b) = (x, y))) as [[= -> ->]|Hne]; [by left|].
  rewrite lookup_insert_ne by done. by right.
Qed.

(** A path after the insertion is an old one, or goes through the new edge. *)
Lemma tc_insert deps a b v x y :
  tc (blocks (<[(a, b) := v]> deps)) x y ->
  tc (blocks deps) x y \/ (rtc (blocks deps) x a /\ rtc (blocks deps) b y).
Proof.
  induction 1 as [x y Hxy|x y z Hxy _ IH].
  - apply blocks_insert in Hxy as [[-> ->]|Hxy]; [right|left; by apply tc_once].
    split; apply rtc_refl.
  - apply blocks_insert in Hxy as [[-> ->]|Hxy].
    + right. split; [apply rtc_refl|]. destruct IH as [IH|[_ IH]]; [by apply tc_rtc|done].
    + destruct IH as [IH|[IH1 IH2]]; [left; by eapply tc_l|right].
      split; [by eapply rtc_l|done].
Qed.

Lemma acyclic_insert deps a b v :
  acyclic deps -> a <> b -> a ∉ dependency_chain deps b -> acyclic (<[(a, b) := v]> deps).
Proof.
  rewrite elem_of_dependency_chain. intros Hac Hne Hba x [Hx|[Hxa Hbx]]%tc_insert; [by eapply Hac|].
  assert (rtc (blocks deps) b a) as H by (by etrans).
  apply rtc_tc in H as [H|H]; [congruence|done].
Qed.

Lemma acyclic_delete deps k : acyclic deps -> acyclic (delete k deps).
Proof.
  intros Hac x Hx. apply (Hac x). clear Hac. revert Hx.
  generalize x at 1 3. intros y. induction 1 as [p q H|p q r H _ IH]; [apply tc_once|eapply tc_l, IH];
    unfold blocks in *; by apply lookup_delete_is_Some in H as [_ H].
Qed.

Section acyclic.
Context `{C : WorkCodec}.

(** Acyclic, and between units that exist. *)
Definition deps_ok (db : WorkDb) : Prop :=
  acyclic (db_deps db) /\
  forall a b, blocks (db_deps db) a b -> is_Some (db_units db !! a) /\ is_Some (db_units db !! b).

Lemma deps_ok_more db units events :
  deps_ok db -> (forall id, is_Some (db_units db !! id) -> is_Some (units !! id)) ->
  deps_ok {| db_units := units; db_deps := db_deps db; db_events := events |}.
Proof. intros [Hac Hex] Hun. split; [done|]. intros a b Hab. destruct (Hex a b Hab). simpl. auto. Qed.

Lemma is_Some_insert (m : gmap string WorkUnitRow) i x j : is_Some (m !! j) -> is_Some (<[i := x]> m !! j).
Proof. rewrite lookup_insert_is_Some'. auto. Qed.

Lemma work_step_deps io call db db' : work_step io call db db' -> deps_ok db -> deps_ok db'.
Proof.
  intros [] Hok; auto using deps_ok_more, is_Some_insert; destruct Hok as [Hac Hex]; split; simpl.
  - by apply acyclic_insert.
  - intros a b [[-> ->]|Hab]%blocks_insert; [|destruct (Hex a b Hab)]; eauto using is_Some_insert.
  - by apply acyclic_delete.
  - intros a b Hab. unfold blocks in *. apply lookup_delete_is_Some in Hab as [_ Hab].
    destruct (Hex a b Hab); auto using is_Some_insert.
Qed.

Lemma has_unfinished_blocker_spec db id :
  has_unfinished_blocker db id = true <->
  exists a r, blocks (db_deps db) a id /\ db_units db !! a = Some r /\ unfinished r = true.
Proof.
  unfold has_unfinished_blocker. rewrite existsb_exists. split.
  - intros ([[a b] v] & Hin%list_elem_of_In%elem_of_map_to_list & H).
    apply andb_true_iff in H as [->%bool_decide_eq_true H].
    destruct (db_units db !! a) as [r|] eqn:Hr; [|done]. exists a, r. split_and!; [by exists v|done..].
  - intros (a & r & [v Hv] & Hr & Hu). exists ((a, id), v). split.
    + by apply list_elem_of_In, elem_of_map_to_list.
    + by rewrite bool_decide_true, Hr.
Qed.

#[local] Instance tc_blocks_dec deps : RelDecision (tc (blocks deps)).
Proof.
  intros a b. destruct (decide (b ∈ dependency_chain deps a)) as [H|H];
    [left|right]; by rewrite <- elem_of_dependency_chain.
Defined.

(** Among any units, one is not behind another of them. *)
Lemma first_unblocked deps (s : gset string) :
  acyclic deps -> s ≠ ∅ -> exists id, id ∈ s /\ forall a, blocks deps a id -> a ∉ s.
Proof.
  intros Hac Hs. destruct (minimal_exists_elem_of_L (tc (blocks deps)) s Hs) as (id & Hid & Hmin).
  exists id. split; [done|]. intros a Hab Ha. apply (Hac id).
  eapply tc_transitive; [|by apply tc_once]. apply Hmin; [done|]. by apply tc_once.
Qed.

Lemma unfinished_unblocked db :
  deps_ok db -> (exists id r, db_units db !! id = Some r /\ unfinished r = true) ->
  exists id r, db_units db !! id = Some r /\ unfinished r = true /\
               has_unfinished_blocker db id = false.
Proof.
  intros [Hac _] (id0 & r0 & Hr0 & Hu0).
  set (s := dom (filter (fun '(_, r) => unfinished r = true) (db_units db))).
  assert (forall id, id ∈ s <-> exists r, db_units db !! id = Some r /\ unfinished r = true) as Hs.
  { intros id. unfold s. rewrite elem_of_dom. unfold is_Some.
    setoid_rewrite map_lookup_filter_Some. done. }
  destruct (first_unblocked (db_deps db) s Hac) as (id & (r & Hr & Hu)%Hs & Hno).
  { assert (id0 ∈ s) by (apply Hs; eauto). set_solver. }
  exists id, r. split_and!; [done..|]. apply not_true_iff_false.
  intros (a & ra & Ha & Hra & Hua)%has_unfinished_blocker_spec. apply (Hno a Ha), Hs. eauto.
Qed.

Lemma run_history_deps h db :
  keys_ok db -> deps_ok db -> keys_ok (run_history h db) /\ deps_ok (run_history h db).
Proof. intros. apply run_history_ind; eauto using work_step_deps. Qed.

Lemma keys_ok_empty : keys_ok WorkDb_empty.
Proof. apply map_Forall_empty. Qed.

Lemma deps_ok_empty : deps_ok WorkDb_empty.
Proof.
  assert (forall a b, ~ blocks ∅ a b) as Hno by (intros a b [v Hv]; by rewrite lookup_empty in Hv).
  split; [|intros a b Hab; by apply Hno in Hab]. intros a Ha.
  destruct Ha; by eapply Hno.
Qed.

(** The recursive query of [would_create_dependency_cycle]
    answers exactly the units that transitively wait for the given one: after as
    many rounds as there are dependencies it has found all of them and nothing
    else, and further rounds add nothing. *)
Theorem dependency_query_exact deps a :
  (forall b, b ∈ dependency_chain deps a <-> tc (blocks deps) a b) /\
  forall n, size deps <= n ->
    dependency_rounds deps n (blocked_by deps {[a]}) = dependency_chain deps a.
Proof.
  split; [apply elem_of_dependency_chain|]. intros n Hn.
  replace n with (size deps + (n - size deps)) by lia. generalize (n - size deps). intros k.
  rewrite rounds_add. apply rounds_closed, dependency_chain_closed.
Qed.

(** C21 (invariant). Whatever calls were made on an empty queue, and whatever the
    database answered, the dependencies form no cycle and relate existing units;
    so the queue never deadlocks: unless every unit is finished, some unfinished
    unit has no unfinished blocker. *)
Theorem work_dependencies_acyclic h :
  let db := run_history h WorkDb_empty in
  acyclic (db_deps db) /\
  (forall a b, blocks (db_deps db) a b ->
     is_Some (db_units db !! a) /\ is_Some (db_units db !! b)) /\
  (map_Forall (fun _ r => unfinished r = false) (db_units db) \/
   exists id r, db_units db !! id = Some r /\ unfinished r = true /\
                has_unfinished_blocker db id = false).
Proof.
  intros db. destruct (run_history_deps h _ keys_ok_empty deps_ok_empty) as [_ [Hac Hex]].
  split_and!; [done..|]. fold db in Hac, Hex.
  destruct (decide (map_Forall (fun _ r => unfinished r = false) (db_units db))) as [|Hno]; [by left|].
  right. apply unfinished_unblocked; [done|].
  apply map_not_Forall in Hno as (id & r & Hr & Hu); [|apply _]. exists id, r.
  split; [done|]. by apply not_false_iff_true.
Qed.
End acyclic.
