(* ===== verification/WorkRows.v ===== *)
(** * Rows of the work queue

    What is true of every row after any history of calls: its texts parse back,
    its lease columns are set together and exactly while it is leased, its lease
    version counts its attempts, and its archive stamp goes with its status.  So
    reading a unit back never fails for a reason of the repository's own; and
    the life cycle of a unit, as the statuses a call may lead to. *)

From S2P Require Import Prelude RustStr Contracts Work WorkSteps.

(** ** Texts and parsers *)

Lemma WorkUnitStatus_parse_as_str s : WorkUnitStatus_parse (WorkUnitStatus_as_str s) = Some s.
Proof. by destruct s; vm_compute. Qed.

Lemma WorkUnitKind_parse_as_str k : WorkUnitKind_parse (WorkUnitKind_as_str k) = Some k.
Proof. by destruct k; vm_compute. Qed.

Lemma WorkUnitPriority_parse_as_str p : WorkUnitPriority_parse (WorkUnitPriority_as_str p) = Some p.
Proof. by destruct p; vm_compute. Qed.

Lemma WorkUnitStatus_as_str_inj s t : WorkUnitStatus_as_str s = WorkUnitStatus_as_str t -> s = t.
Proof.
  intros H. apply (f_equal WorkUnitStatus_parse) in H.
  by rewrite !WorkUnitStatus_parse_as_str in H; simplify_eq.
Qed.

(** An id as every operation stores and looks it up. *)
Definition id_normal (id : string) : Prop := normalize_required_text id "work_unit_id" = Ok id.

Lemma normalize_required_fixed raw f g id :
  normalize_required_text raw f = Ok id -> normalize_required_text id g = Ok id.
Proof.
  unfold normalize_required_text. destruct (str_is_empty (trim raw)) eqn:E; intros; simplify_eq.
  by rewrite trim_trim, E.
Qed.

Lemma generated_id_normal entropy : id_normal (generate_work_unit_id entropy).
Proof.
  unfold id_normal, normalize_required_text.
  rewrite trim_visible; [done|]. unfold generate_work_unit_id. rewrite str_forallb_app.
  by rewrite fmt_016x_visible.
Qed.

Lemma status_in_as_str l r s :
  wr_status r = WorkUnitStatus_as_str s -> status_in l r = bool_decide (s ∈ l).
Proof.
  intros Hs. unfold status_in. rewrite Hs. apply bool_decide_ext. rewrite list_elem_of_fmap. split.
  - by intros (t & ->%WorkUnitStatus_as_str_inj & Ht).
  - eauto.
Qed.

(** ** Well-formed rows *)

Section rows.
Context {J : SerdeJson} {C : WorkCodec} {L : WorkCodecLaws}.

Definition lease_shape (s : WorkUnitStatus) (r : WorkUnitRow) : Prop :=
  match s with
  | Leased | Running =>
      is_Some (wr_lease_owner r) /\ is_Some (wr_lease_acquired_at_ms r) /\
      is_Some (wr_lease_heartbeat_at_ms r) /\ is_Some (wr_lease_expires_at_ms r) /\
      (1 <= wr_attempt_count r)%Z
  | _ => wr_lease_owner r = None /\ wr_lease_acquired_at_ms r = None /\
         wr_lease_heartbeat_at_ms r = None /\ wr_lease_expires_at_ms r = None
  end.

Definition archive_shape (s : WorkUnitStatus) (r : WorkUnitRow) : Prop :=
  match s with Archived => is_Some (wr_archived_at_ms r) | _ => wr_archived_at_ms r = None end.

(** A row in status [s], with at most [n] attempts. *)
Record row_ok (n : Z) (s : WorkUnitStatus) (r : WorkUnitRow) : Prop := {
  row_id : id_normal (wr_work_unit_id r);
  row_kind : exists k, wr_kind r = WorkUnitKind_as_str k;
  row_status : wr_status r = WorkUnitStatus_as_str s;
  row_priority : exists p, wr_priority r = WorkUnitPriority_as_str p
                           /\ wr_priority_rank r = priority_rank p;
  row_source : exists x, source_ref_from_str (wr_source_ref_json r) = Ok x;
  row_policy : exists p, retry_policy_from_str (wr_retry_policy_json r) = Ok p
                         /\ validate_retry_policy p = Ok tt;
  row_attempts : (0 <= wr_attempt_count r <= n)%Z;
  row_version : wr_lease_version r = wr_attempt_count r;
  row_lease : lease_shape s r;
  row_archive : archive_shape s r;
}.

Lemma row_ok_mono n m s r : (n <= m)%Z -> row_ok n s r -> row_ok m s r.
Proof. intros Hnm []. split; try done. lia. Qed.

Lemma fresh_row_ok io record row : fresh_row io record row -> row_ok 0 (nw_status record) row.
Proof.
  intros [Hid Hkind Hini Hst Hpr Hrk Hsrc Hval Hpol Hatt Hpay How Hver Hacq Hhb Hexp Harc].
  split; try eauto.
  - destruct (nw_work_unit_id record) as [raw|]; [by eapply normalize_required_fixed|].
    rewrite Hid. apply generated_id_normal.
  - apply source_ref_round_trip in Hsrc. eauto.
  - apply retry_policy_round_trip in Hpol. eauto.
  - lia.
  - congruence.
  - by destruct (nw_status record).
  - by destruct (nw_status record).
Qed.

(** The statuses an attempt can end in. *)
Definition attempt_end (s : WorkUnitStatus) : bool :=
  match s with WorkCompleted | FailedTerminal | Cancelled | RetryPending => true | _ => false end.

Lemma resolve_completion_end d p n now next err c :
  resolve_completion d p n now next err = Ok c -> attempt_end (cr_status c) = true.
Proof.
  unfold resolve_completion. destruct d; intros; simplify_eq; try done.
  case_match; simplify_eq; [done|]. destruct next as [t|]; simpl in *; simplify_eq; [done|].
  destruct (compute_retry_delay_ms p n) as [d|]; simpl in *; [|done].
  destruct (add_delay_ms now d); simpl in *; by simplify_eq.
Qed.

Lemma resolve_recovery_end p n now e c :
  resolve_recovery p n now e = Ok c ->
  rr_status c = FailedTerminal \/ rr_status c = RetryPending.
Proof.
  unfold resolve_recovery. case_match; intros; simplify_eq; [by left|].
  destruct (compute_retry_delay_ms p n) as [d|]; simpl in *; [|done].
  destruct (add_delay_ms now d); simpl in *; simplify_eq. by right.
Qed.

(** The statuses [update_work_unit] may read and write. *)
Definition editable (s : WorkUnitStatus) : bool :=
  match s with
  | Captured | Triaged | Ready | WaitingExternal | WaitingReview | RetryPending | Cancelled => true
  | _ => false
  end.

Lemma requested_status_ok req s status :
  requested_status req s (WorkUnitStatus_as_str s) = Ok status ->
  exists s', status = WorkUnitStatus_as_str s' /\
             (s' = s \/ (editable s = true /\ editable s' = true)).
Proof.
  unfold requested_status. destruct req as [s'|]; [|intros; simplify_eq; eauto].
  unfold validate_manual_update_status. intros H. exists s'.
  destruct s', s; simpl in *; simplify_eq; auto.
Qed.

(** The life cycle: what one call may make of a unit's status. *)
Inductive lifecycle : WorkUnitStatus -> WorkUnitStatus -> Prop :=
| LifeLease s : WorkUnitStatus_is_ready_for_lease s = true -> lifecycle s Leased
| LifeStart : lifecycle Leased Running
| LifeEnd s s' : s = Leased \/ s = Running -> attempt_end s' = true -> lifecycle s s'
| LifeArchive s : WorkUnitStatus_is_terminal s = true -> s <> Archived -> lifecycle s Archived
| LifeEdit s s' : editable s = true -> editable s' = true -> lifecycle s s'.

Lemma i64_wrapping_succ v : (0 <= v < u32_max)%Z -> i64_wrapping_add v 1 = (v + 1)%Z.
Proof. unfold i64_wrapping_add, u32_max. intros. rewrite Z.mod_small by lia. lia. Qed.

Lemma status_in_ready r s :
  wr_status r = WorkUnitStatus_as_str s -> status_in [Ready; RetryPending] r = true ->
  WorkUnitStatus_is_ready_for_lease s = true.
Proof. intros Hs H. rewrite (status_in_as_str _ _ _ Hs) in H. by destruct s. Qed.

Lemma status_in_leased r s :
  wr_status r = WorkUnitStatus_as_str s -> status_in [Leased] r = true -> s = Leased.
Proof. intros Hs H. rewrite (status_in_as_str _ _ _ Hs) in H. by destruct s. Qed.

Lemma status_in_active r s :
  wr_status r = WorkUnitStatus_as_str s -> status_in [Leased; Running] r = true ->
  s = Leased \/ s = Running.
Proof. intros Hs H. rewrite (status_in_as_str _ _ _ Hs) in H. destruct s; try done; auto. Qed.

Lemma eligible_ready db now r :
  eligible db now r = true ->
  status_in [Ready; RetryPending] r = true /\ wr_archived_at_ms r = None /\
  (wr_next_run_at_ms r <= now)%Z /\ has_unfinished_blocker db (wr_work_unit_id r) = false.
Proof.
  unfold eligible, leasable. rewrite !andb_true_iff, bool_decide_eq_true, Z.leb_le, negb_true_iff.
  tauto.
Qed.

(** Any change of a row keeps it well-formed and follows the life cycle. *)
Lemma unit_change_row_ok io db call id r r' n s :
  unit_change io db call id r r' -> row_ok n s r -> (n < u32_max)%Z ->
  exists s', row_ok (n + 1) s' r' /\ (s' = s \/ lifecycle s s').
Proof.
  intros Hc [Hid Hkind Hst Hpr Hsrc Hpol Hatt Hver Hle Har] Hn.
  destruct Hc as [q o e r _ _ (Hr & Hna & _)%eligible_ready|q i o r _ _ Hin Ho
    |q i o e r _ _ _ Hin Ho|q i o p k c pay r _ _ Hin Ho _ _ Hres|a nw p k m c r Hex _ _ _ Hres
    |q i t r _ Hp Ht Hna|q i t ti de st pr parsed nx re r _ Hna Hp Hreq Hpri Hpp
    |q i w r _ Hna|q i r _ Hna].
  - apply (status_in_ready _ s Hst) in Hr. exists Leased. split; [|right; by constructor].
    split; simpl; eauto; try lia; [|split_and!; eauto; lia].
    rewrite i64_wrapping_succ by lia. lia.
  - apply (status_in_leased _ s Hst) in Hin as ->. exists Running. split; [|right; constructor].
    by split; simpl; eauto; try lia.
  - exists s. split; [|by left]. apply (status_in_active _ s Hst) in Hin.
    split; simpl; eauto; try lia. destruct Hin as [-> | ->]; simpl in *; intuition eauto.
  - apply (status_in_active _ s Hst) in Hin. apply resolve_completion_end in Hres.
    exists (cr_status c). split; [|right; by constructor].
    split; simpl; eauto; try lia; destruct (cr_status c); try done; simpl; auto;
      destruct Hin as [-> | ->]; done.
  - unfold lease_expired in Hex. apply andb_true_iff in Hex as [Hin _].
    apply (status_in_active _ s Hst) in Hin. apply resolve_recovery_end in Hres.
    exists (rr_status c). split; [|right; constructor; [done|]; destruct Hres as [-> | ->]; done].
    split; simpl; eauto; try lia; destruct Hres as [-> | ->]; simpl; auto;
      destruct Hin as [-> | ->]; done.
  - rewrite Hst, WorkUnitStatus_parse_as_str in Hp. simplify_eq. exists Archived.
    split; [|right; constructor; [done|]; intros ->; simpl in Har; rewrite Hna in Har; by destruct Har].
    split; simpl; eauto; try lia. destruct t; done.
  - rewrite Hst, WorkUnitStatus_parse_as_str in Hp. simplify_eq. rewrite Hst in Hreq.
    apply requested_status_ok in Hreq as (s' & -> & Hs'). exists s'.
    split; [|destruct Hs' as [->|[? ?]]; [by left|right; by apply LifeEdit]].
    assert (lease_shape s' r /\ archive_shape s' r) as [Hle' Har'].
    { destruct Hs' as [->|[He He']]; [done|]. destruct t, s'; done. }
    split; simpl; eauto; try lia.
    exists parsed. split; [|done]. destruct (up_priority q) as [p'|].
    { rewrite WorkUnitPriority_parse_as_str in Hpp. by simplify_eq. }
    destruct Hpr as (p' & Hp' & _). rewrite Hp', WorkUnitPriority_parse_as_str in Hpp. by simplify_eq.
  - exists s. split; [|by left]. split; simpl; eauto; try lia.
  - exists s. split; [|by left]. split; simpl; eauto; try lia.
Qed.

Lemma set_touched_row_ok now n s r : row_ok n s r -> row_ok n s (set_touched now r).
Proof. intros []. split; done. Qed.

(** ** The tables *)

Definition log_size (db : WorkDb) : Z := Z.of_nat (length (db_events db)).

Definition rows_ok (db : WorkDb) : Prop :=
  (log_size db <= u32_max)%Z ->
  map_Forall (fun _ r => exists s, row_ok (log_size db) s r) (db_units db).

Lemma logged_size db id events :
  logged db id events -> Z.of_nat (length events) = (log_size db + 1)%Z.
Proof. intros (e & -> & _). unfold log_size. rewrite length_app. simpl. lia. Qed.

(** One row of a step, seen from before: unchanged, touched or changed. *)
Lemma work_step_lookup io call db db' id r :
  work_step io call db db' -> keys_ok db -> db_units db !! id = Some r ->
  log_size db' = (log_size db + 1)%Z /\
  exists r', db_units db' !! id = Some r' /\
    (r' = r \/ (exists now, r' = set_touched now r) \/ unit_change io db call id r r').
Proof.
  intros Hs Hk Hr.
  destruct Hs as [record a db row ev Hf Hno Hl|call db i r0 r1 ev Hr0 Hc Hl
    |q db x y st r0 ev _ _ _ _ Hr0 _ _ Hl|q db x y r0 ev Hr0 _ Hl];
    (split; [by apply logged_size in Hl|]); simpl.
  - destruct (decide (wr_work_unit_id row = id)) as [<-|]; [congruence|].
    rewrite lookup_insert_ne by done. eauto.
  - destruct (decide (i = id)) as [<-|]; [|rewrite lookup_insert_ne by done; eauto].
    simplify_eq. rewrite lookup_insert_eq. eauto.
  - destruct (decide (y = id)) as [<-|]; [|rewrite lookup_insert_ne by done; eauto].
    simplify_eq. rewrite lookup_insert_eq. eauto 6.
  - destruct (decide (y = id)) as [<-|]; [|rewrite lookup_insert_ne by done; eauto].
    simplify_eq. rewrite lookup_insert_eq. eauto 6.
Qed.

(** A row of a step, seen from after: an old one, or a fresh one. *)
Lemma work_step_lookup_inv io call db db' id r' :
  work_step io call db db' -> db_units db' !! id = Some r' ->
  is_Some (db_units db !! id) \/ exists record, fresh_row io record r'.
Proof.
  intros Hs H'. destruct (db_units db !! id) as [r|] eqn:Hr; [by left; eexists|right].
  destruct Hs; simpl in *; apply lookup_insert_Some in H' as [[<- <-]|[Hne H']];
    simplify_eq; eauto.
Qed.

Lemma work_step_rows io call db db' :
  work_step io call db db' -> keys_ok db -> rows_ok db -> rows_ok db'.
Proof.
  intros Hs Hk Hok Hsize id r' Hr'.
  destruct (work_step_lookup_inv _ _ _ _ _ _ Hs Hr') as [[r Hr]|[record Hf]].
  - destruct (work_step_lookup _ _ _ _ _ _ Hs Hk Hr) as (Hlen & r'' & Hr'' & Hch). simplify_eq.
    destruct (Hok ltac:(lia) id r Hr) as [s Hrow]. rewrite Hlen.
    destruct Hch as [->|[[now ->]|Hch]].
    + exists s. eapply row_ok_mono; [|done]. lia.
    + exists s. apply set_touched_row_ok. eapply row_ok_mono; [|done]. lia.
    + edestruct unit_change_row_ok as (s' & ? & _); eauto. lia.
  - exists (nw_status record). eapply row_ok_mono; [|by eapply fresh_row_ok]. unfold log_size. lia.
Qed.

Lemma rows_ok_empty : rows_ok WorkDb_empty.
Proof. intros _. apply map_Forall_empty. Qed.

Lemma run_history_rows h db :
  keys_ok db -> rows_ok db -> keys_ok (run_history h db) /\ rows_ok (run_history h db).
Proof. intros. apply run_history_ind; eauto using work_step_rows. Qed.

(** ** Reading a unit back *)

(** The stored result payload parses: [serde_json] refuses a text nested deeper
    than its recursion limit, which it may have written itself. *)
Definition payload_readable (r : WorkUnitRow) : Prop :=
  match wr_result_payload_json r with Some t => is_ok (value_from_str t) = true | None => True end.

Lemma build_lease_record_ok n s r :
  row_ok n s r -> exists l, build_lease_record r = Ok l /\
    wl_owner <$> l = wr_lease_owner r /\ wl_expires_at_ms <$> l = wr_lease_expires_at_ms r /\
    (forall w, l = Some w -> wl_lease_version w = wr_attempt_count r).
Proof.
  intros [_ _ _ _ _ _ Hatt Hver Hle _]. unfold build_lease_record.
  assert ((wr_lease_version r <? 0)%Z = false) as Hv by lia.
  destruct (wr_lease_owner r) as [o|] eqn:Ho.
  - rewrite Hv. destruct s; simpl in Hle; try by destruct Hle as (? & _); congruence.
    all: destruct Hle as (_ & [a ->] & [b ->] & [c ->] & _); simpl; eexists;
      split_and!; [done..|]; intros w [= <-]; done.
  - exists None. split_and!; try done. destruct s; simpl in Hle; try by destruct Hle as (_ & _ & _ & ->).
    all: destruct Hle as ([? ?] & _); congruence.
Qed.

Lemma row_snapshot_ok db n s r :
  row_ok n s r -> (n <= u32_max)%Z -> payload_readable r ->
  exists snap, try_work_unit_snapshot_from_raw (hydrate_raw_work_unit_relationships db r) = Ok snap
    /\ wu_work_unit_id (ws_work_unit snap) = wr_work_unit_id r
    /\ wu_status (ws_work_unit snap) = s
    /\ wu_attempt_count (ws_work_unit snap) = wr_attempt_count r
    /\ wl_owner <$> ws_lease snap = wr_lease_owner r
    /\ wl_expires_at_ms <$> ws_lease snap = wr_lease_expires_at_ms r.
Proof.
  intros Hrow Hn Hp. destruct (build_lease_record_ok _ _ _ Hrow) as (l & Hl & Ho & He & _).
  destruct Hrow as [_ [k Hk] Hst (p & Hpr & _) [x Hx] (pol & Hpol & _) Hatt _ _ _].
  unfold try_work_unit_snapshot_from_raw. simpl.
  rewrite Hk, WorkUnitKind_parse_as_str, Hst, WorkUnitStatus_parse_as_str, Hpr,
    WorkUnitPriority_parse_as_str, Hx, Hpol, Hl. simpl.
  unfold attempt_count_u32.
  rewrite (proj2 (orb_false_iff _ _)) by (split; lia). simpl. unfold payload_readable in Hp.
  destruct (wr_result_payload_json r) as [t|]; simpl; [|eexists; split_and!; done].
  destruct (value_from_str t); [|done]. simpl. eexists; split_and!; done.
Qed.

Lemma load_snapshot_ok db id n s r :
  db_units db !! id = Some r -> wr_work_unit_id r = id ->
  row_ok n s r -> (n <= u32_max)%Z -> payload_readable r ->
  exists snap, load_work_unit_snapshot (Ok tt) (Ok tt) id db = (Returned (Ok (Some snap)), db)
    /\ wu_work_unit_id (ws_work_unit snap) = id
    /\ wu_status (ws_work_unit snap) = s
    /\ wu_attempt_count (ws_work_unit snap) = wr_attempt_count r
    /\ wl_owner <$> ws_lease snap = wr_lease_owner r
    /\ wl_expires_at_ms <$> ws_lease snap = wr_lease_expires_at_ms r.
Proof.
  intros Hr <- Hrow Hn Hp. destruct (row_snapshot_ok db n s r Hrow Hn Hp) as (snap & Hs & ?).
  exists snap. split; [|done]. unfold load_work_unit_snapshot. rewrite (row_id _ _ _ Hrow).
  unfold try_bind, bind, ret, load_raw_work_unit_with_conn, gets. simpl. rewrite Hr. simpl.
  by rewrite Hs.
Qed.

(** C23 (type). After any history on an empty queue, while the log has at most
    [u32::MAX] entries, every row is keyed by its normalized id and is
    well-formed in the status it parses to (texts that parse back, a valid retry
    policy, the four lease columns set exactly in the statuses Leased and
    Running, the lease version equal to the number of attempts, the archive
    stamp exactly in status Archived); so reading a unit back succeeds whenever
    its stored result payload is one [serde_json] reads. *)
Theorem work_rows_well_formed h id r :
  let db := run_history h WorkDb_empty in
  (log_size db <= u32_max)%Z -> db_units db !! id = Some r ->
  wr_work_unit_id r = id /\
  exists s, row_ok (log_size db) s r /\
    (payload_readable r ->
     exists snap, load_work_unit_snapshot (Ok tt) (Ok tt) id db = (Returned (Ok (Some snap)), db)
       /\ wu_work_unit_id (ws_work_unit snap) = id
       /\ wu_status (ws_work_unit snap) = s
       /\ wu_attempt_count (ws_work_unit snap) = wr_attempt_count r
       /\ wl_owner <$> ws_lease snap = wr_lease_owner r
       /\ wl_expires_at_ms <$> ws_lease snap = wr_lease_expires_at_ms r).
Proof.
  intros db Hsize Hr.
  destruct (run_history_rows h WorkDb_empty (map_Forall_empty _) rows_ok_empty) as [Hk Hok].
  destruct (Hok Hsize id r Hr) as [s Hrow]. pose proof (Hk _ _ Hr) as Hid.
  split; [done|]. exists s. split; [done|]. intros Hp. by eapply load_snapshot_ok.
Qed.
End rows.
