(* ===== verification/WorkLeases.v ===== *)
(** * Histories of one unit of work

    What a unit's row becomes along a history: its identity never changes, its
    status follows the life cycle, a finished unit stays finished; a lease stays
    with its owner until it expires, whoever else calls; attempts stay within the
    retry policy; and a call that fails before its commit changes nothing. *)

From S2P Require Import Prelude RustStr Contracts Work WorkSteps WorkGraph WorkRows.

Section leases.
Context {J : SerdeJson} {C : WorkCodec} {L : WorkCodecLaws}.

Lemma work_step_log io call db db' : work_step io call db db' -> (log_size db' = log_size db + 1)%Z.
Proof.
  intros [? ? ? ? ? _ _ Hl|? ? ? ? ? ? _ _ Hl|? ? ? ? ? ? ? _ _ _ _ _ _ _ Hl|? ? ? ? ? ? _ _ Hl];
    by apply logged_size in Hl.
Qed.

Lemma run_history_log h db : keys_ok db -> (log_size db <= log_size (run_history h db))%Z.
Proof.
  intros Hk. apply (run_history_ind (fun db' => log_size db <= log_size db')%Z h db Hk); [lia|].
  intros ???? _ _ ? ?%work_step_log. lia.
Qed.

(** An invariant along a history that may depend on the tables it started from,
    for rows that are well-formed. *)
Lemma run_history_row (P : WorkUnitRow -> Prop) h db id r :
  keys_ok db -> rows_ok db -> db_units db !! id = Some r -> P r ->
  (forall io call db s r r', (io, call) ∈ h -> row_ok (log_size db) s r -> wr_work_unit_id r = id ->
     (log_size db < u32_max)%Z -> P r ->
     (exists now, r' = set_touched now r) \/ unit_change io db call id r r' -> P r') ->
  (log_size (run_history h db) <= u32_max)%Z ->
  exists r', db_units (run_history h db) !! id = Some r' /\ P r'.
Proof.
  intros Hk Hok Hr HP Hstep.
  apply (run_history_ind (fun db => rows_ok db /\ ((log_size db <= u32_max)%Z ->
    exists r', db_units db !! id = Some r' /\ P r')) h db); [done|eauto|].
  clear dependent db. clear r HP. intros io call db db' Hin Hk [Hok HP] Hs.
  split; [by eapply work_step_rows|]. intros Hsize.
  pose proof (work_step_log _ _ _ _ Hs) as Hlen. destruct HP as (r & Hr & HPr); [lia|].
  destruct (work_step_lookup _ _ _ _ _ _ Hs Hk Hr) as (_ & r' & Hr' & Hch).
  exists r'. split; [done|]. destruct Hch as [->|Hch]; [done|].
  destruct (Hok ltac:(lia) id r Hr) as [s Hrow].
  eapply Hstep; eauto. lia.
Qed.

(** ** Identity, life cycle, and finished units *)

(** Finished for good: only archiving is left. *)
Definition sealed (s : WorkUnitStatus) : bool :=
  match s with WorkCompleted | FailedTerminal | Archived => true | _ => false end.

Record evolves (s : WorkUnitStatus) (r : WorkUnitRow) (s' : WorkUnitStatus) (r' : WorkUnitRow)
  : Prop := {
  ev_status : wr_status r' = WorkUnitStatus_as_str s';
  ev_life : rtc lifecycle s s';
  ev_id : wr_work_unit_id r' = wr_work_unit_id r;
  ev_kind : wr_kind r' = wr_kind r;
  ev_source : wr_source_ref_json r' = wr_source_ref_json r;
  ev_policy : wr_retry_policy_json r' = wr_retry_policy_json r;
  ev_parent : wr_parent_work_unit_id r' = wr_parent_work_unit_id r;
  ev_created : wr_created_at_ms r' = wr_created_at_ms r;
  ev_attempts : (wr_attempt_count r <= wr_attempt_count r')%Z;
  ev_version : (wr_lease_version r <= wr_lease_version r')%Z;
  ev_sealed : sealed s = true ->
    (s' = s \/ s' = Archived) /\ wr_attempt_count r' = wr_attempt_count r /\
    wr_result_payload_json r' = wr_result_payload_json r /\ wr_last_error r' = wr_last_error r;
}.

Lemma evolves_refl n s r : row_ok n s r -> evolves s r s r.
Proof. intros []. by split; auto using rtc_refl. Qed.

Lemma evolves_trans s r s' r' s'' r'' :
  evolves s r s' r' -> evolves s' r' s'' r'' -> evolves s r s'' r''.
Proof.
  intros [] []. split; try congruence; try lia; [by etrans|].
  intros Hs. destruct (ev_sealed0 Hs) as (Hs' & ? & ? & ?).
  destruct ev_sealed1 as (Hs'' & ? & ? & ?); [by destruct Hs' as [-> | ->]|].
  split_and!; try congruence. destruct Hs' as [->|Hs']; [done|]. right. destruct Hs''; congruence.
Qed.

Lemma sealed_idle s r l :
  wr_status r = WorkUnitStatus_as_str s -> sealed s = true ->
  l = [Leased] \/ l = [Leased; Running] \/ l = [Ready; RetryPending] -> status_in l r = false.
Proof.
  intros Hs Hse Hl. rewrite (status_in_as_str _ _ _ Hs). destruct Hl as [-> |[-> | ->]]; by destruct s.
Qed.

Lemma lifecycle_sealed s s' : lifecycle s s' -> sealed s = true -> s' = Archived.
Proof. intros Hl Hs. destruct s; try done; inversion Hl; subst; naive_solver. Qed.

Lemma unit_change_sealed io db call id r r' n s :
  unit_change io db call id r r' -> row_ok n s r -> sealed s = true ->
  wr_attempt_count r' = wr_attempt_count r /\
  wr_result_payload_json r' = wr_result_payload_json r /\ wr_last_error r' = wr_last_error r.
Proof.
  intros Hc Hrow Hs. pose proof (fun l => sealed_idle s r l (row_status _ _ _ Hrow) Hs) as Hidle.
  destruct Hc; try done; exfalso;
    repeat match goal with H : eligible _ _ _ = true |- _ => apply eligible_ready in H as (H & _) end;
    repeat match goal with H : lease_expired _ _ = true |- _ => apply andb_true_iff in H as [H _] end;
    match goal with H : status_in _ _ = true |- _ => rewrite Hidle in H; [done|auto] end.
Qed.

Lemma unit_change_evolves io db call id r r' n s :
  unit_change io db call id r r' -> row_ok n s r -> (n < u32_max)%Z ->
  exists s', evolves s r s' r'.
Proof.
  intros Hc Hrow Hn. destruct (unit_change_row_ok _ _ _ _ _ _ _ _ Hc Hrow Hn) as (s' & Hrow' & Hlife).
  exists s'.
  assert (wr_attempt_count r <= wr_attempt_count r')%Z by (destruct Hc; simpl; lia).
  split; try by destruct Hc.
  - by destruct Hrow'.
  - destruct Hlife as [->|?]; [apply rtc_refl|by apply rtc_once].
  - rewrite (row_version _ _ _ Hrow), (row_version _ _ _ Hrow'). done.
  - intros Hs. destruct (unit_change_sealed _ _ _ _ _ _ _ _ Hc Hrow Hs) as (? & ? & ?).
    split_and!; try done. destruct Hlife as [?|Hl]; [by left|right]. by eapply lifecycle_sealed.
Qed.

Lemma row_ok_status n s r s' : row_ok n s r -> wr_status r = WorkUnitStatus_as_str s' -> s' = s.
Proof. intros [] Hs. apply WorkUnitStatus_as_str_inj. congruence. Qed.

(** C20 (safety). From any tables an empty queue can reach, a unit that exists
    keeps existing, with its id, kind, source, retry policy, parent and creation
    time; its status only moves along the life cycle (ready, leased, running,
    ended, and edits among the idle statuses), its attempts and lease version
    never decrease, and once it has completed or failed for good only archiving
    is left: attempts, result and last error are frozen. *)
Theorem work_unit_lifecycle h1 h2 id r :
  let db1 := run_history h1 WorkDb_empty in
  let db2 := run_history h2 db1 in
  (log_size db2 <= u32_max)%Z -> db_units db1 !! id = Some r ->
  exists s r' s', wr_status r = WorkUnitStatus_as_str s /\
    db_units db2 !! id = Some r' /\ evolves s r s' r'.
Proof.
  intros db1 db2 Hsize Hr.
  destruct (run_history_rows h1 WorkDb_empty (map_Forall_empty _) rows_ok_empty) as [Hk Hok].
  pose proof (run_history_log h2 db1 Hk) as Hle. fold db2 in Hle.
  destruct (Hok ltac:(fold db1; lia) id r Hr) as [s Hrow].
  destruct (run_history_row (fun r' => exists s', evolves s r s' r') h2 db1 id r) as (r' & Hr' & s' & Hev);
    eauto using evolves_refl.
  - intros io call db t r1 r2 _ Hrow1 _ Hn [s1 Hev] Hch.
    assert (s1 = t) as -> by (eapply row_ok_status; [done|]; apply Hev).
    destruct Hch as [[now ->]|Hch].
    + exists t. eapply evolves_trans; [done|]. destruct Hrow1. by split; auto using rtc_refl.
    + destruct (unit_change_evolves _ _ _ _ _ _ _ _ Hch Hrow1 Hn) as [s' Hev'].
      exists s'. by eapply evolves_trans.
  - exists s, r', s'. split_and!; [apply Hrow|done..].
Qed.

(** ** Leases are exclusive *)

(** A call that is neither the owner's on this unit nor a recovery after the
    lease has expired. *)
Definition foreign (id owner : string) (expires : Z) (p : SqlIo * WorkCall) : Prop :=
  match p.2 with
  | CallStart q => normalize_required_text (st_work_unit_id q) "work_unit_id" <> Ok id \/
                   normalize_required_text (st_owner q) "owner" <> Ok owner
  | CallHeartbeat q => normalize_required_text (hb_work_unit_id q) "work_unit_id" <> Ok id \/
                       normalize_required_text (hb_owner q) "owner" <> Ok owner
  | CallComplete q => normalize_required_text (cp_work_unit_id q) "work_unit_id" <> Ok id \/
                      normalize_required_text (cp_owner q) "owner" <> Ok owner
  | CallRecover _ _ => (call_now p.1 p.2 <= expires)%Z
  | _ => True
  end.

Record same_lease (r r' : WorkUnitRow) : Prop := {
  sl_status : wr_status r' = wr_status r;
  sl_owner : wr_lease_owner r' = wr_lease_owner r;
  sl_version : wr_lease_version r' = wr_lease_version r;
  sl_acquired : wr_lease_acquired_at_ms r' = wr_lease_acquired_at_ms r;
  sl_heartbeat : wr_lease_heartbeat_at_ms r' = wr_lease_heartbeat_at_ms r;
  sl_expires : wr_lease_expires_at_ms r' = wr_lease_expires_at_ms r;
  sl_attempts : wr_attempt_count r' = wr_attempt_count r;
}.

Lemma leased_active n s r o :
  row_ok n s r -> wr_lease_owner r = Some o -> s = Leased \/ s = Running.
Proof. intros [] Ho. destruct s; simpl in *; auto; destruct row_lease as [Hn _]; congruence. Qed.

Lemma unit_change_foreign io db call id r r' n s owner expires :
  unit_change io db call id r r' -> row_ok n s r -> foreign id owner expires (io, call) ->
  wr_lease_owner r = Some owner -> wr_lease_expires_at_ms r = Some expires -> same_lease r r'.
Proof.
  intros Hc Hrow Hf Ho Hex. pose proof (leased_active _ _ _ _ Hrow Ho) as Hs.
  pose proof (row_status _ _ _ Hrow) as Hst.
  unfold foreign in Hf.
  destruct Hc; cbn [fst snd] in Hf; simplify_eq; try (destruct Hf; congruence); try done.
  - match goal with H : eligible _ _ _ = true |- _ => apply eligible_ready in H as [H _];
      apply (status_in_ready _ _ Hst) in H; by destruct Hs; subst end.
  - match goal with H : lease_expired _ _ = true |- _ => apply andb_true_iff in H as [_ H] end.
    rewrite Hex in *. lia.
  - rewrite Hst, WorkUnitStatus_parse_as_str in *. simplify_eq. by destruct Hs; subst.
  - rewrite Hst, WorkUnitStatus_parse_as_str in *. simplify_eq.
    match goal with H : requested_status _ _ _ = _ |- _ =>
      apply requested_status_ok in H as (s' & -> & [->|[He _]]) end; [by split|].
    by destruct Hs; subst.
Qed.

(** C19 (safety). A lease is exclusive until it expires: whatever anybody else
    does meanwhile (acquire, edit, archive, assign, start, heartbeat or complete
    under another name, recover at a clock not after the expiry), the unit keeps
    its status, owner, lease version, stamps and attempt count. *)
Theorem lease_exclusive h1 h2 id r owner expires :
  let db1 := run_history h1 WorkDb_empty in
  let db2 := run_history h2 db1 in
  (log_size db2 <= u32_max)%Z -> db_units db1 !! id = Some r ->
  wr_lease_owner r = Some owner -> wr_lease_expires_at_ms r = Some expires ->
  Forall (foreign id owner expires) h2 ->
  exists r', db_units db2 !! id = Some r' /\ same_lease r r'.
Proof.
  intros db1 db2 Hsize Hr Ho He Hf. rewrite Forall_forall in Hf.
  destruct (run_history_rows h1 WorkDb_empty (map_Forall_empty _) rows_ok_empty) as [Hk Hok].
  apply (run_history_row (same_lease r) h2 db1 id r); [done..| |done].
  intros io call db s r1 r2 Hin Hrow _ _ Hsl Hch.
  assert (same_lease r1 r2) as Hsl'; [|destruct Hsl, Hsl'; split; congruence].
  destruct Hch as [[now ->]|Hch]; [done|].
  eapply unit_change_foreign; [done|done|by apply Hf|destruct Hsl; congruence..].
Qed.

(** ** Attempts *)

(** Attempts left: an idle unit has one to spend, an active one is within its
    policy. *)
Definition within_budget (p : WorkUnitRetryPolicy) (r : WorkUnitRow) : Prop :=
  (wr_attempt_count r <= rp_max_attempts p)%Z /\
  forall s, wr_status r = WorkUnitStatus_as_str s -> editable s = true ->
    (wr_attempt_count r < rp_max_attempts p)%Z.

(** A completion that cancels a unit (and so allows it to be reopened). *)
Definition cancels (call : WorkCall) : bool :=
  match call with
  | CallComplete q => match cp_disposition q with DisposeCancelled => true | _ => false end
  | _ => false
  end.

Lemma resolve_completion_retry d p n now next err c :
  resolve_completion d p n now next err = Ok c -> d <> DisposeCancelled ->
  editable (cr_status c) = true -> (n < rp_max_attempts p)%Z.
Proof.
  unfold resolve_completion. destruct d; intros H Hd; simplify_eq; try done.
  destruct (_ <=? n)%Z eqn:E; [by simplify_eq|]. intros _. lia.
Qed.

Lemma resolve_recovery_retry p n now e c :
  resolve_recovery p n now e = Ok c -> editable (rr_status c) = true ->
  (n < rp_max_attempts p)%Z.
Proof.
  unfold resolve_recovery. destruct (_ <=? n)%Z eqn:E; intros; [by simplify_eq|]. lia.
Qed.

Lemma attempt_count_u32_ok n k : attempt_count_u32 n = Ok k -> k = n.
Proof. unfold attempt_count_u32. case_match; naive_solver. Qed.

Lemma unit_change_budget io db call id r r' n s p :
  unit_change io db call id r r' -> row_ok n s r -> cancels call = false ->
  retry_policy_from_str (wr_retry_policy_json r) = Ok p ->
  within_budget p r -> within_budget p r'.
Proof.
  intros Hc Hrow Hca Hp [Hle Hlt]. pose proof (row_status _ _ _ Hrow) as Hst.
  pose proof (Hlt s Hst) as Hs.
  assert (forall r0 s0, wr_status r0 = WorkUnitStatus_as_str s0 ->
    (editable s0 = true -> wr_attempt_count r0 < rp_max_attempts p)%Z ->
    (wr_attempt_count r0 <= rp_max_attempts p)%Z -> within_budget p r0) as Hmk.
  { intros r0 s0 H0 Hlt0 Hle0. split; [done|]. intros s1 H1 He. apply Hlt0.
    rewrite H0 in H1. by apply WorkUnitStatus_as_str_inj in H1 as ->. }
  destruct Hc; simpl in *; try (by eapply Hmk).
  - match goal with H : eligible _ _ _ = true |- _ => apply eligible_ready in H as [H _];
      apply (status_in_ready _ _ Hst) in H; rename H into Hready end.
    assert (editable s = true) as He by (by destruct s). specialize (Hs He).
    apply (Hmk _ Leased); simpl; [done|done|lia].
  - eapply Hmk; [done| |done]. simpl. intros He.
    assert (policy = p) as -> by congruence.
    match goal with H : attempt_count_u32 _ = _ |- _ => apply attempt_count_u32_ok in H; subst end.
    eapply resolve_completion_retry; [eassumption| |done]. intros Hd. by rewrite Hd in Hca.
  - eapply Hmk; [done| |done]. simpl. intros He.
    assert (policy = p) as -> by congruence.
    match goal with H : attempt_count_u32 _ = _ |- _ => apply attempt_count_u32_ok in H; subst end.
    by eapply resolve_recovery_retry.
  - rewrite Hst, WorkUnitStatus_parse_as_str in *. simplify_eq.
    match goal with H : requested_status _ _ _ = _ |- _ =>
      apply requested_status_ok in H as (s' & -> & [->|[He _]]) end; eapply Hmk; simpl; eauto.
Qed.

(** The retry policy of a new unit has an unsigned attempt limit. *)
Definition call_typed (call : WorkCall) : Prop :=
  match call with CallCreate record _ => (0 <= rp_max_attempts (nw_retry_policy record))%Z | _ => True end.

Definition budget_ok (db : WorkDb) : Prop :=
  (log_size db <= u32_max)%Z -> forall id r p,
    db_units db !! id = Some r -> retry_policy_from_str (wr_retry_policy_json r) = Ok p ->
    within_budget p r.

Lemma fresh_within_budget io record row p :
  fresh_row io record row -> (0 <= rp_max_attempts (nw_retry_policy record))%Z ->
  retry_policy_from_str (wr_retry_policy_json row) = Ok p -> within_budget p row.
Proof.
  intros Hf H0 Hp. rewrite (retry_policy_round_trip _ _ (fresh_policy _ _ _ Hf)) in Hp. simplify_eq.
  pose proof (fresh_valid _ _ _ Hf) as Hv. unfold validate_retry_policy in Hv.
  destruct (rp_max_attempts _ =? 0)%Z eqn:E; [done|].
  unfold within_budget. rewrite (fresh_attempts _ _ _ Hf). split; [|intros]; lia.
Qed.

Lemma work_step_fresh io call db db' id r' :
  work_step io call db db' -> db_units db !! id = None -> db_units db' !! id = Some r' ->
  exists record actor, call = CallCreate record actor /\ fresh_row io record r'.
Proof.
  intros Hs Hno H'. destruct Hs; simpl in *; apply lookup_insert_Some in H' as [[<- <-]|[Hne H']];
    simplify_eq; eauto.
Qed.

Lemma unit_change_policy io db call id r r' :
  unit_change io db call id r r' -> wr_retry_policy_json r' = wr_retry_policy_json r.
Proof. by destruct 1. Qed.

Lemma work_step_budget io call db db' :
  work_step io call db db' -> keys_ok db -> rows_ok db -> cancels call = false -> call_typed call ->
  budget_ok db -> budget_ok db'.
Proof.
  intros Hs Hk Hok Hca Hty HP Hsize i r' p Hr' Hp. pose proof (work_step_log _ _ _ _ Hs).
  destruct (db_units db !! i) as [r|] eqn:Hr.
  - destruct (work_step_lookup _ _ _ _ _ _ Hs Hk Hr) as (_ & r'' & Hr'' & Hch). simplify_eq.
    destruct (Hok ltac:(lia) i r Hr) as [s Hrow].
    assert (retry_policy_from_str (wr_retry_policy_json r) = Ok p) as Hp0
      by (destruct Hch as [->|[[now ->]|Hch]]; [done..|]; by rewrite <- (unit_change_policy _ _ _ _ _ _ Hch)).
    pose proof (HP ltac:(lia) i r p Hr Hp0) as Hb.
    destruct Hch as [->|[[now ->]|Hch]]; [done|exact Hb|]. by eapply unit_change_budget.
  - destruct (work_step_fresh _ _ _ _ _ _ Hs Hr Hr') as (record & actor & -> & Hf).
    by eapply fresh_within_budget.
Qed.

(** A unit is never attempted more often than its retry policy
    allows, in any history in which no worker ends an attempt by cancelling the
    unit; a cancelled unit may be reopened by hand with its attempts spent. *)
Theorem attempts_within_policy h id r p :
  let db := run_history h WorkDb_empty in
  (log_size db <= u32_max)%Z ->
  Forall (fun c => cancels c.2 = false /\ call_typed c.2) h ->
  db_units db !! id = Some r -> retry_policy_from_str (wr_retry_policy_json r) = Ok p ->
  (wr_attempt_count r <= rp_max_attempts p)%Z.
Proof.
  intros db Hsize Hca Hr Hp. rewrite Forall_forall in Hca.
  destruct (run_history_ind (fun db => rows_ok db /\ budget_ok db) h WorkDb_empty) as (_ & _ & Hb).
  - apply map_Forall_empty.
  - split; [apply rows_ok_empty|]. intros _ ??? Hno. done.
  - intros io call db0 db' Hin Hk [Hok Hb] Hs. destruct (Hca _ Hin) as [? ?].
    split; [by eapply work_step_rows|by eapply work_step_budget].
  - by eapply Hb.
Qed.
End leases.
