(* ===== verification/WorkOps.v ===== *)
(** * What the operations of the work queue answer

    The retry delay in closed form; [acquire_next_ready_lease] picks the first
    eligible unit and gives it to its caller, and finds one whenever the queue
    can make progress; [recover_expired_leases] leaves no expired lease behind;
    an error before the commit changes nothing; and the health query has no
    answer on an empty queue. *)

From S2P Require Import Prelude RustStr Contracts Work WorkSteps WorkGraph WorkRows WorkLeases.

(** ** The retry delay *)

Lemma retry_delay_loop_closed m k d :
  (0 <= d <= m)%Z -> (m <= u64_max)%Z ->
  retry_delay_loop m k d = Z.min (d * 2 ^ Z.of_nat k) m.
Proof.
  intros Hd Hm. revert d Hd. induction k as [|k IH]; intros d Hd; cbn [retry_delay_loop].
  - rewrite Z.pow_0_r. lia.
  - unfold u64_saturating_mul. rewrite IH by lia.
    rewrite Nat2Z.inj_succ, Z.pow_succ_r by lia.
    assert (1 <= 2 ^ Z.of_nat k)%Z by (assert (0 < 2 ^ Z.of_nat k)%Z by (apply Z.pow_pos_nonneg; lia); lia).
    generalize dependent (2 ^ Z.of_nat k)%Z. intros e He. nia.
Qed.

(** The delay before the attempt after the [n]th is the initial delay
    doubled [n - 1] times and capped at the policy's maximum: the loop's
    saturating multiplications never show, and an accepted delay is between the
    two bounds of the policy. *)
Theorem retry_delay_closed_form p n :
  u64_valid (rp_initial_backoff_ms p) -> u64_valid (rp_max_backoff_ms p) ->
  validate_retry_policy p = Ok tt -> (1 <= n)%Z ->
  compute_retry_delay_ms p n
    = Ok (Z.min (rp_initial_backoff_ms p * 2 ^ (n - 1)) (rp_max_backoff_ms p)) /\
  (rp_initial_backoff_ms p
     <= Z.min (rp_initial_backoff_ms p * 2 ^ (n - 1)) (rp_max_backoff_ms p)
     <= rp_max_backoff_ms p)%Z.
Proof.
  unfold u64_valid. intros Hi Hm Hv Hn. unfold compute_retry_delay_ms. rewrite Hv. simpl.
  unfold validate_retry_policy in Hv.
  destruct (rp_max_attempts p =? 0)%Z; [done|]. destruct (_ =? 0)%Z eqn:E0; [done|].
  destruct (_ <? _)%Z eqn:E; [done|].
  rewrite retry_delay_loop_closed by lia. rewrite Z2Nat.id by lia. split; [done|].
  assert (0 < 2 ^ (n - 1))%Z by (apply Z.pow_pos_nonneg; lia). nia.
Qed.

Section ops.
Context {J : SerdeJson} {C : WorkCodec} {L : WorkCodecLaws}.

(** Every SQLite call of the operation succeeds. *)
Definition sql_ok (io : SqlIo) : Prop :=
  io_open io = Ok tt /\ io_begin io = Ok tt /\ io_read io = Ok tt /\ io_write io = Ok tt /\
  io_event io = Ok tt /\ io_commit io = Ok tt /\ io_reload io = Ok tt.

Lemma transaction_run {A} io (body : M WorkDb (result (TxEnd A) string)) db :
  sql_ok io ->
  transaction io body db =
    match body db with
    | (Returned (Ok (TxCommit a)), db') => (Returned (Ok a), db')
    | (Returned (Ok (TxDrop a)), _) => (Returned (Ok a), db)
    | (Returned (Err e), _) => (Returned (Err e), db)
    | (Panicked p, _) => (Panicked p, db)
    end.
Proof.
  intros (Ho & Hb & _ & _ & _ & Hc & _). unfold transaction. rewrite Ho, Hb, Hc.
  by destruct (body db) as [[[[]|]|] ?].
Qed.

Lemma transaction_commit_inv {A} io (body : M WorkDb (result (TxEnd A) string)) db a db' :
  transaction io body db = (Returned (Ok a), db') ->
  body db = (Returned (Ok (TxCommit a)), db') \/
  (db' = db /\ exists db1, body db = (Returned (Ok (TxDrop a)), db1)).
Proof.
  unfold transaction. destruct (io_open io), (io_begin io); try done.
  destruct (body db) as [[[[x|x]|e]|p] db1]; try done; [|naive_solver].
  destruct (io_commit io); naive_solver.
Qed.

Lemma try_bind_step {S A B E} (m : M S (result A E)) (f : A -> M S (result B E)) s a s' :
  m s = (Returned (Ok a), s') -> try_bind m f s = f a s'.
Proof. unfold try_bind, bind. by intros ->. Qed.

Lemma update_unit_run io id where_ set db r :
  sql_ok io -> db_units db !! id = Some r -> where_ r = true ->
  update_unit io id where_ set db
    = (Returned (Ok tt), db_set_units (<[id := set r]> (db_units db)) db).
Proof.
  intros (_ & _ & _ & Hw & _) Hr Hwh. unfold update_unit, try_bind, bind, ret, modify, sql_update.
  by rewrite Hw, Hr, Hwh.
Qed.

Lemma insert_event_run io id kind actor payload now db :
  sql_ok io ->
  exists e events, logged db id events /\
    insert_event_in_tx io id kind actor payload now db
      = (Returned (Ok e), {| db_units := db_units db; db_deps := db_deps db; db_events := events |}).
Proof.
  intros (_ & _ & _ & _ & He & _). unfold insert_event_in_tx.
  destruct (value_total payload) as [s Hs]. rewrite Hs.
  unfold try_bind, bind, ret, gets, modify. rewrite He. simpl.
  do 2 eexists. split; [|reflexivity]. eexists. split_and!; done.
Qed.

Lemma update_and_log_run {A} io id where_ set kind actor payload now db r (a : A) :
  sql_ok io -> db_units db !! id = Some r -> where_ r = true ->
  exists events, logged db id events /\
    (run? update_unit io id where_ set in
     run? insert_event_in_tx io id kind actor payload now in
     ret (Ok (TxCommit a))) db
    = (Returned (Ok (TxCommit a)),
       {| db_units := <[id := set r]> (db_units db); db_deps := db_deps db; db_events := events |}).
Proof.
  intros Hio Hr Hw. erewrite try_bind_step by (by apply update_unit_run).
  destruct (insert_event_run io id kind actor payload now
    (db_set_units (<[id := set r]> (db_units db)) db) Hio) as (e & events & Hl & Hrun).
  exists events. split; [exact Hl|]. by rewrite (try_bind_step _ _ _ _ _ Hrun).
Qed.

Lemma head_merge_sort_None {A} (R : relation A) `{!RelDecision R} l :
  head (merge_sort R l) = None -> l = [].
Proof.
  pose proof (merge_sort_Permutation R l) as Hp. destruct (merge_sort R l); [|done].
  intros _. by apply Permutation_nil_l in Hp.
Qed.

Lemma select_run io now db r :
  sql_ok io ->
  head (merge_sort lease_order
    (filter (fun r => eligible db now r = true) (map_to_list (db_units db)).*2)) = r ->
  select_next_ready_raw_work_unit (io_read io) now db
    = (Returned (Ok (hydrate_raw_work_unit_relationships db <$> r)), db).
Proof.
  intros (_ & _ & Hrd & _) <-. unfold select_next_ready_raw_work_unit, try_bind, bind, ret, gets.
  by rewrite Hrd.
Qed.

(** What [acquire_next_ready_lease] does once its transaction has selected a
    unit, and when it has not. *)
Lemma acquire_none io q owner expires db :
  sql_ok io -> normalize_required_text (aq_owner q) "owner" = Ok owner ->
  validate_ttl_ms (aq_ttl_ms q) = Ok tt ->
  add_delay_ms (call_now io (CallAcquire q)) (aq_ttl_ms q) = Ok expires ->
  head (merge_sort lease_order (filter (fun r => eligible db (call_now io (CallAcquire q)) r = true)
    (map_to_list (db_units db)).*2)) = None ->
  acquire_next_ready_lease io q db = (Returned (Ok None), db).
Proof.
  intros Hio Ho Ht He Hsel. unfold acquire_next_ready_lease. rewrite Ho, Ht. simpl.
  unfold call_now in *. rewrite He. cbn [try_bind bind ret].
  rewrite (try_bind_step _ _ db None db); [done|]. rewrite transaction_run by done.
  by rewrite (try_bind_step _ _ _ _ _ (select_run _ _ _ _ Hio Hsel)).
Qed.

(** The tables after leasing a row. *)
Lemma acquire_some io q owner expires db id r :
  sql_ok io -> keys_ok db -> rows_ok db -> (log_size db < u32_max)%Z ->
  normalize_required_text (aq_owner q) "owner" = Ok owner ->
  validate_ttl_ms (aq_ttl_ms q) = Ok tt ->
  add_delay_ms (call_now io (CallAcquire q)) (aq_ttl_ms q) = Ok expires ->
  db_units db !! id = Some r -> payload_readable r ->
  eligible db (call_now io (CallAcquire q)) r = true ->
  head (merge_sort lease_order (filter (fun r => eligible db (call_now io (CallAcquire q)) r = true)
    (map_to_list (db_units db)).*2)) = Some r ->
  let r' := set_leased owner (wr_attempt_count r + 1) (call_now io (CallAcquire q)) expires r in
  exists snap events,
    logged db id events /\
    acquire_next_ready_lease io q db = (Returned (Ok (Some snap)),
      {| db_units := <[id := r']> (db_units db); db_deps := db_deps db; db_events := events |}) /\
    wu_work_unit_id (ws_work_unit snap) = id /\ wu_status (ws_work_unit snap) = Leased /\
    wu_attempt_count (ws_work_unit snap) = (wr_attempt_count r + 1)%Z /\
    wl_owner <$> ws_lease snap = Some owner /\ wl_expires_at_ms <$> ws_lease snap = Some expires.
Proof.
  intros Hio Hk Hok Hsize Ho Ht He Hr Hpay Hel Hsel r'. 
  assert (wr_work_unit_id r = id) as Hid by exact (Hk _ _ Hr). subst id.
  destruct (Hok ltac:(lia) _ _ Hr) as [s Hrow].
  assert (i64_wrapping_add (wr_lease_version r) 1 = (wr_attempt_count r + 1)%Z) as Hv.
  { rewrite (row_version _ _ _ Hrow). apply i64_wrapping_succ. pose proof (row_attempts _ _ _ Hrow). lia. }
  assert (unit_change io db (CallAcquire q) (wr_work_unit_id r) r r') as Hc
    by (unfold r'; rewrite <- Hv; by econstructor).
  destruct (unit_change_row_ok _ _ _ _ _ _ _ _ Hc Hrow) as (s' & Hrow' & _); [lia|].
  assert (s' = Leased) as -> by (symmetry; by eapply row_ok_status).
  unfold acquire_next_ready_lease. rewrite Ho, Ht. simpl. unfold call_now in *. rewrite He.
  cbn [try_bind bind ret].
  match goal with |- context [try_bind (transaction io ?b) ?k db] =>
    assert (exists events, logged db (wr_work_unit_id r) events /\
      transaction io b db = (Returned (Ok (Some (wr_work_unit_id r))),
        {| db_units := <[wr_work_unit_id r := r']> (db_units db); db_deps := db_deps db;
           db_events := events |})) as (events & Hl & Htx) end.
  { rewrite transaction_run by done.
    erewrite try_bind_step; [|by apply select_run].
    cbn [fmap option_fmap option_map raw_row hydrate_raw_work_unit_relationships]. rewrite Hv.
    assert (leasable (default (io_now_ms io) (aq_now_ms q)) r = true) as Hw
      by (unfold eligible in Hel; by apply andb_true_iff in Hel as [? _]).
    match goal with |- context [(try_bind (update_unit io ?i ?w ?st)
        (fun _ => try_bind (insert_event_in_tx io _ ?k ?a ?p ?n) _)) db] =>
      destruct (update_and_log_run io i w st k a p n db r (Some (wr_work_unit_id r)) Hio Hr Hw)
        as (events & Hl & Hrun) end.
    exists events. split; [done|]. by rewrite Hrun. }
  rewrite (try_bind_step _ _ _ _ _ Htx).
  edestruct (load_snapshot_ok {| db_units := <[wr_work_unit_id r := r']> (db_units db);
    db_deps := db_deps db; db_events := events |} (wr_work_unit_id r) (log_size db + 1) Leased r')
    as (snap & Hload & ? & ? & ? & ? & ?); [apply lookup_insert_eq|done|exact Hrow'|lia|done|].
  exists snap, events. split; [done|]. split; [|done].
  unfold reload. destruct Hio as (_ & _ & _ & _ & _ & _ & ->). exact Hload.
Qed.

(** C5 (functional). After any history of the queue, [acquire_next_ready_lease] leases exactly one unit if any is eligible
    (ready or due for a retry, not archived, due, not leased, with no unfinished
    blocker), and then the first one by priority, due time, last update and id: it
    returns that unit, leased to the caller until the requested time with one
    attempt more, and changes nothing else but the log.  It answers [None] and
    changes nothing exactly when no unit is eligible.  This is for calls whose owner,
    time to live and expiry are valid, while the database answers, the log has fewer
    than [u32::MAX] entries and the stored payloads can be read. *)
Theorem acquire_leases_first_eligible io q owner expires h :
  let db := run_history h WorkDb_empty in
  let now := call_now io (CallAcquire q) in
  sql_ok io -> (log_size db < u32_max)%Z ->
  map_Forall (fun _ r => payload_readable r) (db_units db) ->
  normalize_required_text (aq_owner q) "owner" = Ok owner ->
  validate_ttl_ms (aq_ttl_ms q) = Ok tt -> add_delay_ms now (aq_ttl_ms q) = Ok expires ->
  (acquire_next_ready_lease io q db = (Returned (Ok None), db) /\
   map_Forall (fun _ r => eligible db now r = false) (db_units db)) \/
  (exists id r snap events,
     db_units db !! id = Some r /\ eligible db now r = true /\
     (forall id' r', db_units db !! id' = Some r' -> eligible db now r' = true -> lease_order r r') /\
     logged db id events /\
     acquire_next_ready_lease io q db = (Returned (Ok (Some snap)),
       {| db_units := <[id := set_leased owner (wr_attempt_count r + 1) now expires r]> (db_units db);
          db_deps := db_deps db; db_events := events |}) /\
     wu_work_unit_id (ws_work_unit snap) = id /\ wu_status (ws_work_unit snap) = Leased /\
     wu_attempt_count (ws_work_unit snap) = (wr_attempt_count r + 1)%Z /\
     wl_owner <$> ws_lease snap = Some owner /\ wl_expires_at_ms <$> ws_lease snap = Some expires).
Proof.
  intros db now Hio Hsize Hpay Ho Ht He.
  destruct (run_history_rows h WorkDb_empty (map_Forall_empty _) rows_ok_empty) as [Hk Hok].
  destruct (head (merge_sort lease_order (filter (fun r => eligible db now r = true)
    (map_to_list (db_units db)).*2))) as [r|] eqn:Hsel.
  - right. destruct (selected_best _ _ _ Hsel) as ([id Hr] & Hel & Hbest).
    destruct (acquire_some io q owner expires db id r) as (snap & events & Hl & Hrun & Hsnap);
      try done; [by eapply Hpay|].
    exists id, r, snap, events. exact (conj Hr (conj Hel (conj Hbest (conj Hl (conj Hrun Hsnap))))).
  - left. split; [by eapply acquire_none|]. apply head_merge_sort_None in Hsel.
    intros id r Hr. apply not_true_iff_false. intros Hel.
    assert (r ∈ filter (fun r => eligible db now r = true) (map_to_list (db_units db)).*2) as Hin.
    { apply list_elem_of_filter. split; [done|]. apply elem_of_rows. eauto. }
    rewrite Hsel in Hin. by apply not_elem_of_nil in Hin.
Qed.

Lemma ready_unfinished n s r :
  row_ok n s r -> status_in [Ready; RetryPending] r = true -> unfinished r = true.
Proof.
  intros Hrow. unfold unfinished. rewrite !(status_in_as_str _ _ s) by apply Hrow. by destruct s.
Qed.

(** C22 (liveness). The queue makes progress: if some unit is unfinished and every
    unfinished unit is ready for a lease at the caller's clock, whatever the
    dependencies, [acquire_next_ready_lease] leases one. *)
Theorem queue_makes_progress io q owner expires h :
  let db := run_history h WorkDb_empty in
  let now := call_now io (CallAcquire q) in
  sql_ok io -> (log_size db < u32_max)%Z ->
  map_Forall (fun _ r => payload_readable r) (db_units db) ->
  normalize_required_text (aq_owner q) "owner" = Ok owner ->
  validate_ttl_ms (aq_ttl_ms q) = Ok tt -> add_delay_ms now (aq_ttl_ms q) = Ok expires ->
  (exists id r, db_units db !! id = Some r /\ unfinished r = true) ->
  map_Forall (fun _ r => unfinished r = true -> leasable now r = true) (db_units db) ->
  exists id r snap db',
    db_units db !! id = Some r /\ unfinished r = true /\
    acquire_next_ready_lease io q db = (Returned (Ok (Some snap)), db') /\
    wu_work_unit_id (ws_work_unit snap) = id /\ wl_owner <$> ws_lease snap = Some owner.
Proof.
  intros db now Hio Hsize Hpay Ho Ht He Hun Hall.
  destruct (run_history_rows h WorkDb_empty (map_Forall_empty _) rows_ok_empty) as [Hk Hok].
  destruct (run_history_deps h _ keys_ok_empty deps_ok_empty) as [_ Hdeps].
  destruct (unfinished_unblocked db Hdeps Hun) as (id0 & r0 & Hr0 & Hu0 & Hb0).
  assert (wr_work_unit_id r0 = id0) as Hid0 by exact (Hk _ _ Hr0). subst id0.
  assert (eligible db now r0 = true) as Hel0.
  { unfold eligible. rewrite Hb0, andb_true_r. by apply (Hall _ _ Hr0). }
  destruct (head (merge_sort lease_order (filter (fun r => eligible db now r = true)
    (map_to_list (db_units db)).*2))) as [r|] eqn:Hsel.
  - destruct (selected_best _ _ _ Hsel) as ([id Hr] & Hel & _).
    destruct (acquire_some io q owner expires db id r) as (snap & events & _ & Hrun & Hid & _ & _ & Hown & _);
      try done; [by eapply Hpay|].
    exists id, r, snap. eexists. split_and!; [done| |exact Hrun|done..].
    apply eligible_ready in Hel as [Hin _]. destruct (Hok ltac:(fold db; lia) _ _ Hr) as [s Hrow].
    by eapply ready_unfinished.
  - apply head_merge_sort_None in Hsel. exfalso.
    assert (r0 ∈ filter (fun r => eligible db now r = true) (map_to_list (db_units db)).*2) as Hin.
    { apply list_elem_of_filter. split; [done|]. apply elem_of_rows. eauto. }
    rewrite Hsel in Hin. by apply not_elem_of_nil in Hin.
Qed.

(** ** Recovery *)

(** No other row's lease is expired after a row has been recovered. *)
Lemma recover_one_done io actor now r db id db' :
  recover_one io actor now r db = (Returned (Ok id), db') ->
  db_units db !! wr_work_unit_id r = Some r -> lease_expired now r = true ->
  exists r', db_units db' !! wr_work_unit_id r = Some r' /\ lease_expired now r' = false /\
    wr_lease_owner r' = None /\ wr_attempt_count r' = wr_attempt_count r.
Proof.
  intros H Hr He. unfold recover_one in H. rust_inv.
  destruct (insert_event_ok _ _ _ _ _ _ _ _ _ ltac:(eassumption)) as (events & _ & ->).
  match goal with H : update_unit _ _ _ _ _ = _ |- _ =>
    pose proof (update_unit_ok _ _ _ _ _ _ _ _ H Hr He) as -> end.
  simpl. eexists. rewrite lookup_insert_eq. split_and!; [done|..|done|done].
  unfold lease_expired. simpl. by rewrite andb_false_r.
Qed.

Lemma recover_all_done io actor now rows db ids db' :
  recover_all io actor now rows db = (Returned (Ok ids), db') ->
  NoDup (wr_work_unit_id <$> rows) ->
  Forall (fun r => db_units db !! wr_work_unit_id r = Some r /\ lease_expired now r = true) rows ->
  ids = wr_work_unit_id <$> rows /\
  (forall id, id ∉ ids -> db_units db' !! id = db_units db !! id) /\
  Forall (fun r => exists r', db_units db' !! wr_work_unit_id r = Some r' /\
    lease_expired now r' = false /\ wr_lease_owner r' = None /\
    wr_attempt_count r' = wr_attempt_count r) rows.
Proof.
  revert db ids. induction rows as [|r rows IH]; simpl; intros db ids H Hn Hf; rust_inv.
  { by split_and!. }
  apply NoDup_cons in Hn as [Hn1 Hn2]. apply Forall_cons in Hf as [[Hr He] Hf].
  match goal with H : recover_one _ _ _ _ _ = _ |- _ => rename H into Hone end.
  match goal with H : recover_all _ _ _ _ _ = _ |- _ => rename H into Hrest end.
  assert (x = wr_work_unit_id r) as -> by (unfold recover_one in Hone; by rust_inv).
  destruct (IH _ _ Hrest Hn2) as (-> & Hother & Hdone); [by eapply recover_one_rest|].
  split_and!; [done|..].
  - intros id [Hne Hni]%not_elem_of_cons. rewrite (Hother id Hni).
    by apply (recover_one_other _ _ _ _ _ _ _ _ Hone).
  - constructor; [|done]. rewrite (Hother _ Hn1). by eapply recover_one_done.
Qed.

(** A recovery that returns has run its loop over the expired rows. *)
Lemma recovery_rows io actor now db snaps db' :
  keys_ok db ->
  recover_expired_leases io actor now db = (Returned (Ok snaps), db') ->
  let clock := call_now io (CallRecover actor now) in
  exists rows a ids, NoDup (wr_work_unit_id <$> rows) /\
    Forall (fun r => db_units db !! wr_work_unit_id r = Some r /\ lease_expired clock r = true) rows /\
    (forall id r, db_units db !! id = Some r -> lease_expired clock r = true -> r ∈ rows) /\
    recover_all io a clock rows db = (Returned (Ok ids), db').
Proof.
  intros Hk H clock. unfold recover_expired_leases in H.
  apply try_bind_ok in H as (ids & db1 & Htx & Hre).
  pose proof (readonly_reload_all io ids db1) as Hro. rewrite Hre in Hro. simpl in Hro. subst db'.
  apply transaction_commit_inv in Htx as [Htx|(_ & ? & Htx)]; rust_inv.
  match goal with H : load_expired_raw_work_units_with_conn _ _ _ = (_, _) |- _ =>
    apply expired_ok in H as [-> ->] end.
  rewrite raw_row_hydrate in *. destruct (expired_rows db clock Hk) as (? & ? & ?).
  do 3 eexists. split_and!; [done..|eassumption].
Qed.

(** A recovery that returns leaves no expired lease: every
    expired lease was cleared, its attempt counted as spent, and every other unit
    is untouched. *)
Theorem recovery_clears_expired io actor now h snaps db' :
  let db := run_history h WorkDb_empty in
  let clock := call_now io (CallRecover actor now) in
  recover_expired_leases io actor now db = (Returned (Ok snaps), db') ->
  map_Forall (fun _ r => lease_expired clock r = false) (db_units db') /\
  forall id r, db_units db !! id = Some r ->
    exists r', db_units db' !! id = Some r' /\
      if lease_expired clock r
      then wr_lease_owner r' = None /\ wr_attempt_count r' = wr_attempt_count r
      else r' = r.
Proof.
  intros db clock H.
  destruct (run_history_rows h WorkDb_empty (map_Forall_empty _) rows_ok_empty) as [Hk _].
  destruct (recovery_rows _ _ _ _ _ _ Hk H) as (rows & a & ids & Hn & Hf & Hall & Hrec).
  fold db clock in Hk, Hf, Hall, Hrec.
  destruct (recover_all_done _ _ _ _ _ _ _ Hrec Hn Hf) as (-> & Hother & Hdone).
  rewrite Forall_forall in Hf, Hdone.
  assert (forall id r, db_units db !! id = Some r -> exists r', db_units db' !! id = Some r' /\
    lease_expired clock r' = false /\ if lease_expired clock r
      then wr_lease_owner r' = None /\ wr_attempt_count r' = wr_attempt_count r else r' = r) as Hrow.
  { intros id r Hr. assert (wr_work_unit_id r = id) as <- by exact (Hk _ _ Hr).
    destruct (lease_expired clock r) eqn:He.
    - destruct (Hdone r (Hall _ _ Hr He)) as (r' & ? & ? & ? & ?). eauto.
    - exists r. rewrite Hother; [done|]. intros (r2 & Heq & Hin)%list_elem_of_fmap.
      destruct (Hf r2 Hin) as [Hr2 He2]. rewrite <- Heq in Hr2. congruence. }
  split; [|intros id r Hr; destruct (Hrow id r Hr) as (r' & ? & _ & ?); eauto].
  intros id r1 Hr1. destruct (db_units db !! id) as [r|] eqn:Hr.
  - destruct (Hrow id r Hr) as (r' & ? & ? & _). by simplify_eq.
  - rewrite Hother in Hr1; [congruence|]. intros (r2 & -> & Hin)%list_elem_of_fmap.
    destruct (Hf r2 Hin). congruence.
Qed.

(** ** Errors change nothing *)

(** What an error leaves: the tables as they were, or the tables after a commit
    whose result could not be read back. *)
Definition err_state (io : SqlIo) (db db' : WorkDb) : Prop :=
  db' = db \/
  exists id, is_Some (db_units db' !! id) /\ forall s, reload io id db' <> (Returned (Ok (Some s)), db').

Lemma check_err {A B} io (r : result A string) (f : A -> M WorkDb (result B string)) db e db' :
  try_bind (ret r) f db = (Returned (Err e), db') ->
  (forall a, r = Ok a -> f a db = (Returned (Err e), db') -> err_state io db db') ->
  err_state io db db'.
Proof. destruct r as [a|e0]; simpl; intros H Hf; [by eapply Hf|]. left. by inversion H. Qed.

Lemma transaction_err {A} io (body : M WorkDb (result (TxEnd A) string)) db e db' :
  transaction io body db = (Returned (Err e), db') -> db' = db.
Proof. unfold transaction. repeat case_match; naive_solver. Qed.

(** A transaction followed by reading back one unit that its body knows. *)
Lemma tx_err {A B} io (body : M WorkDb (result (TxEnd A) string)) (k : A -> M WorkDb (result B string))
    db e db' :
  try_bind (transaction io body) k db = (Returned (Err e), db') ->
  (forall a, readonly (k a)) ->
  (forall a, body db = (Returned (Ok (TxCommit a)), db') -> k a db' = (Returned (Err e), db') ->
     err_state io db db') ->
  err_state io db db'.
Proof.
  unfold try_bind, bind. intros H Hk Hbody.
  destruct (transaction io body db) as [[[a|e']|p] db1] eqn:Htx; [|left|done].
  - pose proof (Hk a db1) as Hro. rewrite H in Hro. simpl in Hro. subst db1.
    apply transaction_commit_inv in Htx as [Htx|[-> _]]; [by eapply Hbody|by left].
  - unfold ret in H. simplify_eq. by eapply transaction_err.
Qed.

Lemma reload_err io id db0 db e :
  is_Some (db_units db !! id) -> reload io id db = (Returned (Err e), db) -> err_state io db0 db.
Proof. intros Hid He. right. exists id. split; [done|]. rewrite He. by intros s [=]. Qed.

Lemma steps_exist io call db db' id :
  rtc (work_step io call) db db' -> keys_ok db -> is_Some (db_units db !! id) ->
  is_Some (db_units db' !! id).
Proof.
  induction 1 as [|x y z Hxy _ IH]; [done|]. intros Hk [r Hr].
  destruct (work_step_lookup _ _ _ _ _ _ Hxy Hk Hr) as (_ & r' & Hr' & _).
  apply IH; [by eapply work_step_keys|eauto].
Qed.

(** Apply the checks one after the other, then the transaction. *)
Ltac err_call H := repeat (apply (check_err _ _ _ _ _ _ H); clear H; intros ? ? H);
  apply (tx_err _ _ _ _ _ _ H); clear H; [solve [intros; repeat case_match; eauto with rust]|intros ? Hb H].

(** Most calls read the unit they are about first. *)
Ltac unit_err H := let r := fresh "r" in err_call H; case_match; [|done];
  eapply reload_err, H; eapply steps_exist; [eassumption|done|]; rust_inv; read_unit r; eauto.

Lemma unit_call_err io call db e db' m :
  (match call with
   | CallStart q => mark_leased_running io q = m
   | CallHeartbeat q => heartbeat_lease io q = m
   | CallComplete q => complete_work_unit io q = m
   | CallArchive q => archive_work_unit io q = m
   | CallUpdate q => update_work_unit io q = m
   | CallAssign q => assign_work_unit io q = m
   | CallRemoveDependency q => remove_dependency io q = m
   | _ => False
   end) ->
  m db = (Returned (Err e), db') -> keys_ok db -> rtc (work_step io call) db db' ->
  err_state io db db'.
Proof.
  destruct call; try done; intros <- H Hk Hs.
  - unfold mark_leased_running in H. unit_err H.
  - unfold heartbeat_lease in H. unit_err H.
  - unfold complete_work_unit in H. unit_err H.
  - unfold archive_work_unit in H. unit_err H.
  - unfold update_work_unit in H. unit_err H.
  - unfold assign_work_unit in H. unit_err H.
  - unfold remove_dependency in H. unit_err H.
Qed.

Lemma create_err io record actor db e db' :
  create_work_unit io record actor db = (Returned (Err e), db') -> err_state io db db'.
Proof.
  unfold create_work_unit. intros H. err_call H. rust_inv.
  assert (is_Some (db_units db' !! a1)) as Hid.
  { destruct (insert_event_ok _ _ _ _ _ _ _ _ _ ltac:(eassumption)) as (events & _ & ->).
    unfold insert_unit in *. tx_branches. simpl. rewrite lookup_insert_eq. eauto. }
  right. exists a1. split; [done|]. intros s Hs. by rewrite (try_bind_step _ _ _ _ _ Hs) in H.
Qed.

Lemma acquire_err io q db e db' :
  keys_ok db -> acquire_next_ready_lease io q db = (Returned (Err e), db') ->
  rtc (work_step io (CallAcquire q)) db db' -> err_state io db db'.
Proof.
  unfold acquire_next_ready_lease. intros Hk H Hs. err_call H. rust_inv.
  match goal with H : select_next_ready_raw_work_unit _ _ _ = (_, _) |- _ =>
    apply select_ok in H as [-> ->] end.
  destruct (head _) as [r|] eqn:Hhead; simpl in *; [|done]. rust_inv.
  apply selected_best in Hhead as ([id Hr] & He & _).
  assert (wr_work_unit_id r = id) as Hid by exact (Hk _ _ Hr). subst id.
  eapply reload_err; [|exact H]. eapply steps_exist; [exact Hs|done|eauto].
Qed.

Lemma add_dependency_err io q db e db' :
  keys_ok db -> add_dependency io q db = (Returned (Err e), db') ->
  rtc (work_step io (CallAddDependency q)) db db' -> err_state io db db'.
Proof.
  unfold add_dependency. intros Hk H Hs. err_call H. rust_inv.
  repeat match goal with
  | H : ensure_work_unit_exists _ _ _ = _ |- _ => apply ensure_exists_ok in H as [-> [? ?]]
  end.
  eapply reload_err; [|exact H]. eapply steps_exist; [exact Hs|done|eauto].
Qed.

Lemma reload_all_err io ids db e :
  reload_all io ids db = (Returned (Err e), db) ->
  exists id, id ∈ ids /\ forall s, reload io id db <> (Returned (Ok (Some s)), db).
Proof.
  induction ids as [|id ids IH]; simpl; intros H; [done|].
  destruct (reload io id db) as [[[o|e']|p] db1] eqn:E.
  - pose proof (readonly_reload io id db) as Hro. rewrite E in Hro. simpl in Hro. subst db1.
    destruct o as [s|].
    + destruct IH as (id' & Hin & Hno); [|exists id'; split; [by right|done]].
      rewrite (try_bind_step _ _ _ _ _ E) in H. simpl in H.
      unfold try_bind, bind, ret in *. by destruct (reload_all io ids db) as [[[l|e1]|p] db2].
    + exists id. split; [by left|]. rewrite E. by intros s [=].
  - exists id. split; [by left|]. rewrite E. by intros s [=].
  - exists id. split; [by left|]. rewrite E. by intros s [=].
Qed.

Lemma recover_err io actor now db e db' :
  keys_ok db -> recover_expired_leases io actor now db = (Returned (Err e), db') ->
  rtc (work_step io (CallRecover actor now)) db db' -> err_state io db db'.
Proof.
  unfold recover_expired_leases. intros Hk H Hs. err_call H. rust_inv.
  match goal with H : load_expired_raw_work_units_with_conn _ _ _ = (_, _) |- _ =>
    apply expired_ok in H as [-> ->] end.
  rewrite raw_row_hydrate in *.
  destruct (expired_rows db (default (io_now_ms io) now) Hk) as (Hn & Hf & _).
  match goal with H : recover_all _ _ _ _ _ = _ |- _ =>
    destruct (recover_all_done _ _ _ _ _ _ _ H Hn Hf) as (-> & _ & Hdone) end.
  apply reload_all_err in H as (id & (r & -> & Hin)%list_elem_of_fmap & Hno).
  rewrite Forall_forall in Hdone. destruct (Hdone r Hin) as (r' & Hr' & _).
  right. exists (wr_work_unit_id r). split; [eauto|done].
Qed.

Lemma readonly_err {A} io (m : M WorkDb A) db r db' : readonly m -> m db = (r, db') -> err_state io db db'.
Proof. intros Hm H. left. specialize (Hm db). by rewrite H in Hm. Qed.

Lemma replying_err {A} (f : A -> WorkReply) (m : M WorkDb (result A string)) db e db' :
  replying f m db = (Returned (Err e), db') -> m db = (Returned (Err e), db').
Proof.
  unfold replying, try_bind, bind, ret. destruct (m db) as [[[a|e']|p] db1]; naive_solver.
Qed.

Lemma run_work_err io call db e db' :
  keys_ok db -> run_work io call db = (Returned (Err e), db') -> err_state io db db'.
Proof.
  intros Hk H. pose proof (run_work_steps io call db Hk) as Hs. rewrite H in Hs. simpl in Hs.
  destruct call; simpl in H; apply replying_err in H;
    eauto using create_err, acquire_err, add_dependency_err, recover_err, readonly_err,
      readonly_load, readonly_list, readonly_events, readonly_health;
    try (refine (unit_call_err _ _ _ _ _ _ _ H Hk Hs); reflexivity).
  unfold append_note in H. repeat (apply (check_err _ _ _ _ _ _ H); clear H; intros ? ? H).
  left. by eapply transaction_err.
Qed.

(** A call that answers an error has changed nothing, whatever went
    wrong (a refused argument, a missing unit, a database error at any statement
    or at the commit): a transaction is all or nothing.  The one exception is the
    read after the commit, here assumed to succeed. *)
Theorem work_errors_change_nothing h io call e db' :
  let db := run_history h WorkDb_empty in
  run_work io call db = (Returned (Err e), db') ->
  io_reload io = Ok tt -> (log_size db' <= u32_max)%Z ->
  map_Forall (fun _ r => payload_readable r) (db_units db') ->
  db' = db.
Proof.
  intros db H Hre Hsize Hpay.
  destruct (run_history_rows h WorkDb_empty (map_Forall_empty _) rows_ok_empty) as [Hk Hok].
  destruct (run_work_err _ _ _ _ _ Hk H) as [->|(id & [r Hr] & Hno)]; [done|exfalso].
  destruct (run_history_rows [(io, call)] db Hk Hok) as [Hk' Hok']. simpl in Hk', Hok'.
  fold db in Hk', Hok'. rewrite H in Hk', Hok'. simpl in Hk', Hok'.
  destruct (Hok' Hsize _ _ Hr) as [s Hrow].
  destruct (load_snapshot_ok db' id _ s r Hr (Hk' _ _ Hr) Hrow Hsize (Hpay _ _ Hr)) as (snap & Hload & _).
  apply (Hno snap). unfold reload. by rewrite Hre.
Qed.

(** ** Health *)

(** [COUNT]/[SUM] of the rows passing a test. *)
Definition count_rows (f : WorkUnitRow -> bool) (rows : list WorkUnitRow) : Z :=
  Z.of_nat (length (filter (fun r => f r = true) rows)).

Lemma count_rows_cons f r rows :
  count_rows f (r :: rows) = ((if f r then 1 else 0) + count_rows f rows)%Z.
Proof.
  unfold count_rows. rewrite filter_cons. destruct (f r); [rewrite decide_True by done|rewrite decide_False by done];
    simpl; lia.
Qed.

Lemma status_counts now rows :
  Forall (fun r => exists n s, row_ok n s r) rows ->
  (count_rows (status_in [Ready]) rows + count_rows (status_in [Leased]) rows
   + count_rows (status_in [Running]) rows + count_rows (status_in [RetryPending]) rows
   + count_rows (status_in [WorkCompleted; FailedTerminal; Cancelled]) rows
   + count_rows (status_in [Archived]) rows <= Z.of_nat (length rows))%Z /\
  (count_rows (lease_expired now) rows
   <= count_rows (status_in [Leased]) rows + count_rows (status_in [Running]) rows)%Z.
Proof.
  induction 1 as [|r rows (n & s & Hrow) _ IH]; [done|].
  rewrite !count_rows_cons. unfold lease_expired at 1.
  rewrite !(status_in_as_str _ r s) by apply Hrow. cbn [length].
  generalize (match wr_lease_expires_at_ms r with Some t => (t <? now)%Z | None => false end).
  intros b.
  destruct s; repeat match goal with |- context [bool_decide ?P] =>
    let v := eval vm_compute in (bool_decide P) in change (bool_decide P) with v end;
    destruct b; cbn [andb]; split; lia.
Qed.

(** [load_runtime_health] has no answer for a queue without units:
    its sums are NULL there, which the column reader refuses, so the call is an
    error even though the database answered; with at least one unit it answers,
    and the counts by status are those of the rows. *)
Theorem health_needs_a_unit io null_error now h :
  let db := run_history h WorkDb_empty in
  sql_ok io -> (log_size db <= u32_max)%Z ->
  match map_to_list (db_units db) with
  | [] => load_runtime_health io null_error now db
          = (Returned (Err ("load work runtime health failed: " +:+ null_error)), db)
  | _ => exists health, load_runtime_health io null_error now db = (Returned (Ok health), db) /\
      rh_total_count health = Z.of_nat (size (db_units db)) /\
      (rh_ready_count health + rh_leased_count health + rh_running_count health
       + rh_retry_pending_count health + rh_terminal_count health + rh_archived_count health
       <= rh_total_count health)%Z /\
      (rh_expired_lease_count health <= rh_leased_count health + rh_running_count health)%Z
  end.
Proof.
  intros db (Ho & _ & Hrd & _) Hsize. unfold load_runtime_health, try_bind, bind, ret, gets.
  rewrite Ho, Hrd. destruct (map_to_list (db_units db)) as [|p l] eqn:Hl; [done|].
  assert (Forall (fun r => exists n s, row_ok n s r) (p :: l).*2) as Hrows.
  { destruct (run_history_rows h WorkDb_empty (map_Forall_empty _) rows_ok_empty) as [_ Hok].
    rewrite <- Hl. apply Forall_forall. intros r [id Hr]%elem_of_rows.
    destruct (Hok Hsize id r Hr) as [s Hs]. eauto. }
  destruct (status_counts (default (io_now_ms io) now) _ Hrows) as [Hc1 Hc2].
  eexists. split; [reflexivity|]. split_and!; [|exact Hc1|exact Hc2].
  rewrite <- Hl. cbn [rh_total_count]. rewrite length_fmap, <- (length_map_to_list (db_units db)). done.
Qed.
End ops.
