(* ===== verification/Fixtures.v ===== *)
(** * Concrete instances

    Small instances of the third-party interfaces and a small kernel: the
    theorems of the other files are applied to them in [Witnesses]. *)

From stdpp Require Import countable.
From S2P Require Import Prelude RustStr Contracts Policy PolicyRace Planes AuditSinks Journal.
From S2P Require Import JournalChain Kernel KernelGate KernelRuns Supervisor Mailbox.

(** ** JSON and versions *)

Inductive sample_value : Type :=
| SampleStr (s : string)
| SampleObject (fields : list (string * sample_value)).

Definition sample_json : SerdeJson := {|
  Value := sample_value;
  value_of_str := SampleStr;
  json_object := SampleObject;
|}.

(** Three numbers without leading zeros would do; the samples use this one. *)
Definition sample_semver : Semver := fun v => bool_decide (v = "1.0.0").

(** ** A kernel *)

Definition sample_route : ExecutionRoute := {| er_harness_kind := EmbeddedPi; er_adapter := None |}.

Definition sample_pack : VerticalPackManifest := {|
  vp_pack_id := "ops"; vp_domain := "operations"; vp_version := "1.0.0";
  vp_default_route := sample_route; vp_allowed_connectors := {["crm"]};
  vp_granted_capabilities := {[InvokeTool; MemoryRead]}; vp_metadata := ∅ |}.

(** Adapters write their names to a log. *)
Definition sample_core_tool : CoreAdapter (@ToolSig sample_json) (list string) :=
  @Build_CoreAdapter (@ToolSig sample_json) (list string) "core-tool" (fun _ log =>
    (Returned (Ok (@Build_ToolCoreOutcome sample_json "ok" (SampleStr "done"))),
     log ++ ["core-tool"])).

Definition sample_failing_memory : CoreAdapter (@MemorySig sample_json) (list string) :=
  @Build_CoreAdapter (@MemorySig sample_json) (list string) "core-memory" (fun _ log =>
    (Returned (Err (MemoryExecution "disk full")), log ++ ["core-memory"])).

Definition sample_harness : @HarnessAdapter sample_json (list string) :=
  @Build_HarnessAdapter sample_json (list string) "pi" EmbeddedPi (fun _ log =>
    (Returned (Ok (@Build_HarnessOutcome sample_json "ok" (SampleStr "out"))), log ++ ["pi"])).

Definition SampleKernel : Type :=
  LoongKernel (J := sample_json) StaticPolicyEngine InMemoryAuditSink FixedClock (list string).

Definition empty_kernel : SampleKernel :=
  LoongKernel_with_runtime StaticPolicyEngine_default (FixedClock_new 100)
    (InMemoryAuditSink_with_capacity 8) [].

Definition built_kernel : SampleKernel :=
  let run (m : M SampleKernel unit) k := (m k).2 in
  run (run_builder (J := sample_json) (V := sample_semver) (BuildPack sample_pack))
  (run (run_builder (J := sample_json) (V := sample_semver) (BuildCoreTool sample_core_tool))
  (run (run_builder (J := sample_json) (V := sample_semver) (BuildCoreMemory sample_failing_memory))
  (run (run_builder (J := sample_json) (V := sample_semver) (BuildHarness sample_harness))
     empty_kernel))).

Definition sample_token : CapabilityToken := {|
  ct_token_id := token_id_of_seq 1; ct_pack_id := "ops"; ct_agent_id := "agent";
  ct_allowed_capabilities := {[InvokeTool; MemoryRead]};
  ct_issued_at_epoch_s := 100; ct_expires_at_epoch_s := 160; ct_generation := 1 |}.

Definition search_request : @ToolCoreRequest sample_json :=
  @Build_ToolCoreRequest sample_json "search" (SampleStr "query").

Definition tool_op : @KernelOp sample_json :=
  @OpToolCore sample_json "ops" sample_token {[InvokeTool]} None search_request.

Definition memory_op : @KernelOp sample_json :=
  @OpMemoryCore sample_json "ops" sample_token {[MemoryRead]} None
    (@Build_MemoryCoreRequest sample_json "load" (SampleStr "key")).

(** An operation under an expired token. *)
Definition expired_op : @KernelOp sample_json :=
  @OpToolCore sample_json "ops"
    {| ct_token_id := "tok-x"; ct_pack_id := "ops"; ct_agent_id := "agent";
       ct_allowed_capabilities := {[InvokeTool]}; ct_issued_at_epoch_s := 1;
       ct_expires_at_epoch_s := 2; ct_generation := 1 |}
    {[InvokeTool]} None search_request.

(** ** A codec for the journal

    Values are written as binary numerals by a countable encoding; the digest
    is the numeral of the material, so it has no collisions. *)

#[local] Instance ExecutionRoute_countable : Countable ExecutionRoute.
Proof.
  refine (inj_countable' (fun r => (bool_decide (er_harness_kind r = EmbeddedPi), er_adapter r))
    (fun '(b, a) => {| er_harness_kind := if b : bool then EmbeddedPi else Acp; er_adapter := a |}) _).
  by intros [[] a].
Defined.

#[local] Instance CapabilityToken_countable : Countable CapabilityToken.
Proof.
  refine (inj_countable' (fun t => (ct_token_id t, ct_pack_id t, ct_agent_id t,
      ct_allowed_capabilities t, ct_issued_at_epoch_s t, ct_expires_at_epoch_s t, ct_generation t))
    (fun '(a, b, c, d, e, f, g) => {| ct_token_id := a; ct_pack_id := b; ct_agent_id := c;
      ct_allowed_capabilities := d; ct_issued_at_epoch_s := e; ct_expires_at_epoch_s := f;
      ct_generation := g |}) _).
  by intros [].
Defined.

#[local] Instance ExecutionPlane_countable : Countable ExecutionPlane.
Proof.
  refine (inj_countable' (fun p => match p with PlaneConnector => 0 | PlaneRuntime => 1
      | PlaneTool => 2 | PlaneMemory => 3 end)
    (fun n => match n with 0 => PlaneConnector | 1 => PlaneRuntime | 2 => PlaneTool
      | _ => PlaneMemory end) _).
  by intros [].
Defined.

#[local] Instance PlaneTier_countable : Countable PlaneTier.
Proof.
  refine (inj_countable' (fun p => match p with TierLegacy => 0 | TierCore => 1
      | TierExtension => 2 end)
    (fun n => match n with 0 => TierLegacy | 1 => TierCore | _ => TierExtension end) _).
  by intros [].
Defined.

#[local] Instance AuditEventKind_countable : Countable AuditEventKind.
Proof.
  refine (inj_countable'
    (fun k => match k with
     | TokenIssued t => inl (inl (inl (inl t)))
     | TokenRevoked t => inl (inl (inl (inr t)))
     | TaskDispatched a b c d => inl (inl (inr (inl (a, b, c, d))))
     | ConnectorInvoked a b c d => inl (inl (inr (inr (a, b, c, d))))
     | PlaneInvoked a b c d e f g => inl (inr (inl (inl (a, b, c, d, e, f, g))))
     | SecurityScanEvaluated a b c d e f g h i j =>
         inl (inr (inl (inr (a, b, c, d, e, f, g, h, i, j))))
     | PluginTrustEvaluated a b c d e f g h i j =>
         inl (inr (inr (inl (a, b, c, d, e, f, g, h, i, j))))
     | ToolSearchEvaluated a b c d e f g h i j l =>
         inl (inr (inr (inr (a, b, c, d, e, f, g, h, i, j, l))))
     | ProviderFailover a b c d e f g h i j l m =>
         inr (inl (a, b, c, d, e, f, g, h, i, j, l, m))
     | AuthorizationDenied a b c => inr (inr (a, b, c))
     end)
    (fun s => match s with
     | inl (inl (inl (inl t))) => TokenIssued t
     | inl (inl (inl (inr t))) => TokenRevoked t
     | inl (inl (inr (inl (a, b, c, d)))) => TaskDispatched a b c d
     | inl (inl (inr (inr (a, b, c, d)))) => ConnectorInvoked a b c d
     | inl (inr (inl (inl (a, b, c, d, e, f, g)))) => PlaneInvoked a b c d e f g
     | inl (inr (inl (inr (a, b, c, d, e, f, g, h, i, j)))) =>
         SecurityScanEvaluated a b c d e f g h i j
     | inl (inr (inr (inl (a, b, c, d, e, f, g, h, i, j)))) =>
         PluginTrustEvaluated a b c d e f g h i j
     | inl (inr (inr (inr (a, b, c, d, e, f, g, h, i, j, l)))) =>
         ToolSearchEvaluated a b c d e f g h i j l
     | inr (inl (a, b, c, d, e, f, g, h, i, j, l, m)) =>
         ProviderFailover a b c d e f g h i j l m
     | inr (inr (a, b, c)) => AuthorizationDenied a b c
     end) _).
  by intros [].
Defined.

#[local] Instance AuditEvent_countable : Countable AuditEvent.
Proof.
  refine (inj_countable' (fun e => (ae_event_id e, ae_timestamp_epoch_s e, ae_agent_id e, ae_kind e))
    (fun '(a, b, c, d) => {| ae_event_id := a; ae_timestamp_epoch_s := b; ae_agent_id := c;
      ae_kind := d |}) _).
  by intros [].
Defined.

#[local] Instance PersistedAuditIntegrity_eq_dec : EqDecision PersistedAuditIntegrity.
Proof. solve_decision. Defined.

#[local] Instance PersistedAuditEvent_eq_dec : EqDecision PersistedAuditEvent.
Proof. solve_decision. Defined.

#[local] Instance PersistedAuditEvent_countable : Countable PersistedAuditEvent.
Proof.
  refine (inj_countable' (fun p => (pae_event p,
      (fun i => (pai_algorithm i, pai_prev_hash i, pai_entry_hash i)) <$> pae_integrity p))
    (fun '(e, i) => {| pae_event := e; pae_integrity :=
      (fun '(a, b, c) => {| pai_algorithm := a; pai_prev_hash := b; pai_entry_hash := c |}) <$> i |}) _).
  by intros [e [i|]]; [destruct i|].
Defined.

(** A positive number as binary digits, least significant first. *)
Fixpoint positive_digits (p : positive) : string :=
  match p with
  | xH => "1"
  | xO p => String "0"%char (positive_digits p)
  | xI p => String "1"%char (positive_digits p)
  end.

Fixpoint digits_positive (s : string) : option positive :=
  match s with
  | EmptyString => None
  | String c EmptyString => Some xH
  | String c s => (if char_eqb c "0"%char then xO else xI) <$> digits_positive s
  end.

Lemma digits_round_trip p : digits_positive (positive_digits p) = Some p.
Proof.
  induction p as [p IH|p IH|]; simpl; [..|done]; rewrite IH; by destruct (positive_digits p).
Qed.

Lemma digits_visible p : str_forallb is_visible (positive_digits p) = true.
Proof. by induction p. Qed.

Lemma digits_not_empty p : positive_digits p <> "".
Proof. by destruct p. Qed.

Definition sample_codec : AuditCodec := {|
  chain_material := fun e prev => Ok (positive_digits (encode (e, prev)));
  sha256_hex := fun m => positive_digits (encode m);
  encode_persisted := fun p => Ok (positive_digits (encode p));
  decode_persisted := fun s => ok_or (digits_positive s ≫= decode) "not an audit event";
|}.

Lemma digits_lines p :
  str_contains_char newline_char (positive_digits p) = false /\
  strip_suffix carriage_return (positive_digits p) = None /\
  utf8_valid (positive_digits p) = true /\ trim (positive_digits p) <> "".
Proof.
  split_and!.
  - unfold str_contains_char. apply negb_false_iff. by induction p.
  - apply eq_None_not_Some. intros [r Hr%strip_suffix_Some]. pose proof (digits_visible p) as Hv.
    rewrite Hr, str_forallb_app in Hv. apply andb_prop in Hv as [_ Hv]. done.
  - by induction p.
  - rewrite trim_visible by apply digits_visible. apply digits_not_empty.
Qed.

#[export] Instance sample_codec_laws : @AuditCodecLaws sample_codec.
Proof.
  split; simpl.
  - eauto.
  - eauto.
  - intros p s [= <-]. by rewrite digits_round_trip; simpl; rewrite decode_encode.
  - intros p s [= <-]. apply digits_lines.
  - intros m. apply digits_lines.
Qed.

Lemma sample_codec_collision_free path : @collision_free sample_codec path.
Proof.
  intros e p e' p' h.
  unfold compute_audit_event_entry_hash, serialize_audit_event_chain_material. simpl.
  intros [= <-] [= Heq]. apply (f_equal digits_positive) in Heq. rewrite !digits_round_trip in Heq.
  injection Heq as Heq. apply (inj encode) in Heq.
  apply (f_equal digits_positive) in Heq. rewrite !digits_round_trip in Heq.
  injection Heq as Heq. apply (inj encode) in Heq. by simplify_eq.
Qed.

(** ** A channel *)

Definition list_channel (T : Type) : UnboundedChannel T := {|
  Chan := list T;
  chan_new := [];
  chan_send := fun m q => (Ok tt, q ++ [m]);
  chan_try_recv := fun q => match q with m :: q => (Some m, q) | [] => (None, []) end;
|}.

Definition list_channel_laws (T : Type) : @UnboundedChannelLaws T (list_channel T).
Proof.
  refine (@Build_UnboundedChannelLaws T (list_channel T) (fun q => q) _ _ _ _); simpl.
  - done.
  - eauto.
  - intros c m q ->. eauto.
  - intros c ->. eauto.
Defined.
