(* ===== verification/Witnesses.v ===== *)
(** * The theorems at concrete inputs

    Each theorem with hypotheses, applied where they hold: an engine with two
    issued tokens, the small kernel of [Fixtures], a journal of two events, and
    so on. *)

From S2P Require Import Prelude RustStr Contracts Policy PolicyRace Planes AuditSinks Journal.
From S2P Require Import JournalChain Kernel KernelGate KernelRuns Supervisor Integration Architecture Mailbox.
From S2P Require Import Protocol Fixtures.

(** ** The policy engine *)

(** The [n]-th token of an engine that issues to [sample_pack]. *)
Definition token_at (n : Z) : CapabilityToken := {|
  ct_token_id := token_id_of_seq n; ct_pack_id := "ops"; ct_agent_id := "agent";
  ct_allowed_capabilities := {[InvokeTool; MemoryRead]};
  ct_issued_at_epoch_s := 100; ct_expires_at_epoch_s := 160; ct_generation := n |}.

Definition engine_at (n : Z) : StaticPolicyEngine := {|
  spe_token_seq := n; spe_revoked_tokens := Mutex_new ∅; spe_generation := n;
  spe_revoked_below_generation := 0 |}.

Lemma engine_run_two :
  engine_run 0 StaticPolicyEngine_default [token_at 1; token_at 2] (engine_at 2).
Proof.
  eapply (run_issue 0 _ [token_at 1] (engine_at 1) sample_pack "agent" 100 60); [|reflexivity].
  eapply (run_issue 0 _ [] (engine_at 0) sample_pack "agent" 100 60); [|reflexivity].
  apply run_nil.
Qed.

Lemma issued_token_ids_unique_witness : NoDup (ct_token_id <$> [token_at 1; token_at 2]).
Proof.
  apply (issued_token_ids_unique 0 [token_at 1; token_at 2] (engine_at 2));
    [lia|vm_compute; done|apply engine_run_two].
Defined.

Lemma revocation_permanent_witness :
  let e1 := (StaticPolicyEngine_revoke_token (token_id_of_seq 1) (engine_at 2)).2 in
  let e2 := (StaticPolicyEngine_issue_token sample_pack "agent" 100 60 e1).2 in
  StaticPolicyEngine_authorize (token_at 1) "ops" 120 {[InvokeTool]} e2
  = (Returned (Err (RevokedToken (token_id_of_seq 1))), e2).
Proof.
  intros e1 e2.
  apply (revocation_permanent 0 (engine_at 2) e1 [token_at 3] e2 (token_at 1) "ops" 120 {[InvokeTool]}).
  - left. reflexivity.
  - eapply (run_issue 0 e1 [] e1 sample_pack "agent" 100 60); [apply run_nil|reflexivity].
Defined.

Lemma fresh_token_authorized_witness :
  StaticPolicyEngine_authorize (token_at 3) "ops" 120 {[InvokeTool]} (engine_at 3)
  = (Returned (Ok tt), engine_at 3).
Proof.
  apply (fresh_token_authorized 0 [token_at 1; token_at 2] (engine_at 2) sample_pack "agent" 100 60
    (token_at 3) (engine_at 3) 120 {[InvokeTool]});
    [lia|vm_compute; done|apply engine_run_two|reflexivity|set_solver|vm_compute; done|set_solver].
Defined.

Lemma revoke_current_generation_cutoff_witness :
  let e1 := (StaticPolicyEngine_revoke_generation 2 (engine_at 2)).2 in
  let e2 := (StaticPolicyEngine_issue_token sample_pack "agent" 100 60 e1).2 in
  Forall (revoked e2) [token_at 1; token_at 2] /\ ~ generation_revoked e2 (token_at 3).
Proof.
  intros e1 e2.
  apply (revoke_current_generation_cutoff 0 [token_at 1; token_at 2] (engine_at 2) 2 tt e1
    sample_pack "agent" 100 60 (token_at 3) e2);
    [lia|vm_compute; done|apply engine_run_two|reflexivity|reflexivity|reflexivity].
Defined.

(** Two calls of [issue_token] that overlap. *)
Definition racing : list thread :=
  [Issuing sample_pack "a" 100 60; Issuing sample_pack "b" 100 60].

Definition racing_token (agent : string) (seq generation : Z) : CapabilityToken := {|
  ct_token_id := token_id_of_seq seq; ct_pack_id := "ops"; ct_agent_id := agent;
  ct_allowed_capabilities := {[InvokeTool; MemoryRead]};
  ct_issued_at_epoch_s := 100; ct_expires_at_epoch_s := 160; ct_generation := generation |}.

Lemma racing_run :
  rtc race_step (StaticPolicyEngine_default, racing)
    (engine_at 2, [Issued (racing_token "a" 2 1); Issued (racing_token "b" 1 2)]).
Proof.
  eapply rtc_l; [eapply (race_step_thread _ _ _ 0); reflexivity|].
  eapply rtc_l; [eapply (race_step_thread _ _ _ 1); reflexivity|].
  eapply rtc_l; [eapply (race_step_thread _ _ _ 1); reflexivity|].
  eapply rtc_l; [eapply (race_step_thread _ _ _ 0); reflexivity|]. apply rtc_refl.
Qed.

Lemma race_token_ids_unique_witness :
  ct_token_id (racing_token "a" 2 1) <> ct_token_id (racing_token "b" 1 2).
Proof.
  eapply (race_token_ids_unique 0 racing (engine_at 2)
    [Issued (racing_token "a" 2 1); Issued (racing_token "b" 1 2)] 0 1);
    [lia|vm_compute; done|by repeat constructor|apply racing_run|reflexivity|reflexivity|lia].
Defined.

Lemma issue_outside_revocation_window_witness :
  (spe_revoked_below_generation (spe_set_generation 1 StaticPolicyEngine_default) < 1)%Z.
Proof.
  apply (issue_outside_revocation_window 0 racing StaticPolicyEngine_default racing 0
    sample_pack "a" 100 60 1 (spe_set_generation 1 StaticPolicyEngine_default));
    [lia|vm_compute; done|by repeat constructor|apply rtc_refl| |reflexivity|reflexivity].
  intros [|[|k]] below; discriminate.
Defined.

(** ** The harness broker *)

Lemma harness_routing_witness :
  exists a, HarnessBroker_select (lk_harness built_kernel) sample_route = Ok a /\ ha_name a = "pi".
Proof.
  pose proof (harness_routing (J := sample_json) (lk_harness built_kernel) sample_route
    (@Build_HarnessRequest sample_json "t" "ops" "agent" "task" "do" (SampleStr "x")) []) as H.
  exists sample_harness. split; [reflexivity|].
  assert (broker_wf (J := sample_json) (lk_harness built_kernel)) as Hwf
    by (apply (broker_wf_register (J := sample_json)), (broker_wf_new (J := sample_json))).
  destruct (H Hwf) as (Hl & _). reflexivity.
Defined.

(** ** The kernel *)

Definition sample_run (op : @KernelOp sample_json) :=
  run_op (J := sample_json) Unwind op built_kernel.

Lemma built_kernel_reached :
  rtc (kernel_or_builder_step (V := sample_semver) Unwind) empty_kernel built_kernel.
Proof.
  eapply rtc_l; [apply (step_builder (V := sample_semver) Unwind empty_kernel (BuildHarness sample_harness))|].
  eapply rtc_l; [apply (step_builder (V := sample_semver) Unwind _ (BuildCoreMemory sample_failing_memory))|].
  eapply rtc_l; [apply (step_builder (V := sample_semver) Unwind _ (BuildCoreTool sample_core_tool))|].
  eapply rtc_l; [apply (step_builder (V := sample_semver) Unwind _ (BuildPack sample_pack))|].
  apply rtc_refl.
Qed.

Lemma complete_mediation_witness :
  is_Some (lk_packs built_kernel !! "ops") /\
  is_Some (last (trail (lk_audit (sample_run tool_op).2))).
Proof.
  destruct (complete_mediation (J := sample_json) Unwind tool_op built_kernel
    (OutToolCore (@Build_ToolCoreOutcome sample_json "ok" (SampleStr "done")))
    (sample_run tool_op).2)
    as (pack & now & c' & p' & w1 & w2 & evs & Hp & _ & _ & _ & _ & _ & _ & _ & Hk & _ & _ & Hl).
  - vm_compute. reflexivity.
  - split; [by exists pack|]. rewrite Hl. destruct evs as [|e evs]; [discriminate Hk|].
    apply last_is_Some. discriminate.
Defined.

Lemma policy_denials_witness :
  lk_world (sample_run expired_op).2 = [] /\
  (sample_run expired_op).1 = Returned (Err (KPolicy (ExpiredToken "tok-x" 2))).
Proof.
  unfold sample_run.
  rewrite (policy_denials (J := sample_json) Unwind expired_op built_kernel sample_pack 100
    (FixedClock_new 100) (ExpiredToken "tok-x" 2) StaticPolicyEngine_default []);
    [by vm_compute|reflexivity|discriminate|set_solver|reflexivity|left; by vm_compute].
Defined.

Lemma failed_call_unaudited_witness :
  exists k', sample_run memory_op = (Returned (Err (KMemoryPlane (MemoryExecution "disk full"))), k') /\
    lk_world k' = ["core-memory"] /\ lk_audit k' = lk_audit built_kernel /\
    lk_event_seq k' = lk_event_seq built_kernel.
Proof.
  apply (failed_call_unaudited (J := sample_json) Unwind memory_op built_kernel sample_pack 100
    (FixedClock_new 100) StaticPolicyEngine_default [] ["core-memory"]);
    [reflexivity|discriminate|set_solver|reflexivity|by vm_compute|reflexivity|reflexivity].
Defined.

Lemma built_kernel_planes : planes_wf built_kernel.
Proof.
  split_and!; [apply plane_wf_new|apply plane_wf_new|..].
  - apply (plane_wf_register_core (sig := @ToolSig sample_json)), plane_wf_new.
  - apply (plane_wf_register_core (sig := @MemorySig sample_json)), plane_wf_new.
Qed.

Lemma audited_adapter_ran_witness :
  exists n ev, op_resolved tool_op built_kernel = Some (n, n) /\
    last (trail (lk_audit (sample_run tool_op).2)) = Some ev /\
    kind_core_adapter (ae_kind ev) = Some n.
Proof.
  apply (audited_adapter_ran (J := sample_json) Unwind tool_op built_kernel
    (OutToolCore (@Build_ToolCoreOutcome sample_json "ok" (SampleStr "done"))));
    [apply built_kernel_planes|reflexivity|vm_compute; reflexivity].
Defined.

Lemma registries_well_formed_witness :
  kernel_wf (V := sample_semver) built_kernel /\ lk_packs built_kernel ⊆ lk_packs built_kernel /\
  forall k, rtc (kernel_step Unwind) built_kernel k -> lk_registry k = lk_registry built_kernel.
Proof.
  apply (registries_well_formed (V := sample_semver) Unwind StaticPolicyEngine_default
    (FixedClock_new 100) (InMemoryAuditSink_with_capacity 8) []);
    [apply built_kernel_reached|apply rtc_refl].
Defined.

Lemma event_ids_unique_witness :
  NoDup (ae_event_id <$> trail (lk_audit
    (run_call (J := sample_json) Unwind (CallIssueToken "ops" "agent" 60) built_kernel).2)).
Proof.
  eapply (event_ids_unique (V := sample_semver) Unwind StaticPolicyEngine_default
    (FixedClock_new 100) (InMemoryAuditSink_with_capacity 8) [] 5); [reflexivity|vm_compute; done|].
  eapply nsteps_l; [apply (step_builder (V := sample_semver) Unwind empty_kernel (BuildHarness sample_harness))|].
  eapply nsteps_l; [apply (step_builder (V := sample_semver) Unwind _ (BuildCoreMemory sample_failing_memory))|].
  eapply nsteps_l; [apply (step_builder (V := sample_semver) Unwind _ (BuildCoreTool sample_core_tool))|].
  eapply nsteps_l; [apply (step_builder (V := sample_semver) Unwind _ (BuildPack sample_pack))|].
  eapply nsteps_l; [apply step_kernel, (step_call Unwind built_kernel (CallIssueToken "ops" "agent" 60))|].
  apply nsteps_O.
Defined.

Lemma kernel_revocation_final_witness :
  let k1 := (run_call (J := sample_json) Unwind
               (CallRevokeToken (token_id_of_seq 1) None) built_kernel).2 in
  lk_world (run_op Unwind tool_op k1).2 = lk_world k1 /\
  forall out, (run_op Unwind tool_op k1).1 <> Returned (Ok out).
Proof.
  intros k1. apply (kernel_revocation_final (V := sample_semver) Unwind tool_op
    (CallRevokeToken (token_id_of_seq 1) None) built_kernel k1 k1);
    [left; by exists None|reflexivity|apply rtc_refl].
Defined.

(** ** Tasks *)

Definition sample_intent : @TaskIntent sample_json :=
  @Build_TaskIntent sample_json "task-1" "do" ∅ (SampleStr "x").

Lemma task_state_forward_witness :
  task_reaches (J := sample_json) (Runnable sample_intent) (InReply "task-1").
Proof.
  refine (proj1 (task_state_forward (J := sample_json) (fun _ => "state") (Runnable sample_intent)
    (InReply "task-1") _)).
  eapply rtc_l; [apply step_in_send; reflexivity|].
  eapply rtc_l; [apply step_in_reply; reflexivity|]. apply rtc_refl.
Defined.

(** ** The journal *)

Definition sample_event (id : string) : AuditEvent := {|
  ae_event_id := id; ae_timestamp_epoch_s := 1; ae_agent_id := Some "agent";
  ae_kind := TokenRevoked "tok" |}.

Definition journal_path : string := "logs/audit.jsonl".

Definition new_sink (io : nat -> JournalIo) : JsonlAuditSink := {|
  jl_path := journal_path;
  jl_journal := Mutex_new {| jj_file := ""; jj_last_entry_hash := None |};
  jl_io := io; jl_calls := 0 |}.

Lemma journal_append_verifies_witness :
  exists s' rep',
    record_all (H := @JsonlAuditSink_sink sample_codec) [sample_event "a"; sample_event "b"]
      (new_sink (fun _ => all_ok)) = (Returned (Ok tt), s') /\
    @verify_jsonl_audit_journal sample_codec journal_path
      (JournalContents (jj_file (mx_value (jl_journal s')))) = Ok rep' /\
    avr_valid rep' = true /\ avr_total_events rep' = 2 /\ avr_verified_events rep' = 2 /\
    avr_last_entry_hash rep' = jj_last_entry_hash (mx_value (jl_journal s')).
Proof.
  apply (@journal_append_verifies sample_codec sample_codec_laws journal_path JournalMissing
    (Ok tt) (Ok tt) (fun _ => all_ok) (new_sink (fun _ => all_ok))
    (valid_report verify_start) [sample_event "a"; sample_event "b"]);
    [exact I|reflexivity|reflexivity|reflexivity|reflexivity].
Defined.

(** The bytes of a journal of one sealed event. *)
Definition one_event_journal : string :=
  jj_file (mx_value (jl_journal (@JsonlAuditSink_record sample_codec (sample_event "a")
    (new_sink (fun _ => all_ok))).2)).

(** The same event, unsealed. *)
Definition legacy_journal : string :=
  match @encode_persisted sample_codec
          {| pae_event := sample_event "a"; pae_integrity := None |} with
  | Ok line => line +:+ line_feed
  | Err _ => ""
  end.

Definition one_event_report : AuditVerificationReport :=
  match @verify_jsonl_audit_journal sample_codec journal_path (JournalContents one_event_journal) with
  | Ok rep => rep
  | Err _ => valid_report verify_start
  end.

Lemma last_seal_commits_witness :
  @line_events sample_codec (buf_lines one_event_journal)
  = @line_events sample_codec (buf_lines (line_feed +:+ one_event_journal)).
Proof.
  apply (@last_seal_commits sample_codec journal_path one_event_journal
    (line_feed +:+ one_event_journal) one_event_report one_event_report);
    [apply sample_codec_collision_free|vm_compute; reflexivity..].
Defined.

Definition repair_ok : RepairIo := {|
  rio_metadata := Ok tt; rio_create := Ok tt; rio_set_permissions := Ok tt;
  rio_write_all := Ok tt; rio_flush := Ok tt; rio_sync_all := Ok tt; rio_rename := Ok tt |}.

Lemma repair_agrees_with_verify_witness :
  exists bytes', (@repair_jsonl_audit_journal sample_codec journal_path
    (JournalContents legacy_journal) repair_ok).2 = JournalContents bytes' /\
    @line_events sample_codec (buf_lines bytes') = @line_events sample_codec (buf_lines legacy_journal).
Proof.
  pose proof (@repair_agrees_with_verify sample_codec sample_codec_laws journal_path legacy_journal
    repair_ok eq_refl eq_refl) as H. cbv zeta in H.
  replace (@verify_jsonl_audit_journal sample_codec journal_path (JournalContents legacy_journal))
    with (Ok (E := AuditError) {| avr_total_events := 1; avr_verified_events := 0; avr_valid := true;
            avr_last_entry_hash := None; avr_first_invalid_line := None; avr_reason := None |})
    in H by (vm_compute; reflexivity).
  cbn [avr_valid avr_verified_events avr_total_events] in H. rewrite decide_False in H by lia.
  destruct H as (bytes' & rep' & Hrun & _ & _ & _ & _ & Hev).
  exists bytes'. by rewrite Hrun.
Defined.

Definition failing_unlock (n : nat) : JournalIo :=
  match n with
  | 0 => {| jio_lock := Ok tt; jio_write_all := Ok tt; jio_flush := Ok tt;
            jio_unlock := Err "interrupted" |}
  | _ => all_ok
  end.

Lemma failed_unlock_breaks_chain_witness :
  exists s1 s2 rep,
    @JsonlAuditSink_record sample_codec (sample_event "a") (new_sink failing_unlock) =
      (Returned (Err (AuditSinkError ("failed to unlock audit journal " +:+ quoted journal_path
         +:+ ": " +:+ "interrupted"))), s1) /\
    @JsonlAuditSink_record sample_codec (sample_event "b") s1 = (Returned (Ok tt), s2) /\
    @verify_jsonl_audit_journal sample_codec journal_path
      (JournalContents (jj_file (mx_value (jl_journal s2)))) = Ok rep /\
    avr_valid rep = false /\ avr_first_invalid_line rep = Some 2 /\
    avr_reason rep = Some "prev_hash mismatch".
Proof.
  apply (@failed_unlock_breaks_chain sample_codec sample_codec_laws journal_path (Ok tt) (Ok tt)
    failing_unlock); reflexivity.
Defined.

(** ** The catalog *)

Definition sample_request : AutoProvisionRequest := {|
  apr_provider_id := "crm"; apr_channel_id := "primary"; apr_connector_name := None;
  apr_endpoint := None; apr_required_capabilities := {[NetworkEgress]} |}.

Lemma plan_apply_converges_witness :
  exists plan c' pack' p,
    AutoProvisionAgent_plan IntegrationCatalog_new sample_pack sample_request = Ok plan /\
    IntegrationCatalog_apply_plan plan (IntegrationCatalog_new, sample_pack) = (Ok tt, (c', pack')) /\
    provisioned c' pack' sample_request /\ ic_providers c' = {["crm" := p]}.
Proof.
  destruct (plan_apply_converges IntegrationCatalog_new sample_pack sample_request catalog_wf_new)
    as (plan & c' & pack' & p & H1 & H2 & _ & H3 & H4 & _).
  by exists plan, c', pack', p.
Defined.

Definition sample_catalog : IntegrationCatalog :=
  IntegrationCatalog_upsert_provider {| pv_provider_id := "crm"; pv_connector_name := "http";
    pv_version := "1"; pv_metadata := ∅ |} IntegrationCatalog_new.

Lemma hotfix_reversible_witness :
  exists c1 c2,
    IntegrationCatalog_apply_hotfix (HotfixProviderVersion "crm" "2") sample_catalog = (Ok tt, c1) /\
    IntegrationCatalog_apply_hotfix (HotfixProviderVersion "crm" "1") c1 = (Ok tt, c2) /\
    ic_providers c2 = ic_providers sample_catalog.
Proof.
  destruct (hotfix_reversible (HotfixProviderVersion "crm" "2") sample_catalog)
    as (c1 & c2 & H1 & H2 & H3 & _).
  - apply (catalog_wf_action (AddProvider _ "")), catalog_wf_new.
  - by exists c1, c2.
Defined.

(** ** Paths, mailboxes, routes *)

Lemma agent_path_join_spec_witness :
  exists q, AgentPath_join AgentPath_root " worker-1 " = Ok q /\ ap_path q = "/root/worker-1" /\
    agent_path_wf q /\ q <> AgentPath_root.
Proof.
  pose proof (agent_path_join_spec AgentPath_root " worker-1 ") as H.
  exists {| ap_path := "/root/worker-1" |}. split; [vm_compute; reflexivity|].
  destruct H as (_ & _ & Hwf & Hne & _); [|by split].
  exists ["root"]. split_and!; [done| |done]. repeat constructor; done.
Defined.

Definition sample_message (n : string) : @InterAgentMessage sample_json :=
  @Build_InterAgentMessage sample_json AgentPath_root AgentPath_root
    (@StatusNotification sample_json n) false.

Lemma mailbox_delivers_witness :
  exists mb1 mb2, send_all (J := sample_json) (UnboundedChannel0 := list_channel _)
      [sample_message "a"; sample_message "b"] (AgentMailbox_new (UnboundedChannel0 := list_channel _))
    = (Returned (Ok tt), mb1) /\
    AgentMailbox_drain (UnboundedChannel0 := list_channel _) 3 mb1
    = Some ([sample_message "a"; sample_message "b"], mb2).
Proof.
  destruct (@mailbox_delivers sample_json (list_channel _) (list_channel_laws _)
    [sample_message "a"; sample_message "b"] []) as (mb1 & mb2 & _ & _ & _ & H1 & H2 & _).
  - vm_compute. done.
  - exists mb1, mb2. split; [exact H1|]. apply H2. simpl. lia.
Defined.

Lemma router_authorizes_witness :
  exists resolved,
    ProtocolRouter_resolve (fun s => s) (ProtocolRouter_new true) "turn/submit" = Ok resolved /\
    rr_route resolved = TurnSubmit /\
    ProtocolRouter_authorize resolved {| rar_authenticated := true;
      rar_capabilities := {["Control-Write"]} |} = Ok RouteAllow.
Proof.
  exists {| rr_route := TurnSubmit; rr_policy := authenticated_with CONTROL_WRITE_CAPABILITY |}.
  split; [vm_compute; reflexivity|].
  destruct (router_authorizes (fun s => s) (ProtocolRouter_new true) "turn/submit"
    {| rr_route := TurnSubmit; rr_policy := authenticated_with CONTROL_WRITE_CAPABILITY |}
    {| rar_authenticated := true; rar_capabilities := {["Control-Write"]} |})
    as (_ & _ & Hiff & _); [vm_compute; reflexivity|].
  split; [done|]. apply Hiff. split; [by right|]. intros required [= <-].
  exists "Control-Write". split; [set_solver|]. left. vm_compute. reflexivity.
Defined.
