(* ===== verification/WorkWitnesses.v ===== *)
(** * The work queue at concrete inputs

    A small instance of the JSON columns and a history in which a worker leases
    a unit that waits for nothing while another is blocked by it: the theorems of
    the queue applied to it. *)

From stdpp Require Import countable.
From S2P Require Import Prelude RustStr Contracts Work WorkSteps WorkGraph WorkRows WorkLeases WorkOps.
From S2P Require Import Fixtures.

(** ** JSON columns

    Any injective encoding of the two structs will do: a value's code, written
    in binary. *)
Fixpoint bits_of (p : positive) : string :=
  match p with
  | xH => ""
  | xO p => String "0" (bits_of p)
  | xI p => String "1" (bits_of p)
  end.

Fixpoint of_bits (s : string) : positive :=
  match s with
  | "" => xH
  | String c s => if char_eqb c "1" then xI (of_bits s) else xO (of_bits s)
  end.

Lemma of_bits_of p : of_bits (bits_of p) = p.
Proof. induction p as [p IH|p IH|]; simpl; rewrite ?IH; done. Qed.

#[local] Instance source_kind_eq_dec : EqDecision WorkSourceKind.
Proof. solve_decision. Defined.
#[local] Instance source_kind_countable : Countable WorkSourceKind.
Proof.
  apply (inj_countable' (fun k => match k with SourceManual => 0 | SourceDiscord => 1 | SourceGithub => 2 end)
    (fun n => match n with 0 => SourceManual | 1 => SourceDiscord | _ => SourceGithub end)).
  by intros [].
Defined.
#[local] Instance source_ref_eq_dec : EqDecision WorkUnitSourceRef.
Proof. solve_decision. Defined.
#[local] Instance source_ref_countable : Countable WorkUnitSourceRef.
Proof.
  apply (inj_countable'
    (fun x => (sr_source_kind x, sr_project_id x, sr_channel_id x, sr_thread_id x, sr_message_id x,
               sr_external_ref x, sr_source_url x))
    (fun '(a, b, c, d, e, f, g) => Build_WorkUnitSourceRef a b c d e f g)).
  by intros [].
Defined.
#[local] Instance retry_policy_eq_dec : EqDecision WorkUnitRetryPolicy.
Proof. solve_decision. Defined.
#[local] Instance retry_policy_countable : Countable WorkUnitRetryPolicy.
Proof.
  apply (inj_countable' (fun p => (rp_max_attempts p, rp_initial_backoff_ms p, rp_max_backoff_ms p))
    (fun '(a, b, c) => Build_WorkUnitRetryPolicy a b c)).
  by intros [].
Defined.

Definition sample_codec : @WorkCodec sample_json := {|
  json_null := SampleStr "null" : @Value sample_json;
  json_int := (fun z => SampleStr (fmt_i64 z)) : Z -> @Value sample_json;
  json_array := (fun l => SampleObject ((fun v => ("", v)) <$> l)) : list (@Value sample_json) -> @Value sample_json;
  json_source_ref := (fun _ => SampleStr "source") : WorkUnitSourceRef -> @Value sample_json;
  source_ref_to_string := fun x => Ok (bits_of (encode x));
  source_ref_from_str := fun s => ok_or (decode (of_bits s)) "not a source";
  retry_policy_to_string := fun x => Ok (bits_of (encode x));
  retry_policy_from_str := fun s => ok_or (decode (of_bits s)) "not a policy";
  value_to_string := (fun v => Ok (match v with SampleStr s => s | SampleObject _ => "object" end))
                     : @Value sample_json -> result string string;
  value_from_str := (fun s => Ok (SampleStr s)) : string -> result (@Value sample_json) string;
|}.

Lemma sample_codec_laws : @WorkCodecLaws sample_json sample_codec.
Proof.
  split; simpl; [eauto| |eauto| |eauto]; intros x s [= <-]; by rewrite of_bits_of, decode_encode.
Qed.

#[local] Existing Instance sample_json.
#[local] Existing Instance sample_codec.
#[local] Existing Instance sample_codec_laws.

(** ** A history *)

Definition sample_io (now : Z) : SqlIo := {|
  io_now_ms := now; io_entropy := now; io_open := Ok tt; io_begin := Ok tt; io_read := Ok tt;
  io_write := Ok tt; io_event := Ok tt; io_commit := Ok tt; io_reload := Ok tt |}.

Definition sample_source : WorkUnitSourceRef :=
  Build_WorkUnitSourceRef SourceManual None None None None None None.

Definition new_unit (id : string) (attempts : Z) : NewWorkUnitRecord := {|
  nw_work_unit_id := Some id; nw_kind := Feature; nw_title := "title"; nw_description := "text";
  nw_source_ref := sample_source; nw_status := Ready; nw_priority := PriorityNormal;
  nw_retry_policy := Build_WorkUnitRetryPolicy attempts 1000 60000;
  nw_parent_work_unit_id := None; nw_next_run_at_ms := None |}.

Definition link (a b : string) : WorkUnitDependencyRequest :=
  Build_WorkUnitDependencyRequest a b None None.

Definition acquire_as (owner : string) : AcquireWorkUnitLeaseRequest :=
  Build_AcquireWorkUnitLeaseRequest owner 500 None None.

(** Two units, [b] waits for [a]; then [alice] leases [a]. *)
Definition queue_two : list (SqlIo * WorkCall) :=
  [(sample_io 1, CallCreate (new_unit "a" 2) None);
   (sample_io 2, CallCreate (new_unit "b" 2) None);
   (sample_io 3, CallAddDependency (link "a" "b"))].

Definition queue_leased : list (SqlIo * WorkCall) :=
  queue_two ++ [(sample_io 10, CallAcquire (acquire_as "alice"))].

Definition row_of (h : list (SqlIo * WorkCall)) (id : string) : option WorkUnitRow :=
  db_units (run_history h WorkDb_empty) !! id.

Example leased_row :
  (fun r => (wr_status r, wr_lease_owner r, wr_lease_expires_at_ms r, wr_attempt_count r))
    <$> row_of queue_leased "a" = Some ("leased", Some "alice", Some 510%Z, 1%Z).
Proof. vm_compute. reflexivity. Qed.

(** ** The theorems on it *)

Ltac the_row E := match goal with |- context [row_of ?h ?id] =>
  destruct (row_of h id) as [r|] eqn:E; [|exfalso; vm_compute in E; discriminate] end.

Lemma work_rows_well_formed_witness : wr_work_unit_id <$> row_of queue_leased "a" = Some "a".
Proof.
  the_row E. simpl. f_equal.
  apply (work_rows_well_formed queue_leased "a" r); [by vm_compute|exact E].
Defined.

(** Nobody can take [a] from [alice] before 510: not even after a recovery at
    510, a cancellation by hand, and completions by others. *)
Definition others : list (SqlIo * WorkCall) :=
  [(sample_io 510, CallRecover None None);
   (sample_io 300, CallAcquire (acquire_as "bob"));
   (sample_io 301, CallComplete (Build_CompleteWorkUnitRequest "a" "bob" DisposeCompleted None None None None None));
   (sample_io 302, CallUpdate (Build_UpdateWorkUnitRequest "a" None None (Some Cancelled) None None None false None None))].

Lemma lease_exclusive_witness :
  wr_lease_owner <$> db_units (run_history others (run_history queue_leased WorkDb_empty)) !! "a"
  = Some (Some "alice").
Proof.
  destruct (row_of queue_leased "a") as [r|] eqn:E; [|exfalso; vm_compute in E; discriminate].
  assert (wr_lease_owner <$> row_of queue_leased "a" = Some (Some "alice")) as Ho by (by vm_compute).
  assert (wr_lease_expires_at_ms <$> row_of queue_leased "a" = Some (Some 510%Z)) as He by (by vm_compute).
  rewrite E in Ho, He. injection Ho as Ho. injection He as He.
  destruct (lease_exclusive queue_leased others "a" r "alice" 510) as (r' & Hr' & Hs);
    [by vm_compute|exact E|exact Ho|exact He| |].
  - clear E Ho He. unfold others. apply Forall_cons. split; [by vm_compute|].
    apply Forall_cons. split; [exact I|].
    apply Forall_cons. split; [right; vm_compute; discriminate|].
    apply Forall_cons. split; [exact I|apply Forall_nil_2].
  - rewrite Hr'. simpl. f_equal. rewrite (sl_owner _ _ Hs). exact Ho.
Defined.

Definition queue_done : list (SqlIo * WorkCall) :=
  [(sample_io 20, CallComplete (Build_CompleteWorkUnitRequest "a" "alice" DisposeCompleted None None None None None))].

Lemma work_unit_lifecycle_witness :
  wr_kind <$> db_units (run_history queue_done (run_history queue_leased WorkDb_empty)) !! "a"
  = wr_kind <$> row_of queue_leased "a".
Proof.
  the_row E.
  destruct (work_unit_lifecycle queue_leased queue_done "a" r) as (s & r' & s' & _ & Hr' & Hev);
    [by vm_compute|exact E|]. rewrite Hr'. simpl. f_equal. apply Hev.
Defined.

Lemma attempts_within_policy_witness :
  match row_of queue_leased "a" with Some r => (wr_attempt_count r <= 2)%Z | None => False end.
Proof.
  the_row E.
  apply (attempts_within_policy queue_leased "a" r (Build_WorkUnitRetryPolicy 2 1000 60000));
    [by vm_compute| |exact E|].
  - clear E. repeat constructor; by vm_compute.
  - assert (wr_retry_policy_json <$> row_of queue_leased "a"
      = Some (bits_of (encode (Build_WorkUnitRetryPolicy 2 1000 60000)))) as Hp by (by vm_compute).
    rewrite E in Hp. injection Hp as Hp. rewrite Hp. by vm_compute.
Defined.

(** A cancelled unit, reopened by hand, is attempted again beyond its policy. *)
Definition reopened : list (SqlIo * WorkCall) :=
  [(sample_io 1, CallCreate (new_unit "a" 1) None);
   (sample_io 2, CallAcquire (acquire_as "alice"));
   (sample_io 3, CallComplete (Build_CompleteWorkUnitRequest "a" "alice" DisposeCancelled None None None None None));
   (sample_io 4, CallUpdate (Build_UpdateWorkUnitRequest "a" None None (Some Ready) None None None false None None));
   (sample_io 5, CallAcquire (acquire_as "alice"))].

Example reopened_beyond_policy : wr_attempt_count <$> row_of reopened "a" = Some 2%Z.
Proof. vm_compute. reflexivity. Qed.

Lemma retry_delay_closed_form_witness :
  compute_retry_delay_ms (Build_WorkUnitRetryPolicy 9 1000 60000) 5 = Ok 16000%Z.
Proof.
  apply (retry_delay_closed_form (Build_WorkUnitRetryPolicy 9 1000 60000) 5); by vm_compute.
Defined.

Lemma payloads_two : map_Forall (fun _ r => payload_readable r) (db_units (run_history queue_two WorkDb_empty)).
Proof. apply map_Forall_to_list. vm_compute. repeat constructor. Qed.

Lemma acquire_leases_first_eligible_witness :
  exists snap db', acquire_next_ready_lease (sample_io 10) (acquire_as "alice")
    (run_history queue_two WorkDb_empty) = (Returned (Ok (Some snap)), db') /\
    wl_owner <$> ws_lease snap = Some "alice".
Proof.
  destruct (acquire_leases_first_eligible (sample_io 10) (acquire_as "alice") "alice" 510 queue_two)
    as [[_ Hnone]|(id & r & snap & events & _ & _ & _ & _ & Hrun & _ & _ & _ & Ho & _)];
    [done|by vm_compute|apply payloads_two|by vm_compute|by vm_compute|by vm_compute| |].
  - exfalso. destruct (row_of queue_two "a") as [r|] eqn:E; [|vm_compute in E; discriminate].
    pose proof (Hnone _ _ E) as Hel.
    assert ((fun r => eligible (run_history queue_two WorkDb_empty) 10 r) <$> row_of queue_two "a" = Some true)
      as Ht by (by vm_compute). rewrite E in Ht. injection Ht as Ht. 
    assert (false = true) as [=]. rewrite <- Ht. symmetry. exact Hel.
  - eauto.
Defined.

Lemma queue_makes_progress_witness :
  exists snap db', acquire_next_ready_lease (sample_io 10) (acquire_as "alice")
    (run_history queue_two WorkDb_empty) = (Returned (Ok (Some snap)), db').
Proof.
  destruct (queue_makes_progress (sample_io 10) (acquire_as "alice") "alice" 510 queue_two)
    as (id & r & snap & db' & _ & _ & Hrun & _);
    [done|by vm_compute|apply payloads_two|by vm_compute|by vm_compute|by vm_compute| | |eauto].
  - destruct (row_of queue_two "a") as [r|] eqn:E; [|vm_compute in E; discriminate].
    exists "a", r. split; [exact E|].
    assert (unfinished <$> row_of queue_two "a" = Some true) as Hu by (by vm_compute).
    rewrite E in Hu. by injection Hu.
  - apply map_Forall_to_list. vm_compute. repeat constructor.
Defined.

Lemma recovery_clears_expired_witness :
  map_Forall (fun _ r => lease_expired 600 r = false)
    (db_units (recover_expired_leases (sample_io 600) None None (run_history queue_leased WorkDb_empty)).2).
Proof.
  destruct (recover_expired_leases (sample_io 600) None None (run_history queue_leased WorkDb_empty))
    as [[[snaps|e]|p] db'] eqn:E; [|vm_compute in E; discriminate..].
  apply (recovery_clears_expired (sample_io 600) None None queue_leased snaps db' E).
Defined.

Lemma work_errors_change_nothing_witness :
  (run_work (sample_io 20) (CallAddDependency (link "b" "a")) (run_history queue_two WorkDb_empty)).2
  = run_history queue_two WorkDb_empty.
Proof.
  destruct (run_work (sample_io 20) (CallAddDependency (link "b" "a")) (run_history queue_two WorkDb_empty))
    as [[[reply|e]|p] db'] eqn:E; [vm_compute in E; discriminate| |vm_compute in E; discriminate].
  simpl. assert (db' = (run_work (sample_io 20) (CallAddDependency (link "b" "a"))
    (run_history queue_two WorkDb_empty)).2) as Hdb by (by rewrite E).
  apply (work_errors_change_nothing queue_two (sample_io 20) (CallAddDependency (link "b" "a")) e db' E);
    [done|subst db'; by vm_compute|subst db'; apply map_Forall_to_list; vm_compute; repeat constructor].
Defined.

Lemma health_needs_a_unit_witness :
  load_runtime_health (sample_io 1) "null" None WorkDb_empty
  = (Returned (Err ("load work runtime health failed: " +:+ "null")), WorkDb_empty).
Proof. apply (health_needs_a_unit (sample_io 1) "null" None []); [done|by vm_compute]. Defined.
