(* ===== verification/Plan.v ===== *)
(** * Plan graphs of a conversation

    [crates/app/src/conversation/plan_ir.rs] and [plan_executor.rs]: a plan of
    nodes and edges, its validation, the topological order of its nodes, and the
    executor that runs the nodes in that order with retries, an attempt budget
    and a wall-time limit.  The node executor, [tokio]'s timeout and the clock
    are parameters.  Counters of the elements of a vector ([usize] degrees and
    indices) are [nat]: a vector has fewer than 2^63 elements. *)

From S2P Require Import Prelude RustStr.

(** ** plan_ir.rs *)

Definition PLAN_GRAPH_VERSION : string := "hybrid_lane_plan.v1".

Inductive PlanNodeKind : Type := NodeTool | NodeTransform | NodeVerify | NodeRespond.

Inductive RiskTier : Type := RiskLow | RiskMedium | RiskHigh.

Record PlanNode : Type := {
  pn_id : string;
  pn_kind : PlanNodeKind;
  pn_label : string;
  pn_tool_name : option string;
  pn_timeout_ms : Z;
  pn_max_attempts : nat;
  pn_risk_tier : RiskTier;
}.

Record PlanEdge : Type := { pe_from : string; pe_to : string }.

Record PlanBudget : Type := {
  pb_max_nodes : Z;
  pb_max_total_attempts : Z;
  pb_max_wall_time_ms : Z;
}.

Definition PlanBudget_default : PlanBudget := {|
  pb_max_nodes := 16; pb_max_total_attempts := 32; pb_max_wall_time_ms := 60000 |}.

Record PlanGraph : Type := {
  pg_version : string;
  pg_nodes : list PlanNode;
  pg_edges : list PlanEdge;
  pg_budget : PlanBudget;
}.

(** The loop over the nodes: their indices by id and the sum of their attempts. *)
Fixpoint index_nodes (nodes : list PlanNode) (node_index : gmap string nat) (total : Z)
  : result (gmap string nat * Z) string :=
  match nodes with
  | [] => Ok (node_index, total)
  | node :: nodes =>
      if str_is_empty (trim (pn_id node)) then Err "plan node id must not be empty" else
      if (pn_timeout_ms node =? 0)%Z
      then Err ("plan node `" +:+ pn_id node +:+ "` has invalid timeout_ms=0") else
      if Nat.eqb (pn_max_attempts node) 0
      then Err ("plan node `" +:+ pn_id node +:+ "` has invalid max_attempts=0") else
      let total := u64_saturating_add total (Z.of_nat (pn_max_attempts node)) in
      match node_index !! pn_id node with
      | Some _ => Err ("duplicate plan node id `" +:+ pn_id node +:+ "`")
      | None => index_nodes nodes (<[pn_id node := size node_index]> node_index) total
      end
  end.

(** What the loop over the edges builds. *)
Record Degrees : Type := {
  dg_indegree : list nat;
  dg_outdegree : list nat;
  dg_adjacency : list (list nat);
}.

Definition no_edges (n : nat) : Degrees := {|
  dg_indegree := replicate n 0; dg_outdegree := replicate n 0; dg_adjacency := replicate n [] |}.

Definition add_edge (from to : nat) (d : Degrees) : result Degrees string :=
  match dg_indegree d !! to with
  | None => Err "plan graph indegree index out of bounds"
  | Some to_degree =>
      match dg_outdegree d !! from with
      | None => Err "plan graph outdegree index out of bounds"
      | Some from_degree =>
          match dg_adjacency d !! from with
          | None => Err "plan graph adjacency index out of bounds"
          | Some neighbors =>
              Ok {| dg_indegree := <[to := S to_degree]> (dg_indegree d);
                    dg_outdegree := <[from := S from_degree]> (dg_outdegree d);
                    dg_adjacency := <[from := neighbors ++ [to]]> (dg_adjacency d) |}
          end
      end
  end.

Fixpoint index_edges (node_index : gmap string nat) (edges : list PlanEdge) (d : Degrees)
  : result Degrees string :=
  match edges with
  | [] => Ok d
  | edge :: edges =>
      match node_index !! pe_from edge with
      | None => Err ("plan edge references unknown `from` node `" +:+ pe_from edge +:+ "`")
      | Some from_index =>
          match node_index !! pe_to edge with
          | None => Err ("plan edge references unknown `to` node `" +:+ pe_to edge +:+ "`")
          | Some to_index =>
              if Nat.eqb from_index to_index
              then Err ("plan edge has self-loop at `" +:+ pe_from edge +:+ "`") else
              let* d := add_edge from_index to_index d in
              index_edges node_index edges d
          end
      end
  end.

(** Positions of the zeros: the nodes without incoming edges. *)
Definition zeros (degrees : list nat) : list nat :=
  omap (fun '(index, degree) => if Nat.eqb degree 0 then Some index else None)
    (imap pair degrees).

(** How a traversal ends: the queue is empty and these nodes were visited; an
    index was out of bounds; or the loop has not ended after [fuel] rounds. *)
Inductive Traversal : Type :=
| Visited (order : list nat)
| AdjacencyOutOfBounds
| IndegreeOutOfBounds
| StillRunning.

(** The inner loop: one edge less for each neighbor; those without any left are
    queued. *)
Fixpoint relax (neighbors : list nat) (remaining queue : list nat) : option (list nat * list nat) :=
  match neighbors with
  | [] => Some (remaining, queue)
  | next :: neighbors =>
      match remaining !! next with
      | None => None
      | Some degree =>
          relax neighbors (<[next := degree - 1]> remaining)
            (if Nat.eqb (degree - 1) 0 then queue ++ [next] else queue)
      end
  end.

(** [while let Some(index) = queue.pop_front()]. *)
Fixpoint traverse (fuel : nat) (adjacency : list (list nat)) (remaining queue order : list nat)
  : Traversal :=
  match fuel with
  | O => StillRunning
  | S fuel =>
      match queue with
      | [] => Visited order
      | index :: queue =>
          match adjacency !! index with
          | None => AdjacencyOutOfBounds
          | Some neighbors =>
              match relax neighbors remaining queue with
              | None => IndegreeOutOfBounds
              | Some (remaining, queue) =>
                  traverse fuel adjacency remaining queue (order ++ [index])
              end
          end
      end
  end.

Definition PlanGraph_validate (plan : PlanGraph) : result unit string :=
  let nodes := pg_nodes plan in
  let n := length nodes in
  if Nat.eqb n 0 then Err "plan graph must include at least one node" else
  if (pb_max_nodes (pg_budget plan) <? Z.of_nat n)%Z
  then Err ("plan graph node budget exceeded actual=" +:+ fmt_dec (Z.of_nat n) +:+ " limit="
             +:+ fmt_dec (pb_max_nodes (pg_budget plan))) else
  let* indexed := index_nodes nodes ∅ 0 in
  let '(node_index, total_attempts) := indexed in
  if (pb_max_total_attempts (pg_budget plan) <? total_attempts)%Z
  then Err ("plan attempt budget exceeded actual=" +:+ fmt_dec total_attempts +:+ " limit="
             +:+ fmt_dec (pb_max_total_attempts (pg_budget plan))) else
  let* d := index_edges node_index (pg_edges plan) (no_edges n) in
  if Nat.eqb (length (zeros (dg_indegree d))) 0
  then Err "plan graph must include at least one entry node" else
  if Nat.eqb (length (zeros (dg_outdegree d))) 0
  then Err "plan graph must include at least one terminal node" else
  match traverse (S n) (dg_adjacency d) (dg_indegree d) (zeros (dg_indegree d)) [] with
  | AdjacencyOutOfBounds => Err "plan graph adjacency traversal index out of bounds"
  | IndegreeOutOfBounds => Err "plan graph indegree traversal index out of bounds"
  | StillRunning => Err "traversal still running"
  | Visited order =>
      if Nat.eqb (length order) n then Ok tt else Err "plan graph must be acyclic"
  end.

(** ** plan_executor.rs *)

Inductive PlanNodeErrorKind : Type := ApprovalRequired | Retryable | PlanPolicyDenied | NonRetryable.

Record PlanNodeError : Type := { ne_kind : PlanNodeErrorKind; ne_message : string }.

(** [impl From<String> for PlanNodeError]. *)
Definition PlanNodeError_from_string (value : string) : PlanNodeError :=
  {| ne_kind := NonRetryable; ne_message := value |}.

Inductive PlanRunFailure : Type :=
| ValidationFailed (error : string)
| TopologyResolutionFailed
| BudgetExceeded (attempts_used limit : Z)
| WallTimeExceeded (elapsed_ms limit_ms : Z)
| NodeFailed (node_id : string) (attempts_used : nat) (last_error_kind : PlanNodeErrorKind)
    (last_error : string).

Inductive PlanRunStatus : Type := Succeeded | Failed (failure : PlanRunFailure).

Record PlanNodeAttemptEvent : Type := {
  ev_node_id : string;
  ev_attempt : nat;
  ev_success : bool;
  ev_error_kind : option PlanNodeErrorKind;
  ev_error : option string;
}.

Record PlanRunReport : Type := {
  pr_status : PlanRunStatus;
  pr_ordered_nodes : list string;
  pr_attempts_used : Z;
  pr_attempt_events : list PlanNodeAttemptEvent;
  pr_elapsed_ms : Z;
}.

Definition normalize_node_error (error : PlanNodeError) : PlanNodeError :=
  let trimmed := trim (ne_message error) in
  if str_is_empty trimmed
  then {| ne_kind := ne_kind error; ne_message := "node execution failed with empty reason" |}
  else {| ne_kind := ne_kind error; ne_message := trimmed |}.

(** The edges of [topological_order]: the first unknown id gives [None]. *)
Fixpoint order_edges (node_index : gmap string nat) (edges : list PlanEdge) (indegree : list nat)
    (adjacency : list (list nat)) : option (list nat * list (list nat)) :=
  match edges with
  | [] => Some (indegree, adjacency)
  | edge :: edges =>
      from ← node_index !! pe_from edge;
      to ← node_index !! pe_to edge;
      degree ← indegree !! to;
      neighbors ← adjacency !! from;
      order_edges node_index edges (<[to := S degree]> indegree)
        (<[from := neighbors ++ [to]]> adjacency)
  end.

Definition topological_order (plan : PlanGraph) : option (list nat) :=
  let n := length (pg_nodes plan) in
  let node_index : gmap string nat :=
    foldl (fun m '(index, node) => <[pn_id node := index]> m) ∅ (imap pair (pg_nodes plan)) in
  '(indegree, adjacency) ← order_edges node_index (pg_edges plan) (replicate n 0) (replicate n []);
  match traverse (S n) adjacency indegree (zeros indegree) [] with
  | Visited order => if Nat.eqb (length order) n then Some order else None
  | _ => None
  end.

Section executor.
Context {W : Type}.

(** The executor of a node under [tokio::time::timeout] ([None]: timed out), and
    the milliseconds since the run started. *)
Variable run_node : PlanNode -> nat -> M W (option (result unit PlanNodeError)).
Variable elapsed : M W Z.

(** What one attempt or one node leaves: go on with these counters, or return
    this report. *)
Inductive RunStep : Type :=
| GoOn (attempts_used : Z) (events : list PlanNodeAttemptEvent)
| Stop (report : PlanRunReport).

Definition report_of (status : PlanRunStatus) (ordered : list string) (attempts_used : Z)
    (events : list PlanNodeAttemptEvent) (elapsed_ms : Z) : PlanRunReport := {|
  pr_status := status; pr_ordered_nodes := ordered; pr_attempts_used := attempts_used;
  pr_attempt_events := events; pr_elapsed_ms := elapsed_ms |}.

Definition early_report (failure : PlanRunFailure) : PlanRunReport :=
  report_of (Failed failure) [] 0 [] 0.

Definition attempt_event (node : PlanNode) (attempt : nat) (error : option PlanNodeError)
  : PlanNodeAttemptEvent := {|
  ev_node_id := pn_id node; ev_attempt := attempt;
  ev_success := match error with None => true | Some _ => false end;
  ev_error_kind := ne_kind <$> error; ev_error := ne_message <$> error |}.

Definition is_terminal_kind (k : PlanNodeErrorKind) : bool :=
  match k with PlanPolicyDenied | ApprovalRequired => true | _ => false end.

Definition timeout_error (node : PlanNode) : PlanNodeError :=
  {| ne_kind := Retryable;
     ne_message := "node_timeout node=" +:+ pn_id node +:+ " timeout_ms="
                   +:+ fmt_dec (pn_timeout_ms node) |}.

(** [for attempt in 1..=node.max_attempts]: [tries] attempts from [attempt] on. *)
Fixpoint run_attempts (budget : PlanBudget) (ordered : list string) (node : PlanNode)
    (tries attempt : nat) (attempts_used : Z) (events : list PlanNodeAttemptEvent) : M W RunStep :=
  match tries with
  | O => ret (GoOn attempts_used events)
  | S tries =>
      let! elapsed_ms := elapsed in
      if (pb_max_wall_time_ms budget <? elapsed_ms)%Z
      then ret (Stop (report_of
             (Failed (WallTimeExceeded elapsed_ms (pb_max_wall_time_ms budget)))
             ordered attempts_used events elapsed_ms)) else
      if (pb_max_total_attempts budget <=? attempts_used)%Z
      then ret (Stop (report_of
             (Failed (BudgetExceeded attempts_used (pb_max_total_attempts budget)))
             ordered attempts_used events elapsed_ms)) else
      let attempts_used := u64_saturating_add attempts_used 1 in
      let fail (error : PlanNodeError) : M W RunStep :=
        let! elapsed_ms := elapsed in
        ret (Stop (report_of
          (Failed (NodeFailed (pn_id node) attempt (ne_kind error) (ne_message error)))
          ordered attempts_used (events ++ [attempt_event node attempt (Some error)]) elapsed_ms)) in
      let retry (error : PlanNodeError) : M W RunStep :=
        run_attempts budget ordered node tries (S attempt) attempts_used
          (events ++ [attempt_event node attempt (Some error)]) in
      let! outcome := run_node node attempt in
      match outcome with
      | None =>
          let error := normalize_node_error (timeout_error node) in
          if Nat.eqb attempt (pn_max_attempts node) then fail error else retry error
      | Some (Ok _) => ret (GoOn attempts_used (events ++ [attempt_event node attempt None]))
      | Some (Err error) =>
          let error := normalize_node_error error in
          if is_terminal_kind (ne_kind error) || Nat.eqb attempt (pn_max_attempts node)
          then fail error else retry error
      end
  end.

(** [for node_index in ordered_indexes]. *)
Fixpoint run_nodes (plan : PlanGraph) (ordered : list string) (indexes : list nat)
    (attempts_used : Z) (events : list PlanNodeAttemptEvent) : M W PlanRunReport :=
  match indexes with
  | [] =>
      let! elapsed_ms := elapsed in
      ret (report_of Succeeded ordered attempts_used events elapsed_ms)
  | index :: indexes =>
      match pg_nodes plan !! index with
      | None =>
          let! elapsed_ms := elapsed in
          ret (report_of (Failed TopologyResolutionFailed) ordered attempts_used events elapsed_ms)
      | Some node =>
          let! step := run_attempts (pg_budget plan) ordered node (pn_max_attempts node) 1
                         attempts_used events in
          match step with
          | GoOn attempts_used events => run_nodes plan ordered indexes attempts_used events
          | Stop report => ret report
          end
      end
  end.

Definition PlanExecutor_execute (plan : PlanGraph) : M W PlanRunReport :=
  match PlanGraph_validate plan with
  | Err error => ret (early_report (ValidationFailed error))
  | Ok _ =>
      match topological_order plan with
      | None => ret (early_report TopologyResolutionFailed)
      | Some ordered_indexes =>
          match mapM (fun index => pn_id <$> pg_nodes plan !! index) ordered_indexes with
          | None => ret (early_report TopologyResolutionFailed)
          | Some ordered_nodes => run_nodes plan ordered_nodes ordered_indexes 0 []
          end
      end
  end.
End executor.
