(* ===== verification/PlanValid.v ===== *)
(** * Valid plans

    [PlanGraph::validate] accepts exactly the plans that are well-formed and
    acyclic, and on those [topological_order] answers an order of all nodes in
    which every node comes after the nodes it depends on; the traversal both share
    ends and is such an order. *)

From S2P Require Import Prelude RustStr Plan.

(** ** The order of a plan's nodes

    The traversal that [PlanGraph::validate] and [topological_order] share, on
    edges between indices: it ends, it visits every node at most once and after
    all its predecessors, and it visits every node exactly when the edges have no
    cycle. *)

(** ** Acyclic relations on finite sets *)

Lemma tc_out {A} (R : relation A) x y : tc R x y -> exists z, R x z.
Proof. destruct 1; eauto. Qed.

(** A nonempty finite set has an element with no predecessor in it. *)
Section minimal.
Context {A : Type} `{Countable A} (R : relation A) `{!RelDecision R}.
Hypothesis R_acyclic : forall a, ~ tc R a a.

(** Walking backwards [k] steps inside [s]: the walk is stuck, or it is a chain
    of [k + 1] elements. *)
Lemma backward_walk (s : gset A) x k :
  x ∈ s ->
  (exists y, y ∈ s /\ forall z, z ∈ s -> ~ R z y) \/
  exists y l, length l = k /\ Forall (.∈ s) (y :: l) /\ StronglySorted (tc R) (y :: l).
Proof.
  intros Hx. induction k as [|k IH].
  { right. exists x, []. split_and!; [done|by constructor|]. by repeat constructor. }
  destruct IH as [?|(y & l & Hlen & Hin & Hs)]; [by left|].
  destruct (decide (set_Exists (fun z => R z y) s)) as [(z & Hz & Hzy)|Hno].
  - right. exists z, (y :: l). apply Forall_cons in Hin as [Hy Hl].
    split_and!; [simpl; lia|by repeat constructor|]. constructor; [done|].
    apply StronglySorted_cons in Hs as [Hs _]. constructor; [by apply tc_once|].
    eapply Forall_impl; [exact Hs|]. intros w Hw. by eapply tc_l.
  - left. exists y. apply Forall_cons in Hin as [Hy _]. split; [done|].
    intros z Hz Hzy. apply Hno. by exists z.
Qed.

Lemma chain_NoDup l : StronglySorted (tc R) l -> NoDup l.
Proof.
  induction 1 as [|x l _ IH Hx]; constructor; [|done].
  intros Hin. rewrite Forall_forall in Hx. by apply (R_acyclic x), Hx.
Qed.

Lemma acyclic_minimal (s : gset A) : s ≠ ∅ -> exists y, y ∈ s /\ forall z, z ∈ s -> ~ R z y.
Proof.
  intros [x Hx]%set_choose_L. destruct (backward_walk s x (size s) Hx) as [?|(y & l & Hlen & Hin & Hs)];
    [done|exfalso].
  assert (size (list_to_set (y :: l) : gset A) <= size s) as Hle.
  { apply subseteq_size. intros z Hz%elem_of_list_to_set. rewrite Forall_forall in Hin. by apply Hin. }
  rewrite size_list_to_set in Hle by (by apply chain_NoDup). simpl in Hle. lia.
Qed.
End minimal.

(** ** Edges between indices *)

Section graph.
Variable n : nat.
Variable E : list (nat * nat).

Definition indeg (v : nat) : nat := length (filter (fun e => e.2 = v) E).
Definition outdeg (v : nat) : nat := length (filter (fun e => e.1 = v) E).
Definition adj (u : nat) : list nat := (filter (fun e => e.1 = u) E).*2.
Definition edge (u v : nat) : Prop := (u, v) ∈ E.

(** Edges into [v] from outside [done]. *)
Definition rem (done : list nat) (v : nat) : nat := length (filter (fun e => e.2 = v /\ e.1 ∉ done) E).

Definition cnt (v : nat) (l : list nat) : nat := length (filter (fun w => w = v) l).
End graph.

(** Distinct numbers below [n] are at most [n]. *)
Lemma NoDup_bounded_length (l : list nat) n : NoDup l -> Forall (fun v => v < n) l -> length l <= n.
Proof.
  intros Hnd Hb. assert (length l <= length (seq 0 n)); [|by rewrite length_seq in *].
  apply submseteq_length, NoDup_submseteq; [done|].
  intros v Hv. rewrite Forall_forall in Hb. apply elem_of_seq. specialize (Hb v Hv). lia.
Qed.

Lemma cnt_cons v x l : cnt v (x :: l) = (if decide (x = v) then 1 else 0) + cnt v l.
Proof. unfold cnt. rewrite filter_cons. by case_decide. Qed.

Lemma cnt_nil v : cnt v [] = 0.
Proof. done. Qed.

Lemma rem_nil E v : rem E [] v = indeg E v.
Proof. unfold rem, indeg. f_equal. apply list_filter_iff. intros e. set_solver. Qed.

Lemma rem_zero E S v : rem E S v = 0 <-> forall u, edge E u v -> u ∈ S.
Proof.
  unfold rem, edge. rewrite length_zero_iff_nil. split.
  - intros Hnil u Hu. destruct (decide (u ∈ S)) as [|Hnot]; [done|].
    by destruct (filter_nil_not_elem_of (fun e => e.2 = v /\ e.1 ∉ S) E (u, v)).
  - intros Hall. apply elem_of_nil_inv. intros [u w] [[Hw Hu] Hin]%list_elem_of_filter.
    simpl in *. subst w. by apply Hu, Hall.
Qed.

(** Finishing [u] removes its edges. *)
Lemma rem_snoc E S u v : u ∉ S -> rem E S v = rem E (S ++ [u]) v + cnt v (adj E u).
Proof.
  intros Hu. unfold rem, cnt, adj. induction E as [|[a b] l IH]; [done|].
  rewrite !filter_cons. simpl.
  destruct (decide (b = v /\ a ∉ S)) as [[Hb1 Ha]|Hn1], (decide (b = v /\ a ∉ S ++ [u])) as [[Hb Ha2]|Hn2],
    (decide (a = u)) as [Hau|Hau]; rewrite ?fmap_cons, ?filter_cons; cbn [fst snd length];
    repeat case_decide; cbn [length]; try lia;
    exfalso; rewrite ?elem_of_app, ?list_elem_of_singleton in *; subst; tauto.
Qed.

Lemma lookup_tabulate {A} (f : nat -> A) n v : v < n -> (f <$> seq 0 n) !! v = Some (f v).
Proof. intros. rewrite list_lookup_fmap, lookup_seq_lt by done. done. Qed.

Lemma insert_tabulate {A} (f g : nat -> A) n v x :
  v < n -> g v = x -> (forall w, w <> v -> g w = f w) -> <[v := x]> (f <$> seq 0 n) = g <$> seq 0 n.
Proof.
  intros Hv Hx Hg. apply list_eq. intros w. destruct (decide (w < n)) as [Hw|Hw].
  - rewrite (lookup_tabulate g) by done. destruct (decide (w = v)) as [->|Hne].
    + rewrite list_lookup_insert_eq by (by rewrite length_fmap, length_seq). by rewrite Hx.
    + rewrite list_lookup_insert_ne, lookup_tabulate by done. by rewrite Hg.
  - rewrite !lookup_ge_None_2; [done|rewrite length_fmap, length_seq; lia|].
    rewrite length_insert, length_fmap, length_seq. lia.
Qed.

Lemma imap_tabulate (f : nat -> nat) k n :
  imap (fun i x => (k + i, x)) (f <$> seq k n) = (fun v => (v, f v)) <$> seq k n.
Proof.
  apply list_eq. intros i. rewrite list_lookup_imap, !list_lookup_fmap.
  destruct (decide (i < n)) as [Hi|Hi].
  - by rewrite lookup_seq_lt.
  - by rewrite lookup_seq_ge by lia.
Qed.

Lemma zeros_tabulate f n : zeros (f <$> seq 0 n) = filter (fun v => f v = 0) (seq 0 n).
Proof.
  unfold zeros. change (imap pair (f <$> seq 0 n)) with (imap (fun i x => (0 + i, x)) (f <$> seq 0 n)).
  rewrite imap_tabulate. generalize (seq 0 n) as l.
  induction l as [|v l IH]; [done|]. rewrite filter_cons, <- IH. simpl.
  by destruct (Nat.eqb_spec (f v) 0); case_decide.
Qed.

(** ** The traversal *)

Section kahn.
Variable n : nat.
Variable E : list (nat * nat).
Hypothesis E_bound : Forall (fun e => e.1 < n /\ e.2 < n) E.

(** Between two rounds ([pending] is empty) and inside one: the remaining
    degrees count the edges from unvisited nodes and the pending ones, and the
    nodes seen so far are those without any. *)
Record kahn_inv (S pending deg queue : list nat) : Prop := {
  ki_deg : deg = (fun v => rem E S v + cnt v pending) <$> seq 0 n;
  ki_nodup : NoDup (S ++ queue);
  ki_bound : Forall (fun v => v < n) (S ++ queue);
  ki_seen : forall v, v < n -> v ∈ S ++ queue <-> rem E S v + cnt v pending = 0;
}.

Lemma relax_inv S pending deg queue :
  kahn_inv S pending deg queue -> Forall (fun v => v < n) pending ->
  exists deg' queue', relax pending deg queue = Some (deg', queue') /\ kahn_inv S [] deg' queue'.
Proof.
  revert deg queue. induction pending as [|x pending IH]; intros deg queue Hinv Hp; [by eauto|].
  apply Forall_cons in Hp as [Hx Hp]. destruct Hinv as [-> Hnd Hb Hseen]. simpl.
  rewrite (lookup_tabulate _ n x Hx), cnt_cons, decide_True by done. 
  set (k := rem E S x + cnt x pending).
  replace (rem E S x + (1 + cnt x pending) - 1) with k by (unfold k; lia).
  rewrite (insert_tabulate _ (fun v => rem E S v + cnt v pending)) by
    (try done; intros w Hw; rewrite cnt_cons, decide_False by done; done).
  apply IH; [|done].
  assert (x ∉ S ++ queue) as Hnew by (rewrite (Hseen x Hx), cnt_cons, decide_True by done; lia).
  destruct (Nat.eqb_spec k 0) as [Hk|Hk]; split; try done.
  - rewrite app_assoc. apply NoDup_app. split_and!; [done|set_solver|apply NoDup_singleton].
  - rewrite app_assoc. apply Forall_app. split; [done|by repeat constructor].
  - intros v Hv. rewrite app_assoc, elem_of_app, (Hseen v Hv), list_elem_of_singleton, cnt_cons.
    case_decide as Hd; [subst v; fold k; lia|]. split; [intros [?|?]; [lia|congruence]|intros; left; lia].
  - intros v Hv. rewrite (Hseen v Hv), cnt_cons. case_decide as Hd; [subst v; fold k; lia|lia].
Qed.

Lemma pop_inv S u deg queue :
  kahn_inv S [] deg (u :: queue) -> kahn_inv (S ++ [u]) (adj E u) deg queue.
Proof.
  intros [-> Hnd Hb Hseen].
  assert (u ∉ S) as Hu by (apply NoDup_app in Hnd; set_solver).
  split.
  - apply list_fmap_ext. intros i v _. rewrite (rem_snoc _ _ u _ Hu), cnt_nil. lia.
  - by rewrite <- app_assoc.
  - by rewrite <- app_assoc.
  - intros v Hv. rewrite <- app_assoc. simpl. rewrite (Hseen v Hv), (rem_snoc _ _ u _ Hu), cnt_nil. lia.
Qed.

Lemma adj_bound u : Forall (fun v => v < n) (adj E u).
Proof.
  unfold adj. rewrite Forall_fmap. apply Forall_forall. intros e [_ He]%list_elem_of_filter.
  rewrite Forall_forall in E_bound. by apply E_bound.
Qed.

(** Every node comes after its predecessors. *)
Definition topological (order : list nat) : Prop :=
  forall l1 v l2 u, order = l1 ++ v :: l2 -> edge E u v -> u ∈ l1.

Lemma topological_snoc order v :
  topological order -> (forall u, edge E u v -> u ∈ order) -> topological (order ++ [v]).
Proof.
  intros Ht Hv l1 w l2 u Heq Hu. destruct l2 as [|x l2 _] using rev_ind.
  - apply app_inj_tail in Heq as [-> ->]. by apply Hv.
  - rewrite app_comm_cons, app_assoc in Heq. apply app_inj_tail in Heq as [-> ->].
    by eapply Ht.
Qed.

Lemma traverse_inv fuel order deg queue :
  kahn_inv order [] deg queue -> topological order -> n < fuel + length order ->
  exists order', traverse fuel (adj E <$> seq 0 n) deg queue order = Visited order' /\
    NoDup order' /\ Forall (fun v => v < n) order' /\ topological order' /\
    (forall v, v < n -> v ∈ order' <-> forall u, edge E u v -> u ∈ order').
Proof.
  revert order deg queue. induction fuel as [|fuel IH]; intros order deg queue Hinv Ht Hfuel.
  { exfalso. destruct Hinv as [_ Hnd Hb _]. apply NoDup_app in Hnd as [Hnd _].
    apply Forall_app in Hb as [Hb _]. apply (NoDup_bounded_length order n) in Hnd; [lia|done]. }
  destruct queue as [|u queue]; simpl.
  { exists order. destruct Hinv as [_ Hnd Hb Hseen]. rewrite app_nil_r in *. split_and!; try done.
    intros v Hv. rewrite (Hseen v Hv), <- rem_zero, cnt_nil. lia. }
  assert (u < n) as Hu.
  { destruct Hinv as [_ _ Hb _]. apply Forall_app in Hb as [_ Hb]. by apply Forall_cons in Hb as [? _]. }
  assert (forall w, edge E w u -> w ∈ order) as Hpred.
  { apply rem_zero. destruct Hinv as [_ _ _ Hseen]. pose proof (proj1 (Hseen u Hu)) as H0.
    rewrite cnt_nil in H0. rewrite <- (Nat.add_0_r (rem E order u)). apply H0. set_solver. }
  rewrite (lookup_tabulate _ n u Hu).
  destruct (relax_inv _ _ _ _ (pop_inv _ _ _ _ Hinv) (adj_bound u)) as (deg' & queue' & -> & Hinv').
  apply IH; [done|by apply topological_snoc|]. rewrite length_app. simpl. lia.
Qed.

Lemma kahn_start : kahn_inv [] [] (indeg E <$> seq 0 n) (zeros (indeg E <$> seq 0 n)).
Proof.
  rewrite zeros_tabulate. split; simpl.
  - apply list_fmap_ext. intros i v _. by rewrite rem_nil, cnt_nil, Nat.add_0_r.
  - apply NoDup_filter, NoDup_seq.
  - apply Forall_forall. intros v [_ Hv]%list_elem_of_filter. apply elem_of_seq in Hv. lia.
  - intros v Hv. rewrite list_elem_of_filter, elem_of_seq, rem_nil, cnt_nil. lia.
Qed.

Definition acyclic_edges : Prop := forall v, ~ tc (edge E) v v.

Lemma topological_tc order l1 v l2 u :
  topological order -> order = l1 ++ v :: l2 -> tc (edge E) u v -> u ∈ l1.
Proof.
  intros Ht Heq Huv. revert l1 l2 Heq. induction Huv as [u v Huv|u w v Huw _ IH]; intros l1 l2 ->.
  - by eapply Ht.
  - specialize (IH _ _ eq_refl). apply list_elem_of_split in IH as (a & b & ->).
    assert (u ∈ a); [|set_solver]. apply (Ht a w (b ++ v :: l2) u); [by rewrite <- app_assoc|done].
Qed.

Lemma edge_bound u v : edge E u v -> u < n /\ v < n.
Proof. intros He. rewrite Forall_forall in E_bound. exact (E_bound (u, v) He). Qed.

Lemma full_length order :
  NoDup order -> Forall (fun v => v < n) order ->
  length order = n <-> forall v, v < n -> v ∈ order.
Proof.
  intros Hnd Hb. split.
  - intros Hlen v Hv. assert (order ≡ₚ seq 0 n) as ->; [|apply elem_of_seq; lia].
    apply submseteq_length_Permutation; [|rewrite length_seq; lia].
    apply NoDup_submseteq; [done|]. intros w Hw. rewrite Forall_forall in Hb.
    apply elem_of_seq. specialize (Hb w Hw). lia.
  - intros Hall. pose proof (NoDup_bounded_length order n Hnd Hb).
    assert (length (seq 0 n) <= length order); [|rewrite length_seq in *; lia].
    apply submseteq_length, NoDup_submseteq; [apply NoDup_seq|].
    intros v Hv%elem_of_seq. apply Hall. lia.
Qed.

#[local] Instance edge_dec : RelDecision (edge E).
Proof. intros u v. unfold edge. apply _. Defined.

(** The traversal ends within [n] rounds, in topological order, and is complete
    exactly on acyclic edges. *)
Lemma kahn_correct fuel :
  n < fuel ->
  exists order,
    traverse fuel (adj E <$> seq 0 n) (indeg E <$> seq 0 n) (zeros (indeg E <$> seq 0 n)) [] = Visited order /\
    NoDup order /\ Forall (fun v => v < n) order /\ topological order /\
    (length order = n <-> acyclic_edges).
Proof.
  intros Hf. destruct (traverse_inv fuel [] _ _ kahn_start) as (order & Hrun & Hnd & Hb & Ht & Hclosed);
    [by intros [|??]|simpl; lia|].
  exists order. split_and!; [done..|]. rewrite (full_length order Hnd Hb). split.
  - intros Hall v Hv. 
    assert (v < n) as Hvn by (destruct (tc_out _ _ _ Hv) as [w Hw]; by apply edge_bound in Hw as [? _]).
    destruct (list_elem_of_split _ _ (Hall v Hvn)) as (l1 & l2 & Heq).
    pose proof (topological_tc _ _ _ _ _ Ht Heq Hv) as Hin.
    rewrite Heq in Hnd. apply NoDup_app in Hnd as (_ & Hd & _). apply (Hd v Hin). by left.
  - intros Hac. set (U := (list_to_set (seq 0 n) : gset nat) ∖ list_to_set order).
    assert (forall v, v ∈ U <-> v < n /\ v ∉ order) as HU.
    { intros v. unfold U. rewrite elem_of_difference, !elem_of_list_to_set, elem_of_seq.
      intuition lia. }
    destruct (decide (U = ∅)) as [Hempty|Hne].
    + intros v Hv. destruct (decide (v ∈ order)) as [|Hno]; [done|].
      assert (v ∈ U) by (by apply HU). set_solver.
    + destruct (acyclic_minimal (edge E) Hac U Hne) as (y & [Hyn Hyo]%HU & Hmin). exfalso.
      apply Hyo, Hclosed; [done|]. intros u Hu. destruct (decide (u ∈ order)) as [|Huo]; [done|].
      exfalso. apply (Hmin u); [|done]. apply HU. split; [|done]. by apply edge_bound in Hu as [? _].
Qed.
End kahn.

Definition node_ids (nodes : list PlanNode) : list string := pn_id <$> nodes.

(** [a] comes before [b] by an edge of the plan. *)
Definition plan_edge (plan : PlanGraph) (a b : string) : Prop :=
  exists e, e ∈ pg_edges plan /\ pe_from e = a /\ pe_to e = b.

Definition node_ok (node : PlanNode) : Prop :=
  trim (pn_id node) <> "" /\ pn_timeout_ms node <> 0%Z /\ pn_max_attempts node <> 0.

Definition attempts_sum (nodes : list PlanNode) : Z :=
  foldr (fun node sum => Z.of_nat (pn_max_attempts node) + sum)%Z 0%Z nodes.

(** What a valid plan is. *)
Record plan_ok (plan : PlanGraph) : Prop := {
  ok_nonempty : pg_nodes plan <> [];
  ok_max_nodes : (Z.of_nat (length (pg_nodes plan)) <= pb_max_nodes (pg_budget plan))%Z;
  ok_nodes : Forall node_ok (pg_nodes plan);
  ok_unique : NoDup (node_ids (pg_nodes plan));
  ok_attempts : (Z.min (attempts_sum (pg_nodes plan)) u64_max
                 <= pb_max_total_attempts (pg_budget plan))%Z;
  ok_edges : forall a b, plan_edge plan a b ->
    a ∈ node_ids (pg_nodes plan) /\ b ∈ node_ids (pg_nodes plan);
  ok_acyclic : forall a, ~ tc (plan_edge plan) a a;
}.

(** ** Indices of nodes *)

Definition indexes (m : gmap string nat) (nodes : list PlanNode) : Prop :=
  size m = length nodes /\
  forall id i, m !! id = Some i <-> exists node, nodes !! i = Some node /\ pn_id node = id.

Lemma indexes_nil : indexes ∅ [].
Proof. split; [done|]. intros id i. rewrite lookup_empty. split; [done|]. by intros (? & [=] & _). Qed.

Lemma indexes_None m nodes id : indexes m nodes -> m !! id = None <-> id ∉ node_ids nodes.
Proof.
  intros [_ Hm]. split.
  - intros Hno (node & -> & [i Hi]%list_elem_of_lookup)%list_elem_of_fmap.
    assert (m !! pn_id node = Some i) by (apply Hm; eauto). congruence.
  - intros Hno. destruct (m !! id) as [i|] eqn:E; [exfalso|done].
    apply Hm in E as (node & Hi & <-). apply Hno, list_elem_of_fmap_2. by eapply list_elem_of_lookup_2.
Qed.

Lemma indexes_snoc m nodes node :
  indexes m nodes -> pn_id node ∉ node_ids nodes ->
  indexes (<[pn_id node := size m]> m) (nodes ++ [node]).
Proof.
  intros Hm Hno. pose proof (proj2 (indexes_None _ _ _ Hm) Hno) as Hnone. destruct Hm as [Hs Hm]. split.
  { rewrite map_size_insert_None, length_app by done. simpl. lia. }
  intros id i. destruct (decide (pn_id node = id)) as [<-|Hne].
  - rewrite lookup_insert_eq, Hs. split.
    + intros [= <-]. exists node. split; [|done]. by apply list_lookup_middle.
    + intros (node' & Hi & Heq). apply lookup_app_Some in Hi as [Hi|[Hge Hi]].
      * exfalso. apply Hno. rewrite <- Heq. apply list_elem_of_fmap_2. by eapply list_elem_of_lookup_2.
      * apply list_lookup_singleton_Some in Hi as [? _]. f_equal. lia.
  - rewrite lookup_insert_ne, Hm by done. split.
    + intros (node' & Hi & <-). exists node'. split; [|done]. by apply lookup_app_l_Some.
    + intros (node' & Hi & <-). apply lookup_app_Some in Hi as [Hi|[_ Hi]]; [by eauto|].
      apply list_lookup_singleton_Some in Hi as [_ ->]. done.
Qed.

Definition saturating_sum (t : Z) (nodes : list PlanNode) : Z :=
  foldl (fun t node => u64_saturating_add t (Z.of_nat (pn_max_attempts node))) t nodes.

Lemma attempts_sum_nonneg nodes : (0 <= attempts_sum nodes)%Z.
Proof. induction nodes; simpl; lia. Qed.

Lemma saturating_sum_min t nodes :
  (0 <= t <= u64_max)%Z -> saturating_sum t nodes = Z.min (t + attempts_sum nodes) u64_max.
Proof.
  revert t. induction nodes as [|node nodes IH]; intros t Ht; simpl; [lia|].
  pose proof (attempts_sum_nonneg nodes). unfold u64_saturating_add. rewrite IH by lia. lia.
Qed.

(** The loop over the nodes succeeds exactly on sound nodes with distinct ids. *)
Lemma index_nodes_ok nodes m pre t m' t' :
  indexes m pre -> index_nodes nodes m t = Ok (m', t') ->
  Forall node_ok nodes /\ (NoDup (node_ids pre) -> NoDup (node_ids (pre ++ nodes))) /\
  indexes m' (pre ++ nodes) /\ t' = saturating_sum t nodes.
Proof.
  revert m pre t. induction nodes as [|node nodes IH]; simpl; intros m pre t Hm H.
  { simplify_eq. rewrite app_nil_r. by split_and!. }
  destruct (str_is_empty _) eqn:E1; [done|]. destruct (_ =? 0)%Z eqn:E2; [done|].
  destruct (Nat.eqb _ 0) eqn:E3; [done|]. destruct (m !! pn_id node) eqn:E4; [done|].
  apply (indexes_None _ pre) in E4; [|done].
  destruct (IH _ (pre ++ [node]) _ (indexes_snoc _ _ _ Hm E4) H) as (Hn & Hnd & Hm' & Ht).
  rewrite <- app_assoc in Hnd, Hm'. split_and!; try done.
  - constructor; [|done]. split_and!; [by destruct (trim (pn_id node))|lia|by apply Nat.eqb_neq].
  - intros Hpre. apply Hnd. unfold node_ids in *. rewrite fmap_app. apply NoDup_app.
    split_and!; [done|set_solver|apply NoDup_singleton].
Qed.

Lemma index_nodes_total nodes m pre t :
  indexes m pre -> Forall node_ok nodes -> NoDup (node_ids (pre ++ nodes)) ->
  exists m', index_nodes nodes m t = Ok (m', saturating_sum t nodes) /\ indexes m' (pre ++ nodes).
Proof.
  revert m pre t. induction nodes as [|node nodes IH]; simpl; intros m pre t Hm Hok Hnd.
  { rewrite app_nil_r. eauto. }
  apply Forall_cons in Hok as [(H1 & H2 & H3) Hok].
  assert (pn_id node ∉ node_ids pre) as Hno.
  { unfold node_ids in *. rewrite fmap_app in Hnd. apply NoDup_app in Hnd as (_ & Hd & _).
    intros Hin. apply (Hd _ Hin). rewrite fmap_cons. by left. }
  rewrite (proj2 (indexes_None _ _ _ Hm) Hno).
  destruct (trim (pn_id node)); [done|]. simpl.
  destruct (Z.eqb_spec (pn_timeout_ms node) 0); [done|].
  destruct (Nat.eqb_spec (pn_max_attempts node) 0); [done|].
  destruct (IH (<[pn_id node := size m]> m) (pre ++ [node])
    (u64_saturating_add t (Z.of_nat (pn_max_attempts node)))) as (m' & Hrun & Hm');
    [by apply indexes_snoc|done|by rewrite <- app_assoc|].
  rewrite <- app_assoc in Hm'. eauto.
Qed.

(** ** Edges between indices *)

Definition resolve (m : gmap string nat) (e : PlanEdge) : option (nat * nat) :=
  from ← m !! pe_from e; to ← m !! pe_to e; Some (from, to).

Definition degrees_of (n : nat) (E : list (nat * nat)) : Degrees := {|
  dg_indegree := indeg E <$> seq 0 n;
  dg_outdegree := outdeg E <$> seq 0 n;
  dg_adjacency := adj E <$> seq 0 n |}.

Lemma replicate_tabulate {A} (x : A) n : replicate n x = (fun _ => x) <$> seq 0 n.
Proof. generalize 0. induction n as [|n IH]; intros k; simpl; [done|]. by rewrite (IH (S k)). Qed.

Lemma no_edges_degrees n : no_edges n = degrees_of n [].
Proof. unfold no_edges, degrees_of. by rewrite !replicate_tabulate. Qed.

Lemma indeg_snoc E u v w : indeg (E ++ [(u, v)]) w = indeg E w + (if decide (v = w) then 1 else 0).
Proof. unfold indeg. rewrite filter_app, length_app, filter_cons. simpl. by case_decide. Qed.

Lemma outdeg_snoc E u v w : outdeg (E ++ [(u, v)]) w = outdeg E w + (if decide (u = w) then 1 else 0).
Proof. unfold outdeg. rewrite filter_app, length_app, filter_cons. simpl. by case_decide. Qed.

Lemma adj_snoc E u v w : adj (E ++ [(u, v)]) w = adj E w ++ (if decide (u = w) then [v] else []).
Proof. unfold adj. rewrite filter_app, fmap_app, filter_cons. simpl. by case_decide. Qed.

Section tables.
Variables (n u v : nat) (E : list (nat * nat)).
Hypothesis Hu : u < n.
Hypothesis Hv : v < n.

Lemma indegree_step :
  <[v := S (indeg E v)]> (indeg E <$> seq 0 n) = indeg (E ++ [(u, v)]) <$> seq 0 n.
Proof.
  apply insert_tabulate; [done|rewrite indeg_snoc, decide_True by done; lia|].
  intros w Hw. rewrite indeg_snoc, decide_False by done. lia.
Qed.

Lemma outdegree_step :
  <[u := S (outdeg E u)]> (outdeg E <$> seq 0 n) = outdeg (E ++ [(u, v)]) <$> seq 0 n.
Proof.
  apply insert_tabulate; [done|rewrite outdeg_snoc, decide_True by done; lia|].
  intros w Hw. rewrite outdeg_snoc, decide_False by done. lia.
Qed.

Lemma adjacency_step :
  <[u := adj E u ++ [v]]> (adj E <$> seq 0 n) = adj (E ++ [(u, v)]) <$> seq 0 n.
Proof.
  apply insert_tabulate; [done|by rewrite adj_snoc, decide_True by done|].
  intros w Hw. rewrite adj_snoc, decide_False by done. by rewrite app_nil_r.
Qed.

Lemma add_edge_degrees : add_edge u v (degrees_of n E) = Ok (degrees_of n (E ++ [(u, v)])).
Proof.
  unfold add_edge. simpl. rewrite !lookup_tabulate by done.
  by rewrite indegree_step, outdegree_step, adjacency_step.
Qed.
End tables.

Lemma resolve_Some m e u v : m !! pe_from e = Some u -> m !! pe_to e = Some v -> resolve m e = Some (u, v).
Proof. unfold resolve. by intros -> ->. Qed.

Lemma resolve_None m e : m !! pe_from e = None \/ m !! pe_to e = None -> resolve m e = None.
Proof. unfold resolve. by intros [-> | ->]; destruct (m !! pe_from e). Qed.

(** Both loops over the edges build these tables. *)
Lemma index_edges_spec m n edges E d :
  (forall id i, m !! id = Some i -> i < n) ->
  index_edges m edges (degrees_of n E) = Ok d <->
  exists E', mapM (resolve m) edges = Some E' /\ Forall (fun e => e.1 <> e.2) E' /\
             d = degrees_of n (E ++ E').
Proof.
  intros Hm. revert E. induction edges as [|e edges IH]; intros E; simpl.
  { split.
    - intros [= <-]. exists []. rewrite app_nil_r. by split_and!; [|constructor|].
    - intros (E' & [= <-] & _ & ->). by rewrite app_nil_r. }
  destruct (m !! pe_from e) as [u|] eqn:Hfrom, (m !! pe_to e) as [v|] eqn:Hto;
    [rewrite (resolve_Some _ _ _ _ Hfrom Hto); simpl|rewrite resolve_None by auto..];
    try (split; [done|by intros (? & HE & _)]).
  destruct (Nat.eqb_spec u v) as [->|Huv].
  { split; [done|]. intros (E' & HE & Hne & _). destruct (mapM (resolve m) edges); simpl in HE; [|done].
    injection HE as <-. by apply Forall_cons in Hne as [? _]. }
  rewrite add_edge_degrees by eauto. simpl. rewrite IH. split.
  - intros (E' & HE & Hne & ->). rewrite HE. exists ((u, v) :: E'). split_and!; [done|by constructor|].
    by rewrite <- app_assoc.
  - intros (E' & HE & Hne & ->). destruct (mapM (resolve m) edges) as [E''|]; simpl in HE; [|done].
    injection HE as <-. apply Forall_cons in Hne as [_ Hne]. exists E''. by rewrite <- app_assoc.
Qed.

Lemma order_edges_spec m n edges E E' :
  (forall id i, m !! id = Some i -> i < n) -> mapM (resolve m) edges = Some E' ->
  order_edges m edges (indeg E <$> seq 0 n) (adj E <$> seq 0 n)
  = Some (indeg (E ++ E') <$> seq 0 n, adj (E ++ E') <$> seq 0 n).
Proof.
  intros Hm. revert E E'. induction edges as [|e edges IH]; intros E E'; simpl.
  { intros [= <-]. by rewrite app_nil_r. }
  destruct (m !! pe_from e) as [u|] eqn:Hfrom, (m !! pe_to e) as [v|] eqn:Hto;
    [rewrite (resolve_Some _ _ _ _ Hfrom Hto); simpl|by rewrite resolve_None by auto..].
  destruct (mapM (resolve m) edges) as [E''|]; simpl; [|done]. intros [= <-].
  assert (u < n) by eauto. assert (v < n) by eauto.
  rewrite !lookup_tabulate by done. simpl. rewrite (indegree_step _ u v), adjacency_step by done.
  rewrite (IH _ _ eq_refl). by rewrite <- app_assoc.
Qed.

(** ** Ids and indices agree *)

Section agree.
Variables (plan : PlanGraph) (m : gmap string nat) (E : list (nat * nat)).
Hypothesis Hm : indexes m (pg_nodes plan).
Hypothesis HE : mapM (resolve m) (pg_edges plan) = Some E.

Let n := length (pg_nodes plan).

Lemma index_bound id i : m !! id = Some i -> i < n.
Proof. intros (node & Hi & _)%(proj2 Hm). by apply lookup_lt_Some in Hi. Qed.

Lemma index_inj a b i : m !! a = Some i -> m !! b = Some i -> a = b.
Proof. intros (x & Hx & <-)%(proj2 Hm) (y & Hy & <-)%(proj2 Hm). congruence. Qed.

Lemma edge_iff i j :
  edge E i j <-> exists a b, plan_edge plan a b /\ m !! a = Some i /\ m !! b = Some j.
Proof.
  unfold edge, plan_edge. apply mapM_Some in HE. split.
  - intros [k Hk]%list_elem_of_lookup. destruct (Forall2_lookup_r _ _ _ _ _ HE Hk) as (e & He & Hr).
    unfold resolve in Hr. apply bind_Some in Hr as (u & Hu & Hr). apply bind_Some in Hr as (v & Hv & [= <- <-]).
    exists (pe_from e), (pe_to e). split_and!; [|done..]. exists e. split; [|done].
    by eapply list_elem_of_lookup_2.
  - intros (a & b & (e & [k Hk]%list_elem_of_lookup & <- & <-) & Ha & Hb).
    destruct (Forall2_lookup_l _ _ _ _ _ HE Hk) as (p & Hp & Hr).
    rewrite (resolve_Some _ _ _ _ Ha Hb) in Hr. simplify_eq. by eapply list_elem_of_lookup_2.
Qed.

Lemma edges_bound : Forall (fun e => e.1 < n /\ e.2 < n) E.
Proof.
  apply Forall_forall. intros [u v] (a & b & _ & Ha & Hb)%edge_iff.
  split; by eapply index_bound.
Qed.

Lemma tc_edge_ids i j :
  tc (edge E) i j -> exists a b, tc (plan_edge plan) a b /\ m !! a = Some i /\ m !! b = Some j.
Proof.
  induction 1 as [i j (a & b & Hab & Ha & Hb)%edge_iff|i k j (a & b & Hab & Ha & Hb)%edge_iff _ IH].
  - exists a, b. split_and!; [by apply tc_once|done..].
  - destruct IH as (b' & c & Hbc & Hb' & Hc). pose proof (index_inj _ _ _ Hb Hb') as <-.
    exists a, c. split_and!; [by eapply tc_l|done..].
Qed.

Lemma plan_edge_known a b : plan_edge plan a b -> is_Some (m !! a) /\ is_Some (m !! b).
Proof.
  intros (e & [k Hk]%list_elem_of_lookup & <- & <-). apply mapM_Some in HE.
  destruct (Forall2_lookup_l _ _ _ _ _ HE Hk) as (p & _ & Hr). unfold resolve in Hr.
  apply bind_Some in Hr as (u & Hu & Hr). apply bind_Some in Hr as (v & Hv & _). eauto.
Qed.

Lemma tc_ids_edge a b i j :
  tc (plan_edge plan) a b -> m !! a = Some i -> m !! b = Some j -> tc (edge E) i j.
Proof.
  intros Hab. revert i. induction Hab as [a b Hab|a c b Hac _ IH]; intros i Ha Hb.
  - apply tc_once, edge_iff. eauto.
  - destruct (plan_edge_known _ _ Hac) as [_ [k Hc]]. eapply tc_l; [|by apply (IH k)].
    apply edge_iff. eauto.
Qed.

Lemma acyclic_iff : acyclic_edges E <-> forall a, ~ tc (plan_edge plan) a a.
Proof.
  split.
  - intros Hac a Ha. destruct (tc_out _ _ _ Ha) as [b [[i Hi] _]%plan_edge_known].
    by apply (Hac i), (tc_ids_edge a a).
  - intros Hac i (a & b & Hab & Ha & Hb)%tc_edge_ids. pose proof (index_inj _ _ _ Ha Hb) as <-.
    by apply (Hac a).
Qed.

Lemma indexes_edges_known :
  forall a b, plan_edge plan a b -> a ∈ node_ids (pg_nodes plan) /\ b ∈ node_ids (pg_nodes plan).
Proof.
  intros a b [[i Ha] [j Hb]]%plan_edge_known.
  apply (proj2 Hm) in Ha as (x & Hx & <-). apply (proj2 Hm) in Hb as (y & Hy & <-).
  split; apply list_elem_of_fmap_2; by eapply list_elem_of_lookup_2.
Qed.
End agree.

(** Edges that name known nodes resolve. *)
Lemma resolve_total plan m :
  indexes m (pg_nodes plan) ->
  (forall a b, plan_edge plan a b ->
     a ∈ node_ids (pg_nodes plan) /\ b ∈ node_ids (pg_nodes plan)) ->
  exists E, mapM (resolve m) (pg_edges plan) = Some E.
Proof.
  intros Hm Hk. apply mapM_is_Some. apply Forall_forall. intros e He.
  destruct (Hk (pe_from e) (pe_to e)) as [Ha Hb]; [by exists e|].
  destruct (m !! pe_from e) as [u|] eqn:Hu; [|by apply (indexes_None _ (pg_nodes plan)) in Hu].
  destruct (m !! pe_to e) as [v|] eqn:Hv; [|by apply (indexes_None _ (pg_nodes plan)) in Hv].
  simpl. rewrite (resolve_Some _ _ _ _ Hu Hv). eauto.
Qed.

(** A complete topological order starts with an entry node and ends with a
    terminal one. *)
Lemma entry_and_terminal n E order :
  Forall (fun e => e.1 < n /\ e.2 < n) E -> topological E order -> n <> 0 ->
  NoDup order -> Forall (fun v => v < n) order -> length order = n ->
  length (zeros (indeg E <$> seq 0 n)) <> 0 /\ length (zeros (outdeg E <$> seq 0 n)) <> 0.
Proof.
  intros HEb Ht Hn Hnd Hb Hlen.
  assert (forall f v, v < n -> f v = 0 -> length (zeros (f <$> seq 0 n)) <> 0) as Hz.
  { intros f v Hv Hf Hl. rewrite zeros_tabulate, length_zero_iff_nil in Hl.
    destruct (filter_nil_not_elem_of (fun v => f v = 0) (seq 0 n) v Hl Hf). apply elem_of_seq. lia. }
  rewrite Forall_forall in Hb. split.
  - destruct order as [|v order]; [simpl in Hlen; lia|]. apply (Hz _ v); [apply Hb; by left|].
    rewrite <- rem_nil. apply rem_zero. intros u Hu. exact (Ht [] v order u eq_refl Hu).
  - destruct order as [|v order _] using rev_ind; [simpl in Hlen; lia|].
    apply (Hz _ v); [apply Hb; set_solver|]. unfold outdeg. apply length_zero_iff_nil, elem_of_nil_inv.
    intros [u w] [Hu Hin]%list_elem_of_filter. simpl in Hu. subst u.
    assert (w ∈ order ++ [v]) as Hw.
    { apply (full_length n (order ++ [v])); [done|by apply Forall_forall|done|].
      rewrite Forall_forall in HEb. exact (proj2 (HEb (v, w) Hin)). }
    apply list_elem_of_split in Hw as (l1 & l2 & Heq). pose proof (Ht l1 w l2 v Heq Hin) as Hv1.
    destruct l2 as [|x l2 _] using rev_ind.
    + apply app_inj_tail in Heq as [-> ->]. apply NoDup_app in Hnd as (_ & Hd & _). apply (Hd w Hv1). by left.
    + rewrite app_comm_cons, app_assoc in Heq. apply app_inj_tail in Heq as [-> ->].
      apply NoDup_app in Hnd as (_ & Hd & _). apply (Hd x); [set_solver|by left].
Qed.

#[local] Arguments traverse : simpl never.

Lemma validate_sound plan : PlanGraph_validate plan = Ok tt -> plan_ok plan.
Proof.
  unfold PlanGraph_validate.
  destruct (Nat.eqb_spec (length (pg_nodes plan)) 0) as [|Hn]; [done|].
  destruct (_ <? _)%Z eqn:Hmax; [done|]. 
  destruct (index_nodes _ _ _) as [[m t]|] eqn:Hi; simpl; [|done].
  destruct (index_nodes_ok _ _ [] _ _ _ indexes_nil Hi) as (Hok & Hnd & Hm & Ht). simpl in Hnd, Hm.
  destruct (_ <? t)%Z eqn:Hatt; [done|]. rewrite no_edges_degrees.
  destruct (index_edges _ _ _) as [d|] eqn:He; simpl; [|done].
  apply index_edges_spec in He as (E & HE & _ & ->); [|apply (index_bound plan m Hm)].
  simpl. do 2 (destruct (Nat.eqb _ 0); [done|]).
  destruct (kahn_correct _ E (edges_bound plan m E Hm HE) (S (length (pg_nodes plan)))) as
    (order & -> & _ & _ & _ & Hac); [lia|].
  destruct (Nat.eqb_spec (length order) (length (pg_nodes plan))) as [Hlen|]; [|done]. intros _.
  rewrite saturating_sum_min in Ht by (unfold u64_max, u64_modulus; lia).
  split; [by destruct (pg_nodes plan)|lia|done|apply Hnd, NoDup_nil_2|lia| |].
  + by apply (indexes_edges_known plan m E).
  + apply (acyclic_iff plan m E Hm HE). by apply Hac.
Qed.

Lemma validate_complete plan : plan_ok plan -> PlanGraph_validate plan = Ok tt.
Proof.
  unfold PlanGraph_validate.
  intros [Hne Hmax Hok Hnd Hatt Hed Hac].
  destruct (Nat.eqb_spec (length (pg_nodes plan)) 0) as [|Hn]; [by destruct (pg_nodes plan)|].
  destruct (_ <? _)%Z eqn:E1; [lia|].
  destruct (index_nodes_total (pg_nodes plan) ∅ [] 0 indexes_nil Hok Hnd) as (m & -> & Hm). simpl in Hm |- *.
  rewrite saturating_sum_min by (unfold u64_max, u64_modulus; lia).
  destruct (pb_max_total_attempts (pg_budget plan) <? _)%Z eqn:E2; [lia|]. rewrite no_edges_degrees.
  destruct (resolve_total plan m Hm Hed) as [E HE].
  apply (acyclic_iff plan m E Hm HE) in Hac.
  pose proof (edges_bound plan m E Hm HE) as Hb.
  assert (index_edges m (pg_edges plan) (degrees_of (length (pg_nodes plan)) []) =
    Ok (degrees_of (length (pg_nodes plan)) E)) as ->.
  { apply index_edges_spec; [apply (index_bound plan m Hm)|]. exists E. split_and!; [done| |done].
    apply Forall_forall. intros [u v] Hin Huv. simpl in Huv. subst v. by apply (Hac u), tc_once. }
  destruct (kahn_correct _ E Hb (S (length (pg_nodes plan)))) as
    (order & Hrun & Hndo & Hbo & Hto & Hiff); [lia|]. apply Hiff in Hac as Hlen.
  destruct (entry_and_terminal _ _ _ Hb Hto Hn Hndo Hbo Hlen) as [Hz1 Hz2].
  simpl. apply Nat.eqb_neq in Hz1 as ->, Hz2 as ->. rewrite Hrun, Hlen. by rewrite Nat.eqb_refl.
Qed.

(** Of the errors, only the one that stands for exhausted fuel starts with a t. *)
Definition source_error (e : string) : Prop := String.get 0 e <> Some "t"%char.

Lemma index_nodes_error nodes m t e : index_nodes nodes m t = Err e -> source_error e.
Proof.
  revert m t. induction nodes as [|node nodes IH]; intros m t H; simpl in H; [done|].
  repeat case_match; simplify_eq/=; try discriminate; by eapply IH.
Qed.

Lemma index_edges_error m edges d e : index_edges m edges d = Err e -> source_error e.
Proof.
  revert d. induction edges as [|x edges IH]; intros d H; simpl in H; [done|].
  repeat case_match; simplify_eq/=; try discriminate.
  destruct (add_edge _ _ d) as [d'|e'] eqn:E; simpl in H; [by eapply IH|]. simplify_eq.
  unfold add_edge in E. repeat case_match; simplify_eq; discriminate.
Qed.

(** Exhausted fuel is never reported. *)
Lemma validate_ends plan e : PlanGraph_validate plan = Err e -> source_error e.
Proof.
  unfold PlanGraph_validate. intros H.
  destruct (Nat.eqb _ 0); [by simplify_eq|]. destruct (_ <? _)%Z; [by simplify_eq|].
  destruct (index_nodes _ ∅ 0) as [[m t]|e'] eqn:Hi; simpl in H; [|simplify_eq; by eapply index_nodes_error].
  destruct (_ <? t)%Z; [by simplify_eq|].
  destruct (index_edges m _ _) as [d|e'] eqn:He; simpl in H; [|simplify_eq; by eapply index_edges_error].
  do 2 (destruct (Nat.eqb _ 0); [by simplify_eq|]).
  destruct (index_nodes_ok _ _ [] _ _ _ indexes_nil Hi) as (_ & _ & Hm & _). simpl in Hm.
  rewrite no_edges_degrees in He. apply index_edges_spec in He as (E & HE & _ & ->); [|apply (index_bound plan m Hm)].
  simpl in H. destruct (kahn_correct _ E (edges_bound plan m E Hm HE) (S (length (pg_nodes plan)))) as
    (order & Hrun & _); [lia|]. rewrite Hrun in H. by destruct (Nat.eqb _ _); simplify_eq.
Qed.

(** C29 (equivalence). [PlanGraph::validate] accepts a plan exactly when it is
    well-formed: at least one node and no more than the budget, every node with a
    non-blank id, a timeout and an attempt, distinct ids, the attempts within the
    budget, edges between known nodes, and no cycle.  Its traversal always ends: the
    answer that stands for exhausted fuel is never given. *)
Theorem plan_validate_iff plan :
  (PlanGraph_validate plan = Ok tt <-> plan_ok plan) /\
  PlanGraph_validate plan <> Err "traversal still running".
Proof.
  split; [split; [apply validate_sound|apply validate_complete]|].
  by intros H%validate_ends.
Qed.

(** ** The order of a valid plan *)

Lemma indexes_foldl nodes :
  NoDup (node_ids nodes) ->
  indexes (foldl (fun m '(index, node) => <[pn_id node := index]> m) ∅ (imap pair nodes)) nodes.
Proof.
  induction nodes as [|node nodes IH] using rev_ind; intros Hnd; [apply indexes_nil|].
  unfold node_ids in Hnd. rewrite fmap_app in Hnd. apply NoDup_app in Hnd as (Hnd & Hd & _).
  specialize (IH Hnd). rewrite imap_app, foldl_app. simpl. rewrite Nat.add_0_r, <- (proj1 IH).
  apply indexes_snoc; [done|]. intros Hin. apply (Hd _ Hin). by left.
Qed.

(** Every id comes after the ids it depends on. *)
Definition ids_topological (plan : PlanGraph) (ordered : list string) : Prop :=
  forall l1 b l2 a, ordered = l1 ++ b :: l2 -> plan_edge plan a b -> a ∈ l1.

Lemma ids_of_order plan m E order ordered :
  indexes m (pg_nodes plan) -> mapM (resolve m) (pg_edges plan) = Some E ->
  topological E order ->
  mapM (fun i => pn_id <$> pg_nodes plan !! i) order = Some ordered ->
  ids_topological plan ordered.
Proof.
  intros Hm HE Ht Ho l1 b l2 a -> Hab. apply mapM_Some in Ho.
  apply Forall2_app_inv_r in Ho as (o1 & o2 & Ho1 & Ho2 & ->).
  inversion Ho2 as [|i b' o3 l3 Hi _]; subst. apply fmap_Some in Hi as (nb & Hi & ->).
  destruct (plan_edge_known plan m E HE _ _ Hab) as [[j Hj] _].
  assert (m !! pn_id nb = Some i) as Hmi by (apply (proj2 Hm); eauto).
  assert (j ∈ o1) as Hj1 by (apply (Ht o1 i o3 j eq_refl), (edge_iff plan m E HE); eauto).
  apply list_elem_of_lookup in Hj1 as [k Hk].
  destruct (Forall2_lookup_l _ _ _ _ _ Ho1 Hk) as (a' & Ha' & Hja).
  apply fmap_Some in Hja as (na & Hna & ->). apply (proj2 Hm) in Hj as (na' & Hna' & <-).
  rewrite Hna in Hna'. simplify_eq. by eapply list_elem_of_lookup_2.
Qed.

Lemma mapM_omap {A B} (f : A -> option B) l r : mapM f l = Some r -> omap f l = r.
Proof. intros H%mapM_Some. induction H as [|x y l r Hx _ IH]; [done|]. cbn. rewrite Hx. f_equal. exact IH. Qed.

Lemma ids_permutation nodes order ordered :
  order ≡ₚ seq 0 (length nodes) -> mapM (fun i => pn_id <$> nodes !! i) order = Some ordered ->
  ordered ≡ₚ node_ids nodes.
Proof.
  intros Hp Ho.
  assert (mapM (fun i => pn_id <$> nodes !! i) (seq 0 (length nodes)) = Some (node_ids nodes)) as Hs.
  { apply mapM_Some. unfold node_ids. apply Forall2_fmap_r.
    apply Forall2_same_length_lookup. split; [by rewrite length_seq|].
    intros i j x Hj Hx. apply lookup_seq in Hj as [-> _]. simpl. by rewrite Hx. }
  apply mapM_omap in Ho as <-, Hs as <-. by rewrite Hp.
Qed.

(** The traversal of [topological_order] on a valid plan. *)
Lemma topological_order_run plan :
  plan_ok plan ->
  exists order m E, topological_order plan = Some order /\ indexes m (pg_nodes plan) /\
    mapM (resolve m) (pg_edges plan) = Some E /\ topological E order /\
    order ≡ₚ seq 0 (length (pg_nodes plan)).
Proof.
  intros [_ _ _ Hnd _ Hed Hac]. unfold topological_order.
  pose proof (indexes_foldl _ Hnd) as Hm.
  set (m := foldl _ ∅ _) in *. destruct (resolve_total plan m Hm Hed) as [E HE].
  pose proof (edges_bound plan m E Hm HE) as Hb. apply (acyclic_iff plan m E Hm HE) in Hac.
  rewrite !replicate_tabulate.
  change ((fun _ => 0) <$> seq 0 (length (pg_nodes plan))) with (indeg [] <$> seq 0 (length (pg_nodes plan))).
  change ((fun _ => []) <$> seq 0 (length (pg_nodes plan))) with (adj [] <$> seq 0 (length (pg_nodes plan))).
  rewrite (order_edges_spec m _ _ [] E (index_bound plan m Hm) HE). simpl.
  destruct (kahn_correct _ E Hb (S (length (pg_nodes plan)))) as
    (order & Hrun & Hndo & Hbo & Hto & Hiff); [lia|]. apply Hiff in Hac as Hlen.
  rewrite Hrun, Hlen, Nat.eqb_refl. exists order, m, E. split_and!; [done..|].
  apply submseteq_length_Permutation; [|rewrite length_seq; lia].
  apply NoDup_submseteq; [done|]. intros w Hw. rewrite Forall_forall in Hbo.
  apply elem_of_seq. specialize (Hbo w Hw). lia.
Qed.

Lemma ordered_ids_total nodes order :
  Forall (fun v => v < length nodes) order ->
  exists ordered, mapM (fun i => pn_id <$> nodes !! i) order = Some ordered.
Proof.
  intros Hb. apply mapM_is_Some. eapply Forall_impl; [exact Hb|]. intros i Hi. simpl.
  apply lookup_lt_is_Some in Hi as [node ->]. eauto.
Qed.

(** The executor's order: all ids, each once, in topological order. *)
Lemma plan_order plan :
  plan_ok plan ->
  exists order ordered, topological_order plan = Some order /\
    mapM (fun i => pn_id <$> pg_nodes plan !! i) order = Some ordered /\
    Forall (fun v => v < length (pg_nodes plan)) order /\ NoDup order /\
    ordered ≡ₚ node_ids (pg_nodes plan) /\ ids_topological plan ordered.
Proof.
  intros Hok. destruct (topological_order_run plan Hok) as (order & m & E & Hrun & Hm & HE & Ht & Hp).
  assert (Forall (fun v => v < length (pg_nodes plan)) order) as Hb.
  { rewrite Hp. apply Forall_seq. lia. }
  destruct (ordered_ids_total _ _ Hb) as [ordered Ho]. exists order, ordered.
  split_and!; try done.
  - rewrite Hp. apply NoDup_seq.
  - by eapply ids_permutation.
  - by eapply ids_of_order.
Qed.

(** A valid plan has an execution order: [topological_order]
    answers one, it lists every node exactly once, and every node comes after all
    the nodes it depends on. *)
Theorem valid_plan_ordered plan :
  PlanGraph_validate plan = Ok tt ->
  exists order ordered, topological_order plan = Some order /\
    mapM (fun i => pn_id <$> pg_nodes plan !! i) order = Some ordered /\
    ordered ≡ₚ pn_id <$> pg_nodes plan /\
    forall l1 b l2 a, ordered = l1 ++ b :: l2 -> plan_edge plan a b -> a ∈ l1.
Proof.
  intros Hok%validate_sound. destruct (plan_order plan Hok) as (order & ordered & ? & ? & _ & _ & ? & ?).
  by exists order, ordered.
Qed.

(** The traversal of [validate] ends on every plan whose nodes
    and edges were indexed, cyclic or not: after at most as many rounds as there
    are nodes its queue is empty, whatever fuel it is given beyond that, it has
    visited no node twice, and no index was out of bounds. *)
Theorem plan_traversal_terminates plan m t d fuel :
  index_nodes (pg_nodes plan) ∅ 0 = Ok (m, t) ->
  index_edges m (pg_edges plan) (no_edges (length (pg_nodes plan))) = Ok d ->
  length (pg_nodes plan) < fuel ->
  exists order,
    traverse fuel (dg_adjacency d) (dg_indegree d) (zeros (dg_indegree d)) [] = Visited order /\
    NoDup order /\ length order <= length (pg_nodes plan) /\
    (length order = length (pg_nodes plan) <-> forall a, ~ tc (plan_edge plan) a a).
Proof.
  intros Hi He Hf. destruct (index_nodes_ok _ _ [] _ _ _ indexes_nil Hi) as (_ & _ & Hm & _).
  simpl in Hm. rewrite no_edges_degrees in He.
  apply index_edges_spec in He as (E & HE & _ & ->); [|apply (index_bound plan m Hm)].
  destruct (kahn_correct _ E (edges_bound plan m E Hm HE) fuel Hf) as (order & Hrun & Hnd & Hb & _ & Hac).
  exists order. split_and!; [exact Hrun|done|by apply NoDup_bounded_length|].
  rewrite Hac. apply (acyclic_iff plan m E Hm HE).
Qed.
