(* ===== verification/PlanRun.v ===== *)
(** * Running a plan

    What [PlanExecutor::execute] reports on a valid plan: nodes run in
    topological order, a node only after every node it depends on has succeeded,
    within the attempt budget; the run succeeds exactly when every node did. *)

From S2P Require Import Prelude RustStr Plan PlanValid.

Definition failed_at (id : string) (e : PlanNodeAttemptEvent) : Prop :=
  ev_node_id e = id /\ ev_success e = false.

(** The events of nodes that were each retried until they succeeded. *)
Inductive node_runs : list string -> list PlanNodeAttemptEvent -> Prop :=
| runs_nil : node_runs [] []
| runs_snoc ids events id fails e :
    node_runs ids events -> Forall (failed_at id) fails ->
    ev_node_id e = id -> ev_success e = true ->
    node_runs (ids ++ [id]) (events ++ fails ++ [e]).

(** How a run can stop at a node: out of wall time, or with the failure its
    last event reports, which is terminal or was the node's last attempt. *)
Inductive stopped_at (budget : PlanBudget) (node : PlanNode) (events : list PlanNodeAttemptEvent)
  : PlanRunStatus -> Prop :=
| stop_wall elapsed_ms :
    (pb_max_wall_time_ms budget < elapsed_ms)%Z ->
    stopped_at budget node events (Failed (WallTimeExceeded elapsed_ms (pb_max_wall_time_ms budget)))
| stop_node e kind message :
    last events = Some e -> failed_at (pn_id node) e ->
    ev_error_kind e = Some kind -> ev_error e = Some message ->
    is_terminal_kind kind = true \/ ev_attempt e = pn_max_attempts node ->
    stopped_at budget node events (Failed (NodeFailed (pn_id node) (ev_attempt e) kind message)).

(** One call of the node executor: the node, the attempt's number and the answer
    ([None] when the call ran out of the node's time), and the event it is
    reported as. *)
Definition NodeCall : Type := PlanNode * nat * option (result unit PlanNodeError).

Definition call_event (call : NodeCall) : PlanNodeAttemptEvent :=
  let '(node, attempt, outcome) := call in
  attempt_event node attempt
    match outcome with
    | Some (Ok _) => None
    | Some (Err error) => Some (normalize_node_error error)
    | None => Some (normalize_node_error (timeout_error node))
    end.

(** [calls] lists the calls of the node executor made so far: a call is added
    with its answer, and reading the clock calls nothing. *)
Record call_log {W : Type} (run_node : PlanNode -> nat -> M W (option (result unit PlanNodeError)))
    (elapsed : M W Z) (calls : W -> list NodeCall) : Prop := {
  cl_run : forall node attempt w outcome w',
    run_node node attempt w = (Returned outcome, w') -> calls w' = calls w ++ [(node, attempt, outcome)];
  cl_clock : forall w t w', elapsed w = (Returned t, w') -> calls w' = calls w;
}.

Section run.
Context {W : Type}.
Variable run_node : PlanNode -> nat -> M W (option (result unit PlanNodeError)).
Variable elapsed : M W Z.

Definition count (events : list PlanNodeAttemptEvent) : Z := Z.of_nat (length events).

Lemma attempts_snoc events e : count (events ++ [e]) = (count events + 1)%Z.
Proof. unfold count. rewrite length_app. simpl. lia. Qed.

Lemma saturating_count events e limit :
  (count events < limit)%Z -> (limit <= u64_max)%Z ->
  u64_saturating_add (count events) 1 = count (events ++ [e]).
Proof. intros. rewrite attempts_snoc. unfold u64_saturating_add. lia. Qed.

(** What the attempts at one node leave: failures, then a success or a stop. *)
Definition attempts_outcome (budget : PlanBudget) (node : PlanNode) (ordered : list string)
    (events : list PlanNodeAttemptEvent) (tries : nat) (step : RunStep) : Prop :=
  exists fails, Forall (failed_at (pn_id node)) fails /\ (count fails <= Z.of_nat tries)%Z /\
    match step with
    | GoOn used events' =>
        exists e, ev_node_id e = pn_id node /\ ev_success e = true /\
          events' = events ++ fails ++ [e] /\ used = count events' /\
          (count events' <= count events + Z.of_nat tries)%Z
    | Stop r =>
        pr_ordered_nodes r = ordered /\ pr_attempt_events r = events ++ fails /\
        pr_attempts_used r = count (events ++ fails) /\
        stopped_at budget node (events ++ fails) (pr_status r)
    end.

Lemma attempts_outcome_cons budget node ordered events e tries step :
  failed_at (pn_id node) e -> attempts_outcome budget node ordered (events ++ [e]) tries step ->
  attempts_outcome budget node ordered events (S tries) step.
Proof.
  intros He (fails & Hf & Hlen & Hstep). exists (e :: fails).
  split; [by constructor|split; [unfold count in *; simpl; lia|]].
  destruct step as [used events'|r].
  - destruct Hstep as (x & ? & ? & -> & ? & Hc). exists x. split_and!; try done.
    + by rewrite <- app_assoc.
    + rewrite attempts_snoc in Hc. lia.
  - destruct Hstep as (? & Hev & Hu & Hs). rewrite <- app_assoc in Hev, Hu, Hs.
    by split_and!.
Qed.

(** The attempts at one node. *)
Lemma run_attempts_spec budget ordered node tries attempt events w step w' :
  run_attempts run_node elapsed budget ordered node tries attempt (count events) events w
    = (Returned step, w') ->
  tries + attempt = S (pn_max_attempts node) -> tries <> 0 ->
  (count events + Z.of_nat tries <= Z.min (pb_max_total_attempts budget) u64_max)%Z ->
  attempts_outcome budget node ordered events tries step.
Proof.
  revert attempt events w step. induction tries as [|tries IH]; intros attempt events w step H Ht Hn Hb; [done|].
  cbn [run_attempts] in H. apply bind_returned in H as (t & w1 & _ & H).
  destruct (_ <? t)%Z eqn:Hwall.
  { unfold ret in H. simplify_eq. exists []. split; [done|split; [unfold count; simpl; lia|]].
    rewrite app_nil_r. split_and!; try done. constructor. lia. }
  destruct (_ <=? count events)%Z eqn:Hbud; [lia|].
  apply bind_returned in H as (outcome & w2 & _ & H).
  set (ev error := attempt_event node attempt error) in *.
  rewrite (saturating_count events (ev None) (pb_max_total_attempts budget `min` u64_max)) in H by lia.
  assert (forall e, count (events ++ [ev None]) = count (events ++ [ev e])) as Hev
    by (intros; by rewrite !attempts_snoc).
  (* a final failure, and a retry *)
  assert (forall error w2 step,
      is_terminal_kind (ne_kind error) = true \/ attempt = pn_max_attempts node ->
      (let! elapsed_ms := elapsed in
      ret (Stop (report_of (Failed (NodeFailed (pn_id node) attempt (ne_kind error) (ne_message error)))
        ordered (count (events ++ [ev None])) (events ++ [ev (Some error)]) elapsed_ms))) w2
      = (Returned step, w') -> attempts_outcome budget node ordered events (S tries) step) as Hfail.
  { clear H. intros error w3 step' Hlast H. rust_inv. exists [ev (Some error)].
    split; [by repeat constructor|split; [unfold count; simpl; lia|]].
    split_and!; try done; try apply Hev.
    by apply (stop_node _ _ _ (ev (Some error))); rewrite ?last_snoc. }
  assert (forall error w2 step, attempt <> pn_max_attempts node ->
      run_attempts run_node elapsed budget ordered node tries (S attempt) (count (events ++ [ev None]))
        (events ++ [ev (Some error)]) w2 = (Returned step, w') ->
      attempts_outcome budget node ordered events (S tries) step) as Hretry.
  { clear H. intros error w3 step' Hne H. rewrite (Hev (Some error)) in H.
    eapply (attempts_outcome_cons _ _ _ _ (ev (Some error))); [done|].
    eapply IH; [exact H|lia|lia|rewrite attempts_snoc; lia]. }
  destruct outcome as [[[]|error]|].
  - unfold ret in H. simplify_eq. exists []. split; [done|split; [unfold count; simpl; lia|]].
    exists (ev None). split_and!; try done. rewrite attempts_snoc. lia.
  - destruct (_ || _) eqn:Hor; [apply orb_true_iff in Hor; rewrite Nat.eqb_eq in Hor; by eapply Hfail|]. apply orb_false_iff in Hor as [_ Hor%Nat.eqb_neq].
    by eapply Hretry.
  - destruct (Nat.eqb_spec attempt (pn_max_attempts node)); [eapply Hfail; [by right|done]|by eapply Hretry].
Qed.

(** The attempts the remaining nodes may still use. *)
Definition attempts_left (nodes : list PlanNode) (indexes : list nat) : Z :=
  attempts_sum (omap (fun i => nodes !! i) indexes).

(** What a run of the nodes in order leaves: the first ones ran to success, and
    the run either went through all or stopped at the next one. *)
Definition run_outcome (plan : PlanGraph) (ordered : list string) (r : PlanRunReport) : Prop :=
  exists pre rest events fails,
    ordered = pre ++ rest /\ node_runs pre events /\ pr_ordered_nodes r = ordered /\
    pr_attempt_events r = events ++ fails /\ pr_attempts_used r = count (events ++ fails) /\
    (pr_attempts_used r <= pb_max_total_attempts (pg_budget plan))%Z /\
    match rest with
    | [] => fails = [] /\ pr_status r = Succeeded
    | id :: _ => Forall (failed_at id) fails /\
        exists node, node ∈ pg_nodes plan /\ pn_id node = id /\
          stopped_at (pg_budget plan) node (events ++ fails) (pr_status r)
    end.

Lemma run_nodes_spec plan pre rest indexes events w r w' :
  run_nodes run_node elapsed plan (pre ++ rest) indexes (count events) events w = (Returned r, w') ->
  mapM (fun i => pn_id <$> pg_nodes plan !! i) indexes = Some rest ->
  Forall node_ok (pg_nodes plan) -> node_runs pre events ->
  (count events + attempts_left (pg_nodes plan) indexes
   <= Z.min (pb_max_total_attempts (pg_budget plan)) u64_max)%Z ->
  run_outcome plan (pre ++ rest) r.
Proof.
  intros H Hids Hok. revert pre rest events w H Hids.
  induction indexes as [|i indexes IH]; intros pre rest events w H Hids Hruns Hb; cbn [run_nodes] in H.
  { injection Hids as <-. rust_inv. exists pre, [], events, []. rewrite !app_nil_r.
    unfold attempts_left in Hb. simpl in *. split_and!; try done. simpl. lia. }
  apply mapM_Some, Forall2_cons_inv_l in Hids
    as (id & rest' & (node & Hnode & ->)%fmap_Some & Hids%mapM_Some & ->).
  rewrite Hnode in H. apply bind_returned in H as (step & w1 & Hstep & H).
  assert (attempts_left (pg_nodes plan) (i :: indexes)
          = (Z.of_nat (pn_max_attempts node) + attempts_left (pg_nodes plan) indexes)%Z) as Hleft
    by (unfold attempts_left; simpl; by rewrite Hnode).
  pose proof (attempts_sum_nonneg (omap (fun i => pg_nodes plan !! i) indexes)) as Hpos.
  fold (attempts_left (pg_nodes plan) indexes) in Hpos.
  assert (pn_max_attempts node <> 0) as Hmax.
  { rewrite Forall_forall in Hok. apply (Hok node). by eapply list_elem_of_lookup_2. }
  apply run_attempts_spec in Hstep as (fails & Hf & Hc & Hout); [|lia|done|lia].
  destruct step as [used events'|r'].
  - destruct Hout as (e & He1 & He2 & -> & -> & Hused).
    rewrite (cons_middle (pn_id node)), app_assoc in H |- *.
    eapply IH; [exact H|done|by constructor|lia].
  - unfold ret in H. simplify_eq. destruct Hout as (? & Hev & Hu & Hs).
    exists pre, (pn_id node :: rest'), events, fails. split_and!; try done.
    + rewrite Hu. unfold count in *. rewrite length_app. lia.
    + exists node. split_and!; [by eapply list_elem_of_lookup_2|done..].
Qed.

Lemma attempts_sum_permutation nodes nodes' :
  nodes ≡ₚ nodes' -> attempts_sum nodes = attempts_sum nodes'.
Proof. induction 1; simpl; lia. Qed.

Lemma omap_lookup_seq {A} (l : list A) : omap (fun i => l !! i) (seq 0 (length l)) = l.
Proof.
  apply mapM_omap, mapM_Some, Forall2_same_length_lookup. split; [by rewrite length_seq|].
  intros i j x Hj Hx. apply lookup_seq in Hj as [-> _]. exact Hx.
Qed.

Lemma order_attempts nodes order :
  NoDup order -> Forall (fun v => v < length nodes) order -> length order = length nodes ->
  attempts_left nodes order = attempts_sum nodes.
Proof.
  intros Hnd Hb Hlen. unfold attempts_left. apply attempts_sum_permutation.
  transitivity (omap (fun i => nodes !! i) (seq 0 (length nodes))); [|by rewrite omap_lookup_seq].
  apply omap_Permutation, submseteq_length_Permutation; [|rewrite length_seq; lia].
  apply NoDup_submseteq; [done|]. intros v Hv. rewrite Forall_forall in Hb. apply elem_of_seq.
  specialize (Hb v Hv). lia.
Qed.

Lemma execute_outcome plan w r w' :
  plan_ok plan -> (attempts_sum (pg_nodes plan) <= u64_max)%Z ->
  PlanExecutor_execute run_node elapsed plan w = (Returned r, w') ->
  exists ordered, ordered ≡ₚ node_ids (pg_nodes plan) /\ ids_topological plan ordered /\
    run_outcome plan ordered r.
Proof.
  intros Hok Hsum H. unfold PlanExecutor_execute in H. rewrite (validate_complete plan Hok) in H.
  destruct (plan_order plan Hok) as (order & ordered & Hord & Hids & Hb & Hnd & Hperm & Htop).
  rewrite Hord, Hids in H. exists ordered. split_and!; [done..|].
  eapply (run_nodes_spec plan [] ordered order []); [exact H|done|apply Hok|constructor|].
  rewrite (order_attempts _ _ Hnd Hb) by (apply length_mapM in Hids; rewrite Hids, Hperm; unfold node_ids; by rewrite length_fmap).
  pose proof (ok_attempts _ Hok). unfold count. simpl. lia.
Qed.

(** ** Reading the events *)

Lemma node_runs_success ids events :
  node_runs ids events ->
  forall id, id ∈ ids <-> exists e, e ∈ events /\ ev_node_id e = id /\ ev_success e = true.
Proof.
  induction 1 as [|ids events id fails e Hr IH Hf He1 He2]; intros x.
  - split; [set_solver|]. intros (? & ?%not_elem_of_nil & _). done.
  - rewrite elem_of_app, list_elem_of_singleton, IH. setoid_rewrite elem_of_app. setoid_rewrite elem_of_app.
    setoid_rewrite list_elem_of_singleton. rewrite Forall_forall in Hf. split.
    + intros [(e' & ? & ? & ?)| ->]; eauto 10.
    + intros (e' & [Hin|[Hin| ->]] & Hid & Hs); [eauto| |naive_solver].
      destruct (Hf e' Hin) as [_ Hno]. congruence.
Qed.

(** Every event of a node, also of the one the run stopped at, comes after a
    success of each earlier node. *)
Lemma after_successes ids events tail id l1 x l2 :
  node_runs ids events -> Forall (fun e => ev_node_id e = id) tail ->
  (forall l1 x l2, events = l1 ++ x :: l2 -> exists pre post, ids = pre ++ ev_node_id x :: post /\
    forall a, a ∈ pre -> exists e, e ∈ l1 /\ ev_node_id e = a /\ ev_success e = true) ->
  events ++ tail = l1 ++ x :: l2 ->
  exists pre post, ids ++ [id] = pre ++ ev_node_id x :: post /\
    forall a, a ∈ pre -> exists e, e ∈ l1 /\ ev_node_id e = a /\ ev_success e = true.
Proof.
  intros Hr Ht IH Heq. rewrite Forall_forall in Ht.
  assert (x ∈ tail -> events `prefix_of` l1 -> exists pre post, ids ++ [id] = pre ++ ev_node_id x :: post /\
    forall a, a ∈ pre -> exists e, e ∈ l1 /\ ev_node_id e = a /\ ev_success e = true) as Htail.
  { intros Hx [k ->]. exists ids, []. rewrite (Ht x Hx). split; [done|].
    intros a (e & Hin & ? & ?)%(node_runs_success _ _ Hr). exists e. split; [set_solver|done]. }
  apply app_eq_inv in Heq as [([|y k] & Hk1 & Hk2)|(k & Hk1 & Hk2)].
  - rewrite app_nil_r in Hk1. simpl in Hk2. apply Htail; [rewrite <- Hk2; by left|by rewrite Hk1].
  - simpl in Hk2. simplify_eq. destruct (IH l1 y k eq_refl) as (pre & post & -> & Hpre).
    exists pre, (post ++ [id]). split; [by rewrite <- app_assoc|done].
  - apply Htail; [rewrite Hk2; set_solver|by rewrite Hk1; apply prefix_app_r].
Qed.

Lemma node_runs_before ids events :
  node_runs ids events -> forall l1 x l2, events = l1 ++ x :: l2 ->
  exists pre post, ids = pre ++ ev_node_id x :: post /\
    forall a, a ∈ pre -> exists e, e ∈ l1 /\ ev_node_id e = a /\ ev_success e = true.
Proof.
  induction 1 as [|ids events id fails e Hr IH Hf He1 He2]; intros l1 x l2 Heq; [by destruct l1|].
  eapply after_successes; [done| |exact IH|exact Heq].
  apply Forall_app. split; [|by repeat constructor]. eapply Forall_impl; [exact Hf|]. by intros ? [? _].
Qed.

(** The status of a run, from its events. *)
Lemma outcome_status plan pre rest events fails status :
  NoDup (pre ++ rest) -> pre ++ rest ≡ₚ node_ids (pg_nodes plan) -> node_runs pre events ->
  match rest with
  | [] => fails = [] /\ status = Succeeded
  | id :: _ => Forall (failed_at id) fails /\
      exists node, node ∈ pg_nodes plan /\ pn_id node = id /\
        stopped_at (pg_budget plan) node (events ++ fails) status
  end ->
  (status = Succeeded /\ forall node, node ∈ pg_nodes plan ->
     exists e, e ∈ events ++ fails /\ ev_node_id e = pn_id node /\ ev_success e = true) \/
  (exists node, node ∈ pg_nodes plan /\ stopped_at (pg_budget plan) node (events ++ fails) status /\
     forall e, e ∈ events ++ fails -> ev_node_id e = pn_id node -> ev_success e = false).
Proof.
  intros Hnd Hperm Hruns Hrest. destruct rest as [|id rest].
  - left. destruct Hrest as [-> ->]. rewrite app_nil_r in *. split; [done|].
    intros node Hin. apply (node_runs_success _ _ Hruns). rewrite Hperm. by apply list_elem_of_fmap_2.
  - right. destruct Hrest as [Hf (node & Hin & Hid & Hst)]. exists node. split_and!; [done..|].
    rewrite Forall_forall in Hf. intros e [He|He]%elem_of_app Hev; [|by apply Hf].
    destruct (ev_success e) eqn:Hs; [|done]. exfalso.
    assert (id ∈ pre) as Hpre by (apply (node_runs_success _ _ Hruns); exists e; by rewrite Hev, Hid).
    apply NoDup_app in Hnd as (_ & Hd & _). apply (Hd _ Hpre). by left.
Qed.

(** ** The calls behind the events *)

Section calls.
Variable calls : W -> list NodeCall.
Hypothesis Hlog : call_log run_node elapsed calls.

(** From [w] to [w'] the executor was called exactly for the events added. *)
Definition calls_reported (w w' : W) (events events' : list PlanNodeAttemptEvent) : Prop :=
  exists added, calls w' = calls w ++ added /\ events' = events ++ (call_event <$> added).

Lemma calls_reported_refl w w' events : calls w' = calls w -> calls_reported w w' events events.
Proof. exists []. by rewrite !app_nil_r. Qed.

Lemma calls_reported_trans w w1 w' events events1 events' :
  calls_reported w w1 events events1 -> calls_reported w1 w' events1 events' ->
  calls_reported w w' events events'.
Proof.
  intros (a & Ha & ->) (b & Hb & ->). exists (a ++ b).
  by rewrite Hb, Ha, fmap_app, <- !app_assoc.
Qed.

Definition step_events (step : RunStep) : list PlanNodeAttemptEvent :=
  match step with GoOn _ events => events | Stop r => pr_attempt_events r end.

Lemma run_attempts_calls budget ordered node tries attempt used events w step w' :
  run_attempts run_node elapsed budget ordered node tries attempt used events w = (Returned step, w') ->
  calls_reported w w' events (step_events step).
Proof.
  revert attempt used events w. induction tries as [|tries IH]; intros attempt used events w H;
    cbn [run_attempts] in H; [unfold ret in H; simplify_eq; by apply calls_reported_refl|].
  apply bind_returned in H as (t & w1 & Ht%(cl_clock _ _ _ Hlog) & H).
  eapply calls_reported_trans; [by apply calls_reported_refl|].
  destruct (_ <? t)%Z; [unfold ret in H; simplify_eq; by apply calls_reported_refl|].
  destruct (_ <=? used)%Z; [unfold ret in H; simplify_eq; by apply calls_reported_refl|].
  apply bind_returned in H as (outcome & w2 & Hrun%(cl_run _ _ _ Hlog) & H).
  apply (calls_reported_trans w1 w2 w' events (events ++ [call_event (node, attempt, outcome)]));
    [by exists [(node, attempt, outcome)]|].
  assert (forall A (k : Z -> A) step, (let! t := elapsed in ret (k t)) w2 = (Returned step, w') ->
    calls w' = calls w2 /\ exists t, step = k t) as Hclock.
  { clear H. intros A k step' H. rust_inv. split; [by eapply (cl_clock _ _ _ Hlog)|eauto]. }
  destruct outcome as [[[]|error]|].
  - unfold ret in H. simplify_eq. by apply calls_reported_refl.
  - destruct (_ || _); [|by eapply IH]. apply Hclock in H as [? [? ->]]. by apply calls_reported_refl.
  - destruct (Nat.eqb _ _); [|by eapply IH]. apply Hclock in H as [? [? ->]]. by apply calls_reported_refl.
Qed.

Lemma run_nodes_calls plan ordered indexes used events w r w' :
  run_nodes run_node elapsed plan ordered indexes used events w = (Returned r, w') ->
  calls_reported w w' events (pr_attempt_events r).
Proof.
  revert used events w. induction indexes as [|i indexes IH]; intros used events w H; cbn [run_nodes] in H.
  { rust_inv. apply calls_reported_refl. by eapply (cl_clock _ _ _ Hlog). }
  destruct (_ !! i) as [node|]; [|rust_inv; apply calls_reported_refl; by eapply (cl_clock _ _ _ Hlog)].
  apply bind_returned in H as (step & w1 & Hstep%run_attempts_calls & H).
  eapply calls_reported_trans; [exact Hstep|].
  destruct step as [used' events'|r']; [by eapply IH|].
  unfold ret in H. simplify_eq. by apply calls_reported_refl.
Qed.

Lemma execute_calls plan w r w' :
  PlanExecutor_execute run_node elapsed plan w = (Returned r, w') ->
  calls_reported w w' [] (pr_attempt_events r).
Proof.
  unfold PlanExecutor_execute. intros H.
  destruct (PlanGraph_validate plan); [|unfold ret in H; simplify_eq; by apply calls_reported_refl].
  destruct (topological_order plan); [|unfold ret in H; simplify_eq; by apply calls_reported_refl].
  destruct (mapM _ _); [by eapply run_nodes_calls|unfold ret in H; simplify_eq; by apply calls_reported_refl].
Qed.

(** C30 (safety). Take any run of a valid plan, whose attempts add up to at most
    [u64::MAX] and whose node executor logs each call with its answer.  The calls made are exactly the attempts reported, in
    order and with their outcomes; a node is attempted only after every node it
    depends on has succeeded, and the number of attempts stays within the budget.
    The run either succeeds, every node having succeeded, or stops at one node
    that never succeeded: out of wall time, or with the failure of the last
    attempt reported, which was terminal or the node's last one.  A broken budget
    or order is never reported. *)
Theorem plan_run_respects_dependencies plan w r w' :
  PlanGraph_validate plan = Ok tt -> (attempts_sum (pg_nodes plan) <= u64_max)%Z ->
  PlanExecutor_execute run_node elapsed plan w = (Returned r, w') ->
  (exists made, calls w' = calls w ++ made /\ pr_attempt_events r = call_event <$> made) /\
  (forall l1 e l2 a, pr_attempt_events r = l1 ++ e :: l2 -> plan_edge plan a (ev_node_id e) ->
     exists e', e' ∈ l1 /\ ev_node_id e' = a /\ ev_success e' = true) /\
  pr_attempts_used r = count (pr_attempt_events r) /\
  (pr_attempts_used r <= pb_max_total_attempts (pg_budget plan))%Z /\
  pr_ordered_nodes r ≡ₚ pn_id <$> pg_nodes plan /\
  ((pr_status r = Succeeded /\ forall node, node ∈ pg_nodes plan ->
      exists e, e ∈ pr_attempt_events r /\ ev_node_id e = pn_id node /\ ev_success e = true) \/
   (exists node, node ∈ pg_nodes plan /\
      stopped_at (pg_budget plan) node (pr_attempt_events r) (pr_status r) /\
      forall e, e ∈ pr_attempt_events r -> ev_node_id e = pn_id node -> ev_success e = false)).
Proof.
  intros Hv Hsum H. apply validate_sound in Hv as Hok. split; [by apply execute_calls in H|].
  destruct (execute_outcome plan w r w' Hok Hsum H) as (ordered & Hperm & Htop & Hout).
  destruct Hout as (pre & rest & events & fails & -> & Hruns & Hord & Hev & Hused & Hbud & Hrest).
  assert (NoDup (pre ++ rest)) as Hnd by (rewrite Hperm; apply Hok).
  pose proof (outcome_status _ _ _ _ _ _ Hnd Hperm Hruns Hrest) as Hstatus.
  rewrite Hev, Hord. split; [|by split_and!].
  intros l1 e l2 a Heq Hae.
  assert (exists p q, pre ++ rest = p ++ ev_node_id e :: q /\
    forall a, a ∈ p -> exists e', e' ∈ l1 /\ ev_node_id e' = a /\ ev_success e' = true) as (p & q & Hpq & Hp).
  { destruct rest as [|id rest].
    - destruct Hrest as [-> _]. rewrite app_nil_r in *. by eapply node_runs_before.
    - destruct Hrest as [Hf _].
      destruct (after_successes pre events fails id l1 e l2 Hruns) as (p & q & Hpq & Hp);
        [eapply Forall_impl; [exact Hf|]; by intros ? [? _]|by apply node_runs_before|done|].
      exists p, (q ++ rest). split; [|done]. by rewrite cons_middle, app_assoc, Hpq, <- app_assoc. }
  apply Hp. by apply (Htop p (ev_node_id e) q a).
Qed.
End calls.

Lemma run_nodes_success plan ordered indexes events w :
  Forall node_ok (pg_nodes plan) -> Forall (fun v => v < length (pg_nodes plan)) indexes ->
  (forall node attempt w, exists w', run_node node attempt w = (Returned (Some (Ok tt)), w')) ->
  (forall w, exists t w', elapsed w = (Returned t, w') /\ (t <= pb_max_wall_time_ms (pg_budget plan))%Z) ->
  (count events + attempts_left (pg_nodes plan) indexes
   <= Z.min (pb_max_total_attempts (pg_budget plan)) u64_max)%Z ->
  exists r w', run_nodes run_node elapsed plan ordered indexes (count events) events w = (Returned r, w') /\
    pr_status r = Succeeded /\ pr_attempts_used r = (count events + Z.of_nat (length indexes))%Z.
Proof.
  intros Hok Hb Hrun Hclock. revert events w. induction Hb as [|i indexes Hi Hb IH]; intros events w Hbud; simpl.
  { destruct (Hclock w) as (t & w1 & Ht & _). unfold bind. rewrite Ht. do 2 eexists.
    split_and!; [reflexivity|done|simpl; lia]. }
  apply lookup_lt_is_Some in Hi as [node Hnode]. rewrite Hnode.
  assert (attempts_left (pg_nodes plan) (i :: indexes)
          = (Z.of_nat (pn_max_attempts node) + attempts_left (pg_nodes plan) indexes)%Z) as Hleft
    by (unfold attempts_left; simpl; by rewrite Hnode).
  pose proof (attempts_sum_nonneg (omap (fun i => pg_nodes plan !! i) indexes)) as Hpos.
  fold (attempts_left (pg_nodes plan) indexes) in Hpos.
  assert (pn_max_attempts node <> 0) as Hmax.
  { rewrite Forall_forall in Hok. apply (Hok node). by eapply list_elem_of_lookup_2. }
  destruct (pn_max_attempts node) as [|k] eqn:Hk; [done|]. cbn [run_attempts].
  destruct (Hclock w) as (t & w1 & Ht & Hle).
  unfold bind. rewrite Ht. replace (_ <? t)%Z with false by lia.
  replace (_ <=? count events)%Z with false by lia.
  destruct (Hrun node 1 w1) as [w2 ->].
  rewrite (saturating_count events (attempt_event node 1 None) (pb_max_total_attempts (pg_budget plan) `min` u64_max)) by lia.
  destruct (IH (events ++ [attempt_event node 1 None]) w2) as (r & w' & Hr & Hs & Hu); [rewrite attempts_snoc; lia|].
  unfold ret. exists r, w'. split_and!; [exact Hr|done|]. rewrite Hu, attempts_snoc. simpl. lia.
Qed.

(** A valid plan whose nodes all succeed at the first attempt, run
    by a clock that stays within the wall-time limit, succeeds with exactly one
    attempt per node. *)
Theorem plan_run_succeeds plan w :
  PlanGraph_validate plan = Ok tt -> (attempts_sum (pg_nodes plan) <= u64_max)%Z ->
  (forall node attempt w, exists w', run_node node attempt w = (Returned (Some (Ok tt)), w')) ->
  (forall w, exists t w', elapsed w = (Returned t, w') /\ (t <= pb_max_wall_time_ms (pg_budget plan))%Z) ->
  exists r w', PlanExecutor_execute run_node elapsed plan w = (Returned r, w') /\
    pr_status r = Succeeded /\ pr_attempts_used r = Z.of_nat (length (pg_nodes plan)).
Proof.
  intros Hv Hsum Hrun Hclock. apply validate_sound in Hv as Hok. unfold PlanExecutor_execute. rewrite Hv.
  destruct (plan_order plan Hok) as (order & ordered & Hord & Hids & Hb & Hnd & Hperm & Htop).
  rewrite Hord, Hids.
  destruct (run_nodes_success plan ordered order [] w) as (r & w' & Hr & Hs & Hu); [apply Hok|done..| |].
  { rewrite order_attempts by (try done; apply length_mapM in Hids; rewrite Hids, Hperm; unfold node_ids;
      by rewrite length_fmap). pose proof (ok_attempts _ Hok). unfold count. simpl. lia. }
  exists r, w'. split_and!; [exact Hr|done|]. rewrite Hu.
  apply length_mapM in Hids. rewrite Hids, Hperm. unfold node_ids. rewrite length_fmap. unfold count. simpl. lia.
Qed.
End run.
