(* ===== verification/Verifier.v ===== *)
(** * Verifying the output of a plan

    [crates/app/src/conversation/plan_verifier.rs]: the checks a safe lane makes
    on the text its tools produced, and exactly when the text passes them. *)

From S2P Require Import Prelude RustStr.

Record PlanVerificationPolicy : Type := {
  vp_require_non_empty : bool;
  vp_min_output_chars : nat;
  vp_require_status_prefix : bool;
  vp_deny_markers : gset string;
}.

Definition default_deny_markers : list string :=
  ["tool_failure"; "provider_error"; "no_kernel_context"; "tool_not_found"].

Definition PlanVerificationPolicy_default : PlanVerificationPolicy := {|
  vp_require_non_empty := true;
  vp_min_output_chars := 8;
  vp_require_status_prefix := true;
  vp_deny_markers := list_to_set default_deny_markers |}.

Record PlanVerificationContext : Type := {
  vc_expected_result_lines : nat;
  vc_semantic_anchors : gset string;
  vc_min_anchor_matches : nat;
}.

Definition PlanVerificationContext_default : PlanVerificationContext := {|
  vc_expected_result_lines := 1; vc_semantic_anchors := ∅; vc_min_anchor_matches := 0 |}.

Inductive PlanVerificationFailureCode : Type :=
| EmptyOutput
| OutputTooShort
| DenyMarkerDetected
| InsufficientResultLines
| MissingStatusPrefix
| FailureStatusDetected
| MissingSemanticAnchors.

#[export] Instance PlanVerificationFailureCode_eq_dec : EqDecision PlanVerificationFailureCode.
Proof. solve_decision. Defined.

Record PlanVerificationReport : Type := {
  vr_passed : bool;
  vr_failure_reasons : list string;
  vr_failure_codes : list PlanVerificationFailureCode;
  vr_observed_statuses : list string;
  vr_matched_anchors : list string;
}.

(** The status between the brackets that start a line. *)
Definition parse_status_prefix (line : string) : option string :=
  remainder ← strip_prefix "[" line;
  status ← before_first "]" remainder;
  if str_is_empty (trim status) then None else Some (trim status).

Definition looks_like_failure_status (status : string) : bool :=
  bool_decide (status ∈ ["error"; "denied"; "fail"; "failed"; "forbidden"; "timeout"]).

(** What the checks have found: [failure_codes] and [failure_reasons] grow
    together. *)
Notation Findings := (list (PlanVerificationFailureCode * string)).

Definition check_length (trimmed : string) (policy : PlanVerificationPolicy) : Findings :=
  if Nat.ltb (chars_count trimmed) (vp_min_output_chars policy)
  then [(OutputTooShort, "output_too_short chars=" +:+ fmt_dec (Z.of_nat (chars_count trimmed))
          +:+ " min=" +:+ fmt_dec (Z.of_nat (vp_min_output_chars policy)))]
  else [].

(** [for marker in &policy.deny_markers]. *)
Definition check_marker (normalized marker : string) : Findings :=
  if str_is_empty marker then [] else
  if str_contains marker normalized
  then [(DenyMarkerDetected, "deny_marker_detected marker=" +:+ marker)] else [].

Definition check_markers (normalized : string) (policy : PlanVerificationPolicy) : Findings :=
  concat (map (check_marker normalized) (btree_set_iter (vp_deny_markers policy))).

Definition result_lines (trimmed : string) : list string :=
  base.filter (fun line => str_is_empty line = false) (map trim (str_lines trimmed)).

Definition check_line_count (lines : list string) (context : PlanVerificationContext) : Findings :=
  let expected := Nat.max (vc_expected_result_lines context) 1 in
  if Nat.ltb (length lines) expected
  then [(InsufficientResultLines, "insufficient_result_lines actual="
          +:+ fmt_dec (Z.of_nat (length lines)) +:+ " expected>=" +:+ fmt_dec (Z.of_nat expected))]
  else [].

(** The loop over the lines, from the [index]th on: the statuses seen and what
    is wrong with them; a missing status ends it when one is required. *)
Fixpoint check_statuses (required : bool) (index : nat) (lines : list string)
  : list string * Findings :=
  match lines with
  | [] => ([], [])
  | line :: lines =>
      match parse_status_prefix line with
      | Some status =>
          let normalized_status := to_ascii_lowercase status in
          let (statuses, findings) := check_statuses required (S index) lines in
          (normalized_status :: statuses,
           (if looks_like_failure_status normalized_status
            then [(FailureStatusDetected, "failure_status_detected line_index="
                    +:+ fmt_dec (Z.of_nat (index + 1)) +:+ " status=" +:+ normalized_status)]
            else []) ++ findings)
      | None =>
          if required
          then ([], [(MissingStatusPrefix, "missing_status_prefix line_index="
                       +:+ fmt_dec (Z.of_nat (index + 1)) +:+ " content=" +:+ line)])
          else check_statuses required (S index) lines
      end
  end.

Definition normalized_anchors (context : PlanVerificationContext) : gset string :=
  list_to_set (base.filter (fun anchor => 3 <= String.length anchor)
    (map (fun anchor => to_ascii_lowercase (trim anchor))
       (btree_set_iter (vc_semantic_anchors context)))).

Definition matched_anchors (normalized : string) (anchors : gset string) : list string :=
  base.filter (fun anchor => str_contains anchor normalized = true) (btree_set_iter anchors).

Definition check_anchors (matched : list string) (anchors : gset string)
    (context : PlanVerificationContext) : Findings :=
  if negb (bool_decide (anchors = ∅)) && Nat.ltb 0 (vc_min_anchor_matches context) then
    let required := Nat.max (Nat.min (vc_min_anchor_matches context) (size anchors)) 1 in
    if Nat.ltb (length matched) required
    then [(MissingSemanticAnchors, "semantic_anchor_miss matched="
            +:+ fmt_dec (Z.of_nat (length matched)) +:+ " required>=" +:+ fmt_dec (Z.of_nat required))]
    else []
  else [].

Definition report_findings (findings : Findings) (statuses matched : list string)
  : PlanVerificationReport := {|
  vr_passed := match findings with [] => true | _ => false end;
  vr_failure_reasons := map snd findings;
  vr_failure_codes := map fst findings;
  vr_observed_statuses := statuses;
  vr_matched_anchors := matched |}.

Definition verify_output (output : string) (context : PlanVerificationContext)
    (policy : PlanVerificationPolicy) : PlanVerificationReport :=
  let trimmed := trim output in
  if str_is_empty trimmed then
    report_findings (if vp_require_non_empty policy then [(EmptyOutput, "empty_output")] else []) [] []
  else
    let normalized := to_ascii_lowercase trimmed in
    let lines := result_lines trimmed in
    let (statuses, status_findings) := check_statuses (vp_require_status_prefix policy) 0 lines in
    let anchors := normalized_anchors context in
    let matched := matched_anchors normalized anchors in
    report_findings
      (check_length trimmed policy ++ check_markers normalized policy ++
       check_line_count lines context ++ status_findings ++ check_anchors matched anchors context)
      statuses matched.

(** ** When an output passes *)

(** The text [p] occurs in [s]. *)
Definition occurs (p s : string) : Prop := exists a b, s = a +:+ p +:+ b.

Definition status_fine (required : bool) (line : string) : Prop :=
  match parse_status_prefix line with
  | Some status => looks_like_failure_status (to_ascii_lowercase status) = false
  | None => required = false
  end.

Record output_fine (trimmed : string) (context : PlanVerificationContext)
    (policy : PlanVerificationPolicy) : Prop := {
  fine_length : vp_min_output_chars policy <= chars_count trimmed;
  fine_markers : forall marker, marker ∈ vp_deny_markers policy -> marker <> "" ->
    ~ occurs marker (to_ascii_lowercase trimmed);
  fine_lines : Nat.max (vc_expected_result_lines context) 1 <= length (result_lines trimmed);
  fine_statuses : forall line, line ∈ result_lines trimmed ->
    status_fine (vp_require_status_prefix policy) line;
  fine_anchors : normalized_anchors context <> ∅ -> 0 < vc_min_anchor_matches context ->
    Nat.max (Nat.min (vc_min_anchor_matches context) (size (normalized_anchors context))) 1
      <= length (matched_anchors (to_ascii_lowercase trimmed) (normalized_anchors context));
}.

Lemma check_markers_nil normalized policy :
  check_markers normalized policy = [] <->
  forall marker, marker ∈ vp_deny_markers policy -> marker <> "" -> ~ occurs marker normalized.
Proof.
  unfold check_markers. setoid_rewrite <- elem_of_btree_set_iter.
  induction (btree_set_iter (vp_deny_markers policy)) as [|m l IH]; cbn [concat map].
  - split; [|done]. by intros _ ? ?%not_elem_of_nil.
  - rewrite app_nil, IH. setoid_rewrite elem_of_cons. unfold occurs. setoid_rewrite <- str_contains_spec.
    unfold check_marker. destruct m as [|c m]; simpl; [naive_solver|].
    destruct (str_contains _ _) eqn:E; simpl; [|naive_solver congruence].
    split; [naive_solver|]. intros H. by destruct (H (String c m)); auto.
Qed.

Lemma check_statuses_nil required index lines :
  (check_statuses required index lines).2 = [] <-> forall line, line ∈ lines -> status_fine required line.
Proof.
  revert index. induction lines as [|line lines IH]; intros index; simpl.
  - split; [|done]. by intros _ ? ?%not_elem_of_nil.
  - setoid_rewrite elem_of_cons. specialize (IH (S index)).
    assert (Hl : (forall l, l = line \/ l ∈ lines -> status_fine required l) <->
      status_fine required line /\ forall l, l ∈ lines -> status_fine required l) by naive_solver.
    rewrite Hl, <- IH. clear Hl. unfold status_fine at 1. destruct (parse_status_prefix line) as [status|].
    + destruct (check_statuses required (S index) lines) as [ss fs]. simpl.
      destruct (looks_like_failure_status _); simpl; naive_solver.
    + destruct required; simpl; naive_solver.
Qed.

Lemma check_anchors_nil matched anchors context :
  check_anchors matched anchors context = [] <->
  (anchors <> ∅ -> 0 < vc_min_anchor_matches context ->
   Nat.max (Nat.min (vc_min_anchor_matches context) (size anchors)) 1 <= length matched).
Proof.
  unfold check_anchors. case_bool_decide; simpl; [naive_solver|].
  destruct (Nat.ltb_spec 0 (vc_min_anchor_matches context)); [|naive_solver lia].
  destruct (Nat.ltb_spec (length matched)
    (Nat.max (Nat.min (vc_min_anchor_matches context) (size anchors)) 1)); naive_solver lia.
Qed.

Lemma passed_nil findings statuses matched :
  vr_passed (report_findings findings statuses matched) = true <-> findings = [].
Proof. by destruct findings. Qed.

(** An output passes exactly when it is long enough, names no denied marker, has
    the expected number of lines, every line a status that is not a failure (or
    none where none is required), and enough of the anchors; a blank output
    passes exactly when the policy does not ask for one. *)
Theorem verify_output_passes_iff output context policy :
  vr_passed (verify_output output context policy) = true <->
  (trim output = "" /\ vp_require_non_empty policy = false) \/
  (trim output <> "" /\ output_fine (trim output) context policy).
Proof.
  unfold verify_output. destruct (trim output) as [|c t] eqn:Et; simpl str_is_empty; cbv iota.
  - rewrite passed_nil. destruct (vp_require_non_empty policy); naive_solver.
  - assert (trim output <> "") as Hne by (by rewrite Et). rewrite <- Et. clear Et c t.
    destruct (check_statuses _ 0 _) as [statuses findings] eqn:Es.
    assert (findings = [] <-> forall line, line ∈ result_lines (trim output) ->
      status_fine (vp_require_status_prefix policy) line) as Hst
      by (rewrite <- (check_statuses_nil _ 0), Es; done).
    rewrite passed_nil, !app_nil, check_markers_nil, check_anchors_nil, Hst.
    unfold check_length, check_line_count.
    destruct (Nat.ltb_spec (chars_count (trim output)) (vp_min_output_chars policy)).
    { split; [by intros [? _]|]. intros [[? _]|[_ []]]; [done|lia]. }
    destruct (Nat.ltb_spec (length (result_lines (trim output)))
      (Nat.max (vc_expected_result_lines context) 1)).
    { split; [by intros (_ & _ & ? & _)|]. intros [[? _]|[_ []]]; [done|lia]. }
    split; [intros (_ & ? & _ & ? & ?); right; by split|].
    intros [[? _]|[_ []]]; [done|by split_and!].
Qed.
