(* ===== verification/SafeLane.v ===== *)
(** * The safe lane of a conversation turn

    [crates/app/src/conversation]: [turn_budget.rs], [safe_lane_failure.rs],
    [turn_coordinator/safe_lane_routing.rs], [safe_lane_execution.rs] and the
    loop of [turn_coordinator.rs] ([execute_turn_with_safe_lane_plan]).  A turn
    that asks for tools becomes a chain of plan nodes; the plan is executed, its
    output verified, and a failed round is routed to another round or to an end.

    The engine that executes one tool call, the clock, the sink of runtime
    events and the session governor's decision are parameters.  A [u8] is a
    [nat] of at most 255. *)

From S2P Require Import Prelude RustStr Contracts Json Plan Verifier.

Definition u8_saturating_add (a b : nat) : nat := Nat.min (a + b) 255.
Definition u32_saturating_add (a b : Z) : Z := Z.min (a + b) (2 ^ 32 - 1).
Definition u32_saturating_mul (a b : Z) : Z := Z.min (a * b) (2 ^ 32 - 1).

(** ** turn_budget.rs *)

Inductive TurnRoundBudgetDecision : Type := ContinueWithFollowup | FinalizeWithCompletionPass.

Record TurnRoundBudget : Type := { rb_round_index : Z; rb_max_rounds : Z }.

Definition TurnRoundBudget_for_round_index (round_index max_rounds : Z) : TurnRoundBudget :=
  {| rb_round_index := round_index; rb_max_rounds := Z.max max_rounds 1 |}.

Definition TurnRoundBudget_followup_decision (b : TurnRoundBudget) : TurnRoundBudgetDecision :=
  if (u64_saturating_add (rb_round_index b) 1 <? rb_max_rounds b)%Z
  then ContinueWithFollowup else FinalizeWithCompletionPass.

Inductive SafeLaneFailureRouteReason : Type :=
| RetryableFailure
| RoundBudgetExhausted
| RoutePolicyDenied
| NonRetryableFailure
| RetryableFlagFalse
| ProviderFailure
| BackpressureAttemptsExhausted
| BackpressureReplansExhausted
| SessionGovernorNoReplan.

#[export] Instance SafeLaneFailureRouteReason_eq_dec : EqDecision SafeLaneFailureRouteReason.
Proof. solve_decision. Defined.

Definition SafeLaneFailureRouteReason_as_str (r : SafeLaneFailureRouteReason) : string :=
  match r with
  | RetryableFailure => "retryable_failure"
  | RoundBudgetExhausted => "round_budget_exhausted"
  | RoutePolicyDenied => "policy_denied"
  | NonRetryableFailure => "non_retryable_failure"
  | RetryableFlagFalse => "retryable_flag_false"
  | ProviderFailure => "provider_failure"
  | BackpressureAttemptsExhausted => "backpressure_attempts_exhausted"
  | BackpressureReplansExhausted => "backpressure_replans_exhausted"
  | SessionGovernorNoReplan => "session_governor_no_replan"
  end.

(** A [match] on text: the value of the first equal key. *)
Definition match_str {A} (table : list (string * A)) (s : string) : option A :=
  snd <$> find_first (fun entry => bool_decide (entry.1 = s)) table.

Definition SafeLaneFailureRouteReason_parse (value : string) : option SafeLaneFailureRouteReason :=
  match_str
    [("retryable_failure", RetryableFailure);
     ("round_budget_exhausted", RoundBudgetExhausted);
     ("policy_denied", RoutePolicyDenied);
     ("non_retryable_failure", NonRetryableFailure);
     ("retryable_flag_false", RetryableFlagFalse);
     ("provider_failure", ProviderFailure);
     ("backpressure_attempts_exhausted", BackpressureAttemptsExhausted);
     ("backpressure_replans_exhausted", BackpressureReplansExhausted);
     ("session_governor_no_replan", SessionGovernorNoReplan)] (trim value).

Definition SafeLaneFailureRouteReason_is_backpressure (r : SafeLaneFailureRouteReason) : bool :=
  match r with
  | BackpressureAttemptsExhausted | BackpressureReplansExhausted => true
  | _ => false
  end.

Inductive SafeLaneContinuationBudgetDecision : Type :=
| BudgetContinue
| BudgetTerminal (reason : SafeLaneFailureRouteReason).

Record SafeLaneReplanBudget : Type := { rp_current_round : nat; rp_max_replans : nat }.

Definition SafeLaneReplanBudget_new (max_replans : nat) : SafeLaneReplanBudget :=
  {| rp_current_round := 0; rp_max_replans := max_replans |}.

Definition SafeLaneReplanBudget_continuation_decision (b : SafeLaneReplanBudget)
  : SafeLaneContinuationBudgetDecision :=
  if Nat.ltb (rp_current_round b) (rp_max_replans b) then BudgetContinue
  else BudgetTerminal RoundBudgetExhausted.

Definition SafeLaneReplanBudget_after_replan (b : SafeLaneReplanBudget) : SafeLaneReplanBudget :=
  {| rp_current_round := u8_saturating_add (rp_current_round b) 1; rp_max_replans := rp_max_replans b |}.

Record EscalatingAttemptBudget : Type := { ea_current_limit : nat; ea_max_limit : nat }.

Definition EscalatingAttemptBudget_new (initial_limit max_limit : nat) : EscalatingAttemptBudget :=
  let current_limit := Nat.max initial_limit 1 in
  let max_limit := Nat.max (Nat.max max_limit current_limit) 1 in
  {| ea_current_limit := Nat.min current_limit max_limit; ea_max_limit := max_limit |}.

Definition EscalatingAttemptBudget_after_retry (b : EscalatingAttemptBudget)
  : EscalatingAttemptBudget :=
  {| ea_current_limit :=
       Nat.max (Nat.min (u8_saturating_add (ea_current_limit b) 1) (ea_max_limit b)) 1;
     ea_max_limit := ea_max_limit b |}.

Record SafeLaneBackpressureBudget : Type := { bb_max_total_attempts : Z; bb_max_replans : Z }.

Definition SafeLaneBackpressureBudget_new (max_total_attempts max_replans : Z)
  : SafeLaneBackpressureBudget :=
  {| bb_max_total_attempts := Z.max max_total_attempts 1; bb_max_replans := Z.max max_replans 1 |}.

Definition SafeLaneBackpressureBudget_continuation_decision (b : SafeLaneBackpressureBudget)
    (total_attempts_used replans_triggered : Z) : SafeLaneContinuationBudgetDecision :=
  if (bb_max_total_attempts b <=? total_attempts_used)%Z
  then BudgetTerminal BackpressureAttemptsExhausted else
  if (bb_max_replans b <=? replans_triggered)%Z
  then BudgetTerminal BackpressureReplansExhausted else
  BudgetContinue.

(** ** Turns: the types of turn_engine.rs *)

Inductive TurnFailureKind : Type := TurnPolicyDenied | TurnRetryable | TurnNonRetryable | TurnProvider.

#[export] Instance TurnFailureKind_eq_dec : EqDecision TurnFailureKind.
Proof. solve_decision. Defined.

Record TurnFailure : Type := {
  tf_kind : TurnFailureKind;
  tf_code : string;
  tf_reason : string;
  tf_retryable : bool;
  tf_supports_discovery_recovery : bool;
}.

Definition TurnFailure_policy_denied (code reason : string) : TurnFailure := {|
  tf_kind := TurnPolicyDenied; tf_code := code; tf_reason := reason;
  tf_retryable := false; tf_supports_discovery_recovery := false |}.

Definition TurnFailure_retryable (code reason : string) : TurnFailure := {|
  tf_kind := TurnRetryable; tf_code := code; tf_reason := reason;
  tf_retryable := true; tf_supports_discovery_recovery := false |}.

Definition TurnFailure_non_retryable (code reason : string) : TurnFailure := {|
  tf_kind := TurnNonRetryable; tf_code := code; tf_reason := reason;
  tf_retryable := false; tf_supports_discovery_recovery := false |}.

Definition TurnFailure_provider (code reason : string) : TurnFailure := {|
  tf_kind := TurnProvider; tf_code := code; tf_reason := reason;
  tf_retryable := false; tf_supports_discovery_recovery := false |}.

Inductive TurnResult (ApprovalRequirement : Type) : Type :=
| FinalText (text : string)
| StreamingText (text : string)
| StreamingDone (text : string)
| NeedsApproval (requirement : ApprovalRequirement)
| ToolDenied (failure : TurnFailure)
| ToolError (failure : TurnFailure)
| ProviderError (failure : TurnFailure).
Arguments FinalText {_} _.
Arguments StreamingText {_} _.
Arguments StreamingDone {_} _.
Arguments NeedsApproval {_} _.
Arguments ToolDenied {_} _.
Arguments ToolError {_} _.
Arguments ProviderError {_} _.

Definition TurnResult_failure {R} (r : TurnResult R) : option TurnFailure :=
  match r with
  | ToolDenied f | ToolError f | ProviderError f => Some f
  | _ => None
  end.

Record ToolIntent : Type := {
  ti_tool_name : string;
  ti_args_json : json;
  ti_source : string;
  ti_session_id : string;
  ti_turn_id : string;
  ti_tool_call_id : string;
}.

(** ** safe_lane_failure.rs *)

Inductive SafeLaneFailureRouteDecision : Type := RouteReplan | RouteTerminal.
Inductive SafeLaneFailureRouteSource : Type := BaseRouting | BackpressureGuard | SessionGovernor.

#[export] Instance SafeLaneFailureRouteDecision_eq_dec : EqDecision SafeLaneFailureRouteDecision.
Proof. solve_decision. Defined.
#[export] Instance SafeLaneFailureRouteSource_eq_dec : EqDecision SafeLaneFailureRouteSource.
Proof. solve_decision. Defined.

Definition SafeLaneFailureRouteDecision_as_str (d : SafeLaneFailureRouteDecision) : string :=
  match d with RouteReplan => "replan" | RouteTerminal => "terminal" end.

Definition SafeLaneFailureRouteDecision_parse (value : string)
  : option SafeLaneFailureRouteDecision :=
  match_str [("replan", RouteReplan); ("terminal", RouteTerminal)] (trim value).

Definition SafeLaneFailureRouteSource_as_str (s : SafeLaneFailureRouteSource) : string :=
  match s with
  | BaseRouting => "base_routing"
  | BackpressureGuard => "backpressure_guard"
  | SessionGovernor => "session_governor"
  end.

Definition SafeLaneFailureRouteSource_parse (value : string) : option SafeLaneFailureRouteSource :=
  match_str [("base_routing", BaseRouting); ("backpressure_guard", BackpressureGuard);
             ("session_governor", SessionGovernor)] (trim value).

Inductive SafeLaneFailureCode : Type :=
| PlanValidationFailed
| PlanTopologyResolutionFailed
| PlanBudgetExceeded
| PlanWallTimeExceeded
| PlanNodePolicyDenied
| PlanNodeRetryableError
| PlanNodeNonRetryableError
| VerifyFailed
| VerifyFailedBackpressureGuard
| VerifyFailedSessionGovernor
| VerifyFailedBudgetExhausted
| PlanBackpressureGuard
| PlanSessionGovernorNoReplan.

Definition SafeLaneFailureCode_as_str (c : SafeLaneFailureCode) : string :=
  match c with
  | PlanValidationFailed => "safe_lane_plan_validation_failed"
  | PlanTopologyResolutionFailed => "safe_lane_plan_topology_resolution_failed"
  | PlanBudgetExceeded => "safe_lane_plan_budget_exceeded"
  | PlanWallTimeExceeded => "safe_lane_plan_wall_time_exceeded"
  | PlanNodePolicyDenied => "safe_lane_plan_node_policy_denied"
  | PlanNodeRetryableError => "safe_lane_plan_node_retryable_error"
  | PlanNodeNonRetryableError => "safe_lane_plan_node_non_retryable_error"
  | VerifyFailed => "safe_lane_plan_verify_failed"
  | VerifyFailedBackpressureGuard => "safe_lane_plan_verify_failed_backpressure_guard"
  | VerifyFailedSessionGovernor => "safe_lane_plan_verify_failed_session_governor"
  | VerifyFailedBudgetExhausted => "safe_lane_plan_verify_failed_budget_exhausted"
  | PlanBackpressureGuard => "safe_lane_plan_backpressure_guard"
  | PlanSessionGovernorNoReplan => "safe_lane_plan_session_governor_no_replan"
  end.

Definition SafeLaneFailureCode_parse (value : string) : option SafeLaneFailureCode :=
  match_str
    [("safe_lane_plan_validation_failed", PlanValidationFailed);
     ("safe_lane_plan_topology_resolution_failed", PlanTopologyResolutionFailed);
     ("safe_lane_plan_budget_exceeded", PlanBudgetExceeded);
     ("safe_lane_plan_wall_time_exceeded", PlanWallTimeExceeded);
     ("safe_lane_plan_node_policy_denied", PlanNodePolicyDenied);
     ("safe_lane_plan_node_retryable_error", PlanNodeRetryableError);
     ("safe_lane_plan_node_non_retryable_error", PlanNodeNonRetryableError);
     ("safe_lane_plan_verify_failed", VerifyFailed);
     ("safe_lane_plan_verify_failed_backpressure_guard", VerifyFailedBackpressureGuard);
     ("safe_lane_plan_verify_failed_session_governor", VerifyFailedSessionGovernor);
     ("safe_lane_plan_verify_failed_budget_exhausted", VerifyFailedBudgetExhausted);
     ("safe_lane_plan_backpressure_guard", PlanBackpressureGuard);
     ("safe_lane_plan_session_governor_no_replan", PlanSessionGovernorNoReplan)] (trim value).

Definition SafeLaneFailureCode_is_backpressure (c : SafeLaneFailureCode) : bool :=
  match c with VerifyFailedBackpressureGuard | PlanBackpressureGuard => true | _ => false end.

Definition SafeLaneFailureCode_is_terminal_instability (c : SafeLaneFailureCode) : bool :=
  match c with
  | VerifyFailed | VerifyFailedBackpressureGuard | VerifyFailedSessionGovernor
  | VerifyFailedBudgetExhausted | PlanBackpressureGuard | PlanSessionGovernorNoReplan => true
  | _ => false
  end.

Definition into_turn_failure (c : SafeLaneFailureCode) (kind : TurnFailureKind) (reason : string)
  : TurnFailure :=
  match kind with
  | TurnPolicyDenied => TurnFailure_policy_denied (SafeLaneFailureCode_as_str c) reason
  | TurnRetryable => TurnFailure_retryable (SafeLaneFailureCode_as_str c) reason
  | TurnNonRetryable => TurnFailure_non_retryable (SafeLaneFailureCode_as_str c) reason
  | TurnProvider => TurnFailure_provider (SafeLaneFailureCode_as_str c) reason
  end.

Definition classify_safe_lane_plan_failure (failure : PlanRunFailure)
  : SafeLaneFailureCode * TurnFailureKind :=
  match failure with
  | ValidationFailed _ => (PlanValidationFailed, TurnNonRetryable)
  | TopologyResolutionFailed => (PlanTopologyResolutionFailed, TurnNonRetryable)
  | BudgetExceeded _ _ => (PlanBudgetExceeded, TurnNonRetryable)
  | WallTimeExceeded _ _ => (PlanWallTimeExceeded, TurnNonRetryable)
  | NodeFailed _ _ last_error_kind _ =>
      match last_error_kind with
      | ApprovalRequired => (PlanNodePolicyDenied, TurnPolicyDenied)
      | PlanPolicyDenied => (PlanNodePolicyDenied, TurnPolicyDenied)
      | Retryable => (PlanNodeRetryableError, TurnRetryable)
      | NonRetryable => (PlanNodeNonRetryableError, TurnNonRetryable)
      end
  end.

(** ** Configuration *)

(** The fields of [ConversationConfig] the safe lane reads. *)
Record SafeLaneConfig : Type := {
  sl_node_max_attempts : nat;
  sl_replan_max_rounds : nat;
  sl_replan_max_node_attempts : nat;
  sl_plan_max_wall_time_ms : Z;
  sl_risk_threshold : Z;
  sl_complexity_threshold : Z;
  sl_verify_output_non_empty : bool;
  sl_verify_min_output_chars : nat;
  sl_verify_require_status_prefix : bool;
  sl_verify_deny_markers : list string;
  sl_verify_adaptive_anchor_escalation : bool;
  sl_verify_anchor_escalation_after_failures : Z;
  sl_verify_anchor_escalation_min_matches : nat;
  sl_backpressure_guard_enabled : bool;
  sl_backpressure_max_total_attempts : Z;
  sl_backpressure_max_replans : Z;
}.

(** What the loop reads of [SafeLaneSessionGovernorDecision]. *)
Record SafeLaneSessionGovernorDecision : Type := {
  sg_force_no_replan : bool;
  sg_forced_node_max_attempts : option nat;
}.

Definition safe_lane_backpressure_budget (config : SafeLaneConfig)
  : option SafeLaneBackpressureBudget :=
  if sl_backpressure_guard_enabled config
  then Some (SafeLaneBackpressureBudget_new
    (Z.max (sl_backpressure_max_total_attempts config) 1)
    (Z.max (sl_backpressure_max_replans config) 1))
  else None.

Definition compute_safe_lane_verify_min_anchor_matches (config : SafeLaneConfig)
    (verify_failures : Z) : nat :=
  if negb (sl_verify_adaptive_anchor_escalation config) then 0 else
  if (verify_failures <? Z.max (sl_verify_anchor_escalation_after_failures config) 1)%Z then 0 else
  Nat.max (sl_verify_anchor_escalation_min_matches config) 1.

(** ** Loop state *)

Record SafeLaneToolOutputStats : Type := {
  os_output_lines : Z;
  os_result_lines : Z;
  os_truncated_result_lines : Z;
}.

Record SafeLaneExecutionMetrics : Type := {
  em_rounds_started : Z;
  em_rounds_succeeded : Z;
  em_rounds_failed : Z;
  em_verify_failures : Z;
  em_replans_triggered : Z;
  em_total_attempts_used : Z;
  em_result_lines_total : Z;
  em_truncated_result_lines_total : Z;
}.

Definition SafeLaneExecutionMetrics_default : SafeLaneExecutionMetrics :=
  Build_SafeLaneExecutionMetrics 0 0 0 0 0 0 0 0.

Record SafeLanePlanLoopState : Type := {
  ls_governor : SafeLaneSessionGovernorDecision;
  ls_replan_budget : SafeLaneReplanBudget;
  ls_tool_node_attempt_budget : EscalatingAttemptBudget;
  ls_plan_start_tool_index : nat;
  ls_seed_tool_outputs : list string;
  ls_metrics : SafeLaneExecutionMetrics;
  ls_min_anchor_matches : nat;
}.

Definition SafeLanePlanLoopState_new (config : SafeLaneConfig)
    (governor : SafeLaneSessionGovernorDecision) : SafeLanePlanLoopState :=
  let cap (n : nat) : nat :=
    match sg_forced_node_max_attempts governor with
    | Some forced => Nat.min n (Nat.max forced 1)
    | None => n
    end in
  let tool_node_max_attempts := cap (Nat.max (sl_node_max_attempts config) 1) in
  let max_node_attempts := cap (Nat.max (sl_replan_max_node_attempts config) tool_node_max_attempts) in
  {| ls_governor := governor;
     ls_replan_budget := SafeLaneReplanBudget_new
       (if sg_force_no_replan governor then 0 else sl_replan_max_rounds config);
     ls_tool_node_attempt_budget :=
       EscalatingAttemptBudget_new tool_node_max_attempts max_node_attempts;
     ls_plan_start_tool_index := 0;
     ls_seed_tool_outputs := [];
     ls_metrics := SafeLaneExecutionMetrics_default;
     ls_min_anchor_matches := 0 |}.

Definition ls_set_metrics (f : SafeLaneExecutionMetrics -> SafeLaneExecutionMetrics)
    (s : SafeLanePlanLoopState) : SafeLanePlanLoopState := {|
  ls_governor := ls_governor s; ls_replan_budget := ls_replan_budget s;
  ls_tool_node_attempt_budget := ls_tool_node_attempt_budget s;
  ls_plan_start_tool_index := ls_plan_start_tool_index s;
  ls_seed_tool_outputs := ls_seed_tool_outputs s; ls_metrics := f (ls_metrics s);
  ls_min_anchor_matches := ls_min_anchor_matches s |}.

(** [refresh_verify_policy]: the new number of anchors, if it rose above zero. *)
Definition refresh_verify_policy (config : SafeLaneConfig) (s : SafeLanePlanLoopState)
  : option nat * SafeLanePlanLoopState :=
  let next := compute_safe_lane_verify_min_anchor_matches config (em_verify_failures (ls_metrics s)) in
  if Nat.eqb next (ls_min_anchor_matches s) then (None, s) else
  (if Nat.ltb 0 next then Some next else None,
   {| ls_governor := ls_governor s; ls_replan_budget := ls_replan_budget s;
      ls_tool_node_attempt_budget := ls_tool_node_attempt_budget s;
      ls_plan_start_tool_index := ls_plan_start_tool_index s;
      ls_seed_tool_outputs := ls_seed_tool_outputs s; ls_metrics := ls_metrics s;
      ls_min_anchor_matches := next |}).

Definition note_round_started : SafeLanePlanLoopState -> SafeLanePlanLoopState :=
  ls_set_metrics (fun m => Build_SafeLaneExecutionMetrics
    (u32_saturating_add (em_rounds_started m) 1) (em_rounds_succeeded m) (em_rounds_failed m)
    (em_verify_failures m) (em_replans_triggered m) (em_total_attempts_used m)
    (em_result_lines_total m) (em_truncated_result_lines_total m)).

Definition record_round_execution (report : PlanRunReport) (stats : SafeLaneToolOutputStats)
  : SafeLanePlanLoopState -> SafeLanePlanLoopState :=
  ls_set_metrics (fun m => Build_SafeLaneExecutionMetrics
    (em_rounds_started m) (em_rounds_succeeded m) (em_rounds_failed m)
    (em_verify_failures m) (em_replans_triggered m)
    (u64_saturating_add (em_total_attempts_used m) (pr_attempts_used report))
    (u64_saturating_add (em_result_lines_total m) (os_result_lines stats))
    (u64_saturating_add (em_truncated_result_lines_total m) (os_truncated_result_lines stats))).

Definition note_round_succeeded : SafeLanePlanLoopState -> SafeLanePlanLoopState :=
  ls_set_metrics (fun m => Build_SafeLaneExecutionMetrics
    (em_rounds_started m) (u32_saturating_add (em_rounds_succeeded m) 1) (em_rounds_failed m)
    (em_verify_failures m) (em_replans_triggered m) (em_total_attempts_used m)
    (em_result_lines_total m) (em_truncated_result_lines_total m)).

Definition note_round_failed : SafeLanePlanLoopState -> SafeLanePlanLoopState :=
  ls_set_metrics (fun m => Build_SafeLaneExecutionMetrics
    (em_rounds_started m) (em_rounds_succeeded m) (u32_saturating_add (em_rounds_failed m) 1)
    (em_verify_failures m) (em_replans_triggered m) (em_total_attempts_used m)
    (em_result_lines_total m) (em_truncated_result_lines_total m)).

Definition note_verify_failure : SafeLanePlanLoopState -> SafeLanePlanLoopState :=
  ls_set_metrics (fun m => Build_SafeLaneExecutionMetrics
    (em_rounds_started m) (em_rounds_succeeded m) (em_rounds_failed m)
    (u32_saturating_add (em_verify_failures m) 1) (em_replans_triggered m)
    (em_total_attempts_used m) (em_result_lines_total m) (em_truncated_result_lines_total m)).

Definition note_replan (next_plan_start_tool_index : nat) (next_seed_tool_outputs : list string)
    (s : SafeLanePlanLoopState) : SafeLanePlanLoopState := {|
  ls_governor := ls_governor s; ls_replan_budget := ls_replan_budget s;
  ls_tool_node_attempt_budget := ls_tool_node_attempt_budget s;
  ls_plan_start_tool_index := next_plan_start_tool_index;
  ls_seed_tool_outputs := next_seed_tool_outputs;
  ls_metrics :=
    let m := ls_metrics s in
    Build_SafeLaneExecutionMetrics
      (em_rounds_started m) (em_rounds_succeeded m) (em_rounds_failed m)
      (em_verify_failures m) (u32_saturating_add (em_replans_triggered m) 1)
      (em_total_attempts_used m) (em_result_lines_total m) (em_truncated_result_lines_total m);
  ls_min_anchor_matches := ls_min_anchor_matches s |}.

Definition advance_round (s : SafeLanePlanLoopState) : SafeLanePlanLoopState := {|
  ls_governor := ls_governor s;
  ls_replan_budget := SafeLaneReplanBudget_after_replan (ls_replan_budget s);
  ls_tool_node_attempt_budget := EscalatingAttemptBudget_after_retry (ls_tool_node_attempt_budget s);
  ls_plan_start_tool_index := ls_plan_start_tool_index s;
  ls_seed_tool_outputs := ls_seed_tool_outputs s; ls_metrics := ls_metrics s;
  ls_min_anchor_matches := ls_min_anchor_matches s |}.

Definition ls_round (s : SafeLanePlanLoopState) : nat := rp_current_round (ls_replan_budget s).
Definition ls_max_rounds (s : SafeLanePlanLoopState) : nat := rp_max_replans (ls_replan_budget s).
Definition ls_tool_node_max_attempts (s : SafeLanePlanLoopState) : nat :=
  ea_current_limit (ls_tool_node_attempt_budget s).
Definition ls_max_node_attempts (s : SafeLanePlanLoopState) : nat :=
  ea_max_limit (ls_tool_node_attempt_budget s).

(** ** safe_lane_routing.rs: routes *)

Record SafeLaneFailureRoute : Type := {
  fr_decision : SafeLaneFailureRouteDecision;
  fr_reason : SafeLaneFailureRouteReason;
  fr_source : SafeLaneFailureRouteSource;
}.

Definition route_replan (reason : SafeLaneFailureRouteReason) : SafeLaneFailureRoute :=
  {| fr_decision := RouteReplan; fr_reason := reason; fr_source := BaseRouting |}.

Definition route_terminal (reason : SafeLaneFailureRouteReason) : SafeLaneFailureRoute :=
  {| fr_decision := RouteTerminal; fr_reason := reason; fr_source := BaseRouting |}.

Definition terminal_with_source (reason : SafeLaneFailureRouteReason)
    (source : SafeLaneFailureRouteSource) : SafeLaneFailureRoute :=
  {| fr_decision := RouteTerminal; fr_reason := reason; fr_source := source |}.

Definition should_replan (route : SafeLaneFailureRoute) : bool :=
  bool_decide (fr_decision route = RouteReplan).

Definition is_base_round_budget_terminal (route : SafeLaneFailureRoute) : bool :=
  bool_decide (fr_decision route = RouteTerminal) && bool_decide (fr_source route = BaseRouting)
  && bool_decide (fr_reason route = RoundBudgetExhausted).

(** Routing by the codes of other parts of the program, in the first [match]. *)
Definition route_by_text (failure : TurnFailure) : option SafeLaneFailureRoute :=
  if bool_decide (tf_code failure ∈
      ["kernel_policy_denied"; "tool_not_found"; "max_tool_steps_exceeded"; "no_kernel_context"])
  then Some (route_terminal RoutePolicyDenied) else
  if bool_decide (tf_code failure = "tool_execution_failed")
  then Some (if tf_retryable failure then route_replan RetryableFailure
             else route_terminal RetryableFlagFalse) else
  if bool_decide (tf_code failure = "kernel_execution_failed")
  then Some (route_terminal NonRetryableFailure) else None.

Definition route_by_code (failure : TurnFailure) (code : SafeLaneFailureCode)
  : SafeLaneFailureRoute :=
  match code with
  | PlanNodePolicyDenied => route_terminal RoutePolicyDenied
  | VerifyFailed =>
      if tf_retryable failure then route_replan RetryableFailure
      else route_terminal NonRetryableFailure
  | PlanNodeRetryableError =>
      if tf_retryable failure then route_replan RetryableFailure
      else route_terminal RetryableFlagFalse
  | VerifyFailedBudgetExhausted => route_terminal RoundBudgetExhausted
  | _ => route_terminal NonRetryableFailure
  end.

Definition route_by_kind (failure : TurnFailure) : SafeLaneFailureRoute :=
  match tf_kind failure with
  | TurnRetryable =>
      if tf_retryable failure then route_replan RetryableFailure
      else route_terminal RetryableFlagFalse
  | TurnPolicyDenied => route_terminal RoutePolicyDenied
  | TurnNonRetryable => route_terminal NonRetryableFailure
  | TurnProvider => route_terminal ProviderFailure
  end.

Definition SafeLaneFailureRoute_from_failure (failure : TurnFailure)
    (replan_budget : SafeLaneReplanBudget) : SafeLaneFailureRoute :=
  match SafeLaneReplanBudget_continuation_decision replan_budget with
  | BudgetTerminal reason => route_terminal reason
  | BudgetContinue =>
      match route_by_text failure with
      | Some route => route
      | None =>
          match SafeLaneFailureCode_parse (tf_code failure) with
          | Some code => route_by_code failure code
          | None => route_by_kind failure
          end
      end
  end.

Definition with_backpressure_guard (route : SafeLaneFailureRoute)
    (budget : option SafeLaneBackpressureBudget) (metrics : SafeLaneExecutionMetrics)
  : SafeLaneFailureRoute :=
  if negb (should_replan route) then route else
  match budget with
  | None => route
  | Some budget =>
      match SafeLaneBackpressureBudget_continuation_decision budget
              (em_total_attempts_used metrics) (em_replans_triggered metrics) with
      | BudgetContinue => route
      | BudgetTerminal reason => terminal_with_source reason BackpressureGuard
      end
  end.

Definition with_session_governor_override (route : SafeLaneFailureRoute)
    (governor : SafeLaneSessionGovernorDecision) : SafeLaneFailureRoute :=
  if sg_force_no_replan governor && is_base_round_budget_terminal route
  then terminal_with_source SessionGovernorNoReplan SessionGovernor else route.

Definition decide_safe_lane_failure_route (config : SafeLaneConfig) (failure : TurnFailure)
    (replan_budget : SafeLaneReplanBudget) (metrics : SafeLaneExecutionMetrics)
    (governor : SafeLaneSessionGovernorDecision) : SafeLaneFailureRoute :=
  with_session_governor_override
    (with_backpressure_guard (SafeLaneFailureRoute_from_failure failure replan_budget)
       (safe_lane_backpressure_budget config) metrics) governor.

Definition verify_terminal_summary_label (route : SafeLaneFailureRoute) : string :=
  match fr_source route, fr_reason route with
  | BackpressureGuard, _ => "verify_failed_backpressure_guard"
  | SessionGovernor, _ => "verify_failed_session_governor"
  | BaseRouting, RoundBudgetExhausted => "verify_failed_budget_exhausted"
  | BaseRouting, _ => "verify_failed_non_retryable"
  end.

Definition terminal_verify_failure_code (route : SafeLaneFailureRoute) (retryable_signal : bool)
  : SafeLaneFailureCode :=
  match fr_source route, fr_reason route, retryable_signal with
  | BackpressureGuard, _, _ => VerifyFailedBackpressureGuard
  | SessionGovernor, _, _ => VerifyFailedSessionGovernor
  | BaseRouting, RoundBudgetExhausted, true => VerifyFailedBudgetExhausted
  | BaseRouting, _, _ => VerifyFailed
  end.

Definition terminal_plan_failure_code (route : SafeLaneFailureRoute) : option SafeLaneFailureCode :=
  match fr_source route with
  | BackpressureGuard => Some PlanBackpressureGuard
  | SessionGovernor => Some PlanSessionGovernorNoReplan
  | BaseRouting => None
  end.

(** ** safe_lane_routing.rs: failures *)

Definition should_replan_for_verification_failure (report : PlanVerificationReport) : bool :=
  negb (existsb (fun code =>
    match code with
    | DenyMarkerDetected | MissingStatusPrefix | MissingSemanticAnchors => true
    | _ => false
    end) (vr_failure_codes report)).

Definition format_verification_failure_code (code : PlanVerificationFailureCode) : string :=
  match code with
  | EmptyOutput => "empty_output"
  | OutputTooShort => "output_too_short"
  | DenyMarkerDetected => "deny_marker_detected"
  | InsufficientResultLines => "insufficient_result_lines"
  | MissingStatusPrefix => "missing_status_prefix"
  | FailureStatusDetected => "failure_status_detected"
  | MissingSemanticAnchors => "missing_semantic_anchors"
  end.

Definition format_turn_failure_kind (kind : TurnFailureKind) : string :=
  match kind with
  | TurnPolicyDenied => "policy_denied"
  | TurnRetryable => "retryable"
  | TurnNonRetryable => "non_retryable"
  | TurnProvider => "provider"
  end.

(** [{:?}] of [PlanNodeErrorKind]. *)
Definition PlanNodeErrorKind_debug (kind : PlanNodeErrorKind) : string :=
  match kind with
  | ApprovalRequired => "ApprovalRequired"
  | Retryable => "Retryable"
  | PlanPolicyDenied => "PolicyDenied"
  | NonRetryable => "NonRetryable"
  end.

Definition summarize_plan_failure (failure : PlanRunFailure) : string :=
  match failure with
  | ValidationFailed error => "validation_failed:" +:+ error
  | TopologyResolutionFailed => "topology_resolution_failed"
  | BudgetExceeded attempts_used limit =>
      "budget_exceeded attempts_used=" +:+ fmt_dec attempts_used +:+ " limit=" +:+ fmt_dec limit
  | WallTimeExceeded elapsed_ms limit_ms =>
      "wall_time_exceeded elapsed_ms=" +:+ fmt_dec elapsed_ms +:+ " limit_ms=" +:+ fmt_dec limit_ms
  | NodeFailed node_id _ last_error_kind last_error =>
      "node_failed node=" +:+ node_id +:+ " error_kind=" +:+ PlanNodeErrorKind_debug last_error_kind
      +:+ " reason=" +:+ last_error
  end.

Definition turn_failure_from_plan_failure (failure : PlanRunFailure) : TurnFailure :=
  let (code, kind) := classify_safe_lane_plan_failure failure in
  let text := SafeLaneFailureCode_as_str code in
  match failure with
  | ValidationFailed error => into_turn_failure code kind (text +:+ ": " +:+ error)
  | TopologyResolutionFailed => into_turn_failure code kind text
  | BudgetExceeded attempts_used limit =>
      into_turn_failure code kind
        (text +:+ " attempts_used=" +:+ fmt_dec attempts_used +:+ " limit=" +:+ fmt_dec limit)
  | WallTimeExceeded elapsed_ms limit_ms =>
      into_turn_failure code kind
        (text +:+ " elapsed_ms=" +:+ fmt_dec elapsed_ms +:+ " limit_ms=" +:+ fmt_dec limit_ms)
  | NodeFailed _ _ _ last_error => into_turn_failure code kind last_error
  end.

Definition verify_failure_text (verify_error : string) : string :=
  SafeLaneFailureCode_as_str VerifyFailed +:+ ": " +:+ verify_error.

Definition turn_failure_from_verify_failure (verify_error : string) (retryable : bool)
  : TurnFailure :=
  into_turn_failure VerifyFailed (if retryable then TurnRetryable else TurnNonRetryable)
    (verify_failure_text verify_error).

Definition terminal_turn_failure_from_verify_failure (verify_error : string)
    (retryable_signal : bool) (route : SafeLaneFailureRoute) : TurnFailure :=
  into_turn_failure (terminal_verify_failure_code route retryable_signal) TurnNonRetryable
    (verify_failure_text verify_error).

(** *** Anchors *)

Definition is_anchor_key_allowed (key : string) : bool :=
  bool_decide (to_ascii_lowercase (trim key) ∈
    ["path"; "file"; "filename"; "url"; "endpoint"; "target"; "query"; "operation"; "command";
     "cwd"; "dir"; "directory"]).

Definition is_sensitive_key (key : string) : bool :=
  let normalized := to_ascii_lowercase (trim key) in
  existsb (fun marker => str_contains marker normalized)
    ["token"; "secret"; "password"; "credential"; "api_key"; "apikey"; "auth"; "authorization";
     "cookie"; "session"; "bearer"].

Definition push_anchor_candidate (text : string) (anchors : gset string) : gset string :=
  let normalized := to_ascii_lowercase (trim text) in
  if Nat.ltb (String.length normalized) 3 || Nat.ltb 96 (String.length normalized) then anchors else
  if str_contains " " normalized then anchors else
  let anchors := {[normalized]} ∪ anchors in
  match last (split_char "/" normalized) with
  | Some last_segment =>
      if Nat.leb 3 (String.length last_segment) then {[last_segment]} ∪ anchors else anchors
  | None => anchors
  end.

Fixpoint collect_value_anchors (parent_key : option string) (value : json) (anchors : gset string)
  : gset string :=
  match value with
  | JString text =>
      match parent_key with
      | Some key => if is_anchor_key_allowed key then push_anchor_candidate text anchors else anchors
      | None => anchors
      end
  | JArray items =>
      (fix go (items : list json) (anchors : gset string) :=
        match items with
        | [] => anchors
        | item :: items => go items (collect_value_anchors parent_key item anchors)
        end) items anchors
  | JObject fields =>
      (fix go (fields : list (string * json)) (anchors : gset string) :=
        match fields with
        | [] => anchors
        | (key, item) :: fields =>
            go fields (if is_sensitive_key key then anchors
                       else collect_value_anchors (Some key) item anchors)
        end) fields anchors
  | _ => anchors
  end.

Definition collect_semantic_anchors (tool_intents : list ToolIntent) : gset string :=
  foldl (fun anchors intent => collect_value_anchors None (ti_args_json intent) anchors) ∅ tool_intents.

Definition verify_safe_lane_final_output (config : SafeLaneConfig) (output : string)
    (tool_intents : list ToolIntent) (min_anchor_matches : nat) : PlanVerificationReport :=
  verify_output output
    {| vc_expected_result_lines := Nat.max (length tool_intents) 1;
       vc_semantic_anchors := collect_semantic_anchors tool_intents;
       vc_min_anchor_matches := min_anchor_matches |}
    {| vp_require_non_empty := sl_verify_output_non_empty config;
       vp_min_output_chars := sl_verify_min_output_chars config;
       vp_require_status_prefix := sl_verify_require_status_prefix config;
       vp_deny_markers := list_to_set (base.filter (fun marker => str_is_empty marker = false)
         (map (fun marker => to_ascii_lowercase (trim marker)) (sl_verify_deny_markers config))) |}.

(** ** Tool nodes *)

Definition PlanNodeError_policy_denied (message : string) : PlanNodeError :=
  {| ne_kind := PlanPolicyDenied; ne_message := message |}.

Definition parse_tool_node_index (node_id : string) : result nat PlanNodeError :=
  match strip_prefix "tool-" node_id with
  | None => Err (PlanNodeError_from_string ("invalid tool node id `" +:+ node_id +:+ "`"))
  | Some suffix =>
      match parse_u64 suffix with
      | Err error =>
          Err (PlanNodeError_from_string ("invalid tool node id `" +:+ node_id +:+ "`: " +:+ error))
      | Ok parsed =>
          if (parsed =? 0)%Z
          then Err (PlanNodeError_from_string ("invalid tool node ordinal in `" +:+ node_id +:+ "`"))
          else Ok (Z.to_nat (parsed - 1))
      end
  end.

Definition derive_replan_cursor (failure : PlanRunFailure) (round_tool_outputs : list string)
    (tool_count : nat) : nat * list string :=
  match failure with
  | NodeFailed node_id _ _ _ =>
      match parse_tool_node_index node_id with
      | Ok index => if Nat.ltb index tool_count then (index, round_tool_outputs) else (0, [])
      | Err _ => (0, [])
      end
  | _ => (0, [])
  end.

Record LaneScores : Type := { lsc_risk_score : Z; lsc_complexity_score : Z; lsc_reasons : list string }.

Definition select_safe_lane_risk_tier (config : SafeLaneConfig) (lane : LaneScores) : RiskTier :=
  if (u32_saturating_mul (sl_risk_threshold config) 2 <=? lsc_risk_score lane)%Z
     || (u32_saturating_mul (sl_complexity_threshold config) 2 <=? lsc_complexity_score lane)%Z
  then RiskHigh
  else if (0 <? lsc_risk_score lane)%Z || (0 <? lsc_complexity_score lane)%Z
  then RiskMedium else RiskLow.

Definition tool_node_id (index : nat) : string := "tool-" +:+ fmt_dec (Z.of_nat (index + 1)).

Definition verify_node : PlanNode := {|
  pn_id := "verify-1"; pn_kind := NodeVerify; pn_label := "verify non-empty tool outputs";
  pn_tool_name := None; pn_timeout_ms := 500; pn_max_attempts := 1; pn_risk_tier := RiskMedium |}.

Definition respond_node : PlanNode := {|
  pn_id := "respond-1"; pn_kind := NodeRespond; pn_label := "compose final response";
  pn_tool_name := None; pn_timeout_ms := 500; pn_max_attempts := 1; pn_risk_tier := RiskLow |}.

(** [nodes.windows(2)]: an edge from each node to the next. *)
Fixpoint chain_edges (nodes : list PlanNode) : list PlanEdge :=
  match nodes with
  | from :: (to :: _) as rest => {| pe_from := pn_id from; pe_to := pn_id to |} :: chain_edges rest
  | _ => []
  end.

Section lane.
Context {W ApprovalRequirement : Type}.

(** The text that asks for an approval ([format_approval_required_reply] with an
    empty preface), the name shown for an intent's tool
    ([effective_followup_visible_tool_name]), and whether a line of output says
    it was truncated ([tool_result_contains_truncation_signal]). *)
Variable format_approval_required_reply : ApprovalRequirement -> string.
Variable visible_tool_name : ToolIntent -> string.
Variable truncation_signal : string -> bool.

(** The turn engine on one intent under the node's timeout ([None]: it ran out),
    and the milliseconds since the plan started. *)
Variable execute_turn : ToolIntent -> M W (option (TurnResult ApprovalRequirement)).
Variable elapsed : M W Z.

Definition tool_node (tier : RiskTier) (max_attempts index : nat) (intent : ToolIntent) : PlanNode := {|
  pn_id := tool_node_id index; pn_kind := NodeTool;
  pn_label := "invoke `" +:+ visible_tool_name intent +:+ "`";
  pn_tool_name := Some (visible_tool_name intent);
  pn_timeout_ms := 3000; pn_max_attempts := max_attempts; pn_risk_tier := tier |}.

Definition plan_nodes (config : SafeLaneConfig) (lane : LaneScores) (intents : list ToolIntent)
    (tool_node_max_attempts start_tool_index : nat) : list PlanNode :=
  drop (Nat.min start_tool_index (length intents))
    (imap (tool_node (select_safe_lane_risk_tier config lane) tool_node_max_attempts) intents)
  ++ (if sl_verify_output_non_empty config then [verify_node] else []) ++ [respond_node].

Definition build_safe_lane_plan_graph (config : SafeLaneConfig) (lane : LaneScores)
    (intents : list ToolIntent) (tool_node_max_attempts start_tool_index : nat) : PlanGraph :=
  let nodes := plan_nodes config lane intents tool_node_max_attempts start_tool_index in
  {| pg_version := PLAN_GRAPH_VERSION;
     pg_nodes := nodes;
     pg_edges := chain_edges nodes;
     pg_budget := {|
       pb_max_nodes := 16;
       pb_max_total_attempts :=
         Z.max (foldl (fun sum node => sum + Z.of_nat (pn_max_attempts node))%Z 0%Z nodes) 1;
       pb_max_wall_time_ms := Z.max (sl_plan_max_wall_time_ms config) 1 |} |}.

Definition execute_single_tool_intent (intent : ToolIntent)
  : M W (option (result string PlanNodeError)) :=
  let! outcome := execute_turn intent in
  ret (match outcome with
       | None => None
       | Some (FinalText text) | Some (StreamingText text) | Some (StreamingDone text) => Some (Ok text)
       | Some (NeedsApproval requirement) =>
           Some (Err (PlanNodeError_policy_denied (format_approval_required_reply requirement)))
       | Some (ToolDenied failure) => Some (Err (PlanNodeError_policy_denied (tf_reason failure)))
       | Some (ToolError failure) =>
           Some (Err {| ne_kind := match tf_kind failure with
                                   | TurnRetryable => Retryable
                                   | _ => NonRetryable
                                   end;
                        ne_message := tf_reason failure |})
       | Some (ProviderError failure) =>
           Some (Err {| ne_kind := NonRetryable; ne_message := tf_reason failure |})
       end).

(** [SafeLanePlanNodeExecutor::execute]; its state is the world and the outputs
    collected so far. *)
Definition execute_safe_lane_node (config : SafeLaneConfig) (intents : list ToolIntent)
    (node : PlanNode) (attempt : nat) : M (W * list string) (option (result unit PlanNodeError)) :=
  match pn_kind node with
  | NodeTool =>
      match parse_tool_node_index (pn_id node) with
      | Err error => ret (Some (Err error))
      | Ok index =>
          match intents !! index with
          | None =>
              ret (Some (Err (PlanNodeError_from_string
                     ("missing tool intent for node `" +:+ pn_id node +:+ "`"))))
          | Some intent =>
              let! outcome := zoom fst (fun w s => (w, s.2)) (execute_single_tool_intent intent) in
              match outcome with
              | None => ret None
              | Some (Err error) => ret (Some (Err error))
              | Some (Ok output) =>
                  run! modify (fun s => (s.1, s.2 ++ [output])) in ret (Some (Ok tt))
              end
          end
      end
  | NodeVerify =>
      if negb (sl_verify_output_non_empty config) then ret (Some (Ok tt)) else
      let! outputs := gets snd in
      if match outputs with [] => true | _ => false end
         || existsb (fun line => str_is_empty (trim line)) outputs
      then ret (Some (Err (PlanNodeError_from_string "verify_failed:empty_tool_output")))
      else ret (Some (Ok tt))
  | NodeTransform | NodeRespond => ret (Some (Ok tt))
  end.

Definition count_line (stats : SafeLaneToolOutputStats) (line : string) : SafeLaneToolOutputStats :=
  let is_result := starts_with "[" line in
  {| os_output_lines := u64_saturating_add (os_output_lines stats) 1;
     os_result_lines :=
       if is_result then u64_saturating_add (os_result_lines stats) 1 else os_result_lines stats;
     os_truncated_result_lines :=
       if is_result && truncation_signal line
       then u64_saturating_add (os_truncated_result_lines stats) 1
       else os_truncated_result_lines stats |}.

Definition summarize_safe_lane_tool_output_stats (outputs : list string) : SafeLaneToolOutputStats :=
  foldl (fun stats output => foldl count_line stats
    (base.filter (fun line => str_is_empty line = false) (map trim (str_lines output))))
    (Build_SafeLaneToolOutputStats 0 0 0) outputs.

Record SafeLaneRoundExecution : Type := {
  re_report : PlanRunReport;
  re_tool_outputs : list string;
  re_tool_output_stats : SafeLaneToolOutputStats;
}.

Definition evaluate_safe_lane_round (config : SafeLaneConfig) (lane : LaneScores)
    (intents : list ToolIntent) (state : SafeLanePlanLoopState) : M W SafeLaneRoundExecution := fun w =>
  let plan := build_safe_lane_plan_graph config lane intents
                (ls_tool_node_max_attempts state) (ls_plan_start_tool_index state) in
  let (outcome, s) :=
    PlanExecutor_execute (execute_safe_lane_node config intents)
      (zoom fst (fun w s => (w, s.2)) elapsed) plan (w, ls_seed_tool_outputs state) in
  (match outcome with
   | Panicked p => Panicked p
   | Returned report =>
       Returned {| re_report := report; re_tool_outputs := s.2;
                   re_tool_output_stats := summarize_safe_lane_tool_output_stats s.2 |}
   end, s.1).

(** ** What a failed round leads to *)

Inductive SafeLaneRoundDecision : Type :=
| Finalize (result : TurnResult ApprovalRequirement)
| ReplanRound (reason : string) (next_plan_start_tool_index : nat) (next_seed_tool_outputs : list string).

Definition decide_safe_lane_verify_failure_action (verify_error : string) (retryable_signal : bool)
    (route : SafeLaneFailureRoute) : SafeLaneRoundDecision :=
  if negb (should_replan route)
  then Finalize (ToolError (terminal_turn_failure_from_verify_failure verify_error retryable_signal route))
  else ReplanRound "verify_failed" 0 [].

Definition turn_result_from_plan_failure (failure : PlanRunFailure) : TurnResult ApprovalRequirement :=
  let failure_meta := turn_failure_from_plan_failure failure in
  match tf_kind failure_meta with
  | TurnPolicyDenied => ToolDenied failure_meta
  | TurnProvider => ProviderError failure_meta
  | _ => ToolError failure_meta
  end.

Definition terminal_turn_result_from_plan_failure_with_route (failure : PlanRunFailure)
    (route : SafeLaneFailureRoute) : TurnResult ApprovalRequirement :=
  match terminal_plan_failure_code route with
  | Some code =>
      ToolError (into_turn_failure code TurnNonRetryable
        (SafeLaneFailureCode_as_str code +:+ ": " +:+ summarize_plan_failure failure))
  | None => turn_result_from_plan_failure failure
  end.

Definition decide_safe_lane_plan_failure_action (failure : PlanRunFailure)
    (route : SafeLaneFailureRoute) (next_plan_start_tool_index : nat)
    (next_seed_tool_outputs : list string) : SafeLaneRoundDecision :=
  if should_replan route
  then ReplanRound (summarize_plan_failure failure) next_plan_start_tool_index next_seed_tool_outputs
  else Finalize (terminal_turn_result_from_plan_failure_with_route failure route).

Record SafeLaneTurnOutcome : Type := {
  to_result : TurnResult ApprovalRequirement;
  to_terminal_route : option SafeLaneFailureRoute;
}.

(** ** The loop *)

(** The runtime events, with the values their payloads are made of. *)
Inductive SafeLaneEvent : Type :=
| LaneSelected (lane : LaneScores) (tool_intents : nat) (governor : SafeLaneSessionGovernorDecision)
| VerifyPolicyAdjusted (state : SafeLanePlanLoopState) (min_anchor_matches : nat)
| PlanRoundStarted (state : SafeLanePlanLoopState)
| PlanRoundCompleted (state : SafeLanePlanLoopState) (execution : SafeLaneRoundExecution)
    (failure : option (TurnFailure * SafeLaneFailureRoute))
| VerifyFailedEvent (state : SafeLanePlanLoopState) (execution : SafeLaneRoundExecution)
    (verify_error : string) (codes : list string) (failure : TurnFailure) (route : SafeLaneFailureRoute)
| FinalStatus (state : SafeLanePlanLoopState) (execution : SafeLaneRoundExecution)
    (failed : option (string * option TurnFailure * SafeLaneFailureRoute))
| ReplanTriggered (state : SafeLanePlanLoopState) (execution : SafeLaneRoundExecution)
    (reason : string) (route : SafeLaneFailureRoute).

(** [emit_safe_lane_event]; the loop ignores what it answers. *)
Variable emit_safe_lane_event : SafeLaneEvent -> M W unit.

(** What follows a decision: the turn ends, or the loop goes round. *)
Definition conclude (state : SafeLanePlanLoopState) (execution : SafeLaneRoundExecution)
    (summary : string) (route : SafeLaneFailureRoute) (decision : SafeLaneRoundDecision)
  : M W (SafeLanePlanLoopState + SafeLaneTurnOutcome) :=
  match decision with
  | Finalize result =>
      run! emit_safe_lane_event (FinalStatus state execution
             (Some (summary, TurnResult_failure result, route))) in
      ret (inr {| to_result := result; to_terminal_route := Some route |})
  | ReplanRound reason next_plan_start_tool_index next_seed_tool_outputs =>
      let state := note_replan next_plan_start_tool_index next_seed_tool_outputs state in
      run! emit_safe_lane_event (ReplanTriggered state execution reason route) in
      ret (inl (advance_round state))
  end.

Definition round_succeeded (config : SafeLaneConfig) (intents : list ToolIntent)
    (state : SafeLanePlanLoopState) (execution : SafeLaneRoundExecution)
  : M W (SafeLanePlanLoopState + SafeLaneTurnOutcome) :=
  let state := note_round_succeeded state in
  run! emit_safe_lane_event (PlanRoundCompleted state execution None) in
  let tool_output := join line_feed (re_tool_outputs execution) in
  let verify_report :=
    verify_safe_lane_final_output config tool_output intents (ls_min_anchor_matches state) in
  if vr_passed verify_report then
    run! emit_safe_lane_event (FinalStatus state execution None) in
    ret (inr {| to_result := FinalText tool_output; to_terminal_route := None |})
  else
    let verify_error := join "," (vr_failure_reasons verify_report) in
    let retryable := should_replan_for_verification_failure verify_report in
    let verify_failure := turn_failure_from_verify_failure verify_error retryable in
    let state := note_verify_failure state in
    let route := decide_safe_lane_failure_route config verify_failure (ls_replan_budget state)
                   (ls_metrics state) (ls_governor state) in
    run! emit_safe_lane_event (VerifyFailedEvent state execution verify_error
           (map format_verification_failure_code (vr_failure_codes verify_report))
           verify_failure route) in
    conclude state execution (verify_terminal_summary_label route) route
      (decide_safe_lane_verify_failure_action verify_error retryable route).

Definition round_failed (config : SafeLaneConfig) (intents : list ToolIntent)
    (state : SafeLanePlanLoopState) (execution : SafeLaneRoundExecution) (failure : PlanRunFailure)
  : M W (SafeLanePlanLoopState + SafeLaneTurnOutcome) :=
  let state := note_round_failed state in
  let failure_meta := turn_failure_from_plan_failure failure in
  let route := decide_safe_lane_failure_route config failure_meta (ls_replan_budget state)
                 (ls_metrics state) (ls_governor state) in
  run! emit_safe_lane_event (PlanRoundCompleted state execution (Some (failure_meta, route))) in
  let (next_start, next_seed) :=
    if should_replan route
    then derive_replan_cursor failure (re_tool_outputs execution) (length intents) else (0, []) in
  conclude state execution (summarize_plan_failure failure) route
    (decide_safe_lane_plan_failure_action failure route next_start next_seed).

(** The body of the loop. *)
Definition safe_lane_round (config : SafeLaneConfig) (lane : LaneScores) (intents : list ToolIntent)
    (state : SafeLanePlanLoopState) : M W (SafeLanePlanLoopState + SafeLaneTurnOutcome) :=
  let (adjusted, state) := refresh_verify_policy config state in
  run! match adjusted with
       | Some min_anchor_matches =>
           emit_safe_lane_event (VerifyPolicyAdjusted state min_anchor_matches)
       | None => ret tt
       end in
  let state := note_round_started state in
  run! emit_safe_lane_event (PlanRoundStarted state) in
  let! execution := evaluate_safe_lane_round config lane intents state in
  let state := record_round_execution (re_report execution) (re_tool_output_stats execution) state in
  match pr_status (re_report execution) with
  | Succeeded => round_succeeded config intents state execution
  | Failed failure => round_failed config intents state execution failure
  end.

(** [loop]: [None] when the fuel did not last. *)
Fixpoint safe_lane_loop (fuel : nat) (config : SafeLaneConfig) (lane : LaneScores)
    (intents : list ToolIntent) (state : SafeLanePlanLoopState) : M W (option SafeLaneTurnOutcome) :=
  match fuel with
  | O => ret None
  | S fuel =>
      let! next := safe_lane_round config lane intents state in
      match next with
      | inl state => safe_lane_loop fuel config lane intents state
      | inr outcome => ret (Some outcome)
      end
  end.

Definition execute_turn_with_safe_lane_plan (fuel : nat) (config : SafeLaneConfig)
    (governor : SafeLaneSessionGovernorDecision) (lane : LaneScores) (intents : list ToolIntent)
  : M W (option SafeLaneTurnOutcome) :=
  run! emit_safe_lane_event (LaneSelected lane (length intents) governor) in
  safe_lane_loop fuel config lane intents (SafeLanePlanLoopState_new config governor).
End lane.

Arguments SafeLaneTurnOutcome _ : clear implicits.
Arguments SafeLaneRoundDecision _ : clear implicits.
