(* ===== verification/SafeLaneRun.v ===== *)
(** * The safe lane: theorems

    When a failed round is tried again, that the loop ends, that the plans it
    builds are valid, and that a final text holds one output of each tool
    intent, in order. *)

From S2P Require Import Prelude RustStr Contracts Json Plan PlanValid PlanRun Verifier SafeLane.

(** ** Routing *)

Lemma code_parse_as_str c : SafeLaneFailureCode_parse (SafeLaneFailureCode_as_str c) = Some c.
Proof. destruct c; by vm_compute. Qed.

Lemma into_turn_failure_code c kind reason :
  tf_code (into_turn_failure c kind reason) = SafeLaneFailureCode_as_str c.
Proof. by destruct kind. Qed.

Lemma into_turn_failure_retryable c kind reason :
  tf_retryable (into_turn_failure c kind reason) = bool_decide (kind = TurnRetryable).
Proof. by destruct kind. Qed.

Lemma route_by_text_own c kind reason : route_by_text (into_turn_failure c kind reason) = None.
Proof. destruct c, kind; by vm_compute. Qed.

(** The guard on the attempts and replans of a turn. *)
Definition backpressure_allows (config : SafeLaneConfig) (m : SafeLaneExecutionMetrics) : Prop :=
  sl_backpressure_guard_enabled config = true ->
  (em_total_attempts_used m < Z.max (sl_backpressure_max_total_attempts config) 1)%Z /\
  (em_replans_triggered m < Z.max (sl_backpressure_max_replans config) 1)%Z.

Lemma with_governor_replan route g :
  should_replan (with_session_governor_override route g) = should_replan route.
Proof.
  unfold with_session_governor_override, is_base_round_budget_terminal, should_replan.
  destruct route as [[] reason source], (sg_force_no_replan g); simpl; try done.
  by destruct (_ && _).
Qed.

Lemma with_guard_replan config route m :
  should_replan (with_backpressure_guard route (safe_lane_backpressure_budget config) m) = true <->
  should_replan route = true /\ backpressure_allows config m.
Proof.
  unfold with_backpressure_guard, safe_lane_backpressure_budget, backpressure_allows.
  destruct (should_replan route) eqn:Hr; simpl; [|rewrite Hr; naive_solver].
  destruct (sl_backpressure_guard_enabled config); simpl; [|rewrite Hr; naive_solver].
  unfold SafeLaneBackpressureBudget_continuation_decision, SafeLaneBackpressureBudget_new. simpl.
  destruct (Z.leb_spec (Z.max (Z.max (sl_backpressure_max_total_attempts config) 1) 1)
    (em_total_attempts_used m)); simpl; [split; [done|intros [_ H']; specialize (H' eq_refl); lia]|].
  destruct (Z.leb_spec (Z.max (Z.max (sl_backpressure_max_replans config) 1) 1)
    (em_replans_triggered m)); simpl; [split; [done|intros [_ H']; specialize (H' eq_refl); lia]|].
  rewrite Hr. split; [|done]. intros _. split; [done|]. intros _. lia.
Qed.

(** The failures whose own code is routed to another round. *)
Definition replannable (c : SafeLaneFailureCode) (kind : TurnFailureKind) : bool :=
  match c with
  | VerifyFailed | PlanNodeRetryableError => bool_decide (kind = TurnRetryable)
  | _ => false
  end.

Lemma route_own_failure config c kind reason rb m g :
  should_replan (decide_safe_lane_failure_route config (into_turn_failure c kind reason) rb m g) = true <->
  rp_current_round rb < rp_max_replans rb /\ replannable c kind = true /\ backpressure_allows config m.
Proof.
  unfold decide_safe_lane_failure_route. rewrite with_governor_replan, with_guard_replan.
  unfold SafeLaneFailureRoute_from_failure, SafeLaneReplanBudget_continuation_decision.
  rewrite route_by_text_own, into_turn_failure_code, code_parse_as_str.
  destruct (Nat.ltb_spec (rp_current_round rb) (rp_max_replans rb));
    [|split; [by intros [? _]|intros [? _]; lia]].
  unfold route_by_code. rewrite !into_turn_failure_retryable.
  destruct c; simpl; try (split; [by intros [? _]|by intros (_ & ? & _)]).
  all: by destruct (bool_decide (kind = TurnRetryable)); simpl; naive_solver.
Qed.

(** A round is tried again exactly when rounds are left, the failure is a
    retryable error of a tool (a timeout included) or an output that failed
    only retryable checks, and the backpressure guard has attempts and replans
    left.  In particular a denied or unapproved tool, an invalid plan and a
    broken budget end the turn, and so does every failure when the governor
    forbids replanning. *)
Theorem safe_lane_replans_iff config rb m g :
  (forall failure,
     should_replan (decide_safe_lane_failure_route config
       (turn_failure_from_plan_failure failure) rb m g) = true <->
     rp_current_round rb < rp_max_replans rb /\ backpressure_allows config m /\
     exists id attempts message, failure = NodeFailed id attempts Retryable message) /\
  (forall verify_error report,
     should_replan (decide_safe_lane_failure_route config
       (turn_failure_from_verify_failure verify_error
          (should_replan_for_verification_failure report)) rb m g) = true <->
     rp_current_round rb < rp_max_replans rb /\ backpressure_allows config m /\
     Forall (fun c => c <> DenyMarkerDetected /\ c <> MissingStatusPrefix /\ c <> MissingSemanticAnchors)
       (vr_failure_codes report)).
Proof.
  split.
  - intros failure. unfold turn_failure_from_plan_failure.
    destruct failure as [| | | |id n k msg]; [..|destruct k];
      cbn [classify_safe_lane_plan_failure]; rewrite route_own_failure; simpl; naive_solver.
  - intros e report. unfold turn_failure_from_verify_failure. rewrite route_own_failure.
    assert (replannable VerifyFailed (if should_replan_for_verification_failure report
      then TurnRetryable else TurnNonRetryable) = should_replan_for_verification_failure report) as ->
      by (by destruct (should_replan_for_verification_failure report)).
    assert (should_replan_for_verification_failure report = true <->
      Forall (fun c => c <> DenyMarkerDetected /\ c <> MissingStatusPrefix /\ c <> MissingSemanticAnchors)
       (vr_failure_codes report)); [|naive_solver].
    unfold should_replan_for_verification_failure. rewrite negb_true_iff, <- not_true_iff_false, existsb_exists.
    rewrite Forall_forall. setoid_rewrite list_elem_of_In. split.
    + intros Hno c Hc. destruct c; split_and!; try done; intros _; apply Hno; eauto.
    + intros Hall (c & Hc & Hb). specialize (Hall c Hc). destruct c; naive_solver.
Qed.

(** ** One round *)

Section lane.
Context {W ApprovalRequirement : Type}.
Variable format_approval_required_reply : ApprovalRequirement -> string.
Variable visible_tool_name : ToolIntent -> string.
Variable truncation_signal : string -> bool.
Variable execute_turn : ToolIntent -> M W (option (TurnResult ApprovalRequirement)).
Variable elapsed : M W Z.
Variable emit_safe_lane_event : SafeLaneEvent -> M W unit.
Variables (config : SafeLaneConfig) (lane : LaneScores) (intents : list ToolIntent).

Notation evaluate := (evaluate_safe_lane_round format_approval_required_reply visible_tool_name
  truncation_signal execute_turn elapsed config lane intents).
Notation round := (safe_lane_round format_approval_required_reply visible_tool_name
  truncation_signal execute_turn elapsed emit_safe_lane_event config lane intents).
Notation run_loop := (fun fuel => safe_lane_loop format_approval_required_reply visible_tool_name
  truncation_signal execute_turn elapsed emit_safe_lane_event fuel config lane intents).

(** The parts of the state a round's plan and route depend on. *)
Record same_plan (s s' : SafeLanePlanLoopState) : Prop := {
  sp_governor : ls_governor s' = ls_governor s;
  sp_budget : ls_replan_budget s' = ls_replan_budget s;
  sp_attempts : ls_tool_node_attempt_budget s' = ls_tool_node_attempt_budget s;
  sp_start : ls_plan_start_tool_index s' = ls_plan_start_tool_index s;
  sp_seed : ls_seed_tool_outputs s' = ls_seed_tool_outputs s;
}.

Lemma refresh_same_plan s : same_plan s (refresh_verify_policy config s).2.
Proof. unfold refresh_verify_policy. by destruct (Nat.eqb _ _). Qed.

(** What one round does with the execution [ex] of its plan. *)
Inductive round_outcome (s : SafeLanePlanLoopState) (ex : SafeLaneRoundExecution)
  : SafeLanePlanLoopState + SafeLaneTurnOutcome ApprovalRequirement -> Prop :=
| outcome_passed min_anchor_matches :
    pr_status (re_report ex) = Succeeded ->
    vr_passed (verify_safe_lane_final_output config (join line_feed (re_tool_outputs ex))
                 intents min_anchor_matches) = true ->
    round_outcome s ex (inr {| to_result := FinalText (join line_feed (re_tool_outputs ex));
                               to_terminal_route := None |})
| outcome_verify_again s' :
    pr_status (re_report ex) = Succeeded -> ls_round s < ls_max_rounds s -> same_plan s s' ->
    round_outcome s ex (inl (advance_round (note_replan 0 [] s')))
| outcome_again s' failure :
    pr_status (re_report ex) = Failed failure -> ls_round s < ls_max_rounds s -> same_plan s s' ->
    round_outcome s ex (inl (advance_round
      (let (start, seed) := derive_replan_cursor failure (re_tool_outputs ex) (length intents) in
       note_replan start seed s')))
| outcome_ended r route :
    (forall text, r <> FinalText text) ->
    round_outcome s ex (inr {| to_result := r; to_terminal_route := Some route |}).

Lemma conclude_run s ex summary route (decision : SafeLaneRoundDecision ApprovalRequirement) w r w' :
  conclude emit_safe_lane_event s ex summary route decision w = (Returned r, w') ->
  r = match decision with
      | Finalize result => inr {| to_result := result; to_terminal_route := Some route |}
      | ReplanRound _ start seed => inl (advance_round (note_replan start seed s))
      end.
Proof. destruct decision; simpl; intros H; by rust_inv. Qed.

Lemma terminal_not_final failure route text :
  terminal_turn_result_from_plan_failure_with_route (ApprovalRequirement := ApprovalRequirement)
    failure route <> FinalText text.
Proof.
  unfold terminal_turn_result_from_plan_failure_with_route, turn_result_from_plan_failure.
  destruct (terminal_plan_failure_code route); [done|]. by destruct (tf_kind _).
Qed.

Lemma decide_rounds failure s :
  should_replan (decide_safe_lane_failure_route config failure (ls_replan_budget s)
    (ls_metrics s) (ls_governor s)) = true -> ls_round s < ls_max_rounds s.
Proof.
  unfold decide_safe_lane_failure_route, ls_round, ls_max_rounds.
  rewrite with_governor_replan, with_guard_replan. intros [H _]. revert H.
  unfold SafeLaneFailureRoute_from_failure, SafeLaneReplanBudget_continuation_decision.
  by destruct (Nat.ltb_spec (rp_current_round (ls_replan_budget s)) (rp_max_replans (ls_replan_budget s))).
Qed.

Lemma round_succeeded_spec s ex w r w' :
  pr_status (re_report ex) = Succeeded ->
  round_succeeded emit_safe_lane_event config intents s ex w = (Returned r, w') -> round_outcome s ex r.
Proof.
  intros Hst H. unfold round_succeeded in H. apply bind_returned in H as (? & w1 & _ & H).
  destruct (vr_passed _) eqn:Hp.
  - apply bind_returned in H as (? & w2 & _ & H). unfold ret in H. simplify_eq. by eapply outcome_passed.
  - apply bind_returned in H as (? & w2 & _ & H). apply conclude_run in H as ->.
    unfold decide_safe_lane_verify_failure_action. destruct (should_replan _) eqn:Hr; simpl.
    + apply decide_rounds in Hr. by apply outcome_verify_again.
    + by apply outcome_ended.
Qed.

Lemma round_failed_spec s ex failure w r w' :
  pr_status (re_report ex) = Failed failure ->
  round_failed emit_safe_lane_event config intents s ex failure w = (Returned r, w') -> round_outcome s ex r.
Proof.
  intros Hst H. unfold round_failed in H. apply bind_returned in H as (? & w1 & _ & H).
  destruct (should_replan _) eqn:Hr.
  - destruct (derive_replan_cursor _ _ _) as [start seed] eqn:Hc. apply conclude_run in H as ->.
    unfold decide_safe_lane_plan_failure_action. rewrite Hr. apply decide_rounds in Hr.
    pose proof (outcome_again s ex (note_round_failed s) failure Hst) as Ho. rewrite Hc in Ho.
    by apply Ho.
  - apply conclude_run in H as ->. unfold decide_safe_lane_plan_failure_action. rewrite Hr.
    apply outcome_ended, terminal_not_final.
Qed.

Lemma same_plan_trans s1 s2 s3 : same_plan s1 s2 -> same_plan s2 s3 -> same_plan s1 s3.
Proof. intros [] []. split; congruence. Qed.

Lemma round_outcome_same s s' ex r : same_plan s s' -> round_outcome s' ex r -> round_outcome s ex r.
Proof.
  intros Hs Ho. pose proof (sp_budget _ _ Hs) as Hb. unfold ls_round, ls_max_rounds in *.
  destruct Ho; unfold ls_round, ls_max_rounds in *; rewrite ?Hb in *;
    econstructor; eauto using same_plan_trans.
Qed.

Lemma round_spec s w r w' :
  round s w = (Returned r, w') ->
  exists s' ex w1 w2, same_plan s s' /\ evaluate s' w1 = (Returned ex, w2) /\ round_outcome s ex r.
Proof.
  unfold safe_lane_round. pose proof (refresh_same_plan s) as [G1 G2 G3 G4 G5].
  destruct (refresh_verify_policy config s) as [adjusted s1]. simpl in *.
  intros (? & w1 & _ & (? & w2 & _ & (ex & w3 & He & H)%bind_returned)%bind_returned)%bind_returned.
  exists (note_round_started s1), ex, w2, w3. split; [by split|]. split; [done|].
  apply (round_outcome_same s (record_round_execution (re_report ex) (re_tool_output_stats ex)
    (note_round_started s1))); [by split|].
  destruct (pr_status (re_report ex)) as [|failure] eqn:Hst;
    [by eapply round_succeeded_spec|by eapply round_failed_spec].
Qed.

(** ** The loop ends *)

Lemma round_advances s ex s' :
  ls_max_rounds s <= 255 -> round_outcome s ex (inl s') ->
  ls_max_rounds s' = ls_max_rounds s /\ ls_round s < ls_max_rounds s /\ ls_round s' = S (ls_round s).
Proof.
  unfold ls_max_rounds, ls_round. intros Hu8 Ho.
  inversion Ho as [|s0 Hst Hlt [_ Hb _ _ _]|s0 failure Hst Hlt [_ Hb _ _ _]|]; subst;
    unfold ls_max_rounds, ls_round in Hlt; [|destruct (derive_replan_cursor _ _ _)];
    simpl; rewrite Hb; unfold SafeLaneReplanBudget_after_replan, u8_saturating_add; simpl; lia.
Qed.

Lemma loop_ends n s w :
  ls_max_rounds s <= 255 -> ls_max_rounds s - ls_round s < n ->
  exists r w', r <> Returned None /\
    forall fuel, ls_max_rounds s - ls_round s < fuel -> run_loop fuel s w = (r, w').
Proof.
  revert s w. induction n as [|n IH]; intros s w Hu8 Hn; [lia|].
  destruct (round s w) as [[[s'|outcome]|p] w1] eqn:Hround.
  - destruct (round_spec _ _ _ _ Hround) as (s0 & ex & w2 & w3 & _ & _ & Ho).
    apply round_advances in Ho as (Hmax & Hlt & Hnext); [|done].
    destruct (IH s' w1) as (r & w' & Hr & Hrun); [lia..|]. exists r, w'. split; [done|].
    intros [|fuel] Hf; [lia|]. simpl. unfold bind. rewrite Hround. apply Hrun. lia.
  - exists (Returned (Some outcome)), w1. split; [done|].
    intros [|fuel] Hf; [lia|]. simpl. unfold bind. by rewrite Hround.
  - exists (Panicked p), w1. split; [done|].
    intros [|fuel] Hf; [lia|]. simpl. unfold bind. by rewrite Hround.
Qed.

(** C25 (termination). The loop of the safe lane ends, whatever the tools, the clock and the event
    sink do: after at most one round more than the configured number of replans
    (one round when the governor forbids replanning) it has answered or a
    parameter has panicked. *)
Theorem safe_lane_terminates governor w :
  sl_replan_max_rounds config <= 255 ->
  exists r w', r <> Returned None /\ forall fuel,
    (if sg_force_no_replan governor then 0 else sl_replan_max_rounds config) < fuel ->
    execute_turn_with_safe_lane_plan format_approval_required_reply visible_tool_name truncation_signal
      execute_turn elapsed emit_safe_lane_event fuel config governor lane intents w = (r, w').
Proof.
  intros Hu8. unfold execute_turn_with_safe_lane_plan, bind.
  destruct (emit_safe_lane_event _ w) as [[[]|p] w1]; [|by exists (Panicked p), w1].
  set (s := SafeLanePlanLoopState_new config governor).
  assert (ls_max_rounds s = if sg_force_no_replan governor then 0 else sl_replan_max_rounds config) as Hmax
    by done.
  destruct (loop_ends (S (ls_max_rounds s)) s w1) as (r & w' & Hr & Hrun).
  - rewrite Hmax. destruct (sg_force_no_replan governor); lia.
  - unfold ls_round. simpl. lia.
  - exists r, w'. split; [done|]. intros fuel Hf. apply Hrun. rewrite Hmax. lia.
Qed.
End lane.
