(* ===== verification/SafeLaneText.v ===== *)
(** * The safe lane: plans and the final text

    The plan of a round is a valid chain whenever it has room for its nodes, it
    runs its nodes in their order, and a turn that ends in a text has one output
    of every tool intent, in the order of the intents. *)

From S2P Require Import Prelude RustStr Contracts Json Plan PlanValid PlanRun Verifier SafeLane SafeLaneRun.

(** ** Chains *)

Definition successive (ids : list string) (a b : string) : Prop :=
  exists k, ids !! k = Some a /\ ids !! S k = Some b.

Lemma chain_edges_successive nodes e :
  e ∈ chain_edges nodes <-> successive (node_ids nodes) (pe_from e) (pe_to e).
Proof.
  unfold successive, node_ids. induction nodes as [|n [|m nodes] IH].
  - split; [by intros ?%not_elem_of_nil|]. by intros (k & ? & _).
  - split; [by intros ?%not_elem_of_nil|]. intros (k & _ & Hk). by destruct k.
  - cbn [chain_edges]. rewrite elem_of_cons, IH. split.
    + intros [->|(k & ? & ?)]; [by exists 0|by exists (S k)].
    + intros ([|k] & Ha & Hb); [left|right; by exists k]. destruct e; simpl in *. congruence.
Qed.

Lemma successive_tc ids a b :
  NoDup ids -> tc (successive ids) a b -> exists i j, i < j /\ ids !! i = Some a /\ ids !! j = Some b.
Proof.
  intros Hnd. induction 1 as [a b (k & Ha & Hb)|a c b (k & Ha & Hc) _ (i & j & Hij & Hi & Hj)].
  - exists k, (S k). split; [lia|done].
  - assert (S k = i) as <- by (by eapply NoDup_lookup). exists k, j. split; [lia|done].
Qed.

(** The only order of a chain. *)
Lemma chain_order ids ordered :
  NoDup ids -> ordered ≡ₚ ids ->
  (forall l1 b l2 a, ordered = l1 ++ b :: l2 -> successive ids a b -> a ∈ l1) -> ordered = ids.
Proof.
  revert ordered. induction ids as [|x ids IH]; intros ordered Hnd Hp Ht; [by apply Permutation_nil_r|].
  apply NoDup_cons in Hnd as [Hx Hnd].
  destruct ordered as [|y ordered]; [by apply Permutation_nil_cons in Hp|].
  assert (y = x) as ->.
  { assert (y ∈ x :: ids) as [->|Hy]%elem_of_cons by (rewrite <- Hp; by left); [done|].
    apply list_elem_of_lookup in Hy as [k Hk].
    destruct (lookup_lt_is_Some_2 (x :: ids) k) as [a Ha]; [apply lookup_lt_Some in Hk; simpl; lia|].
    exfalso. eapply not_elem_of_nil, (Ht [] y ordered a); [done|by exists k]. }
  f_equal. apply Permutation.Permutation_cons_inv in Hp. apply IH; [done..|].
  intros l1 b l2 a -> (k & Ha & Hb).
  assert (a ∈ x :: l1) as [->|?]%elem_of_cons; [|by destruct Hx; eapply list_elem_of_lookup_2|done].
  eapply (Ht (x :: l1) b l2); [done|]. by exists (S k).
Qed.

(** ** Running a chain *)

Section run.
Context {W : Type}.
Variable run_node : PlanNode -> nat -> M W (option (result unit PlanNodeError)).
Variable elapsed : M W Z.
Variable plan : PlanGraph.

(** An assertion for each position, kept by the clock and by failed attempts and
    moved on by a success. *)
Variable I : nat -> W -> Prop.
Hypothesis I_elapsed : forall k w t w', elapsed w = (Returned t, w') -> I k w -> I k w'.
Hypothesis I_node : forall k node attempt w r w', pg_nodes plan !! k = Some node ->
  run_node node attempt w = (Returned r, w') -> I k w ->
  match r with Some (Ok _) => I (S k) w' | _ => I k w' end.

Lemma run_attempts_state k node ordered tries attempt used events w step w' :
  pg_nodes plan !! k = Some node ->
  run_attempts run_node elapsed (pg_budget plan) ordered node tries attempt used events w
    = (Returned step, w') ->
  tries + attempt = S (pn_max_attempts node) -> tries <> 0 -> I k w ->
  match step with
  | GoOn _ _ => I (S k) w'
  | Stop r => pr_status r <> Succeeded /\ I k w' /\
      forall id n kind message, pr_status r = Failed (NodeFailed id n kind message) -> id = pn_id node
  end.
Proof.
  intros Hnode. revert attempt used events w step w'.
  induction tries as [|tries IH]; intros attempt used events w step w' H Ht Hn Hi; [done|].
  cbn [run_attempts] in H. apply bind_returned in H as (t & w1 & Hel & H).
  apply (I_elapsed k) in Hel; [|done].
  destruct (_ <? t)%Z; [unfold ret in H; simplify_eq; naive_solver|].
  destruct (_ <=? used)%Z; [unfold ret in H; simplify_eq; naive_solver|].
  apply bind_returned in H as (outcome & w2 & Hrun & H).
  apply (I_node k) in Hrun; [|done..].
  assert (forall error w2 step, I k w2 -> (let! elapsed_ms := elapsed in
      ret (Stop (report_of (Failed (NodeFailed (pn_id node) attempt (ne_kind error) (ne_message error)))
        ordered (u64_saturating_add used 1)
        (events ++ [attempt_event node attempt (Some error)]) elapsed_ms))) w2
      = (Returned step, w') ->
    match step with
    | GoOn _ _ => I (S k) w'
    | Stop r => pr_status r <> Succeeded /\ I k w' /\
        forall id n kind message, pr_status r = Failed (NodeFailed id n kind message) -> id = pn_id node
    end) as Hfail.
  { clear H. intros error w3 step' Hk H. apply bind_returned in H as (t' & w4 & Hel' & H).
    unfold ret in H. simplify_eq. apply (I_elapsed k) in Hel'; [|done]. simpl. split_and!; [done..|]. naive_solver. }
  destruct outcome as [[[]|error]|].
  - unfold ret in H. by simplify_eq.
  - destruct (_ || _) eqn:Hor; [eapply Hfail; [exact Hrun|exact H]|]. apply orb_false_iff in Hor as [_ Hor%Nat.eqb_neq].
    eapply IH; [exact H|lia|lia|done].
  - destruct (Nat.eqb_spec attempt (pn_max_attempts node)); [eapply Hfail; [exact Hrun|exact H]|].
    eapply IH; [exact H|lia|lia|done].
Qed.

Lemma run_nodes_state k ordered used events w r w' :
  Forall node_ok (pg_nodes plan) -> k <= length (pg_nodes plan) ->
  run_nodes run_node elapsed plan ordered (seq k (length (pg_nodes plan) - k)) used events w
    = (Returned r, w') ->
  I k w ->
  (pr_status r = Succeeded -> I (length (pg_nodes plan)) w') /\
  (forall id n kind message, pr_status r = Failed (NodeFailed id n kind message) ->
     exists j node, pg_nodes plan !! j = Some node /\ id = pn_id node /\ I j w').
Proof.
  intros Hok Hle. remember (length (pg_nodes plan) - k) as m eqn:Hm.
  revert k used events w Hle Hm. induction m as [|m IH]; intros k used events w Hle Hm H Hi; cbn [run_nodes seq] in H.
  - apply bind_returned in H as (t & w1 & Hel & H). unfold ret in H. simplify_eq. simpl.
    apply (I_elapsed k) in Hel; [|done]. replace (length (pg_nodes plan)) with k by lia. done.
  - destruct (lookup_lt_is_Some_2 (pg_nodes plan) k) as [node Hnode]; [lia|]. rewrite Hnode in H.
    apply bind_returned in H as (step & w1 & Hstep & H).
    assert (pn_max_attempts node <> 0) as Hmax.
    { rewrite Forall_forall in Hok. apply (Hok node). by eapply list_elem_of_lookup_2. }
    eapply run_attempts_state in Hstep; [|done|lia|done..].
    destruct step as [used' events'|r'].
    + eapply IH; [|..|exact H|done]; lia.
    + unfold ret in H. simplify_eq. destruct Hstep as (? & ? & Hid). split; [done|].
      intros id n kind message Hst. exists k, node. split_and!; [done|by eapply Hid|done].
Qed.

(** A valid plan whose edges chain its nodes runs them in their order. *)
Lemma chain_run w r w' :
  plan_ok plan -> pg_edges plan = chain_edges (pg_nodes plan) ->
  PlanExecutor_execute run_node elapsed plan w = (Returned r, w') -> I 0 w ->
  (pr_status r = Succeeded -> I (length (pg_nodes plan)) w') /\
  (forall id n kind message, pr_status r = Failed (NodeFailed id n kind message) ->
     exists j node, pg_nodes plan !! j = Some node /\ id = pn_id node /\ I j w').
Proof.
  intros Hok He H Hi. unfold PlanExecutor_execute in H. rewrite (validate_complete plan Hok) in H.
  destruct (plan_order plan Hok) as (order & ordered & Hord & Hids & Hb & Hnd & Hperm & Htop).
  rewrite Hord, Hids in H.
  assert (ordered = node_ids (pg_nodes plan)) as ->.
  { apply chain_order; [apply Hok|done|]. intros l1 b l2 a Hl Hs. apply (Htop _ b l2 a Hl).
    exists {| pe_from := a; pe_to := b |}. rewrite He. split; [|done]. by apply chain_edges_successive. }
  assert (order = seq 0 (length (pg_nodes plan) - 0)) as ->;
    [|eapply (run_nodes_state 0); [apply Hok|lia|exact H|exact Hi]].
  rewrite Nat.sub_0_r. apply list_eq_same_length with (length (pg_nodes plan)).
  - rewrite length_seq. done.
  - apply length_mapM in Hids. unfold node_ids in Hids. rewrite length_fmap in Hids. done.
  - intros i x y Hlt Hx [-> _]%lookup_seq. apply mapM_Some in Hids.
    destruct (Forall2_lookup_l _ _ _ _ _ Hids Hx) as (id & Hid & (node & Hn & ->)%fmap_Some).
    eapply NoDup_lookup; [apply (ok_unique _ Hok)| |simpl; exact Hid].
    unfold node_ids. by rewrite list_lookup_fmap, Hn.
Qed.
End run.

(** ** The plan of a round *)

Lemma tool_node_id_visible i : str_forallb is_visible (tool_node_id i) = true.
Proof. unfold tool_node_id. rewrite str_forallb_app, fmt_dec_visible. done. Qed.

Lemma parse_tool_node_id i :
  (Z.of_nat (i + 1) <= u64_max)%Z -> parse_tool_node_index (tool_node_id i) = Ok i.
Proof.
  intros Hi. unfold parse_tool_node_index, tool_node_id.
  change (strip_prefix "tool-" ("tool-" +:+ fmt_dec (Z.of_nat (i + 1))))
    with (Some (fmt_dec (Z.of_nat (i + 1)))). cbv iota.
  rewrite parse_u64_fmt_dec by (unfold u64_valid; lia). cbv iota.
  destruct (Z.eqb_spec (Z.of_nat (i + 1)) 0); [lia|]. f_equal. lia.
Qed.

Lemma foldl_attempts nodes z :
  foldl (fun sum node => sum + Z.of_nat (pn_max_attempts node))%Z z nodes = (z + attempts_sum nodes)%Z.
Proof. revert z. induction nodes as [|n nodes IH]; intros z; simpl; [lia|]. rewrite IH. lia. Qed.

Section plans.
Variable visible_tool_name : ToolIntent -> string.
Variables (config : SafeLaneConfig) (lane : LaneScores) (intents : list ToolIntent).
Hypothesis intents_addressable : (Z.of_nat (length intents) <= u64_max)%Z.

Notation nodes_of := (plan_nodes visible_tool_name config lane intents).
Notation plan_of := (build_safe_lane_plan_graph visible_tool_name config lane intents).
Notation tier := (select_safe_lane_risk_tier config lane).

Lemma plan_nodes_lookup attempts start k node :
  start <= length intents -> nodes_of attempts start !! k = Some node ->
  (exists intent, intents !! (start + k) = Some intent /\
     node = tool_node visible_tool_name tier attempts (start + k) intent) \/
  (length intents <= start + k /\ node ∈ [verify_node; respond_node]).
Proof.
  intros Hs Hk. unfold plan_nodes in Hk. rewrite Nat.min_l in Hk by done.
  apply lookup_app_Some in Hk as [Hk|[Hlen Hk]].
  - left. rewrite lookup_drop, list_lookup_imap in Hk.
    apply fmap_Some in Hk as (intent & Hi & ->). by exists intent.
  - right. rewrite length_drop, length_imap in Hlen. split; [lia|].
    apply list_elem_of_lookup_2 in Hk. destruct (sl_verify_output_non_empty config); set_solver.
Qed.

Lemma plan_nodes_tools attempts start k :
  start + k < length intents ->
  exists intent, intents !! (start + k) = Some intent /\
    nodes_of attempts start !! k = Some (tool_node visible_tool_name tier attempts (start + k) intent).
Proof.
  intros Hk. destruct (lookup_lt_is_Some_2 intents (start + k) Hk) as [intent Hi].
  exists intent. split; [done|]. unfold plan_nodes. rewrite Nat.min_l by lia.
  rewrite lookup_app_l by (rewrite length_drop, length_imap; lia).
  by rewrite lookup_drop, list_lookup_imap, Hi.
Qed.

Lemma plan_node_ids_unique attempts start :
  start <= length intents -> NoDup (node_ids (nodes_of attempts start)).
Proof.
  intros Hs. unfold plan_nodes, node_ids. rewrite Nat.min_l by done. rewrite !fmap_app.
  assert (forall id, id ∈ pn_id <$> drop start (imap (tool_node visible_tool_name tier attempts) intents) ->
    exists i, id = tool_node_id i) as Htool.
  { intros id (node & -> & Hin)%list_elem_of_fmap. apply list_elem_of_lookup in Hin as [k Hk].
    rewrite lookup_drop, list_lookup_imap in Hk. apply fmap_Some in Hk as (intent & _ & ->). by eexists. }
  apply NoDup_app. split_and!.
  - apply NoDup_alt. intros i j id Hi Hj. rewrite list_lookup_fmap, lookup_drop, list_lookup_imap in Hi, Hj.
    destruct (intents !! (start + i)) as [a|] eqn:Ea; [|done].
    destruct (intents !! (start + j)) as [b|] eqn:Eb; [|done]. simpl in Hi, Hj.
    apply lookup_lt_Some in Ea, Eb.
    assert (tool_node_id (start + i) = tool_node_id (start + j)) as H by congruence.
    apply (f_equal parse_tool_node_index) in H. rewrite !parse_tool_node_id in H by lia.
    injection H as H. lia.
  - intros id Hin. destruct (Htool id Hin) as [i ->].
    destruct (sl_verify_output_non_empty config); simpl; rewrite ?elem_of_cons, elem_of_nil; intros H;
      destruct_or? H; done.
  - by destruct (sl_verify_output_non_empty config); apply (bool_decide_unpack (NoDup _)); vm_compute.
Qed.

(** The plan of a round is valid exactly when it has at most sixteen nodes. *)
Theorem safe_lane_plan_valid_iff attempts start :
  0 < attempts -> start <= length intents ->
  PlanGraph_validate (plan_of attempts start) = Ok tt <-> length (nodes_of attempts start) <= 16.
Proof.
  intros Ha Hs. split.
  { intros Hv%validate_sound. pose proof (ok_max_nodes _ Hv) as Hm. simpl in Hm. lia. }
  intros Hlen. apply validate_complete. pose proof (plan_node_ids_unique attempts start Hs) as Hnd.
  assert (forall a b, plan_edge (plan_of attempts start) a b ->
    successive (node_ids (nodes_of attempts start)) a b) as Hedge.
  { intros a b (e & He & <- & <-). by apply chain_edges_successive. }
  split; simpl.
  - unfold plan_nodes. destruct (drop _ _), (sl_verify_output_non_empty config); done.
  - lia.
  - apply Forall_forall. intros node [k Hk]%list_elem_of_lookup.
    apply plan_nodes_lookup in Hk as [(intent & _ & ->)|[_ Hin]]; [|set_unfold; destruct Hin as [->|[->|[]]]; by repeat split|done].
    split_and!; simpl; [|done|lia]. by rewrite trim_visible by apply tool_node_id_visible.
  - done.
  - rewrite foldl_attempts. lia.
  - intros a b (k & Hk & Hk')%Hedge. split; by eapply list_elem_of_lookup_2.
  - intros a Htc. apply (tc_congruence (fun x => x) _ a a Hedge) in Htc. apply successive_tc in Htc as (i & j & Hij & Hi & Hj); [|done].
    assert (i = j) by (by eapply NoDup_lookup). lia.
Qed.
End plans.

(** ** The text of a turn *)

Section text.
Context {W ApprovalRequirement : Type}.
Variable format_approval_required_reply : ApprovalRequirement -> string.
Variable visible_tool_name : ToolIntent -> string.
Variable truncation_signal : string -> bool.
Variable execute_turn : ToolIntent -> M W (option (TurnResult ApprovalRequirement)).
Variable elapsed : M W Z.
Variable emit_safe_lane_event : SafeLaneEvent -> M W unit.
Variables (config : SafeLaneConfig) (lane : LaneScores) (intents : list ToolIntent).
Hypothesis intents_addressable : (Z.of_nat (length intents) <= u64_max)%Z.

Notation execute_intent := (execute_single_tool_intent format_approval_required_reply execute_turn).
Notation execute_node := (execute_safe_lane_node format_approval_required_reply execute_turn config intents).
Notation nodes_of := (plan_nodes visible_tool_name config lane intents).
Notation plan_of := (build_safe_lane_plan_graph visible_tool_name config lane intents).
Notation evaluate := (evaluate_safe_lane_round format_approval_required_reply visible_tool_name
  truncation_signal execute_turn elapsed config lane intents).
Notation run_loop := (fun fuel => safe_lane_loop format_approval_required_reply visible_tool_name
  truncation_signal execute_turn elapsed emit_safe_lane_event fuel config lane intents).

(** The engine answered the intent with this text. *)
Definition produced (intent : ToolIntent) (output : string) : Prop :=
  exists w w', execute_intent intent w = (Returned (Some (Ok output)), w').

(** The outputs collected are those of the first [n] intents. *)
Definition outputs_upto (n : nat) (outputs : list string) : Prop :=
  Forall2 produced (take n intents) outputs.

Definition seeded (s : SafeLanePlanLoopState) : Prop :=
  ls_plan_start_tool_index s <= length intents /\
  outputs_upto (ls_plan_start_tool_index s) (ls_seed_tool_outputs s) /\
  0 < ls_tool_node_max_attempts s.

Lemma execute_node_outputs attempts start k node attempt st r st' :
  start <= length intents -> nodes_of attempts start !! k = Some node ->
  execute_node node attempt st = (Returned r, st') -> outputs_upto (start + k) st.2 ->
  match r with Some (Ok _) => outputs_upto (start + S k) st'.2 | _ => outputs_upto (start + k) st'.2 end.
Proof.
  intros Hs Hk H Hi. unfold execute_safe_lane_node in H.
  apply plan_nodes_lookup in Hk as [(intent & Hint & ->)|[Hlen Hin]]; [| |done..].
  - simpl in H. rewrite parse_tool_node_id, Hint in H by (apply lookup_lt_Some in Hint; lia).
    apply bind_returned in H as (outcome & st1 & (w & Hrun & ->)%zoom_returned & H).
    destruct outcome as [[output|error]|]; rust_inv; simpl; [|done..].
    rewrite Nat.add_succ_r. unfold outputs_upto. rewrite (take_S_r _ _ intent Hint).
    apply Forall2_app; [done|]. constructor; [by eexists _, _|constructor].
  - assert (st' = st) as ->.
    { set_unfold in Hin. destruct Hin as [->|[->|[]]]; simpl in H; [|by rust_inv].
      destruct (negb _); [by rust_inv|]. apply bind_returned in H as (outputs & st1 & Hg & H).
      rust_inv. by destruct (_ || _); rust_inv. }
    unfold outputs_upto in *. rewrite take_ge in Hi by lia.
    destruct r as [[]|]; rewrite take_ge by lia; exact Hi.
Qed.

(** Where the next round starts, and from which outputs. *)
Lemma derive_cursor attempts start failure k node outputs :
  start <= length intents -> nodes_of attempts start !! k = Some node ->
  (forall id n kind message, failure = NodeFailed id n kind message ->
     id = pn_id node /\ outputs_upto (start + k) outputs) ->
  let '(start', seed) := derive_replan_cursor failure outputs (length intents) in
  start' <= length intents /\ outputs_upto start' seed.
Proof.
  intros Hs Hk Hf. assert (0 <= length intents /\ outputs_upto 0 []) as H0.
  { split; [lia|]. constructor. }
  destruct failure as [| | | |id n kind message]; [done..|].
  destruct (Hf id n kind message eq_refl) as [-> Ho]. simpl.
  apply plan_nodes_lookup in Hk as [(intent & Hint & ->)|[Hlen Hin]]; [| |done..].
  - simpl. apply lookup_lt_Some in Hint as Hlt. rewrite parse_tool_node_id by lia.
    destruct (Nat.ltb_spec (start + k) (length intents)); [|lia]. split; [lia|done].
  - set_unfold in Hin. by destruct Hin as [->|[->|[]]].
Qed.

Lemma evaluate_outputs s w ex w' :
  seeded s -> evaluate s w = (Returned ex, w') ->
  (pr_status (re_report ex) = Succeeded -> Forall2 produced intents (re_tool_outputs ex)) /\
  (forall failure, pr_status (re_report ex) = Failed failure ->
     let '(start', seed) := derive_replan_cursor failure (re_tool_outputs ex) (length intents) in
     start' <= length intents /\ outputs_upto start' seed).
Proof.
  intros (Hs & Hseed & Hatt) H. unfold evaluate_safe_lane_round in H.
  set (plan := plan_of _ _) in H.
  destruct (PlanExecutor_execute _ _ plan _) as [[report|p] st] eqn:He; [|done].
  simplify_eq. simpl.
  destruct (PlanGraph_validate plan) as [[]|error] eqn:Hv.
  2:{ unfold PlanExecutor_execute in He. rewrite Hv in He. rust_inv. split; [done|].
      intros failure Hst. simpl in Hst. simplify_eq. simpl. split; [lia|constructor]. }
  apply validate_sound in Hv.
  eapply (chain_run _ _ plan (fun k st => outputs_upto (ls_plan_start_tool_index s + k) st.2))
    in He as [Hok Hfail].
  - split.
    + intros Hst. specialize (Hok Hst). unfold outputs_upto in Hok. rewrite take_ge in Hok; [done|].
      simpl. unfold plan_nodes. rewrite Nat.min_l, length_app, length_drop, length_imap by done. lia.
    + intros failure Hst. destruct failure as [| | | |id n kind message];
        [simpl; split; [lia|constructor]..|].
      destruct (Hfail _ _ _ _ Hst) as (j & node & Hj & -> & Hup).
      eapply derive_cursor; [done|exact Hj|]. naive_solver.
  - intros k st1 t st' (w1 & _ & ->)%zoom_returned Hi. done.
  - intros k node attempt st1 r st' Hk Hrun Hi.
    exact (execute_node_outputs _ _ k node attempt st1 r st' Hs Hk Hrun Hi).
  - done.
  - done.
  - simpl. by rewrite Nat.add_0_r.
Qed.

Lemma seeded_note s start seed :
  start <= length intents -> outputs_upto start seed -> 0 < ls_tool_node_max_attempts s ->
  seeded (advance_round (note_replan start seed s)).
Proof.
  intros Hs Hseed Ha. split_and!; [done..|].
  unfold ls_tool_node_max_attempts, advance_round, EscalatingAttemptBudget_after_retry. simpl. lia.
Qed.

Lemma loop_text fuel s w outcome w' text :
  seeded s -> run_loop fuel s w = (Returned (Some outcome), w') -> to_result outcome = FinalText text ->
  exists outputs min_anchor_matches,
    text = join line_feed outputs /\ Forall2 produced intents outputs /\
  vr_passed (verify_safe_lane_final_output config text intents min_anchor_matches) = true.
Proof.
  revert s w. induction fuel as [|fuel IH]; intros s w Hseed H Ht; [by unfold safe_lane_loop in H; rust_inv|].
  cbn [safe_lane_loop] in H. apply bind_returned in H as (next & w1 & Hround & H).
  apply round_spec in Hround as (s0 & ex & w2 & w3 & Hsame & Hev & Ho).
  assert (forall s', same_plan s s' -> 0 < ls_tool_node_max_attempts s') as Hatt.
  { intros s' [_ _ Ha _ _]. unfold ls_tool_node_max_attempts. rewrite Ha. apply Hseed. }
  assert (seeded s0) as Hseed0.
  { split; [|split; [|by apply Hatt]]; destruct Hsame as [_ _ _ Hst Hsd]; rewrite Hst, ?Hsd; apply Hseed. }
  destruct (evaluate_outputs _ _ _ _ Hseed0 Hev) as [Hok Hfail].
  inversion Ho as [anchors Hst Hv| s' Hst Hlt Hs'|s' failure Hst Hlt Hs'|r route Hr]; subst; rust_inv.
  - simpl in Ht. simplify_eq. exists (re_tool_outputs ex), anchors. by split_and!; [|apply Hok|].
  - eapply IH; [|exact H|done]. apply seeded_note; [lia|constructor|by apply Hatt].
  - specialize (Hfail _ Hst). destruct (derive_replan_cursor _ _ _). destruct Hfail.
    eapply IH; [|exact H|done]. by apply seeded_note; [..|apply Hatt].
  - simpl in Ht. naive_solver.
Qed.

(** C24 (safety). A turn on the safe lane that ends in a text answers with one
    output of every tool intent, joined in the order of the intents, each an
    answer the engine gave to that intent; and that text passed the verification.
    This holds across replans, which start again at the failed tool with the
    outputs of the tools before it. *)
Theorem safe_lane_final_text fuel governor w outcome w' text :
  execute_turn_with_safe_lane_plan format_approval_required_reply visible_tool_name truncation_signal
    execute_turn elapsed emit_safe_lane_event fuel config governor lane intents w
    = (Returned (Some outcome), w') ->
  to_result outcome = FinalText text ->
  exists outputs min_anchor_matches,
    text = join line_feed outputs /\ Forall2 produced intents outputs /\
  vr_passed (verify_safe_lane_final_output config text intents min_anchor_matches) = true.
Proof.
  intros H Ht. unfold execute_turn_with_safe_lane_plan in H. apply bind_returned in H as (? & w1 & _ & H).
  eapply loop_text; [|exact H|done]. split_and!; [simpl; lia|constructor|].
  unfold ls_tool_node_max_attempts, SafeLanePlanLoopState_new, EscalatingAttemptBudget_new. simpl. lia.
Qed.
End text.
