(* ===== verification/FileDiff.v ===== *)
(** * Previews of file changes

    The line diff of [crates/app/src/tools/file.rs]: a table of longest common
    subsequences, the operations read off it, the hunks printed from them, and
    the fallback for large files.  Lengths and indices are [nat]: none of them
    exceeds the length of a vector, so nothing saturates.  Then the theorems. *)

From Stdlib Require Import Ascii.
From S2P Require Import Prelude RustStr.

Definition FILE_CHANGE_PREVIEW_MAX_LINES : nat := 8.
Definition FILE_CHANGE_PREVIEW_MAX_CHARS : nat := 1200.
Definition FILE_CHANGE_PREVIEW_MAX_COMPARISON_CELLS : N := 200000.

Inductive LineDiffKind : Type := DiffEqual | DiffDelete | DiffInsert.

#[export] Instance LineDiffKind_eq_dec : EqDecision LineDiffKind.
Proof. solve_decision. Defined.

Record LineDiffOperation : Type := { op_kind : LineDiffKind; op_line : string }.

(** ** The table *)

Section table.
Variables before_lines after_lines : list string.

Notation column_count := (length after_lines + 1).

Definition matrix_index (i j : nat) : nat := i * column_count + j.

(** [*matrix.get(..).unwrap_or(&0)]. *)
Definition matrix_get (matrix : list nat) (i j : nat) : nat := default 0 (matrix !! matrix_index i j).

Definition fill_cell (i j : nat) (matrix : list nat) : list nat :=
  match before_lines !! i, after_lines !! j with
  | Some before_line, Some after_line =>
      if decide (before_line = after_line)
      then <[matrix_index i j := S (matrix_get matrix (i + 1) (j + 1))]> matrix
      else <[matrix_index i j := Nat.max (matrix_get matrix (i + 1) j) (matrix_get matrix i (j + 1))]> matrix
  | _, _ => matrix
  end.

(** The columns below [j] of row [i], from the right. *)
Fixpoint fill_columns (i j : nat) (matrix : list nat) : list nat :=
  match j with
  | O => matrix
  | S j => fill_columns i j (fill_cell i j matrix)
  end.

(** The rows below [i], from the bottom. *)
Fixpoint fill_rows (i : nat) (matrix : list nat) : list nat :=
  match i with
  | O => matrix
  | S i => fill_rows i (fill_columns i (length after_lines) matrix)
  end.

Definition lcs_matrix : list nat :=
  fill_rows (length before_lines) (replicate ((length before_lines + 1) * column_count) 0).

(** The walk through the table while both sides have lines; the fuel is the
    number of lines left. *)
Fixpoint walk_matrix (matrix : list nat) (fuel i j : nat) : list LineDiffOperation :=
  match fuel with
  | O => []
  | S fuel =>
      match before_lines !! i, after_lines !! j with
      | Some before_line, Some after_line =>
          if decide (before_line = after_line) then
            {| op_kind := DiffEqual; op_line := before_line |} :: walk_matrix matrix fuel (i + 1) (j + 1)
          else if Nat.leb (matrix_get matrix i (j + 1)) (matrix_get matrix (i + 1) j) then
            {| op_kind := DiffDelete; op_line := before_line |} :: walk_matrix matrix fuel (i + 1) j
          else
            {| op_kind := DiffInsert; op_line := after_line |} :: walk_matrix matrix fuel i (j + 1)
      | _, _ =>
          map (Build_LineDiffOperation DiffDelete) (drop i before_lines)
          ++ map (Build_LineDiffOperation DiffInsert) (drop j after_lines)
      end
  end.

Definition build_line_diff_operations : list LineDiffOperation :=
  walk_matrix lcs_matrix (length before_lines + length after_lines + 1) 0 0.
End table.

Definition count_kind (kind : LineDiffKind) (operations : list LineDiffOperation) : nat :=
  length (base.filter (fun o => op_kind o = kind) operations).
Definition count_insert_operations : list LineDiffOperation -> nat := count_kind DiffInsert.
Definition count_delete_operations : list LineDiffOperation -> nat := count_kind DiffDelete.

(** ** Hunks *)

Record FileChangePreviewHunkBuilder : Type := {
  hk_old_start : nat; hk_new_start : nat; hk_old_len : nat; hk_new_len : nat; hk_lines : list string;
}.

Record PreviewState : Type := {
  pv_lines : list string;
  pv_emitted : nat;
  pv_omitted : nat;
  pv_hunk : option FileChangePreviewHunkBuilder;
  pv_old_line : nat;
  pv_new_line : nat;
}.

Definition fmt_nat (n : nat) : string := fmt_dec (Z.of_nat n).

Definition hunk_header (old_start old_len new_start new_len : nat) : string :=
  "@@ -" +:+ fmt_nat old_start +:+ "," +:+ fmt_nat old_len
  +:+ " +" +:+ fmt_nat new_start +:+ "," +:+ fmt_nat new_len +:+ " @@".

(** A line is shown while fewer than eight are. *)
Definition emit_line (s : PreviewState) (line : string) : PreviewState :=
  if Nat.ltb (pv_emitted s) FILE_CHANGE_PREVIEW_MAX_LINES
  then {| pv_lines := pv_lines s ++ [line]; pv_emitted := S (pv_emitted s); pv_omitted := pv_omitted s;
          pv_hunk := pv_hunk s; pv_old_line := pv_old_line s; pv_new_line := pv_new_line s |}
  else {| pv_lines := pv_lines s; pv_emitted := pv_emitted s; pv_omitted := S (pv_omitted s);
          pv_hunk := pv_hunk s; pv_old_line := pv_old_line s; pv_new_line := pv_new_line s |}.

Definition push_header (s : PreviewState) (header : string) : PreviewState :=
  {| pv_lines := pv_lines s ++ [header]; pv_emitted := pv_emitted s; pv_omitted := pv_omitted s;
     pv_hunk := None; pv_old_line := pv_old_line s; pv_new_line := pv_new_line s |}.

Definition finalize_file_change_preview_hunk (s : PreviewState) : PreviewState :=
  match pv_hunk s with
  | None => s
  | Some h =>
      foldl emit_line
        (push_header s (hunk_header (hk_old_start h) (hk_old_len h) (hk_new_start h) (hk_new_len h)))
        (hk_lines h)
  end.

Definition preview_operation (s : PreviewState) (operation : LineDiffOperation) : PreviewState :=
  let changed (prefix : string) (old new : nat) :=
    let h := default (Build_FileChangePreviewHunkBuilder (pv_old_line s) (pv_new_line s) 0 0 []) (pv_hunk s) in
    {| pv_lines := pv_lines s; pv_emitted := pv_emitted s; pv_omitted := pv_omitted s;
       pv_hunk := Some {| hk_old_start := hk_old_start h; hk_new_start := hk_new_start h;
                          hk_old_len := hk_old_len h + old; hk_new_len := hk_new_len h + new;
                          hk_lines := hk_lines h ++ [prefix +:+ op_line operation] |};
       pv_old_line := pv_old_line s + old; pv_new_line := pv_new_line s + new |} in
  match op_kind operation with
  | DiffEqual =>
      let s := finalize_file_change_preview_hunk s in
      {| pv_lines := pv_lines s; pv_emitted := pv_emitted s; pv_omitted := pv_omitted s;
         pv_hunk := pv_hunk s; pv_old_line := pv_old_line s + 1; pv_new_line := pv_new_line s + 1 |}
  | DiffDelete => changed "-" 1 0
  | DiffInsert => changed "+" 0 1
  end.

(** The text from the [n]-th character on: the bytes of the first [n] characters
    of UTF-8 text are dropped. *)
Fixpoint chars_skip (n : nat) (s : string) : string :=
  match s with
  | EmptyString => EmptyString
  | String c r =>
      if in_range 128 191 c then chars_skip n r
      else match n with O => s | S n => chars_skip n r end
  end.

(** The end of both previews: how many lines were left out, then at most 1200
    characters, from the end. *)
Definition finish_preview (omitted : nat) (preview_lines : list string) : string :=
  let preview_lines :=
    if Nat.ltb 0 omitted
    then preview_lines ++ ["… " +:+ fmt_nat omitted +:+ " more changed line(s)"]
    else preview_lines in
  let preview_text := join line_feed preview_lines in
  if Nat.leb (chars_count preview_text) FILE_CHANGE_PREVIEW_MAX_CHARS then preview_text
  else "…" +:+ chars_skip (chars_count preview_text - (FILE_CHANGE_PREVIEW_MAX_CHARS - 1)) preview_text.

Definition PreviewState_new : PreviewState :=
  {| pv_lines := []; pv_emitted := 0; pv_omitted := 0; pv_hunk := None; pv_old_line := 1; pv_new_line := 1 |}.

Definition build_file_change_preview_text_from_operations (operations : list LineDiffOperation)
  : option string :=
  if negb (existsb (fun o => negb (bool_decide (op_kind o = DiffEqual))) operations) then None else
  let s := finalize_file_change_preview_hunk (foldl preview_operation PreviewState_new operations) in
  Some (finish_preview (pv_omitted s) (pv_lines s)).

(** ** Large files *)

Fixpoint shared_prefix_line_count (before_lines after_lines : list string) : nat :=
  match before_lines, after_lines with
  | before_line :: before_lines, after_line :: after_lines =>
      if decide (before_line = after_line) then S (shared_prefix_line_count before_lines after_lines) else 0
  | _, _ => 0
  end.

(** The [while] loop: [remaining] more lines may be shared, after [suffix_len]. *)
Fixpoint shared_suffix_loop (before_lines after_lines : list string) (remaining suffix_len : nat) : nat :=
  match remaining with
  | O => suffix_len
  | S remaining =>
      match before_lines !! (length before_lines - (suffix_len + 1)),
            after_lines !! (length after_lines - (suffix_len + 1)) with
      | Some before_line, Some after_line =>
          if decide (before_line = after_line)
          then shared_suffix_loop before_lines after_lines remaining (S suffix_len) else suffix_len
      | _, _ => suffix_len
      end
  end.

Definition shared_suffix_line_count (before_lines after_lines : list string) (common_prefix_len : nat) : nat :=
  shared_suffix_loop before_lines after_lines
    (Nat.min (length before_lines - common_prefix_len) (length after_lines - common_prefix_len)) 0.

(** [slice.get(from..to).unwrap_or(&[])]. *)
Definition lines_between (lines : list string) (from to : nat) : list string :=
  if Nat.leb from to && Nat.leb to (length lines) then drop from (take to lines) else [].

Definition build_file_change_preview_text_with_boundary_fallback (common_prefix_len : nat)
    (removed_slice added_slice : list string) : option string :=
  match removed_slice, added_slice with
  | [], [] => None
  | _, _ =>
      let hunk_start := common_prefix_len + 1 in
      let s := push_header PreviewState_new
        (hunk_header hunk_start (length removed_slice) hunk_start (length added_slice)) in
      let s := foldl emit_line s (map (fun line => "-" +:+ line) removed_slice) in
      let s := foldl emit_line s (map (fun line => "+" +:+ line) added_slice) in
      Some (finish_preview (pv_omitted s) (pv_lines s))
  end.

Definition fallback_slices (before_lines after_lines : list string) : nat * list string * list string :=
  let common_prefix_len := shared_prefix_line_count before_lines after_lines in
  let common_suffix_len := shared_suffix_line_count before_lines after_lines common_prefix_len in
  (common_prefix_len,
   lines_between before_lines common_prefix_len (length before_lines - common_suffix_len),
   lines_between after_lines common_prefix_len (length after_lines - common_suffix_len)).

Definition summarize_file_change_preview_with_boundary_fallback (before_lines after_lines : list string)
  : nat * nat * option string :=
  let '(common_prefix_len, removed_slice, added_slice) := fallback_slices before_lines after_lines in
  (length added_slice, length removed_slice,
   build_file_change_preview_text_with_boundary_fallback common_prefix_len removed_slice added_slice).

Definition summarize_file_change_preview (before_lines after_lines : list string)
  : nat * nat * option string :=
  if (N.of_nat (length before_lines) * N.of_nat (length after_lines)
      <=? FILE_CHANGE_PREVIEW_MAX_COMPARISON_CELLS)%N
  then
    let operations := build_line_diff_operations before_lines after_lines in
    (count_insert_operations operations, count_delete_operations operations,
     build_file_change_preview_text_from_operations operations)
  else summarize_file_change_preview_with_boundary_fallback before_lines after_lines.

Inductive ToolFileChangeKind : Type := FileCreate | FileOverwrite | FileEdit.

Record ToolFileChangePreview : Type := {
  fc_path : string; fc_kind : ToolFileChangeKind;
  fc_added_lines : nat; fc_removed_lines : nat; fc_preview : option string;
}.

Definition split_file_preview_lines (text : string) : list string :=
  if str_is_empty text then [] else str_lines text.

Definition build_file_change_preview (path : string) (kind : ToolFileChangeKind)
    (before : option string) (after : string) : ToolFileChangePreview :=
  let before_lines := from_option split_file_preview_lines [] before in
  let after_lines := split_file_preview_lines after in
  let '(added_lines, removed_lines, preview) := summarize_file_change_preview before_lines after_lines in
  {| fc_path := path; fc_kind := kind; fc_added_lines := added_lines;
     fc_removed_lines := removed_lines; fc_preview := preview |}.

Example diff_example :
  build_file_change_preview "/f" FileEdit (Some ("a" +:+ line_feed +:+ "b" +:+ line_feed +:+ "c"))
    ("a" +:+ line_feed +:+ "x" +:+ line_feed +:+ "c" +:+ line_feed +:+ "d") =
  {| fc_path := "/f"; fc_kind := FileEdit; fc_added_lines := 2; fc_removed_lines := 1;
     fc_preview := Some (join line_feed ["@@ -2,1 +2,1 @@"; "-b"; "+x"; "@@ -4,0 +4,1 @@"; "+d"]) |}.
Proof. vm_compute. reflexivity. Qed.

(** ** Previews of file changes: theorems

    The operations of the line diff turn the old lines into the new ones with
    the fewest insertions and deletions, the counts of a preview are those of
    such a change, and its text is bounded. *)

(** ** Longest common subsequences *)

(** The reference: the length of a longest common subsequence. *)
Fixpoint lcs (l : list string) : list string -> nat :=
  fix lcs_right (r : list string) : nat :=
    match l, r with
    | a :: l', b :: r' => if decide (a = b) then S (lcs l' r') else Nat.max (lcs l' r) (lcs_right r')
    | _, _ => 0
    end.

Lemma lcs_nil_l r : lcs [] r = 0.
Proof. by destruct r. Qed.

Lemma lcs_nil_r l : lcs l [] = 0.
Proof. by destruct l. Qed.

Lemma lcs_cons a l b r :
  lcs (a :: l) (b :: r) = if decide (a = b) then S (lcs l r) else Nat.max (lcs l (b :: r)) (lcs (a :: l) r).
Proof. done. Qed.

(** A common subsequence loses at most its head with the head of a list. *)
Lemma sublist_tail (x a : string) s l : (x :: s) `sublist_of` (a :: l) -> s `sublist_of` l.
Proof.
  intros H. apply sublist_cons_r in H as [H|(s' & Hs & H)].
  - etrans; [|exact H]. by constructor.
  - by simplify_eq.
Qed.

Lemma lcs_longest l r s : s `sublist_of` l -> s `sublist_of` r -> length s <= lcs l r.
Proof.
  revert r s. induction l as [|a l IHl]; intros r.
  { intros s ->%sublist_nil_r _. simpl. lia. }
  induction r as [|b r IHr]; intros s Hl Hr; [apply sublist_nil_r in Hr as ->; simpl; lia|].
  rewrite lcs_cons. destruct (decide (a = b)) as [<-|Hne].
  - destruct s as [|x s]; [simpl; lia|]. apply sublist_tail in Hl, Hr. specialize (IHl r s Hl Hr). simpl. lia.
  - apply sublist_cons_r in Hl as [Hl|(s' & -> & Hl)]; [specialize (IHl _ _ Hl Hr); lia|].
    apply sublist_cons_r in Hr as [Hr|(s'' & Hs & Hr)]; [|naive_solver].
    assert (length (a :: s') <= lcs (a :: l) r); [|lia]. apply IHr; [by constructor|done].
Qed.

(** ** The table holds them *)

Section table.
Variables before_lines after_lines : list string.
Notation rows := (length before_lines).
Notation columns := (length after_lines).
Notation get := (matrix_get after_lines).
Notation index := (matrix_index after_lines).

Definition cell_right (matrix : list nat) (i j : nat) : Prop :=
  get matrix i j = lcs (drop i before_lines) (drop j after_lines).

(** The cells of the table that [P] picks are right. *)
Definition filled (P : nat -> nat -> Prop) (matrix : list nat) : Prop :=
  length matrix = (rows + 1) * (columns + 1) /\
  forall i j, i <= rows -> j <= columns -> P i j -> cell_right matrix i j.

Lemma matrix_index_inj i j i' j' : j <= columns -> j' <= columns -> index i j = index i' j' -> i = i' /\ j = j'.
Proof.
  unfold matrix_index. intros Hj Hj' H. assert (i = i') as ->; [|lia].
  destruct (Nat.lt_trichotomy i i') as [Hlt|[Heq|Hlt]]; [|done|]; nia.
Qed.

Lemma matrix_index_bound i j : i <= rows -> j <= columns -> index i j < (rows + 1) * (columns + 1).
Proof. unfold matrix_index. nia. Qed.

Lemma filled_set P matrix i j v :
  filled P matrix -> i <= rows -> j <= columns -> v = lcs (drop i before_lines) (drop j after_lines) ->
  filled (fun i' j' => P i' j' \/ (i' = i /\ j' = j)) (<[index i j := v]> matrix).
Proof.
  intros [Hlen H] Hi Hj Hv. split; [by rewrite length_insert|]. intros i' j' Hi' Hj' Hp.
  unfold cell_right, matrix_get. destruct (decide (i' = i /\ j' = j)) as [[-> ->]|Hne].
  - rewrite list_lookup_insert_eq by (rewrite Hlen; by apply matrix_index_bound). done.
  - rewrite list_lookup_insert_ne.
    + apply H; [done..|]. destruct Hp as [?|[-> ->]]; [done|by destruct Hne].
    + intros He. apply Hne. destruct (matrix_index_inj i j i' j'); [done..|]. by subst.
Qed.

Lemma filled_weaken (P Q : nat -> nat -> Prop) matrix :
  filled P matrix -> (forall i j, i <= rows -> j <= columns -> Q i j -> P i j) -> filled Q matrix.
Proof. intros [Hlen H] HPQ. split; [done|]. auto. Qed.

Lemma drop_step (l : list string) i x : l !! i = Some x -> drop i l = x :: drop (i + 1) l.
Proof. intros H. rewrite (drop_S l x i H). by rewrite Nat.add_1_r. Qed.

(** Row [i] from column [j] on, the rows below it and the last column. *)
Definition done_from (i j i' j' : nat) : Prop := i < i' \/ (i' = i /\ j <= j') \/ j' = columns.

Lemma fill_cell_filled i j matrix :
  i < rows -> j < columns -> filled (done_from i (S j)) matrix ->
  filled (done_from i j) (fill_cell before_lines after_lines i j matrix).
Proof.
  intros Hi Hj Hf. unfold fill_cell.
  destruct (lookup_lt_is_Some_2 before_lines i Hi) as [x Hx].
  destruct (lookup_lt_is_Some_2 after_lines j Hj) as [y Hy]. rewrite Hx, Hy.
  destruct Hf as [Hlen Hf].
  assert (cell_right matrix (i + 1) (j + 1)) as Hdiag by (apply Hf; unfold done_from; lia).
  assert (cell_right matrix (i + 1) j) as Hdown by (apply Hf; unfold done_from; lia).
  assert (cell_right matrix i (j + 1)) as Hright by (apply Hf; unfold done_from; lia).
  unfold cell_right in Hdiag, Hdown, Hright.
  apply (filled_weaken (fun i' j' => done_from i (S j) i' j' \/ (i' = i /\ j' = j))).
  2:{ unfold done_from. lia. }
  pose proof (lcs_cons x (drop (i + 1) before_lines) y (drop (j + 1) after_lines)) as Hl.
  rewrite <- (drop_step before_lines i x Hx), <- (drop_step after_lines j y Hy) in Hl.
  destruct (decide (x = y)); apply filled_set; try lia; try done; by rewrite Hl; congruence.
Qed.

Lemma fill_columns_filled i j matrix :
  i < rows -> j <= columns -> filled (done_from i j) matrix ->
  filled (done_from i 0) (fill_columns before_lines after_lines i j matrix).
Proof.
  intros Hi. revert matrix. induction j as [|j IH]; intros matrix Hj Hf; [done|]. simpl.
  apply IH; [lia|]. apply fill_cell_filled; [done|lia|done].
Qed.

Lemma fill_rows_filled i matrix :
  i <= rows -> filled (fun i' j' => i <= i' \/ j' = columns) matrix ->
  filled (fun _ _ => True) (fill_rows before_lines after_lines i matrix).
Proof.
  revert matrix. induction i as [|i IH]; intros matrix Hi Hf; simpl.
  - eapply filled_weaken; [exact Hf|]. cbv beta. lia.
  - apply IH; [lia|]. eapply filled_weaken; [apply fill_columns_filled; [lia|done|]|].
    + eapply filled_weaken; [exact Hf|]. unfold done_from. cbv beta. lia.
    + unfold done_from. cbv beta. lia.
Qed.

Lemma lcs_matrix_right i j :
  i <= rows -> j <= columns -> cell_right (lcs_matrix before_lines after_lines) i j.
Proof.
  intros Hi Hj. apply (fill_rows_filled rows (replicate ((rows + 1) * (columns + 1)) 0)); try done.
  split; [by rewrite length_replicate|]. intros i' j' Hi' Hj' Hp.
  unfold cell_right, matrix_get. rewrite lookup_replicate_2 by (by apply matrix_index_bound). simpl.
  destruct Hp as [Hp| ->].
  - rewrite (drop_ge before_lines) by lia. by rewrite lcs_nil_l.
  - rewrite (drop_ge after_lines) by lia. by rewrite lcs_nil_r.
Qed.
End table.

(** ** The operations *)

(** The lines before and after a change. *)
Definition old_side (ops : list LineDiffOperation) : list string :=
  map op_line (base.filter (fun o => op_kind o <> DiffInsert) ops).
Definition new_side (ops : list LineDiffOperation) : list string :=
  map op_line (base.filter (fun o => op_kind o <> DiffDelete) ops).

Definition kept (ops : list LineDiffOperation) : list string :=
  map op_line (base.filter (fun o => op_kind o = DiffEqual) ops).

(** Evaluate the filters on a first operation whose kind is known. *)
Ltac kind_cases := rewrite ?filter_cons; simpl; repeat case_decide; try done; simpl.

Lemma sides_lengths ops :
  length (old_side ops) = length (kept ops) + count_delete_operations ops /\
  length (new_side ops) = length (kept ops) + count_insert_operations ops.
Proof.
  unfold old_side, new_side, kept, count_delete_operations, count_insert_operations, count_kind.
  induction ops as [|[[] line] ops [IH1 IH2]]; [done|..]; kind_cases; lia.
Qed.

Lemma kept_common ops : kept ops `sublist_of` old_side ops /\ kept ops `sublist_of` new_side ops.
Proof.
  unfold old_side, new_side, kept.
  induction ops as [|[[] line] ops [IH1 IH2]]; [done|..]; kind_cases; split; try constructor; done.
Qed.

Lemma sides_deletes l : 
  old_side (map (Build_LineDiffOperation DiffDelete) l) = l /\
  new_side (map (Build_LineDiffOperation DiffDelete) l) = [] /\
  kept (map (Build_LineDiffOperation DiffDelete) l) = [].
Proof.
  unfold old_side, new_side, kept. induction l as [|x l (IH1 & IH2 & IH3)]; [done|].
  simpl. kind_cases. by rewrite IH1, IH2, IH3.
Qed.

Lemma sides_inserts l :
  old_side (map (Build_LineDiffOperation DiffInsert) l) = [] /\
  new_side (map (Build_LineDiffOperation DiffInsert) l) = l /\
  kept (map (Build_LineDiffOperation DiffInsert) l) = [].
Proof.
  unfold old_side, new_side, kept. induction l as [|x l (IH1 & IH2 & IH3)]; [done|].
  simpl. kind_cases. by rewrite IH1, IH2, IH3.
Qed.

Lemma sides_app ops ops' :
  old_side (ops ++ ops') = old_side ops ++ old_side ops' /\
  new_side (ops ++ ops') = new_side ops ++ new_side ops' /\ kept (ops ++ ops') = kept ops ++ kept ops'.
Proof. unfold old_side, new_side, kept. by rewrite !filter_app, !map_app. Qed.

Definition diff_of (b a : list string) (ops : list LineDiffOperation) : Prop :=
  old_side ops = b /\ new_side ops = a.

(** Deleting all of [b] and inserting all of [a]. *)
Lemma replace_all_sides b a :
  let ops := map (Build_LineDiffOperation DiffDelete) b ++ map (Build_LineDiffOperation DiffInsert) a in
  diff_of b a ops /\ kept ops = [].
Proof.
  intros ops. unfold diff_of. destruct (sides_app (map (Build_LineDiffOperation DiffDelete) b)
    (map (Build_LineDiffOperation DiffInsert) a)) as (H1 & H2 & H3).
  fold ops in H1, H2, H3. destruct (sides_deletes b) as (D1 & D2 & D3), (sides_inserts a) as (I1 & I2 & I3).
  rewrite H1, H2, H3, D1, D2, D3, I1, I2, I3. by rewrite app_nil_r.
Qed.

Lemma diff_cons_equal x b a ops :
  diff_of b a ops -> diff_of (x :: b) (x :: a) ({| op_kind := DiffEqual; op_line := x |} :: ops).
Proof. intros [<- <-]. unfold diff_of, old_side, new_side. by kind_cases. Qed.
Lemma diff_cons_delete x b a ops :
  diff_of b a ops -> diff_of (x :: b) a ({| op_kind := DiffDelete; op_line := x |} :: ops).
Proof. intros [<- <-]. unfold diff_of, old_side, new_side. by kind_cases. Qed.
Lemma diff_cons_insert x b a ops :
  diff_of b a ops -> diff_of b (x :: a) ({| op_kind := DiffInsert; op_line := x |} :: ops).
Proof. intros [<- <-]. unfold diff_of, old_side, new_side. by kind_cases. Qed.

Lemma kept_cons o ops :
  length (kept (o :: ops)) = if decide (op_kind o = DiffEqual) then S (length (kept ops)) else length (kept ops).
Proof. unfold kept. rewrite filter_cons. by destruct (decide _). Qed.

Section walk.
Variables before_lines after_lines : list string.
Notation matrix := (lcs_matrix before_lines after_lines).

Lemma walk_spec fuel i j :
  i <= length before_lines -> j <= length after_lines ->
  length before_lines - i + (length after_lines - j) < fuel ->
  let ops := walk_matrix before_lines after_lines matrix fuel i j in
  diff_of (drop i before_lines) (drop j after_lines) ops /\
  length (kept ops) = lcs (drop i before_lines) (drop j after_lines).
Proof.
  revert i j. induction fuel as [|fuel IH]; intros i j Hi Hj Hf; [lia|]. cbn [walk_matrix].
  destruct (replace_all_sides (drop i before_lines) (drop j after_lines)) as [Hrest Hkept].
  destruct (before_lines !! i) as [x|] eqn:Hx.
  2:{ split; [done|]. rewrite Hkept. apply lookup_ge_None in Hx.
      rewrite (drop_ge before_lines) by lia. by rewrite lcs_nil_l. }
  destruct (after_lines !! j) as [y|] eqn:Hy.
  2:{ split; [done|]. rewrite Hkept. apply lookup_ge_None in Hy.
      rewrite (drop_ge after_lines) by lia. by rewrite lcs_nil_r. }
  clear Hrest Hkept. apply lookup_lt_Some in Hx as Hxl. apply lookup_lt_Some in Hy as Hyl.
  pose proof (lcs_matrix_right before_lines after_lines (i + 1) j ltac:(lia) ltac:(lia)) as Hdown.
  pose proof (lcs_matrix_right before_lines after_lines i (j + 1) ltac:(lia) ltac:(lia)) as Hright.
  unfold cell_right in Hdown, Hright. rewrite Hdown, Hright.
  rewrite (drop_step before_lines i x Hx), (drop_step after_lines j y Hy) in *.
  rewrite lcs_cons. destruct (decide (x = y)) as [<-|Hne].
  - destruct (IH (i + 1) (j + 1)) as [Hd Hk]; [lia..|]. split; [by apply diff_cons_equal|].
    rewrite kept_cons, decide_True by done. by rewrite Hk.
  - destruct (Nat.leb_spec (lcs (x :: drop (i + 1) before_lines) (drop (j + 1) after_lines))
      (lcs (drop (i + 1) before_lines) (y :: drop (j + 1) after_lines))).
    + destruct (IH (i + 1) j) as [Hd Hk]; [lia..|]. rewrite (drop_step after_lines j y Hy) in Hd, Hk.
      split; [by apply diff_cons_delete|]. rewrite kept_cons, decide_False by done. rewrite Hk. lia.
    + destruct (IH i (j + 1)) as [Hd Hk]; [lia..|]. rewrite (drop_step before_lines i x Hx) in Hd, Hk.
      split; [by apply diff_cons_insert|]. rewrite kept_cons, decide_False by done. rewrite Hk. lia.
Qed.
End walk.

Lemma build_line_diff_spec b a :
  diff_of b a (build_line_diff_operations b a) /\
  length (kept (build_line_diff_operations b a)) = lcs b a.
Proof. apply (walk_spec b a _ 0 0); lia. Qed.

(** C6 (equivalence). The operations of a line diff are a shortest change: read
    without the inserted lines they are the old lines, without the deleted ones
    the new lines, and no other operations with those two readings insert and
    delete fewer lines. *)
Theorem line_diff_shortest before_lines after_lines :
  let ops := build_line_diff_operations before_lines after_lines in
  diff_of before_lines after_lines ops /\
  forall ops', diff_of before_lines after_lines ops' ->
    count_insert_operations ops + count_delete_operations ops
    <= count_insert_operations ops' + count_delete_operations ops'.
Proof.
  intros ops. destruct (build_line_diff_spec before_lines after_lines) as [Hd Hk].
  fold ops in Hd, Hk. clearbody ops. split; [done|]. intros ops' Hd'.
  destruct (sides_lengths ops) as [L1 L2], (sides_lengths ops') as [L1' L2'].
  destruct (kept_common ops') as [K1 K2].
  destruct Hd as [E1 E2], Hd' as [E1' E2']. rewrite E1' in K1. rewrite E2' in K2.
  pose proof (lcs_longest _ _ _ K1 K2). rewrite <- Hk in H.
  rewrite E1 in L1. rewrite E2 in L2. rewrite E1' in L1'. rewrite E2' in L2'. lia.
Qed.

(** ** Large files *)

Lemma shared_prefix_spec b a :
  shared_prefix_line_count b a <= length b /\ shared_prefix_line_count b a <= length a /\
  take (shared_prefix_line_count b a) b = take (shared_prefix_line_count b a) a.
Proof.
  revert a. induction b as [|x b IH]; intros [|y a]; simpl; try (split_and!; [lia..|done]).
  destruct (decide (x = y)) as [<-|]; simpl; [|split_and!; [lia..|done]].
  destruct (IH a) as (? & ? & ->). split_and!; [lia..|done].
Qed.

Lemma shared_suffix_spec b a remaining n :
  (forall k, k < n -> b !! (length b - (k + 1)) = a !! (length a - (k + 1))) ->
  let r := shared_suffix_loop b a remaining n in
  n <= r <= n + remaining /\ forall k, k < r -> b !! (length b - (k + 1)) = a !! (length a - (k + 1)).
Proof.
  revert n. induction remaining as [|m IH]; intros n Hn; simpl; [split; [lia|done]|].
  destruct (b !! (length b - (n + 1))) as [x|] eqn:Hb; [|split; [lia|done]].
  destruct (a !! (length a - (n + 1))) as [y|] eqn:Ha; [|split; [lia|done]].
  destruct (decide (x = y)) as [<-|]; [|split; [lia|done]].
  destruct (IH (S n)) as [Hr Hk]; [|split; [lia|done]].
  intros k Hk. destruct (decide (k = n)) as [->|]; [congruence|apply Hn; lia].
Qed.

Lemma fallback_slices_spec b a p removed added :
  fallback_slices b a = (p, removed, added) ->
  exists prefix suffix, b = prefix ++ removed ++ suffix /\ a = prefix ++ added ++ suffix.
Proof.
  unfold fallback_slices, shared_suffix_line_count. destruct (shared_prefix_spec b a) as (Hb & Ha & Hp).
  set (q := shared_prefix_line_count b a) in *. clearbody q.
  destruct (shared_suffix_spec b a (Nat.min (length b - q) (length a - q)) 0) as [Hr Hs]; [intros; lia|].
  set (s := shared_suffix_loop _ _ _ _) in *. clearbody s. intros H. simplify_eq.
  unfold lines_between. destruct (Nat.leb_spec p (length b - s)); [|lia].
  destruct (Nat.leb_spec (length b - s) (length b)); [|lia].
  destruct (Nat.leb_spec p (length a - s)); [|lia].
  destruct (Nat.leb_spec (length a - s) (length a)); [|lia]. simpl.
  exists (take p b), (drop (length b - s) b). split.
  - rewrite <- (take_drop (length b - s) b) at 1. rewrite <- (take_drop p (take (length b - s) b)) at 1.
    rewrite take_take, Nat.min_l by lia. by rewrite <- app_assoc.
  - assert (drop (length b - s) b = drop (length a - s) a) as ->.
    { apply list_eq. intros i. rewrite !lookup_drop. destruct (decide (i < s)).
      - specialize (Hs (s - 1 - i)). replace (length b - s + i) with (length b - (s - 1 - i + 1)) by lia.
        replace (length a - s + i) with (length a - (s - 1 - i + 1)) by lia. apply Hs. lia.
      - rewrite !lookup_ge_None_2; [done|lia..]. }
    rewrite Hp. rewrite <- (take_drop (length a - s) a) at 1. rewrite <- (take_drop p (take (length a - s) a)) at 1.
    rewrite take_take, Nat.min_l by lia. by rewrite <- app_assoc.
Qed.

Lemma fallback_slices_same b : exists p, fallback_slices b b = (p, [], []).
Proof.
  unfold fallback_slices, shared_suffix_line_count.
  assert (shared_prefix_line_count b b = length b) as ->.
  { induction b as [|x b IH]; [done|]. simpl. rewrite decide_True by done. by rewrite IH. }
  rewrite Nat.sub_diag. simpl. rewrite Nat.sub_0_r. unfold lines_between.
  rewrite Nat.leb_refl. simpl. rewrite firstn_all, drop_all. by eexists.
Qed.

Lemma sides_equals l :
  diff_of l l (map (Build_LineDiffOperation DiffEqual) l) /\
  kept (map (Build_LineDiffOperation DiffEqual) l) = l.
Proof.
  unfold diff_of, old_side, new_side, kept. induction l as [|x l [[IH1 IH2] IH3]]; [done|].
  simpl. kind_cases. by rewrite IH1, IH2, IH3.
Qed.

Lemma diff_of_app b a ops b' a' ops' :
  diff_of b a ops -> diff_of b' a' ops' -> diff_of (b ++ b') (a ++ a') (ops ++ ops').
Proof.
  intros [<- <-] [<- <-]. by destruct (sides_app ops ops') as (? & ? & _).
Qed.

Lemma kept_app ops ops' : kept (ops ++ ops') = kept ops ++ kept ops'.
Proof. apply sides_app. Qed.

Lemma diff_counts b a ops :
  diff_of b a ops ->
  count_insert_operations ops = length a - length (kept ops) /\
  count_delete_operations ops = length b - length (kept ops).
Proof. intros [<- <-]. destruct (sides_lengths ops). lia. Qed.

(** Lines replaced between a common prefix and a common suffix. *)
Lemma replacement_diff prefix removed added suffix :
  exists ops, diff_of (prefix ++ removed ++ suffix) (prefix ++ added ++ suffix) ops /\
    count_insert_operations ops = length added /\ count_delete_operations ops = length removed.
Proof.
  destruct (sides_equals prefix) as [D1 K1], (sides_equals suffix) as [D3 K3].
  destruct (replace_all_sides removed added) as [D2 K2].
  pose proof (diff_of_app _ _ _ _ _ _ D1 (diff_of_app _ _ _ _ _ _ D2 D3)) as Hd.
  eexists. split; [exact Hd|]. destruct (diff_counts _ _ _ Hd) as [-> ->].
  rewrite kept_app, (kept_app (_ ++ _)), K1, K2, K3, !length_app. simpl. lia.
Qed.

(** ** The text of a preview *)

Lemma chars_count_app s t : chars_count (s +:+ t) = chars_count s + chars_count t.
Proof.
  induction s as [|c s IH]; [done|]. rewrite str_app_cons. simpl. rewrite IH. by destruct (in_range _ _ _).
Qed.

Lemma chars_count_skip n s : chars_count (chars_skip n s) = chars_count s - n.
Proof.
  revert n. induction s as [|c s IH]; intros n; [done|]. simpl.
  destruct (in_range 128 191 c) eqn:Hc; [apply IH|]. destruct n as [|n]; [by simpl; rewrite Hc|].
  by rewrite IH.
Qed.

Lemma finish_preview_bound omitted lines :
  chars_count (finish_preview omitted lines) <= FILE_CHANGE_PREVIEW_MAX_CHARS.
Proof.
  unfold finish_preview. set (text := join _ _). clearbody text.
  destruct (Nat.leb_spec (chars_count text) FILE_CHANGE_PREVIEW_MAX_CHARS); [done|].
  rewrite chars_count_app, chars_count_skip.
  replace (chars_count "…") with 1 by reflexivity. unfold FILE_CHANGE_PREVIEW_MAX_CHARS in *. lia.
Qed.

Lemma no_changes ops :
  existsb (fun o => negb (bool_decide (op_kind o = DiffEqual))) ops = false <->
  count_insert_operations ops = 0 /\ count_delete_operations ops = 0.
Proof.
  unfold count_insert_operations, count_delete_operations, count_kind.
  induction ops as [|[[] line] ops IH]; simpl; [done|..]; kind_cases; naive_solver lia.
Qed.

Lemma sublist_full (l1 l2 : list string) : l1 `sublist_of` l2 -> length l2 <= length l1 -> l1 = l2.
Proof.
  induction 1 as [|x l1 l2 H IH|x l1 l2 H IH]; simpl; intros Hl; [done|f_equal; apply IH; lia|].
  apply sublist_length in H. lia.
Qed.

Lemma line_diff_same b a :
  count_insert_operations (build_line_diff_operations b a) = 0 /\
  count_delete_operations (build_line_diff_operations b a) = 0 <-> b = a.
Proof.
  destruct (build_line_diff_spec b a) as [[E1 E2] Hk].
  destruct (sides_lengths (build_line_diff_operations b a)) as [L1 L2].
  destruct (kept_common (build_line_diff_operations b a)) as [K1 K2].
  rewrite E1 in L1, K1. rewrite E2 in L2, K2. split.
  - intros [H1 H2]. assert (kept (build_line_diff_operations b a) = b) as Hb
      by (apply sublist_full; [done|lia]).
    assert (kept (build_line_diff_operations b a) = a) as Ha
      by (apply sublist_full; [done|lia]). congruence.
  - intros <-. pose proof (lcs_longest b b b ltac:(done) ltac:(done)). lia.
Qed.

(** The preview of a file change tells the truth: the counts of
    added and removed lines are those of operations that turn the old lines into
    the new ones (for large files too, where only a common prefix and suffix are
    set aside), there is no text exactly when no line changed, and the text has
    at most 1200 characters. *)
Theorem file_change_preview_faithful path kind before after :
  let preview := build_file_change_preview path kind before after in
  let before_lines := from_option split_file_preview_lines [] before in
  let after_lines := split_file_preview_lines after in
  (exists ops, diff_of before_lines after_lines ops /\
     count_insert_operations ops = fc_added_lines preview /\
     count_delete_operations ops = fc_removed_lines preview) /\
  match fc_preview preview with
  | None => before_lines = after_lines
  | Some text => before_lines <> after_lines /\ chars_count text <= FILE_CHANGE_PREVIEW_MAX_CHARS
  end.
Proof.
  intros preview b a. subst preview. unfold build_file_change_preview. fold b a. clearbody b a.
  unfold summarize_file_change_preview. destruct (_ <=? _)%N.
  - cbn [fc_added_lines fc_removed_lines fc_preview]. split; [exists (build_line_diff_operations b a); by destruct (build_line_diff_spec b a)|].
    unfold build_file_change_preview_text_from_operations. pose proof (line_diff_same b a) as Hs.
    destruct (existsb _ _) eqn:He; simpl.
    + split; [|apply finish_preview_bound]. intros H%Hs%no_changes. congruence.
    + by apply Hs, no_changes.
  - unfold summarize_file_change_preview_with_boundary_fallback.
    destruct (fallback_slices b a) as [[p removed] added] eqn:Hf. simpl.
    assert (b = a -> removed = [] /\ added = []) as Hsame.
    { intros <-. destruct (fallback_slices_same b) as [q Hq]. naive_solver congruence. }
    apply fallback_slices_spec in Hf as (prefix & suffix & -> & ->). split.
    { apply replacement_diff. }
    destruct removed as [|x removed], added as [|y added]; simpl; [done|..];
      (split; [intros H%Hsame; naive_solver|apply finish_preview_bound]).
Qed.
