(* ===== verification/FileEdit.v ===== *)
(** * Reading and editing text

    The pure part of the file tools of [crates/app/src/tools/file.rs]: the window
    of lines [file.read] answers, the requests of [file.edit] and the edits
    themselves.  Positions are byte offsets; text is UTF-8, so a match of a
    pattern starts and ends at character boundaries.  Then the theorems. *)

From Stdlib Require Import Ascii.
From S2P Require Import Prelude RustStr Contracts Json.

(** ** file.read *)

Record FileReadSelection : Type := {
  rs_content : string;
  rs_truncated : bool;
  rs_line_start : option nat;
  rs_line_end : option nat;
  rs_total_lines : option nat;
  rs_next_offset : option nat;
}.

Definition optional_positive_usize_field (payload : list (string * json)) (field_name : string)
  : result (option Z) string :=
  let message := "file.read payload." +:+ field_name +:+ " must be a positive integer" in
  match fields_get field_name payload with
  | None => Ok None
  | Some value =>
      match json_as_u64 value with
      | None => Err message
      | Some raw_value => if (raw_value =? 0)%Z then Err message else Ok (Some raw_value)
      end
  end.

(** The first [n] bytes. *)
Fixpoint str_take (n : nat) (s : string) : string :=
  match n, s with
  | S n, String c r => String c (str_take n r)
  | _, _ => EmptyString
  end.

Definition clip_file_read_content (content : string) (max_bytes : nat) : FileReadSelection :=
  let truncated := Nat.ltb max_bytes (String.length content) in
  {| rs_content := utf8_lossy (if truncated then str_take max_bytes content else content);
     rs_truncated := truncated;
     rs_line_start := None; rs_line_end := None; rs_total_lines := None; rs_next_offset := None |}.

Definition fmt_usize (n : nat) : string := fmt_dec (Z.of_nat n).

(** [offset] and [limit] are positive.  The slice of the selected lines is always
    in bounds: [start_index < total_lines] and [start_index <= end_index]. *)
Definition select_file_read_content (file_text : string) (max_bytes : nat) (offset limit : option nat)
  : result FileReadSelection string :=
  match offset, limit with
  | None, None => Ok (clip_file_read_content file_text max_bytes)
  | _, _ =>
      let all_lines := split_char newline_char file_text in
      let total_lines := length all_lines in
      let line_start := default 1 offset in
      if Nat.ltb total_lines line_start
      then Err ("offset " +:+ fmt_usize line_start +:+ " is beyond end of file ("
                +:+ fmt_usize total_lines +:+ " lines total)") else
      let start_index := line_start - 1 in
      let requested_line_count := default (total_lines - start_index) limit in
      let end_index := Nat.min (start_index + requested_line_count) total_lines in
      let selected_content := join line_feed (drop start_index (take end_index all_lines)) in
      let selection := clip_file_read_content selected_content max_bytes in
      Ok {| rs_content := rs_content selection;
            rs_truncated := rs_truncated selection;
            rs_line_start := Some line_start;
            rs_line_end := Some end_index;
            rs_total_lines := Some total_lines;
            rs_next_offset := if Nat.ltb end_index total_lines then Some (end_index + 1) else None |}
  end.

(** ** file.edit: requests *)

Record ExactTextEditBlock : Type := { eb_old_text : string; eb_new_text : string }.

Inductive FileEditRequest : Type :=
| ExactBlocks (blocks : list ExactTextEditBlock)
| LegacySingle (old_string new_string : string) (replace_all : bool).

Definition json_as_array (v : json) : option (list json) :=
  match v with JArray items => Some items | _ => None end.

Definition json_as_bool (v : json) : option bool :=
  match v with JBool b => Some b | _ => None end.

Definition payload_optional_edit_string_field (payload : list (string * json)) (field_name : string)
  : result (option string) string :=
  match fields_get field_name payload with
  | None => Ok None
  | Some value =>
      let* s := ok_or (json_as_str value)
                  ("file.edit payload." +:+ field_name +:+ " must be a string") in
      Ok (Some s)
  end.

Definition exact_edit_block_field (block : list (string * json)) (snake_case_field camel_case_field : string)
  : option string :=
  match fields_get snake_case_field block ≫= json_as_str with
  | Some s => Some s
  | None => fields_get camel_case_field block ≫= json_as_str
  end.

Definition parse_exact_edit_block (index : nat) (raw_block : json) : result ExactTextEditBlock string :=
  let edits := "edits[" +:+ fmt_usize index +:+ "]" in
  let* block := ok_or (json_as_object raw_block) ("file.edit payload." +:+ edits +:+ " must be an object") in
  let* old_text := ok_or (exact_edit_block_field block "old_text" "oldText")
                     ("file.edit payload." +:+ edits +:+ ".old_text must be a string") in
  if str_is_empty old_text then Err ("edit_failed: " +:+ edits +:+ ".old_text must not be empty") else
  let* new_text := ok_or (exact_edit_block_field block "new_text" "newText")
                     ("file.edit payload." +:+ edits +:+ ".new_text must be a string") in
  Ok {| eb_old_text := old_text; eb_new_text := new_text |}.

Fixpoint parse_blocks_from (index : nat) (blocks : list json) : result (list ExactTextEditBlock) string :=
  match blocks with
  | [] => Ok []
  | raw_block :: blocks =>
      let* block := parse_exact_edit_block index raw_block in
      let* rest := parse_blocks_from (S index) blocks in
      Ok (block :: rest)
  end.

Definition parse_exact_edit_blocks (payload : list (string * json))
  : result (option (list ExactTextEditBlock)) string :=
  match fields_get "edits" payload with
  | None => Ok None
  | Some raw_blocks =>
      let* blocks := ok_or (json_as_array raw_blocks) "file.edit payload.edits must be an array" in
      match blocks with
      | [] => Err "file.edit payload.edits must contain at least one edit block"
      | _ => let* parsed := parse_blocks_from 0 blocks in Ok (Some parsed)
      end
  end.

Definition parse_file_edit_request (payload : list (string * json)) : result FileEditRequest string :=
  let* parsed_blocks := parse_exact_edit_blocks payload in
  let* old_string := payload_optional_edit_string_field payload "old_string" in
  let* new_string := payload_optional_edit_string_field payload "new_string" in
  let replace_all := default false (fields_get "replace_all" payload ≫= json_as_bool) in
  let present {A} (o : option A) := match o with Some _ => true | None => false end in
  if present parsed_blocks
     && (present old_string || present new_string || present (fields_get "replace_all" payload))
  then Err "file.edit does not allow mixing `edits` with legacy `old_string` / `new_string` fields" else
  match parsed_blocks with
  | Some blocks => Ok (ExactBlocks blocks)
  | None =>
      let* old_string := ok_or old_string
        "file.edit requires payload.edits, or legacy payload.old_string and payload.new_string" in
      let* new_string := ok_or new_string "file.edit requires payload.new_string (string)" in
      if str_is_empty old_string then Err "edit_failed: old_string must not be empty"
      else Ok (LegacySingle old_string new_string replace_all)
  end.

(** ** file.edit: edits *)

(** [str::match_indices] of a pattern that is not empty: the offsets of the
    matches from the left that do not overlap.  [skip] bytes belong to the last
    match. *)
Fixpoint match_indices_from (pattern : string) (skip offset : nat) (s : string) : list nat :=
  match s with
  | EmptyString => []
  | String _ r =>
      match skip with
      | S skip => match_indices_from pattern skip (S offset) r
      | O =>
          if starts_with pattern s
          then offset :: match_indices_from pattern (String.length pattern - 1) (S offset) r
          else match_indices_from pattern 0 (S offset) r
      end
  end.

Definition match_indices (pattern s : string) : list nat := match_indices_from pattern 0 0 s.

Record LocatedExactTextEditBlock : Type := { lb_start : nat; lb_end : nat; lb_block : ExactTextEditBlock }.

Definition locate_exact_edit_block (content : string) (index : nat) (block : ExactTextEditBlock)
  : result LocatedExactTextEditBlock string :=
  match match_indices (eb_old_text block) content with
  | [] => Err ("edit_failed: edits[" +:+ fmt_usize index +:+ "].old_text not found in file")
  | [start] =>
      Ok {| lb_start := start; lb_end := start + String.length (eb_old_text block); lb_block := block |}
  | match_offsets =>
      Err ("edit_failed: edits[" +:+ fmt_usize index +:+ "].old_text matches "
           +:+ fmt_usize (length match_offsets)
           +:+ " locations; each edit block must match uniquely in the original file")
  end.

Fixpoint locate_blocks_from (content : string) (index : nat) (blocks : list ExactTextEditBlock)
  : result (list LocatedExactTextEditBlock) string :=
  match blocks with
  | [] => Ok []
  | block :: blocks =>
      let* located := locate_exact_edit_block content index block in
      let* rest := locate_blocks_from content (S index) blocks in
      Ok (located :: rest)
  end.

Definition starts_before (left right : LocatedExactTextEditBlock) : Prop := lb_start left <= lb_start right.

(** [windows(2)] with [left.end > right.start]. *)
Fixpoint blocks_overlap (located : list LocatedExactTextEditBlock) : bool :=
  match located with
  | first :: (second :: _) as rest => Nat.ltb (lb_start second) (lb_end first) || blocks_overlap rest
  | _ => false
  end.

(** [content[from..to]], which panics unless [from <= to <= content.len()] (the
    offsets are at character boundaries). *)
Definition str_slice (content : string) (from to : nat) : outcome string :=
  if Nat.leb from to && Nat.leb to (String.length content)
  then Returned (str_take (to - from) (str_drop from content))
  else Panicked (PanicStr "byte index out of range").

(** The loop that copies the text between the blocks, from [cursor] on. *)
Fixpoint weave (content : string) (cursor : nat) (located : list LocatedExactTextEditBlock) : outcome string :=
  match located with
  | [] => str_slice content cursor (String.length content)
  | block :: located =>
      match str_slice content cursor (lb_start block) with
      | Panicked p => Panicked p
      | Returned before =>
          match weave content (lb_end block) located with
          | Panicked p => Panicked p
          | Returned after => Returned (before +:+ eb_new_text (lb_block block) +:+ after)
          end
      end
  end.

#[export] Instance starts_before_dec : RelDecision starts_before.
Proof. unfold starts_before. solve_decision. Defined.

Definition apply_exact_edit_blocks (content : string) (blocks : list ExactTextEditBlock)
  : outcome (result (string * nat) string) :=
  match locate_blocks_from content 0 blocks with
  | Err e => Returned (Err e)
  | Ok located =>
      let located := merge_sort starts_before located in
      if blocks_overlap located
      then Returned (Err "edit_failed: edit blocks overlap in the original file; merge nested or overlapping edits into one block")
      else match weave content 0 located with
           | Panicked p => Panicked p
           | Returned updated => Returned (Ok (updated, length located))
           end
  end.

(** [str::replacen] of a pattern that is not empty: the first [count] matches. *)
Fixpoint replacen_from (pattern new : string) (count skip : nat) (s : string) : string :=
  match s with
  | EmptyString => EmptyString
  | String c r =>
      match skip with
      | S skip => replacen_from pattern new count skip r
      | O =>
          match count with
          | S count' =>
              if starts_with pattern s
              then new +:+ replacen_from pattern new count' (String.length pattern - 1) r
              else String c (replacen_from pattern new count 0 r)
          | O => s
          end
      end
  end.

Definition replacen (content pattern new : string) (count : nat) : string :=
  replacen_from pattern new count 0 content.

(** [str::replace]: every match; there are at most as many as bytes. *)
Definition replace_every (content pattern new : string) : string :=
  replacen content pattern new (String.length content).

Definition apply_legacy_single_edit (content old_string new_string : string) (replace_all : bool)
  : result (string * nat) string :=
  let match_count := length (match_indices old_string content) in
  if Nat.eqb match_count 0 then Err "edit_failed: old_string not found in file" else
  if Nat.ltb 1 match_count && negb replace_all
  then Err ("edit_failed: old_string matches " +:+ fmt_usize match_count
            +:+ " locations; set replace_all:true to replace all occurrences") else
  Ok (if replace_all then (replace_every content old_string new_string, match_count)
      else (replacen content old_string new_string 1, 1)).

Example edit_blocks_example :
  apply_exact_edit_blocks "one two three" [Build_ExactTextEditBlock "three" "3"; Build_ExactTextEditBlock "one" "1"]
  = Returned (Ok ("1 two 3", 2)).
Proof. vm_compute. reflexivity. Qed.
Example edit_overlap_example :
  apply_exact_edit_blocks "abcd" [Build_ExactTextEditBlock "abc" "x"; Build_ExactTextEditBlock "cd" "y"]
  = Returned (Err "edit_failed: edit blocks overlap in the original file; merge nested or overlapping edits into one block").
Proof. vm_compute. reflexivity. Qed.
Example replace_all_example :
  apply_legacy_single_edit "aaa-aa" "aa" "b" true = Ok ("ba-b", 2).
Proof. vm_compute. reflexivity. Qed.

(** ** Reading and editing text: theorems

    What an edit changes and what it keeps, when it is refused, and that reading
    a file page by page gives the whole file. *)

(** ** Slices *)

Lemma str_drop_app s t : str_drop (String.length s) (s +:+ t) = t.
Proof. induction s as [|c s IH]; [done|]. by rewrite str_app_cons. Qed.

Lemma str_take_app s t : str_take (String.length s) (s +:+ t) = s.
Proof. induction s as [|c s IH]; [by destruct t|]. rewrite str_app_cons. simpl. by rewrite IH. Qed.

Lemma str_take_drop n s : str_take n s +:+ str_drop n s = s.
Proof.
  revert s. induction n as [|n IH]; intros [|c s]; simpl; try done. rewrite str_app_cons. by rewrite IH.
Qed.

Lemma str_drop_drop n m s : str_drop n (str_drop m s) = str_drop (m + n) s.
Proof. revert s. induction m as [|m IH]; intros [|c s]; simpl; try done. by destruct n. Qed.

Lemma str_length_drop n s : String.length (str_drop n s) = String.length s - n.
Proof. revert s. induction n as [|n IH]; intros [|c s]; simpl; try done. Qed.

Lemma str_take_all s : str_take (String.length s) s = s.
Proof. induction s as [|c s IH]; [done|]. simpl. by rewrite IH. Qed.

(** ** Matches *)

Lemma match_indices_skip p k off s :
  match_indices_from p k off s = match_indices_from p 0 (off + k) (str_drop k s).
Proof.
  revert off s. induction k as [|k IH]; intros off [|c s]; simpl; try done.
  - by rewrite Nat.add_0_r.
  - by rewrite IH, Nat.add_succ_comm.
Qed.

Lemma match_indices_hit p off t :
  p <> "" -> match_indices_from p 0 off (p +:+ t) = off :: match_indices_from p 0 (off + String.length p) t.
Proof.
  intros Hp. destruct p as [|c p]; [done|].
  assert (starts_with (String c p) (String c p +:+ t) = true) as Hs by (apply starts_with_spec; by exists t).
  rewrite str_app_cons in Hs |- *. cbn [match_indices_from]. rewrite Hs. f_equal.
  rewrite match_indices_skip. simpl. rewrite Nat.sub_0_r, str_drop_app. f_equal. lia.
Qed.

Lemma match_indices_sound p off s k :
  k ∈ match_indices_from p 0 off s -> exists i t, k = off + i /\ str_drop i s = p +:+ t /\ i < String.length s.
Proof.
  revert off. induction s as [|c r IH] using string_long_ind; intros off; [by intros ?%not_elem_of_nil|].
  assert (forall i off, k ∈ match_indices_from p 0 off (str_drop i r) ->
    exists j t, k = off + j /\ str_drop j (str_drop i r) = p +:+ t /\ j < String.length (str_drop i r)) as IH'.
  { intros i off'. apply IH. rewrite str_length_drop. lia. }
  cbn [match_indices_from]. destruct (starts_with p (String c r)) eqn:Hs.
  - intros [->|Hk]%elem_of_cons.
    + apply starts_with_spec in Hs as [t Ht]. exists 0, t. split_and!; [lia|done|simpl; lia].
    + rewrite match_indices_skip in Hk. apply IH' in Hk as (j & t & -> & Hd & Hj).
      rewrite str_drop_drop in Hd. rewrite str_length_drop in Hj.
      exists (S (String.length p - 1 + j)), t. split_and!; [lia|done|simpl; lia].
  - intros Hk. apply (IH' 0) in Hk as (j & t & -> & Hd & Hj). simpl in Hd, Hj.
    exists (S j), t. split_and!; [lia|done|simpl; lia].
Qed.

Lemma match_indices_length p k off s : length (match_indices_from p k off s) <= String.length s.
Proof.
  revert k off. induction s as [|c s IH]; intros k off; simpl; [lia|].
  destruct k as [|k]; [|specialize (IH k (S off)); lia].
  destruct (starts_with _ _); simpl; [specialize (IH (String.length p - 1) (S off))|specialize (IH 0 (S off))]; lia.
Qed.

(** ** Edit blocks *)

(** Text with blocks in it, each shown by one side. *)
Fixpoint interleave (side : ExactTextEditBlock -> string) (first : string)
    (rest : list (ExactTextEditBlock * string)) : string :=
  match rest with
  | [] => first
  | (block, after) :: rest => first +:+ side block +:+ interleave side after rest
  end.

(** The place found for a block holds its old text. *)
Definition located_in (content : string) (l : LocatedExactTextEditBlock) : Prop :=
  match_indices (eb_old_text (lb_block l)) content = [lb_start l] /\
  lb_end l = lb_start l + String.length (eb_old_text (lb_block l)) /\
  str_drop (lb_start l) content = eb_old_text (lb_block l) +:+ str_drop (lb_end l) content.

Lemma locate_spec content index block :
  match locate_exact_edit_block content index block with
  | Ok l => lb_block l = block /\ located_in content l
  | Err _ => length (match_indices (eb_old_text block) content) <> 1
  end.
Proof.
  unfold locate_exact_edit_block. destruct (match_indices _ _) as [|start [|]] eqn:Hm; simpl; [lia| |lia].
  split; [done|]. split_and!; [done..|]. simpl.
  assert (start ∈ match_indices (eb_old_text block) content) as Hin by (rewrite Hm; by left).
  apply match_indices_sound in Hin as (i & t & -> & Hd & Hi). simpl in *. rewrite Hd. f_equal.
  rewrite <- str_drop_drop, Hd. by rewrite str_drop_app.
Qed.

Lemma locate_blocks_spec content index blocks :
  match locate_blocks_from content index blocks with
  | Ok ls => map lb_block ls = blocks /\ Forall (located_in content) ls
  | Err _ => Exists (fun b => length (match_indices (eb_old_text b) content) <> 1) blocks
  end.
Proof.
  revert index. induction blocks as [|b blocks IH]; intros index; simpl; [done|].
  pose proof (locate_spec content index b) as Hb. specialize (IH (S index)).
  destruct (locate_exact_edit_block content index b) as [l|e]; simpl; [|by left].
  destruct (locate_blocks_from content (S index) blocks) as [ls|e]; simpl; [|by right].
  destruct Hb as [<- ?], IH as [<- ?]. split; [done|by constructor].
Qed.

Lemma weave_spec content cursor ls :
  Forall (located_in content) ls -> blocks_overlap ls = false -> cursor <= String.length content ->
  (forall l, head ls = Some l -> cursor <= lb_start l) ->
  exists first rest, map fst rest = map lb_block ls /\
    str_drop cursor content = interleave eb_old_text first rest /\
    weave content cursor ls = Returned (interleave eb_new_text first rest).
Proof.
  revert cursor. induction ls as [|l ls IH]; intros cursor Hl Ho Hc Hh; simpl.
  - exists (str_drop cursor content), []. split_and!; [done..|]. unfold str_slice. simpl.
    destruct (Nat.leb_spec cursor (String.length content)); [|lia]. rewrite Nat.leb_refl. simpl.
    by rewrite <- str_length_drop, str_take_all.
  - apply Forall_cons in Hl as [(Hm & He & Hd) Hl]. specialize (Hh l eq_refl).
    assert (lb_end l <= String.length content) as Hend.
    { assert (lb_start l ∈ match_indices (eb_old_text (lb_block l)) content) as Hin by (rewrite Hm; by left).
      apply match_indices_sound in Hin as (i & t & Hi & Hd' & Hlt). simpl in Hi. rewrite <- Hi in *.
      apply (f_equal String.length) in Hd'. rewrite str_length_drop, str_length_app in Hd'. lia. }
    destruct (IH (lb_end l)) as (first & rest & Hf & Hold & Hw); [done|..|].
    + destruct ls; [done|]. by apply orb_false_iff in Ho as [_ ?].
    + done.
    + intros l' Hl'. destruct ls as [|l2 ls]; [done|]. injection Hl' as <-.
      apply orb_false_iff in Ho as [Ho _]. by apply Nat.ltb_ge in Ho.
    + rewrite Hw. unfold str_slice. destruct (Nat.leb_spec cursor (lb_start l)); [|lia].
      destruct (Nat.leb_spec (lb_start l) (String.length content)); [|lia]. simpl.
      set (before := str_take (lb_start l - cursor) (str_drop cursor content)).
      exists before, ((lb_block l, first) :: rest). simpl. split_and!; [by rewrite Hf| |done].
      rewrite <- Hold, <- Hd. unfold before. rewrite <- (str_take_drop (lb_start l - cursor) (str_drop cursor content)) at 1.
      rewrite str_drop_drop. do 2 f_equal. lia.
Qed.

Lemma overlap_spec ls :
  blocks_overlap ls = true ->
  exists l1 a b l2, ls = l1 ++ a :: b :: l2 /\ lb_start b < lb_end a.
Proof.
  induction ls as [|a [|b ls] IH]; [done..|]. cbn [blocks_overlap].
  intros [H%Nat.ltb_lt|H]%orb_prop; [by exists [], a, b, ls|].
  destruct (IH H) as (l1 & x & y & l2 & -> & Hlt). by exists (a :: l1), x, y, l2.
Qed.

(** A list of edit blocks never panics, and it is applied as one
    simultaneous replacement: when it succeeds, the old text is pieces of kept
    text with the old side of every block exactly once between them, and the new
    text is the same pieces with the new sides.  It is refused exactly when some
    old text does not match once, or the places of two blocks overlap. *)
Theorem exact_edits_simultaneous content blocks :
  match apply_exact_edit_blocks content blocks with
  | Panicked _ => False
  | Returned (Ok (updated, n)) =>
      n = length blocks /\
      Forall (fun b => length (match_indices (eb_old_text b) content) = 1) blocks /\
      exists first rest, map fst rest ≡ₚ blocks /\
        content = interleave eb_old_text first rest /\ updated = interleave eb_new_text first rest
  | Returned (Err _) =>
      Exists (fun b => length (match_indices (eb_old_text b) content) <> 1) blocks \/
      exists a b start_a start_b, [a; b] ⊆+ blocks /\
        match_indices (eb_old_text a) content = [start_a] /\
        match_indices (eb_old_text b) content = [start_b] /\
        start_a <= start_b < start_a + String.length (eb_old_text a)
  end.
Proof.
  unfold apply_exact_edit_blocks. pose proof (locate_blocks_spec content 0 blocks) as Hl.
  destruct (locate_blocks_from content 0 blocks) as [ls|e]; [|by left]. destruct Hl as [<- Hl].
  set (sorted := merge_sort starts_before ls).
  assert (sorted ≡ₚ ls) as Hp by apply merge_sort_Permutation.
  assert (Forall (located_in content) sorted) as Hs by (by rewrite Hp).
  destruct (blocks_overlap sorted) eqn:Ho.
  - right. apply overlap_spec in Ho as (l1 & a & b & l2 & He & Hlt).
    exists (lb_block a), (lb_block b), (lb_start a), (lb_start b).
    rewrite He in Hs. apply Forall_app in Hs as [_ [Ha [Hb _]%Forall_cons]%Forall_cons].
    split_and!; [|apply Ha|apply Hb| |destruct Ha as (_ & Hend & _); lia].
    + rewrite <- Hp, He, map_app. simpl. apply submseteq_app_r. exists [], [lb_block a; lb_block b].
      split_and!; [done|apply submseteq_nil_l|]. do 2 apply submseteq_skip. apply submseteq_nil_l.
    + assert (Sorted starts_before sorted) as Hsort
        by (apply Sorted_merge_sort; intros x y; unfold starts_before; lia).
      rewrite He in Hsort. clear -Hsort. induction l1 as [|x l1 IH]; simpl in Hsort; inversion Hsort; subst.
      * by match goal with H : HdRel _ _ _ |- _ => inversion H end.
      * by apply IH.
  - destruct (weave_spec content 0 sorted) as (first & rest & Hf & Hold & Hw); [done..|lia|intros; lia|].
    rewrite Hw. split_and!.
    + by rewrite Hp, length_map.
    + rewrite Forall_map. eapply Forall_impl; [exact Hl|]. intros l (Hm & _). simpl. by rewrite Hm.
    + exists first, rest. split_and!; [by rewrite Hf, Hp|exact Hold|done].
Qed.

(** ** One edit *)

Lemma replacen_skip p new count k s :
  replacen_from p new count k s = replacen_from p new count 0 (str_drop k s).
Proof. revert s. induction k as [|k IH]; intros [|c s]; simpl; try done. Qed.

Lemma starts_with_grows p x y : starts_with p x = true -> starts_with p (x +:+ y) = true.
Proof. rewrite !starts_with_spec. intros [r ->]. exists (r +:+ y). by rewrite str_app_assoc. Qed.

Lemma join_cons_app p x l : exists y, join p (x :: l) = x +:+ y.
Proof. destruct l as [|z l]; [exists ""; by rewrite str_app_nil_r|by eexists]. Qed.

(** The pieces between the matches. *)
Lemma match_pieces p s off :
  p <> "" -> exists pieces,
    s = join p pieces /\ length pieces = S (length (match_indices_from p 0 off s)) /\
    Forall (fun x => str_contains p x = false) pieces /\
    forall new count, length (match_indices_from p 0 off s) <= count ->
      replacen_from p new count 0 s = join new pieces.
Proof.
  intros Hp. revert off. induction s as [|c r IH] using string_long_ind; intros off.
  { exists [""]. split_and!; [done..| |done]. constructor; [|done]. by destruct p. }
  destruct (starts_with p (String c r)) eqn:Hs.
  - apply starts_with_spec in Hs as [t Ht].
    assert (String.length t <= String.length r) as Hlen.
    { apply (f_equal String.length) in Ht. rewrite str_length_app in Ht. destruct p; [done|]. simpl in Ht. lia. }
    destruct (IH t Hlen (off + String.length p)) as (pieces & Hj & Hn & Hc & Hr).
    assert (starts_with p (String c r) = true) as Hs by (rewrite Ht; apply starts_with_spec; by exists t).
    destruct pieces as [|x pieces]; [done|]. exists ("" :: x :: pieces).
    assert (match_indices_from p 0 off (String c r)
      = off :: match_indices_from p 0 (off + String.length p) t) as -> by (rewrite Ht; by apply match_indices_hit).
    split_and!.
    + rewrite Ht, Hj at 1. done.
    + simpl in *. lia.
    + constructor; [by destruct p|done].
    + intros new [|count] Hcount; [simpl in Hcount; lia|]. cbn [replacen_from]. rewrite Hs.
      rewrite replacen_skip. assert (str_drop (String.length p - 1) r = t) as ->.
      { destruct p as [|a p]; [done|]. rewrite str_app_cons in Ht. simplify_eq. simpl.
        rewrite Nat.sub_0_r. apply str_drop_app. }
      rewrite Hr by (simpl in Hcount; lia). done.
  - destruct (IH r ltac:(done) (S off)) as (pieces & Hj & Hn & Hc & Hr).
    destruct pieces as [|x pieces]; [done|]. exists (String c x :: pieces).
    assert (forall sep, join sep (String c x :: pieces) = String c (join sep (x :: pieces))) as Hcons
      by (intros sep; by destruct pieces).
    cbn [match_indices_from]. rewrite Hs, Hcons, <- Hj. split_and!; [done|done| |].
    + apply Forall_cons in Hc as [Hx Hc]. constructor; [|done]. cbn [str_contains].
      apply orb_false_iff. split; [|done]. apply not_true_iff_false. intros Hs'.
      destruct (join_cons_app p x pieces) as [y Hy]. rewrite Hj, Hy in Hs.
      apply (starts_with_grows _ _ y) in Hs'. rewrite str_app_cons in Hs'. congruence.
    + intros new count Hcount. rewrite Hcons. cbn [replacen_from]. rewrite Hs.
      destruct count as [|count]; [|f_equal; by apply Hr]. f_equal. rewrite <- (Hr new 0) by done.
      by destruct r.
Qed.

(** The single edit of [file.edit]: the file is pieces without
    the old text, separated by it, and the edited file is the same pieces
    separated by the new text.  Without [replace_all] there is exactly one place;
    the edit is refused exactly when the old text does not occur, or when it
    occurs more than once and [replace_all] is not set. *)
Theorem legacy_edit_spec content old_string new_string replace_all :
  old_string <> "" ->
  exists pieces, content = join old_string pieces /\
    Forall (fun piece => str_contains old_string piece = false) pieces /\
    match apply_legacy_single_edit content old_string new_string replace_all with
    | Ok (updated, n) =>
        updated = join new_string pieces /\ length pieces = S n /\ 0 < n /\ (replace_all = false -> n = 1)
    | Err _ => length pieces = 1 \/ (2 < length pieces /\ replace_all = false)
    end.
Proof.
  intros Hp. destruct (match_pieces old_string content 0 Hp) as (pieces & Hj & Hn & Hc & Hr).
  exists pieces. split_and!; [done..|]. unfold apply_legacy_single_edit.
  fold (match_indices old_string content) in Hn, Hr. rewrite Hn.
  pose proof (match_indices_length old_string 0 0 content) as Hle.
  fold (match_indices old_string content) in Hle.
  destruct (Nat.eqb_spec (length (match_indices old_string content)) 0); [left; lia|].
  destruct replace_all; simpl.
  - rewrite andb_false_r. split_and!; [|done|lia|done]. apply Hr. done.
  - rewrite andb_true_r. destruct (Nat.ltb_spec 1 (length (match_indices old_string content))); [right; lia|].
    split_and!; [apply Hr; lia|lia|lia|done].
Qed.

(** An old text that overlaps itself is matched once and edited, though it
    occurs at a second place. *)
Example overlapping_occurrence_edited :
  apply_legacy_single_edit "aaa" "aa" "b" false = Ok ("ba", 1) /\
  str_drop 0 "aaa" = "aa" +:+ "a" /\ str_drop 1 "aaa" = "aa" +:+ "".
Proof. by vm_compute. Qed.

(** ** Reading page by page *)

(** The pages a reader gets that follows [next_offset]. *)
Fixpoint read_pages (fuel : nat) (text : string) (max_bytes offset limit : nat) : option (list string) :=
  match fuel with
  | O => None
  | S fuel =>
      match select_file_read_content text max_bytes (Some offset) (Some limit) with
      | Err _ => None
      | Ok selection =>
          match rs_next_offset selection with
          | None => Some [rs_content selection]
          | Some next => cons (rs_content selection) <$> read_pages fuel text max_bytes next limit
          end
      end
  end.

Lemma join_app_cons sep x l y l' : join sep ((x :: l) ++ y :: l') = join sep (x :: l) +:+ sep +:+ join sep (y :: l').
Proof.
  revert x. induction l as [|z l IH]; intros x; [done|].
  change (x +:+ sep +:+ join sep ((z :: l) ++ y :: l') = (x +:+ sep +:+ join sep (z :: l)) +:+ sep +:+ join sep (y :: l')).
  by rewrite IH, !str_app_assoc.
Qed.

Lemma length_join sep l :
  String.length (join sep l) = sum_list_with String.length l + (length l - 1) * String.length sep.
Proof.
  induction l as [|x [|y l] IH]; [done|simpl; lia|].
  change (join sep (x :: y :: l)) with (x +:+ sep +:+ join sep (y :: l)).
  rewrite !str_length_app, IH. simpl. lia.
Qed.

Lemma length_join_slice sep k e l :
  String.length (join sep (drop k (take e l))) <= String.length (join sep l).
Proof.
  rewrite !length_join. assert (length (drop k (take e l)) <= length l) as Hlen
    by (rewrite length_drop, length_take; lia).
  assert (sum_list_with String.length (drop k (take e l)) <= sum_list_with String.length l) as Hsum; [|nia].
  rewrite <- (take_drop e l) at 2. rewrite <- (take_drop k (take e l)) at 2.
  rewrite !sum_list_with_app. lia.
Qed.

Lemma join_valid l :
  utf8_valid (join line_feed l) = forallb utf8_valid l.
Proof.
  induction l as [|x [|y l] IH]; [done|simpl; by rewrite andb_true_r|].
  change (join line_feed (x :: y :: l)) with (x +:+ String newline_char (join line_feed (y :: l))).
  by rewrite utf8_valid_split, IH.
Qed.

Lemma read_page text max_bytes k limit :
  let lines := split_char newline_char text in
  utf8_valid text = true -> String.length text <= max_bytes -> k < length lines ->
  let e := Nat.min (k + limit) (length lines) in
  exists selection,
    select_file_read_content text max_bytes (Some (S k)) (Some limit) = Ok selection /\
    rs_content selection = join line_feed (drop k (take e lines)) /\
    rs_truncated selection = false /\
    rs_next_offset selection = if Nat.ltb e (length lines) then Some (S e) else None.
Proof.
  intros lines Hv Hmax Hk e. unfold select_file_read_content. fold lines.
  change (default 1 (Some (S k))) with (S k). change (default _ (Some limit)) with limit.
  destruct (Nat.ltb_spec (length lines) (S k)); [lia|]. replace (S k - 1) with k by lia. fold e.
  eexists. split; [done|]. cbn [rs_content rs_truncated rs_next_offset clip_file_read_content].
  assert (join line_feed lines = text) as Htext by apply join_split_char.
  assert (Nat.ltb max_bytes (String.length (join line_feed (drop k (take e lines)))) = false) as ->.
  { apply Nat.ltb_ge. pose proof (length_join_slice line_feed k e lines). rewrite Htext in H0. lia. }
  split_and!; [|done|by rewrite Nat.add_1_r]. apply utf8_lossy_valid. rewrite join_valid.
  rewrite <- Htext, join_valid in Hv. rewrite !forallb_forall in *. intros x Hx. apply Hv.
  rewrite <- list_elem_of_In in *. apply list_elem_of_lookup in Hx as [i Hi].
  rewrite lookup_drop in Hi. apply lookup_take_Some in Hi as [Hi _]. by eapply list_elem_of_lookup_2.
Qed.

Lemma read_pages_from fuel text max_bytes k limit :
  let lines := split_char newline_char text in
  utf8_valid text = true -> String.length text <= max_bytes -> 0 < limit ->
  k < length lines -> length lines - k <= fuel ->
  exists page pages, read_pages fuel text max_bytes (S k) limit = Some (page :: pages) /\
    join line_feed (page :: pages) = join line_feed (drop k lines).
Proof.
  intros lines Hv Hmax Hlimit. revert k. induction fuel as [|fuel IH]; intros k Hk Hf; [lia|].
  destruct (read_page text max_bytes k limit Hv Hmax Hk) as (selection & Hsel & Hc & _ & Hn).
  fold lines in Hc, Hn. cbn [read_pages]. rewrite Hsel, Hn, Hc.
  destruct (Nat.ltb_spec (Nat.min (k + limit) (length lines)) (length lines)) as [Hlt|Hge].
  - rewrite Nat.min_l in * by lia. destruct (IH (k + limit)) as (page & pages & -> & Hj); [lia..|].
    eexists _, _. split; [done|].
    match goal with |- join _ (?x :: _ :: _) = _ => change (x +:+ line_feed +:+ join line_feed (page :: pages)
      = join line_feed (drop k lines)) end. rewrite Hj.
    assert (drop k lines = drop k (take (k + limit) lines) ++ drop (k + limit) lines) as ->.
    { rewrite <- (take_drop (k + limit) lines) at 1. rewrite drop_app_le; [done|]. rewrite length_take. lia. }
    destruct (drop k (take (k + limit) lines)) as [|x l] eqn:E1.
    { apply (f_equal length) in E1. rewrite length_drop, length_take in E1. simpl in E1. lia. }
    destruct (drop (k + limit) lines) as [|y l'] eqn:E2.
    { apply (f_equal length) in E2. rewrite length_drop in E2. simpl in E2. lia. }
    by rewrite join_app_cons.
  - eexists _, []. split; [done|]. simpl. rewrite take_ge by lia. done.
Qed.

(** Reading a text file in windows of [limit] lines and following
    [next_offset] ends after at most one page per line, no page is refused, and
    the pages joined by line feeds are the file, when it fits the byte limit. *)
Theorem read_pages_whole_file text max_bytes limit :
  utf8_valid text = true -> String.length text <= max_bytes -> 0 < limit ->
  exists pages,
    read_pages (length (split_char newline_char text)) text max_bytes 1 limit = Some pages /\
    join line_feed pages = text.
Proof.
  intros Hv Hmax Hlimit.
  destruct (read_pages_from (length (split_char newline_char text)) text max_bytes 0 limit)
    as (page & pages & Hp & Hj); [done..| |lia|].
  - destruct text; simpl; [lia|]. destruct (char_eqb _ _); simpl; [lia|].
    destruct (split_char _ _); simpl; lia.
  - exists (page :: pages). split; [done|]. rewrite Hj. apply join_split_char.
Qed.
