(* ===== verification/FileTool.v ===== *)
(** * File tools and the file root

    [file.rs] of [crates/app/src/tools]: how a path of a request is resolved under
    the file root, and the tools [file.read], [file.write] and [file.edit] (the
    [tool-file] feature is on); [normalize_without_fs] of [tools/mod.rs]; and the
    directory a process tool runs in, from [process_exec.rs].

    The file system is a record of operations that act on a world [W]; nothing is
    assumed of it here.  The platform is Unix: paths have no prefix, and
    [dunce::canonicalize] and [dunce::simplified] are [std::fs::canonicalize] and
    the identity.  [display] of a path prints its text. *)

From Stdlib Require Import Ascii.
From S2P Require Import Prelude RustStr RustPath Contracts Json FileDiff FileEdit.

(** ** Paths without the file system *)

(** One component of [normalize_without_fs]; the state is [has_root] and the
    parts so far. *)
Definition normalize_component (state : bool * list string) (component : Component) : bool * list string :=
  let (rooted, parts) := state in
  match component with
  | RootDir => (true, parts)
  | CurDir => (rooted, parts)
  | ParentDir =>
      match last parts with
      | Some last_part =>
          if decide (last_part <> "..") then (rooted, removelast parts)
          else if negb rooted then (rooted, parts ++ [".."]) else (rooted, parts)
      | None => if negb rooted then (rooted, parts ++ [".."]) else (rooted, parts)
      end
  | Normal value => (rooted, parts ++ [value])
  end.

Definition normalize_without_fs (path : string) : string :=
  let (rooted, parts) := foldl normalize_component (false, []) (path_components path) in
  let normalized := if rooted then path_join "" "/" else "" in
  let normalized := foldl path_join normalized parts in
  if str_is_empty normalized then (if rooted then "/" else ".") else normalized.

(** ** The file system *)

Record FileSystem (W : Type) : Type := {
  fs_current_dir : M W (result string string);
  fs_exists : string -> M W bool;
  fs_is_dir : string -> M W bool;
  fs_is_symlink : string -> M W bool;
  fs_canonicalize : string -> M W (result string string);
  fs_read_link : string -> M W (result string string);
  fs_read : string -> M W (result string string);
  fs_read_to_string : string -> M W (result string string);
  (** Whether the error is [AlreadyExists], and its text. *)
  fs_create_new : string -> M W (result unit (bool * string));
  (** On an open file: one just created, or a temporary one. *)
  fs_write_all : string -> string -> M W (result unit string);
  fs_sync_all : string -> M W (result unit string);
  (** [NamedTempFile::new_in] answers the path; dropping the value removes it. *)
  fs_new_temp_in : string -> M W (result string string);
  fs_drop_temp : string -> M W unit;
  fs_persist : string -> string -> M W (result unit string);
  fs_create_dir_all : string -> M W (result unit string);
  fs_write : string -> string -> M W (result unit string);
}.
Arguments fs_current_dir {W} _.
Arguments fs_exists {W} _ _.
Arguments fs_is_dir {W} _ _.
Arguments fs_is_symlink {W} _ _.
Arguments fs_canonicalize {W} _ _.
Arguments fs_read_link {W} _ _.
Arguments fs_read {W} _ _.
Arguments fs_read_to_string {W} _ _.
Arguments fs_create_new {W} _ _.
Arguments fs_write_all {W} _ _ _.
Arguments fs_sync_all {W} _ _.
Arguments fs_new_temp_in {W} _ _.
Arguments fs_drop_temp {W} _ _.
Arguments fs_persist {W} _ _ _.
Arguments fs_create_dir_all {W} _ _.
Arguments fs_write {W} _ _ _.

Definition json_nat (n : nat) : json := JNumber (PosInt (Z.of_nat n)).

(** [value.and_then(as_str).map(trim).filter(not empty)]. *)
Definition trimmed_string (value : option json) : option string :=
  match value ≫= json_as_str with
  | Some s => if str_is_empty (trim s) then None else Some (trim s)
  | None => None
  end.

Section tools.
Context {W : Type}.
Variable fs : FileSystem W.

(** ** Resolving a path under the root *)

Definition canonicalize_or_fallback (path : string) : M W (result string string) :=
  let! exists_ := fs_exists fs path in
  if exists_
  then try_map_err (fun error => "failed to canonicalize " +:+ path +:+ ": " +:+ error)
         (fs_canonicalize fs path)
  else ret (Ok (normalize_without_fs path)).

Definition ensure_path_within_root (root path : string) : result unit string :=
  if path_starts_with (path_components path) (path_components root) then Ok tt
  else Err ("policy_denied: file path " +:+ path +:+ " escapes configured file root " +:+ root).

(** [loop]; a parent is shorter than its path, so the fuel is one more than the
    length of the path. *)
Fixpoint split_existing_ancestor_loop (fuel : nat) (path cursor : string) (suffix : list string)
  : M W (result (string * list string) string) :=
  let failed := "cannot resolve existing ancestor for " +:+ path in
  match fuel with
  | O => ret (Err failed)
  | S fuel =>
      let! exists_ := fs_exists fs cursor in
      if exists_ then ret (Ok (cursor, reverse suffix)) else
      match path_file_name cursor with
      | None => ret (Err failed)
      | Some name =>
          match path_parent cursor with
          | None => ret (Err failed)
          | Some parent => split_existing_ancestor_loop fuel path parent (suffix ++ [name])
          end
      end
  end.

Definition split_existing_ancestor (path : string) : M W (result (string * list string) string) :=
  split_existing_ancestor_loop (S (String.length path)) path path [].

Definition resolve_path_within_root (root normalized : string) : M W (result string string) :=
  let! exists_ := fs_exists fs normalized in
  if exists_ then
    let? canonical :=
      try_map_err (fun error => "failed to canonicalize target file path " +:+ normalized +:+ ": " +:+ error)
        (fs_canonicalize fs normalized) in
    run? ret (ensure_path_within_root root canonical) in
    ret (Ok canonical)
  else
    run? ret (ensure_path_within_root root normalized) in
    let? found := split_existing_ancestor normalized in
    let (ancestor, suffix) := found : string * list string in
    let? canonical_ancestor :=
      try_map_err (fun error => "failed to canonicalize ancestor " +:+ ancestor +:+ ": " +:+ error)
        (fs_canonicalize fs ancestor) in
    run? ret (ensure_path_within_root root canonical_ancestor) in
    let reconstructed := foldl path_join canonical_ancestor suffix in
    run? ret (ensure_path_within_root root reconstructed) in
    ret (Ok reconstructed).

(** The root of the configuration, or the current directory. *)
Definition configured_root (file_root : option string) : M W string :=
  match file_root with
  | Some root => ret root
  | None =>
      let! dir := fs_current_dir fs in
      ret (match dir with Ok dir => dir | Err _ => "." end)
  end.

Definition resolve_safe_file_path_with_config (file_root : option string) (raw : string)
  : M W (result string string) :=
  let! root := configured_root file_root in
  let? root := canonicalize_or_fallback root in
  let combined := if has_root raw then raw else path_join root raw in
  resolve_path_within_root root (normalize_without_fs combined).

Definition resolve_safe_directory_path_with_config (file_root : option string) (raw : string)
  : M W (result string string) :=
  let? resolved := resolve_safe_file_path_with_config file_root raw in
  let! exists_ := fs_exists fs resolved in
  if negb exists_ then ret (Err ("policy_denied: shell cwd " +:+ resolved +:+ " does not exist")) else
  let! is_directory := fs_is_dir fs resolved in
  if negb is_directory then ret (Err ("policy_denied: shell cwd " +:+ resolved +:+ " is not a directory"))
  else ret (Ok resolved).

(** ** file.read *)

(** [usize] fields of the payload. *)
Definition usize_field (payload : list (string * json)) (field_name : string) : result (option nat) string :=
  let* value := optional_positive_usize_field payload field_name in
  Ok (Z.to_nat <$> value).

Definition refuse_directory {A} (resolved : string) (rest : M W (result A string)) : M W (result A string) :=
  let! is_directory := fs_is_dir fs resolved in
  if is_directory then ret (Err ("path '" +:+ resolved +:+ "' is a directory, not a file")) else rest.

Definition execute_file_read_tool_with_config (file_root : option string) (request : ToolCoreRequest)
  : M W (result ToolCoreOutcome string) :=
  let? payload := ret (ok_or (json_as_object (tcr_payload request)) "file.read payload must be an object") in
  let? target := ret (ok_or (trimmed_string (fields_get "path" payload)) "file.read requires payload.path") in
  let max_bytes :=
    Z.to_nat (Z.min (default 1048576%Z (fields_get "max_bytes" payload ≫= json_as_u64)) (8 * 1048576)) in
  let? offset := ret (usize_field payload "offset") in
  let? limit := ret (usize_field payload "limit") in
  let? resolved := resolve_safe_file_path_with_config file_root target in
  refuse_directory resolved (
  let? bytes := try_map_err (fun error => "failed to read file " +:+ resolved +:+ ": " +:+ error)
                  (fs_read fs resolved) in
  let? selection := ret (select_file_read_content (utf8_lossy bytes) max_bytes offset limit) in
  let optional (key : string) (value : option nat) : list (string * json) :=
    match value with Some n => [(key, json_nat n)] | None => [] end in
  ret (Ok {| tco_status := "ok";
             tco_payload := json_object (
               [("adapter", JString "core-tools");
                ("tool_name", JString (tcr_tool_name request));
                ("path", JString resolved);
                ("bytes", json_nat (String.length bytes));
                ("truncated", JBool (rs_truncated selection));
                ("content", JString (rs_content selection))]
               ++ optional "line_start" (rs_line_start selection)
               ++ optional "line_end" (rs_line_end selection)
               ++ optional "total_lines" (rs_total_lines selection)
               ++ optional "next_offset" (rs_next_offset selection)) |})).

(** ** file.write *)

(** [emit_file_change_preview]: the sink of runtime events, if there is one. *)
Variable emit_file_change_preview : ToolFileChangePreview -> M W unit.

Definition write_new_file_without_overwrite (path content : string) : M W (result unit string) :=
  run? try_map_err (fun error : bool * string =>
         if error.1
         then "policy_denied: file.write requires overwrite=true for existing file " +:+ path
         else "failed to open file " +:+ path +:+ ": " +:+ error.2) (fs_create_new fs path) in
  try_map_err (fun error => "failed to write file " +:+ path +:+ ": " +:+ error) (fs_write_all fs path content).

(** A step on a temporary file, which a failure drops. *)
Definition on_temp_file (path temp : string) (step : M W (result unit string)) : M W (result unit string) :=
  let! r := step in
  match r with
  | Ok tt => ret (Ok tt)
  | Err error =>
      run! fs_drop_temp fs temp in
      ret (Err ("failed to write file " +:+ path +:+ ": " +:+ error))
  end.

Definition write_file_atomically (path content : string) : M W (result unit string) :=
  let parent := default "." (path_parent path) in
  let? temp := try_map_err (fun error => "failed to open file " +:+ path +:+ ": " +:+ error)
                 (fs_new_temp_in fs parent) in
  run? on_temp_file path temp (fs_write_all fs temp content) in
  run? on_temp_file path temp (fs_sync_all fs temp) in
  on_temp_file path temp (fs_persist fs temp path).

Definition json_flag (payload : list (string * json)) (field : string) (default_value : bool) : bool :=
  default default_value (fields_get field payload ≫= json_as_bool).

Definition execute_file_write_tool_with_config (file_root : option string) (request : ToolCoreRequest)
  : M W (result ToolCoreOutcome string) :=
  let? payload := ret (ok_or (json_as_object (tcr_payload request)) "file.write payload must be an object") in
  let? target := ret (ok_or (trimmed_string (fields_get "path" payload)) "file.write requires payload.path") in
  let? content := ret (ok_or (fields_get "content" payload ≫= json_as_str)
                         "file.write requires payload.content") in
  let create_dirs := json_flag payload "create_dirs" true in
  let overwrite := json_flag payload "overwrite" false in
  let? resolved := resolve_safe_file_path_with_config file_root target in
  refuse_directory resolved (
  run? match path_parent resolved with
       | Some parent =>
           if create_dirs
           then try_map_err (fun error => "failed to create parent directory " +:+ parent +:+ ": " +:+ error)
                  (fs_create_dir_all fs parent)
           else ret (Ok tt)
       | None => ret (Ok tt)
       end in
  let! path_is_symlink := fs_is_symlink fs resolved in
  if path_is_symlink
  then ret (Err ("policy_denied: file.write refuses to open symlink " +:+ resolved)) else
  let! existed_before_write := fs_exists fs resolved in
  let? before_content :=
    (if existed_before_write
     then let? text := try_map_err (fun error => "failed to read file " +:+ resolved +:+ ": " +:+ error)
                         (fs_read_to_string fs resolved) in
          ret (Ok (Some text))
     else ret (Ok None)) in
  run? (if overwrite then write_file_atomically resolved content
        else write_new_file_without_overwrite resolved content) in
  run! emit_file_change_preview (build_file_change_preview resolved
         (if existed_before_write then FileOverwrite else FileCreate) before_content content) in
  ret (Ok {| tco_status := "ok";
             tco_payload := json_object
               [("adapter", JString "core-tools");
                ("tool_name", JString (tcr_tool_name request));
                ("path", JString resolved);
                ("bytes_written", json_nat (String.length content))] |})).

(** ** file.edit *)

Definition apply_edit_request (content : string) (edit_request : FileEditRequest)
  : M W (result (string * nat) string) :=
  match edit_request with
  | ExactBlocks blocks =>
      fun w => (apply_exact_edit_blocks content blocks, w)
  | LegacySingle old_string new_string replace_all =>
      ret (apply_legacy_single_edit content old_string new_string replace_all)
  end.

Definition execute_file_edit_tool_with_config (file_root : option string) (request : ToolCoreRequest)
  : M W (result ToolCoreOutcome string) :=
  let? payload := ret (ok_or (json_as_object (tcr_payload request)) "file.edit payload must be an object") in
  let? path := ret (ok_or (trimmed_string (fields_get "path" payload))
                      "file.edit requires payload.path (string)") in
  let? edit_request := ret (parse_file_edit_request payload) in
  let? resolved := resolve_safe_file_path_with_config file_root path in
  let? content := try_map_err (fun e => "failed to read " +:+ resolved +:+ ": " +:+ e)
                    (fs_read_to_string fs resolved) in
  let? edited := apply_edit_request content edit_request in
  let (updated, replacements_made) := edited : string * nat in
  run? try_map_err (fun e => "failed to write " +:+ resolved +:+ ": " +:+ e) (fs_write fs resolved updated) in
  run! emit_file_change_preview (build_file_change_preview resolved FileEdit (Some content) updated) in
  ret (Ok {| tco_status := "ok";
             tco_payload := json_object (
               [("adapter", JString "core-tools");
                ("tool_name", JString (tcr_tool_name request));
                ("path", JString resolved);
                ("replacements_made", json_nat replacements_made);
                ("bytes_written", json_nat (String.length updated))]
               ++ match edit_request with
                  | ExactBlocks blocks => [("edit_blocks_applied", json_nat (length blocks))]
                  | LegacySingle _ _ _ => []
                  end) |}).

(** ** The directory of a process tool *)

Definition parse_optional_process_cwd (payload : list (string * json)) (tool_name : string)
  : result (option string) string :=
  match fields_get "cwd" payload with
  | None => Ok None
  | Some raw_value =>
      let* raw_cwd := ok_or (json_as_str raw_value) (tool_name +:+ " payload.cwd must be a string") in
      Ok (if str_is_empty (trim raw_cwd) then None else Some (trim raw_cwd))
  end.

Definition default_process_cwd_with_config (file_root : option string) : M W string := configured_root file_root.

(** [metadata] follows links: it fails on what does not exist. *)
Variable fs_metadata_is_dir : string -> M W (result bool string).

Definition canonicalize_existing_directory (path tool_name : string) : M W (result string string) :=
  let? is_dir := try_map_err (fun error =>
                   "failed to inspect " +:+ tool_name +:+ " cwd `" +:+ path +:+ "`: " +:+ error)
                   (fs_metadata_is_dir path) in
  if negb is_dir then ret (Err (tool_name +:+ " cwd `" +:+ path +:+ "` is not a directory")) else
  try_map_err (fun error =>
    "failed to canonicalize " +:+ tool_name +:+ " cwd `" +:+ path +:+ "`: " +:+ error)
    (fs_canonicalize fs path).

Definition resolve_process_cwd_override (file_root : option string) (raw_cwd tool_name : string)
  : M W (result string string) :=
  match file_root with
  | Some _ => resolve_safe_directory_path_with_config file_root raw_cwd
  | None =>
      let! base_path :=
        (if has_root raw_cwd then ret raw_cwd
         else let! current_dir := configured_root None in ret (path_join current_dir raw_cwd)) in
      canonicalize_existing_directory base_path tool_name
  end.

Definition resolve_process_cwd_with_config (file_root : option string) (payload : list (string * json))
    (tool_name : string) : M W (result string string) :=
  let? raw_cwd := ret (parse_optional_process_cwd payload tool_name) in
  let? resolved_cwd :=
    match raw_cwd with
    | Some raw_cwd => resolve_process_cwd_override file_root raw_cwd tool_name
    | None => let! cwd := default_process_cwd_with_config file_root in ret (Ok cwd)
    end in
  let! is_dir := fs_is_dir fs resolved_cwd in
  if negb is_dir then ret (Err (tool_name +:+ " cwd `" +:+ resolved_cwd +:+ "` is not a directory"))
  else ret (Ok resolved_cwd).
End tools.

Example normalize_examples :
  normalize_without_fs "/a/./b/../../../c" = "/c" /\ normalize_without_fs "../x/.." = ".." /\
  normalize_without_fs "a/.." = "." /\ normalize_without_fs "/.." = "/".
Proof. by vm_compute. Qed.
