(* ===== verification/FileToolFacts.v ===== *)
(** * File tools: theorems

    What the normal form of a path is; where paths lead in a file system with
    links ([file_view]); that a resolved path lands in the file root ([lands]);
    and that the tools read and change nothing else. *)

From Stdlib Require Import Ascii.
From S2P Require Import Prelude RustStr RustPath Contracts Json FileDiff FileEdit FileTool.

(** ** Components of joined paths *)

Definition plain_segment (name : string) : Prop :=
  body_component name = Some (Normal name) /\ lacks_char path_separator name = true.

(** Absolute, with neither [.] nor [..]. *)
Definition plain_path (path : string) : Prop :=
  has_root path = true /\
  exists names, Forall plain_segment names /\ path_components path = RootDir :: map Normal names.

Lemma split_char_snoc c s t : split_char c (s +:+ String c t) = split_char c s ++ split_char c t.
Proof.
  induction s as [|a s IH]; simpl; [by rewrite char_eqb_refl|].
  destruct (char_eqb a c); [by rewrite IH|]. rewrite IH.
  destruct (join_split_char c s) as (_ & Hne & _). by destruct (split_char c s).
Qed.

Lemma components_rooted path :
  has_root path = true ->
  path_components path = RootDir :: omap body_component (split_char path_separator path).
Proof. intros H. unfold path_components. by rewrite H. Qed.

Lemma has_root_app p q : has_root p = true -> has_root (p +:+ q) = true.
Proof. unfold has_root. rewrite !starts_with_spec. intros [r ->]. exists (r +:+ q). by rewrite str_app_assoc. Qed.

Lemma has_root_cons p : has_root p = true -> exists r, p = String "/" r.
Proof. unfold has_root. rewrite starts_with_spec. intros [r ->]. by exists r. Qed.

Lemma plain_segment_relative name : plain_segment name -> has_root name = false.
Proof.
  intros [_ H]. apply not_true_iff_false. intros [r ->]%has_root_cons.
  by apply lacks_char_cons in H as [? _].
Qed.

Lemma components_join path name :
  has_root path = true -> plain_segment name ->
  has_root (path_join path name) = true /\
  path_components (path_join path name) = path_components path ++ [Normal name].
Proof.
  intros Hr Hn. pose proof (plain_segment_relative name Hn) as Hrel. destruct Hn as [Hb Hl].
  unfold path_join. rewrite Hrel. destruct (has_root_cons path Hr) as [r Hp].
  assert (str_is_empty path = false) as -> by (by rewrite Hp).
  assert (omap body_component (split_char path_separator name) = [Normal name]) as Hname
    by (rewrite split_char_lacks by done; simpl; by rewrite Hb).
  destruct (ends_with "/" path) eqn:He; simpl.
  - split; [by apply has_root_app|]. rewrite !components_rooted by (try apply has_root_app; done). simpl. f_equal.
    unfold ends_with in He. apply starts_with_spec in He as [q Hq].
    assert (path = String.rev q +:+ String "/" "") as ->.
    { rewrite <- (str_rev_involutive path), Hq. by rewrite str_rev_app. }
    rewrite str_app_assoc. change (String "/" "" +:+ name) with (String path_separator name).
    change (String "/" "") with (String path_separator ""). rewrite !split_char_snoc, !omap_app, Hname.
    simpl. by rewrite app_nil_r.
  - assert (has_root (path +:+ String path_separator name) = true) as Hr' by (by apply has_root_app).
    change ("/" +:+ name) with (String path_separator name).
    split; [done|]. rewrite !components_rooted by done. by rewrite split_char_snoc, omap_app, Hname.
Qed.

Lemma components_join_all path names :
  has_root path = true -> Forall plain_segment names ->
  has_root (foldl path_join path names) = true /\
  path_components (foldl path_join path names) = path_components path ++ map Normal names.
Proof.
  intros Hr Hn. revert path Hr. induction Hn as [|name names Hname Hn IH]; intros path Hr; simpl.
  - split; [done|]. by rewrite app_nil_r.
  - destruct (components_join path name Hr Hname) as [Hr' Hc].
    destruct (IH _ Hr') as [? ->]. split; [done|]. rewrite Hc. by rewrite <- app_assoc.
Qed.

Lemma body_component_plain s c :
  lacks_char path_separator s = true -> body_component s = Some c ->
  c = ParentDir \/ exists name, c = Normal name /\ plain_segment name.
Proof.
  intros Hl Hb. pose proof Hb as Hb'. unfold body_component in Hb. repeat case_decide; simplify_eq; [by left|].
  right. by exists s.
Qed.

Lemma components_body path c :
  c ∈ path_components path -> c <> RootDir -> c <> CurDir ->
  c = ParentDir \/ exists name, c = Normal name /\ plain_segment name.
Proof.
  destruct (join_split_char path_separator path) as (_ & _ & Hf). rewrite Forall_forall in Hf.
  assert (forall l : list string, (forall s, s ∈ l -> s ∈ split_char path_separator path) -> c ∈ omap body_component l ->
    c = ParentDir \/ exists name, c = Normal name /\ plain_segment name) as Hbody.
  { intros l Hl (s & Hs & Hb)%list_elem_of_omap. eapply body_component_plain; [|exact Hb]. by apply Hf, Hl. }
  unfold path_components. destruct (has_root path); intros Hc Hr Hd.
  - apply elem_of_cons in Hc as [->|Hc]; [done|]. by eapply Hbody.
  - destruct (split_char path_separator path) as [|s l] eqn:Hs; [by apply not_elem_of_nil in Hc|].
    destruct (decide (s = ".")) as [->|Hne].
    + apply elem_of_cons in Hc as [->|Hc]; [done|]. eapply (Hbody l); [|done]. intros ??. by right.
    + assert (c ∈ omap body_component (s :: l)) as Hc'; [|by eapply (Hbody (s :: l))].
      repeat (destruct s as [|[[] [] [] [] [] [] [] []] s]; try exact Hc). by destruct Hne.
Qed.

Lemma file_name_plain path name : path_file_name path = Some name -> plain_segment name.
Proof.
  unfold path_file_name. destruct (last (path_components path)) as [c|] eqn:Hl; [|done].
  destruct c; try done. intros [= ->]. apply last_Some_elem_of in Hl.
  destruct (components_body path (Normal name) Hl) as [?|(n & [= <-] & ?)]; done.
Qed.

(** ** Parents are shorter *)

Lemma drop_skipped_spec rooted l :
  (exists l0, l = l0 ++ drop_skipped rooted l) /\ (forall x l', drop_skipped rooted l = x :: l' -> x <> "").
Proof.
  induction l as [|x [|y l] IH]; simpl.
  - split; [by exists []|done].
  - case_decide; subst; [split; [by exists [""]|done]|].
    destruct (rooted && bool_decide (x = ".")); [split; [by exists [x]|done]|].
    split; [by exists []|]. naive_solver.
  - case_decide as Hx.
    + destruct IH as [(l0 & Hl) Hne]. split; [|done]. exists (x :: l0).
      change (x :: y :: l = x :: (l0 ++ drop_skipped rooted (y :: l))). by rewrite <- Hl.
    + split; [by exists []|]. naive_solver.
Qed.

Lemma length_join_app sep l l' :
  String.length (join sep l) <= String.length (join sep (l ++ l')).
Proof. rewrite !length_join, sum_list_with_app, length_app. nia. Qed.

Lemma path_parent_shorter path parent :
  path_parent path = Some parent -> String.length parent < String.length path.
Proof.
  unfold path_parent. set (rooted := has_root path).
  destruct (join_split_char path_separator path) as (Hj & Hne & _).
  set (body := if rooted then tail _ else _).
  assert (String.length path = (if rooted then 1 else 0) + String.length (join "/" body) \/
    (rooted = true /\ body = [])) as Hlen.
  { subst body. destruct rooted eqn:Hr; [|left; exact (f_equal String.length (eq_sym Hj))].
    destruct (has_root_cons path Hr) as [r ->]. simpl.
    destruct (join_split_char path_separator r) as (Hjr & Hner & _).
    left. exact (f_equal (fun s => S (String.length s)) (eq_sym Hjr)). }
  clearbody body. destruct (drop_skipped_spec rooted (reverse body)) as [(l0 & Hl) Hx].
  destruct (drop_skipped rooted (reverse body)) as [|x rest] eqn:Hd; [done|].
  specialize (Hx x rest eq_refl). intros [= <-].
  assert (body = (reverse rest ++ [x]) ++ reverse l0) as Hbody.
  { rewrite <- (reverse_involutive body), Hl, reverse_app, reverse_cons. done. }
  destruct Hlen as [Hlen|[_ ->]]; [|by destruct rest, l0].
  rewrite Hlen, str_length_app.
  assert (String.length (join "/" (reverse (drop_skipped rooted rest))) < String.length (join "/" body)) as Hlt.
  2:{ destruct rooted; simpl; lia. }
  destruct (drop_skipped_spec rooted rest) as [(l1 & Hl1) _].
  assert (String.length (join "/" (reverse (drop_skipped rooted rest))) <= String.length (join "/" (reverse rest))) as H1.
  { rewrite Hl1 at 2. rewrite reverse_app. apply length_join_app. }
  assert (String.length (join "/" (reverse rest ++ [x])) <= String.length (join "/" body)) as H2
    by (rewrite Hbody; apply length_join_app).
  assert (String.length (join "/" (reverse rest)) < String.length (join "/" (reverse rest ++ [x]))); [|lia].
  rewrite !length_join, sum_list_with_app, length_app. simpl.
  destruct x as [|c x]; [done|]. simpl. nia.
Qed.

(** The segments that are dropped are no components. *)
Lemma drop_skipped_components l :
  omap body_component (reverse (drop_skipped true l)) = omap body_component (reverse l) /\
  forall x l', drop_skipped true l = x :: l' -> is_Some (body_component x).
Proof.
  assert (forall x, x <> "" -> x <> "." -> is_Some (body_component x)) as Hb.
  { intros x H1 H2. unfold body_component. rewrite !decide_False by done. by case_decide; eexists. }
  induction l as [|x [|y l] IH].
  - done.
  - cbn [drop_skipped]. case_decide; subst; [done|]. case_bool_decide; subst; [done|].
    split; [done|]. intros ? ? [= <- <-]. by apply Hb.
  - change (drop_skipped true (x :: y :: l))
      with (if decide (x = "" \/ x = ".") then drop_skipped true (y :: l) else x :: y :: l).
    case_decide as Hx.
    + destruct IH as [IH1 IH2]. split; [|done]. rewrite IH1, (reverse_cons (y :: l) x), omap_app.
      destruct Hx as [-> | ->]; simpl; by rewrite app_nil_r.
    + split; [done|]. intros ? ? [= <- <-]. apply Hb; tauto.
Qed.

Lemma rooted_components r : path_components (String "/" r) = RootDir :: omap body_component (split_char path_separator r).
Proof. by rewrite components_rooted. Qed.

(** The components of a parent are those of the path but the last; only the root
    has none. *)
Lemma parent_components c :
  has_root c = true ->
  match path_parent c with
  | None => path_components c = [RootDir]
  | Some parent => has_root parent = true /\ exists x, path_components c = path_components parent ++ [x]
  end.
Proof.
  intros [r ->]%has_root_cons. rewrite rooted_components. unfold path_parent.
  change (has_root (String "/" r)) with true. cbv iota.
  change (tail (split_char path_separator (String "/" r))) with (split_char path_separator r).
  destruct (join_split_char path_separator r) as (_ & _ & Hl). set (body := split_char path_separator r) in *.
  destruct (drop_skipped_components (reverse body)) as [Ho Hs]. rewrite reverse_involutive in Ho.
  destruct (drop_skipped_spec true (reverse body)) as [(l0 & Hl0) _].
  destruct (drop_skipped true (reverse body)) as [|x rest]; [by rewrite <- Ho|].
  destruct (Hs x rest eq_refl) as [cx Hcx]. split; [done|]. exists cx.
  change ("/" +:+ ?t) with (String "/" t). rewrite rooted_components, <- Ho, reverse_cons, omap_app. simpl. rewrite Hcx.
  f_equal. f_equal. destruct (drop_skipped_components rest) as [<- _].
  destruct (drop_skipped_spec true rest) as [(l1 & Hl1) _]. set (rest' := drop_skipped true rest) in *.
  destruct (decide (rest' = [])) as [->|Hne]; [done|].
  f_equal. symmetry. apply (split_char_join path_separator).
  { intros Hn. apply Hne. rewrite <- (reverse_involutive rest'), Hn. done. }
  assert (reverse body = l0 ++ x :: l1 ++ rest') as Hbody by (rewrite Hl0, Hl1; done).
  apply Forall_forall. intros t Ht. rewrite Forall_forall in Hl. apply Hl.
  rewrite <- (reverse_involutive body), Hbody. rewrite elem_of_reverse in Ht |- *. set_solver.
Qed.

Lemma root_component c : RootDir ∈ path_components c -> has_root c = true.
Proof.
  destruct (has_root c) eqn:E; [done|]. unfold path_components. rewrite E. intros H. exfalso.
  assert (forall l : list string, RootDir ∉ omap body_component l) as Hn.
  { intros l (x & _ & Hx)%list_elem_of_omap. unfold body_component in Hx. by repeat case_decide. }
  destruct (split_char path_separator c) as [|x l]; [by apply not_elem_of_nil in H|].
  destruct (decide (x = ".")) as [->|Hne].
  - apply elem_of_cons in H as [H|H]; [done|by eapply Hn].
  - apply (Hn (x :: l)). repeat (destruct x as [|[[] [] [] [] [] [] [] []] x]; try exact H). by destruct Hne.
Qed.

(** The parent of a plain path. *)
Lemma plain_parent path parent :
  plain_path path -> path_parent path = Some parent ->
  has_root parent = true /\ exists name, plain_segment name /\ path_components path = path_components parent ++ [Normal name].
Proof.
  intros [Hr (names & Hn & Hc)] Hp. pose proof (parent_components path Hr) as H. rewrite Hp in H.
  destruct H as (Hr' & x & Hx). split; [done|]. rewrite Hc in Hx. rewrite (components_rooted parent Hr') in Hx |- *.
  simpl in Hx. injection Hx as Hx.
  assert (exists l name, names = l ++ [name] /\ x = Normal name) as (l & name & -> & ->).
  { destruct names as [|name l _] using rev_ind; [by destruct (omap _ _)|].
    rewrite map_app in Hx. simpl in Hx. apply app_inj_tail in Hx as [_ <-]. eauto. }
  exists name. apply Forall_app in Hn as [_ Hn]. split; [by apply Forall_singleton|]. rewrite Hc. simpl. by rewrite Hx.
Qed.

(** ** The normal form *)

Lemma normalize_fold cs parts :
  Forall (fun c => c = ParentDir \/ exists name, c = Normal name /\ plain_segment name) cs ->
  Forall plain_segment parts ->
  exists names, foldl normalize_component (true, parts) cs = (true, names) /\ Forall plain_segment names.
Proof.
  intros Hcs. revert parts. induction Hcs as [|c cs Hc Hcs IH]; intros parts Hp; simpl; [by exists parts|].
  destruct Hc as [->|(name & -> & Hname)].
  - destruct (last parts) as [x|] eqn:Hx; [|by apply IH].
    assert (x <> "..") as Hne.
    { intros ->. apply last_Some_elem_of in Hx. rewrite Forall_forall in Hp. by destruct (Hp ".." Hx). }
    rewrite decide_True by done. apply IH. apply last_Some in Hx as [l ->].
    rewrite removelast_last. by apply Forall_app in Hp as [? _].
  - apply IH. apply Forall_app. split; [done|]. by apply Forall_singleton.
Qed.

(** The normal form of an absolute path. *)
Lemma normalize_plain path : has_root path = true -> plain_path (normalize_without_fs path).
Proof.
  intros Hr. unfold normalize_without_fs. rewrite components_rooted by done. simpl.
  destruct (normalize_fold (omap body_component (split_char path_separator path)) [])
    as (names & -> & Hnames); [|constructor|].
  { apply Forall_forall. intros c (s & Hs & Hb)%list_elem_of_omap.
    destruct (join_split_char path_separator path) as (_ & _ & Hf). rewrite Forall_forall in Hf.
    eapply body_component_plain; [by apply Hf|done]. }
  change (path_join "" "/") with "/".
  destruct (components_join_all "/" names eq_refl Hnames) as [Hroot Hc].
  assert (str_is_empty (foldl path_join "/" names) = false) as ->
    by (destruct (has_root_cons _ Hroot) as [r ->]; done).
  split; [done|]. by exists names.
Qed.

(** ** Keeping an assertion *)

(** Split a computation into its steps, and the steps into their cases. *)
Ltac confine :=
  repeat lazymatch goal with
  | |- forall _, _ => intro
  | |- preserves _ (ret _) => apply preserves_ret
  | |- preserves _ (try_bind _ _) => apply preserves_try_bind
  | |- preserves _ (try_map_err _ _) => apply preserves_try_map_err
  | |- preserves _ (bind _ _) => apply preserves_bind
  | |- preserves _ (if ?b then _ else _) => destruct b
  | |- preserves _ (match ?x with _ => _ end) => destruct x eqn:?
  | |- preserves _ _ => solve [eauto 3]
  end.

(** ** Where paths lead *)

Section resolve.
Context {W : Type}.
Variable fs : FileSystem W.

Lemma ensure_within root path :
  ensure_path_within_root root path = Ok tt -> path_components root `prefix_of` path_components path.
Proof.
  unfold ensure_path_within_root, path_starts_with. case_bool_decide; [done|by intros].
Qed.

Lemma plain_join_all path names : plain_path path -> Forall plain_segment names -> plain_path (foldl path_join path names).
Proof.
  intros [Hr (ns & Hns & Hc)] Hn. destruct (components_join_all path names Hr Hn) as [? Hc'].
  split; [done|]. exists (ns ++ names). split; [by apply Forall_app|]. rewrite Hc', Hc. simpl.
  by rewrite map_app.
Qed.

(** The search for an existing ancestor ends: more fuel changes nothing. *)
Lemma split_ancestor_fuel fuel fuel' path cursor suffix w :
  String.length cursor < fuel -> String.length cursor < fuel' ->
  split_existing_ancestor_loop fs fuel path cursor suffix w
  = split_existing_ancestor_loop fs fuel' path cursor suffix w.
Proof.
  revert fuel' cursor suffix w. induction fuel as [|fuel IH]; intros [|fuel'] cursor suffix w H H'; try lia.
  simpl. unfold bind. destruct (fs_exists fs cursor w) as [[[]|] w1]; try done.
  destruct (path_file_name cursor); [|done]. destruct (path_parent cursor) as [parent|] eqn:Hp; [|done].
  apply path_parent_shorter in Hp. apply IH; lia.
Qed.

(** [real w p] is the path [p] leads to in the world [w], all links followed, if there
    is anything. *)
Variable real : W -> string -> option string.

Definition same_view (w w' : W) : Prop := forall p, real w' p = real w p.

(** What the code relies on of the file system, which nobody else changes meanwhile.
    Looking and writing to open files change no path.  [exists] follows links;
    [canonicalize] answers where a path leads, absolute and without dots, and such a
    path leads to itself.  What [p/n] leads to depends on what [p] leads to, and is
    nothing if [p] leads to nothing.  [create_dir_all] changes nothing if the directory
    is there, and otherwise makes real, empty directories.  A temporary file is new, is
    no link, and its directory is there. *)
Record file_view : Prop := {
  fv_current_dir : forall w, same_view w (fs_current_dir fs w).2;
  fv_look_exists : forall p w, same_view w (fs_exists fs p w).2;
  fv_is_dir : forall p w, same_view w (fs_is_dir fs p w).2;
  fv_is_symlink : forall p w, same_view w (fs_is_symlink fs p w).2;
  fv_look_canonicalize : forall p w, same_view w (fs_canonicalize fs p w).2;
  fv_look_read : forall p w, same_view w (fs_read_to_string fs p w).2;
  fv_write_all : forall p c w, same_view w (fs_write_all fs p c w).2;
  fv_sync_all : forall p w, same_view w (fs_sync_all fs p w).2;
  fv_exists : forall p w b w', fs_exists fs p w = (Returned b, w') -> b = bool_decide (is_Some (real w p));
  fv_canonicalize : forall p w q w', fs_canonicalize fs p w = (Returned (Ok q), w') ->
    real w p = Some q /\ plain_path q;
  fv_canonical : forall p w q, real w p = Some q -> real w q = Some q;
  fv_read : forall p w t w', fs_read_to_string fs p w = (Returned (Ok t), w') -> is_Some (real w p);
  fv_components : forall p p' w, path_components p = path_components p' -> real w p = real w p';
  fv_below : forall p n w q, plain_segment n -> real w p = Some q -> real w (path_join p n) = real w (path_join q n);
  fv_parent : forall p n w, has_root p = true -> plain_segment n -> is_Some (real w (path_join p n)) ->
    is_Some (real w p);
  fv_mkdir_existing : forall d w w', fs_create_dir_all fs d w = (Returned (Ok tt), w') -> is_Some (real w d) ->
    same_view w w';
  fv_mkdir_missing : forall d a n names w w', fs_create_dir_all fs d w = (Returned (Ok tt), w') ->
    plain_path a -> Forall plain_segment (n :: names) -> real w a = Some a -> real w (path_join a n) = None ->
    path_components d = path_components (foldl path_join a (n :: names)) ->
    real w' (foldl path_join a (n :: names)) = Some (foldl path_join a (n :: names)) /\
    forall m, plain_segment m -> real w' (path_join (foldl path_join a (n :: names)) m) = None;
  fv_temp : forall d w temp w', fs_new_temp_in fs d w = (Returned (Ok temp), w') ->
    is_Some (real w d) /\ (forall p q, real w p = Some q -> real w' p = Some q) /\
    forall a n, plain_path a -> plain_segment n -> real w a = Some a -> real w (path_join a n) = None ->
      real w' (path_join a n) = None \/ real w' (path_join a n) = Some (path_join a n);
}.

(** A path below the root, absolute and without [.] and [..]. *)
Definition under (root path : string) : Prop :=
  plain_path path /\ path_components root `prefix_of` path_components path.

(** A path whose use stays in the root: it leads to itself, under the root; or it is
    missing, from an entry on of a directory under the root that leads to itself. *)
Definition lands (root : string) (w : W) (p : string) : Prop :=
  under root p /\
  (real w p = Some p \/
   exists a n names, under root a /\ real w a = Some a /\ Forall plain_segment (n :: names) /\
     p = foldl path_join a (n :: names) /\ real w (path_join a n) = None).

Hypothesis view : file_view.

Lemma under_join root a names : under root a -> Forall plain_segment names -> under root (foldl path_join a names).
Proof.
  intros [Hp Hr] Hn. split; [by apply plain_join_all|]. destruct Hp as [Ha _].
  destruct (components_join_all a names Ha Hn) as [_ ->]. by apply prefix_app_r.
Qed.

Lemma lands_same root w w' p : same_view w w' -> lands root w p -> lands root w' p.
Proof.
  intros Hv [Hu H]. split; [done|]. destruct H as [H|(a & n & names & ? & ? & ? & ? & ?)]; [left; by rewrite Hv|].
  right. exists a, n, names. by rewrite !Hv.
Qed.

Lemma missing_below a n names w :
  has_root a = true -> Forall plain_segment (n :: names) -> real w (path_join a n) = None ->
  real w (foldl path_join a (n :: names)) = None.
Proof.
  intros Ha Hn Hm.
  assert (forall names, Forall plain_segment (n :: names) -> is_Some (real w (foldl path_join a (n :: names))) -> False) as Hno.
  { clear names Hn. intros names. induction names as [|m names IH] using rev_ind; intros Hn Hs.
    - simpl in Hs. rewrite Hm in Hs. by destruct Hs.
    - rewrite app_comm_cons in Hn, Hs. apply Forall_app in Hn as [Hn Hl%Forall_inv].
      rewrite foldl_app in Hs. simpl in Hs. apply (IH Hn). eapply (fv_parent view); [|exact Hl|exact Hs].
      by apply (components_join_all a (n :: names)). }
  destruct (real w (foldl path_join a (n :: names))) as [q|] eqn:E; [|done]. exfalso. eapply Hno; [exact Hn|]. by rewrite E.
Qed.

(** The existing ancestor that is found, and the missing names below it. *)
Lemma split_ancestor_spec w0 fuel path cursor suffix w ancestor names w' :
  same_view w0 w -> has_root cursor = true ->
  split_existing_ancestor_loop fs fuel path cursor suffix w = (Returned (Ok (ancestor, names)), w') ->
  same_view w0 w' /\ has_root ancestor = true /\
  exists missing, names = missing ++ reverse suffix /\ Forall plain_segment missing /\
    path_components cursor = path_components ancestor ++ map Normal missing /\
    forall n rest, missing = n :: rest -> real w0 (path_join ancestor n) = None.
Proof.
  revert cursor suffix w. induction fuel as [|fuel IH]; intros cursor suffix w Hv Hr H; simpl in H; [by rust_inv|].
  apply bind_returned in H as (b & w1 & He & H). pose proof (fv_look_exists view cursor w) as Hv1. rewrite He in Hv1.
  apply (fv_exists view) in He. assert (same_view w0 w1) as Hv' by (intros p; by rewrite Hv1, Hv).
  destruct b; [rust_inv; split_and!; [done..|]; exists []; simpl; rewrite app_nil_r; by split_and!|].
  destruct (path_file_name cursor) as [name|] eqn:Hn; [|by rust_inv].
  pose proof (parent_components cursor Hr) as Hp. destruct (path_parent cursor) as [parent|]; [|by rust_inv].
  destruct Hp as (Hr' & x & Hx). pose proof (file_name_plain cursor name Hn) as Hplain.
  unfold path_file_name in Hn. rewrite Hx, last_snoc in Hn. destruct x; simplify_eq.
  apply IH in H as (? & Ha & missing & -> & Hm & Hc & Hfirst); [|done|done]. split_and!; [done..|].
  exists (missing ++ [name]). split_and!.
  - rewrite reverse_app, <- app_assoc. done.
  - apply Forall_app. split; [done|by apply Forall_singleton].
  - by rewrite Hx, Hc, map_app, <- app_assoc.
  - intros n rest Hnr. destruct missing as [|m missing]; simplify_eq/=; [|by eapply Hfirst].
    rewrite (fv_components view _ cursor).
    + rewrite <- Hv. symmetry in He. apply bool_decide_eq_false in He. destruct (real w cursor); [|done].
      by destruct He.
    + destruct (components_join ancestor n Ha Hplain) as [_ ->]. rewrite Hx, Hc. by rewrite app_nil_r.
Qed.

(** A path that is resolved under a root lands there. *)
Lemma resolve_lands root normalized w p w' :
  has_root root = true -> resolve_path_within_root fs root normalized w = (Returned (Ok p), w') -> lands root w p.
Proof.
  intros Hroot H. unfold resolve_path_within_root in H. apply bind_returned in H as (b & w1 & He & H).
  pose proof (fv_look_exists view normalized w) as Hv. rewrite He in Hv. apply (fv_exists view) in He. destruct b.
  - apply try_bind_ok in H as (c & w2 & Hc%try_map_err_ok & H).
    apply try_bind_ok in H as ([] & w3 & Hin & H). unfold ret in Hin, H. simplify_eq.
    apply (fv_canonicalize view) in Hc as [Hc Hp]. split; [split; [done|by apply ensure_within]|].
    left. rewrite Hv in Hc. by eapply (fv_canonical view).
  - apply try_bind_ok in H as ([] & w2 & Hin & H). injection Hin as Hin <-. apply ensure_within in Hin as Hin'.
    assert (has_root normalized = true) as Hnr.
    { apply root_component. destruct Hin' as [k ->]. rewrite components_rooted by done. set_solver. }
    apply try_bind_ok in H as ([ancestor suffix] & w3 & Hs & H).
    apply (split_ancestor_spec w) in Hs as (Hv3 & Ha & missing & -> & Hm & Hcomp & Hfirst); [|exact Hv|done].
    apply try_bind_ok in H as (c & w4 & Hc%try_map_err_ok & H). apply (fv_canonicalize view) in Hc as [Hc Hp].
    apply try_bind_ok in H as ([] & w5 & Hin1 & H). apply try_bind_ok in H as ([] & w6 & Hin2 & H).
    injection Hin1 as Hin1 <-. injection Hin2 as Hin2 <-. injection H as <- <-. rewrite app_nil_r in *.
    apply ensure_within in Hin1. apply ensure_within in Hin2. rewrite Hv3 in Hc.
    split; [split; [by apply plain_join_all|done]|]. destruct missing as [|n rest].
    + exfalso. symmetry in He. apply bool_decide_eq_false in He. apply He.
      rewrite (fv_components view normalized ancestor) by (by rewrite Hcomp; simpl; rewrite app_nil_r). by rewrite Hc.
    + right. exists c, n, rest. split_and!; [by split|by eapply (fv_canonical view)|done|done|].
      rewrite <- (fv_below view ancestor n w c); [by eapply Hfirst|by apply Forall_cons in Hm as [? _]|done].
Qed.

(** Making the directory of a path keeps where the path lands. *)
Lemma mkdir_lands root w p parent w' :
  lands root w p -> path_parent p = Some parent -> fs_create_dir_all fs parent w = (Returned (Ok tt), w') ->
  lands root w' p.
Proof.
  intros Hl Hp Hmk. pose proof Hl as [[Hplain Hr] Hcase].
  destruct (plain_parent p parent Hplain Hp) as (Hpr & l & Hls & Hcomp).
  assert (is_Some (real w parent) -> lands root w' p) as Hthere
    by (intros Hs; eapply lands_same; [by eapply (fv_mkdir_existing view)|done]).
  destruct Hcase as [Hreal|(a & n & names & Hua & Ha & Hn & -> & Hm)].
  - apply Hthere. eapply (fv_parent view); [done|exact Hls|].
    rewrite (fv_components view _ p); [by rewrite Hreal|]. by destruct (components_join parent l Hpr Hls) as [_ ->].
  - assert (has_root a = true) as Har by apply Hua.
    destruct (components_join_all a (n :: names) Har Hn) as [_ Hc]. rewrite Hc in Hcomp.
    destruct names as [|l' names _] using rev_ind.
    + apply app_inj_tail in Hcomp as [Hcomp _]. apply Hthere.
      rewrite <- (fv_components view a parent) by done. by rewrite Ha.
    + rewrite app_comm_cons in Hn, Hcomp. apply Forall_app in Hn as [Hn Hl'%Forall_inv].
      rewrite map_app, app_assoc in Hcomp. apply app_inj_tail in Hcomp as [Hcomp [= <-]].
      destruct (components_join_all a (n :: names) Har Hn) as [_ Hc'].
      destruct (fv_mkdir_missing view parent a n names w w' Hmk) as [Hreal Hempty]; try done;
        [apply Hua|by rewrite Hc'|]. split; [split; [done|exact Hr]|].
      right. exists (foldl path_join a (n :: names)), l', [].
      split_and!; [by apply under_join|done|by apply Forall_singleton|by rewrite app_comm_cons, foldl_app|by apply Hempty].
Qed.

(** So does making a temporary file in that directory. *)
Lemma temp_lands root w p temp w' :
  lands root w p -> fs_new_temp_in fs (default "." (path_parent p)) w = (Returned (Ok temp), w') -> lands root w' p.
Proof.
  intros [Hu Hcase] (Hdir & Hold & Hnew)%(fv_temp view). split; [done|].
  destruct Hcase as [Hreal|(a & n & names & Hua & Ha & Hn & -> & Hm)]; [left; by apply Hold|].
  assert (has_root a = true) as Har by apply Hua.
  destruct names as [|l names _] using rev_ind.
  - destruct (Hnew a n) as [Hnone|Hsome]; [apply Hua|by apply Forall_inv in Hn|done..| |by left].
    right. exists a, n, []. by split_and!; [| apply Hold|..].
  - exfalso. destruct (components_join_all a (n :: names ++ [l]) Har Hn) as [Hr Hc].
    rewrite app_comm_cons in Hn. apply Forall_app in Hn as [Hn Hl%Forall_inv].
    destruct (components_join_all a (n :: names) Har Hn) as [_ Hc'].
    rewrite (components_rooted a Har) in Hc. pose proof (parent_components _ Hr) as Hp. rewrite Hc in Hp.
    destruct (path_parent _) as [parent|].
    + simpl in Hdir. destruct Hp as (_ & x & Hx).
      rewrite app_comm_cons, map_app, app_assoc, <- (components_rooted a Har), <- Hc' in Hx. simpl in Hx.
      apply app_inj_tail in Hx as [Hx _]. rewrite <- (fv_components view _ parent w Hx) in Hdir.
      pose proof (missing_below a n names w Har Hn Hm) as Hno. simpl in Hno, Hdir. rewrite Hno in Hdir. by destruct Hdir.
    + rewrite app_comm_cons, map_app, app_assoc in Hp. simpl in Hp. by destruct (omap _ _).
Qed.

(** ** What the tools read and change *)

Variable emit_file_change_preview : ToolFileChangePreview -> M W unit.

(** An assertion about the world that asking the file system about paths and telling
    the event sink keep. *)
Record watches (I : W -> Prop) : Prop := {
  wt_current_dir : preserves I (fs_current_dir fs);
  wt_exists : forall p, preserves I (fs_exists fs p);
  wt_is_dir : forall p, preserves I (fs_is_dir fs p);
  wt_is_symlink : forall p, preserves I (fs_is_symlink fs p);
  wt_canonicalize : forall p, preserves I (fs_canonicalize fs p);
  wt_emit : forall e, preserves I (emit_file_change_preview e);
}.

(** A file opened where a path lands, and a temporary file made in the directory of such
    a path. *)
Definition opened (root p : string) : Prop :=
  exists w w', lands root w p /\ fs_create_new fs p w = (Returned (Ok tt), w').
Definition temp_of (root p temp : string) : Prop :=
  exists w w', lands root w p /\ fs_new_temp_in fs (default "." (path_parent p)) w = (Returned (Ok temp), w').

(** And that reading and changing what lands in the root keep: a file is written in
    place only at a path that leads to itself; elsewhere it is created anew, or a
    temporary file in its directory takes its place.  The directory of a path that
    lands in the root may be created. *)
Record confines (root : string) (I : W -> Prop) : Prop := {
  cf_read : forall p w, lands root w p -> I w -> I (fs_read fs p w).2;
  cf_read_to_string : forall p w, lands root w p -> I w -> I (fs_read_to_string fs p w).2;
  cf_write : forall p c w, under root p -> real w p = Some p -> I w -> I (fs_write fs p c w).2;
  cf_create_dir_all : forall p parent w, lands root w p -> path_parent p = Some parent -> I w ->
    I (fs_create_dir_all fs parent w).2;
  cf_create_new : forall p w, lands root w p -> I w -> I (fs_create_new fs p w).2;
  cf_opened : forall p c, opened root p -> preserves I (fs_write_all fs p c);
  cf_new_temp : forall p w, lands root w p -> I w -> I (fs_new_temp_in fs (default "." (path_parent p)) w).2;
  cf_temp : forall p temp, temp_of root p temp ->
    (forall c, preserves I (fs_write_all fs temp c)) /\ preserves I (fs_sync_all fs temp) /\
    preserves I (fs_drop_temp fs temp);
  cf_persist : forall p temp w, temp_of root p temp -> lands root w p -> I w -> I (fs_persist fs temp p w).2;
}.

Section confined.
Variables (root : string) (I : W -> Prop).
Hypothesis watched : watches I.
Hypothesis confined : confines root I.

(** From [P], [m] keeps [I] and establishes [Q] of its answer. *)
Definition step {A} (P : W -> Prop) (m : M W A) (Q : A -> W -> Prop) : Prop :=
  forall w, P w -> I (m w).2 /\ forall a, (m w).1 = Returned a -> Q a (m w).2.
Definition on_ok {A E} (Q : A -> W -> Prop) (r : result A E) : W -> Prop :=
  match r with Ok a => Q a | Err _ => fun _ => True end.
(** From [P], [m] keeps [I]. *)
Definition ends {A} (P : W -> Prop) (m : M W A) : Prop := forall w, P w -> I (m w).2.

Lemma ends_bind {A B} P Q (m : M W A) (f : A -> M W B) :
  step P m Q -> (forall a, ends (Q a) (f a)) -> ends P (bind m f).
Proof.
  intros Hm Hf w Hw. destruct (Hm w Hw) as [Hi Hq]. unfold bind. destruct (m w) as [[a|] w1]; [|done].
  by apply (Hf a), Hq.
Qed.

Lemma ends_try {A B E} P Q (m : M W (result A E)) (f : A -> M W (result B E)) :
  step P m (on_ok Q) -> (forall a, ends (Q a) (f a)) -> ends P (try_bind m f).
Proof.
  intros Hm Hf w Hw. destruct (Hm w Hw) as [Hi Hq]. unfold try_bind, bind.
  destruct (m w) as [[[a|e]|] w1]; [|done|done]. by apply (Hf a), (Hq (Ok a)).
Qed.

Lemma ends_ret {A} (P : W -> Prop) (a : A) : (forall w, P w -> I w) -> ends P (ret a).
Proof. intros HP w Hw. by apply HP. Qed.

Lemma step_ends {A} P (m : M W A) : ends P m -> step P m (fun _ => I).
Proof. intros Hm w Hw. split; [by apply Hm|]. intros a _. by apply Hm. Qed.

Lemma step_map_err {A E F} P Q (g : E -> F) (m : M W (result A E)) :
  step P m (on_ok Q) -> step P (try_map_err g m) (on_ok Q).
Proof.
  intros Hm w Hw. destruct (Hm w Hw) as [Hi Hq]. unfold try_map_err, bind.
  destruct (m w) as [[[a|e]|] w1]; (split; [done|]); intros r [= <-]; [by apply (Hq (Ok a))|done].
Qed.

Lemma step_try_ret {A B E} P Q (g : A -> B) (m : M W (result A E)) :
  step P m (on_ok (fun _ => Q)) -> step P (try_bind m (fun a => ret (Ok (g a)))) (on_ok (fun _ => Q)).
Proof.
  intros Hm w Hw. destruct (Hm w Hw) as [Hi Hq]. unfold try_bind, bind.
  destruct (m w) as [[[a|e]|] w1]; (split; [done|]); intros r [= <-]; [by apply (Hq (Ok a))|done].
Qed.

(** [I], and the path lands in the root. *)
Definition L (p : string) (w : W) : Prop := I w /\ lands root w p.

Lemma L_I p w : L p w -> I w.
Proof. by intros [? _]. Qed.

Lemma step_pure {A} (P : W -> Prop) (a : A) : (forall w, P w -> I w) -> step P (ret a) (fun _ => P).
Proof. intros HP w Hw. split; [by apply HP|done]. Qed.

Lemma step_pure_ok {A E} (P : W -> Prop) (r : result A E) : (forall w, P w -> I w) -> step P (ret r) (on_ok (fun _ => P)).
Proof. intros HP w Hw. split; [by apply HP|]. intros a [= <-]. by destruct r. Qed.

Lemma step_look {A} p (m : M W A) :
  (forall w, lands root w p -> I w -> I (m w).2) -> (forall w, same_view w (m w).2) -> step (L p) m (fun _ => L p).
Proof.
  intros Hi Hv w [Hw Hl]. split; [by apply Hi|]. intros a _. split; [by apply Hi|]. by eapply lands_same.
Qed.

Lemma step_on_ok {A E} p (m : M W (result A E)) : step (L p) m (fun _ => L p) -> step (L p) m (on_ok (fun _ => L p)).
Proof. intros Hm w Hw. destruct (Hm w Hw) as [Hi Hq]. split; [done|]. intros [a|e] Ha; [by apply (Hq (Ok a))|done]. Qed.

Lemma refuse_directory_ends {A} p (rest : M W (result A string)) :
  ends (L p) rest -> ends (L p) (refuse_directory fs p rest).
Proof.
  intros H. unfold refuse_directory. eapply ends_bind.
  - apply (step_look p); [intros w _; apply (wt_is_dir _ watched)|apply (fv_is_dir view)].
  - intros []; [apply ends_ret, L_I|done].
Qed.

Lemma read_to_string_lands p : step (L p) (fs_read_to_string fs p) (on_ok (fun _ => L p)).
Proof.
  apply step_on_ok, step_look; [intros w; apply (cf_read_to_string _ _ confined)|intros w; apply (fv_look_read view)].
Qed.

(** A file that can be read leads to itself. *)
Lemma read_real p :
  step (L p) (fs_read_to_string fs p) (on_ok (fun _ w => I w /\ under root p /\ real w p = Some p)).
Proof.
  intros w Hw. destruct (read_to_string_lands p w Hw) as [Hi Hq]. split; [done|].
  intros [t|e] Ht; [|done]. destruct (Hq (Ok t) Ht) as [Hi' Hl].
  destruct (fs_read_to_string fs p w) as [r w'] eqn:E. simpl in *. subst r.
  pose proof (fv_look_read view p w) as Hv. rewrite E in Hv. apply (fv_read view) in E.
  destruct Hl as [Hu [Hr|(a & n & names & Hua & Ha & Hn & -> & Hm)]]; [by split_and!|].
  exfalso. rewrite <- Hv in E. assert (has_root a = true) as Har by apply Hua.
  pose proof (missing_below a n names _ Har Hn Hm) as Hno. simpl in Hno, E. rewrite Hno in E. by destruct E.
Qed.

Lemma create_parent_lands p create_dirs :
  step (L p) (match path_parent p with
       | Some parent =>
           if create_dirs : bool
           then try_map_err (fun error => "failed to create parent directory " +:+ parent +:+ ": " +:+ error)
                  (fs_create_dir_all fs parent)
           else ret (Ok tt)
       | None => ret (Ok tt)
       end) (on_ok (fun _ => L p)).
Proof.
  destruct (path_parent p) as [parent|] eqn:Hp; [|apply step_pure_ok, L_I].
  destruct create_dirs; [|apply step_pure_ok, L_I]. apply step_map_err. intros w [Hw Hl].
  pose proof (cf_create_dir_all _ _ confined p parent w Hl Hp Hw) as Hi. split; [done|].
  intros [[]|e] Ha; [|done]. split; [done|].
  destruct (fs_create_dir_all fs parent w) as [r w'] eqn:E. simpl in Ha. subst r. by eapply mkdir_lands.
Qed.

Lemma write_new_ends p content : ends (L p) (write_new_file_without_overwrite fs p content).
Proof.
  unfold write_new_file_without_overwrite. apply (ends_try _ (fun _ w => I w /\ opened root p)).
  - apply step_map_err. intros w [Hw Hl]. pose proof (cf_create_new _ _ confined p w Hl Hw) as Hi. split; [done|].
    intros [[]|e] Ha; [|done]. split; [done|].
    destruct (fs_create_new fs p w) as [r w'] eqn:E. simpl in Ha. subst r. by exists w, w'.
  - intros [] w [Hw Ho]. apply (preserves_try_map_err I); [|done]. by apply (cf_opened _ _ confined).
Qed.

Lemma write_atomically_ends p content : ends (L p) (write_file_atomically fs p content).
Proof.
  unfold write_file_atomically. apply (ends_try _ (fun temp w => L p w /\ temp_of root p temp)).
  - apply step_map_err. intros w [Hw Hl]. pose proof (cf_new_temp _ _ confined p w Hl Hw) as Hi. split; [done|].
    intros [temp|e] Ha; [|done].
    destruct (fs_new_temp_in fs _ w) as [r w'] eqn:E. simpl in Ha. subst r.
    split; [split; [done|by eapply temp_lands]|by exists w, w'].
  - intros temp. set (P := fun w => L p w /\ temp_of root p temp).
    assert (forall m : M W (result unit string), (temp_of root p temp -> preserves I m) ->
      (forall w, same_view w (m w).2) -> step P (on_temp_file fs p temp m) (on_ok (fun _ => P))) as Hstep.
    { intros m Hm Hv w [[Hw Hl] Ht]. destruct (cf_temp _ _ confined p temp Ht) as (_ & _ & Hdrop).
      unfold on_temp_file, bind. pose proof (Hm Ht w Hw) as Hi. pose proof (Hv w) as Hvw.
      destruct (m w) as [[[[]|e]|] w1]; simpl in *.
      - split; [done|]. intros a [= <-]. split; [|done]. split; [done|]. by eapply lands_same.
      - pose proof (Hdrop w1 Hi) as Hd. destruct (fs_drop_temp fs temp w1) as [[[]|] w2]; (split; [done|]); by intros r [= <-].
      - by split. }
    apply (ends_try _ (fun _ => P)); [apply Hstep; [intros Ht; apply (cf_temp _ _ confined p temp Ht)|apply (fv_write_all view)]|].
    intros []. apply (ends_try _ (fun _ => P)); [apply Hstep; [intros Ht; apply (cf_temp _ _ confined p temp Ht)|apply (fv_sync_all view)]|].
    intros [] w [[Hw Hl] Ht]. destruct (cf_temp _ _ confined p temp Ht) as (_ & _ & Hdrop).
    pose proof (cf_persist _ _ confined p temp w Ht Hl Hw) as Hi.
    unfold on_temp_file, bind. destruct (fs_persist fs temp p w) as [[[[]|e]|] w1]; try done.
    pose proof (Hdrop w1 Hi) as Hd. by destruct (fs_drop_temp fs temp w1) as [[[]|] w2].
Qed.

Lemma read_ends p (f : string -> M W (result ToolCoreOutcome string)) :
  (forall bytes, ends I (f bytes)) ->
  ends (L p) (try_bind (try_map_err (fun error => "failed to read file " +:+ p +:+ ": " +:+ error) (fs_read fs p)) f).
Proof.
  intros Hf. apply (ends_try _ (fun _ => I)); [|done]. apply step_map_err. intros w [Hw Hl].
  pose proof (cf_read _ _ confined p w Hl Hw). split; [done|]. by intros [].
Qed.
End confined.

(** The root the tools resolve a path under in the world [w]. *)
Definition root_at (file_root : option string) (w : W) (root : string) : Prop :=
  exists path w1 w2, configured_root fs file_root w = (Returned path, w1) /\
    canonicalize_or_fallback fs path w1 = (Returned (Ok root), w2).

(** Whatever the root is, it is absolute and the assertion is confined to it. *)
Definition confined_at (file_root : option string) (I : W -> Prop) (w : W) : Prop :=
  forall root, root_at file_root w root -> has_root root = true /\ confines root I.

Lemma resolve_looks file_root raw I w0 :
  watches I -> preserves (fun w => I w /\ same_view w0 w) (resolve_safe_file_path_with_config fs file_root raw).
Proof.
  intros []. pose proof view as [].
  assert (forall A (m : M W A), preserves I m -> (forall w, same_view w (m w).2) ->
    preserves (fun w => I w /\ same_view w0 w) m) as Hlook.
  { intros A m Hi Hv w [Hw Hs]. split; [by apply Hi|]. intros p. by rewrite (Hv w p). }
  assert (forall fuel path cursor suffix, preserves (fun w => I w /\ same_view w0 w)
    (split_existing_ancestor_loop fs fuel path cursor suffix)) as Hsplit.
  { induction fuel as [|fuel IH]; intros path cursor suffix; simpl; confine. }
  unfold resolve_safe_file_path_with_config, configured_root, canonicalize_or_fallback, resolve_path_within_root,
    split_existing_ancestor. confine.
Qed.

(** After resolving, either the tool fails or goes on with a path that lands. *)
Lemma resolve_ends {B} file_root raw I w (f : string -> M W (result B string)) :
  watches I -> confined_at file_root I w -> I w ->
  (forall root p, confines root I -> ends I (L root I p) (f p)) ->
  I (try_bind (resolve_safe_file_path_with_config fs file_root raw) f w).2.
Proof.
  intros Hw Hc Hi Hf. destruct (resolve_looks file_root raw I w Hw w) as [Hi' Hv]; [done|].
  unfold try_bind, bind at 1. destruct (resolve_safe_file_path_with_config fs file_root raw w) as [[[p|e]|] w'] eqn:E; try done.
  simpl in Hi', Hv. unfold resolve_safe_file_path_with_config in E.
  apply bind_returned in E as (path & w1 & Hp & (root & w2 & Hr & E)%try_bind_ok).
  destruct (Hc root) as [Hroot Hcf]; [by exists path, w1, w2|]. apply (Hf root p Hcf). split; [done|].
  apply resolve_lands in E; [|done].
  assert (same_view w w2) as Hv2.
  { assert (forall w0 A (m : M W A) w3 r w4, same_view w0 w3 -> (forall w, same_view w (m w).2) ->
      m w3 = (r, w4) -> same_view w0 w4) as Hlook.
    { intros w0 A m w3 r w4 H3 Hm E4 q. specialize (Hm w3 q). rewrite E4 in Hm. simpl in Hm. by rewrite Hm. }
    assert (same_view w w1) as Hv1.
    { unfold configured_root in Hp. destruct file_root; [by unfold ret in Hp; simplify_eq|].
      apply bind_returned in Hp as (d & w3 & Hd & Hp). unfold ret in Hp. simplify_eq.
      eapply Hlook; [|apply (fv_current_dir view)|exact Hd]. by intros q. }
    unfold canonicalize_or_fallback in Hr. apply bind_returned in Hr as (b & w3 & Hb & Hr).
    assert (same_view w w3) as Hv3 by (eapply Hlook; [exact Hv1|apply (fv_look_exists view)|exact Hb]).
    destruct b; [|by unfold ret in Hr; simplify_eq]. apply try_map_err_ok in Hr.
    eapply Hlook; [exact Hv3|apply (fv_look_canonicalize view)|exact Hr]. }
  eapply lands_same; [|exact E]. intros q. by rewrite Hv, Hv2.
Qed.

Lemma try_ret_ends {A B E} (I : W -> Prop) (r : result A E) (f : A -> M W (result B E)) w :
  I w -> (forall a, I (f a w).2) -> I (try_bind (ret r) f w).2.
Proof. intros Hi Hf. destruct r as [a|e]; [apply (Hf a)|exact Hi]. Qed.

(** C14 (safety). The file tools read and change nothing outside the file root, also
    through links, while nobody else changes the file system.  Take any assertion about
    the world that survives asking the file system about paths, and reading and changing
    what lands in the root.  A path lands there if it is absolute and free of dots and
    either leads to itself, under the root, or is missing from an entry on of a directory
    under the root that leads to itself; its directory may be created, and may hold a
    temporary file that takes its place; and a file is written in place only at a path
    that leads to itself.  Then the assertion survives [file.read], [file.write] and
    [file.edit] with any request, whether they succeed, fail or panic.  (The root is the
    configured one or the current directory, and absolute.) *)
Theorem file_tools_confined file_root I request w :
  watches I -> confined_at file_root I w -> I w ->
  I (execute_file_read_tool_with_config fs file_root request w).2 /\
  I (execute_file_write_tool_with_config fs emit_file_change_preview file_root request w).2 /\
  I (execute_file_edit_tool_with_config fs emit_file_change_preview file_root request w).2.
Proof.
  intros Hw Hc Hi. split_and!.
  - unfold execute_file_read_tool_with_config. do 4 (apply (try_ret_ends I); [done|intros ?]).
    apply (resolve_ends file_root _ I w); [done..|]. intros root p Hcf. apply refuse_directory_ends; [done|].
    apply (read_ends root I Hcf). intros bytes w1 Hw1. by apply (try_ret_ends I).
  - unfold execute_file_write_tool_with_config. do 3 (apply (try_ret_ends I); [done|intros ?]).
    apply (resolve_ends file_root _ I w); [done..|]. intros root p Hcf. apply refuse_directory_ends; [done|].
    eapply ends_try; [by apply create_parent_lands|]. intros [].
    eapply ends_bind; [apply (step_look root I p); [intros ? _; apply (wt_is_symlink _ Hw)|apply (fv_is_symlink view)]|].
    intros []; [by apply ends_ret, L_I|].
    eapply ends_bind; [apply (step_look root I p); [intros ? _; apply (wt_exists _ Hw)|apply (fv_look_exists view)]|].
    intros existed. apply (ends_try _ _ (fun _ => L root I p)).
    { destruct existed; [|by apply step_pure_ok, L_I].
      by apply step_try_ret, step_map_err, read_to_string_lands. }
    intros before. apply (ends_try _ _ (fun _ => I)).
    { assert (forall m : M W (result unit string), ends I (L root I p) m -> step I (L root I p) m (on_ok (fun _ => I))) as Hm.
      { intros m Hm w1 Hw1. destruct (step_ends I _ m Hm w1 Hw1) as [H1 H2]. split; [done|]. by intros []. }
      destruct (json_flag _ "overwrite" _); apply Hm; [by apply write_atomically_ends|by apply write_new_ends]. }
    intros [] w1 Hw1. apply (preserves_bind I); [apply (wt_emit _ Hw)|by intros ? ? ?|done].
  - unfold execute_file_edit_tool_with_config. do 3 (apply (try_ret_ends I); [done|intros ?]).
    apply (resolve_ends file_root _ I w); [done..|]. intros root p Hcf.
    eapply ends_try; [apply step_map_err; by apply read_real|]. intros content.
    apply (ends_try _ _ (fun _ w => I w /\ under root p /\ real w p = Some p)).
    { destruct (_ : FileEditRequest); simpl; [|by apply step_pure_ok; intros ? [? _]].
      intros w1 Hw1. split; [apply Hw1|]. intros [x|e] _; [exact Hw1|done]. }
    intros [updated made]. apply (ends_try _ _ (fun _ => I)).
    { apply step_map_err. intros w1 (H1 & H2 & H3). pose proof (cf_write _ _ Hcf p updated w1 H2 H3 H1).
      split; [done|]. by intros []. }
    intros [] w1 Hw1. apply (preserves_bind I); [apply (wt_emit _ Hw)|by intros ? ? ?|done].
Qed.
End resolve.
