(* ===== verification/Bash.v ===== *)
(** * Governance of bash commands

    [crates/app/src/tools]: [bash_ast.rs] takes a parsed command apart,
    [bash_rules.rs] holds the prefix rules, [bash_governance.rs] decides, and
    [bash.rs] runs what was allowed.  [build_bash_governance_runtime_policy] of
    [runtime_config.rs] collects the rules.

    Third-party code is a parameter: the tree-sitter parser answers a syntax tree
    (the type [Node], with what its documentation says of a node), and the
    Starlark interpreter answers the calls a rule file makes. *)

From Stdlib Require Import Ascii.
From S2P Require Import Prelude RustStr RustPath Contracts Json FileDiff FileEdit FileTool.

(** ** bash_ast.rs *)

Definition ENV_PREFIX_ASSIGNMENT_KINDS : list string := ["variable_assignment"; "variable_assignments"].
Definition DYNAMIC_WORD_KINDS : list string :=
  ["command_substitution"; "process_substitution"; "subshell"; "expansion"; "simple_expansion";
   "arithmetic_expansion"; "brace_expression"; "translated_string"; "ansi_c_string"].
Definition REDIRECTION_KINDS : list string :=
  ["redirected_statement"; "file_redirect"; "herestring_redirect"; "heredoc_redirect"].
Definition COMPOUND_COMMAND_KINDS : list string :=
  ["list"; "function_definition"; "for_statement"; "c_style_for_statement"; "while_statement";
   "if_statement"; "case_statement"; "compound_statement"; "test_command"; "negated_command"].

(** A node of a syntax tree: its kind, the field of its parent it fills, whether
    it is named, an error, or missing, whether an error is in or below it, and
    its range of bytes. *)
Record NodeInfo : Type := {
  ni_kind : string;
  ni_field : option string;
  ni_named : bool;
  ni_is_error : bool;
  ni_is_missing : bool;
  ni_has_error : bool;
  ni_start_byte : nat;
  ni_end_byte : nat;
}.

Inductive Node : Type := MkNode (info : NodeInfo) (children : list Node).

Definition nd_info (n : Node) : NodeInfo := match n with MkNode info _ => info end.
Definition nd_children (n : Node) : list Node := match n with MkNode _ children => children end.
Definition kind (n : Node) : string := ni_kind (nd_info n).
Definition named_children (n : Node) : list Node :=
  base.filter (fun child => ni_named (nd_info child) = true) (nd_children n).
Definition children_by_field_name (field : string) (n : Node) : list Node :=
  base.filter (fun child => ni_field (nd_info child) = Some field) (nd_children n).
Definition child_by_field_name (field : string) (n : Node) : option Node :=
  head (children_by_field_name field n).

Inductive UnsupportedStructureKind : Type :=
| BackgroundOperator | CommandSubstitution | CompoundCommand | EnvPrefixAssignment
| Pipeline | ProcessSubstitution | Redirection | Subshell.

Inductive UnitOperator : Type := Sequential | AndIf | OrIf.

Inductive UnitClassification : Type :=
| GovernablePlainCommand (argv : list string)
| Unsupported (kind : UnsupportedStructureKind).

Record MinimalCommandUnit : Type := {
  mu_classification : UnitClassification;
  mu_preceding_operator : option UnitOperator;
}.

Record BashCommandAnalysis : Type := {
  ba_parse_unreliable : bool;
  ba_units : list MinimalCommandUnit;
}.

Fixpoint contains_kind (needle : string) (node : Node) : bool :=
  match node with
  | MkNode info children =>
      bool_decide (ni_kind info = needle) || existsb (contains_kind needle) children
  end.

Definition contains_any_kind (node : Node) (needles : list string) : bool :=
  existsb (fun needle => contains_kind needle node) needles.

Fixpoint tree_contains_error_or_missing (node : Node) : bool :=
  match node with
  | MkNode info children =>
      ni_is_error info || ni_is_missing info || existsb tree_contains_error_or_missing children
  end.

(** The bytes of a range, when it is one and they are UTF-8. *)
Definition source_range (source : string) (start end_ : nat) : option string :=
  if Nat.leb start end_ && Nat.leb end_ (String.length source) then
    let text := str_take (end_ - start) (str_drop start source) in
    if utf8_valid text then Some text else None
  else None.

Definition source_text_between (source : string) (start end_ : nat) : string :=
  default "" (source_range source start end_).

(** [node.utf8_text(source).ok()]; the range of a node lies in the text it was
    parsed from. *)
Definition utf8_text (source : string) (n : Node) : option string :=
  source_range source (ni_start_byte (nd_info n)) (ni_end_byte (nd_info n)).

Inductive ShellWordState : Type := Unquoted | SingleQuoted | DoubleQuoted.

Definition backslash : ascii := ascii_of_N 92.
Definition single_quote : ascii := ascii_of_N 39.
Definition double_quote : ascii := ascii_of_N 34.
Definition dollar : ascii := ascii_of_N 36.
Definition backtick : ascii := ascii_of_N 96.
Definition cr_char : ascii := ascii_of_N 13.

(** What follows a backslash: [None] when the text ends, else the characters it
    stands for (by [escape]) and the rest. *)
Definition after_backslash (escape : ascii -> string) (text : string) : option (string * string) :=
  match text with
  | EmptyString => None
  | String c rest =>
      if decide (c = newline_char) then Some ("", rest) else
      if decide (c = cr_char) then
        Some ("", match rest with
                  | String c2 rest2 => if decide (c2 = newline_char) then rest2 else rest
                  | EmptyString => rest
                  end)
      else Some (escape c, rest)
  end.

Definition escape_unquoted (c : ascii) : string := String c "".
Definition escape_double_quoted (c : ascii) : string :=
  if decide (c ∈ [double_quote; backslash; dollar; backtick]) then String c ""
  else String backslash (String c "").

(** One turn of the loop: [None] is [return None]. *)
Definition shell_word_step (state : ShellWordState) (ch : ascii) (chars : string)
  : option (ShellWordState * string * string) :=
  let push := Some (state, String ch "", chars) in
  match state with
  | Unquoted =>
      if decide (ch = backslash)
      then '(text, chars) ← after_backslash escape_unquoted chars; Some (Unquoted, text, chars)
      else if decide (ch = single_quote) then Some (SingleQuoted, "", chars)
      else if decide (ch = double_quote) then Some (DoubleQuoted, "", chars)
      else if decide (ch = dollar \/ ch = backtick) then None
      else push
  | SingleQuoted =>
      if decide (ch = single_quote) then Some (Unquoted, "", chars) else push
  | DoubleQuoted =>
      if decide (ch = backslash)
      then '(text, chars) ← after_backslash escape_double_quoted chars; Some (DoubleQuoted, text, chars)
      else if decide (ch = double_quote) then Some (Unquoted, "", chars)
      else if decide (ch = dollar \/ ch = backtick) then None
      else push
  end.

(** The loop; a turn consumes at least a byte.  Bytes stand for characters: the
    characters tested are ASCII, and the other bytes of a character pushed after
    a backslash are pushed as they come. *)
Fixpoint resolve_shell_word (fuel : nat) (state : ShellWordState) (text : string) : option string :=
  match fuel with
  | O => None
  | S fuel =>
      match text with
      | EmptyString => match state with Unquoted => Some "" | _ => None end
      | String ch chars =>
          '(state, pushed, chars) ← shell_word_step state ch chars;
          rest ← resolve_shell_word fuel state chars;
          Some (pushed +:+ rest)
      end
  end.

Definition resolve_static_shell_word (text : string) : option string :=
  resolve_shell_word (S (String.length text)) Unquoted text.

(** [separator_supports_sequential_split]; the state is [saw_supported_separator]
    and [in_comment]. *)
Fixpoint separator_loop (saw in_comment : bool) (separator : string) : bool :=
  match separator with
  | EmptyString => saw
  | String ch rest =>
      let line_end := bool_decide (ch = newline_char) || bool_decide (ch = cr_char) in
      if in_comment then (if line_end then separator_loop true false rest else separator_loop saw true rest)
      else if bool_decide (ch = ";"%char) || line_end then separator_loop true false rest
      else if bool_decide (ch = " "%char) || bool_decide (ch = ascii_of_N 9) then separator_loop saw false rest
      else if bool_decide (ch = "#"%char) then separator_loop saw true rest
      else false
  end.

Definition separator_supports_sequential_split (separator : string) : bool :=
  separator_loop false false separator.

Definition list_operator (separator : string) : option UnitOperator :=
  if str_contains "&&" separator then Some AndIf
  else if str_contains "||" separator then Some OrIf
  else None.

Definition classify_descendant_unsupported_kind (node : Node) : UnsupportedStructureKind :=
  if contains_kind "command_substitution" node then CommandSubstitution
  else if contains_kind "process_substitution" node then ProcessSubstitution
  else if contains_kind "pipeline" node then Pipeline
  else if contains_any_kind node ENV_PREFIX_ASSIGNMENT_KINDS then EnvPrefixAssignment
  else if contains_kind "subshell" node then Subshell
  else if contains_any_kind node DYNAMIC_WORD_KINDS then CompoundCommand
  else if contains_any_kind node REDIRECTION_KINDS then Redirection
  else if contains_any_kind node COMPOUND_COMMAND_KINDS then CompoundCommand
  else BackgroundOperator.

Definition extract_static_token (source : string) (node : Node) : option string :=
  if contains_any_kind node DYNAMIC_WORD_KINDS || contains_any_kind node ENV_PREFIX_ASSIGNMENT_KINDS
  then None else
  if decide (kind node ∈ ["command_name"; "word"; "concatenation"; "raw_string"; "string"])
  then utf8_text source node ≫= resolve_static_shell_word else
  if decide (kind node = "number") then utf8_text source node else None.

(** The tokens of the arguments, or what is wrong with the first that has none. *)
Fixpoint static_tokens (source : string) (arguments : list Node)
  : result (list string) UnsupportedStructureKind :=
  match arguments with
  | [] => Ok []
  | argument :: arguments =>
      let* token := ok_or (extract_static_token source argument)
                      (classify_descendant_unsupported_kind argument) in
      let* rest := static_tokens source arguments in
      Ok (token :: rest)
  end.

(** What the kind of a child of a command says about it, if anything. *)
Definition child_problem (child : Node) : option UnsupportedStructureKind :=
  if decide (kind child ∈ ENV_PREFIX_ASSIGNMENT_KINDS) then Some EnvPrefixAssignment
  else if decide (kind child = "subshell") then Some Subshell
  else None.

Definition classify_command (source : string) (node : Node) : UnitClassification :=
  match child_by_field_name "redirect" node with
  | Some _ => Unsupported Redirection
  | None =>
      match head (omap child_problem (named_children node)) with
      | Some problem => Unsupported problem
      | None =>
          if contains_kind "command_substitution" node then Unsupported CommandSubstitution else
          if contains_kind "process_substitution" node then Unsupported ProcessSubstitution else
          match child_by_field_name "name" node with
          | None => Unsupported CompoundCommand
          | Some name =>
              match static_tokens source (name :: children_by_field_name "argument" node) with
              | Err problem => Unsupported problem
              | Ok argv => GovernablePlainCommand argv
              end
          end
      end
  end.

Definition classify_statement (source : string) (node : Node) : UnitClassification :=
  if decide (kind node = "command") then classify_command source node else
  if decide (kind node = "pipeline") then Unsupported Pipeline else
  if decide (kind node ∈ ENV_PREFIX_ASSIGNMENT_KINDS) then Unsupported EnvPrefixAssignment else
  if decide (kind node = "redirected_statement") then Unsupported Redirection else
  if decide (kind node = "subshell") then Unsupported Subshell else
  if decide (kind node = "command_substitution") then Unsupported CommandSubstitution else
  if decide (kind node = "process_substitution") then Unsupported ProcessSubstitution else
  if decide (kind node ∈ ["function_definition"; "for_statement"; "c_style_for_statement"; "while_statement";
      "if_statement"; "case_statement"; "compound_statement"; "test_command"; "negated_command"])
  then Unsupported CompoundCommand else
  Unsupported (classify_descendant_unsupported_kind node).

(** [named_children] without the comments. *)
Definition is_statement (child : Node) : bool :=
  ni_named (nd_info child) && negb (bool_decide (kind child = "comment")).

(** [collect_statement_units] and [collect_list_units]: whether the separators
    were understood, and the units pushed. *)
Fixpoint collect_statement_units (source : string) (node : Node)
  : option UnitOperator -> bool * list MinimalCommandUnit :=
  match node with
  | MkNode info children =>
      let collected := map (fun child => (child, collect_statement_units source child)) children in
      fun preceding_operator =>
        if decide (ni_kind info = "list") then
          let compound :=
            (false, [{| mu_classification := Unsupported CompoundCommand;
                        mu_preceding_operator := preceding_operator |}]) in
          match base.filter (fun entry => is_statement entry.1 = true) collected with
          | [(left_node, collect_left); (right_node, collect_right)] =>
              match list_operator (source_text_between source (ni_end_byte (nd_info left_node))
                      (ni_start_byte (nd_info right_node))) with
              | None => compound
              | Some right_operator =>
                  let (reliable_left, units_left) := collect_left preceding_operator in
                  let (reliable_right, units_right) := collect_right (Some right_operator) in
                  (reliable_left && reliable_right, units_left ++ units_right)
              end
          | _ => compound
          end
        else
          (true, [{| mu_classification := classify_statement source (MkNode info children);
                     mu_preceding_operator := preceding_operator |}])
  end.

(** The loop of [collect_program_units]. *)
Fixpoint collect_children (source : string) (previous_end : option nat) (children : list Node)
  : bool * list MinimalCommandUnit :=
  match children with
  | [] => (true, [])
  | child :: children =>
      let separated :=
        match previous_end with
        | Some previous_end =>
            separator_supports_sequential_split
              (source_text_between source previous_end (ni_start_byte (nd_info child)))
        | None => true
        end in
      let (reliable, units) := collect_statement_units source child ((fun _ => Sequential) <$> previous_end) in
      let (reliable_rest, units_rest) :=
        collect_children source (Some (ni_end_byte (nd_info child))) children in
      (separated && reliable && reliable_rest, units ++ units_rest)
  end.

Definition statements_of (n : Node) : list Node :=
  base.filter (fun child => is_statement child = true) (nd_children n).

Definition collect_program_units (source : string) (root : Node) : bool * list MinimalCommandUnit :=
  collect_children source None (statements_of root).

(** [analyze_bash_command]; [parse] is the parser with the bash grammar, [None]
    when the grammar cannot be loaded or the parser gives up. *)
Definition analyze_bash_command (parse : string -> option Node) (command : string) : BashCommandAnalysis :=
  match parse command with
  | None => {| ba_parse_unreliable := true; ba_units := [] |}
  | Some root =>
      let (separators_supported, units) := collect_program_units command root in
      {| ba_parse_unreliable := ni_has_error (nd_info root) || tree_contains_error_or_missing root
                                || negb separators_supported;
         ba_units := units |}
  end.

(** ** bash_rules.rs *)

Inductive PrefixRuleDecision : Type := RuleAllow | RuleDeny.
Inductive CompiledRuleOrigin : Type := RuleFile | LegacyShellCompatibility.

#[export] Instance PrefixRuleDecision_eq_dec : EqDecision PrefixRuleDecision.
Proof. solve_decision. Defined.
#[export] Instance CompiledRuleOrigin_eq_dec : EqDecision CompiledRuleOrigin.
Proof. solve_decision. Defined.

Record CompiledPrefixRule : Type := {
  cr_source : string;
  cr_prefix : list string;
  cr_decision : PrefixRuleDecision;
  cr_origin : CompiledRuleOrigin;
}.

Record PrefixRuleSpec : Type := { ps_source : string; ps_pattern : list string; ps_decision : PrefixRuleDecision }.

(** [normalize_compiled_rules]: the first rule of each decision and prefix. *)
Fixpoint normalize_rules_seen (seen : list (PrefixRuleDecision * list string)) (rules : list CompiledPrefixRule)
  : list CompiledPrefixRule :=
  match rules with
  | [] => []
  | rule :: rules =>
      let key := (cr_decision rule, cr_prefix rule) in
      if decide (key ∈ seen) then normalize_rules_seen seen rules
      else rule :: normalize_rules_seen (key :: seen) rules
  end.

Definition normalize_compiled_rules : list CompiledPrefixRule -> list CompiledPrefixRule :=
  normalize_rules_seen [].

(** The rule for one command of the shell lists ([filter_map] of both
    [compile_compatibility_rules] and [translate_legacy_shell_rules]). *)
Definition legacy_shell_rule (source : string) (decision : PrefixRuleDecision) (command : string)
  : option CompiledPrefixRule :=
  let normalized := to_ascii_lowercase (trim command) in
  if str_is_empty normalized then None
  else Some {| cr_source := source +:+ ":" +:+ normalized; cr_prefix := [normalized];
               cr_decision := decision; cr_origin := LegacyShellCompatibility |}.

Definition compile_compatibility_rules (source : string) (decision : PrefixRuleDecision)
    (commands : list string) : list CompiledPrefixRule :=
  normalize_compiled_rules (omap (legacy_shell_rule source decision) commands).

Definition merge_rule_sources (first second : list CompiledPrefixRule) : list CompiledPrefixRule :=
  normalize_compiled_rules (first ++ second).

Definition compile_rules (specs : list PrefixRuleSpec) : list CompiledPrefixRule :=
  normalize_compiled_rules (map (fun spec =>
    {| cr_source := ps_source spec; cr_prefix := ps_pattern spec;
       cr_decision := ps_decision spec; cr_origin := RuleFile |}) specs).

Fixpoint zip_all_eq (command prefix : list string) : bool :=
  match command, prefix with
  | c :: command, p :: prefix => bool_decide (c = p) && zip_all_eq command prefix
  | _, _ => true
  end.

Definition prefix_matches (command prefix : list string) : bool :=
  Nat.leb (length prefix) (length command) && zip_all_eq command prefix.

Definition command_tokens_for_rule (rule : CompiledPrefixRule) (command lowered_command : list string)
  : list string :=
  if decide (cr_origin rule = LegacyShellCompatibility) then lowered_command else command.

Definition rule_matches (decision : PrefixRuleDecision) (command : list string) (rule : CompiledPrefixRule) : bool :=
  bool_decide (cr_decision rule = decision)
  && prefix_matches (command_tokens_for_rule rule command (map to_ascii_lowercase command)) (cr_prefix rule).

Definition evaluate_prefix_rules (rules : list CompiledPrefixRule) (command : list string)
  : option PrefixRuleDecision :=
  if existsb (rule_matches RuleDeny command) rules then Some RuleDeny
  else if existsb (rule_matches RuleAllow command) rules then Some RuleAllow else None.

Definition in_quotes (s : string) : string := String double_quote (s +:+ String double_quote EmptyString).

Definition parse_prefix_rule_decision (raw : string) : result PrefixRuleDecision string :=
  if decide (raw = "allow") then Ok RuleAllow
  else if decide (raw = "deny") then Ok RuleDeny
  else Err ("prefix_rule decision must be " +:+ in_quotes "allow" +:+ " or " +:+ in_quotes "deny"
            +:+ ", got `" +:+ raw +:+ "`").

Definition normalize_rule_pattern (pattern : list string) : result (list string) string :=
  let normalized := map trim pattern in
  if match normalized with [] => true | _ => false end
  then Err "prefix_rule pattern must be a non-empty string list" else
  if existsb str_is_empty normalized then Err "prefix_rule pattern entries must be non-empty strings"
  else Ok normalized.

(** [prefix_rule] called with a pattern and a decision, on the specifications
    collected so far. *)
Definition prefix_rule (source_name : string) (specs : list PrefixRuleSpec) (pattern : list string)
    (decision : string) : result (list PrefixRuleSpec) string :=
  let* pattern := normalize_rule_pattern pattern in
  let* decision := parse_prefix_rule_decision decision in
  Ok (specs ++ [{| ps_source := source_name +:+ "#" +:+ fmt_usize (length specs + 1);
                   ps_pattern := pattern; ps_decision := decision |}]).

(** The calls of a module in order, stopped by the first that fails. *)
Fixpoint run_calls (source_name : string) (specs : list PrefixRuleSpec) (calls : list (list string * string))
  : result (list PrefixRuleSpec) string :=
  match calls with
  | [] => Ok specs
  | (pattern, decision) :: calls =>
      let* specs := prefix_rule source_name specs pattern decision in
      run_calls source_name specs calls
  end.

(** An entry of a directory: its path, and whether it is a file. *)
Record DirEntry : Type := { de_path : string; de_is_file : result bool string }.

Section rules.
(** The interpreter: a module, the calls of [prefix_rule] it makes and the error
    it ends with if it does, and the text of an error. *)
Context {AstModule : Type}.
Variable starlark_parse : string -> string -> result AstModule string.
Variable starlark_calls : AstModule -> list (list string * string) * option string.
Variable starlark_error_text : string -> string.

(** The directory of rule files. *)
Variable try_exists : string -> result bool string.
Variable path_is_dir : string -> bool.
Variable read_dir : string -> result (list (result DirEntry string)) string.
Variable read_to_string : string -> result string string.

Definition load_rule_specs_from_file (path content : string) : result (list PrefixRuleSpec) string :=
  let* ast := map_err (fun error => "failed to parse bash rule file `" +:+ path +:+ "`: " +:+ error)
                (starlark_parse path content) in
  let failed error := "failed to evaluate bash rule file `" +:+ path +:+ "`: " +:+ error in
  let (calls, error) := starlark_calls ast in
  let* specs := map_err (fun message => failed (starlark_error_text message)) (run_calls path [] calls) in
  match error with
  | Some error => Err (failed error)
  | None => Ok specs
  end.

(** The rule files of the directory, in its order. *)
Fixpoint rule_files_of (rules_dir : string) (entries : list (result DirEntry string))
  : result (list string) string :=
  match entries with
  | [] => Ok []
  | entry :: entries =>
      let* entry := map_err (fun error =>
        "failed to enumerate bash rules dir `" +:+ rules_dir +:+ "`: " +:+ error) entry in
      let* is_file := map_err (fun error =>
        "failed to inspect bash rule entry `" +:+ de_path entry +:+ "`: " +:+ error) (de_is_file entry) in
      let* rest := rule_files_of rules_dir entries in
      Ok (if is_file && bool_decide (path_extension (de_path entry) = Some "rules")
          then de_path entry :: rest else rest)
  end.

Fixpoint load_rule_files (files : list string) : result (list PrefixRuleSpec) string :=
  match files with
  | [] => Ok []
  | rule_file :: files =>
      let* content := map_err (fun error =>
        "failed to read bash rule file `" +:+ rule_file +:+ "`: " +:+ error) (read_to_string rule_file) in
      let* specs := load_rule_specs_from_file rule_file content in
      let* rest := load_rule_files files in
      Ok (specs ++ rest)
  end.

(** [sort_by_key] on [Option<OsString>]: no name first, then by the bytes. *)
Definition file_name_le (p q : string) : Prop :=
  match path_file_name p, path_file_name q with
  | None, _ => True
  | Some _, None => False
  | Some p, Some q => String.le p q
  end.

#[local] Instance file_name_le_dec : RelDecision file_name_le.
Proof.
  intros p q. unfold file_name_le. destruct (path_file_name p), (path_file_name q); apply _.
Defined.

Definition load_rules_from_dir (rules_dir : string) : result (list CompiledPrefixRule) string :=
  let* present := map_err (fun error =>
    "failed to inspect bash rules dir `" +:+ rules_dir +:+ "`: " +:+ error) (try_exists rules_dir) in
  if negb present then Ok [] else
  if negb (path_is_dir rules_dir) then Err ("bash rules path `" +:+ rules_dir +:+ "` is not a directory") else
  let* entries := map_err (fun error =>
    "failed to read bash rules dir `" +:+ rules_dir +:+ "`: " +:+ error) (read_dir rules_dir) in
  let* rule_files := rule_files_of rules_dir entries in
  let* specs := load_rule_files (merge_sort file_name_le rule_files) in
  Ok (compile_rules specs).

(** ** runtime_config.rs *)

Record BashGovernanceRuntimePolicy : Type := {
  bg_rules_dir : string;
  bg_rules : list CompiledPrefixRule;
  bg_load_error : option string;
}.

Definition translate_legacy_shell_rules (source : string) (decision : PrefixRuleDecision)
    (commands : list string) : list CompiledPrefixRule :=
  omap (legacy_shell_rule source decision) commands.

Definition build_bash_governance_runtime_policy (rules_dir : string) (shell_allow shell_deny : list string)
  : BashGovernanceRuntimePolicy :=
  let rules := translate_legacy_shell_rules "shell_allow" RuleAllow shell_allow
               ++ translate_legacy_shell_rules "shell_deny" RuleDeny shell_deny in
  match load_rules_from_dir rules_dir with
  | Ok loaded_rules =>
      {| bg_rules_dir := rules_dir; bg_rules := rules ++ loaded_rules; bg_load_error := None |}
  | Err error => {| bg_rules_dir := rules_dir; bg_rules := rules; bg_load_error := Some error |}
  end.
End rules.

(** ** bash_governance.rs *)

Inductive ShellPolicyDefault : Type := DefaultDeny | DefaultAllow.

Inductive UnitDecisionSource : Type :=
| ExplicitAllow (rule_source : string)
| ExplicitDeny (rule_source : string)
| DefaultUnmatchedPrefix
| DefaultUnsupportedStructure (kind : UnsupportedStructureKind)
| DefaultParseUnreliable.

Inductive UnitGovernanceDecision : Type := UnitAllow | UnitDeny | UnitDefault.

#[export] Instance UnitGovernanceDecision_eq_dec : EqDecision UnitGovernanceDecision.
Proof. solve_decision. Defined.

Record UnitGovernanceOutcome : Type := {
  uo_preceding_operator : option UnitOperator;
  uo_classification : UnitClassification;
  uo_decision : UnitGovernanceDecision;
  uo_decision_source : UnitDecisionSource;
}.

Inductive FinalGovernanceDecision : Type := FinalAllow | FinalDeny.

Inductive FinalDecisionSource : Type :=
| AllUnitsExplicitlyAllowed
| ParseUnreliableDefault
| DefaultFallbackNoUnits
| UnitSource (index : nat) (source : UnitDecisionSource).

Record BashGovernanceOutcome : Type := {
  bo_command : string;
  bo_parse_unreliable : bool;
  bo_unit_outcomes : list UnitGovernanceOutcome;
  bo_default_mode : ShellPolicyDefault;
  bo_final_decision : FinalGovernanceDecision;
  bo_final_source : FinalDecisionSource;
}.

Definition final_default_decision (default_mode : ShellPolicyDefault) : FinalGovernanceDecision :=
  match default_mode with DefaultAllow => FinalAllow | DefaultDeny => FinalDeny end.

Definition matching_rule_source (rules : list CompiledPrefixRule) (argv : list string)
    (decision : PrefixRuleDecision) : option string :=
  cr_source <$> find_first (rule_matches decision argv) rules.

Definition evaluate_unit (rules : list CompiledPrefixRule) (unit_ : MinimalCommandUnit) : UnitGovernanceOutcome :=
  let '(decision, decision_source) :=
    match mu_classification unit_ with
    | GovernablePlainCommand argv =>
        match matching_rule_source rules argv RuleDeny with
        | Some rule_source => (UnitDeny, ExplicitDeny rule_source)
        | None =>
            match matching_rule_source rules argv RuleAllow with
            | Some rule_source => (UnitAllow, ExplicitAllow rule_source)
            | None => (UnitDefault, DefaultUnmatchedPrefix)
            end
        end
    | Unsupported kind => (UnitDefault, DefaultUnsupportedStructure kind)
    end in
  {| uo_preceding_operator := mu_preceding_operator unit_; uo_classification := mu_classification unit_;
     uo_decision := decision; uo_decision_source := decision_source |}.

Definition parse_unreliable_unit_outcome (unit_ : MinimalCommandUnit) : UnitGovernanceOutcome :=
  {| uo_preceding_operator := mu_preceding_operator unit_; uo_classification := mu_classification unit_;
     uo_decision := UnitDefault; uo_decision_source := DefaultParseUnreliable |}.

(** The first outcome of a decision, with its index and source. *)
Fixpoint find_decision (decision : UnitGovernanceDecision) (index : nat) (outcomes : list UnitGovernanceOutcome)
  : option (nat * UnitDecisionSource) :=
  match outcomes with
  | [] => None
  | outcome :: outcomes =>
      if decide (uo_decision outcome = decision) then Some (index, uo_decision_source outcome)
      else find_decision decision (S index) outcomes
  end.

Definition evaluate_bash_analysis (command : string) (analysis : BashCommandAnalysis)
    (rules : list CompiledPrefixRule) (default_mode : ShellPolicyDefault) : BashGovernanceOutcome :=
  let outcome parse_unreliable unit_outcomes final_decision final_source :=
    {| bo_command := command; bo_parse_unreliable := parse_unreliable; bo_unit_outcomes := unit_outcomes;
       bo_default_mode := default_mode; bo_final_decision := final_decision; bo_final_source := final_source |} in
  let unit_outcomes := map (evaluate_unit rules) (ba_units analysis) in
  if ba_parse_unreliable analysis then
    match find_decision UnitDeny 0 unit_outcomes with
    | Some (index, source) => outcome true unit_outcomes FinalDeny (UnitSource index source)
    | None =>
        outcome true (map parse_unreliable_unit_outcome (ba_units analysis))
          (final_default_decision default_mode) ParseUnreliableDefault
    end
  else
    match find_decision UnitDeny 0 unit_outcomes with
    | Some (index, source) => outcome false unit_outcomes FinalDeny (UnitSource index source)
    | None =>
        if negb (match unit_outcomes with [] => true | _ => false end)
           && forallb (fun o => bool_decide (uo_decision o = UnitAllow)) unit_outcomes
        then outcome false unit_outcomes FinalAllow AllUnitsExplicitlyAllowed
        else
          match find_decision UnitDefault 0 unit_outcomes with
          | Some (index, source) =>
              outcome false unit_outcomes (final_default_decision default_mode) (UnitSource index source)
          | None => outcome false unit_outcomes (final_default_decision default_mode) DefaultFallbackNoUnits
          end
    end.

Definition evaluate_bash_command (parse : string -> option Node) (command : string)
    (rules : list CompiledPrefixRule) (default_mode : ShellPolicyDefault) : BashGovernanceOutcome :=
  evaluate_bash_analysis command (analyze_bash_command parse command) rules default_mode.

Definition unsupported_structure_label (kind : UnsupportedStructureKind) : string :=
  match kind with
  | BackgroundOperator => "background operator"
  | CommandSubstitution => "command substitution"
  | CompoundCommand => "compound command"
  | EnvPrefixAssignment => "environment-prefix assignment"
  | Pipeline => "pipeline"
  | ProcessSubstitution => "process substitution"
  | Redirection => "redirection"
  | Subshell => "subshell"
  end.

Definition default_mode_label (default_mode : ShellPolicyDefault) : string :=
  match default_mode with DefaultAllow => "allow" | DefaultDeny => "deny" end.

Definition unit_display (u : UnitGovernanceOutcome) : string :=
  match uo_classification u with
  | GovernablePlainCommand argv => join " " argv
  | Unsupported kind => "unsupported " +:+ unsupported_structure_label kind
  end.

Definition denial_reason (o : BashGovernanceOutcome) : option string :=
  match bo_final_decision o with
  | FinalAllow => None
  | FinalDeny =>
      let by_default := "default-" +:+ default_mode_label (bo_default_mode o) +:+ " policy denied it" in
      Some (match bo_final_source o with
      | AllUnitsExplicitlyAllowed => "bash governance denied command unexpectedly"
      | ParseUnreliableDefault => "bash command could not be parsed reliably and " +:+ by_default
      | DefaultFallbackNoUnits => "bash command produced no governable units and " +:+ by_default
      | UnitSource index source =>
          let display := from_option unit_display "unknown unit" (bo_unit_outcomes o !! index) in
          let unit_ := "bash command unit `" +:+ display +:+ "` " in
          match source with
          | ExplicitDeny rule_source => unit_ +:+ "matched deny rule `" +:+ rule_source +:+ "`"
          | ExplicitAllow rule_source =>
              unit_ +:+ "matched allow rule `" +:+ rule_source +:+ "` but overall evaluation still denied"
          | DefaultUnmatchedPrefix => unit_ +:+ "matched no allow rule and " +:+ by_default
          | DefaultUnsupportedStructure kind =>
              unit_ +:+ "uses unsupported " +:+ unsupported_structure_label kind +:+ " structure and "
              +:+ by_default
          | DefaultParseUnreliable => "bash command could not be parsed reliably and " +:+ by_default
          end
      end)
  end.

(** ** bash.rs *)

Definition BASH_EXEC_ALLOWED_FIELDS : list string := ["command"; "cwd"; "timeout_ms"; "_loong"; "_loong"].
Definition DEFAULT_TIMEOUT_MS : Z := 120000.
Definition MAX_TIMEOUT_MS : Z := 600000.

Record BashExecRuntimePolicy : Type := {
  be_available : bool;
  be_command : option string;
  be_warning : option string;
  be_login_shell : bool;
  be_governance : BashGovernanceRuntimePolicy;
}.

Definition is_runtime_ready (p : BashExecRuntimePolicy) : bool :=
  be_available p && match be_command p with Some _ => true | None => false end.

Definition is_discoverable (p : BashExecRuntimePolicy) : bool :=
  is_runtime_ready p && match bg_load_error (be_governance p) with None => true | Some _ => false end.

Definition bash_exec_args (command : string) (login_shell : bool) : list string :=
  if login_shell then ["-lc"; command] else ["-c"; command].

Definition reject_unknown_bash_exec_fields (payload : list (string * json)) : result unit string :=
  let unknown_fields :=
    merge_sort String.le (base.filter (fun field => field ∉ BASH_EXEC_ALLOWED_FIELDS) (map fst payload)) in
  match unknown_fields with
  | [] => Ok tt
  | _ => Err ("bash.exec payload contains unknown field(s): " +:+ join ", " unknown_fields)
  end.

(** [clamp(1_000, MAX_TIMEOUT_MS)]. *)
Definition parse_bash_timeout_ms (payload : list (string * json)) : result Z string :=
  let* timeout_ms :=
    match fields_get "timeout_ms" payload with
    | Some timeout_ms =>
        ok_or (json_as_u64 timeout_ms) "bash.exec payload.timeout_ms must be an integer"
    | None => Ok DEFAULT_TIMEOUT_MS
    end in
  Ok (Z.min (Z.max timeout_ms 1000) MAX_TIMEOUT_MS).

Section tool.
Context {W Output : Type}.
Variable parse : string -> option Node.
Variable fs : FileSystem W.
Variable fs_metadata_is_dir : string -> M W (result bool string).

(** [run_process_with_timeout_with_sink] on a program (resolved by
    [resolve_command_invocation]), its arguments, the directory and the timeout;
    and the outcome built from its output. *)
Variable run_process : string -> list string -> string -> Z -> M W (result Output string).
Variable build_process_tool_outcome : string -> string -> string -> Output -> ToolCoreOutcome.

Definition execute_bash_tool_with_config (file_root : option string) (bash_exec : BashExecRuntimePolicy)
    (shell_default_mode : ShellPolicyDefault) (request : ToolCoreRequest)
  : M W (result ToolCoreOutcome string) :=
  let? payload := ret (ok_or (json_as_object (tcr_payload request)) "bash.exec payload must be an object") in
  run? ret (reject_unknown_bash_exec_fields payload) in
  let? command := ret (ok_or (trimmed_string (fields_get "command" payload)) "bash.exec requires payload.command") in
  let? cwd := resolve_process_cwd_with_config fs fs_metadata_is_dir file_root payload "bash.exec" in
  let? timeout_ms := ret (parse_bash_timeout_ms payload) in
  if negb (is_runtime_ready bash_exec) then ret (Err "bash unavailable") else
  match bg_load_error (be_governance bash_exec) with
  | Some load_error => ret (Err ("policy_denied: bash governance rules failed to load: " +:+ load_error))
  | None =>
      let governance :=
        evaluate_bash_command parse command (bg_rules (be_governance bash_exec)) shell_default_mode in
      match bo_final_decision governance with
      | FinalDeny =>
          ret (Err ("policy_denied: " +:+ default "bash governance denied command" (denial_reason governance)))
      | FinalAllow =>
          let? runtime_command := ret (ok_or (be_command bash_exec) "bash unavailable") in
          let? output := run_process runtime_command (bash_exec_args command (be_login_shell bash_exec))
                           cwd timeout_ms in
          ret (Ok (build_process_tool_outcome (tcr_tool_name request) command cwd output))
      end
  end.
End tool.

(** [echo hi && ls -la; pwd] and [echo $(id)], as the grammar parses them. *)
Definition leaf (kind : string) (field : option string) (start end_ : nat) : Node :=
  MkNode {| ni_kind := kind; ni_field := field; ni_named := true; ni_is_error := false;
            ni_is_missing := false; ni_has_error := false; ni_start_byte := start; ni_end_byte := end_ |} [].
Definition branch (kind : string) (field : option string) (start end_ : nat) (children : list Node) : Node :=
  MkNode (nd_info (leaf kind field start end_)) children.

Definition two_commands : Node :=
  branch "program" None 0 22
    [branch "list" None 0 17
       [branch "command" None 0 7
          [branch "command_name" (Some "name") 0 4 [leaf "word" None 0 4]; leaf "word" (Some "argument") 5 7];
        branch "command" None 11 17
          [branch "command_name" (Some "name") 11 13 [leaf "word" None 11 13];
           leaf "word" (Some "argument") 14 17]];
     branch "command" None 19 22 [branch "command_name" (Some "name") 19 22 [leaf "word" None 19 22]]].

Example analyze_example :
  analyze_bash_command (fun _ => Some two_commands) "echo hi && ls -la; pwd" =
  {| ba_parse_unreliable := false;
     ba_units :=
       [{| mu_classification := GovernablePlainCommand ["echo"; "hi"]; mu_preceding_operator := None |};
        {| mu_classification := GovernablePlainCommand ["ls"; "-la"]; mu_preceding_operator := Some AndIf |};
        {| mu_classification := GovernablePlainCommand ["pwd"]; mu_preceding_operator := Some Sequential |}] |}.
Proof. vm_compute. reflexivity. Qed.

Example shell_word_example :
  resolve_static_shell_word (String single_quote ("a b" +:+ String single_quote "c")) = Some "a bc" /\
  resolve_static_shell_word "$HOME" = None.
Proof. by vm_compute. Qed.
