(* ===== verification/BashFacts.v ===== *)
(** * Governance of bash commands: theorems

    What an allowed command is, down to its syntax tree; that a denied program is
    never allowed; that shell words are read as quoted; and that the tool runs
    nothing that was not allowed. *)

From Stdlib Require Import Ascii.
From S2P Require Import Prelude RustStr RustPath Contracts Json FileDiff FileEdit FileTool FileToolFacts Bash.

(** ** Shell words *)

Lemma after_backslash_shorter escape text pushed rest :
  after_backslash escape text = Some (pushed, rest) -> String.length rest < String.length text.
Proof.
  destruct text as [|c r]; [done|]. simpl. repeat case_decide; intros; simplify_eq; [lia| |lia].
  destruct r as [|c2 r2]; [simpl; lia|]. case_decide; simpl; lia.
Qed.

Lemma step_shorter state ch chars state' pushed rest :
  shell_word_step state ch chars = Some (state', pushed, rest) -> String.length rest <= String.length chars.
Proof.
  unfold shell_word_step. destruct state; repeat case_decide; intros Heq; simplify_eq; try lia;
    destruct (after_backslash _ _) as [[text rest']|] eqn:Hb; simplify_eq/=;
    apply after_backslash_shorter in Hb; lia.
Qed.

(** The loop ends: more fuel than bytes changes nothing. *)
Lemma resolve_fuel fuel fuel' state text :
  String.length text < fuel -> String.length text < fuel' ->
  resolve_shell_word fuel state text = resolve_shell_word fuel' state text.
Proof.
  revert fuel' state text. induction fuel as [|fuel IH]; intros [|fuel'] state text H H'; try lia.
  destruct text as [|c r]; [done|]. cbn [resolve_shell_word].
  destruct (shell_word_step state c r) as [[[state' pushed] rest]|] eqn:Hs; [|done]. simpl in *.
  apply step_shorter in Hs. by rewrite (IH fuel') by lia.
Qed.

(** Any fuel that is enough. *)
Definition resolve_in (state : ShellWordState) (text : string) : option string :=
  resolve_shell_word (S (String.length text)) state text.

Lemma resolve_in_step state c r :
  resolve_in state (String c r) =
  '(state, pushed, rest) ← shell_word_step state c r; tail ← resolve_in state rest; Some (pushed +:+ tail).
Proof.
  unfold resolve_in at 1. remember (String.length (String c r)) as n eqn:Hn. cbn [resolve_shell_word].
  destruct (shell_word_step state c r) as [[[state' pushed] rest]|] eqn:Hs; [|done]. simpl.
  apply step_shorter in Hs. unfold resolve_in.
  by rewrite (resolve_fuel n (S (String.length rest))) by (simpl in Hn; lia).
Qed.

(** The usual quoting: the word in single quotes, a single quote in it as a
    closing quote, an escaped quote and an opening one. *)
Fixpoint quote_body (s : string) : string :=
  match s with
  | EmptyString => EmptyString
  | String c r =>
      if decide (c = single_quote)
      then String single_quote (String backslash (String single_quote (String single_quote (quote_body r))))
      else String c (quote_body r)
  end.

Definition shell_quote (s : string) : string :=
  String single_quote (quote_body s +:+ String single_quote "").

Lemma single_quoted_body s tail :
  resolve_in SingleQuoted (quote_body s +:+ tail) = (fun r => s +:+ r) <$> resolve_in SingleQuoted tail.
Proof.
  induction s as [|c s IH]; [rewrite !str_app_nil_l; by destruct (resolve_in SingleQuoted tail)|].
  simpl. destruct (decide (c = single_quote)) as [->|Hne].
  - rewrite !str_app_cons. rewrite resolve_in_step. change (shell_word_step SingleQuoted single_quote _)
      with (Some (Unquoted, "", String backslash (String single_quote (String single_quote (quote_body s +:+ tail))))).
    simpl. rewrite resolve_in_step.
    change (shell_word_step Unquoted backslash _)
      with (Some (Unquoted, String single_quote "", String single_quote (quote_body s +:+ tail))).
    simpl. rewrite resolve_in_step.
    change (shell_word_step Unquoted single_quote _) with (Some (SingleQuoted, "", quote_body s +:+ tail)).
    simpl. rewrite IH. by destruct (resolve_in SingleQuoted tail).
  - rewrite str_app_cons, resolve_in_step.
    assert (forall r, shell_word_step SingleQuoted c r = Some (SingleQuoted, String c "", r)) as ->
      by (intros r; simpl; by rewrite decide_False by done).
    simpl. rewrite IH. by destruct (resolve_in SingleQuoted tail).
Qed.

(** C32 (roundtrip). Any text written as one quoted shell word (in single quotes,
    with its own quotes escaped) is read back as that text, whatever it holds:
    blanks, dollars, backslashes, line ends. *)
Theorem shell_word_roundtrip s : resolve_static_shell_word (shell_quote s) = Some s.
Proof.
  change (resolve_static_shell_word (shell_quote s)) with (resolve_in Unquoted (shell_quote s)).
  unfold shell_quote. rewrite resolve_in_step.
  change (shell_word_step Unquoted single_quote _)
    with (Some (SingleQuoted, "", quote_body s +:+ String single_quote "")).
  simpl. rewrite single_quoted_body. simpl. by rewrite str_app_nil_r.
Qed.

(** ** Rules *)

Lemma matching_rule_None rules argv decision :
  matching_rule_source rules argv decision = None <-> existsb (rule_matches decision argv) rules = false.
Proof.
  unfold matching_rule_source. rewrite fmap_None. induction rules as [|r rules IH]; simpl; [done|].
  by destruct (rule_matches decision argv r).
Qed.

(** Units are decided by the rules as [evaluate_prefix_rules] applies them. *)
Lemma evaluate_unit_decision rules u :
  uo_decision (evaluate_unit rules u) =
  match mu_classification u with
  | GovernablePlainCommand argv =>
      match evaluate_prefix_rules rules argv with
      | Some RuleDeny => UnitDeny | Some RuleAllow => UnitAllow | None => UnitDefault
      end
  | Unsupported _ => UnitDefault
  end.
Proof.
  unfold evaluate_unit, evaluate_prefix_rules. destruct (mu_classification u) as [argv|k]; [|done].
  pose proof (matching_rule_None rules argv RuleDeny) as Hd.
  pose proof (matching_rule_None rules argv RuleAllow) as Ha.
  destruct (existsb (rule_matches RuleDeny argv) rules).
  - destruct (matching_rule_source rules argv RuleDeny); [done|]. naive_solver.
  - rewrite (proj2 Hd eq_refl). destruct (existsb (rule_matches RuleAllow argv) rules).
    + destruct (matching_rule_source rules argv RuleAllow); [done|]. naive_solver.
    + by rewrite (proj2 Ha eq_refl).
Qed.

(** Rules of one origin lose nothing when repeated ones are dropped. *)
Lemma normalize_rules_exists decision command origin seen rules :
  Forall (fun r => cr_origin r = origin) rules ->
  (exists d p, (d, p) ∈ seen /\ d = decision /\
     prefix_matches (if decide (origin = LegacyShellCompatibility)
                     then map to_ascii_lowercase command else command) p = true) \/
  existsb (rule_matches decision command) rules
  = existsb (rule_matches decision command) (normalize_rules_seen seen rules).
Proof.
  intros Ho. revert seen. induction Ho as [|r rules Hr Ho IH]; intros seen; [by right|]. simpl.
  destruct (decide ((cr_decision r, cr_prefix r) ∈ seen)) as [Hin|Hin].
  - destruct (IH seen) as [?|IHs]; [by left|]. destruct (rule_matches decision command r) eqn:Hm; [|by right].
    left. unfold rule_matches, command_tokens_for_rule in Hm. rewrite Hr in Hm.
    apply andb_prop in Hm as [Hd%bool_decide_eq_true Hp]. by exists (cr_decision r), (cr_prefix r).
  - simpl. destruct (IH ((cr_decision r, cr_prefix r) :: seen)) as [(d & p & Hd & -> & Hp)|IHs].
    + apply elem_of_cons in Hd as [[= -> ->]|Hd]; [|left; by exists decision, p]. right.
      assert (rule_matches (cr_decision r) command r = true) as ->; [|done].
      unfold rule_matches, command_tokens_for_rule. rewrite Hr, Hp. by rewrite bool_decide_eq_true_2.
    + right. by rewrite IHs.
Qed.

(** Loading the rules of the rule files decides every command as the files do. *)
Lemma compile_rules_decision specs command :
  evaluate_prefix_rules (compile_rules specs) command =
  evaluate_prefix_rules (map (fun spec => {| cr_source := ps_source spec; cr_prefix := ps_pattern spec;
    cr_decision := ps_decision spec; cr_origin := RuleFile |}) specs) command.
Proof.
  unfold compile_rules, evaluate_prefix_rules, normalize_compiled_rules. set (rules := map _ specs).
  assert (Forall (fun r => cr_origin r = RuleFile) rules) as Ho
    by (apply Forall_forall; intros r (spec & -> & _)%list_elem_of_fmap; done).
  destruct (normalize_rules_exists RuleDeny command RuleFile [] rules Ho)
    as [(d & p & H & _)|<-]; [by apply not_elem_of_nil in H|].
  by destruct (normalize_rules_exists RuleAllow command RuleFile [] rules Ho)
    as [(d & p & H & _)|<-]; [apply not_elem_of_nil in H|].
Qed.

(** Rules of two origins do: the rule of the shell lists, which ignores case,
    gives way to a rule file's, which does not. *)
Example merge_loses_deny_rule :
  let file := {| cr_source := "a.rules#1"; cr_prefix := ["rm"]; cr_decision := RuleDeny; cr_origin := RuleFile |} in
  let shell := compile_compatibility_rules "shell_deny" RuleDeny ["rm"] in
  evaluate_prefix_rules ([file] ++ shell) ["RM"; "-rf"] = Some RuleDeny /\
  evaluate_prefix_rules (merge_rule_sources [file] shell) ["RM"; "-rf"] = None.
Proof. by vm_compute. Qed.

(** ** Decisions *)

Lemma find_decision_None decision index outcomes :
  find_decision decision index outcomes = None <-> Forall (fun o => uo_decision o <> decision) outcomes.
Proof.
  revert index. induction outcomes as [|o outcomes IH]; intros index; simpl; [by split|].
  case_decide; rewrite Forall_cons; [naive_solver|]. rewrite IH. naive_solver.
Qed.

(** What the rules say of a unit, if it is one plain command. *)
Definition unit_rule (rules : list CompiledPrefixRule) (u : MinimalCommandUnit) : option PrefixRuleDecision :=
  match mu_classification u with
  | GovernablePlainCommand argv => evaluate_prefix_rules rules argv
  | Unsupported _ => None
  end.

Lemma unit_decision rules u :
  uo_decision (evaluate_unit rules u) =
  match unit_rule rules u with Some RuleDeny => UnitDeny | Some RuleAllow => UnitAllow | None => UnitDefault end.
Proof. rewrite evaluate_unit_decision. unfold unit_rule. by destruct (mu_classification u). Qed.

Lemma allowed_iff command analysis rules mode :
  bo_final_decision (evaluate_bash_analysis command analysis rules mode) = FinalAllow <->
  Forall (fun u => unit_rule rules u <> Some RuleDeny) (ba_units analysis) /\
  (mode = DefaultAllow \/
   (ba_parse_unreliable analysis = false /\ ba_units analysis <> [] /\
    Forall (fun u => unit_rule rules u = Some RuleAllow) (ba_units analysis))).
Proof.
  assert (final_default_decision mode = FinalAllow <-> mode = DefaultAllow) as Hmode by (by destruct mode).
  assert (find_decision UnitDeny 0 (map (evaluate_unit rules) (ba_units analysis)) = None <->
    Forall (fun u => unit_rule rules u <> Some RuleDeny) (ba_units analysis)) as Hdeny.
  { rewrite find_decision_None, Forall_map. apply Forall_proper; [|done]. intros u. simpl. rewrite unit_decision.
    by destruct (unit_rule rules u) as [[]|]. }
  unfold evaluate_bash_analysis. destruct (find_decision UnitDeny _ _) as [[index source]|].
  { destruct (ba_parse_unreliable analysis); simpl; split; try done; intros [H _]; by apply Hdeny in H. }
  assert (Forall (fun u => unit_rule rules u <> Some RuleDeny) (ba_units analysis)) as Hno by (by apply Hdeny).
  destruct (ba_parse_unreliable analysis); simpl; [naive_solver|].
  assert (forallb (fun o => bool_decide (uo_decision o = UnitAllow)) (map (evaluate_unit rules) (ba_units analysis))
    = true <-> Forall (fun u => unit_rule rules u = Some RuleAllow) (ba_units analysis)) as Hall.
  { rewrite forallb_forall, Forall_forall. setoid_rewrite bool_decide_eq_true. setoid_rewrite in_map_iff. split.
    - intros H u Hu. assert (uo_decision (evaluate_unit rules u) = UnitAllow) as Hd
        by (apply H; exists u; by rewrite <- list_elem_of_In).
      rewrite unit_decision in Hd. by destruct (unit_rule rules u) as [[]|].
    - intros H o (u & <- & Hu). rewrite unit_decision. rewrite (H u); [done|]. by apply list_elem_of_In. }
  destruct (forallb _ _); simpl.
  - destruct (ba_units analysis) as [|u us]; simpl; [|naive_solver].
    rewrite Hmode. naive_solver.
  - rewrite andb_false_r. destruct (find_decision UnitDefault _ _) as [[]|]; simpl; rewrite Hmode; naive_solver.
Qed.

(** When bash governance allows a command: no unit matches a
    deny rule, and either the default is to allow, or the command was parsed
    reliably into at least one unit and every unit is a plain command that an
    allow rule matches.  Deny rules win over allow rules and over the default, in
    commands that were not parsed reliably too. *)
Theorem bash_governance_allows_iff command analysis rules mode :
  bo_final_decision (evaluate_bash_analysis command analysis rules mode) = FinalAllow <->
  Forall (fun u => unit_rule rules u <> Some RuleDeny) (ba_units analysis) /\
  (mode = DefaultAllow \/
   (ba_parse_unreliable analysis = false /\ ba_units analysis <> [] /\
    Forall (fun u => unit_rule rules u = Some RuleAllow) (ba_units analysis))).
Proof. apply allowed_iff. Qed.

(** ** Down to the syntax tree *)

Section node_ind.
Variable P : Node -> Prop.
Hypothesis Hnode : forall info children, Forall P children -> P (MkNode info children).

Fixpoint node_ind' (n : Node) : P n :=
  match n with
  | MkNode info children =>
      Hnode info children ((fix go (l : list Node) : Forall P l :=
        match l with
        | [] => Forall_nil_2 P
        | x :: l => Forall_cons_2 P x l (node_ind' x) (go l)
        end) children)
  end.
End node_ind.

(** The statements a statement is made of: itself, or those joined in a list. *)
Inductive part_of : Node -> Node -> Prop :=
| part_self n : kind n <> "list" -> part_of n n
| part_list n child leaf :
    kind n = "list" -> child ∈ statements_of n -> part_of child leaf -> part_of n leaf.

Lemma collected_children source children :
  base.filter (fun entry => is_statement entry.1 = true)
    (map (fun child => (child, collect_statement_units source child)) children)
  = map (fun child => (child, collect_statement_units source child))
      (base.filter (fun child => is_statement child = true) children).
Proof. induction children as [|c children IH]; [done|]. simpl. rewrite !filter_cons. simpl. case_decide; by rewrite IH. Qed.

(** A reliable collection has the classification of every part. *)
Lemma collected_parts source node op units :
  collect_statement_units source node op = (true, units) ->
  forall leaf, part_of node leaf -> exists u, u ∈ units /\ mu_classification u = classify_statement source leaf.
Proof.
  revert op units. induction node as [info children IH] using node_ind'. intros op units H leaf Hp.
  cbn [collect_statement_units] in H.
  inversion Hp as [? Hk|? child ? Hk Hc Hp']; subst; unfold kind in Hk; simpl in Hk.
  - rewrite decide_False in H by done. simplify_eq. eexists. split; [by apply list_elem_of_singleton|]. done.
  - rewrite decide_True in H by done. rewrite collected_children in H. unfold statements_of in Hc. simpl in Hc.
    destruct (base.filter _ children) as [|n1 [|n2 [|]]] eqn:Hf; simpl in H; try done.
    destruct (list_operator _) as [operator|]; [|done].
    destruct (collect_statement_units source n1 op) as [r1 units1] eqn:H1.
    destruct (collect_statement_units source n2 (Some operator)) as [r2 units2] eqn:H2.
    injection H as Hr <-. apply andb_prop in Hr as [-> ->].
    assert (child ∈ children) as Hin.
    { rewrite <- Hf in Hc. by apply list_elem_of_filter in Hc as [_ ?]. }
    rewrite Forall_forall in IH. specialize (IH child Hin).
    apply elem_of_cons in Hc as [->|[->|Hc%not_elem_of_nil]%elem_of_cons]; [| |done].
    + destruct (IH _ _ H1 leaf Hp') as (u & ? & ?). exists u. split; [apply elem_of_app; by left|done].
    + destruct (IH _ _ H2 leaf Hp') as (u & ? & ?). exists u. split; [apply elem_of_app; by right|done].
Qed.

Lemma collected_program source previous children units :
  collect_children source previous children = (true, units) ->
  forall statement leaf, statement ∈ children -> part_of statement leaf ->
  exists u, u ∈ units /\ mu_classification u = classify_statement source leaf.
Proof.
  revert previous units. induction children as [|c children IH]; intros previous units H statement leaf Hs Hp;
    [by apply not_elem_of_nil in Hs|]. simpl in H.
  destruct (collect_statement_units source c _) as [r units1] eqn:H1.
  destruct (collect_children source _ children) as [r' units2] eqn:H2. injection H as Hr <-.
  apply andb_prop in Hr as [[_ ->]%andb_prop ->].
  apply elem_of_cons in Hs as [->|Hs].
  - destruct (collected_parts _ _ _ _ H1 leaf Hp) as (u & ? & ?). exists u. split; [apply elem_of_app; by left|done].
  - destruct (IH _ _ H2 _ _ Hs Hp) as (u & ? & ?). exists u. split; [apply elem_of_app; by right|done].
Qed.

Lemma static_tokens_ok source nodes argv :
  static_tokens source nodes = Ok argv ->
  Forall2 (fun node token => extract_static_token source node = Some token) nodes argv.
Proof.
  revert argv. induction nodes as [|n nodes IH]; intros argv H; simpl in H; [simplify_eq; constructor|].
  destruct (extract_static_token source n) as [token|] eqn:Hn; simpl in H; [|done].
  destruct (static_tokens source nodes) as [rest|] eqn:Hr; simpl in H; [|done].
  simplify_eq. constructor; [done|]. by apply IH.
Qed.

(** A command all of whose words are known: no redirection, no assignment, no
    substitution. *)
Definition plain_command (source : string) (leaf : Node) (argv : list string) : Prop :=
  kind leaf = "command" /\ child_by_field_name "redirect" leaf = None /\
  Forall (fun child => child_problem child = None) (named_children leaf) /\
  contains_kind "command_substitution" leaf = false /\ contains_kind "process_substitution" leaf = false /\
  exists name, child_by_field_name "name" leaf = Some name /\
    Forall2 (fun node token => extract_static_token source node = Some token)
      (name :: children_by_field_name "argument" leaf) argv.

Lemma omap_head_None {A B} (f : A -> option B) l : head (omap f l) = None -> Forall (fun x => f x = None) l.
Proof.
  induction l as [|x l IH]; simpl; [constructor|]. destruct (f x) eqn:Hx; simpl; [done|]. intros. constructor; auto.
Qed.

Lemma classify_plain source leaf argv :
  classify_statement source leaf = GovernablePlainCommand argv -> plain_command source leaf argv.
Proof.
  unfold classify_statement. case_decide as Hk; [|by repeat case_decide]. unfold classify_command.
  destruct (child_by_field_name "redirect" leaf) eqn:Hr; [done|].
  destruct (head (omap child_problem (named_children leaf))) eqn:Hc; [done|].
  destruct (contains_kind "command_substitution" leaf) eqn:H1; [done|].
  destruct (contains_kind "process_substitution" leaf) eqn:H2; [done|].
  destruct (child_by_field_name "name" leaf) as [name|] eqn:Hn; [|done].
  destruct (static_tokens source _) as [argv'|] eqn:Ht; [|done]. intros [= ->].
  split_and!; [done..|by apply omap_head_None|done|done|]. exists name. split; [done|]. by apply static_tokens_ok.
Qed.

(** Under the default-deny policy an allowed command has a syntax
    tree without errors, and every statement of it (through lists joined by [&&]
    and [||]) is one command whose words are all known: it has no redirection, no
    assignment prefix, no command or process substitution in it, its name and
    arguments are static words, and they match an allow rule and no deny rule. *)
Theorem bash_default_deny_plain parse command rules :
  bo_final_decision (evaluate_bash_command parse command rules DefaultDeny) = FinalAllow ->
  exists root, parse command = Some root /\ tree_contains_error_or_missing root = false /\
    statements_of root <> [] /\
    forall statement leaf, statement ∈ statements_of root -> part_of statement leaf ->
      exists argv, plain_command command leaf argv /\ evaluate_prefix_rules rules argv = Some RuleAllow.
Proof.
  unfold evaluate_bash_command. rewrite allowed_iff. intros [_ [|(Hr & Hne & Hall)]]; [done|].
  unfold analyze_bash_command in *. destruct (parse command) as [root|]; [|done].
  destruct (collect_program_units command root) as [separated units] eqn:Hc. simpl in *.
  apply orb_false_iff in Hr as [[_ He]%orb_false_iff Hs%negb_false_iff]. subst separated.
  exists root. split_and!; [done..| |].
  - intros Hnil. unfold collect_program_units in Hc. rewrite Hnil in Hc. simpl in Hc. by simplify_eq.
  - intros statement leaf Hst Hp. destruct (collected_program _ _ _ _ Hc statement leaf Hst Hp) as (u & Hu & Hcl).
    rewrite Forall_forall in Hall. specialize (Hall u Hu). unfold unit_rule in Hall. rewrite Hcl in Hall.
    destruct (classify_statement command leaf) as [argv|] eqn:Hk; [|done].
    exists argv. split; [by apply classify_plain|done].
Qed.

(** ** The shell lists *)

Lemma deny_rule_matches name args d :
  str_is_empty (to_ascii_lowercase (trim d)) = false ->
  to_ascii_lowercase name = to_ascii_lowercase (trim d) ->
  exists rule, legacy_shell_rule "shell_deny" RuleDeny d = Some rule /\
    rule_matches RuleDeny (name :: args) rule = true.
Proof.
  intros He Hn. unfold legacy_shell_rule. rewrite He. eexists. split; [done|].
  unfold rule_matches, command_tokens_for_rule, prefix_matches. simpl. rewrite Hn.
  repeat (rewrite bool_decide_eq_true_2 by done; simpl). by destruct (map _ args).
Qed.

(** A program of the shell deny list is never allowed through bash:
    if a unit of the command runs it, in any casing and with any arguments, the
    command is denied, whatever the allow list, the rule files, the default and
    the rest of the command say. *)
Theorem shell_deny_list_binds {AstModule} (starlark_parse : string -> string -> result AstModule string)
    starlark_calls starlark_error_text try_exists path_is_dir read_dir read_to_string
    rules_dir shell_allow shell_deny command analysis mode u name args d :
  d ∈ shell_deny -> to_ascii_lowercase (trim d) <> "" ->
  u ∈ ba_units analysis -> mu_classification u = GovernablePlainCommand (name :: args) ->
  to_ascii_lowercase name = to_ascii_lowercase (trim d) ->
  bo_final_decision (evaluate_bash_analysis command analysis
    (bg_rules (build_bash_governance_runtime_policy starlark_parse starlark_calls starlark_error_text
       try_exists path_is_dir read_dir read_to_string rules_dir shell_allow shell_deny)) mode) = FinalDeny.
Proof.
  intros Hd Hne Hu Hcl Hname. set (rules := bg_rules _).
  destruct (bo_final_decision _) eqn:Hf; [|done]. apply allowed_iff in Hf as [Hno _].
  rewrite Forall_forall in Hno. destruct (Hno u Hu). unfold unit_rule. rewrite Hcl.
  destruct (deny_rule_matches name args d) as (rule & Hrule & Hm);
    [by destruct (to_ascii_lowercase (trim d))|done|].
  assert (rule ∈ rules) as Hin.
  { subst rules. assert (rule ∈ translate_legacy_shell_rules "shell_deny" RuleDeny shell_deny)
      by (unfold translate_legacy_shell_rules; rewrite list_elem_of_omap; by exists d).
    unfold build_bash_governance_runtime_policy. destruct (load_rules_from_dir _ _ _ _ _ _ _ _); simpl;
      rewrite ?elem_of_app; tauto. }
  unfold evaluate_prefix_rules. assert (existsb (rule_matches RuleDeny (name :: args)) rules = true) as ->; [|done].
  apply existsb_exists. exists rule. by rewrite <- list_elem_of_In.
Qed.

(** ** The tool *)

Section tool.
Context {W Output : Type}.
Variable parse : string -> option Node.
Variable fs : FileSystem W.
Variable fs_metadata_is_dir : string -> M W (result bool string).
Variable run_process : string -> list string -> string -> Z -> M W (result Output string).
Variable build_process_tool_outcome : string -> string -> string -> Output -> ToolCoreOutcome.

(** Looking at the file system keeps [I]. *)
Record looking_keeps (I : W -> Prop) : Prop := {
  lk_current_dir' : preserves I (fs_current_dir fs);
  lk_exists : forall p, preserves I (fs_exists fs p);
  lk_is_dir : forall p, preserves I (fs_is_dir fs p);
  lk_canonicalize : forall p, preserves I (fs_canonicalize fs p);
  lk_metadata : forall p, preserves I (fs_metadata_is_dir p);
}.

Lemma resolve_cwd_keeps file_root payload tool_name I :
  looking_keeps I -> preserves I (resolve_process_cwd_with_config fs fs_metadata_is_dir file_root payload tool_name).
Proof.
  intros []. assert (forall fuel path cursor suffix,
    preserves I (split_existing_ancestor_loop fs fuel path cursor suffix)) as Hsplit.
  { induction fuel as [|fuel IH]; intros path cursor suffix; simpl; confine. }
  unfold resolve_process_cwd_with_config, resolve_process_cwd_override, default_process_cwd_with_config,
    canonicalize_existing_directory, resolve_safe_directory_path_with_config, resolve_safe_file_path_with_config,
    configured_root, canonicalize_or_fallback, resolve_path_within_root, split_existing_ancestor. confine.
Qed.

(** A process: its program, arguments, directory and timeout. *)
Definition Started : Type := string * list string * string * Z.

(** An observer of the world that sees every process started: running one adds it,
    looking at the file system adds none. *)
Record process_log (started : W -> list Started) : Prop := {
  pl_look : forall l, looking_keeps (fun w => started w = l);
  pl_run : forall program args cwd timeout_ms w,
    started (run_process program args cwd timeout_ms w).2 = started w ++ [(program, args, cwd, timeout_ms)];
}.

Lemma bash_timeout_bounds payload timeout_ms :
  parse_bash_timeout_ms payload = Ok timeout_ms -> (1000 <= timeout_ms <= MAX_TIMEOUT_MS)%Z.
Proof.
  unfold parse_bash_timeout_ms, MAX_TIMEOUT_MS. intros Ht.
  destruct (fields_get _ _) as [v|]; simpl in Ht; [destruct (json_as_u64 v); simpl in Ht|]; simplify_eq; lia.
Qed.

(** What an allowed call starts: bash on the command of the request, in the directory
    the request resolves to in the world [w]. *)
Definition judged_process file_root (bash_exec : BashExecRuntimePolicy) mode (request : ToolCoreRequest) (w : W)
    (p : Started) : Prop :=
  exists payload command program cwd w1 timeout_ms,
    tcr_payload request = JObject payload /\
    trimmed_string (fields_get "command" payload) = Some command /\
    resolve_process_cwd_with_config fs fs_metadata_is_dir file_root payload "bash.exec" w
      = (Returned (Ok cwd), w1) /\
    be_command bash_exec = Some program /\
    bg_load_error (be_governance bash_exec) = None /\
    bo_final_decision (evaluate_bash_command parse command (bg_rules (be_governance bash_exec)) mode) = FinalAllow /\
    (1000 <= timeout_ms <= MAX_TIMEOUT_MS)%Z /\
    p = (program, bash_exec_args command (be_login_shell bash_exec), cwd, timeout_ms).

(** C15 (safety). [bash.exec] starts nothing but what governance allowed.  Either it
    starts no process, and then it does not succeed, or it starts exactly one: the
    configured bash, on the very command of the request, which the rules, loaded
    without an error, allow, in the directory the request resolves to, with a
    timeout between one second and ten minutes.  The processes are those an
    observer of the world sees that misses none. *)
Theorem bash_runs_only_allowed file_root bash_exec mode request started w :
  process_log started ->
  let (r, w') := execute_bash_tool_with_config parse fs fs_metadata_is_dir run_process build_process_tool_outcome
                   file_root bash_exec mode request w in
  (started w' = started w /\ (forall out, r <> Returned (Ok out))) \/
  (exists p, started w' = started w ++ [p] /\ judged_process file_root bash_exec mode request w p).
Proof.
  intros [Hlook Hrun]. unfold execute_bash_tool_with_config, try_bind, bind, ret.
  destruct (json_as_object (tcr_payload request)) as [payload|] eqn:Hp; simpl; [|by left].
  destruct (reject_unknown_bash_exec_fields payload) as [u|]; simpl; [|by left].
  destruct (trimmed_string (fields_get "command" payload)) as [command|] eqn:Hcmd; simpl; [|by left].
  pose proof (resolve_cwd_keeps file_root payload "bash.exec" _ (Hlook (started w)) w eq_refl) as Hs.
  destruct (resolve_process_cwd_with_config _ _ _ _ _ w) as [[[cwd|e]|p] w1] eqn:Hcwd; simpl in *; [|by left..].
  destruct (parse_bash_timeout_ms payload) as [timeout_ms|e] eqn:Ht; [|by left].
  apply bash_timeout_bounds in Ht. destruct (is_runtime_ready bash_exec); simpl; [|by left].
  destruct (bg_load_error (be_governance bash_exec)) eqn:Hl; [by left|].
  destruct (bo_final_decision _) eqn:Hf; [|by left].
  destruct (be_command bash_exec) as [program|] eqn:Hc; simpl; [|by left].
  specialize (Hrun program (bash_exec_args command (be_login_shell bash_exec)) cwd timeout_ms w1).
  rewrite Hs in Hrun.
  assert (Hj : judged_process file_root bash_exec mode request w
    (program, bash_exec_args command (be_login_shell bash_exec), cwd, timeout_ms)).
  { exists payload, command, program, cwd, w1, timeout_ms. split_and!; try done; [|lia..].
    destruct (tcr_payload request); simpl in Hp; congruence. }
  destruct (run_process _ _ _ _ w1) as [[[out|e]|p] w2]; simpl in *; right; eauto.
Qed.
End tool.
