(* ===== verification/ToolPolicy.v ===== *)
(** * Policies of the tools

    [crates/app/src/tools]: [shell_policy_ext.rs] and [file_policy_ext.rs], the two
    extensions the application registers with the kernel
    ([bootstrap_kernel_context_with_config] of [context.rs]), and
    [direct_policy_preflight.rs], which applies them to calls that do not go
    through the kernel.

    [canonical_tool_name] looks a name up in the tool catalog; the catalog is a
    parameter. *)

From Stdlib Require Import Ascii.
From S2P Require Import Prelude RustStr RustPath Contracts Json Policy FileDiff FileEdit FileTool Bash.

Definition SHELL_EXEC_APPROVAL_RULE_ID : string := "shell_exec_requires_approval".
Definition SHELL_INTERNAL_APPROVAL_CONTEXT_KEY : string := "shell_approval".
Definition SHELL_INTERNAL_APPROVAL_KEY_FIELD : string := "approval_key".
Definition REPAIRABLE_TOOL_INPUT_PREFIX : string := "repairable_tool_input: ".
Definition LOONG_INTERNAL_TOOL_CONTEXT_KEY : string := "_loong".

Definition repairable_tool_input_reason (reason : string) : string := REPAIRABLE_TOOL_INPUT_PREFIX +:+ reason.
Definition is_repairable_tool_input_reason (reason : string) : bool :=
  starts_with REPAIRABLE_TOOL_INPUT_PREFIX reason.
Definition strip_repairable_tool_input_prefix (reason : string) : string :=
  default reason (strip_prefix REPAIRABLE_TOOL_INPUT_PREFIX reason).

Definition ShellPolicyDefault_parse (s : string) : ShellPolicyDefault :=
  if decide (to_ascii_lowercase s = "allow") then DefaultAllow else DefaultDeny.

(** ** Trusted internal context *)

Definition reserved_internal_tool_context_key_in_map (body : list (string * json)) : option string :=
  match fields_get LOONG_INTERNAL_TOOL_CONTEXT_KEY body with
  | Some _ => Some LOONG_INTERNAL_TOOL_CONTEXT_KEY
  | None => None
  end.

Definition trusted_internal_tool_context_from_payload (payload : json) : option (list (string * json)) :=
  body ← json_as_object payload;
  key ← reserved_internal_tool_context_key_in_map body;
  fields_get key body ≫= json_as_object.

(** ** Shell commands *)

(** [contains(char::is_whitespace)]. *)
Fixpoint contains_whitespace (s : string) : bool :=
  leads_space is_space2 is_space3 s ||
  match s with
  | EmptyString => false
  | String _ r => contains_whitespace r
  end.

Definition validate_shell_command_name (command : string) : result string string :=
  let trimmed := trim command in
  let requires := repairable_tool_input_reason
    "shell.exec requires payload.command. Provide a bare executable in payload.command and move arguments into payload.args." in
  if str_is_empty trimmed then Err requires else
  if str_contains_char newline_char trimmed || str_contains_char cr_char trimmed then Err requires else
  if contains_whitespace trimmed
  then Err (repairable_tool_input_reason
    "shell.exec payload.command must be a bare executable name; move arguments into payload.args.") else
  if str_contains_char "/"%char trimmed || str_contains_char backslash trimmed
  then Err (repairable_tool_input_reason
    ("shell.exec payload.command `" +:+ trimmed
     +:+ "` must be a bare lowercase executable name without path separators.")) else
  let normalized := to_ascii_lowercase trimmed in
  if decide (trimmed <> normalized)
  then Err ("policy_denied: shell command `" +:+ trimmed
            +:+ "` must use a lowercase bare command name to match shell policy")
  else Ok normalized.

Definition shell_exec_approval_key_for_normalized_command (normalized_command : string) : string :=
  "tool:shell.exec:" +:+ normalized_command.

Definition shell_exec_internal_approval_context (approval_key : string) : json :=
  JObject [(SHELL_INTERNAL_APPROVAL_CONTEXT_KEY,
            JObject [(SHELL_INTERNAL_APPROVAL_KEY_FIELD, JString approval_key)])].

Definition shell_exec_matches_trusted_internal_approval (payload : list (string * json))
    (approval_key : string) : bool :=
  bool_decide (
    (context ← trusted_internal_tool_context_from_payload (JObject payload);
     approval ← fields_get SHELL_INTERNAL_APPROVAL_CONTEXT_KEY context;
     approval ← json_as_object approval;
     key ← fields_get SHELL_INTERNAL_APPROVAL_KEY_FIELD approval;
     json_as_str key) = Some approval_key).

Record ToolPolicyExtension : Type := {
  tp_hard_deny : gset string;
  tp_allow : gset string;
  tp_default_mode : ShellPolicyDefault;
}.

(** The fields of [ToolRuntimeConfig] the policies read. *)
Record ToolPolicyConfig : Type := {
  rt_shell_deny : gset string;
  rt_shell_allow : gset string;
  rt_shell_default_mode : ShellPolicyDefault;
  rt_file_root : option string;
}.

Definition ToolPolicyExtension_from_config (rt : ToolPolicyConfig) : ToolPolicyExtension := {|
  tp_hard_deny := rt_shell_deny rt; tp_allow := rt_shell_allow rt;
  tp_default_mode := rt_shell_default_mode rt |}.

Definition authorize_shell_payload (x : ToolPolicyExtension) (tool_name : string)
    (payload : list (string * json)) : result unit PolicyError :=
  match fields_get "command" payload ≫= json_as_str with
  | None => Ok tt
  | Some command =>
      let trimmed_command := trim command in
      if str_is_empty trimmed_command then Ok tt else
      let* basename := map_err (ToolCallDenied tool_name) (validate_shell_command_name trimmed_command) in
      if decide (basename ∈ tp_hard_deny x)
      then Err (ToolCallDenied tool_name ("command `" +:+ basename +:+ "` is blocked by shell policy")) else
      if decide (basename ∈ tp_allow x) then Ok tt else
      if shell_exec_matches_trusted_internal_approval payload
           (shell_exec_approval_key_for_normalized_command basename) then Ok tt else
      match tp_default_mode x with
      | DefaultAllow => Ok tt
      | DefaultDeny =>
          Err (ToolCallDenied tool_name
            ("command `" +:+ basename +:+ "` is not in the allow list (default-deny policy)"))
      end
  end.

Definition authorize_direct_shell_payload (rt : ToolPolicyConfig) (payload : list (string * json))
  : result unit string :=
  map_err (fun error => "policy_denied: " +:+ PolicyError_to_string error)
    (authorize_shell_payload (ToolPolicyExtension_from_config rt) "shell.exec" payload).

(** ** config.import *)

Definition config_import_mode (payload : list (string * json)) : string :=
  default "plan" (trimmed_string (fields_get "mode" payload)).

Definition config_import_mode_requires_write_object (payload : list (string * json)) : bool :=
  bool_decide (config_import_mode payload ∈ ["apply"; "apply_selected"; "rollback_last_apply"]).

(** ** File paths *)

Record FilePolicyExtension : Type := { fp_file_root : option string; fp_canon_root : option string }.

(** [FilePolicyExtension::required_capabilities]. *)
Definition file_required_capabilities (tool_name : string) (payload : list (string * json)) : gset Capability :=
  if decide (tool_name ∈ ["file.read"; "glob.search"; "content.search"; "memory_search"; "memory_get"])
  then {[ FilesystemRead ]}
  else if decide (tool_name ∈ ["file.write"; "file.edit"]) then {[ FilesystemWrite ]}
  else if decide (tool_name = "config.import") then
    {[ FilesystemRead ]} ∪ (if config_import_mode_requires_write_object payload then {[ FilesystemWrite ]} else ∅)
  else ∅.

Section policy.
Context {W : Type}.
Variable fs : FileSystem W.
Variable canonical_tool_name : string -> string.

Definition FilePolicyExtension_new (file_root : option string) : M W FilePolicyExtension :=
  let! canon_root :=
    match file_root with
    | None => ret None
    | Some root =>
        let! r := fs_canonicalize fs root in
        ret (match r with Ok canon => Some canon | Err _ => None end)
    end in
  ret {| fp_file_root := file_root; fp_canon_root := canon_root |}.

(** The [while] loop; a parent is shorter than its path, so the fuel is one more
    than the length of the path.  The suffix is in the order it is put back. *)
Fixpoint reconstruct_loop (fuel : nat) (cursor : string) (suffix : list string) : M W (option string) :=
  match fuel with
  | O => ret None
  | S fuel =>
      let! exists_ := fs_exists fs cursor in
      if negb exists_ then
        match path_file_name cursor with
        | None => ret None
        | Some component =>
            match path_parent cursor with
            | None => ret None
            | Some parent => reconstruct_loop fuel parent (component :: suffix)
            end
        end
      else
        let! r := fs_canonicalize fs cursor in
        ret (match r with Ok canon => Some (foldl path_join canon suffix) | Err _ => None end)
  end.

Definition reconstruct_from_existing_ancestor (path : string) : M W (option string) :=
  reconstruct_loop (S (String.length path)) path [].

Definition starts_under (root path : string) : bool :=
  path_starts_with (path_components path) (path_components root).

(** The link could be read: where it points to. *)
Definition symlink_escapes (normalized_effective_root effective_root combined target : string) : M W bool :=
  if has_root target
  then ret (negb (starts_under normalized_effective_root (normalize_without_fs target)))
  else
    let raw_parent := default effective_root (path_parent combined) in
    let! parent := fs_canonicalize fs raw_parent in
    match parent with
    | Err _ => ret true
    | Ok symlink_parent =>
        ret (negb (starts_under normalized_effective_root
               (normalize_without_fs (path_join symlink_parent target))))
    end.

Definition path_escapes_root (x : FilePolicyExtension) (raw_path : string) : M W bool :=
  match fp_file_root x with
  | None => ret false
  | Some root =>
      let effective_root := default root (fp_canon_root x) in
      let normalized_effective_root := normalize_without_fs effective_root in
      let combined := if has_root raw_path then raw_path else path_join effective_root raw_path in
      let! canon := fs_canonicalize fs combined in
      match canon with
      | Ok canon => ret (negb (starts_under normalized_effective_root canon))
      | Err _ =>
          let! is_symlink := fs_is_symlink fs combined in
          if is_symlink then
            let! target := fs_read_link fs combined in
            match target with
            | Ok target => symlink_escapes normalized_effective_root effective_root combined target
            | Err _ => ret true
            end
          else
            let! reconstructed := reconstruct_from_existing_ancestor combined in
            match reconstructed with
            | Some reconstructed_path =>
                ret (negb (starts_under normalized_effective_root (normalize_without_fs reconstructed_path)))
            | None => ret (negb (starts_under normalized_effective_root (normalize_without_fs combined)))
            end
      end
  end.

Definition opt_list {A} (o : option A) : list A := match o with Some a => [a] | None => [] end.

Definition raw_paths_for_request (tool_name : string) (payload : list (string * json)) : list string :=
  if decide (canonical_tool_name tool_name = "config.import")
  then opt_list (trimmed_string (fields_get "input_path" payload))
       ++ opt_list (trimmed_string (fields_get "output_path" payload))
  else opt_list (trimmed_string (fields_get "root" payload))
       ++ opt_list (trimmed_string (fields_get "path" payload)).

(** The loop over the paths of a request. *)
Fixpoint authorize_paths (x : FilePolicyExtension) (root : string) (raw_paths : list string)
  : M W (result unit PolicyError) :=
  match raw_paths with
  | [] => ret (Ok tt)
  | raw_path :: raw_paths =>
      let! escapes_root := path_escapes_root x raw_path in
      if negb escapes_root then authorize_paths x root raw_paths
      else ret (Err (ExtensionDenied "file-policy"
             ("path `" +:+ raw_path +:+ "` escapes file root `" +:+ root +:+ "`")))
  end.

Definition authorize_file_payload (x : FilePolicyExtension) (tool_name : string)
    (payload : list (string * json)) : M W (result unit PolicyError) :=
  match fp_file_root x with
  | None => ret (Ok tt)
  | Some root => authorize_paths x root (raw_paths_for_request tool_name payload)
  end.

Definition authorize_direct_file_payload (rt : ToolPolicyConfig) (tool_name : string)
    (payload : list (string * json)) : M W (result unit string) :=
  let! extension := FilePolicyExtension_new (rt_file_root rt) in
  try_map_err (fun error => "policy_denied: " +:+ PolicyError_to_string error)
    (authorize_file_payload extension tool_name payload).

(** ** The extensions *)

Definition params_tool_name (params : json) : string :=
  default "" (json_get "tool_name" params ≫= json_as_str).

(** The tool and payload of a shell request, through [tool.invoke]. *)
Definition effective_shell_request (params : json) : string * option json :=
  let tool_name := canonical_tool_name (params_tool_name params) in
  let payload := json_get "payload" params in
  if decide (tool_name <> "tool.invoke") then (tool_name, payload) else
  (from_option canonical_tool_name tool_name ((payload ≫= json_get "tool_id") ≫= json_as_str),
   payload ≫= json_get "arguments").

Definition tool_policy_authorize (x : ToolPolicyExtension) (context : PolicyExtensionContext)
  : result unit PolicyError :=
  match px_request_parameters context with
  | None => Ok tt
  | Some params =>
      let (tool_name, payload) := effective_shell_request params in
      if decide (tool_name <> "shell.exec") then Ok tt else
      match payload ≫= json_as_object with
      | None => Ok tt
      | Some payload => authorize_shell_payload x tool_name payload
      end
  end.

Definition tool_policy_extension (x : ToolPolicyExtension) : PolicyExtension W := {|
  pex_name := "tool-policy";
  pex_authorize_extension context := ret (tool_policy_authorize x context) |}.

Definition file_policy_authorize (x : FilePolicyExtension) (context : PolicyExtensionContext)
  : M W (result unit PolicyError) :=
  match px_request_parameters context with
  | None => ret (Ok tt)
  | Some params =>
      let tool_name := canonical_tool_name (params_tool_name params) in
      match json_get "payload" params ≫= json_as_object with
      | None => ret (Ok tt)
      | Some payload =>
          let required_capabilities := file_required_capabilities tool_name payload in
          if decide (required_capabilities = ∅) then ret (Ok tt) else
          match find_first (fun c => negb (bool_decide (c ∈ ct_allowed_capabilities (px_token context))))
                  (btree_set_iter required_capabilities) with
          | Some c =>
              ret (Err (ExtensionDenied "file-policy"
                ("tool `" +:+ tool_name +:+ "` requires capability `" +:+ Capability_debug c
                 +:+ "` not granted to token")))
          | None =>
              run? authorize_file_payload x tool_name payload in
              ret (Ok tt)
          end
      end
  end.

Definition file_policy_extension (x : FilePolicyExtension) : PolicyExtension W := {|
  pex_name := "file-policy";
  pex_authorize_extension := file_policy_authorize x |}.

(** ** direct_policy_preflight.rs *)

Definition preflight_run (rt : ToolPolicyConfig) (request : ToolCoreRequest) : M W (result unit string) :=
  match json_as_object (tcr_payload request) with
  | None => ret (Ok tt)
  | Some payload =>
      let tool_name := canonical_tool_name (tcr_tool_name request) in
      if decide (tool_name = "shell.exec") then ret (authorize_direct_shell_payload rt payload) else
      if decide (tool_name ∈ ["file.read"; "file.write"; "file.edit"; "config.import"])
      then authorize_direct_file_payload rt tool_name payload
      else ret (Ok tt)
  end.
End policy.

Example validate_examples :
  validate_shell_command_name " git " = Ok "git" /\
  is_ok (validate_shell_command_name "/bin/ls") = false /\
  is_ok (validate_shell_command_name "Git") = false /\
  is_ok (validate_shell_command_name "rm -rf") = false.
Proof. by vm_compute. Qed.
