(* ===== verification/ToolPolicyFacts.v ===== *)
(** * Policies of the tools: theorems

    When a shell command passes, what the normal form of a path is, and that a
    tool call the kernel let through had passed both policies. *)

From Stdlib Require Import Ascii.
From S2P Require Import Prelude RustStr RustPath Contracts Json Policy Planes AuditSinks Kernel KernelGate FileDiff FileEdit FileTool FileToolFacts Bash ToolPolicy.

(** ** Shell commands *)

(** A lowercase name with neither white space nor separators. *)
Definition bare_command (name : string) : Prop :=
  name <> "" /\ contains_whitespace name = false /\ lacks_char "/"%char name = true /\
  lacks_char backslash name = true /\ to_ascii_lowercase name = name.

Lemma ascii_space_whitespace c s :
  is_ascii_space c = true -> str_contains_char c s = true -> contains_whitespace s = true.
Proof.
  intros Hc. induction s as [|a s IH]; [done|]. intros H. cbn [contains_whitespace].
  destruct (decide (a = c)) as [->|Hne]; [simpl; by rewrite Hc|].
  apply orb_true_iff. right. apply IH.
  unfold str_contains_char in *. simpl in H. unfold char_eqb in H.
  rewrite bool_decide_eq_false_2 in H by done. done.
Qed.

Lemma validate_spec command name :
  validate_shell_command_name command = Ok name <-> name = trim command /\ bare_command name.
Proof.
  unfold validate_shell_command_name, bare_command, lacks_char. set (t := trim command).
  destruct (str_is_empty t) eqn:He.
  { split; [done|]. intros [-> [Hne _]]. by destruct t. }
  assert (t <> "") as Hne by (by destruct t).
  destruct (str_contains_char newline_char t || str_contains_char cr_char t) eqn:Hn.
  { split; [done|]. intros (-> & _ & Hw & _).
    apply orb_prop in Hn as [Hn|Hn]; apply ascii_space_whitespace in Hn; [congruence|done|congruence|done]. }
  destruct (contains_whitespace t) eqn:Hw; [split; [done|]; intros (-> & _ & H & _); congruence|].
  destruct (str_contains_char "/" t) eqn:Hs; simpl;
    [split; [done|]; intros (-> & _ & _ & H & _); by rewrite Hs in H|].
  destruct (str_contains_char backslash t) eqn:Hb; simpl;
    [split; [done|]; intros (-> & _ & _ & _ & H & _); by rewrite Hb in H|].
  destruct (decide (t <> to_ascii_lowercase t)) as [Hl|Hl];
    [split; [done|]; intros (-> & _ & _ & _ & _ & H); by rewrite H in Hl|].
  apply dec_stable in Hl. split; [intros [= <-]; rewrite <- !Hl; by rewrite Hs, Hb|].
  intros (-> & _). by rewrite <- Hl.
Qed.

(** The policy on the command of a payload. *)
Definition shell_permits (x : ToolPolicyExtension) (payload : list (string * json)) : Prop :=
  forall command, fields_get "command" payload = Some (JString command) -> trim command <> "" ->
  bare_command (trim command) /\ trim command ∉ tp_hard_deny x /\
  (trim command ∈ tp_allow x \/
   shell_exec_matches_trusted_internal_approval payload
     (shell_exec_approval_key_for_normalized_command (trim command)) = true \/
   tp_default_mode x = DefaultAllow).

Lemma authorize_shell_iff x tool_name payload :
  authorize_shell_payload x tool_name payload = Ok tt <-> shell_permits x payload.
Proof.
  unfold authorize_shell_payload, shell_permits.
  destruct (fields_get "command" payload) as [v|]; simpl; [|naive_solver].
  destruct (json_as_str v) as [command|] eqn:Hv; [|destruct v; naive_solver].
  assert (v = JString command) as -> by (destruct v; naive_solver).
  destruct (str_is_empty (trim command)) eqn:He.
  { split; [|done]. intros _ c [= <-] Hne. by destruct (trim command). }
  assert (trim command <> "") as Hne by (by destruct (trim command)).
  pose proof (validate_spec (trim command)) as Hval. rewrite trim_trim in Hval.
  destruct (validate_shell_command_name (trim command)) as [name|reason].
  - destruct (proj1 (Hval name) eq_refl) as [-> Hbare]. simpl.
    destruct (decide (trim command ∈ tp_hard_deny x)) as [Hd|].
    { split; [done|]. intros H. by destruct (H command eq_refl Hne) as (_ & Hd' & _). }
    destruct (decide (trim command ∈ tp_allow x)); [naive_solver|].
    destruct (shell_exec_matches_trusted_internal_approval _ _) eqn:Ha; [naive_solver|].
    destruct (tp_default_mode x); [|naive_solver]. split; [done|].
    intros H. destruct (H command eq_refl Hne) as (_ & _ & [?|[?|?]]); [done|congruence|done].
  - simpl. split; [done|]. intros H. destruct (H command eq_refl Hne) as [Hbare _].
    discriminate (proj2 (Hval (trim command)) (conj eq_refl Hbare)).
Qed.

(** The shell policy lets a payload pass exactly when its
    command, if there is one, is a bare lowercase name (no white space, no path
    separator, no capitals) outside the deny list, and it is on the allow list, or
    the trusted internal context approves exactly that name, or the default is to
    allow.  The deny list wins over all three. *)
Theorem shell_policy_iff x tool_name payload :
  authorize_shell_payload x tool_name payload = Ok tt <-> shell_permits x payload.
Proof. apply authorize_shell_iff. Qed.

(** ** Normal forms *)

Lemma normalize_fold_plain names parts :
  foldl normalize_component (true, parts) (map Normal names) = (true, parts ++ names).
Proof.
  revert parts. induction names as [|n names IH]; intros parts; simpl; [by rewrite app_nil_r|].
  rewrite IH. by rewrite <- app_assoc.
Qed.

(** Normalizing an absolute path removes every [.] and [..] and
    never climbs above the root; normalizing again changes nothing. *)
Theorem normalize_without_fs_plain path :
  has_root path = true ->
  plain_path (normalize_without_fs path) /\
  normalize_without_fs (normalize_without_fs path) = normalize_without_fs path.
Proof.
  intros Hr. split; [by apply normalize_plain|].
  unfold normalize_without_fs. rewrite (components_rooted path) by done. simpl.
  destruct (normalize_fold (omap body_component (split_char path_separator path)) [])
    as (names & -> & Hnames); [|constructor|].
  { apply Forall_forall. intros c (s & Hs & Hb)%list_elem_of_omap.
    destruct (join_split_char path_separator path) as (_ & _ & Hf). rewrite Forall_forall in Hf.
    eapply body_component_plain; [by apply Hf|done]. }
  change (path_join "" "/") with "/".
  destruct (components_join_all "/" names eq_refl Hnames) as [Hroot Hc].
  assert (str_is_empty (foldl path_join "/" names) = false) as Hne
    by (destruct (has_root_cons _ Hroot) as [r ->]; done).
  rewrite Hne, Hc. change (path_components "/") with [RootDir]. simpl. rewrite normalize_fold_plain. simpl.
  by rewrite Hne.
Qed.

(** ** Through the kernel *)

(** An extension of a chain that passed was asked in the world its predecessors left,
    and passed. *)
Lemma chain_authorizes {W} (before : PolicyExtensionChain W) x after context w w' :
  PolicyExtensionChain_authorize (before ++ x :: after) context w = (Returned (Ok tt), w') ->
  exists w1 w2, PolicyExtensionChain_authorize before context w = (Returned (Ok tt), w1) /\
    pex_authorize_extension x context w1 = (Returned (Ok tt), w2).
Proof.
  revert w. induction before as [|y before IH]; intros w H; simpl in H.
  - apply try_bind_ok in H as ([] & w1 & Hx & _). by exists w, w1.
  - apply try_bind_ok in H as ([] & w1 & Hy & H). destruct (IH w1 H) as (w2 & w3 & Hb & Hx).
    exists w2, w3. split; [|done]. simpl. unfold try_bind, bind. by rewrite Hy.
Qed.

Section kernel.
Context {V : Semver} {P A C W : Type}.
Context `{!PolicyEngine P, !AuditSink A, !Clock C}.
Variable fs : FileSystem W.
Variable canonical_tool_name : string -> string.

(** The paths, asked one after the other from the world [w] on, are all found to stay
    under the root. *)
Inductive none_escapes (x : FilePolicyExtension) : list string -> W -> W -> Prop :=
| NoPaths w : none_escapes x [] w w
| PathStays path paths w w1 w2 :
    path_escapes_root fs x path w = (Returned false, w1) -> none_escapes x paths w1 w2 ->
    none_escapes x (path :: paths) w w2.

Lemma authorize_paths_ok x root paths w w' :
  authorize_paths fs x root paths w = (Returned (Ok tt), w') -> none_escapes x paths w w'.
Proof.
  revert w. induction paths as [|p paths IH]; intros w H; simpl in H; [rust_inv; constructor|].
  apply bind_returned in H as (escapes & w1 & He & H).
  destruct escapes; simpl in H; [by rust_inv|]. econstructor; [exact He|by apply IH].
Qed.

(** What the file policy, asked in [w], asks of a request. *)
Definition file_permits (x : FilePolicyExtension) (token : CapabilityToken) (tool_name : string)
    (payload : list (string * json)) (w : W) : Prop :=
  file_required_capabilities tool_name payload ⊆ ct_allowed_capabilities token /\
  (file_required_capabilities tool_name payload <> ∅ -> fp_file_root x <> None ->
   exists w', none_escapes x (raw_paths_for_request canonical_tool_name tool_name payload) w w').

Lemma file_policy_permits x context tool_name payload w w' :
  px_request_parameters context = Some (JObject [("tool_name", JString tool_name); ("payload", JObject payload)]) ->
  file_policy_authorize fs canonical_tool_name x context w = (Returned (Ok tt), w') ->
  file_permits x (px_token context) (canonical_tool_name tool_name) payload w.
Proof.
  intros Hp. unfold file_policy_authorize, file_permits. rewrite Hp. simpl. unfold params_tool_name. simpl.
  set (required := file_required_capabilities (canonical_tool_name tool_name) payload).
  destruct (decide (required = ∅)) as [->|Hne]; [by split; [set_solver|]|].
  destruct (find_first _ _) eqn:Hf; intros H; [by rust_inv|]. apply missing_capability_None in Hf.
  split; [done|]. intros _ Hroot. apply try_bind_ok in H as ([] & w1 & H & _).
  unfold authorize_file_payload in H. destruct (fp_file_root x) as [root|]; [|done].
  exists w1. by eapply authorize_paths_ok.
Qed.

(** The parameters of a tool call, as the kernel passes them to the extensions. *)
Definition tool_parameters (request : ToolCoreRequest) : json :=
  JObject [("tool_name", JString (tcr_tool_name request)); ("payload", tcr_payload request)].

Lemma tool_core_chain_passed pack_id token required core_name request (k : LoongKernel P A C W) out k' :
  LoongKernel_execute_tool_core pack_id token required core_name request k = (Returned (Ok out), k') ->
  exists context w1, px_token context = token /\
    px_request_parameters context = Some (tool_parameters request) /\
    PolicyExtensionChain_authorize (lk_policy_extensions k) context (lk_world k) = (Returned (Ok tt), w1).
Proof.
  intros (pack & k1 & Hp & (now & k2 & Ha & _)%try_bind_ok)%try_bind_ok.
  unfold LoongKernel_get_pack, gets in Hp. injection Hp as _ <-.
  apply (authorize_ok (OpToolCore pack_id token required core_name request))
    in Ha as (_ & c' & p' & w1 & _ & _ & Hx & _). eexists _, w1.
  split; [|split; [|exact Hx]]; reflexivity.
Qed.

(** C11 (safety). Composition with the kernel: when the application's two policy
    extensions are registered, a tool call that succeeded had passed both.  If it
    asked for [shell.exec], directly or through [tool.invoke], with an object of
    arguments, the shell policy permits its command.  If its payload is an object,
    its token held the file-system capabilities the tool's mode needs, and, where
    a file root is configured, none of its paths was found to escape the root when
    they were checked, one after the other, in the world this call and the
    extensions before had left.  This holds for any policy engine, audit sink and
    clock, and wherever the extensions stand in the chain.  A payload that is not
    an object is not examined by the extensions. *)
Theorem kernel_tool_calls_policed x f before_x after_x before_f after_f
    pack_id token required core_name request (k : LoongKernel P A C W) out k' :
  lk_policy_extensions k = before_x ++ tool_policy_extension canonical_tool_name x :: after_x ->
  lk_policy_extensions k = before_f ++ file_policy_extension fs canonical_tool_name f :: after_f ->
  LoongKernel_execute_tool_core pack_id token required core_name request k = (Returned (Ok out), k') ->
  (forall payload,
     effective_shell_request canonical_tool_name (tool_parameters request) = ("shell.exec", Some (JObject payload)) ->
     shell_permits x payload) /\
  (forall payload, tcr_payload request = JObject payload ->
     exists context w,
       px_token context = token /\ px_request_parameters context = Some (tool_parameters request) /\
       PolicyExtensionChain_authorize before_f context (lk_world k) = (Returned (Ok tt), w) /\
       file_permits f token (canonical_tool_name (tcr_tool_name request)) payload w).
Proof.
  intros Hx Hf (context & w1 & Ht & Hp & Hc)%tool_core_chain_passed. split; intros payload Hpay.
  - rewrite Hx in Hc. apply chain_authorizes in Hc as (w2 & w3 & _ & Ha).
    simpl in Ha. unfold ret, tool_policy_authorize in Ha. rewrite Hp, Hpay in Ha. simpl in Ha.
    injection Ha as Ha _. by apply authorize_shell_iff in Ha.
  - rewrite Hf in Hc. apply chain_authorizes in Hc as (w2 & w3 & Hb & Ha). exists context, w2.
    split_and!; [done..|]. rewrite <-Ht. eapply file_policy_permits; [|exact Ha].
    rewrite Hp. unfold tool_parameters. by rewrite Hpay.
Qed.
End kernel.

(** The file policy does not look into [tool.invoke]: a write outside the root
    passes it, whatever the file system says. *)
Lemma file_policy_skips_invoke {W} (fs : FileSystem W) x context w :
  px_request_parameters context = Some (JObject
    [("tool_name", JString "tool.invoke");
     ("payload", JObject [("tool_id", JString "file.write");
                          ("arguments", JObject [("path", JString "/etc/passwd"); ("content", JString "")])])]) ->
  file_policy_authorize fs (fun name => name) x context w = (Returned (Ok tt), w).
Proof. intros H. unfold file_policy_authorize. by rewrite H. Qed.
