(* ===== verification/Circuit.v ===== *)
(** * The connector circuit breaker

    [crates/spec/src/spec_runtime/connector_circuit.rs] and the policy of
    [spec_runtime.rs]: the state machine that stops calls to a failing
    connector, probes it after a cooldown and closes again.  A [usize] or [u64]
    counter is a [Z] with its saturation written out; an instant of the tokio
    clock is a number of nanoseconds.  The two operations take the state by
    [&mut] in the source: here they return it.

    The theorems are about sequences of operations: which histories of outcomes
    trip the breaker, that an open circuit admits nothing before its deadline
    and a half-open one no more than its quota, and that a connector that works
    again is let in again. *)

From S2P Require Import Prelude RustStr.

Inductive ConnectorCircuitPhase : Type := PhaseClosed | PhaseOpen | PhaseHalfOpen.

#[export] Instance ConnectorCircuitPhase_eq_dec : EqDecision ConnectorCircuitPhase.
Proof. solve_decision. Defined.

Record ConnectorCircuitRuntimeState : Type := {
  cs_phase : ConnectorCircuitPhase;
  cs_consecutive_failures : Z;
  cs_open_until : option Z;
  cs_half_open_remaining_calls : Z;
  cs_half_open_successes : Z;
}.

Definition ConnectorCircuitRuntimeState_default : ConnectorCircuitRuntimeState := {|
  cs_phase := PhaseClosed;
  cs_consecutive_failures := 0;
  cs_open_until := None;
  cs_half_open_remaining_calls := 0;
  cs_half_open_successes := 0 |}.

Record ConnectorCircuitBreakerPolicy : Type := {
  cb_enabled : bool;
  cb_failure_threshold : Z;
  cb_cooldown_ms : Z;
  cb_half_open_max_calls : Z;
  cb_success_threshold : Z;
}.

Definition default_programmatic_circuit_failure_threshold : Z := 3.
Definition default_programmatic_circuit_cooldown_ms : Z := 1000.
Definition default_programmatic_circuit_half_open_max_calls : Z := 1.
Definition default_programmatic_circuit_success_threshold : Z := 1.

Definition ConnectorCircuitBreakerPolicy_default : ConnectorCircuitBreakerPolicy := {|
  cb_enabled := true;
  cb_failure_threshold := default_programmatic_circuit_failure_threshold;
  cb_cooldown_ms := default_programmatic_circuit_cooldown_ms;
  cb_half_open_max_calls := default_programmatic_circuit_half_open_max_calls;
  cb_success_threshold := default_programmatic_circuit_success_threshold |}.

Inductive ConnectorCircuitAcquireError : Type :=
| AcquireOpen (remaining_cooldown_ms : Z)
| AcquireHalfOpenReopened.

Definition validate_connector_circuit_breaker_policy (policy : ConnectorCircuitBreakerPolicy)
    (context : string) : result unit string :=
  if negb (cb_enabled policy) then Ok tt
  else if decide (cb_failure_threshold policy = 0%Z) then
    Err (context +:+ " failure_threshold must be greater than 0")
  else if decide (cb_cooldown_ms policy = 0%Z) then
    Err (context +:+ " cooldown_ms must be greater than 0")
  else if decide (cb_half_open_max_calls policy = 0%Z) then
    Err (context +:+ " half_open_max_calls must be greater than 0")
  else if decide (cb_success_threshold policy = 0%Z) then
    Err (context +:+ " success_threshold must be greater than 0")
  else if decide (cb_half_open_max_calls policy < cb_success_threshold policy)%Z then
    Err (context +:+ " success_threshold must be <= half_open_max_calls")
  else Ok tt.

Definition connector_circuit_phase_label (phase : ConnectorCircuitPhase) : string :=
  match phase with
  | PhaseClosed => "closed"
  | PhaseOpen => "open"
  | PhaseHalfOpen => "half_open"
  end.

(** [Duration::from_millis] and [Duration::as_millis] over nanoseconds. *)
Definition nanos_per_milli : Z := 1000000.
Definition from_millis (ms : Z) : Z := ms * nanos_per_milli.
Definition as_millis (nanos : Z) : Z := nanos / nanos_per_milli.

Definition connector_circuit_remaining_cooldown_ms (state : ConnectorCircuitRuntimeState)
    (now : Z) : option Z :=
  match cs_open_until state with
  | None => None
  | Some open_until =>
      if decide (open_until <= now)%Z then Some 0%Z
      else Some (Z.min (as_millis (open_until - now)) u64_max)
  end.

(** The half-open block of the acquisition: the quota is spent, or one is taken. *)
Definition acquire_half_open (policy : ConnectorCircuitBreakerPolicy)
    (state : ConnectorCircuitRuntimeState) (now : Z)
  : result string ConnectorCircuitAcquireError * ConnectorCircuitRuntimeState :=
  if decide (cs_half_open_remaining_calls state = 0%Z) then
    (Err AcquireHalfOpenReopened,
     {| cs_phase := PhaseOpen;
        cs_consecutive_failures := cs_consecutive_failures state;
        cs_open_until := Some (now + from_millis (cb_cooldown_ms policy))%Z;
        cs_half_open_remaining_calls := cs_half_open_remaining_calls state;
        cs_half_open_successes := cs_half_open_successes state |})
  else
    (Ok "half_open",
     {| cs_phase := cs_phase state;
        cs_consecutive_failures := cs_consecutive_failures state;
        cs_open_until := cs_open_until state;
        cs_half_open_remaining_calls := Z.max 0 (cs_half_open_remaining_calls state - 1);
        cs_half_open_successes := cs_half_open_successes state |}).

Definition acquire_connector_circuit_slot_for_state (policy : ConnectorCircuitBreakerPolicy)
    (state : ConnectorCircuitRuntimeState) (now : Z)
  : result string ConnectorCircuitAcquireError * ConnectorCircuitRuntimeState :=
  if negb (cb_enabled policy) then (Ok "disabled", state)
  else
    match cs_phase state with
    | PhaseOpen =>
        let opened := {|
          cs_phase := PhaseHalfOpen;
          cs_consecutive_failures := cs_consecutive_failures state;
          cs_open_until := None;
          cs_half_open_remaining_calls := cb_half_open_max_calls policy;
          cs_half_open_successes := 0 |} in
        match connector_circuit_remaining_cooldown_ms state now with
        | Some remaining_cooldown_ms =>
            if decide (0 < remaining_cooldown_ms)%Z
            then (Err (AcquireOpen remaining_cooldown_ms), state)
            else acquire_half_open policy opened now
        | None => acquire_half_open policy opened now
        end
    | PhaseHalfOpen => acquire_half_open policy state now
    | PhaseClosed => (Ok "closed", state)
    end.

Definition record_connector_circuit_outcome_for_state (policy : ConnectorCircuitBreakerPolicy)
    (state : ConnectorCircuitRuntimeState) (success : bool) (now : Z)
  : string * ConnectorCircuitRuntimeState :=
  if negb (cb_enabled policy) then ("disabled", state)
  else
    let reopen_deadline := (now + from_millis (cb_cooldown_ms policy))%Z in
    let state' :=
      match cs_phase state with
      | PhaseClosed =>
          if success then
            {| cs_phase := PhaseClosed;
               cs_consecutive_failures := 0;
               cs_open_until := cs_open_until state;
               cs_half_open_remaining_calls := cs_half_open_remaining_calls state;
               cs_half_open_successes := cs_half_open_successes state |}
          else
            let failures := u64_saturating_add (cs_consecutive_failures state) 1 in
            if decide (cb_failure_threshold policy <= failures)%Z then
              {| cs_phase := PhaseOpen;
                 cs_consecutive_failures := failures;
                 cs_open_until := Some reopen_deadline;
                 cs_half_open_remaining_calls := 0;
                 cs_half_open_successes := 0 |}
            else
              {| cs_phase := PhaseClosed;
                 cs_consecutive_failures := failures;
                 cs_open_until := cs_open_until state;
                 cs_half_open_remaining_calls := cs_half_open_remaining_calls state;
                 cs_half_open_successes := cs_half_open_successes state |}
      | PhaseHalfOpen =>
          if success then
            let successes := u64_saturating_add (cs_half_open_successes state) 1 in
            if decide (cb_success_threshold policy <= successes)%Z then
              {| cs_phase := PhaseClosed;
                 cs_consecutive_failures := 0;
                 cs_open_until := None;
                 cs_half_open_remaining_calls := 0;
                 cs_half_open_successes := 0 |}
            else if decide (cs_half_open_remaining_calls state = 0%Z) then
              {| cs_phase := PhaseOpen;
                 cs_consecutive_failures := cs_consecutive_failures state;
                 cs_open_until := Some reopen_deadline;
                 cs_half_open_remaining_calls := cs_half_open_remaining_calls state;
                 cs_half_open_successes := 0 |}
            else
              {| cs_phase := PhaseHalfOpen;
                 cs_consecutive_failures := cs_consecutive_failures state;
                 cs_open_until := cs_open_until state;
                 cs_half_open_remaining_calls := cs_half_open_remaining_calls state;
                 cs_half_open_successes := successes |}
          else
            {| cs_phase := PhaseOpen;
               cs_consecutive_failures := cs_consecutive_failures state;
               cs_open_until := Some reopen_deadline;
               cs_half_open_remaining_calls := 0;
               cs_half_open_successes := 0 |}
      | PhaseOpen => state
      end in
    (connector_circuit_phase_label (cs_phase state'), state').

(** ** Histories *)

Inductive circuit_event : Type :=
| EvAcquire (now : Z)
| EvRecord (success : bool) (now : Z).

Definition event_now (e : circuit_event) : Z :=
  match e with EvAcquire now => now | EvRecord _ now => now end.

(** One operation on the shared state; whether it admitted a call. *)
Definition circuit_step (policy : ConnectorCircuitBreakerPolicy)
    (state : ConnectorCircuitRuntimeState) (e : circuit_event)
  : bool * ConnectorCircuitRuntimeState :=
  match e with
  | EvAcquire now =>
      let (r, state') := acquire_connector_circuit_slot_for_state policy state now in
      (is_ok r, state')
  | EvRecord success now =>
      (false, (record_connector_circuit_outcome_for_state policy state success now).2)
  end.

Fixpoint circuit_run (policy : ConnectorCircuitBreakerPolicy)
    (state : ConnectorCircuitRuntimeState) (es : list circuit_event)
  : nat * ConnectorCircuitRuntimeState :=
  match es with
  | [] => (0, state)
  | e :: es =>
      let (admitted, state') := circuit_step policy state e in
      let (n, state'') := circuit_run policy state' es in
      (if admitted then S n else n, state'')
  end.

(** The recorded outcomes of a history, without its acquisitions. *)
Definition recorded (bs : list (bool * Z)) : list circuit_event :=
  map (fun b => EvRecord b.1 b.2) bs.

(** What validation accepts of an enabled policy of 64-bit counters. *)
Record circuit_policy_ok (policy : ConnectorCircuitBreakerPolicy) : Prop := {
  cpo_enabled : cb_enabled policy = true;
  cpo_failures : (1 <= cb_failure_threshold policy <= u64_max)%Z;
  cpo_cooldown : (1 <= cb_cooldown_ms policy <= u64_max)%Z;
  cpo_calls : (cb_success_threshold policy <= cb_half_open_max_calls policy <= u64_max)%Z;
  cpo_successes : (1 <= cb_success_threshold policy)%Z;
}.

(** The fields of a [usize] or [u64]. *)
Definition circuit_policy_typed (policy : ConnectorCircuitBreakerPolicy) : Prop :=
  u64_valid (cb_failure_threshold policy) /\ u64_valid (cb_cooldown_ms policy) /\
  u64_valid (cb_half_open_max_calls policy) /\ u64_valid (cb_success_threshold policy).

Lemma validate_connector_circuit_breaker_policy_ok policy context :
  circuit_policy_typed policy -> cb_enabled policy = true ->
  validate_connector_circuit_breaker_policy policy context = Ok tt <-> circuit_policy_ok policy.
Proof.
  unfold circuit_policy_typed, u64_valid, validate_connector_circuit_breaker_policy.
  intros (? & ? & ? & ?) Hen. rewrite Hen; simpl.
  split.
  - repeat case_decide; try done. split; [done|lia..].
  - intros []. repeat case_decide; try done; lia.
Qed.

(** *** The invariant *)

Definition circuit_wf (policy : ConnectorCircuitBreakerPolicy)
    (s : ConnectorCircuitRuntimeState) : Prop :=
  match cs_phase s with
  | PhaseClosed =>
      (0 <= cs_consecutive_failures s < cb_failure_threshold policy)%Z /\
      cs_open_until s = None /\ cs_half_open_remaining_calls s = 0%Z /\
      cs_half_open_successes s = 0%Z
  | PhaseOpen =>
      is_Some (cs_open_until s) /\
      (cb_failure_threshold policy <= cs_consecutive_failures s <= u64_max)%Z /\
      cs_half_open_remaining_calls s = 0%Z /\
      (0 <= cs_half_open_successes s < cb_success_threshold policy)%Z
  | PhaseHalfOpen =>
      cs_open_until s = None /\
      (cb_failure_threshold policy <= cs_consecutive_failures s <= u64_max)%Z /\
      (0 <= cs_half_open_remaining_calls s < cb_half_open_max_calls policy)%Z /\
      (0 <= cs_half_open_successes s < cb_success_threshold policy)%Z
  end.

Ltac circuit_cases :=
  repeat first
    [ case_decide | case_match; simplify_eq/= | progress simpl in * ];
  try done.

Lemma circuit_wf_default policy :
  circuit_policy_ok policy -> circuit_wf policy ConnectorCircuitRuntimeState_default.
Proof. intros []. unfold circuit_wf; simpl. split_and!; (done || lia). Qed.

Lemma acquire_half_open_wf policy s now :
  circuit_policy_ok policy -> cs_phase s = PhaseHalfOpen -> cs_open_until s = None ->
  (cb_failure_threshold policy <= cs_consecutive_failures s <= u64_max)%Z ->
  (0 <= cs_half_open_remaining_calls s <= cb_half_open_max_calls policy)%Z ->
  (0 <= cs_half_open_successes s < cb_success_threshold policy)%Z ->
  circuit_wf policy (acquire_half_open policy s now).2.
Proof.
  intros [] Hphase Huntil Hf Hr Hs. unfold acquire_half_open, circuit_wf.
  case_decide; simpl; [|rewrite Hphase; simpl]; split_and!; try done; lia.
Qed.

Lemma circuit_step_wf policy s e :
  circuit_policy_ok policy -> circuit_wf policy s -> circuit_wf policy (circuit_step policy s e).2.
Proof.
  intros Hok Hs. pose proof Hok as []. unfold circuit_step.
  destruct e as [now|success now].
  - unfold acquire_connector_circuit_slot_for_state. rewrite cpo_enabled0; simpl.
    unfold circuit_wf in Hs. destruct (cs_phase s) eqn:Hphase.
    + simpl. unfold circuit_wf. by rewrite Hphase.
    + destruct Hs as ([d Hd] & Hf & Hr & Hss).
      unfold connector_circuit_remaining_cooldown_ms. rewrite Hd.
      repeat case_decide; simpl;
        try (unfold circuit_wf; rewrite Hphase; split_and!; try done; lia);
        match goal with |- context [acquire_half_open ?p ?st ?n] =>
          pose proof (acquire_half_open_wf p st n) as Hwf; destruct (acquire_half_open p st n) end;
        simpl in *; apply Hwf; try done; lia.
    + destruct Hs as (Hd & Hf & Hr & Hss).
      pose proof (acquire_half_open_wf policy s now) as Hwf.
      destruct (acquire_half_open policy s now); simpl in *. apply Hwf; try done; lia.
  - unfold record_connector_circuit_outcome_for_state, circuit_wf, u64_saturating_add in *.
    rewrite cpo_enabled0; simpl.
    destruct (cs_phase s) eqn:Hphase, success; repeat case_decide; simpl;
      rewrite ?Hphase; simpl in *; split_and!; try done; try lia; naive_solver lia.
Qed.

Lemma circuit_run_wf policy s es :
  circuit_policy_ok policy -> circuit_wf policy s -> circuit_wf policy (circuit_run policy s es).2.
Proof.
  intros Hok. revert s. induction es as [|e es IH]; simpl; intros s Hs; [done|].
  pose proof (circuit_step_wf policy s e Hok Hs) as Hstep.
  destruct (circuit_step policy s e) as [a s']. specialize (IH s' Hstep).
  by destruct (circuit_run policy s' es).
Qed.

Lemma circuit_run_app policy s es es' :
  circuit_run policy s (es ++ es') =
    let (n, s') := circuit_run policy s es in
    let (n', s'') := circuit_run policy s' es' in (n + n', s'').
Proof.
  revert s. induction es as [|e es IH]; simpl; intros s.
  - by destruct (circuit_run policy s es').
  - destruct (circuit_step policy s e) as [a s1]. rewrite IH.
    destruct (circuit_run policy s1 es) as [n s2], (circuit_run policy s2 es') as [n' s3].
    by destruct a.
Qed.

(** *** Tripping *)

(** [k] failures in a row somewhere in a list of outcomes. *)
Definition has_failure_run (k : nat) (outcomes : list bool) : Prop :=
  exists before after, outcomes = before ++ replicate k false ++ after.

Definition trailing_failures (outcomes : list bool) : nat :=
  foldl (fun n (b : bool) => if b then 0 else S n) 0 outcomes.

Lemma trailing_failures_snoc l b :
  trailing_failures (l ++ [b]) = if b then 0 else S (trailing_failures l).
Proof. unfold trailing_failures. by rewrite foldl_app. Qed.

Lemma trailing_failures_spec l k :
  k <= trailing_failures l <-> exists before, l = before ++ replicate k false.
Proof.
  revert k. induction l as [|b l IH] using rev_ind; intros k.
  - split.
    + unfold trailing_failures; simpl. intros ?. assert (k = 0) as -> by lia. by exists [].
    + intros [before Hl%(f_equal length)]. rewrite length_app, length_replicate in Hl.
      simpl in Hl. lia.
  - rewrite trailing_failures_snoc. destruct k as [|k].
    { split; [|lia]. intros _. exists (l ++ [b]). by rewrite app_nil_r. }
    rewrite replicate_S_end. setoid_rewrite (assoc (++)). destruct b.
    + split; [lia|]. by intros [before [? [=]]%app_inj_tail].
    + split.
      * intros Hk. destruct (proj1 (IH k)) as [before ->]; [lia|]. by exists before.
      * intros [before [-> _]%app_inj_tail]. apply le_n_S, IH. by exists before.
Qed.

Lemma has_failure_run_snoc k l b :
  0 < k -> has_failure_run k (l ++ [b]) <->
  has_failure_run k l \/ k <= trailing_failures (l ++ [b]).
Proof.
  intros Hk. rewrite trailing_failures_spec. split.
  - intros (before & after & Hl). destruct after as [|x after _] using rev_ind.
    + right. exists before. by rewrite app_nil_r in Hl.
    + left. exists before, after.
      rewrite !(assoc (++)) in Hl. apply app_inj_tail in Hl as [-> _]. by rewrite <- !(assoc (++)).
  - intros [(before & after & ->)|[before ->]].
    + exists before, (after ++ [b]). by rewrite <- !(assoc (++)).
    + exists before, []. by rewrite app_nil_r.
Qed.

Lemma circuit_run_recorded policy bs :
  circuit_policy_ok policy ->
  let k := Z.to_nat (cb_failure_threshold policy) in
  let s := (circuit_run policy ConnectorCircuitRuntimeState_default (recorded bs)).2 in
  (cs_phase s = PhaseClosed /\ ~ has_failure_run k bs.*1 /\
     cs_consecutive_failures s = Z.of_nat (trailing_failures bs.*1) /\
     trailing_failures bs.*1 < k) \/
  (cs_phase s = PhaseOpen /\ has_failure_run k bs.*1).
Proof.
  intros Hok. pose proof Hok as []. cbv zeta.
  induction bs as [|[b t] bs IH] using rev_ind.
  { left. simpl. split_and!; try done; [|unfold trailing_failures; simpl; lia].
    intros (before & after & Hl%(f_equal length)).
    rewrite !length_app, length_replicate in Hl. simpl in Hl. lia. }
  unfold recorded in *. rewrite map_app, circuit_run_app, fmap_app. simpl.
  destruct (circuit_run policy _ (map _ bs)) as [n s] eqn:Hrun. simpl in IH.
  rewrite has_failure_run_snoc by lia. rewrite trailing_failures_snoc.
  unfold record_connector_circuit_outcome_for_state. rewrite cpo_enabled0; simpl.
  destruct IH as [(Hphase & Hno & Hf & Htr)|(Hphase & Hrun')]; rewrite Hphase; simpl.
  - unfold u64_saturating_add. destruct b; simpl.
    + left. split_and!; [done| |done|lia]. intros [?|?]; [done|lia].
    + case_decide; simpl.
      * right. split; [done|]. right. lia.
      * left. split_and!; [done| |lia..]. intros [?|?]; [done|lia].
  - right. split; [done|]. by left.
Qed.

(** C27 (equivalence). Only the outcomes of calls recorded, the breaker of an
    enabled, validated policy is open exactly when [failure_threshold] failures
    were recorded in a row at some point: a success in between starts the count
    again, and outcomes that arrive once it is open change nothing. *)
Theorem circuit_trips_iff policy bs :
  circuit_policy_ok policy ->
  cs_phase (circuit_run policy ConnectorCircuitRuntimeState_default (recorded bs)).2 = PhaseOpen <->
  has_failure_run (Z.to_nat (cb_failure_threshold policy)) bs.*1.
Proof.
  intros Hok. destruct (circuit_run_recorded policy bs Hok) as [(Hp & ? & _)|[Hp ?]]; rewrite Hp.
  - split; [done|intros; done].
  - done.
Qed.

(** *** An open circuit *)

Lemma circuit_step_cooling policy s e d :
  circuit_policy_ok policy -> cs_phase s = PhaseOpen -> cs_open_until s = Some d ->
  (event_now e + nanos_per_milli <= d)%Z -> circuit_step policy s e = (false, s).
Proof.
  intros [] Hphase Hd Hnow. destruct e as [now|success now]; simpl in *.
  - unfold acquire_connector_circuit_slot_for_state, connector_circuit_remaining_cooldown_ms.
    rewrite cpo_enabled0, Hphase, Hd; simpl. unfold nanos_per_milli in *.
    rewrite decide_False by lia.
    assert (1 <= as_millis (d - now))%Z as Hms.
    { unfold as_millis, nanos_per_milli. apply Z.div_le_lower_bound; lia. }
    rewrite decide_True; [done|]. unfold u64_max, u64_modulus. lia.
  - unfold record_connector_circuit_outcome_for_state. by rewrite cpo_enabled0, Hphase.
Qed.

Lemma circuit_run_cooling policy s es d :
  circuit_policy_ok policy -> cs_phase s = PhaseOpen -> cs_open_until s = Some d ->
  Forall (fun e => event_now e + nanos_per_milli <= d)%Z es ->
  circuit_run policy s es = (0, s).
Proof.
  intros Hok Hphase Hd. induction 1 as [|e es He _ IH]; simpl; [done|].
  rewrite (circuit_step_cooling policy s e d) by done. by rewrite IH.
Qed.

(** The states a history goes through, its first excluded. *)
Fixpoint circuit_states (policy : ConnectorCircuitBreakerPolicy)
    (s : ConnectorCircuitRuntimeState) (es : list circuit_event)
  : list ConnectorCircuitRuntimeState :=
  match es with
  | [] => []
  | e :: es => let s' := (circuit_step policy s e).2 in s' :: circuit_states policy s' es
  end.

Lemma circuit_step_half_open policy s e :
  circuit_policy_ok policy -> circuit_wf policy s -> cs_phase s <> PhaseClosed ->
  cs_phase (circuit_step policy s e).2 = PhaseHalfOpen ->
  let quota s := match cs_phase s with
                 | PhaseOpen => cb_half_open_max_calls policy
                 | _ => cs_half_open_remaining_calls s end in
  ((if (circuit_step policy s e).1 then 1 else 0)
    + quota (circuit_step policy s e).2 = quota s)%Z.
Proof.
  intros Hok Hwf Hncl. pose proof Hok as []. unfold circuit_wf in Hwf.
  destruct e as [now|success now]; simpl.
  - unfold acquire_connector_circuit_slot_for_state, acquire_half_open. rewrite cpo_enabled0; simpl.
    destruct (cs_phase s) eqn:Hphase; [done| |].
    + destruct Hwf as ([d Hd] & _).
      unfold connector_circuit_remaining_cooldown_ms. rewrite Hd.
      repeat case_decide; simpl; rewrite ?Hphase; try done; lia.
    + case_decide; simpl; rewrite ?Hphase; [done|]. lia.
  - unfold record_connector_circuit_outcome_for_state. rewrite cpo_enabled0; simpl.
    destruct (cs_phase s) eqn:Hphase, success; repeat case_decide; simpl; rewrite ?Hphase; done.
Qed.

Lemma circuit_run_half_open policy s es :
  circuit_policy_ok policy -> circuit_wf policy s -> cs_phase s <> PhaseClosed ->
  Forall (fun s' => cs_phase s' = PhaseHalfOpen) (circuit_states policy s es) ->
  (Z.of_nat (circuit_run policy s es).1 <=
     match cs_phase s with
     | PhaseOpen => cb_half_open_max_calls policy
     | _ => cs_half_open_remaining_calls s end)%Z.
Proof.
  intros Hok. revert s. induction es as [|e es IH]; simpl; intros s Hwf Hncl Hall.
  { pose proof Hok as []. unfold circuit_wf in Hwf. destruct (cs_phase s); simpl; [done|lia..]. }
  inversion_clear Hall as [|? ? Hhalf Hrest].
  pose proof (circuit_step_half_open policy s e Hok Hwf Hncl Hhalf) as Hq.
  pose proof (circuit_step_wf policy s e Hok Hwf) as Hwf'.
  destruct (circuit_step policy s e) as [a s']. simpl in *.
  specialize (IH s' Hwf' ltac:(by rewrite Hhalf) Hrest). rewrite Hhalf in *.
  destruct (circuit_run policy s' es) as [n s'']. simpl in *. destruct a; lia.
Qed.

(** Whatever operations led to an open circuit, with [d] its
    deadline: any number of further operations admit no call and change nothing
    as long as a millisecond of cooldown is left; and a stretch of operations
    through half-open states only admits at most [half_open_max_calls] calls. *)
Theorem circuit_open_holds policy es cooling probing :
  circuit_policy_ok policy ->
  let s := (circuit_run policy ConnectorCircuitRuntimeState_default es).2 in
  cs_phase s = PhaseOpen ->
  exists d, cs_open_until s = Some d /\
    (Forall (fun e => event_now e + nanos_per_milli <= d)%Z cooling ->
     circuit_run policy s cooling = (0, s)) /\
    (Forall (fun s' => cs_phase s' = PhaseHalfOpen) (circuit_states policy s probing) ->
     (Z.of_nat (circuit_run policy s probing).1 <= cb_half_open_max_calls policy)%Z).
Proof.
  intros Hok s Hphase.
  assert (circuit_wf policy s) as Hwf by (apply circuit_run_wf; [|apply circuit_wf_default]; done).
  assert (is_Some (cs_open_until s)) as [d Hd] by (unfold circuit_wf in Hwf; rewrite Hphase in Hwf; tauto).
  exists d. split_and!; [done| |].
  - by apply circuit_run_cooling.
  - intros Hall. pose proof (circuit_run_half_open policy s probing Hok Hwf) as Hq.
    rewrite Hphase in Hq. by apply Hq.
Qed.

(** *** Recovery *)

(** A probe that succeeds: the slot is taken, the call succeeds. *)
Definition probe (now : Z) : list circuit_event := [EvAcquire now; EvRecord true now].

Lemma circuit_probe_first policy s d now :
  circuit_policy_ok policy -> cs_phase s = PhaseOpen -> cs_open_until s = Some d ->
  (d <= now)%Z ->
  circuit_run policy s (probe now) =
    circuit_run policy
      {| cs_phase := PhaseHalfOpen;
         cs_consecutive_failures := cs_consecutive_failures s;
         cs_open_until := None;
         cs_half_open_remaining_calls := cb_half_open_max_calls policy;
         cs_half_open_successes := 0 |} (probe now).
Proof.
  intros [] Hphase Hd Hnow. unfold probe; simpl.
  unfold acquire_connector_circuit_slot_for_state, connector_circuit_remaining_cooldown_ms.
  rewrite cpo_enabled0, Hphase, Hd; simpl. by rewrite decide_True.
Qed.

(** A probing circuit that still needs successes and has that many slots left. *)
Definition probing_state (policy : ConnectorCircuitBreakerPolicy) (failures successes : Z)
  : ConnectorCircuitRuntimeState := {|
  cs_phase := PhaseHalfOpen;
  cs_consecutive_failures := failures;
  cs_open_until := None;
  cs_half_open_remaining_calls := cb_half_open_max_calls policy - successes;
  cs_half_open_successes := successes |}.

Lemma circuit_probe_next policy failures successes now :
  circuit_policy_ok policy -> (0 <= successes < cb_success_threshold policy)%Z ->
  circuit_run policy (probing_state policy failures successes) (probe now) =
    (1, if decide (successes + 1 = cb_success_threshold policy)%Z
        then ConnectorCircuitRuntimeState_default
        else probing_state policy failures (successes + 1)).
Proof.
  intros [] Hs. unfold probe, probing_state; simpl.
  unfold acquire_connector_circuit_slot_for_state, acquire_half_open. rewrite cpo_enabled0; simpl.
  rewrite decide_False by lia. simpl.
  unfold record_connector_circuit_outcome_for_state, u64_saturating_add. rewrite cpo_enabled0; simpl.
  rewrite (Z.min_l (successes + 1)) by lia.
  destruct (decide (successes + 1 = cb_success_threshold policy)%Z).
  - rewrite decide_True by lia. done.
  - rewrite decide_False by lia. rewrite decide_False by lia. simpl. do 2 f_equal. lia.
Qed.

Lemma circuit_probes policy failures successes now times :
  circuit_policy_ok policy -> (0 <= successes)%Z ->
  (successes + Z.of_nat (S (length times)) = cb_success_threshold policy)%Z ->
  circuit_run policy (probing_state policy failures successes)
    (concat (probe <$> (now :: times))) =
    (S (length times), ConnectorCircuitRuntimeState_default).
Proof.
  intros Hok. revert successes now. induction times as [|now' times IH]; intros successes now Hs Hk.
  - change (concat (probe <$> [now])) with (probe now).
    rewrite circuit_probe_next by (simpl in *; first [done | lia]).
    by rewrite decide_True by (simpl in *; lia).
  - rewrite fmap_cons. change (concat (?x :: ?l)) with (x ++ concat l).
    rewrite circuit_run_app, circuit_probe_next by (simpl in *; first [done | lia]).
    rewrite decide_False by (simpl in *; lia).
    rewrite IH by (simpl in *; lia). done.
Qed.

(** A connector that works again is let in again: from any open
    circuit a history led to, [success_threshold] probes that succeed, the first
    at or after the deadline, are all admitted and leave the circuit closed in
    its initial state. *)
Theorem circuit_recovers policy es now times :
  circuit_policy_ok policy ->
  let s := (circuit_run policy ConnectorCircuitRuntimeState_default es).2 in
  cs_phase s = PhaseOpen ->
  (forall d, cs_open_until s = Some d -> d <= now)%Z ->
  Z.of_nat (S (length times)) = cb_success_threshold policy ->
  circuit_run policy s (concat (probe <$> (now :: times))) =
    (S (length times), ConnectorCircuitRuntimeState_default).
Proof.
  intros Hok s Hphase Hnow Hk.
  assert (circuit_wf policy s) as Hwf by (apply circuit_run_wf; [|apply circuit_wf_default]; done).
  assert (is_Some (cs_open_until s)) as [d Hd] by (unfold circuit_wf in Hwf; rewrite Hphase in Hwf; tauto).
  rewrite <- (circuit_probes policy (cs_consecutive_failures s) 0 now times) by first [done | lia].
  rewrite fmap_cons. change (concat (?x :: ?l)) with (x ++ concat l).
  rewrite !circuit_run_app, (circuit_probe_first policy s d now) by eauto.
  unfold probing_state. by rewrite Z.sub_0_r.
Qed.
