(* ===== verification/Async.v ===== *)
(** * Futures

    The [async] functions of [crates/spec] suspend at their [await] points and
    others run there.  A future is the computation up to its next [await] point
    and what follows it: [TStep m] runs [m], uninterrupted, and goes on with the
    future [m] returns.  [run_task] is [future.await] in a task that waits for
    nothing else; [poll_next] is [FuturesUnordered::next().await], which
    interleaves the futures at their suspension points in an order the reactor
    chooses. *)

From S2P Require Import Prelude.

Inductive task (S A : Type) : Type :=
| TDone (a : A)
| TStep (m : M S (task S A)).
Arguments TDone {S A} a.
Arguments TStep {S A} m.

(** One segment without a suspension point. *)
Definition tlift {S A} (m : M S A) : task S A := TStep (bind m (fun a => ret (TDone a))).

Fixpoint tbind {S A B} (t : task S A) (f : A -> task S B) : task S B :=
  match t with
  | TDone a => f a
  | TStep m => TStep (fun s =>
      match m s with
      | (Returned t', s') => (Returned (tbind t' f), s')
      | (Panicked p, s') => (Panicked p, s')
      end)
  end.

(** [?] on an awaited result. *)
Definition ttry {S A B E} (t : task S (result A E)) (f : A -> task S (result B E))
  : task S (result B E) :=
  tbind t (fun r => match r with Ok a => f a | Err e => TDone (Err e) end).

Notation "'await!' x ':=' t 'in' k" := (tbind t (fun x => k))
  (at level 10, x name, t at level 100, k at level 200) : rust_scope.
Notation "'await?' x ':=' t 'in' k" := (ttry t (fun x => k))
  (at level 10, x name, t at level 100, k at level 200) : rust_scope.

Fixpoint run_task {S A} (t : task S A) : M S A :=
  match t with
  | TDone a => ret a
  | TStep m => fun s =>
      match m s with
      | (Returned t', s') => run_task t' s'
      | (Panicked p, s') => (Panicked p, s')
      end
  end.

(** Remove the item at a position. *)
Definition list_take_out {A} (i : nat) (l : list A) : list A := take i l ++ drop (S i) l.

(** [FuturesUnordered::next]: [polls] says which future the reactor resumes
    next, by its place modulo the number of futures; a future that finishes is
    returned, with the rest of the futures and of the order.  Where the order
    says nothing more, the first future runs to its end.  Without a future the
    stream is at its end. *)
Fixpoint poll_next {S A} (polls : list nat) (inflight : list (task S A))
  : M S (option A * (list (task S A) * list nat)) :=
  match polls with
  | [] =>
      match inflight with
      | [] => ret (None, ([], []))
      | first :: others => let! a := run_task first in ret (Some a, (others, []))
      end
  | i :: polls =>
      let i := i mod length inflight in
      match inflight !! i with
      | None => ret (None, (inflight, polls))
      | Some (TDone a) => ret (Some a, (list_take_out i inflight, polls))
      | Some (TStep m) => fun s =>
          match m s with
          | (Returned (TDone a), s') => (Returned (Some a, (list_take_out i inflight, polls)), s')
          | (Returned t', s') => poll_next polls (<[i := t']> inflight) s'
          | (Panicked p, s') => (Panicked p, s')
          end
      end
  end.

(** ** Rules *)

(** A future keeps an invariant of the shared state at every suspension point,
    and what it returns satisfies [Q]. *)
Fixpoint task_ok {S A} (I : S -> Prop) (Q : A -> Prop) (t : task S A) : Prop :=
  match t with
  | TDone a => Q a
  | TStep m => forall s, I s ->
      match m s with
      | (Returned t', s') => I s' /\ task_ok I Q t'
      | (Panicked p, s') => I s'
      end
  end.

(** A future adds at most [n] to a measure of the state before it returns. *)
Fixpoint task_cost {S A} (cost : S -> nat) (n : nat) (t : task S A) : Prop :=
  match t with
  | TDone a => True
  | TStep m => forall s,
      match m s with
      | (Returned t', s') =>
          exists k, k <= n /\ cost s' <= cost s + k /\ task_cost cost (n - k) t'
      | (Panicked p, s') => cost s' <= cost s + n
      end
  end.

(** Induction with a hypothesis for every future a step can lead to. *)
Lemma returned_inj {S A} (a b : A) (s s' : S) : (Returned a, s) = (Returned b, s') -> a = b.
Proof. by intros [= -> _]. Qed.

Section task_ind'.
Context {S A : Type} (P : task S A -> Prop).
Hypothesis Hdone : forall a, P (TDone a).
Hypothesis Hstep : forall m, (forall s t' s', m s = (Returned t', s') -> P t') -> P (TStep m).

Fixpoint task_ind' (t : task S A) : P t :=
  match t with
  | TDone a => Hdone a
  | TStep m => Hstep m (fun s =>
      match m s as r return forall t' s', r = (Returned t', s') -> P t' with
      | (Returned t'', s'') => fun t' s' E => eq_ind t'' P (task_ind' t'') t' (returned_inj _ _ _ _ E)
      | (Panicked p, s'') => fun t' s' E => ltac:(discriminate E)
      end)
  end.
End task_ind'.

Section rules.
Context {S A : Type}.
Implicit Types (t : task S A) (I : S -> Prop) (Q : A -> Prop).

Lemma task_ok_lift I Q (m : M S A) :
  (forall s, I s -> match m s with (Returned a, s') => I s' /\ Q a | (Panicked _, s') => I s' end) ->
  task_ok I Q (tlift m).
Proof.
  intros H s Hs. specialize (H s Hs). unfold bind. by destruct (m s) as [[a|p] s'].
Qed.

Lemma task_cost_lift (cost : S -> nat) n (m : M S A) :
  (forall s, cost (m s).2 <= cost s + n) -> task_cost cost n (tlift m).
Proof.
  intros H s. specialize (H s). unfold bind. destruct (m s) as [[a|p] s']; simpl in *; [|done].
  by exists n.
Qed.

Lemma task_cost_le (cost : S -> nat) n n' t : n <= n' -> task_cost cost n t -> task_cost cost n' t.
Proof.
  revert n n'. induction t as [a|m IH] using task_ind'; simpl; intros n n' Hn; [done|].
  intros H s. specialize (H s). destruct (m s) as [[t'|p] s'] eqn:E; [|lia].
  destruct H as (k & Hk & Hcost & Ht). exists k. split_and!; [lia|done|].
  eapply (IH _ _ _ E); [|done]. lia.
Qed.

Lemma run_task_ok I Q t s :
  task_ok I Q t -> I s ->
  match run_task t s with (Returned a, s') => I s' /\ Q a | (Panicked _, s') => I s' end.
Proof.
  revert s. induction t as [a|m IH] using task_ind'; simpl; intros s Ht Hs; [done|].
  specialize (Ht s Hs). destruct (m s) as [[t'|p] s'] eqn:E; [|done].
  destruct Ht as [Hs' Ht']. by eapply (IH _ _ _ E).
Qed.

Lemma run_task_cost (cost : S -> nat) n t s :
  task_cost cost n t -> cost (run_task t s).2 <= cost s + n.
Proof.
  revert n s. induction t as [a|m IH] using task_ind'; simpl; intros n s Ht; [lia|].
  specialize (Ht s). destruct (m s) as [[t'|p] s'] eqn:E; [|done].
  destruct Ht as (k & Hk & Hcost & Ht'). pose proof (IH _ _ _ E _ s' Ht'). lia.
Qed.

Lemma list_take_out_sum (ns : list nat) i n :
  ns !! i = Some n -> sum_list ns = n + sum_list (list_take_out i ns).
Proof.
  intros Hi. unfold list_take_out. rewrite <- (take_drop_middle ns i n) at 1 by done.
  rewrite !sum_list_with_app. simpl. lia.
Qed.

Lemma Forall2_take_out {B C} (R : B -> C -> Prop) l k i :
  Forall2 R l k -> Forall2 R (list_take_out i l) (list_take_out i k).
Proof. intros H. unfold list_take_out. apply Forall2_app; auto using Forall2_take, Forall2_drop. Qed.

(** A future of the set finishes, whatever the order: the one named [x] returns
    what its [Q] says, and the others are still under their promises. *)
Lemma poll_next_ok {X} I (Q : X -> A -> Prop) polls (inflight : list (task S A)) (xs : list X) s :
  Forall2 (fun x => task_ok I (Q x)) xs inflight -> I s ->
  match poll_next polls inflight s with
  | (Returned (r, (rest, _)), s') =>
      I s' /\
      match r with
      | Some a => exists i x, xs !! i = Some x /\ Q x a /\
          Forall2 (fun x => task_ok I (Q x)) (list_take_out i xs) rest
      | None => inflight = [] /\ rest = []
      end
  | (Panicked _, s') => I s'
  end.
Proof.
  revert inflight s. induction polls as [|i polls IH]; intros inflight s Hall Hs.
  - destruct Hall as [|x first xs others Hx Hall]; [done|]. cbn [poll_next]. unfold bind.
    pose proof (run_task_ok _ _ _ s Hx Hs) as Hrun.
    destruct (run_task first s) as [[a|p] s']; [|done]. destruct Hrun as [Hs' Ha].
    split; [done|]. by exists 0, x.
  - cbn [poll_next]. cbv zeta. destruct (inflight !! (i mod length inflight)) as [t|] eqn:Hi.
    2: { split; [done|]. apply lookup_ge_None in Hi. destruct inflight as [|t l]; [done|].
         pose proof (Nat.mod_upper_bound i (length (t :: l))). simpl in *; lia. }
    set (j := i mod length inflight) in *.
    destruct (Forall2_lookup_r _ _ _ _ _ Hall Hi) as (x & Hx & Ht).
    destruct t as [a|m].
    + split; [done|]. exists j, x. split_and!; auto using Forall2_take_out.
    + simpl in Ht. specialize (Ht s Hs). destruct (m s) as [[t'|p] s'] eqn:E; [|done].
      destruct Ht as [Hs' Ht'].
      destruct t' as [a|m'].
      * split; [done|]. exists j, x. split_and!; auto using Forall2_take_out.
      * assert (Forall2 (fun x => task_ok I (Q x)) xs (<[j:=TStep m']> inflight)) as Hall'.
        { rewrite <- (list_insert_id xs j x) by done. by apply Forall2_insert. }
        specialize (IH _ s' Hall' Hs').
        destruct (poll_next polls _ s') as [[[[a|] [rest ps]]|p] s'']; [done| |done].
        destruct IH as (HI & Hnil & Hrest). split; [done|].
        apply (f_equal length) in Hnil. rewrite length_insert in Hnil. by destruct inflight.
Qed.

(** The measure grows by at most what the futures may add; what the finished one
    did not use is left to the others. *)
Lemma poll_next_cost (cost : S -> nat) polls (inflight : list (task S A)) (ns : list nat) s :
  Forall2 (task_cost cost) ns inflight ->
  match poll_next polls inflight s with
  | (Returned (r, (rest, _)), s') => exists ns',
      Forall2 (task_cost cost) ns' rest /\ cost s' + sum_list ns' <= cost s + sum_list ns
  | (Panicked _, s') => cost s' <= cost s + sum_list ns
  end.
Proof.
  revert inflight ns s. induction polls as [|i polls IH]; intros inflight ns s Hall.
  - destruct Hall as [|n first ns others Hn Hall]; cbn [poll_next].
    { exists []. split; [done|]. simpl. lia. }
    unfold bind. pose proof (run_task_cost _ _ _ s Hn) as Hrun.
    destruct (run_task first s) as [[a|p] s']; simpl in *; [|lia].
    exists ns. split; [done|]. lia.
  - cbn [poll_next]. cbv zeta. destruct (inflight !! (i mod length inflight)) as [t|] eqn:Hi.
    2: { exists ns. split; [done|]. simpl. lia. }
    set (j := i mod length inflight) in *.
    destruct (Forall2_lookup_r _ _ _ _ _ Hall Hi) as (n & Hn & Ht).
    pose proof (list_take_out_sum _ _ _ Hn) as Hsum.
    destruct t as [a|m].
    + exists (list_take_out j ns). split; [by apply Forall2_take_out|]. simpl. lia.
    + simpl in Ht. specialize (Ht s). destruct (m s) as [[t'|p] s'] eqn:E; [|lia].
      destruct Ht as (k & Hk & Hcost & Ht').
      destruct t' as [a|m'].
      * exists (list_take_out j ns). split; [by apply Forall2_take_out|]. lia.
      * assert (Forall2 (task_cost cost) (<[j:=n - k]> ns) (<[j:=TStep m']> inflight)) as Hall'
          by (by apply Forall2_insert).
        assert (sum_list (<[j:=n - k]> ns) + k = sum_list ns) as Hsum'.
        { rewrite insert_take_drop by (by eapply lookup_lt_Some).
          rewrite Hsum. unfold list_take_out. rewrite !sum_list_with_app. simpl. lia. }
        specialize (IH _ _ s' Hall').
        destruct (poll_next polls _ s') as [[[r [rest ps]]|p] s'']; [|lia].
        destruct IH as (ns' & Hns' & Hle). exists ns'. split; [done|]. lia.
Qed.
End rules.

Lemma task_ok_bind {S A B} (I : S -> Prop) (Q : A -> Prop) (R : B -> Prop) (t : task S A)
    (f : A -> task S B) :
  task_ok I Q t -> (forall a, Q a -> task_ok I R (f a)) -> task_ok I R (tbind t f).
Proof.
  intros Ht Hf. induction t as [a|m IH] using task_ind'; simpl in *; [auto|].
  intros s Hs. specialize (Ht s Hs). destruct (m s) as [[t'|p] s'] eqn:E; [|done].
  destruct Ht as [Hs' Ht']. split; [done|]. by eapply IH.
Qed.

Lemma task_cost_bind {S A B} (cost : S -> nat) n n' (t : task S A) (f : A -> task S B) :
  task_cost cost n t -> (forall a, task_cost cost n' (f a)) -> task_cost cost (n + n') (tbind t f).
Proof.
  intros Ht Hf. revert n Ht. induction t as [a|m IH] using task_ind'; simpl; intros n Ht.
  { eapply task_cost_le; [|apply Hf]. lia. }
  intros s. specialize (Ht s). destruct (m s) as [[t'|p] s'] eqn:E; [|lia].
  destruct Ht as (k & Hk & Hcost & Ht'). exists k. split_and!; [lia|done|].
  replace (n + n' - k) with (n - k + n') by lia. by eapply IH.
Qed.
