(* ===== verification/Template.v ===== *)
(** * Programmatic payloads

    [crates/spec/src/programmatic.rs], the parts that work on values: the coded
    errors, the step identifiers, the [{{step#pointer}}] templates of a payload,
    JSON pointers as the steps write them, and the provenance block attached to
    every payload.  The outputs of the steps so far are a map from step id to
    value. *)

From Stdlib Require Import Ascii.
From S2P Require Import Prelude RustStr Contracts Json.

Inductive ProgrammaticErrorCode : Type :=
| InvalidSpec
| UnknownStep
| PointerNotFound
| TemplateError
| ErrConnectorNotAllowed
| CallBudgetExceeded
| ErrCircuitOpen
| ConnectorInvokeFailed.

Definition ProgrammaticErrorCode_as_str (c : ProgrammaticErrorCode) : string :=
  match c with
  | InvalidSpec => "invalid_spec"
  | UnknownStep => "unknown_step"
  | PointerNotFound => "pointer_not_found"
  | TemplateError => "template_error"
  | ErrConnectorNotAllowed => "connector_not_allowed"
  | CallBudgetExceeded => "call_budget_exceeded"
  | ErrCircuitOpen => "circuit_open"
  | ConnectorInvokeFailed => "connector_invoke_failed"
  end.

Definition programmatic_error (code : ProgrammaticErrorCode) (message : string) : string :=
  "programmatic_error[" +:+ ProgrammaticErrorCode_as_str code +:+ "]: " +:+ message.

Definition ensure_new_step_id (step_id : string) (outputs : gmap string json)
  : result unit string :=
  if str_is_empty (trim step_id) then
    Err (programmatic_error InvalidSpec "programmatic step_id cannot be empty")
  else if decide (is_Some (outputs !! step_id)) then
    Err (programmatic_error InvalidSpec
           ("programmatic step_id " +:+ step_id +:+ " is duplicated"))
  else Ok tt.

Definition normalize_programmatic_pointer (pointer : string) : result string string :=
  let pointer := trim pointer in
  if str_is_empty pointer then
    Err (programmatic_error InvalidSpec "json pointer cannot be empty")
  else if starts_with "/" pointer then Ok pointer
  else Ok ("/" +:+ pointer).

(** [expr.split_once('#')]. *)
Definition split_once_hash (expr : string) : option (string * string) :=
  match before_first "#" expr with
  | Some head => Some (head, str_drop (String.length head + 1) expr)
  | None => None
  end.

Definition resolve_programmatic_template_expr (raw_expr : string) (outputs : gmap string json)
  : result json string :=
  let expr := trim raw_expr in
  if str_is_empty expr then
    Err (programmatic_error TemplateError "template expression cannot be empty")
  else
    let (step_id, pointer) :=
      match split_once_hash expr with
      | Some (step_id, pointer) => (trim step_id, Some (trim pointer))
      | None => (expr, None)
      end in
    if str_is_empty step_id then
      Err (programmatic_error TemplateError
             ("template expression " +:+ expr +:+ " has empty step_id"))
    else
      match outputs !! step_id with
      | None =>
          Err (programmatic_error UnknownStep
                 ("template expression references unknown step " +:+ step_id))
      | Some value =>
          match pointer with
          | Some pointer =>
              let* normalized_pointer := normalize_programmatic_pointer pointer in
              match json_pointer normalized_pointer value with
              | Some v => Ok v
              | None =>
                  Err (programmatic_error PointerNotFound
                         ("template pointer " +:+ normalized_pointer +:+ " not found in step "
                            +:+ step_id))
              end
          | None => Ok value
          end
      end.

Definition missing_closing_braces (raw : string) : string :=
  programmatic_error TemplateError
    ("template placeholder is missing closing braces in: " +:+ raw).

Section templates.
Context `{FloatFormat}.

(** The text of a value inside a larger template. *)
Definition template_text (value : json) : string :=
  match value with JString s => s | other => json_to_string other end.

(** The [while let] loop: [rest] is [raw[cursor..]].  Every round removes four
    bytes, so a fuel of one more than the length of [raw] is never used up. *)
Fixpoint render_template (fuel : nat) (raw rest rendered : string) (outputs : gmap string json)
  : result string string :=
  match fuel with
  | O => Ok rendered
  | S fuel =>
      match before_first "{{" rest with
      | None => Ok (rendered +:+ rest)
      | Some literal =>
          let after := str_drop (String.length literal + 2) rest in
          match before_first "}}" after with
          | None => Err (missing_closing_braces raw)
          | Some expr =>
              let* value := resolve_programmatic_template_expr expr outputs in
              render_template fuel raw (str_drop (String.length expr + 2) after)
                (rendered +:+ literal +:+ template_text value) outputs
          end
      end
  end.

Definition resolve_programmatic_template_string (raw : string) (outputs : gmap string json)
  : result json string :=
  match before_first "{{" raw with
  | None => Ok (JString raw)
  | Some first_literal =>
      let first_start := String.length first_literal in
      match before_first "}}" (str_drop (first_start + 2) raw) with
      | None => Err (missing_closing_braces raw)
      | Some first_expr =>
          let first_end := first_start + 2 + String.length first_expr in
          if (first_start =? 0) && (first_end + 2 =? String.length raw) then
            resolve_programmatic_template_expr first_expr outputs
          else
            let* rendered := render_template (S (String.length raw)) raw raw "" outputs in
            Ok (JString rendered)
      end
  end.

(** The keys of a map are distinct, so inserting the resolved entries into a new
    map keeps them in their places. *)
Fixpoint resolve_programmatic_payload_templates (payload : json) (outputs : gmap string json)
  : result json string :=
  match payload with
  | JObject map =>
      let* resolved :=
        (fix go (l : list (string * json)) : result (list (string * json)) string :=
           match l with
           | [] => Ok []
           | (key, value) :: l =>
               let* value := resolve_programmatic_payload_templates value outputs in
               let* resolved := go l in Ok ((key, value) :: resolved)
           end) map in
      Ok (JObject resolved)
  | JArray list =>
      let* resolved :=
        (fix go (l : Datatypes.list json) : result (Datatypes.list json) string :=
           match l with
           | [] => Ok []
           | value :: l =>
               let* value := resolve_programmatic_payload_templates value outputs in
               let* resolved := go l in Ok (value :: resolved)
           end) list in
      Ok (JArray resolved)
  | JString raw => resolve_programmatic_template_string raw outputs
  | JNull | JBool _ | JNumber _ => Ok payload
  end.
End templates.

Definition attach_programmatic_payload_provenance (payload : json) (caller step_id : string)
    (step_index : Z) (call_id : option string) : json :=
  let payload_map :=
    match payload with
    | JObject map => map
    | other => fields_insert "input" other []
    end in
  let (removed, payload_map) := fields_remove "_loong" payload_map in
  let meta := default [] (removed ≫= json_as_object) in
  let meta := fields_insert "caller" (JString caller) meta in
  let meta := fields_insert "mode" (JString "programmatic_tool_call") meta in
  let meta := fields_insert "step_id" (JString step_id) meta in
  let meta := fields_insert "step_index" (json_usize step_index) meta in
  let meta :=
    match call_id with
    | Some call_id => fields_insert "call_id" (JString call_id) meta
    | None => meta
    end in
  JObject (fields_insert "_loong" (JObject meta) payload_map).

(** ** Templates as sequences of pieces *)

Inductive segment : Type :=
| Literal (text : string)
| Placeholder (expr : string).

Definition segment_text (x : segment) : string :=
  match x with
  | Literal text => text
  | Placeholder expr => "{{" +:+ expr +:+ "}}"
  end.

Definition template_of (l : list segment) : string := str_concat (map segment_text l).

(** Literals are not empty, not next to each other, and hold no opening brace;
    an expression holds no closing brace. *)
Fixpoint segments_ok (after_literal : bool) (l : list segment) : bool :=
  match l with
  | [] => true
  | Literal text :: l =>
      negb after_literal && negb (str_is_empty text) && lacks_char "{" text && segments_ok true l
  | Placeholder expr :: l => lacks_char "}" expr && segments_ok false l
  end.

Section meaning.
Context `{FloatFormat}.

Fixpoint segments_value (l : list segment) (outputs : gmap string json) : result string string :=
  match l with
  | [] => Ok ""
  | Literal text :: l => let* rest := segments_value l outputs in Ok (text +:+ rest)
  | Placeholder expr :: l =>
      let* value := resolve_programmatic_template_expr expr outputs in
      let* rest := segments_value l outputs in Ok (template_text value +:+ rest)
  end.

Lemma before_first_absent c p s :
  lacks_char c s = true -> before_first (String c p) s = None.
Proof.
  induction s as [|a s IH]; [done|]. intros [Ha Hs]%lacks_char_cons.
  change (before_first (String c p) (String a s)) with
    (if starts_with (String c p) (String a s) then Some "" else
       option_map (String a) (before_first (String c p) s)).
  rewrite IH by done. unfold starts_with; simpl. unfold char_eqb.
  by rewrite bool_decide_eq_false_2.
Qed.

Lemma before_first_here c p s t :
  lacks_char c s = true -> before_first (String c p) (s +:+ String c p +:+ t) = Some s.
Proof.
  induction s as [|a s IH].
  - intros _. change ("" +:+ ?x) with x.
    destruct (String c p +:+ t) eqn:E; unfold before_first.
    + replace (starts_with _ _) with true; [done|]. symmetry. apply starts_with_spec. by exists t.
    + replace (starts_with _ _) with true; [done|]. symmetry. apply starts_with_spec. by exists t.
  - intros [Ha Hs]%lacks_char_cons.
    change (String a s +:+ ?x) with (String a (s +:+ x)).
    change (before_first (String c p) (String a ?x)) with
      (if starts_with (String c p) (String a x) then Some "" else
         option_map (String a) (before_first (String c p) x)).
    rewrite IH by done. unfold starts_with; simpl. unfold char_eqb.
    by rewrite bool_decide_eq_false_2.
Qed.

Lemma str_drop_prefix s n t : str_drop (String.length s + n) (s +:+ t) = str_drop n t.
Proof. induction s as [|a s IH]; simpl; [done|]. exact IH. Qed.

(** One round of the loop on a literal without an opening brace and a placeholder. *)
Lemma render_template_round fuel raw literal expr rest rendered outputs :
  lacks_char "{" literal = true -> lacks_char "}" expr = true ->
  render_template (S fuel) raw (literal +:+ "{{" +:+ expr +:+ "}}" +:+ rest) rendered outputs =
    (let* value := resolve_programmatic_template_expr expr outputs in
     render_template fuel raw rest (rendered +:+ literal +:+ template_text value) outputs).
Proof.
  intros Hl He. cbn [render_template].
  rewrite (before_first_here "{" "{" literal) by done. cbv iota beta.
  rewrite str_drop_prefix. change (str_drop 2 ("{{" +:+ ?x)) with x.
  rewrite (before_first_here "}" "}" expr) by done. cbv iota beta.
  by rewrite str_drop_prefix.
Qed.

Lemma render_template_last fuel raw literal rendered outputs :
  lacks_char "{" literal = true ->
  render_template (S fuel) raw literal rendered outputs = Ok (rendered +:+ literal).
Proof. intros Hl. cbn [render_template]. by rewrite (before_first_absent "{" "{"). Qed.

Lemma render_segments fuel raw l rendered outputs :
  segments_ok false l = true -> length l < fuel ->
  render_template fuel raw (template_of l) rendered outputs =
    (let* value := segments_value l outputs in Ok (rendered +:+ value)).
Proof.
  revert l rendered. induction fuel as [|fuel IH]; [lia|]. intros l rendered Hok Hlen.
  assert (forall literal expr l', lacks_char "{" literal = true ->
    segments_ok false (Placeholder expr :: l') = true -> length l' < fuel ->
    render_template (S fuel) raw (literal +:+ template_of (Placeholder expr :: l')) rendered outputs
    = (let* value := segments_value (Placeholder expr :: l') outputs in
       Ok (rendered +:+ literal +:+ value))) as Hround.
  { intros literal expr l' Hl [He Hl']%andb_true_iff Hlen'.
    change (template_of (Placeholder expr :: l'))
      with (("{{" +:+ expr +:+ "}}") +:+ template_of l').
    rewrite !str_app_assoc, render_template_round by done. simpl.
    destruct (resolve_programmatic_template_expr expr outputs) as [v|e]; [|done]. simpl.
    rewrite IH by done. destruct (segments_value l' outputs); simpl; [|done].
    by rewrite !str_app_assoc. }
  destruct l as [|[text|expr] l].
  - rewrite render_template_last by done. simpl. done.
  - simpl in Hok. rewrite !andb_true_iff in Hok. destruct Hok as [[_ Hl] Hok].
    change (template_of (Literal text :: l)) with (text +:+ template_of l).
    destruct l as [|[text'|expr] l].
    + change (template_of []) with "". rewrite str_app_nil_r, render_template_last by done.
      simpl. by rewrite str_app_nil_r.
    + done.
    + rewrite Hround; [|done..|simpl in *; lia]. simpl.
      destruct (resolve_programmatic_template_expr expr outputs) as [v|e]; [|done]. simpl.
      by destruct (segments_value l outputs).
  - change (template_of (Placeholder expr :: l))
      with ("" +:+ template_of (Placeholder expr :: l)).
    rewrite Hround; [|done..|simpl in *; lia]. done.
Qed.

Lemma template_of_length b l : segments_ok b l = true -> length l <= String.length (template_of l).
Proof.
  revert b. induction l as [|[text|expr] l IH]; intros b; [done|..]; cbn [segments_ok length].
  - rewrite !andb_true_iff. intros [[[_ Ht] _] Hl]. specialize (IH _ Hl).
    change (template_of (Literal text :: l)) with (text +:+ template_of l).
    rewrite str_length_app. destruct text; simpl in *; [done|lia].
  - rewrite andb_true_iff. intros [_ Hl]. specialize (IH _ Hl).
    change (template_of (Placeholder expr :: l))
      with (("{{" +:+ expr +:+ "}}") +:+ template_of l).
    rewrite !str_length_app. change (String.length "{{") with 2. lia.
Qed.

(** The first braces of a template that has a placeholder. *)
Lemma template_first l literal expr outputs :
  lacks_char "{" literal = true -> lacks_char "}" expr = true ->
  segments_ok false l = true ->
  resolve_programmatic_template_string
    (literal +:+ template_of (Placeholder expr :: l)) outputs =
    if str_is_empty literal && bool_decide (l = []) then
      resolve_programmatic_template_expr expr outputs
    else
      let raw := literal +:+ template_of (Placeholder expr :: l) in
      let* rendered := render_template (S (String.length raw)) raw raw "" outputs in
      Ok (JString rendered).
Proof.
  intros Hl He Hok. pose proof (template_of_length _ _ Hok) as Hlen.
  change (template_of (Placeholder expr :: l)) with (("{{" +:+ expr +:+ "}}") +:+ template_of l).
  rewrite !str_app_assoc. unfold resolve_programmatic_template_string.
  rewrite (before_first_here "{" "{" literal) by done. cbv iota beta.
  rewrite str_drop_prefix. change (str_drop 2 ("{{" +:+ ?x)) with x.
  rewrite (before_first_here "}" "}" expr) by done. cbv iota beta.
  rewrite !str_length_app. change (String.length "{{") with 2. change (String.length "}}") with 2.
  replace (String.length literal + 2 + String.length expr + 2 =?
           String.length literal + (2 + (String.length expr + (2 + String.length (template_of l)))))
    with (String.length (template_of l) =? 0)
    by (destruct (String.length (template_of l)) eqn:E; symmetry;
        [apply Nat.eqb_eq; lia | apply Nat.eqb_neq; lia]).
  replace (String.length literal =? 0) with (str_is_empty literal) by (by destruct literal).
  replace (bool_decide (l = [])) with (String.length (template_of l) =? 0); [done|].
  destruct l as [|x l]; [done|]. rewrite bool_decide_eq_false_2 by done.
  apply Nat.eqb_neq. simpl in Hlen. lia.
Qed.

(** A template string resolves to what its pieces say: a
    template that is one placeholder gives the referenced value itself, with its
    JSON type; any other gives the text of the literals with the text of each
    value in place of its placeholder, taken over as it is (braces in a value
    are not read again); the first reference that fails is the error.  The loop
    over the placeholders ends with the whole template read. *)
Theorem template_resolves l outputs :
  segments_ok false l = true ->
  resolve_programmatic_template_string (template_of l) outputs =
    match l with
    | [Placeholder expr] => resolve_programmatic_template_expr expr outputs
    | _ => let* text := segments_value l outputs in Ok (JString text)
    end.
Proof.
  intros Hok. pose proof (template_of_length _ _ Hok) as Hlen.
  assert (render_template (S (String.length (template_of l))) (template_of l) (template_of l) ""
            outputs = (let* value := segments_value l outputs in Ok value)) as Hrender.
  { rewrite render_segments by first [done | lia]. by destruct (segments_value l outputs). }
  destruct l as [|[text|expr] l]; [done|..].
  - simpl in Hok. rewrite !andb_true_iff in Hok. destruct Hok as [[Ht Hl] Hok].
    change (template_of (Literal text :: l)) with (text +:+ template_of l) in *.
    destruct l as [|[text'|expr] l]; [|done|].
    + change (template_of []) with "" in *. rewrite str_app_nil_r in *.
      unfold resolve_programmatic_template_string.
      rewrite (before_first_absent "{" "{") by done. simpl. by rewrite str_app_nil_r.
    + pose proof Hok as [He Hl']%andb_true_iff. rewrite template_first by done.
      replace (str_is_empty text) with false by (by destruct text). simpl (_ && _). cbv iota zeta.
      rewrite Hrender. by destruct (segments_value _ outputs).
  - pose proof Hok as [He Hl']%andb_true_iff.
    change (template_of (Placeholder expr :: l))
      with ("" +:+ template_of (Placeholder expr :: l)) in *.
    rewrite template_first by done. simpl (str_is_empty "" && _).
    destruct l as [|x l]; [done|]. rewrite bool_decide_eq_false_2 by done. cbv iota zeta.
    rewrite Hrender. by destruct (segments_value _ outputs).
Qed.
End meaning.

(** ** Payloads *)

Fixpoint template_free (v : json) : bool :=
  match v with
  | JString s => bool_decide (before_first "{{" s = None)
  | JArray items => forallb template_free items
  | JObject fields => forallb (fun f : string * json => template_free f.2) fields
  | JNull | JBool _ | JNumber _ => true
  end.

(** A payload without placeholders is sent as it is written. *)
Lemma template_free_resolves `{FloatFormat} payload outputs :
  template_free payload = true ->
  resolve_programmatic_payload_templates payload outputs = Ok payload.
Proof.
  induction payload as [|b|n|s|items IH|fields IH] using json_ind'; simpl; try done.
  - intros Hs%bool_decide_eq_true. unfold resolve_programmatic_template_string. by rewrite Hs.
  - intros Hall. assert ((fix go l := match l with
      | [] => Ok []
      | value :: l =>
          let* value := resolve_programmatic_payload_templates value outputs in
          let* resolved := go l in Ok (value :: resolved)
      end) items = Ok items) as ->; [|done].
    induction IH as [|x l Hx _ IHl]; [done|]. simpl in Hall. apply andb_true_iff in Hall as [Hx' Hl].
    rewrite Hx by done. simpl. by rewrite IHl.
  - intros Hall. assert ((fix go l := match l with
      | [] => Ok []
      | (key, value) :: l =>
          let* value := resolve_programmatic_payload_templates value outputs in
          let* resolved := go l in Ok ((key, value) :: resolved)
      end) fields = Ok fields) as ->; [|done].
    induction IH as [|[k x] l Hx _ IHl]; [done|]. simpl in Hall, Hx.
    apply andb_true_iff in Hall as [Hx' Hl]. rewrite Hx by done. simpl. by rewrite IHl.
Qed.

Definition payload_fields (payload : json) : list (string * json) :=
  match payload with JObject fields => fields | other => [("input", other)] end.

(** The provenance block of a payload that is sent. *)
Lemma attach_provenance_meta payload caller step_id step_index call_id :
  exists meta,
    json_get "_loong"
      (attach_programmatic_payload_provenance payload caller step_id step_index call_id)
      = Some (JObject meta) /\
    fields_get "caller" meta = Some (JString caller) /\
    fields_get "mode" meta = Some (JString "programmatic_tool_call") /\
    fields_get "step_id" meta = Some (JString step_id) /\
    fields_get "step_index" meta = Some (json_usize step_index) /\
    (forall id, call_id = Some id -> fields_get "call_id" meta = Some (JString id)).
Proof.
  unfold attach_programmatic_payload_provenance.
  destruct (fields_remove "_loong" _) as [removed rest].
  set (meta := default [] (removed ≫= json_as_object)). cbv zeta.
  eexists. split; [simpl; rewrite fields_get_insert; by rewrite decide_True|].
  destruct call_id as [id|]; rewrite !fields_get_insert; simpl; split_and!; try done.
  by intros ? [= ->].
Qed.

(** The provenance of a payload cannot be forged from inside it:
    whatever the payload's own [_loong] block says, the one that is sent names
    the caller, the mode, the step and its index, and the call when there is
    one; every other field of the payload is unchanged, and a payload that is
    not an object is the field [input]. *)
Theorem payload_provenance payload caller step_id step_index call_id :
  let sent := attach_programmatic_payload_provenance payload caller step_id step_index call_id in
  (exists meta, json_get "_loong" sent = Some (JObject meta) /\
     fields_get "caller" meta = Some (JString caller) /\
     fields_get "mode" meta = Some (JString "programmatic_tool_call") /\
     fields_get "step_id" meta = Some (JString step_id) /\
     fields_get "step_index" meta = Some (json_usize step_index) /\
     (forall id, call_id = Some id -> fields_get "call_id" meta = Some (JString id))) /\
  (NoDup (payload_fields payload).*1 -> forall key, key <> "_loong" ->
     json_get key sent = fields_get key (payload_fields payload)).
Proof.
  split; [apply attach_provenance_meta|]. intros Hnd key Hkey.
  unfold attach_programmatic_payload_provenance.
  replace (match payload with JObject map => map | other => fields_insert "input" other [] end)
    with (payload_fields payload) by (by destruct payload).
  pose proof (fields_get_remove_other "_loong" key (payload_fields payload) Hnd Hkey) as Hother.
  destruct (fields_remove "_loong" (payload_fields payload)) as [removed rest].
  simpl. by rewrite fields_get_insert, decide_False.
Qed.
