(* ===== verification/Programmatic.v ===== *)
(** * Programmatic tool calls

    [crates/spec/src/programmatic.rs] with its types of [spec_runtime.rs]: a
    workflow of steps (literals, JSON pointers, connector calls, batches,
    conditionals) run against the kernel under a call budget, with retries,
    rate limits, circuit breakers and a scheduler for parallel batches.

    The kernel is known through [ConnectorHost].  The state the source shares
    between futures (the rate table, the circuit table) is a field of [Runtime],
    with the tokio clock and the reactor's choices: [rt_elapsed] says how much
    time passes before each reading of the clock, [rt_polls] which future is
    resumed next.  A [usize] or [u64] is a [Z] with its saturation written out;
    an instant or a duration is a number of nanoseconds; an [f64] is the
    standard library's specification float of 53 bits. *)

From Stdlib Require Import Ascii SpecFloat.
From S2P Require Import Prelude RustStr Contracts Policy Planes AuditSinks Json.
From S2P Require Import Kernel Async Circuit Template.

(** ** Policies *)

Abbreviation f64 := spec_float.
Definition f64_prec : Z := 53.
Definition f64_emax : Z := 1024.
Definition f64_zero : f64 := S754_zero false.
Definition f64_one : f64 := S754_finite false 4503599627370496 (-52).

(** [x as f64] of a [u64]. *)
Definition f64_of_u64 (x : Z) : f64 := binary_normalize f64_prec f64_emax x 0 false.
Definition f64_mul (x y : f64) : f64 := SFmul f64_prec f64_emax x y.
Definition f64_is_finite (x : f64) : bool :=
  match x with S754_zero _ | S754_finite _ _ _ => true | _ => false end.

(** [x.round() as u64]: half away from zero, then the saturating cast. *)
Definition f64_round_as_u64 (x : f64) : Z :=
  match x with
  | S754_finite false m e =>
      let magnitude :=
        if (0 <=? e)%Z then (Zpos m * 2 ^ e)%Z
        else ((Zpos m + 2 ^ (- e - 1)) / 2 ^ (- e))%Z in
      Z.min magnitude u64_max
  | S754_infinity false => u64_max
  | _ => 0%Z
  end.

Record ProgrammaticRetryPolicy : Type := {
  rp_max_attempts : Z;
  rp_initial_backoff_ms : Z;
  rp_max_backoff_ms : Z;
  rp_jitter_ratio : f64;
  rp_adaptive_jitter : bool;
}.

Definition default_programmatic_max_calls : Z := 12.
Definition default_programmatic_retry_max_attempts : Z := 1.
Definition default_programmatic_retry_initial_backoff_ms : Z := 100.
Definition default_programmatic_retry_max_backoff_ms : Z := 2000.
(** [0.2]. *)
Definition default_programmatic_retry_jitter_ratio : f64 :=
  S754_finite false 7205759403792794 (-55).

Record ProgrammaticConnectorRateLimit : Type := { rl_min_interval_ms : Z }.

Inductive ProgrammaticPriorityClass : Type := PriorityHigh | PriorityNormal | PriorityLow.

Definition ProgrammaticPriorityClass_as_str (p : ProgrammaticPriorityClass) : string :=
  match p with PriorityHigh => "high" | PriorityNormal => "normal" | PriorityLow => "low" end.

Definition default_programmatic_priority_class : ProgrammaticPriorityClass := PriorityNormal.

#[export] Instance ProgrammaticPriorityClass_eq_dec : EqDecision ProgrammaticPriorityClass.
Proof. solve_decision. Defined.

(** The derived order is the order of declaration. *)
Definition all_priorities : list ProgrammaticPriorityClass :=
  [PriorityHigh; PriorityNormal; PriorityLow].
Definition ProgrammaticPriorityClass_rank (p : ProgrammaticPriorityClass) : N :=
  match p with PriorityHigh => 0 | PriorityNormal => 1 | PriorityLow => 2 end.
#[export] Instance ProgrammaticPriorityClass_countable : Countable ProgrammaticPriorityClass.
Proof.
  by refine (inj_countable ProgrammaticPriorityClass_rank
               (fun n => all_priorities !! N.to_nat n) _); intros [].
Defined.

Inductive ProgrammaticFairnessPolicy : Type := StrictRoundRobin | WeightedRoundRobin.

Definition ProgrammaticFairnessPolicy_as_str (f : ProgrammaticFairnessPolicy) : string :=
  match f with
  | StrictRoundRobin => "strict_round_robin"
  | WeightedRoundRobin => "weighted_round_robin"
  end.

Inductive ProgrammaticAdaptiveReduceOn : Type :=
| ReduceAnyError
| ReduceConnectorExecutionError
| ReduceCircuitOpen
| ReduceConnectorNotFound
| ReduceConnectorNotAllowed
| ReduceCapabilityDenied
| ReducePolicyDenied.

Definition ProgrammaticAdaptiveReduceOn_as_str (r : ProgrammaticAdaptiveReduceOn) : string :=
  match r with
  | ReduceAnyError => "any_error"
  | ReduceConnectorExecutionError => "connector_execution_error"
  | ReduceCircuitOpen => "circuit_open"
  | ReduceConnectorNotFound => "connector_not_found"
  | ReduceConnectorNotAllowed => "connector_not_allowed"
  | ReduceCapabilityDenied => "capability_denied"
  | ReducePolicyDenied => "policy_denied"
  end.

#[export] Instance ProgrammaticAdaptiveReduceOn_eq_dec : EqDecision ProgrammaticAdaptiveReduceOn.
Proof. solve_decision. Defined.

Definition all_reduce_on : list ProgrammaticAdaptiveReduceOn :=
  [ReduceAnyError; ReduceConnectorExecutionError; ReduceCircuitOpen; ReduceConnectorNotFound;
   ReduceConnectorNotAllowed; ReduceCapabilityDenied; ReducePolicyDenied].
Definition ProgrammaticAdaptiveReduceOn_rank (r : ProgrammaticAdaptiveReduceOn) : N :=
  match r with
  | ReduceAnyError => 0 | ReduceConnectorExecutionError => 1 | ReduceCircuitOpen => 2
  | ReduceConnectorNotFound => 3 | ReduceConnectorNotAllowed => 4
  | ReduceCapabilityDenied => 5 | ReducePolicyDenied => 6
  end.
#[export] Instance ProgrammaticAdaptiveReduceOn_countable :
  Countable ProgrammaticAdaptiveReduceOn.
Proof.
  by refine (inj_countable ProgrammaticAdaptiveReduceOn_rank
               (fun n => all_reduce_on !! N.to_nat n) _); intros [].
Defined.

#[export] Instance reduce_on_rust_ord : RustOrd ProgrammaticAdaptiveReduceOn :=
  fun a b => (ProgrammaticAdaptiveReduceOn_rank a <= ProgrammaticAdaptiveReduceOn_rank b)%N.
#[export] Instance reduce_on_rust_ord_laws : RustOrdLaws ProgrammaticAdaptiveReduceOn.
Proof.
  split.
  - intros a b. unfold rust_le, reduce_on_rust_ord. apply _.
  - intros a b c. unfold rust_le, reduce_on_rust_ord. lia.
  - intros a b. unfold rust_le, reduce_on_rust_ord. lia.
  - intros a b. unfold rust_le, reduce_on_rust_ord. by destruct a, b; simpl; try lia.
Defined.

Record ProgrammaticConcurrencyPolicy : Type := {
  pc_max_in_flight : Z;
  pc_min_in_flight : Z;
  pc_fairness : ProgrammaticFairnessPolicy;
  pc_adaptive_budget : bool;
  pc_high_weight : Z;
  pc_normal_weight : Z;
  pc_low_weight : Z;
  pc_adaptive_recovery_successes : Z;
  pc_adaptive_upshift_step : Z;
  pc_adaptive_downshift_step : Z;
  pc_adaptive_reduce_on : gset ProgrammaticAdaptiveReduceOn;
}.

Definition default_programmatic_adaptive_reduce_on : gset ProgrammaticAdaptiveReduceOn :=
  {[ ReduceConnectorExecutionError; ReduceCircuitOpen ]}.

Definition default_programmatic_concurrency_policy : ProgrammaticConcurrencyPolicy := {|
  pc_max_in_flight := 4;
  pc_min_in_flight := 1;
  pc_fairness := WeightedRoundRobin;
  pc_adaptive_budget := true;
  pc_high_weight := 4;
  pc_normal_weight := 2;
  pc_low_weight := 1;
  pc_adaptive_recovery_successes := 2;
  pc_adaptive_upshift_step := 1;
  pc_adaptive_downshift_step := 1;
  pc_adaptive_reduce_on := default_programmatic_adaptive_reduce_on |}.

Record PreparedProgrammaticBatchCall : Type := {
  pb_call_id : string;
  pb_connector_name : string;
  pb_operation : string;
  pb_required_capabilities : gset Capability;
  pb_retry_policy : ProgrammaticRetryPolicy;
  pb_priority_class : ProgrammaticPriorityClass;
  pb_payload : json;
}.

Record ProgrammaticBatchCall : Type := {
  bc_call_id : string;
  bc_connector_name : string;
  bc_operation : string;
  bc_required_capabilities : gset Capability;
  bc_retry : option ProgrammaticRetryPolicy;
  bc_priority_class : ProgrammaticPriorityClass;
  bc_payload : json;
}.

Inductive ProgrammaticStep : Type :=
| SetLiteral (step_id : string) (value : json)
| JsonPointer (step_id from_step pointer : string)
| ConnectorCall (step_id connector_name operation : string)
    (required_capabilities : gset Capability) (retry : option ProgrammaticRetryPolicy)
    (priority_class : ProgrammaticPriorityClass) (payload : json)
| ConnectorBatch (step_id : string) (parallel continue_on_error : bool)
    (calls : list ProgrammaticBatchCall)
| Conditional (step_id from_step : string) (pointer : option string) (equals : option json)
    (exists_ : option bool) (when_true : json) (when_false : option json).

Record ProgrammaticInvocationMetrics : Type := {
  im_attempts : Z;
  im_retries : Z;
  im_priority_class : string;
  im_rate_wait_ms_total : Z;
  im_backoff_ms_total : Z;
  im_circuit_phase_before : string;
  im_circuit_phase_after : string;
}.

(** [Serialize] of the two structs the reports embed. *)
Definition ProgrammaticInvocationMetrics_json (m : ProgrammaticInvocationMetrics) : json :=
  json_obj [("attempts", json_usize (im_attempts m));
            ("retries", json_usize (im_retries m));
            ("priority_class", JString (im_priority_class m));
            ("rate_wait_ms_total", json_usize (im_rate_wait_ms_total m));
            ("backoff_ms_total", json_usize (im_backoff_ms_total m));
            ("circuit_phase_before", JString (im_circuit_phase_before m));
            ("circuit_phase_after", JString (im_circuit_phase_after m))].

Definition ConnectorOutcome_json (o : ConnectorOutcome) : json :=
  json_obj [("status", JString (co_status o)); ("payload", co_payload o)].

(** ** Errors of connectors *)

(** [error.replacen(from, to, 1)]. *)
Definition replace_first (from to s : string) : string :=
  match before_first from s with
  | Some head => head +:+ to +:+ str_drop (String.length head + String.length from) s
  | None => s
  end.

Definition normalize_connector_error_message (error : string) : string :=
  if str_contains "core connector adapter not found" (to_ascii_lowercase error) then
    replace_first "core connector adapter not found" "connector not found" error
  else error.

Definition classify_connector_error_code (error : string) : string :=
  let normalized := to_ascii_lowercase error in
  if str_contains "programmatic_error[circuit_open]" normalized then "circuit_open"
  else if str_contains "connector not found" normalized
       || str_contains "core connector adapter not found" normalized then "connector_not_found"
  else if str_contains "not allowed" normalized then "connector_not_allowed"
  else if str_contains "missing required capability" normalized then "capability_denied"
  else if str_contains "policy denied" normalized then "policy_denied"
  else "connector_execution_error".

Definition should_reduce_programmatic_budget (concurrency : ProgrammaticConcurrencyPolicy)
    (error_code : string) : bool :=
  let triggers := pc_adaptive_reduce_on concurrency in
  if decide (ReduceAnyError ∈ triggers) then true
  else
    let mapped :=
      if decide (error_code = "connector_execution_error") then Some ReduceConnectorExecutionError
      else if decide (error_code = "circuit_open") then Some ReduceCircuitOpen
      else if decide (error_code = "connector_not_found") then Some ReduceConnectorNotFound
      else if decide (error_code = "connector_not_allowed") then Some ReduceConnectorNotAllowed
      else if decide (error_code = "capability_denied") then Some ReduceCapabilityDenied
      else if decide (error_code = "policy_denied") then Some ReducePolicyDenied
      else None in
    match mapped with
    | Some trigger => bool_decide (trigger ∈ triggers)
    | None => false
    end.

(** ** Validation *)

Definition call_id_suffix (call_id : option string) : string :=
  match call_id with Some id => " (call_id=" +:+ id +:+ ")" | None => "" end.

Definition validate_retry_policy (policy : option ProgrammaticRetryPolicy) (step_id : string)
    (call_id : option string) : result ProgrammaticRetryPolicy string :=
  let resolved := default {|
    rp_max_attempts := default_programmatic_retry_max_attempts;
    rp_initial_backoff_ms := default_programmatic_retry_initial_backoff_ms;
    rp_max_backoff_ms := default_programmatic_retry_max_backoff_ms;
    rp_jitter_ratio := default_programmatic_retry_jitter_ratio;
    rp_adaptive_jitter := true |} policy in
  if decide (rp_max_attempts resolved = 0%Z) then
    Err (programmatic_error InvalidSpec
      ("programmatic step " +:+ step_id +:+ " retry.max_attempts must be greater than 0"
         +:+ call_id_suffix call_id))
  else if decide (rp_max_backoff_ms resolved < rp_initial_backoff_ms resolved)%Z then
    Err (programmatic_error InvalidSpec
      ("programmatic step " +:+ step_id
         +:+ " retry.max_backoff_ms must be >= retry.initial_backoff_ms"
         +:+ call_id_suffix call_id))
  else if negb (f64_is_finite (rp_jitter_ratio resolved))
       || negb (SFleb f64_zero (rp_jitter_ratio resolved)
                && SFleb (rp_jitter_ratio resolved) f64_one) then
    Err (programmatic_error InvalidSpec
      ("programmatic step " +:+ step_id +:+ " retry.jitter_ratio must be within [0.0, 1.0]"
         +:+ call_id_suffix call_id))
  else Ok resolved.

Fixpoint validate_rate_limit_entries (entries : list (string * ProgrammaticConnectorRateLimit))
  : result unit string :=
  match entries with
  | [] => Ok tt
  | (connector_name, limit) :: entries =>
      if str_is_empty (trim connector_name) then
        Err (programmatic_error InvalidSpec "connector_rate_limits contains an empty connector key")
      else if decide (rl_min_interval_ms limit = 0%Z) then
        Err (programmatic_error InvalidSpec
          ("connector_rate_limits[" +:+ connector_name
             +:+ "] min_interval_ms must be greater than 0"))
      else validate_rate_limit_entries entries
  end.

Definition validate_programmatic_rate_limits
    (rate_limits : gmap string ProgrammaticConnectorRateLimit) : result unit string :=
  validate_rate_limit_entries (btree_map_iter rate_limits).

Fixpoint validate_circuit_entries (entries : list (string * ConnectorCircuitBreakerPolicy))
  : result unit string :=
  match entries with
  | [] => Ok tt
  | (connector_name, policy) :: entries =>
      if str_is_empty (trim connector_name) then
        Err (programmatic_error InvalidSpec
               "connector_circuit_breakers contains an empty connector key")
      else
        match validate_connector_circuit_breaker_policy policy
                ("connector_circuit_breakers[" +:+ connector_name +:+ "]") with
        | Err error => Err (programmatic_error InvalidSpec error)
        | Ok _ => validate_circuit_entries entries
        end
  end.

Definition validate_programmatic_circuit_breakers
    (policies : gmap string ConnectorCircuitBreakerPolicy) : result unit string :=
  validate_circuit_entries (btree_map_iter policies).

Definition validate_programmatic_concurrency_policy (concurrency : ProgrammaticConcurrencyPolicy)
  : result unit string :=
  let invalid message := Err (programmatic_error InvalidSpec message) in
  if decide (pc_max_in_flight concurrency = 0%Z) then
    invalid "programmatic concurrency.max_in_flight must be greater than 0"
  else if decide (pc_min_in_flight concurrency = 0%Z) then
    invalid "programmatic concurrency.min_in_flight must be greater than 0"
  else if decide (pc_max_in_flight concurrency < pc_min_in_flight concurrency)%Z then
    invalid "programmatic concurrency.min_in_flight must be <= max_in_flight"
  else if decide (pc_high_weight concurrency = 0 \/ pc_normal_weight concurrency = 0
                  \/ pc_low_weight concurrency = 0)%Z then
    invalid "programmatic concurrency priority weights must all be greater than 0"
  else if decide (pc_adaptive_upshift_step concurrency = 0
                  \/ pc_adaptive_downshift_step concurrency = 0)%Z then
    invalid ("programmatic concurrency adaptive_upshift_step and adaptive_downshift_step "
               +:+ "must be greater than 0")
  else if decide (pc_adaptive_budget concurrency = true
                  /\ pc_adaptive_recovery_successes concurrency = 0%Z) then
    invalid ("programmatic concurrency.adaptive_recovery_successes must be greater than 0 "
               +:+ "when adaptive_budget is enabled")
  else if decide (pc_adaptive_budget concurrency = true
                  /\ pc_adaptive_reduce_on concurrency = ∅) then
    invalid ("programmatic concurrency.adaptive_reduce_on must include at least one trigger "
               +:+ "when adaptive_budget is enabled")
  else Ok tt.

(** ** Backoff *)

Definition fnv_offset_basis : Z := 0xcbf29ce484222325.
Definition fnv_prime : Z := 0x100000001b3.

Fixpoint fnv_hash (hash : Z) (seed : string) : Z :=
  match seed with
  | EmptyString => hash
  | String byte seed =>
      fnv_hash (u64_wrapping_mul (Z.lxor hash (Z.of_N (byte_of byte))) fnv_prime) seed
  end.

Definition deterministic_jitter_ms (seed : string) (modulus : Z) : Z :=
  if decide (modulus = 0%Z) then 0 else fnv_hash fnv_offset_basis seed mod modulus.

Definition compute_programmatic_backoff_ms (policy : ProgrammaticRetryPolicy)
    (connector_name step_id : string) (call_id : option string) (attempt : Z) : Z :=
  if decide (attempt = 0%Z) then 0
  else
    let exponent := (Z.max 0 (attempt - 1) mod 2 ^ 32)%Z in
    let growth := Z.min (2 ^ exponent) u64_max in
    let base := Z.min (Z.min (rp_initial_backoff_ms policy * growth) u64_max)
                      (rp_max_backoff_ms policy) in
    if negb (rp_adaptive_jitter policy) || (base =? 0)%Z
       || SFleb (rp_jitter_ratio policy) f64_zero then base
    else
      let jitter_cap := f64_round_as_u64 (f64_mul (f64_of_u64 base) (rp_jitter_ratio policy)) in
      if decide (jitter_cap = 0%Z) then base
      else
        let seed := connector_name +:+ "|" +:+ step_id +:+ "|"
                      +:+ default "no-call-id" call_id +:+ "|attempt-" +:+ fmt_dec attempt in
        let jitter := deterministic_jitter_ms seed (u64_saturating_add jitter_cap 1) in
        Z.min (u64_saturating_add base jitter) (rp_max_backoff_ms policy).

(** ** The shared runtime *)

(** What the workflow uses of the kernel. *)
Class ConnectorHost (K : Type) : Type :=
  host_execute_connector_core :
    string -> CapabilityToken -> option string -> ConnectorCommand ->
    M K (result ConnectorDispatch KernelError).

Record Runtime (K : Type) : Type := {
  rt_kernel : K;
  rt_now : Z;
  rt_elapsed : list N;
  rt_polls : list nat;
  rt_rate_state : gmap string Z;
  rt_circuit_state : gmap string ConnectorCircuitRuntimeState;
}.
Arguments rt_kernel {K} _.
Arguments rt_now {K} _.
Arguments rt_elapsed {K} _.
Arguments rt_polls {K} _.
Arguments rt_rate_state {K} _.
Arguments rt_circuit_state {K} _.

Section runtime.
Context {K : Type}.
Local Abbreviation R := (Runtime K).

Definition rt_set_kernel (k : K) (r : R) : R := {|
  rt_kernel := k; rt_now := rt_now r; rt_elapsed := rt_elapsed r; rt_polls := rt_polls r;
  rt_rate_state := rt_rate_state r; rt_circuit_state := rt_circuit_state r |}.
Definition rt_set_clock (now : Z) (elapsed : list N) (r : R) : R := {|
  rt_kernel := rt_kernel r; rt_now := now; rt_elapsed := elapsed; rt_polls := rt_polls r;
  rt_rate_state := rt_rate_state r; rt_circuit_state := rt_circuit_state r |}.
Definition rt_set_polls (polls : list nat) (r : R) : R := {|
  rt_kernel := rt_kernel r; rt_now := rt_now r; rt_elapsed := rt_elapsed r; rt_polls := polls;
  rt_rate_state := rt_rate_state r; rt_circuit_state := rt_circuit_state r |}.
Definition rt_set_rate_state (m : gmap string Z) (r : R) : R := {|
  rt_kernel := rt_kernel r; rt_now := rt_now r; rt_elapsed := rt_elapsed r; rt_polls := rt_polls r;
  rt_rate_state := m; rt_circuit_state := rt_circuit_state r |}.
Definition rt_set_circuit_state (m : gmap string ConnectorCircuitRuntimeState) (r : R) : R := {|
  rt_kernel := rt_kernel r; rt_now := rt_now r; rt_elapsed := rt_elapsed r; rt_polls := rt_polls r;
  rt_rate_state := rt_rate_state r; rt_circuit_state := m |}.

(** [TokioInstant::now()]: time has passed since the last reading. *)
Definition instant_now : M R Z := fun r =>
  match rt_elapsed r with
  | [] => (Returned (rt_now r), r)
  | d :: elapsed =>
      let now := (rt_now r + Z.of_N d)%Z in (Returned now, rt_set_clock now elapsed r)
  end.

(** The clock at the moment a timer fires: not before its deadline. *)
Definition wake_at (deadline : Z) : M R unit :=
  modify (fun r => rt_set_clock (Z.max (rt_now r) deadline) (rt_elapsed r) r).

(** [sleep(duration).await]: the deadline is set, then the future waits for it. *)
Definition sleep (duration : Z) : task R unit :=
  await! start := tlift instant_now in tlift (wake_at (start + duration)%Z).

(** *** Rate limits *)

(** The block that holds the lock: the wait of this call, and the next slot. *)
Definition reserve_rate_slot (connector_name : string) (limit : ProgrammaticConnectorRateLimit)
  : M R Z :=
  let! now := instant_now in
  let! state := gets rt_rate_state in
  let scheduled := default now (state !! connector_name) in
  let wait := if (now <? scheduled)%Z then (scheduled - now)%Z else 0%Z in
  let base := if (now <? scheduled)%Z then scheduled else now in
  let next := (base + from_millis (rl_min_interval_ms limit))%Z in
  run! modify (rt_set_rate_state (<[connector_name := next]> state)) in
  ret wait.

Definition apply_programmatic_rate_limit (connector_name : string)
    (rate_limits : gmap string ProgrammaticConnectorRateLimit) : task R (result Z string) :=
  match rate_limits !! connector_name with
  | None => TDone (Ok 0%Z)
  | Some limit =>
      await! wait_duration := tlift (reserve_rate_slot connector_name limit) in
      await! _ := (if (wait_duration =? 0)%Z then TDone tt else sleep wait_duration) in
      TDone (Ok (as_millis wait_duration mod u64_modulus)%Z)
  end.

(** *** Circuit breakers *)

Definition call_label (call_id : option string) : string :=
  match call_id with Some id => " call_id=" +:+ id | None => "" end.

Definition acquire_programmatic_circuit_slot (connector_name : string)
    (policies : gmap string ConnectorCircuitBreakerPolicy) (step_id : string)
    (call_id : option string) : task R (result string string) :=
  match policies !! connector_name with
  | None => TDone (Ok "disabled")
  | Some policy =>
      tlift (
        let! table := gets rt_circuit_state in
        let entry := default ConnectorCircuitRuntimeState_default (table !! connector_name) in
        let! now := instant_now in
        let (acquire_result, entry) := acquire_connector_circuit_slot_for_state policy entry now in
        run! modify (rt_set_circuit_state (<[connector_name := entry]> table)) in
        ret match acquire_result with
            | Ok phase => Ok phase
            | Err (AcquireOpen remaining_cooldown_ms) =>
                Err (programmatic_error ErrCircuitOpen
                  ("programmatic step " +:+ step_id +:+ call_label call_id +:+ " connector "
                     +:+ connector_name +:+ " is circuit-open (remaining_cooldown_ms="
                     +:+ fmt_dec remaining_cooldown_ms +:+ ")"))
            | Err AcquireHalfOpenReopened =>
                Err (programmatic_error ErrCircuitOpen
                  ("programmatic step " +:+ step_id +:+ call_label call_id +:+ " connector "
                     +:+ connector_name +:+ " half-open window exhausted and re-opened"))
            end)
  end.

Definition record_programmatic_circuit_outcome (connector_name : string) (success : bool)
    (policies : gmap string ConnectorCircuitBreakerPolicy) : task R string :=
  match policies !! connector_name with
  | None => TDone "disabled"
  | Some policy =>
      tlift (
        let! table := gets rt_circuit_state in
        let entry := default ConnectorCircuitRuntimeState_default (table !! connector_name) in
        let! now := instant_now in
        let (phase, entry) := record_connector_circuit_outcome_for_state policy entry success now in
        run! modify (rt_set_circuit_state (<[connector_name := entry]> table)) in
        ret phase)
  end.
End runtime.

(** The [BTreeMap] of queues, one for each class. *)
Abbreviation call_queues :=
  (gmap ProgrammaticPriorityClass (list PreparedProgrammaticBatchCall)).

(** ** Invocation with retries *)

Section workflow.
Context {K : Type} `{!ConnectorHost K} `{!FloatFormat}.
Local Abbreviation R := (Runtime K).
Variables (pack_id : string) (token : CapabilityToken).
Variable connector_rate_limits : gmap string ProgrammaticConnectorRateLimit.
Variable connector_circuit_breakers : gmap string ConnectorCircuitBreakerPolicy.

(** One call of the kernel. *)
Definition dispatch_connector (command : ConnectorCommand)
  : M R (result ConnectorDispatch KernelError) :=
  zoom rt_kernel rt_set_kernel
    (host_execute_connector_core pack_id token (Some (cc_connector_name command)) command).

(** The body of [for attempt in 1..=max_attempts], [attempts_left] of them to go. *)
Fixpoint invoke_attempts (attempts_left : nat) (attempt : Z) (command : ConnectorCommand)
    (retry_policy : ProgrammaticRetryPolicy) (step_id : string) (call_id : option string)
    (priority_class : ProgrammaticPriorityClass) (circuit_phase_before : string)
    (backoff_ms_total rate_wait_ms_total : Z) (last_error : option string)
  : task R (result (ConnectorDispatch * ProgrammaticInvocationMetrics) string) :=
  match attempts_left with
  | O =>
      TDone (Err (programmatic_error ConnectorInvokeFailed
        ("programmatic step " +:+ step_id
           +:+ " exhausted retries without terminal dispatch (last_error="
           +:+ default "unknown" last_error +:+ ")")))
  | S attempts_left =>
      let connector_name := cc_connector_name command in
      await? waited := apply_programmatic_rate_limit connector_name connector_rate_limits in
      let rate_wait_ms_total := u64_saturating_add rate_wait_ms_total waited in
      await! dispatch := tlift (dispatch_connector command) in
      match dispatch with
      | Ok dispatch =>
          await! circuit_phase_after :=
            record_programmatic_circuit_outcome connector_name true connector_circuit_breakers in
          TDone (Ok (dispatch, {|
            im_attempts := attempt;
            im_retries := Z.max 0 (attempt - 1);
            im_priority_class := ProgrammaticPriorityClass_as_str priority_class;
            im_rate_wait_ms_total := rate_wait_ms_total;
            im_backoff_ms_total := backoff_ms_total;
            im_circuit_phase_before := circuit_phase_before;
            im_circuit_phase_after := circuit_phase_after |}))
      | Err error =>
          let error_string := normalize_connector_error_message (KernelError_to_string error) in
          let connector_error_code := classify_connector_error_code error_string in
          if (rp_max_attempts retry_policy <=? attempt)%Z then
            await! circuit_phase_after :=
              record_programmatic_circuit_outcome connector_name false connector_circuit_breakers in
            TDone (Err (programmatic_error ConnectorInvokeFailed
              ("programmatic step " +:+ step_id +:+ call_label call_id +:+ " connector "
                 +:+ connector_name +:+ " invoke failed after attempts=" +:+ fmt_dec attempt
                 +:+ ": " +:+ error_string +:+ " (connector_error_code=" +:+ connector_error_code
                 +:+ ", circuit_phase_before=" +:+ circuit_phase_before
                 +:+ ", circuit_phase_after=" +:+ circuit_phase_after +:+ ")")))
          else
            let backoff := compute_programmatic_backoff_ms retry_policy connector_name step_id
                             call_id attempt in
            await! _ := (if (0 <? backoff)%Z then sleep (from_millis backoff) else TDone tt) in
            invoke_attempts attempts_left (attempt + 1) command retry_policy step_id call_id priority_class
              circuit_phase_before
              (if (0 <? backoff)%Z then u64_saturating_add backoff_ms_total backoff
               else backoff_ms_total)
              rate_wait_ms_total (Some error_string)
      end
  end.

Definition invoke_programmatic_connector_with_resilience (connector_name operation : string)
    (required_capabilities : gset Capability) (payload : json)
    (retry_policy : ProgrammaticRetryPolicy) (step_id : string) (call_id : option string)
    (priority_class : ProgrammaticPriorityClass)
  : task R (result (ConnectorDispatch * ProgrammaticInvocationMetrics) string) :=
  await? circuit_phase_before :=
    acquire_programmatic_circuit_slot connector_name connector_circuit_breakers step_id call_id in
  invoke_attempts (Z.to_nat (rp_max_attempts retry_policy)) 1
    {| cc_connector_name := connector_name;
       cc_operation := operation;
       cc_required_capabilities := required_capabilities;
       cc_payload := payload |}
    retry_policy step_id call_id priority_class circuit_phase_before 0 0 None.

(** ** Batches *)

Definition group_programmatic_calls_by_priority (calls : list PreparedProgrammaticBatchCall)
  : call_queues :=
  foldl (fun (grouped : call_queues) call =>
           <[pb_priority_class call :=
               default [] (grouped !! pb_priority_class call) ++ [call]]> grouped)
    (<[PriorityHigh := []]> (<[PriorityNormal := []]> (<[PriorityLow := []]> ∅))) calls.

(** [grouped.values()]; the order does not matter for what follows. *)
Definition queue_values (grouped : call_queues) : list (list PreparedProgrammaticBatchCall) :=
  (map_to_list grouped).*2.

Definition has_pending_programmatic_calls (grouped : call_queues) : bool :=
  existsb (fun queue : list PreparedProgrammaticBatchCall =>
             match queue with [] => false | _ :: _ => true end) (queue_values grouped).

Definition pending_programmatic_call_count (grouped : call_queues) : nat :=
  sum_list (map length (queue_values grouped)).

Definition build_programmatic_weighted_cycle (concurrency : ProgrammaticConcurrencyPolicy)
  : list ProgrammaticPriorityClass :=
  replicate (Z.to_nat (Z.max (pc_high_weight concurrency) 1)) PriorityHigh
  ++ replicate (Z.to_nat (Z.max (pc_normal_weight concurrency) 1)) PriorityNormal
  ++ replicate (Z.to_nat (Z.max (pc_low_weight concurrency) 1)) PriorityLow.

(** [grouped.get_mut(&priority).and_then(VecDeque::pop_front)]. *)
Definition pop_front (priority : ProgrammaticPriorityClass) (grouped : call_queues)
  : option (PreparedProgrammaticBatchCall * call_queues) :=
  match grouped !! priority with
  | Some (call :: queue) => Some (call, <[priority := queue]> grouped)
  | _ => None
  end.

(** The [for offset in 0..order.len()] loop of both policies. *)
Fixpoint pop_from_cycle (order : list ProgrammaticPriorityClass) (grouped : call_queues)
    (cursor : nat) (offsets : list nat)
  : option (PreparedProgrammaticBatchCall * (call_queues * nat)) :=
  match offsets with
  | [] => None
  | offset :: offsets =>
      let index := (cursor + offset) mod length order in
      match order !! index with
      | None => pop_from_cycle order grouped cursor offsets
      | Some priority =>
          match pop_front priority grouped with
          | Some (call, grouped') => Some (call, (grouped', S index mod length order))
          | None => pop_from_cycle order grouped cursor offsets
          end
      end
  end.

Definition strict_order : list ProgrammaticPriorityClass :=
  [PriorityHigh; PriorityNormal; PriorityLow].

Definition pop_next_programmatic_call (grouped : call_queues)
    (fairness : ProgrammaticFairnessPolicy) (weighted_cycle : list ProgrammaticPriorityClass)
    (cursor : nat) : option (PreparedProgrammaticBatchCall * (call_queues * nat)) :=
  match fairness with
  | StrictRoundRobin => pop_from_cycle strict_order grouped cursor (seq 0 (length strict_order))
  | WeightedRoundRobin =>
      match weighted_cycle with
      | [] =>
          match pop_front PriorityNormal grouped with
          | Some (call, grouped') => Some (call, (grouped', cursor))
          | None => None
          end
      | _ => pop_from_cycle weighted_cycle grouped cursor (seq 0 (length weighted_cycle))
      end
  end.

(** What an in-flight future returns. *)
Definition call_result : Type :=
  (string * string * string) *
  result (ConnectorDispatch * ProgrammaticInvocationMetrics) string.

Definition batch_future (step_id : string) (call : PreparedProgrammaticBatchCall)
  : task R call_result :=
  await! dispatch :=
    invoke_programmatic_connector_with_resilience (pb_connector_name call) (pb_operation call)
      (pb_required_capabilities call) (pb_payload call) (pb_retry_policy call) step_id
      (Some (pb_call_id call)) (pb_priority_class call) in
  TDone ((pb_call_id call, pb_connector_name call, pb_operation call), dispatch).

(** The fields of [ProgrammaticBatchExecutionSummary] that the run changes. *)
Record BatchCounters : Type := {
  ct_peak_in_flight : Z;
  ct_final_in_flight_budget : Z;
  ct_budget_reductions : Z;
  ct_budget_increases : Z;
  ct_scheduler_wait_cycles : Z;
  ct_dispatch_order : list string;
  ct_priority_dispatch_counts : gmap string Z;
}.

Definition BatchCounters_new : BatchCounters := {|
  ct_peak_in_flight := 0;
  ct_final_in_flight_budget := 1;
  ct_budget_reductions := 0;
  ct_budget_increases := 0;
  ct_scheduler_wait_cycles := 0;
  ct_dispatch_order := [];
  ct_priority_dispatch_counts := <["high" := 0%Z]> (<["normal" := 0%Z]> (<["low" := 0%Z]> ∅)) |}.

(** [dispatch_order.push] and the count of the class. *)
Definition count_dispatch (call : PreparedProgrammaticBatchCall) (c : BatchCounters)
  : BatchCounters := {|
  ct_peak_in_flight := ct_peak_in_flight c;
  ct_final_in_flight_budget := ct_final_in_flight_budget c;
  ct_budget_reductions := ct_budget_reductions c;
  ct_budget_increases := ct_budget_increases c;
  ct_scheduler_wait_cycles := ct_scheduler_wait_cycles c;
  ct_dispatch_order := ct_dispatch_order c ++ [pb_call_id call];
  ct_priority_dispatch_counts :=
    alter (fun count => u64_saturating_add count 1)
      (ProgrammaticPriorityClass_as_str (pb_priority_class call))
      (ct_priority_dispatch_counts c) |}.

Definition count_peak (peak : Z) (c : BatchCounters) : BatchCounters := {|
  ct_peak_in_flight := peak;
  ct_final_in_flight_budget := ct_final_in_flight_budget c;
  ct_budget_reductions := ct_budget_reductions c;
  ct_budget_increases := ct_budget_increases c;
  ct_scheduler_wait_cycles := ct_scheduler_wait_cycles c;
  ct_dispatch_order := ct_dispatch_order c;
  ct_priority_dispatch_counts := ct_priority_dispatch_counts c |}.

Definition count_wait (c : BatchCounters) : BatchCounters := {|
  ct_peak_in_flight := ct_peak_in_flight c;
  ct_final_in_flight_budget := ct_final_in_flight_budget c;
  ct_budget_reductions := ct_budget_reductions c;
  ct_budget_increases := ct_budget_increases c;
  ct_scheduler_wait_cycles := u64_saturating_add (ct_scheduler_wait_cycles c) 1;
  ct_dispatch_order := ct_dispatch_order c;
  ct_priority_dispatch_counts := ct_priority_dispatch_counts c |}.

Definition count_budget (final increases reductions : Z) (c : BatchCounters) : BatchCounters := {|
  ct_peak_in_flight := ct_peak_in_flight c;
  ct_final_in_flight_budget := final;
  ct_budget_reductions := u64_saturating_add (ct_budget_reductions c) reductions;
  ct_budget_increases := u64_saturating_add (ct_budget_increases c) increases;
  ct_scheduler_wait_cycles := ct_scheduler_wait_cycles c;
  ct_dispatch_order := ct_dispatch_order c;
  ct_priority_dispatch_counts := ct_priority_dispatch_counts c |}.

(** The local variables of the parallel branch. *)
Record BatchState : Type := {
  bs_pending : call_queues;
  bs_fairness_cursor : nat;
  bs_inflight : list (task R call_result);
  bs_current_budget : Z;
  bs_consecutive_successes : Z;
  bs_reports_by_call : gmap string json;
  bs_first_error : option string;
  bs_scheduler : BatchCounters;
}.

Definition bs_with_scheduler (c : BatchCounters) (st : BatchState) : BatchState := {|
  bs_pending := bs_pending st;
  bs_fairness_cursor := bs_fairness_cursor st;
  bs_inflight := bs_inflight st;
  bs_current_budget := bs_current_budget st;
  bs_consecutive_successes := bs_consecutive_successes st;
  bs_reports_by_call := bs_reports_by_call st;
  bs_first_error := bs_first_error st;
  bs_scheduler := c |}.

Definition inflight_len (st : BatchState) : Z := Z.of_nat (length (bs_inflight st)).

(** A popped call becomes a future in flight. *)
Definition bs_dispatch (step_id : string) (call : PreparedProgrammaticBatchCall)
    (pending : call_queues) (cursor : nat) (st : BatchState) : BatchState :=
  let inflight := bs_inflight st ++ [batch_future step_id call] in
  {| bs_pending := pending;
     bs_fairness_cursor := cursor;
     bs_inflight := inflight;
     bs_current_budget := bs_current_budget st;
     bs_consecutive_successes := bs_consecutive_successes st;
     bs_reports_by_call := bs_reports_by_call st;
     bs_first_error := bs_first_error st;
     bs_scheduler :=
       let counted := count_dispatch call (bs_scheduler st) in
       count_peak (Z.max (ct_peak_in_flight counted) (Z.of_nat (length inflight))) counted |}.

(** [while inflight.len() < current_budget]: a pending call is taken each round,
    so one round more than there are pending calls is enough. *)
Fixpoint fill_inflight (fuel : nat) (step_id : string) (concurrency : ProgrammaticConcurrencyPolicy)
    (weighted_cycle : list ProgrammaticPriorityClass) (st : BatchState) : BatchState :=
  match fuel with
  | O => st
  | S fuel =>
      if (inflight_len st <? bs_current_budget st)%Z then
        match pop_next_programmatic_call (bs_pending st) (pc_fairness concurrency) weighted_cycle
                (bs_fairness_cursor st) with
        | None => st
        | Some (call, (pending, cursor)) =>
            fill_inflight fuel step_id concurrency weighted_cycle
              (bs_dispatch step_id call pending cursor st)
        end
      else st
  end.

Definition ok_report (call_id operation : string) (dispatch : ConnectorDispatch)
    (metrics : ProgrammaticInvocationMetrics) : json :=
  json_obj [("call_id", JString call_id); ("status", JString "ok");
            ("connector_name", JString (cd_connector_name dispatch));
            ("operation", JString operation);
            ("outcome", ConnectorOutcome_json (cd_outcome dispatch));
            ("execution", ProgrammaticInvocationMetrics_json metrics)].

Definition error_report (call_id connector_name operation error : string) : json :=
  json_obj [("call_id", JString call_id); ("status", JString "error");
            ("connector_name", JString connector_name);
            ("operation", JString operation);
            ("error", JString error);
            ("error_code", JString (classify_connector_error_code error))].

Definition batch_call_failed (step_id call_id error : string) : string :=
  programmatic_error ConnectorInvokeFailed
    ("programmatic batch step " +:+ step_id +:+ " call " +:+ call_id +:+ " failed: " +:+ error).

Definition report_of (r : call_result) : json :=
  let '((call_id, connector_name, operation), dispatch) := r in
  match dispatch with
  | Ok (dispatch, metrics) => ok_report call_id operation dispatch metrics
  | Err error => error_report call_id connector_name operation error
  end.

(** The adaptive budget after one result: the budget, the run of successes, the
    increases and the reductions to count. *)
Definition adapt_budget (concurrency : ProgrammaticConcurrencyPolicy) (adaptive success : bool)
    (error_code : option string) (current_budget consecutive_successes : Z) : Z * Z * Z * Z :=
  if negb adaptive then (current_budget, consecutive_successes, 0, 0)%Z
  else if success then
    let consecutive_successes := u64_saturating_add consecutive_successes 1 in
    if (current_budget <? pc_max_in_flight concurrency)%Z
       && (pc_adaptive_recovery_successes concurrency <=? consecutive_successes)%Z then
      (Z.min (u64_saturating_add current_budget (pc_adaptive_upshift_step concurrency))
             (pc_max_in_flight concurrency), 0, 1, 0)%Z
    else (current_budget, consecutive_successes, 0, 0)%Z
  else
    match error_code with
    | Some error_code =>
        if should_reduce_programmatic_budget concurrency error_code
           && (pc_min_in_flight concurrency <? current_budget)%Z then
          (Z.max (Z.max 0 (current_budget - pc_adaptive_downshift_step concurrency))
                 (pc_min_in_flight concurrency), 0, 0, 1)%Z
        else (current_budget, 0, 0, 0)%Z
    | None => (current_budget, 0, 0, 0)%Z
    end.

(** A future has finished: its report, the first error, the budget. *)
Definition bs_complete (step_id : string) (concurrency : ProgrammaticConcurrencyPolicy)
    (adaptive : bool) (r : call_result) (inflight : list (task R call_result)) (st : BatchState)
  : BatchState :=
  let call_id := r.1.1.1 in
  let success := is_ok r.2 in
  let error_code :=
    match r.2 with Ok _ => None | Err error => Some (classify_connector_error_code error) end in
  let '(budget, successes, increases, reductions) :=
    adapt_budget concurrency adaptive success error_code (bs_current_budget st)
      (bs_consecutive_successes st) in
  {| bs_pending := bs_pending st;
     bs_fairness_cursor := bs_fairness_cursor st;
     bs_inflight := inflight;
     bs_current_budget := budget;
     bs_consecutive_successes := successes;
     bs_reports_by_call := <[call_id := report_of r]> (bs_reports_by_call st);
     bs_first_error :=
       match bs_first_error st, r.2 with
       | None, Err error => Some (batch_call_failed step_id call_id error)
       | first_error, _ => first_error
       end;
     bs_scheduler := count_budget budget increases reductions (bs_scheduler st) |}.

(** [while has_pending || !inflight.is_empty()]: every round ends a call, so one
    round more than there are calls is enough. *)
Fixpoint batch_loop (fuel : nat) (step_id : string) (concurrency : ProgrammaticConcurrencyPolicy)
    (adaptive : bool) (weighted_cycle : list ProgrammaticPriorityClass) (st : BatchState)
  : M R BatchState :=
  match fuel with
  | O => ret st
  | S fuel =>
      if has_pending_programmatic_calls (bs_pending st)
         || negb (length (bs_inflight st) =? 0) then
        let pending_before_dispatch := pending_programmatic_call_count (bs_pending st) in
        let st := fill_inflight (S pending_before_dispatch) step_id concurrency weighted_cycle st in
        if length (bs_inflight st) =? 0 then ret st
        else
          let st :=
            if (0 <? pending_before_dispatch)%nat && (bs_current_budget st <=? inflight_len st)%Z
            then bs_with_scheduler (count_wait (bs_scheduler st)) st else st in
          let! polls := gets rt_polls in
          let! next := poll_next polls (bs_inflight st) in
          run! modify (rt_set_polls next.2.2) in
          match next.1 with
          | Some r =>
              batch_loop fuel step_id concurrency adaptive weighted_cycle
                (bs_complete step_id concurrency adaptive r next.2.1 st)
          | None => batch_loop fuel step_id concurrency adaptive weighted_cycle st
          end
      else ret st
  end.

Record ProgrammaticBatchExecutionSummary : Type := {
  es_mode : string;
  es_fairness : string;
  es_adaptive_budget : bool;
  es_configured_max_in_flight : Z;
  es_configured_min_in_flight : Z;
  es_adaptive_upshift_step : Z;
  es_adaptive_downshift_step : Z;
  es_adaptive_reduce_on : list string;
  es_counters : BatchCounters;
}.

Definition summary_of (parallel : bool) (concurrency : ProgrammaticConcurrencyPolicy)
    (counters : BatchCounters) : ProgrammaticBatchExecutionSummary := {|
  es_mode := if parallel then "parallel" else "serial";
  es_fairness := ProgrammaticFairnessPolicy_as_str (pc_fairness concurrency);
  es_adaptive_budget := parallel && pc_adaptive_budget concurrency;
  es_configured_max_in_flight := pc_max_in_flight concurrency;
  es_configured_min_in_flight := pc_min_in_flight concurrency;
  es_adaptive_upshift_step := pc_adaptive_upshift_step concurrency;
  es_adaptive_downshift_step := pc_adaptive_downshift_step concurrency;
  es_adaptive_reduce_on :=
    map ProgrammaticAdaptiveReduceOn_as_str (btree_set_iter (pc_adaptive_reduce_on concurrency));
  es_counters := counters |}.

(** [Serialize], in the order of the struct's fields. *)
Definition ProgrammaticBatchExecutionSummary_json (s : ProgrammaticBatchExecutionSummary) : json :=
  let c := es_counters s in
  json_obj [("mode", JString (es_mode s));
            ("fairness", JString (es_fairness s));
            ("adaptive_budget", JBool (es_adaptive_budget s));
            ("configured_max_in_flight", json_usize (es_configured_max_in_flight s));
            ("configured_min_in_flight", json_usize (es_configured_min_in_flight s));
            ("peak_in_flight", json_usize (ct_peak_in_flight c));
            ("final_in_flight_budget", json_usize (ct_final_in_flight_budget c));
            ("budget_reductions", json_usize (ct_budget_reductions c));
            ("budget_increases", json_usize (ct_budget_increases c));
            ("adaptive_upshift_step", json_usize (es_adaptive_upshift_step s));
            ("adaptive_downshift_step", json_usize (es_adaptive_downshift_step s));
            ("adaptive_reduce_on", JArray (map JString (es_adaptive_reduce_on s)));
            ("scheduler_wait_cycles", json_usize (ct_scheduler_wait_cycles c));
            ("dispatch_order", JArray (map JString (ct_dispatch_order c)));
            ("priority_dispatch_counts",
               JObject (map (fun e : string * Z => (e.1, json_usize e.2))
                          (btree_map_iter (ct_priority_dispatch_counts c))))].

(** The serial branch: [Err] ends it at the first failure unless the batch goes
    on after errors. *)
Fixpoint serial_calls (step_id : string) (continue_on_error : bool)
    (calls : list PreparedProgrammaticBatchCall) (reports_by_call : gmap string json)
    (counters : BatchCounters) : M R (result (gmap string json * BatchCounters) string) :=
  match calls with
  | [] => ret (Ok (reports_by_call, counters))
  | call :: calls =>
      let counters := count_dispatch call counters in
      let! r := run_task (batch_future step_id call) in
      let counters := count_peak 1 counters in
      let reports := <[pb_call_id call := report_of r]> reports_by_call in
      match r.2 with
      | Ok _ => serial_calls step_id continue_on_error calls reports counters
      | Err error =>
          if continue_on_error then serial_calls step_id continue_on_error calls reports counters
          else ret (Err (batch_call_failed step_id (pb_call_id call) error))
      end
  end.

Definition execute_programmatic_batch_calls (step_id : string) (parallel continue_on_error : bool)
    (prepared_calls : list PreparedProgrammaticBatchCall)
    (concurrency : ProgrammaticConcurrencyPolicy)
  : M R (result (list json * ProgrammaticBatchExecutionSummary) string) :=
  let call_order := map pb_call_id prepared_calls in
  let in_parallel := parallel && (1 <? length prepared_calls) in
  let answer reports counters :=
    ret (Ok (omap (fun call_id => (reports : gmap string json) !! call_id) call_order,
             summary_of in_parallel concurrency counters)) in
  if in_parallel then
    let! st := batch_loop (S (length prepared_calls)) step_id concurrency
      (pc_adaptive_budget concurrency) (build_programmatic_weighted_cycle concurrency)
      {| bs_pending := group_programmatic_calls_by_priority prepared_calls;
         bs_fairness_cursor := 0;
         bs_inflight := [];
         bs_current_budget := pc_max_in_flight concurrency;
         bs_consecutive_successes := 0;
         bs_reports_by_call := ∅;
         bs_first_error := None;
         bs_scheduler := count_budget (pc_max_in_flight concurrency) 0 0 BatchCounters_new |} in
    match bs_first_error st with
    | Some error =>
        if continue_on_error then answer (bs_reports_by_call st) (bs_scheduler st)
        else ret (Err error)
    | None => answer (bs_reports_by_call st) (bs_scheduler st)
    end
  else
    let? done := serial_calls step_id continue_on_error prepared_calls ∅ BatchCounters_new in
    answer done.1 (count_budget 1 0 0 done.2).

Fixpoint prepare_batch_loop (calls : list ProgrammaticBatchCall) (outputs : gmap string json)
    (allowed_connectors : gset string) (caller step_id : string) (step_index : Z)
    (seen_call_ids : gset string) : result (list PreparedProgrammaticBatchCall) string :=
  match calls with
  | [] => Ok []
  | call :: calls =>
      let call_id := trim (bc_call_id call) in
      if str_is_empty call_id then
        Err (programmatic_error InvalidSpec
          ("programmatic batch step " +:+ step_id +:+ " has a call with empty call_id"))
      else if decide (call_id ∈ seen_call_ids) then
        Err (programmatic_error InvalidSpec
          ("programmatic batch step " +:+ step_id +:+ " has duplicated call_id " +:+ call_id))
      else if decide (allowed_connectors <> ∅ /\ bc_connector_name call ∉ allowed_connectors) then
        Err (programmatic_error ErrConnectorNotAllowed
          ("programmatic batch step " +:+ step_id +:+ " connector " +:+ bc_connector_name call
             +:+ " is not in allowed_connectors"))
      else
        let* retry_policy := validate_retry_policy (bc_retry call) step_id (Some call_id) in
        let* resolved_payload := resolve_programmatic_payload_templates (bc_payload call) outputs in
        let payload_with_provenance :=
          attach_programmatic_payload_provenance resolved_payload caller step_id step_index
            (Some call_id) in
        let* prepared := prepare_batch_loop calls outputs allowed_connectors caller step_id
                           step_index ({[call_id]} ∪ seen_call_ids) in
        Ok ({| pb_call_id := call_id;
               pb_connector_name := bc_connector_name call;
               pb_operation := bc_operation call;
               pb_required_capabilities := bc_required_capabilities call;
               pb_retry_policy := retry_policy;
               pb_priority_class := bc_priority_class call;
               pb_payload := payload_with_provenance |} :: prepared)
  end.

Definition prepare_programmatic_batch_calls (calls : list ProgrammaticBatchCall)
    (outputs : gmap string json) (allowed_connectors : gset string) (caller step_id : string)
    (step_index : Z) : result (list PreparedProgrammaticBatchCall) string :=
  prepare_batch_loop calls outputs allowed_connectors caller step_id step_index ∅.

(** ** The workflow *)

(** The local variables of the step loop. *)
Record WorkflowState : Type := {
  ws_step_outputs : gmap string json;
  ws_connector_calls : Z;
  ws_last_step_id : option string;
  ws_step_trace : list json;
}.

(** A step's output is stored, and its trace entry when traces are kept. *)
Definition ws_store (include_intermediate : bool) (step_id : string) (output : json)
    (trace : list (string * json)) (calls : Z) (ws : WorkflowState) : WorkflowState := {|
  ws_step_outputs := <[step_id := output]> (ws_step_outputs ws);
  ws_connector_calls := calls;
  ws_last_step_id := Some step_id;
  ws_step_trace :=
    if include_intermediate
    then ws_step_trace ws ++ [json_obj (("step_id", JString step_id) :: trace)]
    else ws_step_trace ws |}.

Definition is_error_report (report : json) : bool :=
  match json_get "status" report with
  | Some status => json_eqb status (JString "error")
  | None => false
  end.

Definition batch_step_result (parallel continue_on_error : bool) (call_reports : list json)
    (scheduler : ProgrammaticBatchExecutionSummary) : json :=
  let failed_calls := Z.of_nat (length (filter is_error_report call_reports)) in
  let success_calls := Z.max 0 (Z.of_nat (length call_reports) - failed_calls) in
  let by_call :=
    foldl (fun acc report =>
             match json_get "call_id" report ≫= json_as_str with
             | Some call_id => fields_insert call_id report acc
             | None => acc
             end) [] call_reports in
  json_obj [("parallel", JBool parallel);
            ("continue_on_error", JBool continue_on_error);
            ("total_calls", json_usize (Z.of_nat (length call_reports)));
            ("success_calls", json_usize success_calls);
            ("failed_calls", json_usize failed_calls);
            ("calls", JArray call_reports);
            ("by_call", JObject by_call);
            ("scheduler", ProgrammaticBatchExecutionSummary_json scheduler)].

Definition unknown_from_step (step_id from_step : string) : string :=
  programmatic_error UnknownStep
    ("programmatic step " +:+ step_id +:+ " references unknown from_step " +:+ from_step).

Section steps.
Variables (caller : string) (max_calls : Z) (include_intermediate : bool).
Variable allowed_connectors : gset string.
Variable concurrency : ProgrammaticConcurrencyPolicy.

Definition connector_allowed (connector_name : string) : bool :=
  bool_decide (allowed_connectors = ∅ \/ connector_name ∈ allowed_connectors).

Definition conditional_matched (evaluated : option json) (equals : option json)
    (exists_ : option bool) : bool :=
  match exists_ with
  | Some expected_exists => Bool.eqb (bool_decide (is_Some evaluated)) expected_exists
  | None => true
  end &&
  match equals with
  | Some expected_equals =>
      match evaluated with Some v => json_eqb v expected_equals | None => false end
  | None => true
  end.

Definition execute_step (index : Z) (step : ProgrammaticStep) (ws : WorkflowState)
  : M R (result WorkflowState string) :=
  let outputs := ws_step_outputs ws in
  let store := ws_store include_intermediate in
  match step with
  | SetLiteral step_id value =>
      run? ret (ensure_new_step_id step_id outputs) in
      ret (Ok (store step_id value [("kind", JString "set_literal"); ("output", value)]
                 (ws_connector_calls ws) ws))
  | JsonPointer step_id from_step pointer =>
      run? ret (ensure_new_step_id step_id outputs) in
      let? source := ret (ok_or (outputs !! from_step) (unknown_from_step step_id from_step)) in
      let? extracted := ret (ok_or (json_pointer pointer source)
        (programmatic_error PointerNotFound
           ("programmatic step " +:+ step_id +:+ " pointer " +:+ pointer +:+ " not found in "
              +:+ from_step))) in
      ret (Ok (store step_id extracted
        [("kind", JString "json_pointer"); ("from_step", JString from_step);
         ("pointer", JString pointer); ("output", extracted)] (ws_connector_calls ws) ws))
  | ConnectorCall step_id connector_name operation required_capabilities retry priority_class
      payload =>
      run? ret (ensure_new_step_id step_id outputs) in
      if negb (connector_allowed connector_name) then
        ret (Err (programmatic_error ErrConnectorNotAllowed
          ("programmatic step " +:+ step_id +:+ " connector " +:+ connector_name
             +:+ " is not in allowed_connectors")))
      else if (max_calls <=? ws_connector_calls ws)%Z then
        ret (Err (programmatic_error CallBudgetExceeded
          ("programmatic connector call budget exceeded: max_calls=" +:+ fmt_dec max_calls)))
      else
        let? retry_policy := ret (validate_retry_policy retry step_id None) in
        let? resolved_payload := ret (resolve_programmatic_payload_templates payload outputs) in
        let payload_with_provenance :=
          attach_programmatic_payload_provenance resolved_payload caller step_id index None in
        let? done := run_task (invoke_programmatic_connector_with_resilience connector_name
          operation required_capabilities payload_with_provenance retry_policy step_id None
          priority_class) in
        let step_result :=
          json_obj [("connector_name", JString (cd_connector_name done.1));
                    ("outcome", ConnectorOutcome_json (cd_outcome done.1));
                    ("priority_class", JString (ProgrammaticPriorityClass_as_str priority_class));
                    ("execution", ProgrammaticInvocationMetrics_json done.2)] in
        ret (Ok (store step_id step_result
          [("kind", JString "connector_call"); ("connector_name", JString connector_name);
           ("operation", JString operation); ("output", step_result)]
          (u64_saturating_add (ws_connector_calls ws) 1) ws))
  | ConnectorBatch step_id parallel continue_on_error calls =>
      run? ret (ensure_new_step_id step_id outputs) in
      let batch_calls := Z.of_nat (length calls) in
      let attempted := u64_saturating_add (ws_connector_calls ws) batch_calls in
      if (batch_calls =? 0)%Z then
        ret (Err (programmatic_error InvalidSpec
          ("programmatic batch step " +:+ step_id +:+ " requires at least one call")))
      else if (max_calls <? attempted)%Z then
        ret (Err (programmatic_error CallBudgetExceeded
          ("programmatic connector call budget exceeded: max_calls=" +:+ fmt_dec max_calls
             +:+ ", attempted=" +:+ fmt_dec attempted)))
      else
        let? prepared_calls := ret (prepare_programmatic_batch_calls calls outputs
          allowed_connectors caller step_id index) in
        let connector_calls := u64_saturating_add (ws_connector_calls ws)
                                 (Z.of_nat (length prepared_calls)) in
        let? done := execute_programmatic_batch_calls step_id parallel continue_on_error
          prepared_calls concurrency in
        let step_result := batch_step_result parallel continue_on_error done.1 done.2 in
        ret (Ok (store step_id step_result
          [("kind", JString "connector_batch"); ("parallel", JBool parallel);
           ("continue_on_error", JBool continue_on_error); ("output", step_result)]
          connector_calls ws))
  | Conditional step_id from_step pointer equals exists_ when_true when_false =>
      run? ret (ensure_new_step_id step_id outputs) in
      if decide (equals = None /\ exists_ = None) then
        ret (Err (programmatic_error InvalidSpec
          ("programmatic conditional step " +:+ step_id
             +:+ " requires at least one predicate (equals or exists)")))
      else
        let? source := ret (ok_or (outputs !! from_step) (unknown_from_step step_id from_step)) in
        let? evaluated := ret (
          match pointer with
          | Some pointer =>
              let* normalized_pointer := normalize_programmatic_pointer pointer in
              Ok (json_pointer normalized_pointer source)
          | None => Ok (Some source)
          end) in
        let matched := conditional_matched evaluated equals exists_ in
        let selected := if matched then when_true else default JNull when_false in
        let? resolved_output := ret (resolve_programmatic_payload_templates selected outputs) in
        ret (Ok (store step_id resolved_output
          [("kind", JString "conditional"); ("from_step", JString from_step);
           ("pointer", json_opt JString pointer); ("exists", json_opt JBool exists_);
           ("equals", json_opt id equals); ("evaluated", json_opt id evaluated);
           ("matched", JBool matched); ("output", resolved_output)]
          (ws_connector_calls ws) ws))
  end.

Fixpoint execute_steps (index : Z) (steps : list ProgrammaticStep) (ws : WorkflowState)
  : M R (result WorkflowState string) :=
  match steps with
  | [] => ret (Ok ws)
  | step :: steps =>
      let? ws := execute_step index step ws in execute_steps (index + 1) steps ws
  end.
End steps.

Definition rate_limits_json (limits : gmap string ProgrammaticConnectorRateLimit) : json :=
  JObject (map (fun e : string * ProgrammaticConnectorRateLimit =>
    (e.1, json_obj [("min_interval_ms", json_usize (rl_min_interval_ms e.2))]))
    (btree_map_iter limits)).

Definition circuit_breakers_json (breakers : gmap string ConnectorCircuitBreakerPolicy) : json :=
  JObject (map (fun e : string * ConnectorCircuitBreakerPolicy =>
    (e.1, json_obj [("failure_threshold", json_usize (cb_failure_threshold e.2));
                    ("cooldown_ms", json_usize (cb_cooldown_ms e.2));
                    ("half_open_max_calls", json_usize (cb_half_open_max_calls e.2));
                    ("success_threshold", json_usize (cb_success_threshold e.2))]))
    (btree_map_iter breakers)).

Definition concurrency_json (c : ProgrammaticConcurrencyPolicy) : json :=
  json_obj [("max_in_flight", json_usize (pc_max_in_flight c));
            ("min_in_flight", json_usize (pc_min_in_flight c));
            ("fairness", JString (ProgrammaticFairnessPolicy_as_str (pc_fairness c)));
            ("adaptive_budget", JBool (pc_adaptive_budget c));
            ("high_weight", json_usize (pc_high_weight c));
            ("normal_weight", json_usize (pc_normal_weight c));
            ("low_weight", json_usize (pc_low_weight c));
            ("adaptive_recovery_successes", json_usize (pc_adaptive_recovery_successes c));
            ("adaptive_upshift_step", json_usize (pc_adaptive_upshift_step c));
            ("adaptive_downshift_step", json_usize (pc_adaptive_downshift_step c));
            ("adaptive_reduce_on",
               JArray (map (fun r => JString (ProgrammaticAdaptiveReduceOn_as_str r))
                         (btree_set_iter (pc_adaptive_reduce_on c))))].

(** The answer, from the state the steps left. *)
Definition workflow_response (caller : string) (max_calls : Z) (include_intermediate : bool)
    (concurrency : ProgrammaticConcurrencyPolicy) (return_step : option string)
    (ws : WorkflowState) : result json string :=
  let requested :=
    match return_step with
    | Some value => if str_is_empty (trim value) then None else Some (trim value)
    | None => None
    end in
  let* final_step_id :=
    match requested with
    | Some step_id => Ok step_id
    | None =>
        ok_or (ws_last_step_id ws)
          (programmatic_error InvalidSpec "programmatic workflow produced no step output")
    end in
  let* final_output :=
    ok_or (ws_step_outputs ws !! final_step_id)
      (programmatic_error UnknownStep
         ("programmatic return_step " +:+ final_step_id +:+ " does not exist")) in
  Ok (json_obj (
    [("caller", JString caller); ("max_calls", json_usize max_calls);
     ("connector_calls", json_usize (ws_connector_calls ws));
     ("return_step", JString final_step_id); ("result", final_output)]
    ++ (if decide (connector_rate_limits = ∅) then []
        else [("connector_rate_limits", rate_limits_json connector_rate_limits)])
    ++ (if decide (connector_circuit_breakers = ∅) then []
        else [("connector_circuit_breakers", circuit_breakers_json connector_circuit_breakers)])
    ++ [("concurrency", concurrency_json concurrency)]
    ++ (if include_intermediate
        then [("steps", JArray (ws_step_trace ws));
              ("step_outputs", JObject (btree_map_iter (ws_step_outputs ws)))]
        else []))).

Definition execute_programmatic_tool_call (caller : string) (max_calls : Z)
    (include_intermediate : bool) (allowed_connectors : gset string)
    (concurrency : ProgrammaticConcurrencyPolicy) (return_step : option string)
    (steps : list ProgrammaticStep) : M R (result json string) :=
  if (max_calls =? 0)%Z then
    ret (Err (programmatic_error InvalidSpec
                "programmatic_tool_call max_calls must be greater than 0"))
  else if length steps =? 0 then
    ret (Err (programmatic_error InvalidSpec "programmatic_tool_call requires at least one step"))
  else
    run? ret (validate_programmatic_rate_limits connector_rate_limits) in
    run? ret (validate_programmatic_circuit_breakers connector_circuit_breakers) in
    run? ret (validate_programmatic_concurrency_policy concurrency) in
    run! modify (rt_set_rate_state ∅) in
    run! modify (rt_set_circuit_state ∅) in
    let? ws := execute_steps caller max_calls include_intermediate allowed_connectors concurrency
      0 steps
      {| ws_step_outputs := ∅; ws_connector_calls := 0; ws_last_step_id := None;
         ws_step_trace := [] |} in
    ret (workflow_response caller max_calls include_intermediate concurrency return_step ws).
End workflow.

(** The kernel is a host. *)
#[export] Instance kernel_connector_host `{Semver} `{PolicyEngine P} `{AuditSink A} `{Clock C} {W}
    (ps : PanicStrategy) : ConnectorHost (LoongKernel P A C W) :=
  fun pack_id token core_name command =>
    LoongKernel_execute_connector_core ps pack_id token core_name command.
