(* ===== verification/ProgrammaticBatch.v ===== *)
(** * Programmatic batches

    The scheduler of [Programmatic]: a batch ends with every call dispatched
    once and reported, under every interleaving of its futures, never more of
    them in flight than the policy allows, the adaptive budget within its
    bounds; before that backoff, rate limits and the fairness of the cycle. *)

From Stdlib Require Import Ascii SpecFloat.
From S2P Require Import Prelude RustStr Contracts Json Policy Planes AuditSinks Kernel Circuit.
From S2P Require Import Async Template Programmatic.

(** ** Programmatic tool calls: backoff, rate limits, fairness

    Facts of [Programmatic] that do not need the kernel: the delay between two
    attempts grows from the initial to the maximal one and never past it; the
    slots a rate limit hands out are spaced by its interval whatever the times of
    the requests; the scheduler's cycle keeps the weights of the classes and lets
    no pending call wait for longer than a bounded number of dispatches. *)

(** ** Backoff *)

(** The delay without jitter: doubled after every attempt, up to the maximum. *)
Definition plain_backoff (policy : ProgrammaticRetryPolicy) (attempt : Z) : Z :=
  Z.min (rp_initial_backoff_ms policy * 2 ^ (attempt - 1)) (rp_max_backoff_ms policy).

Lemma backoff_base initial max attempt :
  u64_valid initial -> u64_valid max -> (1 <= attempt <= 2 ^ 32)%Z ->
  Z.min (Z.min (initial * Z.min (2 ^ (Z.max 0 (attempt - 1) mod 2 ^ 32)) u64_max) u64_max) max
    = Z.min (initial * 2 ^ (attempt - 1)) max.
Proof.
  unfold u64_valid. intros Hi Hm Ha.
  rewrite Z.max_r, Z.mod_small by lia.
  assert (1 <= 2 ^ (attempt - 1))%Z by (apply (Z.pow_le_mono_r 2 0); lia).
  destruct (Z.le_gt_cases (2 ^ (attempt - 1)) u64_max) as [Hs|Hs].
  - rewrite (Z.min_l (2 ^ _)) by done. lia.
  - rewrite (Z.min_r (2 ^ _)) by lia.
    destruct (decide (initial = 0%Z)) as [->|Hne]; [lia|].
    assert (u64_max <= initial * u64_max)%Z by nia.
    assert (u64_max <= initial * 2 ^ (attempt - 1))%Z by nia. lia.
Qed.

Lemma deterministic_jitter_nonneg seed modulus :
  (0 <= modulus)%Z -> (0 <= deterministic_jitter_ms seed modulus)%Z.
Proof.
  intros Hm. unfold deterministic_jitter_ms. case_decide; [lia|].
  apply Z.mod_pos_bound. lia.
Qed.

Lemma f64_round_as_u64_nonneg x : (0 <= f64_round_as_u64 x)%Z.
Proof.
  destruct x as [|[]| |[] m e]; simpl; try done.
  destruct (0 <=? e)%Z; apply Z.min_glb; try done.
  - apply Z.mul_nonneg_nonneg; [done|]. by apply Z.pow_nonneg.
  - apply Z_div_nonneg_nonneg; [|by apply Z.pow_nonneg].
    apply Z.add_nonneg_nonneg; [done|]. by apply Z.pow_nonneg.
Qed.

(** The delay before a retry lies between the undisturbed delay,
    doubled after every attempt, and the policy's maximum, whatever the jitter;
    without jitter it is that delay exactly. *)
Theorem backoff_bounds policy connector_name step_id call_id attempt :
  u64_valid (rp_initial_backoff_ms policy) -> u64_valid (rp_max_backoff_ms policy) ->
  (1 <= attempt <= 2 ^ 32)%Z ->
  let backoff := compute_programmatic_backoff_ms policy connector_name step_id call_id attempt in
  (plain_backoff policy attempt <= backoff <= rp_max_backoff_ms policy)%Z /\
  (rp_adaptive_jitter policy = false -> backoff = plain_backoff policy attempt).
Proof.
  intros Hi Hm Ha backoff. subst backoff. unfold compute_programmatic_backoff_ms, plain_backoff.
  rewrite decide_False by lia. cbv zeta. rewrite backoff_base by done.
  set (base := Z.min (rp_initial_backoff_ms policy * 2 ^ (attempt - 1)) (rp_max_backoff_ms policy)).
  split; [|by intros ->].
  destruct (_ || _ || _); [lia|]. case_decide; [lia|].
  match goal with |- context [deterministic_jitter_ms ?s ?m] =>
    pose proof (deterministic_jitter_nonneg s m) as Hj;
    set (jitter := deterministic_jitter_ms s m) in * end.
  assert (0 <= jitter)%Z.
  { apply Hj. unfold u64_saturating_add.
    pose proof (f64_round_as_u64_nonneg (f64_mul (f64_of_u64 base) (rp_jitter_ratio policy))).
    unfold u64_max, u64_modulus. lia. }
  unfold u64_saturating_add, u64_valid in *. lia.
Qed.

(** ** Rate limits *)

Section rate.
Context {K : Type}.
Local Abbreviation R := (Runtime K).

(** Reservations for one connector, one after the other, the clock moving on in
    between as [rt_elapsed] says: the time of each request and its slot. *)
Fixpoint rate_slots (connector_name : string) (limit : ProgrammaticConnectorRateLimit) (n : nat)
    (r : R) : list (Z * Z) :=
  match n with
  | O => []
  | S n =>
      match reserve_rate_slot connector_name limit r with
      | (Returned wait, r') =>
          (rt_now r', (rt_now r' + wait)%Z) :: rate_slots connector_name limit n r'
      | (Panicked _, _) => []
      end
  end.

(** The slot before which the connector is not called next. *)
Definition next_slot (connector_name : string) (r : R) : Z :=
  default (rt_now r) (rt_rate_state r !! connector_name).

Lemma reserve_rate_slot_spec connector_name limit (r : R) :
  exists wait r', reserve_rate_slot connector_name limit r = (Returned wait, r') /\
    (rt_now r <= rt_now r')%Z /\
    (rt_now r' + wait)%Z = Z.max (rt_now r') (next_slot connector_name r) /\
    next_slot connector_name r' = (rt_now r' + wait + from_millis (rl_min_interval_ms limit))%Z.
Proof.
  unfold reserve_rate_slot, instant_now, bind, gets, modify, ret, next_slot.
  destruct (rt_elapsed r) as [|d elapsed]; simpl.
  - eexists _, _. split; [reflexivity|]. simpl. rewrite lookup_insert_eq; simpl.
    destruct (rt_rate_state r !! connector_name) as [t|]; simpl; split_and!; try lia;
      destruct (_ <? _)%Z eqn:E; rewrite ?Z.ltb_lt, ?Z.ltb_ge in *; lia.
  - eexists _, _. split; [reflexivity|]. simpl. rewrite lookup_insert_eq; simpl.
    destruct (rt_rate_state r !! connector_name) as [t|]; simpl; split_and!; try lia;
      destruct (_ <? _)%Z eqn:E; rewrite ?Z.ltb_lt, ?Z.ltb_ge in *; lia.
Qed.

Lemma rate_slots_after connector_name limit n (r : R) :
  Forall (fun p => p.1 <= p.2 /\ next_slot connector_name r <= p.2)%Z
    (rate_slots connector_name limit n r) \/ (rl_min_interval_ms limit < 0)%Z.
Proof.
  destruct (decide (rl_min_interval_ms limit < 0)%Z) as [|Hpos]; [by right|left].
  revert r. induction n as [|n IH]; intros r; simpl; [done|].
  destruct (reserve_rate_slot_spec connector_name limit r) as (wait & r' & -> & Hnow & Hslot & Hnext).
  constructor; simpl; [lia|]. eapply Forall_impl; [apply IH|].
  intros [t s] [Hts Hs]. simpl in *. unfold from_millis, nanos_per_milli in Hnext. lia.
Qed.

(** Whatever the times of the requests, the slots a rate limit
    hands out to a connector are in order and at least [min_interval_ms] apart,
    and no slot is before its request: two calls of the connector are never
    scheduled closer than the limit says. *)
Theorem rate_limit_spaced connector_name limit n (r : R) :
  (0 <= rl_min_interval_ms limit)%Z ->
  let slots := rate_slots connector_name limit n r in
  length slots = n /\
  Forall (fun p => p.1 <= p.2)%Z slots /\
  StronglySorted (fun p q => p.2 + from_millis (rl_min_interval_ms limit) <= q.2)%Z slots.
Proof.
  intros Hpos. cbv zeta. revert r. induction n as [|n IH]; intros r; simpl.
  { split_and!; [done|done|constructor]. }
  destruct (reserve_rate_slot_spec connector_name limit r) as (wait & r' & -> & Hnow & Hslot & Hnext).
  destruct (IH r') as (Hlen & Hall & Hsorted). split_and!.
  - simpl. by rewrite Hlen.
  - constructor; simpl; [lia|done].
  - constructor; [done|]. destruct (rate_slots_after connector_name limit n r') as [Ha|]; [|lia].
    eapply Forall_impl; [exact Ha|]. intros [t s] [_ Hs]. simpl in *. lia.
Qed.
End rate.

(** ** The scheduler's cycle *)

Section cycle.
Implicit Types (grouped : call_queues) (order : list ProgrammaticPriorityClass).

(** No call of the class is pending. *)
Definition class_empty grouped (p : ProgrammaticPriorityClass) : Prop :=
  default [] (grouped !! p) = [].

Lemma queues_insert_eq grouped p queue : (<[p := queue]> grouped : call_queues) !! p = Some queue.
Proof. apply (lookup_insert_eq (M := gmap ProgrammaticPriorityClass)). Qed.

Lemma queues_insert_ne grouped p q queue :
  p <> q -> (<[p := queue]> grouped : call_queues) !! q = grouped !! q.
Proof. apply (lookup_insert_ne (M := gmap ProgrammaticPriorityClass)). Qed.

Lemma pop_front_None p grouped : pop_front p grouped = None <-> class_empty grouped p.
Proof.
  unfold pop_front, class_empty. destruct (grouped !! p) as [[|call queue]|]; simpl; done.
Qed.

Lemma pop_front_Some p grouped call grouped' :
  pop_front p grouped = Some (call, grouped') ->
  exists queue, grouped !! p = Some (call :: queue) /\ grouped' = <[p := queue]> grouped.
Proof.
  unfold pop_front. destruct (grouped !! p) as [[|c queue]|]; [done| |done].
  intros [= -> <-]. eauto.
Qed.

(** The class whose turn is [k] places after the cursor. *)
Definition turn order (cursor k : nat) : option ProgrammaticPriorityClass :=
  order !! ((cursor + k) mod length order).

Lemma turn_Some order cursor k : order <> [] -> is_Some (turn order cursor k).
Proof.
  intros Ho. apply lookup_lt_is_Some. apply Nat.mod_upper_bound. by destruct order.
Qed.

Lemma succ_mod a n : S (a mod n) mod n = S a mod n.
Proof.
  rewrite <- (Nat.add_1_r (a mod n)), <- (Nat.add_1_r a). apply Nat.Div0.add_mod_idemp_l.
Qed.

Lemma pop_from_cycle_spec order grouped cursor start len :
  order <> [] ->
  match pop_from_cycle order grouped cursor (seq start len) with
  | Some (call, (grouped', cursor')) => exists k p queue, start <= k < start + len /\
      turn order cursor k = Some p /\ grouped !! p = Some (call :: queue) /\
      grouped' = <[p := queue]> grouped /\ cursor' = S (cursor + k) mod length order /\
      (forall j q, start <= j < k -> turn order cursor j = Some q -> class_empty grouped q)
  | None => forall j q, start <= j < start + len -> turn order cursor j = Some q ->
      class_empty grouped q
  end.
Proof.
  intros Ho. revert start. induction len as [|len IH]; intros start; cbn [seq pop_from_cycle]; [lia|].
  destruct (turn_Some order cursor start Ho) as [p Hp]. unfold turn in Hp. rewrite Hp.
  destruct (pop_front p grouped) as [[call grouped']|] eqn:Hpop.
  - apply pop_front_Some in Hpop as (queue & Hq & ->). exists start, p, queue.
    split_and!; try done; [lia| |lia].
    apply succ_mod.
  - apply pop_front_None in Hpop. specialize (IH (S start)).
    assert (forall j q, j = start -> turn order cursor j = Some q -> class_empty grouped q) as Hhere.
    { intros j q -> Hq. unfold turn in Hq. by rewrite Hp in Hq; simplify_eq. }
    destruct (pop_from_cycle order grouped cursor (seq (S start) len)) as [[call [g' c']]|].
    + destruct IH as (k & p' & queue & Hk & Ht & Hq & -> & -> & Hbefore).
      exists k, p', queue. split_and!; try done; [lia..|].
      intros j q Hj Hjq. destruct (decide (j = start)); [by eapply Hhere|]. apply (Hbefore j q); [lia|done].
    + intros j q Hj Hjq. destruct (decide (j = start)); [by eapply Hhere|]. apply (IH j q); [lia|done].
Qed.

(** The calls popped one after the other. *)
Fixpoint pop_sequence (n : nat) (fairness : ProgrammaticFairnessPolicy)
    (weighted_cycle : list ProgrammaticPriorityClass) grouped (cursor : nat)
  : list PreparedProgrammaticBatchCall :=
  match n with
  | O => []
  | S n =>
      match pop_next_programmatic_call grouped fairness weighted_cycle cursor with
      | None => []
      | Some (call, (grouped, cursor)) =>
          call :: pop_sequence n fairness weighted_cycle grouped cursor
      end
  end.

(** The cycle a policy follows. *)
Definition cycle_of (fairness : ProgrammaticFairnessPolicy)
    (weighted_cycle : list ProgrammaticPriorityClass) : list ProgrammaticPriorityClass :=
  match fairness with StrictRoundRobin => strict_order | WeightedRoundRobin => weighted_cycle end.

Lemma pop_next_cycle grouped fairness weighted_cycle cursor :
  weighted_cycle <> [] ->
  let order := cycle_of fairness weighted_cycle in
  order <> [] /\
  pop_next_programmatic_call grouped fairness weighted_cycle cursor =
    pop_from_cycle order grouped cursor (seq 0 (length order)).
Proof. intros Hw. destruct fairness; [done|]. by destruct weighted_cycle. Qed.

Lemma turn_shift order cursor k j :
  turn order (S (cursor + k) mod length order) j = turn order cursor (S (k + j)).
Proof.
  unfold turn. rewrite Nat.Div0.add_mod_idemp_l. do 2 f_equal. lia.
Qed.

Lemma turn_wrap order cursor k : turn order cursor (k + length order) = turn order cursor k.
Proof.
  unfold turn. f_equal. rewrite Nat.add_assoc.
  rewrite <- (Nat.mul_1_l (length order)) at 1. apply Nat.Div0.mod_add.
Qed.

Lemma pop_sequence_reaches m fairness weighted_cycle grouped cursor d p queue i call :
  weighted_cycle <> [] ->
  turn (cycle_of fairness weighted_cycle) cursor d = Some p ->
  d < length (cycle_of fairness weighted_cycle) ->
  grouped !! p = Some queue -> queue !! i = Some call ->
  S d + i * length (cycle_of fairness weighted_cycle) <= m ->
  call ∈ pop_sequence m fairness weighted_cycle grouped cursor.
Proof.
  intros Hw. revert grouped cursor d queue i. induction m as [|m IH]; [lia|].
  intros grouped cursor d queue i Hd Hlen Hq Hi Hm. cbn [pop_sequence].
  destruct (pop_next_cycle grouped fairness weighted_cycle cursor Hw) as [Ho ->].
  set (order := cycle_of fairness weighted_cycle) in *.
  pose proof (pop_from_cycle_spec order grouped cursor 0 (length order) Ho) as Hpop.
  assert (~ class_empty grouped p) as Hne.
  { unfold class_empty. rewrite Hq. simpl. by destruct queue. }
  destruct (pop_from_cycle _ _ _ _) as [[c [g' cur']]|].
  2: { exfalso. apply Hne, (Hpop d p); [lia|done]. }
  destruct Hpop as (k & p' & queue' & Hk & Ht & Hq' & -> & -> & Hbefore).
  destruct (decide (d < k)) as [Hdk|Hdk].
  { exfalso. apply Hne, (Hbefore d p); [lia|done]. }
  assert (forall j, S (k + j) = d -> turn order (S (cursor + k) mod length order) j = Some p) as Hsame.
  { intros j Hj. rewrite turn_shift. by rewrite Hj. }
  destruct (decide (p' = p)) as [->|Hpp].
  - rewrite Hq in Hq'. simplify_eq. destruct i as [|i].
    { simpl in Hi. simplify_eq. by left. }
    simpl in Hi. right. destruct (decide (k = d)) as [->|Hkd].
    + apply (IH _ _ (length order - 1) queue' i); [|lia|apply queues_insert_eq|done|simpl in *; lia].
      rewrite turn_shift. replace (S (d + (length order - 1))) with (d + length order) by lia.
      by rewrite turn_wrap.
    + apply (IH _ _ (d - k - 1) queue' i);
        [apply Hsame; lia|lia|apply queues_insert_eq|done|simpl in *; lia].
  - assert (k <> d) by congruence. right.
    apply (IH _ _ (d - k - 1) queue i); [apply Hsame; lia|lia| |done|lia].
    by rewrite queues_insert_ne.
Qed.

(** Every call waits in the queue of its class. *)
Definition queues_classed grouped : Prop :=
  forall p queue call, grouped !! p = Some queue -> call ∈ queue -> pb_priority_class call = p.

Lemma pop_sequence_weights fairness weighted_cycle grouped pre rest :
  weighted_cycle <> [] -> queues_classed grouped ->
  cycle_of fairness weighted_cycle = pre ++ rest ->
  (forall p, length (filter (.= p) rest) <= length (default [] (grouped !! p))) ->
  map pb_priority_class (pop_sequence (length rest) fairness weighted_cycle grouped
    (length pre mod length (pre ++ rest))) = rest.
Proof.
  intros Hw. revert pre grouped. induction rest as [|p rest IH]; [done|].
  intros pre grouped Hcl Horder Hcount. cbn [length pop_sequence].
  destruct (pop_next_cycle grouped fairness weighted_cycle
    (length pre mod length (pre ++ p :: rest)) Hw) as [Ho ->].
  rewrite Horder in *. set (n := length (pre ++ p :: rest)).
  assert (length pre < n) as Hlt by (subst n; rewrite length_app; simpl; lia).
  rewrite (Nat.mod_small (length pre) n) by done.
  pose proof (pop_from_cycle_spec (pre ++ p :: rest) grouped (length pre) 0 n Ho) as Hpop.
  assert (turn (pre ++ p :: rest) (length pre) 0 = Some p) as Hturn.
  { unfold turn. rewrite Nat.add_0_r, Nat.mod_small by done. by apply list_lookup_middle. }
  assert (~ class_empty grouped p) as Hne.
  { unfold class_empty. specialize (Hcount p). rewrite filter_cons_True in Hcount by done.
    intros Hnil. rewrite Hnil in Hcount. simpl in Hcount. lia. }
  fold n. destruct (pop_from_cycle _ _ _ _) as [[c [g' cur']]|].
  2: { exfalso. apply Hne, (Hpop 0 p); [lia|done]. }
  destruct Hpop as (k & p' & queue & Hk & Ht & Hq & -> & -> & Hbefore).
  assert (k = 0) as ->.
  { destruct k as [|k]; [done|]. exfalso. apply Hne, (Hbefore 0 p); [lia|done]. }
  rewrite Hturn in Ht. simplify_eq. simpl. f_equal.
  { eapply Hcl; [done|by left]. }
  rewrite Nat.add_0_r.
  replace (S (length pre) mod length (pre ++ p' :: rest)) with
    (length (pre ++ [p']) mod length ((pre ++ [p']) ++ rest))
    by (rewrite !length_app; simpl; f_equal; lia).
  apply IH.
  - intros q queue' call Hq' Hin. destruct (decide (q = p')) as [->|].
    + rewrite queues_insert_eq in Hq'. simplify_eq. eapply Hcl; [done|by right].
    + rewrite queues_insert_ne in Hq' by done. by eapply Hcl.
  - by rewrite <- (assoc (++)).
  - intros q. specialize (Hcount q). destruct (decide (q = p')) as [->|].
    + rewrite filter_cons_True in Hcount by done. rewrite queues_insert_eq. rewrite Hq in Hcount.
      simpl in *. lia.
    + rewrite filter_cons_False in Hcount by done. by rewrite queues_insert_ne.
Qed.

Lemma weighted_cycle_has concurrency p :
  p ∈ build_programmatic_weighted_cycle concurrency.
Proof.
  unfold build_programmatic_weighted_cycle. rewrite !elem_of_app, !elem_of_replicate.
  destruct p; [left|right; left|right; right]; (split; [done|lia]).
Qed.

Lemma cycle_of_has fairness concurrency p :
  p ∈ cycle_of fairness (build_programmatic_weighted_cycle concurrency).
Proof.
  destruct fairness; [|apply weighted_cycle_has]. unfold cycle_of, strict_order.
  destruct p; set_solver.
Qed.

Lemma turn_of_class order cursor p :
  p ∈ order -> exists d, d < length order /\ turn order cursor d = Some p.
Proof.
  intros [i Hi]%list_elem_of_lookup. pose proof (lookup_lt_Some _ _ _ Hi) as Hlt.
  set (n := length order) in *.
  exists ((i + n - cursor mod n) mod n). split; [apply Nat.mod_upper_bound; lia|].
  unfold turn. fold n. rewrite Nat.Div0.add_mod_idemp_r.
  pose proof (Nat.mod_upper_bound cursor n ltac:(lia)).
  rewrite <- Nat.Div0.add_mod_idemp_l.
  replace (cursor mod n + (i + n - cursor mod n)) with (i + 1 * n) by lia.
  rewrite Nat.Div0.mod_add, Nat.mod_small by done. done.
Qed.

(** No pending call starves, under either policy and from any
    position of the cursor: the call at place [i] of its class is dispatched
    among the next [(i + 1) * n] ones, [n] the length of the cycle; and when the
    queues are long enough, one turn of the weighted cycle from its start
    dispatches exactly [high_weight], [normal_weight] and [low_weight] calls of
    the three classes, in this order. *)
Theorem scheduler_fair concurrency grouped cursor p queue i call :
  let cycle := build_programmatic_weighted_cycle concurrency in
  queues_classed grouped ->
  grouped !! p = Some queue -> queue !! i = Some call ->
  call ∈ pop_sequence (S i * length (cycle_of (pc_fairness concurrency) cycle))
           (pc_fairness concurrency) cycle grouped cursor /\
  ((forall q, length (filter (.= q) cycle) <= length (default [] (grouped !! q))) ->
   map pb_priority_class
     (pop_sequence (length cycle) WeightedRoundRobin cycle grouped 0) = cycle).
Proof.
  intros cycle Hcl Hq Hi.
  assert (cycle <> []) as Hne.
  { intros Hnil. pose proof (weighted_cycle_has concurrency p) as Hin. fold cycle in Hin.
    rewrite Hnil in Hin. by apply not_elem_of_nil in Hin. }
  split.
  - destruct (turn_of_class (cycle_of (pc_fairness concurrency) cycle) cursor p) as (d & Hd & Ht).
    { apply cycle_of_has. }
    eapply pop_sequence_reaches; eauto. simpl. lia.
  - intros Hcount.
    rewrite <- (pop_sequence_weights WeightedRoundRobin cycle grouped [] cycle) at 3 by done.
    by rewrite Nat.Div0.mod_0_l.
Qed.
End cycle.

(** ** Queues *)

Definition pending_calls (grouped : call_queues) : list PreparedProgrammaticBatchCall :=
  concat (queue_values grouped).

Lemma queue_values_insert (grouped : call_queues) p queue :
  queue_values (<[p := queue]> grouped) ≡ₚ queue :: queue_values (delete p grouped).
Proof.
  unfold queue_values. rewrite <- (insert_delete_eq grouped p queue).
  rewrite map_to_list_insert by apply lookup_delete_eq. done.
Qed.

Lemma queue_values_lookup (grouped : call_queues) p queue :
  grouped !! p = Some queue -> queue_values grouped ≡ₚ queue :: queue_values (delete p grouped).
Proof. intros Hp. rewrite <- queue_values_insert. by rewrite insert_id. Qed.

#[export] Instance concat_Permutation {A} : Proper ((≡ₚ) ==> (≡ₚ)) (@concat A).
Proof.
  induction 1 as [|x l k _ IH|x y l|l k m _ IH1 _ IH2]; simpl; [done| | |].
  - by rewrite IH.
  - rewrite !(assoc (++)). by rewrite (Permutation_app_comm y x).
  - by rewrite IH1.
Qed.

Lemma pending_calls_insert (grouped : call_queues) p queue :
  pending_calls (<[p := queue]> grouped) ≡ₚ queue ++ pending_calls (delete p grouped).
Proof. unfold pending_calls. rewrite queue_values_insert. reflexivity. Qed.

Lemma pending_calls_lookup (grouped : call_queues) p queue :
  grouped !! p = Some queue -> pending_calls grouped ≡ₚ queue ++ pending_calls (delete p grouped).
Proof. intros Hp. unfold pending_calls. rewrite (queue_values_lookup grouped p queue) by done. reflexivity. Qed.

Lemma pending_programmatic_call_count_length grouped :
  pending_programmatic_call_count grouped = length (pending_calls grouped).
Proof.
  unfold pending_programmatic_call_count, pending_calls.
  induction (queue_values grouped) as [|q l IH]; simpl; [done|]. rewrite length_app. by rewrite <- IH.
Qed.

Lemma has_pending_programmatic_calls_false grouped :
  has_pending_programmatic_calls grouped = false <-> pending_calls grouped = [].
Proof.
  unfold has_pending_programmatic_calls, pending_calls.
  induction (queue_values grouped) as [|q l IH]; simpl; [done|].
  destruct q; simpl; [done|]. split; [done|]. intros [=].
Qed.

(** Popping takes one pending call out. *)
Lemma pop_next_pending concurrency grouped cursor call grouped' cursor' :
  pop_next_programmatic_call grouped (pc_fairness concurrency)
    (build_programmatic_weighted_cycle concurrency) cursor = Some (call, (grouped', cursor')) ->
  pending_calls grouped ≡ₚ call :: pending_calls grouped'.
Proof.
  destruct (pop_next_cycle grouped (pc_fairness concurrency)
    (build_programmatic_weighted_cycle concurrency) cursor) as [Ho ->].
  { intros Hnil. pose proof (weighted_cycle_has concurrency PriorityHigh) as Hin.
    rewrite Hnil in Hin. by apply not_elem_of_nil in Hin. }
  intros Hpop.
  pose proof (pop_from_cycle_spec _ grouped cursor 0
    (length (cycle_of (pc_fairness concurrency) (build_programmatic_weighted_cycle concurrency)))
    Ho) as Hspec.
  rewrite Hpop in Hspec. destruct Hspec as (k & p & queue & _ & _ & Hq & -> & _ & _).
  rewrite (pending_calls_lookup grouped p (call :: queue)) by done.
  by rewrite pending_calls_insert.
Qed.

(** While a call is pending, one can be popped. *)
Lemma pop_next_ready concurrency grouped cursor :
  pop_next_programmatic_call grouped (pc_fairness concurrency)
    (build_programmatic_weighted_cycle concurrency) cursor = None ->
  pending_calls grouped = [].
Proof.
  destruct (pop_next_cycle grouped (pc_fairness concurrency)
    (build_programmatic_weighted_cycle concurrency) cursor) as [Ho ->].
  { intros Hnil. pose proof (weighted_cycle_has concurrency PriorityHigh) as Hin.
    rewrite Hnil in Hin. by apply not_elem_of_nil in Hin. }
  set (order := cycle_of _ _) in *. intros Hpop.
  pose proof (pop_from_cycle_spec order grouped cursor 0 (length order) Ho) as Hspec.
  rewrite Hpop in Hspec.
  assert (forall p queue, grouped !! p = Some queue -> queue = []) as Hempty.
  { intros p queue Hq. destruct (turn_of_class order cursor p) as (d & Hd & Ht).
    { apply cycle_of_has. }
    specialize (Hspec d p ltac:(lia) Ht). unfold class_empty in Hspec. by rewrite Hq in Hspec. }
  unfold pending_calls, queue_values.
  assert (Forall (fun q => q = []) (map_to_list grouped).*2) as Hall.
  { apply Forall_forall. intros q ([p q'] & -> & Hin)%list_elem_of_fmap.
    apply elem_of_map_to_list in Hin. by eapply Hempty. }
  induction Hall as [|q l -> _ IH]; [done|]. exact IH.
Qed.

Lemma group_calls_pending calls :
  pending_calls (group_programmatic_calls_by_priority calls) ≡ₚ calls.
Proof.
  unfold group_programmatic_calls_by_priority.
  set (start := <[PriorityHigh := []]> _).
  assert (pending_calls start ≡ₚ []) as Hstart by done.
  assert (forall p, is_Some (start !! p)) as Hkeys by (intros []; by eexists).
  clearbody start.
  cut (pending_calls (foldl (fun (grouped : call_queues) call =>
         <[pb_priority_class call := default [] (grouped !! pb_priority_class call) ++ [call]]>
           grouped) start calls) ≡ₚ pending_calls start ++ calls).
  { intros ->. by rewrite Hstart. }
  clear Hstart. revert start Hkeys. induction calls as [|call calls IH]; intros start Hkeys; simpl.
  { by rewrite app_nil_r. }
  destruct (Hkeys (pb_priority_class call)) as [queue Hq].
  assert (default [] (start !! pb_priority_class call) = queue) as -> by (by rewrite Hq).
  rewrite IH.
  - rewrite pending_calls_insert, (pending_calls_lookup start _ _ Hq).
    rewrite <- !(assoc (++)). apply Permutation_app_head. simpl.
    by rewrite <- Permutation_middle.
  - intros p. destruct (decide (p = pb_priority_class call)) as [->|].
    + eexists. apply queues_insert_eq.
    + rewrite queues_insert_ne by done. apply Hkeys.
Qed.

(** ** The scheduler loop *)

Section batch.
Context {K : Type} `{!ConnectorHost K}.
Variables (pack_id : string) (token : CapabilityToken).
Variable connector_rate_limits : gmap string ProgrammaticConnectorRateLimit.
Variable connector_circuit_breakers : gmap string ConnectorCircuitBreakerPolicy.
Variables (step_id : string) (concurrency : ProgrammaticConcurrencyPolicy).

Local Abbreviation R := (Runtime K).
Local Abbreviation weighted_cycle := (build_programmatic_weighted_cycle concurrency).
Local Abbreviation future :=
  (batch_future pack_id token connector_rate_limits connector_circuit_breakers step_id).
Local Abbreviation dispatch :=
  (bs_dispatch pack_id token connector_rate_limits connector_circuit_breakers step_id).
Local Abbreviation fill fuel st :=
  (fill_inflight pack_id token connector_rate_limits connector_circuit_breakers fuel step_id
     concurrency weighted_cycle st).
Local Abbreviation loop fuel adaptive st :=
  (batch_loop pack_id token connector_rate_limits connector_circuit_breakers fuel step_id
     concurrency adaptive weighted_cycle st).
Local Abbreviation pop st :=
  (pop_next_programmatic_call (bs_pending st) (pc_fairness concurrency) weighted_cycle
     (bs_fairness_cursor st)).

(** The calls that have not ended. *)
Definition unfinished (st : BatchState (K := K)) : nat :=
  length (pending_calls (bs_pending st)) + length (bs_inflight st).

Lemma fill_inflight_unfinished fuel (st : BatchState) : unfinished (fill fuel st) = unfinished st.
Proof.
  revert st. induction fuel as [|fuel IH]; intros st; simpl; [done|].
  destruct (_ <? _)%Z; [|done].
  destruct (pop st) as [[call [pending cursor]]|] eqn:Hpop; [|done].
  rewrite IH. apply pop_next_pending in Hpop. unfold unfinished; simpl.
  apply Permutation_length in Hpop. rewrite Hpop, length_app. simpl. lia.
Qed.

Lemma fill_inflight_some fuel (st : BatchState) :
  (0 < bs_current_budget st)%Z -> 0 < fuel -> unfinished st <> 0 ->
  length (bs_inflight (fill fuel st)) <> 0.
Proof.
  assert (forall fuel st, length (bs_inflight st) <> 0 ->
    length (bs_inflight (fill fuel st)) <> 0) as Hkeep.
  { clear. intros fuel. induction fuel as [|fuel IH]; intros st Hst; simpl; [done|].
    destruct (_ <? _)%Z; [|done].
    destruct (pop st) as [[call [pending cursor]]|]; [|done].
    apply IH. simpl. rewrite length_app. simpl. lia. }
  intros Hb Hf Hst. destruct fuel as [|fuel]; [lia|]. simpl.
  destruct (inflight_len st <? bs_current_budget st)%Z eqn:Hlt.
  - destruct (pop st) as [[call [pending cursor]]|] eqn:Hpop.
    + apply Hkeep. simpl. rewrite length_app. simpl. lia.
    + apply pop_next_ready in Hpop. unfold unfinished in Hst. rewrite Hpop in Hst. simpl in Hst. lia.
  - apply Z.ltb_ge in Hlt. unfold inflight_len in Hlt. lia.
Qed.

Lemma task_ok_trivial {T A} (t : task T A) : task_ok (fun _ => True) (fun _ => True) t.
Proof.
  induction t as [a|m IH] using task_ind'; simpl; [done|]. intros s _.
  destruct (m s) as [[t'|p] s'] eqn:E; [|done]. split; [done|]. by eapply IH.
Qed.

Lemma poll_next_length {T A} polls (inflight : list (task T A)) s r rest ps s' :
  poll_next polls inflight s = (Returned (r, (rest, ps)), s') ->
  match r with
  | Some _ => S (length rest) = length inflight
  | None => inflight = []
  end.
Proof.
  intros E.
  pose proof (poll_next_ok (fun _ : T => True) (fun (_ : unit) (_ : A) => True) polls inflight
    (replicate (length inflight) tt) s) as H.
  rewrite E in H. destruct H as [_ H]; [|done|].
  { apply Forall2_same_length_lookup_2; [by rewrite length_replicate|]. intros. apply task_ok_trivial. }
  destruct r as [a|]; [|tauto]. destruct H as (i & x & Hi & _ & Hrest).
  apply Forall2_length in Hrest. rewrite <- Hrest. unfold list_take_out.
  apply lookup_lt_Some in Hi. rewrite length_app, length_take, length_drop, length_replicate in *. lia.
Qed.

(** The rule of the loop: an invariant of its variables and of the shared state
    that a dispatch, a wait and the end of a call keep.  With a budget and
    enough rounds, nothing is left at the end. *)
Lemma batch_loop_rule (Inv : BatchState -> R -> Prop) (Panic : R -> Prop) adaptive :
  (forall st s call pending cursor, Inv st s -> (inflight_len st < bs_current_budget st)%Z ->
     pop st = Some (call, (pending, cursor)) -> Inv (dispatch call pending cursor st) s) ->
  (forall st s, Inv st s -> Inv (bs_with_scheduler (count_wait (bs_scheduler st)) st) s) ->
  (forall st s, Inv st s ->
     match poll_next (rt_polls s) (bs_inflight st) s with
     | (Returned (Some r, (rest, polls)), s') =>
         Inv (bs_complete step_id concurrency adaptive r rest st) (rt_set_polls polls s')
     | (Returned (None, _), s') => True
     | (Panicked _, s') => Panic s'
     end) ->
  (forall st s, Inv st s -> (0 < bs_current_budget st)%Z) ->
  forall fuel st s, Inv st s -> unfinished st < fuel ->
  match loop fuel adaptive st s with
  | (Returned st', s') => Inv st' s' /\ unfinished st' = 0
  | (Panicked _, s') => Panic s'
  end.
Proof.
  intros Hfill Hwait Hpoll Hbudget.
  assert (forall fuel st s, Inv st s -> Inv (fill fuel st) s) as Hfills.
  { intros fuel. induction fuel as [|fuel IH]; intros st s Hst; simpl; [done|].
    destruct (inflight_len st <? bs_current_budget st)%Z eqn:Hlt; [|done]. apply Z.ltb_lt in Hlt.
    destruct (pop st) as [[call [pending cursor]]|] eqn:Hpop; [|done].
    apply IH. by apply Hfill. }
  intros fuel. induction fuel as [|fuel IH]; [lia|]. intros st s Hst Hfuel. cbn [batch_loop].
  destruct (has_pending_programmatic_calls (bs_pending st) || negb (length (bs_inflight st) =? 0))
    eqn:Hmore.
  2: { apply orb_false_iff in Hmore as [Hp%has_pending_programmatic_calls_false Hi].
       apply negb_false_iff, Nat.eqb_eq in Hi. split; [done|].
       unfold unfinished. rewrite Hp, Hi. done. }
  assert (unfinished st <> 0) as Hnz.
  { apply orb_true_iff in Hmore as [Hp|Hi].
    - unfold unfinished. destruct (pending_calls (bs_pending st)) eqn:E; [|simpl; lia].
      apply has_pending_programmatic_calls_false in E. congruence.
    - apply negb_true_iff, Nat.eqb_neq in Hi. unfold unfinished. lia. }
  set (n := S (pending_programmatic_call_count (bs_pending st))).
  pose proof (Hfills n st s Hst) as Hst1.
  pose proof (fill_inflight_unfinished n st) as Hun.
  pose proof (fill_inflight_some n st (Hbudget _ _ Hst) ltac:(subst n; lia) Hnz) as Hsome.
  set (st1 := fill n st) in *. cbv zeta.
  rewrite (proj2 (Nat.eqb_neq _ _) Hsome).
  match goal with |- context [if ?c then bs_with_scheduler ?x st1 else st1] =>
    set (st2 := if c then bs_with_scheduler x st1 else st1);
    assert (Inv st2 s /\ unfinished st2 = unfinished st1 /\ bs_inflight st2 = bs_inflight st1)
      as (Hst2 & Hun2 & Hin2) by (subst st2; destruct c; auto); clearbody st2 end.
  unfold bind at 1, gets. unfold bind at 1.
  specialize (Hpoll st2 s Hst2).
  destruct (poll_next (rt_polls s) (bs_inflight st2) s) as [[[r [rest polls]]|p] s'] eqn:E; [|done].
  pose proof (poll_next_length _ _ _ _ _ _ _ E) as Hlen.
  unfold bind, modify; simpl. destruct r as [r|].
  - apply IH; [done|]. unfold unfinished in *. unfold bs_complete.
    destruct (adapt_budget _ _ _ _ _ _) as [[[b c] i'] d]. simpl. lia.
  - exfalso. apply Hsome. by rewrite <- Hin2, Hlen.
Qed.

(** ** What a batch does *)

Definition call_key (call : PreparedProgrammaticBatchCall) : string * string * string :=
  (pb_call_id call, pb_connector_name call, pb_operation call).

Lemma batch_future_ok call :
  task_ok (fun _ : R => True) (fun r : call_result => r.1 = call_key call) (future call).
Proof.
  unfold batch_future. eapply task_ok_bind; [apply task_ok_trivial|]. by intros r _.
Qed.

(** The bounds of a validated policy. *)
Definition in_flight_bounds : Prop :=
  (1 <= pc_min_in_flight concurrency <= pc_max_in_flight concurrency)%Z /\
  (pc_max_in_flight concurrency <= u64_max)%Z /\
  (0 <= pc_adaptive_upshift_step concurrency)%Z /\
  (0 <= pc_adaptive_downshift_step concurrency)%Z.

Lemma adapt_budget_bounds adaptive success code budget successes :
  in_flight_bounds ->
  (pc_min_in_flight concurrency <= budget <= pc_max_in_flight concurrency)%Z ->
  let '(budget', _, _, _) := adapt_budget concurrency adaptive success code budget successes in
  (pc_min_in_flight concurrency <= budget' <= pc_max_in_flight concurrency)%Z.
Proof.
  intros (? & ? & ? & ?) Hb. unfold adapt_budget, u64_saturating_add.
  repeat case_match; simplify_eq; lia.
Qed.

Record batch_inv (calls : list PreparedProgrammaticBatchCall) (st : BatchState (K := K))
    (flying : list PreparedProgrammaticBatchCall)
    (finished : list (PreparedProgrammaticBatchCall * call_result)) : Prop := {
  bi_flying : Forall2 (fun call =>
    task_ok (fun _ : R => True) (fun r : call_result => r.1 = call_key call))
    flying (bs_inflight st);
  bi_calls : pending_calls (bs_pending st) ++ flying ++ finished.*1 ≡ₚ calls;
  bi_finished : Forall (fun f => f.2.1 = call_key f.1 /\
    bs_reports_by_call st !! pb_call_id f.1 = Some (report_of f.2)) finished;
  bi_order : ct_dispatch_order (bs_scheduler st) ≡ₚ map pb_call_id (flying ++ finished.*1);
  bi_budget : (pc_min_in_flight concurrency <= bs_current_budget st
                 <= pc_max_in_flight concurrency)%Z;
  bi_final : ct_final_in_flight_budget (bs_scheduler st) = bs_current_budget st;
  bi_peak : (0 <= ct_peak_in_flight (bs_scheduler st) <= pc_max_in_flight concurrency)%Z;
  bi_error : match bs_first_error st with
             | None => Forall (fun f => is_ok f.2.2 = true) finished
             | Some e => exists f error, f ∈ finished /\ f.2.2 = Err error /\
                 e = batch_call_failed step_id (pb_call_id f.1) error
             end;
}.

Lemma batch_inv_dispatch calls st flying finished call pending cursor :
  batch_inv calls st flying finished -> (inflight_len st < bs_current_budget st)%Z ->
  pop st = Some (call, (pending, cursor)) ->
  batch_inv calls (dispatch call pending cursor st) (flying ++ [call]) finished.
Proof.
  intros [] Hlt Hpop%pop_next_pending. split; simpl; try done.
  - apply Forall2_app; [done|]. constructor; [apply batch_future_ok|done].
  - rewrite <- bi_calls0, Hpop, <- (assoc (++) flying [call]). simpl.
    rewrite <- (Permutation_middle flying). by rewrite <- Permutation_middle.
  - rewrite bi_order0, <- (assoc (++) flying [call]), !map_app. simpl.
    rewrite <- (Permutation_middle (map pb_call_id flying)). symmetry.
    apply Permutation_cons_append.
  - rewrite length_app. unfold inflight_len in Hlt. simpl. lia.
Qed.

Lemma list_take_out_Permutation {A} (l : list A) i x :
  l !! i = Some x -> l ≡ₚ x :: list_take_out i l.
Proof.
  intros Hi. rewrite <- (take_drop_middle l i x) at 1 by done. unfold list_take_out.
  by rewrite Permutation_middle.
Qed.

Lemma batch_inv_complete calls st flying finished adaptive i call r rest :
  in_flight_bounds -> NoDup (map pb_call_id calls) ->
  batch_inv calls st flying finished ->
  flying !! i = Some call -> r.1 = call_key call ->
  Forall2 (fun call => task_ok (fun _ : R => True) (fun r : call_result => r.1 = call_key call))
    (list_take_out i flying) rest ->
  batch_inv calls (bs_complete step_id concurrency adaptive r rest st)
    (list_take_out i flying) ((call, r) :: finished).
Proof.
  intros Hb Hnd [] Hi Hr Hrest. pose proof (list_take_out_Permutation flying i call Hi) as Hp.
  unfold bs_complete.
  pose proof (adapt_budget_bounds adaptive (is_ok r.2)
    match r.2 with Ok _ => None | Err error => Some (classify_connector_error_code error) end
    (bs_current_budget st) (bs_consecutive_successes st) Hb bi_budget0) as Hbudget.
  destruct (adapt_budget _ _ _ _ _ _) as [[[budget successes] increases] reductions].
  assert (forall f, f ∈ finished -> pb_call_id f.1 <> pb_call_id call) as Hother.
  { intros f Hf Heq. rewrite <- bi_calls0, Hp in Hnd. rewrite map_app in Hnd.
    apply NoDup_app in Hnd as (_ & _ & Hnd). simpl in Hnd. apply NoDup_cons in Hnd as [Hnd _].
    apply Hnd. rewrite map_app, elem_of_app. right. apply list_elem_of_In, in_map_iff.
    exists f.1. split; [done|]. apply list_elem_of_In, list_elem_of_fmap. by exists f. }
  split; simpl; try done.
  - rewrite <- bi_calls0. apply Permutation_app_head. rewrite <- Permutation_middle. symmetry.
    exact (Permutation_app_tail finished.*1 Hp).
  - rewrite Hr. unfold call_key at 1; simpl. constructor; simpl.
    + split; [done|]. by rewrite lookup_insert_eq.
    + apply Forall_forall. intros f Hf. rewrite Forall_forall in bi_finished0.
      destruct (bi_finished0 f Hf) as [? ?]. split; [done|].
      rewrite lookup_insert_ne; [done|]. intros Heq. by apply (Hother f Hf).
  - rewrite bi_order0. apply Permutation_map. rewrite <- Permutation_middle.
    exact (Permutation_app_tail finished.*1 Hp).
  - destruct (bs_first_error st) as [e|].
    + destruct bi_error0 as (f & error & Hf & He & ->). exists f, error.
      split_and!; try done. by right.
    + destruct r as [key [d|error]]; simpl in *.
      * by constructor.
      * subst key. exists (call, (call_key call, Err error)), error. split_and!; [by left|done|done].
Qed.

Lemma batch_loop_completes calls adaptive fuel st flying finished s :
  in_flight_bounds -> NoDup (map pb_call_id calls) ->
  batch_inv calls st flying finished -> unfinished st < fuel ->
  match loop fuel adaptive st s with
  | (Returned st', s') => exists finished', batch_inv calls st' [] finished' /\
      finished'.*1 ≡ₚ calls
  | (Panicked _, s') => True
  end.
Proof.
  intros Hb Hnd Hst Hfuel.
  pose proof (batch_loop_rule
    (fun st _ => exists flying finished, batch_inv calls st flying finished) (fun _ => True)
    adaptive) as Hrule.
  specialize (Hrule ltac:(intros ? ? ? ? ? (? & ? & ?) ? ?; eexists _, _; by eapply batch_inv_dispatch)).
  specialize (Hrule ltac:(intros ? ? (fl & fi & []); exists fl, fi; by split)).
  specialize (Hrule ltac:(intros st1 s1 (fl & fi & Hinv);
    pose proof (poll_next_ok (fun _ => True) (fun call (r : call_result) => r.1 = call_key call)
      (rt_polls s1) (bs_inflight st1) fl s1 (bi_flying _ _ _ _ Hinv) Logic.I) as Hpoll;
    destruct (poll_next _ _ _) as [[[[r|] [rest polls]]|p] s1']; [|done|done];
    destruct Hpoll as (_ & i & call & Hi & Hr & Hrest); eexists _, _;
    by eapply batch_inv_complete)).
  specialize (Hrule ltac:(intros st1 s1 (fl & fi & []); destruct Hb; lia)).
  specialize (Hrule fuel st s ltac:(by exists flying, finished) Hfuel).
  destruct (loop fuel adaptive st s) as [[st'|p] s']; [|done].
  destruct Hrule as [(fl & fi & Hinv) Hun]. pose proof Hinv as []. unfold unfinished in Hun.
  assert (fl = []) as ->.
  { apply Forall2_length in bi_flying0. apply nil_length_inv. lia. }
  exists fi. split; [done|]. rewrite <- bi_calls0.
  by rewrite (nil_length_inv (pending_calls (bs_pending st'))) by lia.
Qed.

(** Every call of a list has its report, about a success unless the batch goes
    on after errors. *)
Definition reported (continue_on_error : bool) (reports : gmap string json)
    (calls : list PreparedProgrammaticBatchCall) : Prop :=
  Forall (fun call => exists dispatch,
    reports !! pb_call_id call = Some (report_of (call_key call, dispatch)) /\
    (continue_on_error = false -> is_ok dispatch = true)) calls.

(** What the serial branch leaves, [earlier] being the calls already reported. *)
Definition serial_post (continue_on_error : bool)
    (earlier calls : list PreparedProgrammaticBatchCall) (counters : BatchCounters)
    (o : outcome (result (gmap string json * BatchCounters) string) * R) : Prop :=
  match o with
  | (Returned (Ok (reports, counters')), s') =>
      reported continue_on_error reports (earlier ++ calls) /\
      ct_dispatch_order counters' = ct_dispatch_order counters ++ map pb_call_id calls /\
      (ct_peak_in_flight counters' = ct_peak_in_flight counters \/ ct_peak_in_flight counters' = 1%Z)
  | (Returned (Err e), s') => continue_on_error = false /\
      exists call error, call ∈ calls /\ e = batch_call_failed step_id (pb_call_id call) error
  | (Panicked _, s') => True
  end.

Lemma reported_insert continue_on_error reports earlier call dispatch :
  NoDup (map pb_call_id (earlier ++ [call])) ->
  reported continue_on_error reports earlier ->
  (continue_on_error = false -> is_ok dispatch = true) ->
  reported continue_on_error (<[pb_call_id call := report_of (call_key call, dispatch)]> reports)
    (earlier ++ [call]).
Proof.
  intros Hnd Hall Hok. apply Forall_app; split.
  - apply Forall_forall. intros c Hc. unfold reported in Hall. rewrite Forall_forall in Hall.
    destruct (Hall c Hc) as (d & Hd & ?). exists d. split; [|done].
    rewrite lookup_insert_ne; [done|]. intros Heq.
    rewrite map_app in Hnd. apply NoDup_app in Hnd as (_ & Hnd & _). apply (Hnd (pb_call_id c)).
    + by apply list_elem_of_fmap_2.
    + rewrite <- Heq. by left.
  - constructor; [|done]. exists dispatch. split; [|done]. apply lookup_insert_eq.
Qed.

Lemma serial_post_next continue_on_error earlier call calls counters o :
  serial_post continue_on_error (earlier ++ [call]) calls
    (count_peak 1 (count_dispatch call counters)) o ->
  serial_post continue_on_error earlier (call :: calls) counters o.
Proof.
  destruct o as [[[[r c]|e]|p] s']; simpl; [| |done].
  - intros (Hreports & Horder & Hpeak). rewrite (cons_middle call earlier calls), (assoc (++)).
    split_and!; [done| |].
    + rewrite Horder. by rewrite <- (assoc (++)).
    + right. by destruct Hpeak as [->| ->].
  - intros (? & c & error & Hc & ->). split; [done|]. exists c, error. split; [by right|done].
Qed.

Lemma serial_calls_completes continue_on_error calls earlier reports counters s :
  NoDup (map pb_call_id (earlier ++ calls)) -> reported continue_on_error reports earlier ->
  serial_post continue_on_error earlier calls counters
    (serial_calls pack_id token connector_rate_limits connector_circuit_breakers step_id
       continue_on_error calls reports counters s).
Proof.
  revert earlier reports counters s. induction calls as [|call calls IH];
    intros earlier reports counters s Hnd Hall.
  { simpl. rewrite !app_nil_r. auto. }
  cbn [serial_calls]. unfold bind at 1.
  pose proof (run_task_ok _ _ _ s (batch_future_ok call) Logic.I) as Hrun.
  destruct (run_task (future call) s) as [[[key dispatch]|p] s'] eqn:E; [|done].
  simpl in Hrun. destruct Hrun as [_ ->].
  rewrite (cons_middle call earlier calls), (assoc (++)) in Hnd.
  assert (NoDup (map pb_call_id (earlier ++ [call]))) as Hnd1.
  { rewrite map_app in Hnd. by apply NoDup_app in Hnd as (? & _ & _). }
  pose proof (fun Hok => reported_insert continue_on_error reports earlier call dispatch Hnd1 Hall Hok)
    as Hins.
  destruct dispatch as [d|error]; cbn [snd].
  - apply serial_post_next, IH; auto.
  - destruct continue_on_error; [by apply serial_post_next, IH; auto|]. simpl. split; [done|].
    exists call, error. split; [by left|done].
Qed.

Lemma reports_in_order (P : PreparedProgrammaticBatchCall -> json -> Prop) calls
    (reports : gmap string json) :
  Forall (fun call => exists report, reports !! pb_call_id call = Some report /\ P call report) calls ->
  Forall2 P calls (omap (fun call_id => reports !! call_id) (map pb_call_id calls)).
Proof.
  induction 1 as [|call calls (report & Hr & HP) _ IH]; simpl; [done|].
  rewrite Hr. by constructor.
Qed.

(** When nothing is in flight any more, the reports of the calls. *)
Lemma finished_reports calls st finished continue_on_error :
  batch_inv calls st [] finished -> finished.*1 ≡ₚ calls ->
  (continue_on_error = false -> bs_first_error st = None) ->
  Forall2 (fun call report => exists dispatch, report = report_of (call_key call, dispatch) /\
    (continue_on_error = false -> is_ok dispatch = true)) calls
    (omap (fun call_id => bs_reports_by_call st !! call_id) (map pb_call_id calls)).
Proof.
  intros [] Hfin Hnone. apply reports_in_order, Forall_forall. intros call Hcall.
  rewrite <- Hfin in Hcall. apply list_elem_of_fmap in Hcall as ([c [key d]] & -> & Hc).
  rewrite Forall_forall in bi_finished0. destruct (bi_finished0 _ Hc) as [Hk Hr].
  simpl in *. subst key. eexists. split; [exact Hr|]. exists d. split; [done|].
  intros Hcont. rewrite (Hnone Hcont), Forall_forall in bi_error0. by apply (bi_error0 _ Hc).
Qed.

(** C26 (functional). A batch with distinct call ids ends, for every order in
    which its futures are resumed and every answer of the kernel, in one of two
    ways (a panic of the kernel aside): with one report for every call, in the
    order of the calls, each about its call, every call dispatched once, at most
    [max_in_flight] at a time and the final budget between one and
    [max_in_flight]; or, unless it goes on after errors, with the error of one
    of its calls. *)
Theorem batch_completes parallel continue_on_error calls s :
  in_flight_bounds -> NoDup (map pb_call_id calls) ->
  match execute_programmatic_batch_calls pack_id token connector_rate_limits
          connector_circuit_breakers step_id parallel continue_on_error calls concurrency s with
  | (Returned (Ok (reports, summary)), s') =>
      let counters := es_counters summary in
      Forall2 (fun call report => exists dispatch,
        report = report_of (call_key call, dispatch) /\
        (continue_on_error = false -> is_ok dispatch = true)) calls reports /\
      ct_dispatch_order counters ≡ₚ map pb_call_id calls /\
      (0 <= ct_peak_in_flight counters <= pc_max_in_flight concurrency)%Z /\
      (1 <= ct_final_in_flight_budget counters <= pc_max_in_flight concurrency)%Z
  | (Returned (Err e), s') => continue_on_error = false /\
      exists call error, call ∈ calls /\ e = batch_call_failed step_id (pb_call_id call) error
  | (Panicked _, s') => True
  end.
Proof.
  intros Hb Hnd. pose proof Hb as (Hmin & Hmax & _).
  unfold execute_programmatic_batch_calls. destruct (parallel && (1 <? length calls)).
  - unfold bind at 1. match goal with |- context [batch_loop _ _ _ _ ?f _ _ ?a _ ?st0 s] =>
      pose proof (batch_loop_completes calls a f st0 [] [] s Hb Hnd) as Hloop end.
    match type of Hloop with ?P -> _ => assert P as Hinv end.
    { split; simpl; try done; try lia. rewrite app_nil_r. apply group_calls_pending. }
    specialize (Hloop Hinv). clear Hinv.
    match type of Hloop with ?P -> _ => assert P as Hfuel end.
    { unfold unfinished; simpl. rewrite (group_calls_pending calls). lia. }
    specialize (Hloop Hfuel). clear Hfuel.
    destruct (batch_loop _ _ _ _ _ _ _ _ _ _ s) as [[st'|p] s']; [|done].
    destruct Hloop as (finished & Hst & Hfin).
    pose proof (finished_reports calls st' finished continue_on_error Hst Hfin) as Hall.
    destruct Hst.
    destruct (bs_first_error st') as [e|] eqn:Herr; [destruct continue_on_error|]; simpl.
    + split_and!; [by apply Hall| |lia..]. rewrite bi_order0. by apply Permutation_map.
    + split; [done|]. destruct bi_error0 as (f & error & Hf & _ & ->).
      exists f.1, error. split; [|done]. rewrite <- Hfin. by apply list_elem_of_fmap_2.
    + split_and!; [by apply Hall| |lia..]. rewrite bi_order0. by apply Permutation_map.
  - unfold try_bind, bind at 1.
    pose proof (serial_calls_completes continue_on_error calls [] ∅ BatchCounters_new s Hnd) as Hser.
    specialize (Hser ltac:(constructor)). unfold serial_post in Hser.
    destruct (serial_calls _ _ _ _ _ _ calls ∅ BatchCounters_new s) as [[[[r c]|e]|p] s'];
      [|done|done].
    destruct Hser as (Hreports & Horder & Hpeak). simpl in *. split_and!; try lia.
    + apply reports_in_order. eapply Forall_impl; [exact Hreports|].
      intros call (d & Hd & Hok). eexists. split; [exact Hd|]. by exists d.
    + by rewrite Horder.
Qed.
End batch.
