(* ===== verification/ProgrammaticRun.v ===== *)
(** * Programmatic workflows

    The whole of [execute_programmatic_tool_call]: what reaches the kernel.  A
    host that records the commands it is given shows, for every workflow, every
    interleaving of its batches and every outcome, how many there are, for which
    connectors and under whose name.  With the kernel for host, the theorems of
    the kernel apply to each of them. *)

From S2P Require Import Prelude RustStr Contracts Policy Planes AuditSinks Json.
From S2P Require Import Kernel KernelGate KernelRuns Async Circuit Template Programmatic.
From S2P Require Import ProgrammaticBatch.

(** ** Commands and retries *)

(** What a command that reaches the kernel looks like. *)
Definition command_good (allowed_connectors : gset string) (caller : string)
    (command : ConnectorCommand) : Prop :=
  (allowed_connectors = ∅ \/ cc_connector_name command ∈ allowed_connectors) /\
  exists meta, json_get "_loong" (cc_payload command) = Some (JObject meta) /\
    fields_get "caller" meta = Some (JString caller) /\
    fields_get "mode" meta = Some (JString "programmatic_tool_call").

(** A retry policy, or the default one, makes at most this many attempts. *)
Definition retry_within (attempts : nat) (retry : option ProgrammaticRetryPolicy) : Prop :=
  match retry with
  | Some policy => Z.to_nat (rp_max_attempts policy) <= attempts
  | None => 1 <= attempts
  end.

Definition step_within (attempts : nat) (step : ProgrammaticStep) : Prop :=
  match step with
  | ConnectorCall _ _ _ _ retry _ _ => retry_within attempts retry
  | ConnectorBatch _ _ _ calls => Forall (fun call => retry_within attempts (bc_retry call)) calls
  | _ => True
  end.

Lemma validate_retry_policy_within attempts retry step_id call_id policy :
  retry_within attempts retry -> validate_retry_policy retry step_id call_id = Ok policy ->
  Z.to_nat (rp_max_attempts policy) <= attempts.
Proof.
  unfold validate_retry_policy. destruct retry as [rp|]; simpl; intros Hw;
    repeat case_match; try done; intros [= <-]; done.
Qed.

Lemma command_good_attach allowed caller name operation caps payload step_id index call_id :
  allowed = ∅ \/ name ∈ allowed ->
  command_good allowed caller {|
    cc_connector_name := name; cc_operation := operation; cc_required_capabilities := caps;
    cc_payload := attach_programmatic_payload_provenance payload caller step_id index call_id |}.
Proof.
  intros Hallowed. split; [done|].
  destruct (attach_provenance_meta payload caller step_id index call_id)
    as (meta & Hmeta & Hcaller & Hmode & _). by exists meta.
Qed.

(** ** What a host keeps *)

Section run.
Context {K : Type} `{!ConnectorHost K} `{!FloatFormat}.
Local Abbreviation R := (Runtime K).
Variables (pack_id : string) (token : CapabilityToken).
Variable connector_rate_limits : gmap string ProgrammaticConnectorRateLimit.
Variable connector_circuit_breakers : gmap string ConnectorCircuitBreakerPolicy.

(** An invariant [J] of the kernel that commands satisfying [P] keep, and a
    measure of it that a command increases by at most one. *)
Variables (P : ConnectorCommand -> Prop) (J : K -> Prop) (cost : K -> nat).
Hypothesis HJ : forall command k, P command -> J k ->
  J (host_execute_connector_core pack_id token (Some (cc_connector_name command)) command k).2.
Hypothesis Hcost : forall command k,
  cost (host_execute_connector_core pack_id token (Some (cc_connector_name command)) command k).2
    <= cost k + 1.

Definition keeps (r : R) : Prop := J (rt_kernel r).

Definition sent_count (r : R) : nat := cost (rt_kernel r).

(** A segment that does not touch the kernel. *)
Definition leaves_kernel {A} (m : M R A) : Prop := forall r, rt_kernel (m r).2 = rt_kernel r.

Lemma leaves_kernel_bind {A B} (m : M R A) (f : A -> M R B) :
  leaves_kernel m -> (forall a, leaves_kernel (f a)) -> leaves_kernel (bind m f).
Proof.
  intros Hm Hf r. unfold bind. specialize (Hm r). destruct (m r) as [[a|p] r']; simpl in *; [|done].
  by rewrite Hf.
Qed.

Lemma leaves_kernel_ret {A} (a : A) : leaves_kernel (ret a).
Proof. by intros r. Qed.

Lemma leaves_kernel_gets {A} (f : R -> A) : leaves_kernel (gets f).
Proof. by intros r. Qed.

Lemma leaves_kernel_now : leaves_kernel instant_now.
Proof. intros r. unfold instant_now. by destruct (rt_elapsed r). Qed.

Lemma leaves_kernel_modify (f : R -> R) :
  (forall r, rt_kernel (f r) = rt_kernel r) -> leaves_kernel (modify f).
Proof. intros Hf r. apply Hf. Qed.

(** A future that only runs such segments. *)
Fixpoint task_leaves {A} (t : task R A) : Prop :=
  match t with
  | TDone a => True
  | TStep m => forall r, rt_kernel (m r).2 = rt_kernel r /\
      match m r with (Returned t', _) => task_leaves t' | (Panicked _, _) => True end
  end.

Lemma task_leaves_lift {A} (m : M R A) : leaves_kernel m -> task_leaves (tlift m).
Proof.
  intros Hm r. specialize (Hm r). unfold bind. by destruct (m r) as [[a|p] r'].
Qed.

Lemma task_leaves_bind {A B} (t : task R A) (f : A -> task R B) :
  task_leaves t -> (forall a, task_leaves (f a)) -> task_leaves (tbind t f).
Proof.
  intros Ht Hf. induction t as [a|m IH] using task_ind'; simpl in *; [done|].
  intros r. destruct (Ht r) as [Hk Ht']. destruct (m r) as [[t'|p] r'] eqn:E; simpl in *; [|done].
  split; [done|]. by eapply IH.
Qed.

Lemma task_leaves_ok {A} (t : task R A) :
  task_leaves t -> task_ok (keeps) (fun _ => True) t.
Proof.
  induction t as [a|m IH] using task_ind'; simpl; [done|]. intros Ht r Hr.
  destruct (Ht r) as [Hk Ht'].
  assert (keeps (m r).2) as Hr' by (unfold keeps in *; by rewrite Hk).
  destruct (m r) as [[t'|p] r'] eqn:E; simpl in *; [|done]. split; [done|]. by eapply IH.
Qed.

Lemma task_leaves_cost {A} (t : task R A) : task_leaves t -> task_cost sent_count 0 t.
Proof.
  induction t as [a|m IH] using task_ind'; simpl; [done|]. intros Ht r.
  destruct (Ht r) as [Hk Ht'].
  assert (sent_count (m r).2 = sent_count r) as Hc by (unfold sent_count; by rewrite Hk).
  destruct (m r) as [[t'|p] r'] eqn:E; simpl in *; [|lia]. exists 0. split_and!; [done|lia|].
  by eapply IH.
Qed.

Ltac leaves :=
  repeat first
    [ apply task_leaves_lift | apply leaves_kernel_bind | apply leaves_kernel_ret
    | apply leaves_kernel_gets | apply leaves_kernel_now
    | apply leaves_kernel_modify; done | intros ? | progress case_match | done ].

Lemma sleep_leaves duration : task_leaves (sleep duration).
Proof. unfold sleep. apply task_leaves_bind; [|intros ?]; unfold wake_at; leaves. Qed.

Lemma rate_limit_leaves connector_name :
  task_leaves (apply_programmatic_rate_limit (K := K) connector_name
    connector_rate_limits).
Proof.
  unfold apply_programmatic_rate_limit. case_match; [|done].
  apply task_leaves_bind; [unfold reserve_rate_slot; leaves|]. intros wait.
  apply task_leaves_bind; [|done]. case_match; [done|]. apply sleep_leaves.
Qed.

Lemma acquire_leaves connector_name step_id call_id :
  task_leaves (acquire_programmatic_circuit_slot (K := K) connector_name
    connector_circuit_breakers step_id call_id).
Proof. unfold acquire_programmatic_circuit_slot. case_match; [|done]. leaves. Qed.

Lemma record_leaves connector_name success :
  task_leaves (record_programmatic_circuit_outcome (K := K) connector_name
    success connector_circuit_breakers).
Proof. unfold record_programmatic_circuit_outcome. case_match; [|done]. leaves. Qed.

(** ** One invocation *)

Lemma dispatch_connector_keeps command r :
  P command -> keeps r -> keeps (dispatch_connector pack_id token command r).2.
Proof.
  intros HP Hr. unfold dispatch_connector, zoom, keeps in *. pose proof (HJ command _ HP Hr) as Hk.
  by destruct (host_execute_connector_core _ _ _ _ _) as [o k].
Qed.

Lemma dispatch_connector_cost command r :
  sent_count (dispatch_connector pack_id token command r).2 <= sent_count r + 1.
Proof.
  unfold dispatch_connector, zoom, sent_count. pose proof (Hcost command (rt_kernel r)) as Hk.
  by destruct (host_execute_connector_core _ _ _ _ _) as [o k].
Qed.

Lemma invoke_attempts_ok left attempt command retry_policy
    step_id call_id priority_class phase backoff rate last_error :
  P command ->
  task_ok (keeps) (fun _ => True)
    (invoke_attempts pack_id token connector_rate_limits connector_circuit_breakers left attempt
       command retry_policy step_id call_id priority_class phase backoff rate last_error).
Proof.
  intros HP. revert attempt backoff rate last_error. induction left as [|left IH]; [done|].
  intros attempt backoff rate last_error. cbn [invoke_attempts].
  eapply task_ok_bind; [apply task_leaves_ok, rate_limit_leaves|]. intros [waited|e] _; [|done].
  eapply (task_ok_bind _ (fun _ => True)).
  - apply task_ok_lift. intros r Hr. pose proof (dispatch_connector_keeps command r HP Hr) as Hr'.
    by destruct (dispatch_connector pack_id token command r) as [[a|p] r'].
  - intros [d|error] _.
    + eapply task_ok_bind; [apply task_leaves_ok, record_leaves|done].
    + cbv zeta. case_match.
      * eapply task_ok_bind; [apply task_leaves_ok, record_leaves|done].
      * eapply task_ok_bind; [apply task_leaves_ok|intros _ _; apply IH].
        case_match; [apply sleep_leaves|done].
Qed.

Lemma invoke_attempts_cost left attempt command retry_policy step_id call_id priority_class phase
    backoff rate last_error :
  task_cost sent_count left
    (invoke_attempts pack_id token connector_rate_limits connector_circuit_breakers left attempt
       command retry_policy step_id call_id priority_class phase backoff rate last_error).
Proof.
  revert attempt backoff rate last_error. induction left as [|left IH]; [done|].
  intros attempt backoff rate last_error. cbn [invoke_attempts].
  apply (task_cost_bind _ 0 (S left)); [apply task_leaves_cost, rate_limit_leaves|].
  intros [waited|e]; [|done].
  apply (task_cost_bind _ 1 left).
  - apply task_cost_lift. apply dispatch_connector_cost.
  - intros [d|error].
    + eapply task_cost_le; [apply Nat.le_0_l|].
      apply task_leaves_cost, task_leaves_bind; [apply record_leaves|done].
    + cbv zeta. case_match.
      * eapply task_cost_le; [apply Nat.le_0_l|].
        apply task_leaves_cost, task_leaves_bind; [apply record_leaves|done].
      * apply (task_cost_bind _ 0 left); [|intros _; apply IH]. apply task_leaves_cost.
        case_match; [apply sleep_leaves|done].
Qed.

Section sends.
Variable attempts : nat.

Definition call_command (call : PreparedProgrammaticBatchCall) : ConnectorCommand := {|
  cc_connector_name := pb_connector_name call;
  cc_operation := pb_operation call;
  cc_required_capabilities := pb_required_capabilities call;
  cc_payload := pb_payload call |}.

(** A prepared call whose command is good and that is tried often enough only. *)
Definition call_good (call : PreparedProgrammaticBatchCall) : Prop :=
  P (call_command call) /\ Z.to_nat (rp_max_attempts (pb_retry_policy call)) <= attempts.

Lemma invoke_ok connector_name operation caps payload retry_policy step_id call_id priority_class :
  P {| cc_connector_name := connector_name; cc_operation := operation;
       cc_required_capabilities := caps; cc_payload := payload |} ->
  task_ok (keeps) (fun _ => True)
    (invoke_programmatic_connector_with_resilience pack_id token connector_rate_limits
       connector_circuit_breakers connector_name operation caps payload retry_policy step_id call_id
       priority_class).
Proof.
  intros HP. unfold invoke_programmatic_connector_with_resilience.
  eapply task_ok_bind; [apply task_leaves_ok, acquire_leaves|]. intros [phase|e] _; [|done].
  by apply invoke_attempts_ok.
Qed.

Lemma invoke_cost connector_name operation caps payload retry_policy step_id call_id priority_class :
  Z.to_nat (rp_max_attempts retry_policy) <= attempts ->
  task_cost sent_count attempts
    (invoke_programmatic_connector_with_resilience pack_id token connector_rate_limits
       connector_circuit_breakers connector_name operation caps payload retry_policy step_id call_id
       priority_class).
Proof.
  intros Ha. unfold invoke_programmatic_connector_with_resilience.
  apply (task_cost_bind _ 0 attempts); [apply task_leaves_cost, acquire_leaves|].
  intros [phase|e]; [|done]. eapply task_cost_le; [exact Ha|]. apply invoke_attempts_cost.
Qed.

Lemma batch_future_sends step_id call :
  call_good call ->
  task_ok (keeps) (fun _ => True)
    (batch_future pack_id token connector_rate_limits connector_circuit_breakers step_id call) /\
  task_cost sent_count attempts
    (batch_future pack_id token connector_rate_limits connector_circuit_breakers step_id call).
Proof.
  intros [HP Ha]. unfold batch_future. split.
  - eapply task_ok_bind; [by apply invoke_ok|done].
  - rewrite <- (Nat.add_0_r attempts). apply task_cost_bind; [by apply invoke_cost|done].
Qed.

(** The state keeps its promise about the commands, at most [n] of them new. *)
Definition sends (n : nat) (r r' : R) : Prop :=
  (keeps r -> keeps r') /\ sent_count r' <= sent_count r + n.

Lemma sends_le n n' r r' : n <= n' -> sends n r r' -> sends n' r r'.
Proof. intros Hn [? ?]. split; [done|lia]. Qed.

Lemma sends_refl r : sends 0 r r.
Proof. split; [done|lia]. Qed.

Lemma sends_trans n m r r' r'' : sends n r r' -> sends m r' r'' -> sends (n + m) r r''.
Proof. intros [? ?] [? ?]. split; [auto|lia]. Qed.

Lemma run_task_sends {A} n (t : task R A) r :
  task_ok (keeps) (fun _ => True) t -> task_cost sent_count n t ->
  sends n r (run_task t r).2.
Proof.
  intros Hok Hone. split; [|by apply run_task_cost]. intros Hr.
  pose proof (run_task_ok _ _ _ r Hok Hr) as Hrun.
  destruct (run_task t r) as [[a|p] r']; [by destruct Hrun|done].
Qed.

Lemma serial_calls_sends step_id continue_on_error calls reports counters r :
  Forall call_good calls ->
  sends (attempts * length calls) r
    (serial_calls pack_id token connector_rate_limits connector_circuit_breakers step_id
       continue_on_error calls reports counters r).2.
Proof.
  intros Hall. revert reports counters r.
  induction Hall as [|call calls Hcall Hall IH]; intros reports counters r.
  { eapply sends_le; [|apply sends_refl]. lia. }
  cbn [serial_calls]. unfold bind at 1. destruct (batch_future_sends step_id call Hcall) as [Hok Hone].
  pose proof (run_task_sends attempts _ r Hok Hone) as Hrun.
  destruct (run_task _ r) as [[[key d]|p] r1]; cbn [snd] in *.
  2: { eapply sends_le; [|exact Hrun]. cbn [length]. lia. }
  replace (attempts * length (call :: calls)) with (attempts + attempts * length calls)
    by (cbn [length]; lia).
  destruct d as [d|error]; [by eapply sends_trans|].
  destruct continue_on_error; [by eapply sends_trans|].
  eapply sends_le; [|exact Hrun]. lia.
Qed.

(** The scheduler's variables promise at most [bound] commands in all. *)
Definition loop_sends (bound : nat) (concurrency : ProgrammaticConcurrencyPolicy)
    (st : BatchState (K := K)) (r : R) : Prop :=
  keeps r /\
  Forall (task_ok (keeps) (fun _ => True)) (bs_inflight st) /\
  Forall call_good (pending_calls (bs_pending st)) /\
  (pc_min_in_flight concurrency <= bs_current_budget st <= pc_max_in_flight concurrency)%Z /\
  exists ns, Forall2 (task_cost sent_count) ns (bs_inflight st) /\
    sent_count r + sum_list ns + attempts * length (pending_calls (bs_pending st)) <= bound.

Lemma loop_sends_poll bound concurrency step_id adaptive st r :
  in_flight_bounds concurrency -> loop_sends bound concurrency st r ->
  match poll_next (rt_polls r) (bs_inflight st) r with
  | (Returned (Some x, (rest, polls)), r') =>
      loop_sends bound concurrency (bs_complete step_id concurrency adaptive x rest st)
        (rt_set_polls polls r')
  | (Returned (None, _), r') => True
  | (Panicked _, r') => keeps r' /\ sent_count r' <= bound
  end.
Proof.
  intros Hb (Hr & Hok & Hpend & Hbud & ns & Hns & Hsum).
  pose proof (poll_next_cost sent_count (rt_polls r) (bs_inflight st) ns r Hns) as Hone.
  assert (Forall2 (fun _ => task_ok (keeps) (fun _ => True))
    (replicate (length (bs_inflight st)) tt) (bs_inflight st)) as Hok2.
  { clear -Hok. induction Hok; simpl; by constructor. }
  pose proof (poll_next_ok (keeps) (fun (_ : unit) _ => True) (rt_polls r) _ _ r Hok2 Hr)
    as Hpoll.
  destruct (poll_next _ _ _) as [[[[x|] [rest polls]]|p] r']; [|done|split; [done|lia]].
  destruct Hpoll as (Hr' & i & y & _ & _ & Hrest). destruct Hone as (ns' & Hns' & Hle).
  unfold bs_complete.
  match goal with |- context [adapt_budget ?c ?a ?s ?e ?b ?n] =>
    pose proof (adapt_budget_bounds c a s e b n Hb Hbud) as Hbud';
    destruct (adapt_budget c a s e b n) as [[[budget successes] increases] reductions] end.
  simpl in Hbud'. split; [done|]. split; [|split; [done|split; [done|]]].
  - by eapply (Forall2_Forall_r _ _ _ _ Hrest), Forall_true.
  - exists ns'. split; [done|]. unfold sent_count in *. simpl. lia.
Qed.

Lemma batch_calls_sends concurrency step_id parallel continue_on_error calls r :
  in_flight_bounds concurrency -> Forall call_good calls -> keeps r ->
  sends (attempts * length calls) r
    (execute_programmatic_batch_calls pack_id token connector_rate_limits
       connector_circuit_breakers step_id parallel continue_on_error calls concurrency r).2.
Proof.
  intros Hb Hall Hr. unfold execute_programmatic_batch_calls.
  destruct (parallel && (1 <? length calls)).
  - unfold bind at 1.
    pose proof (batch_loop_rule pack_id token connector_rate_limits connector_circuit_breakers step_id
      concurrency (loop_sends (sent_count r + attempts * length calls) concurrency)
      (fun r' => keeps r' /\ sent_count r' <= sent_count r + attempts * length calls)
      (pc_adaptive_budget concurrency)) as Hrule.
    match type of Hrule with ?A -> _ => assert A as Hdispatch end.
    { intros st s call pending cursor (Hs & Hok & Hpend & Hbud & ns & Hns & Hsum) Hlt Hpop.
      apply pop_next_pending in Hpop. rewrite Hpop in Hpend.
      apply Forall_cons in Hpend as [Hcall Hpend].
      destruct (batch_future_sends step_id call Hcall) as [Hfok Hfcost].
      apply Permutation_length in Hpop.
      split; [done|]. split; [|split; [done|split; [done|]]]; simpl.
      - apply Forall_app; auto.
      - exists (ns ++ [attempts]). split; [apply Forall2_app; auto|].
        rewrite sum_list_with_app. rewrite Hpop in Hsum. simpl in *. lia. }
    specialize (Hrule Hdispatch). clear Hdispatch.
    specialize (Hrule ltac:(by intros st s Hst)).
    specialize (Hrule ltac:(intros st s Hst; by apply loop_sends_poll)).
    specialize (Hrule ltac:(intros st s (_ & _ & _ & Hbud & _); destruct Hb; lia)).
    match goal with |- context [batch_loop _ _ _ _ ?f _ _ _ _ ?st0 r] =>
      specialize (Hrule f st0 r) end.
    match type of Hrule with ?A -> _ => assert A as Hinv end.
    { destruct Hb as (Hmin & _).
      split; [done|]. split; [constructor|]. split; [|split; [simpl; lia|]]; simpl.
      - by rewrite (group_calls_pending calls).
      - exists []. split; [constructor|]. rewrite (group_calls_pending calls). simpl. lia. }
    specialize (Hrule Hinv). clear Hinv.
    match type of Hrule with ?A -> _ => assert A as Hfuel end.
    { unfold unfinished; simpl. rewrite (group_calls_pending calls). lia. }
    specialize (Hrule Hfuel). clear Hfuel.
    destruct (batch_loop _ _ _ _ _ _ _ _ _ _ r) as [[st'|p] r'].
    + destruct Hrule as [(Hs & _ & _ & _ & ns & _ & Hsum) _].
      destruct (bs_first_error st'); [destruct continue_on_error|]; simpl; (split; [done|lia]).
    + destruct Hrule. split; [done|]. done.
  - unfold try_bind, bind at 1.
    pose proof (serial_calls_sends step_id continue_on_error calls ∅ BatchCounters_new r Hall) as Hser.
    by destruct (serial_calls _ _ _ _ _ _ calls ∅ BatchCounters_new r) as [[[[x c]|e]|p] r'].
Qed.
End sends.

(** ** The workflow *)

Lemma prepare_batch_loop_good attempts calls outputs allowed caller step_id index seen prepared :
  (forall command, command_good allowed caller command -> P command) ->
  Forall (fun call => retry_within attempts (bc_retry call)) calls ->
  prepare_batch_loop calls outputs allowed caller step_id index seen = Ok prepared ->
  Forall (call_good attempts) prepared /\
  length prepared = length calls /\
  NoDup (map pb_call_id prepared) /\
  Forall (fun call => pb_call_id call ∉ seen) prepared.
Proof.
  intros HP Hw. revert seen prepared. induction Hw as [|call calls Hcall _ IH]; intros seen prepared.
  { intros [= <-]. split_and!; constructor. }
  cbn [prepare_batch_loop]. cbv zeta. case_match; [done|].
  destruct (decide (trim (bc_call_id call) ∈ seen)) as [|Hseen]; [done|].
  destruct (decide (_ /\ _)) as [|Hallowed]; [done|].
  intros (policy & Hpolicy & (payload & Hpayload & (rest & Hrest & [= <-])%result_bind_ok)
    %result_bind_ok)%result_bind_ok.
  destruct (IH _ _ Hrest) as (Hgood & Hlen & Hnd & Hnew). split_and!.
  - constructor; [|done]. split; [|by eapply validate_retry_policy_within].
    apply HP, command_good_attach. destruct (decide (allowed = ∅)); [by left|right].
    destruct (decide (bc_connector_name call ∈ allowed)); [done|]. by exfalso; apply Hallowed.
  - simpl. by rewrite Hlen.
  - simpl. constructor; [|done]. intros Hin. apply list_elem_of_In, in_map_iff in Hin as (c & Hc & Hin).
    apply list_elem_of_In in Hin. rewrite Forall_forall in Hnew. specialize (Hnew c Hin). set_solver.
  - constructor; [done|]. eapply Forall_impl; [exact Hnew|]. intros c Hc. set_solver.
Qed.

Section workflow.
Variables (caller : string) (max_calls : Z) (include_intermediate : bool).
Variable allowed_connectors : gset string.
Variable concurrency : ProgrammaticConcurrencyPolicy.
Variables (start attempts : nat).
Hypothesis HP : forall command, command_good allowed_connectors caller command -> P command.
Hypothesis Hbounds : in_flight_bounds concurrency.
Hypothesis Hmax : (1 <= max_calls < u64_max)%Z.

(** Between steps: as many commands as the calls counted so far allow. *)
Definition within_calls (ws : WorkflowState) (r : R) : Prop :=
  keeps r /\
  sent_count r <= start + attempts * Z.to_nat (ws_connector_calls ws) /\
  (0 <= ws_connector_calls ws <= max_calls)%Z.

(** After a step: so again, or the workflow is over within its budget. *)
Definition within_budget (o : outcome (result WorkflowState string) * R) : Prop :=
  match o with
  | (Returned (Ok ws), r) => within_calls ws r
  | (_, r) => keeps r /\
      sent_count r <= start + attempts * Z.to_nat max_calls
  end.

Lemma within_calls_budget ws r :
  within_calls ws r -> keeps r /\
    sent_count r <= start + attempts * Z.to_nat max_calls.
Proof. intros (? & ? & ?). split; [done|]. nia. Qed.

(** A pure guard: it fails, or the rest runs in the same state. *)
Lemma within_guard {A} (x : result A string) (f : A -> M R (result WorkflowState string)) ws r :
  within_calls ws r -> (forall a, x = Ok a -> within_budget (f a r)) ->
  within_budget (try_bind (ret x) f r).
Proof.
  intros Hws Hf. unfold try_bind, bind, ret. destruct x as [a|e]; simpl; [by apply Hf|].
  by eapply within_calls_budget.
Qed.

Lemma within_stop ws r e :
  within_calls ws r -> within_budget (ret (Err e) r).
Proof. intros Hws. by eapply within_calls_budget. Qed.

Lemma within_store ws r step_id output trace :
  within_calls ws r ->
  within_budget (ret (Ok (ws_store include_intermediate step_id output trace
    (ws_connector_calls ws) ws)) r).
Proof. done. Qed.

(** A part that sends commands for [n] more calls of the budget. *)
Lemma within_sends {A} (m : M R (result A string)) (f : A -> M R (result WorkflowState string)) n ws r :
  within_calls ws r -> (ws_connector_calls ws + Z.of_nat n <= max_calls)%Z ->
  sends (attempts * n) r (m r).2 ->
  (forall a r', keeps r' ->
     sent_count r' <= start + attempts * Z.to_nat (ws_connector_calls ws + Z.of_nat n) ->
     within_budget (f a r')) ->
  within_budget (try_bind m f r).
Proof.
  intros (Hs & Hc & Hcc) Hn [Hs' Hc'] Hf. specialize (Hs' Hs).
  assert (sent_count (m r).2 <= start
    + attempts * Z.to_nat (ws_connector_calls ws + Z.of_nat n)) as Hcount.
  { rewrite Z2Nat.inj_add, Nat2Z.id by lia. lia. }
  unfold try_bind, bind. destruct (m r) as [[[a|e]|p] r']; simpl in *; [by apply Hf|..];
    (split; [done|]; etrans; [exact Hcount|]; apply Nat.add_le_mono_l, Nat.mul_le_mono_l; lia).
Qed.

Lemma execute_step_within index step ws r :
  step_within attempts step -> within_calls ws r ->
  within_budget (execute_step pack_id token connector_rate_limits connector_circuit_breakers caller
    max_calls include_intermediate allowed_connectors concurrency index step ws r).
Proof.
  intros Hstep Hws. pose proof Hws as (Hs & Hc & Hcc).
  destruct step as [step_id value|step_id from_step pointer
    |step_id name operation caps retry priority payload|step_id parallel continue_on_error calls
    |step_id from_step pointer equals exists_ when_true when_false];
    cbn [execute_step]; cbv zeta; apply (within_guard _ _ ws); try done; intros _ _.
  - apply (within_guard _ _ ws); [done|]. intros source _.
    apply (within_guard _ _ ws); [done|]. intros extracted _. by apply within_store.
  - destruct (connector_allowed allowed_connectors name) eqn:Hallowed; [|by apply (within_stop ws)].
    apply bool_decide_eq_true in Hallowed. simpl negb. cbv iota.
    destruct (max_calls <=? ws_connector_calls ws)%Z eqn:Hbudget; [by apply (within_stop ws)|].
    apply Z.leb_gt in Hbudget.
    apply (within_guard _ _ ws); [done|]. intros policy Hpolicy.
    apply (within_guard _ _ ws); [done|]. intros resolved _.
    apply (within_sends _ _ 1 ws); [done|lia| |].
    + rewrite Nat.mul_1_r. apply run_task_sends.
      * apply invoke_ok. by apply HP, command_good_attach.
      * apply invoke_cost. by eapply validate_retry_policy_within.
    + intros done' r' Hr' Hcount. split; [done|]. unfold ws_store, u64_saturating_add; simpl.
      rewrite Z.min_l by lia. split; [done|lia].
  - destruct (Z.of_nat (length calls) =? 0)%Z; [by apply (within_stop ws)|].
    destruct (max_calls <? _)%Z eqn:Hbudget; [by apply (within_stop ws)|].
    apply Z.ltb_ge in Hbudget. unfold u64_saturating_add in Hbudget.
    apply (within_guard _ _ ws); [done|]. intros prepared Hprepared.
    apply (prepare_batch_loop_good attempts) in Hprepared as (Hgood & Hlen & _ & _); [|done|done].
    apply (within_sends _ _ (length prepared) ws); [done|lia| |].
    + by apply batch_calls_sends.
    + intros done' r' Hr' Hcount. split; [done|]. unfold ws_store, u64_saturating_add; simpl.
      rewrite Z.min_l by lia. split; [done|lia].
  - case_decide; [by apply (within_stop ws)|].
    apply (within_guard _ _ ws); [done|]. intros source _.
    apply (within_guard _ _ ws); [done|]. intros evaluated _.
    apply (within_guard _ _ ws); [done|]. intros output _. by apply within_store.
Qed.

Lemma execute_steps_within index steps ws r :
  Forall (step_within attempts) steps -> within_calls ws r ->
  within_budget (execute_steps pack_id token connector_rate_limits connector_circuit_breakers caller
    max_calls include_intermediate allowed_connectors concurrency index steps ws r).
Proof.
  intros Hsteps. revert index ws r. induction Hsteps as [|step steps Hstep _ IH];
    intros index ws r Hws; [done|]. cbn [execute_steps]. unfold try_bind, bind.
  pose proof (execute_step_within index step ws r Hstep Hws) as H1.
  destruct (execute_step _ _ _ _ _ _ _ _ _ index step ws r) as [[[ws'|e]|p] r']; [|done|done].
  by apply IH.
Qed.
End workflow.

(** The fields of a [usize]. *)
Definition concurrency_typed (c : ProgrammaticConcurrencyPolicy) : Prop :=
  u64_valid (pc_max_in_flight c) /\ u64_valid (pc_min_in_flight c) /\
  u64_valid (pc_adaptive_upshift_step c) /\ u64_valid (pc_adaptive_downshift_step c).

Lemma validate_concurrency_bounds concurrency :
  concurrency_typed concurrency ->
  validate_programmatic_concurrency_policy concurrency = Ok tt -> in_flight_bounds concurrency.
Proof.
  unfold concurrency_typed, u64_valid, in_flight_bounds. intros (? & ? & ? & ?).
  unfold validate_programmatic_concurrency_policy. repeat case_decide; try done. intros _. lia.
Qed.

(** The whole tool call keeps the invariant, and costs at most [attempts] for
    every call of its budget. *)
Lemma execute_programmatic_within caller max_calls include_intermediate allowed concurrency
    return_step steps attempts (r : R) :
  (forall command, command_good allowed caller command -> P command) ->
  concurrency_typed concurrency -> (1 <= max_calls < u64_max)%Z ->
  Forall (step_within attempts) steps -> keeps r ->
  let r' := (execute_programmatic_tool_call pack_id token connector_rate_limits
    connector_circuit_breakers caller max_calls include_intermediate allowed concurrency return_step
    steps r).2 in
  keeps r' /\ sent_count r' <= sent_count r + attempts * Z.to_nat max_calls.
Proof.
  intros HP Htyped Hmax Hsteps Hr.
  pose (Q := fun r' : R =>
    keeps r' /\ sent_count r' <= sent_count r + attempts * Z.to_nat max_calls).
  match goal with |- let r' := ?x in _ => change (Q x) end.
  assert (Q r) as Hnone by (split; [done|lia]). unfold execute_programmatic_tool_call.
  case_match; [done|]. case_match; [done|].
  unfold try_bind at 1, bind at 1, ret at 1.
  destruct (validate_programmatic_rate_limits connector_rate_limits) as [[]|]; [|done].
  unfold try_bind at 1, bind at 1, ret at 1.
  destruct (validate_programmatic_circuit_breakers connector_circuit_breakers) as [[]|]; [|done].
  unfold try_bind at 1, bind at 1, ret at 1.
  destruct (validate_programmatic_concurrency_policy concurrency) as [[]|] eqn:Hval; [|done].
  pose proof (validate_concurrency_bounds concurrency Htyped Hval) as Hb.
  unfold bind at 1, modify at 1. unfold bind at 1, modify at 1. unfold try_bind, bind.
  match goal with |- context [execute_steps _ _ _ _ _ _ _ _ _ ?i steps ?ws ?r0] =>
    pose proof (execute_steps_within caller max_calls include_intermediate allowed concurrency
      (sent_count r) attempts HP Hb Hmax i steps ws r0 Hsteps) as Hw end.
  match type of Hw with ?A -> _ => assert A as Hstart end.
  { split; [done|]. simpl. split; [|lia]. unfold sent_count; simpl. lia. }
  specialize (Hw Hstart).
  destruct (execute_steps _ _ _ _ _ _ _ _ _ _ steps _ _) as [[[ws|e]|p] r1]; [|exact Hw..].
  by apply within_calls_budget in Hw.
Qed.
End run.

(** ** A host that records *)

(** The kernel [K], and the commands it was given. *)
Definition recording_host {K} (host : ConnectorHost K) : ConnectorHost (K * list ConnectorCommand) :=
  fun pack_id token core_name command kl =>
    let (r, k) := host pack_id token core_name command kl.1 in (r, (k, kl.2 ++ [command])).

Definition commands {K} (r : Runtime (K * list ConnectorCommand)) : list ConnectorCommand :=
  (rt_kernel r).2.

(** C12 (safety). Whatever the workflow, the kernel's answers and the
    interleaving of its batches, and however it ends: the kernel is given at most
    [attempts * max_calls] commands ([attempts] bounds the attempts of its retry
    policies, one by default), each for a connector of [allowed_connectors] when
    that set is not empty, and each carrying a provenance block that names the
    caller. *)
Theorem programmatic_calls_bounded {K} (host : ConnectorHost K) `{!FloatFormat} pack_id token
    rate_limits breakers caller max_calls include_intermediate allowed concurrency return_step steps
    attempts (r : Runtime (K * list ConnectorCommand)) :
  concurrency_typed concurrency -> (1 <= max_calls < u64_max)%Z ->
  Forall (step_within attempts) steps ->
  let r' := (execute_programmatic_tool_call (ConnectorHost0 := recording_host host) pack_id token
    rate_limits breakers caller max_calls include_intermediate allowed concurrency return_step
    steps r).2 in
  exists sent, commands r' = commands r ++ sent /\
    length sent <= attempts * Z.to_nat max_calls /\
    Forall (command_good allowed caller) sent.
Proof.
  intros Htyped Hmax Hsteps. cbv zeta.
  set (J := fun kl : K * list ConnectorCommand => exists sent, kl.2 = commands r ++ sent /\
    Forall (command_good allowed caller) sent).
  assert (forall command kl core, (recording_host host pack_id token core command kl).2.2
    = kl.2 ++ [command]) as Hrec.
  { intros command kl core. unfold recording_host. by destruct (host _ _ _ _ _). }
  destruct (execute_programmatic_within (ConnectorHost0 := recording_host host) pack_id token
    rate_limits breakers (command_good allowed caller) J (fun kl => length kl.2)) with
    (caller := caller) (max_calls := max_calls) (include_intermediate := include_intermediate)
    (allowed := allowed) (concurrency := concurrency) (return_step := return_step) (steps := steps)
    (attempts := attempts) (r := r) as [Hkeeps Hcount]; try done.
  - intros command kl Hgood (sent & Hs & Hall). exists (sent ++ [command]).
    unfold host_execute_connector_core. rewrite Hrec, Hs, (assoc (++)). split; [done|].
    apply Forall_app; auto.
  - intros command kl. unfold host_execute_connector_core. rewrite Hrec, length_app. simpl. lia.
  - exists []. by rewrite app_nil_r.
  - destruct Hkeeps as (sent & Hs & Hall). exists sent. split; [exact Hs|]. split; [|done].
    unfold sent_count in Hcount. rewrite Hs, length_app in Hcount. unfold commands in Hcount. lia.
Qed.

(** ** The kernel as host *)

Section kernel_host.
Context `{!Semver} {A C W : Type} `{!AuditSink A, !Clock C} `{!FloatFormat}.
Variable ps : PanicStrategy.
Local Abbreviation K := (LoongKernel StaticPolicyEngine A C W).
#[local] Instance kernel_host : ConnectorHost K := kernel_connector_host ps.

Lemma try_map_state {S X Y E} (f : X -> Y) (m : M S (result X E)) s :
  (try_map f m s).2 = (m s).2.
Proof. unfold try_map, try_bind, bind, ret. by destruct (m s) as [[[x|e]|p] s']. Qed.

Lemma discard_state {S X} (m : M S X) s : (discard m s).2 = (m s).2.
Proof. unfold discard, bind, ret. by destruct (m s) as [[x|p] s']. Qed.

(** C13 (refinement). A workflow acts on the kernel by calls of the kernel only:
    the state it leaves is reached from the one it found by steps of the kernel's
    own step relation, so whatever holds along every run of the kernel holds
    across it.  In particular under a revoked token no command of a workflow
    reaches an adapter: the environment is unchanged at the end, and the token
    still revoked. *)
Theorem programmatic_kernel_run pack_id token rate_limits breakers caller max_calls
    include_intermediate allowed concurrency return_step steps attempts (r : Runtime K) :
  concurrency_typed concurrency -> (1 <= max_calls < u64_max)%Z ->
  Forall (step_within attempts) steps ->
  let r' := (execute_programmatic_tool_call pack_id token rate_limits breakers caller max_calls
    include_intermediate allowed concurrency return_step steps r).2 in
  rtc (kernel_step ps) (rt_kernel r) (rt_kernel r') /\
  (revoked (lk_policy (rt_kernel r)) token ->
   lk_world (rt_kernel r') = lk_world (rt_kernel r) /\
   revoked (lk_policy (rt_kernel r')) token).
Proof.
  intros Htyped Hmax Hsteps. cbv zeta.
  assert (forall command (k : K), (host_execute_connector_core pack_id token
      (Some (cc_connector_name command)) command k).2 =
    (run_op ps (OpConnectorCore pack_id token (Some (cc_connector_name command)) command) k).2)
    as Hop by (intros; simpl; by rewrite try_map_state).
  split.
  - eapply (execute_programmatic_within pack_id token rate_limits breakers (fun _ => True)
      (rtc (kernel_step ps) (rt_kernel r)) (fun _ => 0)); try done; [|lia|by apply rtc_refl].
    intros command k _ Hk. eapply rtc_r; [exact Hk|]. rewrite Hop.
    rewrite <- discard_state. apply (step_call ps k (CallOp _)).
  - intros Hrev.
    eapply (execute_programmatic_within pack_id token rate_limits breakers (fun _ => True)
      (fun k => lk_world k = lk_world (rt_kernel r) /\ revoked (lk_policy k) token) (fun _ => 0));
      try done; [|lia].
    intros command k _ [Hw Hk]. rewrite Hop.
    match goal with |- context [run_op ps ?op k] =>
      pose proof (run_op_revoked ps op k Hk) as [Hworld _];
      pose proof (costs_run_op ps _ (revoked_stable token) op 0 k Hk) as Hstill end.
    split; [by rewrite Hworld|done].
Qed.
End kernel_host.
