(* ===== verification/Access.v ===== *)
(** * Inbound access policies of channels

    [crates/app/src/channel/access_policy.rs]: which conversations and senders
    of a channel are let in.  A [BTreeSet] is a [gset]; the two instances of the
    generic policy are the one of numeric identifiers ([i64]) and the one of
    texts, which trims them and knows a wildcard. *)

From S2P Require Import Prelude RustStr.

Definition STRING_ACCESS_WILDCARD_SENTINEL : string := "*".

Inductive ChannelAccessRestrictionMode : Type :=
| ModeOpen
| ModeExactAllowlist
| ModeWildcardAllowlist.

Record ChannelInboundAccessPolicySummary : Type := {
  ap_conversation_mode : ChannelAccessRestrictionMode;
  ap_sender_mode : ChannelAccessRestrictionMode;
  ap_allowed_conversations : list string;
  ap_allowed_senders : list string;
  ap_mention_required : bool;
}.

Record AccessMatcher (T : Type) `{Countable T} : Type := {
  am_allows_all : bool;
  am_values : gset T;
}.
Arguments am_allows_all {T _ _} _.
Arguments am_values {T _ _} _.

Record ChannelInboundAccessPolicy (T : Type) `{Countable T} : Type := {
  ia_allowed_conversations : AccessMatcher T;
  ia_allowed_senders : AccessMatcher T;
}.
Arguments ia_allowed_conversations {T _ _} _.
Arguments ia_allowed_senders {T _ _} _.

Section generic.
Context `{Countable T}.

Definition AccessMatcher_default : AccessMatcher T :=
  {| am_allows_all := false; am_values := ∅ |}.

Definition AccessMatcher_new (values : gset T) : AccessMatcher T :=
  {| am_allows_all := false; am_values := values |}.

Definition AccessMatcher_with_all_allowed (m : AccessMatcher T) : AccessMatcher T :=
  {| am_allows_all := true; am_values := am_values m |}.

Definition AccessMatcher_is_configured (m : AccessMatcher T) : bool :=
  if am_allows_all m then true else bool_decide (am_values m <> ∅).

Definition AccessMatcher_allows (m : AccessMatcher T) (value : T) : bool :=
  if am_allows_all m then true else bool_decide (value ∈ am_values m).

Definition ChannelInboundAccessPolicy_default : ChannelInboundAccessPolicy T :=
  {| ia_allowed_conversations := AccessMatcher_default;
     ia_allowed_senders := AccessMatcher_default |}.

Definition sender_allowed (p : ChannelInboundAccessPolicy T) (sender_id : option T) : bool :=
  if negb (AccessMatcher_is_configured (ia_allowed_senders p)) then true
  else match sender_id with
       | None => false
       | Some sender_id => AccessMatcher_allows (ia_allowed_senders p) sender_id
       end.

Definition ChannelInboundAccessPolicy_allows (p : ChannelInboundAccessPolicy T)
    (conversation_id : T) (sender_id : option T) : bool :=
  if negb (AccessMatcher_allows (ia_allowed_conversations p) conversation_id) then false
  else sender_allowed p sender_id.

Definition has_conversation_restrictions (p : ChannelInboundAccessPolicy T) : bool :=
  AccessMatcher_is_configured (ia_allowed_conversations p).

Definition has_sender_restrictions (p : ChannelInboundAccessPolicy T) : bool :=
  AccessMatcher_is_configured (ia_allowed_senders p).

Definition numeric_matcher_mode (m : AccessMatcher T) : ChannelAccessRestrictionMode :=
  if negb (AccessMatcher_is_configured m) then ModeOpen else ModeExactAllowlist.
End generic.

(** ** Numeric identifiers *)

Definition fmt_i64 (n : Z) : string :=
  if (n <? 0)%Z then "-" +:+ fmt_dec (- n) else fmt_dec n.

#[export] Instance Z_rust_ord : RustOrd Z := Z.le.
#[export] Instance Z_rust_ord_laws : RustOrdLaws Z.
Proof.
  split.
  - unfold rust_le, Z_rust_ord. apply _.
  - intros a b c. unfold rust_le, Z_rust_ord. lia.
  - intros a b. unfold rust_le, Z_rust_ord. lia.
  - intros a b. unfold rust_le, Z_rust_ord. lia.
Defined.

Definition numeric_matcher (values : list Z) : AccessMatcher Z :=
  AccessMatcher_new (foldl (fun normalized value => {[value]} ∪ normalized) ∅ values).

Definition from_i64_lists (allowed_conversation_ids allowed_sender_ids : list Z)
  : ChannelInboundAccessPolicy Z :=
  {| ia_allowed_conversations := numeric_matcher allowed_conversation_ids;
     ia_allowed_senders := numeric_matcher allowed_sender_ids |}.

Definition numeric_summary (p : ChannelInboundAccessPolicy Z) : ChannelInboundAccessPolicySummary := {|
  ap_conversation_mode := numeric_matcher_mode (ia_allowed_conversations p);
  ap_sender_mode := numeric_matcher_mode (ia_allowed_senders p);
  ap_allowed_conversations :=
    map fmt_i64 (btree_set_iter (am_values (ia_allowed_conversations p)));
  ap_allowed_senders := map fmt_i64 (btree_set_iter (am_values (ia_allowed_senders p)));
  ap_mention_required := false |}.

(** ** Texts *)

Definition normalize_optional_str (value : option string) : option string :=
  match value with
  | None => None
  | Some value => let trimmed := trim value in if str_is_empty trimmed then None else Some trimmed
  end.

(** The loop over the configured texts: the set so far, and the wildcard. *)
Fixpoint string_matcher_loop (values : list string) (allow_wildcards : bool)
    (normalized : gset string) (allows_all : bool) : gset string * bool :=
  match values with
  | [] => (normalized, allows_all)
  | raw_value :: values =>
      let trimmed_value := trim raw_value in
      if str_is_empty trimmed_value then
        string_matcher_loop values allow_wildcards normalized allows_all
      else if allow_wildcards && bool_decide (trimmed_value = STRING_ACCESS_WILDCARD_SENTINEL) then
        string_matcher_loop values allow_wildcards normalized true
      else string_matcher_loop values allow_wildcards ({[trimmed_value]} ∪ normalized) allows_all
  end.

Definition string_matcher (values : list string) (allow_wildcards : bool) : AccessMatcher string :=
  let (normalized, allows_all) := string_matcher_loop values allow_wildcards ∅ false in
  let matcher := AccessMatcher_new normalized in
  if allows_all then AccessMatcher_with_all_allowed matcher else matcher.

Definition from_string_lists (allowed_conversation_ids allowed_sender_ids : list string)
    (allow_wildcards : bool) : ChannelInboundAccessPolicy string :=
  {| ia_allowed_conversations := string_matcher allowed_conversation_ids allow_wildcards;
     ia_allowed_senders := string_matcher allowed_sender_ids allow_wildcards |}.

Definition allowed_conversations_allow_str (p : ChannelInboundAccessPolicy string)
    (conversation_id : string) : bool :=
  if am_allows_all (ia_allowed_conversations p) then true
  else bool_decide (conversation_id ∈ am_values (ia_allowed_conversations p)).

Definition allowed_senders_allow_str (p : ChannelInboundAccessPolicy string)
    (sender_id : option string) : bool :=
  if negb (AccessMatcher_is_configured (ia_allowed_senders p)) then true
  else match sender_id with
       | None => false
       | Some sender_id =>
           if am_allows_all (ia_allowed_senders p) then true
           else bool_decide (sender_id ∈ am_values (ia_allowed_senders p))
       end.

Definition allows_str (p : ChannelInboundAccessPolicy string) (conversation_id : string)
    (sender_id : option string) : bool :=
  let conversation_id := trim conversation_id in
  if str_is_empty conversation_id then false
  else
    let sender_id := normalize_optional_str sender_id in
    allowed_conversations_allow_str p conversation_id && allowed_senders_allow_str p sender_id.

Definition allows_optional_conversation_str (p : ChannelInboundAccessPolicy string)
    (conversation_id sender_id : option string) : bool :=
  match normalize_optional_str conversation_id with
  | None => false
  | Some conversation_id => allows_str p conversation_id sender_id
  end.

Definition matcher_strings (m : AccessMatcher string) : list string :=
  btree_set_iter (am_values m)
  ++ (if am_allows_all m then [STRING_ACCESS_WILDCARD_SENTINEL] else []).

Definition string_conversations (p : ChannelInboundAccessPolicy string) : option (list string) :=
  if negb (has_conversation_restrictions p) then None
  else Some (matcher_strings (ia_allowed_conversations p)).

Definition string_senders (p : ChannelInboundAccessPolicy string) : option (list string) :=
  if negb (has_sender_restrictions p) then None
  else Some (matcher_strings (ia_allowed_senders p)).

Definition string_matcher_mode (m : AccessMatcher string) : ChannelAccessRestrictionMode :=
  if negb (AccessMatcher_is_configured m) then ModeOpen
  else if am_allows_all m then ModeWildcardAllowlist
  else ModeExactAllowlist.

Definition string_summary (p : ChannelInboundAccessPolicy string)
  : ChannelInboundAccessPolicySummary := {|
  ap_conversation_mode := string_matcher_mode (ia_allowed_conversations p);
  ap_sender_mode := string_matcher_mode (ia_allowed_senders p);
  ap_allowed_conversations := default [] (string_conversations p);
  ap_allowed_senders := default [] (string_senders p);
  ap_mention_required := false |}.

(** ** What is let in *)

(** A configured list lets a trimmed text in: it, or the wildcard, is listed. *)
Definition lists (values : list string) (allow_wildcards : bool) (x : string) : Prop :=
  (exists v, v ∈ values /\ trim v = x /\ x <> "" /\
     (allow_wildcards = true -> x <> STRING_ACCESS_WILDCARD_SENTINEL)) \/
  (allow_wildcards = true /\ exists v, v ∈ values /\ trim v = STRING_ACCESS_WILDCARD_SENTINEL).

(** A list with nothing but blank texts. *)
Definition blank (values : list string) : Prop := forall v, v ∈ values -> trim v = "".

Lemma str_is_empty_true s : str_is_empty s = true <-> s = "".
Proof. by destruct s. Qed.

Lemma exists_elem_cons {A} (Q : A -> Prop) x l :
  (exists v, v ∈ x :: l /\ Q v) <-> Q x \/ exists v, v ∈ l /\ Q v.
Proof.
  split.
  - intros (v & Hv & HQ). apply elem_of_cons in Hv as [->|Hv]; eauto.
  - intros [HQ|(v & Hv & HQ)]; [exists x|exists v]; rewrite elem_of_cons; auto.
Qed.

Lemma string_matcher_loop_spec values allow_wildcards normalized allows_all :
  let '(normalized', allows_all') :=
    string_matcher_loop values allow_wildcards normalized allows_all in
  (forall x, x ∈ normalized' <-> x ∈ normalized \/ (exists v, v ∈ values /\ trim v = x /\ x <> "" /\
     (allow_wildcards = true -> x <> STRING_ACCESS_WILDCARD_SENTINEL))) /\
  (allows_all' = true <-> allows_all = true \/
     (allow_wildcards = true /\ exists v, v ∈ values /\ trim v = STRING_ACCESS_WILDCARD_SENTINEL)).
Proof.
  revert normalized allows_all. induction values as [|raw values IH]; intros normalized allows_all.
  { simpl. split; [intros x|]; (split; [by left|]).
    - intros [?|(v & Hv & _)]; [done|]. by apply not_elem_of_nil in Hv.
    - intros [?|(_ & v & Hv & _)]; [done|]. by apply not_elem_of_nil in Hv. }
  cbn [string_matcher_loop]. cbv zeta.
  destruct (str_is_empty (trim raw)) eqn:Hempty.
  - apply str_is_empty_true in Hempty. specialize (IH normalized allows_all).
    destruct (string_matcher_loop _ _ _ _) as [n' a']. destruct IH as [IH1 IH2]. split.
    + intros x. rewrite IH1, exists_elem_cons. intuition congruence.
    + rewrite IH2, exists_elem_cons, Hempty. intuition discriminate.
  - assert (trim raw <> "") as Hne by (by destruct (trim raw)).
    destruct (allow_wildcards && bool_decide (trim raw = STRING_ACCESS_WILDCARD_SENTINEL)) eqn:Hw.
    + apply andb_true_iff in Hw as [-> Hw%bool_decide_eq_true]. specialize (IH normalized true).
      destruct (string_matcher_loop _ _ _ _) as [n' a']. destruct IH as [IH1 IH2]. split.
      * intros x. rewrite IH1, exists_elem_cons. intuition congruence.
      * rewrite IH2, exists_elem_cons. intuition congruence.
    + specialize (IH ({[trim raw]} ∪ normalized) allows_all).
      assert (allow_wildcards = true -> trim raw <> STRING_ACCESS_WILDCARD_SENTINEL) as Hnw.
      { intros ->. by apply bool_decide_eq_false in Hw. }
      destruct (string_matcher_loop _ _ _ _) as [n' a']. destruct IH as [IH1 IH2]. split.
      * intros x. rewrite IH1, elem_of_union, elem_of_singleton, exists_elem_cons. intuition congruence.
      * rewrite IH2, exists_elem_cons. intuition congruence.
Qed.

Lemma string_matcher_spec values allow_wildcards :
  let m := string_matcher values allow_wildcards in
  (forall x, (if am_allows_all m then true else bool_decide (x ∈ am_values m)) = true <->
     lists values allow_wildcards x) /\
  (AccessMatcher_is_configured m = false <-> blank values).
Proof.
  unfold string_matcher, AccessMatcher_is_configured, lists, blank. cbv zeta.
  pose proof (string_matcher_loop_spec values allow_wildcards ∅ false) as Hloop.
  destruct (string_matcher_loop values allow_wildcards ∅ false) as [normalized all].
  destruct Hloop as [Hvalues Hall].
  assert (all = true <-> allow_wildcards = true /\
    exists v, v ∈ values /\ trim v = STRING_ACCESS_WILDCARD_SENTINEL) as Hall'
    by (rewrite Hall; intuition discriminate).
  assert (forall x, x ∈ normalized <-> exists v, v ∈ values /\ trim v = x /\ x <> "" /\
    (allow_wildcards = true -> x <> STRING_ACCESS_WILDCARD_SENTINEL)) as Hvalues'
    by (intros x; rewrite Hvalues, elem_of_empty; tauto).
  clear Hvalues Hall. destruct all; simpl.
  - destruct Hall' as [Hwild _]. specialize (Hwild eq_refl). split; [by intros x; tauto|].
    split; [done|]. intros Hblank. destruct Hwild as (_ & v & Hv & Htrim).
    rewrite (Hblank v Hv) in Htrim. discriminate.
  - split.
    + intros x. rewrite bool_decide_eq_true, Hvalues'. split; [by left|]. intros [?|Hw]; [done|].
      by apply Hall' in Hw.
    + rewrite bool_decide_eq_false. split.
      * intros Hne v Hv. destruct (decide (trim v = "")) as [|Htrim]; [done|]. exfalso.
        apply Hne. intros Hempty. apply (not_elem_of_empty (C := gset string) (trim v)).
        rewrite <- Hempty, Hvalues'. exists v. split_and!; try done. intros Hallow Heq.
        assert (false = true) as [=]. apply Hall'. split; [done|]. by exists v.
      * intros Hblank Hne. apply set_choose_L in Hne as [x Hx].
        apply Hvalues' in Hx as (v & Hv & Htrim & Hx & _). by rewrite (Hblank v Hv) in Htrim.
Qed.

(** Exactly what the two lists of a text policy say is let in:
    a conversation whose trimmed id is not empty and is listed, or the list holds
    the wildcard; and a sender whose trimmed id is listed, or the sender wildcard
    with any sender that is known; a sender list with nothing but blanks lets
    every sender in, but a conversation list with nothing but blanks lets nobody
    in. *)
Theorem access_policy_iff conversations senders allow_wildcards conversation_id sender_id :
  let p := from_string_lists conversations senders allow_wildcards in
  allows_str p conversation_id sender_id = true <->
  trim conversation_id <> "" /\
  lists conversations allow_wildcards (trim conversation_id) /\
  (blank senders \/
   exists sender, sender_id = Some sender /\ trim sender <> "" /\
     lists senders allow_wildcards (trim sender)).
Proof.
  cbv zeta. unfold allows_str. cbv zeta.
  destruct (str_is_empty (trim conversation_id)) eqn:Hempty.
  { apply str_is_empty_true in Hempty. rewrite Hempty. split; [done|]. by intros [? _]. }
  assert (trim conversation_id <> "") as Hne by (by destruct (trim conversation_id)).
  destruct (string_matcher_spec conversations allow_wildcards) as [Hconv _].
  destruct (string_matcher_spec senders allow_wildcards) as [Hsend Hblank].
  unfold allowed_conversations_allow_str, allowed_senders_allow_str. simpl.
  rewrite andb_true_iff, Hconv.
  assert ((if negb (AccessMatcher_is_configured (string_matcher senders allow_wildcards)) then true
    else match normalize_optional_str sender_id with
         | None => false
         | Some sender_id =>
             if am_allows_all (string_matcher senders allow_wildcards) then true
             else bool_decide (sender_id ∈ am_values (string_matcher senders allow_wildcards))
         end) = true <-> blank senders \/
    exists sender, sender_id = Some sender /\ trim sender <> "" /\
      lists senders allow_wildcards (trim sender)) as ->; [|tauto].
  destruct (AccessMatcher_is_configured _) eqn:Hconf; simpl.
  2: { split; [|done]. intros _. left. by apply Hblank. }
  assert (~ blank senders) as Hnb by (rewrite <- Hblank; done).
  destruct sender_id as [sender|]; simpl.
  2: { split; [done|]. intros [?|(? & [=] & _)]. done. }
  destruct (str_is_empty (trim sender)) eqn:Hs.
  - apply str_is_empty_true in Hs. split; [done|].
    intros [?|(? & [= <-] & Hne' & _)]; done.
  - rewrite Hsend. split.
    + intros Hl. right. exists sender. split_and!; try done. by destruct (trim sender).
    + intros [?|(? & [= <-] & _ & Hl)]; done.
Qed.

(** A policy with no conversation configured lets nobody in, and its summary
    calls the conversations open. *)
Lemma unconfigured_conversations_denied senders allow_wildcards conversation_id sender_id :
  let p := from_string_lists [] senders allow_wildcards in
  allows_str p conversation_id sender_id = false /\
  ap_conversation_mode (string_summary p) = ModeOpen.
Proof.
  cbv zeta. split; [|done]. unfold allows_str. cbv zeta.
  destruct (str_is_empty _); [done|]. done.
Qed.
