(* ===== verification/Autonomy.v ===== *)
(** * The autonomy policy of a turn

    [crates/app/src/conversation/autonomy_policy.rs] with the snapshot of
    [tools/runtime_config.rs], the profiles of [config/tools.rs] and the action
    classes of [tools/catalog.rs]: whether an assistant turn may acquire a
    capability, switch the provider or change its session's topology, and how
    often.  A [usize] counter is a [Z] with its saturation written out. *)

From S2P Require Import Prelude RustStr.

Inductive AutonomyProfile : Type := DiscoveryOnly | GuidedAcquisition | BoundedAutonomous.

Definition AUTONOMY_PROFILE_IDS : list string :=
  ["discovery_only"; "guided_acquisition"; "bounded_autonomous"].

Definition AutonomyProfile_as_str (p : AutonomyProfile) : string :=
  match p with
  | DiscoveryOnly => "discovery_only"
  | GuidedAcquisition => "guided_acquisition"
  | BoundedAutonomous => "bounded_autonomous"
  end.

Inductive AutonomyOperationMode : Type := ModeDeny | ModeApprovalRequired | ModeAllow.

#[export] Instance AutonomyOperationMode_eq_dec : EqDecision AutonomyOperationMode.
Proof. solve_decision. Defined.

Definition AutonomyOperationMode_as_str (m : AutonomyOperationMode) : string :=
  match m with
  | ModeDeny => "deny"
  | ModeApprovalRequired => "approval_required"
  | ModeAllow => "allow"
  end.

Record AutonomyBudgetPolicy : Type := {
  ab_max_capability_acquisitions_per_turn : Z;
  ab_max_provider_switches_per_turn : Z;
  ab_max_topology_mutations_per_turn : Z;
}.

Record AutonomyPolicySnapshot : Type := {
  as_profile : AutonomyProfile;
  as_capability_acquisition_mode : AutonomyOperationMode;
  as_provider_switch_mode : AutonomyOperationMode;
  as_topology_mutation_mode : AutonomyOperationMode;
  as_requires_kernel_binding : bool;
  as_budget : AutonomyBudgetPolicy;
}.

Definition AutonomyPolicySnapshot_from_profile (profile : AutonomyProfile)
  : AutonomyPolicySnapshot :=
  match profile with
  | DiscoveryOnly => {|
      as_profile := profile;
      as_capability_acquisition_mode := ModeDeny;
      as_provider_switch_mode := ModeDeny;
      as_topology_mutation_mode := ModeDeny;
      as_requires_kernel_binding := false;
      as_budget := {| ab_max_capability_acquisitions_per_turn := 0;
                      ab_max_provider_switches_per_turn := 0;
                      ab_max_topology_mutations_per_turn := 0 |} |}
  | GuidedAcquisition => {|
      as_profile := profile;
      as_capability_acquisition_mode := ModeApprovalRequired;
      as_provider_switch_mode := ModeApprovalRequired;
      as_topology_mutation_mode := ModeApprovalRequired;
      as_requires_kernel_binding := true;
      as_budget := {| ab_max_capability_acquisitions_per_turn := 1;
                      ab_max_provider_switches_per_turn := 1;
                      ab_max_topology_mutations_per_turn := 1 |} |}
  | BoundedAutonomous => {|
      as_profile := profile;
      as_capability_acquisition_mode := ModeAllow;
      as_provider_switch_mode := ModeApprovalRequired;
      as_topology_mutation_mode := ModeApprovalRequired;
      as_requires_kernel_binding := true;
      as_budget := {| ab_max_capability_acquisitions_per_turn := 2;
                      ab_max_provider_switches_per_turn := 1;
                      ab_max_topology_mutations_per_turn := 1 |} |}
  end.

Inductive CapabilityActionClass : Type :=
| Discover
| ExecuteExisting
| CapabilityFetch
| CapabilityInstall
| CapabilityLoad
| RuntimeSwitch
| TopologyExpand
| PolicyMutation
| SessionMutation.

#[export] Instance CapabilityActionClass_eq_dec : EqDecision CapabilityActionClass.
Proof. solve_decision. Defined.

Definition CapabilityActionClass_as_str (a : CapabilityActionClass) : string :=
  match a with
  | Discover => "discover"
  | ExecuteExisting => "execute_existing"
  | CapabilityFetch => "capability_fetch"
  | CapabilityInstall => "capability_install"
  | CapabilityLoad => "capability_load"
  | RuntimeSwitch => "runtime_switch"
  | TopologyExpand => "topology_expand"
  | PolicyMutation => "policy_mutation"
  | SessionMutation => "session_mutation"
  end.

Record AutonomyTurnBudgetState : Type := {
  tb_capability_acquisitions_used : Z;
  tb_provider_switches_used : Z;
  tb_topology_mutations_used : Z;
}.

Definition AutonomyTurnBudgetState_default : AutonomyTurnBudgetState := {|
  tb_capability_acquisitions_used := 0;
  tb_provider_switches_used := 0;
  tb_topology_mutations_used := 0 |}.

Definition record_action (budget : AutonomyTurnBudgetState) (action_class : CapabilityActionClass)
  : AutonomyTurnBudgetState :=
  match action_class with
  | CapabilityFetch | CapabilityInstall | CapabilityLoad => {|
      tb_capability_acquisitions_used :=
        u64_saturating_add (tb_capability_acquisitions_used budget) 1;
      tb_provider_switches_used := tb_provider_switches_used budget;
      tb_topology_mutations_used := tb_topology_mutations_used budget |}
  | RuntimeSwitch => {|
      tb_capability_acquisitions_used := tb_capability_acquisitions_used budget;
      tb_provider_switches_used := u64_saturating_add (tb_provider_switches_used budget) 1;
      tb_topology_mutations_used := tb_topology_mutations_used budget |}
  | TopologyExpand | PolicyMutation | SessionMutation => {|
      tb_capability_acquisitions_used := tb_capability_acquisitions_used budget;
      tb_provider_switches_used := tb_provider_switches_used budget;
      tb_topology_mutations_used := u64_saturating_add (tb_topology_mutations_used budget) 1 |}
  | Discover | ExecuteExisting => budget
  end.

Inductive PolicyDecision : Type :=
| DecisionAllow
| DecisionApprovalRequired (rule_id reason_code : string)
| DecisionDeny (rule_id reason_code : string).

(** The reason codes. *)
Definition CAPABILITY_ACQUISITION_DISALLOWED_CODE : string :=
  "autonomy_policy_capability_acquisition_disallowed".
Definition CAPABILITY_ACQUISITION_APPROVAL_CODE : string :=
  "autonomy_policy_capability_acquisition_requires_approval".
Definition CAPABILITY_ACQUISITION_BUDGET_EXCEEDED_CODE : string :=
  "autonomy_policy_capability_acquisition_budget_exceeded".
Definition PROVIDER_SWITCH_APPROVAL_CODE : string :=
  "autonomy_policy_provider_switch_requires_approval".
Definition PROVIDER_SWITCH_DISALLOWED_CODE : string := "autonomy_policy_provider_switch_disallowed".
Definition PROVIDER_SWITCH_BUDGET_EXCEEDED_CODE : string :=
  "autonomy_policy_provider_switch_budget_exceeded".
Definition TOPOLOGY_MUTATION_APPROVAL_CODE : string :=
  "autonomy_policy_topology_mutation_requires_approval".
Definition TOPOLOGY_MUTATION_DISALLOWED_CODE : string :=
  "autonomy_policy_topology_mutation_disallowed".
Definition TOPOLOGY_MUTATION_BUDGET_EXCEEDED_CODE : string :=
  "autonomy_policy_topology_mutation_budget_exceeded".
Definition POLICY_MUTATION_APPROVAL_CODE : string :=
  "autonomy_policy_policy_mutation_requires_approval".
Definition POLICY_MUTATION_DISALLOWED_CODE : string := "autonomy_policy_policy_mutation_disallowed".
Definition POLICY_MUTATION_BUDGET_EXCEEDED_CODE : string :=
  "autonomy_policy_policy_mutation_budget_exceeded".
Definition SESSION_MUTATION_APPROVAL_CODE : string :=
  "autonomy_policy_session_mutation_requires_approval".
Definition SESSION_MUTATION_DISALLOWED_CODE : string :=
  "autonomy_policy_session_mutation_disallowed".
Definition SESSION_MUTATION_BUDGET_EXCEEDED_CODE : string :=
  "autonomy_policy_session_mutation_budget_exceeded".
Definition BINDING_MISSING_CODE : string := "autonomy_policy_binding_missing".
Definition not_applicable : string := "autonomy_policy_not_applicable".

Definition action_mode (snapshot : AutonomyPolicySnapshot) (action_class : CapabilityActionClass)
  : option AutonomyOperationMode :=
  match action_class with
  | CapabilityFetch | CapabilityInstall | CapabilityLoad =>
      Some (as_capability_acquisition_mode snapshot)
  | RuntimeSwitch => Some (as_provider_switch_mode snapshot)
  | TopologyExpand | PolicyMutation | SessionMutation => Some (as_topology_mutation_mode snapshot)
  | Discover | ExecuteExisting => None
  end.

Definition would_exceed_budget (used limit : Z) : bool := (limit <? u64_saturating_add used 1)%Z.

Definition topology_budget_reason_code (action_class : CapabilityActionClass) : string :=
  match action_class with
  | TopologyExpand => TOPOLOGY_MUTATION_BUDGET_EXCEEDED_CODE
  | PolicyMutation => POLICY_MUTATION_BUDGET_EXCEEDED_CODE
  | SessionMutation => SESSION_MUTATION_BUDGET_EXCEEDED_CODE
  | _ => not_applicable
  end.

Definition budget_deny_reason (snapshot : AutonomyPolicySnapshot)
    (action_class : CapabilityActionClass) (budget : AutonomyTurnBudgetState) : option string :=
  let then_some (b : bool) (code : string) := if b then Some code else None in
  match action_class with
  | CapabilityFetch | CapabilityInstall | CapabilityLoad =>
      then_some (would_exceed_budget (tb_capability_acquisitions_used budget)
                   (ab_max_capability_acquisitions_per_turn (as_budget snapshot)))
        CAPABILITY_ACQUISITION_BUDGET_EXCEEDED_CODE
  | RuntimeSwitch =>
      then_some (would_exceed_budget (tb_provider_switches_used budget)
                   (ab_max_provider_switches_per_turn (as_budget snapshot)))
        PROVIDER_SWITCH_BUDGET_EXCEEDED_CODE
  | TopologyExpand | PolicyMutation | SessionMutation =>
      then_some (would_exceed_budget (tb_topology_mutations_used budget)
                   (ab_max_topology_mutations_per_turn (as_budget snapshot)))
        (topology_budget_reason_code action_class)
  | Discover | ExecuteExisting => None
  end.

Definition approval_rule_id (action_class : CapabilityActionClass) : string :=
  match action_class with
  | CapabilityFetch | CapabilityInstall | CapabilityLoad =>
      "autonomy_policy_capability_acquisition_requires_approval"
  | RuntimeSwitch => "autonomy_policy_provider_switch_requires_approval"
  | TopologyExpand => "autonomy_policy_topology_mutation_requires_approval"
  | PolicyMutation => "autonomy_policy_policy_mutation_requires_approval"
  | SessionMutation => "autonomy_policy_session_mutation_requires_approval"
  | Discover | ExecuteExisting => not_applicable
  end.

Definition approval_reason_code (action_class : CapabilityActionClass) : string :=
  match action_class with
  | CapabilityFetch | CapabilityInstall | CapabilityLoad => CAPABILITY_ACQUISITION_APPROVAL_CODE
  | RuntimeSwitch => PROVIDER_SWITCH_APPROVAL_CODE
  | TopologyExpand => TOPOLOGY_MUTATION_APPROVAL_CODE
  | PolicyMutation => POLICY_MUTATION_APPROVAL_CODE
  | SessionMutation => SESSION_MUTATION_APPROVAL_CODE
  | Discover | ExecuteExisting => not_applicable
  end.

Definition deny_rule_id (action_class : CapabilityActionClass) : string :=
  match action_class with
  | CapabilityFetch | CapabilityInstall | CapabilityLoad =>
      "autonomy_policy_capability_acquisition_disallowed"
  | RuntimeSwitch => "autonomy_policy_provider_switch_disallowed"
  | TopologyExpand => "autonomy_policy_topology_mutation_disallowed"
  | PolicyMutation => "autonomy_policy_policy_mutation_disallowed"
  | SessionMutation => "autonomy_policy_session_mutation_disallowed"
  | Discover | ExecuteExisting => not_applicable
  end.

Definition deny_reason_code (action_class : CapabilityActionClass) : string :=
  match action_class with
  | CapabilityFetch | CapabilityInstall | CapabilityLoad => CAPABILITY_ACQUISITION_DISALLOWED_CODE
  | RuntimeSwitch => PROVIDER_SWITCH_DISALLOWED_CODE
  | TopologyExpand => TOPOLOGY_MUTATION_DISALLOWED_CODE
  | PolicyMutation => POLICY_MUTATION_DISALLOWED_CODE
  | SessionMutation => SESSION_MUTATION_DISALLOWED_CODE
  | Discover | ExecuteExisting => not_applicable
  end.

(** The binding is either to a kernel or direct. *)
Definition evaluate_policy (snapshot : AutonomyPolicySnapshot)
    (action_class : CapabilityActionClass) (is_kernel_bound : bool)
    (budget : AutonomyTurnBudgetState) : PolicyDecision :=
  match action_mode snapshot action_class with
  | None => DecisionAllow
  | Some base_mode =>
      if decide (base_mode = ModeDeny) then
        DecisionDeny (deny_rule_id action_class) (deny_reason_code action_class)
      else if as_requires_kernel_binding snapshot && negb is_kernel_bound then
        DecisionDeny "autonomy_policy_requires_kernel_binding" BINDING_MISSING_CODE
      else
        match budget_deny_reason snapshot action_class budget with
        | Some deny_reason => DecisionDeny "autonomy_policy_budget_guard" deny_reason
        | None =>
            match base_mode with
            | ModeAllow => DecisionAllow
            | ModeApprovalRequired =>
                DecisionApprovalRequired (approval_rule_id action_class)
                  (approval_reason_code action_class)
            | ModeDeny => DecisionDeny (deny_rule_id action_class) (deny_reason_code action_class)
            end
        end
  end.

Definition render_reason (snapshot : AutonomyPolicySnapshot) (action_class : CapabilityActionClass)
    (tool_name reason_code : string) : string :=
  let profile := AutonomyProfile_as_str (as_profile snapshot) in
  let denied what := "autonomy policy denied `" +:+ tool_name +:+ "`: " +:+ what in
  let disabled what := denied (what +:+ " is disabled in `" +:+ profile +:+ "`") in
  let exceeded what := denied (what +:+ " budget exceeded for `" +:+ profile +:+ "`") in
  if decide (reason_code = CAPABILITY_ACQUISITION_DISALLOWED_CODE) then
    disabled "capability acquisition"
  else if decide (reason_code = CAPABILITY_ACQUISITION_BUDGET_EXCEEDED_CODE) then
    exceeded "capability acquisition"
  else if decide (reason_code = PROVIDER_SWITCH_DISALLOWED_CODE) then disabled "provider switch"
  else if decide (reason_code = PROVIDER_SWITCH_BUDGET_EXCEEDED_CODE) then
    exceeded "provider switch"
  else if decide (reason_code = TOPOLOGY_MUTATION_DISALLOWED_CODE) then
    disabled "topology expansion"
  else if decide (reason_code = TOPOLOGY_MUTATION_BUDGET_EXCEEDED_CODE) then
    exceeded "topology mutation"
  else if decide (reason_code = POLICY_MUTATION_DISALLOWED_CODE) then disabled "policy mutation"
  else if decide (reason_code = POLICY_MUTATION_BUDGET_EXCEEDED_CODE) then
    exceeded "topology mutation"
  else if decide (reason_code = SESSION_MUTATION_DISALLOWED_CODE) then disabled "session mutation"
  else if decide (reason_code = SESSION_MUTATION_BUDGET_EXCEEDED_CODE) then
    exceeded "session mutation"
  else if decide (reason_code ∈ [CAPABILITY_ACQUISITION_APPROVAL_CODE; PROVIDER_SWITCH_APPROVAL_CODE;
                                 TOPOLOGY_MUTATION_APPROVAL_CODE; POLICY_MUTATION_APPROVAL_CODE;
                                 SESSION_MUTATION_APPROVAL_CODE]) then
    "operator approval required before running `" +:+ tool_name +:+ "` under `" +:+ profile
      +:+ "` product mode"
  else if decide (reason_code = BINDING_MISSING_CODE) then
    denied ("`" +:+ profile +:+ "` requires kernel-bound execution for `"
              +:+ CapabilityActionClass_as_str action_class +:+ "`")
  else
    "autonomy policy denied `" +:+ tool_name +:+ "` with reason `" +:+ reason_code +:+ "` under `"
      +:+ profile +:+ "`".

(** ** A turn *)

(** The intents of a turn are prepared one after the other; [approved] says
    which of those that need approval have it.  The first that is refused ends
    the turn.  Result: the classes prepared, and whether all were. *)
Fixpoint prepare_turn (snapshot : AutonomyPolicySnapshot) (is_kernel_bound : bool)
    (budget : AutonomyTurnBudgetState) (intents : list (CapabilityActionClass * bool))
  : list CapabilityActionClass :=
  match intents with
  | [] => []
  | (action_class, approved) :: intents =>
      let go :=
        action_class :: prepare_turn snapshot is_kernel_bound (record_action budget action_class)
                          intents in
      match evaluate_policy snapshot action_class is_kernel_bound budget with
      | DecisionAllow => go
      | DecisionApprovalRequired _ _ => if approved then go else []
      | DecisionDeny _ _ => []
      end
  end.

(** The budget a class draws on. *)
Inductive budget_kind : Type := Acquisitions | Switches | Topology.

#[export] Instance budget_kind_eq_dec : EqDecision budget_kind.
Proof. solve_decision. Defined.

Definition budget_of (action_class : CapabilityActionClass) : option budget_kind :=
  match action_class with
  | CapabilityFetch | CapabilityInstall | CapabilityLoad => Some Acquisitions
  | RuntimeSwitch => Some Switches
  | TopologyExpand | PolicyMutation | SessionMutation => Some Topology
  | Discover | ExecuteExisting => None
  end.

Definition used (kind : budget_kind) (b : AutonomyTurnBudgetState) : Z :=
  match kind with
  | Acquisitions => tb_capability_acquisitions_used b
  | Switches => tb_provider_switches_used b
  | Topology => tb_topology_mutations_used b
  end.

Definition limit (kind : budget_kind) (s : AutonomyPolicySnapshot) : Z :=
  match kind with
  | Acquisitions => ab_max_capability_acquisitions_per_turn (as_budget s)
  | Switches => ab_max_provider_switches_per_turn (as_budget s)
  | Topology => ab_max_topology_mutations_per_turn (as_budget s)
  end.

Definition mode_of (kind : budget_kind) (s : AutonomyPolicySnapshot) : AutonomyOperationMode :=
  match kind with
  | Acquisitions => as_capability_acquisition_mode s
  | Switches => as_provider_switch_mode s
  | Topology => as_topology_mutation_mode s
  end.

Definition drawing_on (kind : budget_kind) (l : list CapabilityActionClass)
  : list CapabilityActionClass := filter (fun a => budget_of a = Some kind) l.

Lemma evaluate_policy_not_denied snapshot a bound b :
  (forall rule code, evaluate_policy snapshot a bound b <> DecisionDeny rule code) ->
  forall kind, budget_of a = Some kind ->
  mode_of kind snapshot <> ModeDeny /\
  (as_requires_kernel_binding snapshot = true -> bound = true) /\
  (u64_saturating_add (used kind b) 1 <= limit kind snapshot)%Z.
Proof.
  intros Hnd kind Hkind. unfold evaluate_policy, budget_deny_reason, would_exceed_budget in Hnd.
  destruct a; simpl in *; simplify_eq; simpl in *;
    (case_decide; [by destruct (Hnd _ _ eq_refl)|]);
    (destruct (as_requires_kernel_binding snapshot && negb bound) eqn:Hb;
       [by destruct (Hnd _ _ eq_refl)|]);
    (destruct (_ <? _)%Z eqn:Hlt; [by destruct (Hnd _ _ eq_refl)|]; apply Z.ltb_ge in Hlt);
    (split_and!; [done| |done]; intros Hk; rewrite Hk in Hb; by destruct bound).
Qed.

Lemma record_action_used kind a b :
  used kind (record_action b a) =
    if decide (budget_of a = Some kind) then u64_saturating_add (used kind b) 1 else used kind b.
Proof. by destruct a, kind. Qed.

Lemma prepare_turn_bounded snapshot bound intents b kind :
  (limit kind snapshot < u64_max)%Z -> (0 <= used kind b <= limit kind snapshot)%Z ->
  (used kind b + Z.of_nat (length (drawing_on kind (prepare_turn snapshot bound b intents)))
     <= limit kind snapshot)%Z /\
  (drawing_on kind (prepare_turn snapshot bound b intents) <> [] ->
     mode_of kind snapshot <> ModeDeny /\
     (as_requires_kernel_binding snapshot = true -> bound = true)).
Proof.
  intros Hlim. revert b. induction intents as [|[a approved] intents IH]; intros b Hb; simpl.
  { split; [lia|done]. }
  assert ((forall rule code, evaluate_policy snapshot a bound b <> DecisionDeny rule code) ->
    let l := a :: prepare_turn snapshot bound (record_action b a) intents in
    (used kind b + Z.of_nat (length (drawing_on kind l)) <= limit kind snapshot)%Z /\
    (drawing_on kind l <> [] -> mode_of kind snapshot <> ModeDeny /\
       (as_requires_kernel_binding snapshot = true -> bound = true))) as Hgo.
  { intros Hnd. pose proof (evaluate_policy_not_denied snapshot a bound b Hnd kind) as Ha.
    pose proof (record_action_used kind a b) as Hused. specialize (IH (record_action b a)).
    cbv zeta. unfold drawing_on in *. destruct (decide (budget_of a = Some kind)) as [Hk|Hk].
    - destruct (Ha Hk) as (Hmode & Hbind & Hle). unfold u64_saturating_add in *.
      rewrite filter_cons_True by done. rewrite Hused in IH. destruct IH as [IH _]; [lia|].
      cbn [length]. split; [lia|done].
    - rewrite filter_cons_False by done. rewrite Hused in IH. by apply IH. }
  assert (forall kind, drawing_on kind [] = []) as Hnil by done.
  destruct (evaluate_policy snapshot a bound b) as [|rule code|rule code].
  - by apply Hgo.
  - destruct approved; [by apply Hgo|]. rewrite Hnil. split; [simpl; lia|done].
  - rewrite Hnil. split; [simpl; lia|done].
Qed.

(** Whatever a turn asks for and whatever approvals it has, it
    prepares at most as many capability acquisitions, provider switches and
    topology mutations (policy and session mutations included) as the budget of
    the profile says, none of a kind the profile denies, and, where the profile
    requires it, none outside a kernel; discovery and the use of what is already
    there are always prepared. *)
Theorem autonomy_turn_bounded profile bound intents kind :
  let snapshot := AutonomyPolicySnapshot_from_profile profile in
  let prepared := prepare_turn snapshot bound AutonomyTurnBudgetState_default intents in
  (Z.of_nat (length (drawing_on kind prepared)) <= limit kind snapshot)%Z /\
  (drawing_on kind prepared <> [] ->
     mode_of kind snapshot <> ModeDeny /\
     (as_requires_kernel_binding snapshot = true -> bound = true)) /\
  (Forall (fun i => budget_of i.1 = None) intents -> prepared = intents.*1).
Proof.
  cbv zeta. split_and!.
  - pose proof (prepare_turn_bounded (AutonomyPolicySnapshot_from_profile profile) bound intents
      AutonomyTurnBudgetState_default kind) as [Hle _]; [by destruct profile, kind..|].
    by destruct kind.
  - apply prepare_turn_bounded; by destruct profile, kind.
  - generalize AutonomyTurnBudgetState_default.
    induction intents as [|[a approved] intents IH]; intros b Hall; [done|].
    inversion_clear Hall as [|? ? Ha Hrest]. destruct a; try done; simpl; by rewrite IH.
Qed.
