(* ===== verification/ControlEvents.v ===== *)
(** * The control plane's events

    [crates/app/src/control_plane.rs], [ControlPlaneManager]: counters of the
    state lanes, a global sequence number, a ring of recent events, and a
    broadcast of each event; and the server-sent stream of them in
    [crates/daemon/src/control_plane_server.rs].  The locks ignore poisoning, so
    their content is plain state.  [tokio]'s broadcast channel is the results its
    [recv] gives to a subscriber, a parameter. *)

From S2P Require Import Prelude RustStr Contracts Json.

Definition DEFAULT_RECENT_EVENT_LIMIT : nat := 256.
Definition CONTROL_PLANE_DEFAULT_EVENT_LIMIT : nat := 50.

Inductive ControlPlaneStateLane : Type := LanePresence | LaneHealth | LaneSessions | LaneApprovals | LaneAcp.

Inductive ControlPlaneEventKind : Type :=
| PresenceChanged | HealthChanged | SessionChanged | SessionMessage | ApprovalRequested
| ApprovalResolved | PairingRequested | PairingResolved | AcpSessionChanged | AcpTurnEvent.

Definition ControlPlaneEventKind_as_str (k : ControlPlaneEventKind) : string :=
  match k with
  | PresenceChanged => "presence.changed"
  | HealthChanged => "health.changed"
  | SessionChanged => "session.changed"
  | SessionMessage => "session.message"
  | ApprovalRequested => "approval.requested"
  | ApprovalResolved => "approval.resolved"
  | PairingRequested => "pairing.requested"
  | PairingResolved => "pairing.resolved"
  | AcpSessionChanged => "acp.session.changed"
  | AcpTurnEvent => "acp.turn.event"
  end.

Record ControlPlaneStateVersion : Type := {
  sv_presence : Z;
  sv_health : Z;
  sv_sessions : Z;
  sv_approvals : Z;
  sv_acp : Z;
}.

Record ControlPlaneSnapshotSummary : Type := {
  ss_state_version : ControlPlaneStateVersion;
  ss_presence_count : nat;
  ss_session_count : nat;
  ss_pending_approval_count : nat;
  ss_acp_session_count : nat;
  ss_runtime_ready : bool;
}.

Record ControlPlaneEventRecord : Type := {
  ev_kind : ControlPlaneEventKind;
  ev_event_name : string;
  ev_seq : Z;
  ev_state_version : ControlPlaneStateVersion;
  ev_payload : json;
  ev_targeted : bool;
}.

Record ControlPlaneSnapshotState : Type := {
  cs_presence_count : nat;
  cs_session_count : nat;
  cs_pending_approval_count : nat;
  cs_acp_session_count : nat;
}.

(** The atomics (the lane versions as one record), the two guarded states, and
    the events the broadcast channel was given, oldest first. *)
Record ControlPlaneManager : Type := {
  cm_seq : Z;
  cm_versions : ControlPlaneStateVersion;
  cm_runtime_ready : bool;
  cm_snapshot_state : ControlPlaneSnapshotState;
  cm_recent_events : list ControlPlaneEventRecord;
  cm_sent : list ControlPlaneEventRecord;
}.

Definition ControlPlaneManager_new : ControlPlaneManager := {|
  cm_seq := 0;
  cm_versions := {| sv_presence := 0; sv_health := 0; sv_sessions := 0; sv_approvals := 0; sv_acp := 0 |};
  cm_runtime_ready := false;
  cm_snapshot_state := {| cs_presence_count := 0; cs_session_count := 0;
                          cs_pending_approval_count := 0; cs_acp_session_count := 0 |};
  cm_recent_events := [];
  cm_sent := [];
|}.

(** *** Assignments *)

Definition cm_set_seq (n : Z) (m : ControlPlaneManager) : ControlPlaneManager := {|
  cm_seq := n; cm_versions := cm_versions m; cm_runtime_ready := cm_runtime_ready m;
  cm_snapshot_state := cm_snapshot_state m; cm_recent_events := cm_recent_events m;
  cm_sent := cm_sent m |}.

Definition cm_set_versions (v : ControlPlaneStateVersion) (m : ControlPlaneManager)
  : ControlPlaneManager := {|
  cm_seq := cm_seq m; cm_versions := v; cm_runtime_ready := cm_runtime_ready m;
  cm_snapshot_state := cm_snapshot_state m; cm_recent_events := cm_recent_events m;
  cm_sent := cm_sent m |}.

Definition cm_set_runtime_ready (b : bool) (m : ControlPlaneManager) : ControlPlaneManager := {|
  cm_seq := cm_seq m; cm_versions := cm_versions m; cm_runtime_ready := b;
  cm_snapshot_state := cm_snapshot_state m; cm_recent_events := cm_recent_events m;
  cm_sent := cm_sent m |}.

Definition cm_set_snapshot_state (s : ControlPlaneSnapshotState) (m : ControlPlaneManager)
  : ControlPlaneManager := {|
  cm_seq := cm_seq m; cm_versions := cm_versions m; cm_runtime_ready := cm_runtime_ready m;
  cm_snapshot_state := s; cm_recent_events := cm_recent_events m; cm_sent := cm_sent m |}.

Definition cm_set_events (recent sent : list ControlPlaneEventRecord) (m : ControlPlaneManager)
  : ControlPlaneManager := {|
  cm_seq := cm_seq m; cm_versions := cm_versions m; cm_runtime_ready := cm_runtime_ready m;
  cm_snapshot_state := cm_snapshot_state m; cm_recent_events := recent; cm_sent := sent |}.

Definition set_presence (n : nat) (s : ControlPlaneSnapshotState) : ControlPlaneSnapshotState := {|
  cs_presence_count := n; cs_session_count := cs_session_count s;
  cs_pending_approval_count := cs_pending_approval_count s;
  cs_acp_session_count := cs_acp_session_count s |}.
Definition set_session (n : nat) (s : ControlPlaneSnapshotState) : ControlPlaneSnapshotState := {|
  cs_presence_count := cs_presence_count s; cs_session_count := n;
  cs_pending_approval_count := cs_pending_approval_count s;
  cs_acp_session_count := cs_acp_session_count s |}.
Definition set_pending_approval (n : nat) (s : ControlPlaneSnapshotState)
  : ControlPlaneSnapshotState := {|
  cs_presence_count := cs_presence_count s; cs_session_count := cs_session_count s;
  cs_pending_approval_count := n; cs_acp_session_count := cs_acp_session_count s |}.
Definition set_acp_session (n : nat) (s : ControlPlaneSnapshotState) : ControlPlaneSnapshotState := {|
  cs_presence_count := cs_presence_count s; cs_session_count := cs_session_count s;
  cs_pending_approval_count := cs_pending_approval_count s; cs_acp_session_count := n |}.

(** ** The ring *)

(** [while deque.len() > limit { deque.pop_front(); }] *)
Fixpoint pop_front_over {A} (limit : nat) (l : list A) : list A :=
  match l with
  | [] => []
  | _ :: rest => if limit <? length l then pop_front_over limit rest else l
  end.

(** [usize::clamp]. *)
Definition clamp_usize (n lo hi : nat) : nat :=
  if n <? lo then lo else if hi <? n then hi else n.

Definition CPM := M ControlPlaneManager.

Definition ControlPlaneManager_push_recent_event (event : ControlPlaneEventRecord) : CPM unit :=
  modify (fun m => cm_set_events
    (pop_front_over DEFAULT_RECENT_EVENT_LIMIT (cm_recent_events m ++ [event]))
    (cm_sent m ++ [event]) m).

(** [fetch_add(1) + 1] on the lane's counter. *)
Definition bump_lane (lane : ControlPlaneStateLane) (v : ControlPlaneStateVersion)
  : ControlPlaneStateVersion :=
  let up (z : Z) := u64_wrapping_add z 1 in
  match lane with
  | LanePresence => {| sv_presence := up (sv_presence v); sv_health := sv_health v;
                       sv_sessions := sv_sessions v; sv_approvals := sv_approvals v; sv_acp := sv_acp v |}
  | LaneHealth => {| sv_presence := sv_presence v; sv_health := up (sv_health v);
                     sv_sessions := sv_sessions v; sv_approvals := sv_approvals v; sv_acp := sv_acp v |}
  | LaneSessions => {| sv_presence := sv_presence v; sv_health := sv_health v;
                       sv_sessions := up (sv_sessions v); sv_approvals := sv_approvals v; sv_acp := sv_acp v |}
  | LaneApprovals => {| sv_presence := sv_presence v; sv_health := sv_health v;
                        sv_sessions := sv_sessions v; sv_approvals := up (sv_approvals v); sv_acp := sv_acp v |}
  | LaneAcp => {| sv_presence := sv_presence v; sv_health := sv_health v;
                  sv_sessions := sv_sessions v; sv_approvals := sv_approvals v; sv_acp := up (sv_acp v) |}
  end.

Definition ControlPlaneManager_bump_version (lane : ControlPlaneStateLane) : CPM unit :=
  modify (fun m => cm_set_versions (bump_lane lane (cm_versions m)) m).

Definition ControlPlaneManager_state_version : CPM ControlPlaneStateVersion := gets cm_versions.

Definition event_record (kind : ControlPlaneEventKind) (seq : Z) (v : ControlPlaneStateVersion)
    (payload : json) (targeted : bool) : ControlPlaneEventRecord := {|
  ev_kind := kind; ev_event_name := ControlPlaneEventKind_as_str kind; ev_seq := seq;
  ev_state_version := v; ev_payload := payload; ev_targeted := targeted |}.

Definition ControlPlaneManager_record_event (lane : ControlPlaneStateLane)
    (kind : ControlPlaneEventKind) (payload : json) (targeted : bool)
  : CPM ControlPlaneEventRecord :=
  run! ControlPlaneManager_bump_version lane in
  run! modify (fun m => cm_set_seq (u64_wrapping_add (cm_seq m) 1) m) in
  let! seq := gets cm_seq in
  let! v := ControlPlaneManager_state_version in
  let event := event_record kind seq v payload targeted in
  run! ControlPlaneManager_push_recent_event event in
  ret event.

(** ** The methods *)

Definition ControlPlaneManager_snapshot (m : ControlPlaneManager) : ControlPlaneSnapshotSummary := {|
  ss_state_version := cm_versions m;
  ss_presence_count := cs_presence_count (cm_snapshot_state m);
  ss_session_count := cs_session_count (cm_snapshot_state m);
  ss_pending_approval_count := cs_pending_approval_count (cm_snapshot_state m);
  ss_acp_session_count := cs_acp_session_count (cm_snapshot_state m);
  ss_runtime_ready := cm_runtime_ready m;
|}.

(** [filter(|event| include_targeted || !event.targeted)] *)
Definition visible_event (include_targeted : bool) (e : ControlPlaneEventRecord) : bool :=
  include_targeted || negb (ev_targeted e).

Definition ControlPlaneManager_recent_events (limit : nat) (include_targeted : bool)
    (m : ControlPlaneManager) : list ControlPlaneEventRecord :=
  let bounded_limit := clamp_usize limit 1 DEFAULT_RECENT_EVENT_LIMIT in
  let events := filter (fun e => visible_event include_targeted e = true) (cm_recent_events m) in
  drop (length events - bounded_limit) events.

Definition ControlPlaneManager_recent_events_after (after_seq : Z) (limit : nat)
    (include_targeted : bool) (m : ControlPlaneManager) : list ControlPlaneEventRecord :=
  let bounded_limit := clamp_usize limit 1 DEFAULT_RECENT_EVENT_LIMIT in
  take bounded_limit
    (filter (fun e => after_seq < ev_seq e)%Z
       (filter (fun e => visible_event include_targeted e = true) (cm_recent_events m))).

Definition ControlPlaneManager_set_runtime_ready (b : bool) : CPM unit :=
  modify (cm_set_runtime_ready b).

Definition ControlPlaneManager_with_snapshot_state
    (mutate : ControlPlaneSnapshotState -> ControlPlaneSnapshotState) : CPM unit :=
  modify (fun m => cm_set_snapshot_state (mutate (cm_snapshot_state m)) m).

Definition ControlPlaneManager_set_presence_count (count : nat) : CPM unit :=
  ControlPlaneManager_with_snapshot_state (set_presence count).
Definition ControlPlaneManager_set_session_count (count : nat) : CPM unit :=
  ControlPlaneManager_with_snapshot_state (set_session count).
Definition ControlPlaneManager_set_pending_approval_count (count : nat) : CPM unit :=
  ControlPlaneManager_with_snapshot_state (set_pending_approval count).
Definition ControlPlaneManager_set_acp_session_count (count : nat) : CPM unit :=
  ControlPlaneManager_with_snapshot_state (set_acp_session count).

Definition ControlPlaneManager_record_presence_changed (count : nat) (payload : json) :=
  run! ControlPlaneManager_with_snapshot_state (set_presence count) in
  ControlPlaneManager_record_event LanePresence PresenceChanged payload false.

Definition ControlPlaneManager_record_health_changed (runtime_ready : bool) (payload : json) :=
  run! ControlPlaneManager_set_runtime_ready runtime_ready in
  ControlPlaneManager_record_event LaneHealth HealthChanged payload false.

Definition ControlPlaneManager_record_sessions_changed (count : nat) (payload : json) :=
  run! ControlPlaneManager_with_snapshot_state (set_session count) in
  ControlPlaneManager_record_event LaneSessions SessionChanged payload false.

Definition ControlPlaneManager_record_session_message (payload : json) (targeted : bool) :=
  ControlPlaneManager_record_event LaneSessions SessionMessage payload targeted.

Definition ControlPlaneManager_record_approval_requested (pending_count : nat) (payload : json) :=
  run! ControlPlaneManager_with_snapshot_state (set_pending_approval pending_count) in
  ControlPlaneManager_record_event LaneApprovals ApprovalRequested payload false.

Definition ControlPlaneManager_record_approval_resolved (pending_count : nat) (payload : json)
    (targeted : bool) :=
  run! ControlPlaneManager_with_snapshot_state (set_pending_approval pending_count) in
  ControlPlaneManager_record_event LaneApprovals ApprovalResolved payload targeted.

Definition ControlPlaneManager_record_pairing_requested (payload : json) :=
  ControlPlaneManager_record_event LaneApprovals PairingRequested payload false.

Definition ControlPlaneManager_record_pairing_resolved (payload : json) (targeted : bool) :=
  ControlPlaneManager_record_event LaneApprovals PairingResolved payload targeted.

Definition ControlPlaneManager_record_acp_session_changed (count : nat) (payload : json) :=
  run! ControlPlaneManager_with_snapshot_state (set_acp_session count) in
  ControlPlaneManager_record_event LaneAcp AcpSessionChanged payload false.

Definition ControlPlaneManager_record_acp_turn_event (payload : json) (targeted : bool) :=
  ControlPlaneManager_record_event LaneAcp AcpTurnEvent payload targeted.

(** [wait_for_recent_events], a loop around [notified().await] with a timeout.
    An iteration sees the manager as it is, the clock, and whether the wait ended
    with a notification; [None] when it is still waiting at the end of these. *)
Definition CONTROL_PLANE_MAX_WAIT_TIMEOUT_MS : Z := 30000.

Record WaitRound : Type := {
  wr_manager : ControlPlaneManager;
  wr_now : Z;
  wr_notified : bool;
}.

Fixpoint wait_loop (deadline : Z) (after_seq : Z) (limit : nat) (include_targeted : bool)
    (rounds : list WaitRound) : option (list ControlPlaneEventRecord) :=
  match rounds with
  | [] => None
  | r :: rounds =>
      let events := ControlPlaneManager_recent_events_after after_seq limit include_targeted
                      (wr_manager r) in
      match events with
      | _ :: _ => Some events
      | [] =>
          if (deadline <=? wr_now r)%Z then Some [] else
          if negb (wr_notified r) then Some [] else
          wait_loop deadline after_seq limit include_targeted rounds
      end
  end.

Definition ControlPlaneManager_wait_for_recent_events (after_seq : Z) (limit : nat)
    (include_targeted : bool) (timeout_ms start : Z) (rounds : list WaitRound)
  : option (list ControlPlaneEventRecord) :=
  let clamped_timeout_ms := Z.max 1 (Z.min timeout_ms CONTROL_PLANE_MAX_WAIT_TIMEOUT_MS) in
  wait_loop (start + clamped_timeout_ms) after_seq limit include_targeted rounds.

(** ** The server-sent stream

    [next_control_plane_sse_item] is a loop around [receiver.recv().await].
    [subscribe_poll] is the loop up to the [recv]: an event to emit, or a wait;
    [subscribe_received] is what follows a result of [recv]. *)

Inductive RecvResult (A : Type) : Type := RecvOk (a : A) | RecvLagged | RecvClosed.
Arguments RecvOk {A} a.
Arguments RecvLagged {A}.
Arguments RecvClosed {A}.

Record ControlPlaneSubscribeStreamState : Type := {
  sub_pending_events : list ControlPlaneEventRecord;
  sub_last_seq : Z;
  sub_include_targeted : bool;
}.

Definition initial_subscribe_state (after_seq : Z) (include_targeted : bool)
    (m : ControlPlaneManager) : ControlPlaneSubscribeStreamState := {|
  sub_pending_events :=
    ControlPlaneManager_recent_events_after after_seq CONTROL_PLANE_DEFAULT_EVENT_LIMIT
      include_targeted m;
  sub_last_seq := after_seq;
  sub_include_targeted := include_targeted;
|}.

Definition sub_set_last_seq (seq : Z) (st : ControlPlaneSubscribeStreamState)
  : ControlPlaneSubscribeStreamState := {|
  sub_pending_events := sub_pending_events st; sub_last_seq := seq;
  sub_include_targeted := sub_include_targeted st |}.

Definition sub_set_pending (l : list ControlPlaneEventRecord) (st : ControlPlaneSubscribeStreamState)
  : ControlPlaneSubscribeStreamState := {|
  sub_pending_events := l; sub_last_seq := sub_last_seq st;
  sub_include_targeted := sub_include_targeted st |}.

(** What the stream does next: emit an item, go on around the loop, wait for
    the channel, or end. *)
Inductive StreamNext (E St : Type) : Type :=
| StreamEmit (e : E) (st : St)
| StreamContinue (st : St)
| StreamAwait
| StreamEnd.
Arguments StreamEmit {E St} e st.
Arguments StreamContinue {E St} st.
Arguments StreamAwait {E St}.
Arguments StreamEnd {E St}.

Definition subscribe_poll (st : ControlPlaneSubscribeStreamState)
  : StreamNext ControlPlaneEventRecord ControlPlaneSubscribeStreamState :=
  match sub_pending_events st with
  | record :: rest =>
      StreamEmit record (sub_set_last_seq (ev_seq record) (sub_set_pending rest st))
  | [] => StreamAwait
  end.

Definition subscribe_received (m : ControlPlaneManager) (r : RecvResult ControlPlaneEventRecord)
    (st : ControlPlaneSubscribeStreamState)
  : StreamNext ControlPlaneEventRecord ControlPlaneSubscribeStreamState :=
  match r with
  | RecvOk record =>
      if (negb (sub_include_targeted st) && ev_targeted record) || (ev_seq record <=? sub_last_seq st)%Z
      then StreamContinue st
      else StreamEmit record (sub_set_last_seq (ev_seq record) st)
  | RecvLagged =>
      StreamContinue (sub_set_pending
        (ControlPlaneManager_recent_events_after (sub_last_seq st)
           CONTROL_PLANE_DEFAULT_EVENT_LIMIT (sub_include_targeted st) m) st)
  | RecvClosed => StreamEnd
  end.

(** The pending events go out one per call, without [recv]; the list bounds how
    many there are. *)
Fixpoint drain_pending (pending : list ControlPlaneEventRecord)
    (st : ControlPlaneSubscribeStreamState)
  : list ControlPlaneEventRecord * ControlPlaneSubscribeStreamState :=
  match pending with
  | [] => ([], st)
  | _ :: rest =>
      match subscribe_poll st with
      | StreamEmit record st' => let (out, st'') := drain_pending rest st' in (record :: out, st'')
      | _ => ([], st)
      end
  end.

(** [stream::unfold] of the two: the stream run against the results of [recv],
    each with the manager as it is then.  The events emitted, and the state the
    stream is left in, [None] when it ended. *)
Fixpoint subscribe_stream (rs : list (ControlPlaneManager * RecvResult ControlPlaneEventRecord))
    (st : ControlPlaneSubscribeStreamState)
  : list ControlPlaneEventRecord * option ControlPlaneSubscribeStreamState :=
  let (out, st) := drain_pending (sub_pending_events st) st in
  match rs with
  | [] => (out, Some st)
  | (m, r) :: rs =>
      match subscribe_received m r st with
      | StreamEmit record st' =>
          let (out', st'') := subscribe_stream rs st' in (out ++ record :: out', st'')
      | StreamContinue st' =>
          let (out', st'') := subscribe_stream rs st' in (out ++ out', st'')
      | StreamAwait | StreamEnd => (out, None)
      end
  end.

(** ** Concurrent recorders

    [record_event] takes [&self]: the bump of the lane, the [fetch_add] of the
    sequence number, the five loads of the versions and the push under the lock
    are separate atomic steps, and other threads' steps may come between them. *)

Inductive recorder : Type :=
| RecBump (lane : ControlPlaneStateLane) (kind : ControlPlaneEventKind) (payload : json) (targeted : bool)
| RecSeq (kind : ControlPlaneEventKind) (payload : json) (targeted : bool)
| RecLoad (kind : ControlPlaneEventKind) (payload : json) (targeted : bool) (seq : Z) (loaded : list Z)
| RecPush (event : ControlPlaneEventRecord)
| RecDone (event : ControlPlaneEventRecord).

(** The lane's counter the next load reads, in the order of the fields. *)
Definition version_lane (v : ControlPlaneStateVersion) (i : nat) : Z :=
  match i with
  | 0 => sv_presence v | 1 => sv_health v | 2 => sv_sessions v | 3 => sv_approvals v | _ => sv_acp v
  end.

Definition version_of (loaded : list Z) : ControlPlaneStateVersion :=
  let at_ i := default 0%Z (loaded !! i) in
  {| sv_presence := at_ 0; sv_health := at_ 1; sv_sessions := at_ 2; sv_approvals := at_ 3;
     sv_acp := at_ 4 |}.

Definition recorder_step (t : recorder) (m : ControlPlaneManager)
  : option (recorder * ControlPlaneManager) :=
  match t with
  | RecBump lane kind payload targeted =>
      Some (RecSeq kind payload targeted, cm_set_versions (bump_lane lane (cm_versions m)) m)
  | RecSeq kind payload targeted =>
      let seq := u64_wrapping_add (cm_seq m) 1 in
      Some (RecLoad kind payload targeted seq [], cm_set_seq seq m)
  | RecLoad kind payload targeted seq loaded =>
      let loaded := loaded ++ [version_lane (cm_versions m) (length loaded)] in
      Some (if length loaded <? 5 then RecLoad kind payload targeted seq loaded
            else RecPush (event_record kind seq (version_of loaded) payload targeted), m)
  | RecPush event =>
      Some (RecDone event, (ControlPlaneManager_push_recent_event event m).2)
  | RecDone _ => None
  end.

Inductive record_race : ControlPlaneManager * list recorder -> ControlPlaneManager * list recorder -> Prop :=
| record_race_step m m' ts i t t' :
    ts !! i = Some t -> recorder_step t m = Some (t', m') ->
    record_race (m, ts) (m', <[i := t']> ts).

Fixpoint recorder_alone (fuel : nat) (t : recorder) (m : ControlPlaneManager)
  : recorder * ControlPlaneManager :=
  match fuel with
  | O => (t, m)
  | S fuel =>
      match recorder_step t m with
      | Some (t', m') => recorder_alone fuel t' m'
      | None => (t, m)
      end
  end.
