(* ===== verification/ControlEventsFacts.v ===== *)
(** * Theorems about the control plane's events

    The ring and the sequence numbers along any calls of the manager, paging
    through the ring, the server-sent stream, and concurrent recorders. *)

From S2P Require Import Prelude RustStr Contracts Json AuditSinks ControlEvents.

(** ** The ring along any calls *)

Inductive ManagerCall : Type :=
| CallSetRuntimeReady (b : bool)
| CallSetPresenceCount (n : nat)
| CallSetSessionCount (n : nat)
| CallSetPendingApprovalCount (n : nat)
| CallSetAcpSessionCount (n : nat)
| CallPresenceChanged (n : nat) (payload : json)
| CallHealthChanged (b : bool) (payload : json)
| CallSessionsChanged (n : nat) (payload : json)
| CallSessionMessage (payload : json) (targeted : bool)
| CallApprovalRequested (n : nat) (payload : json)
| CallApprovalResolved (n : nat) (payload : json) (targeted : bool)
| CallPairingRequested (payload : json)
| CallPairingResolved (payload : json) (targeted : bool)
| CallAcpSessionChanged (n : nat) (payload : json)
| CallAcpTurnEvent (payload : json) (targeted : bool).

Definition as_unit {A} (m : CPM A) : CPM unit := run! m in ret tt.

Definition run_manager_call (c : ManagerCall) : CPM unit :=
  match c with
  | CallSetRuntimeReady b => ControlPlaneManager_set_runtime_ready b
  | CallSetPresenceCount n => ControlPlaneManager_set_presence_count n
  | CallSetSessionCount n => ControlPlaneManager_set_session_count n
  | CallSetPendingApprovalCount n => ControlPlaneManager_set_pending_approval_count n
  | CallSetAcpSessionCount n => ControlPlaneManager_set_acp_session_count n
  | CallPresenceChanged n p => as_unit (ControlPlaneManager_record_presence_changed n p)
  | CallHealthChanged b p => as_unit (ControlPlaneManager_record_health_changed b p)
  | CallSessionsChanged n p => as_unit (ControlPlaneManager_record_sessions_changed n p)
  | CallSessionMessage p t => as_unit (ControlPlaneManager_record_session_message p t)
  | CallApprovalRequested n p => as_unit (ControlPlaneManager_record_approval_requested n p)
  | CallApprovalResolved n p t => as_unit (ControlPlaneManager_record_approval_resolved n p t)
  | CallPairingRequested p => as_unit (ControlPlaneManager_record_pairing_requested p)
  | CallPairingResolved p t => as_unit (ControlPlaneManager_record_pairing_resolved p t)
  | CallAcpSessionChanged n p => as_unit (ControlPlaneManager_record_acp_session_changed n p)
  | CallAcpTurnEvent p t => as_unit (ControlPlaneManager_record_acp_turn_event p t)
  end.

(** How many events a call records. *)
Definition records_event (c : ManagerCall) : nat :=
  match c with
  | CallSetRuntimeReady _ | CallSetPresenceCount _ | CallSetSessionCount _
  | CallSetPendingApprovalCount _ | CallSetAcpSessionCount _ => 0
  | _ => 1
  end.

Definition run_manager_calls (cs : list ManagerCall) (m : ControlPlaneManager)
  : ControlPlaneManager := foldl (fun m c => (run_manager_call c m).2) m cs.

(** The versions of all lanes together. *)
Definition lanes_total (v : ControlPlaneStateVersion) : Z :=
  sv_presence v + sv_health v + sv_sessions v + sv_approvals v + sv_acp v.

Definition lanes_valid (v : ControlPlaneStateVersion) : Prop :=
  (0 <= sv_presence v)%Z /\ (0 <= sv_health v)%Z /\ (0 <= sv_sessions v)%Z /\
  (0 <= sv_approvals v)%Z /\ (0 <= sv_acp v)%Z.

Record manager_inv (n : nat) (m : ControlPlaneManager) : Prop := {
  mi_seq : cm_seq m = Z.of_nat n;
  mi_valid : lanes_valid (cm_versions m);
  mi_total : lanes_total (cm_versions m) = Z.of_nat n;
  mi_sent : ev_seq <$> cm_sent m = Z.of_nat <$> seq 1 n;
  mi_versions : Forall (fun e => lanes_total (ev_state_version e) = ev_seq e) (cm_sent m);
  mi_names : Forall (fun e => ev_event_name e = ControlPlaneEventKind_as_str (ev_kind e)) (cm_sent m);
  mi_ring : cm_recent_events m = last_n DEFAULT_RECENT_EVENT_LIMIT (cm_sent m);
}.

Lemma pop_front_over_last {A} limit (l : list A) : pop_front_over limit l = last_n limit l.
Proof.
  unfold last_n. induction l as [|x l IH]; [done|]. cbn [pop_front_over].
  destruct (Nat.ltb_spec limit (length (x :: l))) as [Hlt|Hge].
  - rewrite IH. simpl in *. replace (S (length l) - limit) with (S (length l - limit)) by lia. done.
  - replace (length (x :: l) - limit) with 0 by lia. done.
Qed.

Lemma last_n_push {A} n (l : list A) x : 0 < n -> last_n n (last_n n l ++ [x]) = last_n n (l ++ [x]).
Proof.
  intros Hn. unfold last_n. rewrite !length_app, length_drop. simpl.
  destruct (decide (length l <= n)) as [Hle|Hgt].
  - replace (length l - n) with 0 by lia. rewrite drop_0.
    do 2 f_equal. lia.
  - rewrite <- (drop_app_le l [x] (length l - n)) by lia. rewrite drop_drop. f_equal. lia.
Qed.

Lemma bump_lane_total lane v :
  lanes_valid v -> (lanes_total v < u64_max)%Z ->
  lanes_valid (bump_lane lane v) /\ lanes_total (bump_lane lane v) = (lanes_total v + 1)%Z.
Proof.
  unfold lanes_valid, lanes_total. intros Hv Hlt.
  destruct lane; simpl; rewrite u64_wrapping_add_small by (unfold u64_valid, u64_max, u64_modulus in *; lia); lia.
Qed.

Lemma record_event_inv n lane kind payload targeted m :
  manager_inv n m -> (Z.of_nat n < u64_max)%Z ->
  manager_inv (S n) (ControlPlaneManager_record_event lane kind payload targeted m).2.
Proof.
  intros [Hseq Hv Htot Hsent Hver Hname Hring] Hn.
  assert (Hs : u64_wrapping_add (cm_seq m) 1 = Z.of_nat (S n)).
  { rewrite Hseq, u64_wrapping_add_small; unfold u64_valid, u64_max, u64_modulus in *; lia. }
  destruct (bump_lane_total lane (cm_versions m)) as [Hv' Ht']; [done|by rewrite Htot|].
  unfold ControlPlaneManager_record_event, ControlPlaneManager_bump_version, bind, modify, gets,
    ControlPlaneManager_state_version, ControlPlaneManager_push_recent_event, modify, ret; simpl.
  split; cbn -[seq fmap list_fmap Z.of_nat]; rewrite ?Hs; try done; try lia.
  - by rewrite fmap_app, Hsent, seq_S, fmap_app.
  - rewrite Forall_app, Forall_singleton. split; [done|]. simpl. lia.
  - rewrite Forall_app, Forall_singleton. by split.
  - rewrite pop_front_over_last, Hring. by apply last_n_push; unfold DEFAULT_RECENT_EVENT_LIMIT; lia.
Qed.

Lemma manager_inv_quiet n m s b :
  manager_inv n m -> manager_inv n (cm_set_snapshot_state s (cm_set_runtime_ready b m)).
Proof. by intros []. Qed.

Lemma as_unit_state {A} (r : CPM A) m : (as_unit r m).2 = (r m).2.
Proof. unfold as_unit, bind. by destruct (r m) as [[a|p] m']. Qed.

Lemma modify_then_record n f lane kind payload targeted m :
  manager_inv n (f m) -> (Z.of_nat n < u64_max)%Z ->
  manager_inv (S n) ((run! modify f in
    ControlPlaneManager_record_event lane kind payload targeted) m).2.
Proof. apply record_event_inv. Qed.

Lemma run_manager_call_inv n c m :
  manager_inv n m -> (Z.of_nat (n + records_event c) <= u64_max)%Z ->
  manager_inv (n + records_event c) (run_manager_call c m).2.
Proof.
  intros Hm Hn.
  destruct c; cbn [records_event] in *; rewrite ?Nat.add_0_r, ?Nat.add_1_r in *;
    cbn [run_manager_call]; rewrite ?as_unit_state.
  1-5: by destruct Hm.
  4, 7, 8, 10: apply record_event_inv; [done|lia].
  all: apply modify_then_record; [by destruct Hm|lia].
Qed.

Lemma manager_inv_new : manager_inv 0 ControlPlaneManager_new.
Proof. by split. Qed.

Lemma run_manager_calls_inv n cs m :
  manager_inv n m -> (Z.of_nat (n + sum_list_with records_event cs) <= u64_max)%Z ->
  manager_inv (n + sum_list_with records_event cs) (run_manager_calls cs m).
Proof.
  revert n m. induction cs as [|c cs IH]; intros n m Hm Hn; simpl in *; [by rewrite Nat.add_0_r|].
  rewrite Nat.add_assoc. apply IH; [|by rewrite <- Nat.add_assoc].
  apply run_manager_call_inv; [done|]. lia.
Qed.

(** ** Lists ordered by sequence number *)

Definition seq_before (a b : ControlPlaneEventRecord) : Prop := (ev_seq a < ev_seq b)%Z.
Definition seq_sorted : list ControlPlaneEventRecord -> Prop := StronglySorted seq_before.

#[export] Instance seq_before_trans : Transitive seq_before.
Proof. intros a b c. unfold seq_before. lia. Qed.

Lemma StronglySorted_filter {A} (R : relation A) (P : A -> Prop) `{!forall x, Decision (P x)} l :
  StronglySorted R l -> StronglySorted R (filter P l).
Proof.
  induction 1 as [|x l _ IH Hx]; [constructor|]. rewrite filter_cons.
  destruct (decide (P x)); [|done]. constructor; [done|].
  rewrite Forall_forall in *. intros y [_ Hy]%list_elem_of_filter. by apply Hx.
Qed.

Lemma StronglySorted_drop {A} (R : relation A) n l : StronglySorted R l -> StronglySorted R (drop n l).
Proof.
  intros H. rewrite <- (take_drop n l) in H. by apply StronglySorted_app in H as (_ & _ & H).
Qed.

Lemma StronglySorted_take {A} (R : relation A) n l : StronglySorted R l -> StronglySorted R (take n l).
Proof.
  intros H. rewrite <- (take_drop n l) in H. by apply StronglySorted_app in H as (_ & H & _).
Qed.

Lemma consecutive_sorted n l : ev_seq <$> l = Z.of_nat <$> seq (S n) (length l) -> seq_sorted l.
Proof.
  revert n. induction l as [|e l IH]; intros n Hl; [constructor|].
  cbn -[Z.of_nat] in Hl. injection Hl as He Hl. constructor; [by apply (IH (S n))|].
  rewrite Forall_forall. intros x Hx. unfold seq_before. rewrite He.
  assert (Hin : ev_seq x ∈ Z.of_nat <$> seq (S (S n)) (length l)) by (rewrite <- Hl; by apply list_elem_of_fmap_2).
  apply list_elem_of_fmap in Hin as (k & -> & Hk%elem_of_seq). lia.
Qed.

Lemma manager_inv_sent_length n m : manager_inv n m -> length (cm_sent m) = n.
Proof.
  intros H. pose proof (f_equal length (mi_sent _ _ H)) as Hl.
  by rewrite !length_fmap, length_seq in Hl.
Qed.

Lemma manager_inv_sorted n m : manager_inv n m -> seq_sorted (cm_recent_events m).
Proof.
  intros H. rewrite (mi_ring _ _ H). apply StronglySorted_drop, (consecutive_sorted 0).
  rewrite (manager_inv_sent_length n m H). apply (mi_sent _ _ H).
Qed.

(** The events a reader may see after a sequence number. *)
Definition newer (after_seq : Z) (include_targeted : bool) (l : list ControlPlaneEventRecord)
  : list ControlPlaneEventRecord :=
  filter (fun e => after_seq < ev_seq e)%Z
    (filter (fun e => visible_event include_targeted e = true) l).

Lemma elem_of_newer after incl l e :
  e ∈ newer after incl l <-> e ∈ l /\ visible_event incl e = true /\ (after < ev_seq e)%Z.
Proof. unfold newer. rewrite !list_elem_of_filter. tauto. Qed.

Lemma newer_sorted after incl l : seq_sorted l -> seq_sorted (newer after incl l).
Proof. intros H. by apply StronglySorted_filter, StronglySorted_filter. Qed.

Lemma filter_all {A} (P : A -> Prop) `{!forall x, Decision (P x)} l : Forall P l -> filter P l = l.
Proof. induction 1 as [|x l Hx _ IH]; [done|]. by rewrite filter_cons_True, IH. Qed.

Lemma filter_none {A} (P : A -> Prop) `{!forall x, Decision (P x)} l :
  Forall (fun x => ~ P x) l -> filter P l = [].
Proof. induction 1 as [|x l Hx _ IH]; [done|]. by rewrite filter_cons_False, IH. Qed.

(** Past an element of a sorted list, only what follows it is newer. *)
Lemma sorted_after l1 e l2 :
  seq_sorted (l1 ++ e :: l2) -> filter (fun x => ev_seq e < ev_seq x)%Z (l1 ++ e :: l2) = l2.
Proof.
  intros (Hlt & _ & [He H2]%StronglySorted_cons)%StronglySorted_app.
  rewrite filter_app, filter_none, filter_cons_False; [|lia|].
  - simpl. apply filter_all. exact He.
  - rewrite Forall_forall. intros x Hx.
    specialize (Hlt x e Hx ltac:(set_solver)). unfold seq_before in Hlt. lia.
Qed.

Lemma newer_after after incl l l1 e l2 :
  seq_sorted l -> newer after incl l = l1 ++ e :: l2 -> newer (ev_seq e) incl l = l2.
Proof.
  intros Hs Hn.
  assert (Hv : filter (fun x => ev_seq e < ev_seq x)%Z (newer after incl l) = l2).
  { rewrite Hn. apply sorted_after. rewrite <- Hn. by apply newer_sorted. }
  assert ((after < ev_seq e)%Z) by (apply (elem_of_newer after incl l e); rewrite Hn; set_solver).
  rewrite <- Hv. unfold newer. generalize (filter (fun e0 => visible_event incl e0 = true) l).
  intros w. rewrite list_filter_filter. apply list_filter_iff. intros x. lia.
Qed.

Lemma recent_events_after_newer after limit incl m :
  ControlPlaneManager_recent_events_after after limit incl m
  = take (clamp_usize limit 1 DEFAULT_RECENT_EVENT_LIMIT) (newer after incl (cm_recent_events m)).
Proof. done. Qed.

Lemma clamp_usize_bounds n lo hi : lo <= hi -> lo <= clamp_usize n lo hi <= hi.
Proof. intros H. unfold clamp_usize. repeat case_match; rewrite ?Nat.ltb_lt, ?Nat.ltb_ge in *; lia. Qed.

(** C35 (invariant). Along any calls of the manager that record fewer than 2^64
    events: the events carry the consecutive numbers 1, 2, 3, ... and the name
    of their kind; the ring holds exactly the last 256; and an event's five lane
    versions add up to its number, so each event advanced exactly one lane. *)
Theorem control_events_ring cs :
  (Z.of_nat (sum_list_with records_event cs) <= u64_max)%Z ->
  let m := run_manager_calls cs ControlPlaneManager_new in
  ev_seq <$> cm_sent m = Z.of_nat <$> seq 1 (sum_list_with records_event cs) /\
  cm_recent_events m = last_n DEFAULT_RECENT_EVENT_LIMIT (cm_sent m) /\
  Forall (fun e => ev_event_name e = ControlPlaneEventKind_as_str (ev_kind e) /\
                   lanes_total (ev_state_version e) = ev_seq e) (cm_sent m) /\
  lanes_total (cm_versions m) = cm_seq m.
Proof.
  intros Hn m. pose proof (run_manager_calls_inv 0 cs _ manager_inv_new Hn) as H. fold m in H.
  split_and!; [apply H|apply H| |by rewrite (mi_total _ _ H), (mi_seq _ _ H)].
  apply Forall_and. split; apply H.
Qed.

(** ** Paging *)

(** A client that asks for the events after the last one it was given. *)
Fixpoint read_pages (fuel limit : nat) (include_targeted : bool) (after_seq : Z)
    (m : ControlPlaneManager) : list ControlPlaneEventRecord :=
  match fuel with
  | O => []
  | S fuel =>
      let page := ControlPlaneManager_recent_events_after after_seq limit include_targeted m in
      match last page with
      | None => []
      | Some e => page ++ read_pages fuel limit include_targeted (ev_seq e) m
      end
  end.

Lemma read_pages_newer fuel limit incl after m :
  seq_sorted (cm_recent_events m) -> length (newer after incl (cm_recent_events m)) < fuel ->
  read_pages fuel limit incl after m = newer after incl (cm_recent_events m).
Proof.
  intros Hs. revert after. induction fuel as [|fuel IH]; intros after Hlen; [lia|].
  cbn [read_pages]. rewrite recent_events_after_newer.
  set (k := clamp_usize limit 1 DEFAULT_RECENT_EVENT_LIMIT).
  assert (Hk : 1 <= k) by (apply clamp_usize_bounds; unfold DEFAULT_RECENT_EVENT_LIMIT; lia).
  destruct (last (take k _)) as [e|] eqn:Hlast.
  - apply last_Some in Hlast as [p Hp].
    assert (Hsplit : newer after incl (cm_recent_events m)
                     = p ++ e :: drop k (newer after incl (cm_recent_events m))).
    { rewrite <- (take_drop k (newer _ _ _)) at 1. by rewrite Hp, <- app_assoc. }
    pose proof (newer_after _ _ _ _ _ _ Hs Hsplit) as Hnext.
    rewrite Hp, IH, Hnext; [by rewrite <- app_assoc; symmetry|].
    rewrite Hnext. rewrite Hsplit, length_app in Hlen. simpl in Hlen. lia.
  - apply last_None in Hlast. destruct (newer after incl _); [done|].
    destruct k; [lia|done].
Qed.

Lemma last_n_length {A} n (l : list A) : length (last_n n l) <= n.
Proof. unfold last_n. rewrite length_drop. lia. Qed.

(** Reading page after page, each from the last event of the
    one before and with any page size, gives every retained event after the
    starting point that the reader may see, once and in order, in at most 257
    requests. *)
Theorem paging_complete cs limit incl after :
  (Z.of_nat (sum_list_with records_event cs) <= u64_max)%Z ->
  let m := run_manager_calls cs ControlPlaneManager_new in
  read_pages 257 limit incl after m = newer after incl (cm_recent_events m) /\
  forall e, e ∈ newer after incl (cm_recent_events m) <->
    e ∈ cm_recent_events m /\ visible_event incl e = true /\ (after < ev_seq e)%Z.
Proof.
  intros Hn m. pose proof (run_manager_calls_inv 0 cs _ manager_inv_new Hn) as H. fold m in H.
  split; [|intros; apply elem_of_newer].
  apply read_pages_newer; [by eapply manager_inv_sorted|].
  unfold newer. apply Nat.lt_succ_r. etransitivity; [apply length_filter|].
  etransitivity; [apply length_filter|]. rewrite (mi_ring _ _ H). apply last_n_length.
Qed.

(** ** The stream *)

(** The events of [l] come after [n], in order, and the subscriber may see them. *)
Definition delivers (n : Z) (incl : bool) (l : list ControlPlaneEventRecord) : Prop :=
  seq_sorted l /\ Forall (fun e => (n < ev_seq e)%Z /\ visible_event incl e = true) l.

Lemma delivers_newer n incl l : seq_sorted l -> delivers n incl (newer n incl l).
Proof.
  intros Hs. split; [by apply newer_sorted|]. apply Forall_forall. intros e He%elem_of_newer. tauto.
Qed.

Lemma delivers_take k n incl l : delivers n incl l -> delivers n incl (take k l).
Proof. intros [Hs Hf]. split; [by apply StronglySorted_take|by apply Forall_take]. Qed.

(** Where the stream is after emitting [l]. *)
Definition last_seq_of (n : Z) (l : list ControlPlaneEventRecord) : Z :=
  default n (ev_seq <$> last l).

Lemma delivers_app n incl l1 l2 :
  delivers n incl l1 -> delivers (last_seq_of n l1) incl l2 -> delivers n incl (l1 ++ l2).
Proof.
  intros [Hs1 Hf1] [Hs2 Hf2]. unfold last_seq_of in Hf2.
  destruct (last l1) as [e|] eqn:Hl; [|apply last_None in Hl as ->; by split].
  simpl in Hf2. apply last_Some in Hl as [p ->].
  assert (Hle : forall x, x ∈ p ++ [e] -> (ev_seq x <= ev_seq e)%Z).
  { intros x [Hx| ->%list_elem_of_singleton]%elem_of_app; [|lia].
    apply StronglySorted_app in Hs1 as (Hlt & _ & _).
    specialize (Hlt x e Hx ltac:(set_solver)). unfold seq_before in Hlt. lia. }
  rewrite Forall_forall in Hf1, Hf2. split.
  - apply StronglySorted_app. split_and!; [|done|done].
    intros x y Hx%Hle [Hy _]%Hf2. unfold seq_before. lia.
  - apply Forall_app. split; apply Forall_forall; [done|]. intros x [Hx Hv]%Hf2. split; [|done].
    destruct (Hf1 e ltac:(set_solver)). lia.
Qed.

Lemma drain_pending_all l st :
  sub_pending_events st = l ->
  drain_pending l st = (l, sub_set_last_seq (last_seq_of (sub_last_seq st) l) (sub_set_pending [] st)).
Proof.
  revert st. induction l as [|e l IH]; intros st Hst; cbn [drain_pending].
  - destruct st; simpl in *; subst. done.
  - unfold subscribe_poll. rewrite Hst, IH by done. unfold last_seq_of. rewrite last_cons.
    destruct (last l); done.
Qed.

Lemma subscribe_stream_delivers rs st :
  Forall (fun p => seq_sorted (cm_recent_events p.1)) rs ->
  delivers (sub_last_seq st) (sub_include_targeted st) (sub_pending_events st) ->
  delivers (sub_last_seq st) (sub_include_targeted st) (subscribe_stream rs st).1.
Proof.
  intros Hrs. revert st. induction Hrs as [|[m r] rs Hm _ IH]; intros st Hst; cbn [subscribe_stream];
    rewrite drain_pending_all by done; [done|].
  set (n := last_seq_of _ _). cbn [subscribe_received]. destruct r as [e| |]; cbn -[u64_wrapping_add].
  - destruct ((negb (sub_include_targeted st) && ev_targeted e) || (ev_seq e <=? n)%Z) eqn:Hskip.
    + specialize (IH (sub_set_last_seq n (sub_set_pending [] st))).
      destruct (subscribe_stream rs _). apply delivers_app; [done|]. apply IH. by split; constructor.
    + specialize (IH (sub_set_last_seq (ev_seq e) (sub_set_last_seq n (sub_set_pending [] st)))).
      destruct (subscribe_stream rs _). apply delivers_app; [done|].
      apply orb_false_iff in Hskip as [Ht Hseq%Z.leb_gt].
      apply (delivers_app _ _ [e]); [|apply IH; by split; constructor].
      split; [by repeat constructor|]. constructor; [|constructor]. split; [done|].
      unfold visible_event. by destruct (sub_include_targeted st), (ev_targeted e).
  - specialize (IH (sub_set_pending (ControlPlaneManager_recent_events_after n
                      CONTROL_PLANE_DEFAULT_EVENT_LIMIT (sub_include_targeted st) m)
                      (sub_set_last_seq n (sub_set_pending [] st)))).
    destruct (subscribe_stream rs _). apply delivers_app; [done|]. apply IH.
    apply delivers_take. by apply delivers_newer.
  - done.
Qed.

(** A manager whose calls ran one after the other. *)
Definition sequential (m : ControlPlaneManager) : Prop :=
  exists cs, m = run_manager_calls cs ControlPlaneManager_new /\
    (Z.of_nat (sum_list_with records_event cs) <= u64_max)%Z.

Lemma sequential_sorted m : sequential m -> seq_sorted (cm_recent_events m).
Proof.
  intros (cs & -> & Hn). eapply manager_inv_sorted, (run_manager_calls_inv 0); [apply manager_inv_new|exact Hn].
Qed.

(** Whatever the broadcast channel answers (records in any order, lags, closing)
    and however the ring grows meanwhile. *)
Lemma subscription_delivers after incl m rs :
  sequential m -> Forall (fun p => sequential p.1) rs ->
  delivers after incl (subscribe_stream rs (initial_subscribe_state after incl m)).1.
Proof.
  intros Hm%sequential_sorted Hrs.
  apply (subscribe_stream_delivers rs (initial_subscribe_state after incl m)).
  - eapply Forall_impl; [exact Hrs|]. intros p. apply sequential_sorted.
  - apply delivers_take. by apply delivers_newer.
Qed.

Lemma filter_ext_in {A} (P Q : A -> Prop) `{!forall x, Decision (P x), !forall x, Decision (Q x)} (l : list A) :
  (forall x, x ∈ l -> P x <-> Q x) -> filter P l = filter Q l.
Proof.
  induction l as [|x l IH]; intros Hl; [done|]. rewrite !filter_cons, IH by set_solver.
  assert (P x <-> Q x) by set_solver. destruct (decide (P x)), (decide (Q x)); tauto || done.
Qed.

(** With every record received and none refused, the stream adds exactly the
    visible records newer than where it stands. *)
Lemma subscribe_stream_received rs l st :
  rs.*2 = RecvOk <$> l -> sub_pending_events st = [] -> seq_sorted l ->
  (subscribe_stream rs st).1 = newer (sub_last_seq st) (sub_include_targeted st) l.
Proof.
  revert l st. induction rs as [|[m r] rs IH]; intros [|e l] st Hrs Hst Hs; try done;
    cbn [subscribe_stream]; rewrite drain_pending_all, Hst by done; [done|].
  cbn [fmap list_fmap snd] in Hrs. injection Hrs as -> Hrs.
  apply StronglySorted_cons in Hs as [He Hs].
  cbn [subscribe_received last_seq_of last fmap option_fmap option_map default].
  unfold newer at 1. rewrite filter_cons. fold (newer (sub_last_seq st) (sub_include_targeted st) l).
  set (st' := sub_set_last_seq (sub_last_seq st) (sub_set_pending [] st)).
  change (sub_include_targeted st') with (sub_include_targeted st).
  change (sub_last_seq st') with (sub_last_seq st).
  destruct (Z.leb_spec (ev_seq e) (sub_last_seq st)) as [Hle|Hgt].
  - rewrite orb_true_r. specialize (IH l st' Hrs eq_refl Hs). destruct (subscribe_stream _ st'). simpl in *.
    rewrite IH. destruct (decide _); [|done]. rewrite filter_cons_False by lia. done.
  - rewrite orb_false_r. destruct (negb _ && _) eqn:Ht.
    + specialize (IH l st' Hrs eq_refl Hs). destruct (subscribe_stream _ st'). simpl in *. rewrite IH.
      rewrite decide_False; [done|]. unfold visible_event.
      by destruct (sub_include_targeted st), (ev_targeted e).
    + specialize (IH l (sub_set_last_seq (ev_seq e) st') Hrs eq_refl Hs).
      destruct (subscribe_stream _ _). simpl in *. rewrite IH.
      rewrite decide_True by (unfold visible_event; by destruct (sub_include_targeted st), (ev_targeted e)).
      rewrite filter_cons_True by lia. f_equal. unfold newer. apply filter_ext_in.
      intros x [_ Hx]%list_elem_of_filter. rewrite Forall_forall in He. apply He in Hx.
      unfold seq_before in Hx. lia.
Qed.

(** The pending events go out first. *)
Lemma subscribe_stream_drain rs st :
  (subscribe_stream rs st).1 = sub_pending_events st ++
    (subscribe_stream rs (sub_set_last_seq (last_seq_of (sub_last_seq st) (sub_pending_events st))
                            (sub_set_pending [] st))).1.
Proof.
  destruct rs as [|[m e] rs]; cbn [subscribe_stream]; rewrite !drain_pending_all by done.
  - symmetry. apply app_nil_r.
  - set (st' := sub_set_last_seq (last_seq_of (sub_last_seq st) (sub_pending_events st)) (sub_set_pending [] st)).
    replace (sub_set_last_seq _ (sub_set_pending [] st')) with st' by done.
    destruct (subscribe_received _ _ _); try destruct (subscribe_stream rs _); done || by rewrite app_nil_r.
Qed.

(** The log of the events sent only grows. *)
Lemma record_event_sent lane kind payload targeted m :
  exists t, cm_sent (ControlPlaneManager_record_event lane kind payload targeted m).2 = cm_sent m ++ t.
Proof.
  unfold ControlPlaneManager_record_event, ControlPlaneManager_bump_version, bind, modify, gets,
    ControlPlaneManager_state_version, ControlPlaneManager_push_recent_event, modify, ret; simpl.
  by eexists.
Qed.

Lemma modify_record_sent f lane kind payload targeted m :
  cm_sent (f m) = cm_sent m ->
  exists t, cm_sent ((run! modify f in
    ControlPlaneManager_record_event lane kind payload targeted) m).2 = cm_sent m ++ t.
Proof. intros <-. apply (record_event_sent lane kind payload targeted (f m)). Qed.

Lemma run_manager_call_sent c m : exists t, cm_sent (run_manager_call c m).2 = cm_sent m ++ t.
Proof.
  destruct c; cbn [run_manager_call]; rewrite ?as_unit_state.
  1-5: exists []; symmetry; apply app_nil_r.
  4, 7, 8, 10: apply record_event_sent.
  all: by apply modify_record_sent.
Qed.

Lemma run_manager_calls_sent cs m : exists t, cm_sent (run_manager_calls cs m) = cm_sent m ++ t.
Proof.
  revert m. induction cs as [|c cs IH]; intros m; [exists []; symmetry; apply app_nil_r|].
  destruct (run_manager_call_sent c m) as [t Ht], (IH (run_manager_call c m).2) as [t' Ht'].
  exists (t ++ t'). change (run_manager_calls (c :: cs) m) with (run_manager_calls cs (run_manager_call c m).2).
  by rewrite Ht', Ht, app_assoc.
Qed.

(** Past the last event of a ring that [t1] ends, nothing of [t1] is newer and
    what is newer of later events is what was newer before. *)
Lemma newer_past_ring after incl ring t1 t2 :
  seq_sorted (ring ++ t1 ++ t2) ->
  newer (last_seq_of after (newer after incl (ring ++ t1))) incl (t1 ++ t2) = newer after incl t2.
Proof.
  rewrite app_assoc. intros (Hlt & Hring & Ht2)%StronglySorted_app.
  set (sent := newer after incl (ring ++ t1)) in *.
  assert (Hlast : forall e, e ∈ sent -> (ev_seq e <= last_seq_of after sent)%Z).
  { pose proof (newer_sorted after incl _ Hring) as Hs. fold sent in Hs. unfold last_seq_of.
    destruct (last sent) as [x|] eqn:Hl; [|apply last_None in Hl; rewrite Hl; set_solver].
    apply last_Some in Hl as [p Hl]. rewrite Hl in *. apply StronglySorted_app in Hs as (Hp & _ & _).
    simpl. intros e [He| ->%list_elem_of_singleton]%elem_of_app; [|lia].
    specialize (Hp e x He ltac:(set_solver)). unfold seq_before in Hp. lia. }
  assert (Hge : (after <= last_seq_of after sent)%Z).
  { unfold last_seq_of. destruct (last sent) as [x|] eqn:Hl; simpl; [|lia].
    assert (x ∈ sent) as (_ & _ & ?)%elem_of_newer by (apply last_Some in Hl as [p ->]; set_solver). lia. }
  unfold newer at 1. rewrite !filter_app. rewrite (filter_none _ (filter _ t1)); [simpl|].
  - apply filter_ext_in. intros x [_ Hx]%list_elem_of_filter. split; [lia|]. intros Ha.
    unfold last_seq_of. destruct (last sent) as [e|] eqn:Hl; simpl; [|done].
    assert (e ∈ sent) as (He & _ & _)%elem_of_newer by (apply last_Some in Hl as [p ->]; set_solver).
    by apply (Hlt e x He Hx).
  - apply Forall_forall. intros x [Hv Hx]%list_elem_of_filter Hgt.
    assert (x ∈ sent) as Hin%Hlast by (apply elem_of_newer; split_and!; [set_solver|done|lia]). lia.
Qed.

(** C37 (liveness). The manager's calls run one after the other: [c0] before the
    subscriber joins the channel, [c1] (at most 256 events, what channel and ring
    hold) until it reads the ring, [c2] afterwards, with fewer than 2^64 events in
    all.  Then whatever the channel answers (records again or in any order, lags,
    closing), the subscriber is sent events with strictly increasing numbers, so
    none twice, all newer than the point it asked for and all ones it may see.  And
    when at most 50 retained events are newer than that point and the channel hands
    it every record since it joined, also those it has read from the ring already,
    it is sent exactly the retained and the later events it may see.  Recorders
    that overlap are not covered: they may publish out of order. *)
Theorem subscription_complete after incl c0 c1 c2 :
  (Z.of_nat (sum_list_with records_event (c0 ++ c1 ++ c2)) <= u64_max)%Z ->
  sum_list_with records_event c1 <= DEFAULT_RECENT_EVENT_LIMIT ->
  let m0 := run_manager_calls c0 ControlPlaneManager_new in
  let m1 := run_manager_calls c1 m0 in
  let m2 := run_manager_calls c2 m1 in
  let out rs := (subscribe_stream rs (initial_subscribe_state after incl m1)).1 in
  (forall rs, Forall (fun p => sequential p.1) rs ->
     seq_sorted (out rs) /\
     Forall (fun e => (after < ev_seq e)%Z /\ visible_event incl e = true) (out rs)) /\
  (length (newer after incl (cm_recent_events m1)) <= CONTROL_PLANE_DEFAULT_EVENT_LIMIT ->
   forall rs, rs.*2 = RecvOk <$> drop (length (cm_sent m0)) (cm_sent m2) ->
     out rs = newer after incl (cm_recent_events m1 ++ drop (length (cm_sent m1)) (cm_sent m2))).
Proof.
  intros Hn Hc1 m0 m1 m2 out. rewrite !sum_list_with_app in Hn.
  assert (run_manager_calls (c0 ++ c1) ControlPlaneManager_new = m1) as Hm1 by apply foldl_app.
  split.
  { intros rs Hrs. apply subscription_delivers; [|done]. exists (c0 ++ c1). split; [done|].
    rewrite sum_list_with_app. lia. }
  intros Hlen rs Hrs.
  pose proof (run_manager_calls_inv 0 c0 _ manager_inv_new ltac:(lia)) as H0. fold m0 in H0.
  pose proof (run_manager_calls_inv _ c1 _ H0 ltac:(lia)) as H1. fold m1 in H1.
  pose proof (run_manager_calls_inv _ c2 _ H1 ltac:(lia)) as H2. fold m2 in H2.
  destruct (run_manager_calls_sent c1 m0) as [t1 Ht1], (run_manager_calls_sent c2 m1) as [t2 Ht2].
  fold m1 in Ht1. fold m2 in Ht2.
  rewrite Ht2, drop_app_length. rewrite Ht2, Ht1, <- app_assoc, drop_app_length in Hrs.
  assert (length t1 <= DEFAULT_RECENT_EVENT_LIMIT) as Hl1.
  { pose proof (manager_inv_sent_length _ _ H0). pose proof (manager_inv_sent_length _ _ H1) as Hl.
    rewrite Ht1, length_app in Hl. lia. }
  assert (exists ring, cm_recent_events m1 = ring ++ t1 /\ seq_sorted (ring ++ t1 ++ t2)) as (ring & Hring & Hs).
  { rewrite (mi_ring _ _ H1). unfold last_n. rewrite Ht1, drop_app_le by (rewrite length_app; lia).
    eexists. split; [done|]. rewrite <- drop_app_le by (rewrite length_app; lia). rewrite app_assoc, <- Ht1, <- Ht2.
    apply StronglySorted_drop, (consecutive_sorted 0).
    rewrite (manager_inv_sent_length _ _ H2). apply (mi_sent _ _ H2). }
  assert (Hpend : sub_pending_events (initial_subscribe_state after incl m1) = newer after incl (ring ++ t1)).
  { simpl. rewrite recent_events_after_newer, Hring in *. by apply take_ge. }
  unfold out. rewrite subscribe_stream_drain, Hpend, Hring. unfold newer at 3. rewrite !filter_app.
  rewrite <- filter_app. f_equal; [unfold newer; by rewrite filter_app|].
  rewrite (subscribe_stream_received rs (t1 ++ t2)); [|done|done|by apply StronglySorted_app in Hs as (_ & _ & Hs)].
  by apply newer_past_ring.
Qed.

(** With more than 50 retained events the subscriber silently loses the rest:
    from the start of a ring of 52 events, the first 50 are sent and then the
    next live one, the 53rd. *)
Theorem subscription_skips_backlog :
  let msgs n := replicate n (CallSessionMessage JNull false) in
  let m := run_manager_calls (msgs 52) ControlPlaneManager_new in
  let m' := run_manager_calls (msgs 1) m in
  let out := (subscribe_stream (match last (cm_sent m') with Some e => [(m', RecvOk e)] | None => [] end)
                (initial_subscribe_state 0 true m)).1 in
  ev_seq <$> out = (Z.of_nat <$> seq 1 50) ++ [53%Z] /\
  51%Z ∈ ev_seq <$> cm_recent_events m' /\ 52%Z ∈ ev_seq <$> cm_recent_events m'.
Proof.
  split; [vm_compute; reflexivity|]. split; apply (bool_decide_unpack _); vm_compute; exact I.
Qed.

(** ** Concurrent recorders *)

Definition starting (t : recorder) : bool :=
  match t with RecBump _ _ _ _ => true | _ => false end.

(** The sequence number a recorder has drawn, and the one it has published. *)
Definition drawn (t : recorder) : option Z :=
  match t with
  | RecBump _ _ _ _ | RecSeq _ _ _ => None
  | RecLoad _ _ _ seq _ => Some seq
  | RecPush e | RecDone e => Some (ev_seq e)
  end.

Definition published (t : recorder) : option Z :=
  match t with RecDone e => Some (ev_seq e) | _ => None end.

Record race_inv (c : ControlPlaneManager * list recorder) : Prop := {
  ri_seq : cm_seq c.1 = Z.of_nat (length (omap drawn c.2));
  ri_drawn : omap drawn c.2 ≡ₚ Z.of_nat <$> seq 1 (length (omap drawn c.2));
  ri_sent : ev_seq <$> cm_sent c.1 ≡ₚ omap published c.2;
}.

Lemma omap_middle {A B} (f : A -> option B) l1 x l2 :
  omap f (l1 ++ x :: l2) ≡ₚ option_list (f x) ++ omap f (l1 ++ l2).
Proof.
  rewrite !omap_app. cbn. destruct (f x); cbn; [|done]. by rewrite <- Permutation_middle.
Qed.

Lemma omap_length_le {A B} (f : A -> option B) l : length (omap f l) <= length l.
Proof. induction l as [|x l IH]; cbn; [done|]. destruct (f x); cbn; lia. Qed.

Lemma record_race_inv_step c c' :
  (Z.of_nat (length c.2) <= u64_max)%Z -> record_race c c' -> race_inv c ->
  race_inv c' /\ length c'.2 = length c.2.
Proof.
  intros Hlen Hstep. destruct Hstep as [m m' ts i t t' Hi Ht]. intros [Hseq Hdr Hsent].
  split; [|apply length_insert]. cbn [fst snd] in *.
  destruct (list_elem_of_split_length ts i t Hi) as (l1 & l2 & -> & ->).
  rewrite insert_app_r_alt, Nat.sub_diag in * by lia. cbn [list_insert insert].
  pose proof (omap_middle drawn l1 t l2) as Hd. pose proof (omap_middle drawn l1 t' l2) as Hd'.
  pose proof (omap_middle published l1 t l2) as Hp. pose proof (omap_middle published l1 t' l2) as Hp'.
  pose proof (omap_length_le drawn (l1 ++ l2)) as Hle. rewrite !length_app in *. simpl in Hlen.
  destruct t as [lane k pl tg|k pl tg|k pl tg sq ld|e|e]; simpl in Ht; simplify_eq.
  - cbn in *. split; cbn [fst snd]; [by rewrite Hd', <- Hd|by rewrite Hd', <- Hd|by rewrite Hp', <- Hp].
  - cbn in Hd, Hd', Hp, Hp'.
    assert (Hs : u64_wrapping_add (cm_seq m) 1 = Z.of_nat (S (length (omap drawn (l1 ++ l2))))).
    { rewrite Hseq, Hd, u64_wrapping_add_small; unfold u64_valid, u64_max, u64_modulus in *; lia. }
    split; cbn [fst snd cm_seq cm_sent cm_set_seq].
    + by rewrite Hd', Hs.
    + rewrite Hd', Hs. rewrite Hd in Hdr. set (n := length (omap drawn (l1 ++ l2))) in *.
      transitivity ((Z.of_nat <$> seq 1 n) ++ [Z.of_nat (S n)]).
      * rewrite <- Permutation_cons_append. by constructor.
      * change (length (Z.of_nat (S n) :: omap drawn (l1 ++ l2))) with (S n). by rewrite seq_S, fmap_app.
    + by rewrite Hp', <- Hp.
  - assert (Hb : drawn (if length (ld ++ [version_lane (cm_versions m') (length ld)]) <? 5
                        then RecLoad k pl tg sq (ld ++ [version_lane (cm_versions m') (length ld)])
                        else RecPush (event_record k sq (version_of (ld ++ [version_lane (cm_versions m') (length ld)])) pl tg))
                 = Some sq) by by case_match.
    assert (Hb' : published (if length (ld ++ [version_lane (cm_versions m') (length ld)]) <? 5
                        then RecLoad k pl tg sq (ld ++ [version_lane (cm_versions m') (length ld)])
                        else RecPush (event_record k sq (version_of (ld ++ [version_lane (cm_versions m') (length ld)])) pl tg))
                 = None) by by case_match.
    rewrite Hb in Hd'. rewrite Hb' in Hp'. cbn in Hd, Hd', Hp, Hp'.
    split; cbn [fst snd]; [by rewrite Hd', <- Hd|by rewrite Hd', <- Hd|by rewrite Hp', <- Hp].
  - cbn in Hd, Hd', Hp, Hp'. split; cbn -[pop_front_over].
    + by rewrite Hd', <- Hd.
    + by rewrite Hd', <- Hd.
    + rewrite fmap_app, Hp', Hsent, Hp. cbn. by rewrite <- Permutation_cons_append.
Qed.

Lemma omap_starting ts {B} (f : recorder -> option B) :
  (forall t, starting t = true -> f t = None) -> Forall (fun t => starting t = true) ts -> omap f ts = [].
Proof. intros Hf. induction 1 as [|t ts Ht _ IH]; [done|]. cbn. by rewrite Hf, IH. Qed.

Lemma race_inv_run ts c :
  Forall (fun t => starting t = true) ts -> (Z.of_nat (length ts) <= u64_max)%Z ->
  rtc record_race (ControlPlaneManager_new, ts) c -> race_inv c /\ length c.2 = length ts.
Proof.
  intros Hts Hlen. apply (rtc_ind_r (fun c => race_inv c /\ length c.2 = length ts)).
  - split; [|done].
    assert (Hd : omap drawn ts = []) by (apply omap_starting; [by intros []|done]).
    assert (Hp : omap published ts = []) by (apply omap_starting; [by intros []|done]).
    split; cbn [fst snd]; by rewrite ?Hd, ?Hp.
  - intros c1 c2 _ Hstep [Hinv Hl]. rewrite <- Hl in Hlen |- *. by apply record_race_inv_step.
Qed.

Lemma published_drawn ts : omap published ts `sublist_of` omap drawn ts.
Proof.
  induction ts as [|t ts IH]; [done|]. cbn.
  destruct t; cbn; by constructor || done.
Qed.

Definition finished (t : recorder) : bool := match t with RecDone _ => true | _ => false end.

Lemma published_all ts : Forall (fun t => finished t = true) ts -> omap published ts = omap drawn ts
  /\ length (omap drawn ts) = length ts.
Proof.
  induction 1 as [|t ts Ht _ [IH1 IH2]]; [done|]. destruct t; try done. cbn. by rewrite IH1, IH2.
Qed.

(** However the atomic steps of concurrent recorders interleave, no
    two published events share a number, and when all of them have finished the
    numbers 1 to n were each used once.  A recorder that runs alone does what
    [record_event] does. *)
Theorem concurrent_events_numbered ts m ts' :
  Forall (fun t => starting t = true) ts -> (Z.of_nat (length ts) <= u64_max)%Z ->
  rtc record_race (ControlPlaneManager_new, ts) (m, ts') ->
  NoDup (ev_seq <$> cm_sent m) /\
  (Forall (fun t => finished t = true) ts' ->
     ev_seq <$> cm_sent m ≡ₚ Z.of_nat <$> seq 1 (length ts)) /\
  (forall lane kind payload targeted m0, exists e,
     ControlPlaneManager_record_event lane kind payload targeted m0
       = (Returned e, (recorder_alone 8 (RecBump lane kind payload targeted) m0).2) /\
     (recorder_alone 8 (RecBump lane kind payload targeted) m0).1 = RecDone e).
Proof.
  intros Hts Hlen Hrun. destruct (race_inv_run ts _ Hts Hlen Hrun) as [[Hseq Hdr Hsent] Hl].
  cbn [fst snd] in *. split_and!.
  - rewrite Hsent. eapply sublist_NoDup; [|apply published_drawn]. rewrite Hdr.
    apply NoDup_fmap_2; [apply _|apply NoDup_seq].
  - intros [Hp Hd]%published_all. rewrite Hsent, Hp, Hdr, Hd, Hl. done.
  - intros. eexists. split; [|reflexivity]. by destruct lane.
Qed.

(** A schedule: which recorder takes the next step. *)
Fixpoint run_schedule (sched : list nat) (c : ControlPlaneManager * list recorder)
  : ControlPlaneManager * list recorder :=
  match sched with
  | [] => c
  | i :: sched =>
      match c.2 !! i with
      | Some t =>
          match recorder_step t c.1 with
          | Some (t', m') => run_schedule sched (m', <[i := t']> c.2)
          | None => c
          end
      | None => c
      end
  end.

Lemma run_schedule_rtc sched c : rtc record_race c (run_schedule sched c).
Proof.
  revert c. induction sched as [|i sched IH]; intros [m ts]; [done|]. simpl.
  destruct (ts !! i) as [t|] eqn:Hi; [|done]. destruct (recorder_step t m) as [[t' m']|] eqn:Ht; [|done].
  eapply rtc_l; [by eapply record_race_step|]. apply IH.
Qed.

(** The numbers are drawn before the events are published, so an event may be
    published after one with a higher number.  A reader that polls in between
    and goes on from the highest number it has seen never gets the late event,
    although the ring holds it. *)
Theorem late_event_missed :
  exists m1 ts1 m2 ts2 page,
    rtc record_race (ControlPlaneManager_new,
      [RecBump LaneSessions SessionMessage JNull false; RecBump LaneSessions SessionMessage JNull false])
      (m1, ts1) /\
    ControlPlaneManager_recent_events_after 0 50 true m1 = page /\ ev_seq <$> page = [2%Z] /\
    rtc record_race (m1, ts1) (m2, ts2) /\ Forall (fun t => finished t = true) ts2 /\
    ControlPlaneManager_recent_events_after 2 50 true m2 = [] /\
    ev_seq <$> cm_recent_events m2 = [2%Z; 1%Z].
Proof.
  pose (c0 := (ControlPlaneManager_new,
    [RecBump LaneSessions SessionMessage JNull false; RecBump LaneSessions SessionMessage JNull false])).
  pose (c1 := run_schedule [0; 0; 1; 1; 1; 1; 1; 1; 1; 1] c0).
  pose (c2 := run_schedule [0; 0; 0; 0; 0; 0] c1).
  exists c1.1, c1.2, c2.1, c2.2, (ControlPlaneManager_recent_events_after 0 50 true c1.1).
  split_and!.
  - exact (run_schedule_rtc [0; 0; 1; 1; 1; 1; 1; 1; 1; 1] c0).
  - done.
  - by vm_compute.
  - exact (run_schedule_rtc [0; 0; 0; 0; 0; 0] c1).
  - vm_compute. by repeat constructor.
  - by vm_compute.
  - by vm_compute.
Qed.
