(* ===== verification/ControlTurns.v ===== *)
(** * The control plane's turns

    [crates/app/src/control_plane.rs], [ControlPlaneTurnRegistry]: the turns
    submitted over the control plane, their events, and the retention of finished
    turns; and the server-sent stream of a turn in
    [crates/daemon/src/control_plane_server.rs].  The clock's reading and the
    random number of a call are its arguments. *)

From S2P Require Import Prelude RustStr Contracts Json ControlEvents.

Definition CONTROL_PLANE_TURN_RECENT_EVENT_LIMIT : nat := 256.
Definition CONTROL_PLANE_TURN_TERMINAL_RETENTION_LIMIT : nat := 256.

Inductive ControlPlaneTurnStatus : Type := TurnRunning | TurnCompleted | TurnFailed | TurnCancelled.

#[export] Instance ControlPlaneTurnStatus_eq_dec : EqDecision ControlPlaneTurnStatus.
Proof. solve_decision. Defined.

Definition ControlPlaneTurnStatus_as_str (s : ControlPlaneTurnStatus) : string :=
  match s with
  | TurnRunning => "running"
  | TurnCompleted => "completed"
  | TurnFailed => "failed"
  | TurnCancelled => "cancelled"
  end.

Definition ControlPlaneTurnStatus_is_terminal (s : ControlPlaneTurnStatus) : bool :=
  match s with TurnCompleted | TurnFailed | TurnCancelled => true | TurnRunning => false end.

Record ControlPlaneTurnEventRecord : Type := {
  te_turn_id : string;
  te_session_id : string;
  te_seq : Z;
  te_terminal : bool;
  te_payload : json;
}.

Record ControlPlaneTurnSnapshot : Type := {
  ts_turn_id : string;
  ts_session_id : string;
  ts_status : ControlPlaneTurnStatus;
  ts_submitted_at_ms : Z;
  ts_completed_at_ms : option Z;
  ts_event_count : nat;
  ts_output_text : option string;
  ts_stop_reason : option string;
  ts_usage : option json;
  ts_error : option string;
}.

Record ControlPlaneTurnStateRecord : Type := {
  tr_snapshot : ControlPlaneTurnSnapshot;
  tr_recent_events : list ControlPlaneTurnEventRecord;
  tr_next_seq : Z;
}.

(** The counter, the guarded map, and the events given to the broadcast channel. *)
Record ControlPlaneTurnRegistry : Type := {
  rg_nonce : Z;
  rg_turns : gmap string ControlPlaneTurnStateRecord;
  rg_sent : list ControlPlaneTurnEventRecord;
}.

Definition ControlPlaneTurnRegistry_new : ControlPlaneTurnRegistry := {|
  rg_nonce := 0; rg_turns := ∅; rg_sent := [] |}.

Definition rg_set_turns (turns : gmap string ControlPlaneTurnStateRecord)
    (g : ControlPlaneTurnRegistry) : ControlPlaneTurnRegistry := {|
  rg_nonce := rg_nonce g; rg_turns := turns; rg_sent := rg_sent g |}.

Definition rg_send (e : ControlPlaneTurnEventRecord) (g : ControlPlaneTurnRegistry)
  : ControlPlaneTurnRegistry := {|
  rg_nonce := rg_nonce g; rg_turns := rg_turns g; rg_sent := rg_sent g ++ [e] |}.

(** [format!("{prefix}{sequence:016x}-{random:016x}")], the shape of every
    identifier of the control plane. *)
Definition control_plane_id (prefix : string) (sequence random : Z) : string :=
  prefix +:+ fmt_016x sequence +:+ "-" +:+ fmt_016x random.

Definition CTR := M ControlPlaneTurnRegistry.

Definition ControlPlaneTurnRegistry_issue_turn (now random : Z) (session_id : string)
  : CTR ControlPlaneTurnSnapshot := fun g =>
  let sequence := u64_wrapping_add (rg_nonce g) 1 in
  let turn_id := control_plane_id "cpt-turn-" sequence random in
  let snapshot := {|
    ts_turn_id := turn_id; ts_session_id := session_id; ts_status := TurnRunning;
    ts_submitted_at_ms := now; ts_completed_at_ms := None; ts_event_count := 0;
    ts_output_text := None; ts_stop_reason := None; ts_usage := None; ts_error := None |} in
  let record := {| tr_snapshot := snapshot; tr_recent_events := []; tr_next_seq := 1 |} in
  (Returned snapshot,
   {| rg_nonce := sequence; rg_turns := <[turn_id := record]> (rg_turns g); rg_sent := rg_sent g |}).

Definition ControlPlaneTurnRegistry_read_turn (turn_id : string) (g : ControlPlaneTurnRegistry)
  : result (option ControlPlaneTurnSnapshot) string :=
  Ok (tr_snapshot <$> rg_turns g !! turn_id).

Definition turn_not_found (turn_id : string) : string :=
  "control_plane_turn_not_found: `" +:+ turn_id +:+ "`".

Definition ControlPlaneTurnRegistry_recent_events_after (turn_id : string) (after_seq : Z)
    (limit : nat) (g : ControlPlaneTurnRegistry)
  : result (list ControlPlaneTurnEventRecord) string :=
  let bounded_limit := clamp_usize limit 1 CONTROL_PLANE_TURN_RECENT_EVENT_LIMIT in
  match rg_turns g !! turn_id with
  | None => Err (turn_not_found turn_id)
  | Some record =>
      Ok (take bounded_limit (filter (fun e => after_seq < te_seq e)%Z (tr_recent_events record)))
  end.

Definition ControlPlaneTurnRegistry_ensure_turn_mutable (record : ControlPlaneTurnStateRecord)
    (turn_id : string) : result unit string :=
  if negb (ControlPlaneTurnStatus_is_terminal (ts_status (tr_snapshot record))) then Ok tt
  else Err ("control_plane_turn_already_terminal: `" +:+ turn_id +:+ "`").

Definition ControlPlaneTurnRegistry_push_event_locked (record : ControlPlaneTurnStateRecord)
    (terminal : bool) (payload : json)
  : ControlPlaneTurnEventRecord * ControlPlaneTurnStateRecord :=
  let s := tr_snapshot record in
  let event := {|
    te_turn_id := ts_turn_id s; te_session_id := ts_session_id s; te_seq := tr_next_seq record;
    te_terminal := terminal; te_payload := payload |} in
  (event, {|
    tr_snapshot := {|
      ts_turn_id := ts_turn_id s; ts_session_id := ts_session_id s; ts_status := ts_status s;
      ts_submitted_at_ms := ts_submitted_at_ms s; ts_completed_at_ms := ts_completed_at_ms s;
      ts_event_count := ts_event_count s + 1; ts_output_text := ts_output_text s;
      ts_stop_reason := ts_stop_reason s; ts_usage := ts_usage s; ts_error := ts_error s |};
    tr_recent_events :=
      pop_front_over CONTROL_PLANE_TURN_RECENT_EVENT_LIMIT (tr_recent_events record ++ [event]);
    tr_next_seq := u64_wrapping_add (tr_next_seq record) 1 |}).

(** *** Retention *)

Definition is_terminal_record (r : ControlPlaneTurnStateRecord) : bool :=
  ControlPlaneTurnStatus_is_terminal (ts_status (tr_snapshot r)).

(** [(completed_at_ms, submitted_at_ms, turn_id)] of a finished turn. *)
Definition removal_key (p : string * ControlPlaneTurnStateRecord) : Z * Z * string :=
  let s := tr_snapshot p.2 in
  (default (ts_submitted_at_ms s) (ts_completed_at_ms s), ts_submitted_at_ms s, p.1).

(** The comparison of [sort_by]. *)
Definition removal_le (a b : Z * Z * string) : Prop :=
  (a.1.1 < b.1.1)%Z \/ (a.1.1 = b.1.1 /\
    ((a.1.2 < b.1.2)%Z \/ (a.1.2 = b.1.2 /\ String.le a.2 b.2))).

#[export] Instance removal_le_dec : RelDecision removal_le.
Proof. intros a b. unfold removal_le. apply _. Defined.

Definition removal_candidates (turns : gmap string ControlPlaneTurnStateRecord)
  : list (Z * Z * string) :=
  merge_sort removal_le
    (removal_key <$> filter (fun p => is_terminal_record p.2 = true) (btree_map_iter turns)).

Definition ControlPlaneTurnRegistry_prune_terminal_turns_locked
    (turns : gmap string ControlPlaneTurnStateRecord) : gmap string ControlPlaneTurnStateRecord :=
  let terminal_count := length (filter (fun r => is_terminal_record r = true) (btree_map_values turns)) in
  if terminal_count <=? CONTROL_PLANE_TURN_TERMINAL_RETENTION_LIMIT then turns else
  let overflow_count := terminal_count - CONTROL_PLANE_TURN_TERMINAL_RETENTION_LIMIT in
  foldl (fun turns k => delete k.2 turns) turns (take overflow_count (removal_candidates turns)).

(** *** Events and completion *)

Definition ControlPlaneTurnRegistry_push_event (turn_id : string) (terminal : bool) (payload : json)
  : CTR (result ControlPlaneTurnEventRecord string) := fun g =>
  match rg_turns g !! turn_id with
  | None => (Returned (Err (turn_not_found turn_id)), g)
  | Some record =>
      match ControlPlaneTurnRegistry_ensure_turn_mutable record turn_id with
      | Err e => (Returned (Err e), g)
      | Ok _ =>
          let (event, record) := ControlPlaneTurnRegistry_push_event_locked record terminal payload in
          (Returned (Ok event), rg_send event (rg_set_turns (<[turn_id := record]> (rg_turns g)) g))
      end
  end.

Definition ControlPlaneTurnRegistry_record_runtime_event (turn_id : string) (payload : json)
  : CTR (result ControlPlaneTurnEventRecord string) :=
  ControlPlaneTurnRegistry_push_event turn_id false payload.

(** The shared part of the two completions: the updated snapshot, the terminal
    event, the pruning, the broadcast. *)
Definition complete_turn (turn_id : string)
    (finish : ControlPlaneTurnSnapshot -> ControlPlaneTurnSnapshot) (payload : json)
  : CTR (result ControlPlaneTurnEventRecord string) := fun g =>
  match rg_turns g !! turn_id with
  | None => (Returned (Err (turn_not_found turn_id)), g)
  | Some record =>
      match ControlPlaneTurnRegistry_ensure_turn_mutable record turn_id with
      | Err e => (Returned (Err e), g)
      | Ok _ =>
          let record := {| tr_snapshot := finish (tr_snapshot record);
                           tr_recent_events := tr_recent_events record;
                           tr_next_seq := tr_next_seq record |} in
          let (event, record) := ControlPlaneTurnRegistry_push_event_locked record true payload in
          let turns := ControlPlaneTurnRegistry_prune_terminal_turns_locked
                         (<[turn_id := record]> (rg_turns g)) in
          (Returned (Ok event), rg_send event (rg_set_turns turns g))
      end
  end.

Definition terminal_status_of (stop_reason : option string) : ControlPlaneTurnStatus :=
  if decide (stop_reason = Some "cancelled") then TurnCancelled else TurnCompleted.

Definition ControlPlaneTurnRegistry_complete_success (now : Z) (turn_id output_text : string)
    (stop_reason : option string) (usage : option json)
  : CTR (result ControlPlaneTurnEventRecord string) :=
  complete_turn turn_id (fun s => {|
      ts_turn_id := ts_turn_id s; ts_session_id := ts_session_id s;
      ts_status := terminal_status_of stop_reason;
      ts_submitted_at_ms := ts_submitted_at_ms s; ts_completed_at_ms := Some now;
      ts_event_count := ts_event_count s; ts_output_text := Some output_text;
      ts_stop_reason := stop_reason; ts_usage := usage; ts_error := None |})
    (json_obj [("event_type", JString "turn.completed"); ("output_text", JString output_text);
               ("stop_reason", json_opt JString stop_reason); ("usage", json_opt id usage)]).

Definition ControlPlaneTurnRegistry_complete_failure (now : Z) (turn_id error : string)
  : CTR (result ControlPlaneTurnEventRecord string) :=
  complete_turn turn_id (fun s => {|
      ts_turn_id := ts_turn_id s; ts_session_id := ts_session_id s; ts_status := TurnFailed;
      ts_submitted_at_ms := ts_submitted_at_ms s; ts_completed_at_ms := Some now;
      ts_event_count := ts_event_count s; ts_output_text := None; ts_stop_reason := None;
      ts_usage := None; ts_error := Some error |})
    (json_obj [("event_type", JString "turn.failed"); ("error", JString error)]).

(** ** The server-sent stream of a turn *)

Record ControlPlaneTurnStreamState : Type := {
  tst_turn_id : string;
  tst_pending_events : list ControlPlaneTurnEventRecord;
  tst_last_seq : Z;
}.

Definition tst_set_last_seq (n : Z) (st : ControlPlaneTurnStreamState) : ControlPlaneTurnStreamState := {|
  tst_turn_id := tst_turn_id st; tst_pending_events := tst_pending_events st; tst_last_seq := n |}.
Definition tst_set_pending (l : list ControlPlaneTurnEventRecord) (st : ControlPlaneTurnStreamState)
  : ControlPlaneTurnStreamState := {|
  tst_turn_id := tst_turn_id st; tst_pending_events := l; tst_last_seq := tst_last_seq st |}.

Definition initial_turn_stream_state (turn_id : string) (after_seq : Z) (g : ControlPlaneTurnRegistry)
  : result ControlPlaneTurnStreamState string :=
  let* pending_events := ControlPlaneTurnRegistry_recent_events_after turn_id after_seq
                           CONTROL_PLANE_DEFAULT_EVENT_LIMIT g in
  Ok {| tst_turn_id := turn_id; tst_pending_events := pending_events; tst_last_seq := after_seq |}.

(** [next_turn_sse_item] up to its [recv]. *)
Definition turn_poll (g : ControlPlaneTurnRegistry) (st : ControlPlaneTurnStreamState)
  : StreamNext ControlPlaneTurnEventRecord ControlPlaneTurnStreamState :=
  match tst_pending_events st with
  | record :: rest => StreamEmit record (tst_set_last_seq (te_seq record) (tst_set_pending rest st))
  | [] =>
      match ControlPlaneTurnRegistry_read_turn (tst_turn_id st) g with
      | Ok (Some snapshot) =>
          if ControlPlaneTurnStatus_is_terminal (ts_status snapshot) then StreamEnd else StreamAwait
      | Ok None | Err _ => StreamEnd
      end
  end.

(** What follows the result of [recv]. *)
Definition turn_received (g : ControlPlaneTurnRegistry) (r : RecvResult ControlPlaneTurnEventRecord)
    (st : ControlPlaneTurnStreamState)
  : StreamNext ControlPlaneTurnEventRecord ControlPlaneTurnStreamState :=
  match r with
  | RecvOk record =>
      if negb (bool_decide (te_turn_id record = tst_turn_id st)) then StreamContinue st else
      if (te_seq record <=? tst_last_seq st)%Z then StreamContinue st else
      StreamEmit record (tst_set_last_seq (te_seq record) st)
  | RecvLagged =>
      let refill := match ControlPlaneTurnRegistry_recent_events_after (tst_turn_id st)
                            (tst_last_seq st) CONTROL_PLANE_DEFAULT_EVENT_LIMIT g with
                    | Ok l => l
                    | Err _ => []
                    end in
      StreamContinue (tst_set_pending refill st)
  | RecvClosed => StreamEnd
  end.

(** A round of the loop that finds no pending event: the registry when
    [read_turn] is called, the result of [recv], the registry then. *)
Record TurnRound : Type := {
  rd_before : ControlPlaneTurnRegistry;
  rd_recv : RecvResult ControlPlaneTurnEventRecord;
  rd_after : ControlPlaneTurnRegistry;
}.

Fixpoint drain_turn_pending (g : ControlPlaneTurnRegistry) (pending : list ControlPlaneTurnEventRecord)
    (st : ControlPlaneTurnStreamState)
  : list ControlPlaneTurnEventRecord * ControlPlaneTurnStreamState :=
  match pending with
  | [] => ([], st)
  | _ :: rest =>
      match turn_poll g st with
      | StreamEmit record st' =>
          let (out, st'') := drain_turn_pending g rest st' in (record :: out, st'')
      | _ => ([], st)
      end
  end.

(** The events the stream emits over the rounds, and whether it ended. *)
Fixpoint turn_stream (rounds : list TurnRound) (st : ControlPlaneTurnStreamState)
  : list ControlPlaneTurnEventRecord * bool :=
  match rounds with
  | [] => ([], false)
  | r :: rounds =>
      let (out, st) := drain_turn_pending (rd_before r) (tst_pending_events st) st in
      match turn_poll (rd_before r) st with
      | StreamAwait =>
          match turn_received (rd_after r) (rd_recv r) st with
          | StreamEmit record st' =>
              let (out', ended) := turn_stream rounds st' in (out ++ record :: out', ended)
          | StreamContinue st' =>
              let (out', ended) := turn_stream rounds st' in (out ++ out', ended)
          | StreamAwait | StreamEnd => (out, true)
          end
      | _ => (out, true)
      end
  end.
