(* ===== verification/ControlTurnsFacts.v ===== *)
(** * Theorems about the control plane's turns

    Identifiers, the retention of finished turns, the registry along any calls,
    and the stream of a turn. *)

From S2P Require Import Prelude RustStr Contracts Json AuditSinks ControlEvents.
From S2P Require Import ControlEventsFacts ControlTurns.

(** ** Identifiers *)

Lemma hex_digits_app k n acc r : hex_digits k n acc +:+ r = hex_digits k n (acc +:+ r).
Proof. revert n acc. induction k as [|k IH]; intros n acc; [done|]. cbn [hex_digits]. by rewrite IH. Qed.

Lemma control_plane_id_inj p s r s' r' :
  u64_valid s -> u64_valid s' -> u64_valid r -> u64_valid r' ->
  control_plane_id p s r = control_plane_id p s' r' -> s = s' /\ r = r'.
Proof.
  intros Hs Hs' Hr Hr' Heq%String.app_inj. unfold fmt_016x in Heq at 1 3. rewrite !hex_digits_app in Heq.
  apply hex_digits_inj in Heq as [Hmod Hrest]. split.
  - unfold u64_valid, u64_max, u64_modulus in *.
    change (16 ^ Z.of_nat 16)%Z with (2 ^ 64)%Z in Hmod. rewrite !Z.mod_small in Hmod by lia. done.
  - apply fmt_016x_inj; [done..|]. by apply (String.app_inj "-").
Qed.

Lemma control_plane_id_visible p s r :
  str_forallb is_visible p = true -> str_forallb is_visible (control_plane_id p s r) = true.
Proof.
  intros Hp. unfold control_plane_id.
  assert (Happ : forall a b, str_forallb is_visible (a +:+ b) = str_forallb is_visible a && str_forallb is_visible b).
  { intros a b. induction a as [|c a IH]; simpl; [done|]. change (String.app a b) with (a +:+ b). by rewrite IH, andb_assoc. }
  by rewrite !Happ, Hp, !fmt_016x_visible.
Qed.

(** ** Retention *)

Lemma removal_le_total : Total removal_le.
Proof.
  intros a b. unfold removal_le. pose proof (total String.le a.2 b.2) as Ht.
  destruct (Z.lt_trichotomy a.1.1 b.1.1) as [?|[?|?]]; [by left; left| |by right; left].
  destruct (Z.lt_trichotomy a.1.2 b.1.2) as [?|[?|?]]; [left; auto| |right; auto].
  destruct Ht; [left|right]; right; split; auto.
Qed.

Lemma removal_le_trans : Transitive removal_le.
Proof.
  intros a b c. unfold removal_le.
  intros [H1|[E1 [H1|[F1 G1]]]] [H2|[E2 [H2|[F2 G2]]]];
    try (left; lia); right; (split; [lia|]); try (left; lia).
  right. split; [lia|]. by etransitivity.
Qed.

Definition finished_turns (turns : gmap string ControlPlaneTurnStateRecord)
  : gmap string ControlPlaneTurnStateRecord :=
  filter (fun p => is_terminal_record p.2 = true) turns.

Definition finished_list (turns : gmap string ControlPlaneTurnStateRecord) :=
  filter (fun p => is_terminal_record p.2 = true) (btree_map_iter turns).

Lemma finished_list_spec turns : finished_list turns ≡ₚ map_to_list (finished_turns turns).
Proof.
  apply NoDup_Permutation.
  - apply NoDup_filter. unfold btree_map_iter. rewrite merge_sort_Permutation. apply NoDup_map_to_list.
  - apply NoDup_map_to_list.
  - intros [k r]. unfold finished_list, finished_turns.
    rewrite list_elem_of_filter, elem_of_btree_map_iter, elem_of_map_to_list, map_lookup_filter_Some. tauto.
Qed.

Lemma terminal_count_size turns :
  length (filter (fun r => is_terminal_record r = true) (btree_map_values turns))
  = size (finished_turns turns).
Proof.
  rewrite <- length_map_to_list, <- finished_list_spec. unfold finished_list, btree_map_values.
  induction (btree_map_iter turns) as [|[k r] l IH]; [done|]. cbn [fmap list_fmap snd].
  rewrite !filter_cons. cbn [snd]. destruct (decide _); simpl; by rewrite IH.
Qed.

Lemma removal_candidates_ids turns :
  (removal_candidates turns).*2 ≡ₚ (map_to_list (finished_turns turns)).*1.
Proof.
  unfold removal_candidates. rewrite merge_sort_Permutation, <- finished_list_spec.
  rewrite <- list_fmap_compose. done.
Qed.

Lemma lookup_delete_fold {V} (m : gmap string V) (ks : list (Z * Z * string)) id :
  foldl (fun m k => delete k.2 m) m ks !! id = if decide (id ∈ ks.*2) then None else m !! id.
Proof.
  revert m. induction ks as [|k ks IH]; intros m; cbn [foldl].
  - destruct (decide _); [set_solver|done].
  - rewrite IH. destruct (decide (id ∈ ks.*2)), (decide (id ∈ (k :: ks).*2)); try done; [set_solver| |].
    + replace id with k.2 by set_solver. apply lookup_delete_eq.
    + apply lookup_delete_ne. set_solver.
Qed.

Lemma size_delete_fold {V} (m : gmap string V) (ks : list (Z * Z * string)) :
  NoDup ks.*2 -> (forall id, id ∈ ks.*2 -> is_Some (m !! id)) ->
  size (foldl (fun m k => delete k.2 m) m ks) = size m - length ks.
Proof.
  revert m. induction ks as [|k ks IH]; intros m Hnd Hin; simpl; [lia|].
  apply NoDup_cons in Hnd as [Hk Hnd]. rewrite IH; [|done|].
  - rewrite map_size_delete_Some by (apply Hin; set_solver). lia.
  - intros id Hid. rewrite lookup_delete_ne by set_solver. apply Hin. set_solver.
Qed.

Lemma finished_delete_fold turns (ks : list (Z * Z * string)) :
  finished_turns (foldl (fun m k => delete k.2 m) turns ks)
  = foldl (fun m k => delete k.2 m) (finished_turns turns) ks.
Proof.
  revert turns. induction ks as [|k ks IH]; intros turns; [done|]. simpl.
  rewrite IH. unfold finished_turns at 1. by rewrite map_filter_delete.
Qed.

Definition pruned := ControlPlaneTurnRegistry_prune_terminal_turns_locked.

(** What pruning removes: a prefix of the candidates. *)
Lemma pruned_lookup turns :
  exists removed, removed `prefix_of` removal_candidates turns /\
    forall id, pruned turns !! id = if decide (id ∈ removed.*2) then None else turns !! id.
Proof.
  unfold pruned, ControlPlaneTurnRegistry_prune_terminal_turns_locked.
  destruct (_ <=? _).
  - exists []. split; [apply prefix_nil|]. intros id. destruct (decide _); [set_solver|done].
  - eexists. split; [|intros id; apply lookup_delete_fold]. eexists. symmetry. apply take_drop.
Qed.

Lemma pruned_size turns :
  size (finished_turns (pruned turns)) <= CONTROL_PLANE_TURN_TERMINAL_RETENTION_LIMIT.
Proof.
  unfold pruned, ControlPlaneTurnRegistry_prune_terminal_turns_locked. rewrite terminal_count_size.
  destruct (Nat.leb_spec (size (finished_turns turns)) CONTROL_PLANE_TURN_TERMINAL_RETENTION_LIMIT); [done|].
  assert (Hlen : length (removal_candidates turns) = size (finished_turns turns)).
  { rewrite <- length_map_to_list, <- (length_fmap snd), removal_candidates_ids. apply length_fmap. }
  assert (Hnd : NoDup (removal_candidates turns).*2).
  { rewrite removal_candidates_ids. apply NoDup_fst_map_to_list. }
  rewrite finished_delete_fold, size_delete_fold.
  - rewrite length_take. lia.
  - rewrite fmap_take. eapply sublist_NoDup; [done|]. apply sublist_take.
  - intros id. rewrite fmap_take. intros (i & Hid%list_elem_of_lookup_2 & _)%elem_of_take.
    rewrite removal_candidates_ids in Hid.
    apply list_elem_of_fmap in Hid as ([k r] & -> & Hk%elem_of_map_to_list). by eexists.
Qed.

Lemma candidate_spec turns k :
  k ∈ removal_candidates turns <->
  exists r, turns !! k.2 = Some r /\ is_terminal_record r = true /\ k = removal_key (k.2, r).
Proof.
  unfold removal_candidates. rewrite merge_sort_Permutation, list_elem_of_fmap. split.
  - intros ([id r] & -> & [Ht Hin%elem_of_btree_map_iter]%list_elem_of_filter). by exists r.
  - intros (r & Hr & Ht & Hk). exists (k.2, r). split; [done|].
    apply list_elem_of_filter. by rewrite elem_of_btree_map_iter.
Qed.

Lemma removed_terminal turns removed id :
  removed `prefix_of` removal_candidates turns -> id ∈ removed.*2 ->
  exists r, turns !! id = Some r /\ is_terminal_record r = true /\ removal_key (id, r) ∈ removed.
Proof.
  intros [rest Hr] (k & -> & Hk)%list_elem_of_fmap.
  destruct (proj1 (candidate_spec turns k)) as (r & Hl & Ht & Heq); [rewrite Hr; set_solver|].
  exists r. by rewrite <- Heq.
Qed.

Lemma pruned_subseteq turns : pruned turns ⊆ turns.
Proof.
  destruct (pruned_lookup turns) as (removed & _ & Hl). apply map_subseteq_spec. intros id r Hr.
  rewrite Hl in Hr. by destruct (decide _).
Qed.

(** Pruning keeps every running turn and at most 256 finished
    ones; what stays is unchanged; and it removes the oldest finished turns
    first: by completion time, then submission time, then identifier. *)
Theorem prune_evicts_oldest turns :
  let kept := ControlPlaneTurnRegistry_prune_terminal_turns_locked turns in
  kept ⊆ turns /\ size (finished_turns kept) <= CONTROL_PLANE_TURN_TERMINAL_RETENTION_LIMIT /\
  (forall id r, turns !! id = Some r -> is_terminal_record r = false -> kept !! id = Some r) /\
  (forall id r id' r', turns !! id = Some r -> kept !! id = None ->
     kept !! id' = Some r' -> is_terminal_record r' = true ->
     removal_le (removal_key (id, r)) (removal_key (id', r'))) /\
  (size (finished_turns turns) <= CONTROL_PLANE_TURN_TERMINAL_RETENTION_LIMIT -> kept = turns).
Proof.
  intros kept. split_and!; [apply pruned_subseteq|apply pruned_size| | |].
  - intros id r Hr Ht. destruct (pruned_lookup turns) as (removed & Hp & Hl).
    unfold kept. fold pruned. rewrite Hl. destruct (decide _) as [Hin|]; [|done].
    destruct (removed_terminal _ _ _ Hp Hin) as (r' & Hr' & Ht' & _). congruence.
  - intros id r id' r' Hr Hk Hk' Ht'. destruct (pruned_lookup turns) as (removed & Hp & Hl).
    unfold kept in *. fold pruned in *. rewrite Hl in Hk, Hk'.
    destruct (decide (id ∈ removed.*2)) as [Hin|]; [|congruence].
    destruct (decide (id' ∈ removed.*2)) as [|Hout]; [done|].
    destruct (removed_terminal _ _ _ Hp Hin) as (r0 & Hr0 & _ & Hkey). simplify_eq.
    assert (Hin' : removal_key (id', r') ∈ removal_candidates turns)
      by (apply candidate_spec; by exists r').
    destruct Hp as [rest Hrest]. rewrite Hrest in Hin'. apply elem_of_app in Hin' as [Hin'|Hin'].
    { destruct Hout. by apply (list_elem_of_fmap_2 snd) in Hin'. }
    assert (Hs : StronglySorted removal_le (removal_candidates turns)).
    { unshelve eapply StronglySorted_merge_sort; [apply removal_le_trans|apply removal_le_total]. }
    rewrite Hrest in Hs. apply StronglySorted_app in Hs as (Hs & _). by apply Hs.
  - intros Hle. unfold kept, ControlPlaneTurnRegistry_prune_terminal_turns_locked.
    rewrite terminal_count_size. by destruct (Nat.leb_spec (size (finished_turns turns)) CONTROL_PLANE_TURN_TERMINAL_RETENTION_LIMIT); [|lia].
Qed.

(** ** The registry along any calls *)

Inductive TurnCall : Type :=
| CallIssueTurn (now random : Z) (session_id : string)
| CallRecordRuntimeEvent (turn_id : string) (payload : json)
| CallCompleteSuccess (now : Z) (turn_id output_text : string) (stop_reason : option string)
    (usage : option json)
| CallCompleteFailure (now : Z) (turn_id error : string).

Definition run_turn_call (c : TurnCall) (g : ControlPlaneTurnRegistry) : ControlPlaneTurnRegistry :=
  match c with
  | CallIssueTurn now random sid => (ControlPlaneTurnRegistry_issue_turn now random sid g).2
  | CallRecordRuntimeEvent id p => (ControlPlaneTurnRegistry_record_runtime_event id p g).2
  | CallCompleteSuccess now id out stop usage =>
      (ControlPlaneTurnRegistry_complete_success now id out stop usage g).2
  | CallCompleteFailure now id err => (ControlPlaneTurnRegistry_complete_failure now id err g).2
  end.

(** The random number of a call is a [u64]. *)
Definition call_valid (c : TurnCall) : Prop :=
  match c with CallIssueTurn _ random _ => u64_valid random | _ => True end.

(** A turn's record: its events are the last 256 of 1, 2, ..., they belong to
    the turn, and the terminal one is the last, there exactly when the turn has
    finished. *)
Record turn_wf (id : string) (r : ControlPlaneTurnStateRecord) : Prop := {
  tw_id : ts_turn_id (tr_snapshot r) = id;
  tw_next : tr_next_seq r = Z.of_nat (S (ts_event_count (tr_snapshot r)));
  tw_seqs : te_seq <$> tr_recent_events r
            = last_n CONTROL_PLANE_TURN_RECENT_EVENT_LIMIT (Z.of_nat <$> seq 1 (ts_event_count (tr_snapshot r)));
  tw_own : Forall (fun e => te_turn_id e = id /\ te_session_id e = ts_session_id (tr_snapshot r))
             (tr_recent_events r);
  tw_terminal :
    if is_terminal_record r
    then exists l e, tr_recent_events r = l ++ [e] /\ te_terminal e = true /\
           Forall (fun e => te_terminal e = false) l
    else Forall (fun e => te_terminal e = false) (tr_recent_events r);
}.

Record registry_inv (n : nat) (g : ControlPlaneTurnRegistry) : Prop := {
  gi_nonce : (0 <= rg_nonce g <= Z.of_nat n)%Z;
  gi_ids : forall id r, rg_turns g !! id = Some r -> exists s rnd,
    (1 <= s <= rg_nonce g)%Z /\ u64_valid rnd /\ id = control_plane_id "cpt-turn-" s rnd;
  gi_wf : forall id r, rg_turns g !! id = Some r -> turn_wf id r;
  gi_count : forall id r, rg_turns g !! id = Some r -> ts_event_count (tr_snapshot r) <= n;
  gi_finished : size (finished_turns (rg_turns g)) <= CONTROL_PLANE_TURN_TERMINAL_RETENTION_LIMIT;
}.

Lemma last_n_fmap {A B} (f : A -> B) n l : last_n n (f <$> l) = f <$> last_n n l.
Proof. unfold last_n. by rewrite length_fmap, fmap_drop. Qed.

Lemma fmap_single {A B} (f : A -> B) x : f <$> [x] = [f x].
Proof. done. Qed.

Lemma last_n_app_single {A} k (l : list A) x :
  0 < k -> last_n k (l ++ [x]) = drop (length l + 1 - k) l ++ [x].
Proof. intros Hk. unfold last_n. rewrite length_app. simpl. by rewrite drop_app_le by lia. Qed.

(** The parts of [turn_wf] that do not depend on the status. *)
Record turn_events_wf (id : string) (r : ControlPlaneTurnStateRecord) : Prop := {
  te_id_ok : ts_turn_id (tr_snapshot r) = id;
  te_next_ok : tr_next_seq r = Z.of_nat (S (ts_event_count (tr_snapshot r)));
  te_seqs_ok : te_seq <$> tr_recent_events r
            = last_n CONTROL_PLANE_TURN_RECENT_EVENT_LIMIT (Z.of_nat <$> seq 1 (ts_event_count (tr_snapshot r)));
  te_own_ok : Forall (fun e => te_turn_id e = id /\ te_session_id e = ts_session_id (tr_snapshot r))
             (tr_recent_events r);
  te_open_ok : Forall (fun e => te_terminal e = false) (tr_recent_events r);
}.

Lemma turn_wf_open id r : turn_wf id r -> is_terminal_record r = false -> turn_events_wf id r.
Proof. intros [? ? ? ? Ht] Hr. rewrite Hr in Ht. by split. Qed.

Lemma push_event_locked_wf id r b payload :
  turn_events_wf id r -> (Z.of_nat (S (ts_event_count (tr_snapshot r))) < u64_max)%Z ->
  is_terminal_record r = b -> turn_wf id (ControlPlaneTurnRegistry_push_event_locked r b payload).2.
Proof.
  intros [Hid Hnext Hseqs Hown Hopen] Hn Hb.
  assert (Hk : 0 < CONTROL_PLANE_TURN_RECENT_EVENT_LIMIT) by (unfold CONTROL_PLANE_TURN_RECENT_EVENT_LIMIT; lia).
  set (c := ts_event_count (tr_snapshot r)) in *.
  split; cbn -[pop_front_over fmap seq Z.of_nat is_terminal_record]; fold c.
  - done.
  - rewrite Hnext, u64_wrapping_add_small; unfold u64_valid, u64_max, u64_modulus in *; lia.
  - rewrite pop_front_over_last, <- last_n_fmap, fmap_app, Hseqs, fmap_single, last_n_push by done.
    rewrite Nat.add_1_r, seq_S, fmap_app, fmap_single. cbn [te_seq]. by rewrite Hnext.
  - rewrite pop_front_over_last. apply Forall_drop, Forall_app. split; [done|]. by repeat constructor.
  - match goal with |- if is_terminal_record ?x then _ else _ =>
      change (is_terminal_record x) with (is_terminal_record r) end.
    rewrite pop_front_over_last, last_n_app_single, Hb by done. destruct b.
    + do 2 eexists. split_and!; [done..|]. by apply Forall_drop.
    + apply Forall_app. split; [by apply Forall_drop|by repeat constructor].
Qed.

Lemma registry_inv_weaken n g : registry_inv n g -> registry_inv (S n) g.
Proof.
  intros [Hn Hid Hwf Hc Hf]. split; [lia|done|done| |done]. intros id r Hr%Hc. lia.
Qed.

Lemma finished_insert turns id r :
  is_terminal_record r = false ->
  finished_turns (<[id := r]> turns) = finished_turns (delete id turns).
Proof. intros Hr. unfold finished_turns. apply map_filter_insert_False. simpl. congruence. Qed.

Lemma finished_delete turns id : size (finished_turns (delete id turns)) <= size (finished_turns turns).
Proof.
  unfold finished_turns. rewrite map_filter_delete, map_size_delete. destruct (_ !! _); simpl; lia.
Qed.

Lemma ensure_mutable_ok r id :
  ControlPlaneTurnRegistry_ensure_turn_mutable r id = Ok tt <-> is_terminal_record r = false.
Proof.
  unfold ControlPlaneTurnRegistry_ensure_turn_mutable, is_terminal_record.
  by destruct (ControlPlaneTurnStatus_is_terminal _).
Qed.

Lemma issue_turn_fresh n random g :
  registry_inv n g -> (Z.of_nat n < u64_max)%Z -> u64_valid random ->
  u64_wrapping_add (rg_nonce g) 1 = (rg_nonce g + 1)%Z /\
  rg_turns g !! control_plane_id "cpt-turn-" (rg_nonce g + 1) random = None.
Proof.
  intros H Hn Hr. pose proof (gi_nonce _ _ H). split.
  - apply u64_wrapping_add_small; unfold u64_valid, u64_max, u64_modulus in *; lia.
  - destruct (_ !! _) as [r|] eqn:Hl; [|done].
    destruct (gi_ids _ _ H _ _ Hl) as (s & rnd & Hs' & Hrnd & Heq).
    apply control_plane_id_inj in Heq as [Heq _]; unfold u64_valid in *; lia.
Qed.

(** The two ways a turn's record changes. *)
Lemma turn_updated_wf n g id r0 r1 b payload :
  registry_inv n g -> (Z.of_nat n + 1 < u64_max)%Z -> rg_turns g !! id = Some r0 ->
  is_terminal_record r0 = false ->
  tr_recent_events r1 = tr_recent_events r0 -> tr_next_seq r1 = tr_next_seq r0 ->
  ts_turn_id (tr_snapshot r1) = ts_turn_id (tr_snapshot r0) ->
  ts_session_id (tr_snapshot r1) = ts_session_id (tr_snapshot r0) ->
  ts_event_count (tr_snapshot r1) = ts_event_count (tr_snapshot r0) -> is_terminal_record r1 = b ->
  turn_wf id (ControlPlaneTurnRegistry_push_event_locked r1 b payload).2 /\
  ts_event_count (tr_snapshot (ControlPlaneTurnRegistry_push_event_locked r1 b payload).2) <= S n.
Proof.
  intros H Hn Hr0 Ht E1 E2 E3 E4 E5 Hb.
  pose proof (gi_count _ _ H _ _ Hr0) as Hc. split; [|simpl; lia].
  apply push_event_locked_wf; [|rewrite E5; lia|done].
  destruct (turn_wf_open id r0 (gi_wf _ _ H _ _ Hr0) Ht). split; rewrite ?E1, ?E2, ?E3, ?E4, ?E5; done.
Qed.

(** Putting a well-formed record in place of one that is there, and forgetting
    some turns. *)
Lemma registry_inv_update n g id r turns sent :
  registry_inv n g -> is_Some (rg_turns g !! id) -> turn_wf id r ->
  ts_event_count (tr_snapshot r) <= S n -> turns ⊆ <[id := r]> (rg_turns g) ->
  size (finished_turns turns) <= CONTROL_PLANE_TURN_TERMINAL_RETENTION_LIMIT ->
  registry_inv (S n) {| rg_nonce := rg_nonce g; rg_turns := turns; rg_sent := sent |}.
Proof.
  intros [Hn Hid Hwf Hc Hf] [r0 Hr0] Hr Hcount Hsub Hsize. split; cbn [rg_nonce rg_turns]; [lia| | | |done].
  all: intros id' r' Hl; eapply lookup_weaken in Hl; [|exact Hsub];
    destruct (decide (id = id')) as [<-|Hne];
    [rewrite lookup_insert_eq in Hl; simplify_eq|rewrite lookup_insert_ne in Hl by done]; eauto.
Qed.

Lemma issue_turn_inv n now random sid g :
  registry_inv n g -> (Z.of_nat n < u64_max)%Z -> u64_valid random ->
  registry_inv (S n) (ControlPlaneTurnRegistry_issue_turn now random sid g).2.
Proof.
  intros H Hn Hc. destruct (issue_turn_fresh n random g) as [Hs _]; [done..|].
  destruct H as [Hn' Hid Hwf Hcnt Hf]. cbn [ControlPlaneTurnRegistry_issue_turn snd].
  rewrite Hs. split; cbn [rg_nonce rg_turns]; [lia| | | |].
  1-3: intros id r Hl; destruct (decide (control_plane_id "cpt-turn-" (rg_nonce g + 1) random = id)) as [<-|Hne];
    [rewrite lookup_insert_eq in Hl; simplify_eq|rewrite lookup_insert_ne in Hl by done].
  - exists (rg_nonce g + 1)%Z, random. split_and!; [lia|lia|done..].
  - destruct (Hid _ _ Hl) as (s & rnd & Hs' & ?). exists s, rnd. split; [lia|done].
  - split; try done. simpl. constructor.
  - eauto.
  - simpl. lia.
  - apply Hcnt in Hl. lia.
  - rewrite finished_insert by done. etransitivity; [apply finished_delete|done].
Qed.

Lemma push_event_inv n id payload g :
  registry_inv n g -> (Z.of_nat n + 1 < u64_max)%Z ->
  registry_inv (S n) (ControlPlaneTurnRegistry_push_event id false payload g).2.
Proof.
  intros H Hn. unfold ControlPlaneTurnRegistry_push_event.
  destruct (rg_turns g !! id) as [r|] eqn:Hr; [|by apply registry_inv_weaken].
  destruct (ControlPlaneTurnRegistry_ensure_turn_mutable r id) as [[]|] eqn:Hm; [|by apply registry_inv_weaken].
  apply ensure_mutable_ok in Hm.
  destruct (turn_updated_wf n g id r r false payload) as [Hwf Hcnt]; try done.
  apply (registry_inv_update n g id (ControlPlaneTurnRegistry_push_event_locked r false payload).2
           (<[id := (ControlPlaneTurnRegistry_push_event_locked r false payload).2]> (rg_turns g)));
    [done|by eexists|done|done|done|].
  rewrite finished_insert by exact Hm. etransitivity; [apply finished_delete|apply H].
Qed.

(** A completion keeps the identity of the turn and makes it terminal. *)
Definition finishes (finish : ControlPlaneTurnSnapshot -> ControlPlaneTurnSnapshot) : Prop :=
  forall s, ts_turn_id (finish s) = ts_turn_id s /\ ts_session_id (finish s) = ts_session_id s /\
    ts_event_count (finish s) = ts_event_count s /\
    ControlPlaneTurnStatus_is_terminal (ts_status (finish s)) = true.

Lemma complete_turn_inv n id finish payload g :
  finishes finish -> registry_inv n g -> (Z.of_nat n + 1 < u64_max)%Z ->
  registry_inv (S n) (complete_turn id finish payload g).2.
Proof.
  intros Hfin H Hn. unfold complete_turn.
  destruct (rg_turns g !! id) as [r|] eqn:Hr; [|by apply registry_inv_weaken].
  destruct (ControlPlaneTurnRegistry_ensure_turn_mutable r id) as [[]|] eqn:Hm; [|by apply registry_inv_weaken].
  apply ensure_mutable_ok in Hm. destruct (Hfin (tr_snapshot r)) as (E1 & E2 & E3 & E4).
  set (r1 := {| tr_snapshot := finish (tr_snapshot r); tr_recent_events := tr_recent_events r;
                tr_next_seq := tr_next_seq r |}).
  destruct (turn_updated_wf n g id r r1 true payload) as [Hwf Hcnt]; try done.
  apply (registry_inv_update n g id (ControlPlaneTurnRegistry_push_event_locked r1 true payload).2
           (pruned (<[id := (ControlPlaneTurnRegistry_push_event_locked r1 true payload).2]> (rg_turns g))));
    [done|by eexists|done|done| |].
  - apply pruned_subseteq.
  - apply pruned_size.
Qed.

Lemma complete_success_finishes now out stop usage :
  finishes (fun s => {|
      ts_turn_id := ts_turn_id s; ts_session_id := ts_session_id s;
      ts_status := terminal_status_of stop;
      ts_submitted_at_ms := ts_submitted_at_ms s; ts_completed_at_ms := Some now;
      ts_event_count := ts_event_count s; ts_output_text := Some out;
      ts_stop_reason := stop; ts_usage := usage; ts_error := None |}).
Proof. intros s. split_and!; try done. simpl. unfold terminal_status_of. by destruct (decide _). Qed.

Lemma run_turn_call_inv n c g :
  registry_inv n g -> (Z.of_nat n + 1 < u64_max)%Z -> call_valid c ->
  registry_inv (S n) (run_turn_call c g).
Proof.
  intros H Hn Hc. destruct c as [now random sid|id payload|now id out stop usage|now id err].
  - by apply issue_turn_inv; [|lia|].
  - by apply push_event_inv.
  - apply complete_turn_inv; [apply complete_success_finishes|done..].
  - by apply complete_turn_inv.
Qed.

Definition run_turn_calls (cs : list TurnCall) (g : ControlPlaneTurnRegistry) : ControlPlaneTurnRegistry :=
  foldl (fun g c => run_turn_call c g) g cs.

Lemma registry_inv_new : registry_inv 0 ControlPlaneTurnRegistry_new.
Proof.
  split; cbn [ControlPlaneTurnRegistry_new rg_turns rg_nonce]; [lia|intros id r Hl; by rewrite lookup_empty in Hl..|].
  unfold finished_turns. rewrite map_filter_empty, map_size_empty. lia.
Qed.

Lemma run_turn_calls_inv n cs g :
  registry_inv n g -> Forall call_valid cs -> (Z.of_nat (n + length cs) < u64_max)%Z ->
  registry_inv (n + length cs) (run_turn_calls cs g).
Proof.
  intros H Hcs. revert n g H. induction Hcs as [|c cs Hc _ IH]; intros n g H Hn; simpl in *;
    [by rewrite Nat.add_0_r|].
  rewrite <- Nat.add_succ_comm. apply IH; [|lia]. apply run_turn_call_inv; [done|lia|done].
Qed.

(** C38 (invariant). Along any calls (fewer than 2^64): a turn's retained events
    are the last 256 of its numbers 1, 2, ..., each marked with the turn and its
    session; exactly the last event of a finished turn is terminal and no event
    of a running one; and at most 256 finished turns are kept. *)
Theorem turn_registry_invariant cs :
  Forall call_valid cs -> (Z.of_nat (length cs) < u64_max)%Z ->
  let g := run_turn_calls cs ControlPlaneTurnRegistry_new in
  size (finished_turns (rg_turns g)) <= CONTROL_PLANE_TURN_TERMINAL_RETENTION_LIMIT /\
  forall id r, rg_turns g !! id = Some r -> turn_wf id r.
Proof.
  intros Hcs Hn g. pose proof (run_turn_calls_inv 0 cs _ registry_inv_new Hcs Hn) as H. fold g in H.
  split; apply H.
Qed.

(** A finished turn [r], or its absence, under an identifier already issued. *)
Definition settled (id : string) (r : ControlPlaneTurnStateRecord) (g : ControlPlaneTurnRegistry) : Prop :=
  (rg_turns g !! id = Some r \/ rg_turns g !! id = None) /\
  exists s rnd, (1 <= s <= rg_nonce g)%Z /\ u64_valid rnd /\ id = control_plane_id "cpt-turn-" s rnd.

Lemma settled_update id r g id' r' turns sent :
  settled id r g -> is_terminal_record r = true -> (forall r0, rg_turns g !! id' = Some r0 -> is_terminal_record r0 = false) ->
  is_Some (rg_turns g !! id') -> turns ⊆ <[id' := r']> (rg_turns g) ->
  settled id r {| rg_nonce := rg_nonce g; rg_turns := turns; rg_sent := sent |}.
Proof.
  intros [Hl Hid] Ht Hopen [r0 Hr0] Hsub. split; [|done]. cbn [rg_turns].
  destruct (turns !! id) as [r1|] eqn:Hr1; [|by right]. eapply lookup_weaken in Hr1; [|exact Hsub].
  assert (id' <> id) by (intros ->; destruct Hl as [Hl|Hl]; [|congruence]; specialize (Hopen _ Hl); congruence).
  rewrite lookup_insert_ne in Hr1 by done. destruct Hl; [left|]; congruence.
Qed.

Lemma complete_turn_settled id' finish payload g id r :
  is_terminal_record r = true -> settled id r g -> settled id r (complete_turn id' finish payload g).2.
Proof.
  intros Ht Hs. unfold complete_turn. destruct (rg_turns g !! id') as [r0|] eqn:Hr0; [|done].
  destruct (ControlPlaneTurnRegistry_ensure_turn_mutable r0 id') as [[]|] eqn:Hm; [|done].
  apply ensure_mutable_ok in Hm. destruct (ControlPlaneTurnRegistry_push_event_locked _ _ _) as [ev r1].
  apply (settled_update id r g id' r1); [done|done|congruence|by eexists|apply pruned_subseteq].
Qed.

Lemma run_turn_call_settled n c g id r :
  registry_inv n g -> (Z.of_nat n < u64_max)%Z -> call_valid c -> is_terminal_record r = true ->
  settled id r g -> settled id r (run_turn_call c g).
Proof.
  intros H Hn Hc Ht Hs. destruct c as [now random sid|id' payload|now id' out stop usage|now id' err].
  - destruct (issue_turn_fresh n random g) as [Hnonce Hfresh]; [done..|].
    destruct Hs as [Hl (s & rnd & Hs & Hrnd & ->)].
    cbn [run_turn_call ControlPlaneTurnRegistry_issue_turn snd]. rewrite Hnonce.
    split; [|exists s, rnd; split_and!; [lia|simpl; lia|done..]]. cbn [rg_turns].
    rewrite lookup_insert_ne; [done|]. pose proof (gi_nonce _ _ H). simpl in Hc.
    intros [Heq _]%control_plane_id_inj; unfold u64_valid in *; lia.
  - cbn [run_turn_call]. unfold ControlPlaneTurnRegistry_record_runtime_event, ControlPlaneTurnRegistry_push_event.
    destruct (rg_turns g !! id') as [r0|] eqn:Hr0; [|done].
    destruct (ControlPlaneTurnRegistry_ensure_turn_mutable r0 id') as [[]|] eqn:Hm; [|done].
    apply ensure_mutable_ok in Hm. destruct (ControlPlaneTurnRegistry_push_event_locked _ _ _) as [ev r1].
    apply (settled_update id r g id' r1); [done|done|congruence|by eexists|done].
  - by apply complete_turn_settled.
  - by apply complete_turn_settled.
Qed.

(** A finished turn is final: whatever calls follow, its record
    stays what it was until retention drops it, and its identifier is never used
    again; further events and completions for it are refused and change
    nothing. *)
Theorem finished_turn_final cs cs' id r :
  Forall call_valid (cs ++ cs') -> (Z.of_nat (length (cs ++ cs')) < u64_max)%Z ->
  let g := run_turn_calls cs ControlPlaneTurnRegistry_new in
  rg_turns g !! id = Some r -> is_terminal_record r = true ->
  (rg_turns (run_turn_calls cs' g) !! id = Some r \/ rg_turns (run_turn_calls cs' g) !! id = None) /\
  (forall payload, ControlPlaneTurnRegistry_record_runtime_event id payload g
     = (Returned (Err ("control_plane_turn_already_terminal: `" +:+ id +:+ "`")), g)) /\
  (forall now out stop usage, ControlPlaneTurnRegistry_complete_success now id out stop usage g
     = (Returned (Err ("control_plane_turn_already_terminal: `" +:+ id +:+ "`")), g)) /\
  (forall now err, ControlPlaneTurnRegistry_complete_failure now id err g
     = (Returned (Err ("control_plane_turn_already_terminal: `" +:+ id +:+ "`")), g)).
Proof.
  intros [Hcs Hcs']%Forall_app Hn g Hr Ht. rewrite length_app in Hn.
  pose proof (run_turn_calls_inv 0 cs _ registry_inv_new Hcs ltac:(simpl; lia)) as H. fold g in H. simpl in H.
  split_and!.
  - assert (Hs : settled id r g) by (split; [by left|by eapply (gi_ids _ _ H)]).
    enough (settled id r (run_turn_calls cs' g)) as [? _] by done.
    revert H Hs Hn. generalize (length cs) as n. clear Hcs Hr. generalize g. clear g.
    induction Hcs' as [|c cs' Hc _ IH]; intros g n H Hs Hn; [done|]. simpl in *.
    apply (IH _ (S n)); [|by eapply run_turn_call_settled; [done|lia|done..]|lia].
    apply run_turn_call_inv; [done|lia|done].
  - intros payload. unfold ControlPlaneTurnRegistry_record_runtime_event, ControlPlaneTurnRegistry_push_event.
    rewrite Hr. unfold ControlPlaneTurnRegistry_ensure_turn_mutable. by rewrite (Ht : ControlPlaneTurnStatus_is_terminal _ = true).
  - intros. unfold ControlPlaneTurnRegistry_complete_success, complete_turn.
    rewrite Hr. unfold ControlPlaneTurnRegistry_ensure_turn_mutable. by rewrite (Ht : ControlPlaneTurnStatus_is_terminal _ = true).
  - intros. unfold ControlPlaneTurnRegistry_complete_failure, complete_turn.
    rewrite Hr. unfold ControlPlaneTurnRegistry_ensure_turn_mutable. by rewrite (Ht : ControlPlaneTurnStatus_is_terminal _ = true).
Qed.

(** ** The stream of a turn *)

Definition turn_before (a b : ControlPlaneTurnEventRecord) : Prop := (te_seq a < te_seq b)%Z.

(** The events of [l] are the turn's, come after [n], and are in order. *)
Definition turn_delivers (id : string) (n : Z) (l : list ControlPlaneTurnEventRecord) : Prop :=
  StronglySorted turn_before l /\ Forall (fun e => (n < te_seq e)%Z /\ te_turn_id e = id) l.

Definition turn_last_seq (n : Z) (l : list ControlPlaneTurnEventRecord) : Z :=
  default n (te_seq <$> last l).

Lemma turn_delivers_app id n l1 l2 :
  turn_delivers id n l1 -> turn_delivers id (turn_last_seq n l1) l2 -> turn_delivers id n (l1 ++ l2).
Proof.
  intros [Hs1 Hf1] [Hs2 Hf2]. unfold turn_last_seq in Hf2.
  destruct (last l1) as [e|] eqn:Hl; [|apply last_None in Hl as ->; by split].
  simpl in Hf2. apply last_Some in Hl as [p ->].
  assert (Hle : forall x, x ∈ p ++ [e] -> (te_seq x <= te_seq e)%Z).
  { intros x [Hx| ->%list_elem_of_singleton]%elem_of_app; [|lia].
    apply StronglySorted_app in Hs1 as (Hlt & _ & _).
    specialize (Hlt x e Hx ltac:(set_solver)). unfold turn_before in Hlt. lia. }
  rewrite Forall_forall in Hf1, Hf2. split.
  - apply StronglySorted_app. split_and!; [|done|done].
    intros x y Hx%Hle [Hy _]%Hf2. unfold turn_before. lia.
  - apply Forall_app. split; apply Forall_forall; [done|]. intros x [Hx Hv]%Hf2. split; [|done].
    destruct (Hf1 e ltac:(set_solver)). lia.
Qed.

Lemma StronglySorted_fmap_inv {A B} (R : relation B) (f : A -> B) l :
  StronglySorted R (f <$> l) -> StronglySorted (fun x y => R (f x) (f y)) l.
Proof.
  induction l as [|x l IH]; [constructor|]. cbn. intros [Hx Hl]%StronglySorted_cons.
  constructor; [by apply IH|]. rewrite Forall_fmap in Hx. exact Hx.
Qed.

Lemma seqs_sorted k n : StronglySorted Z.lt (Z.of_nat <$> seq k n).
Proof.
  revert k. induction n as [|n IH]; intros k; [constructor|]. cbn -[Z.of_nat]. constructor; [apply IH|].
  rewrite Forall_fmap. apply Forall_forall. intros x Hx%elem_of_seq. simpl. lia.
Qed.

Lemma turn_wf_delivers id r n :
  turn_wf id r -> turn_delivers id n (filter (fun e => n < te_seq e)%Z (tr_recent_events r)).
Proof.
  intros [_ _ Hseqs Hown _]. split.
  - apply StronglySorted_filter. apply (StronglySorted_fmap_inv Z.lt te_seq). rewrite Hseqs.
    apply StronglySorted_drop, seqs_sorted.
  - apply Forall_forall. intros e [Hlt He]%list_elem_of_filter. rewrite Forall_forall in Hown.
    split; [done|]. by apply Hown.
Qed.

Lemma turn_delivers_take id n k l : turn_delivers id n l -> turn_delivers id n (take k l).
Proof. intros [Hs Hf]. split; [by apply StronglySorted_take|by apply Forall_take]. Qed.

Lemma drain_turn_pending_all g l st :
  tst_pending_events st = l ->
  drain_turn_pending g l st
  = (l, tst_set_last_seq (turn_last_seq (tst_last_seq st) l) (tst_set_pending [] st)).
Proof.
  revert st. induction l as [|e l IH]; intros st Hst; cbn [drain_turn_pending].
  - destruct st; simpl in *; subst. done.
  - unfold turn_poll. rewrite Hst, IH by done. unfold turn_last_seq. rewrite last_cons.
    destruct (last l); done.
Qed.

Definition registry_wf (g : ControlPlaneTurnRegistry) : Prop :=
  forall id r, rg_turns g !! id = Some r -> turn_wf id r.

Lemma turn_stream_delivers rounds st :
  Forall (fun r => registry_wf (rd_after r)) rounds ->
  turn_delivers (tst_turn_id st) (tst_last_seq st) (tst_pending_events st) ->
  turn_delivers (tst_turn_id st) (tst_last_seq st) (turn_stream rounds st).1.
Proof.
  intros Hrs. revert st. induction Hrs as [|rd rs Hg _ IH]; intros st Hst; cbn [turn_stream];
    [by split; constructor|].
  rewrite drain_turn_pending_all by done. set (n := turn_last_seq _ _).
  set (st' := tst_set_last_seq n (tst_set_pending [] st)).
  destruct (turn_poll (rd_before rd) st'); [done|done| |done].
  assert (Hcont : turn_delivers (tst_turn_id st') (tst_last_seq st') (turn_stream rs st').1)
    by (apply IH; by split; constructor).
  destruct (rd_recv rd) as [e| |]; cbn [turn_received].
  - destruct (bool_decide_reflect (te_turn_id e = tst_turn_id st')) as [Heq|]; cbn [negb];
      [destruct (Z.leb_spec (te_seq e) (tst_last_seq st')) as [|Hlt]|].
    1, 3: destruct (turn_stream rs st'); by apply turn_delivers_app.
    specialize (IH (tst_set_last_seq (te_seq e) st')).
    destruct (turn_stream rs _). apply turn_delivers_app; [done|].
    apply (turn_delivers_app _ _ [e]); [|apply IH; by split; constructor].
    split; [by repeat constructor|]. by repeat constructor.
  - match goal with |- context [tst_set_pending ?p st'] => specialize (IH (tst_set_pending p st')) end.
    destruct (turn_stream rs _). apply turn_delivers_app; [done|]. apply IH.
    cbn [tst_pending_events tst_set_pending tst_turn_id tst_last_seq].
    unfold ControlPlaneTurnRegistry_recent_events_after.
    destruct (rg_turns (rd_after rd) !! tst_turn_id st') as [r|] eqn:Hr; [|by split; constructor].
    apply turn_delivers_take, turn_wf_delivers. by apply Hg.
  - done.
Qed.

(** Whatever the channel answers, a client streaming a turn is sent
    only events of that turn, with strictly increasing numbers after the point
    it asked for. *)
Theorem turn_stream_in_order g id after st rounds :
  registry_wf g -> Forall (fun r => registry_wf (rd_after r)) rounds ->
  initial_turn_stream_state id after g = Ok st ->
  let out := (turn_stream rounds st).1 in
  StronglySorted turn_before out /\
  Forall (fun e => (after < te_seq e)%Z /\ te_turn_id e = id) out.
Proof.
  intros Hg Hrs (pending & Hp & [= <-])%result_bind_ok out.
  apply (turn_stream_delivers rounds {| tst_turn_id := id; tst_pending_events := pending; tst_last_seq := after |} Hrs).
  cbn [tst_pending_events tst_turn_id tst_last_seq].
  unfold ControlPlaneTurnRegistry_recent_events_after in Hp.
  destruct (rg_turns g !! id) as [r|] eqn:Hr; [|done]. injection Hp as <-.
  apply turn_delivers_take, turn_wf_delivers. by apply Hg.
Qed.

(** Streaming a turn that has finished, with at most 50
    retained events after the point asked for: the client is sent exactly those,
    the last of them the terminal event, and the stream ends. *)
Theorem turn_stream_replays g id after r rd rounds :
  registry_wf g -> rg_turns g !! id = Some r -> is_terminal_record r = true ->
  rd_before rd = g -> (after < Z.of_nat (ts_event_count (tr_snapshot r)))%Z ->
  let events := filter (fun e => after < te_seq e)%Z (tr_recent_events r) in
  length events <= CONTROL_PLANE_DEFAULT_EVENT_LIMIT ->
  exists st, initial_turn_stream_state id after g = Ok st /\
    turn_stream (rd :: rounds) st = (events, true) /\
    exists e, last events = Some e /\ te_terminal e = true.
Proof.
  intros Hg Hr Ht Hrd Hafter events Hlen. eexists. split_and!.
  - unfold initial_turn_stream_state, ControlPlaneTurnRegistry_recent_events_after. rewrite Hr. reflexivity.
  - cbn [turn_stream tst_pending_events]. fold events. rewrite take_ge by done.
    rewrite drain_turn_pending_all by done. unfold turn_poll.
    cbn [tst_set_last_seq tst_set_pending tst_pending_events tst_turn_id].
    unfold ControlPlaneTurnRegistry_read_turn. rewrite Hrd, Hr. cbn [fmap option_fmap option_map].
    by rewrite (Ht : ControlPlaneTurnStatus_is_terminal _ = true).
  - destruct (Hg _ _ Hr) as [_ _ Hseqs _ Hterm]. rewrite Ht in Hterm.
    destruct Hterm as (l & e & Hl & He & _). exists e. split; [|done]. unfold events. rewrite Hl in Hseqs |- *.
    rewrite filter_app, filter_cons_True, filter_nil, last_snoc; [done|].
    apply (f_equal last) in Hseqs. rewrite fmap_app, fmap_single, last_snoc in Hseqs.
    set (c := ts_event_count (tr_snapshot r)) in *. destruct c as [|c]; [done|].
    rewrite seq_S, fmap_app, fmap_single, last_n_app_single, last_snoc in Hseqs
      by (unfold CONTROL_PLANE_TURN_RECENT_EVENT_LIMIT; lia).
    injection Hseqs as Hs. lia.
Qed.

(** A client that streams a running turn may not be told how it ended: the stream
    ends as soon as it finds the turn finished, before it has taken the records
    that are still in the channel.  Here the turn records an event, which the
    client receives, and then a second event and its completion before the
    client's next poll: the stream ends without either. *)
Theorem turn_stream_loses_terminal_event :
  let id := control_plane_id "cpt-turn-" 1 7 in
  let g0 := run_turn_calls [CallIssueTurn 100 7 "session"] ControlPlaneTurnRegistry_new in
  let g1 := run_turn_calls [CallRecordRuntimeEvent id JNull] g0 in
  let g2 := run_turn_calls [CallRecordRuntimeEvent id JNull;
                            CallCompleteSuccess 200 id "done" None None] g1 in
  exists st e1 e2 e3, initial_turn_stream_state id 0 g0 = Ok st /\ rg_sent g2 = [e1; e2; e3] /\
    te_terminal e3 = true /\
    turn_stream [{| rd_before := g0; rd_recv := RecvOk e1; rd_after := g1 |};
                 {| rd_before := g2; rd_recv := RecvOk e2; rd_after := g2 |};
                 {| rd_before := g2; rd_recv := RecvOk e3; rd_after := g2 |}] st = ([e1], true).
Proof. do 4 eexists. split_and!; vm_compute; reflexivity. Qed.
