(* ===== verification/ControlAuth.v ===== *)
(** * Who may use the control plane

    [crates/app/src/control_plane.rs]: the registries of connections, challenges
    and paired devices; and the two tables of [crates/app/src/session/repository.rs]
    that keep pairing requests and device tokens over a restart.  A call's clock
    reading and random number are its arguments; whether the database answers is
    a parameter of the call ([PairingIo]); its JSON column is written and read by
    [serde_json] (the class [ScopeCodec]) and the digest of a token is [sha2]'s
    ([TokenHash]). *)

From S2P Require Import Prelude RustStr Contracts ControlEvents ControlTurns.

Definition CONTROL_PLANE_CONNECTION_TTL_MS : Z := 15 * 60 * 1000.
Definition CONTROL_PLANE_CHALLENGE_TTL_MS : Z := 60 * 1000.

(** ** Connections *)

Record ControlPlaneConnectionPrincipal : Type := {
  cpp_connection_id : string;
  cpp_client_id : string;
  cpp_role : string;
  cpp_scopes : gset string;
  cpp_device_id : option string;
}.

Record ControlPlaneConnectionLease : Type := {
  cl_token : string;
  cl_principal : ControlPlaneConnectionPrincipal;
  cl_issued_at_ms : Z;
  cl_expires_at_ms : Z;
}.

Record ControlPlaneConnectionRecord : Type := {
  cr_principal : ControlPlaneConnectionPrincipal;
  cr_issued_at_ms : Z;
  cr_expires_at_ms : Z;
}.

Record ControlPlaneConnectionRegistry : Type := {
  cg_nonce : Z;
  cg_connections : gmap string ControlPlaneConnectionRecord;
}.

Definition ControlPlaneConnectionRegistry_new : ControlPlaneConnectionRegistry := {|
  cg_nonce := 0; cg_connections := ∅ |}.

Definition ControlPlaneConnectionRegistry_issue_with_ttl_ms (now random : Z)
    (principal : ControlPlaneConnectionPrincipal) (ttl_ms : Z)
  : M ControlPlaneConnectionRegistry ControlPlaneConnectionLease := fun g =>
  let expires_at_ms := u64_saturating_add now (Z.max ttl_ms 1) in
  let sequence := u64_wrapping_add (cg_nonce g) 1 in
  let token := control_plane_id "cpt-" sequence random in
  let record := {| cr_principal := principal; cr_issued_at_ms := now;
                   cr_expires_at_ms := expires_at_ms |} in
  (Returned {| cl_token := token; cl_principal := principal; cl_issued_at_ms := now;
               cl_expires_at_ms := expires_at_ms |},
   {| cg_nonce := sequence; cg_connections := <[token := record]> (cg_connections g) |}).

Definition ControlPlaneConnectionRegistry_issue (now random : Z)
    (principal : ControlPlaneConnectionPrincipal) :=
  ControlPlaneConnectionRegistry_issue_with_ttl_ms now random principal
    CONTROL_PLANE_CONNECTION_TTL_MS.

Definition ControlPlaneConnectionRegistry_resolve (now : Z) (token : string)
  : M ControlPlaneConnectionRegistry (result (option ControlPlaneConnectionLease) string) := fun g =>
  let token := trim token in
  if str_is_empty token then (Returned (Ok None), g) else
  let connections := filter (fun p => now < cr_expires_at_ms p.2)%Z (cg_connections g) in
  (Returned (Ok ((fun r => {| cl_token := token; cl_principal := cr_principal r;
                              cl_issued_at_ms := cr_issued_at_ms r;
                              cl_expires_at_ms := cr_expires_at_ms r |}) <$> connections !! token)),
   {| cg_nonce := cg_nonce g; cg_connections := connections |}).

Definition ControlPlaneConnectionRegistry_revoke (token : string)
  : M ControlPlaneConnectionRegistry bool := fun g =>
  let token := trim token in
  if str_is_empty token then (Returned false, g) else
  (Returned (bool_decide (is_Some (cg_connections g !! token))),
   {| cg_nonce := cg_nonce g; cg_connections := delete token (cg_connections g) |}).

(** ** Challenges *)

Record ControlPlaneChallenge : Type := {
  ch_nonce : string;
  ch_issued_at_ms : Z;
  ch_expires_at_ms : Z;
}.

Record ControlPlaneChallengeRegistry : Type := {
  hg_nonce : Z;
  hg_challenges : gmap string ControlPlaneChallenge;
}.

Definition ControlPlaneChallengeRegistry_new : ControlPlaneChallengeRegistry := {|
  hg_nonce := 0; hg_challenges := ∅ |}.

Definition ControlPlaneChallengeRegistry_issue_with_ttl_ms (now random ttl_ms : Z)
  : M ControlPlaneChallengeRegistry ControlPlaneChallenge := fun g =>
  let expires_at_ms := u64_saturating_add now (Z.max ttl_ms 1) in
  let sequence := u64_wrapping_add (hg_nonce g) 1 in
  let challenge := {| ch_nonce := control_plane_id "cpc-" sequence random;
                      ch_issued_at_ms := now; ch_expires_at_ms := expires_at_ms |} in
  (Returned challenge,
   {| hg_nonce := sequence; hg_challenges := <[ch_nonce challenge := challenge]> (hg_challenges g) |}).

Definition ControlPlaneChallengeRegistry_issue (now random : Z) :=
  ControlPlaneChallengeRegistry_issue_with_ttl_ms now random CONTROL_PLANE_CHALLENGE_TTL_MS.

Definition ControlPlaneChallengeRegistry_consume (now : Z) (nonce : string)
  : M ControlPlaneChallengeRegistry (result (option ControlPlaneChallenge) string) := fun g =>
  let nonce := trim nonce in
  if str_is_empty nonce then (Returned (Ok None), g) else
  let challenges := filter (fun p => now < ch_expires_at_ms p.2)%Z (hg_challenges g) in
  (Returned (Ok (challenges !! nonce)),
   {| hg_nonce := hg_nonce g; hg_challenges := delete nonce challenges |}).

(** ** Pairing: the records *)

Inductive ControlPlanePairingStatus : Type := PairingPending | PairingApproved | PairingRejected.

#[export] Instance ControlPlanePairingStatus_eq_dec : EqDecision ControlPlanePairingStatus.
Proof. solve_decision. Defined.

Definition ControlPlanePairingStatus_as_str (s : ControlPlanePairingStatus) : string :=
  match s with
  | PairingPending => "pending"
  | PairingApproved => "approved"
  | PairingRejected => "rejected"
  end.

Record ControlPlanePairingRequestRecord : Type := {
  pq_pairing_request_id : string;
  pq_device_id : string;
  pq_client_id : string;
  pq_public_key : string;
  pq_role : string;
  pq_requested_scopes : gset string;
  pq_status : ControlPlanePairingStatus;
  pq_requested_at_ms : Z;
  pq_resolved_at_ms : option Z;
  pq_issued_token_id : option string;
  pq_device_token : option string;
}.

Inductive ControlPlanePairingConnectDecision : Type :=
| Authorized
| PairingRequired (request : ControlPlanePairingRequestRecord) (created : bool)
| DeviceTokenRequired
| DeviceTokenInvalid.

Record ControlPlaneApprovedDeviceRecord : Type := {
  ad_device_id : string;
  ad_public_key : string;
  ad_role : string;
  ad_approved_scopes : gset string;
  ad_token_id : string;
  ad_token_hash : string;
  ad_approved_at_ms : Z;
}.

(** ** The tables *)

(** A row of [control_plane_pairing_requests], and one of
    [control_plane_device_tokens]. *)
Record RawControlPlanePairingRequestRecord : Type := {
  rp_pairing_request_id : string;
  rp_device_id : string;
  rp_client_id : string;
  rp_public_key : string;
  rp_role : string;
  rp_requested_scopes_json : string;
  rp_status : string;
  rp_requested_at_ms : Z;
  rp_resolved_at_ms : option Z;
  rp_issued_token_id : option string;
  rp_last_error : option string;
}.

Record RawControlPlaneDeviceTokenRecord : Type := {
  rt_token_id : string;
  rt_device_id : string;
  rt_public_key : string;
  rt_role : string;
  rt_approved_scopes_json : string;
  rt_token_hash : string;
  rt_issued_at_ms : Z;
  rt_expires_at_ms : option Z;
  rt_revoked_at_ms : option Z;
  rt_last_used_at_ms : option Z;
  rt_pairing_request_id : option string;
}.

(** The tables by their keys: the primary key of the first, the unique
    [device_id] of the second. *)
Record PairingDb : Type := {
  pd_requests : gmap string RawControlPlanePairingRequestRecord;
  pd_tokens : gmap string RawControlPlaneDeviceTokenRecord;
}.

Definition pd_set_requests (m : gmap string RawControlPlanePairingRequestRecord) (db : PairingDb)
  : PairingDb := {| pd_requests := m; pd_tokens := pd_tokens db |}.

(** The answers of the database to one call, with the text the code makes of an
    error: opening the repository, opening a connection and inserting, loading a
    request, updating one, the transaction of an approval with its update and its
    token, its commit, reading the request back, listing the tables; and the clock. *)
Record PairingIo : Type := {
  pio_now_ms : Z;
  pio_repo : result unit string;
  pio_insert : result unit string;
  pio_load : result unit string;
  pio_update : result unit string;
  pio_begin : result unit string;
  pio_tx_update : result unit string;
  pio_tx_token : result unit string;
  pio_commit : result unit string;
  pio_reload : result unit string;
  pio_list : result unit string;
}.

(** [serde_json] at [BTreeSet<String>]. *)
Class ScopeCodec : Type := {
  scopes_to_string : gset string -> result string string;
  scopes_from_str : string -> result (gset string) string;
}.

(** Writing a set of strings succeeds, and reading it back gives it. *)
Class ScopeCodecLaws `{ScopeCodec} : Prop :=
  scopes_round_trip : forall s, exists t, scopes_to_string s = Ok t /\ scopes_from_str t = Ok s.

(** [hex::encode(Sha256::digest(token))]. *)
Class TokenHash : Type := hash_control_plane_device_token : string -> string.

(** [value as u64] of an [i64], and [value as i64] of a [u64]. *)
Definition i64_as_u64 (z : Z) : Z := z mod u64_modulus.
Definition i64_limit : Z := 2 ^ 63 - 1.
Definition u64_as_i64 (z : Z) : Z := if (z <=? i64_limit)%Z then z else (z - u64_modulus)%Z.
(** [value.try_into().unwrap_or(i64::MAX)]. *)
Definition u64_clamp_i64 (z : Z) : Z := Z.min z i64_limit.

Section pairing.
Context {SC : ScopeCodec} {TH : TokenHash}.

(** [normalize_required_text] of the repository, and of the control plane. *)
Definition repo_normalize_required_text (value field_name : string) : result string string :=
  let trimmed := trim value in
  if str_is_empty trimmed then Err ("session repository requires " +:+ field_name) else Ok trimmed.

Definition normalize_required_text (value field_name : string) : result string string :=
  let trimmed := trim value in
  if str_is_empty trimmed then Err (field_name +:+ " is required") else Ok trimmed.

(** [iter().map(trim).filter(!is_empty).collect()]. *)
Definition trimmed_set (s : gset string) : gset string :=
  list_to_set (filter (fun x => str_is_empty x = false) (trim <$> btree_set_iter s)).

Definition encode_string_set_json (values : gset string) : result string string :=
  map_err (fun error => "encode control-plane scope set failed: " +:+ error)
    (scopes_to_string (trimmed_set values)).

Definition decode_string_set_json (encoded : string) : result (gset string) string :=
  let* decoded := map_err (fun error => "decode control-plane scope set failed: " +:+ error)
                    (scopes_from_str encoded) in
  Ok (trimmed_set decoded).

Definition ControlPlanePairingRequestStatus_from_db (value : string)
  : result ControlPlanePairingStatus string :=
  if decide (value = "pending") then Ok PairingPending else
  if decide (value = "approved") then Ok PairingApproved else
  if decide (value = "rejected") then Ok PairingRejected else
  Err ("unknown control-plane pairing status `" +:+ value +:+ "`").

(** The repository's record of a request ([session::repository]). *)
Record PersistedPairingRequest : Type := {
  pp_pairing_request_id : string;
  pp_device_id : string;
  pp_client_id : string;
  pp_public_key : string;
  pp_role : string;
  pp_requested_scopes : gset string;
  pp_status : ControlPlanePairingStatus;
  pp_requested_at_ms : Z;
  pp_resolved_at_ms : option Z;
  pp_issued_token_id : option string;
  pp_last_error : option string;
}.

Record ControlPlaneDeviceTokenRecord : Type := {
  dt_token_id : string;
  dt_device_id : string;
  dt_public_key : string;
  dt_role : string;
  dt_approved_scopes : gset string;
  dt_token_hash : string;
  dt_issued_at_ms : Z;
  dt_expires_at_ms : option Z;
  dt_revoked_at_ms : option Z;
  dt_last_used_at_ms : option Z;
  dt_pairing_request_id : option string;
}.

Definition pairing_request_try_from_raw (raw : RawControlPlanePairingRequestRecord)
  : result PersistedPairingRequest string :=
  let* requested_scopes := decode_string_set_json (rp_requested_scopes_json raw) in
  let* status := ControlPlanePairingRequestStatus_from_db (rp_status raw) in
  Ok {| pp_pairing_request_id := rp_pairing_request_id raw; pp_device_id := rp_device_id raw;
        pp_client_id := rp_client_id raw; pp_public_key := rp_public_key raw;
        pp_role := rp_role raw; pp_requested_scopes := requested_scopes; pp_status := status;
        pp_requested_at_ms := rp_requested_at_ms raw; pp_resolved_at_ms := rp_resolved_at_ms raw;
        pp_issued_token_id := rp_issued_token_id raw; pp_last_error := rp_last_error raw |}.

Definition device_token_try_from_raw (raw : RawControlPlaneDeviceTokenRecord)
  : result ControlPlaneDeviceTokenRecord string :=
  let* approved_scopes := decode_string_set_json (rt_approved_scopes_json raw) in
  Ok {| dt_token_id := rt_token_id raw; dt_device_id := rt_device_id raw;
        dt_public_key := rt_public_key raw; dt_role := rt_role raw;
        dt_approved_scopes := approved_scopes; dt_token_hash := rt_token_hash raw;
        dt_issued_at_ms := rt_issued_at_ms raw; dt_expires_at_ms := rt_expires_at_ms raw;
        dt_revoked_at_ms := rt_revoked_at_ms raw; dt_last_used_at_ms := rt_last_used_at_ms raw;
        dt_pairing_request_id := rt_pairing_request_id raw |}.

(** [raw.map(try_from_raw).transpose()]. *)
Definition transpose_map {A B} (f : A -> result B string) (o : option A) : result (option B) string :=
  match o with
  | None => Ok None
  | Some a => let* b := f a in Ok (Some b)
  end.

(** The loop that decodes the rows of a listing. *)
Fixpoint decode_rows {A B} (f : A -> result B string) (rows : list A) : result (list B) string :=
  match rows with
  | [] => Ok []
  | row :: rows =>
      let* x := f row in
      let* xs := decode_rows f rows in
      Ok (x :: xs)
  end.

(** ** The repository *)

Definition load_control_plane_pairing_request (io : result unit string) (pairing_request_id : string)
    (db : PairingDb) : result (option PersistedPairingRequest) string :=
  let* id := repo_normalize_required_text pairing_request_id "pairing_request_id" in
  let* _ := io in
  transpose_map pairing_request_try_from_raw (pd_requests db !! id).

Record NewControlPlanePairingRequestRecord : Type := {
  np_pairing_request_id : string;
  np_device_id : string;
  np_client_id : string;
  np_public_key : string;
  np_role : string;
  np_requested_scopes : gset string;
}.

(** A row that is there already answers the insertion with a unique-constraint
    error, and is loaded. *)
Definition ensure_control_plane_pairing_request (io : PairingIo)
    (record : NewControlPlanePairingRequestRecord)
  : M PairingDb (result PersistedPairingRequest string) := fun db =>
  let prepared :=
    let* id := repo_normalize_required_text (np_pairing_request_id record) "pairing_request_id" in
    let* device_id := repo_normalize_required_text (np_device_id record) "device_id" in
    let* client_id := repo_normalize_required_text (np_client_id record) "client_id" in
    let* public_key := repo_normalize_required_text (np_public_key record) "public_key" in
    let* role := repo_normalize_required_text (np_role record) "role" in
    let* scopes_json := encode_string_set_json (np_requested_scopes record) in
    let* _ := pio_insert io in
    Ok {| rp_pairing_request_id := id; rp_device_id := device_id; rp_client_id := client_id;
          rp_public_key := public_key; rp_role := role; rp_requested_scopes_json := scopes_json;
          rp_status := ControlPlanePairingStatus_as_str PairingPending;
          rp_requested_at_ms := pio_now_ms io; rp_resolved_at_ms := None;
          rp_issued_token_id := None; rp_last_error := None |} in
  match prepared with
  | Err e => (Returned (Err e), db)
  | Ok row =>
      let id := rp_pairing_request_id row in
      match pd_requests db !! id with
      | Some _ =>
          (Returned (
             let* loaded := load_control_plane_pairing_request (pio_load io) id db in
             ok_or loaded ("control-plane pairing request `" +:+ id +:+ "` missing after concurrent insert")),
           db)
      | None =>
          let db := pd_set_requests (<[id := row]> (pd_requests db)) db in
          (Returned (
             let* loaded := load_control_plane_pairing_request (pio_load io) id db in
             ok_or loaded ("control-plane pairing request `" +:+ id +:+ "` disappeared after insert")),
           db)
      end
  end.

(** [ORDER BY requested_at_ms DESC, pairing_request_id ASC]. *)
Definition request_row_le (a b : RawControlPlanePairingRequestRecord) : Prop :=
  (rp_requested_at_ms b < rp_requested_at_ms a)%Z \/
  (rp_requested_at_ms a = rp_requested_at_ms b /\
   String.le (rp_pairing_request_id a) (rp_pairing_request_id b)).

#[export] Instance request_row_le_dec : RelDecision request_row_le.
Proof. intros a b. unfold request_row_le. apply _. Defined.

Definition list_control_plane_pairing_requests (io : PairingIo)
    (status : option ControlPlanePairingStatus) (db : PairingDb)
  : result (list PersistedPairingRequest) string :=
  let* _ := pio_list io in
  decode_rows pairing_request_try_from_raw
    (merge_sort request_row_le
       (filter (fun row => match status with
                           | Some s => bool_decide (rp_status row = ControlPlanePairingStatus_as_str s)
                           | None => true
                           end = true) (map_to_list (pd_requests db)).*2)).

(** [normalize_optional_text]. *)
Definition repo_normalize_optional_text (value : option string) : option string :=
  raw ← value; let trimmed := trim raw in if str_is_empty trimmed then None else Some trimmed.

(** [UPDATE ... SET ... WHERE pairing_request_id = ?1 AND status = ?2]. *)
Definition update_request (id : string) (expected next : ControlPlanePairingStatus)
    (resolved_at : option Z) (issued_token_id last_error : option string)
    (row : RawControlPlanePairingRequestRecord) : RawControlPlanePairingRequestRecord := {|
  rp_pairing_request_id := rp_pairing_request_id row; rp_device_id := rp_device_id row;
  rp_client_id := rp_client_id row; rp_public_key := rp_public_key row; rp_role := rp_role row;
  rp_requested_scopes_json := rp_requested_scopes_json row;
  rp_status := ControlPlanePairingStatus_as_str next;
  rp_requested_at_ms := rp_requested_at_ms row;
  rp_resolved_at_ms := match resolved_at with Some t => Some t | None => rp_resolved_at_ms row end;
  rp_issued_token_id := match issued_token_id with Some t => Some t | None => rp_issued_token_id row end;
  rp_last_error := last_error |}.

(** The row the [WHERE] clause selects. *)
Definition selected_request (id : string) (expected : ControlPlanePairingStatus) (db : PairingDb)
  : option RawControlPlanePairingRequestRecord :=
  row ← pd_requests db !! id;
  if decide (rp_status row = ControlPlanePairingStatus_as_str expected) then Some row else None.

Definition transition_control_plane_pairing_request_if_current (io : PairingIo)
    (pairing_request_id : string) (expected_status next_status : ControlPlanePairingStatus)
    (issued_token_id last_error : option string)
  : M PairingDb (result (option PersistedPairingRequest) string) := fun db =>
  match repo_normalize_required_text pairing_request_id "pairing_request_id" with
  | Err e => (Returned (Err e), db)
  | Ok id =>
      let last_error := repo_normalize_optional_text last_error in
      let resolution_ts :=
        match next_status with
        | PairingApproved | PairingRejected => Some (pio_now_ms io)
        | PairingPending => None
        end in
      match pio_update io with
      | Err e => (Returned (Err e), db)
      | Ok _ =>
          match selected_request id expected_status db with
          | None => (Returned (Ok None), db)
          | Some row =>
              let db := pd_set_requests (<[id := update_request id expected_status next_status
                          resolution_ts issued_token_id last_error row]> (pd_requests db)) db in
              (Returned (
                 let* loaded := load_control_plane_pairing_request (pio_reload io) id db in
                 match loaded with
                 | Some r => Ok (Some r)
                 | None => Err ("control-plane pairing request `" +:+ id +:+
                                "` missing after conditional update")
                 end), db)
          end
      end
  end.

Record NewControlPlaneDeviceTokenRecord : Type := {
  nt_token_id : string;
  nt_device_id : string;
  nt_public_key : string;
  nt_role : string;
  nt_approved_scopes : gset string;
  nt_token_hash : string;
  nt_expires_at_ms : option Z;
  nt_revoked_at_ms : option Z;
  nt_last_used_at_ms : option Z;
  nt_pairing_request_id : option string;
}.

(** The row of a new token: its text fields normalized. *)
Definition new_token_row (token : NewControlPlaneDeviceTokenRecord) (issued_at_ms : Z)
  : result RawControlPlaneDeviceTokenRecord string :=
  let* token_id := repo_normalize_required_text (nt_token_id token) "token_id" in
  let* device_id := repo_normalize_required_text (nt_device_id token) "device_id" in
  let* public_key := repo_normalize_required_text (nt_public_key token) "public_key" in
  let* role := repo_normalize_required_text (nt_role token) "role" in
  let* token_hash := repo_normalize_required_text (nt_token_hash token) "token_hash" in
  let* scopes_json := encode_string_set_json (nt_approved_scopes token) in
  Ok {| rt_token_id := token_id; rt_device_id := device_id; rt_public_key := public_key;
        rt_role := role; rt_approved_scopes_json := scopes_json; rt_token_hash := token_hash;
        rt_issued_at_ms := issued_at_ms; rt_expires_at_ms := nt_expires_at_ms token;
        rt_revoked_at_ms := nt_revoked_at_ms token; rt_last_used_at_ms := nt_last_used_at_ms token;
        rt_pairing_request_id := nt_pairing_request_id token |}.

(** [INSERT ... ON CONFLICT(device_id) DO UPDATE]: the row of the device is
    replaced; another device's row with the same primary key is a constraint
    error. *)
Definition upsert_token (row : RawControlPlaneDeviceTokenRecord)
    (tokens : gmap string RawControlPlaneDeviceTokenRecord)
  : result (gmap string RawControlPlaneDeviceTokenRecord) string :=
  if existsb (fun p => bool_decide (rt_token_id p.2 = rt_token_id row) &&
                       negb (bool_decide (p.1 = rt_device_id row))) (map_to_list tokens)
  then Err "UNIQUE constraint failed: control_plane_device_tokens.token_id"
  else Ok (<[rt_device_id row := row]> tokens).

Definition approve_control_plane_pairing_request (io : PairingIo) (request : PersistedPairingRequest)
    (token : NewControlPlaneDeviceTokenRecord)
  : M PairingDb (result (option PersistedPairingRequest) string) := fun db =>
  let prepared :=
    let* _ := if decide (pp_status request = PairingApproved) then Ok tt
              else Err "control-plane pairing approval persistence requires approved status" in
    let* id := repo_normalize_required_text (pp_pairing_request_id request) "pairing_request_id" in
    let* resolved_at_ms := ok_or (pp_resolved_at_ms request)
          "approved control-plane pairing request requires resolved_at_ms" in
    let* issued_token_id := ok_or (pp_issued_token_id request)
          "approved control-plane pairing request requires issued_token_id" in
    let* row := new_token_row token resolved_at_ms in
    let* _ := pio_begin io in
    let* _ := pio_tx_update io in
    Ok (id, resolved_at_ms, issued_token_id, row) in
  match prepared with
  | Err e => (Returned (Err e), db)
  | Ok (id, resolved_at_ms, issued_token_id, row) =>
      match selected_request id PairingPending db with
      | None => (Returned (Ok None), db)
      | Some old =>
          let requests := <[id := update_request id PairingPending PairingApproved
                (Some resolved_at_ms) (Some issued_token_id) None old]> (pd_requests db) in
          let written :=
            let* _ := pio_tx_token io in
            let* tokens := map_err (fun error =>
                "approve control-plane pairing request token upsert failed: " +:+ error)
                (upsert_token row (pd_tokens db)) in
            let* _ := pio_commit io in
            Ok {| pd_requests := requests; pd_tokens := tokens |} in
          match written with
          | Err e => (Returned (Err e), db)
          | Ok db =>
              (Returned (
                 let* loaded := load_control_plane_pairing_request (pio_reload io) id db in
                 match loaded with
                 | Some r => Ok (Some r)
                 | None => Err ("control-plane pairing request `" +:+ id +:+
                                "` missing after approval commit")
                 end), db)
          end
      end
  end.

(** [ORDER BY issued_at_ms DESC, token_id ASC]. *)
Definition token_row_le (a b : RawControlPlaneDeviceTokenRecord) : Prop :=
  (rt_issued_at_ms b < rt_issued_at_ms a)%Z \/
  (rt_issued_at_ms a = rt_issued_at_ms b /\ String.le (rt_token_id a) (rt_token_id b)).

#[export] Instance token_row_le_dec : RelDecision token_row_le.
Proof. intros a b. unfold token_row_le. apply _. Defined.

Definition list_control_plane_device_tokens (io : PairingIo) (db : PairingDb)
  : result (list ControlPlaneDeviceTokenRecord) string :=
  let* _ := pio_list io in
  decode_rows device_token_try_from_raw
    (merge_sort token_row_le (map_to_list (pd_tokens db)).*2).

(** ** The pairing registry *)

Record ControlPlanePairingRegistry : Type := {
  pg_nonce : Z;
  pg_requests : gmap string ControlPlanePairingRequestRecord;
  pg_approved_devices : gmap string ControlPlaneApprovedDeviceRecord;
  pg_persistent : bool;
}.

(** [memory_config: None]. *)
Definition ControlPlanePairingRegistry_new : ControlPlanePairingRegistry := {|
  pg_nonce := 0; pg_requests := ∅; pg_approved_devices := ∅; pg_persistent := false |}.

(** The registry and the database its calls open. *)
Record PairingState : Type := {
  ps_registry : ControlPlanePairingRegistry;
  ps_db : PairingDb;
}.

Definition pg_set_nonce (n : Z) (g : ControlPlanePairingRegistry) : ControlPlanePairingRegistry := {|
  pg_nonce := n; pg_requests := pg_requests g; pg_approved_devices := pg_approved_devices g;
  pg_persistent := pg_persistent g |}.
Definition pg_set_requests (m : gmap string ControlPlanePairingRequestRecord)
    (g : ControlPlanePairingRegistry) : ControlPlanePairingRegistry := {|
  pg_nonce := pg_nonce g; pg_requests := m; pg_approved_devices := pg_approved_devices g;
  pg_persistent := pg_persistent g |}.
Definition pg_set_approved (m : gmap string ControlPlaneApprovedDeviceRecord)
    (g : ControlPlanePairingRegistry) : ControlPlanePairingRegistry := {|
  pg_nonce := pg_nonce g; pg_requests := pg_requests g; pg_approved_devices := m;
  pg_persistent := pg_persistent g |}.
Definition ps_set_registry (g : ControlPlanePairingRegistry) (s : PairingState) : PairingState := {|
  ps_registry := g; ps_db := ps_db s |}.
Definition ps_set_db (db : PairingDb) (s : PairingState) : PairingState := {|
  ps_registry := ps_registry s; ps_db := db |}.

Definition PM := M PairingState.

Definition request_from_persisted (p : PersistedPairingRequest) : ControlPlanePairingRequestRecord := {|
  pq_pairing_request_id := pp_pairing_request_id p; pq_device_id := pp_device_id p;
  pq_client_id := pp_client_id p; pq_public_key := pp_public_key p; pq_role := pp_role p;
  pq_requested_scopes := pp_requested_scopes p; pq_status := pp_status p;
  pq_requested_at_ms := i64_as_u64 (pp_requested_at_ms p);
  pq_resolved_at_ms := i64_as_u64 <$> pp_resolved_at_ms p;
  pq_issued_token_id := pp_issued_token_id p; pq_device_token := None |}.

Definition request_to_persisted (r : ControlPlanePairingRequestRecord) : PersistedPairingRequest := {|
  pp_pairing_request_id := pq_pairing_request_id r; pp_device_id := pq_device_id r;
  pp_client_id := pq_client_id r; pp_public_key := pq_public_key r; pp_role := pq_role r;
  pp_requested_scopes := pq_requested_scopes r; pp_status := pq_status r;
  pp_requested_at_ms := u64_clamp_i64 (pq_requested_at_ms r);
  pp_resolved_at_ms := u64_clamp_i64 <$> pq_resolved_at_ms r;
  pp_issued_token_id := pq_issued_token_id r; pp_last_error := None |}.

Definition approved_device_from_persisted (p : ControlPlaneDeviceTokenRecord)
  : ControlPlaneApprovedDeviceRecord := {|
  ad_device_id := dt_device_id p; ad_public_key := dt_public_key p; ad_role := dt_role p;
  ad_approved_scopes := dt_approved_scopes p; ad_token_id := dt_token_id p;
  ad_token_hash := dt_token_hash p; ad_approved_at_ms := i64_as_u64 (dt_issued_at_ms p) |}.

(** [collect::<BTreeMap<_, _>>()]: a later entry replaces an earlier one. *)
Definition collect_map {V} (l : list (string * V)) : gmap string V :=
  foldl (fun m p => <[p.1 := p.2]> m) ∅ l.

Definition ControlPlanePairingRegistry_with_memory_config (io : PairingIo) (db : PairingDb)
  : result ControlPlanePairingRegistry string :=
  let* _ := pio_repo io in
  let* persisted_requests := list_control_plane_pairing_requests io None db in
  let* persisted_devices := list_control_plane_device_tokens io db in
  let requests := collect_map ((fun p => let r := request_from_persisted p in
                                 (pq_pairing_request_id r, r)) <$> persisted_requests) in
  let approved := collect_map ((fun p => let d := approved_device_from_persisted p in
                                 (ad_device_id d, d)) <$> persisted_devices) in
  Ok {| pg_nonce := 0; pg_requests := requests; pg_approved_devices := approved;
        pg_persistent := true |}.

(** [next_pairing_request_id], [next_device_token_id] and [next_device_token]. *)
Definition next_pairing_id (prefix : string) (random : Z) : PM string := fun s =>
  let sequence := u64_wrapping_add (pg_nonce (ps_registry s)) 1 in
  (Returned (control_plane_id prefix sequence random),
   ps_set_registry (pg_set_nonce sequence (ps_registry s)) s).

Definition on_db {A} (m : M PairingDb A) : PM A := zoom ps_db ps_set_db m.

Definition ControlPlanePairingRegistry_persist_request (io : PairingIo)
    (request : ControlPlanePairingRequestRecord) : PM (result unit string) :=
  let! persistent := gets (fun s => pg_persistent (ps_registry s)) in
  if negb persistent then ret (Ok tt) else
  run? ret (pio_repo io) in
  run? on_db (ensure_control_plane_pairing_request io {|
      np_pairing_request_id := pq_pairing_request_id request; np_device_id := pq_device_id request;
      np_client_id := pq_client_id request; np_public_key := pq_public_key request;
      np_role := pq_role request; np_requested_scopes := pq_requested_scopes request |}) in
  if decide (pq_status request = PairingPending) then ret (Ok tt) else
  run? on_db (transition_control_plane_pairing_request_if_current io
         (pq_pairing_request_id request) PairingPending (pq_status request)
         (pq_issued_token_id request) None) in
  ret (Ok tt).

Definition ControlPlanePairingRegistry_persist_approved_device (io : PairingIo)
    (request : ControlPlanePairingRequestRecord) (resolved_at_ms : Z) (token_id : string)
  : PM (result unit string) :=
  let! persistent := gets (fun s => pg_persistent (ps_registry s)) in
  if negb persistent then ret (Ok tt) else
  match pq_device_token request with
  | None => ret (Err "control-plane pairing approval requires device_token")
  | Some device_token =>
      run? ret (pio_repo io) in
      let? persisted := on_db (approve_control_plane_pairing_request io (request_to_persisted request) {|
          nt_token_id := token_id; nt_device_id := pq_device_id request;
          nt_public_key := pq_public_key request; nt_role := pq_role request;
          nt_approved_scopes := pq_requested_scopes request;
          nt_token_hash := hash_control_plane_device_token device_token;
          nt_expires_at_ms := None; nt_revoked_at_ms := None;
          nt_last_used_at_ms := Some (u64_as_i64 resolved_at_ms);
          nt_pairing_request_id := Some (pq_pairing_request_id request) |}) in
      match persisted with
      | None => ret (Err ("control-plane pairing request `" +:+ pq_pairing_request_id request +:+
                          "` changed before approval persistence completed"))
      | Some _ => ret (Ok tt)
      end
  end.

Definition approved_device_requires_pairing (approved : ControlPlaneApprovedDeviceRecord)
    (requested_role : string) (requested_scopes : gset string) : bool :=
  if negb (bool_decide (ad_role approved = requested_role)) then true else
  negb (bool_decide (requested_scopes ⊆ ad_approved_scopes approved)).

(** The decision for a device that is approved with this key and may connect
    without pairing again. *)
Definition token_decision (approved : ControlPlaneApprovedDeviceRecord) (device_token : option string)
  : ControlPlanePairingConnectDecision :=
  match device_token with
  | Some token =>
      if bool_decide (hash_control_plane_device_token token = ad_token_hash approved)
      then Authorized else DeviceTokenInvalid
  | None => DeviceTokenRequired
  end.

(** The approved device [evaluate_connect] accepts without pairing again. *)
Definition connectable_device (g : ControlPlanePairingRegistry)
    (device_id public_key role : string) (scopes : gset string)
  : option ControlPlaneApprovedDeviceRecord :=
  match pg_approved_devices g !! device_id with
  | Some approved =>
      if bool_decide (ad_public_key approved = public_key) &&
         negb (approved_device_requires_pairing approved role scopes)
      then Some approved else None
  | None => None
  end.

Definition pending_match (device_id public_key role : string) (scopes : gset string)
    (r : ControlPlanePairingRequestRecord) : bool :=
  bool_decide (pq_status r = PairingPending) && bool_decide (pq_device_id r = device_id) &&
  bool_decide (pq_public_key r = public_key) && bool_decide (pq_role r = role) &&
  bool_decide (pq_requested_scopes r = scopes).

(** [device_token.map(str::trim).filter(!is_empty)]. *)
Definition presented_token (device_token : option string) : option string :=
  t ← device_token; let t := trim t in if str_is_empty t then None else Some t.

Definition ControlPlanePairingRegistry_evaluate_connect (now random : Z) (io : PairingIo)
    (device_id client_id public_key role : string) (requested_scopes : gset string)
    (device_token : option string)
  : PM (result ControlPlanePairingConnectDecision string) :=
  let? device_id := ret (normalize_required_text device_id "device_id") in
  let? client_id := ret (normalize_required_text client_id "client_id") in
  let? public_key := ret (normalize_required_text public_key "public_key") in
  let? role := ret (normalize_required_text role "role") in
  let requested_scopes := trimmed_set requested_scopes in
  let device_token := presented_token device_token in
  let! g := gets ps_registry in
  match connectable_device g device_id public_key role requested_scopes with
  | Some approved => ret (Ok (token_decision approved device_token))
  | None =>
      match find_first (pending_match device_id public_key role requested_scopes)
              (btree_map_values (pg_requests g)) with
      | Some existing => ret (Ok (PairingRequired existing false))
      | None =>
          let! request_id := next_pairing_id "pair-" random in
          let request := {|
            pq_pairing_request_id := request_id; pq_device_id := device_id;
            pq_client_id := client_id; pq_public_key := public_key; pq_role := role;
            pq_requested_scopes := requested_scopes; pq_status := PairingPending;
            pq_requested_at_ms := now; pq_resolved_at_ms := None; pq_issued_token_id := None;
            pq_device_token := None |} in
          run? ControlPlanePairingRegistry_persist_request io request in
          run! modify (fun s => ps_set_registry
                 (pg_set_requests (<[request_id := request]> (pg_requests (ps_registry s)))
                    (ps_registry s)) s) in
          ret (Ok (PairingRequired request true))
      end
  end.

(** The comparison of [list_requests]. *)
Definition request_le (a b : ControlPlanePairingRequestRecord) : Prop :=
  (pq_requested_at_ms b < pq_requested_at_ms a)%Z \/
  (pq_requested_at_ms a = pq_requested_at_ms b /\
   String.le (pq_pairing_request_id a) (pq_pairing_request_id b)).

#[export] Instance request_le_dec : RelDecision request_le.
Proof. intros a b. unfold request_le. apply _. Defined.

Definition ControlPlanePairingRegistry_list_requests (status : option ControlPlanePairingStatus)
    (limit : nat) (g : ControlPlanePairingRegistry) : list ControlPlanePairingRequestRecord :=
  take (Nat.max limit 1) (merge_sort request_le
    (filter (fun r => match status with
                      | None => true
                      | Some s => bool_decide (pq_status r = s)
                      end = true) (btree_map_values (pg_requests g)))).

(** [record.clone()] with its status, resolution time and tokens assigned. *)
Definition resolved_record (record : ControlPlanePairingRequestRecord)
    (status : ControlPlanePairingStatus) (resolved_at_ms : Z) (token_id device_token : option string)
  : ControlPlanePairingRequestRecord := {|
  pq_pairing_request_id := pq_pairing_request_id record; pq_device_id := pq_device_id record;
  pq_client_id := pq_client_id record; pq_public_key := pq_public_key record;
  pq_role := pq_role record; pq_requested_scopes := pq_requested_scopes record;
  pq_status := status; pq_requested_at_ms := pq_requested_at_ms record;
  pq_resolved_at_ms := Some resolved_at_ms; pq_issued_token_id := token_id;
  pq_device_token := device_token |}.

Definition approved_device_of (record : ControlPlanePairingRequestRecord) (token_id device_token : string)
    (resolved_at_ms : Z) : ControlPlaneApprovedDeviceRecord := {|
  ad_device_id := pq_device_id record; ad_public_key := pq_public_key record;
  ad_role := pq_role record; ad_approved_scopes := pq_requested_scopes record;
  ad_token_id := token_id; ad_token_hash := hash_control_plane_device_token device_token;
  ad_approved_at_ms := resolved_at_ms |}.

Definition store_request (id : string) (r : ControlPlanePairingRequestRecord) : PM unit :=
  modify (fun s => ps_set_registry
    (pg_set_requests (<[id := r]> (pg_requests (ps_registry s))) (ps_registry s)) s).

Definition ControlPlanePairingRegistry_resolve_request (now random1 random2 : Z) (io : PairingIo)
    (pairing_request_id : string) (approve : bool)
  : PM (result (option ControlPlanePairingRequestRecord) string) :=
  let? id := ret (normalize_required_text pairing_request_id "pairing_request_id") in
  let! g := gets ps_registry in
  match pg_requests g !! id with
  | None => ret (Ok None)
  | Some record =>
      if negb (bool_decide (pq_status record = PairingPending)) then ret (Ok (Some record)) else
      if approve then
        let! token_id := next_pairing_id "cpdt-" random1 in
        let! device_token := next_pairing_id "cpd-" random2 in
        let approved_device := approved_device_of record token_id device_token now in
        let updated := resolved_record record PairingApproved now (Some token_id) (Some device_token) in
        run? ControlPlanePairingRegistry_persist_approved_device io updated now token_id in
        run! modify (fun s => ps_set_registry
               (pg_set_approved (<[pq_device_id updated := approved_device]>
                  (pg_approved_devices (ps_registry s))) (ps_registry s)) s) in
        run! store_request id updated in
        ret (Ok (Some updated))
      else
        let updated := resolved_record record PairingRejected now None None in
        run? ControlPlanePairingRegistry_persist_request io updated in
        run! store_request id updated in
        ret (Ok (Some updated))
  end.
End pairing.
