(* ===== verification/ControlAuthFacts.v ===== *)
(** * Theorems about connections, challenges and pairing *)

From S2P Require Import Prelude RustStr Contracts ControlEvents ControlEventsFacts.
From S2P Require Import ControlTurns ControlTurnsFacts ControlAuth.

(** ** Identifiers drawn so far

    Every identifier carries the number of its draw, so below 2^64 draws none
    comes twice. *)

Definition drawn_id (prefix : string) (nonce : Z) (id : string) : Prop :=
  exists s rnd, (1 <= s <= nonce)%Z /\ u64_valid rnd /\ id = control_plane_id prefix s rnd.

Lemma drawn_id_mono prefix n n' id : (n <= n')%Z -> drawn_id prefix n id -> drawn_id prefix n' id.
Proof. intros Hn (s & rnd & Hs & Hr). exists s, rnd. split; [lia|done]. Qed.

Lemma next_id_fresh prefix n rnd :
  (0 <= n < u64_max)%Z -> u64_valid rnd ->
  u64_wrapping_add n 1 = (n + 1)%Z /\ drawn_id prefix (n + 1) (control_plane_id prefix (n + 1) rnd) /\
  ~ drawn_id prefix n (control_plane_id prefix (n + 1) rnd).
Proof.
  intros Hn Hr. split_and!.
  - apply u64_wrapping_add_small; unfold u64_valid, u64_max, u64_modulus in *; lia.
  - exists (n + 1)%Z, rnd. split; [lia|done].
  - intros (s & rnd' & Hs & Hr' & Heq). apply control_plane_id_inj in Heq as [Heq _]; unfold u64_valid in *; lia.
Qed.

Lemma drawn_id_trim prefix n id :
  str_forallb is_visible prefix = true -> drawn_id prefix n id -> trim id = id.
Proof. intros Hp (s & rnd & _ & _ & ->). by apply trim_visible, control_plane_id_visible. Qed.

(** ** Challenges *)

Inductive ChallengeCall : Type :=
| ChIssue (now random : Z)
| ChConsume (now : Z) (nonce : string).

Definition run_challenge_call (c : ChallengeCall) (g : ControlPlaneChallengeRegistry)
  : ControlPlaneChallengeRegistry :=
  match c with
  | ChIssue now random => (ControlPlaneChallengeRegistry_issue now random g).2
  | ChConsume now nonce => (ControlPlaneChallengeRegistry_consume now nonce g).2
  end.

Definition challenge_call_valid (c : ChallengeCall) : Prop :=
  match c with ChIssue _ random => u64_valid random | ChConsume _ _ => True end.

Definition run_challenge_calls (cs : list ChallengeCall) (g : ControlPlaneChallengeRegistry) :=
  foldl (fun g c => run_challenge_call c g) g cs.

Record challenge_inv (cs : list ChallengeCall) (g : ControlPlaneChallengeRegistry) : Prop := {
  hi_nonce : (0 <= hg_nonce g <= Z.of_nat (length cs))%Z;
  hi_entries : forall k ch, hg_challenges g !! k = Some ch ->
    ch_nonce ch = k /\ drawn_id "cpc-" (hg_nonce g) k /\
    ch_expires_at_ms ch = u64_saturating_add (ch_issued_at_ms ch) CONTROL_PLANE_CHALLENGE_TTL_MS /\
    exists random, ChIssue (ch_issued_at_ms ch) random ∈ cs;
}.

(** A nonce that can not be answered any more. *)
Definition spent (nonce : string) (g : ControlPlaneChallengeRegistry) : Prop :=
  hg_challenges g !! nonce = None /\ drawn_id "cpc-" (hg_nonce g) nonce.

Lemma challenge_issue_run now random g :
  (0 <= hg_nonce g < u64_max)%Z -> u64_valid random ->
  let id := control_plane_id "cpc-" (hg_nonce g + 1) random in
  let ch := {| ch_nonce := id; ch_issued_at_ms := now;
               ch_expires_at_ms := u64_saturating_add now CONTROL_PLANE_CHALLENGE_TTL_MS |} in
  ControlPlaneChallengeRegistry_issue now random g
  = (Returned ch, {| hg_nonce := hg_nonce g + 1; hg_challenges := <[id := ch]> (hg_challenges g) |}).
Proof.
  intros Hn Hr. destruct (next_id_fresh "cpc-" (hg_nonce g) random) as [Hs _]; [done..|].
  unfold ControlPlaneChallengeRegistry_issue, ControlPlaneChallengeRegistry_issue_with_ttl_ms.
  rewrite Hs. done.
Qed.

Lemma run_challenge_call_inv cs c g :
  challenge_inv cs g -> (Z.of_nat (length cs) < u64_max)%Z -> challenge_call_valid c ->
  challenge_inv (cs ++ [c]) (run_challenge_call c g).
Proof.
  intros [Hn He] Hlen Hc. destruct c as [now random|now nonce]; cbn [run_challenge_call].
  - rewrite challenge_issue_run by (done || lia).
    destruct (next_id_fresh "cpc-" (hg_nonce g) random) as (_ & Hd & _); [lia|done|].
    split; cbn [hg_nonce hg_challenges snd]; [rewrite length_app; simpl; lia|].
    intros k ch. rewrite lookup_insert_Some. intros [[<- <-]|[_ Hk]]; cbn [ch_nonce ch_issued_at_ms ch_expires_at_ms].
    + split_and!; [done..|]. exists random. set_solver.
    + destruct (He _ _ Hk) as (? & Hdr & ? & (r & Hin)).
      split_and!; [done|eapply drawn_id_mono; [|done]; lia|done|exists r; set_solver].
  - unfold ControlPlaneChallengeRegistry_consume. destruct (str_is_empty _); cbn [snd].
    all: split; cbn [hg_nonce hg_challenges]; [rewrite length_app; lia|]; intros k ch.
    2: rewrite lookup_delete_Some, map_lookup_filter_Some; intros (_ & Hk & _); revert Hk.
    all: intros Hk; destruct (He _ _ Hk) as (? & ? & ? & (r & Hin)); split_and!; [done..|exists r; set_solver].
Qed.

Lemma run_challenge_calls_inv cs cs' g :
  challenge_inv cs g -> Forall challenge_call_valid cs' ->
  (Z.of_nat (length (cs ++ cs')) <= u64_max)%Z -> challenge_inv (cs ++ cs') (run_challenge_calls cs' g).
Proof.
  intros H Hv. revert cs g H. induction Hv as [|c cs' Hc _ IH]; intros cs g H Hlen; [by rewrite app_nil_r|].
  rewrite cons_middle, app_assoc in *. rewrite !length_app in Hlen. simpl in Hlen |- *.
  apply IH; [|rewrite !length_app; simpl; lia]. apply run_challenge_call_inv; [done|lia|done].
Qed.

Lemma run_challenge_call_spent cs c g nonce :
  challenge_inv cs g -> (Z.of_nat (length cs) < u64_max)%Z -> challenge_call_valid c ->
  spent nonce g -> spent nonce (run_challenge_call c g).
Proof.
  intros [Hn _] Hlen Hc [Hl Hd]. destruct c as [now random|now raw]; cbn [run_challenge_call].
  - rewrite challenge_issue_run by (done || lia).
    destruct (next_id_fresh "cpc-" (hg_nonce g) random) as (_ & _ & Hfresh); [lia|done|].
    split; cbn [hg_nonce hg_challenges snd]; [|eapply drawn_id_mono; [|done]; lia].
    rewrite lookup_insert_ne; [done|]. by intros <-.
  - unfold ControlPlaneChallengeRegistry_consume. destruct (str_is_empty _); [done|]. split; [|done].
    cbn [hg_challenges snd]. apply lookup_delete_None. right. by apply map_lookup_filter_None_2; left.
Qed.

Lemma consume_spent now nonce g :
  hg_challenges g !! trim nonce = None ->
  (ControlPlaneChallengeRegistry_consume now nonce g).1 = Returned (Ok None).
Proof.
  intros Hl. unfold ControlPlaneChallengeRegistry_consume. destruct (str_is_empty _); [done|].
  cbn [fst]. by rewrite (map_lookup_filter_None_2) by (by left).
Qed.

(** C17 (safety). A challenge is answered at most once and in time: a [consume]
    that yields one yields a challenge issued earlier under that nonce, less
    than a minute before (by the clock of the two calls); and whatever calls
    follow, no later [consume] of the nonce yields anything. *)
Theorem challenge_answered_once cs cs' now now' nonce ch g' :
  Forall challenge_call_valid (cs ++ cs') -> (Z.of_nat (length (cs ++ cs')) < u64_max)%Z ->
  let g := run_challenge_calls cs ControlPlaneChallengeRegistry_new in
  ControlPlaneChallengeRegistry_consume now nonce g = (Returned (Ok (Some ch)), g') ->
  ch_nonce ch = trim nonce /\
  (now < ch_expires_at_ms ch)%Z /\
  ch_expires_at_ms ch = u64_saturating_add (ch_issued_at_ms ch) CONTROL_PLANE_CHALLENGE_TTL_MS /\
  (exists random, ChIssue (ch_issued_at_ms ch) random ∈ cs) /\
  (ControlPlaneChallengeRegistry_consume now' nonce (run_challenge_calls cs' g')).1 = Returned (Ok None).
Proof.
  intros [Hv Hv']%Forall_app Hlen g Hc. rewrite length_app in Hlen.
  assert (H : challenge_inv cs g).
  { apply (run_challenge_calls_inv []); [|done|simpl; lia]. split; cbn; [lia|]. intros k c Hk. by rewrite lookup_empty in Hk. }
  assert (H' : challenge_inv (cs ++ [ChConsume now nonce]) g').
  { pose proof (run_challenge_call_inv cs (ChConsume now nonce) g H ltac:(lia) I) as H'.
    cbn [run_challenge_call] in H'. by rewrite Hc in H'. }
  unfold ControlPlaneChallengeRegistry_consume in Hc.
  destruct (str_is_empty (trim nonce)); [done|]. injection Hc as Hl <-.
  pose proof Hl as [Hk Hexp]%map_lookup_filter_Some. cbn in Hexp.
  destruct (hi_entries _ _ H _ _ Hk) as (Hnonce & Hd & Hexp' & Hin).
  split_and!; [done..|]. apply consume_spent.
  set (g1 := {| hg_nonce := hg_nonce g; hg_challenges := _ |}) in *.
  assert (Hs : spent (trim nonce) g1) by (split; [apply lookup_delete_eq|done]).
  enough (spent (trim nonce) (run_challenge_calls cs' g1)) as [? _] by done.
  assert (Hlen' : (Z.of_nat (length ((cs ++ [ChConsume now nonce]) ++ cs')) <= u64_max)%Z)
    by (rewrite !length_app; simpl; lia).
  clear Hlen Hl Hk. revert H' Hlen' Hs. generalize (cs ++ [ChConsume now nonce]) as done. generalize g1.
  clear -Hv'. induction Hv' as [|c cs' Hcv _ IH]; intros g1 done H Hlen Hs; [by exact Hs|].
  simpl. rewrite length_app in Hlen. simpl in Hlen. apply (IH _ (done ++ [c])).
  - apply run_challenge_call_inv; [exact H|lia|exact Hcv].
  - rewrite !length_app. simpl. lia.
  - eapply run_challenge_call_spent; [exact H|lia|exact Hcv|exact Hs].
Qed.

(** ** Connections *)

Inductive ConnectionCall : Type :=
| CnIssue (now random : Z) (principal : ControlPlaneConnectionPrincipal)
| CnResolve (now : Z) (token : string)
| CnRevoke (token : string).

Definition run_connection_call (c : ConnectionCall) (g : ControlPlaneConnectionRegistry)
  : ControlPlaneConnectionRegistry :=
  match c with
  | CnIssue now random p => (ControlPlaneConnectionRegistry_issue now random p g).2
  | CnResolve now token => (ControlPlaneConnectionRegistry_resolve now token g).2
  | CnRevoke token => (ControlPlaneConnectionRegistry_revoke token g).2
  end.

Definition connection_call_valid (c : ConnectionCall) : Prop :=
  match c with CnIssue _ random _ => u64_valid random | _ => True end.

Definition run_connection_calls (cs : list ConnectionCall) (g : ControlPlaneConnectionRegistry) :=
  foldl (fun g c => run_connection_call c g) g cs.

Record connection_inv (cs : list ConnectionCall) (g : ControlPlaneConnectionRegistry) : Prop := {
  ci_nonce : (0 <= cg_nonce g <= Z.of_nat (length cs))%Z;
  ci_entries : forall k r, cg_connections g !! k = Some r ->
    drawn_id "cpt-" (cg_nonce g) k /\
    cr_expires_at_ms r = u64_saturating_add (cr_issued_at_ms r) CONTROL_PLANE_CONNECTION_TTL_MS /\
    exists random, CnIssue (cr_issued_at_ms r) random (cr_principal r) ∈ cs;
}.

Lemma connection_issue_run now random p g :
  (0 <= cg_nonce g < u64_max)%Z -> u64_valid random ->
  let token := control_plane_id "cpt-" (cg_nonce g + 1) random in
  let expires := u64_saturating_add now CONTROL_PLANE_CONNECTION_TTL_MS in
  ControlPlaneConnectionRegistry_issue now random p g
  = (Returned {| cl_token := token; cl_principal := p; cl_issued_at_ms := now; cl_expires_at_ms := expires |},
     {| cg_nonce := cg_nonce g + 1;
        cg_connections := <[token := {| cr_principal := p; cr_issued_at_ms := now;
                                        cr_expires_at_ms := expires |}]> (cg_connections g) |}).
Proof.
  intros Hn Hr. destruct (next_id_fresh "cpt-" (cg_nonce g) random) as [Hs _]; [done..|].
  unfold ControlPlaneConnectionRegistry_issue, ControlPlaneConnectionRegistry_issue_with_ttl_ms.
  rewrite Hs. done.
Qed.

Definition is_issue (c : ConnectionCall) : bool := match c with CnIssue _ _ _ => true | _ => false end.

(** Resolving and revoking only remove connections. *)
Lemma connection_quiet c g :
  is_issue c = false ->
  cg_nonce (run_connection_call c g) = cg_nonce g /\
  cg_connections (run_connection_call c g) ⊆ cg_connections g.
Proof.
  intros Hc. destruct c as [now random p|now token|token]; [done| |];
    cbn [run_connection_call]; unfold ControlPlaneConnectionRegistry_resolve, ControlPlaneConnectionRegistry_revoke;
    destruct (str_is_empty _); cbn [snd cg_nonce cg_connections]; (split; [done|]); [done| |done|].
  - apply map_filter_subseteq.
  - apply delete_subseteq.
Qed.

Lemma run_connection_call_inv cs c g :
  connection_inv cs g -> (Z.of_nat (length cs) < u64_max)%Z -> connection_call_valid c ->
  connection_inv (cs ++ [c]) (run_connection_call c g).
Proof.
  intros [Hn He] Hlen Hc. destruct (is_issue c) eqn:Hi.
  - destruct c as [now random p| |]; try done. cbn [run_connection_call].
    rewrite connection_issue_run by (done || lia).
    destruct (next_id_fresh "cpt-" (cg_nonce g) random) as (_ & Hd & _); [lia|done|].
    split; cbn [cg_nonce cg_connections snd]; [rewrite length_app; simpl; lia|].
    intros k r. rewrite lookup_insert_Some. intros [[<- <-]|[_ Hk]]; cbn [cr_principal cr_issued_at_ms cr_expires_at_ms].
    + split_and!; [done..|]. exists random. set_solver.
    + destruct (He _ _ Hk) as (Hdr & ? & (r' & Hin)).
      split_and!; [eapply drawn_id_mono; [|done]; lia|done|exists r'; set_solver].
  - destruct (connection_quiet c g Hi) as [Hn' Hsub].
    split; rewrite Hn'; [rewrite length_app; lia|]. intros k r Hk. eapply lookup_weaken in Hk; [|exact Hsub].
    destruct (He _ _ Hk) as (Hdr & ? & (r' & Hin)). split_and!; [done..|exists r'; set_solver].
Qed.

Lemma run_connection_calls_inv cs cs' g :
  connection_inv cs g -> Forall connection_call_valid cs' ->
  (Z.of_nat (length (cs ++ cs')) <= u64_max)%Z -> connection_inv (cs ++ cs') (run_connection_calls cs' g).
Proof.
  intros H Hv. revert cs g H. induction Hv as [|c cs' Hc _ IH]; intros cs g H Hlen; [by rewrite app_nil_r|].
  rewrite cons_middle, app_assoc in *. rewrite !length_app in Hlen. simpl in Hlen |- *.
  apply IH; [|rewrite !length_app; simpl; lia]. apply run_connection_call_inv; [done|lia|done].
Qed.

(** A token that no longer opens a connection. *)
Definition dead (token : string) (g : ControlPlaneConnectionRegistry) : Prop :=
  cg_connections g !! token = None /\ drawn_id "cpt-" (cg_nonce g) token.

Lemma run_connection_call_dead cs c g token :
  connection_inv cs g -> (Z.of_nat (length cs) < u64_max)%Z -> connection_call_valid c ->
  dead token g -> dead token (run_connection_call c g).
Proof.
  intros [Hn _] Hlen Hc [Hl Hd]. destruct (is_issue c) eqn:Hi.
  - destruct c as [now random p| |]; try done. cbn [run_connection_call].
    rewrite connection_issue_run by (done || lia).
    destruct (next_id_fresh "cpt-" (cg_nonce g) random) as (_ & _ & Hfresh); [lia|done|].
    split; cbn [cg_nonce cg_connections snd]; [|eapply drawn_id_mono; [|done]; lia].
    rewrite lookup_insert_ne; [done|]. by intros <-.
  - destruct (connection_quiet c g Hi) as [Hn' Hsub]. split; [|by rewrite Hn'].
    by apply (lookup_weaken_None _ _ _ Hl).
Qed.

Lemma run_connection_calls_dead cs cs' g token :
  connection_inv cs g -> Forall connection_call_valid cs' ->
  (Z.of_nat (length (cs ++ cs')) <= u64_max)%Z -> dead token g -> dead token (run_connection_calls cs' g).
Proof.
  intros H Hv. revert cs g H. induction Hv as [|c cs' Hc _ IH]; intros cs g H Hlen Hd; [done|].
  rewrite length_app in Hlen. simpl in Hlen |- *. apply (IH (cs ++ [c])).
  - apply run_connection_call_inv; [done|lia|done].
  - rewrite !length_app. simpl. lia.
  - eapply run_connection_call_dead; [done|lia|done..].
Qed.

Lemma resolve_dead now token g :
  cg_connections g !! trim token = None ->
  (ControlPlaneConnectionRegistry_resolve now token g).1 = Returned (Ok None).
Proof.
  intros Hl. unfold ControlPlaneConnectionRegistry_resolve. destruct (str_is_empty _); [done|].
  cbn [fst]. by rewrite (map_lookup_filter_None_2) by (by left).
Qed.

(** Calls that leave an open connection alone: none revokes its token, and none
    resolves at or after its expiry. *)
Definition leaves_open (token : string) (expires : Z) (c : ConnectionCall) : Prop :=
  match c with
  | CnIssue _ _ _ => True
  | CnResolve now _ => (now < expires)%Z
  | CnRevoke t => trim t <> token
  end.

Lemma run_connection_call_open cs c g token r :
  connection_inv cs g -> (Z.of_nat (length cs) < u64_max)%Z -> connection_call_valid c ->
  leaves_open token (cr_expires_at_ms r) c ->
  cg_connections g !! token = Some r -> cg_connections (run_connection_call c g) !! token = Some r.
Proof.
  intros [Hn He] Hlen Hc Ho Hl. destruct c as [now random p|now t|t]; cbn [run_connection_call].
  - rewrite connection_issue_run by (done || lia).
    destruct (next_id_fresh "cpt-" (cg_nonce g) random) as (_ & _ & Hfresh); [lia|done|].
    cbn [cg_connections snd]. rewrite lookup_insert_ne; [done|]. intros <-. destruct Hfresh. by apply (He _ _ Hl).
  - unfold ControlPlaneConnectionRegistry_resolve. destruct (str_is_empty _); [done|].
    cbn [cg_connections snd]. by apply map_lookup_filter_Some_2.
  - unfold ControlPlaneConnectionRegistry_revoke. destruct (str_is_empty _); [done|].
    cbn [cg_connections snd]. by rewrite lookup_delete_ne.
Qed.

Lemma run_connection_calls_open cs cs' g token r :
  connection_inv cs g -> Forall connection_call_valid cs' ->
  Forall (leaves_open token (cr_expires_at_ms r)) cs' ->
  (Z.of_nat (length (cs ++ cs')) <= u64_max)%Z ->
  cg_connections g !! token = Some r -> cg_connections (run_connection_calls cs' g) !! token = Some r.
Proof.
  intros H Hv. revert cs g H. induction Hv as [|c cs' Hc _ IH]; intros cs g H Ho Hlen Hl; [done|].
  apply Forall_cons in Ho as [Ho Ho']. rewrite length_app in Hlen. simpl in Hlen |- *.
  apply (IH (cs ++ [c])); [|done|rewrite !length_app; simpl; lia|].
  - apply run_connection_call_inv; [done|lia|done].
  - eapply run_connection_call_open; [done|lia|done..].
Qed.

(** A token that resolves was handed out by [issue], to exactly the
    principal the lease names, less than fifteen minutes before; a new lease
    resolves as long as it is not revoked and not expired; and once a token is
    revoked it never resolves again, whatever calls follow. *)
Theorem connection_leases cs cs' now token g :
  Forall connection_call_valid (cs ++ cs') -> (Z.of_nat (length (cs ++ cs')) + 1 < u64_max)%Z ->
  g = run_connection_calls cs ControlPlaneConnectionRegistry_new ->
  (forall lease, (ControlPlaneConnectionRegistry_resolve now token g).1 = Returned (Ok (Some lease)) ->
     cl_token lease = trim token /\ (now < cl_expires_at_ms lease)%Z /\
     cl_expires_at_ms lease
       = u64_saturating_add (cl_issued_at_ms lease) CONTROL_PLANE_CONNECTION_TTL_MS /\
     exists random, CnIssue (cl_issued_at_ms lease) random (cl_principal lease) ∈ cs) /\
  (forall t0 random p, u64_valid random ->
     let (issued, g1) := ControlPlaneConnectionRegistry_issue t0 random p g in
     forall lease, issued = Returned lease ->
     Forall (leaves_open (cl_token lease) (cl_expires_at_ms lease)) cs' ->
     (now < cl_expires_at_ms lease)%Z ->
     (ControlPlaneConnectionRegistry_resolve now (cl_token lease) (run_connection_calls cs' g1)).1
       = Returned (Ok (Some lease))) /\
  ((ControlPlaneConnectionRegistry_revoke token g).1 = Returned true ->
     (ControlPlaneConnectionRegistry_resolve now token
        (run_connection_calls cs' (ControlPlaneConnectionRegistry_revoke token g).2)).1
       = Returned (Ok None)).
Proof.
  intros [Hv Hv']%Forall_app Hlen ->. rewrite length_app in Hlen.
  set (g := run_connection_calls cs ControlPlaneConnectionRegistry_new).
  assert (H : connection_inv cs g).
  { apply (run_connection_calls_inv []); [|done|simpl; lia]. split; cbn; [lia|]. intros k r Hk. by rewrite lookup_empty in Hk. }
  split_and!.
  - intros lease. unfold ControlPlaneConnectionRegistry_resolve. destruct (str_is_empty _); [done|].
    cbn [fst]. intros [= Hl]. apply fmap_Some in Hl as (r & [Hk Hexp]%map_lookup_filter_Some & ->).
    destruct (ci_entries _ _ H _ _ Hk) as (_ & He & Hin). done.
  - intros t0 random p Hr. pose proof (ci_nonce _ _ H).
    assert (H1 : connection_inv (cs ++ [CnIssue t0 random p]) (run_connection_call (CnIssue t0 random p) g))
      by (apply run_connection_call_inv; [done|lia|done]).
    cbn [run_connection_call] in H1. rewrite connection_issue_run in H1 |- * by (done || lia). cbn [snd] in H1.
    intros lease [= <-] Hopen Hnow. cbn [cl_token cl_expires_at_ms cl_principal cl_issued_at_ms] in *.
    set (tok := control_plane_id "cpt-" (cg_nonce g + 1) random) in *.
    set (r := {| cr_principal := p; cr_issued_at_ms := t0; cr_expires_at_ms := _ |}) in *.
    set (g1 := {| cg_nonce := _; cg_connections := <[tok := r]> (cg_connections g) |}) in *.
    assert (Hopen1 : cg_connections (run_connection_calls cs' g1) !! tok = Some r).
    { apply (run_connection_calls_open (cs ++ [CnIssue t0 random p])); [done..|rewrite !length_app; simpl; lia|].
      apply lookup_insert_eq. }
    assert (Htrim : trim tok = tok) by (by apply trim_visible, control_plane_id_visible).
    unfold ControlPlaneConnectionRegistry_resolve. rewrite Htrim.
    destruct (str_is_empty tok) eqn:Hemp; [done|]. cbn [fst].
    rewrite (map_lookup_filter_Some_2 _ _ _ _ Hopen1) by done. done.
  - intros Hrev. apply resolve_dead.
    assert (Hd : dead (trim token) (run_connection_call (CnRevoke token) g)).
    { cbn [run_connection_call]. unfold ControlPlaneConnectionRegistry_revoke in *.
      destruct (str_is_empty _); [done|]. cbn [fst snd] in *. injection Hrev as Hrev%bool_decide_eq_true.
      destruct Hrev as [r Hk]. split; [apply lookup_delete_eq|]. by apply (ci_entries _ _ H _ _ Hk). }
    apply (run_connection_calls_dead (cs ++ [CnRevoke token])); [|done|rewrite !length_app; simpl; lia|done].
    apply (run_connection_call_inv cs (CnRevoke token)); [done|lia|done].
Qed.

(** ** Pairing *)

Section pairing_facts.
Context {SC : ScopeCodec} {TH : TokenHash}.

Inductive PairingCall : Type :=
| PrConnect (now random : Z) (io : PairingIo) (device_id client_id public_key role : string)
    (scopes : gset string) (device_token : option string)
| PrResolve (now random1 random2 : Z) (io : PairingIo) (id : string) (approve : bool).

Definition run_pairing_call (c : PairingCall) (s : PairingState) : PairingState :=
  match c with
  | PrConnect now random io d cl k r sc t =>
      (ControlPlanePairingRegistry_evaluate_connect now random io d cl k r sc t s).2
  | PrResolve now r1 r2 io id a => (ControlPlanePairingRegistry_resolve_request now r1 r2 io id a s).2
  end.

Definition pairing_call_valid (c : PairingCall) : Prop :=
  match c with
  | PrConnect _ random _ _ _ _ _ _ _ => u64_valid random
  | PrResolve _ r1 r2 _ _ _ => u64_valid r1 /\ u64_valid r2
  end.

Definition run_pairing_calls (cs : list PairingCall) (s : PairingState) : PairingState :=
  foldl (fun s c => run_pairing_call c s) s cs.

(** A computation that returns, and leaves the registry alone: what persistence
    does. *)
Definition keeps_registry {A} (m : PM A) : Prop :=
  forall s, exists a s', m s = (Returned a, s') /\ ps_registry s' = ps_registry s.

Definition db_returns {A} (m : M PairingDb A) : Prop := forall db, exists a db', m db = (Returned a, db').

Lemma keeps_ret {A} (a : A) : keeps_registry (ret a).
Proof. intros s. by do 2 eexists. Qed.

Lemma keeps_on_db {A} (m : M PairingDb A) : db_returns m -> keeps_registry (on_db m).
Proof. intros Hm s. unfold on_db, zoom. destruct (Hm (ps_db s)) as (a & db' & ->). by do 2 eexists. Qed.

Lemma keeps_try_bind {A B E} (m : PM (result A E)) (f : A -> PM (result B E)) :
  keeps_registry m -> (forall a, keeps_registry (f a)) -> keeps_registry (try_bind m f).
Proof.
  intros Hm Hf s. unfold try_bind, bind. destruct (Hm s) as (r & s1 & -> & Hr).
  destruct r as [a|e]; [|by do 2 eexists]. destruct (Hf a s1) as (b & s2 & -> & Hr2).
  do 2 eexists. split; [done|congruence].
Qed.

Lemma ensure_returns io record : db_returns (ensure_control_plane_pairing_request io record).
Proof.
  intros db. unfold ensure_control_plane_pairing_request.
  destruct (result_bind _ _) as [row|e]; [|by do 2 eexists]. destruct (_ !! _); by do 2 eexists.
Qed.

Lemma transition_returns io id s1 s2 t e :
  db_returns (transition_control_plane_pairing_request_if_current io id s1 s2 t e).
Proof.
  intros db. unfold transition_control_plane_pairing_request_if_current.
  repeat case_match; by do 2 eexists.
Qed.

Lemma approve_returns io request token : db_returns (approve_control_plane_pairing_request io request token).
Proof.
  intros db. unfold approve_control_plane_pairing_request.
  destruct (result_bind _ _) as [[[[id t] i] row]|e]; [|by do 2 eexists].
  destruct (selected_request _ _ _); [|by do 2 eexists].
  destruct (result_bind (pio_tx_token io) _); by do 2 eexists.
Qed.

Lemma persist_request_keeps io r : keeps_registry (ControlPlanePairingRegistry_persist_request io r).
Proof.
  intros s. unfold ControlPlanePairingRegistry_persist_request, bind, gets.
  destruct (negb _); [apply keeps_ret|]. revert s. apply keeps_try_bind; [apply keeps_ret|intros _].
  apply keeps_try_bind; [apply keeps_on_db, ensure_returns|intros _]. destruct (decide _); [apply keeps_ret|].
  apply keeps_try_bind; [apply keeps_on_db, transition_returns|intros _; apply keeps_ret].
Qed.

Lemma persist_approved_keeps io r t id :
  keeps_registry (ControlPlanePairingRegistry_persist_approved_device io r t id).
Proof.
  intros s. unfold ControlPlanePairingRegistry_persist_approved_device, bind, gets.
  destruct (negb _); [apply keeps_ret|]. destruct (pq_device_token r); [|apply keeps_ret].
  revert s. apply keeps_try_bind; [apply keeps_ret|intros _].
  apply keeps_try_bind; [apply keeps_on_db, approve_returns|intros [x|]; apply keeps_ret].
Qed.

(** *** What the two calls do to the registry *)

Definition new_request (now : Z) (id device_id client_id public_key role : string) (scopes : gset string)
  : ControlPlanePairingRequestRecord := {|
  pq_pairing_request_id := id; pq_device_id := device_id; pq_client_id := client_id;
  pq_public_key := public_key; pq_role := role; pq_requested_scopes := scopes;
  pq_status := PairingPending; pq_requested_at_ms := now; pq_resolved_at_ms := None;
  pq_issued_token_id := None; pq_device_token := None |}.

Definition pg_next (g : ControlPlanePairingRegistry) : Z := u64_wrapping_add (pg_nonce g) 1.

(** The outcomes of [evaluate_connect] on the fields as they were trimmed. *)
Inductive connect_outcome (now random : Z) (d cl k r : string) (sc : gset string) (tok : option string)
    (s : PairingState)
  : outcome (result ControlPlanePairingConnectDecision string) -> PairingState -> Prop :=
| connect_invalid e : connect_outcome now random d cl k r sc tok s (Returned (Err e)) s
| connect_known approved :
    connectable_device (ps_registry s) (trim d) (trim k) (trim r) (trimmed_set sc) = Some approved ->
    connect_outcome now random d cl k r sc tok s
      (Returned (Ok (token_decision approved (presented_token tok)))) s
| connect_pending existing id :
    pg_requests (ps_registry s) !! id = Some existing ->
    pending_match (trim d) (trim k) (trim r) (trimmed_set sc) existing = true ->
    connect_outcome now random d cl k r sc tok s (Returned (Ok (PairingRequired existing false))) s
| connect_unstored e s' :
    ps_registry s' = pg_set_nonce (pg_next (ps_registry s)) (ps_registry s) ->
    connect_outcome now random d cl k r sc tok s (Returned (Err e)) s'
| connect_created s' :
    let id := control_plane_id "pair-" (pg_next (ps_registry s)) random in
    let request := new_request now id (trim d) (trim cl) (trim k) (trim r) (trimmed_set sc) in
    ps_registry s' = pg_set_requests (<[id := request]> (pg_requests (ps_registry s)))
                       (pg_set_nonce (pg_next (ps_registry s)) (ps_registry s)) ->
    connect_outcome now random d cl k r sc tok s (Returned (Ok (PairingRequired request true))) s'.

Lemma normalize_required_ok v f x : normalize_required_text v f = Ok x -> x = trim v /\ str_is_empty x = false.
Proof. unfold normalize_required_text. destruct (str_is_empty _) eqn:E; [done|]. by intros [= <-]. Qed.

Lemma evaluate_connect_outcome now random io d cl k r sc tok s :
  let p := ControlPlanePairingRegistry_evaluate_connect now random io d cl k r sc tok s in
  connect_outcome now random d cl k r sc tok s p.1 p.2.
Proof.
  intros p. unfold p, ControlPlanePairingRegistry_evaluate_connect, try_bind, bind, ret, gets.
  destruct (normalize_required_text d _) as [d'|] eqn:Hd; [|constructor].
  destruct (normalize_required_text cl _) as [cl'|] eqn:Hcl; [|constructor].
  destruct (normalize_required_text k _) as [k'|] eqn:Hk; [|constructor].
  destruct (normalize_required_text r _) as [r'|] eqn:Hr; [|constructor].
  apply normalize_required_ok in Hd as [-> _], Hcl as [-> _], Hk as [-> _], Hr as [-> _].
  destruct (connectable_device _ _ _ _ _) as [a|] eqn:Ha; [by apply connect_known|].
  destruct (find_first _ _) as [e|] eqn:He.
  { apply find_first_Some in He as (l1 & l2 & Hl & Hm & _).
    assert (Hin : e ∈ btree_map_values (pg_requests (ps_registry s))) by (rewrite Hl; set_solver).
    apply elem_of_btree_map_values in Hin as [id Hid]. by apply (connect_pending _ _ _ _ _ _ _ _ _ e id). }
  unfold next_pairing_id. cbn [fst snd].
  match goal with |- context [ControlPlanePairingRegistry_persist_request io ?q ?st] =>
    destruct (persist_request_keeps io q st) as (res & s1 & -> & Hreg) end.
  destruct res as [[]|e]; cbn [fst snd ps_registry] in *.
  - apply connect_created. unfold modify. cbn [snd ps_registry ps_set_registry]. by rewrite Hreg.
  - by apply connect_unstored.
Qed.

Inductive resolve_outcome (now r1 r2 : Z) (raw : string) (approve : bool) (s : PairingState)
  : outcome (result (option ControlPlanePairingRequestRecord) string) -> PairingState -> Prop :=
| resolve_invalid e : resolve_outcome now r1 r2 raw approve s (Returned (Err e)) s
| resolve_unknown :
    pg_requests (ps_registry s) !! trim raw = None ->
    resolve_outcome now r1 r2 raw approve s (Returned (Ok None)) s
| resolve_settled record :
    pg_requests (ps_registry s) !! trim raw = Some record -> pq_status record <> PairingPending ->
    resolve_outcome now r1 r2 raw approve s (Returned (Ok (Some record))) s
| resolve_unstored e s' n :
    ps_registry s' = pg_set_nonce n (ps_registry s) ->
    (n = pg_nonce (ps_registry s) \/ n = u64_wrapping_add (pg_next (ps_registry s)) 1) ->
    resolve_outcome now r1 r2 raw approve s (Returned (Err e)) s'
| resolve_approved record s' :
    approve = true ->
    pg_requests (ps_registry s) !! trim raw = Some record -> pq_status record = PairingPending ->
    let n := u64_wrapping_add (pg_next (ps_registry s)) 1 in
    let token_id := control_plane_id "cpdt-" (pg_next (ps_registry s)) r1 in
    let token := control_plane_id "cpd-" n r2 in
    let updated := resolved_record record PairingApproved now (Some token_id) (Some token) in
    ps_registry s' = pg_set_requests (<[trim raw := updated]> (pg_requests (ps_registry s)))
      (pg_set_approved (<[pq_device_id record := approved_device_of record token_id token now]>
         (pg_approved_devices (ps_registry s))) (pg_set_nonce n (ps_registry s))) ->
    resolve_outcome now r1 r2 raw approve s (Returned (Ok (Some updated))) s'
| resolve_rejected record s' :
    approve = false ->
    pg_requests (ps_registry s) !! trim raw = Some record -> pq_status record = PairingPending ->
    let updated := resolved_record record PairingRejected now None None in
    ps_registry s' = pg_set_requests (<[trim raw := updated]> (pg_requests (ps_registry s))) (ps_registry s) ->
    resolve_outcome now r1 r2 raw approve s (Returned (Ok (Some updated))) s'.

Lemma resolve_request_outcome now r1 r2 io raw approve s :
  let p := ControlPlanePairingRegistry_resolve_request now r1 r2 io raw approve s in
  resolve_outcome now r1 r2 raw approve s p.1 p.2.
Proof.
  intros p. unfold p, ControlPlanePairingRegistry_resolve_request, try_bind, bind, ret, gets.
  destruct (normalize_required_text raw _) as [id|] eqn:Hid; [|constructor].
  apply normalize_required_ok in Hid as [-> _].
  destruct (pg_requests (ps_registry s) !! trim raw) as [record|] eqn:Hr; [|by constructor].
  destruct (bool_decide_reflect (pq_status record = PairingPending)) as [Hp|]; cbn [negb];
    [|by apply resolve_settled].
  destruct approve.
  - unfold next_pairing_id. cbn [fst snd ps_registry ps_set_registry pg_nonce pg_set_nonce].
    match goal with |- context [ControlPlanePairingRegistry_persist_approved_device io ?q ?t ?i ?st] =>
      destruct (persist_approved_keeps io q t i st) as (res & s1 & -> & Hreg) end.
    destruct res as [[]|e]; cbn [fst snd] in *.
    + eapply resolve_approved; [done|exact Hr|exact Hp|]. unfold modify, store_request.
      cbn [snd ps_registry ps_set_registry]. by rewrite Hreg.
    + eapply resolve_unstored; [exact Hreg|by right].
  - match goal with |- context [ControlPlanePairingRegistry_persist_request io ?q ?st] =>
      destruct (persist_request_keeps io q st) as (res & s1 & -> & Hreg) end.
    destruct res as [[]|e]; cbn [fst snd] in *.
    + eapply resolve_rejected; [done|exact Hr|exact Hp|]. unfold store_request, modify.
      cbn [snd ps_registry ps_set_registry]. by rewrite Hreg.
    + eapply (resolve_unstored _ _ _ _ _ _ _ _ (pg_nonce (ps_registry s))); [|by left].
      rewrite Hreg. by destruct (ps_registry s).
Qed.

(** *** Along any calls *)

(** A request was made by a connect with these fields. *)
Definition requested_by (cs : list PairingCall) (r : ControlPlanePairingRequestRecord) : Prop :=
  exists now random io d cl k ro sc tok, PrConnect now random io d cl k ro sc tok ∈ cs /\
    pq_device_id r = trim d /\ pq_public_key r = trim k /\ pq_role r = trim ro /\
    pq_requested_scopes r = trimmed_set sc.

Definition approved_by (cs : list PairingCall) (id : string) : Prop :=
  exists now r1 r2 io raw, PrResolve now r1 r2 io raw true ∈ cs /\ trim raw = id.

Record pairing_inv (cs : list PairingCall) (g : ControlPlanePairingRegistry) : Prop := {
  pi_nonce : (0 <= pg_nonce g <= 2 * Z.of_nat (length cs))%Z;
  pi_requests : forall id r, pg_requests g !! id = Some r ->
    drawn_id "pair-" (pg_nonce g) id /\ pq_pairing_request_id r = id /\ requested_by cs r /\
    (pq_status r = PairingApproved -> approved_by cs id);
  pi_devices : forall d a, pg_approved_devices g !! d = Some a ->
    ad_device_id a = d /\ exists id r t, pg_requests g !! id = Some r /\ pq_status r = PairingApproved /\
      pq_device_id r = d /\ pq_public_key r = ad_public_key a /\ pq_role r = ad_role a /\
      pq_requested_scopes r = ad_approved_scopes a /\ pq_issued_token_id r = Some (ad_token_id a) /\
      pq_device_token r = Some t /\ hash_control_plane_device_token t = ad_token_hash a;
}.

Lemma requested_by_app cs c r : requested_by cs r -> requested_by (cs ++ [c]) r.
Proof. intros (now & rd & io & d & cl & k & ro & sc & tok & Hin & H). exists now, rd, io, d, cl, k, ro, sc, tok. set_solver. Qed.

Lemma approved_by_app cs c id : approved_by cs id -> approved_by (cs ++ [c]) id.
Proof. intros (now & r1 & r2 & io & raw & Hin & H). exists now, r1, r2, io, raw. set_solver. Qed.

Lemma pairing_inv_nonce cs c g n :
  pairing_inv cs g -> (pg_nonce g <= n <= pg_nonce g + 2)%Z -> pairing_inv (cs ++ [c]) (pg_set_nonce n g).
Proof.
  intros [Hn Hr Hd] Hle. split; cbn [pg_nonce pg_requests pg_approved_devices pg_set_nonce].
  - rewrite length_app. simpl. lia.
  - intros id r Hl. destruct (Hr _ _ Hl) as (H1 & H2 & H3 & H4).
    split_and!; [eapply drawn_id_mono; [|done]; lia|done|by apply requested_by_app|].
    intros Ha. by apply approved_by_app, H4.
  - done.
Qed.

(** Storing a record in place of one that is not approved, or under a new
    identifier. *)
Lemma pairing_inv_store cs g id r :
  pairing_inv cs g -> drawn_id "pair-" (pg_nonce g) id -> pq_pairing_request_id r = id ->
  requested_by cs r -> (pq_status r = PairingApproved -> approved_by cs id) ->
  (forall old, pg_requests g !! id = Some old -> pq_status old <> PairingApproved) ->
  pairing_inv cs (pg_set_requests (<[id := r]> (pg_requests g)) g).
Proof.
  intros [Hn Hr Hd] Hid Hrid Hby Happ Hold. split; cbn [pg_nonce pg_requests pg_approved_devices pg_set_requests].
  - done.
  - intros id' r'. rewrite lookup_insert_Some. intros [[<- <-]|[_ Hl]]; [done|by apply Hr].
  - intros d a Ha. destruct (Hd _ _ Ha) as (H1 & id' & r' & t & Hl & Hst & Hrest).
    split; [done|]. exists id', r', t. rewrite lookup_insert_ne; [done|]. intros <-. by apply (Hold r').
Qed.

Lemma pairing_connect_inv cs now random io d cl k ro sc tok s :
  pairing_inv cs (ps_registry s) -> (2 * Z.of_nat (length cs) < u64_max)%Z -> u64_valid random ->
  pairing_inv (cs ++ [PrConnect now random io d cl k ro sc tok])
    (ps_registry (ControlPlanePairingRegistry_evaluate_connect now random io d cl k ro sc tok s).2).
Proof.
  intros H Hlen Hv. set (c := PrConnect now random io d cl k ro sc tok).
  pose proof (pi_nonce _ _ H) as Hn.
  destruct (next_id_fresh "pair-" (pg_nonce (ps_registry s)) random) as (Hnext & Hdr & Hfresh); [lia|done|].
  assert (Hsame : pairing_inv (cs ++ [c]) (ps_registry s)).
  { replace (ps_registry s) with (pg_set_nonce (pg_nonce (ps_registry s)) (ps_registry s)) by (by destruct (ps_registry s)).
    apply pairing_inv_nonce; [done|lia]. }
  assert (Hbump : pairing_inv (cs ++ [c]) (pg_set_nonce (pg_nonce (ps_registry s) + 1) (ps_registry s)))
    by (apply pairing_inv_nonce; [done|lia]).
  destruct (evaluate_connect_outcome now random io d cl k ro sc tok s) as [e|a Ha|ex id Hl Hm|e s' Hs'|s' id request Hs'];
    [done|done|done|by rewrite Hs'; unfold pg_next; rewrite Hnext|].
  rewrite Hs'. unfold request, id, pg_next in *. clear request id. rewrite Hnext in *.
  apply (pairing_inv_store _ (pg_set_nonce (pg_nonce (ps_registry s) + 1) (ps_registry s))); [done|done|done| |done|].
  - exists now, random, io, d, cl, k, ro, sc, tok. split; [set_solver|done].
  - intros old Hold. destruct Hfresh. by apply (pi_requests _ _ H _ _ Hold).
Qed.

Lemma pairing_resolve_inv cs now r1 r2 io raw approve s :
  pairing_inv cs (ps_registry s) -> (2 * Z.of_nat (length cs) + 2 <= u64_max)%Z ->
  pairing_inv (cs ++ [PrResolve now r1 r2 io raw approve])
    (ps_registry (ControlPlanePairingRegistry_resolve_request now r1 r2 io raw approve s).2).
Proof.
  intros H Hlen. set (c := PrResolve now r1 r2 io raw approve).
  pose proof (pi_nonce _ _ H) as Hn.
  assert (Hnext : pg_next (ps_registry s) = (pg_nonce (ps_registry s) + 1)%Z /\
                  u64_wrapping_add (pg_next (ps_registry s)) 1 = (pg_nonce (ps_registry s) + 2)%Z).
  { unfold pg_next. rewrite !u64_wrapping_add_small; unfold u64_valid, u64_max, u64_modulus in *; lia. }
  destruct Hnext as [Hnext1 Hnext2].
  assert (Hn' : forall n, (pg_nonce (ps_registry s) <= n <= pg_nonce (ps_registry s) + 2)%Z ->
            pairing_inv (cs ++ [c]) (pg_set_nonce n (ps_registry s))) by (intros; by apply pairing_inv_nonce).
  assert (Hsame : pairing_inv (cs ++ [c]) (ps_registry s)).
  { replace (ps_registry s) with (pg_set_nonce (pg_nonce (ps_registry s)) (ps_registry s)) by (by destruct (ps_registry s)).
    apply Hn'. lia. }
  destruct (resolve_request_outcome now r1 r2 io raw approve s)
    as [e| |rec Hl Hst|e s' n Hs' Hnn|rec s' Happ Hl Hst n ti to upd Hs'|rec s' Happ Hl Hst upd Hs'];
    [done|done|done|rewrite Hs'; apply Hn'; lia| |]; destruct (pi_requests _ _ H _ _ Hl) as (H1 & H2 & H3 & H4).
  - rewrite Hs'. unfold n in *. rewrite Hnext2 in *.
    assert (Hstored : pairing_inv (cs ++ [c]) (pg_set_requests (<[trim raw := upd]> (pg_requests (ps_registry s)))
                        (pg_set_nonce (pg_nonce (ps_registry s) + 2) (ps_registry s)))).
    { apply (pairing_inv_store _ (pg_set_nonce (pg_nonce (ps_registry s) + 2) (ps_registry s))); [apply Hn'; lia| |done| | |].
      - eapply drawn_id_mono; [|done]. simpl. lia.
      - exact (requested_by_app cs c _ H3).
      - intros _. exists now, r1, r2, io, raw. split; [subst; set_solver|done].
      - simpl. congruence. }
    destruct Hstored as [S1 S2 S3]. split; [done|done|]. cbn [pg_approved_devices pg_requests pg_set_requests pg_set_approved].
    intros d a. rewrite lookup_insert_Some. intros [[<- <-]|[_ Ha]]; [|by apply S3].
    split; [done|]. exists (trim raw), upd, to. rewrite lookup_insert_eq. by split_and!.
  - rewrite Hs'. apply pairing_inv_store; [done| |done| |done|congruence].
    + done.
    + exact (requested_by_app cs c _ H3).
Qed.

Lemma run_pairing_calls_inv cs cs' s :
  pairing_inv cs (ps_registry s) -> Forall pairing_call_valid cs' ->
  (2 * Z.of_nat (length (cs ++ cs')) <= u64_max)%Z ->
  pairing_inv (cs ++ cs') (ps_registry (run_pairing_calls cs' s)).
Proof.
  intros H Hv. revert cs s H. induction Hv as [|c cs' Hc _ IH]; intros cs s H Hlen; [by rewrite app_nil_r|].
  rewrite cons_middle, app_assoc in *. rewrite !length_app in Hlen. simpl in Hlen |- *.
  apply IH; [|rewrite !length_app; simpl; lia].
  destruct c; [apply pairing_connect_inv; [done|lia|done]|apply pairing_resolve_inv; [done|lia]].
Qed.

(** A registry before any call, whatever the database holds. *)
Definition fresh_pairing (s : PairingState) : Prop :=
  pg_nonce (ps_registry s) = 0%Z /\ pg_requests (ps_registry s) = ∅ /\
  pg_approved_devices (ps_registry s) = ∅.

Lemma fresh_pairing_inv s : fresh_pairing s -> pairing_inv [] (ps_registry s).
Proof.
  intros (Hn & Hr & Hd). split; [rewrite Hn; simpl; lia|rewrite Hr|rewrite Hd]; intros ? ? Hl; by rewrite lookup_empty in Hl.
Qed.

Lemma connectable_device_spec g d k r sc a :
  connectable_device g d k r sc = Some a ->
  pg_approved_devices g !! d = Some a /\ ad_public_key a = k /\ ad_role a = r /\ sc ⊆ ad_approved_scopes a.
Proof.
  unfold connectable_device, approved_device_requires_pairing.
  destruct (_ !! _) as [a'|]; [|done].
  destruct (bool_decide_reflect (ad_public_key a' = k)); [|done].
  destruct (bool_decide_reflect (ad_role a' = r)); [|done].
  destruct (bool_decide_reflect (sc ⊆ ad_approved_scopes a')); [|done]. by intros [= <-].
Qed.

(** C18 (safety). A device is authorized only after an operator approved it: if
    [evaluate_connect] answers [Authorized] in a registry that began empty, then
    some request made by an earlier connect of this device, with this key and
    role and at least these scopes, was resolved with [approve], and the token
    presented has the hash of the token issued by that approval.  The call
    changes nothing. *)
Theorem pairing_requires_approval s0 cs now random io d cl k ro sc tok s' :
  fresh_pairing s0 -> Forall pairing_call_valid cs -> (2 * Z.of_nat (length cs) <= u64_max)%Z ->
  let s := run_pairing_calls cs s0 in
  ControlPlanePairingRegistry_evaluate_connect now random io d cl k ro sc tok s
    = (Returned (Ok Authorized), s') ->
  s' = s /\
  exists id r t presented,
    approved_by cs id /\ pg_requests (ps_registry s) !! id = Some r /\ requested_by cs r /\
    pq_status r = PairingApproved /\ pq_device_id r = trim d /\ pq_public_key r = trim k /\
    pq_role r = trim ro /\ trimmed_set sc ⊆ pq_requested_scopes r /\
    pq_device_token r = Some t /\ presented_token tok = Some presented /\
    hash_control_plane_device_token presented = hash_control_plane_device_token t.
Proof.
  intros Hs0 Hv Hlen s Heval.
  assert (H : pairing_inv cs (ps_registry s)) by (apply (run_pairing_calls_inv []); [by apply fresh_pairing_inv|done..]).
  pose proof (evaluate_connect_outcome now random io d cl k ro sc tok s) as Ho. cbn zeta in Ho.
  rewrite Heval in Ho. cbn [fst snd] in Ho. remember (Returned (Ok Authorized)) as res eqn:Hres.
  destruct Ho as [e|a Ha|ex id Hl Hm|e s1 Hs1|s1 id request Hs1]; simplify_eq. split; [done|].
  apply connectable_device_spec in Ha as (Ha & Hk & Hr & Hsc).
  unfold token_decision in Hres. destruct (presented_token tok) as [pr|] eqn:Hpr; [|done].
  destruct (bool_decide_reflect (hash_control_plane_device_token pr = ad_token_hash a)) as [Hh|]; [|done].
  destruct (pi_devices _ _ H _ _ Ha) as (Hd & id & r & t & Hl & Hst & H1 & H2 & H3 & H4 & H5 & H6 & H7).
  destruct (pi_requests _ _ H _ _ Hl) as (_ & _ & Hby & Happ).
  exists id, r, t, pr. split_and!; try done; try congruence; [by apply Happ|by rewrite H4].
Qed.

(** A call that fails has changed neither the requests nor the
    approved devices: a connect that reports an error leaves no request behind,
    and an approval that can not be stored approves nothing. *)
Theorem pairing_errors_change_nothing now random r1 r2 io d cl k ro sc tok raw approve s :
  (forall e s', ControlPlanePairingRegistry_evaluate_connect now random io d cl k ro sc tok s
     = (Returned (Err e), s') ->
     pg_requests (ps_registry s') = pg_requests (ps_registry s) /\
     pg_approved_devices (ps_registry s') = pg_approved_devices (ps_registry s)) /\
  (forall e s', ControlPlanePairingRegistry_resolve_request now r1 r2 io raw approve s
     = (Returned (Err e), s') ->
     pg_requests (ps_registry s') = pg_requests (ps_registry s) /\
     pg_approved_devices (ps_registry s') = pg_approved_devices (ps_registry s)) /\
  (forall p s', ControlPlanePairingRegistry_evaluate_connect now random io d cl k ro sc tok s
     <> (Panicked p, s')) /\
  (forall p s', ControlPlanePairingRegistry_resolve_request now r1 r2 io raw approve s
     <> (Panicked p, s')).
Proof.
  pose proof (evaluate_connect_outcome now random io d cl k ro sc tok s) as Hc. cbn zeta in Hc.
  pose proof (resolve_request_outcome now r1 r2 io raw approve s) as Hr. cbn zeta in Hr.
  split_and!; intros e s' Heq; rewrite Heq in *; cbn [fst snd] in *.
  - remember (Returned (Err e)) as res eqn:Hres. destruct Hc as [| | |? s1 Hs1|]; simplify_eq; [done|by rewrite Hs1].
  - remember (Returned (Err e)) as res eqn:Hres. destruct Hr as [| | |? s1 n Hs1| |]; simplify_eq; [done|by rewrite Hs1].
  - inversion Hc.
  - inversion Hr.
Qed.

(** *** Over a restart *)

Lemma decode_rows_Forall2 {A B} (f : A -> result B string) rows xs :
  decode_rows f rows = Ok xs -> Forall2 (fun row x => f row = Ok x) rows xs.
Proof.
  revert xs. induction rows as [|row rows IH]; intros xs; cbn; [intros [= <-]; constructor|].
  intros (x & Hx & (ys & Hy & [= <-])%result_bind_ok)%result_bind_ok. constructor; [done|]. by apply IH.
Qed.

Lemma collect_map_lookup {V} (l : list (string * V)) k v :
  NoDup l.*1 -> (k, v) ∈ l -> collect_map l !! k = Some v.
Proof.
  unfold collect_map. intros Hnd Hin.
  assert (Hgen : forall m : gmap string V, (k ∉ l.*1 -> m !! k = Some v) -> ((k, v) ∈ l \/ k ∉ l.*1) ->
            foldl (fun m p => <[p.1 := p.2]> m) m l !! k = Some v).
  { clear Hin. induction l as [|[k' v'] l IH]; intros m Hm Hor; cbn in *; [apply Hm; set_solver|].
    apply NoDup_cons in Hnd as [Hk' Hnd]. apply (IH Hnd).
    - intros Hk. destruct (decide (k' = k)) as [->|Hne].
      + rewrite lookup_insert_eq. destruct Hor as [[Heq|Hl]%elem_of_cons|Hn]; [congruence| |set_solver].
        destruct Hk. by apply (list_elem_of_fmap_2 fst) in Hl.
      + rewrite lookup_insert_ne by done. apply Hm. set_solver.
    - destruct Hor as [[Heq|Hl]%elem_of_cons|Hn]; [right; injection Heq as -> ->; done|by left|right; set_solver]. }
  apply Hgen; [|by left]. intros Hk. destruct Hk. by apply (list_elem_of_fmap_2 fst) in Hin.
Qed.

(** The tokens' table is kept by device. *)
Definition tokens_keyed (db : PairingDb) : Prop :=
  forall d row, pd_tokens db !! d = Some row -> rt_device_id row = d.

(** The device of a stored token is approved after a restart. *)
Lemma restart_approved io db g d row x :
  tokens_keyed db -> pd_tokens db !! d = Some row -> device_token_try_from_raw row = Ok x ->
  ControlPlanePairingRegistry_with_memory_config io db = Ok g ->
  pg_approved_devices g !! d = Some (approved_device_from_persisted x).
Proof.
  intros Hkey Hl Hx (_ & _ & (ps & _ & (devs & Hdevs & [= <-])%result_bind_ok)%result_bind_ok)%result_bind_ok.
  cbn [pg_approved_devices]. apply result_bind_ok in Hdevs as (_ & _ & Hdevs).
  apply decode_rows_Forall2 in Hdevs.
  set (rows := merge_sort token_row_le (map_to_list (pd_tokens db)).*2) in *.
  assert (Hrows : rows ≡ₚ (map_to_list (pd_tokens db)).*2) by apply merge_sort_Permutation.
  assert (Hdev : forall row x, device_token_try_from_raw row = Ok x -> dt_device_id x = rt_device_id row).
  { intros row' x' (sc & _ & [= <-])%result_bind_ok. done. }
  assert (Hids : (fun p => ad_device_id (approved_device_from_persisted p)) <$> devs = rt_device_id <$> rows).
  { clear -Hdevs Hdev. induction Hdevs as [|row' x' rows devs Hr _ IH]; [done|]. cbn. f_equal; [by apply Hdev|exact IH]. }
  apply collect_map_lookup.
  - rewrite <- list_fmap_compose. change (NoDup ((fun p => ad_device_id (approved_device_from_persisted p)) <$> devs)).
    rewrite Hids, Hrows, <- list_fmap_compose.
    assert (Hk : (rt_device_id ∘ snd) <$> map_to_list (pd_tokens db) = (map_to_list (pd_tokens db)).*1).
    { apply list_fmap_ext. intros i [d' row'] Hi%list_elem_of_lookup_2%elem_of_map_to_list. by apply Hkey. }
    rewrite Hk. apply NoDup_fst_map_to_list.
  - assert (Hin : row ∈ rows).
    { rewrite Hrows. apply list_elem_of_fmap. exists (d, row). split; [done|]. by apply elem_of_map_to_list. }
    apply list_elem_of_lookup in Hin as [i Hi]. destruct (Forall2_lookup_l _ _ _ _ _ Hdevs Hi) as (y & Hy & Hxy).
    rewrite Hx in Hxy. injection Hxy as <-. apply list_elem_of_fmap. exists x.
    split; [|by apply list_elem_of_lookup_2 in Hy].
    pose proof (Hdev _ _ Hx) as Hd. rewrite (Hkey _ _ Hl) in Hd. simpl. by rewrite Hd.
Qed.

(** What an approval that was stored leaves in the tokens' table. *)
Lemma approve_stored io request token db x db' :
  approve_control_plane_pairing_request io request token db = (Returned (Ok (Some x)), db') ->
  exists row t, pp_resolved_at_ms request = Some t /\ new_token_row token t = Ok row /\
    pd_tokens db' = <[rt_device_id row := row]> (pd_tokens db).
Proof.
  unfold approve_control_plane_pairing_request.
  destruct (result_bind _ _) as [[[[id t] i] row]|e] eqn:Hprep; [|done].
  destruct (selected_request _ _ _); [|done].
  destruct (result_bind (pio_tx_token io) _) as [db1|e] eqn:Hw; [|done].
  intros [= _ <-].
  apply result_bind_ok in Hw as (_ & _ & (toks & Htoks%map_err_ok & (_ & _ & [= <-])%result_bind_ok)%result_bind_ok).
  unfold upsert_token in Htoks. destruct (existsb _ _); [done|]. injection Htoks as <-.
  apply result_bind_ok in Hprep as (_ & _ & (id' & _ & (t' & Ht & (i' & _ & (row' & Hrow & (_ & _ & (_ & _ & [= -> -> -> ->])
    %result_bind_ok)%result_bind_ok)%result_bind_ok)%result_bind_ok)%result_bind_ok)%result_bind_ok).
  exists row, t. split_and!; [|done|done]. by destruct (pp_resolved_at_ms request); simpl in Ht; simplify_eq.
Qed.

(** The record of a request as [evaluate_connect] makes it: trimmed texts, none
    of them empty. *)
Definition normal_text (x : string) : Prop := trim x = x /\ str_is_empty x = false.

Definition normal_request (r : ControlPlanePairingRequestRecord) : Prop :=
  normal_text (pq_device_id r) /\ normal_text (pq_public_key r) /\ normal_text (pq_role r) /\
  trimmed_set (pq_requested_scopes r) = pq_requested_scopes r.

Lemma repo_normalize_normal x f : normal_text x -> repo_normalize_required_text x f = Ok x.
Proof. intros [Ht He]. unfold repo_normalize_required_text. by rewrite Ht, He. Qed.

Lemma normalize_normal x f : normal_text x -> normalize_required_text x f = Ok x.
Proof. intros [Ht He]. unfold normalize_required_text. by rewrite Ht, He. Qed.

(** A digest in hexadecimal is not blank. *)
Class TokenHashLaws : Prop := token_hash_normal : forall t, normal_text (hash_control_plane_device_token t).

(** A stored approval put the token's row in the table. *)
Lemma persist_approved_stored io r t id s s' :
  pg_persistent (ps_registry s) = true ->
  ControlPlanePairingRegistry_persist_approved_device io r t id s = (Returned (Ok tt), s') ->
  exists tok row at_, pq_device_token r = Some tok /\
    new_token_row {|
      nt_token_id := id; nt_device_id := pq_device_id r; nt_public_key := pq_public_key r;
      nt_role := pq_role r; nt_approved_scopes := pq_requested_scopes r;
      nt_token_hash := hash_control_plane_device_token tok; nt_expires_at_ms := None;
      nt_revoked_at_ms := None; nt_last_used_at_ms := Some (u64_as_i64 t);
      nt_pairing_request_id := Some (pq_pairing_request_id r) |} at_ = Ok row /\
    pd_tokens (ps_db s') = <[rt_device_id row := row]> (pd_tokens (ps_db s)).
Proof.
  intros Hp. unfold ControlPlanePairingRegistry_persist_approved_device.
  intros (p & s1 & Hg & Hrest)%bind_returned. unfold gets in Hg. injection Hg as <- <-. rewrite Hp in Hrest.
  cbn [negb] in Hrest. destruct (pq_device_token r) as [tok|]; [|done].
  apply try_bind_ok in Hrest as ([] & s1 & [= _ <-] & Hrest).
  apply try_bind_ok in Hrest as (x & s1 & Hdb & Hrest).
  destruct x as [x|]; [|done]. injection Hrest as <-.
  unfold on_db, zoom in Hdb. destruct (approve_control_plane_pairing_request _ _ _ _) as [res db'] eqn:Ha.
  injection Hdb as -> <-. apply approve_stored in Ha as (row & at_ & _ & Hrow & Hpd).
  by exists tok, row, at_.
Qed.

Context `{!ScopeCodecLaws, !TokenHashLaws}.

Lemma new_token_row_decodes token at_ row :
  new_token_row token at_ = Ok row -> trimmed_set (nt_approved_scopes token) = nt_approved_scopes token ->
  exists x, device_token_try_from_raw row = Ok x /\ dt_device_id x = trim (nt_device_id token) /\
    dt_public_key x = trim (nt_public_key token) /\ dt_role x = trim (nt_role token) /\
    dt_approved_scopes x = nt_approved_scopes token /\ dt_token_hash x = trim (nt_token_hash token) /\
    rt_device_id row = trim (nt_device_id token).
Proof.
  assert (Hn : forall v f y, repo_normalize_required_text v f = Ok y -> y = trim v).
  { intros v f y. unfold repo_normalize_required_text. destruct (str_is_empty _); [done|]. by intros [= <-]. }
  unfold new_token_row. intros (ti & _ & (d & Hd%Hn & (k & Hk%Hn & (r & Hr%Hn & (h & Hh%Hn & (sc & Hsc & [= <-])
    %result_bind_ok)%result_bind_ok)%result_bind_ok)%result_bind_ok)%result_bind_ok)%result_bind_ok Hnorm. subst.
  unfold encode_string_set_json in Hsc. apply map_err_ok in Hsc. rewrite Hnorm in Hsc.
  destruct (scopes_round_trip (nt_approved_scopes token)) as (t & Ht & Hback). rewrite Ht in Hsc. injection Hsc as <-.
  eexists. split.
  - unfold device_token_try_from_raw, decode_string_set_json. cbn [rt_approved_scopes_json].
    rewrite Hback. cbn [map_err result_bind]. rewrite Hnorm. reflexivity.
  - by split_and!.
Qed.

(** C33 (roundtrip). An approval survives a restart: after [resolve_request] has
    approved a device and stored it, a registry loaded from the database
    authorizes the device, with its key, its role, any scopes within the approved
    ones, and the token that was issued. *)
Theorem approval_survives_restart now r1 r2 io raw old rec s s' io' g' now' random' io2 cl sc :
  pg_persistent (ps_registry s) = true -> tokens_keyed (ps_db s) ->
  pg_requests (ps_registry s) !! trim raw = Some old -> pq_status old = PairingPending ->
  normal_request old ->
  ControlPlanePairingRegistry_resolve_request now r1 r2 io raw true s = (Returned (Ok (Some rec)), s') ->
  ControlPlanePairingRegistry_with_memory_config io' (ps_db s') = Ok g' ->
  str_is_empty (trim cl) = false -> trimmed_set sc ⊆ pq_requested_scopes old ->
  exists token, pq_device_token rec = Some token /\
    let restarted := {| ps_registry := g'; ps_db := ps_db s' |} in
    ControlPlanePairingRegistry_evaluate_connect now' random' io2 (pq_device_id old) cl
      (pq_public_key old) (pq_role old) sc (Some token) restarted
    = (Returned (Ok Authorized), restarted).
Proof.
  intros Hp Hkeyed Hl Hst (Hnd & Hnk & Hnr & Hnsc) Hres Hload Hcl Hsc.
  unfold ControlPlanePairingRegistry_resolve_request in Hres.
  apply try_bind_ok in Hres as (id & s0 & [= Hid <-] & Hres). apply normalize_required_ok in Hid as [-> _].
  apply bind_returned in Hres as (g & s1 & [= <- <-] & Hres). rewrite Hl, Hst in Hres.
  cbn [negb bool_decide] in Hres. rewrite bool_decide_true in Hres by done. cbn [negb] in Hres.
  apply bind_returned in Hres as (ti & s1 & [= <- <-] & Hres).
  apply bind_returned in Hres as (tok & s2 & Hnext & Hres).
  unfold next_pairing_id in Hnext. injection Hnext as Htok <-.
  apply try_bind_ok in Hres as ([] & s3 & Hpers & Hres).
  apply persist_approved_stored in Hpers as (tok' & row & at_ & Htok' & Hrow & Hpd); [|done].
  injection Htok' as <-.
  unfold bind, modify, store_request in Hres. injection Hres as <- <-.
  assert (Htokn : normal_text tok).
  { subst tok. split; [by apply trim_visible, control_plane_id_visible|done]. }
  exists tok. split; [done|]. cbn [ps_db ps_set_registry] in *.
  apply new_token_row_decodes in Hrow as (x & Hx & Hd & Hk & Hr & Hs & Hh & Hrd); [|done].
  cbn [nt_device_id nt_public_key nt_role nt_approved_scopes nt_token_hash pq_device_id pq_public_key pq_role
       pq_requested_scopes resolved_record] in *.
  rewrite (proj1 Hnd) in Hd, Hrd. rewrite (proj1 Hnk) in Hk. rewrite (proj1 Hnr) in Hr.
  rewrite (proj1 (token_hash_normal tok)) in Hh.
  assert (Happ : pg_approved_devices g' !! pq_device_id old = Some (approved_device_from_persisted x)).
  { apply (restart_approved io' (ps_db s3) g' _ row x); [| |done|done].
    - intros d row'. rewrite Hpd, lookup_insert_Some. intros [[<- <-]|[_ Hrow']]; [done|by apply Hkeyed].
    - rewrite Hpd, Hrd. apply lookup_insert_eq. }
  unfold ControlPlanePairingRegistry_evaluate_connect, try_bind, bind, ret, gets.
  rewrite !(normalize_normal _ _ Hnd), !(normalize_normal _ _ Hnk), !(normalize_normal _ _ Hnr).
  unfold normalize_required_text at 1. rewrite Hcl. cbn [ps_registry].
  unfold connectable_device. rewrite Happ. unfold approved_device_requires_pairing.
  cbn [approved_device_from_persisted ad_public_key ad_role ad_approved_scopes].
  rewrite Hk, Hr, Hs, !bool_decide_true by done. cbn [negb andb].
  unfold presented_token. cbn. rewrite (proj1 Htokn), (proj2 Htokn). cbn.
  by rewrite bool_decide_true by done.
Qed.
End pairing_facts.
