(* ===== verification/ControlServer.v ===== *)
(** * The control plane's HTTP server: its state and its checks

    [crates/daemon/src/control_plane_server.rs] and the types it exchanges
    ([crates/protocol/src/control_plane.rs]): the exposure policy, the kernel that
    stands behind the connections, the authorization of a request, and the checks
    and the steps of a connect; the handlers are in [ControlHandlers].  The server
    owns the registries of [ControlEvents], [ControlTurns] and [ControlAuth] and a
    kernel of its own.  [base64] and [ed25519_dalek] are the class [DeviceCrypto],
    the reading of a header's text the class [HeaderText]. *)

From Stdlib Require Import Ascii.
From stdpp Require Import countable.
From S2P Require Import Prelude RustStr Contracts Policy Planes AuditSinks Kernel Protocol.
From S2P Require Import Json ControlEvents ControlTurns ControlAuth.

(** ** Wire types *)

Definition CONTROL_PLANE_PROTOCOL_VERSION : Z := 1.

Inductive ControlPlaneRole : Type := RoleOperator | RoleNode.

Definition ControlPlaneRole_as_str (r : ControlPlaneRole) : string :=
  match r with RoleOperator => "operator" | RoleNode => "node" end.

Inductive ControlPlaneScope : Type :=
| OperatorRead | OperatorWrite | OperatorAdmin | OperatorApprovals | OperatorPairing | OperatorAcp.

#[export] Instance ControlPlaneScope_eq_dec : EqDecision ControlPlaneScope.
Proof. solve_decision. Defined.

(** Declaration order, which is the derived [Ord]. *)
Definition ControlPlaneScope_rank (s : ControlPlaneScope) : N :=
  match s with
  | OperatorRead => 0 | OperatorWrite => 1 | OperatorAdmin => 2 | OperatorApprovals => 3
  | OperatorPairing => 4 | OperatorAcp => 5
  end%N.

Definition all_scopes : list ControlPlaneScope :=
  [OperatorRead; OperatorWrite; OperatorAdmin; OperatorApprovals; OperatorPairing; OperatorAcp].

#[export] Instance ControlPlaneScope_countable : Countable ControlPlaneScope.
Proof.
  by refine (inj_countable ControlPlaneScope_rank (fun n => all_scopes !! N.to_nat n) _); intros [].
Defined.

#[export] Instance ControlPlaneScope_rust_ord : RustOrd ControlPlaneScope :=
  fun a b => (ControlPlaneScope_rank a <= ControlPlaneScope_rank b)%N.

#[export] Instance ControlPlaneScope_rust_ord_laws : RustOrdLaws ControlPlaneScope.
Proof.
  split.
  - intros a b. unfold rust_le, ControlPlaneScope_rust_ord. apply _.
  - intros a b c. unfold rust_le, ControlPlaneScope_rust_ord. lia.
  - intros a b. unfold rust_le, ControlPlaneScope_rust_ord. lia.
  - intros a b. unfold rust_le, ControlPlaneScope_rust_ord. by destruct a, b.
Defined.

Definition ControlPlaneScope_as_str (s : ControlPlaneScope) : string :=
  match s with
  | OperatorRead => "operator.read"
  | OperatorWrite => "operator.write"
  | OperatorAdmin => "operator.admin"
  | OperatorApprovals => "operator.approvals"
  | OperatorPairing => "operator.pairing"
  | OperatorAcp => "operator.acp"
  end.

Definition ControlPlaneScope_parse (raw : string) : option ControlPlaneScope :=
  let normalized := replace_char "_"%char "."%char (to_ascii_lowercase (trim raw)) in
  if decide (normalized = "operator.read") then Some OperatorRead else
  if decide (normalized = "operator.write") then Some OperatorWrite else
  if decide (normalized = "operator.admin") then Some OperatorAdmin else
  if decide (normalized = "operator.approvals") then Some OperatorApprovals else
  if decide (normalized = "operator.pairing") then Some OperatorPairing else
  if decide (normalized = "operator.acp") then Some OperatorAcp else None.

Record ControlPlaneClientIdentity : Type := {
  ci_id : string;
  ci_version : string;
  ci_mode : string;
  ci_platform : string;
  ci_display_name : option string;
}.

Record ControlPlaneDeviceIdentity : Type := {
  di_device_id : string;
  di_public_key : string;
  di_signature : string;
  di_signed_at_ms : Z;
  di_nonce : string;
}.

Record ControlPlaneAuthClaims : Type := {
  ac_token : option string;
  ac_device_token : option string;
  ac_bootstrap_token : option string;
  ac_password : option string;
}.

Record ControlPlaneConnectRequest : Type := {
  rq_min_protocol : Z;
  rq_max_protocol : Z;
  rq_client : ControlPlaneClientIdentity;
  rq_role : ControlPlaneRole;
  rq_scopes : gset ControlPlaneScope;
  rq_caps : gset string;
  rq_commands : gset string;
  rq_permissions : gmap string bool;
  rq_auth : option ControlPlaneAuthClaims;
  rq_device : option ControlPlaneDeviceIdentity;
}.

Record ControlPlanePrincipal : Type := {
  pr_connection_id : string;
  pr_client_id : string;
  pr_role : ControlPlaneRole;
  pr_scopes : gset ControlPlaneScope;
  pr_device_id : option string;
}.

Record ControlPlanePolicy : Type := {
  cp_max_payload_bytes : Z;
  cp_max_buffered_bytes : Z;
  cp_tick_interval_ms : Z;
}.

Record ControlPlaneConnectResponse : Type := {
  co_protocol : Z;
  co_principal : ControlPlanePrincipal;
  co_connection_token : string;
  co_connection_token_expires_at_ms : Z;
  co_snapshot : ControlPlaneSnapshotSummary;
  co_policy : ControlPlanePolicy;
}.

Inductive ControlPlaneConnectErrorCode : Type :=
| ProtocolMismatch | ChallengeRequired | ChallengeExpired | SharedTokenRequired
| SharedTokenInvalid | DeviceSignatureInvalid | CodePairingRequired | CodeDeviceTokenRequired
| CodeDeviceTokenInvalid.

Definition ControlPlaneConnectErrorCode_as_str (c : ControlPlaneConnectErrorCode) : string :=
  match c with
  | ProtocolMismatch => "protocol_mismatch"
  | ChallengeRequired => "challenge_required"
  | ChallengeExpired => "challenge_expired"
  | SharedTokenRequired => "shared_token_required"
  | SharedTokenInvalid => "shared_token_invalid"
  | DeviceSignatureInvalid => "device_signature_invalid"
  | CodePairingRequired => "pairing_required"
  | CodeDeviceTokenRequired => "device_token_required"
  | CodeDeviceTokenInvalid => "device_token_invalid"
  end.

Record ControlPlaneEventEnvelope : Type := {
  en_event : ControlPlaneEventKind;
  en_seq : Z;
  en_state_version : option ControlPlaneStateVersion;
  en_payload : json;
}.

Record ControlPlanePairingRequestSummary : Type := {
  sm_pairing_request_id : string;
  sm_device_id : string;
  sm_client_id : string;
  sm_public_key : string;
  sm_role : ControlPlaneRole;
  sm_requested_scopes : gset ControlPlaneScope;
  sm_status : ControlPlanePairingStatus;
  sm_requested_at_ms : Z;
  sm_resolved_at_ms : option Z;
}.

Record ControlPlaneTurnSummary : Type := {
  su_turn_id : string;
  su_session_id : string;
  su_status : ControlPlaneTurnStatus;
  su_submitted_at_ms : Z;
  su_completed_at_ms : option Z;
  su_event_count : nat;
}.

Record ControlPlaneTurnResultResponse : Type := {
  tu_turn : ControlPlaneTurnSummary;
  tu_output_text : option string;
  tu_stop_reason : option string;
  tu_usage : option json;
  tu_error : option string;
}.

Record ControlPlaneTurnSubmitRequest : Type := {
  sb_session_id : string;
  sb_input : string;
  sb_channel_id : option string;
  sb_account_id : option string;
  sb_conversation_id : option string;
  sb_participant_id : option string;
  sb_thread_id : option string;
  sb_working_directory : option string;
  sb_metadata : gmap string string;
}.

(** A response: its status and its body. *)
Inductive Body : Type :=
| BodyEmpty
| BodyError (error : string)
| BodyConnectError (code : ControlPlaneConnectErrorCode) (error : string)
    (pairing_request_id : option string)
| BodyConnect (r : ControlPlaneConnectResponse)
| BodyChallenge (c : ControlPlaneChallenge)
| BodySnapshot (s : ControlPlaneSnapshotSummary)
| BodyPing (protocol : Z) (v : ControlPlaneStateVersion)
| BodyEvents (events : list ControlPlaneEventEnvelope)
| BodySubscribe (st : ControlPlaneSubscribeStreamState)
| BodyPairingList (matched returned : nat) (requests : list ControlPlanePairingRequestSummary)
| BodyPairingResolve (request : ControlPlanePairingRequestSummary) (device_token : option string)
| BodyTurnSubmit (turn : ControlPlaneTurnSummary)
| BodyTurnResult (r : ControlPlaneTurnResultResponse)
| BodyTurnStream (st : ControlPlaneTurnStreamState)
| BodyView (view : json).

Record Response : Type := { rs_status : Z; rs_body : Body }.

Definition error_response (status : Z) (error : string) : Response := {|
  rs_status := status; rs_body := BodyError error |}.

Definition connect_error_response (status : Z) (code : ControlPlaneConnectErrorCode) (error : string)
  : Response := {| rs_status := status; rs_body := BodyConnectError code error None |}.

Definition device_token_error_response (code : ControlPlaneConnectErrorCode) (error : string)
  : Response := {| rs_status := 401; rs_body := BodyConnectError code error None |}.

Definition pairing_required_response (request : ControlPlanePairingRequestRecord) : Response := {|
  rs_status := 403;
  rs_body := BodyConnectError CodePairingRequired
    ("device `" +:+ pq_device_id request +:+
     "` requires operator pairing approval before connect can complete")
    (Some (pq_pairing_request_id request)) |}.

(** ** Third-party code *)

(** [base64]'s standard engine, and [ed25519_dalek]: reading a key of 32 bytes,
    reading a signature, and checking one. *)
Class DeviceCrypto : Type := {
  base64_decode : string -> result string string;
  verifying_key_from_bytes : string -> result unit string;
  signature_from_slice : string -> result unit string;
  verify_signature : string -> string -> string -> result unit string;
}.

(** [HeaderValue::to_str().ok()]. *)
Class HeaderText : Type := header_to_str : string -> option string.

(** ** State *)

Record ControlPlaneExposurePolicy : Type := {
  ex_loopback : bool;
  ex_shared_token : option string;
}.

(** [!bind_addr.ip().is_loopback()]. *)
Definition ControlPlaneExposurePolicy_requires_remote_auth (p : ControlPlaneExposurePolicy) : bool :=
  negb (ex_loopback p).

(** The part of the configuration that decides exposure. *)
Record ControlPlaneConfig : Type := {
  cc_allow_remote : bool;
  cc_shared_token : result (option string) string;
}.

Definition build_control_plane_exposure_policy (loopback : bool) (config : option ControlPlaneConfig)
  : result ControlPlaneExposurePolicy string :=
  if loopback then Ok {| ex_loopback := loopback; ex_shared_token := None |} else
  match config with
  | None => Err "non-loopback control-plane bind requires --config with control_plane.allow_remote=true"
  | Some config =>
      if negb (cc_allow_remote config) then
        Err "non-loopback control-plane bind requires control_plane.allow_remote=true" else
      let* shared_token := cc_shared_token config in
      match shared_token with
      | None => Err "non-loopback control-plane bind requires control_plane.shared_token"
      | Some shared_token => Ok {| ex_loopback := loopback; ex_shared_token := Some shared_token |}
      end
  end.

Section server.
Context {V : Semver} {C W : Type} `{!Clock C}.
Context {SC : ScopeCodec} {TH : TokenHash} {DC : DeviceCrypto} {HT : HeaderText}.
(** [{method:?}] in the router's errors. *)
Variable str_debug : string -> string.

Definition ControlKernel : Type := LoongKernel StaticPolicyEngine InMemoryAuditSink C W.

Record ControlPlaneKernelAuthority : Type := {
  ka_kernel : ControlKernel;
  ka_token_bindings : gmap string CapabilityToken;
}.

(** What the handlers use of [ControlPlaneTurnRuntime]: [config.acp.enabled] and the
    registry; the rest configures the agent runtime. *)
Record ControlPlaneTurnRuntime : Type := {
  rt_acp_enabled : bool;
  rt_registry : ControlPlaneTurnRegistry;
}.

(** The views of the sessions and of ACP are there or not; what they answer is an
    input of a request. *)
Record ControlPlaneHttpState : Type := {
  hs_manager : ControlPlaneManager;
  hs_connection_counter : Z;
  hs_connection_registry : ControlPlaneConnectionRegistry;
  hs_challenge_registry : ControlPlaneChallengeRegistry;
  hs_pairing : PairingState;
  hs_kernel_authority : ControlPlaneKernelAuthority;
  hs_exposure_policy : ControlPlaneExposurePolicy;
  hs_repository_view : bool;
  hs_acp_view : bool;
  hs_turn_runtime : option ControlPlaneTurnRuntime;
}.

Definition hs_set_manager (x : ControlPlaneManager) (s : ControlPlaneHttpState) : ControlPlaneHttpState := {|
  hs_manager := x; hs_connection_counter := hs_connection_counter s;
  hs_connection_registry := hs_connection_registry s; hs_challenge_registry := hs_challenge_registry s;
  hs_pairing := hs_pairing s; hs_kernel_authority := hs_kernel_authority s;
  hs_exposure_policy := hs_exposure_policy s; hs_repository_view := hs_repository_view s;
  hs_acp_view := hs_acp_view s; hs_turn_runtime := hs_turn_runtime s |}.
Definition hs_set_counter (x : Z) (s : ControlPlaneHttpState) : ControlPlaneHttpState := {|
  hs_manager := hs_manager s; hs_connection_counter := x;
  hs_connection_registry := hs_connection_registry s; hs_challenge_registry := hs_challenge_registry s;
  hs_pairing := hs_pairing s; hs_kernel_authority := hs_kernel_authority s;
  hs_exposure_policy := hs_exposure_policy s; hs_repository_view := hs_repository_view s;
  hs_acp_view := hs_acp_view s; hs_turn_runtime := hs_turn_runtime s |}.
Definition hs_set_connections (x : ControlPlaneConnectionRegistry) (s : ControlPlaneHttpState)
  : ControlPlaneHttpState := {|
  hs_manager := hs_manager s; hs_connection_counter := hs_connection_counter s;
  hs_connection_registry := x; hs_challenge_registry := hs_challenge_registry s;
  hs_pairing := hs_pairing s; hs_kernel_authority := hs_kernel_authority s;
  hs_exposure_policy := hs_exposure_policy s; hs_repository_view := hs_repository_view s;
  hs_acp_view := hs_acp_view s; hs_turn_runtime := hs_turn_runtime s |}.
Definition hs_set_challenges (x : ControlPlaneChallengeRegistry) (s : ControlPlaneHttpState)
  : ControlPlaneHttpState := {|
  hs_manager := hs_manager s; hs_connection_counter := hs_connection_counter s;
  hs_connection_registry := hs_connection_registry s; hs_challenge_registry := x;
  hs_pairing := hs_pairing s; hs_kernel_authority := hs_kernel_authority s;
  hs_exposure_policy := hs_exposure_policy s; hs_repository_view := hs_repository_view s;
  hs_acp_view := hs_acp_view s; hs_turn_runtime := hs_turn_runtime s |}.
Definition hs_set_pairing (x : PairingState) (s : ControlPlaneHttpState) : ControlPlaneHttpState := {|
  hs_manager := hs_manager s; hs_connection_counter := hs_connection_counter s;
  hs_connection_registry := hs_connection_registry s; hs_challenge_registry := hs_challenge_registry s;
  hs_pairing := x; hs_kernel_authority := hs_kernel_authority s;
  hs_exposure_policy := hs_exposure_policy s; hs_repository_view := hs_repository_view s;
  hs_acp_view := hs_acp_view s; hs_turn_runtime := hs_turn_runtime s |}.
Definition hs_set_authority (x : ControlPlaneKernelAuthority) (s : ControlPlaneHttpState)
  : ControlPlaneHttpState := {|
  hs_manager := hs_manager s; hs_connection_counter := hs_connection_counter s;
  hs_connection_registry := hs_connection_registry s; hs_challenge_registry := hs_challenge_registry s;
  hs_pairing := hs_pairing s; hs_kernel_authority := x;
  hs_exposure_policy := hs_exposure_policy s; hs_repository_view := hs_repository_view s;
  hs_acp_view := hs_acp_view s; hs_turn_runtime := hs_turn_runtime s |}.
Definition hs_set_turns (x : option ControlPlaneTurnRuntime) (s : ControlPlaneHttpState)
  : ControlPlaneHttpState := {|
  hs_manager := hs_manager s; hs_connection_counter := hs_connection_counter s;
  hs_connection_registry := hs_connection_registry s; hs_challenge_registry := hs_challenge_registry s;
  hs_pairing := hs_pairing s; hs_kernel_authority := hs_kernel_authority s;
  hs_exposure_policy := hs_exposure_policy s; hs_repository_view := hs_repository_view s;
  hs_acp_view := hs_acp_view s; hs_turn_runtime := x |}.

Definition HM := M ControlPlaneHttpState.

Definition on_manager {A} (m : CPM A) : HM A := zoom hs_manager hs_set_manager m.
Definition on_connections {A} (m : M ControlPlaneConnectionRegistry A) : HM A :=
  zoom hs_connection_registry hs_set_connections m.
Definition on_challenges {A} (m : M ControlPlaneChallengeRegistry A) : HM A :=
  zoom hs_challenge_registry hs_set_challenges m.
Definition on_pairing {A} (m : PM A) : HM A := zoom hs_pairing hs_set_pairing m.
Definition on_authority {A} (m : M ControlPlaneKernelAuthority A) : HM A :=
  zoom hs_kernel_authority hs_set_authority m.

(** ** The kernel authority *)

Definition CONTROL_PLANE_PACK_ID : string := "control-plane".
Definition CONTROL_PLANE_PRIMARY_ADAPTER : string := "control-plane".

Definition control_plane_pack : VerticalPackManifest := {|
  vp_pack_id := CONTROL_PLANE_PACK_ID;
  vp_domain := "control";
  vp_version := "1.0.0";
  vp_default_route := {| er_harness_kind := EmbeddedPi; er_adapter := None |};
  vp_allowed_connectors := ∅;
  vp_granted_capabilities := {[ControlRead; ControlWrite; ControlApprovals; ControlPairing; ControlAcp]};
  vp_metadata := ∅ |}.

Definition ka_set_kernel (k : ControlKernel) (a : ControlPlaneKernelAuthority)
  : ControlPlaneKernelAuthority := {| ka_kernel := k; ka_token_bindings := ka_token_bindings a |}.
Definition ka_set_bindings (m : gmap string CapabilityToken) (a : ControlPlaneKernelAuthority)
  : ControlPlaneKernelAuthority := {| ka_kernel := ka_kernel a; ka_token_bindings := m |}.

Definition ControlPlaneKernelAuthority_new (clock : C) (world : W)
  : outcome (result ControlPlaneKernelAuthority string) :=
  let kernel := LoongKernel_with_runtime StaticPolicyEngine_default clock InMemoryAuditSink_default world in
  match LoongKernel_register_pack control_plane_pack kernel with
  | (Returned (Ok _), kernel) => Returned (Ok {| ka_kernel := kernel; ka_token_bindings := ∅ |})
  | (Returned (Err error), _) =>
      Returned (Err ("control-plane pack registration failed: " +:+ KernelError_to_string error))
  | (Panicked p, _) => Panicked p
  end.

Definition ControlPlaneKernelAuthority_issue_scoped_token (connection_token agent_id : string)
    (capabilities : gset Capability) : M ControlPlaneKernelAuthority (result unit string) :=
  let? token := try_map_err (fun error =>
      "control-plane kernel token issuance failed: " +:+ KernelError_to_string error)
    (zoom ka_kernel ka_set_kernel
       (LoongKernel_issue_scoped_token CONTROL_PLANE_PACK_ID agent_id capabilities (15 * 60))) in
  run! modify (fun a => ka_set_bindings (<[connection_token := token]> (ka_token_bindings a)) a) in
  ret (Ok tt).

Definition ControlPlaneKernelAuthority_authorize (connection_token operation : string)
    (capabilities : gset Capability) : M ControlPlaneKernelAuthority (result unit string) :=
  let! bindings := gets ka_token_bindings in
  match bindings !! connection_token with
  | None => ret (Err "missing control-plane kernel token binding")
  | Some token =>
      try_map_err (fun error =>
        "control-plane kernel authorization failed: " +:+ KernelError_to_string error)
        (zoom ka_kernel ka_set_kernel
           (LoongKernel_authorize_operation CONTROL_PLANE_PACK_ID token PlaneRuntime TierCore
              CONTROL_PLANE_PRIMARY_ADAPTER None operation capabilities))
  end.

Definition ControlPlaneKernelAuthority_remove_binding (connection_token : string)
  : M ControlPlaneKernelAuthority unit :=
  modify (fun a => ka_set_bindings (delete connection_token (ka_token_bindings a)) a).

(** ** Authorization of a request *)

(** The headers by their lower-case names, each with its first value. *)
Definition HeaderMap : Type := gmap string string.

Definition nonblank (value : string) : option string :=
  let value := trim value in if str_is_empty value then None else Some value.

Definition extract_connection_token (headers : HeaderMap) : option string :=
  match (raw ← headers !! "authorization"; text ← header_to_str raw;
         bearer ← strip_prefix "Bearer " text; nonblank bearer) with
  | Some token => Some token
  | None => raw ← headers !! "x-loong-control-token"; text ← header_to_str raw; nonblank text
  end.

Definition scope_capabilities (scope : ControlPlaneScope) : gset Capability :=
  match scope with
  | OperatorRead => {[ControlRead]}
  | OperatorWrite => {[ControlWrite]}
  | OperatorApprovals => {[ControlApprovals]}
  | OperatorPairing => {[ControlPairing]}
  | OperatorAcp => {[ControlAcp]}
  | OperatorAdmin => {[ControlRead; ControlWrite; ControlApprovals; ControlPairing; ControlAcp]}
  end.

Definition connection_scoped_capabilities (lease : ControlPlaneConnectionLease) : gset Capability :=
  foldl (fun capabilities raw_scope =>
    match ControlPlaneScope_parse raw_scope with
    | None => capabilities
    | Some scope => capabilities ∪ scope_capabilities scope
    end) ∅ (btree_set_iter (cpp_scopes (cl_principal lease))).

Definition is_control_plane_capability (c : Capability) : bool :=
  match c with
  | ControlRead | ControlWrite | ControlApprovals | ControlPairing | ControlAcp => true
  | _ => false
  end.

Definition required_capabilities_for_route (resolved : ResolvedRoute)
  : result (gset Capability) string :=
  match rp_required_capability (rr_policy resolved) with
  | None => Ok ∅
  | Some required_capability =>
      let normalized_required := replace_char "."%char "_"%char required_capability in
      match Capability_parse normalized_required with
      | None => Err ("unsupported control-plane required capability mapping `" +:+
                     required_capability +:+ "`")
      | Some capability =>
          if negb (is_control_plane_capability capability) then
            Err ("unsupported control-plane required capability mapping `" +:+
                 Capability_as_str capability +:+ "`")
          else Ok {[capability]}
      end
  end.

Definition RouterError_to_string (e : RouterError) : string :=
  match e with
  | UnknownMethod m => "unknown protocol method: " +:+ m
  | InvalidMethod r => "invalid protocol method: " +:+ r
  end.

Definition authorize_control_plane_request (now_ms : Z) (method : string) (headers : HeaderMap)
  : HM (result ControlPlaneConnectionLease Response) :=
  match ProtocolRouter_resolve str_debug (ProtocolRouter_new false) method with
  | Err error =>
      ret (Err (error_response 500 ("control plane route resolution failed for `" +:+ method +:+
             "`: " +:+ RouterError_to_string error)))
  | Ok resolved =>
      match extract_connection_token headers with
      | None => ret (Err (error_response 401 ("missing control-plane token for `" +:+ method +:+ "`")))
      | Some token =>
          let? found := try_map_err (fun error =>
              error_response 500 ("control plane connection lookup failed: " +:+ error))
              (on_connections (ControlPlaneConnectionRegistry_resolve now_ms token)) in
          match found with
          | None =>
              run! on_authority (ControlPlaneKernelAuthority_remove_binding token) in
              ret (Err (error_response 401
                ("unknown or expired control-plane token for `" +:+ method +:+ "`")))
          | Some lease =>
              if negb (bool_decide (cpp_role (cl_principal lease) = "operator")) then
                ret (Err (error_response 403 ("role `" +:+ cpp_role (cl_principal lease) +:+
                  "` is not allowed to access `" +:+ method +:+ "`"))) else
              let? route_capabilities := ret (map_err (error_response 500)
                  (required_capabilities_for_route resolved)) in
              let scoped_capabilities := connection_scoped_capabilities lease in
              match find_first (fun c => negb (bool_decide (c ∈ scoped_capabilities)))
                      (btree_set_iter route_capabilities) with
              | Some capability =>
                  ret (Err (error_response 403 ("missing control-plane capability `" +:+
                    Capability_as_str capability +:+ "` for method `" +:+ method +:+ "`")))
              | None =>
                  run? try_map_err (error_response 403)
                    (on_authority (ControlPlaneKernelAuthority_authorize (cl_token lease) method
                       route_capabilities)) in
                  ret (Ok lease)
              end
          end
      end
  end.

(** ** The checks of a connect *)

Definition CONTROL_PLANE_CHALLENGE_MAX_FUTURE_SKEW_MS : Z := 10000.
Definition CONTROL_PLANE_REMOTE_BOOTSTRAP_SCOPES : gset ControlPlaneScope :=
  {[OperatorRead; OperatorPairing]}.

Definition newline : string := String (ascii_of_N 10) "".

Definition scope_names (scopes : gset ControlPlaneScope) : list string :=
  ControlPlaneScope_as_str <$> btree_set_iter scopes.

Definition control_plane_device_signature_message (request : ControlPlaneConnectRequest)
    (device : ControlPlaneDeviceIdentity) : string :=
  "loong-control-plane-connect-v1" +:+ newline +:+
  "nonce=" +:+ di_nonce device +:+ newline +:+
  "device_id=" +:+ di_device_id device +:+ newline +:+
  "client_id=" +:+ ci_id (rq_client request) +:+ newline +:+
  "role=" +:+ ControlPlaneRole_as_str (rq_role request) +:+ newline +:+
  "scopes=" +:+ join "," (scope_names (rq_scopes request)) +:+ newline +:+
  "signed_at_ms=" +:+ fmt_dec (di_signed_at_ms device).

(** Decoding the key and the signature and checking it: the part of
    [verify_connect_device_challenge] after the challenge. *)
Definition verify_device_signature (request : ControlPlaneConnectRequest)
    (device : ControlPlaneDeviceIdentity) : result unit Response :=
  let bad prefix e := error_response 400 (prefix +:+ e) in
  let* public_key_bytes :=
    map_err (bad "invalid control-plane device public_key encoding: ")
      (base64_decode (di_public_key device)) in
  let* signature_bytes :=
    map_err (bad "invalid control-plane device signature encoding: ")
      (base64_decode (di_signature device)) in
  let* _ := if decide (String.length public_key_bytes = 32) then Ok tt
            else Err (error_response 400 "control-plane device public_key must decode to 32 bytes") in
  let* _ := map_err (bad "invalid control-plane device public_key: ")
              (verifying_key_from_bytes public_key_bytes) in
  let* _ := map_err (bad "invalid control-plane device signature bytes: ")
              (signature_from_slice signature_bytes) in
  let message := control_plane_device_signature_message request device in
  map_err (fun error =>
      error_response 401 ("control-plane device signature verification failed: " +:+ error))
    (verify_signature public_key_bytes message signature_bytes).

(** The time the device signed lies in the challenge's window. *)
Definition signed_in_window (challenge : ControlPlaneChallenge) (signed_at_ms now_ms : Z) : bool :=
  negb ((signed_at_ms <? ch_issued_at_ms challenge)%Z ||
        (u64_saturating_add (ch_expires_at_ms challenge)
           CONTROL_PLANE_CHALLENGE_MAX_FUTURE_SKEW_MS <? signed_at_ms)%Z ||
        (u64_saturating_add now_ms CONTROL_PLANE_CHALLENGE_MAX_FUTURE_SKEW_MS <? signed_at_ms)%Z).

Definition verify_connect_device_challenge (consume_ms now_ms : Z)
    (request : ControlPlaneConnectRequest) : HM (result unit Response) :=
  match rq_device request with
  | None => ret (Ok tt)
  | Some device =>
      let? found := try_map_err (error_response 500)
          (on_challenges (ControlPlaneChallengeRegistry_consume consume_ms (di_nonce device))) in
      match found with
      | None => ret (Err (error_response 401
          ("unknown or expired control-plane challenge `" +:+ di_nonce device +:+ "`")))
      | Some challenge =>
          if negb (signed_in_window challenge (di_signed_at_ms device) now_ms) then
            ret (Err (error_response 401
              ("control-plane device signature timestamp is outside the challenge window for `" +:+
               di_device_id device +:+ "`")))
          else ret (verify_device_signature request device)
      end
  end.

Definition presented_shared_token (request : ControlPlaneConnectRequest) : option string :=
  auth ← rq_auth request; token ← ac_token auth; nonblank token.

Definition verify_remote_connect_bootstrap_auth (policy : ControlPlaneExposurePolicy)
    (request : ControlPlaneConnectRequest) : result unit Response :=
  if negb (ControlPlaneExposurePolicy_requires_remote_auth policy) then Ok tt else
  if bool_decide (is_Some (rq_device request)) then Ok tt else
  match ex_shared_token policy with
  | None => Err (connect_error_response 500 SharedTokenRequired
                   "remote control-plane posture is missing exposure shared token")
  | Some shared_token =>
      match presented_shared_token request with
      | None => Err (connect_error_response 401 SharedTokenRequired
                       "remote non-loopback operator connect requires auth.token")
      | Some presented =>
          if negb (bool_decide (presented = shared_token)) then
            Err (connect_error_response 401 SharedTokenInvalid
                   "remote non-loopback operator connect presented an invalid auth.token")
          else Ok tt
      end
  end.

Definition granted_connect_scopes (policy : ControlPlaneExposurePolicy)
    (request : ControlPlaneConnectRequest) : gset ControlPlaneScope :=
  let remote_bootstrap := ControlPlaneExposurePolicy_requires_remote_auth policy &&
                          bool_decide (rq_device request = None) in
  if negb remote_bootstrap then rq_scopes request
  else rq_scopes request ∩ CONTROL_PLANE_REMOTE_BOOTSTRAP_SCOPES.

Definition principal_from_connect (request : ControlPlaneConnectRequest) (connection_id : string)
    (granted_scopes : gset ControlPlaneScope) : ControlPlanePrincipal := {|
  pr_connection_id := connection_id; pr_client_id := ci_id (rq_client request);
  pr_role := rq_role request; pr_scopes := granted_scopes;
  pr_device_id := di_device_id <$> rq_device request |}.

Definition connection_principal_from_connect (request : ControlPlaneConnectRequest)
    (connection_id : string) (granted_scopes : gset ControlPlaneScope)
  : ControlPlaneConnectionPrincipal := {|
  cpp_connection_id := connection_id; cpp_client_id := ci_id (rq_client request);
  cpp_role := ControlPlaneRole_as_str (rq_role request);
  cpp_scopes := list_to_set (scope_names granted_scopes);
  cpp_device_id := di_device_id <$> rq_device request |}.
End server.
