(* ===== verification/ControlHandlers.v ===== *)
(** * The handlers of the control plane's HTTP server

    [crates/daemon/src/control_plane_server.rs], 1681-2535: one definition per
    route, and the router.  A handler is a computation on the server's state; what
    it reads of the world (clocks, random numbers, the pairing database, the
    session, approval and ACP views, the wake-ups of a waiting request) is in
    [HandlerIo].  The task [turn_submit] spawns is two steps of its own: an event
    it forwards and its completion. *)

From Stdlib Require Import Ascii.
From S2P Require Import Prelude RustStr Contracts Policy Planes AuditSinks Kernel Protocol.
From S2P Require Import Json ControlEvents ControlTurns ControlAuth ControlServer.

Definition CONTROL_PLANE_TICK_INTERVAL_MS : Z := 15000.
Definition CONTROL_PLANE_DEFAULT_LIST_LIMIT : nat := 50.
Definition CONTROL_PLANE_DEFAULT_SESSION_RECENT_LIMIT : nat := 20.
Definition CONTROL_PLANE_DEFAULT_SESSION_TAIL_LIMIT : nat := 50.

Definition default_policy : ControlPlanePolicy := {|
  cp_max_payload_bytes := 1024 * 1024;
  cp_max_buffered_bytes := 256 * 1024;
  cp_tick_interval_ms := CONTROL_PLANE_TICK_INTERVAL_MS |}.

Inductive ApprovalRequestStatus : Type :=
| ApprovalPending | ApprovalApproved | ApprovalExecuting | ApprovalExecuted | ApprovalDenied
| ApprovalExpired | ApprovalCancelled.

(** The calls of the session, approval and ACP views: those that list, and those
    that read one entry. *)
Inductive ListCall : Type :=
| ListSessions (include_archived : bool) (limit : nat)
| ListBackgroundTasks (include_archived : bool) (limit : nat)
| ListApprovals (session_id : option string) (status : option ApprovalRequestStatus) (limit : nat)
| AcpListSessions (limit : nat).

Inductive ReadCall : Type :=
| ReadSession (session_id : string) (recent_event_limit : nat) (tail_after_id : option Z)
    (tail_page_limit : nat)
| ReadBackgroundTask (task_id : string)
| AcpReadSession (session_key : string).

Record HandlerIo : Type := {
  hio_resolve_ms : Z;
  hio_consume_ms : Z;
  hio_verify_ms : Z;
  hio_now_ms : Z;
  hio_random : Z;
  hio_random2 : Z;
  hio_pairing : PairingIo;
  hio_snapshot : result (nat * nat) string;
  hio_acp_count : result nat string;
  hio_visible : string -> result unit string;
  hio_list : ListCall -> result json string;
  hio_read : ReadCall -> result (option json) string;
  hio_wait_start : Z;
  hio_wait : list WaitRound;
}.

(** ** Queries *)

Record EventQuery : Type := {
  eq_limit : option nat;
  eq_include_targeted : bool;
  eq_after_seq : option Z;
  eq_timeout_ms : option Z;
}.

Record SessionReadQuery : Type := {
  sq_session_id : string;
  sq_recent_event_limit : option nat;
  sq_tail_after_id : option Z;
  sq_tail_page_limit : option nat;
}.

Record ApprovalListQuery : Type := {
  aq_session_id : option string;
  aq_status : option string;
  aq_limit : option nat;
}.

Inductive HttpRequest : Type :=
| GetReadyz
| GetHealthz
| GetChallenge
| GetPing (headers : HeaderMap)
| PostConnect (request : ControlPlaneConnectRequest)
| GetSubscribe (headers : HeaderMap) (after_seq : option Z) (include_targeted : bool)
| GetSnapshot (headers : HeaderMap)
| GetEvents (headers : HeaderMap) (query : EventQuery)
| GetSessionList (headers : HeaderMap) (limit : option nat) (include_archived : bool)
| GetSessionRead (headers : HeaderMap) (query : SessionReadQuery)
| GetTaskList (headers : HeaderMap) (limit : option nat) (include_archived : bool)
| GetTaskRead (headers : HeaderMap) (task_id : string)
| PostTurnSubmit (headers : HeaderMap) (request : ControlPlaneTurnSubmitRequest)
| GetTurnResult (headers : HeaderMap) (turn_id : string)
| GetTurnStream (headers : HeaderMap) (turn_id : string) (after_seq : option Z)
| GetApprovalList (headers : HeaderMap) (query : ApprovalListQuery)
| GetPairingList (headers : HeaderMap) (status : option string) (limit : option nat)
| PostPairingResolve (headers : HeaderMap) (pairing_request_id : string) (approve : bool)
| GetAcpSessionList (headers : HeaderMap) (limit : option nat)
| GetAcpSessionRead (headers : HeaderMap) (session_key : string).

(** ** Mappings *)

Definition map_event (e : ControlPlaneEventRecord) : ControlPlaneEventEnvelope := {|
  en_event := ev_kind e; en_seq := ev_seq e; en_state_version := Some (ev_state_version e);
  en_payload := ev_payload e |}.

Definition map_pairing_request (r : ControlPlanePairingRequestRecord)
  : ControlPlanePairingRequestSummary := {|
  sm_pairing_request_id := pq_pairing_request_id r; sm_device_id := pq_device_id r;
  sm_client_id := pq_client_id r; sm_public_key := pq_public_key r;
  sm_role := if decide (pq_role r = "operator") then RoleOperator else RoleNode;
  sm_requested_scopes :=
    list_to_set (omap ControlPlaneScope_parse (btree_set_iter (pq_requested_scopes r)));
  sm_status := pq_status r; sm_requested_at_ms := pq_requested_at_ms r;
  sm_resolved_at_ms := pq_resolved_at_ms r |}.

Definition parse_pairing_status (raw : string) : result ControlPlanePairingStatus string :=
  let text := to_ascii_lowercase (trim raw) in
  if decide (text = "pending") then Ok PairingPending else
  if decide (text = "approved") then Ok PairingApproved else
  if decide (text = "rejected") then Ok PairingRejected else
  Err ("unknown pairing status `" +:+ raw +:+ "`").

Definition parse_approval_request_status (raw : string) : result ApprovalRequestStatus string :=
  let text := to_ascii_lowercase (trim raw) in
  if decide (text = "pending") then Ok ApprovalPending else
  if decide (text = "approved") then Ok ApprovalApproved else
  if decide (text = "executing") then Ok ApprovalExecuting else
  if decide (text = "executed") then Ok ApprovalExecuted else
  if decide (text = "denied") then Ok ApprovalDenied else
  if decide (text = "expired") then Ok ApprovalExpired else
  if decide (text = "cancelled") then Ok ApprovalCancelled else
  Err ("unknown approval status `" +:+ raw +:+ "`").

Definition parse_optional {A} (parse : string -> result A string) (raw : option string)
  : result (option A) Response :=
  match raw with
  | None => Ok None
  | Some raw => let* status := map_err (error_response 400) (parse raw) in Ok (Some status)
  end.

Definition map_turn_summary (s : ControlPlaneTurnSnapshot) : ControlPlaneTurnSummary := {|
  su_turn_id := ts_turn_id s; su_session_id := ts_session_id s; su_status := ts_status s;
  su_submitted_at_ms := ts_submitted_at_ms s; su_completed_at_ms := ts_completed_at_ms s;
  su_event_count := ts_event_count s |}.

Definition map_turn_result (s : ControlPlaneTurnSnapshot) : ControlPlaneTurnResultResponse := {|
  tu_turn := map_turn_summary s; tu_output_text := ts_output_text s;
  tu_stop_reason := ts_stop_reason s; tu_usage := ts_usage s; tu_error := ts_error s |}.

Definition map_turn_event_payload (r : ControlPlaneTurnEventRecord) : json :=
  json_obj [("turn_id", JString (te_turn_id r)); ("session_id", JString (te_session_id r));
            ("seq", JNumber (PosInt (te_seq r))); ("terminal", JBool (te_terminal r));
            ("payload", te_payload r)].

Definition require_nonempty_text (value field_name : string) : result string string :=
  if str_is_empty (trim value) then Err (field_name +:+ " is required") else Ok value.

(** The checks of [build_acp_dispatch_address]; the address is not used. *)
Definition build_acp_dispatch_address (session_id : string) (r : ControlPlaneTurnSubmitRequest)
  : result unit string :=
  if str_is_empty (trim session_id) then
    Err "acp-dispatch requires a non-empty --session value" else
  let given (f : option string) := bool_decide (is_Some (v ← f; nonblank v)) in
  if given (sb_channel_id r) then
    if given (sb_conversation_id r) then Ok tt
    else Err "acp-dispatch requires --conversation-id when --channel is provided"
  else if given (sb_conversation_id r) || given (sb_account_id r) || given (sb_participant_id r)
          || given (sb_thread_id r) then
    Err "acp-dispatch requires --channel when using --conversation-id, --account-id, --participant-id, or --thread-id"
  else Ok tt.

(** ** The handlers *)

Section handlers.
Context {V : Semver} {C W : Type} `{!Clock C}.
Context {SC : ScopeCodec} {TH : TokenHash} {DC : DeviceCrypto} {HT : HeaderText}.
Variable str_debug : string -> string.

Notation HM := (@HM C W).
Notation State := (@ControlPlaneHttpState C W).

(** A handler's early [return] and its last expression are both the response. *)
Definition responding (m : HM (result Response Response)) : HM Response :=
  let! r := m in ret (match r with Ok response | Err response => response end).

Definition json_response (body : Body) : Response := {| rs_status := 200; rs_body := body |}.

Definition authorize (io : HandlerIo) (method : string) (headers : HeaderMap) :=
  authorize_control_plane_request (C := C) (W := W) str_debug (hio_resolve_ms io) method headers.

Definition on_turns {A} (rt : ControlPlaneTurnRuntime) (m : CTR A) : HM A := fun s =>
  let (r, g) := m (rt_registry rt) in
  (r, hs_set_turns (Some {| rt_acp_enabled := rt_acp_enabled rt; rt_registry := g |}) s).

Definition current_snapshot (io : HandlerIo) : HM (result ControlPlaneSnapshotSummary string) :=
  let! s := get in
  ret (
    let snapshot := ControlPlaneManager_snapshot (hs_manager s) in
    let* snapshot :=
      if hs_repository_view s then
        let* counts := hio_snapshot io in
        Ok {| ss_state_version := ss_state_version snapshot;
              ss_presence_count := ss_presence_count snapshot;
              ss_session_count := counts.1; ss_pending_approval_count := counts.2;
              ss_acp_session_count := ss_acp_session_count snapshot;
              ss_runtime_ready := ss_runtime_ready snapshot |}
      else Ok snapshot in
    if hs_acp_view s then
      let* count := hio_acp_count io in
      Ok {| ss_state_version := ss_state_version snapshot;
            ss_presence_count := ss_presence_count snapshot;
            ss_session_count := ss_session_count snapshot;
            ss_pending_approval_count := ss_pending_approval_count snapshot;
            ss_acp_session_count := count; ss_runtime_ready := ss_runtime_ready snapshot |}
    else Ok snapshot).

Definition snapshot_response (io : HandlerIo) (body : ControlPlaneSnapshotSummary -> Body)
  : HM (result Response Response) :=
  let? snapshot := try_map_err (error_response 500) (current_snapshot io) in
  ret (Ok (json_response (body snapshot))).

Definition readyz : HM Response := ret {| rs_status := 200; rs_body := BodyEmpty |}.

Definition healthz (io : HandlerIo) : HM Response := responding (snapshot_response io BodySnapshot).

Definition control_challenge (io : HandlerIo) : HM Response :=
  let! challenge := on_challenges (ControlPlaneChallengeRegistry_issue (hio_now_ms io) (hio_random io)) in
  ret (json_response (BodyChallenge challenge)).

Definition control_snapshot (io : HandlerIo) (headers : HeaderMap) : HM Response := responding (
  run? authorize io "control/snapshot" headers in
  snapshot_response io BodySnapshot).

Definition control_ping (io : HandlerIo) (headers : HeaderMap) : HM Response := responding (
  run? authorize io "control/ping" headers in
  snapshot_response io (fun snapshot =>
    BodyPing CONTROL_PLANE_PROTOCOL_VERSION (ss_state_version snapshot))).

(** [None] while the request still waits. *)
Definition control_events (io : HandlerIo) (headers : HeaderMap) (query : EventQuery)
  : HM (option Response) :=
  let! authorized := authorize io "control/events" headers in
  match authorized with
  | Err response => ret (Some response)
  | Ok _ =>
      let limit := default CONTROL_PLANE_DEFAULT_EVENT_LIMIT (eq_limit query) in
      let! m := gets hs_manager in
      let events :=
        match eq_after_seq query with
        | Some after_seq =>
            ControlPlaneManager_wait_for_recent_events after_seq limit (eq_include_targeted query)
              (default CONTROL_PLANE_TICK_INTERVAL_MS (eq_timeout_ms query))
              (hio_wait_start io) (hio_wait io)
        | None => Some (ControlPlaneManager_recent_events limit (eq_include_targeted query) m)
        end in
      ret ((fun events => json_response (BodyEvents (map_event <$> events))) <$> events)
  end.

Definition control_subscribe (io : HandlerIo) (headers : HeaderMap) (after_seq : option Z)
    (include_targeted : bool) : HM Response := responding (
  run? authorize io "control/subscribe" headers in
  let! m := gets hs_manager in
  ret (Ok (json_response (BodySubscribe
    (initial_subscribe_state (default 0%Z after_seq) include_targeted m))))).

(** The device's pairing: what [control_connect] does between its checks and the lease. *)
Definition connect_pairing (io : HandlerIo) (request : ControlPlaneConnectRequest)
  : HM (result unit Response) :=
  match rq_device request with
  | None => ret (Ok tt)
  | Some device =>
      let device_token := auth ← rq_auth request; ac_device_token auth in
      let? decision := try_map_err (error_response 400)
        (on_pairing (ControlPlanePairingRegistry_evaluate_connect (hio_now_ms io) (hio_random io)
           (hio_pairing io) (di_device_id device) (ci_id (rq_client request)) (di_public_key device)
           (ControlPlaneRole_as_str (rq_role request))
           (list_to_set (scope_names (rq_scopes request))) device_token)) in
      match decision with
      | Authorized => ret (Ok tt)
      | PairingRequired pairing created =>
          run! (if created then
                  run! on_manager (ControlPlaneManager_record_pairing_requested (json_obj [
                    ("pairing_request_id", JString (pq_pairing_request_id pairing));
                    ("device_id", JString (pq_device_id pairing));
                    ("client_id", JString (pq_client_id pairing));
                    ("role", JString (pq_role pairing))])) in ret tt
                else ret tt) in
          ret (Err (pairing_required_response pairing))
      | DeviceTokenRequired =>
          ret (Err (device_token_error_response CodeDeviceTokenRequired
            ("device `" +:+ di_device_id device +:+
             "` is paired but must present auth.device_token on connect")))
      | DeviceTokenInvalid =>
          ret (Err (device_token_error_response CodeDeviceTokenInvalid
            ("device `" +:+ di_device_id device +:+ "` presented an invalid auth.device_token")))
      end
  end.

(** The lease and its kernel token: the rest of [control_connect] up to the snapshot. *)
Definition connect_lease (io : HandlerIo) (request : ControlPlaneConnectRequest)
  : HM (result (ControlPlanePrincipal * ControlPlaneConnectionLease) Response) :=
  let! counter := gets hs_connection_counter in
  run! modify (hs_set_counter (u64_wrapping_add counter 1)) in
  let connection_id := "cp-" +:+ fmt_016x (u64_wrapping_add counter 1) in
  let! policy := gets hs_exposure_policy in
  let granted_scopes := granted_connect_scopes policy request in
  let principal := principal_from_connect request connection_id granted_scopes in
  let! lease := on_connections (ControlPlaneConnectionRegistry_issue (hio_now_ms io) (hio_random io)
                  (connection_principal_from_connect request connection_id granted_scopes)) in
  let! issued := on_authority (ControlPlaneKernelAuthority_issue_scoped_token (cl_token lease)
                   (cpp_client_id (cl_principal lease)) (connection_scoped_capabilities lease)) in
  match issued with
  | Err error =>
      let! revoked := on_connections (ControlPlaneConnectionRegistry_revoke (cl_token lease)) in
      run! (if revoked : bool then on_authority (ControlPlaneKernelAuthority_remove_binding (cl_token lease))
            else ret tt) in
      ret (Err (error_response 500 error))
  | Ok _ => ret (Ok (principal, lease))
  end.

Definition protocol_check (request : ControlPlaneConnectRequest) : result unit Response :=
  if (rq_max_protocol request <? CONTROL_PLANE_PROTOCOL_VERSION)%Z ||
     (CONTROL_PLANE_PROTOCOL_VERSION <? rq_min_protocol request)%Z
  then Err (error_response 400 ("protocol mismatch: expected protocol " +:+
              fmt_dec CONTROL_PLANE_PROTOCOL_VERSION))
  else Ok tt.

(** The checks of [control_connect], in their order. *)
Definition connect_checks (io : HandlerIo) (request : ControlPlaneConnectRequest)
  : HM (result unit Response) :=
  run? ret (protocol_check request) in
  let! policy := gets hs_exposure_policy in
  run? ret (verify_remote_connect_bootstrap_auth policy request) in
  run? verify_connect_device_challenge (hio_consume_ms io) (hio_verify_ms io) request in
  connect_pairing io request.

Definition control_connect (io : HandlerIo) (request : ControlPlaneConnectRequest)
  : HM Response := responding (
  run? connect_checks io request in
  let? granted := connect_lease io request in
  let? snapshot := try_map_err (error_response 500) (current_snapshot io) in
  ret (Ok (json_response (BodyConnect {|
    co_protocol := CONTROL_PLANE_PROTOCOL_VERSION; co_principal := granted.1;
    co_connection_token := cl_token granted.2;
    co_connection_token_expires_at_ms := cl_expires_at_ms granted.2;
    co_snapshot := snapshot; co_policy := default_policy |})))).

(** *** The views *)

Definition requires_config (method : string) : Response :=
  error_response 503 (method +:+ " requires control-plane-serve --config <path>").

(** The error of a view: missing key, not visible, or any other. *)
Definition view_error (missing : string) (denied_status : Z) (error : string) : Response :=
  if decide (error = missing) then error_response 400 error else
  if starts_with "visibility_denied:" error then error_response denied_status error else
  error_response 500 error.

Definition list_answer (on_error : string -> Response) (answer : result json string)
  : result Response Response :=
  let* view := map_err on_error answer in Ok (json_response (BodyView view)).

Definition read_answer (on_error : string -> Response) (not_found : string)
    (answer : result (option json) string) : result Response Response :=
  let* found := map_err on_error answer in
  let* view := ok_or found (error_response 404 not_found) in
  Ok (json_response (BodyView view)).

(** Authorization, then the view when the server has one, then its answer. *)
Definition view_handler (io : HandlerIo) (method : string) (headers : HeaderMap)
    (available : State -> bool) (answer : result Response Response) : HM Response := responding (
  run? authorize io method headers in
  let! ready := gets available in
  if negb ready then ret (Err (requires_config method)) else ret answer).

Definition limit_or (limit : option nat) : nat := default CONTROL_PLANE_DEFAULT_LIST_LIMIT limit.

Definition session_list (io : HandlerIo) (headers : HeaderMap) (limit : option nat)
    (include_archived : bool) : HM Response :=
  view_handler io "session/list" headers hs_repository_view
    (list_answer (error_response 500) (hio_list io (ListSessions include_archived (limit_or limit)))).

Definition session_read (io : HandlerIo) (headers : HeaderMap) (query : SessionReadQuery)
  : HM Response :=
  view_handler io "session/read" headers hs_repository_view
    (read_answer (view_error "control_plane_session_id_missing" 403)
       ("session `" +:+ trim (sq_session_id query) +:+ "` not found")
       (hio_read io (ReadSession (sq_session_id query)
          (default CONTROL_PLANE_DEFAULT_SESSION_RECENT_LIMIT (sq_recent_event_limit query))
          (sq_tail_after_id query)
          (default CONTROL_PLANE_DEFAULT_SESSION_TAIL_LIMIT (sq_tail_page_limit query))))).

Definition task_list (io : HandlerIo) (headers : HeaderMap) (limit : option nat)
    (include_archived : bool) : HM Response :=
  view_handler io "task/list" headers hs_repository_view
    (list_answer (error_response 500)
       (hio_list io (ListBackgroundTasks include_archived (limit_or limit)))).

Definition task_read (io : HandlerIo) (headers : HeaderMap) (task_id : string) : HM Response :=
  view_handler io "task/read" headers hs_repository_view
    (read_answer (view_error "control_plane_session_id_missing" 404)
       ("background task `" +:+ trim task_id +:+ "` not found")
       (hio_read io (ReadBackgroundTask task_id))).

Definition approval_list (io : HandlerIo) (headers : HeaderMap) (query : ApprovalListQuery)
  : HM Response :=
  view_handler io "approval/list" headers hs_repository_view
    (let* status := parse_optional parse_approval_request_status (aq_status query) in
     list_answer (view_error "control_plane_session_id_missing" 403)
       (hio_list io (ListApprovals (aq_session_id query) status (limit_or (aq_limit query))))).

Definition acp_session_list (io : HandlerIo) (headers : HeaderMap) (limit : option nat)
  : HM Response :=
  view_handler io "acp/session/list" headers hs_acp_view
    (list_answer (error_response 500) (hio_list io (AcpListSessions (limit_or limit)))).

Definition acp_session_read (io : HandlerIo) (headers : HeaderMap) (session_key : string)
  : HM Response :=
  view_handler io "acp/session/read" headers hs_acp_view
    (read_answer (view_error "control_plane_acp_session_key_missing" 403)
       ("ACP session `" +:+ trim session_key +:+ "` not found")
       (hio_read io (AcpReadSession session_key))).

(** *** Pairing *)

Definition pairing_list (io : HandlerIo) (headers : HeaderMap) (status : option string)
    (limit : option nat) : HM Response := responding (
  run? authorize io "pairing/list" headers in
  let? status := ret (parse_optional parse_pairing_status status) in
  let! pairing := gets hs_pairing in
  let requests := ControlPlanePairingRegistry_list_requests status (limit_or limit) (ps_registry pairing) in
  let matched_count := length requests in
  ret (Ok (json_response (BodyPairingList matched_count matched_count
             (map_pairing_request <$> requests))))).

Definition pairing_resolve (io : HandlerIo) (headers : HeaderMap) (pairing_request_id : string)
    (approve : bool) : HM Response := responding (
  run? authorize io "pairing/resolve" headers in
  let? resolved := try_map_err (error_response 400)
    (on_pairing (ControlPlanePairingRegistry_resolve_request (hio_now_ms io) (hio_random io)
       (hio_random2 io) (hio_pairing io) pairing_request_id approve)) in
  match resolved with
  | Some record =>
      run! on_manager (ControlPlaneManager_record_pairing_resolved (json_obj [
             ("pairing_request_id", JString (pq_pairing_request_id record));
             ("device_id", JString (pq_device_id record));
             ("status", JString (ControlPlanePairingStatus_as_str (pq_status record)))]) false) in
      ret (Ok (json_response (BodyPairingResolve (map_pairing_request record) (pq_device_token record))))
  | None => ret (Err (error_response 404
      ("pairing request `" +:+ trim pairing_request_id +:+ "` not found")))
  end).

(** *** Turns *)

Definition ensure_turn_session_visible (io : HandlerIo) (session_id : string)
  : HM (result unit Response) :=
  let! view := gets hs_repository_view in
  if negb view then ret (Ok tt) else
  ret (map_err (view_error "control_plane_session_id_missing" 403) (hio_visible io session_id)).

Definition with_turn_runtime (method : string)
    (k : ControlPlaneTurnRuntime -> HM (result Response Response)) : HM (result Response Response) :=
  let! runtime := gets hs_turn_runtime in
  match runtime with
  | None => ret (Err (requires_config method))
  | Some runtime => k runtime
  end.

Definition turn_submit (io : HandlerIo) (headers : HeaderMap) (request : ControlPlaneTurnSubmitRequest)
  : HM Response := responding (
  run? authorize io "turn/submit" headers in
  with_turn_runtime "turn/submit" (fun runtime =>
    if negb (rt_acp_enabled runtime) then
      ret (Err (error_response 503 "turn/submit requires ACP to be enabled (`acp.enabled=true`)")) else
    let? session_id := ret (map_err (error_response 400)
        (normalize_required_text (sb_session_id request) "session_id")) in
    run? ensure_turn_session_visible io session_id in
    run? ret (map_err (error_response 400) (require_nonempty_text (sb_input request) "input")) in
    run? ret (map_err (error_response 400) (build_acp_dispatch_address session_id request)) in
    let! snapshot := on_turns runtime
        (ControlPlaneTurnRegistry_issue_turn (hio_now_ms io) (hio_random io) session_id) in
    ret (Ok {| rs_status := 202; rs_body := BodyTurnSubmit (map_turn_summary snapshot) |}))).

(** The snapshot a result or a stream is about, once its session is visible. *)
Definition visible_turn (io : HandlerIo) (runtime : ControlPlaneTurnRuntime) (turn_id : string)
  : HM (result (string * ControlPlaneTurnSnapshot) Response) :=
  let? turn_id := ret (map_err (error_response 400) (normalize_required_text turn_id "turn_id")) in
  let? snapshot := ret (
    let* found := map_err (error_response 500)
        (ControlPlaneTurnRegistry_read_turn turn_id (rt_registry runtime)) in
    ok_or found (error_response 404 ("turn `" +:+ turn_id +:+ "` not found"))) in
  run? ensure_turn_session_visible io (ts_session_id snapshot) in
  ret (Ok (turn_id, snapshot)).

Definition turn_result (io : HandlerIo) (headers : HeaderMap) (turn_id : string) : HM Response :=
  responding (
  run? authorize io "turn/result" headers in
  with_turn_runtime "turn/result" (fun runtime =>
    let? turn := visible_turn io runtime turn_id in
    ret (Ok (json_response (BodyTurnResult (map_turn_result turn.2)))))).

Definition turn_stream (io : HandlerIo) (headers : HeaderMap) (turn_id : string)
    (after_seq : option Z) : HM Response := responding (
  run? authorize io "turn/stream" headers in
  with_turn_runtime "turn/stream" (fun runtime =>
    let? turn := visible_turn io runtime turn_id in
    if ControlPlaneTurnStatus_is_terminal (ts_status turn.2) && bool_decide (ts_event_count turn.2 = 0)
    then ret (Err (error_response 409
           ("turn `" +:+ turn.1 +:+ "` completed without any streamable events"))) else
    let? stream := ret (map_err (error_response 500)
        (initial_turn_stream_state turn.1 (default 0%Z after_seq) (rt_registry runtime))) in
    ret (Ok (json_response (BodyTurnStream stream))))).

(** The task [turn_submit] spawned: [ControlPlaneTurnEventForwarder::on_event]... *)
Definition forward_turn_event (turn_id : string) (payload : json) : HM (result unit string) :=
  let! runtime := gets hs_turn_runtime in
  match runtime with
  | None => ret (Ok tt)
  | Some runtime =>
      let? recorded := on_turns runtime
          (ControlPlaneTurnRegistry_record_runtime_event turn_id payload) in
      run! on_manager (ControlPlaneManager_record_acp_turn_event (map_turn_event_payload recorded) true) in
      ret (Ok tt)
  end.

(** ... and its end, with what the agent runtime returned: the text, the stop
    reason and the usage, or an error. *)
Definition TurnExecution : Type := result (string * option string * option json) string.

Definition finish_turn (now : Z) (turn_id : string) (execution : TurnExecution) : HM unit :=
  let! runtime := gets hs_turn_runtime in
  match runtime with
  | None => ret tt
  | Some runtime =>
      let! completion := on_turns runtime
        match execution with
        | Ok (output_text, stop_reason, usage) =>
            ControlPlaneTurnRegistry_complete_success now turn_id output_text stop_reason usage
        | Err error => ControlPlaneTurnRegistry_complete_failure now turn_id error
        end in
      match completion with
      | Ok record =>
          run! on_manager (ControlPlaneManager_record_acp_turn_event (map_turn_event_payload record) true) in
          ret tt
      | Err _ => ret tt
      end
  end.

(** ** The router *)

Definition serve (io : HandlerIo) (request : HttpRequest) : HM (option Response) :=
  let now (m : HM Response) : HM (option Response) := let! r := m in ret (Some r) in
  match request with
  | GetReadyz => now readyz
  | GetHealthz => now (healthz io)
  | GetChallenge => now (control_challenge io)
  | GetPing headers => now (control_ping io headers)
  | PostConnect request => now (control_connect io request)
  | GetSubscribe headers after_seq targeted => now (control_subscribe io headers after_seq targeted)
  | GetSnapshot headers => now (control_snapshot io headers)
  | GetEvents headers query => control_events io headers query
  | GetSessionList headers limit archived => now (session_list io headers limit archived)
  | GetSessionRead headers query => now (session_read io headers query)
  | GetTaskList headers limit archived => now (task_list io headers limit archived)
  | GetTaskRead headers task_id => now (task_read io headers task_id)
  | PostTurnSubmit headers request => now (turn_submit io headers request)
  | GetTurnResult headers turn_id => now (turn_result io headers turn_id)
  | GetTurnStream headers turn_id after_seq => now (turn_stream io headers turn_id after_seq)
  | GetApprovalList headers query => now (approval_list io headers query)
  | GetPairingList headers status limit => now (pairing_list io headers status limit)
  | PostPairingResolve headers id approve => now (pairing_resolve io headers id approve)
  | GetAcpSessionList headers limit => now (acp_session_list io headers limit)
  | GetAcpSessionRead headers key => now (acp_session_read io headers key)
  end.

(** [build_control_plane_router_with_runtime]: the state a server starts with. *)
Definition build_control_plane_state (manager : ControlPlaneManager) (pairing : PairingState)
    (exposure_policy : ControlPlaneExposurePolicy) (repository_view acp_view : bool)
    (turn_runtime : option ControlPlaneTurnRuntime) (clock : C) (world : W)
  : outcome (result State string) :=
  match ControlPlaneKernelAuthority_new clock world with
  | Returned (Ok authority) => Returned (Ok {|
      hs_manager := manager; hs_connection_counter := 0;
      hs_connection_registry := ControlPlaneConnectionRegistry_new;
      hs_challenge_registry := ControlPlaneChallengeRegistry_new;
      hs_pairing := pairing; hs_kernel_authority := authority; hs_exposure_policy := exposure_policy;
      hs_repository_view := repository_view; hs_acp_view := acp_view;
      hs_turn_runtime := turn_runtime |})
  | Returned (Err error) => Returned (Err error)
  | Panicked p => Panicked p
  end.
End handlers.
