(* ===== verification/ControlServerFacts.v ===== *)
(** * What the control plane's server guarantees

    Every route but [readyz], [healthz], [control/challenge] and [control/connect]
    is behind [authorize_control_plane_request].  The theorems are about a run of
    requests and of the steps of spawned turns, each with the state it met. *)

From Stdlib Require Import Ascii.
From stdpp Require Import gmap.
From S2P Require Import Prelude RustStr Contracts Policy Planes AuditSinks Kernel KernelGate Protocol.
From S2P Require Import Json ControlEvents ControlTurns ControlAuth ControlAuthFacts ControlServer ControlHandlers.

(** ** The routes and what they need *)

(** The method a request is authorized for, the capability of that method, and the
    headers it carries. *)
Definition protected_route (r : HttpRequest) : option (string * Capability * HeaderMap) :=
  match r with
  | GetReadyz | GetHealthz | GetChallenge | PostConnect _ => None
  | GetPing h => Some ("control/ping", ControlRead, h)
  | GetSubscribe h _ _ => Some ("control/subscribe", ControlRead, h)
  | GetSnapshot h => Some ("control/snapshot", ControlRead, h)
  | GetEvents h _ => Some ("control/events", ControlRead, h)
  | GetSessionList h _ _ => Some ("session/list", ControlRead, h)
  | GetSessionRead h _ => Some ("session/read", ControlRead, h)
  | GetTaskList h _ _ => Some ("task/list", ControlRead, h)
  | GetTaskRead h _ => Some ("task/read", ControlRead, h)
  | PostTurnSubmit h _ => Some ("turn/submit", ControlWrite, h)
  | GetTurnResult h _ => Some ("turn/result", ControlRead, h)
  | GetTurnStream h _ _ => Some ("turn/stream", ControlRead, h)
  | GetApprovalList h _ => Some ("approval/list", ControlApprovals, h)
  | GetPairingList h _ _ => Some ("pairing/list", ControlPairing, h)
  | PostPairingResolve h _ _ => Some ("pairing/resolve", ControlPairing, h)
  | GetAcpSessionList h _ => Some ("acp/session/list", ControlAcp, h)
  | GetAcpSessionRead h _ => Some ("acp/session/read", ControlAcp, h)
  end.

Lemma parse_as_str scope : ControlPlaneScope_parse (ControlPlaneScope_as_str scope) = Some scope.
Proof. by destruct scope. Qed.

Lemma role_operator r : ControlPlaneRole_as_str r = "operator" <-> r = RoleOperator.
Proof. by destruct r. Qed.

(** The capabilities of a set of scopes: what each of them grants. *)
Definition granted_capability (scopes : gset ControlPlaneScope) (c : Capability) : Prop :=
  exists scope, scope ∈ scopes /\ c ∈ scope_capabilities scope.

Lemma foldl_capabilities (l : list string) acc c :
  c ∈ foldl (fun capabilities raw_scope =>
    match ControlPlaneScope_parse raw_scope with
    | None => capabilities
    | Some scope => capabilities ∪ scope_capabilities scope
    end) acc l <->
  c ∈ acc \/ exists raw scope, raw ∈ l /\ ControlPlaneScope_parse raw = Some scope /\
                               c ∈ scope_capabilities scope.
Proof.
  revert acc. induction l as [|raw l IH]; intros acc; simpl; [set_solver|].
  rewrite IH. setoid_rewrite elem_of_cons.
  destruct (ControlPlaneScope_parse raw) as [scope|] eqn:E; [rewrite elem_of_union|]; naive_solver.
Qed.

Section facts.
Context {V : Semver} {C W : Type} `{!Clock C}.
Context {SC : ScopeCodec} {TH : TokenHash} {DC : DeviceCrypto} {HT : HeaderText}.
Variable str_debug : string -> string.

Notation HM := (@HM C W).
Notation State := (@ControlPlaneHttpState C W).
Notation authorize := (ControlHandlers.authorize (C := C) (W := W) str_debug).
Notation serve := (ControlHandlers.serve (C := C) (W := W) str_debug).

Lemma route_capability r method cap headers :
  protected_route r = Some (method, cap, headers) ->
  exists resolved, ProtocolRouter_resolve str_debug (ProtocolRouter_new false) method = Ok resolved /\
    required_capabilities_for_route resolved = Ok {[cap]}.
Proof.
  assert (forall m c (resolved : ResolvedRoute),
    rr_policy resolved = {| rp_allow_anonymous := false; rp_required_capability := Some m |} ->
    Capability_parse (replace_char "."%char "_"%char m) = Some c ->
    is_control_plane_capability c = true -> required_capabilities_for_route resolved = Ok {[c]}) as Hreq.
  { intros m c resolved Hp Hc Hok. unfold required_capabilities_for_route. rewrite Hp. simpl.
    by rewrite Hc, Hok. }
  destruct r; intros [= <- <- <-]; (eexists; split; [reflexivity | by eapply Hreq]).
Qed.

Lemma lease_capabilities request id granted token issued expires c :
  c ∈ connection_scoped_capabilities {| cl_token := token;
        cl_principal := connection_principal_from_connect request id granted;
        cl_issued_at_ms := issued; cl_expires_at_ms := expires |} <->
  granted_capability granted c.
Proof.
  unfold connection_scoped_capabilities, granted_capability. rewrite foldl_capabilities. simpl.
  setoid_rewrite elem_of_btree_set_iter. setoid_rewrite elem_of_list_to_set.
  unfold scope_names. setoid_rewrite list_elem_of_fmap. setoid_rewrite elem_of_btree_set_iter.
  split.
  - intros [Hn|(raw & scope & (s & -> & Hs) & Hp & Hc)]; [set_solver|].
    rewrite parse_as_str in Hp. simplify_eq. eauto.
  - intros (scope & Hs & Hc). right. eexists _, scope. split_and!; [|apply parse_as_str|done]. eauto.
Qed.

(** ** Authorization *)

(** The lease a registry's entry is read as. *)
Definition lease_of (token : string) (r : ControlPlaneConnectionRecord) : ControlPlaneConnectionLease := {|
  cl_token := token; cl_principal := cr_principal r; cl_issued_at_ms := cr_issued_at_ms r;
  cl_expires_at_ms := cr_expires_at_ms r |}.

Lemma resolve_found now token g lease g' :
  ControlPlaneConnectionRegistry_resolve now token g = (Returned (Ok (Some lease)), g') ->
  exists r, cg_connections g !! trim token = Some r /\ (now < cr_expires_at_ms r)%Z /\
            lease = lease_of (trim token) r.
Proof.
  unfold ControlPlaneConnectionRegistry_resolve. destruct (str_is_empty _); [done|].
  intros [= Hf Hg]. apply fmap_Some in Hf as (r & (Hl & Hr)%map_lookup_filter_Some & ->).
  by exists r.
Qed.

(** What the kernel established of a token it accepted for an operation of the
    control plane. *)
Record kernel_accepts (k : @ControlKernel C W) (kt : CapabilityToken) (cap : Capability) : Prop := {
  kx_live : ~ revoked (lk_policy k) kt;
  kx_time : exists now c', now_epoch_s (lk_clock k) = (Returned now, c') /\
                           (now <= ct_expires_at_epoch_s kt)%Z;
  kx_capability : cap ∈ ct_allowed_capabilities kt;
}.

Lemma kernel_authorized (k k' : @ControlKernel C W) kt operation cap u :
  LoongKernel_authorize_operation CONTROL_PLANE_PACK_ID kt PlaneRuntime TierCore
    CONTROL_PLANE_PRIMARY_ADAPTER None operation {[cap]} k = (Returned (Ok u), k') ->
  kernel_accepts k kt cap.
Proof.
  unfold LoongKernel_authorize_operation.
  intros (pack & k1 & Hp & (now & k2 & Ha & _)%try_bind_ok)%try_bind_ok.
  unfold LoongKernel_get_pack, gets, ok_or in Hp. destruct (lk_packs k !! _) eqn:Hpk; [|done].
  simplify_eq.
  apply (authorize_ok (OpAuthorize CONTROL_PLANE_PACK_ID kt PlaneRuntime TierCore
    CONTROL_PLANE_PRIMARY_ADAPTER None operation {[cap]})) in Ha
    as (_ & c' & p' & w' & Hnow & Hpe & _). simpl in Hpe.
  unfold pe_authorize, StaticPolicyEngine_policy, StaticPolicyEngine_authorize in Hpe.
  injection Hpe as Hd _. apply decide_ok in Hd as (Hr & _ & Ht & Hc).
  split; [done|by do 2 eexists|set_solver].
Qed.

(** What an authorized request showed. *)
Record authorized (s : State) (io : HandlerIo) (cap : Capability) (headers : HeaderMap)
    (lease : ControlPlaneConnectionLease) : Prop := {
  az_token : exists t, extract_connection_token headers = Some t /\ cl_token lease = trim t;
  az_live : exists r, cg_connections (hs_connection_registry s) !! cl_token lease = Some r /\
    lease = lease_of (cl_token lease) r;
  az_fresh : (hio_resolve_ms io < cl_expires_at_ms lease)%Z;
  az_role : cpp_role (cl_principal lease) = "operator";
  az_scopes : cap ∈ connection_scoped_capabilities lease;
  az_kernel : exists kt, ka_token_bindings (hs_kernel_authority s) !! cl_token lease = Some kt /\
    kernel_accepts (ka_kernel (hs_kernel_authority s)) kt cap;
}.

Lemma authorize_inv r method cap headers io s lease s' :
  protected_route r = Some (method, cap, headers) ->
  authorize io method headers s = (Returned (Ok lease), s') ->
  authorized s io cap headers lease.
Proof.
  intros (resolved & Hres & Hreq)%route_capability.
  unfold ControlHandlers.authorize, authorize_control_plane_request. rewrite Hres.
  destruct (extract_connection_token headers) as [t|] eqn:Ht; [|done].
  intros (found & s1 & Hf%try_map_err_ok & H)%try_bind_ok.
  apply zoom_returned in Hf as (g & Hg & ->). destruct found as [l|]; [|by rust_inv].
  apply resolve_found in Hg as (rec & Hl & Hnow & ->).
  destruct (negb _) eqn:Hrole; [by rust_inv|]. apply negb_false_iff, bool_decide_eq_true in Hrole.
  rewrite Hreq in H. unfold try_bind at 1, bind, ret at 1 in H. cbn [map_err] in H.
  destruct (find_first _ _) as [c|] eqn:Hc; [by rust_inv|]. rewrite find_first_negb_None in Hc.
  apply try_bind_ok in H as ([] & s2 & Ha%try_map_err_ok & H). rust_inv.
  apply zoom_returned in Ha as (a & Ha & ->). unfold ControlPlaneKernelAuthority_authorize in Ha.
  apply bind_returned in Ha as (bs & a1 & Hb & Ha). unfold gets in Hb. simplify_eq.
  destruct (_ !! cl_token _) as [kt|] eqn:Hkt; [|by rust_inv].
  apply try_map_err_ok, zoom_returned in Ha as (k & Hk & ->). apply kernel_authorized in Hk.
  split; try done; [by exists t|by exists rec| |by exists kt].
  rewrite Forall_forall in Hc. specialize (Hc cap). rewrite bool_decide_eq_true in Hc. apply Hc.
  apply elem_of_btree_set_iter. set_solver.
Qed.

(** A protected route is its authorization, then the rest of its handler. *)
Definition gated_by (m : HM (result ControlPlaneConnectionLease Response)) (h : HM (option Response))
  : Prop :=
  exists k, forall s, h s = bind m (fun a => match a with
                                             | Ok lease => k lease
                                             | Err response => ret (Some response)
                                             end) s.

Lemma gated_try m (k : ControlPlaneConnectionLease -> HM (result Response Response)) :
  gated_by m (bind (responding (try_bind m k)) (fun r => ret (Some r))).
Proof.
  exists (fun lease => bind (responding (k lease)) (fun r => ret (Some r))). intros s.
  unfold responding, try_bind, bind, ret. by destruct (m s) as [[[lease|e]|p] s1].
Qed.

Lemma serve_gated io r method cap headers :
  protected_route r = Some (method, cap, headers) ->
  gated_by (authorize io method headers) (serve io r).
Proof.
  destruct r; intros [= <- <- <-]; try apply gated_try.
  eexists (fun _ => _). intros s. unfold ControlHandlers.serve, control_events, bind.
  destruct (ControlHandlers.authorize _ _ _ _ s) as [[[lease|e]|p] s1]; reflexivity.
Qed.

Lemma serve_allowed io r method cap headers s response s' :
  protected_route r = Some (method, cap, headers) ->
  serve io r s = (Returned (Some response), s') ->
  (exists lease s1, authorize io method headers s = (Returned (Ok lease), s1)) \/
  authorize io method headers s = (Returned (Err response), s').
Proof.
  intros Hr Hs. destruct (serve_gated io r method cap headers Hr) as [k Hk]. rewrite Hk in Hs.
  apply bind_returned in Hs as ([lease|e] & s1 & Ha & Hs); [eauto|]. unfold ret in Hs. by simplify_eq; right.
Qed.

(** ** A refused request *)

(** What the kernel decides by; a decision may add to its journal, which is not
    among these. *)
Record kernel_kept (k0 k : LoongKernel StaticPolicyEngine InMemoryAuditSink C W) : Prop := {
  kk_policy : lk_policy k = lk_policy k0;
  kk_packs : lk_packs k = lk_packs k0;
  kk_namespaces : lk_namespaces k = lk_namespaces k0;
}.

(** The state after a request at [now] with [headers] was looked at: nothing is
    added, a live lease stays, and the only kernel token that may go is that of the
    connection token presented, when it has no live lease. *)
Record untouched (now : Z) (headers : HeaderMap) (s0 s : State) : Prop := {
  un_manager : hs_manager s = hs_manager s0;
  un_counter : hs_connection_counter s = hs_connection_counter s0;
  un_challenges : hs_challenge_registry s = hs_challenge_registry s0;
  un_pairing : hs_pairing s = hs_pairing s0;
  un_policy : hs_exposure_policy s = hs_exposure_policy s0;
  un_repository : hs_repository_view s = hs_repository_view s0;
  un_acp : hs_acp_view s = hs_acp_view s0;
  un_turns : hs_turn_runtime s = hs_turn_runtime s0;
  un_nonce : cg_nonce (hs_connection_registry s) = cg_nonce (hs_connection_registry s0);
  un_connections : cg_connections (hs_connection_registry s) ⊆ cg_connections (hs_connection_registry s0);
  un_live : forall t lease, cg_connections (hs_connection_registry s0) !! t = Some lease ->
    (now < cr_expires_at_ms lease)%Z -> cg_connections (hs_connection_registry s) !! t = Some lease;
  un_bindings : ka_token_bindings (hs_kernel_authority s) ⊆ ka_token_bindings (hs_kernel_authority s0);
  un_binding : forall t token, ka_token_bindings (hs_kernel_authority s0) !! t = Some token ->
    ka_token_bindings (hs_kernel_authority s) !! t = Some token \/
    extract_connection_token headers = Some t /\
    forall lease, cg_connections (hs_connection_registry s0) !! t = Some lease ->
      (cr_expires_at_ms lease <= now)%Z;
  un_kernel : kernel_kept (ka_kernel (hs_kernel_authority s0)) (ka_kernel (hs_kernel_authority s));
}.

Lemma untouched_refl now headers s : untouched now headers s s.
Proof. split; try done. by left. Qed.

Lemma extracted_token headers t :
  extract_connection_token headers = Some t -> trim t = t /\ str_is_empty t = false.
Proof.
  assert (forall raw, nonblank raw = Some t -> trim t = t /\ str_is_empty t = false) as Hn.
  { intros raw. unfold nonblank. destruct (str_is_empty (trim raw)) eqn:E; [done|].
    intros [= <-]. by rewrite trim_trim. }
  unfold extract_connection_token. destruct (_ ≫= _) as [t'|] eqn:E.
  - intros [= ->]. apply bind_Some in E as (? & _ & E). apply bind_Some in E as (? & _ & E).
    apply bind_Some in E as (? & _ & E). by eapply Hn.
  - intros H. apply bind_Some in H as (? & _ & H). apply bind_Some in H as (? & _ & H). by eapply Hn.
Qed.

(** An authorization keeps what the kernel decides by. *)
Lemma authorize_operation_kept pack token plane tier primary delegated operation required k0 :
  preserves (kernel_kept k0)
    (LoongKernel_authorize_operation pack token plane tier primary delegated operation required).
Proof.
  assert (forall f : AuditEvent -> M InMemoryAuditSink (result unit AuditError), forall e,
    preserves (kernel_kept k0) (zoom lk_audit lk_set_audit (f e))) as Ha.
  { intros f e. apply preserves_zoom. by intros k x []. }
  assert (forall {A} (m : M W A), preserves (kernel_kept k0) (zoom lk_world lk_set_world m)) as Hw.
  { intros A m. apply preserves_zoom. by intros k x []. }
  assert (forall now agent kind, preserves (kernel_kept k0) (LoongKernel_record now agent kind)) as Hr.
  { intros now agent kind. unfold LoongKernel_record. apply preserves_bind; [|intros e; by apply preserves_try_map_err].
    intros k []. by split. }
  unfold LoongKernel_authorize_operation, LoongKernel_authorize_pack_operation.
  apply preserves_try_bind; [by intros k Hk|]. intros p.
  apply preserves_try_bind; [|intros now; apply preserves_try_bind; [|auto with rust];
    unfold LoongKernel_record_plane_invocation; apply preserves_try_bind; [apply Hr|auto with rust]].
  apply preserves_try_bind; [auto with rust|intros []].
  apply preserves_bind; [apply preserves_zoom; by intros k x []|intros now].
  apply preserves_try_bind; [|auto with rust].
  unfold LoongKernel_authorize_or_audit_denial, LoongKernel_audit_denial.
  apply preserves_bind; [intros k []; by split|]. intros [[]|e].
  - apply preserves_bind; [auto with rust|]. intros chain. apply preserves_bind; [apply Hw|].
    intros [[]|e]; [auto with rust|]. apply preserves_try_bind; [apply Hr|auto with rust].
  - apply preserves_try_bind; [apply Hr|auto with rust].
Qed.

Lemma authority_authorize_kept connection_token operation required a :
  exists k, kernel_kept (ka_kernel a) k /\
    (ControlPlaneKernelAuthority_authorize connection_token operation required a).2 = ka_set_kernel k a.
Proof.
  unfold ControlPlaneKernelAuthority_authorize, bind at 1, gets.
  destruct (_ !! _) as [token|]; [|exists (ka_kernel a); split; [done|by destruct a]].
  unfold try_map_err, bind, zoom.
  pose proof (authorize_operation_kept CONTROL_PLANE_PACK_ID token PlaneRuntime TierCore
    CONTROL_PLANE_PRIMARY_ADAPTER None operation required (ka_kernel a) (ka_kernel a)) as Hkept.
  destruct (LoongKernel_authorize_operation _ _ _ _ _ _ _ _ _) as [[] k]; exists k; split; try done; by apply Hkept.
Qed.

Definition resolve_state (now : Z) (token : string) (s : State) : State :=
  (on_connections (ControlPlaneConnectionRegistry_resolve now token) s).2.

(** Looking a token up drops expired leases only. *)
Lemma resolve_untouched now headers t s :
  extract_connection_token headers = Some t ->
  exists found, on_connections (ControlPlaneConnectionRegistry_resolve now t) s
    = (Returned (Ok found), resolve_state now t s) /\
  untouched now headers s (resolve_state now t s) /\
  (found = None -> forall lease, cg_connections (hs_connection_registry s) !! t = Some lease ->
     (cr_expires_at_ms lease <= now)%Z).
Proof.
  intros [Ht He]%extracted_token.
  unfold resolve_state, on_connections, zoom, ControlPlaneConnectionRegistry_resolve. rewrite Ht, He. cbn [fst snd].
  eexists. split; [reflexivity|]. split.
  - split; try done; [apply map_filter_subseteq| |by left].
    intros t' lease Hl Hn. simpl. apply map_lookup_filter_Some. by split.
  - intros [Hf|Hf]%fmap_None%map_lookup_filter_None lease Hl; [congruence|].
    specialize (Hf lease Hl). simpl in Hf. lia.
Qed.

Lemma authorize_untouched io method headers s :
  untouched (hio_resolve_ms io) headers s (authorize io method headers s).2.
Proof.
  unfold ControlHandlers.authorize, authorize_control_plane_request.
  destruct (ProtocolRouter_resolve _ _ _) as [resolved|]; [|apply untouched_refl].
  destruct (extract_connection_token headers) as [t|] eqn:Ht; [|apply untouched_refl].
  destruct (resolve_untouched (hio_resolve_ms io) headers t s Ht) as (found & Hres & Hu & Hnone).
  unfold try_bind, try_map_err, bind at 1 2. rewrite Hres. cbn [map_err ret].
  set (s1 := resolve_state _ _ _) in *. destruct found as [lease|].
  - destruct (negb _); [done|]. destruct (required_capabilities_for_route resolved) as [caps|]; [|done].
    unfold bind at 1, ret at 1. cbn [map_err]. destruct (find_first _ _); [done|].
    assert (untouched (hio_resolve_ms io) headers s
      (on_authority (ControlPlaneKernelAuthority_authorize (cl_token lease) method caps) s1).2) as Hk.
    { destruct (authority_authorize_kept (cl_token lease) method caps (hs_kernel_authority s1)) as (k & Hk & Ha).
      unfold on_authority, zoom. destruct (ControlPlaneKernelAuthority_authorize _ _ _ _) as [r a].
      simpl in Ha. subst a. destruct Hu as [? ? ? ? ? ? ? ? ? ? ? ? ? [? ? ?]], Hk as [? ? ?].
      split; try done. split; simpl; congruence. }
    unfold bind. by destruct (on_authority _ s1) as [[[[]|]|] s2].
  - unfold bind at 1, on_authority, zoom, ControlPlaneKernelAuthority_remove_binding, modify. cbn [fst snd].
    destruct Hu as [? ? ? ? ? ? ? ? ? ? ? Hb Hb' ?]. split; try done.
    + simpl. etrans; [apply delete_subseteq|done].
    + intros t' token Hl. simpl. destruct (decide (t' = t)) as [->|Hne]; [right; eauto|].
      rewrite lookup_delete_ne by done. by apply Hb'.
Qed.

Lemma authorize_status io method headers s response s' :
  authorize io method headers s = (Returned (Err response), s') ->
  rs_status response ∈ [401; 403; 500]%Z.
Proof.
  assert (forall (A : Type) f (r : result A string) e, (f = error_response 500 \/ f = error_response 403 \/
    f = (fun error => error_response 500 ("control plane connection lookup failed: " +:+ error))) ->
    map_err f r = Err e -> rs_status e ∈ [401; 403; 500]%Z) as Herr.
  { intros A f [a|err] e Hf; [done|]. intros [= <-]. destruct Hf as [->|[->| ->]]; set_solver. }
  unfold ControlHandlers.authorize, authorize_control_plane_request, try_map_err, try_bind, bind, ret.
  repeat (case_match; simplify_eq/=; try (intros [= <- _]); try set_solver); eauto.
Qed.

(** C34 (error). A protected route whose authorization is
    refused answers with that refusal, a 401, a 403 or a 500, and does nothing
    else: no event, challenge, pairing, turn or connection counter changes, no lease
    and no kernel token appears, every lease that is live at the request's time
    stays, and so does every kernel token but that of the connection token
    presented, which goes only when that has no live lease; the kernel's policy,
    packs and namespaces are as before (a kernel refusal is recorded in its
    journal). *)
Theorem refused_request_changes_nothing io r method cap headers s response s' :
  protected_route r = Some (method, cap, headers) ->
  authorize io method headers s = (Returned (Err response), s') ->
  serve io r s = (Returned (Some response), s') /\
  rs_status response ∈ [401; 403; 500]%Z /\ untouched (hio_resolve_ms io) headers s s'.
Proof.
  intros Hr Ha. split_and!.
  - destruct (serve_gated io r method cap headers Hr) as [k ->]. unfold bind. by rewrite Ha.
  - by eapply authorize_status.
  - pose proof (authorize_untouched io method headers s) as H. by rewrite Ha in H.
Qed.

(** ** Runs of the server *)

Inductive ServerStep : Type :=
| Request (io : HandlerIo) (r : HttpRequest)
| TurnEvent (turn_id : string) (payload : json)
| TurnEnd (now : Z) (turn_id : string) (execution : TurnExecution).

Definition run_step (st : ServerStep) (s : State) : State :=
  match st with
  | Request io r => (serve io r s).2
  | TurnEvent turn_id payload => (forward_turn_event turn_id payload s).2
  | TurnEnd now turn_id execution => (finish_turn now turn_id execution s).2
  end.

(** The steps so far, each with the state it met, and the state they reached. *)
Inductive server_runs (s0 : State) : list (State * ServerStep) -> State -> Prop :=
| runs_start : server_runs s0 [] s0
| runs_step h s st : server_runs s0 h s -> server_runs s0 (h ++ [(s, st)]) (run_step st s).

Definition connections (s : State) : gmap string ControlPlaneConnectionRecord :=
  cg_connections (hs_connection_registry s).
Definition devices (s : State) : gmap string ControlPlaneApprovedDeviceRecord :=
  pg_approved_devices (ps_registry (hs_pairing s)).

(** The history of a list of steps and the state it ends in. *)
Definition server_trace (steps : list ServerStep) (s0 : State) : list (State * ServerStep) * State :=
  foldl (fun p st => (p.1 ++ [(p.2, st)], run_step st p.2)) ([], s0) steps.

Lemma server_trace_runs steps s0 : server_runs s0 (server_trace steps s0).1 (server_trace steps s0).2.
Proof.
  unfold server_trace.
  enough (forall p : list (State * ServerStep) * State, server_runs s0 p.1 p.2 ->
    server_runs s0 (foldl (fun p st => (p.1 ++ [(p.2, st)], run_step st p.2)) p steps).1
      (foldl (fun p st => (p.1 ++ [(p.2, st)], run_step st p.2)) p steps).2) as H by (apply H; constructor).
  induction steps as [|st steps IH]; intros [h s] Hs; [done|]. apply IH. by constructor.
Qed.

(** The steps that neither connect nor approve a device leave the leases and the
    devices alone, but for leases that go. *)
Definition quiet (c0 : gmap string ControlPlaneConnectionRecord)
    (d0 : gmap string ControlPlaneApprovedDeviceRecord) (s : State) : Prop :=
  connections s ⊆ c0 /\ devices s = d0.

Lemma quiet_authorize c0 d0 io method headers : preserves (quiet c0 d0) (authorize io method headers).
Proof.
  intros s [Hc Hd]. destruct (authorize_untouched io method headers s).
  unfold quiet, connections, devices in *. split; [by etrans|congruence].
Qed.

Lemma quiet_manager {A} c0 d0 (m : CPM A) : preserves (quiet c0 d0) (on_manager m).
Proof. by apply preserves_zoom. Qed.

Lemma quiet_challenges {A} c0 d0 (m : M ControlPlaneChallengeRegistry A) :
  preserves (quiet c0 d0) (on_challenges m).
Proof. by apply preserves_zoom. Qed.

Lemma quiet_authority {A} c0 d0 (m : M ControlPlaneKernelAuthority A) :
  preserves (quiet c0 d0) (on_authority m).
Proof. by apply preserves_zoom. Qed.

Lemma quiet_turns {A} c0 d0 rt (m : CTR A) : preserves (quiet c0 d0) (on_turns rt m).
Proof. intros s Hs. unfold on_turns. by destruct (m _). Qed.

Lemma quiet_counter c0 d0 n : preserves (quiet c0 d0) (modify (hs_set_counter n)).
Proof. by intros s Hs. Qed.

Lemma quiet_get c0 d0 : preserves (quiet c0 d0) get.
Proof. by intros s Hs. Qed.

Lemma quiet_evaluate c0 d0 now random io d cl k r sc tok :
  preserves (quiet c0 d0)
    (on_pairing (ControlPlanePairingRegistry_evaluate_connect now random io d cl k r sc tok)).
Proof.
  intros s [Hc Hd]. unfold on_pairing, zoom.
  pose proof (evaluate_connect_outcome now random io d cl k r sc tok (hs_pairing s)) as H. simpl in H.
  destruct (ControlPlanePairingRegistry_evaluate_connect _ _ _ _ _ _ _ _ _ _) as [a p]. simpl in H.
  split; [done|]. unfold devices in *. simpl. by destruct H as [| | |e s' ->|s' ? ? ->].
Qed.

Hint Resolve quiet_authorize quiet_manager quiet_challenges quiet_authority quiet_turns quiet_counter
  quiet_get quiet_evaluate : rust.

Ltac quiet_step :=
  lazymatch goal with
  | |- preserves _ (bind _ _) => apply preserves_bind
  | |- preserves _ (try_bind _ _) => apply preserves_try_bind
  | |- preserves _ (try_map_err _ _) => apply preserves_try_map_err
  | |- forall _, _ => intros ?
  | |- preserves _ (match ?x with _ => _ end) => destruct x
  | |- _ => solve [auto with rust]
  end.

Lemma quiet_snapshot_response c0 d0 io body : preserves (quiet c0 d0) (snapshot_response io body).
Proof. unfold snapshot_response, current_snapshot. repeat quiet_step. Qed.

Lemma quiet_visible c0 d0 io id : preserves (quiet c0 d0) (ensure_turn_session_visible io id).
Proof. unfold ensure_turn_session_visible. repeat quiet_step. Qed.

Lemma quiet_visible_turn c0 d0 io rt id : preserves (quiet c0 d0) (visible_turn io rt id).
Proof. unfold visible_turn. repeat (quiet_step || apply quiet_visible). Qed.

Hint Resolve quiet_snapshot_response quiet_visible quiet_visible_turn : rust.

Definition changes_trust (r : HttpRequest) : bool :=
  match r with PostConnect _ | PostPairingResolve _ _ _ => true | _ => false end.

Lemma quiet_serve c0 d0 io r :
  changes_trust r = false -> preserves (quiet c0 d0) (serve io r).
Proof.
  intros Hr. destruct r; try discriminate Hr; cbn [ControlHandlers.serve]; clear Hr;
    unfold readyz, healthz, control_challenge, control_ping, control_subscribe, control_snapshot,
      control_events, session_list, session_read, task_list, task_read, turn_submit, turn_result,
      turn_stream, approval_list, pairing_list, acp_session_list, acp_session_read, view_handler,
      with_turn_runtime, responding;
    repeat quiet_step.
Qed.

Lemma quiet_turn_event c0 d0 turn_id payload :
  preserves (quiet c0 d0) (forward_turn_event turn_id payload).
Proof. unfold forward_turn_event. repeat quiet_step. Qed.

Lemma quiet_turn_end c0 d0 now turn_id execution :
  preserves (quiet c0 d0) (finish_turn now turn_id execution).
Proof. unfold finish_turn. repeat quiet_step. Qed.

(** *** Who may connect *)

(** An operator approved the pairing request this device record comes from. *)
Definition operator_approved (h : list (State * ServerStep)) (a : ControlPlaneApprovedDeviceRecord)
  : Prop :=
  exists s io headers id lease request,
    (s, Request io (PostPairingResolve headers id true)) ∈ h /\
    authorized s io ControlPairing headers lease /\
    pg_requests (ps_registry (hs_pairing s)) !! trim id = Some request /\
    pq_status request = PairingPending /\
    ad_device_id a = pq_device_id request /\ ad_public_key a = pq_public_key request /\
    ad_role a = pq_role request /\ ad_approved_scopes a = pq_requested_scopes request.

(** The device of a connect proved possession of its key on a challenge of the
    server that was outstanding. *)
Record device_proved (s : State) (io : HandlerIo) (request : ControlPlaneConnectRequest)
    (device : ControlPlaneDeviceIdentity) : Prop := {
  dp_challenge : exists challenge,
    hg_challenges (hs_challenge_registry s) !! trim (di_nonce device) = Some challenge /\
    (hio_consume_ms io < ch_expires_at_ms challenge)%Z /\
    signed_in_window challenge (di_signed_at_ms device) (hio_verify_ms io) = true;
  dp_signature : verify_device_signature request device = Ok tt;
}.

(** ... and presented the token of an approval that covers what it asks for. *)
Definition device_approved (s : State) (request : ControlPlaneConnectRequest)
    (device : ControlPlaneDeviceIdentity) (a : ControlPlaneApprovedDeviceRecord) : Prop :=
  devices s !! trim (di_device_id device) = Some a /\
  ad_public_key a = trim (di_public_key device) /\
  ad_role a = ControlPlaneRole_as_str (rq_role request) /\
  (forall scope, scope ∈ rq_scopes request -> ControlPlaneScope_as_str scope ∈ ad_approved_scopes a) /\
  exists token, presented_token (auth ← rq_auth request; ac_device_token auth) = Some token /\
    hash_control_plane_device_token token = ad_token_hash a.

(** A connect was admitted: on a loopback server anyone, remotely who presents the
    shared token, and with a device only after its proof and its approval. *)
Definition admitted (s0 : State) (h : list (State * ServerStep)) (s : State) (io : HandlerIo)
    (request : ControlPlaneConnectRequest) : Prop :=
  match rq_device request with
  | None =>
      ex_loopback (hs_exposure_policy s) = true \/
      (exists token, ex_shared_token (hs_exposure_policy s) = Some token /\
                     presented_shared_token request = Some token)
  | Some device =>
      device_proved s io request device /\
      exists a, device_approved s request device a /\
        (devices s0 !! trim (di_device_id device) = Some a \/ operator_approved h a)
  end.

Lemma trim_role r : trim (ControlPlaneRole_as_str r) = ControlPlaneRole_as_str r.
Proof. by destruct r. Qed.

Lemma trim_scope c : trim (ControlPlaneScope_as_str c) = ControlPlaneScope_as_str c.
Proof. by destruct c. Qed.

Lemma scope_trimmed (scopes : gset ControlPlaneScope) c :
  c ∈ scopes -> ControlPlaneScope_as_str c ∈ trimmed_set (list_to_set (scope_names scopes)).
Proof.
  intros Hc. unfold trimmed_set, scope_names. apply elem_of_list_to_set, list_elem_of_filter.
  split; [by destruct c|]. apply list_elem_of_fmap. exists (ControlPlaneScope_as_str c).
  split; [by rewrite trim_scope|]. apply elem_of_btree_set_iter, elem_of_list_to_set, list_elem_of_fmap.
  exists c. by rewrite elem_of_btree_set_iter.
Qed.

Lemma consume_found now nonce g ch g' :
  ControlPlaneChallengeRegistry_consume now nonce g = (Returned (Ok (Some ch)), g') ->
  hg_challenges g !! trim nonce = Some ch /\ (now < ch_expires_at_ms ch)%Z.
Proof.
  unfold ControlPlaneChallengeRegistry_consume. destruct (str_is_empty _); [done|].
  intros [= Hf _]. by apply map_lookup_filter_Some in Hf.
Qed.

Lemma challenge_checked consume_ms now_ms request device (s : State) u s' io :
  hio_consume_ms io = consume_ms -> hio_verify_ms io = now_ms -> rq_device request = Some device ->
  verify_connect_device_challenge consume_ms now_ms request s = (Returned (Ok u), s') ->
  device_proved s io request device /\ hs_pairing s' = hs_pairing s.
Proof.
  intros <- <- Hd. unfold verify_connect_device_challenge. rewrite Hd.
  intros (found & s1 & Hf%try_map_err_ok & H)%try_bind_ok.
  apply zoom_returned in Hf as (g & Hg & ->). destruct found as [ch|]; [|by rust_inv].
  apply consume_found in Hg as [Hl Ht].
  destruct (negb _) eqn:Hw; [by rust_inv|]. apply negb_false_iff in Hw.
  unfold ret in H. destruct (verify_device_signature _ _) as [[]|] eqn:Hv; [|done].
  simplify_eq. split; [|done]. split; [|done]. by exists ch.
Qed.

Lemma pairing_checked io request device (s : State) u s' :
  rq_device request = Some device ->
  connect_pairing io request s = (Returned (Ok u), s') ->
  exists a, device_approved s request device a.
Proof.
  intros Hd. unfold connect_pairing. rewrite Hd.
  intros (decision & s1 & Hf%try_map_err_ok & H)%try_bind_ok.
  apply zoom_returned in Hf as (p & Hp & ->).
  destruct decision as [|q c| |]; [| |by rust_inv|by rust_inv].
  2: { apply bind_returned in H as (? & ? & _ & H). by rust_inv. }
  pose proof (evaluate_connect_outcome (hio_now_ms io) (hio_random io) (hio_pairing io)
    (di_device_id device) (ci_id (rq_client request)) (di_public_key device)
    (ControlPlaneRole_as_str (rq_role request)) (list_to_set (scope_names (rq_scopes request)))
    (auth ← rq_auth request; ac_device_token auth) (hs_pairing s)) as Ho.
  cbv zeta in Ho. rewrite Hp in Ho. simpl in Ho. inversion Ho as [|a Ha Heq| | |]; subst. exists a.
  apply connectable_device_spec in Ha as (Hl & Hk & Hr & Hsc). rewrite trim_role in Hr.
  split_and!; try done; [intros; by apply Hsc, scope_trimmed|].
  match goal with H : token_decision _ _ = _ |- _ => revert H end. unfold token_decision.
  destruct (presented_token _) as [t|]; [|done]. case_bool_decide; [|done]. by exists t.
Qed.

Lemma connect_checks_policy p io request :
  preserves (fun s : State => hs_exposure_policy s = p) (connect_checks io request).
Proof.
  unfold connect_checks, verify_connect_device_challenge, connect_pairing, on_challenges, on_pairing,
    on_manager.
  repeat (by apply preserves_zoom) || quiet_step.
Qed.

Lemma connect_checks_ok s0 h io request (s : State) u s' :
  (forall d a, devices s !! d = Some a -> devices s0 !! d = Some a \/ operator_approved h a) ->
  connect_checks io request s = (Returned (Ok u), s') ->
  admitted s0 h s io request.
Proof.
  intros Hdev. unfold connect_checks. intros (? & s1 & H1 & H)%try_bind_ok. unfold ret in H1.
  simplify_eq. apply bind_returned in H as (policy & s2 & H2 & H). unfold gets in H2. simplify_eq.
  apply try_bind_ok in H as (? & s3 & H3 & (u3 & s4 & H4 & H5)%try_bind_ok). unfold ret in H3.
  simplify_eq. unfold admitted. destruct (rq_device request) as [device|] eqn:Hd.
  - apply (challenge_checked _ _ _ device _ _ _ io) in H4 as [Hproof Hpair]; [|done..].
    apply (pairing_checked _ _ device) in H5 as [a Ha]; [|done]. unfold device_approved, devices in Ha.
    rewrite Hpair in Ha. split; [done|]. exists a. split; [done|]. apply Hdev, Ha.
  - unfold verify_connect_device_challenge, connect_pairing in H4, H5. rewrite Hd in H4, H5.
    unfold ret in H4, H5. simplify_eq.
    unfold verify_remote_connect_bootstrap_auth, ControlPlaneExposurePolicy_requires_remote_auth in *.
    destruct (ex_loopback _); [by left|right]. simpl in *. rewrite Hd in *. simpl in *.
    destruct (ex_shared_token _) as [t|]; [|done]. exists t. split; [done|].
    destruct (presented_shared_token request) as [t'|]; [|done]. simpl in *. case_bool_decide; [congruence|done].
Qed.

(** *** Leases *)

(** The entry a connect adds. *)
Definition connect_record (s : State) (io : HandlerIo) (request : ControlPlaneConnectRequest) (id : string)
  : ControlPlaneConnectionRecord := {|
  cr_principal := connection_principal_from_connect request id
                    (granted_connect_scopes (hs_exposure_policy s) request);
  cr_issued_at_ms := hio_now_ms io;
  cr_expires_at_ms := u64_saturating_add (hio_now_ms io) CONTROL_PLANE_CONNECTION_TTL_MS |}.

Lemma quiet_revoke c0 d0 token :
  preserves (quiet c0 d0) (on_connections (ControlPlaneConnectionRegistry_revoke token)).
Proof.
  intros s [Hc Hd]. unfold on_connections, zoom, ControlPlaneConnectionRegistry_revoke.
  destruct (str_is_empty _); [done|]. split; [|done]. unfold connections in *. simpl.
  etrans; [apply delete_subseteq|done].
Qed.
Hint Resolve quiet_revoke : rust.

Lemma lease_connections io request (s : State) :
  exists token id,
    quiet (<[token := connect_record s io request id]> (connections s)) (devices s)
      (connect_lease io request s).2.
Proof.
  unfold connect_lease.
  set (id := "cp-" +:+ fmt_016x (u64_wrapping_add (hs_connection_counter s) 1)).
  exists (control_plane_id "cpt-" (u64_wrapping_add (cg_nonce (hs_connection_registry s)) 1) (hio_random io)), id.
  unfold bind at 1, gets at 1. unfold bind at 1, modify at 1. unfold bind at 1, gets at 1.
  unfold bind at 1. unfold on_connections at 1, zoom at 1.
  unfold ControlPlaneConnectionRegistry_issue, ControlPlaneConnectionRegistry_issue_with_ttl_ms.
  cbn [hs_connection_registry hs_set_counter hs_exposure_policy].
  match goal with |- quiet ?c ?d (?m ?s1).2 => enough (preserves (quiet c d) m) as Hm; [apply Hm|] end.
  - by split.
  - repeat quiet_step.
Qed.

Lemma quiet_checks c0 d0 io request : preserves (quiet c0 d0) (connect_checks io request).
Proof.
  unfold connect_checks, verify_connect_device_challenge, connect_pairing. repeat quiet_step.
Qed.

(** The state after a computation that stops at an error. *)
Lemma try_bind_state {S A B E} (m : M S (result A E)) (k : A -> M S (result B E)) s :
  (try_bind m k s).2 = match m s with (Returned (Ok a), s1) => (k a s1).2 | (_, s1) => s1 end.
Proof. unfold try_bind, bind. by destruct (m s) as [[[a|e]|p] s1]. Qed.

Lemma responding_state (m : HM (result Response Response)) s : (responding m s).2 = (m s).2.
Proof. unfold responding, bind. by destruct (m s) as [[a|p] s1]. Qed.

Lemma connect_step io request (s : State) :
  quiet (connections s) (devices s) (control_connect io request s).2 \/
  exists u s1 token id, connect_checks io request s = (Returned (Ok u), s1) /\
    quiet (<[token := connect_record s io request id]> (connections s)) (devices s)
      (control_connect io request s).2.
Proof.
  unfold control_connect. rewrite responding_state, try_bind_state.
  pose proof (quiet_checks (connections s) (devices s) io request s) as Hq.
  pose proof (connect_checks_policy _ io request s eq_refl) as Hp.
  destruct (connect_checks io request s) as [[[u|e]|p] s1]; [|left; by apply Hq..]. right.
  destruct Hq as [Hc Hd]; [done|]. simpl in Hp, Hc, Hd.
  destruct (lease_connections io request s1) as (token & id & Hl).
  exists u, s1, token, id. split; [done|].
  assert (connect_record s1 io request id = connect_record s io request id) as Hr
    by (unfold connect_record; by rewrite Hp).
  rewrite Hr, Hd in Hl.
  assert (forall s2, quiet (<[token:=connect_record s io request id]> (connections s1)) (devices s) s2 ->
    quiet (<[token:=connect_record s io request id]> (connections s)) (devices s) s2) as Hmono.
  { intros s2 [H1 H2]. split; [|done]. etrans; [done|]. by apply insert_mono. }
  apply Hmono in Hl. rewrite try_bind_state.
  destruct (connect_lease io request s1) as [[[g|e]|p] s2]; [|done..].
  match goal with |- quiet ?c ?d (?m s2).2 => enough (preserves (quiet c d) m) as Hm; [by apply Hm|] end.
  unfold current_snapshot. repeat quiet_step.
Qed.

(** *** Approvals *)

Lemma resolve_step io headers id approve (s : State) :
  connections (serve io (PostPairingResolve headers id approve) s).2 ⊆ connections s /\
  forall d a, devices (serve io (PostPairingResolve headers id approve) s).2 !! d = Some a ->
    devices s !! d = Some a \/ operator_approved [(s, Request io (PostPairingResolve headers id approve))] a.
Proof.
  cbn [ControlHandlers.serve]. unfold bind at 1 2.
  assert (Hst : forall m : HM Response,
    (let (o, s') := m s in match o with Returned a => ret (Some a) s' | Panicked p => (Panicked p, s') end).2
    = (m s).2) by (intros m; by destruct (m s) as [[] ?]).
  rewrite Hst. unfold pairing_resolve. rewrite responding_state, try_bind_state.
  pose proof (quiet_authorize (connections s) (devices s) io "pairing/resolve" headers s) as Hq.
  pose proof (authorize_untouched io "pairing/resolve" headers s) as Hu.
  destruct (authorize io "pairing/resolve" headers s) as [[[lease|e]|p] s1] eqn:Ha; simpl in *.
  2-3: destruct Hq as [Hc ->]; [done|]; split; [done|by left].
  apply (authorize_inv (PostPairingResolve headers id approve) _ ControlPairing) in Ha; [|done].
  destruct Hq as [Hc Hd]; [done|].
  match goal with |- context [(?m s1).2] => assert (quiet (connections s1)
    (pg_approved_devices (ps_registry (ControlPlanePairingRegistry_resolve_request (hio_now_ms io)
       (hio_random io) (hio_random2 io) (hio_pairing io) id approve (hs_pairing s1)).2)) (m s1).2) as Hm end.
  { rewrite try_bind_state. unfold try_map_err, bind at 1, on_pairing, zoom.
    destruct (ControlPlanePairingRegistry_resolve_request _ _ _ _ _ _ _) as [o p].
    destruct o as [[[record|]|e]|pl]; [|by split..]. cbn beta iota delta [ret map_err].
    match goal with |- quiet ?c ?d (?m _).2 => enough (preserves (quiet c d) m) as Hk; [by apply Hk|] end.
    repeat quiet_step. }
  destruct Hm as [Hm1 Hm2]. split; [by etrans|]. intros d a. rewrite Hm2.
  pose proof (resolve_request_outcome (hio_now_ms io) (hio_random io) (hio_random2 io) (hio_pairing io) id
    approve (hs_pairing s1)) as Ho. cbv zeta in Ho. rewrite <- Hd. unfold devices.
  destruct Ho as [e| |record Hr Hst'|e s' n Hs' Hn|record s' -> Hr Hst' n tid tok upd Hs'|record s' -> Hr Hst' upd Hs'];
    try (by left); try (rewrite Hs'; by left).
  rewrite Hs'. simpl. rewrite lookup_insert_Some. intros [[<- <-]|[_ H]]; [right|by left].
  rewrite (un_pairing _ _ _ _ Hu) in Hr.
  exists s, io, headers, id, lease, record. split_and!; try done. by apply list_elem_of_singleton.
Qed.

(** *** Where leases and devices come from *)

Record server_inv (s0 : State) (h : list (State * ServerStep)) (s : State) : Prop := {
  sv_leases : forall token rec, connections s !! token = Some rec ->
    exists i sc io request id, h !! i = Some (sc, Request io (PostConnect request)) /\
      admitted s0 (take i h) sc io request /\ rec = connect_record sc io request id;
  sv_devices : forall d a, devices s !! d = Some a -> devices s0 !! d = Some a \/ operator_approved h a;
}.

Lemma operator_approved_app h h' a :
  operator_approved h a \/ operator_approved h' a -> operator_approved (h ++ h') a.
Proof.
  intros [H|H]; destruct H as (s & io & hs & id & l & q & Hin & H);
    exists s, io, hs, id, l, q; (split; [set_solver|done]).
Qed.

Lemma leases_app s0 h x (m : gmap string ControlPlaneConnectionRecord) token rec :
  (forall token rec, m !! token = Some rec ->
    exists i sc io request id, h !! i = Some (sc, Request io (PostConnect request)) /\
      admitted s0 (take i h) sc io request /\ rec = connect_record sc io request id) ->
  m !! token = Some rec ->
  exists i sc io request id, (h ++ [x]) !! i = Some (sc, Request io (PostConnect request)) /\
      admitted s0 (take i (h ++ [x])) sc io request /\ rec = connect_record sc io request id.
Proof.
  intros Hm (i & sc & io & q & id & Hi & Ha & Hr)%Hm. exists i, sc, io, q, id.
  pose proof (lookup_lt_Some _ _ _ Hi). rewrite lookup_app_l, take_app_le by lia. done.
Qed.

Lemma quiet_inv s0 h s x s' :
  server_inv s0 h s -> quiet (connections s) (devices s) s' -> server_inv s0 (h ++ [x]) s'.
Proof.
  intros [Hl Hd] [Hc He]. split.
  - intros token rec Ht. eapply leases_app; [exact Hl|]. by eapply lookup_weaken.
  - rewrite He. intros d a [H|H]%Hd; [by left|right]. apply operator_approved_app. by left.
Qed.

Lemma run_step_inv s0 h s st : server_inv s0 h s -> server_inv s0 (h ++ [(s, st)]) (run_step st s).
Proof.
  intros Hi. destruct st as [io r|turn payload|now turn execution]; cbn [run_step].
  2: { apply (quiet_inv _ _ s); [done|]. by apply quiet_turn_event. }
  2: { apply (quiet_inv _ _ s); [done|]. by apply quiet_turn_end. }
  destruct (changes_trust r) eqn:Hr; [|apply (quiet_inv _ _ s); [done|]; by apply quiet_serve].
  destruct r as [| | | |request| | | | | | | | | | | | |headers id approve| |]; try discriminate Hr.
  - assert (Hst : (serve io (PostConnect request) s).2 = (control_connect io request s).2).
    { cbn [ControlHandlers.serve]. unfold bind. by destruct (control_connect io request s) as [[] ?]. }
    rewrite Hst. destruct (connect_step io request s) as [Hq|(u & s1 & token & id & Hck & Hc & Hd)];
      [by apply (quiet_inv _ _ s)|].
    apply (connect_checks_ok s0 h) in Hck; [|apply Hi]. destruct Hi as [Hl Hdev]. split.
    + intros t rec Ht. apply (lookup_weaken _ _ _ _ Ht) in Hc.
      apply lookup_insert_Some in Hc as [[<- <-]|[_ Hc]]; [|by eapply leases_app].
      exists (length h), s, io, request, id. rewrite take_app_length.
      by rewrite list_lookup_middle.
    + rewrite Hd. intros d a [H|H]%Hdev; [by left|right]. apply operator_approved_app. by left.
  - destruct (resolve_step io headers id approve s) as [Hc Hd]. destruct Hi as [Hl Hdev]. split.
    + intros token rec Ht. eapply leases_app; [exact Hl|]. by eapply lookup_weaken.
    + intros d a [H|H]%Hd; [apply Hdev in H as [H|H]; [by left|]|]; right; apply operator_approved_app; auto.
Qed.

Lemma server_runs_inv s0 h s :
  connections s0 = ∅ -> server_runs s0 h s -> server_inv s0 h s.
Proof.
  intros Hs0. induction 1 as [|h s st _ IH]; [|by apply run_step_inv].
  split; [|by left]. rewrite Hs0. intros token rec. by rewrite lookup_empty.
Qed.

Lemma bootstrap_capabilities c :
  granted_capability CONTROL_PLANE_REMOTE_BOOTSTRAP_SCOPES c -> c = ControlRead \/ c = ControlPairing.
Proof.
  unfold granted_capability, CONTROL_PLANE_REMOTE_BOOTSTRAP_SCOPES. intros (scope & Hs & Hc).
  apply elem_of_union in Hs as [Hs|Hs]; apply elem_of_singleton in Hs as ->; simpl in Hc; set_solver.
Qed.

(** C16 (safety). On a server that starts with no connection,
    a request on a protected route that is not refused carries the token of a lease
    that is still live, and that lease was issued by an earlier connect of this run:
    by anyone on a loopback server; remotely by who presented the shared token; with
    a device only when it signed a challenge outstanding then, and presented the
    token of an approval for its key, role and scopes which the server started with
    or which an operator, itself authorized for pairing, gave earlier in the run.
    The connect was an operator's, its scopes grant the route's capability, and the
    kernel accepted the token it holds for that lease for this capability.  Without
    a device a remote connect reaches only the reading and the pairing routes. *)
Theorem control_plane_mediation s0 h s io r method cap headers response s' :
  connections s0 = ∅ -> server_runs s0 h s ->
  protected_route r = Some (method, cap, headers) ->
  serve io r s = (Returned (Some response), s') -> (rs_status response < 400)%Z ->
  exists i sc cio request id token,
    h !! i = Some (sc, Request cio (PostConnect request)) /\
    admitted s0 (take i h) sc cio request /\
    extract_connection_token headers = Some token /\
    connections s !! trim token = Some (connect_record sc cio request id) /\
    (hio_resolve_ms io < u64_saturating_add (hio_now_ms cio) CONTROL_PLANE_CONNECTION_TTL_MS)%Z /\
    rq_role request = RoleOperator /\
    granted_capability (granted_connect_scopes (hs_exposure_policy sc) request) cap /\
    (ex_loopback (hs_exposure_policy sc) = false -> rq_device request = None ->
     cap = ControlRead \/ cap = ControlPairing) /\
    exists kt, ka_token_bindings (hs_kernel_authority s) !! trim token = Some kt /\
      kernel_accepts (ka_kernel (hs_kernel_authority s)) kt cap.
Proof.
  intros Hs0 Hrun Hr Hs Hok. pose proof (server_runs_inv s0 h s Hs0 Hrun) as [Hl _].
  destruct (serve_allowed _ _ _ _ _ _ _ _ Hr Hs) as [(lease & s1 & Ha)|Ha].
  2: { apply authorize_status in Ha. rewrite !elem_of_cons, elem_of_nil in Ha. lia. }
  apply (authorize_inv r _ cap) in Ha as [(t & Ht & Htok) (rec & Hrec & Hlease) Hfresh Hrole Hcap Hk]; [|done].
  destruct (Hl _ _ Hrec) as (i & sc & cio & request & id & Hi & Hadm & ->).
  exists i, sc, cio, request, id, t. rewrite Htok in *. rewrite Hlease in Hfresh, Hrole, Hcap. simpl in *.
  apply lease_capabilities in Hcap. apply role_operator in Hrole.
  split_and!; try done. intros Hloop Hdev. apply bootstrap_capabilities.
  destruct Hcap as (scope & Hsc & Hc). exists scope. split; [|done]. revert Hsc.
  unfold granted_connect_scopes, ControlPlaneExposurePolicy_requires_remote_auth. rewrite Hloop, Hdev.
  simpl. set_solver.
Qed.
End facts.
