(* ===== verification/Provider.v ===== *)
(** * Model providers

    What the files of [crates/app/src/provider] share: [failover.rs] (reasons,
    snapshots and the errors of a model request), [rate_limit.rs] (what an observation
    says of a cooldown; the parsing of headers is not modelled), [provider_keyspace.rs]
    and the data of [auth_profile_runtime.rs].  An [Instant] and a [Duration] are
    nanoseconds.  The hash of a key is a parameter.  Then the shape of the three
    bounded caches of the layer, with its specification. *)

From Stdlib Require Import Ascii.
From stdpp Require Import gmap sorting.
From S2P Require Import Prelude RustStr Json.

(** ** Time *)

Definition NANOS_PER_SEC : Z := 1000000000.
Definition NANOS_PER_MILLI : Z := 1000000.

(** [Duration::MAX], and the last and first [Instant] ([i64] seconds). *)
Definition DURATION_MAX : Z := (u64_max + 1) * NANOS_PER_SEC - 1.
Definition INSTANT_MAX : Z := 2 ^ 63 * NANOS_PER_SEC - 1.
Definition INSTANT_MIN : Z := - 2 ^ 63 * NANOS_PER_SEC.

Definition Duration_from_millis (ms : Z) : Z := ms * NANOS_PER_MILLI.
Definition Duration_saturating_mul (d k : Z) : Z := Z.min (d * k) DURATION_MAX.

(** [as_millis() as u64]. *)
Definition Duration_as_millis_u64 (d : Z) : Z := (d / NANOS_PER_MILLI) mod u64_modulus.

Definition Instant_checked_add (t d : Z) : option Z :=
  if (t + d <=? INSTANT_MAX)%Z then Some (t + d)%Z else None.
Definition Instant_checked_sub (t d : Z) : option Z :=
  if (INSTANT_MIN <=? t - d)%Z then Some (t - d)%Z else None.

(** [saturating_add(1)] on a [u32]. *)
Definition u32_saturating_succ (n : Z) : Z := Z.min (n + 1) (2 ^ 32 - 1).

(** ** Reasons *)

Inductive ProviderFailoverReason : Type :=
| ModelMismatch | RateLimited | ProviderOverloaded | AuthRejected | PayloadIncompatible
| TransportFailure | ResponseDecodeFailure | ResponseShapeInvalid | RequestRejected.

#[export] Instance ProviderFailoverReason_eq_dec : EqDecision ProviderFailoverReason.
Proof. solve_decision. Defined.

Definition ProviderFailoverReason_as_str (r : ProviderFailoverReason) : string :=
  match r with
  | ModelMismatch => "model_mismatch"
  | RateLimited => "rate_limited"
  | ProviderOverloaded => "provider_overloaded"
  | AuthRejected => "auth_rejected"
  | PayloadIncompatible => "payload_incompatible"
  | TransportFailure => "transport_failure"
  | ResponseDecodeFailure => "response_decode_failure"
  | ResponseShapeInvalid => "response_shape_invalid"
  | RequestRejected => "request_rejected"
  end.

Definition ProviderFailoverReason_from_str (raw : string) : option ProviderFailoverReason :=
  if decide (raw = "model_mismatch") then Some ModelMismatch else
  if decide (raw = "rate_limited") then Some RateLimited else
  if decide (raw = "provider_overloaded") then Some ProviderOverloaded else
  if decide (raw = "auth_rejected") then Some AuthRejected else
  if decide (raw = "payload_incompatible") then Some PayloadIncompatible else
  if decide (raw = "transport_failure") then Some TransportFailure else
  if decide (raw = "response_decode_failure") then Some ResponseDecodeFailure else
  if decide (raw = "response_shape_invalid") then Some ResponseShapeInvalid else
  if decide (raw = "request_rejected") then Some RequestRejected else None.

Inductive ProviderFailoverStage : Type :=
| StageStatusFailure | StageTransportFailure | StageResponseDecode | StageResponseShapeInvalid
| StageModelCandidateRejected.

Definition ProviderFailoverStage_as_str (s : ProviderFailoverStage) : string :=
  match s with
  | StageStatusFailure => "status_failure"
  | StageTransportFailure => "transport_failure"
  | StageResponseDecode => "response_decode"
  | StageResponseShapeInvalid => "response_shape_invalid"
  | StageModelCandidateRejected => "model_candidate_rejected"
  end.

Definition ProviderFailoverStage_from_str (raw : string) : option ProviderFailoverStage :=
  if decide (raw = "status_failure") then Some StageStatusFailure else
  if decide (raw = "transport_failure") then Some StageTransportFailure else
  if decide (raw = "response_decode") then Some StageResponseDecode else
  if decide (raw = "response_shape_invalid") then Some StageResponseShapeInvalid else
  if decide (raw = "model_candidate_rejected") then Some StageModelCandidateRejected else None.

(** ** Errors of a model request *)

Record ProviderFailoverSnapshot : Type := {
  fs_reason : ProviderFailoverReason;
  fs_stage : ProviderFailoverStage;
  fs_model : string;
  fs_attempt : Z;
  fs_max_attempts : Z;
  fs_status_code : option Z;
}.

Definition ProviderFailoverSnapshot_to_json_value (s : ProviderFailoverSnapshot) : json :=
  json_obj ([("reason", JString (ProviderFailoverReason_as_str (fs_reason s)));
             ("stage", JString (ProviderFailoverStage_as_str (fs_stage s)));
             ("model", JString (fs_model s));
             ("attempt", json_usize (fs_attempt s));
             ("max_attempts", json_usize (fs_max_attempts s))] ++
            match fs_status_code s with
            | Some code => [("status_code", JNumber (PosInt code))]
            | None => []
            end).

Definition snapshot_key (key : string) : bool :=
  bool_decide (key ∈ ["reason"; "stage"; "model"; "attempt"; "max_attempts"; "status_code"]).

Definition validate_provider_failover_snapshot_payload (payload : json) : option json :=
  fields ← json_as_object payload;
  let has_status := bool_decide (is_Some (fields_get "status_code" fields)) in
  let expected := if has_status then 6 else 5 in
  if negb (Nat.eqb (length fields) expected) then None else
  if negb (forallb (fun f => snapshot_key f.1) fields) then None else
  reason ← (v ← fields_get "reason" fields; json_as_str v);
  _ ← ProviderFailoverReason_from_str reason;
  stage ← (v ← fields_get "stage" fields; json_as_str v);
  _ ← ProviderFailoverStage_from_str stage;
  _ ← (v ← fields_get "model" fields; json_as_str v);
  _ ← (v ← fields_get "attempt" fields; json_as_u64 v);
  _ ← (v ← fields_get "max_attempts" fields; json_as_u64 v);
  match fields_get "status_code" fields with
  | Some v => _ ← json_as_u64 v; Some payload
  | None => Some payload
  end.

(** ** Rate limits *)

Inductive ProviderHeaderFamily : Type := FamilyOpenAi | FamilyAnthropic | FamilyBedrock | FamilyGeneric.

Record RateLimitObservation : Type := {
  rl_requests_limit : option Z;
  rl_requests_remaining : option Z;
  rl_requests_reset : option Z;
  rl_tokens_limit : option Z;
  rl_tokens_remaining : option Z;
  rl_tokens_reset : option Z;
  rl_retry_after : option Z;
  rl_provider_family : ProviderHeaderFamily;
}.

(** [Iterator::max] over the durations there are. *)
Definition max_option (a b : option Z) : option Z :=
  match a, b with
  | Some x, Some y => Some (Z.max x y)
  | Some x, None => Some x
  | None, _ => b
  end.

Definition RateLimitObservation_cooldown_hint (o : RateLimitObservation) : option Z :=
  max_option (max_option (rl_retry_after o) (rl_requests_reset o)) (rl_tokens_reset o).

(** [build_model_request_error] passes no [rate_limit]; [api_error] is not read by
    the failover. *)
Record ModelRequestError : Type := {
  me_message : string;
  me_try_next_model : bool;
  me_reason : ProviderFailoverReason;
  me_snapshot : ProviderFailoverSnapshot;
  me_rate_limit : option RateLimitObservation;
}.

Section messages.
Context {FF : FloatFormat}.

Definition build_model_request_error_with_rate_limit (message : string) (try_next_model : bool)
    (reason : ProviderFailoverReason) (stage : ProviderFailoverStage) (model : string)
    (attempt max_attempts : Z) (status_code : option Z) (rate_limit : option RateLimitObservation)
  : ModelRequestError :=
  let snapshot := {| fs_reason := reason; fs_stage := stage; fs_model := model; fs_attempt := attempt;
                     fs_max_attempts := max_attempts; fs_status_code := status_code |} in
  {| me_message := message +:+ " | provider_failover=" +:+
                   json_to_string (ProviderFailoverSnapshot_to_json_value snapshot);
     me_try_next_model := try_next_model; me_reason := reason; me_snapshot := snapshot;
     me_rate_limit := rate_limit |}.
End messages.

(** ** Credentials and keys *)

Record ProviderAuthProfile : Type := {
  ap_id : string;
  ap_authorization_secret : option string;
  ap_api_key_secret : option string;
  ap_auth_cache_key : option string;
}.

#[export] Instance ProviderAuthProfile_eq_dec : EqDecision ProviderAuthProfile.
Proof. solve_decision. Defined.

(** [DefaultHasher] fed with strings, one after the other. *)
Class DefaultHasher : Type := hash_finish : list string -> Z.

Section keyspace.
Context {H : DefaultHasher}.

Definition build_provider_profile_state_key (namespace profile_id : string) : string :=
  namespace +:+ "::profile::" +:+
  fmt_016x (hash_finish [trim namespace; to_ascii_lowercase (trim profile_id)]).

Definition build_model_candidate_cooldown_key (namespace model : string) : string :=
  namespace +:+ "::model::" +:+
  fmt_016x (hash_finish [trim namespace; to_ascii_lowercase (trim model)]).

Definition build_provider_auth_profile_id (prefix secret : string) : string :=
  prefix +:+ ":" +:+ fmt_016x (hash_finish [prefix; secret]).

(** The headers of a request: names and, where they are text, values. *)
Definition HeaderMap : Type := list (string * option string).

Definition pair_le (p q : string * string) : Prop :=
  String.le p.1 q.1 /\ (p.1 = q.1 -> String.le p.2 q.2).
#[global] Instance pair_le_dec p q : Decision (pair_le p q).
Proof. unfold pair_le. apply _. Defined.

Definition build_provider_cache_key (prefix endpoint : string) (headers : HeaderMap)
    (auth_header : option string) : string :=
  let header_pairs := map (fun h : string * option string => (to_ascii_lowercase h.1, default "" h.2)) headers in
  let header_sig := join "|" (map (fun h : string * string => h.1 +:+ ":" +:+ h.2) (merge_sort pair_le header_pairs)) in
  prefix +:+ "::" +:+ fmt_016x (hash_finish [trim endpoint; trim (default "" auth_header); header_sig]).

Definition build_model_catalog_cache_key endpoint headers auth_header : string :=
  build_provider_cache_key "provider-model-catalog" endpoint headers auth_header.

Definition build_model_candidate_cooldown_namespace endpoint headers auth_header : string :=
  build_provider_cache_key "provider-model-candidate-cooldown" endpoint headers auth_header.

Definition build_provider_profile_state_namespace endpoint headers : string :=
  build_provider_cache_key "provider-profile-state" endpoint headers None.
End keyspace.

(** ** Bounded caches

    The provider layer keeps three caches of one shape
    ([profile_state_store.rs], [model_candidate_cooldown_runtime.rs],
    [catalog_runtime.rs]): a [HashMap] of entries, a [VecDeque] of the keys with the
    last written one at the back, entries that die with time, and a capacity kept by
    dropping keys from the front.  Here the shape is one type with the operations the
    three have in common, and its abstract specification, a list of entries in the
    order they were written ([lru_list]), which every operation refines. *)

Section lru.
Context {V : Type}.

Record Lru : Type := {
  lru_entries : gmap string V;
  lru_order : list string;
}.

Definition lru_default : Lru := {| lru_entries := ∅; lru_order := [] |}.

(** [prune_expired] and [prune_dead]: the entries that are not alive go, and the
    keys that have no entry. *)
Definition lru_retain (alive : V -> bool) (c : Lru) : Lru :=
  let entries := filter (fun kv : string * V => alive kv.2 = true) (lru_entries c) in
  {| lru_entries := entries;
     lru_order := filter (fun k => is_Some (entries !! k)) (lru_order c) |}.

(** [prune_capacity]: [while entries.len() > max_entries]. *)
Fixpoint prune_capacity_loop (max_entries : Z) (entries : gmap string V) (order : list string) : Lru :=
  if (Z.of_nat (size entries) <=? max_entries)%Z then {| lru_entries := entries; lru_order := order |}
  else match order with
       | [] => {| lru_entries := entries; lru_order := [] |}
       | evicted :: order' => prune_capacity_loop max_entries (delete evicted entries) order'
       end.

Definition prune_capacity (max_entries : Z) (c : Lru) : Lru :=
  prune_capacity_loop max_entries (lru_entries c) (lru_order c).

(** [order.retain(|existing| existing != &key); order.push_back(key)]. *)
Definition move_to_back (key : string) (order : list string) : list string :=
  filter (fun existing => existing <> key) order ++ [key].

(** The entry of a key written, the key moved to the back, the capacity kept. *)
Definition lru_put (key : string) (v : V) (max_entries : Z) (c : Lru) : Lru :=
  prune_capacity max_entries {| lru_entries := <[key := v]> (lru_entries c);
                                lru_order := move_to_back key (lru_order c) |}.

(** ** The specification *)

Definition lru_list (c : Lru) : list (string * V) :=
  omap (fun k => pair k <$> lru_entries c !! k) (lru_order c).

Definition lru_ok (c : Lru) : Prop :=
  NoDup (lru_order c) /\ forall k, k ∈ lru_order c <-> is_Some (lru_entries c !! k).

(** The last [n] elements. *)
Definition keep_last {A} (n : Z) (l : list A) : list A :=
  drop (length l - Z.to_nat n) l.

Lemma omap_cons_Some {A B} (f : A -> option B) x (l : list A) y : f x = Some y -> omap f (x :: l) = y :: omap f l.
Proof. intros E. cbn. by rewrite E. Qed.

Lemma lru_default_ok : lru_ok lru_default.
Proof.
  split; [constructor|]. intros k. simpl. rewrite lookup_empty. split; [by intros ?%not_elem_of_nil|].
  by intros [? ?].
Qed.

Lemma lru_size c : lru_ok c -> size (lru_entries c) = length (lru_order c).
Proof.
  intros [Hn Hk]. rewrite <-(size_dom (D := gset string)).
  rewrite <-(size_list_to_set (C := gset string) (lru_order c)) by done.
  f_equal. apply set_eq. intros k. rewrite elem_of_dom, elem_of_list_to_set, Hk. done.
Qed.

Lemma lru_keys c : lru_ok c -> (lru_list c).*1 = lru_order c.
Proof.
  intros [_ Hk]. unfold lru_list.
  assert (Ho : forall k, k ∈ lru_order c -> is_Some (lru_entries c !! k)) by (intros; by apply Hk).
  revert Ho. generalize (lru_order c) as o. induction o as [|k o IH]; [done|]; intros Ho.
  destruct (Ho k) as [v E]; [left|]. cbn. rewrite E. cbn. f_equal. apply IH. intros; apply Ho. by right.
Qed.

Lemma elem_of_lru_list c k v : lru_ok c -> (k, v) ∈ lru_list c <-> lru_entries c !! k = Some v.
Proof.
  intros [_ Hk]. unfold lru_list. rewrite list_elem_of_omap. split.
  - intros (k' & _ & (v' & E & [= -> ->])%fmap_Some). done.
  - intros E. exists k. split; [apply Hk; by eexists|]. by rewrite E.
Qed.

Lemma lru_retain_ok alive c : lru_ok c -> lru_ok (lru_retain alive c).
Proof.
  intros [Hn Hk]. split; simpl; [by apply NoDup_filter|].
  intros k. rewrite list_elem_of_filter, Hk. split; [by intros [? _]|]. intros H. split; [done|].
  destruct H as [v [? _]%map_lookup_filter_Some]. by eexists.
Qed.

Lemma lru_retain_list alive c :
  lru_ok c -> lru_list (lru_retain alive c) = filter (fun kv => alive kv.2 = true) (lru_list c).
Proof.
  intros [_ Hk]. unfold lru_list, lru_retain. simpl.
  assert (Ho : forall k, k ∈ lru_order c -> is_Some (lru_entries c !! k)) by (intros; by apply Hk).
  revert Ho. generalize (lru_order c) as o. induction o as [|k o IH]; [done|]; intros Ho.
  destruct (Ho k) as [v E]; [left|]. assert (IH' := IH (fun k' H => Ho k' (list_elem_of_further _ _ _ H))).
  clear IH Ho. rewrite filter_cons. rewrite (omap_cons_Some _ k o (k, v)) by by rewrite E.
  rewrite filter_cons. simpl (alive _). destruct (decide (alive v = true)) as [Ha|Ha].
  - assert (Ef : filter (fun kv : string * V => alive kv.2 = true) (lru_entries c) !! k = Some v)
      by by apply map_lookup_filter_Some.
    rewrite decide_True by by eexists. rewrite (omap_cons_Some _ k _ (k, v)) by by rewrite Ef.
    by rewrite IH'.
  - rewrite decide_False; [done|]. intros [v' [? ?]%map_lookup_filter_Some]. simpl in *. congruence.
Qed.

Lemma lru_put_unpruned_ok key v c :
  lru_ok c ->
  lru_ok {| lru_entries := <[key := v]> (lru_entries c); lru_order := move_to_back key (lru_order c) |}.
Proof.
  intros [Hn Hk]. split; simpl; unfold move_to_back.
  - apply NoDup_app. split; [by apply NoDup_filter|]. split; [|by apply NoDup_singleton].
    intros k [? _]%list_elem_of_filter ->%list_elem_of_singleton. done.
  - intros k. rewrite elem_of_app, list_elem_of_filter, list_elem_of_singleton, Hk.
    rewrite lookup_insert_is_Some. destruct (decide (k = key)) as [->|]; naive_solver.
Qed.

Lemma omap_ext_in {A B} (f g : A -> option B) (l : list A) :
  (forall x, x ∈ l -> f x = g x) -> omap f l = omap g l.
Proof.
  induction l as [|x l IH]; [done|]; intros H. cbn. rewrite (H x) by left.
  destruct (g x); [f_equal|]; apply IH; intros; apply H; by right.
Qed.

Lemma lru_put_unpruned_list key v c :
  lru_list {| lru_entries := <[key := v]> (lru_entries c); lru_order := move_to_back key (lru_order c) |} =
  filter (fun kv => kv.1 <> key) (lru_list c) ++ [(key, v)].
Proof.
  unfold lru_list, move_to_back. simpl. rewrite omap_app. cbn. rewrite lookup_insert_eq. cbn. f_equal.
  induction (lru_order c) as [|k o IH]; [done|]. rewrite filter_cons.
  destruct (lru_entries c !! k) as [w|] eqn:E.
  - rewrite (omap_cons_Some _ k o (k, w)) by by rewrite E. rewrite filter_cons. simpl (_.1).
    destruct (decide (k <> key)) as [Hk|Hk]; [|done].
    rewrite (omap_cons_Some _ k _ (k, w)) by (rewrite lookup_insert_ne by congruence; by rewrite E).
    by rewrite IH.
  - assert (Eo : omap (fun k => pair k <$> lru_entries c !! k) (k :: o) =
                 omap (fun k => pair k <$> lru_entries c !! k) o) by (cbn; by rewrite E).
    rewrite Eo. destruct (decide (k <> key)) as [Hk|Hk]; [|done]. cbn.
    rewrite lookup_insert_ne, E by congruence. apply IH.
Qed.

Lemma prune_capacity_spec max_entries c :
  lru_ok c ->
  lru_ok (prune_capacity max_entries c) /\
  lru_list (prune_capacity max_entries c) = keep_last max_entries (lru_list c).
Proof.
  unfold prune_capacity. destruct c as [entries order]. simpl. revert entries.
  induction order as [|k order IH]; intros entries Hok; cbn -[lru_list].
  - destruct (Z.leb_spec (Z.of_nat (size entries)) max_entries); split; done.
  - assert (Hs := lru_size _ Hok). simpl in Hs.
    assert (Hl : length (lru_list {| lru_entries := entries; lru_order := k :: order |}) = S (length order)).
    { rewrite <-(length_fmap fst), lru_keys by done. done. }
    unfold keep_last. rewrite Hl. destruct (Z.leb_spec (Z.of_nat (size entries)) max_entries) as [Hle|Hgt].
    + split; [done|]. replace (S (length order) - Z.to_nat max_entries) with 0 by lia. done.
    + destruct Hok as [Hn Hk]. simpl in Hn, Hk. apply NoDup_cons in Hn as [Hnk Hn].
      assert (Hok' : lru_ok {| lru_entries := delete k entries; lru_order := order |}).
      { split; simpl; [done|]. intros k'. rewrite lookup_delete_is_Some, <-Hk, elem_of_cons.
        naive_solver. }
      destruct (IH _ Hok') as [H1 H2]. split; [done|]. rewrite H2. unfold keep_last.
      assert (El : lru_list {| lru_entries := delete k entries; lru_order := order |} =
                   drop 1 (lru_list {| lru_entries := entries; lru_order := k :: order |})).
      { unfold lru_list. simpl. destruct (proj1 (Hk k)) as [v E]; [by left|]. cbn. rewrite E. cbn.
        apply omap_ext_in. intros k' Hk'. rewrite lookup_delete_ne by set_solver. done. }
      rewrite El, length_drop, Hl, drop_drop. f_equal. lia.
Qed.

Lemma lru_put_ok key v max_entries c : lru_ok c -> lru_ok (lru_put key v max_entries c).
Proof. intros H. by apply prune_capacity_spec, lru_put_unpruned_ok. Qed.

Lemma lru_put_list key v max_entries c :
  lru_ok c ->
  lru_list (lru_put key v max_entries c) =
  keep_last max_entries (filter (fun kv => kv.1 <> key) (lru_list c) ++ [(key, v)]).
Proof.
  intros H. unfold lru_put. rewrite (proj2 (prune_capacity_spec _ _ (lru_put_unpruned_ok key v c H))).
  by rewrite lru_put_unpruned_list.
Qed.

Lemma elem_of_keep_last {A} n (l : list A) x : x ∈ keep_last n l -> x ∈ l.
Proof. intros H. rewrite <-(take_drop (length l - Z.to_nat n) l). apply elem_of_app. by right. Qed.

Lemma keep_last_length {A} n (l : list A) : (0 <= n)%Z -> (Z.of_nat (length (keep_last n l)) <= n)%Z.
Proof. intros. unfold keep_last. rewrite length_drop. lia. Qed.

Lemma keep_last_snoc {A} n (l : list A) x : (1 <= n)%Z -> keep_last n (l ++ [x]) = keep_last (n - 1) l ++ [x].
Proof.
  intros. unfold keep_last. rewrite length_app. simpl. rewrite drop_app_le by lia. f_equal. f_equal. lia.
Qed.

Lemma lru_put_size key v max_entries c :
  (0 <= max_entries)%Z -> lru_ok c -> (Z.of_nat (size (lru_entries (lru_put key v max_entries c))) <= max_entries)%Z.
Proof.
  intros Hm H. rewrite lru_size by by apply lru_put_ok.
  rewrite <-lru_keys by by apply lru_put_ok. rewrite length_fmap, lru_put_list by done.
  by apply keep_last_length.
Qed.

(** A key just written is there, unless nothing may be. *)
Lemma lru_put_lookup key v max_entries c :
  (1 <= max_entries)%Z -> lru_ok c -> lru_entries (lru_put key v max_entries c) !! key = Some v.
Proof.
  intros Hm H. apply elem_of_lru_list; [by apply lru_put_ok|].
  rewrite lru_put_list, keep_last_snoc by done. apply elem_of_app. right. by left.
Qed.

Lemma lru_put_lookup_ne key v max_entries c k w :
  lru_ok c -> k <> key -> lru_entries (lru_put key v max_entries c) !! k = Some w ->
  lru_entries c !! k = Some w.
Proof.
  intros H Hk E. apply elem_of_lru_list in E; [|by apply lru_put_ok]. rewrite lru_put_list in E by done.
  apply elem_of_keep_last, elem_of_app in E as [[_ E]%list_elem_of_filter|E].
  - by apply elem_of_lru_list in E.
  - apply list_elem_of_singleton in E. congruence.
Qed.

Lemma lru_retain_lookup alive c k v :
  lru_entries (lru_retain alive c) !! k = Some v <-> lru_entries c !! k = Some v /\ alive v = true.
Proof. unfold lru_retain. simpl. by rewrite map_lookup_filter_Some. Qed.
End lru.

Arguments Lru : clear implicits.

#[export] Hint Resolve lru_default_ok lru_retain_ok lru_put_ok : rust.
