(* ===== verification/ProviderHealth.v ===== *)
(** * The health of credentials

    [profile_state_store.rs], [profile_health_policy.rs], [profile_health_runtime.rs]
    and [profile_state_backend.rs] of [crates/app/src/provider]: which credential of a
    provider is used first, which are cooling down or disabled after a failure, and
    the file the state is kept in.  The store is a bounded cache ([Lru]) with a
    revision.  [now] is what [Instant::now()] returned; the order in which a [HashMap]
    yields its keys, the codec of the state file and the outcomes of the system calls
    are parameters.  The locks of the process-wide statics are taken through
    [into_inner] when poisoned, so they never fail.  The SQLite backend and the choice
    between the two are not modelled. *)

From stdpp Require Import gmap sorting.
From S2P Require Import Prelude RustStr Provider.

(** ** Entries *)

Record ProviderProfileStateEntry : Type := {
  pe_reason : ProviderFailoverReason;
  pe_failure_count : Z;
  pe_cooldown_until : option Z;
  pe_disabled_until : option Z;
  pe_last_used_at : option Z;
}.

Record ProviderProfileHealthSnapshot : Type := {
  hs_unusable_until : option Z;
  hs_last_used_at : option Z;
}.

Inductive ProviderProfileHealthMode : Type := EnforceUnusableWindows | ObserveOnly.

#[export] Instance ProviderProfileHealthMode_eq_dec : EqDecision ProviderProfileHealthMode.
Proof. solve_decision. Defined.

Record ProviderProfileStatePolicy : Type := {
  sp_namespace : string;
  sp_health_mode : ProviderProfileHealthMode;
  sp_cooldown : Z;
  sp_max_cooldown : Z;
  sp_auth_reject_disable : Z;
  sp_max_entries : Z;
}.

(** [entries] and [order] are the cache. *)
Record ProviderProfileStateStore : Type := {
  ss_cache : Lru ProviderProfileStateEntry;
  ss_revision : Z;
}.

Definition ProviderProfileStateStore_default : ProviderProfileStateStore :=
  {| ss_cache := lru_default; ss_revision := 0 |}.

(** ** Operations of the store *)

(** [is_some_and(|until| until > now)]. *)
Definition active (now : Z) (until : option Z) : bool :=
  match until with Some t => (now <? t)%Z | None => false end.

(** [filter(|until| *until > now)]. *)
Definition still (now : Z) (until : option Z) : option Z :=
  if active now until then until else None.

Definition entry_alive (now : Z) (e : ProviderProfileStateEntry) : bool :=
  active now (pe_cooldown_until e) || active now (pe_disabled_until e) ||
  bool_decide (is_Some (pe_last_used_at e)).

Definition ProviderProfileStateStore_prune_expired (now : Z) (s : ProviderProfileStateStore)
  : ProviderProfileStateStore :=
  {| ss_cache := lru_retain (entry_alive now) (ss_cache s); ss_revision := ss_revision s |}.

Definition ProviderProfileStateStore_bump_revision (s : ProviderProfileStateStore)
  : ProviderProfileStateStore :=
  {| ss_cache := ss_cache s; ss_revision := u64_saturating_add (ss_revision s) 1 |}.

Definition unusable_window (now : Z) (e : ProviderProfileStateEntry) : option Z :=
  match still now (pe_cooldown_until e), still now (pe_disabled_until e) with
  | Some cooldown, Some disabled => Some (Z.max cooldown disabled)
  | Some cooldown, None => Some cooldown
  | None, Some disabled => Some disabled
  | None, None => None
  end.

Definition ProviderProfileStateStore_health_snapshot (key : string) (now : Z)
    (s : ProviderProfileStateStore) : ProviderProfileHealthSnapshot * ProviderProfileStateStore :=
  let s := ProviderProfileStateStore_prune_expired now s in
  match lru_entries (ss_cache s) !! key with
  | None => ({| hs_unusable_until := None; hs_last_used_at := None |}, s)
  | Some entry =>
      ({| hs_unusable_until := unusable_window now entry; hs_last_used_at := pe_last_used_at entry |}, s)
  end.

(** The entry of a key is written and the key becomes the most recent
    ([entries.entry], [touch_order]). *)
Definition write_entry (key : string) (entry : ProviderProfileStateEntry) (max_entries : Z)
    (s : ProviderProfileStateStore) : ProviderProfileStateStore :=
  {| ss_cache := lru_put key entry max_entries (ss_cache s); ss_revision := ss_revision s |}.

Definition ProviderProfileStateStore_mark_success (key : string) (now max_entries : Z)
    (s : ProviderProfileStateStore) : ProviderProfileStateStore :=
  let s := ProviderProfileStateStore_prune_expired now s in
  let reason := match lru_entries (ss_cache s) !! key with
                | Some entry => pe_reason entry
                | None => RequestRejected
                end in
  ProviderProfileStateStore_bump_revision
    (write_entry key {| pe_reason := reason; pe_failure_count := 0; pe_cooldown_until := None;
                        pe_disabled_until := None; pe_last_used_at := Some now |} max_entries s).

(** [1u32 << failure_count.saturating_sub(1).min(20)] times the base, capped. *)
Definition backoff_cooldown (base max_cooldown failure_count : Z) : Z :=
  let bounded_max_cooldown := Z.max max_cooldown base in
  let exponent := Z.min (Z.max (failure_count - 1) 0) 20 in
  Z.min (Duration_saturating_mul base (Z.shiftl 1 exponent)) bounded_max_cooldown.

Definition failed_entry (reason : ProviderFailoverReason) (now : Z)
    (policy : ProviderProfileStatePolicy) (previous : ProviderProfileStateEntry)
  : ProviderProfileStateEntry :=
  let failure_count := u32_saturating_succ (pe_failure_count previous) in
  match sp_health_mode policy with
  | EnforceUnusableWindows =>
      if decide (reason = AuthRejected) then
        {| pe_reason := reason; pe_failure_count := failure_count; pe_cooldown_until := None;
           pe_disabled_until := Instant_checked_add now (sp_auth_reject_disable policy);
           pe_last_used_at := pe_last_used_at previous |}
      else
        {| pe_reason := reason; pe_failure_count := failure_count;
           pe_cooldown_until := Instant_checked_add now
             (backoff_cooldown (sp_cooldown policy) (sp_max_cooldown policy) failure_count);
           pe_disabled_until := pe_disabled_until previous;
           pe_last_used_at := pe_last_used_at previous |}
  | ObserveOnly =>
      {| pe_reason := reason; pe_failure_count := failure_count; pe_cooldown_until := None;
         pe_disabled_until := None; pe_last_used_at := Some now |}
  end.

Definition new_entry (reason : ProviderFailoverReason) : ProviderProfileStateEntry :=
  {| pe_reason := reason; pe_failure_count := 0; pe_cooldown_until := None;
     pe_disabled_until := None; pe_last_used_at := None |}.

Definition ProviderProfileStateStore_mark_failure (key : string) (reason : ProviderFailoverReason)
    (now : Z) (policy : ProviderProfileStatePolicy) (s : ProviderProfileStateStore)
  : ProviderProfileStateStore :=
  let s := ProviderProfileStateStore_prune_expired now s in
  let previous := default (new_entry reason) (lru_entries (ss_cache s) !! key) in
  ProviderProfileStateStore_bump_revision
    (write_entry key (failed_entry reason now policy previous) (sp_max_entries policy) s).

(** ** Snapshots *)

Record ProviderProfileStateSnapshotEntry : Type := {
  se_key : string;
  se_reason : string;
  se_failure_count : Z;
  se_cooldown_remaining_ms : option Z;
  se_disabled_remaining_ms : option Z;
  se_last_used_age_ms : option Z;
}.

Record ProviderProfileStateSnapshot : Type := {
  sn_version : Z;
  sn_revision : Z;
  sn_generated_at_unix_ms : Z;
  sn_order : list string;
  sn_entries : list ProviderProfileStateSnapshotEntry;
}.

Definition PROVIDER_PROFILE_STATE_SNAPSHOT_VERSION : Z := 1.

Definition remaining_duration_ms (until : option Z) (now : Z) : option Z :=
  (fun deadline => Duration_as_millis_u64 (Z.max (deadline - now) 0)) <$> still now until.

Definition elapsed_duration_ms (since : option Z) (now : Z) : option Z :=
  (fun instant => Duration_as_millis_u64 (Z.max (now - instant) 0)) <$> since.

Definition snapshot_entry (now : Z) (kv : string * ProviderProfileStateEntry)
  : option ProviderProfileStateSnapshotEntry :=
  let (key, entry) := kv in
  let cooldown_remaining_ms := remaining_duration_ms (pe_cooldown_until entry) now in
  let disabled_remaining_ms := remaining_duration_ms (pe_disabled_until entry) now in
  match cooldown_remaining_ms, disabled_remaining_ms, pe_last_used_at entry with
  | None, None, None => None
  | _, _, _ =>
      Some {| se_key := key; se_reason := ProviderFailoverReason_as_str (pe_reason entry);
              se_failure_count := pe_failure_count entry;
              se_cooldown_remaining_ms := cooldown_remaining_ms;
              se_disabled_remaining_ms := disabled_remaining_ms;
              se_last_used_age_ms := elapsed_duration_ms (pe_last_used_at entry) now |}
  end.

(** The entries are sorted by key, so the order of the map does not matter. *)
Definition ProviderProfileStateStore_to_snapshot (now generated_at_unix_ms : Z)
    (s : ProviderProfileStateStore) : ProviderProfileStateSnapshot :=
  let entries := omap (snapshot_entry now) (btree_map_iter (lru_entries (ss_cache s))) in
  let keys := map se_key entries in
  let order := filter (fun key => key ∈ keys) (lru_order (ss_cache s)) in
  {| sn_version := PROVIDER_PROFILE_STATE_SNAPSHOT_VERSION;
     sn_revision := ss_revision s;
     sn_generated_at_unix_ms := generated_at_unix_ms;
     sn_order := order ++ filter (fun key => key ∉ order) keys;
     sn_entries := entries |}.

Definition restored_entry (now : Z) (record : ProviderProfileStateSnapshotEntry)
  : option ProviderProfileStateEntry :=
  reason ← ProviderFailoverReason_from_str (se_reason record);
  Some {| pe_reason := reason; pe_failure_count := se_failure_count record;
          pe_cooldown_until := ms ← se_cooldown_remaining_ms record;
                               Instant_checked_add now (Duration_from_millis ms);
          pe_disabled_until := ms ← se_disabled_remaining_ms record;
                               Instant_checked_add now (Duration_from_millis ms);
          pe_last_used_at := ms ← se_last_used_age_ms record;
                             Instant_checked_sub now (Duration_from_millis ms) |}.

Definition restore_record (now : Z) (entries : gmap string ProviderProfileStateEntry)
    (record : ProviderProfileStateSnapshotEntry) : gmap string ProviderProfileStateEntry :=
  match restored_entry now record with
  | Some entry => <[se_key record := entry]> entries
  | None => entries
  end.

(** [push_back] unless the key is there already. *)
Definition push_unique (order : list string) (key : string) : list string :=
  if decide (key ∈ order) then order else order ++ [key].

(** [hash_keys] is the order in which the map yields its keys. *)
Definition ProviderProfileStateStore_from_snapshot (hash_keys : gset string -> list string)
    (snapshot : ProviderProfileStateSnapshot) (now : Z) : ProviderProfileStateStore :=
  if decide (sn_version snapshot <> PROVIDER_PROFILE_STATE_SNAPSHOT_VERSION)
  then ProviderProfileStateStore_default else
  let entries := foldl (restore_record now) ∅ (sn_entries snapshot) in
  let order := foldl push_unique [] (filter (fun key => is_Some (entries !! key)) (sn_order snapshot)) in
  let order := foldl push_unique order (hash_keys (dom entries)) in
  ProviderProfileStateStore_prune_expired now
    {| ss_cache := {| lru_entries := entries; lru_order := order |}; ss_revision := sn_revision snapshot |}.

(** ** Which failures count, and who goes first *)

Definition should_mark_provider_profile_failure (reason : ProviderFailoverReason) : bool :=
  match reason with
  | RateLimited | ProviderOverloaded | AuthRejected | TransportFailure | RequestRejected => true
  | _ => false
  end.

Definition classify_profile_failure_reason_from_message (message : string) : ProviderFailoverReason :=
  let lowered := to_ascii_lowercase message in
  if str_contains "status 401" lowered || str_contains "status 403" lowered ||
     str_contains "unauthorized" lowered || str_contains "forbidden" lowered then AuthRejected
  else if str_contains "status 429" lowered then RateLimited
  else if str_contains "status 500" lowered || str_contains "status 502" lowered ||
          str_contains "status 503" lowered || str_contains "status 504" lowered then ProviderOverloaded
  else RequestRejected.

(** [sort_by_key] is a stable sort. *)
Section stable_sort.
Context {A : Type} (le : A -> A -> bool).

Fixpoint stable_insert (x : A) (l : list A) : list A :=
  match l with
  | [] => [x]
  | y :: r => if le x y then x :: l else y :: stable_insert x r
  end.

Fixpoint stable_sort (l : list A) : list A :=
  match l with
  | [] => []
  | x :: r => stable_insert x (stable_sort r)
  end.
End stable_sort.

(** [Option]'s order: [None] first. *)
Definition option_leb (a b : option Z) : bool :=
  match a, b with
  | None, _ => true
  | Some _, None => false
  | Some x, Some y => (x <=? y)%Z
  end.

Definition window_leb (a b : Z * option Z) : bool :=
  (a.1 <? b.1)%Z || ((a.1 =? b.1)%Z && option_leb a.2 b.2).

Inductive ProfileRank : Type :=
| RankReady (last_used_at : option Z)
| RankCooling (unusable_until : Z) (last_used_at : option Z).

Definition profile_rank (health_mode : ProviderProfileHealthMode) (snapshot : ProviderProfileHealthSnapshot)
  : ProfileRank :=
  if decide (health_mode = ObserveOnly) then RankReady (hs_last_used_at snapshot) else
  match hs_unusable_until snapshot with
  | Some unusable_until => RankCooling unusable_until (hs_last_used_at snapshot)
  | None => RankReady (hs_last_used_at snapshot)
  end.

(** [snapshot_for] is called on the profiles in turn; its state is threaded. *)
Section prioritize.
Context {S : Type} (snapshot_for : ProviderAuthProfile -> S -> ProviderProfileHealthSnapshot * S).

Fixpoint rank_profiles (health_mode : ProviderProfileHealthMode) (profiles : list ProviderAuthProfile)
    (s : S) : list (ProviderAuthProfile * ProfileRank) * S :=
  match profiles with
  | [] => ([], s)
  | profile :: rest =>
      let (snapshot, s) := snapshot_for profile s in
      let (ranked, s) := rank_profiles health_mode rest s in
      ((profile, profile_rank health_mode snapshot) :: ranked, s)
  end.

Definition prioritize_profiles_by_health (profiles : list ProviderAuthProfile)
    (health_mode : ProviderProfileHealthMode) (s : S) : list ProviderAuthProfile * S :=
  if (length profiles <=? 1) then (profiles, s) else
  let (ranked, s) := rank_profiles health_mode profiles s in
  let ready := omap (fun p : ProviderAuthProfile * ProfileRank =>
    match p.2 with RankReady used => Some (p.1, used) | RankCooling _ _ => None end) ranked in
  let cooling := omap (fun p : ProviderAuthProfile * ProfileRank =>
    match p.2 with RankCooling until used => Some (p.1, (until, used)) | RankReady _ => None end) ranked in
  let ready := stable_sort (fun a b => option_leb a.2 b.2) ready in
  let cooling := stable_sort (fun a b => window_leb a.2 b.2) cooling in
  (map fst ready ++ map fst cooling, s).
End prioritize.

Section runtime.
Context {H : DefaultHasher}.

(** [prioritize_provider_auth_profiles_by_health]: one [now] for all. *)
Definition prioritize_provider_auth_profiles_by_health (profiles : list ProviderAuthProfile)
    (policy : option ProviderProfileStatePolicy) (now : Z) (s : ProviderProfileStateStore)
  : list ProviderAuthProfile * ProviderProfileStateStore :=
  match policy with
  | None => (profiles, s)
  | Some policy =>
      prioritize_profiles_by_health
        (fun profile s => ProviderProfileStateStore_health_snapshot
           (build_provider_profile_state_key (sp_namespace policy) (ap_id profile)) now s)
        profiles (sp_health_mode policy) s
  end.

(** What a mark does under the lock of the store. *)
Definition mark_success_locked (policy : ProviderProfileStatePolicy) (profile : ProviderAuthProfile)
    (now unix_ms : Z) (s : ProviderProfileStateStore)
  : ProviderProfileStateSnapshot * ProviderProfileStateStore :=
  let key := build_provider_profile_state_key (sp_namespace policy) (ap_id profile) in
  let s := ProviderProfileStateStore_mark_success key now (sp_max_entries policy) s in
  (ProviderProfileStateStore_to_snapshot now unix_ms s, s).

Definition mark_failure_locked (policy : ProviderProfileStatePolicy) (profile : ProviderAuthProfile)
    (reason : ProviderFailoverReason) (now unix_ms : Z) (s : ProviderProfileStateStore)
  : ProviderProfileStateSnapshot * ProviderProfileStateStore :=
  let key := build_provider_profile_state_key (sp_namespace policy) (ap_id profile) in
  let s := ProviderProfileStateStore_mark_failure key reason now policy s in
  (ProviderProfileStateStore_to_snapshot now unix_ms s, s).
End runtime.

(** ** The state file *)

Inductive ProviderProfileStatePersistOutcome : Type := Persisted | StaleSkipped | PersistFailed.

#[export] Instance ProviderProfileStatePersistOutcome_eq_dec : EqDecision ProviderProfileStatePersistOutcome.
Proof. solve_decision. Defined.

Record ProviderProfileStatePersistenceMetrics : Type := {
  pm_persisted : Z;
  pm_stale_skipped : Z;
  pm_failed : Z;
}.

Definition record_provider_profile_state_persist_outcome (outcome : ProviderProfileStatePersistOutcome)
    (m : ProviderProfileStatePersistenceMetrics) : ProviderProfileStatePersistenceMetrics :=
  match outcome with
  | Persisted => {| pm_persisted := u64_saturating_add (pm_persisted m) 1;
                    pm_stale_skipped := pm_stale_skipped m; pm_failed := pm_failed m |}
  | StaleSkipped => {| pm_persisted := pm_persisted m;
                       pm_stale_skipped := u64_saturating_add (pm_stale_skipped m) 1; pm_failed := pm_failed m |}
  | PersistFailed => {| pm_persisted := pm_persisted m; pm_stale_skipped := pm_stale_skipped m;
                        pm_failed := u64_saturating_add (pm_failed m) 1 |}
  end.

(** The codec of the file ([serde_json] on the derived implementations). *)
Class SnapshotCodec : Type := {
  encode_snapshot : ProviderProfileStateSnapshot -> option string;
  decode_snapshot : string -> option ProviderProfileStateSnapshot;
}.

(** [persist_revision] of the backend, and the state file. *)
Record FileProviderProfileStateBackend : Type := {
  fb_persist_revision : Z;
  fb_file : option string;
}.

(** What the system calls of one [persist_snapshot] do.  A [fs::write] that fails may
    leave anything in the state file ([fo_torn]). *)
Record FileOutcomes : Type := {
  fo_create_dir_all : bool;
  fo_write_tmp : bool;
  fo_rename : bool;
  fo_write : bool;
  fo_torn : option string;
}.

Section backend.
Context {SC : SnapshotCodec}.

Definition write_state_file (payload : string) (o : FileOutcomes) : bool * option string :=
  if fo_write o then (true, Some payload) else (false, fo_torn o).

Definition FileProviderProfileStateBackend_persist_snapshot (snapshot : ProviderProfileStateSnapshot)
    (o : FileOutcomes) (b : FileProviderProfileStateBackend)
  : ProviderProfileStatePersistOutcome * FileProviderProfileStateBackend :=
  if (sn_revision snapshot <? fb_persist_revision b)%Z then (StaleSkipped, b) else
  if negb (fo_create_dir_all o) then (PersistFailed, b) else
  match encode_snapshot snapshot with
  | None => (PersistFailed, b)
  | Some payload =>
      let (persisted, file) :=
        if fo_write_tmp o
        then if fo_rename o then (true, Some payload) else write_state_file payload o
        else write_state_file payload o in
      if persisted
      then (Persisted, {| fb_persist_revision := sn_revision snapshot; fb_file := file |})
      else (PersistFailed, {| fb_persist_revision := fb_persist_revision b; fb_file := file |})
  end.

Definition FileProviderProfileStateBackend_load_store (hash_keys : gset string -> list string) (now : Z)
    (b : FileProviderProfileStateBackend) : ProviderProfileStateStore * FileProviderProfileStateBackend :=
  match raw ← fb_file b; decode_snapshot raw with
  | None => (ProviderProfileStateStore_default, {| fb_persist_revision := 0; fb_file := fb_file b |})
  | Some snapshot =>
      let store := ProviderProfileStateStore_from_snapshot hash_keys snapshot now in
      (store, {| fb_persist_revision := ss_revision store; fb_file := fb_file b |})
  end.
End backend.
