(* ===== verification/ProviderHealthFacts.v ===== *)
(** * Facts about the health of credentials

    The store keeps its two collections in step and within capacity; with no more
    credentials than the capacity it is one independent machine per credential; the
    order of credentials is one stable sort; a snapshot restores the health it was
    taken from; and snapshots written late never replace newer ones. *)

From stdpp Require Import gmap sorting.
From S2P Require Import Prelude RustStr Provider ProviderHealth.

(** ** The store stays well formed *)

Definition store_ok (s : ProviderProfileStateStore) : Prop :=
  lru_ok (ss_cache s) /\ u64_valid (ss_revision s).

Lemma store_default_ok : store_ok ProviderProfileStateStore_default.
Proof. split; simpl; [auto with rust|]. unfold u64_valid, u64_max, u64_modulus. lia. Qed.

Lemma prune_expired_ok now s : store_ok s -> store_ok (ProviderProfileStateStore_prune_expired now s).
Proof. intros [? ?]. split; simpl; auto with rust. Qed.

Lemma bump_write_ok key e max_entries s :
  store_ok s -> store_ok (ProviderProfileStateStore_bump_revision (write_entry key e max_entries s)).
Proof.
  intros [? [? ?]]. split; simpl; [auto with rust|]. unfold u64_saturating_add, u64_valid, u64_max, u64_modulus in *.
  lia.
Qed.

#[export] Hint Resolve store_default_ok prune_expired_ok bump_write_ok : rust.

Lemma mark_success_ok key now max_entries s :
  store_ok s -> store_ok (ProviderProfileStateStore_mark_success key now max_entries s).
Proof. intros. unfold ProviderProfileStateStore_mark_success. auto with rust. Qed.

Lemma mark_failure_ok key reason now policy s :
  store_ok s -> store_ok (ProviderProfileStateStore_mark_failure key reason now policy s).
Proof. intros. unfold ProviderProfileStateStore_mark_failure. auto with rust. Qed.

Lemma health_snapshot_ok key now s :
  store_ok s -> store_ok (ProviderProfileStateStore_health_snapshot key now s).2.
Proof.
  intros. unfold ProviderProfileStateStore_health_snapshot.
  destruct (lru_entries _ !! key); simpl; auto with rust.
Qed.

#[export] Hint Resolve mark_success_ok mark_failure_ok health_snapshot_ok : rust.

(** ** Backoff *)

Lemma backoff_cooldown_exact base max_cooldown n :
  (0 <= base)%Z -> (base * 2 ^ 20 <= DURATION_MAX)%Z -> (1 <= n)%Z ->
  backoff_cooldown base max_cooldown n = Z.min (base * 2 ^ Z.min (n - 1) 20) (Z.max max_cooldown base).
Proof.
  intros Hb Hd Hn. unfold backoff_cooldown, Duration_saturating_mul.
  rewrite (Z.max_l (n - 1)) by lia. rewrite Z.shiftl_mul_pow2 by lia. rewrite Z.mul_1_l.
  rewrite (Z.min_l (base * _)); [done|]. etransitivity; [|exact Hd].
  apply Z.mul_le_mono_nonneg_l; [done|]. apply Z.pow_le_mono_r; lia.
Qed.

Lemma backoff_cooldown_bounds base max_cooldown n :
  (0 <= base <= DURATION_MAX)%Z ->
  (base <= backoff_cooldown base max_cooldown n <= Z.max max_cooldown base)%Z.
Proof.
  intros Hb. unfold backoff_cooldown, Duration_saturating_mul. rewrite Z.shiftl_mul_pow2 by lia.
  rewrite Z.mul_1_l. assert (1 <= 2 ^ Z.min (Z.max (n - 1) 0) 20)%Z as Hp.
  { rewrite <-(Z.pow_0_r 2) at 1. apply Z.pow_le_mono_r; lia. }
  assert (base * 1 <= base * 2 ^ Z.min (Z.max (n - 1) 0) 20)%Z by (apply Z.mul_le_mono_nonneg_l; lia). lia.
Qed.

(** ** One machine per credential *)

Inductive ProfileMark : Type :=
| MarkSuccess (key : string) (now : Z)
| MarkFailure (key : string) (reason : ProviderFailoverReason) (now : Z).

Definition mark_key (m : ProfileMark) : string :=
  match m with MarkSuccess k _ | MarkFailure k _ _ => k end.
Definition mark_time (m : ProfileMark) : Z :=
  match m with MarkSuccess _ t | MarkFailure _ _ t => t end.

Definition run_mark (policy : ProviderProfileStatePolicy) (s : ProviderProfileStateStore) (m : ProfileMark)
  : ProviderProfileStateStore :=
  match m with
  | MarkSuccess key now => ProviderProfileStateStore_mark_success key now (sp_max_entries policy) s
  | MarkFailure key reason now => ProviderProfileStateStore_mark_failure key reason now policy s
  end.

Definition prune_entry (now : Z) (o : option ProviderProfileStateEntry) : option ProviderProfileStateEntry :=
  e ← o; if entry_alive now e then Some e else None.

(** What a mark of its own does to the entry of a credential. *)
Definition entry_mark (policy : ProviderProfileStatePolicy) (o : option ProviderProfileStateEntry)
    (m : ProfileMark) : option ProviderProfileStateEntry :=
  let o := prune_entry (mark_time m) o in
  match m with
  | MarkSuccess _ now =>
      Some {| pe_reason := match o with Some e => pe_reason e | None => RequestRejected end;
              pe_failure_count := 0; pe_cooldown_until := None; pe_disabled_until := None;
              pe_last_used_at := Some now |}
  | MarkFailure _ reason now => Some (failed_entry reason now policy (default (new_entry reason) o))
  end.

Definition store_entry (s : ProviderProfileStateStore) (key : string) : option ProviderProfileStateEntry :=
  lru_entries (ss_cache s) !! key.

Lemma store_entry_prune now s key :
  store_entry (ProviderProfileStateStore_prune_expired now s) key = prune_entry now (store_entry s key).
Proof.
  unfold store_entry, prune_entry. simpl. apply option_eq. intros e. rewrite map_lookup_filter_Some. simpl.
  destruct (lru_entries (ss_cache s) !! key) as [e'|]; simpl; [|by split; [intros [? _]|]].
  destruct (entry_alive now e') eqn:Ea; split; [by intros [[= ->] _]|by intros [= ->]|intros [[= ->] ?]; congruence|done].
Qed.

Lemma prune_entry_later now now' o :
  (now <= now')%Z -> prune_entry now' (prune_entry now o) = prune_entry now' o.
Proof.
  intros Ht. destruct o as [e|]; [|done]. simpl. destruct (entry_alive now e) eqn:Ea; [done|]. simpl.
  destruct (entry_alive now' e) eqn:Ea'; [|done]. exfalso. unfold entry_alive, active in *.
  destruct (pe_cooldown_until e), (pe_disabled_until e); simpl in *;
    repeat match goal with H : context [Z.ltb ?a ?b] |- _ => destruct (Z.ltb_spec a b) end;
    simpl in *; try lia; congruence.
Qed.

Definition keys_of (s : ProviderProfileStateStore) : gset string := dom (lru_entries (ss_cache s)).

Lemma keys_prune now s : keys_of (ProviderProfileStateStore_prune_expired now s) ⊆ keys_of s.
Proof. unfold keys_of. simpl. apply dom_filter_subseteq. Qed.

Lemma write_entry_room key e max_entries s :
  (Z.of_nat (size (keys_of s ∪ {[key]})) <= max_entries)%Z ->
  lru_entries (lru_put key e max_entries (ss_cache s)) = <[key := e]> (lru_entries (ss_cache s)).
Proof.
  intros Hs. unfold lru_put, prune_capacity. simpl.
  destruct (move_to_back key (lru_order (ss_cache s))) as [|k o]; simpl;
    (destruct (Z.leb_spec (Z.of_nat (size (<[key:=e]> (lru_entries (ss_cache s))))) max_entries) as [Hle|Hgt];
     [done|]); exfalso; revert Hgt; rewrite <-(size_dom (D := gset string)), dom_insert_L, (union_comm_L {[key]});
     unfold keys_of in Hs; lia.
Qed.

Lemma run_mark_entry policy s m key :
  (Z.of_nat (size (keys_of s ∪ {[mark_key m]})) <= sp_max_entries policy)%Z ->
  store_entry (run_mark policy s m) key =
  if decide (mark_key m = key) then entry_mark policy (store_entry s key) m
  else prune_entry (mark_time m) (store_entry s key).
Proof.
  intros Hs. set (s' := ProviderProfileStateStore_prune_expired (mark_time m) s).
  assert (Hs' : (Z.of_nat (size (keys_of s' ∪ {[mark_key m]})) <= sp_max_entries policy)%Z).
  { etransitivity; [|exact Hs]. apply inj_le, subseteq_size. pose proof (keys_prune (mark_time m) s). set_solver. }
  assert (Hp := store_entry_prune (mark_time m) s). fold s' in Hp.
  destruct m as [k now|k reason now]; simpl in *;
    unfold ProviderProfileStateStore_mark_success, ProviderProfileStateStore_mark_failure, entry_mark;
    fold s'; unfold store_entry at 1; cbn [ProviderProfileStateStore_bump_revision write_entry ss_cache mark_time];
    rewrite write_entry_room by done; rewrite <-(Hp key); destruct (decide (k = key)) as [->|Hk];
    rewrite ?lookup_insert_eq, ?lookup_insert_ne by done; done.
Qed.

Lemma run_mark_keys policy s m :
  (Z.of_nat (size (keys_of s ∪ {[mark_key m]})) <= sp_max_entries policy)%Z ->
  keys_of (run_mark policy s m) ⊆ keys_of s ∪ {[mark_key m]}.
Proof.
  intros Hs k. unfold keys_of at 1. rewrite elem_of_dom.
  change (is_Some (store_entry (run_mark policy s m) k) -> k ∈ keys_of s ∪ {[mark_key m]}).
  rewrite run_mark_entry by done. destruct (decide (mark_key m = k)) as [->|]; [set_solver|].
  unfold prune_entry. destruct (store_entry s k) as [e|] eqn:E; [|by intros [? ?]]. intros _.
  apply elem_of_union_l, elem_of_dom. by eexists.
Qed.

Lemma entry_mark_pruned policy o o' m :
  prune_entry (mark_time m) o = prune_entry (mark_time m) o' -> entry_mark policy o m = entry_mark policy o' m.
Proof. intros E. unfold entry_mark. by rewrite E. Qed.

Lemma run_marks_entry policy key now marks s o :
  (Z.of_nat (size (keys_of s ∪ list_to_set (map mark_key marks))) <= sp_max_entries policy)%Z ->
  StronglySorted Z.le (map mark_time marks ++ [now]) ->
  (forall t, t ∈ map mark_time marks ++ [now] -> prune_entry t (store_entry s key) = prune_entry t o) ->
  prune_entry now (store_entry (foldl (run_mark policy) s marks) key) =
  prune_entry now (foldl (entry_mark policy) o (filter (fun m => mark_key m = key) marks)).
Proof.
  revert s o. induction marks as [|m marks IH]; intros s o Hs Ht Ho; [apply Ho; by left|].
  simpl in Hs, Ht. apply StronglySorted_inv in Ht as [Ht Hm]. rewrite Forall_forall in Hm.
  assert (Hs1 : (Z.of_nat (size (keys_of s ∪ {[mark_key m]})) <= sp_max_entries policy)%Z).
  { etransitivity; [|exact Hs]. apply inj_le, subseteq_size. set_solver. }
  assert (Hs2 : (Z.of_nat (size (keys_of (run_mark policy s m) ∪ list_to_set (map mark_key marks))) <=
                 sp_max_entries policy)%Z).
  { etransitivity; [|exact Hs]. apply inj_le, subseteq_size. pose proof (run_mark_keys policy s m Hs1). set_solver. }
  assert (Hm' : prune_entry (mark_time m) (store_entry s key) = prune_entry (mark_time m) o)
    by (apply Ho; by left).
  assert (E := run_mark_entry policy s m key Hs1). rewrite filter_cons.
  destruct (decide (mark_key m = key)) as [Hk|Hk]; cbn [foldl]; (apply IH; [done|done|]); intros t Hin; rewrite E.
  - f_equal. by apply entry_mark_pruned.
  - rewrite <-(prune_entry_later (mark_time m) t o), <-Hm' by auto. done.
Qed.

Definition health_of (now : Z) (o : option ProviderProfileStateEntry) : ProviderProfileHealthSnapshot :=
  match prune_entry now o with
  | None => {| hs_unusable_until := None; hs_last_used_at := None |}
  | Some e => {| hs_unusable_until := unusable_window now e; hs_last_used_at := pe_last_used_at e |}
  end.

Lemma health_snapshot_entry key now s :
  (ProviderProfileStateStore_health_snapshot key now s).1 = health_of now (store_entry s key).
Proof.
  unfold ProviderProfileStateStore_health_snapshot, health_of. rewrite <-store_entry_prune. unfold store_entry.
  by destruct (lru_entries _ !! key).
Qed.

(** The store is one independent machine per credential: as long as no
    more credentials are in use than the capacity, and the clock does not go back,
    the health of a credential after any successes and failures of any credentials
    is what its own successes and failures make of its own entry, whatever is
    pruned on the way. *)
Theorem credential_health_independent policy s marks key now :
  (Z.of_nat (size (keys_of s ∪ list_to_set (map mark_key marks))) <= sp_max_entries policy)%Z ->
  StronglySorted Z.le (map mark_time marks ++ [now]) ->
  (ProviderProfileStateStore_health_snapshot key now (foldl (run_mark policy) s marks)).1 =
  health_of now (foldl (entry_mark policy) (store_entry s key) (filter (fun m => mark_key m = key) marks)).
Proof.
  intros Hs Ht. rewrite health_snapshot_entry. unfold health_of.
  by rewrite (run_marks_entry policy key now marks s (store_entry s key)).
Qed.

(** ** How long a credential is held back *)

Definition window_bound (policy : ProviderProfileStatePolicy) : Z :=
  Z.max (Z.max (sp_max_cooldown policy) (sp_cooldown policy)) (sp_auth_reject_disable policy).

Definition is_success (m : ProfileMark) : Prop :=
  match m with MarkSuccess _ _ => True | MarkFailure _ _ _ => False end.

(** The instant is within the bound after a failure since the last success. *)
Definition held_by_failure (policy : ProviderProfileStatePolicy) (marks : list ProfileMark) (u : Z) : Prop :=
  exists (before : list ProfileMark) (key : string) (reason : ProviderFailoverReason) (t : Z) (after : list ProfileMark),
    marks = before ++ MarkFailure key reason t :: after /\
    Forall (fun m => ~ is_success m) after /\ (u <= t + window_bound policy)%Z.

Lemma held_by_failure_snoc policy marks u key reason now :
  held_by_failure policy marks u -> held_by_failure policy (marks ++ [MarkFailure key reason now]) u.
Proof.
  intros (before & k & r & t & after & -> & Ha & Hu). exists before, k, r, t, (after ++ [MarkFailure key reason now]).
  split; [by rewrite <-app_assoc|]. split; [|done]. apply Forall_app. split; [done|]. repeat constructor. auto.
Qed.

Lemma checked_add_Some t d u : Instant_checked_add t d = Some u -> u = (t + d)%Z.
Proof. unfold Instant_checked_add. destruct (Z.leb_spec (t + d) INSTANT_MAX); congruence. Qed.

Lemma own_windows policy marks e u :
  (0 <= sp_cooldown policy <= DURATION_MAX)%Z ->
  foldl (entry_mark policy) None marks = Some e ->
  pe_cooldown_until e = Some u \/ pe_disabled_until e = Some u -> held_by_failure policy marks u.
Proof.
  intros Hc. revert e u. induction marks as [|m marks IH] using rev_ind; intros e u; [done|].
  rewrite foldl_snoc. destruct m as [k now|k reason now]; simpl; intros [= <-]; [by intros [|]|].
  assert (Hold : forall e', prune_entry now (foldl (entry_mark policy) None marks) = Some e' ->
                 foldl (entry_mark policy) None marks = Some e').
  { intros e'. destruct (foldl _ _ _) as [e''|]; [|done]. simpl. by destruct (entry_alive now e''). }
  assert (Hnew : forall d, (d <= window_bound policy)%Z -> Instant_checked_add now d = Some u ->
                 held_by_failure policy (marks ++ [MarkFailure k reason now]) u).
  { intros d Hd ->%checked_add_Some. exists marks, k, reason, now, []. split; [done|]. split; [done|]. lia. }
  unfold failed_entry. destruct (sp_health_mode policy); [|by intros [|]].
  destruct (decide (reason = AuthRejected)); simpl; intros [Hw|Hw]; try done.
  - eapply Hnew; [|done]. unfold window_bound. lia.
  - eapply Hnew; [|done]. pose proof (backoff_cooldown_bounds (sp_cooldown policy) (sp_max_cooldown policy)
      (u32_saturating_succ (pe_failure_count (default (new_entry reason)
         (prune_entry now (foldl (entry_mark policy) None marks))))) Hc). unfold window_bound. lia.
  - apply held_by_failure_snoc. destruct (prune_entry now _) as [e'|] eqn:E; simpl in Hw; [|done].
    eapply IH; [by apply Hold|by right].
Qed.

Lemma unusable_window_cases now e u :
  unusable_window now e = Some u ->
  (now < u)%Z /\ (pe_cooldown_until e = Some u \/ pe_disabled_until e = Some u).
Proof.
  unfold unusable_window, still, active. destruct (pe_cooldown_until e) as [c|], (pe_disabled_until e) as [d|]; simpl;
    try destruct (Z.ltb_spec now c); try destruct (Z.ltb_spec now d); intros [= <-]; try (split; [lia|by auto]).
  destruct (Z.max_spec c d) as [[? ->]|[? ->]]; split; auto; lia.
Qed.

(** A credential is held back only by a failure of its own since its last
    success, and never longer after it than the longest cooldown the policy allows:
    whatever happened, every credential comes back. *)
Theorem credential_recovers policy marks key now u :
  (0 <= sp_cooldown policy <= DURATION_MAX)%Z ->
  (Z.of_nat (size (list_to_set (map mark_key marks) : gset string)) <= sp_max_entries policy)%Z ->
  StronglySorted Z.le (map mark_time marks ++ [now]) ->
  hs_unusable_until (ProviderProfileStateStore_health_snapshot key now
    (foldl (run_mark policy) ProviderProfileStateStore_default marks)).1 = Some u ->
  (now < u)%Z /\ held_by_failure policy (filter (fun m => mark_key m = key) marks) u.
Proof.
  intros Hc Hs Ht. rewrite health_snapshot_entry. unfold health_of.
  rewrite (run_marks_entry policy key now marks _ None); [|unfold keys_of; simpl; by rewrite dom_empty_L, union_empty_l_L|done|done].
  unfold prune_entry. destruct (foldl _ None _) as [e|] eqn:E; simpl; [|done].
  destruct (entry_alive now e); [|done]. simpl. intros [Hu Hw]%unusable_window_cases. split; [done|].
  by eapply own_windows.
Qed.

(** ** The order of credentials *)

Section sorting.
Context {A : Type} (le : A -> A -> bool).

Lemma stable_insert_Permutation x l : stable_insert le x l ≡ₚ x :: l.
Proof.
  induction l as [|y l IH]; simpl; [done|]. destruct (le x y); [done|]. rewrite IH. by constructor.
Qed.

Lemma stable_sort_Permutation l : stable_sort le l ≡ₚ l.
Proof. induction l as [|x l IH]; simpl; [done|]. by rewrite stable_insert_Permutation, IH. Qed.

Context (le_total : forall x y, le x y = false -> le y x = true).
Context (le_trans : forall x y z, le x y = true -> le y z = true -> le x z = true).

Lemma stable_insert_sorted x l :
  StronglySorted (fun a b => le a b = true) l -> StronglySorted (fun a b => le a b = true) (stable_insert le x l).
Proof.
  induction 1 as [|y l Hl IH Hy]; simpl; [by repeat constructor|]. destruct (le x y) eqn:E.
  - constructor; [by constructor|]. constructor; [done|]. eapply Forall_impl; [exact Hy|]. simpl. eauto.
  - constructor; [done|]. rewrite stable_insert_Permutation. constructor; [by apply le_total|done].
Qed.

Lemma stable_sort_sorted l : StronglySorted (fun a b => le a b = true) (stable_sort le l).
Proof. induction l; simpl; [constructor|]. by apply stable_insert_sorted. Qed.

(** Elements that compare equal to [r] keep their order. *)
Definition tied (r x : A) : Prop := le r x = true /\ le x r = true.
#[local] Instance tied_dec r x : Decision (tied r x).
Proof. unfold tied. apply _. Defined.

Lemma stable_insert_tied r x l :
  filter (tied r) (stable_insert le x l) = filter (tied r) (x :: l).
Proof.
  induction l as [|y l IH]; simpl; [done|]. destruct (le x y) eqn:E; [done|].
  rewrite (filter_cons _ y), IH, !filter_cons.
  destruct (decide (tied r x)) as [Hx|], (decide (tied r y)) as [Hy|]; try done.
  exfalso. destruct Hx as [? ?], Hy as [? ?]. assert (le x y = true) by eauto. congruence.
Qed.

Lemma stable_sort_tied r l : filter (tied r) (stable_sort le l) = filter (tied r) l.
Proof.
  induction l as [|x l IH]; simpl; [done|]. rewrite stable_insert_tied, !filter_cons, IH. done.
Qed.
End sorting.

Lemma stable_insert_first {A} (le : A -> A -> bool) x a b :
  Forall (fun y => le x y = true) b -> stable_insert le x (a ++ b) = stable_insert le x a ++ b.
Proof.
  intros Hb. induction a as [|y a IH]; simpl; [destruct Hb as [|y b Hy]; simpl; [done|by rewrite Hy]|].
  rewrite IH. by destruct (le x y).
Qed.

Lemma stable_insert_second {A} (le : A -> A -> bool) x a b :
  Forall (fun y => le x y = false) a -> stable_insert le x (a ++ b) = a ++ stable_insert le x b.
Proof. induction 1 as [|y a Hy Ha IH]; simpl; [done|]. by rewrite Hy, IH. Qed.

(** When the elements of [P] come before the others, the two parts sort apart. *)
Lemma stable_sort_split {A} (le : A -> A -> bool) (P : A -> bool) l :
  (forall x y, P x = true -> P y = false -> le x y = true /\ le y x = false) ->
  stable_sort le l =
  stable_sort le (filter (fun x => P x = true) l) ++ stable_sort le (filter (fun x => P x = false) l).
Proof.
  intros HP. induction l as [|x l IH]; [done|]. rewrite !filter_cons. cbn [stable_sort]. rewrite IH.
  destruct (decide (P x = true)) as [Ex|Ex], (decide (P x = false)) as [Ex'|Ex']; try congruence;
    [| |by destruct (P x)]; cbn [stable_sort].
  - apply stable_insert_first. rewrite stable_sort_Permutation. apply Forall_forall.
    intros y [Hy _]%list_elem_of_filter. by apply HP.
  - apply stable_insert_second. rewrite stable_sort_Permutation. apply Forall_forall.
    intros y [Hy _]%list_elem_of_filter. by apply HP.
Qed.

Lemma stable_sort_fmap {A B} (le : A -> A -> bool) (le' : B -> B -> bool) (f : A -> B) (l : list A) :
  (forall x y, le' (f x) (f y) = le x y) -> stable_sort le' (map f l) = map f (stable_sort le l).
Proof.
  intros Hf. induction l as [|x l IH]; simpl; [done|]. rewrite IH. clear IH.
  induction (stable_sort le l) as [|y r IH]; simpl; [done|]. rewrite Hf. destruct (le x y); simpl; congruence.
Qed.

Lemma stable_sort_map {A B} (le : A -> A -> bool) (le' : B -> B -> bool) (f : A -> option B) (l : list A) :
  Forall (fun x => is_Some (f x)) l ->
  (forall x y a b, f x = Some a -> f y = Some b -> le' a b = le x y) ->
  stable_sort le' (omap f l) = omap f (stable_sort le l).
Proof.
  intros Hl Hf. induction Hl as [|x l [a Ea] Hl IH]; [done|]. rewrite (omap_cons_Some _ x l a) by done.
  simpl. rewrite IH. clear IH. assert (Hs : Forall (fun x => is_Some (f x)) (stable_sort le l))
    by by rewrite stable_sort_Permutation.
  induction Hs as [|y r [b Eb] Hr IH]; [by cbn; rewrite Ea|]. rewrite (omap_cons_Some _ y r b) by done. simpl.
  rewrite (Hf x y a b) by done. destruct (le x y).
  - by rewrite !(omap_cons_Some _ x _ a), !(omap_cons_Some _ y _ b).
  - by rewrite !(omap_cons_Some _ y _ b), IH.
Qed.

Definition rank_leb (a b : ProfileRank) : bool :=
  match a, b with
  | RankReady u, RankReady v => option_leb u v
  | RankReady _, RankCooling _ _ => true
  | RankCooling _ _, RankReady _ => false
  | RankCooling s u, RankCooling t v => window_leb (s, u) (t, v)
  end.

Lemma option_leb_total a b : option_leb a b = false -> option_leb b a = true.
Proof. destruct a, b; simpl; try done. rewrite Z.leb_gt, Z.leb_le. lia. Qed.

Lemma option_leb_trans a b c : option_leb a b = true -> option_leb b c = true -> option_leb a c = true.
Proof. destruct a, b, c; simpl; try done. rewrite !Z.leb_le. lia. Qed.

Lemma window_leb_spec a b :
  window_leb a b = true <-> (a.1 < b.1)%Z \/ (a.1 = b.1 /\ option_leb a.2 b.2 = true).
Proof. unfold window_leb. by rewrite orb_true_iff, andb_true_iff, Z.ltb_lt, Z.eqb_eq. Qed.

Lemma rank_leb_total a b : rank_leb a b = false -> rank_leb b a = true.
Proof.
  destruct a as [u|s u], b as [v|t v]; simpl; try done; [apply option_leb_total|].
  rewrite <-not_true_iff_false, !window_leb_spec. simpl. intros H.
  destruct (Z.lt_total s t) as [?|[->|?]]; [tauto| |tauto]. right. split; [done|]. apply option_leb_total.
  apply not_true_iff_false. tauto.
Qed.

Lemma rank_leb_trans a b c : rank_leb a b = true -> rank_leb b c = true -> rank_leb a c = true.
Proof.
  destruct a as [u|s u], b as [v|t v], c as [w|r w]; simpl; try done; [apply option_leb_trans|].
  rewrite !window_leb_spec. simpl. intros [?|[? ?]] [?|[? ?]]; [left; lia..|]. right. split; [lia|].
  by eapply option_leb_trans.
Qed.

Definition ready (p : ProviderAuthProfile * ProfileRank) : bool :=
  match p.2 with RankReady _ => true | RankCooling _ _ => false end.

Lemma omap_filter_Some {A B} (f : A -> option B) (P : A -> bool) (l : list A) :
  (forall x, P x = false -> f x = None) -> omap f l = omap f (filter (fun x => P x = true) l).
Proof.
  intros H. induction l as [|x l IH]; [done|]. rewrite filter_cons. destruct (decide (P x = true)) as [E|E].
  - destruct (f x) as [y|] eqn:Ef; [by rewrite !(omap_cons_Some _ x _ y), IH|].
    cbn. rewrite Ef. apply IH.
  - cbn. rewrite H by by apply not_true_is_false. apply IH.
Qed.

Lemma map_fst_omap {A B C} (f : A * B -> option (A * C)) (l : list (A * B)) :
  (forall x, x ∈ l -> exists c, f x = Some (x.1, c)) -> map fst (omap f l) = map fst l.
Proof.
  induction l as [|x l IH]; [done|]; intros H. destruct (H x) as [c E]; [left|].
  rewrite (omap_cons_Some _ x l (x.1, c)) by done. simpl. f_equal. apply IH. intros; apply H. by right.
Qed.

(** Splitting the profiles and sorting the two parts is one stable sort by rank. *)
Lemma prioritize_sorts {S} (snapshot_for : ProviderAuthProfile -> S -> ProviderProfileHealthSnapshot * S)
    profiles mode s :
  (prioritize_profiles_by_health snapshot_for profiles mode s).1 =
  map fst (stable_sort (fun a b => rank_leb a.2 b.2) (rank_profiles snapshot_for mode profiles s).1).
Proof.
  unfold prioritize_profiles_by_health. destruct (length profiles <=? 1) eqn:El.
  - apply Nat.leb_le in El. destruct profiles as [|p [|]]; simpl in *; [done| |lia].
    by destruct (snapshot_for p s).
  - destruct (rank_profiles snapshot_for mode profiles s) as [ranked s']. simpl. clear El.
    rewrite (stable_sort_split _ ready) by by intros [? []] [? []].
    rewrite map_app. f_equal.
    + rewrite (omap_filter_Some _ ready) by by intros [? []].
      rewrite (stable_sort_map (fun a b => rank_leb a.2 b.2)).
      * apply map_fst_omap. intros [p r] Hp. rewrite stable_sort_Permutation in Hp.
        apply list_elem_of_filter in Hp as [Hr _]. destruct r; [|done]. simpl. eauto.
      * apply Forall_forall. intros [p r] [Hr _]%list_elem_of_filter. destruct r; [|done]. simpl. eauto.
      * intros [? []] [? []]; simpl; intros ??; by intros [= <-] [= <-].
    + rewrite (omap_filter_Some _ (fun p => negb (ready p))) by by intros [? []].
      assert (Ef : filter (fun x => negb (ready x) = true) ranked = filter (fun x => ready x = false) ranked)
        by (apply list_filter_iff; intros; by rewrite negb_true_iff).
      rewrite Ef. rewrite (stable_sort_map (fun a b => rank_leb a.2 b.2)).
      * apply map_fst_omap. intros [p r] Hp. rewrite stable_sort_Permutation in Hp.
        apply list_elem_of_filter in Hp as [Hr _]. destruct r; [done|]. simpl. eauto.
      * apply Forall_forall. intros [p r] [Hr _]%list_elem_of_filter. destruct r; [done|]. simpl. eauto.
      * intros [? []] [? []]; simpl; intros ??; by intros [= <-] [= <-].
Qed.

Lemma rank_profiles_fst {S} (snapshot_for : ProviderAuthProfile -> S -> ProviderProfileHealthSnapshot * S)
    mode profiles s : map fst (rank_profiles snapshot_for mode profiles s).1 = profiles.
Proof.
  revert s. induction profiles as [|p profiles IH]; intros s; [done|]. simpl.
  destruct (snapshot_for p s) as [h s1]. specialize (IH s1).
  destruct (rank_profiles snapshot_for mode profiles s1) as [r s2]. simpl in *. by rewrite IH.
Qed.

Section prioritized.
Context {H : DefaultHasher}.

(** The rank of a credential at an instant. *)
Definition credential_rank (policy : ProviderProfileStatePolicy) (now : Z) (s : ProviderProfileStateStore)
    (profile : ProviderAuthProfile) : ProfileRank :=
  profile_rank (sp_health_mode policy)
    (health_of now (store_entry s (build_provider_profile_state_key (sp_namespace policy) (ap_id profile)))).

Lemma health_snapshot_state key now s :
  (ProviderProfileStateStore_health_snapshot key now s).2 = ProviderProfileStateStore_prune_expired now s.
Proof. unfold ProviderProfileStateStore_health_snapshot. by destruct (lru_entries _ !! key). Qed.

Lemma credential_rank_prune policy now s profile :
  credential_rank policy now (ProviderProfileStateStore_prune_expired now s) profile =
  credential_rank policy now s profile.
Proof. unfold credential_rank, health_of. by rewrite store_entry_prune, prune_entry_later. Qed.

Lemma rank_profiles_store policy now profiles s :
  (rank_profiles (fun profile s => ProviderProfileStateStore_health_snapshot
     (build_provider_profile_state_key (sp_namespace policy) (ap_id profile)) now s)
     (sp_health_mode policy) profiles s).1 = map (fun p => (p, credential_rank policy now s p)) profiles.
Proof.
  revert s. induction profiles as [|p profiles IH]; intros s; [done|]. simpl.
  pose proof (health_snapshot_entry (build_provider_profile_state_key (sp_namespace policy) (ap_id p)) now s) as E1.
  pose proof (health_snapshot_state (build_provider_profile_state_key (sp_namespace policy) (ap_id p)) now s) as E2.
  destruct (ProviderProfileStateStore_health_snapshot _ now s) as [h s1]. simpl in E1, E2. subst h s1.
  specialize (IH (ProviderProfileStateStore_prune_expired now s)).
  destruct (rank_profiles _ _ profiles _) as [r s2]. simpl in *. rewrite IH. f_equal.
  apply map_ext. intros q. by rewrite credential_rank_prune.
Qed.

(** The credentials are tried in one stable order: no credential is
    lost or repeated; a usable one comes before every one that is cooling down or
    disabled; usable ones in the order they were last used, never-used first;
    unusable ones by when they come back, then by last use; and ties stay in the
    order the configuration gives them. *)
Theorem profiles_prioritized policy profiles now s :
  let ordered := (prioritize_provider_auth_profiles_by_health profiles (Some policy) now s).1 in
  let rank := credential_rank policy now s in
  ordered ≡ₚ profiles /\
  StronglySorted (fun p q => rank_leb (rank p) (rank q) = true) ordered /\
  forall q, filter (fun p => rank_leb (rank q) (rank p) = true /\ rank_leb (rank p) (rank q) = true) ordered =
            filter (fun p => rank_leb (rank q) (rank p) = true /\ rank_leb (rank p) (rank q) = true) profiles.
Proof.
  unfold prioritize_provider_auth_profiles_by_health. cbv zeta. rewrite prioritize_sorts, rank_profiles_store.
  set (rank := credential_rank policy now s).
  rewrite (stable_sort_fmap (fun p q => rank_leb (rank p) (rank q)) _ (fun p => (p, rank p))) by done.
  rewrite map_map, map_id. split_and!.
  - apply stable_sort_Permutation.
  - apply stable_sort_sorted; [intros ??; apply rank_leb_total|intros ???; apply rank_leb_trans].
  - intros q. apply (stable_sort_tied (fun p q => rank_leb (rank p) (rank q))). intros ???. apply rank_leb_trans.
Qed.
End prioritized.

(** ** Snapshots *)

Definition to_ms (d : Z) : Z := Z.max d 0 / NANOS_PER_MILLI * NANOS_PER_MILLI.

(** The entry after a restart at [now']: what was left of its windows, and the age of
    its last use, in whole milliseconds. *)
Definition shift_entry (now now' : Z) (e : ProviderProfileStateEntry) : ProviderProfileStateEntry :=
  {| pe_reason := pe_reason e; pe_failure_count := pe_failure_count e;
     pe_cooldown_until := (fun t => now' + to_ms (t - now))%Z <$> still now (pe_cooldown_until e);
     pe_disabled_until := (fun t => now' + to_ms (t - now))%Z <$> still now (pe_disabled_until e);
     pe_last_used_at := (fun t => now' - to_ms (now - t))%Z <$> pe_last_used_at e |}.

(** The instants of an entry are near enough to both clocks for their differences to
    be represented. *)
Definition entry_fits (span now : Z) (e : ProviderProfileStateEntry) : Prop :=
  (forall t, pe_cooldown_until e = Some t \/ pe_disabled_until e = Some t -> (t - now <= span)%Z) /\
  (forall t, pe_last_used_at e = Some t -> (now - t <= span)%Z).

Definition clock_fits (span now' : Z) : Prop :=
  (0 <= span < u64_modulus * NANOS_PER_MILLI)%Z /\ (INSTANT_MIN + span <= now' <= INSTANT_MAX - span)%Z.

Lemma to_ms_range d : (0 <= to_ms d <= Z.max d 0)%Z.
Proof.
  unfold to_ms, NANOS_PER_MILLI. pose proof (Z.div_mod (Z.max d 0) 1000000 ltac:(lia)).
  pose proof (Z.mod_pos_bound (Z.max d 0) 1000000 ltac:(lia)). pose proof (Z.div_pos (Z.max d 0) 1000000). lia.
Qed.

Lemma as_millis_fits span d :
  (0 <= span < u64_modulus * NANOS_PER_MILLI)%Z -> (d <= span)%Z ->
  Duration_from_millis (Duration_as_millis_u64 (Z.max d 0)) = to_ms d.
Proof.
  intros Hs Hd. unfold Duration_from_millis, Duration_as_millis_u64, to_ms. f_equal. apply Z.mod_small.
  unfold NANOS_PER_MILLI in *. split; [apply Z.div_pos; lia|]. apply Z.div_lt_upper_bound; lia.
Qed.

Lemma restored_window span now now' until :
  clock_fits span now' -> (forall t, until = Some t -> (t - now <= span)%Z) ->
  (ms ← remaining_duration_ms until now; Instant_checked_add now' (Duration_from_millis ms)) =
  (fun t => now' + to_ms (t - now))%Z <$> still now until.
Proof.
  intros [Hs Hn] Hu. unfold remaining_duration_ms, still.
  destruct until as [t|]; [|done]. simpl. destruct (now <? t)%Z; [|done]. simpl.
  rewrite (as_millis_fits span) by auto. unfold Instant_checked_add.
  destruct (Z.leb_spec (now' + to_ms (t - now)) INSTANT_MAX); [done|].
  pose proof (to_ms_range (t - now)). specialize (Hu t eq_refl). lia.
Qed.

Lemma restored_age span now now' since :
  clock_fits span now' -> (forall t, since = Some t -> (now - t <= span)%Z) ->
  (ms ← elapsed_duration_ms since now; Instant_checked_sub now' (Duration_from_millis ms)) =
  (fun t => now' - to_ms (now - t))%Z <$> since.
Proof.
  intros [Hs Hn] Hu. unfold elapsed_duration_ms. destruct since as [t|]; [|done]. simpl.
  rewrite (as_millis_fits span) by auto. unfold Instant_checked_sub.
  destruct (Z.leb_spec INSTANT_MIN (now' - to_ms (now - t))); [done|].
  pose proof (to_ms_range (now - t)). specialize (Hu t eq_refl). lia.
Qed.

Lemma reason_roundtrip r : ProviderFailoverReason_from_str (ProviderFailoverReason_as_str r) = Some r.
Proof. by destruct r. Qed.

Lemma snapshot_entry_key now k e se : snapshot_entry now (k, e) = Some se -> se_key se = k.
Proof.
  unfold snapshot_entry. destruct (remaining_duration_ms _ _), (remaining_duration_ms _ _), (pe_last_used_at e);
    intros [= <-]; done.
Qed.

Lemma restored_snapshot_entry span now now' k e :
  clock_fits span now' -> entry_fits span now e ->
  prune_entry now' (se ← snapshot_entry now (k, e); restored_entry now' se) =
  prune_entry now' (Some (shift_entry now now' e)).
Proof.
  intros Hc [Hw Hu].
  assert (E1 := restored_window span now now' (pe_cooldown_until e) Hc ltac:(eauto)).
  assert (E2 := restored_window span now now' (pe_disabled_until e) Hc ltac:(eauto)).
  assert (E3 := restored_age span now now' (pe_last_used_at e) Hc Hu).
  assert (Es : forall se, snapshot_entry now (k, e) = Some se -> restored_entry now' se = Some (shift_entry now now' e)).
  { intros se. unfold snapshot_entry, restored_entry, shift_entry. rewrite <-E1, <-E2, <-E3.
    destruct (remaining_duration_ms (pe_cooldown_until e) now), (remaining_duration_ms (pe_disabled_until e) now),
      (pe_last_used_at e); intros [= <-]; simpl; by rewrite reason_roundtrip. }
  destruct (snapshot_entry now (k, e)) as [se|] eqn:E; cbn [mbind option_bind]; [by rewrite (Es se)|].
  unfold snapshot_entry in E. unfold shift_entry. simpl. rewrite <-E1, <-E2, <-E3.
  destruct (remaining_duration_ms (pe_cooldown_until e) now), (remaining_duration_ms (pe_disabled_until e) now),
    (pe_last_used_at e); by try discriminate E.
Qed.

Lemma foldl_restore now' (l : list ProviderProfileStateSnapshotEntry) (m : gmap string ProviderProfileStateEntry) k :
  NoDup (map se_key l) ->
  foldl (restore_record now') m l !! k =
  match find_first (fun se => bool_decide (se_key se = k)) l with
  | Some se => match restored_entry now' se with Some e => Some e | None => m !! k end
  | None => m !! k
  end.
Proof.
  revert m. induction l as [|se l IH]; intros m Hn; [done|]. simpl. apply NoDup_cons in Hn as [Hnk Hn].
  rewrite IH by done. unfold restore_record. case_bool_decide as Hk; subst.
  - assert (Hf : find_first (fun se' => bool_decide (se_key se' = se_key se)) l = None).
    { apply find_first_None, Forall_forall. intros se' Hin. apply bool_decide_eq_false. intros E. apply Hnk. rewrite <-E.
      apply list_elem_of_fmap. eauto. }
    rewrite Hf. destruct (restored_entry now' se); [by rewrite lookup_insert_eq|done].
  - destruct (restored_entry now' se); [by rewrite lookup_insert_ne|done].
Qed.

Lemma elem_of_snapshot_entries now (m : gmap string ProviderProfileStateEntry) se :
  se ∈ omap (snapshot_entry now) (btree_map_iter m) <->
  exists k e, m !! k = Some e /\ snapshot_entry now (k, e) = Some se.
Proof.
  rewrite list_elem_of_omap. split.
  - intros ([k e] & Hin%elem_of_btree_map_iter & E). eauto.
  - intros (k & e & Hk & E). exists (k, e). split; [by apply elem_of_btree_map_iter|done].
Qed.

Lemma snapshot_keys_sub now (l : list (string * ProviderProfileStateEntry)) k :
  k ∈ map se_key (omap (snapshot_entry now) l) -> k ∈ map fst l.
Proof.
  rewrite !list_elem_of_fmap. intros (se & -> & ([k' e] & Hin & E)%list_elem_of_omap).
  exists (k', e). split; [by eapply snapshot_entry_key|done].
Qed.

Lemma snapshot_keys_NoDup now (l : list (string * ProviderProfileStateEntry)) :
  NoDup (map fst l) -> NoDup (map se_key (omap (snapshot_entry now) l)).
Proof.
  induction l as [|[k e] l IH]; [constructor|]. intros [Hk Hn]%NoDup_cons. specialize (IH Hn).
  destruct (snapshot_entry now (k, e)) as [se|] eqn:E.
  - rewrite (omap_cons_Some _ (k, e) l se) by done. simpl. constructor; [|done].
    rewrite (snapshot_entry_key now k e se E). by intros ?%snapshot_keys_sub.
  - cbn [omap list_omap]. rewrite E. done.
Qed.

Lemma btree_map_iter_keys (m : gmap string ProviderProfileStateEntry) : NoDup (map fst (btree_map_iter m)).
Proof. unfold btree_map_iter. rewrite merge_sort_Permutation. apply NoDup_fst_map_to_list. Qed.

Lemma find_snapshot now (m : gmap string ProviderProfileStateEntry) k :
  find_first (fun se => bool_decide (se_key se = k)) (omap (snapshot_entry now) (btree_map_iter m)) =
  (e ← m !! k; snapshot_entry now (k, e)).
Proof.
  set (l := omap (snapshot_entry now) (btree_map_iter m)).
  assert (Hone : forall se, find_first (fun se => bool_decide (se_key se = k)) l = Some se ->
                 (e ← m !! k; snapshot_entry now (k, e)) = Some se).
  { intros se (l1 & l2 & El & Hk%bool_decide_eq_true & _)%find_first_Some.
    assert (Hin : se ∈ l) by (rewrite El; apply elem_of_app; right; by left).
    apply elem_of_snapshot_entries in Hin as (k' & e & E & Es). rewrite (snapshot_entry_key _ _ _ _ Es) in Hk.
    subst k'. by rewrite E. }
  destruct (find_first _ l) as [se|] eqn:Ef; [by rewrite (Hone se)|]. symmetry.
  destruct (m !! k) as [e|] eqn:E; [|done]. simpl. destruct (snapshot_entry now (k, e)) as [se|] eqn:Es; [|done].
  apply find_first_None in Ef. rewrite Forall_forall in Ef.
  assert (Hin : se ∈ l) by (apply elem_of_snapshot_entries; eauto).
  specialize (Ef se Hin). apply bool_decide_eq_false in Ef. destruct Ef. by eapply snapshot_entry_key.
Qed.

Lemma restored_lookup span now now' (m : gmap string ProviderProfileStateEntry) k :
  clock_fits span now' -> (forall k e, m !! k = Some e -> entry_fits span now e) ->
  prune_entry now' (foldl (restore_record now') ∅ (omap (snapshot_entry now) (btree_map_iter m)) !! k) =
  prune_entry now' (shift_entry now now' <$> m !! k).
Proof.
  intros Hc Hf. rewrite foldl_restore by apply snapshot_keys_NoDup, btree_map_iter_keys.
  rewrite lookup_empty, find_snapshot. destruct (m !! k) as [e|] eqn:E; [|done].
  change (shift_entry now now' <$> Some e) with (Some (shift_entry now now' e)).
  rewrite <-(restored_snapshot_entry span now now' k e) by eauto. cbn [mbind option_bind].
  destruct (snapshot_entry now (k, e)) as [se|]; [|done].
  change (Some se ≫= fun se => restored_entry now' se) with (restored_entry now' se).
  by destruct (restored_entry now' se).
Qed.

Lemma push_unique_all l acc : (forall k, k ∈ l -> k ∈ acc) -> foldl push_unique acc l = acc.
Proof.
  induction l as [|k l IH]; [done|]; intros Hl. simpl. unfold push_unique at 2.
  rewrite decide_True by (apply Hl; by left). apply IH. intros; apply Hl. by right.
Qed.

Lemma push_unique_NoDup l acc : NoDup (acc ++ l) -> foldl push_unique acc l = acc ++ l.
Proof.
  revert acc. induction l as [|k l IH]; intros acc Hn; [by rewrite app_nil_r|]. simpl. unfold push_unique at 2.
  rewrite decide_False.
  - rewrite IH, <-app_assoc; [done|]. by rewrite <-app_assoc.
  - apply NoDup_app in Hn as (_ & Hd & _). intros Hk. apply (Hd k Hk). by left.
Qed.

(** The keys of a [HashMap] come in some order. *)
Definition hash_order (hash_keys : gset string -> list string) : Prop :=
  forall s, hash_keys s ≡ₚ elements s.

Lemma list_filter_filter_iff {A} (P Q R : A -> Prop)
    `{!forall x, Decision (P x), !forall x, Decision (Q x), !forall x, Decision (R x)} (l : list A) :
  (forall x, x ∈ l -> (P x /\ Q x <-> R x)) -> filter P (filter Q l) = filter R l.
Proof.
  induction l as [|x l IH]; intros Hiff; [done|]. rewrite (filter_cons Q), (filter_cons R).
  specialize (IH (fun y Hy => Hiff y (list_elem_of_further _ _ _ Hy))).
  assert (Hx := Hiff x ltac:(left)). destruct (decide (Q x)); [rewrite filter_cons; destruct (decide (P x))|];
    destruct (decide (R x)); try tauto; by rewrite IH.
Qed.

Lemma filter_absent {A} (P : A -> Prop) `{!forall x, Decision (P x)} (l : list A) :
  (forall x, x ∈ l -> ~ P x) -> filter P l = [].
Proof.
  induction l as [|x l IH]; intros Hno; [done|]. rewrite filter_cons, decide_False by (apply Hno; by left).
  apply IH. intros y Hy. apply Hno. by right.
Qed.

(** What a store restored from a snapshot holds. *)
Lemma restored_store span hash_keys now now' unix_ms s :
  hash_order hash_keys -> store_ok s -> clock_fits span now' ->
  (forall k e, store_entry s k = Some e -> entry_fits span now e) ->
  let s' := ProviderProfileStateStore_from_snapshot hash_keys
              (ProviderProfileStateStore_to_snapshot now unix_ms s) now' in
  store_ok s' /\ ss_revision s' = ss_revision s /\
  (forall k, store_entry s' k = prune_entry now' (shift_entry now now' <$> store_entry s k)) /\
  lru_order (ss_cache s') = filter (fun k => is_Some (store_entry s' k)) (lru_order (ss_cache s)).
Proof.
  intros Hh [[Hn Hk] Hr] Hc Hf s'. subst s'. unfold ProviderProfileStateStore_from_snapshot.
  rewrite decide_False by (intros Hv; by apply Hv). simpl.
  set (m := lru_entries (ss_cache s)) in *. set (ses := omap (snapshot_entry now) (btree_map_iter m)).
  set (es := foldl (restore_record now') ∅ ses).
  assert (Hes : forall k, is_Some (es !! k) -> k ∈ map se_key ses).
  { intros k. subst es. rewrite foldl_restore by apply snapshot_keys_NoDup, btree_map_iter_keys.
    rewrite lookup_empty. destruct (find_first _ ses) as [se|] eqn:Ef; [|by intros [? ?]]. intros _.
    apply find_first_Some in Ef as (l1 & l2 & El & <-%bool_decide_eq_true & _). rewrite El.
    apply list_elem_of_fmap. exists se. split; [done|]. apply elem_of_app. right. by left. }
  assert (Hses : forall k, k ∈ map se_key ses -> k ∈ lru_order (ss_cache s)).
  { intros k ([k' e] & -> & Hin%elem_of_btree_map_iter)%snapshot_keys_sub%list_elem_of_fmap.
    apply Hk. by eexists. }
  set (order := filter (fun key => key ∈ map se_key ses) (lru_order (ss_cache s))).
  assert (Ho : filter (fun key => key ∉ order) (map se_key ses) = []).
  { apply filter_absent. intros k Hin Hno. apply Hno, list_elem_of_filter. auto. }
  rewrite Ho, app_nil_r.
  assert (Hone : filter (fun key => is_Some (es !! key)) order =
                 filter (fun key => is_Some (es !! key)) (lru_order (ss_cache s))).
  { apply list_filter_filter_iff. intros k _. split; [by intros [? _]|]. auto. }
  rewrite Hone, (push_unique_NoDup _ []) by (simpl; by apply NoDup_filter). simpl.
  rewrite push_unique_all.
  2:{ intros k Hin. rewrite (Hh (dom es)), elem_of_elements, elem_of_dom in Hin.
      apply list_elem_of_filter. split; [done|]. auto. }
  assert (Hlook : forall k, store_entry (ProviderProfileStateStore_prune_expired now'
    {| ss_cache := {| lru_entries := es; lru_order := filter (fun key => is_Some (es !! key)) (lru_order (ss_cache s)) |};
       ss_revision := ss_revision s |}) k = prune_entry now' (shift_entry now now' <$> store_entry s k)).
  { intros k. rewrite store_entry_prune. unfold store_entry at 1. simpl. subst es ses. by apply (restored_lookup span). }
  split_and!; [|done|exact Hlook|].
  - apply prune_expired_ok. split; [|done]. split; simpl; [by apply NoDup_filter|].
    intros k. rewrite list_elem_of_filter. split; [by intros [? _]|]. auto.
  - unfold store_entry. simpl. apply list_filter_filter_iff. intros k Hin. split; [by intros [? _]|]. intros Hsome.
    split; [done|]. destruct Hsome as [e [He _]%map_lookup_filter_Some]. by eexists.
Qed.

(** ** The state file *)

Lemma NoDup_fst_unique {A B} (l : list (A * B)) a b c :
  NoDup (map fst l) -> (a, b) ∈ l -> (a, c) ∈ l -> b = c.
Proof.
  induction l as [|[x y] l IH]; simpl; [by intros _ ?%elem_of_nil|]. intros [Hx Hn]%NoDup_cons.
  assert (Hno : forall z, (x, z) ∉ l) by (intros z Hz; apply Hx, list_elem_of_fmap; by exists (x, z)).
  intros [[= -> ->]|Hb]%elem_of_cons [[= <-]|Hc']%elem_of_cons; try done; try (by destruct (Hno c));
    [by subst; destruct (Hno b)|by apply IH].
Qed.

Section persistence.
Context {SC : SnapshotCodec}.

(** Every mark takes its snapshot under the lock of the store. *)
Fixpoint mark_snapshots (policy : ProviderProfileStatePolicy) (unix_ms : Z) (s : ProviderProfileStateStore)
    (marks : list ProfileMark) : list ProviderProfileStateSnapshot :=
  match marks with
  | [] => []
  | m :: rest =>
      let s := run_mark policy s m in
      ProviderProfileStateStore_to_snapshot (mark_time m) unix_ms s :: mark_snapshots policy unix_ms s rest
  end.

(** The snapshots are written after the lock is released, in any order. *)
Definition persist_all (writes : list (ProviderProfileStateSnapshot * FileOutcomes))
    (b : FileProviderProfileStateBackend) : FileProviderProfileStateBackend :=
  foldl (fun b w => (FileProviderProfileStateBackend_persist_snapshot w.1 w.2 b).2) b writes.

(** The system calls of a write that reaches the file. *)
Definition write_succeeds (o : FileOutcomes) : bool :=
  fo_create_dir_all o && ((fo_write_tmp o && fo_rename o) || fo_write o).

Lemma persist_stale sn o b :
  (sn_revision sn < fb_persist_revision b)%Z ->
  FileProviderProfileStateBackend_persist_snapshot sn o b = (StaleSkipped, b).
Proof.
  intros Hr. unfold FileProviderProfileStateBackend_persist_snapshot.
  destruct (Z.ltb_spec (sn_revision sn) (fb_persist_revision b)); [done|lia].
Qed.

Lemma persist_revision_bound sn o b r :
  (sn_revision sn <= r)%Z -> (fb_persist_revision b <= r)%Z ->
  (fb_persist_revision (FileProviderProfileStateBackend_persist_snapshot sn o b).2 <= r)%Z.
Proof.
  intros. unfold FileProviderProfileStateBackend_persist_snapshot, write_state_file.
  destruct (_ <? _)%Z, (fo_create_dir_all o), (encode_snapshot sn), (fo_write_tmp o), (fo_rename o), (fo_write o); simpl; lia.
Qed.

Lemma persist_succeeds sn o b payload :
  (fb_persist_revision b <= sn_revision sn)%Z -> write_succeeds o = true -> encode_snapshot sn = Some payload ->
  FileProviderProfileStateBackend_persist_snapshot sn o b =
  (Persisted, {| fb_persist_revision := sn_revision sn; fb_file := Some payload |}).
Proof.
  intros Hr Ho He. unfold FileProviderProfileStateBackend_persist_snapshot, write_state_file, write_succeeds in *.
  destruct (Z.ltb_spec (sn_revision sn) (fb_persist_revision b)); [lia|]. rewrite He.
  by destruct (fo_create_dir_all o), (fo_write_tmp o), (fo_rename o), (fo_write o).
Qed.

(** A snapshot newer than all the others is what the file ends up holding. *)
Lemma persist_all_newest writes b sn o payload :
  (forall w, w ∈ writes -> w = (sn, o) \/ (sn_revision w.1 < sn_revision sn)%Z) ->
  (sn, o) ∈ writes -> (fb_persist_revision b <= sn_revision sn)%Z ->
  write_succeeds o = true -> encode_snapshot sn = Some payload ->
  persist_all writes b = {| fb_persist_revision := sn_revision sn; fb_file := Some payload |}.
Proof.
  intros Hw Hin Hb Ho He. set (done_b := {| fb_persist_revision := sn_revision sn; fb_file := Some payload |}).
  assert (Hdone : forall l, (forall w, w ∈ l -> w ∈ writes) -> persist_all l done_b = done_b).
  { induction l as [|w l IH]; intros Hl; [done|]. unfold persist_all. cbn [foldl].
    assert (E : (FileProviderProfileStateBackend_persist_snapshot w.1 w.2 done_b).2 = done_b).
    { destruct (Hw w) as [->|Hlt]; [apply Hl; by left| |by rewrite persist_stale].
      simpl. rewrite (persist_succeeds sn o done_b payload) by done. done. }
    rewrite E. apply IH. intros; apply Hl. by right. }
  assert (Hgo : forall l b, (forall w, w ∈ l -> w ∈ writes) -> (sn, o) ∈ l ->
     (fb_persist_revision b <= sn_revision sn)%Z -> persist_all l b = done_b).
  { clear b Hb. induction l as [|w l IH]; intros b Hl Hso Hb; [by apply elem_of_nil in Hso|].
    unfold persist_all. cbn [foldl]. destruct (Hw w) as [->|Hlt]; [apply Hl; by left| |].
    - simpl. rewrite (persist_succeeds sn o b payload) by done. apply Hdone. intros; apply Hl. by right.
    - apply IH; [intros; apply Hl; by right| |apply persist_revision_bound; lia].
      apply elem_of_cons in Hso as [<-|]; [simpl in Hlt; lia|done]. }
  by apply Hgo.
Qed.

Lemma run_mark_revision policy s m :
  ss_revision (run_mark policy s m) = u64_saturating_add (ss_revision s) 1.
Proof. by destruct m. Qed.

Lemma mark_snapshots_revisions policy unix_ms s marks i sn :
  (0 <= ss_revision s)%Z -> (ss_revision s + Z.of_nat (length marks) <= u64_max)%Z ->
  mark_snapshots policy unix_ms s marks !! i = Some sn ->
  sn_revision sn = (ss_revision s + Z.of_nat i + 1)%Z.
Proof.
  revert s i. induction marks as [|m marks IH]; intros s i H0 Hm; [done|]. simpl in Hm |- *.
  assert (Hr : ss_revision (run_mark policy s m) = (ss_revision s + 1)%Z)
    by (rewrite run_mark_revision; unfold u64_saturating_add; lia).
  destruct i as [|i]; simpl; [intros [= <-]; simpl; lia|]. intros E%IH; lia.
Qed.

Lemma mark_snapshots_last policy unix_ms s marks m :
  mark_snapshots policy unix_ms s (marks ++ [m]) =
  mark_snapshots policy unix_ms s marks ++
  [ProviderProfileStateStore_to_snapshot (mark_time m) unix_ms (foldl (run_mark policy) s (marks ++ [m]))].
Proof. revert s. induction marks as [|m' marks IH]; intros s; simpl; [done|]. by rewrite IH. Qed.

Lemma run_marks_ok policy s marks : store_ok s -> store_ok (foldl (run_mark policy) s marks).
Proof.
  revert s. induction marks as [|[] marks IH]; intros s Hs; simpl; [done|apply IH; simpl; auto with rust..].
Qed.

(** C39 (roundtrip). What is known of the credentials survives a restart: snapshots are
    written outside the lock, so late ones race with newer ones, but whatever order
    they reach the file in and whichever other writes fail or tear it, once the
    newest snapshot is written a restart finds the store as the last mark left it:
    the same revision, the same credentials in the same order, with what was left of
    their windows and the age of their last use in whole milliseconds. *)
Theorem profile_state_survives_restart policy unix_ms s marks m o payload writes b span hash_keys now' :
  let final := foldl (run_mark policy) s (marks ++ [m]) in
  let newest := ProviderProfileStateStore_to_snapshot (mark_time m) unix_ms final in
  store_ok s -> (ss_revision s + Z.of_nat (length (marks ++ [m])) <= u64_max)%Z ->
  (fb_persist_revision b <= ss_revision s)%Z ->
  map fst writes ≡ₚ mark_snapshots policy unix_ms s (marks ++ [m]) ->
  (newest, o) ∈ writes -> write_succeeds o = true ->
  encode_snapshot newest = Some payload -> decode_snapshot payload = Some newest ->
  hash_order hash_keys -> clock_fits span now' ->
  (forall k e, store_entry final k = Some e -> entry_fits span (mark_time m) e) ->
  let restored := (FileProviderProfileStateBackend_load_store hash_keys now' (persist_all writes b)).1 in
  store_ok restored /\ ss_revision restored = ss_revision final /\
  (forall k, store_entry restored k =
     prune_entry now' (shift_entry (mark_time m) now' <$> store_entry final k)) /\
  lru_order (ss_cache restored) =
    filter (fun k => is_Some (store_entry restored k)) (lru_order (ss_cache final)).
Proof.
  intros final newest Hs Hm Hb Hp Hin Ho He Hd Hh Hc Hf restored.
  assert (H0 : (0 <= ss_revision s)%Z) by (destruct Hs as [_ []]; lia).
  assert (Hlen : length (mark_snapshots policy unix_ms s (marks ++ [m])) = length (marks ++ [m])).
  { clear. revert s. induction (marks ++ [m]) as [|? l IH]; intros s; simpl; [done|]. by rewrite IH. }
  assert (Hnew : sn_revision newest = (ss_revision s + Z.of_nat (length marks) + 1)%Z).
  { apply (mark_snapshots_revisions policy unix_ms s (marks ++ [m])); [done|done|].
    rewrite mark_snapshots_last. rewrite mark_snapshots_last, !length_app in Hlen. simpl in Hlen.
    rewrite lookup_app_r by lia. replace (length marks - _) with 0 by lia. done. }
  assert (Hfile : persist_all writes b = {| fb_persist_revision := sn_revision newest; fb_file := Some payload |}).
  { assert (Hn : NoDup (map fst writes)).
    { rewrite Hp. apply NoDup_alt. intros i j x Hi Hj.
      apply mark_snapshots_revisions in Hi, Hj; try done. lia. }
    apply (persist_all_newest writes b newest o payload); [|done|lia|done|done].
    intros [sn o'] Hw. destruct (decide (sn_revision sn < sn_revision newest)%Z); [by right|]. left.
    assert (Hsn : sn ∈ mark_snapshots policy unix_ms s (marks ++ [m])).
    { rewrite <-Hp. apply list_elem_of_fmap. by exists (sn, o'). }
    apply list_elem_of_lookup in Hsn as [i Hi]. assert (Hi' := Hi).
    apply mark_snapshots_revisions in Hi'; [|done|done].
    apply lookup_lt_Some in Hi as Hlt. rewrite Hlen, length_app in Hlt. simpl in Hlt.
    assert (i = length marks) as -> by lia.
    assert (sn = newest) as ->.
    { rewrite mark_snapshots_last in Hi. rewrite mark_snapshots_last, !length_app in Hlen. simpl in Hlen.
      rewrite lookup_app_r in Hi by lia. replace (length marks - _) with 0 in Hi by lia. by injection Hi. }
    by rewrite (NoDup_fst_unique writes newest o' o). }
  subst restored. rewrite Hfile. unfold FileProviderProfileStateBackend_load_store. simpl. rewrite Hd. simpl.
  apply (restored_store span); [done| |done|done]. by apply run_marks_ok.
Qed.
End persistence.
