(* ===== verification/ProviderFailover.v ===== *)
(** * Provider failover

    [model_candidate_cooldown_runtime.rs], [failover_telemetry_runtime.rs],
    [runtime_binding.rs] and [request_failover_runtime.rs] of
    [crates/app/src/provider]: a model request is tried with every model candidate and,
    for each, with every credential in the order of their health, until one
    succeeds.  Failures are audited in the kernel, counted, and remembered against the
    credential and the model.  The request itself is a computation on the whole state:
    while it is awaited other tasks may change the process-wide stores.  What the clock
    and the file system do is a parameter; the log lines are not modelled. *)

From stdpp Require Import gmap.
From S2P Require Import Prelude RustStr Contracts Json Policy AuditSinks Kernel.
From S2P Require Import Provider ProviderHealth.

(** ** The cooldown of models *)

Record ModelCandidateCooldownPolicy : Type := {
  cp_namespace : string;
  cp_cooldown : Z;
  cp_max_cooldown : Z;
  cp_max_entries : Z;
}.

Record ModelCandidateCooldownEntry : Type := {
  ce_reason : ProviderFailoverReason;
  ce_failure_count : Z;
  ce_expires_at : Z;
}.

Definition ModelCandidateCooldownCache : Type := Lru ModelCandidateCooldownEntry.

Definition unexpired (now : Z) (e : ModelCandidateCooldownEntry) : bool := (now <? ce_expires_at e)%Z.

Definition ModelCandidateCooldownCache_prune_expired (now : Z) (c : ModelCandidateCooldownCache)
  : ModelCandidateCooldownCache := lru_retain (unexpired now) c.

Definition ModelCandidateCooldownCache_lookup_active (key : string) (now : Z)
    (c : ModelCandidateCooldownCache) : option ModelCandidateCooldownEntry * ModelCandidateCooldownCache :=
  let c := ModelCandidateCooldownCache_prune_expired now c in
  (entry ← lru_entries c !! key; if unexpired now entry then Some entry else None, c).

Definition ModelCandidateCooldownCache_put (key : string) (reason : ProviderFailoverReason)
    (now base_cooldown max_cooldown max_entries : Z) (c : ModelCandidateCooldownCache)
  : ModelCandidateCooldownCache :=
  if (base_cooldown =? 0)%Z then c else
  let c := ModelCandidateCooldownCache_prune_expired now c in
  let failure_count := match lru_entries c !! key with
                       | Some entry => u32_saturating_succ (ce_failure_count entry)
                       | None => 1%Z
                       end in
  match Instant_checked_add now (backoff_cooldown base_cooldown max_cooldown failure_count) with
  | None => c
  | Some expires_at =>
      lru_put key {| ce_reason := reason; ce_failure_count := failure_count; ce_expires_at := expires_at |}
        max_entries c
  end.

Definition cools_model (reason : ProviderFailoverReason) : bool :=
  match reason with
  | ModelMismatch | PayloadIncompatible | RateLimited | ProviderOverloaded => true
  | _ => false
  end.

Definition resolve_model_candidate_cooldown_duration (policy : ModelCandidateCooldownPolicy)
    (rate_limit : option RateLimitObservation) : Z :=
  default (cp_cooldown policy) (rate_limit ≫= RateLimitObservation_cooldown_hint).

Section keyed.
Context {H : DefaultHasher}.

Definition register_model_candidate_cooldown (policy : ModelCandidateCooldownPolicy) (model : string)
    (reason : ProviderFailoverReason) (rate_limit : option RateLimitObservation) (now : Z)
    (c : ModelCandidateCooldownCache) : ModelCandidateCooldownCache :=
  if negb (cools_model reason) then c else
  let base_cooldown := resolve_model_candidate_cooldown_duration policy rate_limit in
  let key := build_model_candidate_cooldown_key (cp_namespace policy) model in
  ModelCandidateCooldownCache_put key reason now base_cooldown (cp_max_cooldown policy) (cp_max_entries policy) c.

(** One pass over the models, the cache pruned at each lookup. *)
Fixpoint split_by_cooldown (policy : ModelCandidateCooldownPolicy) (now : Z) (models : list string)
    (c : ModelCandidateCooldownCache) : list string * list string * ModelCandidateCooldownCache :=
  match models with
  | [] => ([], [], c)
  | model :: rest =>
      let key := build_model_candidate_cooldown_key (cp_namespace policy) model in
      let (active, c) := ModelCandidateCooldownCache_lookup_active key now c in
      let '(ready, cooling, c) := split_by_cooldown policy now rest c in
      if bool_decide (is_Some (ce_reason <$> active)) then (ready, model :: cooling, c)
      else (model :: ready, cooling, c)
  end.

Definition prioritize_model_candidates_by_cooldown (models : list string)
    (policy : option ModelCandidateCooldownPolicy) (now : Z) (c : ModelCandidateCooldownCache)
  : list string * ModelCandidateCooldownCache :=
  match policy with
  | None => (models, c)
  | Some policy =>
      if (length models <=? 1) then (models, c) else
      let '(ready, cooling, c) := split_by_cooldown policy now models c in
      match ready with
      | [] => (cooling, c)
      | _ => (ready ++ cooling, c)
      end
  end.
End keyed.

(** ** Telemetry *)

Record ProviderFailoverEvent : Type := {
  fe_provider_id : string;
  fe_reason : string;
  fe_stage : string;
  fe_model : string;
  fe_attempt : Z;
  fe_max_attempts : Z;
  fe_status_code : option Z;
  fe_try_next_model : bool;
  fe_auto_model_mode : bool;
  fe_candidate_index : Z;
  fe_candidate_count : Z;
  fe_exhausted : bool;
}.

Record ProviderFailoverMetrics : Type := {
  fm_total_events : Z;
  fm_continued_events : Z;
  fm_exhausted_events : Z;
  fm_by_reason : gmap string Z;
  fm_by_stage : gmap string Z;
  fm_by_provider : gmap string Z;
}.

(** [*map.entry(key).or_insert(0) += 1], which wraps in a release build. *)
Definition count_one (key : string) (m : gmap string Z) : gmap string Z :=
  <[key := u64_wrapping_add (default 0%Z (m !! key)) 1]> m.

Definition ProviderFailoverMetrics_record (event : ProviderFailoverEvent) (m : ProviderFailoverMetrics)
  : ProviderFailoverMetrics :=
  {| fm_total_events := u64_saturating_add (fm_total_events m) 1;
     fm_continued_events := if fe_exhausted event then fm_continued_events m
                            else u64_saturating_add (fm_continued_events m) 1;
     fm_exhausted_events := if fe_exhausted event then u64_saturating_add (fm_exhausted_events m) 1
                            else fm_exhausted_events m;
     fm_by_reason := count_one (fe_reason event) (fm_by_reason m);
     fm_by_stage := count_one (fe_stage event) (fm_by_stage m);
     fm_by_provider := count_one (fe_provider_id event) (fm_by_provider m) |}.

Definition build_provider_failover_event (provider_id : string) (snapshot : ProviderFailoverSnapshot)
    (try_next_model auto_model_mode : bool) (candidate_index candidate_count : Z) (exhausted : bool)
  : ProviderFailoverEvent :=
  {| fe_provider_id := provider_id;
     fe_reason := ProviderFailoverReason_as_str (fs_reason snapshot);
     fe_stage := ProviderFailoverStage_as_str (fs_stage snapshot);
     fe_model := fs_model snapshot;
     fe_attempt := fs_attempt snapshot;
     fe_max_attempts := fs_max_attempts snapshot;
     fe_status_code := fs_status_code snapshot;
     fe_try_next_model := try_next_model;
     fe_auto_model_mode := auto_model_mode;
     fe_candidate_index := candidate_index;
     fe_candidate_count := candidate_count;
     fe_exhausted := exhausted |}.

(** ** The state of a provider request *)

(** What [Instant::now], the wall clock and the file system of the world do. *)
Class ProviderEnv (W : Type) : Type := {
  instant_now : W -> Z * W;
  unix_timestamp_ms : W -> Z * W;
  file_outcomes : W -> FileOutcomes * W;
}.

(** A request made for a kernel's token, or for none. *)
Inductive ProviderRuntimeBinding : Type :=
| BindingKernel (token : CapabilityToken)
| AdvisoryOnly.

Section failover.
Context {J : SerdeJson} {FF : FloatFormat} {H : DefaultHasher} {SC : SnapshotCodec}.
Context {P A C KW W : Type} `{!PolicyEngine P, !AuditSink A, !Clock C, !ProviderEnv W}.

Local Abbreviation K := (LoongKernel P A C KW).

(** The process-wide statics, the kernel, and the world. *)
Record ProviderRuntime : Type := {
  pr_states : ProviderProfileStateStore;
  pr_backend : FileProviderProfileStateBackend;
  pr_persist_metrics : ProviderProfileStatePersistenceMetrics;
  pr_cooldowns : ModelCandidateCooldownCache;
  pr_metrics : ProviderFailoverMetrics;
  pr_kernel : K;
  pr_world : W;
}.

Definition pr_set_states (x : ProviderProfileStateStore) (s : ProviderRuntime) : ProviderRuntime :=
  {| pr_states := x; pr_backend := pr_backend s; pr_persist_metrics := pr_persist_metrics s;
     pr_cooldowns := pr_cooldowns s; pr_metrics := pr_metrics s; pr_kernel := pr_kernel s; pr_world := pr_world s |}.
Definition pr_set_persisted (b : FileProviderProfileStateBackend) (m : ProviderProfileStatePersistenceMetrics)
    (s : ProviderRuntime) : ProviderRuntime :=
  {| pr_states := pr_states s; pr_backend := b; pr_persist_metrics := m;
     pr_cooldowns := pr_cooldowns s; pr_metrics := pr_metrics s; pr_kernel := pr_kernel s; pr_world := pr_world s |}.
Definition pr_set_cooldowns (x : ModelCandidateCooldownCache) (s : ProviderRuntime) : ProviderRuntime :=
  {| pr_states := pr_states s; pr_backend := pr_backend s; pr_persist_metrics := pr_persist_metrics s;
     pr_cooldowns := x; pr_metrics := pr_metrics s; pr_kernel := pr_kernel s; pr_world := pr_world s |}.
Definition pr_set_metrics (x : ProviderFailoverMetrics) (s : ProviderRuntime) : ProviderRuntime :=
  {| pr_states := pr_states s; pr_backend := pr_backend s; pr_persist_metrics := pr_persist_metrics s;
     pr_cooldowns := pr_cooldowns s; pr_metrics := x; pr_kernel := pr_kernel s; pr_world := pr_world s |}.
Definition pr_set_kernel (x : K) (s : ProviderRuntime) : ProviderRuntime :=
  {| pr_states := pr_states s; pr_backend := pr_backend s; pr_persist_metrics := pr_persist_metrics s;
     pr_cooldowns := pr_cooldowns s; pr_metrics := pr_metrics s; pr_kernel := x; pr_world := pr_world s |}.
Definition pr_set_world (x : W) (s : ProviderRuntime) : ProviderRuntime :=
  {| pr_states := pr_states s; pr_backend := pr_backend s; pr_persist_metrics := pr_persist_metrics s;
     pr_cooldowns := pr_cooldowns s; pr_metrics := pr_metrics s; pr_kernel := pr_kernel s; pr_world := x |}.

(** A reading of the world. *)
Definition read_world {X} (read : W -> X * W) : M ProviderRuntime X := fun s =>
  let (x, w) := read (pr_world s) in (Returned x, pr_set_world w s).

Definition persist_provider_profile_state_snapshot (snapshot : ProviderProfileStateSnapshot)
  : M ProviderRuntime unit :=
  let! o := read_world file_outcomes in
  modify (fun s =>
    let (outcome, b) := FileProviderProfileStateBackend_persist_snapshot snapshot o (pr_backend s) in
    pr_set_persisted b (record_provider_profile_state_persist_outcome outcome (pr_persist_metrics s)) s).

(** A mark under the lock of the store, then the snapshot written outside it. *)
Definition mark_and_persist
    (mark : Z -> Z -> ProviderProfileStateStore -> ProviderProfileStateSnapshot * ProviderProfileStateStore)
  : M ProviderRuntime unit :=
  let! now := read_world instant_now in
  let! unix_ms := read_world unix_timestamp_ms in
  let! states := gets pr_states in
  let (snapshot, states) := mark now unix_ms states in
  run! modify (pr_set_states states) in
  persist_provider_profile_state_snapshot snapshot.

Definition mark_provider_profile_success (policy : ProviderProfileStatePolicy) (profile : ProviderAuthProfile)
  : M ProviderRuntime unit :=
  mark_and_persist (mark_success_locked policy profile).

Definition mark_provider_profile_failure (policy : ProviderProfileStatePolicy) (profile : ProviderAuthProfile)
    (reason : ProviderFailoverReason) : M ProviderRuntime unit :=
  if negb (should_mark_provider_profile_failure reason) then ret tt
  else mark_and_persist (mark_failure_locked policy profile reason).

Definition record_provider_failover_audit_event (binding : ProviderRuntimeBinding) (provider_id : string)
    (snapshot : ProviderFailoverSnapshot) (try_next_model auto_model_mode : bool)
    (candidate_index candidate_count : Z) (exhausted : bool) : M ProviderRuntime unit :=
  let event := build_provider_failover_event provider_id snapshot try_next_model auto_model_mode
                 candidate_index candidate_count exhausted in
  run! modify (fun s => pr_set_metrics (ProviderFailoverMetrics_record event (pr_metrics s)) s) in
  match binding with
  | AdvisoryOnly => ret tt
  | BindingKernel token =>
      run! zoom pr_kernel pr_set_kernel (LoongKernel_record_audit_event (Some (ct_agent_id token))
             (ProviderFailover (ct_pack_id token) (fe_provider_id event) (fe_reason event) (fe_stage event)
                (fe_model event) (fe_attempt event) (fe_max_attempts event) (fe_status_code event)
                (fe_try_next_model event) (fe_auto_model_mode event) (fe_candidate_index event)
                (fe_candidate_count event))) in
      ret tt
  end.

Definition should_replace_model_cooldown_reason (current_reason : option ProviderFailoverReason)
    (current_rate_limit : option RateLimitObservation) (next_reason : ProviderFailoverReason)
    (next_rate_limit : option RateLimitObservation) : bool :=
  match current_reason with
  | None => true
  | Some current_reason =>
      let current_hint := current_rate_limit ≫= RateLimitObservation_cooldown_hint in
      let next_hint := next_rate_limit ≫= RateLimitObservation_cooldown_hint in
      if bool_decide (is_Some next_hint) && bool_decide (current_hint = None) then true else
      if match current_hint, next_hint with
         | Some current_hint, Some next_hint => (current_hint <? next_hint)%Z
         | _, _ => false
         end then true else
      if bool_decide (current_reason <> RateLimited) && bool_decide (next_reason = RateLimited) then true
      else false
  end.

(** ** The loop *)

(** What the loop remembers: the last error and its snapshot, and for the model at
    hand why it should switch and why it should cool down. *)
Record FailoverProgress : Type := {
  fp_last_error : option string;
  fp_last_error_snapshot : option ProviderFailoverSnapshot;
  fp_switch_reason : option ProviderFailoverReason;
  fp_cooldown_reason : option ProviderFailoverReason;
  fp_cooldown_rate_limit : option RateLimitObservation;
}.

Definition fp_new_model (p : FailoverProgress) : FailoverProgress :=
  {| fp_last_error := fp_last_error p; fp_last_error_snapshot := fp_last_error_snapshot p;
     fp_switch_reason := None; fp_cooldown_reason := None; fp_cooldown_rate_limit := None |}.

Definition fp_note_error (e : ModelRequestError) (p : FailoverProgress) : FailoverProgress :=
  let replace := cools_model (me_reason e) &&
    should_replace_model_cooldown_reason (fp_cooldown_reason p) (fp_cooldown_rate_limit p)
      (me_reason e) (me_rate_limit e) in
  {| fp_last_error := Some (me_message e);
     fp_last_error_snapshot := Some (me_snapshot e);
     fp_switch_reason := if me_try_next_model e then Some (me_reason e) else fp_switch_reason p;
     fp_cooldown_reason := if replace then Some (me_reason e) else fp_cooldown_reason p;
     fp_cooldown_rate_limit := if replace then me_rate_limit e else fp_cooldown_rate_limit p |}.

Section loop.
Context {T : Type}.
Context (request_with_model : string -> bool -> ProviderAuthProfile -> M ProviderRuntime (result T ModelRequestError)).
Context (provider_id : string) (binding : ProviderRuntimeBinding).
Context (profile_state_policy : option ProviderProfileStatePolicy).
Context (model_candidate_cooldown_policy : option ModelCandidateCooldownPolicy).
Context (auto_model_mode : bool).

(** The profiles from [profile_index] on, for one model; [inl] is a success. *)
Fixpoint profile_loop (model : string) (model_index model_count profile_index profile_count : Z)
    (profiles : list ProviderAuthProfile) (p : FailoverProgress)
  : M ProviderRuntime (T + FailoverProgress) :=
  match profiles with
  | [] => ret (inr p)
  | profile :: rest =>
      let! answer := request_with_model model auto_model_mode profile in
      match answer with
      | Ok value =>
          run! match profile_state_policy with
               | Some policy => mark_provider_profile_success policy profile
               | None => ret tt
               end in
          ret (inl value)
      | Err e =>
          let exhausted := ((profile_count <=? profile_index + 1) && (model_count <=? model_index + 1))%Z in
          run! record_provider_failover_audit_event binding provider_id (me_snapshot e) (me_try_next_model e)
                 auto_model_mode model_index model_count exhausted in
          run! match profile_state_policy with
               | Some policy => mark_provider_profile_failure policy profile (me_reason e)
               | None => ret tt
               end in
          profile_loop model model_index model_count (profile_index + 1) profile_count rest (fp_note_error e p)
      end
  end.

(** The models from [model_index] on.  Whether the model should switch is asked at the
    end of an iteration, where both answers go on with the next one. *)
Fixpoint model_loop (model_index model_count : Z) (ordered_profiles : list ProviderAuthProfile)
    (models : list string) (p : FailoverProgress) : M ProviderRuntime (T + FailoverProgress) :=
  match models with
  | [] => ret (inr p)
  | model :: rest =>
      let! r := profile_loop model model_index model_count 0 (Z.of_nat (length ordered_profiles))
                  ordered_profiles (fp_new_model p) in
      match r with
      | inl value => ret (inl value)
      | inr p =>
          run! match fp_cooldown_reason p, model_candidate_cooldown_policy with
               | Some reason, Some policy =>
                   let! now := read_world instant_now in
                   modify (fun s => pr_set_cooldowns
                     (register_model_candidate_cooldown policy model reason (fp_cooldown_rate_limit p) now
                        (pr_cooldowns s)) s)
               | _, _ => ret tt
               end in
          model_loop (model_index + 1) model_count ordered_profiles rest p
      end
  end.

(** [prioritize_provider_auth_profiles_by_health] on the store, at one instant. *)
Definition ordered_profiles_now (auth_profiles : list ProviderAuthProfile)
  : M ProviderRuntime (list ProviderAuthProfile) :=
  match profile_state_policy with
  | None => ret auth_profiles
  | Some policy =>
      let! now := read_world instant_now in
      let! states := gets pr_states in
      let (ordered, states) := prioritize_provider_auth_profiles_by_health auth_profiles (Some policy) now states in
      run! modify (pr_set_states states) in
      ret ordered
  end.

Definition request_across_model_candidates (auth_profiles : list ProviderAuthProfile)
    (model_candidates : list string) : M ProviderRuntime (result T string) :=
  match model_candidates with
  | [] => ret (Err "provider request has no model candidates")
  | _ =>
      let! ordered_profiles := ordered_profiles_now auth_profiles in
      let! r := model_loop 0 (Z.of_nat (length model_candidates)) ordered_profiles model_candidates
                  {| fp_last_error := None; fp_last_error_snapshot := None; fp_switch_reason := None;
                     fp_cooldown_reason := None; fp_cooldown_rate_limit := None |} in
      match r with
      | inl value => ret (Ok value)
      | inr p =>
          ret (Err (match fp_last_error p, fp_last_error_snapshot p with
                    | Some message, _ => message
                    | None, Some snapshot =>
                        "provider request failed for every model candidate (last_reason=" +:+
                        ProviderFailoverReason_as_str (fs_reason snapshot) +:+ ") | provider_failover=" +:+
                        json_to_string (ProviderFailoverSnapshot_to_json_value snapshot)
                    | None, None => "provider request failed for every model candidate"
                    end))
      end
  end.
End loop.
End failover.

Arguments ProviderRuntime {J} P A C KW W.
