(* ===== verification/ProviderFailoverFacts.v ===== *)
(** * Facts about provider failover

    Which requests a failover makes, what it answers and what it leaves in the audit
    trail; that cooling models only moves them back; and that an error which says not
    to try the next model changes nothing. *)

From stdpp Require Import gmap.
From S2P Require Import Prelude RustStr Contracts Json Policy AuditSinks Kernel.
From S2P Require Import Provider ProviderHealth ProviderHealthFacts ProviderFailover.

Section sweep.
Context {T : Type}.

Definition Attempt : Type := (string * ProviderAuthProfile) * result T ModelRequestError.

Definition failed (a : Attempt) : Prop := exists e, a.2 = Err e.

(** The message of the last failure. *)
Definition last_message (made : list Attempt) (d : option string) : option string :=
  match last made with
  | Some (_, Err e) => Some (me_message e)
  | _ => d
  end.

(** The attempts [made] go through [pairs] in order and stop at the first success. *)
Definition swept (pairs : list (string * ProviderAuthProfile)) (made : list Attempt)
    (d : option string) (r : T + option string) : Prop :=
  match r with
  | inl v => exists before at_pair rest,
      pairs = map fst before ++ at_pair :: rest /\ made = before ++ [(at_pair, Ok v)] /\ Forall failed before
  | inr d' => map fst made = pairs /\ Forall failed made /\ d' = last_message made d
  end.

Lemma last_message_app made1 made2 d :
  Forall failed made2 -> last_message (made1 ++ made2) d = last_message made2 (last_message made1 d).
Proof.
  intros Hf. destruct made2 as [|a made2 _] using rev_ind; [by rewrite app_nil_r|].
  apply Forall_app in Hf as [_ Hf]. apply Forall_cons in Hf as [[e He] _].
  unfold last_message. rewrite app_assoc, !last_snoc. destruct a as [? r]. simpl in He. by subst r.
Qed.

Lemma swept_app pairs1 pairs2 made1 made2 d d1 r :
  swept pairs1 made1 d (inr d1) -> swept pairs2 made2 d1 r -> swept (pairs1 ++ pairs2) (made1 ++ made2) d r.
Proof.
  intros (<- & Hf & ->). destruct r as [v|d']; simpl.
  - intros (before & p & rest & -> & -> & Hb). exists (made1 ++ before), p, rest.
    rewrite map_app, <-!app_assoc. split; [done|]. split; [done|]. by apply Forall_app.
  - intros (<- & Hf2 & ->). rewrite map_app. split; [done|]. split; [by apply Forall_app|].
    by rewrite last_message_app.
Qed.

Lemma swept_stop pairs1 pairs2 made d v :
  swept pairs1 made d (inl v) -> swept (pairs1 ++ pairs2) made d (inl v).
Proof.
  intros (before & p & rest & -> & -> & Hb). exists before, p, (rest ++ pairs2). by rewrite <-app_assoc.
Qed.
End sweep.

Arguments Attempt : clear implicits.

Section facts.
Context {J : SerdeJson} {FF : FloatFormat} {H : DefaultHasher} {SC : SnapshotCodec}.
Context {P A C KW W T : Type} `{!PolicyEngine P, !AuditSink A, !Clock C, !ProviderEnv W}.

Local Abbreviation R := (ProviderRuntime P A C KW W).

Variable request_with_model : string -> bool -> ProviderAuthProfile -> M R (result T ModelRequestError).
Variables (provider_id : string) (binding : ProviderRuntimeBinding).
Variables (profile_state_policy : option ProviderProfileStatePolicy).
Variables (cooldown_policy : option ModelCandidateCooldownPolicy) (auto_model_mode : bool).

(** An observer of the world that sees every request and its answer, and two of the
    audit sink: the events it has kept, and how many it has refused with an error. *)
Variable requests : W -> list (Attempt T).
Variable kept : A -> list AuditEvent.
Variable refusals : A -> nat.

Definition audited (s : R) : list AuditEvent := kept (lk_audit (pr_kernel s)).
Definition refused (s : R) : nat := refusals (lk_audit (pr_kernel s)).

(** The observers are faithful: a request is seen once, with its answer; the clock and
    the file system make none; a record the sink answers with success is kept, one it
    answers with an error counts as a refusal; and the sink forgets nothing, also while
    a request is awaited. *)
Record observed : Prop := {
  ob_request : forall model auto profile s r s',
    request_with_model model auto profile s = (Returned r, s') ->
    requests (pr_world s') = requests (pr_world s) ++ [((model, profile), r)] /\
    audited s ⊆ audited s' /\ refused s <= refused s';
  ob_instant : forall w, requests (instant_now w).2 = requests w;
  ob_unix : forall w, requests (unix_timestamp_ms w).2 = requests w;
  ob_file : forall w, requests (file_outcomes w).2 = requests w;
  ob_sink : forall e a r a', as_record e a = (Returned r, a') ->
    match r with
    | Ok _ => kept a' = kept a ++ [e] /\ refusals a' = refusals a
    | Err _ => kept a ⊆ kept a' /\ refusals a' = S (refusals a)
    end;
}.

Hypothesis Hob : observed.

(** No request, and no event lost. *)
Definition quiet (s s' : R) : Prop :=
  requests (pr_world s') = requests (pr_world s) /\ audited s ⊆ audited s' /\ refused s <= refused s'.

#[local] Instance quiet_preorder : PreOrder quiet.
Proof.
  split; [done|]. intros s1 s2 s3 (E1 & H1 & L1) (E2 & H2 & L2). split_and!; [congruence|by etransitivity|lia].
Qed.

Definition quietly {X} (m : M R X) : Prop := forall s r s', m s = (Returned r, s') -> quiet s s'.

Lemma quietly_ret {X} (x : X) : quietly (ret x).
Proof. intros s r s' [= _ ->]. done. Qed.

Lemma quietly_gets {X} (f : R -> X) : quietly (gets f).
Proof. intros s r s' [= _ ->]. done. Qed.

Lemma quietly_bind {X Y} (m : M R X) (f : X -> M R Y) : quietly m -> (forall x, quietly (f x)) -> quietly (bind m f).
Proof. intros Hm Hf s r s' (x & s1 & E1 & E2)%bind_returned. transitivity s1; [by eapply Hm|by eapply Hf]. Qed.

Lemma quietly_modify (f : R -> R) :
  (forall s, pr_world (f s) = pr_world s /\ pr_kernel (f s) = pr_kernel s) -> quietly (modify f).
Proof.
  intros Hf s r s' [= _ <-]. destruct (Hf s) as [E1 E2]. unfold quiet, audited, refused. by rewrite E1, E2.
Qed.

Lemma quietly_read {X} (read : W -> X * W) : (forall w, requests (read w).2 = requests w) -> quietly (read_world read).
Proof.
  intros Hr s r s'. unfold read_world. specialize (Hr (pr_world s)). destruct (read (pr_world s)) as [x w].
  intros [= _ <-]. by split.
Qed.

#[local] Hint Resolve quietly_ret quietly_gets quietly_bind quietly_modify quietly_read ob_instant ob_unix ob_file : quiet.

Lemma quietly_persist sn : quietly (persist_provider_profile_state_snapshot sn).
Proof.
  apply quietly_bind; [apply quietly_read, ob_file, Hob|]. intros o. apply quietly_modify. intros s.
  by destruct (FileProviderProfileStateBackend_persist_snapshot sn o (pr_backend s)).
Qed.

Lemma quietly_mark mark : quietly (mark_and_persist mark).
Proof.
  unfold mark_and_persist. apply quietly_bind; [apply quietly_read, ob_instant, Hob|]. intros now.
  apply quietly_bind; [apply quietly_read, ob_unix, Hob|]. intros ms. apply quietly_bind; [apply quietly_gets|].
  intros st. destruct (mark now ms st) as [sn st'].
  apply quietly_bind; [by apply quietly_modify|]. intros _. apply quietly_persist.
Qed.

Lemma quietly_success policy profile : quietly (mark_provider_profile_success policy profile).
Proof. apply quietly_mark. Qed.

Lemma quietly_failure policy profile reason : quietly (mark_provider_profile_failure policy profile reason).
Proof. unfold mark_provider_profile_failure. destruct (negb _); [apply quietly_ret|apply quietly_mark]. Qed.

(** A record leaves the event in the trail, unless the sink refuses it. *)
Lemma record_audit_event_kept agent kind (k k' : LoongKernel P A C KW) r :
  LoongKernel_record_audit_event agent kind k = (Returned r, k') ->
  kept (lk_audit k) ⊆ kept (lk_audit k') /\ refusals (lk_audit k) <= refusals (lk_audit k') /\
  (refusals (lk_audit k') = refusals (lk_audit k) ->
   exists e, ae_agent_id e = agent /\ ae_kind e = kind /\ e ∈ kept (lk_audit k')).
Proof.
  unfold LoongKernel_record_audit_event, LoongKernel_now, LoongKernel_record, LoongKernel_new_event.
  unfold zoom, bind, try_bind, bind, try_map_err, bind, gets, modify, ret.
  destruct (now_epoch_s (lk_clock k)) as [[now|?] c]; [|done]. simpl.
  destruct (as_record _ (lk_audit k)) as [[res|?] a] eqn:Ea; [|done]. apply (ob_sink Hob) in Ea. simpl.
  destruct res as [u|e]; intros [= <- <-]; destruct Ea as [Ek Er]; simpl.
  - rewrite Ek, Er. split_and!; [set_solver|lia|]. intros _. eexists. split; [|split; [|apply elem_of_app; right; by left]]; done.
  - split_and!; [done|lia|lia].
Qed.

(** What the audit says of a failed attempt. *)
Definition failover_event (token : CapabilityToken) (e : ModelRequestError) (index count : Z)
    (ev : AuditEvent) : Prop :=
  ae_agent_id ev = Some (ct_agent_id token) /\
  ae_kind ev = ProviderFailover (ct_pack_id token) provider_id
    (ProviderFailoverReason_as_str (fs_reason (me_snapshot e)))
    (ProviderFailoverStage_as_str (fs_stage (me_snapshot e))) (fs_model (me_snapshot e))
    (fs_attempt (me_snapshot e)) (fs_max_attempts (me_snapshot e)) (fs_status_code (me_snapshot e))
    (me_try_next_model e) auto_model_mode index count.

Lemma record_failover_seen e index count exhausted s r s' :
  record_provider_failover_audit_event binding provider_id (me_snapshot e) (me_try_next_model e)
    auto_model_mode index count exhausted s = (Returned r, s') ->
  quiet s s' /\
  (refused s' = refused s -> forall token, binding = BindingKernel token ->
   exists ev, ev ∈ audited s' /\ failover_event token e index count ev).
Proof.
  unfold record_provider_failover_audit_event.
  intros (u & s1 & [= _ <-] & E)%bind_returned. destruct binding as [token|].
  - apply bind_returned in E as (res & s2 & E & [= _ ->]). unfold zoom in E. simpl in E.
    destruct (LoongKernel_record_audit_event _ _ (pr_kernel s)) as [res' k] eqn:Ek. injection E as -> <-.
    apply record_audit_event_kept in Ek as (Hkept & Href & Hev). split; [by split_and!|].
    intros (ev & Ha & Hk & Hin)%Hev t [= <-]. exists ev. split; [exact Hin|by split].
  - injection E as _ <-. split; [done|]. done.
Qed.

(** ** The loops *)

Definition audits_all (index count : Z) (made : list (Attempt T)) (s : R) : Prop :=
  forall token, binding = BindingKernel token ->
  forall a e, a ∈ made -> a.2 = Err e -> exists ev, ev ∈ audited s /\ failover_event token e index count ev.

Lemma audits_all_later index count made s s' :
  audited s ⊆ audited s' -> audits_all index count made s -> audits_all index count made s'.
Proof. intros Hs Ha token Hb a e Hin He. destruct (Ha token Hb a e Hin He) as (ev & Hev & Hf). eauto. Qed.

Lemma profile_loop_sweeps model index count profiles j n p s r s' :
  profile_loop request_with_model provider_id binding profile_state_policy auto_model_mode
    model index count j n profiles p s = (Returned r, s') ->
  exists made, requests (pr_world s') = requests (pr_world s) ++ made /\
    audited s ⊆ audited s' /\ refused s <= refused s' /\
    swept (map (pair model) profiles) made (fp_last_error p)
      (match r with inl v => inl v | inr p' => inr (fp_last_error p') end) /\
    (refused s' = refused s -> audits_all index count made s').
Proof.
  revert j p s. induction profiles as [|profile profiles IH]; intros j p s; cbn [profile_loop].
  - intros [= <- <-]. exists []. rewrite app_nil_r. split_and!; try done.
    intros _ ? _ ? ? ?%elem_of_nil. done.
  - intros (answer & s1 & Hreq & E)%bind_returned. apply (ob_request Hob) in Hreq as (Hlog & Haud & Hr1).
    destruct answer as [value|e].
    + apply bind_returned in E as (u & s2 & Hm & [= <- <-]).
      assert (Hq : quiet s1 s2) by (destruct profile_state_policy; [by eapply quietly_success|by eapply quietly_ret]).
      destruct Hq as (Hl & Ha & Hr2). exists [((model, profile), Ok value)]. rewrite Hl.
      split_and!; [done|set_solver|lia|by exists [], (model, profile), (map (pair model) profiles)|].
      intros _ ? _ a e ->%list_elem_of_singleton. done.
    + apply bind_returned in E as (u & s2 & Hrec & E). apply record_failover_seen in Hrec as [(Hl2 & Ha2 & Hr2) Hev].
      apply bind_returned in E as (u' & s3 & Hm & E).
      assert (Hq : quiet s2 s3) by (destruct profile_state_policy; [by eapply quietly_failure|by eapply quietly_ret]).
      destruct Hq as (Hl3 & Ha3 & Hr3). apply IH in E as (made & Hl & Ha & Hr4 & Hs & Hall).
      exists (((model, profile), Err e) :: made). split_and!.
      * rewrite Hl, Hl3, Hl2, Hlog, <-app_assoc. done.
      * set_solver.
      * lia.
      * apply (swept_app [(model, profile)] _ [((model, profile), Err e)] _ _ (Some (me_message e))); [|done].
        split; [done|]. split; [|done]. constructor; [by exists e|constructor].
      * intros Hcalm token Hb a e' [->|Hin]%elem_of_cons He; [|eapply Hall; [lia|done..]]. injection He as <-.
        destruct (Hev ltac:(lia) token Hb) as (ev & Hin & Hf). exists ev. split; [set_solver|done].
Qed.

Definition all_pairs (models : list string) (profiles : list ProviderAuthProfile)
  : list (string * ProviderAuthProfile) :=
  flat_map (fun model => map (pair model) profiles) models.

(** Every failed attempt is audited with the position of its model. *)
Definition audits_from (offset count : Z) (models : list string) (made : list (Attempt T)) (s : R) : Prop :=
  forall token, binding = BindingKernel token ->
  forall a e, a ∈ made -> a.2 = Err e ->
  exists i ev, models !! i = Some a.1.1 /\ ev ∈ audited s /\ failover_event token e (offset + Z.of_nat i) count ev.

Lemma swept_models model profiles (made : list (Attempt T)) d r a :
  swept (map (pair model) profiles) made d r -> a ∈ made -> a.1.1 = model.
Proof.
  intros Hs Ha. assert (Hp : a.1 ∈ map (pair model) profiles).
  { destruct r as [v|d']; simpl in Hs.
    - destruct Hs as (before & p & rest & -> & -> & _). apply elem_of_app.
      apply elem_of_app in Ha as [Ha| ->%list_elem_of_singleton]; [left|right; by left].
      apply list_elem_of_fmap. eauto.
    - destruct Hs as (<- & _). apply list_elem_of_fmap. eauto. }
  by apply list_elem_of_fmap in Hp as (? & -> & _).
Qed.

Lemma audits_all_from offset count model models profiles (made : list (Attempt T)) d r s :
  swept (map (pair model) profiles) made d r -> audits_all offset count made s ->
  audits_from offset count (model :: models) made s.
Proof.
  intros Hs Ha token Hb a e Hin He. destruct (Ha token Hb a e Hin He) as (ev & Hev & Hf).
  exists 0, ev. split; [simpl; by rewrite (swept_models model profiles made d r a)|].
  split; [done|]. by rewrite Z.add_0_r.
Qed.

Lemma audits_from_app offset count model models made1 made2 s :
  audits_from offset count (model :: models) made1 s -> audits_from (offset + 1) count models made2 s ->
  audits_from offset count (model :: models) (made1 ++ made2) s.
Proof.
  intros H1 H2 token Hb a e [Hin|Hin]%elem_of_app He; [by eapply H1|].
  destruct (H2 token Hb a e Hin He) as (i & ev & Hi & Hev & Hf). exists (S i), ev. split; [done|]. split; [done|].
  by replace (offset + Z.of_nat (S i))%Z with (offset + 1 + Z.of_nat i)%Z by lia.
Qed.

Lemma model_loop_sweeps count profiles models i p s r s' :
  model_loop request_with_model provider_id binding profile_state_policy cooldown_policy auto_model_mode
    i count profiles models p s = (Returned r, s') ->
  exists made, requests (pr_world s') = requests (pr_world s) ++ made /\
    swept (all_pairs models profiles) made (fp_last_error p)
      (match r with inl v => inl v | inr p' => inr (fp_last_error p') end) /\
    (refused s' = refused s -> audits_from i count models made s') /\
    audited s ⊆ audited s' /\ refused s <= refused s'.
Proof.
  revert i p s. induction models as [|model models IH]; intros i p s; cbn [model_loop].
  - intros [= <- <-]. exists []. rewrite app_nil_r. split_and!; try done.
    intros _ ? _ ? ? ?%elem_of_nil. done.
  - intros (r1 & s1 & Hp & E)%bind_returned.
    apply profile_loop_sweeps in Hp as (made1 & Hl1 & Ha1 & Hr1 & Hs1 & Hall1).
    destruct r1 as [v|p1]; [injection E as <- <-|].
    + exists made1. split_and!; [done|by apply swept_stop| |done|done].
      intros Hcalm. eapply audits_all_from; [done|by apply Hall1].
    + apply bind_returned in E as (u & s2 & Hc & E).
      assert (Hq : quiet s1 s2).
      { destruct (fp_cooldown_reason p1), cooldown_policy; try (by eapply quietly_ret).
        revert Hc. apply quietly_bind; [apply quietly_read, ob_instant, Hob|]. intros now. by apply quietly_modify. }
      destruct Hq as (Hl2 & Ha2 & Hr2). apply IH in E as (made2 & Hl & Hs & Hall & Ha & Hr3).
      exists (made1 ++ made2). split_and!; [by rewrite Hl, Hl2, Hl1, app_assoc|by eapply swept_app| |set_solver|lia].
      intros Hcalm. apply audits_from_app; [|apply Hall; lia].
      eapply audits_all_from; [done|]. eapply audits_all_later; [|apply Hall1; lia]. set_solver.
Qed.

(** An error and its snapshot are remembered together. *)
Definition progress_ok (p : FailoverProgress) : Prop :=
  fp_last_error p = None -> fp_last_error_snapshot p = None.

Lemma profile_loop_progress model index count profiles j n p s p' s' :
  profile_loop request_with_model provider_id binding profile_state_policy auto_model_mode
    model index count j n profiles p s = (Returned (inr p'), s') -> progress_ok p -> progress_ok p'.
Proof.
  revert j p s. induction profiles as [|profile profiles IH]; intros j p s; cbn [profile_loop].
  - by intros [= <- <-].
  - intros (answer & s1 & _ & E)%bind_returned _. destruct answer as [value|e].
    + by apply bind_returned in E as (? & ? & _ & [=]).
    + apply bind_returned in E as (? & ? & _ & E). apply bind_returned in E as (? & ? & _ & E).
      eapply IH; [exact E|]. done.
Qed.

Lemma model_loop_progress count profiles models i p s p' s' :
  model_loop request_with_model provider_id binding profile_state_policy cooldown_policy auto_model_mode
    i count profiles models p s = (Returned (inr p'), s') -> progress_ok p -> progress_ok p'.
Proof.
  revert i p s. induction models as [|model models IH]; intros i p s; cbn [model_loop]; [by intros [= <- <-]|].
  intros (r1 & s1 & Hp & E)%bind_returned Hok. destruct r1 as [v|p1]; [done|].
  apply bind_returned in E as (? & ? & _ & E). eapply IH; [exact E|].
  eapply profile_loop_progress; [exact Hp|]. exact Hok.
Qed.

(** The credentials in the order of their health at the instant the failover starts:
    none lost, sorted by [credential_rank] in the store as it is then, ties in the
    order given; without a health policy, the order given. *)
Definition health_ordered (s : R) (auth_profiles ordered : list ProviderAuthProfile) : Prop :=
  match profile_state_policy with
  | None => ordered = auth_profiles
  | Some policy =>
      let rank := credential_rank policy (instant_now (pr_world s)).1 (pr_states s) in
      ordered ≡ₚ auth_profiles /\
      StronglySorted (fun p q => rank_leb (rank p) (rank q) = true) ordered /\
      forall q,
        filter (fun p => rank_leb (rank q) (rank p) = true /\ rank_leb (rank p) (rank q) = true) ordered =
        filter (fun p => rank_leb (rank q) (rank p) = true /\ rank_leb (rank p) (rank q) = true) auth_profiles
  end.

Lemma prioritized_ordered s auth_profiles :
  health_ordered s auth_profiles (prioritize_provider_auth_profiles_by_health auth_profiles profile_state_policy
    (instant_now (pr_world s)).1 (pr_states s)).1.
Proof. unfold health_ordered. destruct profile_state_policy; [apply profiles_prioritized|done]. Qed.

Lemma ordered_profiles_quiet auth_profiles s ordered s' :
  ordered_profiles_now profile_state_policy auth_profiles s = (Returned ordered, s') ->
  health_ordered s auth_profiles ordered /\ quiet s s'.
Proof.
  pose proof (prioritized_ordered s auth_profiles) as Ho. revert Ho.
  unfold ordered_profiles_now, health_ordered. destruct profile_state_policy as [policy|]; [|by intros _ [= <- <-]].
  unfold read_world, bind, gets, modify, ret. pose proof (ob_instant Hob (pr_world s)) as Hi.
  destruct (instant_now (pr_world s)) as [now w]. cbn [fst snd] in *. intros Ho. change (pr_states _) with (pr_states s).
  destruct (prioritize_provider_auth_profiles_by_health _ _ _ _) as [o st'].
  intros [= <- <-]. split; [exact Ho|by split_and!].
Qed.

(** C31 (functional). Failover tries every model with every credential, in order, until
    one answers: the requests made are a prefix of the models times the credentials,
    these in the order of their health when the failover starts (none lost, usable ones
    first; the order given without a health policy), and all but a last successful one
    failed; a success is the answer of that last request; a failure means that all of
    them were made and carries the message of the last.  When the failover is bound to
    a kernel and its audit sink answers no record with an error meanwhile (such an error
    is ignored and loses the event), every failed attempt is in the kernel's audit
    trail with its reason, stage, attempt and the position of its model. *)
Theorem failover_attempts auth_profiles models s r s' :
  request_across_model_candidates request_with_model provider_id binding profile_state_policy cooldown_policy
    auto_model_mode auth_profiles models s = (Returned r, s') ->
  exists ordered made,
    health_ordered s auth_profiles ordered /\
    requests (pr_world s') = requests (pr_world s) ++ made /\
    (refused s' = refused s -> audits_from 0 (Z.of_nat (length models)) models made s') /\
    match r with
    | Ok value => swept (all_pairs models ordered) made None (inl value)
    | Err message =>
        map fst made = all_pairs models ordered /\ Forall failed made /\
        message = default (if decide (models = []) then "provider request has no model candidates"
                           else "provider request failed for every model candidate") (last_message made None)
    end.
Proof.
  unfold request_across_model_candidates. destruct models as [|model models].
  - intros [= <- <-]. eexists _, []. rewrite app_nil_r. split; [apply prioritized_ordered|]. split; [done|].
    split; [intros _ ? _ ? ? ?%elem_of_nil; done|]. by split_and!.
  - intros (ordered & s1 & Ho & E)%bind_returned. apply ordered_profiles_quiet in Ho as [Hp (Hl & Ha & Hr1)].
    apply bind_returned in E as (r1 & s2 & Hm & E). assert (Hm' := Hm).
    apply model_loop_sweeps in Hm as (made & Hl2 & Hs & Hall & Ha2 & Hr2).
    exists ordered, made. rewrite decide_False by done.
    destruct r1 as [v|p1]; injection E as <- <-;
      (split; [done|]; split; [by rewrite Hl2, Hl|]; split; [intros Hcalm; apply Hall; lia|]).
    + done.
    + destruct Hs as (Hf & Hall' & Hmsg). split; [done|]. split; [done|]. simpl in Hmsg. rewrite <-Hmsg.
      destruct (fp_last_error p1) as [m|] eqn:El; [done|]. simpl.
      rewrite (model_loop_progress _ _ _ _ _ _ _ _ Hm' ltac:(done) El). done.
Qed.
End facts.

(** ** Errors that say not to try the next model *)

Lemma bind_run {S A B} (m : M S A) (f : A -> M S B) s :
  bind m f s = match m s with (Returned a, s') => f a s' | (Panicked p, s') => (Panicked p, s') end.
Proof. reflexivity. Qed.

Section ignored.
Context {J : SerdeJson} {FF : FloatFormat} {H : DefaultHasher} {SC : SnapshotCodec}.
Context {P A C KW W T : Type} `{!PolicyEngine P, !AuditSink A, !Clock C, !ProviderEnv W}.

Local Abbreviation R := (ProviderRuntime P A C KW W).

Variable request_with_model : string -> bool -> ProviderAuthProfile -> M R (result T ModelRequestError).
Variables (provider_id : string) (profile_state_policy : option ProviderProfileStatePolicy).
Variables (cooldown_policy : option ModelCandidateCooldownPolicy) (auto_model_mode : bool).

Definition set_try_next (flag : bool) (e : ModelRequestError) : ModelRequestError :=
  {| me_message := me_message e; me_try_next_model := flag; me_reason := me_reason e;
     me_snapshot := me_snapshot e; me_rate_limit := me_rate_limit e |}.

(** The same requests, every error with the flag set to [flag]. *)
Definition with_try_next (flag : bool) (model : string) (auto : bool) (profile : ProviderAuthProfile)
  : M R (result T ModelRequestError) :=
  let! r := request_with_model model auto profile in ret (map_err (set_try_next flag) r).

Definition same_progress (p q : FailoverProgress) : Prop :=
  fp_last_error p = fp_last_error q /\ fp_last_error_snapshot p = fp_last_error_snapshot q /\
  fp_cooldown_reason p = fp_cooldown_reason q /\ fp_cooldown_rate_limit p = fp_cooldown_rate_limit q.

Definition same_outcome (x y : outcome (T + FailoverProgress) * R) : Prop :=
  x.2 = y.2 /\
  match x.1, y.1 with
  | Returned (inl v), Returned (inl w) => v = w
  | Returned (inr p), Returned (inr q) => same_progress p q
  | Panicked a, Panicked b => a = b
  | _, _ => False
  end.

Lemma note_error_same flag e p q :
  same_progress p q -> same_progress (fp_note_error (set_try_next flag e) p) (fp_note_error e q).
Proof.
  intros (E1 & E2 & E3 & E4). unfold fp_note_error, same_progress. simpl. rewrite E3, E4. by split_and!.
Qed.

Lemma same_outcome_bind {X} (m : M R X) (f g : X -> M R (T + FailoverProgress)) s :
  (forall x s', same_outcome (f x s') (g x s')) -> same_outcome (bind m f s) (bind m g s).
Proof. intros Hfg. unfold bind. destruct (m s) as [[x|?] s']; [apply Hfg|done]. Qed.

Lemma profile_loop_ignores flag model index count profiles j n p q s :
  same_progress p q ->
  same_outcome
    (profile_loop (with_try_next flag) provider_id AdvisoryOnly profile_state_policy auto_model_mode
       model index count j n profiles p s)
    (profile_loop request_with_model provider_id AdvisoryOnly profile_state_policy auto_model_mode
       model index count j n profiles q s).
Proof.
  revert j p q s. induction profiles as [|profile profiles IH]; intros j p q s Hpq; cbn [profile_loop]; [done|].
  rewrite !bind_run. unfold with_try_next at 1. rewrite bind_run.
  destruct (request_with_model model auto_model_mode profile s) as [[r|?] s1]; [|done].
  destruct r as [v|e]; cbn [map_err ret].
  - destruct profile_state_policy; [|done]. apply same_outcome_bind. done.
  - apply same_outcome_bind. intros _ s2. apply same_outcome_bind. intros _ s3. apply IH. by apply note_error_same.
Qed.

Lemma model_loop_ignores flag count profiles models i p q s :
  same_progress p q ->
  same_outcome
    (model_loop (with_try_next flag) provider_id AdvisoryOnly profile_state_policy cooldown_policy auto_model_mode
       i count profiles models p s)
    (model_loop request_with_model provider_id AdvisoryOnly profile_state_policy cooldown_policy auto_model_mode
       i count profiles models q s).
Proof.
  revert i p q s. induction models as [|model models IH]; intros i p q s Hpq; cbn [model_loop]; [done|].
  assert (Hn : same_progress (fp_new_model p) (fp_new_model q)) by (destruct Hpq as (? & ? & _ & _); by split_and!).
  destruct (profile_loop_ignores flag model i count profiles 0 (Z.of_nat (length profiles)) _ _ s Hn) as [Es Hr].
  rewrite !bind_run. destruct (profile_loop (with_try_next flag) _ _ _ _ _ _ _ _ _ _ _ _) as [r1 s1].
  destruct (profile_loop request_with_model _ _ _ _ _ _ _ _ _ _ _ _) as [r2 s2]. simpl in Es, Hr. subst s2.
  destruct r1 as [[v|p1]|?], r2 as [[w|p2]|?]; try done.
  destruct Hr as (E1 & E2 & E3 & E4). rewrite E3, E4. apply same_outcome_bind. intros _ s2. apply IH. by split_and!.
Qed.

(** The flag of an error that says whether to try the next model is never heeded:
    with it set or cleared on every error, a failover makes the same requests in the
    same states and answers the same. *)
Theorem try_next_model_ignored flag auth_profiles models s :
  request_across_model_candidates (with_try_next flag) provider_id AdvisoryOnly profile_state_policy
    cooldown_policy auto_model_mode auth_profiles models s =
  request_across_model_candidates request_with_model provider_id AdvisoryOnly profile_state_policy
    cooldown_policy auto_model_mode auth_profiles models s.
Proof.
  unfold request_across_model_candidates. destruct models as [|model models]; [done|].
  rewrite !bind_run. destruct (ordered_profiles_now profile_state_policy auth_profiles s) as [[ordered|?] s1]; [|done].
  destruct (model_loop_ignores flag (Z.of_nat (length (model :: models))) ordered (model :: models) 0
    {| fp_last_error := None; fp_last_error_snapshot := None; fp_switch_reason := None;
       fp_cooldown_reason := None; fp_cooldown_rate_limit := None |} _ s1 ltac:(done)) as [Es Hr].
  rewrite !bind_run. destruct (model_loop (with_try_next flag) _ _ _ _ _ _ _ _ _ _ _) as [r1 s2].
  destruct (model_loop request_with_model _ _ _ _ _ _ _ _ _ _ _) as [r2 s3]. simpl in Es, Hr. subst s3.
  destruct r1 as [[v|p1]|?], r2 as [[w|p2]|?]; try done; [by subst| |by subst].
  destruct Hr as (E1 & E2 & _). by rewrite E1, E2.
Qed.
End ignored.

(** ** Models cooling down *)

Section cooldowns.
Context {H : DefaultHasher}.

Definition cooling_at (policy : ModelCandidateCooldownPolicy) (now : Z) (c : ModelCandidateCooldownCache)
    (model : string) : bool :=
  match lru_entries c !! build_model_candidate_cooldown_key (cp_namespace policy) model with
  | Some entry => unexpired now entry
  | None => false
  end.

Lemma cooling_at_prune policy now c model :
  cooling_at policy now (ModelCandidateCooldownCache_prune_expired now c) model = cooling_at policy now c model.
Proof.
  unfold cooling_at, ModelCandidateCooldownCache_prune_expired.
  set (key := build_model_candidate_cooldown_key _ model).
  destruct (lru_entries c !! key) as [e|] eqn:E; [destruct (unexpired now e) eqn:Eu|].
  - rewrite (proj2 (lru_retain_lookup (unexpired now) c key e)) by done. done.
  - destruct (lru_entries (lru_retain _ c) !! key) as [e'|] eqn:E'; [|done].
    apply lru_retain_lookup in E' as [E' Hu]. congruence.
  - destruct (lru_entries (lru_retain _ c) !! key) as [e'|] eqn:E'; [|done].
    apply lru_retain_lookup in E' as [E' Hu]. congruence.
Qed.

Lemma lookup_active_cooling policy now c model :
  let (active, c') := ModelCandidateCooldownCache_lookup_active
     (build_model_candidate_cooldown_key (cp_namespace policy) model) now c in
  bool_decide (is_Some (ce_reason <$> active)) = cooling_at policy now c model /\
  c' = ModelCandidateCooldownCache_prune_expired now c.
Proof.
  unfold ModelCandidateCooldownCache_lookup_active. split; [|done]. rewrite <-cooling_at_prune. unfold cooling_at.
  destruct (lru_entries _ !! _) as [e|]; simpl; [|done]. by destruct (unexpired now e).
Qed.

Lemma split_by_cooldown_filters policy now models c :
  let '(ready, cooling, _) := split_by_cooldown policy now models c in
  ready = filter (fun m => cooling_at policy now c m = false) models /\
  cooling = filter (fun m => cooling_at policy now c m = true) models.
Proof.
  revert c. induction models as [|model models IH]; intros c; cbn [split_by_cooldown]; [done|].
  pose proof (lookup_active_cooling policy now c model) as Ha.
  destruct (ModelCandidateCooldownCache_lookup_active _ now c) as [active c']. destruct Ha as [Ha ->]. rewrite Ha.
  specialize (IH (ModelCandidateCooldownCache_prune_expired now c)).
  destruct (split_by_cooldown policy now models _) as [[ready cooling] c'']. destruct IH as [-> ->].
  rewrite !filter_cons.
  rewrite (list_filter_iff (fun m => cooling_at policy now (ModelCandidateCooldownCache_prune_expired now c) m = false)
             (fun m => cooling_at policy now c m = false)) by (intros; by rewrite cooling_at_prune).
  rewrite (list_filter_iff (fun m => cooling_at policy now (ModelCandidateCooldownCache_prune_expired now c) m = true)
             (fun m => cooling_at policy now c m = true)) by (intros; by rewrite cooling_at_prune).
  by destruct (cooling_at policy now c model).
Qed.

(** Models that are cooling down are tried last; otherwise the order stays, and no
    model is lost. *)
Theorem cooling_models_last policy models now c :
  (prioritize_model_candidates_by_cooldown models (Some policy) now c).1 =
  filter (fun m => cooling_at policy now c m = false) models ++
  filter (fun m => cooling_at policy now c m = true) models.
Proof.
  unfold prioritize_model_candidates_by_cooldown. destruct (length models <=? 1) eqn:El.
  - apply Nat.leb_le in El. destruct models as [|m [|]]; simpl in El; [done| |lia].
    rewrite !filter_cons. by destruct (cooling_at policy now c m).
  - pose proof (split_by_cooldown_filters policy now models c) as Hs.
    destruct (split_by_cooldown policy now models c) as [[ready cooling] c']. destruct Hs as [<- <-].
    by destruct ready.
Qed.
End cooldowns.
