(* ===== verification/ProviderRequest.v ===== *)
(** * The request of one model

    [crates/app/src/provider]: [policy.rs], [contracts.rs], [capability_profile_runtime.rs],
    [request_planner.rs], the errors of [transport_trait.rs], [auth_profile_runtime.rs], and
    [execute_model_request] of [request_executor.rs]: one model, one credential, the
    retries with backoff, and the ways the payload is adapted when the provider rejects
    a part of it.  The HTTP call, the building of the body and of the request, the
    shape of an answer and the hints added to messages are parameters; so is the
    parsing of a date.  The streaming executors are not modelled. *)

From Stdlib Require Import Ascii.
From stdpp Require Import gmap.
From S2P Require Import Prelude RustStr Json Provider ProviderHealth.

(** ** Configuration *)

Inductive ProviderKind : Type :=
| KindAnthropic | KindBedrock | KindByteplus | KindByteplusCoding | KindCerebras
| KindCloudflareAiGateway | KindCohere | KindCustom | KindGemini | KindKimi | KindKimiCoding
| KindGroq | KindGithubCopilot | KindFireworks | KindMistral | KindMinimax | KindNovita
| KindNvidia | KindLlamacpp | KindLmStudio | KindOllama | KindOpenai | KindOpencodeZen
| KindOpencodeGo | KindOpenrouter | KindPerplexity | KindQianfan | KindQwen | KindBailianCoding
| KindSambanova | KindSglang | KindSiliconflow | KindStepfun | KindStepPlan | KindTogether
| KindVenice | KindVercelAiGateway | KindVolcengine | KindVolcengineCoding | KindXai | KindXiaomi
| KindZai | KindZhipu | KindDeepseek | KindVllm.

#[export] Instance ProviderKind_eq_dec : EqDecision ProviderKind.
Proof. solve_decision. Defined.

Inductive ProviderProtocolFamily : Type := ProtoOpenAiChatCompletions | ProtoAnthropicMessages | ProtoBedrockConverse.
Inductive ProviderAuthScheme : Type := Bearer | XApiKey | XGoogApiKey.
Inductive ConfigFeatureFamily : Type := CfgOpenAiCompatible | CfgAnthropic | CfgBedrock | CfgVolcengine.

#[export] Instance ProviderAuthScheme_eq_dec : EqDecision ProviderAuthScheme.
Proof. solve_decision. Defined.

(** The columns of [PROVIDER_PROFILES] that are used here. *)
Definition ProviderKind_profile_id (k : ProviderKind) : string :=
  match k with
  | KindAnthropic => "anthropic"
  | KindBedrock => "bedrock"
  | KindByteplus => "byteplus"
  | KindByteplusCoding => "byteplus_coding"
  | KindCerebras => "cerebras"
  | KindCloudflareAiGateway => "cloudflare_ai_gateway"
  | KindCohere => "cohere"
  | KindCustom => "custom"
  | KindGemini => "gemini"
  | KindKimi => "kimi"
  | KindKimiCoding => "kimi_coding"
  | KindGroq => "groq"
  | KindGithubCopilot => "github-copilot"
  | KindFireworks => "fireworks"
  | KindMistral => "mistral"
  | KindMinimax => "minimax"
  | KindNovita => "novita"
  | KindNvidia => "nvidia"
  | KindLlamacpp => "llamacpp"
  | KindLmStudio => "lm_studio"
  | KindOllama => "ollama"
  | KindOpenai => "openai"
  | KindOpencodeZen => "opencode_zen"
  | KindOpencodeGo => "opencode_go"
  | KindOpenrouter => "openrouter"
  | KindPerplexity => "perplexity"
  | KindQianfan => "qianfan"
  | KindQwen => "qwen"
  | KindBailianCoding => "bailian_coding"
  | KindSambanova => "sambanova"
  | KindSglang => "sglang"
  | KindSiliconflow => "siliconflow"
  | KindStepfun => "stepfun"
  | KindStepPlan => "step_plan"
  | KindTogether => "together"
  | KindVenice => "venice"
  | KindVercelAiGateway => "vercel_ai_gateway"
  | KindVolcengine => "volcengine"
  | KindVolcengineCoding => "volcengine_coding"
  | KindXai => "xai"
  | KindXiaomi => "xiaomi"
  | KindZai => "zai"
  | KindZhipu => "zhipu"
  | KindDeepseek => "deepseek"
  | KindVllm => "vllm"
  end.

Definition ProviderKind_protocol_family (k : ProviderKind) : ProviderProtocolFamily :=
  match k with
  | KindAnthropic => ProtoAnthropicMessages
  | KindBedrock => ProtoBedrockConverse
  | _ => ProtoOpenAiChatCompletions
  end.

Definition ProviderKind_auth_scheme (k : ProviderKind) : ProviderAuthScheme :=
  match k with
  | KindAnthropic => XApiKey
  | _ => Bearer
  end.

Definition ProviderKind_feature_family (k : ProviderKind) : ConfigFeatureFamily :=
  match k with
  | KindAnthropic => CfgAnthropic
  | KindBedrock => CfgBedrock
  | KindByteplus | KindByteplusCoding | KindVolcengine | KindVolcengineCoding => CfgVolcengine
  | _ => CfgOpenAiCompatible
  end.

Inductive ProviderWireApi : Type := WireChatCompletions | WireResponses.
Inductive ReasoningEffort : Type := EffortNone | EffortMinimal | EffortLow | EffortMedium | EffortHigh | EffortXhigh.
Inductive ProviderProfileHealthModeConfig : Type := HealthProviderDefault | HealthEnforce | HealthObserveOnly.
Inductive ProviderToolSchemaModeConfig : Type :=
| SchemaProviderDefault | SchemaDisabled | SchemaEnabledStrict | SchemaEnabledWithDowngrade.
Inductive ProviderReasoningExtraBodyModeConfig : Type := ExtraProviderDefault | ExtraOmit | ExtraKimiThinking.

(** The fields of [ProviderConfig] the request path reads, apart from endpoints,
    secrets and the body of a request. *)
Record ProviderConfig : Type := {
  pc_kind : ProviderKind;
  pc_model : string;
  pc_wire_api : ProviderWireApi;
  pc_preferred_models : list string;
  pc_reasoning_effort : option ReasoningEffort;
  pc_max_tokens : option Z;
  pc_request_timeout_ms : Z;
  pc_retry_max_attempts : Z;
  pc_retry_initial_backoff_ms : Z;
  pc_retry_max_backoff_ms : Z;
  pc_model_catalog_cache_ttl_ms : Z;
  pc_model_catalog_stale_if_error_ms : Z;
  pc_model_catalog_cache_max_entries : Z;
  pc_model_candidate_cooldown_ms : Z;
  pc_model_candidate_cooldown_max_ms : Z;
  pc_model_candidate_cooldown_max_entries : Z;
  pc_profile_cooldown_ms : Z;
  pc_profile_cooldown_max_ms : Z;
  pc_profile_auth_reject_disable_ms : Z;
  pc_profile_state_max_entries : Z;
  pc_profile_health_mode : ProviderProfileHealthModeConfig;
  pc_tool_schema_mode : ProviderToolSchemaModeConfig;
  pc_reasoning_extra_body_mode : ProviderReasoningExtraBodyModeConfig;
  pc_tool_schema_disabled_model_hints : list string;
  pc_tool_schema_strict_model_hints : list string;
  pc_reasoning_extra_body_kimi_model_hints : list string;
  pc_reasoning_extra_body_omit_model_hints : list string;
}.

(** [Ord::clamp] with [min <= max], which every caller here has. *)
Definition clamp (value low high : Z) : Z :=
  if (value <? low)%Z then low else if (high <? value)%Z then high else value.

Definition clamp_non_negative_u64 (value max : Z) : Z := if (value =? 0)%Z then 0 else Z.min value max.
Definition clamp_u64_with_floor (value max floor : Z) : Z := clamp value floor max.
Definition clamp_usize_at_least_one (value max : Z) : Z := clamp value 1 max.

Definition ProviderConfig_resolved_model_catalog_cache_ttl_ms (c : ProviderConfig) : Z :=
  clamp_non_negative_u64 (pc_model_catalog_cache_ttl_ms c) 300000.
Definition ProviderConfig_resolved_model_catalog_stale_if_error_ms (c : ProviderConfig) : Z :=
  clamp_non_negative_u64 (pc_model_catalog_stale_if_error_ms c) 600000.
Definition ProviderConfig_resolved_model_catalog_cache_max_entries (c : ProviderConfig) : Z :=
  clamp_usize_at_least_one (pc_model_catalog_cache_max_entries c) 256.
Definition ProviderConfig_resolved_model_candidate_cooldown_ms (c : ProviderConfig) : Z :=
  clamp_non_negative_u64 (pc_model_candidate_cooldown_ms c) 3600000.
Definition ProviderConfig_resolved_model_candidate_cooldown_max_ms (c : ProviderConfig) : Z :=
  clamp_u64_with_floor (pc_model_candidate_cooldown_max_ms c) 86400000
    (ProviderConfig_resolved_model_candidate_cooldown_ms c).
Definition ProviderConfig_resolved_model_candidate_cooldown_max_entries (c : ProviderConfig) : Z :=
  clamp_usize_at_least_one (pc_model_candidate_cooldown_max_entries c) 512.
Definition ProviderConfig_resolved_profile_cooldown_ms (c : ProviderConfig) : Z :=
  clamp_non_negative_u64 (pc_profile_cooldown_ms c) 3600000.
Definition ProviderConfig_resolved_profile_cooldown_max_ms (c : ProviderConfig) : Z :=
  clamp_u64_with_floor (pc_profile_cooldown_max_ms c) 86400000 (ProviderConfig_resolved_profile_cooldown_ms c).
Definition ProviderConfig_resolved_profile_auth_reject_disable_ms (c : ProviderConfig) : Z :=
  clamp (pc_profile_auth_reject_disable_ms c) 60000 604800000.
Definition ProviderConfig_resolved_profile_state_max_entries (c : ProviderConfig) : Z :=
  clamp_usize_at_least_one (pc_profile_state_max_entries c) 1024.

Definition ProviderConfig_explicit_model (c : ProviderConfig) : option string :=
  let trimmed := trim (pc_model c) in
  if negb (str_is_empty trimmed) && negb (bool_decide (to_ascii_lowercase trimmed = "auto"))
  then Some trimmed else None.

Definition ProviderConfig_resolved_model : ProviderConfig -> option string := ProviderConfig_explicit_model.
Definition ProviderConfig_model_selection_requires_fetch (c : ProviderConfig) : bool :=
  bool_decide (ProviderConfig_explicit_model c = None).

(** [if trimmed.is_empty() || models.contains(trimmed) { continue }; models.push(trimmed)]. *)
Definition push_model (models : list string) (raw : string) : list string :=
  let trimmed := trim raw in
  if str_is_empty trimmed || bool_decide (trimmed ∈ models) then models else models ++ [trimmed].

Definition ProviderConfig_configured_auto_model_candidates (c : ProviderConfig) : list string :=
  match ProviderConfig_explicit_model c with
  | Some _ => []
  | None => foldl push_model [] (pc_preferred_models c)
  end.

Definition push_hint (normalized : list string) (raw : string) : list string :=
  let lowercased := to_ascii_lowercase (trim raw) in
  if str_is_empty lowercased || bool_decide (lowercased ∈ normalized) then normalized
  else normalized ++ [lowercased].

(** [normalize_hint_values] of the configuration; [normalize_model_hint_values] of the
    capability profile is the same function. *)
Definition normalize_hint_values (values : list string) : list string := foldl push_hint [] values.
Definition normalize_model_hint_values (values : list string) : list string := foldl push_hint [] values.

(** ** Contracts *)

Inductive ProviderTransportMode : Type :=
| ModeOpenAiChatCompletions | ModeAnthropicMessages | ModeBedrockConverse | ModeGoogleGenerateContent
| ModeResponses | ModeKimiApi.

#[export] Instance ProviderTransportMode_eq_dec : EqDecision ProviderTransportMode.
Proof. solve_decision. Defined.

Definition ProviderTransportMode_for_provider (provider : ProviderConfig) : ProviderTransportMode :=
  match ProviderKind_protocol_family (pc_kind provider) with
  | ProtoAnthropicMessages => ModeAnthropicMessages
  | ProtoBedrockConverse => ModeBedrockConverse
  | ProtoOpenAiChatCompletions =>
      if decide (pc_kind provider = KindKimiCoding) then ModeKimiApi else
      match pc_wire_api provider with
      | WireChatCompletions => ModeOpenAiChatCompletions
      | WireResponses => ModeResponses
      end
  end.

Inductive ProviderFeatureFamily : Type := OpenAiCompatible | Anthropic | Bedrock | Google | VolcengineCompatible.

Inductive ProviderToolSchemaMode : Type := SchemaOff | EnabledStrict | EnabledWithDowngradeOnUnsupported.
Inductive ProviderReasoningExtraBodyMode : Type := OmitExtraBody | KimiThinking.

#[export] Instance ProviderToolSchemaMode_eq_dec : EqDecision ProviderToolSchemaMode.
Proof. solve_decision. Defined.

Record ProviderCapabilityContract : Type := {
  cc_tool_schema_mode : ProviderToolSchemaMode;
  cc_reasoning_extra_body_mode : ProviderReasoningExtraBodyMode;
}.

Definition ProviderCapabilityContract_turn_tool_schema_enabled (c : ProviderCapabilityContract) : bool :=
  match cc_tool_schema_mode c with SchemaOff => false | _ => true end.
Definition ProviderCapabilityContract_tool_schema_downgrade_on_unsupported (c : ProviderCapabilityContract) : bool :=
  match cc_tool_schema_mode c with EnabledWithDowngradeOnUnsupported => true | _ => false end.

Inductive TokenLimitField : Type := MaxOutputTokens | MaxCompletionTokens | MaxTokens | OmitTokens.
Inductive ReasoningField : Type := ReasoningEffortField | ReasoningObject | OmitReasoning.
Inductive TemperatureField : Type := IncludeTemperature | OmitTemperature.

#[export] Instance TokenLimitField_eq_dec : EqDecision TokenLimitField.
Proof. solve_decision. Defined.
#[export] Instance ReasoningField_eq_dec : EqDecision ReasoningField.
Proof. solve_decision. Defined.
#[export] Instance TemperatureField_eq_dec : EqDecision TemperatureField.
Proof. solve_decision. Defined.

Record CompletionPayloadMode : Type := {
  pm_token_field : TokenLimitField;
  pm_reasoning_field : ReasoningField;
  pm_temperature_field : TemperatureField;
}.

#[export] Instance CompletionPayloadMode_eq_dec : EqDecision CompletionPayloadMode.
Proof. solve_decision. Defined.

Definition token_field_progression (default_field : TokenLimitField) : list TokenLimitField :=
  match default_field with
  | MaxOutputTokens => [MaxOutputTokens; MaxTokens; MaxCompletionTokens; OmitTokens]
  | MaxCompletionTokens => [MaxCompletionTokens; MaxTokens; OmitTokens; OmitTokens]
  | MaxTokens => [MaxTokens; MaxCompletionTokens; OmitTokens; OmitTokens]
  | OmitTokens => [OmitTokens; OmitTokens; OmitTokens; OmitTokens]
  end.

Definition google_token_field_progression : list TokenLimitField :=
  [MaxOutputTokens; OmitTokens; OmitTokens; OmitTokens].

Definition reasoning_field_progression (default_field : ReasoningField) : list ReasoningField :=
  match default_field with
  | ReasoningEffortField => [ReasoningEffortField; ReasoningObject; OmitReasoning]
  | ReasoningObject => [ReasoningObject; ReasoningEffortField; OmitReasoning]
  | OmitReasoning => [OmitReasoning; ReasoningEffortField; ReasoningObject]
  end.

Definition temperature_field_progression (default_field : TemperatureField) : list TemperatureField :=
  match default_field with
  | IncludeTemperature => [IncludeTemperature; OmitTemperature]
  | OmitTemperature => [OmitTemperature; OmitTemperature]
  end.

Record ProviderPayloadAdaptationContract : Type := {
  ac_token_field_progression : list TokenLimitField;
  ac_reasoning_field_progression : list ReasoningField;
  ac_temperature_field_progression : list TemperatureField;
  ac_unsupported_parameter_message_fragments : list string;
  ac_token_error_parameters : list string;
  ac_reasoning_error_parameters : list string;
  ac_temperature_error_parameters : list string;
  ac_temperature_default_only_fragments : list string;
}.

Record ProviderErrorClassificationContract : Type := {
  ec_unsupported_parameter_message_fragments : list string;
  ec_tool_schema_error_parameters : list string;
  ec_tool_schema_error_message_fragments : list string;
  ec_model_not_found_codes : list string;
  ec_model_error_parameters : list string;
  ec_model_mismatch_message_fragments : list string;
}.

(** Without the validation of endpoints ([validation]). *)
Record ProviderRuntimeContract : Type := {
  rc_feature_family : ProviderFeatureFamily;
  rc_default_token_field : TokenLimitField;
  rc_default_reasoning_field : ReasoningField;
  rc_default_temperature_field : TemperatureField;
  rc_payload_adaptation : ProviderPayloadAdaptationContract;
  rc_transport_mode : ProviderTransportMode;
  rc_profile_health_mode : ProviderProfileHealthMode;
  rc_error_classification : ProviderErrorClassificationContract;
  rc_capability : ProviderCapabilityContract;
}.

Definition DEFAULT_UNSUPPORTED_PARAMETER_MESSAGE_FRAGMENTS : list string :=
  ["unknown parameter"; "unsupported parameter"; "not supported"].

Definition provider_payload_adaptation_contract (feature_family : ProviderFeatureFamily)
    (default_token_field : TokenLimitField) (default_reasoning_field : ReasoningField)
    (default_temperature_field : TemperatureField) : ProviderPayloadAdaptationContract :=
  {| ac_token_field_progression :=
       match feature_family with
       | Google => google_token_field_progression
       | _ => token_field_progression default_token_field
       end;
     ac_reasoning_field_progression := reasoning_field_progression default_reasoning_field;
     ac_temperature_field_progression := temperature_field_progression default_temperature_field;
     ac_unsupported_parameter_message_fragments := DEFAULT_UNSUPPORTED_PARAMETER_MESSAGE_FRAGMENTS;
     ac_token_error_parameters :=
       match feature_family with
       | OpenAiCompatible | VolcengineCompatible => ["max_output_tokens"; "max_tokens"; "max_completion_tokens"]
       | Anthropic | Bedrock => ["max_tokens"; "max_completion_tokens"]
       | Google => ["maxOutputTokens"; "generationConfig.maxOutputTokens"]
       end;
     ac_reasoning_error_parameters := ["reasoning_effort"; "reasoning"];
     ac_temperature_error_parameters :=
       match feature_family with
       | Google => ["temperature"; "generationConfig.temperature"]
       | _ => ["temperature"]
       end;
     ac_temperature_default_only_fragments := ["only the default"] |}.

(** The same for every family. *)
Definition provider_error_classification_contract (feature_family : ProviderFeatureFamily)
  : ProviderErrorClassificationContract :=
  {| ec_unsupported_parameter_message_fragments := DEFAULT_UNSUPPORTED_PARAMETER_MESSAGE_FRAGMENTS;
     ec_tool_schema_error_parameters := ["tools"; "tool_choice"];
     ec_tool_schema_error_message_fragments :=
       ["tools are not supported"; "tool use is not supported"; "function calling is not supported"];
     ec_model_not_found_codes := ["model_not_found"; "unsupported_model"; "invalid_model"; "not_found_error"];
     ec_model_error_parameters := ["model"];
     ec_model_mismatch_message_fragments :=
       ["only supports"; "only available"; "this endpoint"; "/v1/responses"; "model does not exist"] |}.

Definition apply_provider_capability_config_overrides (provider : ProviderConfig)
    (capability : ProviderCapabilityContract) : ProviderCapabilityContract :=
  {| cc_tool_schema_mode := match pc_tool_schema_mode provider with
                            | SchemaProviderDefault => cc_tool_schema_mode capability
                            | SchemaDisabled => SchemaOff
                            | SchemaEnabledStrict => EnabledStrict
                            | SchemaEnabledWithDowngrade => EnabledWithDowngradeOnUnsupported
                            end;
     cc_reasoning_extra_body_mode := match pc_reasoning_extra_body_mode provider with
                                     | ExtraProviderDefault => cc_reasoning_extra_body_mode capability
                                     | ExtraOmit => OmitExtraBody
                                     | ExtraKimiThinking => KimiThinking
                                     end |}.

(** With the override of [KimiCoding] ([provider_capability_overrides]). *)
Definition provider_capability_contract (feature_family : ProviderFeatureFamily) (provider : ProviderConfig)
  : ProviderCapabilityContract :=
  apply_provider_capability_config_overrides provider
    {| cc_tool_schema_mode := EnabledWithDowngradeOnUnsupported;
       cc_reasoning_extra_body_mode :=
         if decide (pc_kind provider = KindKimiCoding) then KimiThinking else OmitExtraBody |}.

Definition build_provider_runtime_contract (provider : ProviderConfig) (transport_mode : ProviderTransportMode)
    (feature_family : ProviderFeatureFamily) : ProviderRuntimeContract :=
  let default_token_field :=
    match transport_mode with
    | ModeResponses | ModeGoogleGenerateContent => MaxOutputTokens
    | ModeOpenAiChatCompletions =>
        if decide (pc_kind provider = KindOpenai) then MaxCompletionTokens else MaxTokens
    | ModeAnthropicMessages | ModeBedrockConverse | ModeKimiApi => MaxTokens
    end in
  let profile_health_mode :=
    match pc_profile_health_mode provider with
    | HealthProviderDefault =>
        if decide (pc_kind provider = KindOpenrouter) then ObserveOnly else EnforceUnusableWindows
    | HealthEnforce => EnforceUnusableWindows
    | HealthObserveOnly => ObserveOnly
    end in
  let default_reasoning_field :=
    match transport_mode with
    | ModeResponses => ReasoningObject
    | ModeOpenAiChatCompletions | ModeKimiApi => ReasoningEffortField
    | ModeAnthropicMessages | ModeBedrockConverse | ModeGoogleGenerateContent => OmitReasoning
    end in
  let default_temperature_field := IncludeTemperature in
  {| rc_feature_family := feature_family;
     rc_default_token_field := default_token_field;
     rc_default_reasoning_field := default_reasoning_field;
     rc_default_temperature_field := default_temperature_field;
     rc_payload_adaptation := provider_payload_adaptation_contract feature_family default_token_field
                                default_reasoning_field default_temperature_field;
     rc_transport_mode := transport_mode;
     rc_profile_health_mode := profile_health_mode;
     rc_error_classification := provider_error_classification_contract feature_family;
     rc_capability := provider_capability_contract feature_family provider |}.

Definition provider_runtime_contract (provider : ProviderConfig) : ProviderRuntimeContract :=
  build_provider_runtime_contract provider (ProviderTransportMode_for_provider provider)
    (match ProviderKind_feature_family (pc_kind provider) with
     | CfgOpenAiCompatible => OpenAiCompatible
     | CfgAnthropic => Anthropic
     | CfgBedrock => Bedrock
     | CfgVolcengine => VolcengineCompatible
     end).

Definition CompletionPayloadMode_default_for_contract (provider : ProviderConfig)
    (runtime_contract : ProviderRuntimeContract) : CompletionPayloadMode :=
  {| pm_token_field := match pc_max_tokens provider with
                       | Some _ => rc_default_token_field runtime_contract | None => OmitTokens end;
     pm_reasoning_field := match pc_reasoning_effort provider with
                           | Some _ => rc_default_reasoning_field runtime_contract | None => OmitReasoning end;
     pm_temperature_field := rc_default_temperature_field runtime_contract |}.

(** ** Errors of the provider *)

Record ProviderApiError : Type := {
  ax_code : option string;
  ax_param : option string;
  ax_message : option string;
}.

(** [Option::or_else]. *)
Definition or_else {A} (o : option A) (k : option A) : option A :=
  match o with Some a => Some a | None => k end.

(** [iter().find_map(f)]. *)
Fixpoint find_map {A B} (f : A -> option B) (l : list A) : option B :=
  match l with
  | [] => None
  | x :: r => match f x with Some b => Some b | None => find_map f r end
  end.

Definition json_array (v : json) : option (list json) :=
  match v with JArray items => Some items | _ => None end.

Definition contains_any_fragment (message : string) (fragments : list string) : bool :=
  existsb (fun fragment => str_contains fragment message) fragments.

Definition normalize_error_token (value : string) : string :=
  replace_char "-" "_" (replace_char " " "_" (to_ascii_lowercase (trim value))).

Definition provider_error_value (body : json) : json :=
  default body (or_else (json_get "error" body) (or_else (json_get "Error" body)
    (or_else (json_get "ResponseMetadata" body ≫= json_get "Error")
       (json_get "response_metadata" body ≫= json_get "error")))).

Section api_errors.
Context {FF : FloatFormat}.

Definition value_to_trimmed_string (v : json) : option string :=
  match v with
  | JString text => let trimmed := trim text in if str_is_empty trimmed then None else Some trimmed
  | JNumber n => Some (JsonNumber_to_string n)
  | JBool b => Some (if b then "true" else "false")
  | JNull | JArray _ | JObject _ => None
  end.

Definition extract_error_string (error : json) (field_names : list string) : option string :=
  find_map (fun field =>
    or_else (json_get field error ≫= value_to_trimmed_string)
      (details ← (d ← json_get "details" error; json_array d);
       find_map (fun detail => json_get field detail ≫= value_to_trimmed_string) details)) field_names.

(** [find(|message| !message.is_empty())] after [filter_map]. *)
Definition extract_error_message (error : json) : option string :=
  or_else (extract_error_string error ["message"; "Message"; "detail"; "Detail"])
    (or_else (json_get "raw_body" error ≫= value_to_trimmed_string)
       (details ← (d ← json_get "details" error; json_array d);
        find_map (fun detail =>
          message ← (v ← json_get "message" detail; value_to_trimmed_string v);
          if str_is_empty message then None else Some message) details)).

Definition parse_provider_api_error (body : json) : ProviderApiError :=
  let error := provider_error_value body in
  {| ax_code := normalize_error_token <$> extract_error_string error ["code"; "Code"; "type"; "Type"; "CodeN"];
     ax_param := normalize_error_token <$>
       extract_error_string error ["param"; "Param"; "parameter"; "Parameter"; "field"; "Field"];
     ax_message := to_ascii_lowercase <$> extract_error_message error |}.
End api_errors.

(** The parameters are literals of the contracts, all ASCII. *)
Definition is_parameter_unsupported_with_fragments (error : ProviderApiError) (parameter : string)
    (unsupported_fragments : list string) : bool :=
  let param := to_ascii_lowercase parameter in
  if decide (ax_param error = Some param) then true else
  let message := default "" (ax_message error) in
  if negb (contains_any_fragment message unsupported_fragments) then false else
  str_contains param message || str_contains (replace_char "_" "-" param) message ||
  str_contains (replace_char "_" " " param) message.

Definition should_disable_tool_schema_for_error (error : ProviderApiError)
    (runtime_contract : ProviderRuntimeContract) : bool :=
  let error_contract := rc_error_classification runtime_contract in
  if existsb (fun parameter => is_parameter_unsupported_with_fragments error parameter
                (ec_unsupported_parameter_message_fragments error_contract))
       (ec_tool_schema_error_parameters error_contract) then true else
  contains_any_fragment (default "" (ax_message error)) (ec_tool_schema_error_message_fragments error_contract).

Inductive PayloadAdaptationAxis : Type := AxisTokenField | AxisReasoningField | AxisTemperatureField.

Definition classify_payload_adaptation_axis (error : ProviderApiError)
    (contract : ProviderPayloadAdaptationContract) : option PayloadAdaptationAxis :=
  let unsupported parameter := is_parameter_unsupported_with_fragments error parameter
    (ac_unsupported_parameter_message_fragments contract) in
  if existsb unsupported (ac_token_error_parameters contract) then Some AxisTokenField else
  if existsb unsupported (ac_reasoning_error_parameters contract) then Some AxisReasoningField else
  let temperature_rejected :=
    existsb unsupported (ac_temperature_error_parameters contract) ||
    (match ax_param error with
     | Some param => bool_decide (param ∈ ac_temperature_error_parameters contract)
     | None => false
     end &&
     contains_any_fragment (default "" (ax_message error)) (ac_temperature_default_only_fragments contract)) in
  if temperature_rejected then Some AxisTemperatureField else None.

(** The first value after the first occurrence of [current] that differs from it. *)
Fixpoint next_progressive_value {T} `{!EqDecision T} (progression : list T) (current : T) : option T :=
  match progression with
  | [] => None
  | value :: rest =>
      if decide (value = current) then find_first (fun candidate => negb (bool_decide (candidate = current))) rest
      else next_progressive_value rest current
  end.

Definition should_try_next_model_on_error (error : ProviderApiError) (runtime_contract : ProviderRuntimeContract)
  : bool :=
  let error_contract := rc_error_classification runtime_contract in
  match ax_code error with
  | Some code => bool_decide (code ∈ ec_model_not_found_codes error_contract)
  | None => false
  end ||
  match ax_param error with
  | Some param => bool_decide (param ∈ ec_model_error_parameters error_contract)
  | None => false
  end ||
  contains_any_fragment (default "" (ax_message error)) (ec_model_mismatch_message_fragments error_contract).

Definition adapt_payload_mode_for_error (current : CompletionPayloadMode) (provider : ProviderConfig)
    (runtime_contract : ProviderRuntimeContract) (error : ProviderApiError) : option CompletionPayloadMode :=
  let contract := rc_payload_adaptation runtime_contract in
  axis ← classify_payload_adaptation_axis error contract;
  match axis, pc_max_tokens provider, pc_reasoning_effort provider with
  | AxisTokenField, Some _, _ =>
      token_field ← next_progressive_value (ac_token_field_progression contract) (pm_token_field current);
      Some {| pm_token_field := token_field; pm_reasoning_field := pm_reasoning_field current;
              pm_temperature_field := pm_temperature_field current |}
  | AxisReasoningField, _, Some _ =>
      reasoning_field ← next_progressive_value (ac_reasoning_field_progression contract) (pm_reasoning_field current);
      Some {| pm_token_field := pm_token_field current; pm_reasoning_field := reasoning_field;
              pm_temperature_field := pm_temperature_field current |}
  | AxisTemperatureField, _, _ =>
      temperature_field ← next_progressive_value (ac_temperature_field_progression contract)
                            (pm_temperature_field current);
      Some {| pm_token_field := pm_token_field current; pm_reasoning_field := pm_reasoning_field current;
              pm_temperature_field := temperature_field |}
  | _, _, _ => None
  end.

(** ** Capabilities of a model *)

Record ProviderCapabilityProfile : Type := {
  cf_tool_schema_disabled : list string;
  cf_tool_schema_strict : list string;
  cf_reasoning_extra_body_kimi : list string;
  cf_reasoning_extra_body_omit : list string;
  cf_base_capability : ProviderCapabilityContract;
}.

Definition ProviderCapabilityProfile_from_provider (provider : ProviderConfig)
    (runtime_contract : ProviderRuntimeContract) : ProviderCapabilityProfile :=
  let hints values := normalize_model_hint_values (normalize_hint_values values) in
  {| cf_tool_schema_disabled := hints (pc_tool_schema_disabled_model_hints provider);
     cf_tool_schema_strict := hints (pc_tool_schema_strict_model_hints provider);
     cf_reasoning_extra_body_kimi := hints (pc_reasoning_extra_body_kimi_model_hints provider);
     cf_reasoning_extra_body_omit := hints (pc_reasoning_extra_body_omit_model_hints provider);
     cf_base_capability := rc_capability runtime_contract |}.

Definition model_matches_any_hint (model : string) (hints : list string) : bool :=
  existsb (fun hint => str_contains hint model) hints.

Definition ProviderCapabilityProfile_resolve_for_model (p : ProviderCapabilityProfile) (model : string)
  : ProviderCapabilityContract :=
  let capability := cf_base_capability p in
  let normalized_model := to_ascii_lowercase (trim model) in
  if str_is_empty normalized_model then capability else
  {| cc_tool_schema_mode :=
       if model_matches_any_hint normalized_model (cf_tool_schema_disabled p) then SchemaOff
       else if model_matches_any_hint normalized_model (cf_tool_schema_strict p) then EnabledStrict
       else cc_tool_schema_mode capability;
     cc_reasoning_extra_body_mode :=
       if model_matches_any_hint normalized_model (cf_reasoning_extra_body_omit p) then OmitExtraBody
       else if model_matches_any_hint normalized_model (cf_reasoning_extra_body_kimi p) then KimiThinking
       else cc_reasoning_extra_body_mode capability |}.

(** ** Credentials *)

Definition auth_profile_supports_scheme (profile : ProviderAuthProfile) (auth_scheme : ProviderAuthScheme) : bool :=
  match auth_scheme with
  | Bearer => bool_decide (is_Some (ap_authorization_secret profile)) ||
              bool_decide (is_Some (ap_api_key_secret profile))
  | XApiKey | XGoogApiKey => bool_decide (is_Some (ap_api_key_secret profile))
  end.

Definition anonymous_auth_profile : ProviderAuthProfile :=
  {| ap_id := "anonymous"; ap_authorization_secret := None; ap_api_key_secret := None; ap_auth_cache_key := None |}.

Section credentials.
Context {H : DefaultHasher}.

(** The profiles so far; [seen] is the set of their cache keys. *)
Definition push_bearer_profile (prefix secret : string) (st : list ProviderAuthProfile * gset string)
  : list ProviderAuthProfile * gset string :=
  let (profiles, seen) := st in
  let auth_cache_key := "bearer:" +:+ secret in
  if decide (auth_cache_key ∈ seen) then st else
  (profiles ++ [{| ap_id := build_provider_auth_profile_id prefix secret;
                   ap_authorization_secret := Some secret; ap_api_key_secret := None;
                   ap_auth_cache_key := Some auth_cache_key |}], {[auth_cache_key]} ∪ seen).

(** The first profile with the cache key gets the secret as its key, if it has none. *)
Fixpoint fill_api_key (auth_cache_key secret : string) (profiles : list ProviderAuthProfile)
  : list ProviderAuthProfile :=
  match profiles with
  | [] => []
  | p :: rest =>
      if decide (ap_auth_cache_key p = Some auth_cache_key)
      then match ap_api_key_secret p with
           | Some _ => p :: rest
           | None => {| ap_id := ap_id p; ap_authorization_secret := ap_authorization_secret p;
                        ap_api_key_secret := Some secret; ap_auth_cache_key := ap_auth_cache_key p |} :: rest
           end
      else p :: fill_api_key auth_cache_key secret rest
  end.

Definition push_bearer_api_key_profile (secret : string) (st : list ProviderAuthProfile * gset string)
  : list ProviderAuthProfile * gset string :=
  let (profiles, seen) := st in
  let auth_cache_key := "bearer:" +:+ secret in
  if decide (auth_cache_key ∈ seen) then (fill_api_key auth_cache_key secret profiles, seen) else
  (profiles ++ [{| ap_id := build_provider_auth_profile_id "api_key" secret;
                   ap_authorization_secret := Some secret; ap_api_key_secret := Some secret;
                   ap_auth_cache_key := Some auth_cache_key |}], {[auth_cache_key]} ∪ seen).

Definition push_x_api_key_profile (secret : string) (st : list ProviderAuthProfile * gset string)
  : list ProviderAuthProfile * gset string :=
  let (profiles, seen) := st in
  let cache_key := "x-api-key:" +:+ secret in
  if decide (cache_key ∈ seen) then st else
  (profiles ++ [{| ap_id := build_provider_auth_profile_id "api_key" secret;
                   ap_authorization_secret := None; ap_api_key_secret := Some secret;
                   ap_auth_cache_key := Some cache_key |}], {[cache_key]} ∪ seen).

(** The secrets the configuration resolves to: the cached key of Copilot, the OAuth
    token, the candidates for the API key. *)
Definition resolve_provider_auth_profiles (kind : ProviderKind) (copilot_api_key oauth_access_token : option string)
    (api_key_candidates : list string) : list ProviderAuthProfile :=
  let (profiles, _) :=
    match ProviderKind_auth_scheme kind with
    | Bearer =>
        let st := ([], ∅) in
        let st := if decide (kind = KindGithubCopilot)
                  then match copilot_api_key with
                       | Some api_key => push_bearer_profile "copilot" api_key st
                       | None => st
                       end
                  else match oauth_access_token with
                       | Some token => push_bearer_profile "oauth" token st
                       | None => st
                       end in
        foldl (fun st api_key => push_bearer_api_key_profile api_key st) st api_key_candidates
    | XApiKey | XGoogApiKey =>
        foldl (fun st api_key => push_x_api_key_profile api_key st) ([], ∅) api_key_candidates
    end in
  if decide (profiles = [] \/ kind = KindBedrock) then profiles ++ [anonymous_auth_profile] else profiles.
End credentials.

(** ** Retries *)

Definition MIN_BACKOFF_MS : Z := 50.

Record ProviderRequestPolicy : Type := {
  rp_timeout_ms : Z;
  rp_max_attempts : Z;
  rp_initial_backoff_ms : Z;
  rp_max_backoff_ms : Z;
}.

Definition ProviderRequestPolicy_from_config (config : ProviderConfig) : ProviderRequestPolicy :=
  let initial_backoff_ms := clamp (pc_retry_initial_backoff_ms config) 50 10000 in
  {| rp_timeout_ms := clamp (pc_request_timeout_ms config) 1000 180000;
     rp_max_attempts := clamp (pc_retry_max_attempts config) 1 8;
     rp_initial_backoff_ms := initial_backoff_ms;
     rp_max_backoff_ms := Z.min (Z.max (pc_retry_max_backoff_ms config) initial_backoff_ms) 30000 |}.

Definition should_retry_status (status_code : Z) : bool :=
  bool_decide (status_code ∈ [408; 409; 425; 429; 500; 502; 503; 504]%Z).

Inductive TransportErrorKind : Type := ErrorTimeout | ErrorConnect | ErrorRequest | ErrorOther.

Record TransportError : Type := {
  te_kind : TransportErrorKind;
  te_reason : ProviderFailoverReason;
  te_stage : ProviderFailoverStage;
  te_message : string;
}.

Definition TransportError_is_timeout (e : TransportError) : bool :=
  match te_kind e with ErrorTimeout => true | _ => false end.
Definition TransportError_is_connect (e : TransportError) : bool :=
  match te_kind e with ErrorConnect => true | _ => false end.
Definition TransportError_is_request (e : TransportError) : bool :=
  match te_kind e with ErrorRequest => true | _ => false end.

Definition should_retry_error (e : TransportError) : bool :=
  TransportError_is_timeout e || TransportError_is_connect e || TransportError_is_request e.

(** [HeaderMap::get], where names are lower case and the first value of a name
    counts; [None] inside for a value that is not text. *)
Definition header_get (name : string) (headers : HeaderMap) : option (option string) :=
  snd <$> find_first (fun h : string * option string => bool_decide (h.1 = name)) headers.

(** A date in one of the two formats, in nanoseconds since the epoch, and [None] for
    one that is before it. *)
Class HttpDates : Type := parse_http_date : string -> option Z.

Section retries.
Context {HD : HttpDates}.

Definition parse_retry_after_ms_at (response_headers : HeaderMap) (now : Z) : option Z :=
  value ← header_get "retry-after" response_headers;
  text ← value;
  let raw := trim text in
  if str_is_empty raw then None else
  match parse_u64 raw with
  | Ok seconds => Some (Z.min (seconds * 1000) u64_max)
  | Err _ =>
      retry_at ← parse_http_date raw;
      if (retry_at <? now)%Z then Some 0%Z
      else Some (Z.min ((retry_at - now) / NANOS_PER_MILLI) u64_max)
  end.

(** [None] is the panic of [clamp] when the least backoff is above the greatest. *)
Definition resolve_status_retry_delay_ms (status_code : Z) (response_headers : HeaderMap) (now : Z)
    (current_backoff_ms max_backoff_ms : Z) : option Z :=
  if negb (should_retry_status status_code) then Some (Z.min current_backoff_ms max_backoff_ms) else
  let hinted_ms := if bool_decide (status_code ∈ [429; 503]%Z)
                   then parse_retry_after_ms_at response_headers now else None in
  if (max_backoff_ms <? MIN_BACKOFF_MS)%Z then None
  else Some (clamp (default current_backoff_ms hinted_ms) MIN_BACKOFF_MS max_backoff_ms).

Definition next_backoff_ms (current max_backoff_ms : Z) : Z :=
  Z.min (Z.min (current * 2) u64_max) max_backoff_ms.

Inductive ModelRequestStatusPlan : Type :=
| PlanRetry (delay_ms next_backoff_ms : Z)
| PlanTryNextModel
| PlanFail.

Definition plan_status_retry (attempt : Z) (request_policy : ProviderRequestPolicy) (status_code : Z)
    (response_headers : HeaderMap) (now backoff_ms : Z) : option (option (Z * Z)) :=
  if ((rp_max_attempts request_policy <=? attempt)%Z || negb (should_retry_status status_code)) then Some None else
  retry_delay_ms ← resolve_status_retry_delay_ms status_code response_headers now backoff_ms
                     (rp_max_backoff_ms request_policy);
  Some (Some (retry_delay_ms, next_backoff_ms retry_delay_ms (rp_max_backoff_ms request_policy))).

Definition plan_transport_error_retry (attempt : Z) (request_policy : ProviderRequestPolicy)
    (error : TransportError) (backoff_ms : Z) : option (Z * Z) :=
  if ((rp_max_attempts request_policy <=? attempt)%Z || negb (should_retry_error error)) then None else
  let retry_delay_ms := Z.min backoff_ms (rp_max_backoff_ms request_policy) in
  Some (retry_delay_ms, next_backoff_ms retry_delay_ms (rp_max_backoff_ms request_policy)).

Definition should_switch_model_for_strict_tool_schema (api_error : ProviderApiError)
    (runtime_contract : ProviderRuntimeContract) (capability : ProviderCapabilityContract) : bool :=
  ProviderCapabilityContract_turn_tool_schema_enabled capability &&
  negb (ProviderCapabilityContract_tool_schema_downgrade_on_unsupported capability) &&
  should_disable_tool_schema_for_error api_error runtime_contract.

Definition should_try_next_model_for_status_with_capability (status_code : Z) (api_error : ProviderApiError)
    (runtime_contract : ProviderRuntimeContract) (capability : ProviderCapabilityContract) : bool :=
  bool_decide (status_code ∈ [400; 404; 410; 422]%Z) &&
  (should_try_next_model_on_error api_error runtime_contract ||
   should_switch_model_for_strict_tool_schema api_error runtime_contract capability).

Definition is_payload_incompatible_error (api_error : ProviderApiError)
    (runtime_contract : ProviderRuntimeContract) : bool :=
  should_disable_tool_schema_for_error api_error runtime_contract ||
  match classify_payload_adaptation_axis api_error (rc_payload_adaptation runtime_contract) with
  | Some _ => true
  | None => false
  end.

Definition plan_model_request_status_with_capability (status_code : Z) (response_headers : HeaderMap) (now : Z)
    (api_error : ProviderApiError) (attempt : Z) (request_policy : ProviderRequestPolicy) (backoff_ms : Z)
    (auto_model_mode : bool) (runtime_contract : ProviderRuntimeContract) (capability : ProviderCapabilityContract)
  : option ModelRequestStatusPlan :=
  retry ← plan_status_retry attempt request_policy status_code response_headers now backoff_ms;
  match retry with
  | Some (delay_ms, next_backoff_ms) => Some (PlanRetry delay_ms next_backoff_ms)
  | None =>
      if auto_model_mode &&
         should_try_next_model_for_status_with_capability status_code api_error runtime_contract capability
      then Some PlanTryNextModel else Some PlanFail
  end.

Definition classify_model_status_failure_reason_with_capability (status_code : Z) (api_error : ProviderApiError)
    (runtime_contract : ProviderRuntimeContract) (capability : ProviderCapabilityContract)
  : ProviderFailoverReason :=
  if (status_code =? 429)%Z then RateLimited else
  if bool_decide (status_code ∈ [500; 502; 503; 504]%Z) then ProviderOverloaded else
  if bool_decide (status_code ∈ [401; 403]%Z) then AuthRejected else
  if should_try_next_model_for_status_with_capability status_code api_error runtime_contract capability
  then ModelMismatch else
  if is_payload_incompatible_error api_error runtime_contract then PayloadIncompatible else RequestRejected.

Inductive ModelStatusOutcome : Type :=
| OutcomeRetry (delay_ms next_backoff_ms : Z)
| OutcomeTryNextModel
| OutcomeFail (reason : ProviderFailoverReason).

Definition plan_model_status_outcome (status_code : Z) (response_headers : HeaderMap) (now : Z)
    (api_error : ProviderApiError) (attempt : Z) (request_policy : ProviderRequestPolicy) (backoff_ms : Z)
    (auto_model_mode : bool) (runtime_contract : ProviderRuntimeContract) (capability : ProviderCapabilityContract)
  : option ModelStatusOutcome :=
  plan ← plan_model_request_status_with_capability status_code response_headers now api_error attempt
           request_policy backoff_ms auto_model_mode runtime_contract capability;
  match plan with
  | PlanRetry delay_ms next_backoff_ms => Some (OutcomeRetry delay_ms next_backoff_ms)
  | PlanTryNextModel => Some OutcomeTryNextModel
  | PlanFail => Some (OutcomeFail (classify_model_status_failure_reason_with_capability status_code api_error
                                     runtime_contract capability))
  end.
End retries.

(** ** The executor *)

Record TransportResponse : Type := {
  tr_status : Z;
  tr_headers : HeaderMap;
  tr_body : json;
  tr_rate_limit : option RateLimitObservation;
}.

Definition status_is_success (status : Z) : bool := ((200 <=? status) && (status <? 300))%Z.

Record ProviderRetryProgress : Type := {
  rg_model : string;
  rg_next_attempt : Z;
  rg_max_attempts : Z;
  rg_delay_ms : Z;
  rg_status_code : option Z;
  rg_timeout : bool;
  rg_connect : bool;
}.

(** What the request of one model runs on, as computations on a state: the HTTP call,
    the wall clock of [Retry-After], sleeping, and the callback told of retries.  Then
    what is computed elsewhere: the setup of the request from its body, and the hints
    appended to messages. *)
Record ModelRequestRuntime (S Q : Type) : Type := {
  mr_provider : ProviderConfig;
  mr_model : string;
  mr_runtime_contract : ProviderRuntimeContract;
  mr_capability : ProviderCapabilityContract;
  mr_auto_model_mode : bool;
  mr_request_policy : ProviderRequestPolicy;
  mr_prepare : json -> result Q string;
  mr_execute : Q -> M S (result TransportResponse TransportError);
  mr_system_now : M S Z;
  mr_sleep : Z -> M S unit;
  mr_retry_progress : option (ProviderRetryProgress -> M S unit);
  mr_auth_guidance_hint : option string;
  mr_region_failure_hint : option string;
  mr_route_hint : Q -> string -> bool -> bool -> option string;
}.

Arguments mr_provider {S Q} _.
Arguments mr_model {S Q} _.
Arguments mr_runtime_contract {S Q} _.
Arguments mr_capability {S Q} _.
Arguments mr_auto_model_mode {S Q} _.
Arguments mr_request_policy {S Q} _.
Arguments mr_prepare {S Q} _ _.
Arguments mr_execute {S Q} _ _.
Arguments mr_system_now {S Q} _.
Arguments mr_sleep {S Q} _ _.
Arguments mr_retry_progress {S Q} _.
Arguments mr_auth_guidance_hint {S Q} _.
Arguments mr_region_failure_hint {S Q} _.
Arguments mr_route_hint {S Q} _ _ _ _ _.

Section executor.
Context {FF : FloatFormat} {HD : HttpDates} {S Q T : Type}.
Variable runtime : ModelRequestRuntime S Q.
Variable build_body : CompletionPayloadMode -> M S json.
Variable parse_success : json -> option T.
Variable missing_shape_fragment : string.
Variable pre_status_error : ProviderApiError -> M S bool.

Definition emit_provider_retry_progress (progress : ProviderRetryProgress) : M S unit :=
  match mr_retry_progress runtime with
  | Some callback => callback progress
  | None => ret tt
  end.

(** ["for model `{model}` on attempt {attempt}/{max_attempts}: "]. *)
Definition attempt_text (attempt : Z) : string :=
  "for model `" +:+ mr_model runtime +:+ "` on attempt " +:+ fmt_dec attempt +:+ "/" +:+
  fmt_dec (rp_max_attempts (mr_request_policy runtime)) +:+ ": ".

Definition render_status_failure_message (reason : ProviderFailoverReason) (status_code attempt : Z)
    (response_body : json) : string :=
  let hint h := match h with Some text => " " +:+ text | None => "" end in
  "provider returned status " +:+ fmt_dec status_code +:+ " " +:+ attempt_text attempt +:+
  json_to_string response_body +:+
  (if decide (reason = AuthRejected)
   then hint (mr_auth_guidance_hint runtime) +:+ hint (mr_region_failure_hint runtime) else "").

Definition request_error (message : string) (try_next_model : bool) (reason : ProviderFailoverReason)
    (stage : ProviderFailoverStage) (attempt : Z) (status_code : option Z)
    (rate_limit : option RateLimitObservation) : ModelRequestError :=
  build_model_request_error_with_rate_limit message try_next_model reason stage (mr_model runtime) attempt
    (rp_max_attempts (mr_request_policy runtime)) status_code rate_limit.

Definition transport_failure_message (request : Q) (attempt : Z) (error : TransportError) : string :=
  let lead := match te_reason error with
              | ResponseDecodeFailure => "provider response decode failed "
              | ResponseShapeInvalid => "provider response shape invalid "
              | _ => "provider request failed "
              end in
  let message := lead +:+ attempt_text attempt +:+ te_message error in
  if decide (te_reason error = TransportFailure)
  then match mr_route_hint runtime request (te_message error) (TransportError_is_timeout error)
               (TransportError_is_connect error) with
       | Some route_hint => message +:+ " " +:+ route_hint
       | None => message
       end
  else message.

(** What the loop carries. *)
Record AttemptState : Type := {
  as_attempt : Z;
  as_backoff_ms : Z;
  as_payload_mode : CompletionPayloadMode;
  as_tried_payload_modes : list CompletionPayloadMode;
}.

Definition as_retry (backoff_ms : Z) (a : AttemptState) : AttemptState :=
  {| as_attempt := as_attempt a; as_backoff_ms := backoff_ms; as_payload_mode := as_payload_mode a;
     as_tried_payload_modes := as_tried_payload_modes a |}.
Definition as_adapt (mode : CompletionPayloadMode) (a : AttemptState) : AttemptState :=
  {| as_attempt := as_attempt a; as_backoff_ms := as_backoff_ms a; as_payload_mode := mode;
     as_tried_payload_modes := as_tried_payload_modes a ++ [mode] |}.

(** The answer of a provider that is not a success: [inl] is the end of the request,
    [inr] the next iteration. *)
Definition handle_status (response : TransportResponse) (a : AttemptState)
  : M S (ModelRequestError + AttemptState) :=
  let policy := mr_request_policy runtime in
  let attempt := as_attempt a in
  let api_error := parse_provider_api_error (tr_body response) in
  let! downgraded := pre_status_error api_error in
  if (downgraded : bool) then ret (inr a) else
  let adapted :=
    mode ← adapt_payload_mode_for_error (as_payload_mode a) (mr_provider runtime) (mr_runtime_contract runtime) api_error;
    if decide (mode ∈ as_tried_payload_modes a) then None else Some mode in
  match adapted with
  | Some next_mode => ret (inr (as_adapt next_mode a))
  | None =>
      let status_code := tr_status response in
      let! now := mr_system_now runtime in
      match plan_model_status_outcome status_code (tr_headers response) now api_error attempt policy
              (as_backoff_ms a) (mr_auto_model_mode runtime) (mr_runtime_contract runtime) (mr_capability runtime) with
      | None => panic (PanicStr "assertion failed: min <= max")
      | Some (OutcomeRetry delay_ms next_backoff_ms) =>
          run! emit_provider_retry_progress
                 {| rg_model := mr_model runtime; rg_next_attempt := u64_saturating_add attempt 1;
                    rg_max_attempts := rp_max_attempts policy; rg_delay_ms := delay_ms;
                    rg_status_code := Some status_code; rg_timeout := false; rg_connect := false |} in
          run! mr_sleep runtime delay_ms in
          ret (inr (as_retry next_backoff_ms a))
      | Some OutcomeTryNextModel =>
          ret (inl (request_error
            ("model `" +:+ mr_model runtime +:+ "` rejected by provider endpoint; trying next candidate. status " +:+
             fmt_dec status_code +:+ ": " +:+ json_to_string (tr_body response))
            true ModelMismatch StageModelCandidateRejected attempt (Some status_code) None))
      | Some (OutcomeFail reason) =>
          ret (inl (request_error (render_status_failure_message reason status_code attempt (tr_body response))
            false reason StageStatusFailure attempt (Some status_code) (tr_rate_limit response)))
      end
  end.

Definition handle_transport_error (request : Q) (error : TransportError) (a : AttemptState)
  : M S (ModelRequestError + AttemptState) :=
  let policy := mr_request_policy runtime in
  let attempt := as_attempt a in
  match plan_transport_error_retry attempt policy error (as_backoff_ms a) with
  | Some (retry_delay_ms, next_backoff_ms) =>
      run! emit_provider_retry_progress
             {| rg_model := mr_model runtime; rg_next_attempt := u64_saturating_add attempt 1;
                rg_max_attempts := rp_max_attempts policy; rg_delay_ms := retry_delay_ms; rg_status_code := None;
                rg_timeout := TransportError_is_timeout error; rg_connect := TransportError_is_connect error |} in
      run! mr_sleep runtime retry_delay_ms in
      ret (inr (as_retry next_backoff_ms a))
  | None =>
      ret (inl (request_error (transport_failure_message request attempt error) false (te_reason error)
                  (te_stage error) attempt None None))
  end.

(** One iteration of the loop. *)
Definition attempt_once (a : AttemptState) : M S (result T ModelRequestError + AttemptState) :=
  let a := {| as_attempt := as_attempt a + 1; as_backoff_ms := as_backoff_ms a;
              as_payload_mode := as_payload_mode a; as_tried_payload_modes := as_tried_payload_modes a |} in
  let stop r := match r with inl e => inl (Err e) | inr a => inr a end in
  let! body := build_body (as_payload_mode a) in
  match mr_prepare runtime body with
  | Err error =>
      ret (inl (Err (request_error ("provider request setup failed " +:+ attempt_text (as_attempt a) +:+ error)
                       false TransportFailure StageTransportFailure (as_attempt a) None None)))
  | Ok request =>
      let! answer := mr_execute runtime request in
      match answer with
      | Ok response =>
          if status_is_success (tr_status response) then
            match parse_success (tr_body response) with
            | Some parsed => ret (inl (Ok parsed))
            | None =>
                ret (inl (Err (request_error
                  ("provider response missing " +:+ missing_shape_fragment +:+ " " +:+ attempt_text (as_attempt a) +:+
                   json_to_string (tr_body response))
                  false ResponseShapeInvalid StageResponseShapeInvalid (as_attempt a) None None)))
            end
          else let! r := handle_status response a in ret (stop r)
      | Err error => let! r := handle_transport_error request error a in ret (stop r)
      end
  end.

(** [loop], with fuel; [None] is a loop that is still going. *)
Fixpoint attempt_loop (fuel : nat) (a : AttemptState) : M S (option (result T ModelRequestError)) :=
  match fuel with
  | O => ret None
  | Datatypes.S fuel =>
      let! r := attempt_once a in
      match r with
      | inl answer => ret (Some answer)
      | inr a => attempt_loop fuel a
      end
  end.

Definition execute_model_request (fuel : nat) : M S (option (result T ModelRequestError)) :=
  let payload_mode := CompletionPayloadMode_default_for_contract (mr_provider runtime) (mr_runtime_contract runtime) in
  attempt_loop fuel {| as_attempt := 0; as_backoff_ms := rp_initial_backoff_ms (mr_request_policy runtime);
                       as_payload_mode := payload_mode; as_tried_payload_modes := [payload_mode] |}.
End executor.

(** The tool schema of a turn is left out once the provider rejects it
    ([request_turn_with_provider_transport]); [flag] reads and [unset] clears the
    [AtomicBool]. *)
Definition turn_pre_status_error {S} (flag : S -> bool) (unset : S -> S) (capability : ProviderCapabilityContract)
    (runtime_contract : ProviderRuntimeContract) (api_error : ProviderApiError) : M S bool :=
  let! include_tool_schema := gets flag in
  if include_tool_schema && ProviderCapabilityContract_tool_schema_downgrade_on_unsupported capability &&
     should_disable_tool_schema_for_error api_error runtime_contract
  then run! modify unset in ret true
  else ret false.
