(* ===== verification/ProviderRequestFacts.v ===== *)
(** * Facts about the request of one model

    Bounds of the retry policy, that payload adaptations run out, and that a request
    ends: how many HTTP calls it makes at most and how long it sleeps at most. *)

From stdpp Require Import gmap.
From S2P Require Import Prelude RustStr Json Provider ProviderHealth ProviderRequest.

(** ** The policy *)

Lemma clamp_bounds v lo hi : (lo <= hi)%Z -> (lo <= clamp v lo hi <= hi)%Z.
Proof. intros. unfold clamp. destruct (Z.ltb_spec v lo); [lia|]. destruct (Z.ltb_spec hi v); lia. Qed.

Definition policy_ok (p : ProviderRequestPolicy) : Prop :=
  (1 <= rp_max_attempts p <= 8)%Z /\
  (MIN_BACKOFF_MS <= rp_initial_backoff_ms p <= rp_max_backoff_ms p)%Z /\ (rp_max_backoff_ms p <= 30000)%Z.

Lemma from_config_ok config : policy_ok (ProviderRequestPolicy_from_config config).
Proof.
  unfold policy_ok, ProviderRequestPolicy_from_config, MIN_BACKOFF_MS. simpl.
  pose proof (clamp_bounds (pc_retry_max_attempts config) 1 8 ltac:(lia)).
  pose proof (clamp_bounds (pc_retry_initial_backoff_ms config) 50 10000 ltac:(lia)). lia.
Qed.

Section retries.
Context {HD : HttpDates}.

Lemma status_retry_delay_bounds status headers now backoff max_backoff :
  (MIN_BACKOFF_MS <= max_backoff)%Z ->
  exists d, resolve_status_retry_delay_ms status headers now backoff max_backoff = Some d /\ (d <= max_backoff)%Z.
Proof.
  intros Hm. unfold resolve_status_retry_delay_ms. destruct (negb _); [eexists; split; [done|lia]|].
  destruct (Z.ltb_spec max_backoff MIN_BACKOFF_MS); [lia|]. eexists. split; [done|].
  by apply clamp_bounds.
Qed.

(** Within the policy, [clamp] does not panic; a retry is planned only before the last
    attempt, and never sleeps longer than the greatest backoff. *)
Lemma plan_outcome_bounds status headers now api attempt p backoff auto contract capability :
  policy_ok p ->
  exists o, plan_model_status_outcome status headers now api attempt p backoff auto contract capability = Some o /\
  forall d next, o = OutcomeRetry d next -> (attempt < rp_max_attempts p)%Z /\ (d <= rp_max_backoff_ms p)%Z.
Proof.
  intros (Hp & Hb & _). unfold plan_model_status_outcome, plan_model_request_status_with_capability, plan_status_retry.
  destruct (Z.leb_spec (rp_max_attempts p) attempt) as [Ha|Ha]; simpl.
  - destruct (auto && _); eexists; (split; [done|]); done.
  - destruct (negb (should_retry_status status)); simpl.
    + destruct (auto && _); eexists; (split; [done|]); done.
    + destruct (status_retry_delay_bounds status headers now backoff (rp_max_backoff_ms p)) as (d & -> & Hd); [lia|].
      simpl. eexists. split; [done|]. intros ? ? [= <- <-]. done.
Qed.

Lemma plan_transport_bounds attempt p e backoff d next :
  plan_transport_error_retry attempt p e backoff = Some (d, next) ->
  (attempt < rp_max_attempts p)%Z /\ (d <= rp_max_backoff_ms p)%Z.
Proof.
  unfold plan_transport_error_retry. destruct (Z.leb_spec (rp_max_attempts p) attempt); simpl; [done|].
  destruct (negb _); simpl; intros [= <- <-]. lia.
Qed.
End retries.

(** ** Adaptations of the payload *)

(** How many values of a progression are left after a value. *)
Fixpoint progress_left {T} `{!EqDecision T} (progression : list T) (v : T) : nat :=
  match progression with
  | [] => 0
  | x :: rest => if decide (x = v) then length rest else progress_left rest v
  end.

Definition adaptations_left (c : ProviderPayloadAdaptationContract) (m : CompletionPayloadMode) : nat :=
  progress_left (ac_token_field_progression c) (pm_token_field m) +
  progress_left (ac_reasoning_field_progression c) (pm_reasoning_field m) +
  progress_left (ac_temperature_field_progression c) (pm_temperature_field m).

Lemma token_progress family d v v' :
  let l := ac_token_field_progression (provider_payload_adaptation_contract family d OmitReasoning IncludeTemperature) in
  next_progressive_value l v = Some v' -> progress_left l v' < progress_left l v.
Proof. destruct family, d, v, v'; vm_compute; intros [=]; lia. Qed.

Lemma reasoning_progress d v v' :
  next_progressive_value (reasoning_field_progression d) v = Some v' ->
  progress_left (reasoning_field_progression d) v' < progress_left (reasoning_field_progression d) v.
Proof. destruct d, v, v'; vm_compute; intros [=]; lia. Qed.

Lemma temperature_progress d v v' :
  next_progressive_value (temperature_field_progression d) v = Some v' ->
  progress_left (temperature_field_progression d) v' < progress_left (temperature_field_progression d) v.
Proof. destruct d, v, v'; vm_compute; intros [=]; lia. Qed.

#[local] Arguments next_progressive_value : simpl never.
#[local] Arguments progress_left : simpl never.
#[local] Arguments token_field_progression : simpl never.
#[local] Arguments reasoning_field_progression : simpl never.
#[local] Arguments temperature_field_progression : simpl never.

Definition contract_adaptations (provider : ProviderConfig) mode family (m : CompletionPayloadMode) : nat :=
  adaptations_left (rc_payload_adaptation (build_provider_runtime_contract provider mode family)) m.

Lemma adapt_decreases provider mode family config error m m' :
  adapt_payload_mode_for_error m config (build_provider_runtime_contract provider mode family) error = Some m' ->
  contract_adaptations provider mode family m' < contract_adaptations provider mode family m.
Proof.
  unfold adapt_payload_mode_for_error, contract_adaptations, adaptations_left. simpl.
  destruct (classify_payload_adaptation_axis _ _) as [[| |]|]; simpl; [..|done];
    destruct (pc_max_tokens config), (pc_reasoning_effort config); simpl; try done;
    match goal with |- context [next_progressive_value ?l ?v] => destruct (next_progressive_value l v) as [v'|] eqn:E end;
    simpl; try done; intros [= <-]; simpl;
    first [apply (token_progress family) in E|apply reasoning_progress in E|apply (temperature_progress IncludeTemperature) in E];
    simpl in E; lia.
Qed.

Lemma contract_adaptations_bound provider mode family m : contract_adaptations provider mode family m <= 6.
Proof.
  unfold contract_adaptations, adaptations_left. simpl. destruct m as [t r u].
  assert (Ht : forall d, progress_left (token_field_progression d) t <= 3) by (intros []; destruct t; vm_compute; lia).
  assert (Hg : progress_left google_token_field_progression t <= 3) by (destruct t; vm_compute; lia).
  assert (Hr : forall d, progress_left (reasoning_field_progression d) r <= 2) by (intros []; destruct r; vm_compute; lia).
  assert (Hu : progress_left (temperature_field_progression IncludeTemperature) u <= 1) by (destruct u; vm_compute; lia).
  simpl pm_token_field. simpl pm_reasoning_field. simpl pm_temperature_field.
  set (dt := match mode with ModeResponses | ModeGoogleGenerateContent => _ | _ => _ end).
  set (dr := match mode with ModeResponses => ReasoningObject | _ => _ end).
  specialize (Ht dt). specialize (Hr dr). destruct family; simpl in *; lia.
Qed.

(** ** A request ends *)

Section bounded.
Context {FF : FloatFormat} {HD : HttpDates} {S Q T : Type}.
Variable runtime : ModelRequestRuntime S Q.
Variable build_body : CompletionPayloadMode -> M S json.
Variable parse_success : json -> option T.
Variable missing_shape_fragment : string.
Variable pre_status_error : ProviderApiError -> M S bool.
Variables (provider : ProviderConfig) (mode : ProviderTransportMode) (family : ProviderFeatureFamily).

(** Observers of the state: the HTTP calls made, the milliseconds slept, and how often
    the caller may still ask for another iteration. *)
Variables (sent : S -> nat) (slept : S -> Z) (downgrades : S -> nat).

(** The computation returns, and the observers see the given differences. *)
Definition counts {X} (m : M S X) (post : X -> nat -> Z -> Prop) (spent : X -> S -> S -> Prop) : Prop :=
  forall s, exists x s', m s = (Returned x, s') /\
    post x (sent s' - sent s) (slept s' - slept s)%Z /\ sent s <= sent s' /\ spent x s s'.

Definition keeps {X} (_ : X) (s s' : S) : Prop := downgrades s' = downgrades s.

(** What the request runs on: the HTTP call is one call, sleeping sleeps as long as
    asked, nothing else does either, and a caller that asks for another iteration has
    one less left. *)
Record counted : Prop := {
  ct_build : forall m, counts (build_body m) (fun _ n t => n = 0 /\ t = 0%Z) keeps;
  ct_execute : forall q, counts (mr_execute runtime q) (fun _ n t => n = 1 /\ t = 0%Z) keeps;
  ct_now : counts (mr_system_now runtime) (fun _ n t => n = 0 /\ t = 0%Z) keeps;
  ct_sleep : forall d, counts (mr_sleep runtime d) (fun _ n t => n = 0 /\ t = d) keeps;
  ct_progress : forall f g, mr_retry_progress runtime = Some f -> counts (f g) (fun _ n t => n = 0 /\ t = 0%Z) keeps;
  ct_pre : forall e, counts (pre_status_error e) (fun _ n t => n = 0 /\ t = 0%Z)
             (fun (again : bool) s s' => if again then downgrades s' < downgrades s else downgrades s' = downgrades s);
}.

Hypothesis Hct : counted.
Hypothesis Hpolicy : policy_ok (mr_request_policy runtime).
Hypothesis Hcontract : mr_runtime_contract runtime = build_provider_runtime_contract provider mode family.

Local Abbreviation maxa := (rp_max_attempts (mr_request_policy runtime)).
Local Abbreviation maxb := (rp_max_backoff_ms (mr_request_policy runtime)).

(** How many retries are left before an iteration, and how many iterations in all. *)
Definition retries_left (a : AttemptState) : nat := Z.to_nat (maxa - as_attempt a - 1).
Definition iterations_left (a : AttemptState) (s : S) : nat :=
  retries_left a + contract_adaptations provider mode family (as_payload_mode a) + downgrades s.

(** One iteration makes at most one call; one that goes on has fewer iterations left,
    and pays for what it slept with a retry. *)
Definition advances (a : AttemptState) (s : S) (r : result T ModelRequestError + AttemptState) (s' : S) : Prop :=
  sent s' <= sent s + 1 /\
  match r with
  | inl _ => (slept s' <= slept s)%Z
  | inr a' => iterations_left a' s' < iterations_left a s /\
              (slept s' + Z.of_nat (retries_left a') * maxb <= slept s + Z.of_nat (retries_left a) * maxb)%Z
  end.

Definition advances_status (a : AttemptState) (s : S) (r : ModelRequestError + AttemptState) (s' : S) : Prop :=
  sent s' = sent s /\
  match r with
  | inl _ => slept s' = slept s
  | inr a' => (as_attempt a' = as_attempt a)%Z /\
      ((slept s' = slept s /\ contract_adaptations provider mode family (as_payload_mode a') + downgrades s' <
                              contract_adaptations provider mode family (as_payload_mode a) + downgrades s) \/
       ((slept s' <= slept s + maxb)%Z /\ (as_attempt a < maxa)%Z /\
        as_payload_mode a' = as_payload_mode a /\ downgrades s' = downgrades s))
  end.

Lemma run_counts {X} (m : M S X) post spent s :
  counts m post spent ->
  exists x s', m s = (Returned x, s') /\
    post x (sent s' - sent s) (slept s' - slept s)%Z /\ sent s <= sent s' /\ spent x s s'.
Proof. intros Hm. apply Hm. Qed.

Lemma emit_counts g : counts (emit_provider_retry_progress runtime g) (fun _ n t => n = 0 /\ t = 0%Z) keeps.
Proof.
  unfold emit_provider_retry_progress. destruct (mr_retry_progress runtime) as [f|] eqn:E; [by apply (ct_progress Hct)|].
  intros s. exists tt, s. split; [done|]. split; [split; lia|]. split; [lia|done].
Qed.

(** A retry: progress told, then sleep. *)
Lemma retry_advances {X} g d (x : X) s :
  exists s', bind (emit_provider_retry_progress runtime g) (fun _ => bind (mr_sleep runtime d) (fun _ => ret x)) s =
             (Returned x, s') /\ sent s' = sent s /\ slept s' = (slept s + d)%Z /\ downgrades s' = downgrades s.
Proof.
  unfold bind, ret. destruct (run_counts _ _ _ s (emit_counts g)) as (u & s1 & -> & (Hn1 & Ht1) & Hm1 & Hk1).
  destruct (run_counts _ _ _ s1 (ct_sleep Hct d)) as (u' & s2 & -> & (Hn2 & Ht2) & Hm2 & Hk2).
  exists s2. split; [done|]. unfold keeps in *. repeat split; lia.
Qed.

Lemma handle_status_advances response a s :
  exists r s', handle_status runtime pre_status_error response a s = (Returned r, s') /\ advances_status a s r s'.
Proof.
  unfold handle_status. set (api := parse_provider_api_error (tr_body response)). unfold bind at 1.
  destruct (run_counts _ _ _ s (ct_pre Hct api)) as (again & s1 & -> & (Hn1 & Ht1) & Hm1 & Hk1).
  destruct again.
  { exists (inr a), s1. split; [done|]. split; [lia|]. split; [done|]. left. split; lia. }
  rewrite Hcontract.
  destruct (mbind _ (adapt_payload_mode_for_error _ _ _ _)) as [next|] eqn:Ead.
  { destruct (adapt_payload_mode_for_error _ _ _ _) as [m|] eqn:Em; [|done]. simpl in Ead.
    destruct (decide (m ∈ as_tried_payload_modes a)); [done|]. injection Ead as <-.
    exists (inr (as_adapt m a)), s1. split; [done|]. apply adapt_decreases in Em.
    split; [lia|]. split; [done|]. left. simpl. split; lia. }
  unfold bind at 1. destruct (run_counts _ _ _ s1 (ct_now Hct)) as (now & s2 & -> & (Hn2 & Ht2) & Hm2 & Hk2).
  unfold keeps in *.
  destruct (plan_outcome_bounds (tr_status response) (tr_headers response) now api (as_attempt a)
    (mr_request_policy runtime) (as_backoff_ms a) (mr_auto_model_mode runtime)
    (build_provider_runtime_contract provider mode family) (mr_capability runtime) Hpolicy) as (o & -> & Ho).
  destruct o as [d next| |reason].
  - edestruct (retry_advances (X := ModelRequestError + AttemptState)) as (s3 & -> & E1 & E2 & E3).
    destruct (Ho d next eq_refl) as [Hlt Hd]. eexists _, s3. split; [done|]. split; [lia|]. split; [done|].
    right. split; [lia|]. split; [lia|]. split; [done|]. lia.
  - eexists _, s2. split; [done|]. split; lia.
  - eexists _, s2. split; [done|]. split; lia.
Qed.

Lemma handle_transport_advances q e a s :
  exists r s', handle_transport_error runtime q e a s = (Returned r, s') /\ advances_status a s r s'.
Proof.
  unfold handle_transport_error.
  destruct (plan_transport_error_retry _ _ e _) as [[d next]|] eqn:E.
  - apply plan_transport_bounds in E as [Hlt Hd].
    edestruct (retry_advances (X := ModelRequestError + AttemptState)) as (s3 & -> & E1 & E2 & E3).
    eexists _, s3. split; [done|]. split; [done|]. split; [done|]. right. split; [lia|]. done.
  - eexists _, s. split; [done|]. done.
Qed.

Lemma advances_of_status a s s0 (r : ModelRequestError + AttemptState) s' :
  sent s <= sent s0 + 1 -> slept s = slept s0 -> downgrades s = downgrades s0 ->
  advances_status {| as_attempt := as_attempt a + 1; as_backoff_ms := as_backoff_ms a;
                     as_payload_mode := as_payload_mode a; as_tried_payload_modes := as_tried_payload_modes a |} s r s' ->
  advances a s0 (match r with inl e => inl (Err e) | inr a => inr a end) s'.
Proof.
  intros H1 H2 H3 [Hs Hr]. destruct Hpolicy as (Hp & Hb & _). unfold MIN_BACKOFF_MS in Hb.
  split; [lia|]. destruct r as [e|a']; [lia|]. simpl in Hr. destruct Hr as [Ha Hr].
  unfold iterations_left, retries_left. rewrite Ha. destruct Hr as [[Ht Hc]|(Ht & Hlt & Hm & Hd)].
  - split; [lia|]. rewrite Ht, H2.
    assert (Z.of_nat (Z.to_nat (maxa - (as_attempt a + 1) - 1)) * maxb <=
            Z.of_nat (Z.to_nat (maxa - as_attempt a - 1)) * maxb)%Z by (apply Z.mul_le_mono_nonneg_r; lia). lia.
  - rewrite Hm, Hd, H3. split; [lia|].
    replace (Z.of_nat (Z.to_nat (maxa - as_attempt a - 1)))
      with (Z.of_nat (Z.to_nat (maxa - (as_attempt a + 1) - 1)) + 1)%Z by lia. lia.
Qed.

Lemma attempt_once_advances a s :
  exists r s', attempt_once runtime build_body parse_success missing_shape_fragment pre_status_error a s =
               (Returned r, s') /\ advances a s r s'.
Proof.
  unfold attempt_once. cbv zeta. set (a1 := {| as_attempt := as_attempt a + 1 |}). unfold bind at 1.
  destruct (run_counts _ _ _ s (ct_build Hct (as_payload_mode a1))) as (body & s1 & -> & (Hn1 & Ht1) & Hm1 & Hk1).
  unfold keeps in *. destruct (mr_prepare runtime body) as [q|error].
  2:{ eexists _, s1. split; [done|]. split; [lia|]. lia. }
  unfold bind at 1. destruct (run_counts _ _ _ s1 (ct_execute Hct q)) as (answer & s2 & -> & (Hn2 & Ht2) & Hm2 & Hk2).
  unfold keeps in *. destruct answer as [response|error].
  - destruct (status_is_success (tr_status response)).
    + destruct (parse_success (tr_body response)); eexists _, s2; (split; [done|]; split; [lia|]; lia).
    + unfold bind at 1. destruct (handle_status_advances response a1 s2) as (r & s3 & -> & Hr).
      eexists _, s3. split; [done|]. apply (advances_of_status a s2 s); [lia|lia|lia|exact Hr].
  - unfold bind at 1. destruct (handle_transport_advances q error a1 s2) as (r & s3 & -> & Hr).
    eexists _, s3. split; [done|]. apply (advances_of_status a s2 s); [lia|lia|lia|exact Hr].
Qed.

Lemma attempt_loop_ends fuel a s :
  iterations_left a s < fuel ->
  exists r s', attempt_loop runtime build_body parse_success missing_shape_fragment pre_status_error fuel a s =
               (Returned (Some r), s') /\
    sent s' <= sent s + iterations_left a s + 1 /\ (slept s' <= slept s + Z.of_nat (retries_left a) * maxb)%Z.
Proof.
  revert a s. induction fuel as [|fuel IH]; intros a s Hf; [lia|]. cbn [attempt_loop]. unfold bind.
  destruct (attempt_once_advances a s) as (r & s1 & -> & Hs & Hr). destruct Hpolicy as (Hp & Hb & _).
  unfold MIN_BACKOFF_MS in Hb. destruct r as [answer|a'].
  - exists answer, s1. split; [done|]. split; [lia|].
    assert (0 <= Z.of_nat (retries_left a) * maxb)%Z by (apply Z.mul_nonneg_nonneg; lia). lia.
  - destruct Hr as [Hi Ht]. destruct (IH a' s1) as (r & s2 & E & Hs2 & Ht2); [lia|].
    exists r, s2. split; [done|]. split; [lia|]. lia.
Qed.

(** C40 (bounds). The request of one model ends: with any configuration, whatever
    the provider answers, it returns after at most as many HTTP calls as the policy
    has attempts, six adaptations of the payload and the iterations the caller asks
    for, and it sleeps at most the greatest backoff before each attempt but the
    first. *)
Theorem model_request_bounded fuel s :
  Z.to_nat maxa + 6 + downgrades s <= fuel ->
  exists r s', execute_model_request runtime build_body parse_success missing_shape_fragment pre_status_error fuel s =
               (Returned (Some r), s') /\
    sent s' <= sent s + Z.to_nat maxa + 6 + downgrades s /\
    (slept s' <= slept s + (maxa - 1) * maxb)%Z.
Proof.
  intros Hf. unfold execute_model_request.
  set (a := {| as_attempt := 0 |}). pose proof (contract_adaptations_bound provider mode family (as_payload_mode a)) as Hb.
  destruct Hpolicy as (Hp & _). assert (Hr : retries_left a = Z.to_nat (maxa - 1)) by (unfold retries_left; simpl; f_equal; lia).
  destruct (attempt_loop_ends fuel a s) as (r & s' & -> & Hs & Ht); [unfold iterations_left; lia|].
  exists r, s'. split; [done|]. unfold iterations_left in Hs. rewrite Hr, Z2Nat.id in Ht by lia. split; [lia|done].
Qed.
End bounded.
