(* ===== verification/ProviderCatalog.v ===== *)
(** * The catalog of models

    [catalog_runtime.rs], [model_candidate_resolver_runtime.rs] and the preparation of
    [request_session_runtime.rs] of [crates/app/src/provider]: the cache of a provider's
    models, the single flight that shares one fetch among concurrent callers, and the
    candidates a request starts from.  Concurrent callers are a list of threads that
    take the steps between two accesses of shared state ([flight_step]); the identity
    of a slot ([Arc::ptr_eq]) is a number.  The receivers of a slot's watch channel and
    the [Arc]s of the slot are those the callers and the map hold where they stand.  The
    fetch itself is a parameter. *)

From stdpp Require Import gmap.
From S2P Require Import Prelude RustStr Contracts Policy AuditSinks Kernel Json.
From S2P Require Import Provider ProviderHealth ProviderFailover ProviderRequest.

(** ** The cache *)

Record ModelCatalogCacheEntry : Type := {
  mc_models : list string;
  mc_fresh_expires_at : Z;
  mc_stale_expires_at : Z;
}.

Inductive ModelCatalogCacheLookup : Type := Fresh (models : list string) | Stale (models : list string).

Definition ModelCatalogCache : Type := Lru ModelCatalogCacheEntry.

Definition ModelCatalogCache_prune_dead (now : Z) (c : ModelCatalogCache) : ModelCatalogCache :=
  lru_retain (fun entry => (now <? mc_stale_expires_at entry)%Z) c.

Definition ModelCatalogCache_lookup (key : string) (now : Z) (c : ModelCatalogCache)
  : option ModelCatalogCacheLookup * ModelCatalogCache :=
  let c := ModelCatalogCache_prune_dead now c in
  (entry ← lru_entries c !! key;
   Some (if (now <? mc_fresh_expires_at entry)%Z then Fresh (mc_models entry) else Stale (mc_models entry)), c).

Definition ModelCatalogCache_put (key : string) (models : list string) (now ttl stale_if_error max_entries : Z)
    (c : ModelCatalogCache) : ModelCatalogCache :=
  if (ttl =? 0)%Z || bool_decide (models = []) then c else
  match Instant_checked_add now ttl with
  | None => c
  | Some fresh_expires_at =>
      let stale_expires_at := default fresh_expires_at (Instant_checked_add fresh_expires_at stale_if_error) in
      lru_put key {| mc_models := models; mc_fresh_expires_at := fresh_expires_at;
                     mc_stale_expires_at := stale_expires_at |} max_entries (ModelCatalogCache_prune_dead now c)
  end.

(** ** Ranking *)

Definition push_unique_model (out : list string) (model : string) : list string :=
  if decide (model ∈ out) then out else out ++ [model].

Definition rank_preferred (available : list string) (ordered : list string) (raw : string) : list string :=
  let trimmed := trim raw in
  if str_is_empty trimmed then ordered else
  match find_first (fun model => bool_decide (model = trimmed)) available with
  | Some matched => push_unique_model ordered matched
  | None =>
      match find_first (fun model => bool_decide (to_ascii_lowercase model = to_ascii_lowercase trimmed)) available with
      | Some matched => push_unique_model ordered matched
      | None => ordered
      end
  end.

Definition rank_model_candidates (provider : ProviderConfig) (available : list string) : list string :=
  foldl push_unique_model (foldl (rank_preferred available) [] (pc_preferred_models provider)) available.

(** ** Single flight *)

Definition FetchResult : Type := result (list string) string.

(** A slot that was ever made: its key, when, and the value of its watch channel. *)
Record ModelCatalogFetchSlot : Type := {
  sl_key : string;
  sl_started_at : Z;
  sl_value : option FetchResult;
}.

(** [MODEL_CATALOG_FETCHES] and the slots it ever held; and, to speak about, every
    result [fetch_models] has given, with its key. *)
Record Flights : Type := {
  fl_slots : list ModelCatalogFetchSlot;
  fl_map : gmap string nat;
  fl_fetched : list (string * FetchResult);
}.

(** Where a caller of [fetch_model_catalog_singleflight_with_timeouts] stands: at the
    top of the loop, with the [Arc] of another's slot but not subscribed to it yet,
    fetching as the leader, with its result sent, waiting as a follower (subscribed,
    the [Arc] dropped), returned, or dropped before it returned.  [can_fetch] says that
    the closure has not been taken. *)
Inductive FlightThread : Type :=
| FtJoin (key : string) (can_fetch : bool)
| FtFound (key : string) (slot : nat) (can_fetch : bool)
| FtLead (key : string) (slot : nat)
| FtSent (key : string) (slot : nat) (r : FetchResult)
| FtWait (key : string) (slot : nat) (can_fetch : bool)
| FtDone (key : string) (r : FetchResult)
| FtDropped.

(** A caller owns a receiver of the slot while it waits. *)
Definition has_receiver (id : nat) (t : FlightThread) : bool :=
  match t with FtWait _ slot _ => slot =? id | _ => false end.

(** A caller owns an [Arc] of the slot as its leader and until it has subscribed. *)
Definition holds_slot (id : nat) (t : FlightThread) : bool :=
  match t with FtFound _ slot _ | FtLead _ slot | FtSent _ slot _ => slot =? id | _ => false end.

(** The channel has a receiver. *)
Definition subscribed (id : nat) (threads : list FlightThread) : bool := existsb (has_receiver id) threads.

(** The sender lives as long as an [Arc] of its slot: that of a caller or of the map. *)
Definition sender_alive (id : nat) (threads : list FlightThread) (fl : Flights) : bool :=
  existsb (holds_slot id) threads ||
  existsb (fun p => p.2 =? id) (map_to_list (fl_map fl)).

Definition set_slot (id : nat) (f : ModelCatalogFetchSlot -> ModelCatalogFetchSlot) (fl : Flights) : Flights :=
  {| fl_slots := alter f id (fl_slots fl); fl_map := fl_map fl; fl_fetched := fl_fetched fl |}.
Definition sl_publish (r : FetchResult) (s : ModelCatalogFetchSlot) : ModelCatalogFetchSlot :=
  {| sl_key := sl_key s; sl_started_at := sl_started_at s; sl_value := Some r |}.
Definition fl_note_fetched (key : string) (r : FetchResult) (fl : Flights) : Flights :=
  {| fl_slots := fl_slots fl; fl_map := fl_map fl; fl_fetched := fl_fetched fl ++ [(key, r)] |}.

(** [fetches.remove(key)] if the key still holds this slot: the guard of a leader
    ([Drop]) and the eviction of a stale slot. *)
Definition remove_own_slot (key : string) (id : nat) (fl : Flights) : Flights :=
  if decide (fl_map fl !! key = Some id)
  then {| fl_slots := fl_slots fl; fl_map := delete key (fl_map fl); fl_fetched := fl_fetched fl |} else fl.

(** The top of the loop: find the slot of the key, or make one and lead. *)
Definition flight_join (key : string) (now : Z) (can_fetch : bool) (fl : Flights) : FlightThread * Flights :=
  match fl_map fl !! key with
  | Some existing => (FtFound key existing can_fetch, fl)
  | None =>
      let id := length (fl_slots fl) in
      let fl := {| fl_slots := fl_slots fl ++ [{| sl_key := key; sl_started_at := now; sl_value := None |}];
                   fl_map := <[key := id]> (fl_map fl); fl_fetched := fl_fetched fl |} in
      if can_fetch then (FtLead key id, fl)
      else (FtDone key (Err "provider model catalog singleflight leader fetch closure missing"),
            remove_own_slot key id fl)
  end.

(** [watch::Sender::send]: without a receiver it fails and stores nothing; the code
    ignores that. *)
Definition flight_publish (threads : list FlightThread) (id : nat) (r : FetchResult) (fl : Flights) : Flights :=
  if subscribed id threads then set_slot id (sl_publish r) fl else fl.

(** The leader's guard is dropped. *)
Definition flight_leave (key : string) (id : nat) (fl : Flights) : Flights := remove_own_slot key id fl.

(** What a waiting follower finds: a result, a sender that is gone, or nothing yet. *)
Definition flight_poll (threads : list FlightThread) (key : string) (id : nat) (can_fetch : bool) (fl : Flights)
  : option FlightThread :=
  slot ← fl_slots fl !! id;
  match sl_value slot with
  | Some r => Some (FtDone key r)
  | None => if sender_alive id threads fl then None else Some (FtJoin key can_fetch)
  end.

(** A wait that timed out: a slot older than [stale_slot_age] is evicted, by the
    follower that still finds it under the key. *)
Definition flight_timeout (key : string) (id : nat) (now stale_slot_age : Z) (can_fetch : bool) (fl : Flights)
  : FlightThread * Flights :=
  match fl_slots fl !! id with
  | None => (FtWait key id can_fetch, fl)
  | Some slot =>
      if (now - sl_started_at slot <? stale_slot_age)%Z then (FtWait key id can_fetch, fl) else
      if decide (fl_map fl !! key = Some id) then (FtJoin key can_fetch, remove_own_slot key id fl)
      else (FtWait key id can_fetch, fl)
  end.

(** A step of one caller among [threads]; [evicts] says whether stale slots may be
    evicted. *)
Inductive thread_moves (stale_slot_age : Z) (evicts : bool) (threads : list FlightThread)
  : FlightThread -> Flights -> FlightThread -> Flights -> Prop :=
| MoveJoin key c now fl t fl' :
    flight_join key now c fl = (t, fl') -> thread_moves stale_slot_age evicts threads (FtJoin key c) fl t fl'
| MoveSubscribe key id c fl :
    thread_moves stale_slot_age evicts threads (FtFound key id c) fl (FtWait key id c) fl
| MoveFetched key id r fl :
    thread_moves stale_slot_age evicts threads (FtLead key id) fl (FtSent key id r)
      (flight_publish threads id r (fl_note_fetched key r fl))
| MoveReturn key id r fl :
    thread_moves stale_slot_age evicts threads (FtSent key id r) fl (FtDone key r) (flight_leave key id fl)
| MoveCancel key id fl :
    thread_moves stale_slot_age evicts threads (FtLead key id) fl FtDropped (flight_leave key id fl)
| MovePoll key id c fl t :
    flight_poll threads key id c fl = Some t ->
    thread_moves stale_slot_age evicts threads (FtWait key id c) fl t fl
| MoveTimeout key id c now fl t fl' :
    evicts = true -> flight_timeout key id now stale_slot_age c fl = (t, fl') ->
    thread_moves stale_slot_age evicts threads (FtWait key id c) fl t fl'
| MoveGiveUp key id c fl : thread_moves stale_slot_age evicts threads (FtWait key id c) fl FtDropped fl.

Inductive flight_step (stale_slot_age : Z) (evicts : bool) :
    list FlightThread * Flights -> list FlightThread * Flights -> Prop :=
| FlightStep threads i t fl t' fl' :
    threads !! i = Some t -> thread_moves stale_slot_age evicts threads t fl t' fl' ->
    flight_step stale_slot_age evicts (threads, fl) (<[i := t']> threads, fl')
| FlightArrive threads key fl :
    flight_step stale_slot_age evicts (threads, fl) (threads ++ [FtJoin key true], fl).

Definition flights_start : list FlightThread * Flights :=
  ([], {| fl_slots := []; fl_map := ∅; fl_fetched := [] |}).

Definition flight_reachable (stale_slot_age : Z) (evicts : bool) : list FlightThread * Flights -> Prop :=
  rtc (flight_step stale_slot_age evicts) flights_start.

(** ** The candidates of a request *)

Section session.
Context {J : SerdeJson} {FF : FloatFormat} {H : DefaultHasher} {SC : SnapshotCodec}.
Context {P A C KW W : Type} `{!PolicyEngine P, !AuditSink A, !Clock C, !ProviderEnv W}.

Record SessionState : Type := {
  se_runtime : ProviderRuntime P A C KW W;
  se_catalog : ModelCatalogCache;
}.

Definition se_set_runtime (r : ProviderRuntime P A C KW W) (s : SessionState) : SessionState :=
  {| se_runtime := r; se_catalog := se_catalog s |}.
Definition se_set_catalog (c : ModelCatalogCache) (s : SessionState) : SessionState :=
  {| se_runtime := se_runtime s; se_catalog := c |}.

Definition session_now : M SessionState Z := zoom se_runtime se_set_runtime (read_world instant_now).

Definition load_cached_model_catalog (cache_key : string) : M SessionState (option ModelCatalogCacheLookup) :=
  let! now := session_now in
  let! catalog := gets se_catalog in
  let (lookup, catalog) := ModelCatalogCache_lookup cache_key now catalog in
  run! modify (se_set_catalog catalog) in
  ret lookup.

Definition store_model_catalog (cache_key : string) (models : list string) (ttl stale_if_error max_entries : Z)
  : M SessionState unit :=
  let! now := session_now in
  modify (fun s => se_set_catalog
    (ModelCatalogCache_put cache_key models now ttl stale_if_error max_entries (se_catalog s)) s).

Definition prioritize_models (models : list string) (policy : option ModelCandidateCooldownPolicy)
  : M SessionState (list string) :=
  match policy with
  | None => ret models
  | Some policy =>
      if (length models <=? 1) then ret models else
      let! now := session_now in
      let! runtime := gets se_runtime in
      let (ordered, cooldowns) :=
        prioritize_model_candidates_by_cooldown models (Some policy) now (pr_cooldowns runtime) in
      run! modify (fun s => se_set_runtime (pr_set_cooldowns cooldowns (se_runtime s)) s) in
      ret ordered
  end.

(** The provider, the endpoint and headers of its catalog, and the fetch of it with a
    credential (through the single flight when there is a cache). *)
Variable provider : ProviderConfig.
Variables (models_endpoint : string) (headers : HeaderMap).
Variable fetch : option ProviderAuthProfile -> M SessionState FetchResult.
Variable model_candidate_cooldown_policy : option ModelCandidateCooldownPolicy.

(** A cached catalog that is fresh and has models answers at once ([inl]); any other is
    kept for a fetch that fails. *)
Definition cached_models (cache_key : option string) : M SessionState (list string + option (list string)) :=
  match cache_key with
  | None => ret (inr None)
  | Some cache_key =>
      let! lookup := load_cached_model_catalog cache_key in
      match lookup with
      | None => ret (inr None)
      | Some (Fresh models) =>
          let ordered := rank_model_candidates provider models in
          if bool_decide (ordered = []) then ret (inr (Some models)) else ret (inl ordered)
      | Some (Stale models) => ret (inr (Some models))
      end
  end.

Definition resolve_request_models (auth_profile : option ProviderAuthProfile)
  : M SessionState (result (list string) string) :=
  match ProviderConfig_resolved_model provider with
  | Some model => ret (Ok [model])
  | None =>
      let preferred_fallback_models := ProviderConfig_configured_auto_model_candidates provider in
      let cache_ttl_ms := ProviderConfig_resolved_model_catalog_cache_ttl_ms provider in
      let auth_cache_key := profile ← auth_profile; ap_auth_cache_key profile in
      let cache_key := if (0 <? cache_ttl_ms)%Z
                       then Some (build_model_catalog_cache_key models_endpoint headers auth_cache_key) else None in
      let answer ordered := let! models := prioritize_models ordered model_candidate_cooldown_policy in ret (Ok models) in
      let! cached := cached_models cache_key in
      match cached with
      | inl ordered => answer ordered
      | inr stale_models =>
          let! fetched := fetch auth_profile in
          match fetched with
          | Err error =>
              let ordered := match stale_models with
                             | Some models => rank_model_candidates provider models
                             | None => []
                             end in
              if bool_decide (ordered = []) then
                if bool_decide (preferred_fallback_models = []) then ret (Err error)
                else answer preferred_fallback_models
              else answer ordered
          | Ok available =>
              run! match cache_key with
                   | Some cache_key =>
                       store_model_catalog cache_key available (Duration_from_millis cache_ttl_ms)
                         (Duration_from_millis (ProviderConfig_resolved_model_catalog_stale_if_error_ms provider))
                         (ProviderConfig_resolved_model_catalog_cache_max_entries provider)
                   | None => ret tt
                   end in
              let ordered := rank_model_candidates provider available in
              if bool_decide (ordered = [])
              then ret (Err "provider model-list is empty; set provider.model explicitly")
              else answer ordered
          end
      end
  end.

(** The candidates of a session: the explicit model, or the catalog fetched with the
    first credential that can, failures marked on the way
    ([prepare_provider_request_session]). *)
Variable profile_state_policy : option ProviderProfileStatePolicy.

Fixpoint resolve_with_profiles (profiles : list ProviderAuthProfile) (last_error : option string)
  : M SessionState (result (list string) string) :=
  match profiles with
  | [] => ret (Err (default "provider model-list unavailable for every auth profile" last_error))
  | profile :: rest =>
      let! r := resolve_request_models (Some profile) in
      match r with
      | Ok candidates => ret (Ok candidates)
      | Err error =>
          run! match profile_state_policy with
               | Some policy => zoom se_runtime se_set_runtime
                   (mark_provider_profile_failure policy profile (classify_profile_failure_reason_from_message error))
               | None => ret tt
               end in
          resolve_with_profiles rest (Some error)
      end
  end.

Definition session_model_candidates (auth_profiles : list ProviderAuthProfile)
  : M SessionState (result (list string) string) :=
  if ProviderConfig_model_selection_requires_fetch provider
  then resolve_with_profiles auth_profiles None
  else resolve_request_models (head auth_profiles).
End session.

Arguments SessionState {J} P A C KW W.

Section policies.
Context {H : DefaultHasher}.

Definition build_provider_profile_state_policy (provider : ProviderConfig) (endpoint : string) (headers : HeaderMap)
  : option ProviderProfileStatePolicy :=
  Some {| sp_namespace := build_provider_profile_state_namespace endpoint headers;
          sp_health_mode := rc_profile_health_mode (provider_runtime_contract provider);
          sp_cooldown := Duration_from_millis (ProviderConfig_resolved_profile_cooldown_ms provider);
          sp_max_cooldown := Duration_from_millis (ProviderConfig_resolved_profile_cooldown_max_ms provider);
          sp_auth_reject_disable := Duration_from_millis (ProviderConfig_resolved_profile_auth_reject_disable_ms provider);
          sp_max_entries := ProviderConfig_resolved_profile_state_max_entries provider |}.

Definition build_model_candidate_cooldown_policy (provider : ProviderConfig) (endpoint : string)
    (headers : HeaderMap) (auth_cache_key : option string) : option ModelCandidateCooldownPolicy :=
  if negb (ProviderConfig_model_selection_requires_fetch provider) then None else
  let cooldown_ms := ProviderConfig_resolved_model_candidate_cooldown_ms provider in
  if (cooldown_ms =? 0)%Z then None else
  Some {| cp_namespace := build_model_candidate_cooldown_namespace endpoint headers auth_cache_key;
          cp_cooldown := Duration_from_millis cooldown_ms;
          cp_max_cooldown := Duration_from_millis (ProviderConfig_resolved_model_candidate_cooldown_max_ms provider);
          cp_max_entries := ProviderConfig_resolved_model_candidate_cooldown_max_entries provider |}.
End policies.
