(* ===== verification/ProviderCatalogFacts.v ===== *)
(** * Facts about the catalog of models

    Single flight: what a caller is answered, that a waiting caller is never left
    behind, and that without stale slots one fetch per key is in flight.  Then the
    ranking of models and the cache. *)

From stdpp Require Import gmap.
From S2P Require Import Prelude RustStr Contracts Policy AuditSinks Kernel Json.
From S2P Require Import Provider ProviderHealth ProviderFailover ProviderFailoverFacts ProviderRequest ProviderRequestFacts ProviderCatalog.

(** ** Single flight *)

Definition leads (t : FlightThread) : option (string * nat) :=
  match t with
  | FtLead key id | FtSent key id _ => Some (key, id)
  | _ => None
  end.

(** A slot that was made for the key. *)
Definition slot_of (fl : Flights) (key : string) (id : nat) : Prop :=
  exists slot, fl_slots fl !! id = Some slot /\ sl_key slot = key.

(** What a caller may rely on where it stands. *)
Definition thread_ok (fl : Flights) (t : FlightThread) : Prop :=
  match t with
  | FtJoin _ c => c = true
  | FtFound key id c | FtWait key id c => c = true /\ slot_of fl key id
  | FtLead key id => slot_of fl key id
  | FtSent key id r => slot_of fl key id /\ (key, r) ∈ fl_fetched fl
  | FtDone key r => (key, r) ∈ fl_fetched fl
  | FtDropped => True
  end.

Record flight_inv (evicts : bool) (threads : list FlightThread) (fl : Flights) : Prop := {
  fi_threads : forall i t, threads !! i = Some t -> thread_ok fl t;
  fi_values : forall id slot r, fl_slots fl !! id = Some slot -> sl_value slot = Some r ->
    (sl_key slot, r) ∈ fl_fetched fl;
  fi_unique : forall i j t t' key key' id, threads !! i = Some t -> threads !! j = Some t' ->
    leads t = Some (key, id) -> leads t' = Some (key', id) -> i = j;
  fi_map : forall key id, fl_map fl !! key = Some id ->
    slot_of fl key id /\ exists i t, threads !! i = Some t /\ leads t = Some (key, id);
  fi_led : evicts = false -> forall i t key id, threads !! i = Some t -> leads t = Some (key, id) ->
    fl_map fl !! key = Some id;
}.

(** Slots keep their keys and no result fetched is forgotten. *)
Definition flights_later (fl fl' : Flights) : Prop :=
  (forall key id, slot_of fl key id -> slot_of fl' key id) /\
  (forall x, x ∈ fl_fetched fl -> x ∈ fl_fetched fl').

Lemma thread_ok_later fl fl' t : flights_later fl fl' -> thread_ok fl t -> thread_ok fl' t.
Proof. intros [Hs Hf]. destruct t; simpl; naive_solver. Qed.

Lemma leads_slot fl t key id : thread_ok fl t -> leads t = Some (key, id) -> slot_of fl key id.
Proof. destruct t; simpl; try done; [intros ? [= <- <-]; done|intros [? _] [= <- <-]; done]. Qed.

Lemma remove_own_slot_slots key id fl : fl_slots (remove_own_slot key id fl) = fl_slots fl.
Proof. unfold remove_own_slot. by repeat case_decide. Qed.

Lemma remove_own_slot_fetched key id fl : fl_fetched (remove_own_slot key id fl) = fl_fetched fl.
Proof. unfold remove_own_slot. by repeat case_decide. Qed.

Lemma remove_own_slot_map key id fl k :
  fl_map (remove_own_slot key id fl) !! k =
  if decide (k = key /\ fl_map fl !! key = Some id) then None else fl_map fl !! k.
Proof.
  unfold remove_own_slot. destruct (decide (fl_map fl !! key = Some id)) as [E|E]; simpl.
  - destruct (decide (k = key /\ _)) as [[-> _]|Hn]; [apply lookup_delete_eq|].
    apply lookup_delete_ne. intros <-. by apply Hn.
  - destruct (decide (k = key /\ _)) as [[-> ?]|]; [done|done].
Qed.

Lemma remove_own_slot_later key id fl : flights_later fl (remove_own_slot key id fl).
Proof. split; unfold slot_of; intros; by rewrite ?remove_own_slot_slots, ?remove_own_slot_fetched. Qed.

(** The position [i] of a thread that moved, and the others. *)
Lemma moved_lookup (threads : list FlightThread) i t t' j u :
  threads !! i = Some t -> <[i := t']> threads !! j = Some u ->
  (j = i /\ u = t') \/ (j <> i /\ threads !! j = Some u).
Proof.
  intros Hi. destruct (decide (j = i)) as [->|Hj].
  - rewrite list_lookup_insert_eq by by eapply lookup_lt_Some. intros [= <-]. auto.
  - rewrite list_lookup_insert_ne by done. auto.
Qed.

Lemma moved_self (threads : list FlightThread) i t t' : threads !! i = Some t -> <[i := t']> threads !! i = Some t'.
Proof. intros. apply list_lookup_insert_eq. by eapply lookup_lt_Some. Qed.

(** A move that leads as before: the slots keep what is said of them, and the map only
    loses entries, none when nothing is evicted. *)
Lemma inv_same_lead evicts threads fl fl' i t t' :
  flight_inv evicts threads fl -> threads !! i = Some t -> leads t = leads t' ->
  flights_later fl fl' -> thread_ok fl' t' ->
  (forall id slot r, fl_slots fl' !! id = Some slot -> sl_value slot = Some r -> (sl_key slot, r) ∈ fl_fetched fl') ->
  fl_map fl' ⊆ fl_map fl -> (evicts = false -> fl_map fl' = fl_map fl) ->
  flight_inv evicts (<[i := t']> threads) fl'.
Proof.
  intros [H1 H2 H3 H4 H5] Hi Hl Hlater Hok Hval Hsub Hkeep.
  assert (Hlead : forall j u, <[i := t']> threads !! j = Some u ->
                  exists u0, threads !! j = Some u0 /\ leads u0 = leads u).
  { intros j u [[-> ->]|[? ?]]%(moved_lookup threads i t t' j u Hi); eauto. }
  split.
  - intros j u [[-> ->]|[? ?]]%(moved_lookup threads i t t' j u Hi); [done|].
    eapply thread_ok_later; [exact Hlater|]. by eapply H1.
  - exact Hval.
  - intros j j' u u' key key' id Hj Hj' E E'. destruct (Hlead j u Hj) as (u0 & ? & Eu).
    destruct (Hlead j' u' Hj') as (u0' & ? & Eu').
    eapply H3; [eassumption..|rewrite Eu; exact E|rewrite Eu'; exact E'].
  - intros key id Hm. eapply lookup_weaken in Hm; [|exact Hsub].
    destruct (H4 key id Hm) as (Hs & j & u & Hj & E). split; [by apply Hlater|].
    destruct (decide (j = i)) as [->|Hn]; [|exists j, u; by rewrite list_lookup_insert_ne].
    exists i, t'. split; [by eapply moved_self|]. rewrite Hi in Hj. injection Hj as <-. congruence.
  - intros He j u key id Hj E. destruct (Hlead j u Hj) as (u0 & Hu & Eu). rewrite (Hkeep He).
    eapply (H5 He j u0); [exact Hu|by rewrite Eu].
Qed.

Lemma inv_walk evicts threads fl i t t' :
  flight_inv evicts threads fl -> threads !! i = Some t -> leads t = leads t' -> thread_ok fl t' ->
  flight_inv evicts (<[i := t']> threads) fl.
Proof. intros Hinv Hi Hl Hok. eapply inv_same_lead; try done. apply Hinv. Qed.

(** *** The moves *)

Lemma inv_join evicts threads fl i key now t' fl' :
  flight_inv evicts threads fl -> threads !! i = Some (FtJoin key true) -> flight_join key now true fl = (t', fl') ->
  flight_inv evicts (<[i := t']> threads) fl'.
Proof.
  intros Hinv Hi. unfold flight_join. destruct (fl_map fl !! key) as [id|] eqn:Em.
  { intros [= <- <-]. eapply inv_walk; [done..|]. split; [done|]. by apply (fi_map _ _ _ Hinv). }
  intros [= <- <-]. destruct Hinv as [H1 H2 H3 H4 H5]. set (n := length (fl_slots fl)).
  set (slot := {| sl_key := key; sl_started_at := now; sl_value := None |}).
  match goal with |- flight_inv _ _ ?f => set (fl' := f) end.
  assert (Hlater : flights_later fl fl').
  { split; [|done]. intros k id (s & Hs & Hk). exists s. split; [|done]. by apply lookup_app_l_Some. }
  assert (Hnew : slot_of fl' key n).
  { exists slot. split; [|done]. simpl. rewrite lookup_app_r by done. by rewrite Nat.sub_diag. }
  assert (Hlt : forall j u k id, threads !! j = Some u -> leads u = Some (k, id) -> id <> n).
  { intros j u k id Hj El. destruct (leads_slot fl u k id (H1 j u Hj) El) as (s & Hs%lookup_lt_Some & _). unfold n. lia. }
  split.
  - intros j u [[-> ->]|[? Hj]]%(moved_lookup threads i _ _ j u Hi); [done|].
    eapply thread_ok_later; [exact Hlater|]. by eapply H1.
  - intros id s r [[_ Hs]|[_ <-]]%lookup_snoc_Some Hv; [by eapply H2|done].
  - intros j j' u u' k k' id Hj Hj' E E'.
    apply (moved_lookup threads i _ _ j u Hi) in Hj as [[-> ->]|[Hn Hj]];
      apply (moved_lookup threads i _ _ j' u' Hi) in Hj' as [[-> ->]|[Hn' Hj']]; try done.
    + injection E as <- <-. by destruct (Hlt j' u' _ _ Hj' E').
    + injection E' as <- <-. by destruct (Hlt j u _ _ Hj E).
    + eauto.
  - intros k id. simpl. destruct (decide (k = key)) as [->|Hk].
    + rewrite lookup_insert_eq. intros [= <-]. split; [done|]. exists i, (FtLead key n).
      split; [by eapply moved_self|done].
    + rewrite lookup_insert_ne by done. intros Hm. destruct (H4 k id Hm) as (Hs & j & u & Hj & E).
      split; [by apply Hlater|]. exists j, u. split; [|done]. rewrite list_lookup_insert_ne; [done|].
      intros <-. rewrite Hi in Hj. by injection Hj as <-.
  - intros He j u k id [[-> ->]|[? Hj]]%(moved_lookup threads i _ _ j u Hi) E; simpl.
    + injection E as <- <-. by rewrite lookup_insert_eq.
    + specialize (H5 He j u k id Hj E). rewrite lookup_insert_ne; [done|]. congruence.
Qed.

Lemma publish_slots threads id r fl j :
  fl_slots (flight_publish threads id r fl) !! j =
  if decide (j = id /\ subscribed id threads = true) then sl_publish r <$> fl_slots fl !! j else fl_slots fl !! j.
Proof.
  unfold flight_publish. destruct (subscribed id threads); simpl.
  - destruct (decide (j = id)) as [->|Hj].
    + rewrite decide_True by done. apply list_lookup_alter_eq.
    + rewrite decide_False by naive_solver. by apply list_lookup_alter_ne.
  - by rewrite decide_False by naive_solver.
Qed.

Lemma inv_fetched evicts threads fl i key id r :
  flight_inv evicts threads fl -> threads !! i = Some (FtLead key id) ->
  flight_inv evicts (<[i := FtSent key id r]> threads) (flight_publish threads id r (fl_note_fetched key r fl)).
Proof.
  intros Hinv Hi. assert (Hs : slot_of fl key id) by apply (fi_threads _ _ _ Hinv i _ Hi).
  assert (Hf : fl_fetched (flight_publish threads id r (fl_note_fetched key r fl)) = fl_fetched fl ++ [(key, r)])
    by (unfold flight_publish; by destruct (subscribed _ _)).
  assert (Hm : fl_map (flight_publish threads id r (fl_note_fetched key r fl)) = fl_map fl)
    by (unfold flight_publish; by destruct (subscribed _ _)).
  assert (Hlater : flights_later fl (flight_publish threads id r (fl_note_fetched key r fl))).
  { split; [|intros x; rewrite Hf; set_solver]. intros k j (s & Ej & Ek). unfold slot_of. rewrite publish_slots. simpl.
    destruct (decide _); rewrite Ej; simpl; eauto. }
  eapply (inv_same_lead evicts threads fl); try done.
  - split; [by apply Hlater|]. rewrite Hf. set_solver.
  - intros j slot r'. rewrite publish_slots, Hf. simpl. destruct Hs as (s & Es & <-).
    destruct (decide _) as [[-> _]|_].
    + rewrite Es. intros [= <-] [= <-]. simpl. set_solver.
    + intros Ej Ev. apply elem_of_app. left. by eapply (fi_values _ _ _ Hinv).
  - by rewrite Hm.
Qed.

(** A leader leaves: its key is free again, unless another caller has it. *)
Lemma inv_leave evicts threads fl i t t' key id :
  flight_inv evicts threads fl -> threads !! i = Some t -> leads t = Some (key, id) -> leads t' = None ->
  thread_ok fl t' -> flight_inv evicts (<[i := t']> threads) (flight_leave key id fl).
Proof.
  intros [H1 H2 H3 H4 H5] Hi Hl Hl' Hok. unfold flight_leave.
  pose proof (remove_own_slot_later key id fl) as Hlater.
  assert (Hlead : forall j u x, <[i := t']> threads !! j = Some u -> leads u = Some x -> j <> i /\ threads !! j = Some u).
  { intros j u x [[-> ->]|?]%(moved_lookup threads i t t' j u Hi) E; [congruence|done]. }
  split.
  - intros j u [[-> ->]|[? ?]]%(moved_lookup threads i t t' j u Hi); (eapply thread_ok_later; [exact Hlater|]); [done|].
    by eapply H1.
  - rewrite remove_own_slot_slots, remove_own_slot_fetched. exact H2.
  - intros j j' u u' k k' id' Hj Hj' E E'.
    eapply H3; [by eapply Hlead|by eapply Hlead|exact E|exact E'].
  - intros k id'. rewrite remove_own_slot_map. destruct (decide _) as [|Hn]; [done|]. intros Hm.
    destruct (H4 k id' Hm) as (Hs & j & u & Hj & E). split; [by apply Hlater|]. exists j, u. split; [|done].
    rewrite list_lookup_insert_ne; [done|]. intros <-. rewrite Hi in Hj. injection Hj as <-.
    rewrite Hl in E. injection E as <- <-. by apply Hn.
  - intros He j u k id' Hj E. destruct (Hlead j u _ Hj E) as [Hne Hu]. rewrite remove_own_slot_map.
    rewrite decide_False; [by eapply H5|]. intros [-> Hm]. rewrite (H5 He j u key id' Hu E) in Hm.
    injection Hm as ->. apply Hne. by eapply H3.
Qed.

Lemma inv_evict threads fl i key id c :
  flight_inv true threads fl -> threads !! i = Some (FtWait key id c) ->
  flight_inv true (<[i := FtJoin key c]> threads) (remove_own_slot key id fl).
Proof.
  intros Hinv Hi. eapply (inv_same_lead true threads fl); try done.
  - apply remove_own_slot_later.
  - apply (fi_threads _ _ _ Hinv _ _ Hi).
  - rewrite remove_own_slot_slots, remove_own_slot_fetched. apply Hinv.
  - unfold remove_own_slot. destruct (decide _); [apply delete_subseteq|done].
Qed.

Lemma inv_moves age evicts threads fl i t t' fl' :
  flight_inv evicts threads fl -> threads !! i = Some t -> thread_moves age evicts threads t fl t' fl' ->
  flight_inv evicts (<[i := t']> threads) fl'.
Proof.
  intros Hinv Hi Hm. assert (Ht := fi_threads _ _ _ Hinv i t Hi).
  destruct Hm as [key c now fl t fl' E|key id c fl|key id r fl|key id r fl|key id fl|key id c fl t E
                 |key id c now fl t fl' He E|key id c fl]; simpl in Ht.
  - subst c. by eapply inv_join.
  - by eapply inv_walk.
  - by apply inv_fetched.
  - by eapply inv_leave; [..|apply Ht].
  - by eapply inv_leave.
  - destruct Ht as [-> (s & Es & Ek)]. unfold flight_poll in E. rewrite Es in E. simpl in E.
    destruct (sl_value s) as [r|] eqn:Ev; [|destruct (sender_alive _ _ _); [done|]]; injection E as <-.
    + eapply inv_walk; [done..|]. simpl. rewrite <- Ek. by eapply (fi_values _ _ _ Hinv).
    + by eapply inv_walk.
  - subst evicts. destruct Ht as [-> (s & Es & Ek)]. unfold flight_timeout in E. rewrite Es in E.
    assert (Hstay : flight_inv true (<[i := FtWait key id true]> threads) fl) by by rewrite list_insert_id.
    destruct (_ <? _)%Z; [by injection E as <- <-|]. destruct (decide _); injection E as <- <-; [|done].
    by apply inv_evict.
  - by eapply inv_walk.
Qed.

Lemma flight_reachable_inv age evicts st : flight_reachable age evicts st -> flight_inv evicts st.1 st.2.
Proof.
  unfold flight_reachable. intros Hr. assert (H0 : flight_inv evicts flights_start.1 flights_start.2).
  { split; simpl; try done; intros *; by rewrite ?lookup_nil, ?lookup_empty. }
  induction Hr as [st|st1 st2 st3 Hs Hr IH]; [done|]. apply IH. clear IH Hr.
  destruct Hs as [threads i t fl t' fl' Hi Hm|threads key fl]; simpl in *; [by eapply inv_moves|].
  destruct H0 as [H1 H2 H3 H4 H5].
  assert (Hnew : forall j u, (threads ++ [FtJoin key true]) !! j = Some u -> threads !! j = Some u \/ u = FtJoin key true).
  { intros j u [[_ Hj]|[_ <-]]%lookup_snoc_Some; auto. }
  split.
  - intros j u [Hj| ->]%Hnew; [eauto|done].
  - done.
  - intros j j' u u' k k' id [Hj| ->]%Hnew [Hj'| ->]%Hnew; try done. eauto.
  - intros k id Hm. destruct (H4 k id Hm) as (Hs & j & u & Hj & E). split; [done|]. exists j, u. split; [|done].
    by apply lookup_app_l_Some.
  - intros He j u k id [Hj| ->]%Hnew; [eauto|done].
Qed.

(** Who keeps the sender of a slot alive. *)
Lemma sender_alive_held evicts threads fl id :
  flight_inv evicts threads fl -> sender_alive id threads fl = true ->
  exists j t, threads !! j = Some t /\ holds_slot id t = true.
Proof.
  intros Hinv [H|H]%orb_true_iff; apply existsb_exists in H as (x & Hx & Heq).
  - apply list_elem_of_In, list_elem_of_lookup in Hx as [j Hj]. eauto.
  - destruct x as [key id']. apply Nat.eqb_eq in Heq. simpl in Heq. subst id'.
    apply list_elem_of_In, elem_of_map_to_list in Hx.
    destruct (fi_map _ _ _ Hinv key id Hx) as (_ & j & t & Hj & El). exists j, t. split; [done|].
    destruct t; simpl in El; try done; injection El as _ <-; simpl; apply Nat.eqb_refl.
Qed.

(** C36 (safety). Concurrent callers share a fetch soundly, in any interleaving: a caller is
    answered only what some leader fetched for its own key; it never finds its own fetch
    already spent; the slot a key holds belongs to a leader that is still running; a
    caller that waits finds a result or a dropped sender at once, or its slot is held by
    a caller that will let go of it: its leader, or one about to wait too; and when a
    leader publishes, every caller then waiting on its slot finds that result.  While no
    slot is evicted as stale, at most one caller fetches a key at a time. *)
Theorem single_flight age evicts threads fl :
  flight_reachable age evicts (threads, fl) ->
  (forall i key r, threads !! i = Some (FtDone key r) -> (key, r) ∈ fl_fetched fl) /\
  (forall i key id c, threads !! i = Some (FtWait key id c) ->
     c = true /\ (is_Some (flight_poll threads key id c fl) \/
                  exists j t, threads !! j = Some t /\ holds_slot id t = true)) /\
  (forall i key id c r key', threads !! i = Some (FtWait key id c) ->
     flight_poll threads key id c (flight_publish threads id r (fl_note_fetched key' r fl))
     = Some (FtDone key r)) /\
  (forall key id, fl_map fl !! key = Some id -> exists j t, threads !! j = Some t /\ leads t = Some (key, id)) /\
  (evicts = false -> forall i j t t' key id id', threads !! i = Some t -> threads !! j = Some t' ->
     leads t = Some (key, id) -> leads t' = Some (key, id') -> i = j).
Proof.
  intros Hinv%flight_reachable_inv. simpl in Hinv. assert (H0 := Hinv). destruct Hinv as [H1 H2 H3 H4 H5]. split_and!.
  - intros i key r Hi. exact (H1 i _ Hi).
  - intros i key id c Hi. destruct (H1 i _ Hi) as [-> (s & Es & Ek)]. split; [done|].
    destruct (sender_alive id threads fl) eqn:Eo; [right; by eapply sender_alive_held|].
    left. unfold flight_poll. rewrite Es. simpl. rewrite Eo. destruct (sl_value s); by eexists.
  - intros i key id c r key' Hi. destruct (H1 i _ Hi) as [_ (s & Es & Ek)].
    unfold flight_poll. rewrite publish_slots. simpl. rewrite decide_True; [by rewrite Es|]. split; [done|].
    apply existsb_exists. exists (FtWait key id c). split; [|apply Nat.eqb_refl].
    apply list_elem_of_In. by eapply list_elem_of_lookup_2.
  - intros key id Hm. by apply H4.
  - intros He i j t t' key id id' Hi Hj E E'. assert (id = id') as <-.
    { specialize (H5 He). pose proof (H5 i t key id Hi E). pose proof (H5 j t' key id' Hj E'). congruence. }
    by eapply H3.
Qed.

(** ** Ranking *)

Lemma push_unique_models l acc :
  NoDup acc -> NoDup (foldl push_unique_model acc l) /\
  forall m, m ∈ foldl push_unique_model acc l <-> m ∈ acc \/ m ∈ l.
Proof.
  revert acc. induction l as [|x l IH]; intros acc Hn; simpl.
  - split; [done|]. intros m. split; [by left|]. by intros [|?%elem_of_nil].
  - assert (Hp : NoDup (push_unique_model acc x) /\ forall m, m ∈ push_unique_model acc x <-> m ∈ acc \/ m = x).
    { unfold push_unique_model. destruct (decide (x ∈ acc)) as [Hx|Hx].
      - split; [done|]. intros m. split; [by left|]. by intros [| ->].
      - split.
        + apply NoDup_app. split; [done|]. split; [|by apply NoDup_singleton].
          intros y Hy ->%list_elem_of_singleton. done.
        + intros m. by rewrite elem_of_app, list_elem_of_singleton. }
    destruct Hp as [Hp Hpm]. destruct (IH _ Hp) as [H1 H2]. split; [done|]. intros m. rewrite H2, Hpm, elem_of_cons.
    tauto.
Qed.

Lemma rank_preferred_step available acc raw :
  NoDup acc -> (forall m, m ∈ acc -> m ∈ available) ->
  NoDup (rank_preferred available acc raw) /\ (forall m, m ∈ rank_preferred available acc raw -> m ∈ available).
Proof.
  intros Hn Hs. unfold rank_preferred. destruct (str_is_empty (trim raw)); [done|].
  assert (Hpush : forall f m, find_first f available = Some m ->
     NoDup (push_unique_model acc m) /\ (forall x, x ∈ push_unique_model acc m -> x ∈ available)).
  { intros f m (l1 & l2 & El & _)%find_first_Some. destruct (push_unique_models [m] acc Hn) as [H1 H2]. simpl in *.
    split; [done|]. intros x. rewrite H2, list_elem_of_singleton. intros [Hx| ->]; [auto|]. rewrite El.
    apply elem_of_app. right. by left. }
  destruct (find_first _ available) as [m|] eqn:E1; [by eapply Hpush|].
  destruct (find_first (fun model => bool_decide (to_ascii_lowercase model = _)) available) as [m|] eqn:E2;
    [by eapply Hpush|done].
Qed.

(** The ranked candidates are exactly the models available, each once. *)
Theorem ranked_candidates_exact provider available :
  NoDup (rank_model_candidates provider available) /\
  forall m, m ∈ rank_model_candidates provider available <-> m ∈ available.
Proof.
  unfold rank_model_candidates.
  assert (Hpre : forall prefs acc, NoDup acc -> (forall m, m ∈ acc -> m ∈ available) ->
     NoDup (foldl (rank_preferred available) acc prefs) /\
     (forall m, m ∈ foldl (rank_preferred available) acc prefs -> m ∈ available)).
  { induction prefs as [|raw prefs IH]; intros acc Hn Hs; [done|]. simpl.
    destruct (rank_preferred_step available acc raw Hn Hs) as [H1 H2]. by apply IH. }
  destruct (Hpre (pc_preferred_models provider) []) as [Hn Hs]; [constructor|by intros m ?%elem_of_nil|].
  destruct (push_unique_models available _ Hn) as [H1 H2]. split; [done|]. intros m. rewrite H2. naive_solver.
Qed.

(** ** The candidates of a session *)

Section session.
Context {J : SerdeJson} {FF : FloatFormat} {H : DefaultHasher} {SC : SnapshotCodec}.
Context {P A C KW W : Type} `{!PolicyEngine P, !AuditSink A, !Clock C, !ProviderEnv W}.

Local Abbreviation SS := (SessionState P A C KW W).

Variable provider : ProviderConfig.
Variables (models_endpoint : string) (headers : HeaderMap).
Variable fetch : option ProviderAuthProfile -> M SS FetchResult.
Variable cooldown_policy : option ModelCandidateCooldownPolicy.
Variable profile_state_policy : option ProviderProfileStatePolicy.

Lemma prioritize_models_perm models (s : SS) ordered s' :
  prioritize_models models cooldown_policy s = (Returned ordered, s') -> ordered ≡ₚ models.
Proof.
  unfold prioritize_models. destruct cooldown_policy as [policy|]; [|by intros [= <- _]].
  destruct (length models <=? 1); [by intros [= <- _]|].
  intros (now & s1 & _ & E)%bind_returned. apply bind_returned in E as (rt & s2 & _ & E).
  pose proof (cooling_models_last policy models now (pr_cooldowns rt)) as Hc.
  destruct (prioritize_model_candidates_by_cooldown _ _ _ _) as [o c]. simpl in Hc. injection E as <- _. subst o.
  clear. induction models as [|m models IH]; [done|]. rewrite !filter_cons.
  destruct (cooling_at policy now (pr_cooldowns rt) m); simpl; [|by constructor].
  rewrite <-Permutation_middle. by constructor.
Qed.

Lemma resolve_request_models_ok profile (s : SS) models s' :
  resolve_request_models provider models_endpoint headers fetch cooldown_policy profile s =
    (Returned (Ok models), s') ->
  models <> [] /\ NoDup models.
Proof.
  assert (Hanswer : forall ordered (s : SS) models s', ordered <> [] -> NoDup ordered ->
    bind (prioritize_models ordered cooldown_policy) (fun m => ret (Ok m : result (list string) string)) s =
    (Returned (Ok models), s') -> models <> [] /\ NoDup models).
  { intros ordered s0 m s1 Hne Hn (o & s2 & Hp & [= -> _])%bind_returned. apply prioritize_models_perm in Hp.
    split; [intros ->; by apply Permutation_nil in Hp|by rewrite Hp]. }
  assert (Hrank : forall l, NoDup (rank_model_candidates provider l)) by apply ranked_candidates_exact.
  unfold resolve_request_models. destruct (ProviderConfig_resolved_model provider) as [m|].
  { intros [= <- _]. split; [done|]. apply NoDup_singleton. }
  intros (cached & s1 & Hc & E)%bind_returned. destruct cached as [ordered|stale].
  - assert (Ho : ordered <> [] /\ NoDup ordered); [|destruct Ho; by eapply Hanswer].
    unfold cached_models in Hc. destruct (if (_ <? _)%Z then _ else _) as [key|]; [|done].
    apply bind_returned in Hc as (lookup & s2 & _ & Hc). destruct lookup as [[ms|ms]|]; [|done|done].
    case_bool_decide as Hb; [done|]. injection Hc as <- _. by split.
  - apply bind_returned in E as (fetched & s2 & _ & E). destruct fetched as [available|error].
    + apply bind_returned in E as (u & s3 & _ & E). case_bool_decide as Hb; [done|]. by apply Hanswer in E.
    + case_bool_decide as Hb.
      * case_bool_decide as Hb'; [done|]. apply Hanswer in E; [done|done|].
        unfold ProviderConfig_configured_auto_model_candidates. destruct (ProviderConfig_explicit_model provider); [constructor|].
        assert (Hp : forall l acc, NoDup acc -> NoDup (foldl push_model acc l)).
        { induction l as [|x l IH]; intros acc Hacc; simpl; [done|]. apply IH. unfold push_model.
          destruct (str_is_empty (trim x)); [done|]. case_bool_decide as Hin; [done|]. simpl.
          apply NoDup_app. split; [done|]. split; [|by apply NoDup_singleton].
          intros y Hy ->%list_elem_of_singleton. done. }
        apply Hp. constructor.
      * apply Hanswer in E; [done|done|]. destruct stale; [done|constructor].
Qed.

(** A session that is prepared has candidates, none twice: the request made with them
    never fails for want of one. *)
Theorem session_candidates_nonempty auth_profiles (s : SS) models s' :
  session_model_candidates provider models_endpoint headers fetch cooldown_policy profile_state_policy
    auth_profiles s = (Returned (Ok models), s') ->
  models <> [] /\ NoDup models.
Proof.
  unfold session_model_candidates. destruct (ProviderConfig_model_selection_requires_fetch provider);
    [|apply resolve_request_models_ok].
  generalize (None : option string) as last. revert s. induction auth_profiles as [|p ps IH]; intros s last; [done|].
  simpl. intros (r & s1 & Hr & E)%bind_returned. destruct r as [ms|error].
  - injection E as <- _. by apply resolve_request_models_ok in Hr.
  - apply bind_returned in E as (u & s2 & _ & E). by apply IH in E.
Qed.
End session.

(** The policies a configuration resolves to are within the bounds the stores rely on. *)
Lemma profile_policy_bounds {H : DefaultHasher} provider endpoint headers policy :
  (0 <= pc_profile_cooldown_ms provider)%Z ->
  build_provider_profile_state_policy provider endpoint headers = Some policy ->
  (0 <= sp_cooldown policy <= DURATION_MAX)%Z /\ (sp_cooldown policy <= sp_max_cooldown policy)%Z /\
  (1 <= sp_max_entries policy <= 1024)%Z.
Proof.
  intros Hc [= <-]. simpl. unfold ProviderConfig_resolved_profile_cooldown_max_ms,
    ProviderConfig_resolved_profile_cooldown_ms, clamp_non_negative_u64, clamp_u64_with_floor,
    ProviderConfig_resolved_profile_state_max_entries, clamp_usize_at_least_one, Duration_from_millis, DURATION_MAX,
    u64_max, u64_modulus, NANOS_PER_MILLI, NANOS_PER_SEC.
  pose proof (clamp_bounds (pc_profile_state_max_entries provider) 1 1024 ltac:(lia)).
  set (b := if (pc_profile_cooldown_ms provider =? 0)%Z then 0%Z else Z.min (pc_profile_cooldown_ms provider) 3600000).
  assert (0 <= b <= 3600000)%Z by (subst b; destruct (Z.eqb_spec (pc_profile_cooldown_ms provider) 0); lia).
  pose proof (clamp_bounds (pc_profile_cooldown_max_ms provider) b 86400000 ltac:(lia)). lia.
Qed.
