(* ===== verification/PluginWitnesses.v ===== *)
(** * Plugins at concrete inputs

    A small file tree with a package, a source it shadows and a free source;
    the scan, its absorption, its plan and its bootstrap. *)

From stdpp Require Import countable.
From S2P Require Import Prelude RustStr RustPath Contracts Integration Plugin PluginAbsorb PluginIr Bootstrap.
From S2P Require Import PluginPlan PluginScan Fixtures.

#[local] Existing Instance sample_json.

(** ** Readers and writers *)

#[local] Instance slot_claim_countable : Countable PluginSlotClaim.
Proof.
  apply (inj_countable'
    (fun c => (sc_slot c, sc_key c, PluginSlotMode_rank (sc_mode c)))
    (fun '(s, k, r) => Build_PluginSlotClaim s k
       (match r with 0%N => SlotExclusive | 1%N => SlotShared | _ => SlotAdvisory end))).
  by intros [s k []].
Defined.

#[local] Instance sample_slots : SlotCodec := {|
  slot_claims_serialize := fun l => Ok (positive_digits (encode l));
  slot_claims_deserialize := fun s => ok_or (digits_positive s ≫= decode) "not claims";
|}.

#[local] Instance sample_slots_laws : SlotCodecLaws.
Proof.
  split; unfold to_json, from_json; simpl; [eauto|]. intros x s [= <-].
  by rewrite digits_round_trip; simpl; rewrite decode_encode.
Qed.

#[local] Instance sample_versions : SemverReq := {|
  Version := string; VersionReq := string;
  Version_parse := fun s => if decide (s = "") then Err "empty version" else Ok s;
  Version_to_string := fun s => s;
  VersionReq_parse := fun s => Ok s;
  VersionReq_matches := fun req v => starts_with req v;
|}.

#[local] Instance no_strings : Deserialize (list string) := fun _ => Err "not a list".

Definition claim (slot key : string) (mode : PluginSlotMode) : PluginSlotClaim :=
  {| sc_slot := slot; sc_key := key; sc_mode := mode |}.

Definition plugin_manifest (id : string) (claims : list PluginSlotClaim) : PluginManifest := {|
  pm_api_version := Some "v1alpha1"; pm_version := Some "1.0.0"; pm_plugin_id := id; pm_provider_id := id;
  pm_connector_name := id; pm_channel_id := Some (id +:+ "-channel");
  pm_endpoint := Some "https://example.test/"; pm_capabilities := {[MemoryRead]};
  pm_trust_tier := TrustUnverified; pm_metadata := ∅; pm_summary := None; pm_tags := [];
  pm_input_examples := []; pm_output_examples := []; pm_defer_loading := false; pm_setup := None;
  pm_slot_claims := claims; pm_compatibility := Some (Build_PluginCompatibility (Some "loong-plugin/v1") (Some "0.1")) |}.

Definition memory_manifest : PluginManifest :=
  plugin_manifest "memory" [claim "memory" "default" SlotExclusive].
Definition search_manifest : PluginManifest :=
  plugin_manifest "search" [claim "search" "web" SlotShared].

Definition memory_document : PackageManifestDocument := {|
  mdoc_api_version := Some " v1alpha1 "; mdoc_version := Some "1.0.0"; mdoc_plugin_id := "memory";
  mdoc_provider_id := "memory"; mdoc_connector_name := "memory"; mdoc_channel_id := Some "memory-channel";
  mdoc_endpoint := Some "https://example.test/"; mdoc_capabilities := {[MemoryRead]}; mdoc_metadata := ∅;
  mdoc_trust_tier := TrustUnverified; mdoc_summary := None; mdoc_tags := []; mdoc_input_examples := [];
  mdoc_output_examples := []; mdoc_defer_loading := false; mdoc_setup := None;
  mdoc_slot_claims := [claim " memory" "default " SlotExclusive];
  mdoc_compatibility := Some (Build_PluginCompatibility (Some "loong-plugin/v1") (Some "0.1")) |}.

#[local] Instance sample_value_eq_dec : EqDecision (@Value sample_json).
Proof.
  change (forall a b : sample_value, Decision (a = b)). fix IH 1. intros [s|l] [s'|l'].

  - destruct (decide (s = s')); [left|right]; congruence.
  - by right.
  - by right.
  - assert ({l = l'} + {l <> l'}) as [->|Hn].
    { revert l'. induction l as [|[k v] l IHl]; intros [|[k' v'] l']; [by left|by right|by right|].
      destruct (decide (k = k')); [|right; congruence]. destruct (IH v v'); [|right; congruence].
      destruct (IHl l'); [left|right]; congruence. }
    + by left.
    + right. congruence.
Defined.

#[local] Instance sample_manifests : ManifestCodec := {|
  value_empty_object := SampleObject [] : @Value sample_json;
  value_is_object := (fun v => match v with SampleObject _ => true | _ => false end) : @Value sample_json -> bool;
  value_get := fun _ _ => None;
  value_as_str := fun _ => None;
  package_document_de := fun s => if decide (s = "package") then Ok memory_document else Err "not a package";
  manifest_de := fun s => if decide (s = "memory") then Ok memory_manifest
                          else if decide (s = "search") then Ok search_manifest else Err "not a manifest";
  openclaw_de := fun _ => Err "none";
  openclaw_package_de := fun _ => Err "none";
  string_ser := fun s => Ok s;
  option_string_ser := fun o => Ok (default "null" o);
  bool_ser := fun b : bool => Ok (if b then "true" else "false");
  capabilities_ser := fun _ => Ok "capabilities";
  strings_ser := fun l => Ok (join "," l);
  values_ser := fun _ => Ok "values";
  setup_ser := fun _ => Ok "setup";
  claims_ser := fun _ => Ok "claims";
  compatibility_ser := fun _ => Ok "compatibility";
  env_vars_ser := fun _ => Ok "env";
  value_map_ser := fun _ => Ok "map";
|}.

(** ** A file tree *)

#[local] Instance sample_text : UnicodeText := {|
  to_lowercase := to_ascii_lowercase; from_utf8_error := fun _ => "invalid utf-8" |}.

Definition sample_files : list (string * string) :=
  [("/w/p/loong.plugin.json", " package ");
   ("/w/p/src/memory.py", "# LOONG_PLUGIN_START" +:+ line_feed +:+ "# memory" +:+ line_feed +:+ "# LOONG_PLUGIN_END");
   ("/w/q/search.py", "LOONG_PLUGIN_START search LOONG_PLUGIN_END")].

Definition sample_dirs : list (string * list string) :=
  [("/w", ["/w/q"; "/w/p"; "/w/.git"]); ("/w/p", ["/w/p/src"; "/w/p/loong.plugin.json"]);
   ("/w/p/src", ["/w/p/src/memory.py"]); ("/w/q", ["/w/q/search.py"]); ("/w/.git", ["/w/.git"])].

Definition lookup_assoc {A} (key : string) (l : list (string * A)) : option A :=
  snd <$> find_first (fun kv => bool_decide (kv.1 = key)) l.

#[local] Instance sample_fs : FileSystem := {|
  fs_exists := fun p => is_some (lookup_assoc p sample_files) || is_some (lookup_assoc p sample_dirs);
  fs_is_file := fun p => is_some (lookup_assoc p sample_files);
  fs_is_dir := fun p => is_some (lookup_assoc p sample_dirs);
  fs_metadata_is_file := fun p =>
    if is_some (lookup_assoc p sample_files) then Ok true
    else if is_some (lookup_assoc p sample_dirs) then Ok false else Err "not found";
  fs_read_dir := fun p =>
    match lookup_assoc p sample_dirs with Some l => Ok (map Ok l) | None => Err "not found" end;
  fs_read := fun p =>
    match lookup_assoc p sample_files with Some c => Ok c | None => Err "not found" end;
|}.

(** The skipped [.git] contains itself; the walk never enters it. *)
Definition sample_depth (path : string) : nat := 5 - length (path_components path).

Definition sample_report : PluginScanReport :=
  match scan_path 5 "/w" with Some (Ok r) => r | _ => PluginScanReport_default end.

Example sample_scan : scan_path 5 "/w" = Some (Ok sample_report).
Proof. vm_compute. reflexivity. Qed.

(** The package and the free source are reported, the shadowed source is not. *)
Example sample_scan_plugins :
  map pd_path (sr_descriptors sample_report) = ["/w/p/loong.plugin.json"; "/w/q/search.py"] /\
  map df_code (sr_diagnostic_findings sample_report) =
    [EmbeddedSourceLegacyContract; LegacyMetadataVersion; EmbeddedSourceLegacyContract; LegacyMetadataVersion;
     ShadowedEmbeddedSource].
Proof. split; vm_compute; reflexivity. Qed.

Lemma scan_terminates_witness :
  exists r, forall fuel, sample_depth "/w" < fuel -> scan_path fuel "/w" = Some r.
Proof.
  apply (scan_terminates sample_depth). intros path entries child. simpl.
  unfold sample_dirs, lookup_assoc. simpl.
  repeat (case_bool_decide; [intros [= <-] Hin Hdir Hskip; simpl in Hin; subst path;
    repeat (apply elem_of_cons in Hin as [[= ->]|Hin]; [first [discriminate Hdir|discriminate Hskip|vm_compute; lia]|]);
    by apply elem_of_nil in Hin|]). done.
Defined.

Lemma scanned_manifests_valid_witness : Forall descriptor_valid (sr_descriptors sample_report).
Proof. apply (scanned_manifests_valid 5 "/w"). exact sample_scan. Defined.

Lemma scan_report_exact_witness :
  sr_scanned_files sample_report = 3%Z /\ sr_matched_plugins sample_report = saturated 2.
Proof.
  destruct (scan_report_exact ["/w/p/loong.plugin.json"; "/w/p/src/memory.py"; "/w/q/search.py"] sample_report)
    as (packages & collection & _ & _ & _ & Hs & Hm & _); [vm_compute; reflexivity|].
  split; [exact Hs|rewrite Hm; reflexivity].
Defined.

(** ** Absorption *)

Definition empty_pack : VerticalPackManifest := sample_pack.

Lemma absorbed_metadata_host_owned_witness :
  exists md, absorbed_metadata (build_plugin_descriptor "/w/q/search.py" EmbeddedSource LoongEmbeddedSource None
      CompatNative None None search_manifest) = Ok md /\
    md !! PLUGIN_DIALECT_METADATA_KEY = Some "loong_embedded_source".
Proof.
  destruct (absorbed_metadata_host_owned (build_plugin_descriptor "/w/q/search.py" EmbeddedSource
    LoongEmbeddedSource None CompatNative None None search_manifest)) as (md & enc & Hmd & Hkey & _).
  exists md. split; [exact Hmd|]. rewrite Hkey. reflexivity.
Defined.

Lemma slots_exclusive_empty owner : slots_exclusive owner IntegrationCatalog_new.
Proof. intros id1 id2 p1 p2 c1 c2 H. simpl in H. by rewrite lookup_empty in H. Qed.

Lemma absorb_slots_exclusive_witness :
  exists r c' pack', PluginScanner_absorb sample_report (IntegrationCatalog_new, empty_pack) = (Ok r, (c', pack')) /\
    slots_exclusive (provider_owner (sr_descriptors sample_report) IntegrationCatalog_new) c'.
Proof.
  destruct (PluginScanner_absorb sample_report (IntegrationCatalog_new, empty_pack)) as [[r|e] [c' pack']] eqn:E.
  - exists r, c', pack'. split; [reflexivity|].
    apply (absorb_slots_exclusive sample_report IntegrationCatalog_new empty_pack r c' pack');
      [apply slots_exclusive_empty|exact E].
  - exfalso. vm_compute in E. discriminate E.
Defined.

(** A second plugin that wants the memory slot is refused, and nothing of the
    scan remains. *)
Definition rival_report : PluginScanReport := {|
  sr_scanned_files := 2; sr_matched_plugins := 2; sr_diagnostic_findings := [];
  sr_descriptors :=
    map (build_plugin_descriptor "/x" EmbeddedSource LoongEmbeddedSource None CompatNative None None)
      [memory_manifest; plugin_manifest "rival" [claim "memory" "default" SlotShared]] |}.

Example rival_refused :
  PluginScanner_absorb rival_report (IntegrationCatalog_new, empty_pack) =
  (Err (PluginAbsorbFailed "rival"
     "slot claim conflict on `memory`:`default` with plugin `memory` (provider `memory`): `shared` cannot coexist with `exclusive`"),
   (IntegrationCatalog_new, empty_pack)).
Proof. vm_compute. reflexivity. Qed.

(** ** Activation and bootstrap *)

Definition no_setup : PluginSetupReadinessContext :=
  {| rc_verified_env_vars := ∅; rc_verified_config_keys := ∅ |}.

Definition allow_stdio : BootstrapPolicy := {|
  bp_allow_http_json_auto_apply := true; bp_allow_process_stdio_auto_apply := true;
  bp_allow_native_ffi_auto_apply := false; bp_allow_wasm_component_auto_apply := false;
  bp_allow_mcp_server_auto_apply := false; bp_allow_acp_bridge_auto_apply := false;
  bp_allow_acp_runtime_auto_apply := false; bp_block_unverified_high_risk_auto_apply := false;
  bp_enforce_ready_execution := true; bp_max_tasks := 1 |}.

Definition sample_translation : PluginTranslationReport := translate_scan_report sample_report.

Definition sample_activation : PluginActivationPlan :=
  plan_activation_with_catalog sample_translation BridgeSupportMatrix_default no_setup (Some IntegrationCatalog_new).

Example sample_activation_statuses : map pa_status (ap_candidates sample_activation) = [ActivationReady; ActivationReady].
Proof. vm_compute. reflexivity. Qed.

(** The memory plugin speaks HTTP, the search plugin is a script; the limit of
    one task leaves the second. *)
Example sample_bootstrap :
  map bt_status (br_tasks (PluginBootstrapExecutor_execute sample_activation allow_stdio)) =
  [Applied; SkippedByPolicyLimit].
Proof. vm_compute. reflexivity. Qed.

Lemma sample_canonical : scan_canonical sample_report.
Proof.
  eapply Forall_impl; [eapply scan_files_valid|by intros d []].
  instantiate (1 := ["/w/p/loong.plugin.json"; "/w/p/src/memory.py"; "/w/q/search.py"]).
  vm_compute. reflexivity.
Qed.

Lemma activation_plan_exact_witness :
  Forall2 (fun e c => pa_plugin_id c = ir_plugin_id e) (tr_entries sample_translation)
    (ap_candidates sample_activation).
Proof.
  eapply Forall2_impl; [apply (activation_plan_exact sample_translation BridgeSupportMatrix_default no_setup
    (Some IntegrationCatalog_new)); apply translate_sorted, sample_canonical|].
  intros e c (_ & H & _). exact H.
Defined.

Lemma activation_plan_counts_witness :
  ap_total_plugins sample_activation = 2%Z /\ ap_ready_plugins sample_activation = 2%Z.
Proof.
  destruct (activation_plan_counts sample_translation BridgeSupportMatrix_default no_setup
    (Some IntegrationCatalog_new)) as (Ht & _ & Hr & _); [vm_compute; discriminate|].
  split; [exact Ht|exact Hr].
Defined.

Lemma bootstrap_report_exact_witness :
  br_total_tasks (PluginBootstrapExecutor_execute sample_activation allow_stdio) = saturated 2.
Proof.
  destruct (bootstrap_report_exact sample_activation allow_stdio) as (_ & _ & Ht & _); [vm_compute; split; discriminate|].
  exact Ht.
Defined.

Lemma applied_plugins_safe_witness :
  exists task d, br_tasks (PluginBootstrapExecutor_execute sample_activation allow_stdio) !! 0 = Some task /\
    sr_descriptors sample_report !! 0 = Some d /\
    activatable BridgeSupportMatrix_default no_setup (translate_descriptor d).
Proof.
  destruct (br_tasks (PluginBootstrapExecutor_execute sample_activation allow_stdio) !! 0) as [task|] eqn:Ht.
  - destruct (applied_plugins_safe sample_report BridgeSupportMatrix_default no_setup (Some IntegrationCatalog_new)
      allow_stdio sample_canonical) with (i := 0) (task := task) as (d & Hd & _ & Ha & _).
    + vm_compute. split; discriminate.
    + exact Ht.
    + vm_compute in Ht. by injection Ht as <-.
    + exists task, d. split; [reflexivity|]. split; [exact Hd|exact Ha].
  - exfalso. vm_compute in Ht. discriminate Ht.
Defined.
