(* ===== verification/ToolWitnesses.v ===== *)
(** * Plans, safe lane and tools at concrete inputs

    A turn of two tools that is replanned once; a file system of a few files
    under one root, and a disk with a link out of it; a bash whose processes are logged; a kernel with the two
    tool policies registered. *)

From S2P Require Import Prelude RustStr Contracts Json Policy Planes AuditSinks Kernel KernelGate.
From S2P Require Import KernelRuns RustPath Plan PlanValid PlanRun Verifier SafeLane SafeLaneRun.
From S2P Require Import SafeLaneText FileDiff FileEdit FileTool FileToolFacts Bash BashFacts.
From S2P Require Import ToolPolicy ToolPolicyFacts.

(** ** The safe lane *)

Definition lane_config : SafeLaneConfig := {|
  sl_node_max_attempts := 1; sl_replan_max_rounds := 2; sl_replan_max_node_attempts := 2;
  sl_plan_max_wall_time_ms := 1000; sl_risk_threshold := 4; sl_complexity_threshold := 6;
  sl_verify_output_non_empty := true; sl_verify_min_output_chars := 4;
  sl_verify_require_status_prefix := true; sl_verify_deny_markers := ["tool_failure"];
  sl_verify_adaptive_anchor_escalation := false; sl_verify_anchor_escalation_after_failures := 2;
  sl_verify_anchor_escalation_min_matches := 1; sl_backpressure_guard_enabled := false;
  sl_backpressure_max_total_attempts := 32; sl_backpressure_max_replans := 8 |}.

Definition lane_scores : LaneScores := {|
  lsc_risk_score := 5; lsc_complexity_score := 1; lsc_reasons := [] |}.

Definition lane_governor : SafeLaneSessionGovernorDecision := {|
  sg_force_no_replan := false; sg_forced_node_max_attempts := None |}.

Definition lane_intent (name : string) : ToolIntent := {|
  ti_tool_name := name; ti_args_json := JObject []; ti_source := "assistant";
  ti_session_id := "s"; ti_turn_id := "t"; ti_tool_call_id := name |}.

Definition lane_intents : list ToolIntent := [lane_intent "file.read"; lane_intent "shell.exec"].

(** The second tool fails once: the world counts the calls. *)
Definition flaky_turn (intent : ToolIntent) : M nat (option (TurnResult unit)) := fun n =>
  (Returned (Some (if decide (n = 1)
                   then ToolError (TurnFailure_retryable "tool_busy" "try again")
                   else FinalText ("[ok] " +:+ ti_tool_name intent))), S n).

Definition lane_run (fuel : nat) :=
  execute_turn_with_safe_lane_plan (fun _ : unit => "approve?") ti_tool_name (fun _ => false)
    flaky_turn (ret 0%Z) (fun _ => ret tt) fuel lane_config lane_governor lane_scores lane_intents 0.

Definition lane_text (fuel : nat) : option string :=
  match (lane_run fuel).1 with
  | Returned (Some outcome) =>
      match to_result outcome with FinalText text => Some text | _ => None end
  | _ => None
  end.

(** Three calls: the first tool once, the second again after the replan. *)
Example lane_run_replans :
  lane_text 3 = Some (join line_feed ["[ok] file.read"; "[ok] shell.exec"]) /\ (lane_run 3).2 = 3.
Proof. by vm_compute. Qed.

Lemma safe_lane_terminates_witness :
  (lane_run 3).1 <> Returned None /\ lane_run 3 = lane_run 4.
Proof.
  destruct (safe_lane_terminates (fun _ : unit => "approve?") ti_tool_name (fun _ => false)
    flaky_turn (ret 0%Z) (fun _ => ret tt) lane_config lane_scores lane_intents lane_governor 0)
    as (r & w' & Hr & H); [simpl; lia|].
  unfold lane_run. rewrite (H 3), (H 4) by (simpl; lia). done.
Defined.

Lemma safe_lane_final_text_witness :
  exists outputs, join line_feed ["[ok] file.read"; "[ok] shell.exec"] = join line_feed outputs /\
    length outputs = 2.
Proof.
  destruct (lane_run 3) as [[[outcome|]|p] w'] eqn:E; [|vm_compute in E; discriminate..].
  destruct (safe_lane_final_text (fun _ : unit => "approve?") ti_tool_name (fun _ => false)
    flaky_turn (ret 0%Z) (fun _ => ret tt) lane_config lane_scores lane_intents ltac:(vm_compute; discriminate)
    3 lane_governor 0 outcome w' (join line_feed ["[ok] file.read"; "[ok] shell.exec"]) E)
    as (outputs & n & Ht & Ho & _).
  - vm_compute in E. injection E as <- <-. reflexivity.
  - exists outputs. split; [exact Ht|]. by apply Forall2_length in Ho.
Defined.

(** ** A file system

    Files are texts by path; the only directory is the root. *)

Abbreviation Files := (gmap string string).

Definition look {A} (f : Files -> A) : M Files A := fun w => (Returned (f w), w).
Definition change (f : Files -> Files) : M Files (result unit string) := fun w => (Returned (Ok tt), f w).

Definition known (p : string) (w : Files) : bool := bool_decide (p = "/srv" \/ is_Some (w !! p)).

Definition sample_fs : FileSystem Files := {|
  fs_current_dir := ret (Ok "/srv");
  fs_exists p := look (known p);
  fs_is_dir p := ret (bool_decide (p = "/srv"));
  fs_is_symlink _ := ret false;
  fs_canonicalize p := ret (if decide (p ∈ ["/srv"; "/srv/notes.txt"]) then Ok p else Err "not found");
  fs_read_link _ := ret (Err "not a link");
  fs_read p := look (fun w => ok_or (w !! p) "not found");
  fs_read_to_string p := look (fun w => ok_or (w !! p) "not found");
  fs_create_new p := fun w =>
    if known p w then (Returned (Err (true, "exists")), w) else (Returned (Ok tt), <[p:=""]> w);
  fs_write_all p c := change (insert p c);
  fs_sync_all _ := ret (Ok tt);
  fs_new_temp_in dir := fun w => (Returned (Ok (dir +:+ "/.tmp")), <[dir +:+ "/.tmp":=""]> w);
  fs_drop_temp p := fun w => (Returned tt, delete p w);
  fs_persist temp p := change (fun w => delete temp (<[p:=default "" (w !! temp)]> w));
  fs_create_dir_all _ := ret (Ok tt);
  fs_write p c := change (insert p c);
|}.

Definition two_files : Files := {[ "/srv/notes.txt" := "old"; "/etc/passwd" := "root" ]}.

(** ** A disk with a link out of the root

    Directories and files by their location; [/], [/srv] and [/etc] are always there,
    and [/srv/out] is a link to [/etc].  A location is there if all the directories
    above it are. *)

Record Disk : Type := { dk_dirs : gset (list string); dk_files : gmap (list string) string }.

Definition set_file (q : list string) (c : string) (w : Disk) : Disk :=
  {| dk_dirs := dk_dirs w; dk_files := <[q := c]> (dk_files w) |}.
Definition drop_file (q : list string) (w : Disk) : Disk :=
  {| dk_dirs := dk_dirs w; dk_files := delete q (dk_files w) |}.

Definition names_of (path : string) : option (list string) :=
  match path_components path with
  | RootDir :: cs => mapM (fun c => match c with Normal s => Some s | _ => None end) cs
  | _ => None
  end.
Definition path_of (names : list string) : string := foldl path_join "/" names.

Definition follow (names : list string) : list string :=
  if decide (take 2 names = ["srv"; "out"]) then "etc" :: drop 2 names else names.

Definition directory (w : Disk) (q : list string) : bool :=
  bool_decide (q = [] \/ q = ["srv"] \/ q = ["etc"]) || bool_decide (q ∈ dk_dirs w).
Definition dirs_above (w : Disk) (q : list string) : bool :=
  forallb (fun k => directory w (take k q)) (seq 0 (length q)).
Definition present (w : Disk) (q : list string) : bool :=
  dirs_above w q && (directory w q || bool_decide (is_Some (dk_files w !! q))).

Definition leads_to (w : Disk) (p : string) : option string :=
  names ← names_of p; if present w (follow names) then Some (path_of (follow names)) else None.

Definition ask {A} (f : Disk -> A) : M Disk A := fun w => (Returned (f w), w).
(** An operation at the location a path leads to. *)
Definition at_path {A E} (e : E) (p : string) (f : list string -> M Disk (result A E)) : M Disk (result A E) :=
  match names_of p with Some names => f (follow names) | None => ret (Err e) end.

Definition text_at (p : string) : M Disk (result string string) :=
  at_path "not found" p (fun q => ask (fun w => if present w q then ok_or (dk_files w !! q) "not a file" else Err "not found")).

Definition make_dirs (q : list string) (w : Disk) : Disk := {|
  dk_dirs := filter (fun k => present w k = true) (dk_dirs w) ∪ list_to_set ((fun k => take k q) <$> seq 0 (S (length q)));
  dk_files := filter (fun kv => present w kv.1 = true) (dk_files w) |}.

Definition linked_fs : FileSystem Disk := {|
  fs_current_dir := ret (Ok "/srv");
  fs_exists p := ask (fun w => bool_decide (is_Some (leads_to w p)));
  fs_is_dir p := ask (fun w => match names_of p with
                               | Some n => present w (follow n) && directory w (follow n)
                               | None => false end);
  fs_is_symlink p := ret (bool_decide (names_of p = Some ["srv"; "out"]));
  fs_canonicalize p := ask (fun w => ok_or (leads_to w p) "not found");
  fs_read_link _ := ret (Err "not a link");
  fs_read := text_at;
  fs_read_to_string := text_at;
  fs_create_new p := at_path (false, "bad path") p (fun q w =>
    if present w q then (Returned (Err (true, "exists")), w) else
    if dirs_above w q then (Returned (Ok tt), set_file q "" w) else (Returned (Err (false, "no directory")), w));
  (** An open file is written without a look at the path. *)
  fs_write_all p c := fun w =>
    match names_of p with
    | Some q => if bool_decide (is_Some (dk_files w !! q)) then (Returned (Ok tt), set_file q c w)
                else (Returned (Err "closed"), w)
    | None => (Returned (Err "closed"), w)
    end;
  fs_sync_all _ := ret (Ok tt);
  fs_new_temp_in d := at_path "bad path" d (fun q w =>
    if present w q && directory w q
    then (Returned (Ok (path_of (q ++ [".tmp"]))), set_file (q ++ [".tmp"]) "" w)
    else (Returned (Err "no directory"), w));
  fs_drop_temp p := fun w => (Returned tt, match names_of p with Some q => drop_file q w | None => w end);
  fs_persist temp p := at_path "bad path" p (fun q w =>
    match names_of temp with
    | Some t => (Returned (Ok tt), set_file q (default "" (dk_files w !! t)) (drop_file t w))
    | None => (Returned (Err "closed"), w)
    end);
  fs_create_dir_all d := at_path "bad path" d (fun q w =>
    if present w q then (Returned (if directory w q then Ok tt else Err "not a directory"), w)
    else (Returned (Ok tt), make_dirs q w));
  fs_write p c := at_path "bad path" p (fun q w => (Returned (Ok tt), set_file q c w));
|}.

Lemma names_of_path names : Forall plain_segment names -> names_of (path_of names) = Some names.
Proof.
  intros Hn. unfold names_of, path_of. destruct (components_join_all "/" names eq_refl Hn) as [_ ->]. simpl.
  clear. induction names as [|n names IH]; [done|]. simpl. by rewrite IH.
Qed.

Lemma path_of_plain names : Forall plain_segment names -> plain_path (path_of names).
Proof. intros Hn. apply plain_join_all; [|done]. split; [done|]. by exists []. Qed.

Lemma names_of_spec p names :
  names_of p = Some names <-> has_root p = true /\ path_components p = RootDir :: map Normal names.
Proof.
  assert (forall cs, mapM (fun c => match c with Normal s => Some s | _ => None end) cs = Some names <->
    cs = map Normal names) as Hm.
  { intros cs. rewrite mapM_Some. revert names. induction cs as [|c cs IH]; intros [|n names]; simpl.
    - by split; [|constructor].
    - by split; intros H; inversion H.
    - by split; intros H; inversion H.
    - rewrite Forall2_cons, IH. destruct c; naive_solver. }
  unfold names_of. split.
  - destruct (path_components p) as [|[] cs] eqn:E; try done. intros ->%Hm.
    split; [|done]. apply root_component. rewrite E. by left.
  - intros [_ ->]. by apply Hm.
Qed.

Lemma names_of_plain p names : names_of p = Some names -> Forall plain_segment names.
Proof.
  intros [_ Hc]%names_of_spec. apply Forall_forall. intros n Hn.
  destruct (components_body p (Normal n)) as [?|(m & [= <-] & ?)]; try done.
  rewrite Hc. right. by apply list_elem_of_fmap_2.
Qed.

Lemma names_of_join p n names : plain_segment n -> names_of p = Some names -> names_of (path_join p n) = Some (names ++ [n]).
Proof.
  intros Hn [Hr Hc]%names_of_spec. destruct (components_join p n Hr Hn) as [Hr' Hc'].
  apply names_of_spec. split; [done|]. by rewrite Hc', Hc, map_app.
Qed.

Lemma names_of_join_inv p n names' :
  has_root p = true -> plain_segment n -> names_of (path_join p n) = Some names' ->
  exists names, names_of p = Some names /\ names' = names ++ [n].
Proof.
  intros Hr Hn [_ Hc]%names_of_spec. destruct (components_join p n Hr Hn) as [_ Hc']. rewrite Hc' in Hc.
  destruct names' as [|m names _] using rev_ind; [rewrite components_rooted in Hc by done; by destruct (omap _ _)|].
  rewrite map_app, app_comm_cons in Hc. apply app_inj_tail in Hc as [Hc [= <-]].
  exists names. split; [|done]. by apply names_of_spec.
Qed.

Lemma follow_plain names : Forall plain_segment names -> Forall plain_segment (follow names).
Proof. intros Hn. unfold follow. case_decide; [constructor; [by vm_compute|by apply Forall_drop]|done]. Qed.

Lemma follow_follow names : follow (follow names) = follow names.
Proof. unfold follow. repeat case_decide; try done. Qed.

(** A name more: the link itself apart, it is followed like what is above it. *)
Lemma follow_snoc names n : follow (names ++ [n]) = follow names ++ [n] \/ names = ["srv"] /\ n = "out".
Proof.
  destruct names as [|x [|y names]]; [left; unfold follow; simpl; by case_decide| |left].
  - unfold follow. simpl. repeat (case_decide; simplify_eq/=); auto.
  - unfold follow. simpl. by repeat (case_decide; simplify_eq/=).
Qed.

Lemma follow_below names n : follow (follow names ++ [n]) = follow (names ++ [n]).
Proof.
  unfold follow at 2. case_decide as H; [|done]. destruct names as [|x [|y names]]; simplify_eq/=.
  unfold follow. simpl. by repeat (case_decide; simplify_eq/=).
Qed.

Lemma present_snoc w q n : present w (q ++ [n]) = true -> present w q = true /\ directory w q = true.
Proof.
  unfold present, dirs_above. rewrite !andb_true_iff, length_app. simpl. rewrite Nat.add_1_r, seq_S, forallb_app.
  rewrite andb_true_iff. simpl. rewrite take_app_length. intros [[Ha Hq] _]. apply andb_true_iff in Hq as [Hq _].
  rewrite Hq. split_and!; [|done|done]. rewrite forallb_forall in Ha |- *. intros k Hk.
  rewrite <- (Ha k Hk). f_equal. symmetry. apply take_app_le. apply in_seq in Hk. lia.
Qed.

Lemma present_fixed w q : q = [] \/ q = ["srv"] \/ q = ["etc"] -> present w q = true.
Proof. by intros [->|[->| ->]]. Qed.

Lemma leads_to_spec w p q :
  leads_to w p = Some q <->
  exists names, names_of p = Some names /\ present w (follow names) = true /\ q = path_of (follow names).
Proof.
  unfold leads_to. destruct (names_of p) as [names|]; simpl; [|naive_solver].
  destruct (present w (follow names)) eqn:E; split.
  - intros [= <-]. by exists names.
  - by intros (? & [= <-] & _ & ->).
  - done.
  - intros (? & [= <-] & ? & _). congruence.
Qed.

Lemma leads_to_some w p names :
  names_of p = Some names -> present w (follow names) = true -> leads_to w p = Some (path_of (follow names)).
Proof. intros. apply leads_to_spec. by exists names. Qed.

(** A path that leads to itself is not behind the link. *)
Lemma leads_to_self w a :
  leads_to w a = Some a -> exists names, names_of a = Some names /\ follow names = names /\ a = path_of names /\
    Forall plain_segment names /\ present w names = true.
Proof.
  intros (names & Hn & Hp & Ha)%leads_to_spec. pose proof (names_of_plain a names Hn) as Hplain.
  exists (follow names). split_and!; [|apply follow_follow|done|by apply follow_plain|done].
  rewrite Ha. by apply names_of_path, follow_plain.
Qed.

(** A missing entry of such a directory is not the link. *)
Lemma missing_entry w a n names :
  leads_to w a = Some a -> names_of a = Some names -> plain_segment n -> leads_to w (path_join a n) = None ->
  follow (names ++ [n]) = names ++ [n] /\ present w (names ++ [n]) = false.
Proof.
  intros (names' & Hn & Hf & _ & _ & _)%leads_to_self Hn' Hpl Hm. rewrite Hn in Hn'. injection Hn' as ->.
  pose proof (names_of_join a n names Hpl Hn) as Hj.
  assert (present w (follow (names ++ [n])) = false) as Hno.
  { destruct (present w (follow (names ++ [n]))) eqn:E; [|done]. by rewrite (leads_to_some w _ _ Hj E) in Hm. }
  destruct (follow_snoc names n) as [Hs|[-> ->]]; [|done]. rewrite Hs, Hf in *. done.
Qed.

(** Nothing below a missing entry is behind the link. *)
Lemma missing_follow w a n names rest :
  leads_to w a = Some a -> names_of a = Some names -> plain_segment n -> leads_to w (path_join a n) = None ->
  follow (names ++ n :: rest) = names ++ n :: rest /\ present w (names ++ n :: rest) = false.
Proof.
  intros Ha Hn Hpl Hm. destruct (missing_entry w a n names Ha Hn Hpl Hm) as [Hf Hp].
  rewrite (cons_middle n names rest), app_assoc. split.
  - unfold follow in Hf |- *. destruct names as [|x [|y names]]; simpl in *; repeat case_decide; simplify_eq/=; try done.
  - clear Hf Hm Ha Hn. induction rest as [|z rest IH] using rev_ind; [rewrite app_nil_r; exact Hp|].
    rewrite app_assoc. apply not_true_iff_false. intros [E _]%present_snoc. congruence.
Qed.

Lemma make_dirs_directory q w k : k <= length q -> directory (make_dirs q w) (take k q) = true.
Proof.
  intros Hk. unfold directory. apply orb_true_iff. right. apply bool_decide_eq_true. cbn [make_dirs dk_dirs].
  apply elem_of_union. right. apply elem_of_list_to_set, list_elem_of_fmap. exists k. split; [done|].
  apply elem_of_seq. lia.
Qed.

Lemma make_dirs_present q w : present (make_dirs q w) q = true.
Proof.
  unfold present, dirs_above. apply andb_true_iff. split.
  - apply forallb_forall. intros k Hk%in_seq. apply make_dirs_directory. lia.
  - rewrite <- (firstn_all q) at 2. by rewrite make_dirs_directory.
Qed.

Lemma make_dirs_empty q w m : q <> [] -> present w q = false -> present (make_dirs q w) (q ++ [m]) = false.
Proof.
  intros Hq Hp. destruct (present (make_dirs q w) (q ++ [m])) eqn:E; [|done]. exfalso.
  assert (present w (q ++ [m]) = false) as Hno.
  { destruct (present w (q ++ [m])) eqn:E'; [|done]. apply present_snoc in E' as [E' _]. congruence. }
  unfold present in E. apply andb_true_iff in E as [_ E]. apply orb_true_iff in E as [E|E].
  - unfold directory in E. apply orb_true_iff in E as [E|E]; apply bool_decide_eq_true in E.
    + destruct q as [|x q]; [done|]. destruct E as [E|[E|E]]; simplify_eq/=; by destruct q.
    + cbn [make_dirs dk_dirs] in E. apply elem_of_union in E as [[E _]%elem_of_filter|E]; [congruence|].
      apply elem_of_list_to_set, list_elem_of_fmap in E as (k & E & _).
      apply (f_equal length) in E. rewrite length_app, length_take in E. simpl in E. lia.
  - apply bool_decide_eq_true in E as [c [_ E]%map_lookup_filter_Some]. simpl in E. congruence.
Qed.

(** A file more or less is no directory. *)
Lemma present_files w w' q :
  dk_dirs w' = dk_dirs w -> (is_Some (dk_files w !! q) -> is_Some (dk_files w' !! q)) ->
  present w q = true -> present w' q = true.
Proof.
  intros Hd Hf. unfold present, dirs_above, directory. rewrite Hd. rewrite !andb_true_iff, !orb_true_iff.
  rewrite !bool_decide_eq_true. tauto.
Qed.

Lemma same_files w w' :
  dk_dirs w' = dk_dirs w -> (forall q, is_Some (dk_files w' !! q) <-> is_Some (dk_files w !! q)) ->
  forall p, leads_to w' p = leads_to w p.
Proof.
  intros Hd Hf p. unfold leads_to. destruct (names_of p) as [names|]; [|done]. simpl.
  assert (present w' (follow names) = present w (follow names)) as ->; [|done].
  apply eq_true_iff_eq. split; apply present_files; (done || by apply Hf).
Qed.

Lemma at_path_inv {A E} (e : E) p (f : list string -> M Disk (result A E)) w a w' :
  at_path e p f w = (Returned (Ok a), w') -> exists names, names_of p = Some names /\ f (follow names) w = (Returned (Ok a), w').
Proof. unfold at_path. destruct (names_of p) as [names|]; [by exists names|done]. Qed.

Lemma text_at_state p w : (text_at p w).2 = w.
Proof. unfold text_at, at_path. by destruct (names_of p). Qed.

Lemma linked_mkdir_missing d a n names w w' :
  fs_create_dir_all linked_fs d w = (Returned (Ok tt), w') ->
  plain_path a -> Forall plain_segment (n :: names) -> leads_to w a = Some a -> leads_to w (path_join a n) = None ->
  path_components d = path_components (foldl path_join a (n :: names)) ->
  leads_to w' (foldl path_join a (n :: names)) = Some (foldl path_join a (n :: names)) /\
  forall m, plain_segment m -> leads_to w' (path_join (foldl path_join a (n :: names)) m) = None.
Proof.
  intros H Hpa Hn Ha Hm Hc. destruct (leads_to_self w a Ha) as (na & Hna & Hf & Hap & Hplain & _).
  assert (plain_segment n) as Hpn by by apply Forall_inv in Hn.
  destruct (missing_follow w a n na names Ha Hna Hpn Hm) as [Hfq Hpq]. set (q := na ++ n :: names) in *.
  assert (foldl path_join a (n :: names) = path_of q) as Hd.
  { rewrite Hap. unfold path_of, q. by rewrite foldl_app. }
  assert (Forall plain_segment q) as Hq by (by apply Forall_app).
  rewrite Hd in *. apply at_path_inv in H as (nd & Hnd & H).
  assert (nd = q) as ->.
  { assert (names_of d = names_of (path_of q)) as E by (unfold names_of; by rewrite Hc).
    rewrite Hnd, names_of_path in E by done. by injection E. }
  rewrite Hfq, Hpq in H. injection H as <-. split.
  - rewrite (leads_to_some _ _ q), Hfq; [done|by apply names_of_path|]. rewrite Hfq. apply make_dirs_present.
  - intros m Hpm. unfold leads_to. rewrite (names_of_join _ _ q) by (try done; by apply names_of_path). simpl.
    destruct (follow_snoc q m) as [->|[E ->]].
    + rewrite Hfq, make_dirs_empty; [done| |done]. unfold q. by destruct na.
    + rewrite E in Hpq. by rewrite present_fixed in Hpq by auto.
Qed.

Lemma linked_temp d w temp w' :
  fs_new_temp_in linked_fs d w = (Returned (Ok temp), w') ->
  is_Some (leads_to w d) /\ (forall p q, leads_to w p = Some q -> leads_to w' p = Some q) /\
  forall a n, plain_path a -> plain_segment n -> leads_to w a = Some a -> leads_to w (path_join a n) = None ->
    leads_to w' (path_join a n) = None \/ leads_to w' (path_join a n) = Some (path_join a n).
Proof.
  intros (nd & Hnd & H)%at_path_inv. destruct (present w (follow nd) && _) eqn:E; [|done].
  apply andb_true_iff in E as [E _]. injection H as <- <-. split_and!.
  - by rewrite (leads_to_some w d nd).
  - intros p q (names & Hn & Hp & ->)%leads_to_spec. apply leads_to_some; [done|].
    eapply present_files; [..|exact Hp]; [done|]. intros [c Hc]. simpl. apply lookup_insert_is_Some. rewrite Hc.
    destruct (decide (follow nd ++ [".tmp"] = follow names)); [by left|by right].
  - intros a n Ha Hpn Hreal Hm. destruct (leads_to_self w a Hreal) as (na & Hna & Hf & Hap & Hplain & _).
    destruct (missing_entry w a n na Hreal Hna Hpn Hm) as [Hfe _].
    pose proof (names_of_join a n na Hpn Hna) as Hj.
    destruct (leads_to (set_file _ _ w) (path_join a n)) as [q|] eqn:Eq; [right|by left].
    apply leads_to_spec in Eq as (names & Hn & _ & ->). rewrite Hj in Hn. injection Hn as <-. rewrite Hfe.
    rewrite Hap. unfold path_of. by rewrite foldl_app.
Qed.

Lemma linked_view : file_view linked_fs leads_to.
Proof.
  split; try (intros; intros p'; reflexivity).
  - intros p w p'. change (fs_read_to_string linked_fs p w) with (text_at p w). by rewrite text_at_state.
  - intros p c w p'. simpl. destruct (names_of p) as [q|]; [|done]. case_bool_decide as Hs; [|done]. simpl.
    apply same_files; [done|]. intros q'. simpl. rewrite lookup_insert_is_Some'.
    split; [intros [<-|?]; done|by right].
  - by intros p w b w' [= <- _].
  - intros p w q w' [= H _]. destruct (leads_to w p) as [q'|] eqn:E; simplify_eq/=. split; [done|].
    apply leads_to_spec in E as (names & Hn%names_of_plain & _ & ->). by apply path_of_plain, follow_plain.
  - intros p w q (names & Hn & Hp & ->)%leads_to_spec. apply names_of_plain in Hn as Hpl.
    rewrite (leads_to_some w _ (follow names)), follow_follow; [done| |by rewrite follow_follow].
    by apply names_of_path, follow_plain.
  - intros p w t w' (names & Hn & H)%at_path_inv. unfold ask in H.
    destruct (present w (follow names)) eqn:E; [|done]. by rewrite (leads_to_some w p names).
  - intros p p' w Hc. unfold leads_to, names_of. by rewrite Hc.
  - intros p n w q Hpn (names & Hn & Hp & ->)%leads_to_spec. apply names_of_plain in Hn as Hpl.
    unfold leads_to. rewrite (names_of_join p n names), (names_of_join _ n (follow names)); try done;
      [|by apply names_of_path, follow_plain]. simpl. by rewrite follow_below.
  - intros p n w Hr Hpn [q (names' & (names & Hn & ->)%names_of_join_inv & Hp & _)%leads_to_spec]; [|done..].
    rewrite (leads_to_some w p names); [done|done|].
    destruct (follow_snoc names n) as [E|[-> ->]]; [rewrite E in Hp; by apply present_snoc in Hp as [? _]|apply (present_fixed w ["srv"]); auto].
  - intros d w w' (nd & Hnd & H)%at_path_inv [q (names & Hn & Hp & _)%leads_to_spec].
    rewrite Hnd in Hn. injection Hn as <-. rewrite Hp in H. by destruct (directory w _); simplify_eq/=.
  - apply linked_mkdir_missing.
  - apply linked_temp.
Qed.

(** The assertion: a file outside the root is as it was. *)
Definition passwd_kept (w : Disk) : Prop := dk_files w !! ["etc"; "passwd"] = Some "root".

Lemma lands_location w p :
  lands leads_to "/srv" w p -> exists rest, names_of p = Some ("srv" :: rest) /\ follow ("srv" :: rest) = "srv" :: rest.
Proof.
  intros [[Hp [k Hk]] H].
  assert (exists names, names_of p = Some names /\ follow names = names) as (names & Hn & Hf).
  { destruct H as [(names & ? & ? & _)%leads_to_self|(a & n & rest & _ & Ha & Hpl & -> & Hm)]; [by exists names|].
    destruct (leads_to_self w a Ha) as (na & Hna & _ & Hap & Hplain & _).
    assert (plain_segment n) as Hpn by by apply Forall_inv in Hpl.
    destruct (missing_follow w a n na rest Ha Hna Hpn Hm) as [Hf _]. exists (na ++ n :: rest). split; [|done].
    rewrite Hap. unfold path_of. rewrite <- foldl_app. apply names_of_path. by apply Forall_app. }
  apply names_of_spec in Hn as [Hr Hc]. rewrite Hc in Hk. simpl in Hk.
  destruct names as [|x rest]; simplify_eq/=. exists rest. split; [|done]. by apply names_of_spec.
Qed.

Lemma passwd_set q c w : q <> ["etc"; "passwd"] -> passwd_kept w -> passwd_kept (set_file q c w).
Proof. intros Hq Hw. unfold passwd_kept. simpl. by rewrite lookup_insert_ne. Qed.

Lemma passwd_drop q w : q <> ["etc"; "passwd"] -> passwd_kept w -> passwd_kept (drop_file q w).
Proof. intros Hq Hw. unfold passwd_kept. simpl. by rewrite lookup_delete_ne. Qed.

Lemma temp_location p temp : temp_of linked_fs leads_to "/srv" p temp ->
  exists q, names_of temp = Some q /\ q <> ["etc"; "passwd"].
Proof.
  intros (w & w' & _ & H). apply at_path_inv in H as (nd & Hnd & H). destruct (_ && _); [|done].
  injection H as <- _. exists (follow nd ++ [".tmp"]). split.
  - apply names_of_path, Forall_app. split; [by apply follow_plain, (names_of_plain _ _ Hnd)|].
    constructor; [by vm_compute|constructor].
  - intros E. apply (f_equal last) in E. rewrite last_snoc in E. done.
Qed.

Lemma linked_confines : confines linked_fs leads_to "/srv" passwd_kept.
Proof.
  split.
  - intros p w _ Hw. change (fs_read linked_fs p w) with (text_at p w). by rewrite text_at_state.
  - intros p w _ Hw. change (fs_read_to_string linked_fs p w) with (text_at p w). by rewrite text_at_state.
  - intros p c w Hu Hr Hw. destruct (lands_location w p) as (rest & Hn & Hf); [by split; [|left]|].
    simpl. unfold at_path. rewrite Hn, Hf. by apply passwd_set.
  - intros p parent w _ _ Hw. simpl. unfold at_path. destruct (names_of parent) as [names|]; [|done].
    destruct (present w _); [done|]. unfold passwd_kept. simpl. apply map_lookup_filter_Some. split; [done|]. simpl.
    unfold present. apply andb_true_iff. split; [done|]. apply orb_true_iff. right. apply bool_decide_eq_true.
    by rewrite Hw.
  - intros p w (rest & Hn & Hf)%lands_location Hw. simpl. unfold at_path. rewrite Hn, Hf.
    destruct (present w _); [done|]. destruct (dirs_above w _); [by apply passwd_set|done].
  - intros p c (w & w' & (rest & Hn & _)%lands_location & _) w1 Hw. simpl. rewrite Hn.
    case_bool_decide; [by apply passwd_set|done].
  - intros p w Hl Hw. simpl. unfold at_path. destruct (names_of _) as [names|]; [|done].
    destruct (_ && _); [|done]. apply passwd_set; [|done]. intros E. apply (f_equal last) in E. by rewrite last_snoc in E.
  - intros p temp (q & Hn & Hq)%temp_location. split_and!; [intros c w Hw|intros w Hw; exact Hw|intros w Hw]; simpl; rewrite Hn.
    + case_bool_decide; [by apply passwd_set|done].
    + by apply passwd_drop.
  - intros p temp w (q & Hq & Hne)%temp_location (rest & Hn & Hf)%lands_location Hw. simpl. unfold at_path.
    rewrite Hn, Hf, Hq. apply passwd_set; [done|]. by apply passwd_drop.
Qed.

Lemma linked_root w root : root_at linked_fs (Some "/srv") w root -> root = "/srv".
Proof. intros (path & w1 & w2 & [= <- <-] & H). by injection H as <- _. Qed.

Definition write_request (path content : string) : ToolCoreRequest := {|
  tcr_tool_name := "file.write";
  tcr_payload := JObject [("path", JString path); ("content", JString content); ("overwrite", JBool true)] |}.

Definition two_places : Disk := {|
  dk_dirs := ∅;
  dk_files := {[ ["srv"; "notes.txt"] := "old"; ["etc"; "passwd"] := "root" ]} |}.

Definition write_run (path : string) : outcome (result ToolCoreOutcome string) * Disk :=
  execute_file_write_tool_with_config linked_fs (fun _ => ret tt) (Some "/srv") (write_request path "new") two_places.

(** A file is replaced, one is made in new directories, and the link is refused. *)
Example writes_inside_only :
  dk_files (write_run "notes.txt").2 !! ["srv"; "notes.txt"] = Some "new" /\
  dk_files (write_run "a/b/c.txt").2 !! ["srv"; "a"; "b"; "c.txt"] = Some "new" /\
  (write_run "out/passwd").1 =
    Returned (Err "policy_denied: file path /etc/passwd escapes configured file root /srv") /\
  (write_run "out/new.txt").1 =
    Returned (Err "policy_denied: file path /etc escapes configured file root /srv").
Proof. split_and!; by vm_compute. Qed.

Lemma file_tools_confined_witness :
  passwd_kept (write_run "a/b/c.txt").2 /\ passwd_kept (write_run "out/new.txt").2.
Proof.
  assert (watches linked_fs (fun _ => ret tt) passwd_kept) as Hw by (split; intros; intros w Hw; exact Hw).
  assert (confined_at linked_fs leads_to (Some "/srv") passwd_kept two_places) as Hc.
  { intros root ->%linked_root. split; [reflexivity|exact linked_confines]. }
  split.
  - destruct (file_tools_confined linked_fs leads_to linked_view (fun _ => ret tt) (Some "/srv") passwd_kept
      (write_request "a/b/c.txt" "new") two_places Hw Hc) as (_ & H & _); [reflexivity|exact H].
  - destruct (file_tools_confined linked_fs leads_to linked_view (fun _ => ret tt) (Some "/srv") passwd_kept
      (write_request "out/new.txt" "new") two_places Hw Hc) as (_ & H & _); [reflexivity|exact H].
Defined.

(** ** Bash *)

(** The world is the list of the processes that were started. *)
Definition ProcessLog : Type := list Started.

Definition process_fs : FileSystem ProcessLog := {|
  fs_current_dir := ret (Ok "/srv");
  fs_exists p := ret (bool_decide (p = "/srv"));
  fs_is_dir p := ret (bool_decide (p = "/srv"));
  fs_is_symlink _ := ret false;
  fs_canonicalize p := ret (if decide (p = "/srv") then Ok p else Err "not found");
  fs_read_link _ := ret (Err "not a link");
  fs_read _ := ret (Err "not found");
  fs_read_to_string _ := ret (Err "not found");
  fs_create_new _ := ret (Err (false, "read-only"));
  fs_write_all _ _ := ret (Err "read-only");
  fs_sync_all _ := ret (Err "read-only");
  fs_new_temp_in _ := ret (Err "read-only");
  fs_drop_temp _ := ret tt;
  fs_persist _ _ := ret (Err "read-only");
  fs_create_dir_all _ := ret (Err "read-only");
  fs_write _ _ := ret (Err "read-only");
|}.

Definition allow_rule (name : string) : CompiledPrefixRule := {|
  cr_source := name +:+ ".rules"; cr_prefix := [name]; cr_decision := RuleAllow; cr_origin := RuleFile |}.

Definition sample_bash : BashExecRuntimePolicy := {|
  be_available := true; be_command := Some "bash"; be_warning := None; be_login_shell := false;
  be_governance := {| bg_rules_dir := "/srv/rules";
                      bg_rules := [allow_rule "echo"; allow_rule "ls"; allow_rule "pwd"];
                      bg_load_error := None |} |}.

(** The grammar on the one command the samples use; on others it fails. *)
Definition sample_parse (command : string) : option Node :=
  if decide (command = "echo hi && ls -la; pwd") then Some two_commands else None.

Definition start_process (program : string) (args : list string) (cwd : string) (timeout_ms : Z)
  : M ProcessLog (result string string) :=
  fun w => (Returned (Ok "done"), w ++ [(program, args, cwd, timeout_ms)]).

Definition process_outcome (_ command _ output : string) : ToolCoreOutcome := {|
  tco_status := "ok"; tco_payload := JString output |}.

Definition bash_request (command : string) : ToolCoreRequest := {|
  tcr_tool_name := "bash.exec"; tcr_payload := JObject [("command", JString command)] |}.

Definition bash_result (command : string) : ProcessLog :=
  (execute_bash_tool_with_config sample_parse process_fs (fun _ => ret (Ok true)) start_process
     process_outcome (Some "/srv") sample_bash DefaultDeny (bash_request command) []).2.

Example bash_examples :
  bash_result "echo hi && ls -la; pwd" = [("bash", ["-c"; "echo hi && ls -la; pwd"], "/srv", 120000%Z)] /\
  bash_result "rm -rf /" = [].
Proof. by vm_compute. Qed.

Lemma process_world_log :
  process_log process_fs (fun _ => ret (Ok true)) start_process (fun w => w).
Proof. split; [|done]. intros l. split; intros; intros w Hw; exact Hw. Qed.

Lemma bash_runs_only_allowed_witness :
  exists p, bash_result "echo hi && ls -la; pwd" = [p] /\
    judged_process sample_parse process_fs (fun _ => ret (Ok true)) (Some "/srv") sample_bash DefaultDeny
      (bash_request "echo hi && ls -la; pwd") [] p.
Proof.
  pose proof (bash_runs_only_allowed sample_parse process_fs (fun _ => ret (Ok true)) start_process
    process_outcome (Some "/srv") sample_bash DefaultDeny (bash_request "echo hi && ls -la; pwd")
    (fun w => w) [] process_world_log) as H.
  unfold bash_result. destruct (execute_bash_tool_with_config _ _ _ _ _ _ _ _ _ _) as [r w'] eqn:E.
  vm_compute in E. injection E as <- <-. destruct H as [[_ H]|H]; [by destruct (H _ eq_refl)|exact H].
Defined.

(** ** A kernel with both tool policies *)

#[local] Instance tool_semver : Semver := fun v => bool_decide (v = "1.0.0").

Definition tools_pack : VerticalPackManifest := {|
  vp_pack_id := "ops"; vp_domain := "operations"; vp_version := "1.0.0";
  vp_default_route := {| er_harness_kind := EmbeddedPi; er_adapter := None |};
  vp_allowed_connectors := ∅; vp_granted_capabilities := {[InvokeTool; FilesystemRead]};
  vp_metadata := ∅ |}.

Definition tools_token : CapabilityToken := {|
  ct_token_id := token_id_of_seq 1; ct_pack_id := "ops"; ct_agent_id := "agent";
  ct_allowed_capabilities := {[InvokeTool; FilesystemRead]};
  ct_issued_at_epoch_s := 100; ct_expires_at_epoch_s := 160; ct_generation := 1 |}.

Definition echo_tool : CoreAdapter ToolSig Files :=
  Build_CoreAdapter ToolSig Files "core-tool" (fun request w =>
    (Returned (Ok {| tco_status := "ok"; tco_payload := tcr_payload request |}), w)).

Definition git_policy : ToolPolicyExtension := {|
  tp_hard_deny := {["rm"]}; tp_allow := {["git"]}; tp_default_mode := DefaultDeny |}.

Definition root_policy : FilePolicyExtension := {|
  fp_file_root := Some "/srv"; fp_canon_root := Some "/srv" |}.

Definition ToolKernel : Type := LoongKernel StaticPolicyEngine InMemoryAuditSink FixedClock Files.

Definition tool_kernel : ToolKernel :=
  let run (m : M ToolKernel unit) k := (m k).2 in
  run (run_builder (BuildPolicyExtension (file_policy_extension sample_fs (fun n => n) root_policy)))
  (run (run_builder (BuildPolicyExtension (tool_policy_extension (fun n => n) git_policy)))
  (run (run_builder (BuildPack tools_pack))
  (run (run_builder (BuildCoreTool echo_tool))
     (LoongKernel_with_runtime StaticPolicyEngine_default (FixedClock_new 120)
        (InMemoryAuditSink_with_capacity 8) two_files)))).

Definition shell_request (command : string) : ToolCoreRequest := {|
  tcr_tool_name := "shell.exec"; tcr_payload := JObject [("command", JString command)] |}.

Definition shell_call (command : string) :=
  LoongKernel_execute_tool_core "ops" tools_token {[InvokeTool]} None (shell_request command) tool_kernel.

Definition succeeded {A B E} (o : outcome (result A E) * B) : bool :=
  match o.1 with Returned (Ok _) => true | _ => false end.

Example shell_calls : succeeded (shell_call "git") = true /\ succeeded (shell_call "curl") = false.
Proof. by vm_compute. Qed.

Lemma kernel_tool_calls_policed_witness : shell_permits git_policy [("command", JString "git")].
Proof.
  assert (succeeded (shell_call "git") = true) as Hok by (vm_compute; reflexivity).
  destruct (shell_call "git") as [[[out|e]|p] k'] eqn:E; [|discriminate Hok..].
  destruct (kernel_tool_calls_policed sample_fs (fun n => n) git_policy root_policy
    [] [file_policy_extension sample_fs (fun n => n) root_policy]
    [tool_policy_extension (fun n => n) git_policy] [] "ops" tools_token {[InvokeTool]} None (shell_request "git")
    tool_kernel out k') as [H _].
  - reflexivity.
  - reflexivity.
  - exact E.
  - apply H. reflexivity.
Defined.

(** ** Plans at concrete inputs *)

(** ** A plan of three nodes in a row *)

Definition step_node (id : string) (attempts : nat) : PlanNode := {|
  pn_id := id; pn_kind := NodeTool; pn_label := "step"; pn_tool_name := None; pn_timeout_ms := 1000;
  pn_max_attempts := attempts; pn_risk_tier := RiskLow |}.

Definition sample_plan : PlanGraph := {|
  pg_version := PLAN_GRAPH_VERSION;
  pg_nodes := [step_node "n3" 1; step_node "n1" 2; step_node "n2" 1];
  pg_edges := [Build_PlanEdge "n1" "n2"; Build_PlanEdge "n2" "n3"];
  pg_budget := PlanBudget_default |}.

Definition cyclic_plan : PlanGraph := {|
  pg_version := PLAN_GRAPH_VERSION;
  pg_nodes := [step_node "n0" 1; step_node "n1" 1; step_node "n2" 1; step_node "n3" 1];
  pg_edges := [Build_PlanEdge "n0" "n1"; Build_PlanEdge "n1" "n2"; Build_PlanEdge "n2" "n1"];
  pg_budget := PlanBudget_default |}.

Example sample_plan_order : topological_order sample_plan = Some [1; 2; 0].
Proof. reflexivity. Qed.

Example cyclic_plan_rejected : PlanGraph_validate cyclic_plan = Err "plan graph must be acyclic".
Proof. reflexivity. Qed.

Lemma valid_plan_ordered_witness :
  exists order ordered, topological_order sample_plan = Some order /\
    ordered ≡ₚ ["n3"; "n1"; "n2"].
Proof.
  destruct (valid_plan_ordered sample_plan) as (order & ordered & ? & _ & ? & _); [reflexivity|].
  by exists order, ordered.
Defined.

Lemma plan_traversal_terminates_witness :
  exists order, traverse 9 [[1]; [2]; [1]; []] [0; 2; 1; 0] [0; 3] [] = Visited order /\ length order <= 4.
Proof.
  destruct (index_nodes (pg_nodes cyclic_plan) ∅ 0) as [[m t]|] eqn:Hi; [|exfalso; vm_compute in Hi; discriminate].
  destruct (index_edges m (pg_edges cyclic_plan) (no_edges 4)) as [d|] eqn:He.
  - destruct (plan_traversal_terminates cyclic_plan m t d 9 Hi He) as (order & Hrun & _ & Hlen & _);
      [simpl; lia|].
    assert (d = {| dg_indegree := [0; 2; 1; 0]; dg_outdegree := [1; 1; 1; 0];
                   dg_adjacency := [[1]; [2]; [1]; []] |}) as Hd.
    { vm_compute in Hi. injection Hi as <- _. vm_compute in He. by injection He as <-. }
    exists order. rewrite Hd in Hrun. split; [exact Hrun|exact Hlen].
  - exfalso. vm_compute in Hi. injection Hi as <- _. vm_compute in He. discriminate.
Defined.

(** ** A run: the world is the milliseconds spent and the calls made *)

Definition run_ok (node : PlanNode) (attempt : nat) : M (Z * list NodeCall) (option (result unit PlanNodeError)) :=
  fun w =>
    let answer := if bool_decide (pn_id node = "n1" /\ attempt = 1)
                  then Some (Err {| ne_kind := Retryable; ne_message := " busy " |}) else Some (Ok tt) in
    (Returned answer, (w.1, w.2 ++ [(node, attempt, answer)])).

Definition clock : M (Z * list NodeCall) Z := gets fst.

Lemma run_ok_log : call_log run_ok clock snd.
Proof. split; [by intros node attempt w outcome w' [= <- <-]|by intros w t w' [= <- <-]]. Qed.

Example sample_run :
  pr_status <$> match (PlanExecutor_execute run_ok clock sample_plan (5%Z, [])).1 with
                | Returned r => Some r | Panicked _ => None end = Some Succeeded.
Proof. reflexivity. Qed.

Lemma plan_run_respects_dependencies_witness :
  match PlanExecutor_execute run_ok clock sample_plan (5%Z, []) with
  | (Returned r, w') => pr_attempts_used r = 4%Z /\ (pr_attempts_used r <= 32)%Z /\
      pr_attempt_events r = call_event <$> w'.2
  | (Panicked _, _) => False
  end.
Proof.
  destruct (PlanExecutor_execute run_ok clock sample_plan (5%Z, [])) as [[r|p] w'] eqn:E;
    [|vm_compute in E; discriminate]. split.
  - vm_compute in E. injection E as <- _. reflexivity.
  - destruct (plan_run_respects_dependencies run_ok clock snd run_ok_log sample_plan (5%Z, []) r w')
      as ((made & Hmade & Hev) & _ & _ & Hle & _);
      [reflexivity|vm_compute; discriminate|exact E|].
    simpl in Hmade. subst made. split; [exact Hle|exact Hev].
Defined.

Definition steady : M Z Z := fun w => (Returned 5%Z, w).

Lemma plan_run_succeeds_witness :
  exists r w', PlanExecutor_execute (fun _ _ => ret (Some (Ok tt))) steady sample_plan 5%Z = (Returned r, w') /\
    pr_status r = Succeeded /\ pr_attempts_used r = 3%Z.
Proof.
  apply (plan_run_succeeds (fun _ _ => ret (Some (Ok tt))) steady sample_plan 5%Z);
    [reflexivity|vm_compute; discriminate|eauto|].
  intros w. exists 5%Z, w. split; [done|vm_compute; discriminate].
Defined.
