(* ===== verification/ProgrammaticWitnesses.v ===== *)
(** * Programmatic tool calls at concrete inputs

    The theorems on the circuit breaker, templates, batches and workflows,
    applied to the default policies, a workflow of four steps, a host that
    answers every command, and a kernel whose token was revoked. *)

From S2P Require Import Prelude RustStr Contracts Policy Planes AuditSinks Json.
From S2P Require Import Kernel KernelGate KernelRuns Async Circuit Template Programmatic.
From S2P Require Import ProgrammaticBatch ProgrammaticRun.

(** ** The circuit breaker under its default policy *)

Definition default_breaker : ConnectorCircuitBreakerPolicy := ConnectorCircuitBreakerPolicy_default.

Lemma default_breaker_ok : circuit_policy_ok default_breaker.
Proof. split; vm_compute; repeat split; discriminate. Qed.

(** Three failures at one, two and three nanoseconds trip it. *)
Definition three_failures : list circuit_event :=
  [EvRecord false 1; EvRecord false 2; EvRecord false 3].

Lemma circuit_trips_iff_witness :
  cs_phase (circuit_run default_breaker ConnectorCircuitRuntimeState_default
    (recorded [(false, 1%Z); (true, 2%Z); (false, 3%Z); (false, 4%Z); (false, 5%Z)])).2 = PhaseOpen.
Proof.
  apply (circuit_trips_iff default_breaker
    [(false, 1%Z); (true, 2%Z); (false, 3%Z); (false, 4%Z); (false, 5%Z)]).
  - apply default_breaker_ok.
  - by exists [false; true], [].
Defined.

Lemma circuit_open_holds_witness :
  let s := (circuit_run default_breaker ConnectorCircuitRuntimeState_default three_failures).2 in
  circuit_run default_breaker s [EvAcquire 4; EvAcquire 999000002] = (0, s).
Proof.
  intros s.
  destruct (circuit_open_holds default_breaker three_failures
    [EvAcquire 4; EvAcquire 999000002] []) as (d & Hd & Hcool & _).
  - apply default_breaker_ok.
  - reflexivity.
  - apply Hcool. vm_compute in Hd. injection Hd as <-.
    repeat constructor; vm_compute; discriminate.
Defined.

Lemma circuit_recovers_witness :
  let s := (circuit_run default_breaker ConnectorCircuitRuntimeState_default three_failures).2 in
  circuit_run default_breaker s (probe 1000000003) = (1, ConnectorCircuitRuntimeState_default).
Proof.
  intros s.
  apply (circuit_recovers default_breaker three_failures 1000000003 []).
  - apply default_breaker_ok.
  - reflexivity.
  - intros d Hd. vm_compute in Hd. injection Hd as <-. reflexivity.
  - reflexivity.
Defined.

(** ** Templates *)

#[local] Instance no_floats : FloatFormat := fun _ => "0.0".

Definition ticket_outputs : gmap string json :=
  {[ "lookup" := JObject [("name", JString "Ada"); ("id", json_usize 7)] ]}.

Lemma template_resolves_witness :
  resolve_programmatic_template_string "Dear {{lookup#/name}}, ticket {{lookup#/id}}" ticket_outputs
  = Ok (JString "Dear Ada, ticket 7").
Proof.
  apply (template_resolves [Literal "Dear "; Placeholder "lookup#/name"; Literal ", ticket ";
    Placeholder "lookup#/id"] ticket_outputs). reflexivity.
Defined.

(** ** Batches *)

Definition quick_retry (attempts : Z) : ProgrammaticRetryPolicy := {|
  rp_max_attempts := attempts; rp_initial_backoff_ms := 10; rp_max_backoff_ms := 100;
  rp_jitter_ratio := f64_zero; rp_adaptive_jitter := false |}.

Definition prepared (id : string) (p : ProgrammaticPriorityClass) : PreparedProgrammaticBatchCall := {|
  pb_call_id := id; pb_connector_name := "crm"; pb_operation := "get";
  pb_required_capabilities := {[InvokeConnector]}; pb_retry_policy := quick_retry 2;
  pb_priority_class := p; pb_payload := JObject [] |}.

Definition three_calls : list PreparedProgrammaticBatchCall :=
  [prepared "a" PriorityLow; prepared "b" PriorityHigh; prepared "c" PriorityHigh].

Lemma scheduler_fair_witness :
  prepared "a" PriorityLow ∈
    pop_sequence 7 WeightedRoundRobin
      (build_programmatic_weighted_cycle default_programmatic_concurrency_policy)
      (group_programmatic_calls_by_priority three_calls) 3.
Proof.
  destruct (scheduler_fair default_programmatic_concurrency_policy
    (group_programmatic_calls_by_priority three_calls) 3 PriorityLow
    [prepared "a" PriorityLow] 0 (prepared "a" PriorityLow)) as [H _].
  - intros p queue call Hq Hcall. destruct p; vm_compute in Hq; simplify_eq/=;
      repeat (apply elem_of_cons in Hcall as [->|Hcall]; [reflexivity|]);
      by apply not_elem_of_nil in Hcall.
  - reflexivity.
  - reflexivity.
  - exact H.
Defined.

(** A host that counts its commands, and fails the second one. *)
#[local] Instance counting_host : ConnectorHost nat := fun _ _ _ command n =>
  (Returned (if decide (n = 1) then Err (KConnector (ConnectorExecution "busy"))
             else Ok {| cd_connector_name := cc_connector_name command;
                        cd_outcome := {| co_status := "ok"; co_payload := cc_payload command |} |}),
   S n).

Definition caller_token : CapabilityToken := {|
  ct_token_id := token_id_of_seq 1; ct_pack_id := "ops"; ct_agent_id := "agent";
  ct_allowed_capabilities := {[InvokeConnector]};
  ct_issued_at_epoch_s := 100; ct_expires_at_epoch_s := 160; ct_generation := 1 |}.

(** The clock advances a nanosecond at every reading; the reactor resumes the
    newest future first. *)
Definition fresh_runtime {K} (k : K) : Runtime K := {|
  rt_kernel := k; rt_now := 0; rt_elapsed := repeat 1%N 40; rt_polls := repeat 1 40;
  rt_rate_state := ∅; rt_circuit_state := ∅ |}.

Definition batch_reports : option (list json) :=
  match (execute_programmatic_batch_calls "ops" caller_token ∅ ∅ "step" true true three_calls
           default_programmatic_concurrency_policy (fresh_runtime 0)).1 with
  | Returned (Ok (reports, _)) => Some reports
  | _ => None
  end.

Lemma default_in_flight : in_flight_bounds default_programmatic_concurrency_policy.
Proof. vm_compute; repeat split; discriminate. Qed.

Lemma three_calls_distinct : NoDup (map pb_call_id three_calls).
Proof. apply (bool_decide_unpack _). reflexivity. Qed.

Lemma batch_completes_witness : length <$> batch_reports = Some 3.
Proof.
  pose proof (batch_completes "ops" caller_token ∅ ∅ "step"
    default_programmatic_concurrency_policy true true three_calls (fresh_runtime 0)
    default_in_flight three_calls_distinct) as H.
  destruct batch_reports as [reports|] eqn:E; [|vm_compute in E; discriminate].
  unfold batch_reports in E.
  destruct (execute_programmatic_batch_calls _ _ _ _ _ _ _ _ _ _) as [[[[rs summary]|e]|p] r'];
    [|discriminate E..].
  injection E as ->. destruct H as [H _]. apply Forall2_length in H. simpl. by rewrite <- H.
Defined.

(** ** Workflows *)

Definition raw_call (id : string) : ProgrammaticBatchCall := {|
  bc_call_id := id; bc_connector_name := "crm"; bc_operation := "get";
  bc_required_capabilities := {[InvokeConnector]}; bc_retry := Some (quick_retry 2);
  bc_priority_class := PriorityNormal; bc_payload := JObject [("id", JString "{{seed}}")] |}.

Definition sample_steps : list ProgrammaticStep :=
  [SetLiteral "seed" (JString "42");
   ConnectorCall "one" "crm" "get" {[InvokeConnector]} None PriorityHigh (JString "{{seed}}");
   ConnectorBatch "many" true true [raw_call "x"; raw_call "y"];
   JsonPointer "status" "one" "/status"].

Definition run_sample {K} (host : ConnectorHost K) (r : Runtime K) :=
  execute_programmatic_tool_call "ops" caller_token ∅ ∅ "planner" 3 false {["crm"]}
    default_programmatic_concurrency_policy None sample_steps r.

Lemma sample_steps_within : Forall (step_within 2) sample_steps.
Proof. repeat constructor; simpl; lia. Qed.

Lemma default_concurrency_typed : concurrency_typed default_programmatic_concurrency_policy.
Proof. vm_compute; repeat split; discriminate. Qed.

(** The three calls reach the host, one of them twice: it is retried. *)
Example sample_commands :
  map cc_connector_name (commands (run_sample (recording_host counting_host) (fresh_runtime (0, []))).2)
  = ["crm"; "crm"; "crm"; "crm"].
Proof. vm_compute. reflexivity. Qed.

Lemma programmatic_calls_bounded_witness :
  length (commands (run_sample (recording_host counting_host) (fresh_runtime (0, []))).2) <= 6.
Proof.
  destruct (programmatic_calls_bounded counting_host "ops" caller_token ∅ ∅ "planner" 3 false
    {["crm"]} default_programmatic_concurrency_policy None sample_steps 2 (fresh_runtime (0, [])))
    as (sent & Hsent & Hlen & _).
  - apply default_concurrency_typed.
  - vm_compute. split; [discriminate|reflexivity].
  - apply sample_steps_within.
  - unfold run_sample. rewrite Hsent. exact Hlen.
Defined.

(** ** A kernel whose token was revoked *)

#[local] Instance release_semver : Semver := fun v => bool_decide (v = "1.0.0").

Definition ops_pack : VerticalPackManifest := {|
  vp_pack_id := "ops"; vp_domain := "operations"; vp_version := "1.0.0";
  vp_default_route := {| er_harness_kind := EmbeddedPi; er_adapter := None |};
  vp_allowed_connectors := {["crm"]};
  vp_granted_capabilities := {[InvokeConnector]}; vp_metadata := ∅ |}.

(** The connector logs what it is asked. *)
Definition logging_connector : CoreAdapter ConnectorSig (list string) :=
  Build_CoreAdapter ConnectorSig (list string) "crm" (fun command log =>
    (Returned (Ok {| co_status := "ok"; co_payload := JNull |}), log ++ [cc_operation command])).

Definition OpsKernel : Type := LoongKernel StaticPolicyEngine InMemoryAuditSink FixedClock (list string).

Definition ops_kernel : OpsKernel :=
  let run (m : M OpsKernel unit) k := (m k).2 in
  run (run_builder (BuildPack ops_pack))
    (run (run_builder (BuildCoreConnector logging_connector))
      (LoongKernel_with_runtime StaticPolicyEngine_default (FixedClock_new 120)
         (InMemoryAuditSink_with_capacity 8) [])).

Definition revoked_kernel : OpsKernel :=
  lk_set_policy (StaticPolicyEngine_revoke_token (ct_token_id caller_token) (lk_policy ops_kernel)).2
    ops_kernel.

(** With the token in force the commands of the workflow reach the connector. *)
Example ops_kernel_run :
  lk_world (rt_kernel (run_sample (kernel_connector_host Unwind) (fresh_runtime ops_kernel)).2)
  = ["get"; "get"; "get"].
Proof. vm_compute. reflexivity. Qed.

Lemma programmatic_kernel_run_witness :
  lk_world (rt_kernel (run_sample (kernel_connector_host Unwind) (fresh_runtime revoked_kernel)).2) = [].
Proof.
  destruct (programmatic_kernel_run Unwind "ops" caller_token ∅ ∅ "planner" 3 false {["crm"]}
    default_programmatic_concurrency_policy None sample_steps 2 (fresh_runtime revoked_kernel))
    as [_ H].
  - apply default_concurrency_typed.
  - vm_compute. split; [discriminate|reflexivity].
  - apply sample_steps_within.
  - destruct H as [Hw _]; [apply (bool_decide_unpack _); vm_compute; exact I|].
    unfold run_sample. etrans; [exact Hw|]. vm_compute. reflexivity.
Defined.
