(* ===== verification/ControlWitnesses.v ===== *)
(** * The control plane's theorems at concrete inputs

    A server bound to a remote address with a shared token: an operator connects
    with it, a device asks for pairing, the operator approves, the device answers a
    challenge and connects with the token it was given, and works under its scopes. *)

From Stdlib Require Import Ascii.
From stdpp Require Import gmap countable.
From S2P Require Import Prelude RustStr Contracts Policy Planes AuditSinks Kernel KernelGate Protocol.
From S2P Require Import Json ControlEvents ControlEventsFacts ControlTurns ControlTurnsFacts.
From S2P Require Import ControlAuth ControlAuthFacts ControlServer ControlHandlers ControlServerFacts.

(** ** Third-party code *)

Fixpoint bits_of (p : positive) : string :=
  match p with
  | xH => ""
  | xO p => String "0" (bits_of p)
  | xI p => String "1" (bits_of p)
  end.

Fixpoint bits_read (s : string) : positive :=
  match s with
  | EmptyString => xH
  | String c s => if char_eqb c "0"%char then xO (bits_read s) else xI (bits_read s)
  end.

Lemma bits_read_of p : bits_read (bits_of p) = p.
Proof. by induction p as [p IH|p IH|]; simpl; rewrite ?IH. Qed.

(** A set as the bits of its number. *)
#[local] Instance sample_scope_codec : ScopeCodec := {|
  scopes_to_string s := Ok (bits_of (encode s));
  scopes_from_str t := ok_or (decode (bits_read t)) "not a set";
|}.

#[local] Instance sample_scope_codec_laws : ScopeCodecLaws.
Proof.
  intros s. eexists. split; [done|]. cbn. by rewrite bits_read_of, decode_encode.
Defined.

(** A digest that hides nothing. *)
#[local] Instance sample_token_hash : TokenHash := fun t => "x" +:+ bits_of (encode t).

#[local] Instance sample_token_hash_laws : TokenHashLaws.
Proof.
  intros t. split; [|done]. apply trim_visible. unfold hash_control_plane_device_token, sample_token_hash.
  change (str_forallb is_visible (bits_of (encode t)) = true). induction (encode t); simpl; auto.
Defined.

(** A signature is the key with the message. *)
#[local] Instance sample_crypto : DeviceCrypto := {|
  base64_decode s := Ok s;
  verifying_key_from_bytes _ := Ok tt;
  signature_from_slice _ := Ok tt;
  verify_signature key message signature :=
    if decide (signature = key +:+ message) then Ok tt else Err "signature error";
|}.

#[local] Instance sample_header_text : HeaderText := fun s => Some s.
#[local] Instance control_semver : Semver := fun v => bool_decide (v = "1.0.0").

(** ** A run of a remote server *)

Definition io_ok : PairingIo := {|
  pio_now_ms := 1000; pio_repo := Ok tt; pio_insert := Ok tt; pio_load := Ok tt; pio_update := Ok tt;
  pio_begin := Ok tt; pio_tx_update := Ok tt; pio_tx_token := Ok tt; pio_commit := Ok tt;
  pio_reload := Ok tt; pio_list := Ok tt |}.

Definition at_ms (now random random2 : Z) : HandlerIo := {|
  hio_resolve_ms := now; hio_consume_ms := now; hio_verify_ms := now; hio_now_ms := now;
  hio_random := random; hio_random2 := random2; hio_pairing := io_ok; hio_snapshot := Ok (0, 0);
  hio_acp_count := Ok 0; hio_visible := fun _ => Ok tt; hio_list := fun _ => Ok (JArray []);
  hio_read := fun _ => Ok None; hio_wait_start := now; hio_wait := [] |}.

Definition empty_pairing (persistent : bool) : PairingState := {|
  ps_registry := {| pg_nonce := 0; pg_requests := ∅; pg_approved_devices := ∅; pg_persistent := persistent |};
  ps_db := {| pd_requests := ∅; pd_tokens := ∅ |} |}.

Definition SampleServer : Type := @ControlPlaneHttpState FixedClock unit.

Definition sample_authority : @ControlPlaneKernelAuthority FixedClock unit :=
  match ControlPlaneKernelAuthority_new (FixedClock_new 100) tt with
  | Returned (Ok a) => a
  | _ => {| ka_kernel := LoongKernel_with_runtime StaticPolicyEngine_default (FixedClock_new 100)
                           InMemoryAuditSink_default tt; ka_token_bindings := ∅ |}
  end.

Definition remote_server : SampleServer := {|
  hs_manager := ControlPlaneManager_new; hs_connection_counter := 0;
  hs_connection_registry := ControlPlaneConnectionRegistry_new;
  hs_challenge_registry := ControlPlaneChallengeRegistry_new; hs_pairing := empty_pairing true;
  hs_kernel_authority := sample_authority;
  hs_exposure_policy := {| ex_loopback := false; ex_shared_token := Some "shared" |};
  hs_repository_view := false; hs_acp_view := false;
  hs_turn_runtime := Some {| rt_acp_enabled := true; rt_registry := ControlPlaneTurnRegistry_new |} |}.

Definition sample_client (id : string) : ControlPlaneClientIdentity := {|
  ci_id := id; ci_version := "1"; ci_mode := "cli"; ci_platform := "linux"; ci_display_name := None |}.

Definition operator_connect : ControlPlaneConnectRequest := {|
  rq_min_protocol := 1; rq_max_protocol := 1; rq_client := sample_client "console";
  rq_role := RoleOperator; rq_scopes := {[OperatorRead; OperatorWrite; OperatorPairing]};
  rq_caps := ∅; rq_commands := ∅; rq_permissions := ∅;
  rq_auth := Some {| ac_token := Some " shared "; ac_device_token := None; ac_bootstrap_token := None;
                     ac_password := None |};
  rq_device := None |}.

Definition device_key : string := "0123456789abcdef0123456789abcdef".

Definition device_connect (nonce signature : string) (signed_at : Z) (token : option string)
  : ControlPlaneConnectRequest := {|
  rq_min_protocol := 1; rq_max_protocol := 1; rq_client := sample_client "phone";
  rq_role := RoleOperator; rq_scopes := {[OperatorRead; OperatorWrite]};
  rq_caps := ∅; rq_commands := ∅; rq_permissions := ∅;
  rq_auth := Some {| ac_token := None; ac_device_token := token; ac_bootstrap_token := None;
                     ac_password := None |};
  rq_device := Some {| di_device_id := "dev"; di_public_key := device_key; di_signature := signature;
                       di_signed_at_ms := signed_at; di_nonce := nonce |} |}.

Definition signed_connect (nonce : string) (signed_at : Z) (token : option string)
  : ControlPlaneConnectRequest :=
  let unsigned := device_connect nonce "" signed_at token in
  match rq_device unsigned with
  | Some device => device_connect nonce
      (device_key +:+ control_plane_device_signature_message unsigned device) signed_at token
  | None => unsigned
  end.

Definition bearer (token : string) : HeaderMap := {["authorization" := "Bearer " +:+ token]}.

Definition operator_token : string := control_plane_id "cpt-" 1 7.
Definition device_lease_token : string := control_plane_id "cpt-" 2 77.
Definition pairing_id : string := control_plane_id "pair-" 1 71.
Definition device_token : string := control_plane_id "cpd-" 3 74.

Definition sample_steps : list ServerStep := [
  Request (at_ms 1000 7 0) (PostConnect operator_connect);
  Request (at_ms 1010 70 0) GetChallenge;
  Request (at_ms 1020 71 0) (PostConnect (signed_connect (control_plane_id "cpc-" 1 70) 1015 None));
  Request (at_ms 1030 73 74) (PostPairingResolve (bearer operator_token) pairing_id true);
  Request (at_ms 1040 75 0) GetChallenge;
  Request (at_ms 1050 77 0)
    (PostConnect (signed_connect (control_plane_id "cpc-" 2 75) 1045 (Some device_token)))].

Definition submit : ControlPlaneTurnSubmitRequest := {|
  sb_session_id := "s"; sb_input := "go"; sb_channel_id := None; sb_account_id := None;
  sb_conversation_id := None; sb_participant_id := None; sb_thread_id := None;
  sb_working_directory := None; sb_metadata := ∅ |}.

Definition status_of (st : HandlerIo * HttpRequest) (s : SampleServer) : option Z :=
  match (serve (fun x => x) st.1 st.2 s).1 with
  | Returned (Some r) => Some (rs_status r)
  | _ => None
  end.

Definition sample_run := server_trace (fun x => x) sample_steps remote_server.

Definition sample_submit : HttpRequest := PostTurnSubmit (bearer device_lease_token) submit.

(** The responses of the six requests, and of a turn submitted by the device. *)
Definition run_statuses : list (option Z) :=
  (fun p : SampleServer * ServerStep =>
     match p.2 with Request io r => status_of (io, r) p.1 | _ => None end) <$> sample_run.1.

Example sample_run_statuses :
  run_statuses = Some <$> [200; 200; 403; 200; 200; 200]%Z /\
  status_of (at_ms 1060 80 0, sample_submit) sample_run.2 = Some 202%Z /\
  status_of (at_ms 1060 80 0, PostTurnSubmit (bearer operator_token) submit) sample_run.2 = Some 403%Z.
Proof. by vm_compute. Qed.

Lemma pair_of {A B} (p : A * B) a : p.1 = a -> p = (a, p.2).
Proof. by destruct p; intros <-. Qed.

Definition served (io : HandlerIo) (r : HttpRequest) (s : SampleServer) : Response :=
  match (serve (fun x => x) io r s).1 with
  | Returned (Some response) => response
  | _ => error_response 500 ""
  end.

Lemma control_plane_mediation_witness :
  exists i sc cio request id token,
    sample_run.1 !! i = Some (sc, Request cio (PostConnect request)) /\
    admitted remote_server (take i sample_run.1) sc cio request /\
    extract_connection_token (bearer device_lease_token) = Some token /\
    connections sample_run.2 !! trim token = Some (connect_record sc cio request id) /\
    granted_capability (granted_connect_scopes (hs_exposure_policy sc) request) ControlWrite.
Proof.
  destruct (control_plane_mediation (fun x => x) remote_server sample_run.1 sample_run.2
    (at_ms 1060 80 0) sample_submit "turn/submit" ControlWrite (bearer device_lease_token)
    (served (at_ms 1060 80 0) sample_submit sample_run.2)
    (serve (fun x => x) (at_ms 1060 80 0) sample_submit sample_run.2).2)
    as (i & sc & cio & request & id & token & H1 & H2 & H3 & H4 & _ & _ & H7 & _).
  - reflexivity.
  - apply server_trace_runs.
  - reflexivity.
  - refine (pair_of (serve (fun x => x) (at_ms 1060 80 0) sample_submit sample_run.2)
      (Returned (Some (served (at_ms 1060 80 0) sample_submit sample_run.2))) _).
    vm_compute. reflexivity.
  - vm_compute. reflexivity.
  - exists i, sc, cio, request, id, token. exact (conj H1 (conj H2 (conj H3 (conj H4 H7)))).
Defined.

(** A token that was never issued, sent to the server where a device holds a lease. *)
Definition refused_ping : HttpRequest := GetPing (bearer "unknown").
Definition after_refused : SampleServer :=
  (authorize (fun x => x) (at_ms 1060 80 0) "control/ping" (bearer "unknown") sample_run.2).2.

Lemma refused_request_changes_nothing_witness :
  (serve (fun x => x) (at_ms 1060 80 0) refused_ping sample_run.2).1
    = Returned (Some (error_response 401 "unknown or expired control-plane token for `control/ping`")) /\
  untouched 1060 (bearer "unknown") sample_run.2 after_refused.
Proof.
  destruct (refused_request_changes_nothing (fun x => x) (at_ms 1060 80 0) refused_ping "control/ping"
    ControlRead (bearer "unknown") sample_run.2
    (error_response 401 "unknown or expired control-plane token for `control/ping`") after_refused)
    as (Hs & _ & Hu).
  - reflexivity.
  - refine (pair_of (authorize (fun x => x) (at_ms 1060 80 0) "control/ping" (bearer "unknown") sample_run.2)
      (Returned (Err (error_response 401 "unknown or expired control-plane token for `control/ping`"))) _).
    vm_compute. reflexivity.
  - split; [by rewrite Hs|exact Hu].
Defined.

(** ** Challenges and pairing *)

Definition challenge_calls : list ChallengeCall := [ChIssue 1000 7; ChIssue 1000 8].
Definition first_challenge : ControlPlaneChallenge := {|
  ch_nonce := control_plane_id "cpc-" 1 7; ch_issued_at_ms := 1000; ch_expires_at_ms := 61000 |}.

Lemma challenge_answered_once_witness :
  (ControlPlaneChallengeRegistry_consume 70000 (control_plane_id "cpc-" 1 7)
     (run_challenge_calls [ChIssue 2000 9]
        (ControlPlaneChallengeRegistry_consume 1500 (control_plane_id "cpc-" 1 7)
           (run_challenge_calls challenge_calls ControlPlaneChallengeRegistry_new)).2)).1
  = Returned (Ok None).
Proof.
  destruct (challenge_answered_once challenge_calls [ChIssue 2000 9] 1500 70000
    (control_plane_id "cpc-" 1 7) first_challenge
    (ControlPlaneChallengeRegistry_consume 1500 (control_plane_id "cpc-" 1 7)
       (run_challenge_calls challenge_calls ControlPlaneChallengeRegistry_new)).2)
    as (_ & _ & _ & _ & H).
  - repeat constructor; vm_compute; discriminate.
  - vm_compute. reflexivity.
  - apply (pair_of (ControlPlaneChallengeRegistry_consume 1500 (control_plane_id "cpc-" 1 7)
       (run_challenge_calls challenge_calls ControlPlaneChallengeRegistry_new))
      (Returned (Ok (Some first_challenge)))). vm_compute. reflexivity.
  - exact H.
Defined.

Definition sample_scopes : gset string := {["operator.read"]}.

Definition pairing_calls : list PairingCall := [
  PrConnect 1000 71 io_ok "dev" "phone" "key" "operator" sample_scopes None;
  PrResolve 1010 73 74 io_ok pairing_id true].

Lemma pairing_requires_approval_witness :
  exists id r t presented,
    approved_by pairing_calls id /\ requested_by pairing_calls r /\ pq_device_token r = Some t /\
    presented_token (Some device_token) = Some presented /\
    hash_control_plane_device_token presented = hash_control_plane_device_token t.
Proof.
  destruct (pairing_requires_approval (empty_pairing true) pairing_calls 1020 75 io_ok "dev" "phone"
    "key" "operator" sample_scopes (Some device_token)
    (run_pairing_calls pairing_calls (empty_pairing true)))
    as (_ & id & r & t & presented & H1 & _ & H3 & _ & _ & _ & _ & _ & H9 & H10 & H11).
  - by split_and!.
  - repeat constructor; vm_compute; discriminate.
  - vm_compute. discriminate.
  - vm_compute. reflexivity.
  - exists id, r, t, presented. exact (conj H1 (conj H3 (conj H9 (conj H10 H11)))).
Defined.

Definition pairing_state : PairingState := run_pairing_calls (take 1 pairing_calls) (empty_pairing true).
Definition pending_request : ControlPlanePairingRequestRecord :=
  new_request 1000 pairing_id "dev" "phone" "key" "operator" sample_scopes.
Definition approved_request : ControlPlanePairingRequestRecord :=
  resolved_record pending_request PairingApproved 1010 (Some (control_plane_id "cpdt-" 2 73))
    (Some device_token).
Definition approved_state : PairingState :=
  (ControlPlanePairingRegistry_resolve_request 1010 73 74 io_ok pairing_id true pairing_state).2.
Definition restarted_registry : ControlPlanePairingRegistry :=
  match ControlPlanePairingRegistry_with_memory_config io_ok (ps_db approved_state) with
  | Ok g => g
  | Err _ => ControlPlanePairingRegistry_new
  end.

Lemma approval_survives_restart_witness :
  exists token, pq_device_token approved_request = Some token /\
    (ControlPlanePairingRegistry_evaluate_connect 2000 81 io_ok "dev" "phone" "key" "operator"
       sample_scopes (Some token)
       {| ps_registry := restarted_registry; ps_db := ps_db approved_state |}).1
    = Returned (Ok Authorized).
Proof.
  destruct (approval_survives_restart 1010 73 74 io_ok pairing_id pending_request approved_request
    pairing_state approved_state io_ok restarted_registry 2000 81 io_ok "phone" sample_scopes)
    as (token & H1 & H2).
  - reflexivity.
  - intros d row. change (pd_tokens (ps_db pairing_state)) with
      (∅ : gmap string RawControlPlaneDeviceTokenRecord). by rewrite lookup_empty.
  - vm_compute. reflexivity.
  - reflexivity.
  - unfold normal_request, normal_text. split_and!; vm_compute; reflexivity.
  - apply (pair_of (ControlPlanePairingRegistry_resolve_request 1010 73 74 io_ok pairing_id true
      pairing_state) (Returned (Ok (Some approved_request)))). vm_compute. reflexivity.
  - vm_compute. reflexivity.
  - reflexivity.
  - reflexivity.
  - exists token. split; [exact H1|]. exact (f_equal fst H2).
Defined.

(** ** Events *)

Definition event_calls : list ManagerCall := [
  CallSessionsChanged 2 JNull; CallSetPresenceCount 1; CallSessionMessage JNull true;
  CallPairingRequested JNull].

Definition event_manager : ControlPlaneManager := run_manager_calls event_calls ControlPlaneManager_new.

(** What is recorded while a subscriber joins, and later. *)
Definition joining_calls : list ManagerCall := [CallHealthChanged true JNull; CallAcpTurnEvent JNull true].
Definition later_calls : list ManagerCall := [CallHealthChanged false JNull; CallPairingRequested JNull].

Definition joined_manager : ControlPlaneManager := run_manager_calls joining_calls event_manager.
Definition later_manager : ControlPlaneManager := run_manager_calls later_calls joined_manager.

(** The channel hands over the records since the subscriber joined: 4 to 7. *)
Definition channel_answers : list (ControlPlaneManager * RecvResult ControlPlaneEventRecord) :=
  (fun e => (later_manager, RecvOk e)) <$> drop 3 (cm_sent later_manager).

Lemma control_events_ring_witness :
  ev_seq <$> cm_sent event_manager = [1; 2; 3]%Z /\
  cm_recent_events event_manager = last_n DEFAULT_RECENT_EVENT_LIMIT (cm_sent event_manager).
Proof.
  destruct (control_events_ring event_calls) as (H1 & H2 & _); [vm_compute; discriminate|].
  split; [exact H1|exact H2].
Defined.

(** The ring has 4 already when the subscriber reads it, and the channel hands it
    over once more. *)
Lemma subscription_complete_witness :
  ev_seq <$> (subscribe_stream channel_answers (initial_subscribe_state 1 false joined_manager)).1
    = [3; 4; 6; 7]%Z /\
  seq_sorted (subscribe_stream channel_answers (initial_subscribe_state 1 false joined_manager)).1.
Proof.
  destruct (subscription_complete 1 false event_calls joining_calls later_calls) as [Hsorted Hall].
  - vm_compute. discriminate.
  - apply Nat.leb_le. vm_compute. reflexivity.
  - split.
    + etransitivity; [refine (f_equal (fmap ev_seq) (Hall _ channel_answers _))|vm_compute; reflexivity].
      * apply Nat.leb_le. vm_compute. reflexivity.
      * vm_compute. reflexivity.
    + apply (Hsorted channel_answers). unfold channel_answers. apply Forall_fmap, Forall_true. intros e.
      exists (event_calls ++ joining_calls ++ later_calls).
      split; [vm_compute; reflexivity|vm_compute; discriminate].
Defined.

Definition two_recorders : list recorder := [
  RecBump LaneSessions SessionMessage JNull false; RecBump LaneAcp AcpTurnEvent JNull true].

(** The recorder whose turn it is takes a step. *)
Definition race_turn (p : ControlPlaneManager * list recorder) (i : nat)
  : ControlPlaneManager * list recorder :=
  match p.2 !! i with
  | Some t => match recorder_step t p.1 with
              | Some (t', m') => (m', <[i := t']> p.2)
              | None => p
              end
  | None => p
  end.

Definition interleaving : list nat := [0; 1; 1; 0; 1; 0; 1; 0; 1; 0; 1; 0; 1; 1; 0; 0].

Lemma race_turns order p : rtc record_race p (foldl race_turn p order).
Proof.
  revert p. induction order as [|i order IH]; intros [m ts]; [done|]. simpl.
  destruct (race_turn (m, ts) i) eqn:E; rewrite <- E; clear E. etrans; [|apply IH].
  unfold race_turn; simpl. destruct (ts !! i) as [t|] eqn:Ht; [|done].
  destruct (recorder_step t m) as [[t' m']|] eqn:Hs; [|done]. apply rtc_once. by econstructor.
Qed.

Definition race_end : ControlPlaneManager * list recorder :=
  foldl race_turn (ControlPlaneManager_new, two_recorders) interleaving.

Lemma concurrent_events_numbered_witness :
  ev_seq <$> cm_sent race_end.1 ≡ₚ [1; 2]%Z.
Proof.
  destruct (concurrent_events_numbered two_recorders race_end.1 race_end.2) as (_ & H & _).
  - repeat constructor.
  - vm_compute. discriminate.
  - rewrite <- surjective_pairing. apply race_turns.
  - apply H. vm_compute. repeat constructor.
Defined.

(** ** Turns *)

Definition turn_one : string := control_plane_id "cpt-turn-" 1 7.

Definition turn_calls : list TurnCall := [
  CallIssueTurn 1000 7 "s"; CallRecordRuntimeEvent turn_one JNull;
  CallCompleteSuccess 1010 turn_one "done" None None].

Definition turn_registry : ControlPlaneTurnRegistry :=
  run_turn_calls turn_calls ControlPlaneTurnRegistry_new.

Lemma turn_registry_invariant_witness :
  size (finished_turns (rg_turns turn_registry)) <= CONTROL_PLANE_TURN_TERMINAL_RETENTION_LIMIT /\
  forall id r, rg_turns turn_registry !! id = Some r -> turn_wf id r.
Proof.
  apply (turn_registry_invariant turn_calls).
  - repeat constructor; vm_compute; discriminate.
  - vm_compute. reflexivity.
Defined.

Definition finished_record : ControlPlaneTurnStateRecord :=
  default {| tr_snapshot := {| ts_turn_id := ""; ts_session_id := ""; ts_status := TurnRunning;
      ts_submitted_at_ms := 0; ts_completed_at_ms := None; ts_event_count := 0; ts_output_text := None;
      ts_stop_reason := None; ts_usage := None; ts_error := None |};
      tr_recent_events := []; tr_next_seq := 0 |} (rg_turns turn_registry !! turn_one).

Lemma finished_turn_final_witness :
  ControlPlaneTurnRegistry_complete_failure 2000 turn_one "late" turn_registry
  = (Returned (Err ("control_plane_turn_already_terminal: `" +:+ turn_one +:+ "`")), turn_registry).
Proof.
  destruct (finished_turn_final turn_calls [CallIssueTurn 1020 8 "s"] turn_one finished_record)
    as (_ & _ & _ & H).
  - repeat constructor; vm_compute; discriminate.
  - vm_compute. reflexivity.
  - vm_compute. reflexivity.
  - vm_compute. reflexivity.
  - exact (H 2000%Z "late").
Defined.

(** ** An approval that fails after its commit *)

(** The database commits the approval, and the read that follows fails. *)
Definition io_reload_fails : PairingIo := {|
  pio_now_ms := 1000; pio_repo := Ok tt; pio_insert := Ok tt; pio_load := Ok tt; pio_update := Ok tt;
  pio_begin := Ok tt; pio_tx_update := Ok tt; pio_tx_token := Ok tt; pio_commit := Ok tt;
  pio_reload := Err "disk I/O error"; pio_list := Ok tt |}.

Definition lost_approval :=
  ControlPlanePairingRegistry_resolve_request 1010 73 74 io_reload_fails pairing_id true pairing_state.

Definition registry_after_loss : ControlPlanePairingRegistry :=
  match ControlPlanePairingRegistry_with_memory_config io_ok (ps_db lost_approval.2) with
  | Ok g => g
  | Err _ => ControlPlanePairingRegistry_new
  end.

(** The operator is told that the approval failed and the registry keeps the
    request pending, but the database holds the approval with a token nobody was
    shown.  A second approval can not succeed any more, and after a restart the
    device is asked for that token instead of being paired. *)
Theorem approval_lost_after_commit :
  lost_approval.1 = Returned (Err "disk I/O error") /\
  (pq_status <$> pg_requests (ps_registry lost_approval.2) !! pairing_id) = Some PairingPending /\
  is_Some (pd_tokens (ps_db lost_approval.2) !! "dev") /\
  (ControlPlanePairingRegistry_resolve_request 1020 83 84 io_ok pairing_id true lost_approval.2).1
  = Returned (Err ("control-plane pairing request `" +:+ pairing_id +:+
                   "` changed before approval persistence completed")) /\
  (ControlPlanePairingRegistry_evaluate_connect 2000 85 io_ok "dev" "phone" "key" "operator"
     sample_scopes None {| ps_registry := registry_after_loss; ps_db := ps_db lost_approval.2 |}).1
  = Returned (Ok DeviceTokenRequired).
Proof.
  split_and!; [vm_compute; reflexivity|vm_compute; reflexivity| |vm_compute; reflexivity..].
  eexists. vm_compute. reflexivity.
Qed.

(** ** A device token that was revoked and has expired *)

Definition revoked_row : RawControlPlaneDeviceTokenRecord := {|
  rt_token_id := "cpdt"; rt_device_id := "dev"; rt_public_key := "key"; rt_role := "operator";
  rt_approved_scopes_json := bits_of (encode sample_scopes);
  rt_token_hash := hash_control_plane_device_token "secret"; rt_issued_at_ms := 10;
  rt_expires_at_ms := Some 20%Z; rt_revoked_at_ms := Some 30%Z; rt_last_used_at_ms := None;
  rt_pairing_request_id := None |}.

Definition revoked_db : PairingDb := {| pd_requests := ∅; pd_tokens := {["dev" := revoked_row]} |}.

(** The columns [expires_at_ms] and [revoked_at_ms] are loaded and never looked at:
    with both in the past the device is authorized. *)
Theorem revoked_device_authorized :
  exists g, ControlPlanePairingRegistry_with_memory_config io_ok revoked_db = Ok g /\
    (ControlPlanePairingRegistry_evaluate_connect 5000 1 io_ok "dev" "phone" "key" "operator"
       sample_scopes (Some "secret") {| ps_registry := g; ps_db := revoked_db |}).1
    = Returned (Ok Authorized).
Proof.
  exists (match ControlPlanePairingRegistry_with_memory_config io_ok revoked_db with
          | Ok g => g | Err _ => ControlPlanePairingRegistry_new end).
  split; vm_compute; reflexivity.
Qed.
