(* ===== verification/ProviderWitnesses.v ===== *)
(** * The provider layer at concrete inputs

    The theorems on failover, the catalog's single flight, the state of credentials
    and the request of one model, applied to a provider that rejects the first model,
    two callers of one catalog, a failure and a success written in the wrong order,
    and a provider that is overloaded for ever. *)

From stdpp Require Import gmap countable.
From S2P Require Import Prelude RustStr Contracts Json Policy AuditSinks Kernel Fixtures.
From S2P Require Import Provider ProviderHealth ProviderHealthFacts ProviderFailover ProviderFailoverFacts.
From S2P Require Import ProviderRequest ProviderRequestFacts ProviderCatalog ProviderCatalogFacts.

(** ** Instances *)

#[local] Instance plain_floats : FloatFormat := fun _ => "0.0".
#[local] Instance length_hasher : DefaultHasher := fun parts => Z.of_nat (sum_list_with String.length parts).
#[local] Instance no_dates : HttpDates := fun _ => None.

#[local] Instance ProviderProfileStateSnapshotEntry_eq_dec : EqDecision ProviderProfileStateSnapshotEntry.
Proof. solve_decision. Defined.
#[local] Instance ProviderProfileStateSnapshotEntry_countable : Countable ProviderProfileStateSnapshotEntry.
Proof.
  refine (inj_countable' (fun e => (se_key e, se_reason e, se_failure_count e, se_cooldown_remaining_ms e,
      se_disabled_remaining_ms e, se_last_used_age_ms e))
    (fun '(a, b, c, d, e, f) => {| se_key := a; se_reason := b; se_failure_count := c;
      se_cooldown_remaining_ms := d; se_disabled_remaining_ms := e; se_last_used_age_ms := f |}) _).
  by intros [].
Defined.

#[local] Instance ProviderProfileStateSnapshot_eq_dec : EqDecision ProviderProfileStateSnapshot.
Proof. solve_decision. Defined.
#[local] Instance ProviderProfileStateSnapshot_countable : Countable ProviderProfileStateSnapshot.
Proof.
  refine (inj_countable' (fun s => (sn_version s, sn_revision s, sn_generated_at_unix_ms s, sn_order s, sn_entries s))
    (fun '(a, b, c, d, e) => {| sn_version := a; sn_revision := b; sn_generated_at_unix_ms := c;
      sn_order := d; sn_entries := e |}) _).
  by intros [].
Defined.

#[local] Instance digit_snapshots : SnapshotCodec := {|
  encode_snapshot := fun s => Some (positive_digits (encode s));
  decode_snapshot := fun raw => digits_positive raw ≫= decode;
|}.

(** ** Failover *)

(** An audit sink that keeps everything. *)
#[local] Instance list_sink : AuditSink (list AuditEvent) := fun e a => (Returned (Ok tt), a ++ [e]).

(** The world is the log of requests; its clock stands still. *)
Definition RequestLog : Type := list (Attempt string).

Definition calm_files : FileOutcomes :=
  {| fo_create_dir_all := true; fo_write_tmp := true; fo_rename := true; fo_write := true; fo_torn := None |}.

#[local] Instance still_world : ProviderEnv RequestLog := {|
  instant_now := fun w => (1000%Z, w);
  unix_timestamp_ms := fun w => (1%Z, w);
  file_outcomes := fun w => (calm_files, w);
|}.

Definition FailoverState : Type :=
  ProviderRuntime (J := sample_json) StaticPolicyEngine (list AuditEvent) FixedClock (list string) RequestLog.

Definition failover_start : FailoverState := {|
  pr_states := ProviderProfileStateStore_default;
  pr_backend := {| fb_persist_revision := 0; fb_file := None |};
  pr_persist_metrics := {| pm_persisted := 0; pm_stale_skipped := 0; pm_failed := 0 |};
  pr_cooldowns := lru_default;
  pr_metrics := {| fm_total_events := 0; fm_continued_events := 0; fm_exhausted_events := 0;
                   fm_by_reason := ∅; fm_by_stage := ∅; fm_by_provider := ∅ |};
  pr_kernel := LoongKernel_with_runtime StaticPolicyEngine_default (FixedClock_new 100) [] [];
  pr_world := [] |}.

Definition main_key : ProviderAuthProfile :=
  {| ap_id := "main"; ap_authorization_secret := Some "s"; ap_api_key_secret := None; ap_auth_cache_key := None |}.
Definition spare_key : ProviderAuthProfile :=
  {| ap_id := "spare"; ap_authorization_secret := Some "t"; ap_api_key_secret := None; ap_auth_cache_key := None |}.

(** The provider serves the model "large" to the spare credential only. *)
Definition picky_provider (model : string) (auto : bool) (profile : ProviderAuthProfile)
  : M FailoverState (result string ModelRequestError) := fun s =>
  let r := if decide (model = "large" /\ ap_id profile = "spare") then Ok "answer"
           else Err (build_model_request_error_with_rate_limit "overloaded" false ProviderOverloaded
                       StageStatusFailure model 1 1 (Some 503%Z) None) in
  (Returned r, pr_set_world (pr_world s ++ [((model, profile), r)]) s).

Definition health_policy : ProviderProfileStatePolicy := {|
  sp_namespace := "ns"; sp_health_mode := EnforceUnusableWindows; sp_cooldown := 60 * NANOS_PER_SEC;
  sp_max_cooldown := 600 * NANOS_PER_SEC; sp_auth_reject_disable := 3600 * NANOS_PER_SEC; sp_max_entries := 8 |}.

Definition cooldown_policy : ModelCandidateCooldownPolicy :=
  {| cp_namespace := "ns"; cp_cooldown := 60 * NANOS_PER_SEC; cp_max_cooldown := 600 * NANOS_PER_SEC;
     cp_max_entries := 8 |}.

Definition failover_run : outcome (result string string) * FailoverState :=
  request_across_model_candidates picky_provider "openai" (BindingKernel sample_token) (Some health_policy)
    (Some cooldown_policy) true [main_key; spare_key] ["small"; "large"] failover_start.

(** Three attempts fail, the fourth answers; the three are audited. *)
Example failover_run_answers :
  failover_run.1 = Returned (Ok "answer") /\ length (pr_world failover_run.2) = 4 /\
  length (lk_audit (pr_kernel failover_run.2)) = 3.
Proof. vm_compute. auto. Qed.

Lemma failover_run_returns : failover_run = (Returned (Ok "answer"), failover_run.2).
Proof. rewrite <-(proj1 failover_run_answers). apply surjective_pairing. Qed.

(** The sample sink keeps every event. *)
Lemma picky_provider_observed :
  observed (J := sample_json) picky_provider (fun w => w) (fun a => a) (fun _ => 0).
Proof.
  split; try done.
  - intros model auto profile s r s' [= <- <-]. done.
  - intros e a r a' [= <- <-]. done.
Qed.

(** The main credential failed shortly before, so the spare one is tried first. *)
Definition failover_wounded : FailoverState :=
  pr_set_states (mark_failure_locked health_policy main_key ProviderOverloaded 900 1
    ProviderProfileStateStore_default).2 failover_start.

Definition wounded_run : outcome (result string string) * FailoverState :=
  request_across_model_candidates picky_provider "openai" (BindingKernel sample_token) (Some health_policy)
    (Some cooldown_policy) true [main_key; spare_key] ["small"; "large"] failover_wounded.

Lemma wounded_run_returns :
  wounded_run = (Returned (Ok "answer"), wounded_run.2).
Proof. transitivity (wounded_run.1, wounded_run.2); [apply surjective_pairing|]. f_equal; vm_compute; reflexivity. Qed.

Example wounded_run_order :
  (fun a => (a.1.1, ap_id a.1.2)) <$> pr_world wounded_run.2
  = [("small", "spare"); ("small", "main"); ("large", "spare")].
Proof. vm_compute. reflexivity. Qed.

Lemma failover_attempts_witness :
  exists ordered made,
    health_ordered (Some health_policy) failover_wounded [main_key; spare_key] ordered /\
    pr_world wounded_run.2 = made /\
    audits_from "openai" (BindingKernel sample_token) true (fun a => a) 0 2 ["small"; "large"] made wounded_run.2 /\
    swept (all_pairs ["small"; "large"] ordered) made None (inl "answer").
Proof.
  destruct (failover_attempts picky_provider "openai" (BindingKernel sample_token) (Some health_policy)
    (Some cooldown_policy) true (fun w => w) (fun a => a) (fun _ => 0) picky_provider_observed
    [main_key; spare_key] ["small"; "large"] failover_wounded (Ok "answer") wounded_run.2)
    as (ordered & made & Hp & Hl & Ha & Hs).
  - exact wounded_run_returns.
  - exists ordered, made. split; [exact Hp|]. split; [exact Hl|]. split; [exact (Ha eq_refl)|exact Hs].
Defined.

(** ** Single flight *)

(** The catalog of one key is fetched by the first caller; the second waits. *)
Definition one_slot (value : option FetchResult) (fetched : list (string * FetchResult)) : Flights :=
  {| fl_slots := [{| sl_key := "k"; sl_started_at := 5; sl_value := value |}];
     fl_map := {["k" := 0]}; fl_fetched := fetched |}.

Lemma two_callers_reachable :
  flight_reachable 10 false
    ([FtSent "k" 0 (Ok ["m"]); FtWait "k" 0 true], one_slot (Some (Ok ["m"])) [("k", Ok ["m"])]).
Proof.
  unfold flight_reachable, flights_start.
  eapply rtc_l; [apply (FlightArrive _ _ [] "k")|]. eapply rtc_l; [apply (FlightArrive _ _ _ "k")|].
  eapply rtc_l; [apply (FlightStep _ _ _ 0 (FtJoin "k" true) _ (FtLead "k" 0) (one_slot None [])); [done|]|].
  { eapply (MoveJoin _ _ _ _ _ 5). reflexivity. }
  eapply rtc_l; [apply (FlightStep _ _ _ 1 (FtJoin "k" true) _ (FtFound "k" 0 true) (one_slot None [])); [done|]|].
  { eapply (MoveJoin _ _ _ _ _ 6). reflexivity. }
  eapply rtc_l; [apply (FlightStep _ _ _ 1 (FtFound "k" 0 true)); [done|apply MoveSubscribe]|].
  eapply rtc_l; [eapply (FlightStep _ _ _ 0 (FtLead "k" 0)); [done|apply (MoveFetched _ _ _ _ _ (Ok ["m"]))]|].
  apply rtc_refl.
Qed.

(** A leader nobody waits for publishes into nothing: its slot stays empty. *)
Example lone_leader_slot_empty :
  flight_publish [FtLead "k" 0] 0 (Ok ["m"]) (one_slot None []) = one_slot None [].
Proof. reflexivity. Qed.

Lemma single_flight_witness :
  flight_poll [FtSent "k" 0 (Ok ["m"]); FtWait "k" 0 true] "k" 0 true
    (flight_publish [FtSent "k" 0 (Ok ["m"]); FtWait "k" 0 true] 0 (Ok ["m"])
       (fl_note_fetched "k" (Ok ["m"]) (one_slot (Some (Ok ["m"])) [("k", Ok ["m"])])))
  = Some (FtDone "k" (Ok ["m"])) /\
  exists j t, [FtSent "k" 0 (Ok ["m"]); FtWait "k" 0 true] !! j = Some t /\ leads t = Some ("k", 0).
Proof.
  destruct (single_flight 10 false _ _ two_callers_reachable) as (_ & _ & Hp & Hm & _). split.
  - apply (Hp 1 "k" 0 true). reflexivity.
  - apply Hm. reflexivity.
Defined.

(** ** The state of credentials across a restart *)

(** A failure of one credential, then a success of another; the snapshot of the
    failure reaches the file last. *)
Definition two_marks : list ProfileMark := [MarkFailure "a" RateLimited 1000].
Definition last_mark : ProfileMark := MarkSuccess "b" 2000.

Definition marked_store : ProviderProfileStateStore :=
  foldl (run_mark health_policy) ProviderProfileStateStore_default (two_marks ++ [last_mark]).

Definition late_writes : list (ProviderProfileStateSnapshot * FileOutcomes) :=
  map (fun s => (s, calm_files))
    (reverse (mark_snapshots health_policy 7 ProviderProfileStateStore_default (two_marks ++ [last_mark]))).

Definition empty_file : FileProviderProfileStateBackend := {| fb_persist_revision := 0; fb_file := None |}.

Lemma marked_store_fits k e : store_entry marked_store k = Some e -> entry_fits (10 ^ 15) 2000 e.
Proof.
  intros Hk. unfold store_entry in Hk. apply elem_of_map_to_list in Hk. vm_compute in Hk. unfold entry_fits.
  repeat (apply elem_of_cons in Hk as [Hk|Hk]; [injection Hk as -> ->; simpl; naive_solver lia|]).
  by apply elem_of_nil in Hk.
Qed.

Lemma profile_state_survives_restart_witness :
  let restored := (FileProviderProfileStateBackend_load_store elements 5000 (persist_all late_writes empty_file)).1 in
  ss_revision restored = 2%Z /\
  store_entry restored "a" = prune_entry 5000 (shift_entry 2000 5000 <$> store_entry marked_store "a").
Proof.
  intros restored.
  set (newest := ProviderProfileStateStore_to_snapshot 2000 7 marked_store).
  destruct (profile_state_survives_restart health_policy 7 ProviderProfileStateStore_default two_marks last_mark
    calm_files (positive_digits (encode newest)) late_writes empty_file (10 ^ 15) elements 5000)
    as (_ & Hr & He & _).
  - apply store_default_ok.
  - vm_compute. discriminate.
  - vm_compute. discriminate.
  - unfold late_writes. rewrite map_map, map_id. apply reverse_Permutation.
  - unfold late_writes. vm_compute. apply list_elem_of_here.
  - reflexivity.
  - reflexivity.
  - unfold decode_snapshot, digit_snapshots. rewrite digits_round_trip. apply decode_encode.
  - intros s. reflexivity.
  - split; vm_compute; split; first [discriminate|reflexivity].
  - intros k e. unfold store_entry.
    intros Hk. exact (marked_store_fits k e Hk).
  - split; [exact Hr|apply He].
Defined.

(** ** A request to a provider that is overloaded for ever *)

(** The calls made, the milliseconds slept, and whether tools are still sent. *)
Record CallCount : Type := { calls_made : nat; ms_slept : Z; tools_sent : bool }.

Definition sample_provider : ProviderConfig := {|
  pc_kind := KindOpenai; pc_model := "auto"; pc_wire_api := WireChatCompletions; pc_preferred_models := [];
  pc_reasoning_effort := None; pc_max_tokens := Some 100%Z; pc_request_timeout_ms := 30000;
  pc_retry_max_attempts := 3; pc_retry_initial_backoff_ms := 100; pc_retry_max_backoff_ms := 1000;
  pc_model_catalog_cache_ttl_ms := 0; pc_model_catalog_stale_if_error_ms := 0;
  pc_model_catalog_cache_max_entries := 1; pc_model_candidate_cooldown_ms := 0;
  pc_model_candidate_cooldown_max_ms := 0; pc_model_candidate_cooldown_max_entries := 1;
  pc_profile_cooldown_ms := 0; pc_profile_cooldown_max_ms := 0; pc_profile_auth_reject_disable_ms := 0;
  pc_profile_state_max_entries := 1; pc_profile_health_mode := HealthProviderDefault;
  pc_tool_schema_mode := SchemaProviderDefault; pc_reasoning_extra_body_mode := ExtraProviderDefault;
  pc_tool_schema_disabled_model_hints := []; pc_tool_schema_strict_model_hints := [];
  pc_reasoning_extra_body_kimi_model_hints := []; pc_reasoning_extra_body_omit_model_hints := [] |}.

Definition sample_capability : ProviderCapabilityContract :=
  {| cc_tool_schema_mode := EnabledWithDowngradeOnUnsupported; cc_reasoning_extra_body_mode := OmitExtraBody |}.

Definition overloaded : TransportResponse :=
  {| tr_status := 503; tr_headers := []; tr_body := JNull; tr_rate_limit := None |}.

Definition overloaded_runtime : ModelRequestRuntime CallCount json := {|
  mr_provider := sample_provider; mr_model := "large";
  mr_runtime_contract := build_provider_runtime_contract sample_provider ModeOpenAiChatCompletions OpenAiCompatible;
  mr_capability := sample_capability; mr_auto_model_mode := true;
  mr_request_policy := ProviderRequestPolicy_from_config sample_provider;
  mr_prepare := Ok;
  mr_execute := fun _ s => (Returned (Ok overloaded),
    {| calls_made := S (calls_made s); ms_slept := ms_slept s; tools_sent := tools_sent s |});
  mr_system_now := ret 0%Z;
  mr_sleep := fun d s => (Returned tt,
    {| calls_made := calls_made s; ms_slept := ms_slept s + d; tools_sent := tools_sent s |});
  mr_retry_progress := None; mr_auth_guidance_hint := None; mr_region_failure_hint := None;
  mr_route_hint := fun _ _ _ _ => None |}.

Definition drop_tools (s : CallCount) : CallCount :=
  {| calls_made := calls_made s; ms_slept := ms_slept s; tools_sent := false |}.

Definition sample_pre_status : ProviderApiError -> M CallCount bool :=
  turn_pre_status_error tools_sent drop_tools sample_capability (mr_runtime_contract overloaded_runtime).

Definition downgrades_left (s : CallCount) : nat := if tools_sent s then 1 else 0.

Lemma overloaded_counted :
  counted overloaded_runtime (fun _ => ret JNull) sample_pre_status calls_made ms_slept downgrades_left.
Proof.
  assert (Hidle : forall X (m : M CallCount X), (forall s, exists x, m s = (Returned x, s)) ->
    counts calls_made ms_slept m (fun _ n t => n = 0 /\ t = 0%Z) (keeps downgrades_left)).
  { intros X m Hm s. destruct (Hm s) as [x E]. exists x, s. split; [done|]. split; [lia|]. split; [lia|done]. }
  split.
  - intros m. apply Hidle. intros s. by exists JNull.
  - intros q s. eexists _, _. split; [done|]. simpl. split; [lia|]. split; [lia|done].
  - apply Hidle. intros s. by exists 0%Z.
  - intros d s. eexists _, _. split; [done|]. simpl. split; [lia|]. split; [lia|done].
  - done.
  - intros e s. unfold sample_pre_status, turn_pre_status_error, bind, gets, modify, ret, downgrades_left.
    destruct (tools_sent s && _ && _) eqn:E.
    + apply andb_prop in E as [[E _]%andb_prop _]. exists true, (drop_tools s). split; [done|].
      simpl. rewrite E. lia.
    + exists false, s. split; [done|]. lia.
Qed.

Lemma model_request_bounded_witness :
  exists r s', execute_model_request overloaded_runtime (fun _ => ret JNull) (fun _ => None : option string)
      "content" sample_pre_status 10 {| calls_made := 0; ms_slept := 0; tools_sent := true |} =
    (Returned (Some r), s') /\ calls_made s' <= 10 /\ (ms_slept s' <= 2000)%Z.
Proof.
  apply (model_request_bounded overloaded_runtime (fun _ => ret JNull) (fun _ => None) "content" sample_pre_status
    sample_provider ModeOpenAiChatCompletions OpenAiCompatible calls_made ms_slept downgrades_left).
  - exact overloaded_counted.
  - apply from_config_ok.
  - reflexivity.
  - vm_compute. lia.
Defined.
